(* ===== verification/_CoqProject ===== *)
-Q . S2P
Prelude.v
Wire.v
Utf8.v
VarInt.v
Codec.v
Frame.v
Version.v
Packet.v
LoginPackets.v
PlayPackets.v
Nbt.v
Json.v
Component.v
Commands.v
Registry.v
DefaultRegistry.v
Bridge.v
Config.v
Router.v
Transport.v
Address.v
Provider.v
Ban.v
Middleware.v
ServerManager.v
Forwarding.v
Backend.v
Ordering.v
EventBus.v
Filters.v
TransportFilters.v
ProxyCommands.v
Tracking.v
Plugins.v
Proxy.v
Session.v
LimboWorld.v
Switch.v
Limbo.v
Wake.v
Auth.v
Accounts.v
Premium.v
LoginPlugin.v
Intercepted.v
Forward.v
Players.v
BanManager.v
InterceptedHandler.v
Console.v
Legacy.v
Passthrough.v
Server.v
Status.v
StatusHandler.v
Migrate.v
