(* ===== verification/Prelude.v ===== *)
(** * Infrarust: a verification development

    Infrarust is a Minecraft reverse proxy in Rust.  A client connects and names a domain in
    its handshake; the proxy finds the configuration of that domain, decides whether the
    client may enter, and then either copies bytes to the backend (passthrough modes) or
    takes part in the protocol itself (intercepted modes): it authenticates the player,
    logs in to a backend in the player's name, forwards and filters packets, moves the
    player between backends, and can hold the player in a world of its own, limbo.  Around
    this are a cache of status answers, bans, plugins with an event bus, commands, tasks and
    filters, and a manager that starts and stops backends; one plugin makes players of
    offline servers log in with a password, another wakes a server up when a player comes.

    This library models those parts as executable definitions and proves what makes them
    correct.  Definitions keep the names of the source; each file says which source files
    it models.  Source paths below are under src/crates/, where core is infrarust-core/src,
    protocol is infrarust_protocol/src, api is infrarust-api/src, config is
    infrarust_config/src, transport is infrarust-transport/src and manager is
    infrarust_server_manager/src; login is src/plugins/infrarust-plugin-auth/src
    and wake is src/plugins/infrarust-plugin-server-wake/src.

    ** The parts, from the wire up

    The protocol crate.
    - [Wire], [Utf8], [VarInt], [Codec]: errors, readers and writers, strings, variable
      length integers and the primitive types (protocol/error.rs, codec/).
    - [Frame]: frames with and without compression, the decoder that is fed chunks and the
      encoder (protocol/io/).  Any cutting of a stream into chunks gives the same frames,
      and what is framed is read back.
    - [Version], [Packet], [LoginPackets], [PlayPackets], [Commands], [Nbt]: versions, the
      [Packet] trait and its contract [PacketLaws], every packet with its round trip in
      every version, NBT and the dimension of a join packet (protocol/packets/, nbt.rs).
    - [Registry], [DefaultRegistry]: the registry and the table the proxy registers
      (protocol/registry/).  In each of the supported versions each packet has an id whose
      decoder is its own.
    - [Legacy] has the formats from before 1.7 (protocol/legacy/) with their handler.

    One connection of the core.
    - [Bridge], [Backend]: the client's and the backend's end, with cipher, compression and
      the login to a backend (core/session/client_bridge.rs, backend_bridge.rs).
    - [Middleware]: the pipeline from the first byte to a routed login (core/middleware/,
      pipeline/).
    - [Server]: which handler serves a connection (handle_connection of core/server.rs).
    - [Forward], [Passthrough]: copying bytes, also through kernel pipes, and the handler of
      the modes that do (transport/forward.rs, core/handler/passthrough.rs).
    - [Auth]: logging a player in, with Mojang or offline (core/auth/,
      core/handler/intercepted/auth.rs).
    - [Session]: the loop between client and backend (core/session/proxy_loop.rs).
    - [Switch]: moving to another backend (core/session/server_switch/).
    - [LimboWorld], [Limbo]: the limbo world, its keepalives, sessions and the chain of
      handlers (core/limbo/).
    - [Intercepted], [InterceptedHandler]: where a player goes first, the loop between
      backends and limbo, and the handler from the login to the end of the session
      (core/handler/intercepted/).
    - [Forwarding]: how a backend learns who the player is (core/forwarding/).
    - [Status], [StatusHandler]: answers for the server list (core/status/).

    What connections share.
    - [Address], [Config], [Proxy], [Provider], [Router]: addresses and their texts,
      configurations of servers and of the proxy and their validation, the files they come
      from, and the router (config/, core/provider/, core/routing/).
    - [Migrate]: the conversion of configuration files of version 1 (config/migrate/).
    - [Ban], [BanManager]: who is banned, the file that says so, and the players a ban kicks
      (core/ban/, services/ban_bridge.rs).
    - [Players]: the sessions that are open (core/registry.rs, core/player/).
    - [EventBus], [Ordering], [Filters], [TransportFilters]: listeners, the order of filters
      and plugins, filter chains (core/event_bus/, core/filter/, core/plugin/dependency.rs).
    - [Tracking], [Plugins]: the scheduler; the contexts of plugins, which keep what a plugin
      registers so that it can be taken back, the loaders and the manager (core/plugin/,
      core/services/scheduler.rs, core/provider/plugin_adapter.rs).
    - [ProxyCommands], [Component], [Json]: permissions, commands and the command tree the
      client sees, rich text and JSON (core/commands/, core/services/, api/types/).
    - [Console]: what the administrator types, and the commands about players, bans and
      admins (core/console/).
    - [Transport]: the proxy protocol, accepting and connecting (transport/).
    - [ServerManager]: starting and stopping backends (manager/).
    - [Accounts], [Premium], [LoginPlugin]: the login plugin, which holds a player in limbo
      until the password is right: its file of accounts, the lookup of premium names, its
      limbo handler and its commands (login/).
    - [Wake]: the plugin that starts a sleeping server and holds its players in limbo until
      it is up (wake/, core/services/server_manager_bridge.rs).

    ** How things are modelled

    Integers are [Z] with their width written out where it matters ([in_s], [in_u],
    [wrap_s], [wrap_u] below).  Bytes and strings are lists.  A Rust error is an [Err] of
    [result]; code that threads a state is in a small state and error monad of its file.
    A socket is the list of the chunks its reads will yield with what was written to it.
    Code that runs concurrently is cut where it awaits: [Session], [Switch], [Limbo] and
    [Intercepted] run against a schedule that says what is ready next; [ServerManager],
    [StatusHandler] and [Players] have a step relation or a sequence of steps for tasks
    that take turns, [BanManager] and [Wake] a run of events; [Forward] has a schedule of what
    the operating system does; [InterceptedHandler] takes what other tasks do meanwhile as
    functions.  Shared objects that change in place live in a store ([Players]).  [Tracking]
    has the class [Tracked] of services a plugin registers things with, with one instance for
    each; the cleanup of a plugin is proved against it.

    Libraries are parameters with the laws of their documentation, and each has an instance
    that shows the laws can hold: concurrent maps ([DashMap], [assoc_map]), zlib ([Zlib],
    [stored_zlib]), the CFB-8 cipher ([Cfb8], [toy_cfb8]), JSON parsing ([SerdeJson],
    [reference_parser]), the proxy protocol ([Ppp], [spec_ppp]), address blocks, case
    mapping, wild cards, HMAC, the texts of uuids, the rate limiter, the YAML and TOML
    readers of [Migrate] and the password hash of [LoginPlugin].

    ** What is proved

    - Packets survive the transport: [session_transport],
      [chunking_irrelevant], [all_packets_roundtrip], [default_registry_roundtrip],
      [register_mapping_in_force].
    - A connection is admitted, routed and handed over as configured: [pipeline_admits],
      [handshake_parser_accepts], [rewrite_handshake_exact], [router_refines],
      [passthrough_end_to_end], [splice_refines_copy].  Nobody who is banned plays on:
      [banned_players_out].
    - A session does what it should: [online_only_when_verified], [sessions_start_and_end],
      [backend_login_handover],
      [play_traffic_forwarded], [session_phases], [chat_and_commands], [session_switches],
      [session_location_tracked], [stalled_switch_leaves_config], [limbo_spawn_sent],
      [limbo_keepalive_exact].
    - The login plugin lets in who has the password, after every restart, and nobody else
      (but for the dummy hash, which opens an account deleted during its login):
      [login_limbo_admits], [wrong_passwords_kick], [accounts_survive_restart].
    - The server list is answered from the backend, and asks it no more than once in the
      lifetime of an answer: [status_relayed], [one_relay_at_a_time].
    - What is shared stays consistent: [compute_diff_syncs], [migrated_servers_load],
      [registry_has_the_connected], [event_bus_refines], [filter_order_correct],
      [inject_keeps_tree], [component_json_roundtrip].
    - Plugins start after what they depend on and stop before it, and leave no listener,
      command, task or configuration behind (filters and limbo handlers stay):
      [plugins_follow_dependencies], [stopped_plugins_leave_nothing].
    - Whoever waits for a server hears of it, if it does not come online while an entry is
      still being written down: [waiters_answered_once],
      [wake_up_reaches_player], [waiting_players_released].

    Theorems after the heading of a sample or of a limit show behaviour of the code that is
    not what its comments say or that it should not have; the manifest lists them as
    findings.

    ** Fuel

    [Nbt]'s skipper has three units per byte and three more ([skip_fuel]); the login loop of
    [Backend] one per byte ([consume_login_enough]); Kahn's algorithm in [Ordering] one round
    per node ([kahn_correct]).  The schedules of [Session], [Switch], [Limbo] and
    [Intercepted] are not fuel: a run that reaches the end of its schedule is still waiting,
    and the theorems say what has happened until then.

    ** What is not modelled

    Operating system calls, TLS, HTTP and processes; the wasm plugin host and its sdk,
    bindings between a plugin interface and an engine; telemetry and the web interface; the
    console commands that show or start servers; the docker provider; the construction of services in server.rs and main.rs;
    the other plugins.  The texts of error messages are shortened where nothing depends on
    them. *)
From Stdlib Require Export ZArith Lia.
From stdpp Require Export base tactics option list list_numbers numbers strings
  countable finite gmap sorting pretty.

(** ** Notations and scopes *)

Declare Scope infrarust_scope.
Delimit Scope infrarust_scope with ir.
#[global] Open Scope Z_scope.

(** A byte string: every element is meant to be in [0, 256), which [is_bytes]
    states. *)
Abbreviation bytes := (list Z).

(** The number of elements as a [Z], the model of a [usize] length. *)
Definition zlen {A} (l : list A) : Z := Z.of_nat (length l).

(** ** Results *)

(** Rust's [Result<A, E>]. *)
Inductive result (E A : Type) : Type :=
| Ok (a : A)
| Err (e : E).
Arguments Ok {E A} a.
Arguments Err {E A} e.

#[export] Instance result_eq_dec {E A} `{EqDecision E, EqDecision A} :
  EqDecision (result E A).
Proof. solve_decision. Defined.

#[export] Instance result_ret {E} : MRet (result E) := λ A a, Ok a.
#[export] Instance result_bind {E} : MBind (result E) := λ A B f m,
  match m with Ok a => f a | Err e => Err e end.
#[export] Instance result_fmap {E} : FMap (result E) := λ A B f m,
  match m with Ok a => Ok (f a) | Err e => Err e end.

Definition is_Ok {E A} (r : result E A) : bool :=
  match r with Ok _ => true | Err _ => false end.

Lemma Ok_inj {E A} (a b : A) : @Ok E A a = Ok b → a = b.
Proof. by intros [=]. Qed.

Lemma result_bind_Ok {E A B} (m : result E A) (f : A → result E B) b :
  m ≫= f = Ok b ↔ ∃ a, m = Ok a ∧ f a = Ok b.
Proof.
  destruct m as [a|e]; simpl; split; [by eauto|by intros (?&[= <-]&?)|done|].
  by intros (?&?&?).
Qed.

(** ** Machine integers

    A [w]-bit integer is a [Z]; [wrap_u] and [wrap_s] are Rust's [as] casts to
    the unsigned and the signed type of that width. *)

Definition in_u (w z : Z) : Prop := 0 ≤ z < 2 ^ w.
Definition in_s (w z : Z) : Prop := - 2 ^ (w - 1) ≤ z < 2 ^ (w - 1).
Definition wrap_u (w z : Z) : Z := z mod 2 ^ w.
Definition wrap_s (w z : Z) : Z := (z + 2 ^ (w - 1)) mod 2 ^ w - 2 ^ (w - 1).

#[export] Instance in_u_dec w z : Decision (in_u w z).
Proof. unfold in_u. apply _. Defined.
#[export] Instance in_s_dec w z : Decision (in_s w z).
Proof. unfold in_s. apply _. Defined.

(** [uN::leading_zeros] of the [w]-bit word [x]. *)
Definition leading_zeros (w x : Z) : Z :=
  if decide (x = 0) then w else w - 1 - Z.log2 x.

Lemma pow2_pos w : 0 ≤ w → 0 < 2 ^ w.
Proof. intros. apply Z.pow_pos_nonneg; lia. Qed.

Lemma pow2_half w : 0 < w → 2 ^ w = 2 * 2 ^ (w - 1).
Proof. intros. rewrite <- Z.pow_succ_r by lia. f_equal. lia. Qed.

Section machine_integers.
Context (w : Z) (Hw : 0 < w).

Lemma wrap_u_range z : in_u w (wrap_u w z).
Proof using Hw. apply Z.mod_pos_bound, pow2_pos. lia. Qed.

Lemma wrap_u_small z : in_u w z → wrap_u w z = z.
Proof. apply Z.mod_small. Qed.

Lemma wrap_s_range z : in_s w (wrap_s w z).
Proof using Hw.
  unfold wrap_s, in_s.
  pose proof (Z.mod_pos_bound (z + 2 ^ (w - 1)) (2 ^ w) (pow2_pos w ltac:(lia))).
  pose proof (pow2_half w Hw). lia.
Qed.

Lemma wrap_s_small z : in_s w z → wrap_s w z = z.
Proof using Hw.
  unfold wrap_s, in_s. intros. pose proof (pow2_half w Hw).
  rewrite Z.mod_small; lia.
Qed.

Lemma wrap_s_0 : wrap_s w 0 = 0.
Proof using Hw.
  apply wrap_s_small. unfold in_s. pose proof (pow2_pos (w - 1) ltac:(lia)). lia.
Qed.

Lemma wrap_s_wrap_u z : wrap_s w (wrap_u w z) = wrap_s w z.
Proof using Hw.
  unfold wrap_s, wrap_u. rewrite Z.add_mod_idemp_l; [done|].
  pose proof (pow2_pos w ltac:(lia)). lia.
Qed.

Lemma wrap_u_wrap_s z : wrap_u w (wrap_s w z) = wrap_u w z.
Proof using Hw.
  unfold wrap_s, wrap_u. rewrite Zminus_mod_idemp_l. f_equal. lia.
Qed.

(** Casting to the unsigned type and back is the identity. *)
Lemma wrap_s_of_u z : in_s w z → wrap_s w (wrap_u w z) = z.
Proof using Hw. intros. rewrite wrap_s_wrap_u. by apply wrap_s_small. Qed.

Lemma wrap_u_of_s z : in_u w z → wrap_u w (wrap_s w z) = z.
Proof using Hw. intros. rewrite wrap_u_wrap_s. by apply wrap_u_small. Qed.

(** The signed reading of a [w]-bit word. *)
Lemma wrap_s_unfold z : in_u w z →
  wrap_s w z = if decide (z < 2 ^ (w - 1)) then z else z - 2 ^ w.
Proof using Hw.
  unfold wrap_s, in_u. intros. pose proof (pow2_half w Hw). case_decide.
  - rewrite Z.mod_small; lia.
  - rewrite <- (Z.mod_unique (z + 2 ^ (w - 1)) (2 ^ w) 1 (z - 2 ^ (w - 1))); lia.
Qed.

(** A signed cast keeps the low [w] bits and repeats the top one. *)
Lemma testbit_wrap_s z n : 0 ≤ n →
  Z.testbit (wrap_s w z) n = Z.testbit z (n `min` (w - 1)).
Proof using Hw.
  intros Hn. rewrite <- wrap_s_wrap_u.
  assert (Hlow : ∀ m, 0 ≤ m < w → Z.testbit z m = Z.testbit (wrap_u w z) m).
  { intros m Hm. unfold wrap_u. by rewrite Z.mod_pow2_bits_low by lia. }
  rewrite Hlow by lia.
  pose proof (wrap_u_range z) as Hu. revert Hu. generalize (wrap_u w z) as u.
  clear z Hlow. intros u Hu. rewrite wrap_s_unfold by done.
  unfold in_u in Hu. pose proof (pow2_half w Hw) as Hh.
  assert (Htop : Z.testbit u (w - 1) = bool_decide (2 ^ (w - 1) ≤ u)).
  { rewrite Z.testbit_odd, Z.shiftr_div_pow2 by lia.
    case_bool_decide.
    - rewrite <- (Z.div_unique u (2 ^ (w - 1)) 1 (u - 2 ^ (w - 1))); [done| |lia].
      left. lia.
    - rewrite Z.div_small by lia. done. }
  destruct (decide (u < 2 ^ (w - 1))) as [Hlt|Hlt].
  - destruct (decide (n < w - 1)); [by rewrite Z.min_l by lia|].
    rewrite Z.min_r by lia. rewrite Htop.
    rewrite bool_decide_eq_false_2 by lia.
    destruct (decide (u = 0)) as [->|]; [apply Z.testbit_0_l|].
    apply Z.bits_above_log2; [lia|].
    enough (Z.log2 u < w - 1) by lia. apply Z.log2_lt_pow2; lia.
  - destruct (decide (n < w)).
    + rewrite <- (Z.mod_pow2_bits_low (u - 2 ^ w) w n) by lia.
      rewrite <- (Z.mod_unique (u - 2 ^ w) (2 ^ w) (-1) u) by lia.
      f_equal. lia.
    + rewrite Z.min_r, Htop, bool_decide_eq_true_2 by lia.
      apply Z.bits_above_log2_neg; [lia|].
      destruct (decide (u = 2 ^ w - 1)) as [->|].
      { replace (Z.pred (- (2 ^ w - 1 - 2 ^ w))) with 0 by lia. change (Z.log2 0) with 0. lia. }
      enough (Z.log2 (Z.pred (- (u - 2 ^ w))) < w) by lia.
      apply Z.log2_lt_pow2; lia.
Qed.

Lemma wrap_s_lor a b : wrap_s w (Z.lor a b) = Z.lor (wrap_s w a) (wrap_s w b).
Proof using Hw.
  apply Z.bits_inj'. intros n Hn.
  by rewrite Z.lor_spec, !testbit_wrap_s, Z.lor_spec by lia.
Qed.
End machine_integers.

(** Joining disjoint bit ranges is an addition. *)
Lemma lor_disjoint_add a d k :
  0 ≤ k → 0 ≤ a < 2 ^ k → Z.lor a (Z.shiftl d k) = a + d * 2 ^ k.
Proof.
  intros Hk Ha. rewrite <- Z.shiftl_mul_pow2 by lia.
  rewrite Z.add_nocarry_lxor, <- Z.lxor_lor; [done|..].
  all: apply Z.bits_inj'; intros n Hn; rewrite Z.land_spec, Z.testbit_0_l.
  all: rewrite Z.shiftl_spec by lia.
  all: destruct (decide (n < k));
    [rewrite (Z.testbit_neg_r d) by lia; by rewrite andb_false_r|].
  all: replace a with (a mod 2 ^ k) by (by apply Z.mod_small).
  all: by rewrite Z.mod_pow2_bits_high by lia.
Qed.

Lemma lor_add_low a d k :
  0 ≤ k → 0 ≤ a < 2 ^ k → Z.lor (d * 2 ^ k) a = d * 2 ^ k + a.
Proof.
  intros. rewrite Z.lor_comm, <- Z.shiftl_mul_pow2 by lia.
  rewrite lor_disjoint_add by lia. rewrite Z.shiftl_mul_pow2 by lia. lia.
Qed.

Lemma land_ones_mod a k : 0 ≤ k → Z.land a (2 ^ k - 1) = a mod 2 ^ k.
Proof. intros. rewrite <- Z.land_ones by lia. f_equal. rewrite Z.ones_equiv. lia. Qed.

(** ** Lengths and splits *)

Lemma zlen_nonneg {A} (l : list A) : 0 ≤ zlen l.
Proof. unfold zlen. lia. Qed.
Lemma zlen_nil {A} : zlen (@nil A) = 0.
Proof. done. Qed.
Lemma zlen_cons {A} (x : A) l : zlen (x :: l) = 1 + zlen l.
Proof. unfold zlen. simpl. lia. Qed.
Lemma zlen_app {A} (l k : list A) : zlen (l ++ k) = zlen l + zlen k.
Proof. unfold zlen. rewrite length_app. lia. Qed.

Lemma take_zlen_app {A} (l k : list A) : take (Z.to_nat (zlen l)) (l ++ k) = l.
Proof. unfold zlen. by rewrite Nat2Z.id, take_app_length. Qed.
Lemma drop_zlen_app {A} (l k : list A) : drop (Z.to_nat (zlen l)) (l ++ k) = k.
Proof. unfold zlen. by rewrite Nat2Z.id, drop_app_length. Qed.

(** ** Bytes *)

Definition is_byte (b : Z) : Prop := 0 ≤ b < 256.
Definition is_bytes (bs : bytes) : Prop := Forall is_byte bs.

#[export] Instance is_byte_dec b : Decision (is_byte b).
Proof. unfold is_byte. apply _. Defined.
#[export] Instance is_bytes_dec bs : Decision (is_bytes bs).
Proof. unfold is_bytes. apply _. Defined.

(** [to_le_bytes] and [to_be_bytes] of an [n]-byte integer, signed or not: the
    digits of its two's complement representation. *)
Fixpoint to_le_bytes (n : nat) (z : Z) : bytes :=
  match n with
  | O => []
  | S n => z mod 256 :: to_le_bytes n (z / 256)
  end.
Definition to_be_bytes (n : nat) (z : Z) : bytes := reverse (to_le_bytes n z).

(** The unsigned value of a little-endian or a big-endian digit string. *)
Definition from_le_bytes (bs : bytes) : Z := foldr (λ b acc, b + 256 * acc) 0 bs.
Definition from_be_bytes (bs : bytes) : Z := from_le_bytes (reverse bs).

Lemma length_to_le_bytes n z : length (to_le_bytes n z) = n.
Proof. revert z. induction n; intros; simpl; auto. Qed.
Lemma length_to_be_bytes n z : length (to_be_bytes n z) = n.
Proof. unfold to_be_bytes. by rewrite length_reverse, length_to_le_bytes. Qed.

Lemma to_le_bytes_bytes n z : is_bytes (to_le_bytes n z).
Proof.
  revert z. induction n; intros; simpl; constructor; [|by apply IHn].
  apply Z.mod_pos_bound. lia.
Qed.
Lemma to_be_bytes_bytes n z : is_bytes (to_be_bytes n z).
Proof. apply Forall_reverse, to_le_bytes_bytes. Qed.

Lemma from_to_le_bytes n z :
  from_le_bytes (to_le_bytes n z) = z mod 2 ^ (8 * Z.of_nat n).
Proof.
  revert z. induction n as [|n IH]; intros z; simpl.
  { by rewrite Z.mod_1_r. }
  rewrite IH. replace (8 * Z.of_nat (S n)) with (8 + 8 * Z.of_nat n) by lia.
  rewrite Z.pow_add_r by lia. change (2 ^ 8) with 256.
  pose proof (pow2_pos (8 * Z.of_nat n) ltac:(lia)).
  rewrite Z.rem_mul_r by lia. done.
Qed.

Lemma from_to_be_bytes n z :
  from_be_bytes (to_be_bytes n z) = z mod 2 ^ (8 * Z.of_nat n).
Proof.
  unfold from_be_bytes, to_be_bytes. by rewrite reverse_involutive, from_to_le_bytes.
Qed.

Lemma from_le_bytes_range bs :
  is_bytes bs → 0 ≤ from_le_bytes bs < 2 ^ (8 * zlen bs).
Proof.
  induction 1 as [|b bs Hb _ IH]; simpl; [done|].
  rewrite zlen_cons, Z.mul_add_distr_l, Z.pow_add_r by (pose proof (zlen_nonneg bs); lia).
  change (2 ^ (8 * 1)) with 256. unfold is_byte in Hb. lia.
Qed.

Lemma from_be_bytes_range bs :
  is_bytes bs → 0 ≤ from_be_bytes bs < 2 ^ (8 * zlen bs).
Proof.
  intros. unfold from_be_bytes.
  replace (zlen bs) with (zlen (reverse bs)) by (unfold zlen; by rewrite length_reverse).
  by apply from_le_bytes_range, Forall_reverse.
Qed.

(** A decidable statement about all bytes is checked by evaluation. *)
Lemma byte_forall (P : Z → Prop) `{∀ b, Decision (P b)} :
  forallb (λ b, bool_decide (P b)) (seqZ 0 256) = true → ∀ b, is_byte b → P b.
Proof.
  intros HP b Hb. apply Is_true_true, forallb_True in HP.
  rewrite Forall_forall in HP. apply (bool_decide_unpack _), HP, elem_of_seqZ.
  unfold is_byte in Hb. lia.
Qed.

Lemma is_bytes_app l k : is_bytes (l ++ k) ↔ is_bytes l ∧ is_bytes k.
Proof. apply Forall_app. Qed.

(** [{:02X}] of an [i32]. *)
Fixpoint hex_digits (fuel : nat) (z : Z) : string :=
  match fuel with
  | O => ""
  | S fuel =>
    let digit := String.substring (Z.to_nat (z mod 16)) 1 "0123456789ABCDEF" in
    if decide (z < 16) then digit else hex_digits fuel (z / 16) +:+ digit
  end.
Definition hex02 (z : Z) : string :=
  let h := hex_digits 8 (wrap_u 32 z) in
  if decide (String.length h < 2)%nat then "0" +:+ h else h.

(** ** Automation *)

Create HintDb ir_bytes.
#[export] Hint Resolve zlen_nonneg to_be_bytes_bytes to_le_bytes_bytes : ir_bytes.

(** Splits the hypotheses that are conjunctions, existentials or equations
    between constructors. *)
Ltac inv_all :=
  repeat match goal with
  | H : ∃ _, _ |- _ => destruct H
  | H : _ ∧ _ |- _ => destruct H
  end; simplify_eq.

(** Case analysis on the discriminee of a match or an if in hypothesis [H]. *)
Ltac case_in H :=
  match type of H with
  | context [ match ?x with _ => _ end ] => let E := fresh "E" in destruct x eqn:E
  end.

(** The same, until [H] has no match left; the impossible cases are closed. *)
Ltac cases_in H := repeat (case_in H; simplify_eq/=).
