(* ===== verification/Wire.v ===== *)
(** * Wire: protocol errors, readers and writers

    [ProtocolError] models [infrarust_protocol::error].  A [reader] models a
    function on the cursor [&mut &[u8]]: it takes the bytes under the cursor and
    gives its value with the bytes left, or an error (the code leaves a decoder
    on the first error with [?], so the cursor after an error is not observed).
    A writer is the byte string a function appends to its [impl Write] when it
    succeeds; the writers of the code are [Vec<u8>] and [BytesMut], whose
    [write_all] does not fail.

    [reads] is the interface of the components above: what it means for a reader
    to undo a writer, with the lemmas that compose it along a decoder. *)
From S2P Require Import Prelude.

(** ** Errors *)

(** The kinds of [std::io::Error] the code tells apart. *)
Inductive IoErrorKind :=
| WouldBlock
| UnexpectedEof
| OtherIo (name : string).

Inductive ProtocolError :=
| Incomplete (context : string)
| Invalid (context : string)
| TooLarge (max actual : Z)
| Io (kind : IoErrorKind).

#[export] Instance IoErrorKind_eq_dec : EqDecision IoErrorKind.
Proof. solve_decision. Defined.
#[export] Instance ProtocolError_eq_dec : EqDecision ProtocolError.
Proof. solve_decision. Defined.

Abbreviation ProtocolResult := (result ProtocolError).

Definition is_incomplete (e : ProtocolError) : bool :=
  match e with Incomplete _ => true | _ => false end.

Definition is_fatal (e : ProtocolError) : bool :=
  match e with
  | Incomplete _ => false
  | Invalid _ | TooLarge _ _ => true
  | Io kind => match kind with WouldBlock | UnexpectedEof => false | _ => true end
  end.

(** ** Readers *)

Definition reader (A : Type) : Type := bytes → ProtocolResult (A * bytes).

#[export] Instance reader_ret : MRet reader := λ A a r, Ok (a, r).
#[export] Instance reader_bind : MBind reader := λ A B f m r,
  match m r with Ok (a, r') => f a r' | Err e => Err e end.

Definition reader_fail {A} (e : ProtocolError) : reader A := λ _, Err e.

(** [<&[u8] as Read>::read_exact] into a buffer of [n] bytes. *)
Definition read_exact (n : Z) : reader bytes := λ r,
  if decide (n ≤ zlen r)
  then Ok (take (Z.to_nat n) r, drop (Z.to_nat n) r)
  else Err (Io UnexpectedEof).

(** [<&[u8] as Read>::read_to_end]. *)
Definition read_to_end : reader bytes := λ r, Ok (r, []).

(** [n] iterations of a loop body that pushes one decoded element. *)
Fixpoint read_n {A} (n : nat) (body : reader A) : reader (list A) :=
  match n with
  | O => mret []
  | S n => x ← body; xs ← read_n n body; mret (x :: xs)
  end.

(** ** Writers *)

(** What [a?; b?] appends. *)
Definition wr_app (a b : ProtocolResult bytes) : ProtocolResult bytes :=
  match a with
  | Ok x => match b with Ok y => Ok (x ++ y) | Err e => Err e end
  | Err e => Err e
  end.
Infix "+>" := wr_app (at level 60, right associativity) : infrarust_scope.
#[global] Open Scope infrarust_scope.

(** A loop that writes each element. *)
Definition wr_list {A} (f : A → ProtocolResult bytes) (l : list A) : ProtocolResult bytes :=
  foldr (λ x acc, f x +> acc) (Ok []) l.

Lemma wr_app_Ok a b bs :
  a +> b = Ok bs ↔ ∃ x y, a = Ok x ∧ b = Ok y ∧ bs = x ++ y.
Proof.
  destruct a as [x|e]; [destruct b as [y|e]|]; simpl; split;
    try (by intros (?&?&?&?&?)); try done.
  - intros [= <-]. eauto.
  - by intros (?&?&[= <-]&[= <-]&->).
Qed.

Lemma wr_app_nil_r a : a +> Ok [] = a.
Proof. destruct a; simpl; [by rewrite app_nil_r|done]. Qed.

(** ** Readers that undo writers *)

(** [r] reads [bs] as [a] and leaves what follows [bs]. *)
Definition reads {A} (r : reader A) (bs : bytes) (a : A) : Prop :=
  ∀ rest, r (bs ++ rest) = Ok (a, rest).

(** [r] reads [bs] as [a] when nothing follows [bs]. *)
Definition reads_all {A} (r : reader A) (bs : bytes) (a : A) : Prop :=
  r bs = Ok (a, []).

Section reads.
Context {A B : Type}.
Implicit Types (r : reader A) (k : A → reader B).

Lemma reads_ret (a : A) : reads (mret a) [] a.
Proof. done. Qed.

Lemma reads_bind r k bs bs' a b :
  reads r bs a → reads (k a) bs' b → reads (r ≫= k) (bs ++ bs') b.
Proof.
  intros Hr Hk rest. rewrite <- app_assoc. cbv [mbind reader_bind].
  by rewrite Hr, Hk.
Qed.

Lemma reads_bind_ret r k bs a b :
  reads r bs a → k a = mret b → reads (r ≫= k) bs b.
Proof.
  intros Hr Hk. rewrite <- (app_nil_r bs). apply (reads_bind _ _ _ _ a); [done|].
  by rewrite Hk.
Qed.

Lemma reads_all_bind r k bs bs' a b :
  reads r bs a → reads_all (k a) bs' b → reads_all (r ≫= k) (bs ++ bs') b.
Proof.
  unfold reads_all. intros Hr Hk. cbv [mbind reader_bind]. by rewrite Hr, Hk.
Qed.

Lemma reads_reads_all r bs a : reads r bs a → reads_all r bs a.
Proof. intros Hr. unfold reads_all. by rewrite <- (Hr []), app_nil_r. Qed.
End reads.

Lemma reads_exact bs n : n = zlen bs → reads (read_exact n) bs bs.
Proof.
  intros -> rest. unfold read_exact. rewrite decide_True.
  - by rewrite take_zlen_app, drop_zlen_app.
  - rewrite zlen_app. pose proof (zlen_nonneg rest). lia.
Qed.

Lemma reads_all_to_end bs : reads_all read_to_end bs bs.
Proof. done. Qed.

(** A reader that undoes the writer of one element undoes the loop. *)
Lemma reads_n {A} (body : reader A) (f : A → ProtocolResult bytes) (P : A → Prop) :
  (∀ x bs, P x → f x = Ok bs → reads body bs x) →
  ∀ l bs, Forall P l → wr_list f l = Ok bs → reads (read_n (length l) body) bs l.
Proof.
  intros Hf l. induction l as [|x l IH]; intros bs HP; simpl.
  { intros [= <-]. apply reads_ret. }
  intros (b1&b2&Hx&Hl&->)%wr_app_Ok. apply Forall_cons in HP as [HPx HPl].
  eapply reads_bind; [by eapply Hf|].
  eapply reads_bind_ret; [by eapply IH|done].
Qed.

(** A reader consumes a prefix of its input: what it leaves is a suffix. *)
Definition consumes {A} (r : reader A) : Prop :=
  ∀ bs a rest, r bs = Ok (a, rest) → ∃ used, bs = used ++ rest.

Lemma consumes_ret {A} (a : A) : consumes (mret a).
Proof. intros bs a' rest [= -> ->]. by exists []. Qed.

Lemma consumes_fail {A} e : consumes (@reader_fail A e).
Proof. by intros bs a rest. Qed.

Lemma consumes_bind {A B} (r : reader A) (k : A → reader B) :
  consumes r → (∀ a, consumes (k a)) → consumes (r ≫= k).
Proof.
  intros Hr Hk bs b rest. cbv [mbind reader_bind].
  destruct (r bs) as [[a r']|e] eqn:E; [|done]. intros E'.
  destruct (Hr _ _ _ E) as [u ->], (Hk _ _ _ _ E') as [u' ->].
  exists (u ++ u'). by rewrite app_assoc.
Qed.

Lemma consumes_exact n : consumes (read_exact n).
Proof.
  intros bs a rest. unfold read_exact. case_decide; [|done]. intros [= <- <-].
  eexists. symmetry. apply take_drop.
Qed.

Lemma consumes_to_end : consumes read_to_end.
Proof. intros bs a rest [= <- <-]. exists bs. by rewrite app_nil_r. Qed.

Lemma consumes_n {A} n (body : reader A) : consumes body → consumes (read_n n body).
Proof.
  intros Hb. induction n; simpl; [apply consumes_ret|].
  apply consumes_bind; [done|]. intros. apply consumes_bind; [done|].
  intros. apply consumes_ret.
Qed.

(** ** Automation

    [codec] holds one fact per primitive: its reader undoes its writer. *)
Create HintDb codec.
#[export] Hint Resolve reads_exact reads_all_to_end : codec.

Create HintDb consumes.
#[export] Hint Resolve consumes_ret consumes_fail consumes_bind consumes_exact
  consumes_to_end consumes_n : consumes.

(** Inverts a hypothesis that a chain of writes succeeded. *)
Ltac inv_writes :=
  repeat match goal with
  | H : _ +> _ = Ok _ |- _ =>
      let x := fresh "bs" in let y := fresh "bs" in
      let Hx := fresh "Hw" in let Hy := fresh "Hw" in
      apply wr_app_Ok in H as (x & y & Hx & Hy & ->)
  | H : Ok _ = Ok _ |- _ => apply Ok_inj in H; subst
  | H : Err _ = Ok _ |- _ => discriminate H
  end.
