(* ===== verification/Utf8.v ===== *)
(** * Utf8: Rust strings

    A Rust [String] is the list of its Unicode scalar values ([char]s):
    [s.chars().count()] is its length, [s.as_bytes()] is [as_bytes] and
    [String::from_utf8] is [from_utf8], with the well-formedness table of the
    standard library (no overlong form, no surrogate, nothing above U+10FFFF). *)
From S2P Require Import Prelude.

(** A string as its characters. *)
Abbreviation rstring := (list Z).

Definition is_char (c : Z) : Prop := 0 ≤ c < 0xD800 ∨ 0xE000 ≤ c < 0x110000.
Definition is_string (s : rstring) : Prop := Forall is_char s.

#[export] Instance is_char_dec c : Decision (is_char c).
Proof. unfold is_char. apply _. Defined.
#[export] Instance is_string_dec s : Decision (is_string s).
Proof. unfold is_string. apply _. Defined.

Definition encode_utf8 (c : Z) : bytes :=
  if decide (c < 0x80) then [c]
  else if decide (c < 0x800) then [0xC0 + c / 64; 0x80 + c mod 64]
  else if decide (c < 0x10000) then
    [0xE0 + c / 4096; 0x80 + c / 64 mod 64; 0x80 + c mod 64]
  else
    [0xF0 + c / 262144; 0x80 + c / 4096 mod 64; 0x80 + c / 64 mod 64; 0x80 + c mod 64].

Definition as_bytes (s : rstring) : bytes := s ≫= encode_utf8.

Definition is_cont (b : Z) : Prop := 0x80 ≤ b < 0xC0.

(** The second byte that may follow a leading byte of a three-byte form. *)
Definition second3 (b0 b1 : Z) : Prop :=
  (b0 = 0xE0 ∧ 0xA0 ≤ b1 < 0xC0) ∨ (0xE1 ≤ b0 < 0xED ∧ is_cont b1) ∨
  (b0 = 0xED ∧ 0x80 ≤ b1 < 0xA0) ∨ (0xEE ≤ b0 < 0xF0 ∧ is_cont b1).

(** The second byte that may follow a leading byte of a four-byte form. *)
Definition second4 (b0 b1 : Z) : Prop :=
  (b0 = 0xF0 ∧ 0x90 ≤ b1 < 0xC0) ∨ (0xF1 ≤ b0 < 0xF4 ∧ is_cont b1) ∨
  (b0 = 0xF4 ∧ 0x80 ≤ b1 < 0x90).

#[export] Instance is_cont_dec b : Decision (is_cont b).
Proof. unfold is_cont. apply _. Defined.
#[export] Instance second3_dec b0 b1 : Decision (second3 b0 b1).
Proof. unfold second3. apply _. Defined.
#[export] Instance second4_dec b0 b1 : Decision (second4 b0 b1).
Proof. unfold second4. apply _. Defined.

Fixpoint from_utf8 (bs : bytes) : option rstring :=
  match bs with
  | [] => Some []
  | b0 :: r0 =>
    if decide (0 ≤ b0 < 0x80) then cons b0 <$> from_utf8 r0 else
    match r0 with
    | [] => None
    | b1 :: r1 =>
      if decide (0xC2 ≤ b0 < 0xE0 ∧ is_cont b1) then
        cons ((b0 - 0xC0) * 64 + (b1 - 0x80)) <$> from_utf8 r1 else
      match r1 with
      | [] => None
      | b2 :: r2 =>
        if decide (second3 b0 b1 ∧ is_cont b2) then
          cons ((b0 - 0xE0) * 4096 + (b1 - 0x80) * 64 + (b2 - 0x80)) <$> from_utf8 r2 else
        match r2 with
        | [] => None
        | b3 :: r3 =>
          if decide (second4 b0 b1 ∧ is_cont b2 ∧ is_cont b3) then
            cons ((b0 - 0xF0) * 262144 + (b1 - 0x80) * 4096 + (b2 - 0x80) * 64 + (b3 - 0x80))
              <$> from_utf8 r3
          else None
        end
      end
    end
  end.

Lemma div_4096 c : c / 4096 = c / 64 / 64.
Proof. by rewrite Z.div_div by lia. Qed.
Lemma div_262144 c : c / 262144 = c / 64 / 64 / 64.
Proof. by rewrite !Z.div_div by lia. Qed.

Ltac utf8_lia :=
  unfold second3, second4, is_char, is_cont, is_byte in *;
  rewrite ?div_4096, ?div_262144;
  Z.to_euclidean_division_equations; lia.

(** Decides the tests of the goal that arithmetic decides. *)
Ltac utf8_tests :=
  repeat first [rewrite decide_True by utf8_lia | rewrite decide_False by utf8_lia].

Lemma from_utf8_encode c rest :
  is_char c → from_utf8 (encode_utf8 c ++ rest) = cons c <$> from_utf8 rest.
Proof.
  intros Hc. unfold encode_utf8.
  repeat case_decide; cbn [app from_utf8]; utf8_tests; [done|..].
  all: do 2 f_equal; utf8_lia.
Qed.

Lemma as_bytes_cons c s : as_bytes (c :: s) = encode_utf8 c ++ as_bytes s.
Proof. done. Qed.

(** Decoding undoes encoding. *)
Lemma from_utf8_as_bytes s : is_string s → from_utf8 (as_bytes s) = Some s.
Proof.
  induction 1 as [|c s Hc Hs IH]; [done|]. by rewrite as_bytes_cons, from_utf8_encode, IH by done.
Qed.

(** One decoded character is the encoding of what it stands for. *)
Ltac utf8_case :=
  match goal with
  | H : _ <$> from_utf8 _ = Some _ |- _ =>
      apply fmap_Some in H as (? & ? & ->)
  end.

Lemma from_utf8_step b0 r0 s :
  from_utf8 (b0 :: r0) = Some s →
  ∃ c s' rest, s = c :: s' ∧ is_char c ∧ b0 :: r0 = encode_utf8 c ++ rest ∧
    from_utf8 rest = Some s'.
Proof.
  cbn [from_utf8]. intros H.
  case_decide; [utf8_case; eexists _, _, r0|].
  { split_and!; [done|utf8_lia| |done]. unfold encode_utf8.
    by utf8_tests. }
  destruct r0 as [|b1 r1]; [done|].
  case_decide; [utf8_case; eexists _, _, r1|].
  { split_and!; [done|utf8_lia| |done]. unfold encode_utf8.
    utf8_tests. cbn [app].
    repeat f_equal; utf8_lia. }
  destruct r1 as [|b2 r2]; [done|].
  case_decide; [utf8_case; eexists _, _, r2|].
  { split_and!; [done|utf8_lia| |done]. unfold encode_utf8.
    utf8_tests. cbn [app].
    repeat f_equal; utf8_lia. }
  destruct r2 as [|b3 r3]; [done|].
  case_decide; [utf8_case; eexists _, _, r3|done].
  split_and!; [done|utf8_lia| |done]. unfold encode_utf8.
  utf8_tests. cbn [app]. repeat f_equal; utf8_lia.
Qed.

(** What decodes is a string, and the bytes are the only encoding of it. *)
Lemma from_utf8_Some bs s : from_utf8 bs = Some s → is_string s ∧ as_bytes s = bs.
Proof.
  remember (length bs) as n eqn:Hn. revert bs s Hn.
  induction (lt_wf n) as [n _ IH]. intros bs s -> H.
  destruct bs as [|b0 r0]; [injection H as <-; split; [constructor|done]|].
  apply from_utf8_step in H as (c&s'&rest&->&Hc&Heq&H).
  destruct (IH (length rest)) with (bs := rest) (s := s') as [Hs' Hb]; [|done..|].
  { rewrite Heq, length_app. unfold encode_utf8. repeat case_decide; simpl; lia. }
  split; [by constructor|]. by rewrite as_bytes_cons, Hb.
Qed.

Lemma as_bytes_bytes s : is_string s → is_bytes (as_bytes s).
Proof.
  induction 1 as [|c s Hc Hs IH]; [constructor|]. rewrite as_bytes_cons.
  apply Forall_app. split; [|done]. unfold encode_utf8.
  repeat case_decide; repeat constructor; utf8_lia.
Qed.

(** A character takes one to four bytes. *)
Lemma as_bytes_length s : (length s ≤ length (as_bytes s) ≤ 4 * length s)%nat.
Proof.
  induction s as [|c s IH]; [simpl; lia|]. rewrite as_bytes_cons, length_app. cbn [length].
  unfold encode_utf8. repeat case_decide; simpl; lia.
Qed.

#[export] Hint Resolve as_bytes_bytes : ir_bytes.
