(* ===== verification/VarInt.v ===== *)
(** * VarInt: variable-length integers

    [infrarust_protocol::codec::varint] and [::varlong], and the readers that the
    macro [impl_var_reader!] of [codec::types] expands to.  [VarInt] is the
    signed 32-bit value it wraps, [VarLong] the signed 64-bit one.

    The code has a branchless encoder for [VarInt], a byte loop for [VarLong] and
    four decoders.  [leb128] is the reference they are all compared with: seven
    bits a byte, least significant group first, bit 7 set on every byte but the
    last. *)
From S2P Require Import Prelude Wire.

(** ** Reference encoding *)

Fixpoint leb128 (n : nat) (u : Z) : bytes :=
  match n with
  | O => []
  | S n => if decide (u < 128) then [u] else u mod 128 + 128 :: leb128 n (u / 128)
  end.

(** ** VarInt *)

Module VarIntDecodeStatus.
Inductive t := Incomplete | TooLarge.
End VarIntDecodeStatus.

Definition VarInt_MAX_SIZE : nat := 5.

Definition VarInt_written_size (v : Z) : Z :=
  if decide (v = 0) then 1
  else (31 - leading_zeros 32 (wrap_u 32 v)) / 7 + 1.

(** [<<] on [u64]: the bits shifted out are lost. *)
Definition shl64 (x n : Z) : Z := wrap_u 64 (Z.shiftl x n).

Definition VarInt_encode (v : Z) : bytes :=
  let x := wrap_u 64 v in
  let stage1 :=
    Z.lor (Z.lor (Z.lor (Z.lor (Z.land x 0x7f)
      (shl64 (Z.land x 0x3f80) 1))
      (shl64 (Z.land x 0x001fc000) 2))
      (shl64 (Z.land x 0x0fe00000) 3))
      (shl64 (Z.land x 0xf0000000) 4) in
  let leading := leading_zeros 64 stage1 in
  let unused_bytes := Z.shiftr (leading - 1) 3 in
  let bytes_needed := 8 - unused_bytes in
  let msbs := 0x8080808080808080 in
  let msbmask := Z.shiftr 0xffffffffffffffff (Z.shiftl (8 - bytes_needed + 1) 3 - 1) in
  let merged := Z.lor stage1 (Z.land msbs msbmask) in
  take (Z.to_nat bytes_needed) (to_le_bytes 8 merged).

(** The loop the slice decoders and the macro [impl_var_reader!] share, for a
    [w]-bit integer: [n] iterations are left, [i] are done.  [eof] is the error at
    the end of the input and [large] the one after the last iteration. *)
Fixpoint var_decode_loop (w : Z) (eof large : ProtocolError)
    (n : nat) (i val : Z) : reader Z := λ r,
  match n with
  | O => Err large
  | S n =>
    match r with
    | [] => Err eof
    | byte :: r =>
      let val := Z.lor val (wrap_s w (Z.shiftl (Z.land byte 0x7F) (i * 7))) in
      if decide (Z.land byte 0x80 = 0) then Ok (val, r)
      else var_decode_loop w eof large n (i + 1) val r
    end
  end.

Definition VarInt_decode : reader Z :=
  var_decode_loop 32 (Incomplete "VarInt") (Invalid "VarInt too large (> 5 bytes)")
    VarInt_MAX_SIZE 0 0.

(** The loop of [decode_partial]: it indexes [buf] and leaves it as it is. *)
Fixpoint decode_partial_loop (buf : bytes) (n i : nat) (val : Z) :
    result VarIntDecodeStatus.t (Z * Z) :=
  match n with
  | O => Err VarIntDecodeStatus.TooLarge
  | S n =>
    match buf !! i with
    | None => Err VarIntDecodeStatus.Incomplete
    | Some byte =>
      let val := Z.lor val (wrap_s 32 (Z.shiftl (Z.land byte 0x7F) (Z.of_nat i * 7))) in
      if decide (Z.land byte 0x80 = 0) then Ok (val, Z.of_nat i + 1)
      else decode_partial_loop buf n (S i) val
    end
  end.

Definition VarInt_decode_partial (buf : bytes) : result VarIntDecodeStatus.t (Z * Z) :=
  decode_partial_loop buf VarInt_MAX_SIZE 0 0.

Definition read_varint_from_reader : reader Z :=
  var_decode_loop 32 (Io UnexpectedEof) (Invalid "VarInt too large (> 5 bytes)")
    VarInt_MAX_SIZE 0 0.

(** ** VarLong *)

Definition VarLong_MAX_SIZE : nat := 10.

Definition VarLong_written_size (v : Z) : Z :=
  if decide (v = 0) then 1
  else (63 - leading_zeros 64 (wrap_u 64 v)) / 7 + 1.

(** The encoder's [loop], with the iterations it may still make; [None] when they
    run out. *)
Fixpoint VarLong_encode_loop (fuel : nat) (val : Z) : option bytes :=
  match fuel with
  | O => None
  | S fuel =>
    let byte := Z.land val 0x7F in
    let val := Z.shiftr val 7 in
    if decide (val = 0) then Some [byte]
    else cons (Z.lor byte 0x80) <$> VarLong_encode_loop fuel val
  end.

Definition VarLong_encode (v : Z) : option bytes :=
  VarLong_encode_loop VarLong_MAX_SIZE (wrap_u 64 v).

Definition VarLong_decode : reader Z :=
  var_decode_loop 64 (Incomplete "VarLong") (Invalid "VarLong too large (> 10 bytes)")
    VarLong_MAX_SIZE 0 0.

Definition read_varlong_from_reader : reader Z :=
  var_decode_loop 64 (Io UnexpectedEof) (Invalid "VarLong too large (> 10 bytes)")
    VarLong_MAX_SIZE 0 0.

(** ** The reference encoding *)

Lemma land_7F b : Z.land b 0x7F = b mod 128.
Proof. apply (land_ones_mod b 7). lia. Qed.

(** A test on bit 7 is a comparison. *)
Lemma land_80 b : is_byte b → Z.land b 0x80 = if decide (b < 128) then 0 else 128.
Proof.
  revert b. apply (byte_forall _). by vm_compute.
Qed.

Lemma leb128_bytes n u : 0 ≤ u → is_bytes (leb128 n u).
Proof.
  revert u. induction n as [|n IH]; intros u Hu; [constructor|]. simpl.
  case_decide; constructor; unfold is_byte;
    [lia|constructor|Z.to_euclidean_division_equations; lia|].
  apply IH. Z.to_euclidean_division_equations; lia.
Qed.

Lemma leb128_length n u : (length (leb128 n u) ≤ n)%nat.
Proof.
  revert u. induction n as [|n IH]; intros u; simpl; [lia|].
  case_decide; simpl; [lia|]. specialize (IH (u / 128)). lia.
Qed.

Lemma leb128_nonempty n u : leb128 (S n) u ≠ [].
Proof. simpl. by case_decide. Qed.

(** One iteration on a byte. *)
Lemma var_decode_loop_cons w eof large n i val byte r :
  var_decode_loop w eof large (S n) i val (byte :: r) =
  if decide (Z.land byte 0x80 = 0)
  then Ok (Z.lor val (wrap_s w (Z.shiftl (Z.land byte 0x7F) (i * 7))), r)
  else var_decode_loop w eof large n (i + 1)
    (Z.lor val (wrap_s w (Z.shiftl (Z.land byte 0x7F) (i * 7)))) r.
Proof. done. Qed.

Lemma leb128_S n u :
  leb128 (S n) u = if decide (u < 128) then [u] else u mod 128 + 128 :: leb128 n (u / 128).
Proof. done. Qed.

(** Adding a group to the accumulator. *)
Lemma wrap_s_add_group w i acc d :
  0 < w → 0 ≤ i → 0 ≤ acc < 2 ^ (7 * i) →
  Z.lor (wrap_s w acc) (wrap_s w (Z.shiftl d (i * 7))) = wrap_s w (acc + d * 2 ^ (7 * i)).
Proof.
  intros. rewrite <- wrap_s_lor by done. replace (i * 7) with (7 * i) by lia.
  by rewrite lor_disjoint_add by lia.
Qed.

(** The loop undoes the reference encoding, from any accumulated low part. *)
Lemma var_decode_loop_leb128 w eof large n i acc u rest :
  0 < w → 0 ≤ i → 0 ≤ acc < 2 ^ (7 * i) → 0 ≤ u < 128 ^ Z.of_nat (S n) →
  var_decode_loop w eof large (S n) i (wrap_s w acc) (leb128 (S n) u ++ rest)
  = Ok (wrap_s w (acc + u * 2 ^ (7 * i)), rest).
Proof.
  intros Hw. revert i acc u. induction n as [|n IH]; intros i acc u Hi Hacc Hu.
  all: rewrite leb128_S; case_decide as Hlt; cbn [app]; rewrite var_decode_loop_cons.
  all: rewrite land_7F, land_80 by (unfold is_byte; Z.to_euclidean_division_equations; lia).
  all: rewrite wrap_s_add_group by done.
  1, 3: by rewrite decide_True, Z.mod_small by (rewrite ?decide_True by done; lia).
  - lia.
  - rewrite decide_False
      by (rewrite decide_False by (Z.to_euclidean_division_equations; lia); lia).
    assert (Hm : (u mod 128 + 128) mod 128 = u mod 128)
      by (Z.to_euclidean_division_equations; lia).
    assert (Hp : 2 ^ (7 * (i + 1)) = 128 * 2 ^ (7 * i)).
    { replace (7 * (i + 1)) with (7 + 7 * i) by lia. by rewrite Z.pow_add_r by lia. }
    assert (Hd := Z.mod_pos_bound u 128 ltac:(lia)).
    rewrite Hm, IH; [|lia|rewrite Hp; nia|].
    + do 3 f_equal. rewrite Hp.
      transitivity (acc + (128 * (u / 128) + u mod 128) * 2 ^ (7 * i)); [ring|].
      by rewrite <- Z.div_mod by lia.
    + rewrite (Nat2Z.inj_succ (S n)), Z.pow_succ_r in Hu by lia.
      split; [apply Z.div_pos; lia|]. apply Z.div_lt_upper_bound; lia.
Qed.

(** ** The branchless encoder *)

(** A mask that selects [n] bits from bit [k] on. *)
Lemma land_mask x n k :
  0 ≤ n → 0 ≤ k → Z.land x ((2 ^ n - 1) * 2 ^ k) = (x / 2 ^ k) mod 2 ^ n * 2 ^ k.
Proof.
  intros. rewrite <- (land_ones_mod (x / 2 ^ k)) by lia.
  rewrite <- !Z.shiftl_mul_pow2, <- Z.shiftr_div_pow2 by lia.
  apply Z.bits_inj'. intros m Hm.
  rewrite Z.land_spec, !Z.shiftl_spec by lia. rewrite Z.land_spec.
  destruct (decide (m < k)).
  - by rewrite !(Z.testbit_neg_r _ (m - k)), andb_false_r by lia.
  - rewrite Z.shiftr_spec by lia. by replace (m - k + k) with m by lia.
Qed.

(** OR of two numbers one base-256 digit at a time, when the digits do not meet. *)
Lemma lor_digit d c A C :
  0 ≤ d < 128 → c = 0 ∨ c = 128 →
  Z.lor (d + 256 * A) (c + 256 * C) = (d + c) + 256 * Z.lor A C.
Proof.
  intros Hd Hc.
  replace (256 * A) with (A * 2 ^ 8) by lia. replace (256 * C) with (C * 2 ^ 8) by lia.
  rewrite <- !lor_disjoint_add by lia.
  rewrite <- Z.lor_assoc, (Z.lor_assoc (Z.shiftl A 8)), (Z.lor_comm (Z.shiftl A 8) c).
  rewrite <- Z.lor_assoc, Z.lor_assoc, <- Z.shiftl_lor.
  replace (Z.lor d c) with (d + c).
  - rewrite lor_disjoint_add by lia. lia.
  - destruct Hc as [-> | ->]; [rewrite Z.lor_0_r; lia|].
    change 128 with (Z.shiftl 1 7). by rewrite lor_disjoint_add by lia.
Qed.

(** A bit field of a cast is the field of the value. *)
Lemma wrap_u_field w v k n :
  0 ≤ k → 0 ≤ n → k + n ≤ w → wrap_u w v / 2 ^ k mod 2 ^ n = v / 2 ^ k mod 2 ^ n.
Proof.
  intros. apply Z.bits_inj'. intros m Hm. unfold wrap_u.
  destruct (decide (m < n)).
  - rewrite !Z.mod_pow2_bits_low, <- !Z.shiftr_div_pow2, !Z.shiftr_spec by lia.
    by rewrite Z.mod_pow2_bits_low by lia.
  - by rewrite !Z.mod_pow2_bits_high by lia.
Qed.

(** One masked and shifted group of the encoder. *)
Lemma spread_group v n k j :
  0 ≤ n → 0 ≤ k → 0 ≤ j → k + n ≤ 32 → j ≤ 32 →
  shl64 (Z.land (wrap_u 64 v) ((2 ^ n - 1) * 2 ^ k)) j
  = wrap_u 32 v / 2 ^ k mod 2 ^ n * 2 ^ (k + j).
Proof.
  intros. unfold shl64. rewrite land_mask, !wrap_u_field by lia.
  rewrite Z.shiftl_mul_pow2, <- Z.mul_assoc, <- Z.pow_add_r by lia.
  apply wrap_u_small. split.
  { apply Z.mul_nonneg_nonneg; [apply Z.mod_pos_bound|]; apply pow2_pos || apply Z.pow_nonneg; lia. }
  apply Z.lt_le_trans with (2 ^ n * 2 ^ (k + j)).
  - apply Z.mul_lt_mono_pos_r; [apply pow2_pos; lia|]. apply Z.mod_pos_bound, pow2_pos. lia.
  - rewrite <- Z.pow_add_r by lia. apply Z.pow_le_mono_r; lia.
Qed.

Lemma lor_mul_add a d k :
  0 ≤ k → 0 ≤ a < 2 ^ k → Z.lor a (d * 2 ^ k) = a + d * 2 ^ k.
Proof. intros. rewrite <- (Z.shiftl_mul_pow2 d k) at 1 by lia. by apply lor_disjoint_add. Qed.

(** The number the encoder's first stage spreads the digits of [u] into. *)
Definition spread (u : Z) : Z :=
  u mod 128 + 256 * (u / 2 ^ 7 mod 128 + 256 * (u / 2 ^ 14 mod 128 +
    256 * (u / 2 ^ 21 mod 128 + 256 * (u / 2 ^ 28 mod 16)))).

Lemma VarInt_stage1 v :
  Z.lor (Z.lor (Z.lor (Z.lor (Z.land (wrap_u 64 v) 0x7f)
    (shl64 (Z.land (wrap_u 64 v) 0x3f80) 1)) (shl64 (Z.land (wrap_u 64 v) 0x001fc000) 2))
    (shl64 (Z.land (wrap_u 64 v) 0x0fe00000) 3)) (shl64 (Z.land (wrap_u 64 v) 0xf0000000) 4)
  = spread (wrap_u 32 v).
Proof.
  change 0x3f80 with ((2 ^ 7 - 1) * 2 ^ 7). change 0x001fc000 with ((2 ^ 7 - 1) * 2 ^ 14).
  change 0x0fe00000 with ((2 ^ 7 - 1) * 2 ^ 21). change 0xf0000000 with ((2 ^ 4 - 1) * 2 ^ 28).
  rewrite (spread_group v 7 7 1), (spread_group v 7 14 2), (spread_group v 7 21 3),
    (spread_group v 4 28 4) by lia.
  change (7 + 1) with 8. change (14 + 2) with 16. change (21 + 3) with 24.
  change (28 + 4) with 32. rewrite land_7F. pose proof (wrap_u_field 64 v 0 7) as H0.
  pose proof (wrap_u_field 32 v 0 7) as H1.
  change (2 ^ 0) with 1 in *. change (2 ^ 7) with 128 in *. rewrite !Z.div_1_r in *.
  rewrite H0, <- H1 by lia. clear H0 H1. unfold spread.
  change (2 ^ 4) with 16. change (2 ^ 7) with 128.
  generalize (wrap_u 32 v) as u. intros u.
  pose proof (Z.mod_pos_bound u 128 ltac:(lia)).
  pose proof (Z.mod_pos_bound (u / 128) 128 ltac:(lia)).
  pose proof (Z.mod_pos_bound (u / 2 ^ 14) 128 ltac:(lia)).
  pose proof (Z.mod_pos_bound (u / 2 ^ 21) 128 ltac:(lia)).
  pose proof (Z.mod_pos_bound (u / 2 ^ 28) 16 ltac:(lia)).
  rewrite (lor_mul_add _ _ 8) by lia. rewrite (lor_mul_add _ _ 16) by lia.
  rewrite (lor_mul_add _ _ 24) by lia. rewrite (lor_mul_add _ _ 32) by lia. lia.
Qed.

(** The byte count of a number whose highest set bit is in byte [k - 1], below
    that byte's top bit. *)
Lemma VarInt_bytes_needed s k lo hi :
  1 ≤ k → lo = 2 ^ (8 * (k - 1)) → hi = 2 ^ (8 * k - 1) → lo ≤ s < hi →
  8 - Z.shiftr (leading_zeros 64 s - 1) 3 = k.
Proof.
  unfold leading_zeros. intros Hk -> -> Hs.
  pose proof (pow2_pos (8 * (k - 1)) ltac:(lia)).
  rewrite decide_False by lia. rewrite Z.shiftr_div_pow2 by lia. change (2 ^ 3) with 8.
  assert (8 * (k - 1) ≤ Z.log2 s) by (apply Z.log2_le_pow2; lia).
  assert (Z.log2 s < 8 * k - 1) by (apply Z.log2_lt_pow2; lia).
  Z.to_euclidean_division_equations. lia.
Qed.

Lemma to_le_bytes_digit n d A :
  0 ≤ d < 256 → to_le_bytes (S n) (d + 256 * A) = d :: to_le_bytes n A.
Proof.
  intros. simpl. f_equal; [|f_equal]; Z.to_euclidean_division_equations; lia.
Qed.

(** The continuation bits of a [k]-byte number, in the nested form of [spread]. *)
Definition cont_bits (k : Z) : Z := Z.land 0x8080808080808080
  (Z.shiftr 0xffffffffffffffff (Z.shiftl (8 - k + 1) 3 - 1)).

Lemma cont_bits_digits :
  cont_bits 1 = 0 + 256 * (0 + 256 * (0 + 256 * (0 + 256 * 0))) ∧
  cont_bits 2 = 128 + 256 * (0 + 256 * (0 + 256 * (0 + 256 * 0))) ∧
  cont_bits 3 = 128 + 256 * (128 + 256 * (0 + 256 * (0 + 256 * 0))) ∧
  cont_bits 4 = 128 + 256 * (128 + 256 * (128 + 256 * (0 + 256 * 0))) ∧
  cont_bits 5 = 128 + 256 * (128 + 256 * (128 + 256 * (128 + 256 * 0))).
Proof. done. Qed.

(** A 32-bit pattern by its base-128 digits. *)
Lemma digits128 u : 0 ≤ u < 2 ^ 32 → ∃ d0 d1 d2 d3 d4,
  u = d0 + 128 * (d1 + 128 * (d2 + 128 * (d3 + 128 * d4))) ∧
  (0 ≤ d0 < 128 ∧ 0 ≤ d1 < 128 ∧ 0 ≤ d2 < 128 ∧ 0 ≤ d3 < 128 ∧ 0 ≤ d4 < 16) ∧
  spread u = d0 + 256 * (d1 + 256 * (d2 + 256 * (d3 + 256 * d4))).
Proof.
  intros Hu. eexists _, _, _, _, _. split; [|split; [|reflexivity]].
  all: change (2 ^ 28) with (128 * 128 * 128 * 128); change (2 ^ 21) with (128 * 128 * 128);
    change (2 ^ 14) with (128 * 128); change (2 ^ 7) with 128;
    rewrite <- !Z.div_div by lia.
  all: Z.to_euclidean_division_equations; lia.
Qed.

Lemma leb128_digit n d A :
  0 ≤ d < 128 → 0 ≤ A →
  leb128 (S n) (d + 128 * A) = if decide (A = 0) then [d] else d + 128 :: leb128 n A.
Proof.
  intros. rewrite leb128_S. do 2 case_decide; [f_equal; lia|lia|lia|].
  f_equal; [|f_equal]; Z.to_euclidean_division_equations; lia.
Qed.

Lemma VarInt_byte_count d0 d1 d2 d3 d4 (s := d0 + 256 * (d1 + 256 * (d2 + 256 * (d3 + 256 * d4)))) :
  0 ≤ d0 < 128 ∧ 0 ≤ d1 < 128 ∧ 0 ≤ d2 < 128 ∧ 0 ≤ d3 < 128 ∧ 0 ≤ d4 < 16 →
  ∃ k, 8 - Z.shiftr (leading_zeros 64 s - 1) 3 = k ∧
    (k = 1 ∧ d1 = 0 ∧ d2 = 0 ∧ d3 = 0 ∧ d4 = 0 ∨ k = 2 ∧ d1 ≠ 0 ∧ d2 = 0 ∧ d3 = 0 ∧ d4 = 0 ∨
     k = 3 ∧ d2 ≠ 0 ∧ d3 = 0 ∧ d4 = 0 ∨ k = 4 ∧ d3 ≠ 0 ∧ d4 = 0 ∨ k = 5 ∧ d4 ≠ 0).
Proof.
  intros Hd. destruct (decide (d4 = 0)); [destruct (decide (d3 = 0));
    [destruct (decide (d2 = 0)); [destruct (decide (d1 = 0)); [destruct (decide (d0 = 0))|]|]|]|].
  - exists 1. split; [|tauto]. replace s with 0 by lia. done.
  - exists 1. split; [|tauto]. by apply (VarInt_bytes_needed s 1 1 128); lia.
  - exists 2. split; [|tauto]. by apply (VarInt_bytes_needed s 2 0x100 0x8000); lia.
  - exists 3. split; [|tauto]. by apply (VarInt_bytes_needed s 3 0x10000 0x800000); lia.
  - exists 4. split; [|tauto]. by apply (VarInt_bytes_needed s 4 0x1000000 0x80000000); lia.
  - exists 5. split; [|tauto].
    by apply (VarInt_bytes_needed s 5 0x100000000 0x8000000000); lia.
Qed.

(** The encoder is the reference encoding of the value's 32-bit pattern. *)
Lemma VarInt_encode_leb128 v : VarInt_encode v = leb128 5 (wrap_u 32 v).
Proof.
  unfold VarInt_encode. rewrite VarInt_stage1.
  destruct (digits128 _ (wrap_u_range 32 ltac:(lia) v)) as (d0&d1&d2&d3&d4&->&Hd&->).
  destruct (VarInt_byte_count d0 d1 d2 d3 d4 Hd) as (k & -> & Hk). fold (cont_bits k).
  destruct cont_bits_digits as (C1 & C2 & C3 & C4 & C5).
  destruct Hk as [[-> Hk]|[[-> Hk]|[[-> Hk]|[[-> Hk]|[-> Hk]]]]].
  all: rewrite ?C1, ?C2, ?C3, ?C4, ?C5; rewrite !lor_digit, Z.lor_0_r by lia.
  all: rewrite !to_le_bytes_digit by lia.
  all: repeat (rewrite leb128_digit by lia; case_decide; try lia).
  all: rewrite ?Z.add_0_r; try done.
  rewrite leb128_S, decide_True by lia.
  replace d4 with (d4 + 256 * 0) at 1 by lia. by rewrite to_le_bytes_digit by lia.
Qed.

(** ** Sizes *)

(** The number of bytes of the reference encoding, from the highest set bit. *)
Lemma leb128_size n u :
  0 < u < 128 ^ Z.of_nat (S n) → zlen (leb128 (S n) u) = Z.log2 u / 7 + 1.
Proof.
  revert u. induction n as [|n IH]; intros u Hu; rewrite leb128_S; case_decide as Hlt.
  1, 3: assert (Z.log2 u < 7) by (apply Z.log2_lt_pow2; lia);
    pose proof (Z.log2_nonneg u); by rewrite Z.div_small by lia.
  - change (128 ^ Z.of_nat 1) with 128 in Hu. lia.
  - rewrite zlen_cons, IH.
    + change (u / 128) with (u / 2 ^ 7).
      rewrite <- Z.shiftr_div_pow2, Z.log2_shiftr by lia.
      assert (7 ≤ Z.log2 u) by (apply Z.log2_le_pow2; lia).
      rewrite Z.max_r by lia. Z.to_euclidean_division_equations; lia.
    + rewrite (Nat2Z.inj_succ (S n)), Z.pow_succ_r in Hu by lia. split.
      * apply Z.div_str_pos. lia.
      * apply Z.div_lt_upper_bound; lia.
Qed.

Lemma leb128_0 n : leb128 (S n) 0 = [0].
Proof. done. Qed.

Lemma wrap_u_0_iff w v : 0 < w → in_s w v → wrap_u w v = 0 ↔ v = 0.
Proof.
  intros Hw Hv. split; [|by intros ->].
  intros H. rewrite <- (wrap_s_of_u w Hw v Hv), H. by apply wrap_s_0.
Qed.

Lemma VarInt_written_size_leb128 v :
  in_s 32 v → VarInt_written_size v = zlen (leb128 5 (wrap_u 32 v)).
Proof.
  intros Hv. unfold VarInt_written_size, leading_zeros.
  pose proof (wrap_u_0_iff 32 v ltac:(lia) Hv) as H0.
  case_decide as Hz; [by rewrite Hz|].
  rewrite decide_False by tauto. pose proof (wrap_u_range 32 ltac:(lia) v) as Hu.
  unfold in_u in Hu. rewrite leb128_size by (change (128 ^ _) with (2 ^ 35); lia).
  f_equal. f_equal. lia.
Qed.

Lemma VarInt_encode_size v : in_s 32 v → zlen (VarInt_encode v) = VarInt_written_size v.
Proof. intros. by rewrite VarInt_encode_leb128, VarInt_written_size_leb128. Qed.

Lemma VarInt_written_size_range v : in_s 32 v → 1 ≤ VarInt_written_size v ≤ 5.
Proof.
  intros. rewrite VarInt_written_size_leb128 by done.
  pose proof (leb128_length 5 (wrap_u 32 v)). pose proof (leb128_nonempty 4 (wrap_u 32 v)).
  unfold zlen. destruct (leb128 5 _); simpl in *; [done|lia].
Qed.

Lemma VarInt_encode_bytes v : is_bytes (VarInt_encode v).
Proof.
  rewrite VarInt_encode_leb128. apply leb128_bytes.
  pose proof (wrap_u_range 32 ltac:(lia) v) as Hu. unfold in_u in Hu. lia.
Qed.

Lemma VarLong_encode_loop_S fuel val :
  VarLong_encode_loop (S fuel) val =
  if decide (Z.shiftr val 7 = 0) then Some [Z.land val 0x7F]
  else cons (Z.lor (Z.land val 0x7F) 0x80) <$> VarLong_encode_loop fuel (Z.shiftr val 7).
Proof. done. Qed.

Lemma VarLong_loop_leb128 n val :
  0 ≤ val < 128 ^ Z.of_nat (S n) →
  VarLong_encode_loop (S n) val = Some (leb128 (S n) val).
Proof.
  revert val. induction n as [|n IH]; intros val Hv; rewrite leb128_S.
  all: rewrite VarLong_encode_loop_S, land_7F, Z.shiftr_div_pow2 by lia;
    change (2 ^ 7) with 128.
  - change (128 ^ Z.of_nat 1) with 128 in Hv. rewrite Z.div_small by lia.
    rewrite decide_True, decide_True, Z.mod_small by lia. done.
  - rewrite (Nat2Z.inj_succ (S n)), Z.pow_succ_r in Hv by lia.
    destruct (decide (val < 128)) as [Hlt|Hge].
    { by rewrite Z.div_small, decide_True, Z.mod_small by lia. }
    rewrite decide_False by (Z.to_euclidean_division_equations; lia).
    rewrite IH.
    + simpl. do 2 f_equal. change 128 with (1 * 2 ^ 7) at 2.
      rewrite lor_mul_add; [done|lia|]. apply Z.mod_pos_bound. lia.
    + split; [apply Z.div_pos; lia|]. apply Z.div_lt_upper_bound; lia.
Qed.

Lemma VarLong_encode_leb128 v : VarLong_encode v = Some (leb128 10 (wrap_u 64 v)).
Proof.
  apply VarLong_loop_leb128. pose proof (wrap_u_range 64 ltac:(lia) v) as Hu.
  unfold in_u in Hu. change (128 ^ _) with (2 ^ 70). lia.
Qed.

Lemma VarLong_written_size_leb128 v :
  in_s 64 v → VarLong_written_size v = zlen (leb128 10 (wrap_u 64 v)).
Proof.
  intros Hv. unfold VarLong_written_size, leading_zeros.
  pose proof (wrap_u_0_iff 64 v ltac:(lia) Hv) as H0.
  case_decide as Hz; [by rewrite Hz|].
  rewrite decide_False by tauto. pose proof (wrap_u_range 64 ltac:(lia) v) as Hu.
  unfold in_u in Hu. rewrite leb128_size by (change (128 ^ _) with (2 ^ 70); lia).
  f_equal. f_equal. lia.
Qed.

(** ** Decoding *)

(** Each decoder reads back what the encoder wrote. *)
Lemma var_decode_leb128 w eof large n v :
  0 < w → w ≤ 7 * Z.of_nat (S n) → in_s w v →
  reads (var_decode_loop w eof large (S n) 0 0) (leb128 (S n) (wrap_u w v)) v.
Proof.
  intros Hw Hn Hv rest. pose proof (wrap_u_range w Hw v) as Hu. unfold in_u in Hu.
  replace 0 with (wrap_s w 0) at 2 by (by apply wrap_s_0).
  rewrite var_decode_loop_leb128; [..|]; try done.
  - by rewrite Z.mul_1_r, Z.add_0_l, wrap_s_of_u by done.
  - split; [lia|]. apply Z.lt_le_trans with (2 ^ w); [lia|].
    change 128 with (2 ^ 7). rewrite <- Z.pow_mul_r by lia. apply Z.pow_le_mono_r; lia.
Qed.

Lemma VarInt_decode_reads v : in_s 32 v → reads VarInt_decode (VarInt_encode v) v.
Proof. intros. rewrite VarInt_encode_leb128. by apply var_decode_leb128. Qed.

Lemma read_varint_reads v : in_s 32 v → reads read_varint_from_reader (VarInt_encode v) v.
Proof. intros. rewrite VarInt_encode_leb128. by apply var_decode_leb128. Qed.

Lemma read_varlong_reads v bs :
  in_s 64 v → VarLong_encode v = Some bs → reads read_varlong_from_reader bs v.
Proof. intros ?. rewrite VarLong_encode_leb128. intros [= <-]. by apply var_decode_leb128. Qed.

#[export] Hint Resolve VarInt_decode_reads read_varint_reads read_varlong_reads : codec.

(** What a successful decoding says: the value is in range, one to [n] bytes were
    used, and the result depends on these bytes only. *)
Lemma var_decode_loop_Ok w eof large n i val r v rest :
  0 < w → in_s w val → var_decode_loop w eof large n i val r = Ok (v, rest) →
  in_s w v ∧ ∃ used, r = used ++ rest ∧ (1 ≤ length used ≤ n)%nat ∧
    reads (var_decode_loop w eof large n i val) used v.
Proof.
  intros Hw. revert i val r. induction n as [|n IH]; intros i val r Hval; [done|].
  destruct r as [|byte r]; [done|]. rewrite var_decode_loop_cons.
  set (val' := Z.lor val _).
  assert (Hval' : in_s w val').
  { unfold val'. rewrite <- (wrap_s_small w Hw val Hval), <- wrap_s_lor by done.
    by apply wrap_s_range. }
  case_decide as Hb.
  - intros [= <- <-]. split; [done|]. exists [byte]. split; [done|].
    split; [simpl; lia|]. intros more. cbn [app].
    by rewrite var_decode_loop_cons, decide_True.
  - intros H. destruct (IH _ _ _ Hval' H) as (Hv & used & -> & Hlen & Hr).
    split; [done|]. exists (byte :: used). split; [done|]. split; [simpl; lia|].
    intros more. cbn [app]. rewrite var_decode_loop_cons, decide_False by done. apply Hr.
Qed.

(** Running out of iterations does not depend on what follows. *)
Lemma var_decode_loop_large w eof large n i val r more :
  eof ≠ large → var_decode_loop w eof large n i val r = Err large →
  var_decode_loop w eof large n i val (r ++ more) = Err large.
Proof.
  intros Hne. revert i val r. induction n as [|n IH]; intros i val r; [done|].
  destruct r as [|byte r]; [intros [= ?]; congruence|].
  cbn [app]. rewrite !var_decode_loop_cons. case_decide; [done|]. apply IH.
Qed.

(** The peeking decoder and the consuming ones follow each other. *)
Lemma decode_partial_loop_spec w eof large buf n i val :
  w = 32 →
  var_decode_loop w eof large n (Z.of_nat i) val (drop i buf) =
  match decode_partial_loop buf n i val with
  | Ok (v, used) => Ok (v, drop (Z.to_nat used) buf)
  | Err VarIntDecodeStatus.Incomplete => Err eof
  | Err VarIntDecodeStatus.TooLarge => Err large
  end.
Proof.
  intros ->. revert i val. induction n as [|n IH]; intros i val; [done|].
  cbn [decode_partial_loop]. destruct (buf !! i) as [byte|] eqn:E.
  - rewrite (drop_S buf byte i E), var_decode_loop_cons.
    case_decide; [by replace (Z.to_nat (Z.of_nat i + 1)) with (S i) by lia|].
    replace (Z.of_nat i + 1) with (Z.of_nat (S i)) by lia. apply IH.
  - by rewrite drop_ge by (by apply lookup_ge_None).
Qed.

Lemma decode_partial_loop_Ok buf n i val v used :
  in_s 32 val → decode_partial_loop buf n i val = Ok (v, used) →
  in_s 32 v ∧ Z.of_nat i + 1 ≤ used ≤ Z.of_nat (i + n) ∧ used ≤ zlen buf.
Proof.
  revert i val. induction n as [|n IH]; intros i val Hval; [done|].
  cbn [decode_partial_loop]. destruct (buf !! i) as [byte|] eqn:E; [|done].
  set (val' := Z.lor val _).
  assert (Hval' : in_s 32 val').
  { unfold val'. rewrite <- (wrap_s_small 32 ltac:(lia) val Hval), <- wrap_s_lor by lia.
    by apply wrap_s_range. }
  apply lookup_lt_Some in E. unfold zlen. case_decide.
  - intros [= <- <-]. split; [done|]. lia.
  - intros Hrec. destruct (IH _ _ Hval' Hrec) as (?&?&?). split; [done|].
    unfold zlen in *. lia.
Qed.

(** Only an input shorter than the longest encoding is incomplete. *)
Lemma decode_partial_loop_incomplete buf n i val :
  decode_partial_loop buf n i val = Err VarIntDecodeStatus.Incomplete →
  (length buf < i + n)%nat.
Proof.
  revert i val. induction n as [|n IH]; intros i val; [done|].
  cbn [decode_partial_loop]. destruct (buf !! i) as [byte|] eqn:E.
  - case_decide; [done|]. intros Hrec%IH. lia.
  - apply lookup_ge_None in E. lia.
Qed.

(** More input changes nothing but "incomplete". *)
Lemma decode_partial_loop_app buf more n i val :
  decode_partial_loop buf n i val ≠ Err VarIntDecodeStatus.Incomplete →
  decode_partial_loop (buf ++ more) n i val = decode_partial_loop buf n i val.
Proof.
  revert i val. induction n as [|n IH]; intros i val; [done|].
  cbn [decode_partial_loop]. destruct (buf !! i) as [byte|] eqn:E; [|done].
  rewrite (lookup_app_l_Some _ _ _ _ E). case_decide; [done|]. apply IH.
Qed.

Lemma in_s_0 w : 0 < w → in_s w 0.
Proof. intros. unfold in_s. pose proof (pow2_pos (w - 1) ltac:(lia)). lia. Qed.

Lemma VarInt_decode_partial_Ok buf v used :
  VarInt_decode_partial buf = Ok (v, used) →
  in_s 32 v ∧ 1 ≤ used ≤ 5 ∧ used ≤ zlen buf.
Proof. intros H. by apply decode_partial_loop_Ok in H; [|apply in_s_0]. Qed.

Lemma VarInt_decode_partial_incomplete buf :
  VarInt_decode_partial buf = Err VarIntDecodeStatus.Incomplete → zlen buf < 5.
Proof. intros Hp%decode_partial_loop_incomplete. unfold zlen, VarInt_MAX_SIZE in *. lia. Qed.

Lemma VarInt_decode_partial_app buf more :
  VarInt_decode_partial buf ≠ Err VarIntDecodeStatus.Incomplete →
  VarInt_decode_partial (buf ++ more) = VarInt_decode_partial buf.
Proof. apply decode_partial_loop_app. Qed.

(** The value depends on the bytes it used only. *)
Lemma decode_partial_loop_take buf m n i val v used :
  decode_partial_loop buf n i val = Ok (v, used) → used ≤ Z.of_nat m →
  decode_partial_loop (take m buf) n i val = Ok (v, used).
Proof.
  revert i val. induction n as [|n IH]; intros i val; simpl; [done|].
  destruct (buf !! i) as [b|] eqn:E; [|done]. intros H Hm.
  assert (Hi : (i < m)%nat).
  { revert H. case_decide; [intros [= _ <-]; lia|]. clear IH E; intros Hl.
    assert (Hgt : ∀ n i val, decode_partial_loop buf n i val = Ok (v, used) → Z.of_nat i < used).
    { clear. induction n as [|n IH]; intros i val; simpl; [done|].
      destruct (buf !! i); [|done]. case_decide; [intros [= _ <-]; lia|].
      intros Hn%IH. lia. }
    apply Hgt in Hl. lia. }
  rewrite lookup_take_lt by done. rewrite E. revert H. case_decide; [done|]. intros Hr. by apply IH.
Qed.

Lemma VarInt_decode_partial_take buf m v used :
  VarInt_decode_partial buf = Ok (v, used) → used ≤ Z.of_nat m →
  VarInt_decode_partial (take m buf) = Ok (v, used).
Proof. apply decode_partial_loop_take. Qed.

Lemma VarInt_decode_Ok r v rest :
  VarInt_decode r = Ok (v, rest) →
  in_s 32 v ∧ ∃ used, r = used ++ rest ∧ (1 ≤ length used ≤ 5)%nat ∧
    reads VarInt_decode used v.
Proof. by apply var_decode_loop_Ok; [lia|apply in_s_0]. Qed.

Lemma VarInt_decode_spec buf :
  VarInt_decode buf =
  match VarInt_decode_partial buf with
  | Ok (v, used) => Ok (v, drop (Z.to_nat used) buf)
  | Err VarIntDecodeStatus.Incomplete => Err (Incomplete "VarInt")
  | Err VarIntDecodeStatus.TooLarge => Err (Invalid "VarInt too large (> 5 bytes)")
  end.
Proof. by apply (decode_partial_loop_spec 32 _ _ buf _ 0 0). Qed.

(** Peeking at an encoded value. *)
Lemma VarInt_decode_partial_encode v rest :
  in_s 32 v → VarInt_decode_partial (VarInt_encode v ++ rest) = Ok (v, VarInt_written_size v).
Proof.
  intros Hv. pose proof (VarInt_decode_reads v Hv rest) as H.
  rewrite VarInt_decode_spec in H.
  destruct (VarInt_decode_partial _) as [[v' used]|[]] eqn:E; [|done|done].
  injection H as -> Hdrop. apply (f_equal length) in Hdrop.
  apply VarInt_decode_partial_Ok in E as (_&?&Hle). repeat f_equal.
  rewrite <- VarInt_encode_size by done.
  rewrite length_drop, length_app in Hdrop. rewrite zlen_app in Hle. unfold zlen in *. lia.
Qed.

#[global] Opaque VarInt_encode.

(** ** Theorems *)

(** Every [VarInt] survives the wire.  Whatever follows it, each of the three
    decoders of the code (the consuming one, the peeking one of the packet framer
    and the one on readers) gives back the value that the branchless encoder
    wrote, and uses exactly [written_size] bytes. *)
Theorem VarInt_roundtrip (v : Z) (rest : bytes) :
  in_s 32 v →
  VarInt_decode (VarInt_encode v ++ rest) = Ok (v, rest) ∧
  read_varint_from_reader (VarInt_encode v ++ rest) = Ok (v, rest) ∧
  VarInt_decode_partial (VarInt_encode v ++ rest) = Ok (v, VarInt_written_size v) ∧
  zlen (VarInt_encode v) = VarInt_written_size v.
Proof.
  intros Hv. split_and!; [by apply VarInt_decode_reads|by apply read_varint_reads| |].
  - by apply VarInt_decode_partial_encode.
  - by apply VarInt_encode_size.
Qed.

Lemma VarInt_roundtrip_witness :
  in_s 32 (-1) ∧ VarInt_encode (-1) = [0xFF; 0xFF; 0xFF; 0xFF; 0x0F] ∧
  VarInt_decode ([0xFF; 0xFF; 0xFF; 0xFF; 0x0F] ++ [7]) = Ok (-1, [7]).
Proof.
  split; [unfold in_s; lia|]. split; [by vm_compute|].
  exact (proj1 (VarInt_roundtrip (-1) [7] ltac:(unfold in_s; lia))).
Defined.

(** The branchless encoder of [VarInt] (spread the digits, count the bytes with
    [leading_zeros], set the continuation bits with one OR) produces the byte loop's
    encoding of the value's 32-bit pattern, for every input, and its output is one
    to five bytes. *)
Theorem VarInt_encode_is_reference (v : Z) :
  VarInt_encode v = leb128 5 (wrap_u 32 v) ∧ is_bytes (VarInt_encode v) ∧
  (1 ≤ length (VarInt_encode v) ≤ VarInt_MAX_SIZE)%nat.
Proof.
  split; [apply VarInt_encode_leb128|]. split; [apply VarInt_encode_bytes|].
  rewrite VarInt_encode_leb128. pose proof (leb128_length 5 (wrap_u 32 v)).
  pose proof (leb128_nonempty 4 (wrap_u 32 v)).
  destruct (leb128 5 _); [done|]. simpl in *. unfold VarInt_MAX_SIZE. lia.
Qed.

(** The three [VarInt] decoders agree on every input, well formed or not: they
    accept the same inputs with the same value and the same number of bytes (at
    most five, all of them in the input), and when one says "need more bytes" or
    "too large" so do the others. *)
Theorem VarInt_decoders_agree (buf : bytes) :
  match VarInt_decode_partial buf with
  | Ok (v, used) =>
      in_s 32 v ∧ 1 ≤ used ≤ 5 ∧ used ≤ zlen buf ∧
      VarInt_decode buf = Ok (v, drop (Z.to_nat used) buf) ∧
      read_varint_from_reader buf = Ok (v, drop (Z.to_nat used) buf)
  | Err VarIntDecodeStatus.Incomplete =>
      VarInt_decode buf = Err (Incomplete "VarInt") ∧
      read_varint_from_reader buf = Err (Io UnexpectedEof)
  | Err VarIntDecodeStatus.TooLarge =>
      VarInt_decode buf = Err (Invalid "VarInt too large (> 5 bytes)") ∧
      read_varint_from_reader buf = Err (Invalid "VarInt too large (> 5 bytes)")
  end.
Proof.
  rewrite VarInt_decode_spec.
  replace (read_varint_from_reader buf) with (read_varint_from_reader (drop 0 buf)) by done.
  unfold read_varint_from_reader.
  rewrite (decode_partial_loop_spec 32 _ _ buf _ 0 0 eq_refl).
  fold (VarInt_decode_partial buf).
  destruct (VarInt_decode_partial buf) as [[v used]|[]] eqn:E; [|done|done].
  apply VarInt_decode_partial_Ok in E as (?&?&?). by auto.
Qed.

(** The [VarLong] encoder's loop ends within ten iterations for every 64-bit
    value, writes [written_size] bytes, and both [VarLong] decoders read them back
    whatever follows. *)
Theorem VarLong_roundtrip (v : Z) (rest : bytes) :
  in_s 64 v →
  ∃ bs, VarLong_encode v = Some bs ∧ zlen bs = VarLong_written_size v ∧
    (1 ≤ length bs ≤ VarLong_MAX_SIZE)%nat ∧
    VarLong_decode (bs ++ rest) = Ok (v, rest) ∧
    read_varlong_from_reader (bs ++ rest) = Ok (v, rest).
Proof.
  intros Hv. exists (leb128 10 (wrap_u 64 v)). split; [apply VarLong_encode_leb128|].
  rewrite VarLong_written_size_leb128 by done. split; [done|]. split.
  { pose proof (leb128_length 10 (wrap_u 64 v)). pose proof (leb128_nonempty 9 (wrap_u 64 v)).
    destruct (leb128 10 _); [done|]. simpl in *. unfold VarLong_MAX_SIZE. lia. }
  split; by apply var_decode_leb128.
Qed.

Lemma VarLong_roundtrip_witness :
  in_s 64 (- 2 ^ 63) ∧
  ∃ bs, VarLong_encode (- 2 ^ 63) = Some bs ∧ zlen bs = VarLong_written_size (- 2 ^ 63) ∧
    (1 ≤ length bs ≤ VarLong_MAX_SIZE)%nat ∧
    VarLong_decode (bs ++ [1; 2]) = Ok (- 2 ^ 63, [1; 2]) ∧
    read_varlong_from_reader (bs ++ [1; 2]) = Ok (- 2 ^ 63, [1; 2]).
Proof.
  split; [unfold in_s; lia|]. exact (VarLong_roundtrip (- 2 ^ 63) [1; 2] ltac:(unfold in_s; lia)).
Defined.
