(* ===== verification/Codec.v ===== *)
(** * Codec: the primitive types of the protocol

    [infrarust_protocol::codec]: the extension traits [McBufReadExt] and
    [McBufWriteExt] ([read_*], [write_*]) of [codec/mod.rs], and the [Encode] and
    [Decode] implementations of [codec/types.rs].  The two families differ in the
    error on short input ([Io UnexpectedEof] from [read_exact], [Incomplete] from
    the slice decoders).

    An integer is a [Z] in the range of its type, a float the bit pattern that
    [to_be_bytes] writes, a [Uuid] the [u128] of [as_u128]/[from_u128]. *)
From S2P Require Import Prelude Wire Utf8 VarInt.

(** ** Readers: [impl McBufReadExt for R] *)

Definition read_u8 : reader Z := buf ← read_exact 1; mret (default 0 (head buf)).
Definition read_i8 : reader Z := b ← read_u8; mret (wrap_s 8 b).
Definition read_u16_be : reader Z := buf ← read_exact 2; mret (from_be_bytes buf).
Definition read_i16_be : reader Z := buf ← read_exact 2; mret (wrap_s 16 (from_be_bytes buf)).
Definition read_u32_be : reader Z := buf ← read_exact 4; mret (from_be_bytes buf).
Definition read_i32_be : reader Z := buf ← read_exact 4; mret (wrap_s 32 (from_be_bytes buf)).
Definition read_u64_be : reader Z := buf ← read_exact 8; mret (from_be_bytes buf).
Definition read_i64_be : reader Z := buf ← read_exact 8; mret (wrap_s 64 (from_be_bytes buf)).
Definition read_u128_be : reader Z := buf ← read_exact 16; mret (from_be_bytes buf).
Definition read_f32_be : reader Z := buf ← read_exact 4; mret (from_be_bytes buf).
Definition read_f64_be : reader Z := buf ← read_exact 8; mret (from_be_bytes buf).

Definition read_bool : reader bool :=
  byte ← read_u8;
  if decide (byte = 0) then mret false
  else if decide (byte = 1) then mret true
  else reader_fail (Invalid "bool value must be 0 or 1").

Definition read_var_int : reader Z := read_varint_from_reader.
Definition read_var_long : reader Z := read_varlong_from_reader.

(** The end of both string decoders: UTF-8, then the limit in characters. *)
Definition check_string (max_chars : Z) (data : bytes) : ProtocolResult rstring :=
  match from_utf8 data with
  | None => Err (Invalid "invalid UTF-8 in string")
  | Some s =>
    if decide (zlen s > max_chars) then Err (TooLarge max_chars (zlen s)) else Ok s
  end.

Definition read_string_bounded_from_reader (max_chars : Z) : reader rstring := λ r,
  match read_varint_from_reader r with
  | Err e => Err e
  | Ok (raw_len, r) =>
    if decide (raw_len < 0) then Err (Invalid "negative length") else
    let max_bytes := max_chars * 4 in
    if decide (raw_len > max_bytes) then Err (TooLarge max_bytes raw_len) else
    match read_exact raw_len r with
    | Err e => Err e
    | Ok (buf, r) => s ← check_string max_chars buf; Ok (s, r)
    end
  end.

Definition read_string_bounded (max_len : Z) : reader rstring :=
  read_string_bounded_from_reader max_len.
Definition read_string : reader rstring := read_string_bounded 32767.

Definition read_uuid : reader Z := read_u128_be.

Definition read_byte_array_bounded (count : Z) : reader bytes := read_exact count.

Definition read_byte_array (max_len : Z) : reader bytes :=
  raw_len ← read_var_int;
  if decide (raw_len < 0) then reader_fail (Invalid "negative length")
  else if decide (raw_len > max_len) then reader_fail (TooLarge max_len raw_len)
  else read_byte_array_bounded raw_len.

Definition read_remaining : reader bytes := read_to_end.

(** ** Writers: [impl McBufWriteExt for W] *)

Definition write_u8 (v : Z) : ProtocolResult bytes := Ok [v].
Definition write_i8 (v : Z) : ProtocolResult bytes := Ok [wrap_u 8 v].
Definition write_u16_be (v : Z) : ProtocolResult bytes := Ok (to_be_bytes 2 v).
Definition write_i16_be (v : Z) : ProtocolResult bytes := Ok (to_be_bytes 2 v).
Definition write_u32_be (v : Z) : ProtocolResult bytes := Ok (to_be_bytes 4 v).
Definition write_i32_be (v : Z) : ProtocolResult bytes := Ok (to_be_bytes 4 v).
Definition write_u64_be (v : Z) : ProtocolResult bytes := Ok (to_be_bytes 8 v).
Definition write_i64_be (v : Z) : ProtocolResult bytes := Ok (to_be_bytes 8 v).
Definition write_u128_be (v : Z) : ProtocolResult bytes := Ok (to_be_bytes 16 v).
Definition write_f32_be (v : Z) : ProtocolResult bytes := Ok (to_be_bytes 4 v).
Definition write_f64_be (v : Z) : ProtocolResult bytes := Ok (to_be_bytes 8 v).
Definition write_bool (b : bool) : ProtocolResult bytes := Ok [if b then 1 else 0].
Definition write_var_int (v : Z) : ProtocolResult bytes := Ok (VarInt_encode v).

Definition MAX_STRING_CHARS : Z := 32767.

Definition encode_string (s : rstring) : ProtocolResult bytes :=
  let char_len := zlen s in
  if decide (char_len > MAX_STRING_CHARS) then Err (TooLarge MAX_STRING_CHARS char_len)
  else Ok (VarInt_encode (wrap_s 32 (zlen (as_bytes s)))) +> Ok (as_bytes s).

Definition write_string (s : rstring) : ProtocolResult bytes := encode_string s.
Definition write_uuid (v : Z) : ProtocolResult bytes := Ok (to_be_bytes 16 v).

Definition write_byte_array (data : bytes) : ProtocolResult bytes :=
  Ok (VarInt_encode (wrap_s 32 (zlen data))) +> Ok data.

Definition write_all (data : bytes) : ProtocolResult bytes := Ok data.

(** ** Slice decoders: [impl Decode] of [codec/types.rs] *)

Definition decode_u8 : reader Z := λ r,
  match r with [] => Err (Incomplete "u8") | val :: rest => Ok (val, rest) end.

Definition decode_i8 : reader Z := byte ← decode_u8; mret (wrap_s 8 byte).

Definition decode_bool : reader bool :=
  byte ← decode_u8;
  if decide (byte = 0) then mret false
  else if decide (byte = 1) then mret true
  else reader_fail (Invalid "bool value must be 0 or 1").

(** The macro [impl_codec_be!], for an unsigned or a signed type of [size] bytes. *)
Definition decode_be (signed : bool) (size : Z) (ctx : string) : reader Z := λ r,
  if decide (zlen r < size) then Err (Incomplete ctx)
  else
    let val := from_be_bytes (take (Z.to_nat size) r) in
    Ok (if signed then wrap_s (8 * size) val else val, drop (Z.to_nat size) r).

Definition decode_string (max_chars : Z) : reader rstring := λ r,
  match VarInt_decode r with
  | Err e => Err e
  | Ok (raw_len, r) =>
    if decide (raw_len < 0) then Err (Invalid "negative length") else
    let max_bytes := max_chars * 4 in
    if decide (raw_len > max_bytes) then Err (TooLarge max_bytes raw_len) else
    if decide (zlen r < raw_len) then Err (Incomplete "String data") else
    s ← check_string max_chars (take (Z.to_nat raw_len) r);
    Ok (s, drop (Z.to_nat raw_len) r)
  end.

Definition decode_uuid : reader Z := decode_be false 16 "u128".

Definition decode_byte_vec : reader bytes := λ r,
  match VarInt_decode r with
  | Err e => Err e
  | Ok (raw_len, r) =>
    if decide (raw_len < 0) then Err (Invalid "negative length") else
    if decide (zlen r < raw_len) then Err (Incomplete "byte array") else
    Ok (take (Z.to_nat raw_len) r, drop (Z.to_nat raw_len) r)
  end.

Definition encode_option {A} (encode : A → ProtocolResult bytes) (o : option A) :
    ProtocolResult bytes :=
  match o with
  | Some val => write_bool true +> encode val
  | None => write_bool false
  end.

Definition decode_option {A} (decode : reader A) : reader (option A) :=
  present ← decode_bool;
  if present : bool then val ← decode; mret (Some val) else mret None.

(** ** Integers *)

Lemma zlen_to_be_bytes n v : zlen (to_be_bytes n v) = Z.of_nat n.
Proof. unfold zlen. by rewrite length_to_be_bytes. Qed.

Lemma reads_uint_be n v :
  in_u (8 * Z.of_nat n) v →
  reads (buf ← read_exact (Z.of_nat n); mret (from_be_bytes buf)) (to_be_bytes n v) v.
Proof.
  intros Hv. eapply reads_bind_ret; [by apply reads_exact; rewrite zlen_to_be_bytes|].
  rewrite from_to_be_bytes. f_equal. by apply Z.mod_small.
Qed.

Lemma reads_sint_be n v :
  0 < Z.of_nat n → in_s (8 * Z.of_nat n) v →
  reads (buf ← read_exact (Z.of_nat n); mret (wrap_s (8 * Z.of_nat n) (from_be_bytes buf)))
    (to_be_bytes n v) v.
Proof.
  intros Hn Hv. eapply reads_bind_ret; [by apply reads_exact; rewrite zlen_to_be_bytes|].
  rewrite from_to_be_bytes. f_equal. apply (wrap_s_of_u (8 * Z.of_nat n)); [lia|done].
Qed.

Lemma read_u8_reads v : reads read_u8 [v] v.
Proof. eapply reads_bind_ret; [by apply reads_exact|done]. Qed.
Lemma read_i8_reads v : in_s 8 v → reads read_i8 [wrap_u 8 v] v.
Proof.
  intros. eapply reads_bind_ret; [apply read_u8_reads|]. f_equal. by apply wrap_s_of_u.
Qed.
Lemma read_u16_be_reads v : in_u 16 v → reads read_u16_be (to_be_bytes 2 v) v.
Proof. apply (reads_uint_be 2). Qed.
Lemma read_i16_be_reads v : in_s 16 v → reads read_i16_be (to_be_bytes 2 v) v.
Proof. by apply (reads_sint_be 2). Qed.
Lemma read_u32_be_reads v : in_u 32 v → reads read_u32_be (to_be_bytes 4 v) v.
Proof. apply (reads_uint_be 4). Qed.
Lemma read_i32_be_reads v : in_s 32 v → reads read_i32_be (to_be_bytes 4 v) v.
Proof. by apply (reads_sint_be 4). Qed.
Lemma read_u64_be_reads v : in_u 64 v → reads read_u64_be (to_be_bytes 8 v) v.
Proof. apply (reads_uint_be 8). Qed.
Lemma read_i64_be_reads v : in_s 64 v → reads read_i64_be (to_be_bytes 8 v) v.
Proof. by apply (reads_sint_be 8). Qed.
Lemma read_u128_be_reads v : in_u 128 v → reads read_u128_be (to_be_bytes 16 v) v.
Proof. apply (reads_uint_be 16). Qed.
Lemma read_f32_be_reads v : in_u 32 v → reads read_f32_be (to_be_bytes 4 v) v.
Proof. apply (reads_uint_be 4). Qed.
Lemma read_f64_be_reads v : in_u 64 v → reads read_f64_be (to_be_bytes 8 v) v.
Proof. apply (reads_uint_be 8). Qed.
Lemma read_uuid_reads v : in_u 128 v → reads read_uuid (to_be_bytes 16 v) v.
Proof. apply read_u128_be_reads. Qed.
Lemma read_var_int_reads v : in_s 32 v → reads read_var_int (VarInt_encode v) v.
Proof. apply read_varint_reads. Qed.

Lemma read_bool_reads (b : bool) : reads read_bool [if b then 1 else 0] b.
Proof. eapply reads_bind_ret; [apply read_u8_reads|]. by destruct b. Qed.

(** ** Byte arrays and strings *)

Lemma zlen_in_s32 {A} (l : list A) n : zlen l ≤ n → n < 2 ^ 31 → in_s 32 (zlen l).
Proof. intros. pose proof (zlen_nonneg l). unfold in_s. change (2 ^ (32 - 1)) with (2 ^ 31). lia. Qed.

Lemma read_byte_array_reads max data bs :
  zlen data ≤ max → max < 2 ^ 31 → write_byte_array data = Ok bs →
  reads (read_byte_array max) bs data.
Proof.
  intros Hmax Hlt <-%Ok_inj. pose proof (zlen_nonneg data).
  rewrite wrap_s_small by (lia || by eapply zlen_in_s32).
  eapply reads_bind; [apply read_var_int_reads; by eapply zlen_in_s32|].
  rewrite !decide_False by lia. by apply reads_exact.
Qed.

(** A string of at most [max] characters passes the checks of both decoders. *)
Lemma check_string_Ok max s :
  is_string s → zlen s ≤ max → check_string max (as_bytes s) = Ok s.
Proof.
  intros Hs Hmax. unfold check_string. rewrite from_utf8_as_bytes by done.
  by rewrite decide_False by lia.
Qed.

Lemma zlen_as_bytes s : zlen s ≤ zlen (as_bytes s) ≤ zlen s * 4.
Proof. pose proof (as_bytes_length s). unfold zlen. lia. Qed.

(** The length prefix that is written is the length. *)
Lemma encode_string_Ok s bs :
  encode_string s = Ok bs →
  zlen s ≤ 32767 ∧ in_s 32 (zlen (as_bytes s)) ∧
  bs = VarInt_encode (zlen (as_bytes s)) ++ as_bytes s.
Proof.
  unfold encode_string, MAX_STRING_CHARS. case_decide; [done|]. intros <-%Ok_inj.
  pose proof (zlen_as_bytes s). assert (in_s 32 (zlen (as_bytes s))).
  { eapply zlen_in_s32; [|by instantiate (1 := 131068)]. lia. }
  rewrite wrap_s_small by (lia || done). split; [lia|done].
Qed.

Lemma read_string_bounded_reads max s bs :
  is_string s → zlen s ≤ max → write_string s = Ok bs →
  reads (read_string_bounded max) bs s.
Proof.
  intros Hs Hmax (_&Hlen&->)%encode_string_Ok rest.
  pose proof (zlen_as_bytes s). pose proof (zlen_nonneg s). rewrite <- app_assoc.
  unfold read_string_bounded, read_string_bounded_from_reader.
  rewrite read_varint_reads by done. rewrite !decide_False by lia.
  rewrite reads_exact by done. by rewrite check_string_Ok by done.
Qed.

Lemma decode_string_reads max s bs :
  is_string s → zlen s ≤ max → encode_string s = Ok bs → reads (decode_string max) bs s.
Proof.
  intros Hs Hmax (_&Hlen&->)%encode_string_Ok rest.
  pose proof (zlen_as_bytes s). pose proof (zlen_nonneg s). pose proof (zlen_nonneg rest).
  rewrite <- app_assoc. unfold decode_string. rewrite VarInt_decode_reads by done.
  rewrite zlen_app, !decide_False by lia.
  by rewrite take_zlen_app, drop_zlen_app, check_string_Ok by done.
Qed.

Lemma read_string_reads s bs :
  is_string s → write_string s = Ok bs → reads read_string bs s.
Proof.
  intros Hs H. apply read_string_bounded_reads; [done| |done].
  by apply encode_string_Ok in H as (?&_&_).
Qed.

#[export] Hint Resolve read_u8_reads read_i8_reads read_u16_be_reads read_i16_be_reads
  read_u32_be_reads read_i32_be_reads read_u64_be_reads read_i64_be_reads
  read_u128_be_reads read_f32_be_reads read_f64_be_reads read_uuid_reads
  read_var_int_reads read_bool_reads read_byte_array_reads read_string_bounded_reads
  read_string_reads : codec.

(** ** Slice decoders *)

Lemma decode_be_reads (signed : bool) n ctx v :
  0 < Z.of_nat n →
  (if signed then in_s (8 * Z.of_nat n) v else in_u (8 * Z.of_nat n) v) →
  reads (decode_be signed (Z.of_nat n) ctx) (to_be_bytes n v) v.
Proof.
  intros Hn Hv rest. unfold decode_be. pose proof (zlen_to_be_bytes n v) as Hl.
  rewrite zlen_app, decide_False by (pose proof (zlen_nonneg rest); lia).
  rewrite <- Hl, take_zlen_app, drop_zlen_app, Hl, from_to_be_bytes.
  destruct signed; do 2 f_equal; [by apply (wrap_s_of_u (8 * Z.of_nat n)); [lia|]|].
  by apply Z.mod_small.
Qed.

Lemma decode_u8_reads v : reads decode_u8 [v] v.
Proof. done. Qed.

Lemma decode_i8_reads v : in_s 8 v → reads decode_i8 [wrap_u 8 v] v.
Proof.
  intros. eapply reads_bind_ret; [apply decode_u8_reads|]. f_equal. by apply wrap_s_of_u.
Qed.

Lemma decode_bool_reads (b : bool) : reads decode_bool [if b then 1 else 0] b.
Proof. eapply reads_bind_ret; [apply decode_u8_reads|]. by destruct b. Qed.

Lemma decode_byte_vec_reads data bs :
  zlen data < 2 ^ 31 → write_byte_array data = Ok bs → reads decode_byte_vec bs data.
Proof.
  intros Hlt <-%Ok_inj rest. pose proof (zlen_nonneg data). pose proof (zlen_nonneg rest).
  assert (in_s 32 (zlen data)) by (eapply zlen_in_s32; [done|lia]).
  rewrite wrap_s_small by (lia || done). rewrite <- app_assoc.
  unfold decode_byte_vec. rewrite VarInt_decode_reads by done.
  rewrite zlen_app, !decide_False by lia. by rewrite take_zlen_app, drop_zlen_app.
Qed.

Lemma decode_option_reads {A} (encode : A → ProtocolResult bytes) (decode : reader A) o bs :
  (∀ x bs, o = Some x → encode x = Ok bs → reads decode bs x) →
  encode_option encode o = Ok bs → reads (decode_option decode) bs o.
Proof.
  intros Hc. unfold encode_option, write_bool. destruct o as [x|].
  - intros (b&y&Hb%Ok_inj&Hy&->)%wr_app_Ok. rewrite <- Hb.
    eapply reads_bind; [apply (decode_bool_reads true)|]. cbn beta iota.
    eapply reads_bind_ret; [by eapply Hc|done].
  - intros <-%Ok_inj. eapply reads_bind_ret; [apply (decode_bool_reads false)|done].
Qed.

(** ** What the string decoders accept *)

Lemma check_string_inv max data s :
  check_string max data = Ok s → is_string s ∧ as_bytes s = data ∧ zlen s ≤ max.
Proof.
  unfold check_string. destruct (from_utf8 data) as [s'|] eqn:E; [|done].
  case_decide; [done|]. intros [= ->]. apply from_utf8_Some in E as [??]. by split_and!; [..|lia].
Qed.

Lemma read_string_bounded_inv max r s rest :
  read_string_bounded max r = Ok (s, rest) →
  is_string s ∧ zlen s ≤ max ∧
  ∃ prefix, r = prefix ++ as_bytes s ++ rest ∧ (1 ≤ length prefix ≤ 5)%nat ∧
    reads read_varint_from_reader prefix (zlen (as_bytes s)).
Proof.
  unfold read_string_bounded, read_string_bounded_from_reader.
  destruct (read_varint_from_reader r) as [[n r']|e] eqn:E; [|done].
  apply var_decode_loop_Ok in E as (_&prefix&->&Hlen&Hr); [|lia|by apply in_s_0].
  case_decide as Hneg; [done|]. case_decide; [done|].
  unfold read_exact. case_decide as Hle; [|done].
  intros (s'&Hs&[= -> <-])%result_bind_Ok.
  apply check_string_inv in Hs as (Hs&Hb&Hmax). split; [done|]. split; [done|].
  exists prefix. rewrite Hb, take_drop. split; [done|]. split; [done|].
  replace (zlen (take (Z.to_nat n) r')) with n; [done|].
  unfold zlen in *. rewrite length_take. lia.
Qed.

(** ** Theorems *)

(** The integer types of the protocol: name, range, reader or slice decoder, and
    writer. *)
Definition wire_ints : list (string * (Z → Prop) * reader Z * (Z → ProtocolResult bytes)) :=
  [("read_u8", in_u 8, read_u8, write_u8); ("read_i8", in_s 8, read_i8, write_i8);
   ("read_u16_be", in_u 16, read_u16_be, write_u16_be);
   ("read_i16_be", in_s 16, read_i16_be, write_i16_be);
   ("read_u32_be", in_u 32, read_u32_be, write_u32_be);
   ("read_i32_be", in_s 32, read_i32_be, write_i32_be);
   ("read_u64_be", in_u 64, read_u64_be, write_u64_be);
   ("read_i64_be", in_s 64, read_i64_be, write_i64_be);
   ("read_u128_be", in_u 128, read_u128_be, write_u128_be);
   ("read_f32_be", in_u 32, read_f32_be, write_f32_be);
   ("read_f64_be", in_u 64, read_f64_be, write_f64_be);
   ("read_uuid", in_u 128, read_uuid, write_uuid);
   ("read_var_int", in_s 32, read_var_int, write_var_int);
   ("u8::decode", in_u 8, decode_u8, write_u8); ("i8::decode", in_s 8, decode_i8, write_i8);
   ("u16::decode", in_u 16, decode_be false 2 "u16", write_u16_be);
   ("i16::decode", in_s 16, decode_be true 2 "i16", write_i16_be);
   ("u32::decode", in_u 32, decode_be false 4 "u32", write_u32_be);
   ("i32::decode", in_s 32, decode_be true 4 "i32", write_i32_be);
   ("u64::decode", in_u 64, decode_be false 8 "u64", write_u64_be);
   ("i64::decode", in_s 64, decode_be true 8 "i64", write_i64_be);
   ("u128::decode", in_u 128, decode_be false 16 "u128", write_u128_be);
   ("f32::decode", in_u 32, decode_be false 4 "f32", write_f32_be);
   ("f64::decode", in_u 64, decode_be false 8 "f64", write_f64_be);
   ("Uuid::decode", in_u 128, decode_uuid, write_uuid);
   ("VarInt::decode", in_s 32, VarInt_decode, write_var_int)].

(** Each fixed-width integer, float bit pattern, UUID and VarInt reader, and each
    slice decoder, gives back every value of its type that the matching writer
    wrote, and leaves what follows it on the wire. *)
Theorem wire_ints_roundtrip :
  Forall (λ '(_, valid, rd, wr), ∀ v rest, valid v →
    ∃ bs, wr v = Ok bs ∧ rd (bs ++ rest) = Ok (v, rest)) wire_ints.
Proof.
  assert (Hall : Forall (λ '(_, valid, rd, wr), ∀ v, valid v →
    ∃ bs, wr v = Ok bs ∧ reads rd bs v) wire_ints).
  { repeat (apply Forall_cons; split); [..|by apply Forall_nil].
    all: intros v Hv; eexists; split; [reflexivity|]; auto with codec.
    all: first [apply decode_u8_reads|apply (decode_i8_reads v Hv)
      |apply (decode_be_reads false 2 _ v eq_refl Hv)|apply (decode_be_reads true 2 _ v eq_refl Hv)
      |apply (decode_be_reads false 4 _ v eq_refl Hv)|apply (decode_be_reads true 4 _ v eq_refl Hv)
      |apply (decode_be_reads false 8 _ v eq_refl Hv)|apply (decode_be_reads true 8 _ v eq_refl Hv)
      |apply (decode_be_reads false 16 _ v eq_refl Hv)]. }
  apply (Forall_impl _ _ _ Hall). intros [[[? ?] ?] ?] H v rest Hv.
  destruct (H v Hv) as (bs&?&Hr). by exists bs.
Qed.

(** A string of at most [max] characters and at most the protocol's 32767 can be
    written, and both string decoders read it back exactly, characters outside
    ASCII included, whatever follows. *)
Theorem string_roundtrip (max : Z) (s : rstring) (rest : bytes) :
  is_string s → zlen s ≤ max → zlen s ≤ MAX_STRING_CHARS →
  ∃ bs, write_string s = Ok bs ∧
    read_string_bounded max (bs ++ rest) = Ok (s, rest) ∧
    decode_string max (bs ++ rest) = Ok (s, rest).
Proof.
  intros Hs Hmax Hlim. destruct (write_string s) as [bs|e] eqn:E.
  - exists bs. split; [done|].
    split; [by apply read_string_bounded_reads|by apply decode_string_reads].
  - unfold write_string, encode_string in E. case_decide; [lia|done].
Qed.

Lemma string_roundtrip_witness :
  let s := [0x48; 0xE9; 0x20AC; 0x1F30D] in
  is_string s ∧
  ∃ bs, write_string s = Ok bs ∧ read_string_bounded 16 (bs ++ [9]) = Ok (s, [9]) ∧
    decode_string 16 (bs ++ [9]) = Ok (s, [9]).
Proof.
  intros s. assert (Hs : is_string s) by (by apply (bool_decide_unpack _)).
  split; [exact Hs|]. exact (string_roundtrip 16 s [9] Hs ltac:(done) ltac:(done)).
Defined.

(** What the string reader accepts, on any input: a valid string within the
    character limit, whose bytes are exactly those after a length prefix of one to
    five bytes that gives their number.  Overlong or truncated UTF-8, surrogates
    and lengths that lie cannot get through. *)
Theorem read_string_bounded_sound (max : Z) (r : bytes) (s : rstring) (rest : bytes) :
  read_string_bounded max r = Ok (s, rest) →
  is_string s ∧ zlen s ≤ max ∧
  ∃ prefix, r = prefix ++ as_bytes s ++ rest ∧ (1 ≤ length prefix ≤ 5)%nat ∧
    read_var_int (prefix ++ as_bytes s ++ rest) = Ok (zlen (as_bytes s), as_bytes s ++ rest).
Proof.
  intros (Hs&Hmax&prefix&->&Hl&Hr)%read_string_bounded_inv.
  split; [done|]. split; [done|]. exists prefix. split; [done|]. split; [done|]. apply Hr.
Qed.

Lemma read_string_bounded_sound_witness :
  read_string_bounded 16 [2; 0x41; 0x42; 7] = Ok ([0x41; 0x42], [7]) ∧
  is_string [0x41; 0x42].
Proof.
  split; [by vm_compute|].
  exact (proj1 (read_string_bounded_sound 16 [2; 0x41; 0x42; 7] [0x41; 0x42] [7]
    ltac:(by vm_compute))).
Defined.
