(* ===== verification/Frame.v ===== *)
(** * Frame: packet framing

    [infrarust_protocol::io]: [PacketFrame], [PacketEncoder], [PacketDecoder] and
    the zlib wrappers of [io/compression.rs] (the default [flate2] backend).

    A decoder is its buffer of received bytes and its compression threshold, an
    encoder its buffer of bytes to send and its threshold.  The scratch buffers of
    the code ([decompress_buf], [compress_buf], [scratch_buf]) are cleared before
    each use and never read afterwards, so they are local values here.

    [flate2] is not part of the repository: [Zlib] names what the code calls, and
    [ZlibLaws] what it relies on (decompressing what was compressed gives the
    input back). *)
From S2P Require Import Prelude Wire VarInt.

Definition MAX_PACKET_SIZE : Z := 2097152.
Definition MAX_PACKET_DATA_SIZE : Z := 8388608.

Record PacketFrame := mk_frame { frame_id : Z; payload : bytes }.

#[export] Instance PacketFrame_eq_dec : EqDecision PacketFrame.
Proof. solve_decision. Defined.

(** ** The zlib library *)

Class Zlib := {
  (** All the bytes a [ZlibEncoder] of that level has written after [finish]. *)
  zlib_encode : Z → bytes → bytes;
  (** The bytes a [ZlibDecoder] yields, up to the end of the stream or to an error. *)
  zlib_stream : bytes → bytes
}.

Class ZlibLaws `{Zlib} := {
  zlib_stream_encode : ∀ level data, zlib_stream (zlib_encode level data) = data
}.

Section frame.
Context `{Zlib}.

(** ** Compression *)

Definition Flate2Compressor_compress (level : Z) (input : bytes) : ProtocolResult bytes :=
  Ok (zlib_encode level input).

(** [read_exact] of [expected_size] bytes, then one more [read] that must give
    nothing (an error there counts as nothing). *)
Definition Flate2Decompressor_decompress (input : bytes) (expected_size : Z) :
    ProtocolResult bytes :=
  let output := zlib_stream input in
  if decide (zlen output < expected_size) then
    Err (Invalid "failed to decompress packet data")
  else if decide (zlen output > expected_size) then
    Err (Invalid "decompressed data larger than expected size")
  else Ok output.

(** ** Decoder *)

Record PacketDecoder := mk_decoder {
  dec_buf : bytes;
  dec_threshold : option Z
}.

Definition PacketDecoder_new : PacketDecoder := mk_decoder [] None.

Definition queue_bytes (d : PacketDecoder) (bs : bytes) : PacketDecoder :=
  mk_decoder (dec_buf d ++ bs) (dec_threshold d).

(** [[VarInt(packet_id)] [payload]]. *)
Definition decode_plain (data : bytes) : ProtocolResult PacketFrame :=
  match VarInt_decode data with
  | Err e => Err e
  | Ok (packet_id, rest) => Ok (mk_frame packet_id rest)
  end.

(** The content of one packet, once its length is known. *)
Definition decode_packet (threshold : option Z) (data : bytes) : ProtocolResult PacketFrame :=
  match threshold with
  | None => decode_plain data
  | Some _ =>
    match VarInt_decode data with
    | Err e => Err e
    | Ok (data_len, data) =>
      if decide (data_len = 0) then decode_plain data
      else
        let data_len := wrap_u 64 data_len in
        if decide (data_len > MAX_PACKET_DATA_SIZE)
        then Err (TooLarge MAX_PACKET_DATA_SIZE data_len)
        else
          match Flate2Decompressor_decompress data data_len with
          | Err e => Err e
          | Ok out => decode_plain out
          end
    end
  end.

Definition try_next_frame (d : PacketDecoder) :
    ProtocolResult (option PacketFrame) * PacketDecoder :=
  match VarInt_decode_partial (dec_buf d) with
  | Err VarIntDecodeStatus.Incomplete => (Ok None, d)
  | Err VarIntDecodeStatus.TooLarge => (Err (Invalid "packet length VarInt too large"), d)
  | Ok (packet_len, varint_size) =>
    if decide (packet_len ≤ 0) then (Err (Invalid "packet length must be positive"), d)
    else if decide (packet_len > MAX_PACKET_SIZE)
    then (Err (TooLarge MAX_PACKET_SIZE packet_len), d)
    else if decide (zlen (dec_buf d) < varint_size + packet_len) then (Ok None, d)
    else
      let buf := drop (Z.to_nat varint_size) (dec_buf d) in
      let data := take (Z.to_nat packet_len) buf in
      let d := mk_decoder (drop (Z.to_nat packet_len) buf) (dec_threshold d) in
      (Some <$> decode_packet (dec_threshold d) data, d)
  end.

Definition dec_set_compression (threshold : Z) (d : PacketDecoder) : PacketDecoder :=
  mk_decoder (dec_buf d) (Some threshold).

Definition into_remaining (d : PacketDecoder) : bytes := dec_buf d.

(** ** Encoder *)

Record PacketEncoder := mk_encoder {
  enc_buf : bytes;
  enc_threshold : option Z
}.

Definition PacketEncoder_new : PacketEncoder := mk_encoder [] None.

(** The bytes one packet is framed into, or the error. *)
Definition frame_packet (threshold : option Z) (packet_id : Z) (payload : bytes) :
    ProtocolResult bytes :=
  let packet_id_size := VarInt_written_size packet_id in
  match threshold with
  | None =>
    let data_len := packet_id_size + zlen payload in
    if decide (data_len > MAX_PACKET_SIZE) then Err (TooLarge MAX_PACKET_SIZE data_len)
    else Ok (VarInt_encode (wrap_s 32 data_len) ++ VarInt_encode packet_id ++ payload)
  | Some threshold =>
    let uncompressed_len := packet_id_size + zlen payload in
    if decide (threshold ≤ wrap_s 32 uncompressed_len) then
      compressed ← Flate2Compressor_compress 4 (VarInt_encode packet_id ++ payload);
      let data_len_varint := wrap_s 32 uncompressed_len in
      let packet_len := VarInt_written_size data_len_varint + zlen compressed in
      if decide (packet_len > MAX_PACKET_SIZE) then Err (TooLarge MAX_PACKET_SIZE packet_len)
      else Ok (VarInt_encode (wrap_s 32 packet_len) ++ VarInt_encode data_len_varint
               ++ compressed)
    else
      let packet_len := VarInt_written_size 0 + packet_id_size + zlen payload in
      if decide (packet_len > MAX_PACKET_SIZE) then Err (TooLarge MAX_PACKET_SIZE packet_len)
      else Ok (VarInt_encode (wrap_s 32 packet_len) ++ VarInt_encode 0
               ++ VarInt_encode packet_id ++ payload)
  end.

Definition append_raw (packet_id : Z) (payload : bytes) (e : PacketEncoder) :
    ProtocolResult () * PacketEncoder :=
  match frame_packet (enc_threshold e) packet_id payload with
  | Ok bs => (Ok (), mk_encoder (enc_buf e ++ bs) (enc_threshold e))
  | Err err => (Err err, e)
  end.

Definition append_frame (f : PacketFrame) (e : PacketEncoder) :
    ProtocolResult () * PacketEncoder :=
  append_raw (frame_id f) (payload f) e.

(** [take]: the bytes, and the encoder left empty. *)
Definition enc_take (e : PacketEncoder) : bytes * PacketEncoder :=
  (enc_buf e, mk_encoder [] (enc_threshold e)).

Definition enc_set_compression (threshold : Z) (e : PacketEncoder) : PacketEncoder :=
  mk_encoder (enc_buf e) (Some threshold).

(** ** Reading a stream

    The loop of the decoder's contract: call [try_next_frame] until it gives no
    frame.  The result is the frames, the error that ended the loop if there was
    one, and the decoder.  Each frame takes at least two bytes off the buffer, so
    the length of the buffer bounds the iterations. *)
Fixpoint drain_loop (fuel : nat) (d : PacketDecoder) :
    list PacketFrame * option ProtocolError * PacketDecoder :=
  match fuel with
  | O => ([], None, d)
  | S fuel =>
    match try_next_frame d with
    | (Ok None, d) => ([], None, d)
    | (Err e, d) => ([], Some e, d)
    | (Ok (Some f), d) =>
      let '(fs, err, d) := drain_loop fuel d in (f :: fs, err, d)
    end
  end.

Definition drain (d : PacketDecoder) := drain_loop (S (length (dec_buf d))) d.

(** A connection's receiving side: what each read of the socket yields is queued
    and drained; the first error ends the connection. *)
Record receiver := mk_receiver {
  rcv_dec : PacketDecoder;
  rcv_frames : list PacketFrame;
  rcv_err : option ProtocolError
}.

Definition receive (r : receiver) (chunk : bytes) : receiver :=
  match rcv_err r with
  | Some _ => r
  | None =>
    let '(fs, err, d) := drain (queue_bytes (rcv_dec r) chunk) in
    mk_receiver d (rcv_frames r ++ fs) err
  end.

Definition receive_all (d : PacketDecoder) (chunks : list bytes) : receiver :=
  foldl receive (mk_receiver d [] None) chunks.

(** ** One frame *)

(** More input does not change a frame or an error, and a frame takes bytes off
    the buffer. *)
Lemma try_next_frame_app d more :
  match try_next_frame d with
  | (Ok None, d') => d' = d
  | (Ok (Some f), d') =>
      try_next_frame (queue_bytes d more) = (Ok (Some f), queue_bytes d' more) ∧
      (length (dec_buf d') < length (dec_buf d))%nat
  | (Err e, d') => (try_next_frame (queue_bytes d more)).1 = Err e
  end.
Proof.
  unfold try_next_frame. destruct d as [buf th]. cbn [dec_buf dec_threshold queue_bytes].
  destruct (VarInt_decode_partial buf) as [[n k]|[]] eqn:E.
  2: done.
  2: by rewrite VarInt_decode_partial_app, E by congruence.
  rewrite VarInt_decode_partial_app, E by congruence.
  apply VarInt_decode_partial_Ok in E as (_&Hk&Hkl).
  case_decide as H1; [done|]. case_decide as H2; [done|].
  case_decide as H3; [done|].
  rewrite zlen_app, decide_False by (pose proof (zlen_nonneg more); lia).
  rewrite drop_app_le by (unfold zlen in *; lia).
  assert (Hlen : (Z.to_nat n ≤ length (drop (Z.to_nat k) buf))%nat)
    by (rewrite length_drop; unfold zlen in *; lia).
  rewrite take_app_le, drop_app_le by done.
  destruct (decode_packet th _) as [f|e]; simpl; [|done].
  split; [done|]. rewrite !length_drop. unfold zlen in *. lia.
Qed.

(** A frame takes a prefix off the buffer, and that prefix alone gives the frame. *)
Lemma try_next_frame_split d f d' :
  try_next_frame d = (Ok (Some f), d') →
  ∃ used, dec_buf d = used ++ dec_buf d' ∧ dec_threshold d' = dec_threshold d ∧
    try_next_frame (mk_decoder used (dec_threshold d)) = (Ok (Some f), mk_decoder [] (dec_threshold d)).
Proof.
  destruct d as [buf th]. unfold try_next_frame at 1. cbn [dec_buf dec_threshold].
  destruct (VarInt_decode_partial buf) as [[n k]|[]] eqn:E; [|done|done].
  case_decide as H1; [done|]. case_decide as H2; [done|]. case_decide as H3; [done|].
  pose proof (VarInt_decode_partial_Ok _ _ _ E) as (_&Hk&Hkl).
  destruct (decode_packet th _) as [f'|] eqn:Ef; [|done]. intros [= -> <-].
  cbn [dec_buf dec_threshold]. rewrite drop_drop.
  set (m := (Z.to_nat k + Z.to_nat n)%nat). exists (take m buf).
  split; [by rewrite take_drop|]. split; [done|].
  unfold try_next_frame. cbn [dec_buf dec_threshold].
  rewrite (VarInt_decode_partial_take _ m _ _ E) by (unfold m; lia).
  assert (Hm : zlen (take m buf) = k + n).
  { unfold zlen in *. rewrite length_take. unfold m. lia. }
  rewrite !decide_False by lia.
  rewrite skipn_firstn_comm. unfold m.
  replace (Z.to_nat k + Z.to_nat n - Z.to_nat k)%nat with (Z.to_nat n) by lia.
  rewrite take_take, Nat.min_id, Ef. simpl. do 2 f_equal.
  apply drop_ge. rewrite length_take. lia.
Qed.

(** What [frame_packet] writes, [try_next_frame] reads: the shape all three layouts
    share. *)
Lemma try_next_frame_framed th n body rest f :
  zlen body = n → 0 < n → n ≤ MAX_PACKET_SIZE → decode_packet th body = Ok f →
  try_next_frame (mk_decoder (VarInt_encode (wrap_s 32 n) ++ body ++ rest) th)
  = (Ok (Some f), mk_decoder rest th).
Proof.
  intros Hn Hpos Hmax Hf. unfold MAX_PACKET_SIZE in Hmax.
  assert (Hs : in_s 32 n) by (unfold in_s; lia). rewrite wrap_s_small by (lia || done).
  unfold try_next_frame. cbn [dec_buf dec_threshold].
  rewrite VarInt_decode_partial_encode by done. pose proof (VarInt_encode_size n Hs) as Hsz.
  pose proof (zlen_nonneg rest).
  rewrite !zlen_app, Hsz, !decide_False by (unfold MAX_PACKET_SIZE; lia).
  rewrite <- Hsz, drop_zlen_app. rewrite <- Hn, take_zlen_app, drop_zlen_app. by rewrite Hf.
Qed.

Lemma decode_plain_encode id payload :
  in_s 32 id → decode_plain (VarInt_encode id ++ payload) = Ok (mk_frame id payload).
Proof. intros. unfold decode_plain. by rewrite VarInt_decode_reads. Qed.

(** The size of the uncompressed packet, which both thresholds look at. *)
Definition packet_size (id : Z) (payload : bytes) : Z := VarInt_written_size id + zlen payload.

Lemma packet_size_zlen id payload :
  in_s 32 id → zlen (VarInt_encode id ++ payload) = packet_size id payload.
Proof. intros. by rewrite zlen_app, VarInt_encode_size. Qed.

Lemma packet_size_pos id payload : in_s 32 id → 0 < packet_size id payload.
Proof.
  intros Hid. pose proof (VarInt_written_size_range id Hid). pose proof (zlen_nonneg payload).
  unfold packet_size. lia.
Qed.

Section laws.
Context `{!ZlibLaws}.

Lemma decompress_compress level data n :
  zlen data = n → Flate2Decompressor_decompress (zlib_encode level data) n = Ok data.
Proof.
  intros. unfold Flate2Decompressor_decompress. rewrite zlib_stream_encode.
  by rewrite !decide_False by lia.
Qed.

(** One packet through the encoder and the decoder. *)
Lemma frame_packet_decodes th id payload bs rest :
  in_s 32 id → packet_size id payload ≤ MAX_PACKET_DATA_SIZE →
  frame_packet th id payload = Ok bs →
  try_next_frame (mk_decoder (bs ++ rest) th)
  = (Ok (Some (mk_frame id payload)), mk_decoder rest th).
Proof.
  intros Hid Hsize. pose proof (packet_size_pos id payload Hid) as Hpos.
  pose proof (packet_size_zlen id payload Hid) as Hz.
  unfold frame_packet. fold (packet_size id payload). destruct th as [t|].
  2:{ case_decide; [done|]. intros <-%Ok_inj. rewrite <- !app_assoc, (app_assoc _ payload).
      apply try_next_frame_framed; [done|lia|lia|]. by apply decode_plain_encode. }
  assert (Hs : in_s 32 (packet_size id payload))
    by (unfold in_s, MAX_PACKET_DATA_SIZE in *; lia).
  rewrite !(wrap_s_small 32 ltac:(lia) _ Hs). case_decide as Ht.
  - cbn [Flate2Compressor_compress mbind result_bind]. case_decide; [done|].
    intros <-%Ok_inj. rewrite <- app_assoc. pose proof (VarInt_encode_size _ Hs) as Hsz.
    pose proof (VarInt_written_size_range _ Hs).
    apply try_next_frame_framed.
    + by rewrite zlen_app, Hsz.
    + pose proof (zlen_nonneg (zlib_encode 4 (VarInt_encode id ++ payload))). lia.
    + lia.
    + unfold decode_packet. rewrite VarInt_decode_reads by done.
      rewrite decide_False by lia. rewrite wrap_u_small.
      2:{ unfold in_u, MAX_PACKET_DATA_SIZE in *. lia. }
      rewrite decide_False by lia. rewrite decompress_compress by done.
      by apply decode_plain_encode.
  - case_decide; [done|]. intros <-%Ok_inj.
    assert (Hs0 : in_s 32 0) by (by apply in_s_0).
    rewrite <- !app_assoc, (app_assoc _ payload), (app_assoc (VarInt_encode 0)).
    apply try_next_frame_framed.
    + rewrite zlen_app, Hz, VarInt_encode_size by done. unfold packet_size. lia.
    + unfold packet_size in *. pose proof (VarInt_written_size_range _ Hs0). lia.
    + lia.
    + unfold decode_packet. rewrite VarInt_decode_reads by done.
      rewrite decide_True by done. by apply decode_plain_encode.
Qed.

(** A whole sequence of packets through the encoder. *)
Fixpoint append_frames (fs : list PacketFrame) (e : PacketEncoder) :
    ProtocolResult () * PacketEncoder :=
  match fs with
  | [] => (Ok (), e)
  | f :: fs =>
    match append_frame f e with
    | (Ok _, e) => append_frames fs e
    | (Err err, e) => (Err err, e)
    end
  end.

(** A frame the decoder is ready to accept. *)
Definition sendable (f : PacketFrame) : Prop :=
  in_s 32 (frame_id f) ∧ packet_size (frame_id f) (payload f) ≤ MAX_PACKET_DATA_SIZE.

#[export] Instance sendable_dec f : Decision (sendable f).
Proof. unfold sendable. apply _. Defined.

(** The bytes of the sequence, appended to what the encoder held, read back. *)
Lemma append_frames_decodes fs e e' rest :
  Forall sendable fs → append_frames fs e = (Ok (), e') →
  ∃ bs, enc_buf e' = enc_buf e ++ bs ∧ enc_threshold e' = enc_threshold e ∧
    (length fs ≤ length bs)%nat ∧
    ∀ fuel, drain_loop (length fs + fuel) (mk_decoder (bs ++ rest) (enc_threshold e))
    = let '(fs', err, d) := drain_loop fuel (mk_decoder rest (enc_threshold e)) in
      (fs ++ fs', err, d).
Proof.
  intros Hfs. revert e. induction Hfs as [|[id pl] fs [Hid Hsz] Hfs IH]; intros e; simpl.
  { intros [= ->]. exists []. rewrite app_nil_r. split_and!; [done..|simpl; lia|].
    intros fuel. by destruct (drain_loop fuel _) as [[??]?]. }
  unfold append_frame, append_raw. cbn [frame_id payload].
  destruct (frame_packet (enc_threshold e) id pl) as [bs1|err] eqn:E; [|done].
  intros H2. destruct (IH _ H2) as (bs2&Hb&Ht&Hl&Hd). cbn [enc_buf enc_threshold] in *.
  exists (bs1 ++ bs2). rewrite Hb, Ht, <- app_assoc. split; [done|]. split; [done|].
  pose proof (frame_packet_decodes _ _ _ _ (bs2 ++ rest) Hid Hsz E) as Hf. split.
  { rewrite length_app. enough (bs1 ≠ []) by (destruct bs1; [done|simpl; lia]). intros ->.
    cbn [app] in Hf. pose proof (try_next_frame_app (mk_decoder (bs2 ++ rest) (enc_threshold e)) []) as Hx.
    rewrite Hf in Hx. destruct Hx as [_ Hx]. simpl in Hx. lia. }
  intros fuel. rewrite <- app_assoc, Hf, Hd.
  by destruct (drain_loop fuel _) as [[??]?].
Qed.
End laws.

(** ** The stream *)

(** Enough fuel is as good as more. *)
Lemma drain_loop_fuel n m d :
  (length (dec_buf d) < n)%nat → (length (dec_buf d) < m)%nat →
  drain_loop n d = drain_loop m d.
Proof.
  revert m d. induction n as [|n IH]; intros m d Hn Hm; [lia|].
  destruct m as [|m]; [lia|]. simpl. pose proof (try_next_frame_app d []) as Hx.
  destruct (try_next_frame d) as [[[f|]|e] d']; [|done|done].
  destruct Hx as [_ Hx]. by rewrite (IH m d') by lia.
Qed.

(** After draining, what is left holds no frame. *)
Lemma drain_loop_done n d fs d' :
  (length (dec_buf d) < n)%nat → drain_loop n d = (fs, None, d') →
  try_next_frame d' = (Ok None, d') ∧ (length (dec_buf d') ≤ length (dec_buf d))%nat.
Proof.
  revert d fs. induction n as [|n IH]; intros d fs Hn; [lia|]. simpl.
  pose proof (try_next_frame_app d []) as Hx.
  destruct (try_next_frame d) as [[[f|]|e] d1] eqn:E; [..|done].
  - destruct Hx as [_ Hlt]. destruct (drain_loop n d1) as [[fs1 err] d2] eqn:E2.
    intros [= <- -> ->]. destruct (IH d1 fs1 ltac:(lia) E2). split; [done|lia].
  - subst d1. intros [= <- ->]. by split.
Qed.

(** Draining a longer buffer: the frames of the first part come first, and the
    rest of the work continues from what the first part left. *)
Lemma drain_loop_app n d more fs err d' m :
  (length (dec_buf d) < n)%nat → drain_loop n d = (fs, err, d') →
  (length (dec_buf d) + length more < m)%nat →
  match err with
  | Some e => (drain_loop m (queue_bytes d more)).1 = (fs, Some e)
  | None =>
      drain_loop m (queue_bytes d more)
      = let '(fs2, err2, d2) := drain (queue_bytes d' more) in (fs ++ fs2, err2, d2)
  end.
Proof.
  revert d fs m. induction n as [|n IH]; intros d fs m Hn; [lia|]. simpl.
  pose proof (try_next_frame_app d more) as Hx. destruct m as [|m]; [lia|].
  destruct (try_next_frame d) as [[[f|]|e] d1] eqn:E.
  - destruct Hx as [Hf Hlt]. destruct (drain_loop n d1) as [[fs1 err1] d2] eqn:E2.
    intros [= <- <- <-] Hm. simpl. rewrite Hf.
    specialize (IH d1 fs1 m ltac:(lia) E2 ltac:(lia)). destruct err1.
    + destruct (drain_loop m _) as [[??]?]. simpl in *. by simplify_eq.
    + rewrite IH. by destruct (drain _) as [[??]?].
  - subst d1. intros [= <- <- <-] Hm. unfold drain.
    rewrite (drain_loop_fuel (S m) (S (length (dec_buf (queue_bytes d more))))).
    + by destruct (drain_loop _ _) as [[??]?].
    + simpl. rewrite length_app. lia.
    + lia.
  - intros [= <- <- <-] Hm. simpl.
    destruct (try_next_frame (queue_bytes d more)) as [[[?|]|?] ?]; simpl in Hx; by simplify_eq/=.
Qed.

Lemma drain_app d more fs err d' :
  drain d = (fs, err, d') →
  match err with
  | Some e => (drain (queue_bytes d more)).1 = (fs, Some e)
  | None =>
      drain (queue_bytes d more)
      = let '(fs2, err2, d2) := drain (queue_bytes d' more) in (fs ++ fs2, err2, d2)
  end.
Proof.
  intros H1. apply (drain_loop_app _ d more fs err d' (S (length (dec_buf (queue_bytes d more))))) in H1.
  - done.
  - lia.
  - simpl. rewrite length_app. lia.
Qed.

Lemma queue_bytes_app d c1 c2 : queue_bytes (queue_bytes d c1) c2 = queue_bytes d (c1 ++ c2).
Proof. unfold queue_bytes. simpl. by rewrite app_assoc. Qed.

(** Two states of the receiving side that a client cannot tell apart: the same
    frames and the same error; after an error the decoder is not used any more. *)
Definition rcv_equiv (r1 r2 : receiver) : Prop :=
  rcv_frames r1 = rcv_frames r2 ∧ rcv_err r1 = rcv_err r2 ∧
  (rcv_err r1 = None → rcv_dec r1 = rcv_dec r2).

#[export] Instance rcv_equiv_equivalence : Equivalence rcv_equiv.
Proof.
  split.
  - by intros r.
  - intros r1 r2 (Hf&He&Hd). split; [done|]. split; [done|].
    intros Hn. symmetry. apply Hd. congruence.
  - intros r1 r2 r3 (Hf&He&Hd) (Hf'&He'&Hd'). split; [congruence|]. split; [congruence|].
    intros Hn. rewrite Hd by done. apply Hd'. congruence.
Qed.

#[export] Instance receive_proper : Proper (rcv_equiv ==> eq ==> rcv_equiv) receive.
Proof.
  intros r1 r2 (Hf&He&Hd) c ? <-. unfold receive. rewrite <- He.
  destruct (rcv_err r1) eqn:E; [split; [done|split; congruence]|].
  rewrite <- Hd, Hf by done. by destruct (drain _) as [[??]?].
Qed.

Lemma receive_app r c1 c2 :
  rcv_equiv (receive (receive r c1) c2) (receive r (c1 ++ c2)).
Proof.
  unfold receive at 2 3. destruct (rcv_err r) as [e|] eqn:He.
  { unfold receive. by rewrite He. }
  destruct (drain (queue_bytes (rcv_dec r) c1)) as [[fs err] d'] eqn:E.
  apply (drain_app _ c2) in E. rewrite queue_bytes_app in E.
  unfold receive. simpl. destruct err as [e|].
  - destruct (drain (queue_bytes (rcv_dec r) (c1 ++ c2))) as [[fs2 err2] d2].
    simpl in E. injection E as -> ->. by split; [|split].
  - rewrite E. destruct (drain (queue_bytes d' c2)) as [[fs2 err2] d2].
    split; [|by split]. simpl. by rewrite app_assoc.
Qed.

Lemma receive_concat r chunks c :
  rcv_equiv (foldl receive (receive r c) chunks) (receive r (c ++ concat chunks)).
Proof.
  revert r c. induction chunks as [|c2 chunks IH]; intros r c; simpl; [by rewrite app_nil_r|].
  rewrite IH. rewrite receive_app. by rewrite app_assoc.
Qed.

(** Nothing is ready in a drained decoder. *)
Definition drained (d : PacketDecoder) : Prop := try_next_frame d = (Ok None, d).

Lemma receive_nil d fs : drained d → receive (mk_receiver d fs None) [] = mk_receiver d fs None.
Proof.
  intros Hd. unfold receive, drain, queue_bytes. simpl. rewrite !app_nil_r.
  destruct d as [buf th]. simpl. rewrite Hd. by rewrite app_nil_r.
Qed.

Lemma receive_all_concat d chunks :
  drained d →
  rcv_equiv (receive_all d chunks) (receive (mk_receiver d [] None) (concat chunks)).
Proof.
  intros Hd. unfold receive_all. rewrite <- (receive_nil d [] Hd) at 1.
  by rewrite receive_concat.
Qed.

(** A frame's identifier and its size are within the protocol's bounds. *)
Lemma decode_plain_bounds data f :
  decode_plain data = Ok f →
  in_s 32 (frame_id f) ∧ zlen (payload f) < zlen data.
Proof.
  unfold decode_plain. destruct (VarInt_decode data) as [[id rest]|e] eqn:E; [|done].
  intros [= <-]. apply VarInt_decode_Ok in E as (Hid&used&->&Hl&_). split; [done|].
  cbn [payload]. rewrite zlen_app. unfold zlen. lia.
Qed.

Lemma decode_packet_bounds th data f :
  zlen data ≤ MAX_PACKET_DATA_SIZE → decode_packet th data = Ok f →
  in_s 32 (frame_id f) ∧ zlen (payload f) < MAX_PACKET_DATA_SIZE.
Proof.
  intros Hmax. unfold decode_packet. destruct th as [t|].
  2:{ intros [??]%decode_plain_bounds. split; [done|lia]. }
  destruct (VarInt_decode data) as [[n rest]|e] eqn:E; [|done].
  apply VarInt_decode_Ok in E as (_&used&->&_&_).
  rewrite zlen_app in Hmax. pose proof (zlen_nonneg used).
  case_decide; [intros [??]%decode_plain_bounds; split; [done|lia]|].
  case_decide as Hbig; [done|]. unfold Flate2Decompressor_decompress.
  case_decide; [done|]. case_decide; [done|].
  intros [??]%decode_plain_bounds. split; [done|]. lia.
Qed.
End frame.

(** ** Theorems *)

(** A zlib for the witnesses: the stored form, which keeps the data as they are. *)
Definition stored_zlib : Zlib := {|
  zlib_encode := λ _ data, data;
  zlib_stream := λ data, data
|}.
#[local] Existing Instance stored_zlib.
Lemma stored_zlib_laws : ZlibLaws.
Proof. by split. Qed.
#[local] Existing Instance stored_zlib_laws.

(** Any sequence of packets, in any chunks, is delivered. *)
Lemma frames_deliver `{ZlibLaws} threshold fs e chunks :
  Forall sendable fs →
  append_frames fs (mk_encoder [] threshold) = (Ok (), e) →
  concat chunks = enc_buf e →
  let r := receive_all (mk_decoder [] threshold) chunks in
  rcv_frames r = fs ∧ rcv_err r = None ∧ dec_buf (rcv_dec r) = [].
Proof.
  intros Hfs He Hc r.
  destruct (append_frames_decodes fs _ e [] Hfs He) as (bs&Hb&_&Hl&Hd). simpl in Hb, Hd.
  assert (Hr : rcv_equiv r (mk_receiver (mk_decoder [] threshold) fs None)).
  { unfold r. rewrite receive_all_concat by done. rewrite Hc, Hb.
    unfold receive, drain, queue_bytes. cbn [rcv_err rcv_dec dec_buf dec_threshold app rcv_frames].
    rewrite (drain_loop_fuel _ (length fs + S (length bs))) by (simpl; lia).
    rewrite app_nil_r in Hd. rewrite Hd. simpl. by rewrite app_nil_r. }
  destruct Hr as (->&He'&Hdec). rewrite He'. split; [done|]. split; [done|]. by rewrite Hdec.
Qed.

(** Framing is lossless end to end.  Encode any sequence of packets with a fresh
    encoder, with or without compression, cut the bytes into any chunks, and feed
    the chunks to a fresh decoder with the same threshold as the socket delivers
    them: the decoder yields exactly the packets, in order, no error, and its
    buffer is empty. *)
Theorem frames_roundtrip `{ZlibLaws} (threshold : option Z) (fs : list PacketFrame)
    (e : PacketEncoder) (chunks : list bytes) :
  Forall sendable fs →
  append_frames fs (mk_encoder [] threshold) = (Ok (), e) →
  concat chunks = enc_buf e →
  let r := receive_all (mk_decoder [] threshold) chunks in
  rcv_frames r = fs ∧ rcv_err r = None ∧ dec_buf (rcv_dec r) = [].
Proof. apply frames_deliver. Qed.

Lemma frames_roundtrip_witness :
  let fs := [mk_frame 0 [1; 2; 3]; mk_frame 0x7F []; mk_frame (-1) [9; 9; 9; 9; 9; 9; 9; 9]] in
  ∃ e, append_frames fs (mk_encoder [] (Some 8)) = (Ok (), e) ∧
    let r := receive_all (mk_decoder [] (Some 8)) [take 2 (enc_buf e); drop 2 (enc_buf e)] in
    rcv_frames r = fs ∧ rcv_err r = None ∧ dec_buf (rcv_dec r) = [].
Proof.
  intros fs. eexists. split; [by vm_compute|].
  eapply (frames_roundtrip (Some 8) fs).
  - by apply (bool_decide_unpack _).
  - by vm_compute.
  - by vm_compute.
Defined.

(** C13: the frames and the error a connection sees depend on the bytes received, not
    on how the network cuts them: any two chunkings of the same bytes, well formed
    or not, give the same frames, the same error and the same decoder. *)
Theorem chunking_irrelevant `{Zlib} (d : PacketDecoder) (chunks1 chunks2 : list bytes) :
  drained d → concat chunks1 = concat chunks2 →
  rcv_equiv (receive_all d chunks1) (receive_all d chunks2).
Proof. intros Hd Hc. rewrite !receive_all_concat by done. by rewrite Hc. Qed.

Lemma chunking_irrelevant_witness :
  drained (PacketDecoder_new) ∧
  rcv_equiv (receive_all PacketDecoder_new [[2]; [0; 7; 1]; [5; 0]])
    (receive_all PacketDecoder_new [[2; 0]; [7; 1; 5]; []; [0]]).
Proof.
  split; [by vm_compute|].
  exact (chunking_irrelevant PacketDecoder_new [[2]; [0; 7; 1]; [5; 0]]
    [[2; 0]; [7; 1; 5]; []; [0]] ltac:(by vm_compute) ltac:(done)).
Defined.

(** What one call of [try_next_frame] does to the decoder, for any bytes.  A
    frame has a 32-bit identifier, a payload below the 8 MiB limit (a compressed
    packet cannot expand beyond it), and its bytes leave the buffer.  "Need more
    data" changes nothing, and it is never the answer once the buffer holds the
    largest frame, so a peer cannot make the buffer grow without bound.  No answer
    changes the compression mode. *)
Theorem try_next_frame_bounds `{Zlib} (d : PacketDecoder) :
  match try_next_frame d with
  | (Ok (Some f), d') =>
      in_s 32 (frame_id f) ∧ zlen (payload f) < MAX_PACKET_DATA_SIZE ∧
      zlen (dec_buf d') < zlen (dec_buf d) ∧ dec_threshold d' = dec_threshold d
  | (Ok None, d') => d' = d ∧ zlen (dec_buf d) < 5 + MAX_PACKET_SIZE
  | (Err e, d') => dec_threshold d' = dec_threshold d
  end.
Proof.
  unfold try_next_frame.
  destruct (VarInt_decode_partial (dec_buf d)) as [[n k]|[]] eqn:E; [| |done].
  2:{ apply VarInt_decode_partial_incomplete in E. unfold MAX_PACKET_SIZE. split; [done|lia]. }
  apply VarInt_decode_partial_Ok in E as (_&Hk&Hkl).
  case_decide as H1; [done|]. case_decide as H2; [done|]. case_decide as H3.
  { split; [done|lia]. }
  cbn [dec_threshold]. destruct (decode_packet _ _) as [f|e] eqn:E; [|done]. simpl.
  apply decode_packet_bounds in E as [Hid Hp].
  - split; [done|]. split; [done|]. split; [|done].
    unfold zlen in *. rewrite !length_drop. lia.
  - unfold zlen, MAX_PACKET_SIZE, MAX_PACKET_DATA_SIZE in *.
    rewrite length_take, length_drop. lia.
Qed.

(** [append_raw] is all or nothing.  It succeeds exactly when the framed packet
    fits the 2 MiB limit; then it appends one frame whose bytes are the length
    prefix and that many bytes.  Otherwise it reports the size and the encoder is
    unchanged. *)
Theorem append_raw_atomic `{Zlib} (id : Z) (data : bytes) (e : PacketEncoder) :
  in_s 32 id →
  match append_raw id data e with
  | (Ok _, e') => ∃ body, enc_buf e' = enc_buf e ++ VarInt_encode (zlen body) ++ body ∧
      0 < zlen body ≤ MAX_PACKET_SIZE ∧ enc_threshold e' = enc_threshold e
  | (Err err, e') => e' = e ∧ ∃ size, err = TooLarge MAX_PACKET_SIZE size ∧ MAX_PACKET_SIZE < size
  end.
Proof.
  intros Hid. unfold append_raw, frame_packet, MAX_PACKET_SIZE.
  pose proof (VarInt_written_size_range id Hid). pose proof (zlen_nonneg data).
  assert (Hn : ∀ n, 0 < n → n ≤ 2097152 → wrap_s 32 n = n)
    by (intros; apply wrap_s_small; [lia|]; unfold in_s; lia).
  destruct (enc_threshold e) as [t|]; [case_decide as Ht|].
  - cbn [Flate2Compressor_compress mbind result_bind].
    set (n := wrap_s 32 _). set (c := zlib_encode _ _).
    assert (Hns : in_s 32 n) by (by apply wrap_s_range).
    pose proof (VarInt_written_size_range n Hns). pose proof (zlen_nonneg c).
    case_decide as Hbig; [split; [done|]; eexists; split; [done|lia]|].
    exists (VarInt_encode n ++ c). rewrite zlen_app, VarInt_encode_size by done.
    rewrite Hn by lia. cbn [enc_buf enc_threshold]. split; [done|]. split; [lia|done].
  - pose proof (in_s_0 32 ltac:(lia)) as Hs0.
    pose proof (VarInt_written_size_range 0 Hs0).
    case_decide as Hbig; [split; [done|]; eexists; split; [done|lia]|].
    exists (VarInt_encode 0 ++ VarInt_encode id ++ data).
    rewrite !zlen_app, !VarInt_encode_size by done. cbn [enc_buf enc_threshold].
    rewrite Hn by lia. rewrite Z.add_assoc. split; [done|]. split; [lia|done].
  - case_decide as Hbig; [split; [done|]; eexists; split; [done|lia]|].
    exists (VarInt_encode id ++ data). rewrite zlen_app, VarInt_encode_size by done.
    rewrite Hn by lia. cbn [enc_buf enc_threshold]. split; [done|]. split; [lia|done].
Qed.

Lemma append_raw_atomic_witness :
  in_s 32 0x42 ∧
  ∃ body, enc_buf (append_raw 0x42 [1; 2] (mk_encoder [7] None)).2
      = [7] ++ VarInt_encode (zlen body) ++ body ∧
    0 < zlen body ≤ MAX_PACKET_SIZE ∧
    enc_threshold (append_raw 0x42 [1; 2] (mk_encoder [7] None)).2 = None.
Proof.
  split; [unfold in_s; lia|].
  exact (append_raw_atomic 0x42 [1; 2] (mk_encoder [7] None) ltac:(unfold in_s; lia)).
Defined.
