(* ===== verification/Version.v ===== *)
(** * Version: protocol versions, connection states and packet directions

    Models [infrarust_protocol::version].  A [ProtocolVersion] is a newtype of
    [i32] whose derived order is the order of the numbers, so it is a [Z] here. *)
From S2P Require Import Prelude.

Abbreviation ProtocolVersion := Z (only parsing).

Definition UNKNOWN : ProtocolVersion := (-1).
Definition LEGACY : ProtocolVersion := 0.
Definition V1_7_2 : ProtocolVersion := 4.
Definition V1_7_6 : ProtocolVersion := 5.
Definition V1_8 : ProtocolVersion := 47.
Definition V1_9 : ProtocolVersion := 107.
Definition V1_9_2 : ProtocolVersion := 109.
Definition V1_9_4 : ProtocolVersion := 110.
Definition V1_12 : ProtocolVersion := 335.
Definition V1_12_1 : ProtocolVersion := 338.
Definition V1_12_2 : ProtocolVersion := 340.
Definition V1_13 : ProtocolVersion := 393.
Definition V1_14 : ProtocolVersion := 477.
Definition V1_15 : ProtocolVersion := 573.
Definition V1_16 : ProtocolVersion := 735.
Definition V1_16_2 : ProtocolVersion := 751.
Definition V1_16_4 : ProtocolVersion := 754.
Definition V1_17 : ProtocolVersion := 755.
Definition V1_18 : ProtocolVersion := 757.
Definition V1_18_2 : ProtocolVersion := 758.
Definition V1_19 : ProtocolVersion := 759.
Definition V1_19_1 : ProtocolVersion := 760.
Definition V1_19_3 : ProtocolVersion := 761.
Definition V1_19_4 : ProtocolVersion := 762.
Definition V1_20 : ProtocolVersion := 763.
Definition V1_20_2 : ProtocolVersion := 764.
Definition V1_20_3 : ProtocolVersion := 765.
Definition V1_20_5 : ProtocolVersion := 766.
Definition V1_21 : ProtocolVersion := 767.
Definition V1_21_2 : ProtocolVersion := 768.
Definition V1_21_4 : ProtocolVersion := 769.
Definition V1_21_5 : ProtocolVersion := 770.
Definition V1_21_6 : ProtocolVersion := 771.
Definition V1_21_7 : ProtocolVersion := 772.
Definition V1_21_9 : ProtocolVersion := 773.
Definition V1_21_11 : ProtocolVersion := 774.

Definition SUPPORTED : list ProtocolVersion :=
  [V1_7_2; V1_7_6; V1_8; V1_9; V1_9_2; V1_9_4; V1_12; V1_12_1; V1_12_2; V1_13;
   V1_14; V1_15; V1_16; V1_16_2; V1_16_4; V1_17; V1_18; V1_18_2; V1_19; V1_19_1;
   V1_19_3; V1_19_4; V1_20; V1_20_2; V1_20_3; V1_20_5; V1_21; V1_21_2; V1_21_4;
   V1_21_5; V1_21_6; V1_21_7; V1_21_9; V1_21_11].

Definition no_less_than (self other : ProtocolVersion) : bool := other <=? self.
Definition no_greater_than (self other : ProtocolVersion) : bool := self <=? other.
Definition less_than (self other : ProtocolVersion) : bool := self <? other.
Definition greater_than (self other : ProtocolVersion) : bool := other <? self.

Definition is_legacy (self : ProtocolVersion) : bool :=
  (self <=? LEGACY) && (0 <=? self).
Definition is_unknown (self : ProtocolVersion) : bool := self =? UNKNOWN.

(** The arms of [ProtocolVersion::name], in order. *)
Definition version_names : list (ProtocolVersion * string) :=
  [(LEGACY, "legacy"); (V1_7_2, "1.7.2"); (V1_7_6, "1.7.6"); (V1_8, "1.8");
   (V1_9, "1.9"); (V1_9_2, "1.9.2"); (V1_9_4, "1.9.4"); (V1_12, "1.12");
   (V1_12_1, "1.12.1"); (V1_12_2, "1.12.2"); (V1_13, "1.13"); (V1_14, "1.14");
   (V1_15, "1.15"); (V1_16, "1.16"); (V1_16_2, "1.16.2"); (V1_16_4, "1.16.4");
   (V1_17, "1.17"); (V1_18, "1.18"); (V1_18_2, "1.18.2"); (V1_19, "1.19");
   (V1_19_1, "1.19.1"); (V1_19_3, "1.19.3"); (V1_19_4, "1.19.4"); (V1_20, "1.20");
   (V1_20_2, "1.20.2"); (V1_20_3, "1.20.3"); (V1_20_5, "1.20.5"); (V1_21, "1.21");
   (V1_21_2, "1.21.2"); (V1_21_4, "1.21.4"); (V1_21_5, "1.21.5");
   (V1_21_6, "1.21.6"); (V1_21_7, "1.21.7"); (V1_21_9, "1.21.9");
   (V1_21_11, "1.21.11")].

(** A [match] on constants takes the first arm that equals the scrutinee. *)
Definition version_name (self : ProtocolVersion) : string :=
  match list_find (λ '(v, _), v = self) version_names with
  | Some (_, (_, n)) => n
  | None => "unknown"
  end.

Definition version_display (self : ProtocolVersion) : string :=
  let n := version_name self in
  if decide (n = "unknown"%string) then String.append "protocol:" (pretty self) else n.

Definition version_range (from to : ProtocolVersion) : list ProtocolVersion :=
  filter (λ v, Is_true (no_less_than v from && no_greater_than v to)) SUPPORTED.

Definition range_count (from to : ProtocolVersion) : Z :=
  zlen (filter (λ v, Is_true (no_less_than v from && no_greater_than v to)) SUPPORTED).

(** ** Connection states and directions *)

Inductive ConnectionState := Handshake | Status | Login | Config | Play.
Inductive Direction := Serverbound | Clientbound.

#[export] Instance ConnectionState_eq_dec : EqDecision ConnectionState.
Proof. solve_decision. Defined.
#[export] Instance Direction_eq_dec : EqDecision Direction.
Proof. solve_decision. Defined.
#[export] Instance ConnectionState_countable : Countable ConnectionState.
Proof.
  apply (inj_countable'
    (λ s, match s with Handshake => 0%nat | Status => 1%nat | Login => 2%nat
                     | Config => 3%nat | Play => 4%nat end)
    (λ n, match n with 0%nat => Handshake | 1%nat => Status | 2%nat => Login
                     | 3%nat => Config | _ => Play end)).
  by intros [].
Defined.
#[export] Instance Direction_countable : Countable Direction.
Proof.
  apply (inj_countable' (λ d, match d with Serverbound => true | Clientbound => false end)
    (λ b : bool, if b then Serverbound else Clientbound)).
  by intros [].
Defined.

Definition handshake_id (self : ConnectionState) : option Z :=
  match self with
  | Status => Some 1
  | Login => Some 2
  | Handshake | Config | Play => None
  end.

Definition from_handshake_id (id : Z) : option ConnectionState :=
  if decide (id = 1) then Some Status
  else if decide (id = 2 ∨ id = 3) then Some Login
  else None.

Definition opposite (self : Direction) : Direction :=
  match self with Serverbound => Clientbound | Clientbound => Serverbound end.

Definition state_display (self : ConnectionState) : string :=
  match self with
  | Handshake => "handshake"
  | Status => "status"
  | Login => "login"
  | Config => "config"
  | Play => "play"
  end.

Definition direction_display (self : Direction) : string :=
  match self with Serverbound => "serverbound" | Clientbound => "clientbound" end.

(** ** Lemmas *)

Lemma no_less_than_spec v w : no_less_than v w = true ↔ w ≤ v.
Proof. apply Z.leb_le. Qed.
Lemma no_greater_than_spec v w : no_greater_than v w = true ↔ v ≤ w.
Proof. apply Z.leb_le. Qed.

Lemma SUPPORTED_sorted : StronglySorted Z.lt SUPPORTED.
Proof. apply Sorted_StronglySorted; [apply _|]. repeat constructor. Qed.

Lemma SUPPORTED_NoDup : NoDup SUPPORTED.
Proof. apply (bool_decide_unpack _). by vm_compute. Qed.

Lemma SUPPORTED_last v : v ∈ SUPPORTED → v ≤ V1_21_11.
Proof.
  revert v. apply Forall_forall. apply (bool_decide_unpack _). by vm_compute.
Qed.

(** [range] is the supported versions between its bounds, both included. *)
Lemma version_range_spec from to v :
  v ∈ version_range from to ↔ v ∈ SUPPORTED ∧ from ≤ v ≤ to.
Proof.
  unfold version_range. rewrite list_elem_of_filter, Is_true_true, andb_true_iff.
  rewrite no_less_than_spec, no_greater_than_spec. tauto.
Qed.

Lemma opposite_involutive d : opposite (opposite d) = d.
Proof. by destruct d. Qed.
