(* ===== verification/Packet.v ===== *)
(** * Packet: the [Packet] trait and its contract

    [Packet] models the trait of [packets/mod.rs]: a name, the state and the
    direction in which the packet is valid, and a version-aware decoder and
    encoder.  [PacketLaws] is the contract the registry and the framing rely on:
    every well-formed packet can be encoded for the version, decoding the bytes
    gives the packet back, up to the fields that version does not carry
    ([pkt_norm]), and encoding that packet again gives the same bytes.

    [codes] composes such facts along an encoder and its decoder. *)
From S2P Require Import Prelude Wire Utf8 VarInt Codec Version.

(** ** A writer that succeeds and a reader that undoes it *)

Definition codes {A} (w : ProtocolResult bytes) (r : reader A) (a : A) : Prop :=
  ∃ bs, w = Ok bs ∧ reads r bs a.

Definition codes_all {A} (w : ProtocolResult bytes) (r : reader A) (a : A) : Prop :=
  ∃ bs, w = Ok bs ∧ reads_all r bs a.

Section codes.
Context {A B : Type}.
Implicit Types (r : reader A) (k : A → reader B).

Lemma codes_ret (a : A) : codes (Ok []) (mret a) a.
Proof. exists []. split; [done|apply reads_ret]. Qed.

Lemma codes_bind w w' r k a b :
  codes w r a → codes w' (k a) b → codes (w +> w') (r ≫= k) b.
Proof.
  intros (bs&->&Hr) (bs'&->&Hk). exists (bs ++ bs'). split; [done|].
  by apply reads_bind with a.
Qed.

Lemma codes_bind_ret w r k a b :
  codes w r a → k a = mret b → codes w (r ≫= k) b.
Proof.
  intros (bs&->&Hr) Hk. exists bs. split; [done|]. by apply reads_bind_ret with a.
Qed.

Lemma codes_all_bind w w' r k a b :
  codes w r a → codes_all w' (k a) b → codes_all (w +> w') (r ≫= k) b.
Proof.
  intros (bs&->&Hr) (bs'&->&Hk). exists (bs ++ bs'). split; [done|].
  by apply reads_all_bind with a.
Qed.

Lemma codes_codes_all w r (a : A) : codes w r a → codes_all w r a.
Proof. intros (bs&?&?). exists bs. split; [done|]. by apply reads_reads_all. Qed.
End codes.

(** The first step of a decoder that succeeded. *)
Lemma reader_bind_inv {A B} (r : reader A) (k : A → reader B) bs b rest :
  (r ≫= k) bs = Ok (b, rest) → ∃ a mid, r bs = Ok (a, mid) ∧ k a mid = Ok (b, rest).
Proof.
  cbv [mbind reader_bind]. destruct (r bs) as [[a mid]|e]; [|done]. by exists a, mid.
Qed.

Lemma reader_ret_inv {A} (a b : A) bs rest :
  (mret a : reader A) bs = Ok (b, rest) → a = b ∧ bs = rest.
Proof. by intros [= -> ->]. Qed.

(** Flattening the writes of nested branches. *)
Lemma wr_app_assoc w1 w2 w3 : (w1 +> w2) +> w3 = w1 +> w2 +> w3.
Proof. destruct w1, w2, w3; simpl; by rewrite ?app_assoc. Qed.
Lemma wr_app_nil_l w : Ok [] +> w = w.
Proof. by destruct w. Qed.

(** A field the version does not carry. *)
Lemma codes_absent {A B} w (a : A) (k : A → reader B) b :
  codes w (k a) b → codes w (mret a ≫= k) b.
Proof. done. Qed.
Lemma codes_all_absent {A B} w (a : A) (k : A → reader B) b :
  codes_all w (k a) b → codes_all w (mret a ≫= k) b.
Proof. done. Qed.

Lemma codes_some {A} w (r : reader A) a :
  codes w r a → codes w (x ← r; mret (Some x)) (Some a).
Proof. intros. by eapply codes_bind_ret. Qed.

(** A loop that writes each element, and one that reads as many, each up to [g]. *)
Lemma codes_list_fmap {A B} (f : A → ProtocolResult bytes) (body : reader B) (g : A → B) n l :
  n = length l → Forall (λ x, codes (f x) body (g x)) l →
  codes (wr_list f l) (read_n n body) (g <$> l).
Proof.
  intros ->. induction 1 as [|x l Hx _ IH]; [apply codes_ret|]. simpl.
  eapply codes_bind; [done|]. by eapply codes_bind_ret.
Qed.

Lemma codes_list {A} (f : A → ProtocolResult bytes) (body : reader A) n l :
  n = length l → Forall (λ x, codes (f x) body x) l →
  codes (wr_list f l) (read_n n body) l.
Proof. intros. rewrite <- (list_fmap_id l) at 2. by apply codes_list_fmap. Qed.

(** ** Fields *)

(** A string the wire can carry in at most [max] characters. *)
Definition is_text (max : Z) (s : rstring) : Prop := is_string s ∧ zlen s ≤ max.
#[export] Instance is_text_dec max s : Decision (is_text max s).
Proof. unfold is_text, is_string, is_char. apply _. Defined.

(** An ASCII literal. *)
Definition str (s : string) : rstring :=
  Z.of_N ∘ Ascii.N_of_ascii <$> String.list_ascii_of_string s.

Lemma codes_reads {A} (r : reader A) bs a : reads r bs a → codes (Ok bs) r a.
Proof. intros. by exists bs. Qed.

Lemma codes_u8 v : codes (write_u8 v) read_u8 v.
Proof. apply codes_reads, read_u8_reads. Qed.
Lemma codes_i8 v : in_s 8 v → codes (write_i8 v) read_i8 v.
Proof. intros. by apply codes_reads, read_i8_reads. Qed.
Lemma codes_u16 v : in_u 16 v → codes (write_u16_be v) read_u16_be v.
Proof. intros. by apply codes_reads, read_u16_be_reads. Qed.
Lemma codes_i16 v : in_s 16 v → codes (write_i16_be v) read_i16_be v.
Proof. intros. by apply codes_reads, read_i16_be_reads. Qed.
Lemma codes_i32 v : in_s 32 v → codes (write_i32_be v) read_i32_be v.
Proof. intros. by apply codes_reads, read_i32_be_reads. Qed.
Lemma codes_i64 v : in_s 64 v → codes (write_i64_be v) read_i64_be v.
Proof. intros. by apply codes_reads, read_i64_be_reads. Qed.
Lemma codes_f32 v : in_u 32 v → codes (write_f32_be v) read_f32_be v.
Proof. intros. by apply codes_reads, read_f32_be_reads. Qed.
Lemma codes_f64 v : in_u 64 v → codes (write_f64_be v) read_f64_be v.
Proof. intros. by apply codes_reads, read_f64_be_reads. Qed.
Lemma codes_uuid v : in_u 128 v → codes (write_uuid v) read_uuid v.
Proof. intros. by apply codes_reads, read_uuid_reads. Qed.
Lemma codes_var_int v : in_s 32 v → codes (write_var_int v) read_var_int v.
Proof. intros. by apply codes_reads, read_var_int_reads. Qed.
Lemma codes_bool b : codes (write_bool b) read_bool b.
Proof. apply codes_reads, read_bool_reads. Qed.

Lemma codes_string_bounded max s :
  is_text max s → max ≤ 32767 → codes (write_string s) (read_string_bounded max) s.
Proof.
  intros [Hs Hl] Hmax. destruct (write_string s) as [bs|e] eqn:E.
  - exists bs. split; [done|]. by apply read_string_bounded_reads.
  - unfold write_string, encode_string, MAX_STRING_CHARS in E.
    rewrite decide_False in E by lia. discriminate E.
Qed.

Lemma codes_string s : is_text 32767 s → codes (write_string s) read_string s.
Proof. intros. by apply codes_string_bounded. Qed.

Lemma codes_byte_array max data :
  zlen data ≤ max → max < 2 ^ 31 → codes (write_byte_array data) (read_byte_array max) data.
Proof. intros. eexists. split; [done|]. by apply read_byte_array_reads. Qed.

Lemma codes_all_remaining data : codes_all (write_all data) read_remaining data.
Proof. exists data. split; [done|]. apply reads_all_to_end. Qed.

(** The last field, when it takes what is left. *)
Lemma codes_all_last {B} data (k : bytes → reader B) b :
  k data = mret b → codes_all (write_all data +> Ok []) (read_remaining ≫= k) b.
Proof.
  intros Hk. exists data. split; [apply (wr_app_nil_r (Ok data))|].
  unfold reads_all. cbv [mbind reader_bind read_remaining read_to_end]. by rewrite Hk.
Qed.

(** An element count, written as an [i32]. *)
Lemma codes_count {A} (l : list A) :
  zlen l < 2 ^ 31 → codes (write_var_int (wrap_s 32 (zlen l))) read_var_int (zlen l).
Proof.
  intros. assert (in_s 32 (zlen l)) by (by eapply zlen_in_s32; [|done]; lia).
  rewrite wrap_s_small by done. by apply codes_var_int.
Qed.

(** An element count that came through [as i32] and [as usize]. *)
Lemma count_nat {A} (l : list A) :
  zlen l < 2 ^ 31 → length l = Z.to_nat (wrap_u 64 (zlen l)).
Proof.
  intros Hl. pose proof (zlen_nonneg l). rewrite wrap_u_small.
  - unfold zlen. by rewrite Nat2Z.id.
  - unfold in_u. lia.
Qed.

(** ** The trait *)

Class Packet (P : Type) := {
  NAME : string;
  pkt_state : ConnectionState;
  pkt_direction : Direction;
  pkt_decode : ProtocolVersion → reader P;
  pkt_encode : P → ProtocolVersion → ProtocolResult bytes;
}.
#[global] Arguments NAME P {_}.
#[global] Arguments pkt_state P {_}.
#[global] Arguments pkt_direction P {_}.
#[global] Arguments pkt_decode P {_} v.
#[global] Arguments pkt_encode {P _} p v.

Class PacketLaws (P : Type) `{Packet P} := {
  (** The packets an encoder for the version accepts and a decoder admits. *)
  pkt_ok : P → ProtocolVersion → Prop;
  (** What the version carries of a packet. *)
  pkt_norm : P → ProtocolVersion → P;
  pkt_roundtrip p v :
    pkt_ok p v → codes_all (pkt_encode p v) (pkt_decode P v) (pkt_norm p v);
  (** Encoding what was decoded gives the same bytes. *)
  pkt_norm_encode p v : pkt_ok p v → pkt_encode (pkt_norm p v) v = pkt_encode p v;
}.
#[global] Arguments pkt_ok {P _ _} p v.
#[global] Arguments pkt_norm {P _ _} p v.

(** ** Automation *)

(** Encoders and decoders are composed by lemmas, not unfolded. *)
#[global] Arguments wr_app : simpl never.
#[global] Arguments wr_list : simpl never.
#[global] Arguments write_u8 : simpl never.
#[global] Arguments write_i8 : simpl never.
#[global] Arguments write_u16_be : simpl never.
#[global] Arguments write_i16_be : simpl never.
#[global] Arguments write_i32_be : simpl never.
#[global] Arguments write_i64_be : simpl never.
#[global] Arguments write_f32_be : simpl never.
#[global] Arguments write_f64_be : simpl never.
#[global] Arguments write_uuid : simpl never.
#[global] Arguments write_bool : simpl never.
#[global] Arguments write_var_int : simpl never.
#[global] Arguments write_string : simpl never.
#[global] Arguments write_byte_array : simpl never.
#[global] Arguments write_all : simpl never.
#[global] Arguments mbind : simpl never.
#[global] Arguments mret : simpl never.
#[global] Arguments read_n : simpl never.
#[global] Arguments no_less_than : simpl never.
#[global] Arguments less_than : simpl never.
#[global] Arguments wrap_u : simpl never.
#[global] Arguments wrap_s : simpl never.
#[global] Arguments zlen : simpl never.

#[export] Hint Resolve codes_ret codes_u8 codes_i8 codes_u16 codes_i16 codes_i32 codes_i64
  codes_f32 codes_f64 codes_uuid codes_var_int codes_bool codes_string_bounded codes_string
  codes_byte_array codes_count codes_some : codec.
#[export] Hint Extern 2 (_ ≤ _) => lia : codec.
#[export] Hint Extern 2 (_ < _) => lia : codec.
#[export] Hint Extern 2 (in_s _ _) => done : codec.
#[export] Hint Extern 2 (in_u _ _) => done : codec.

(** Decides the version tests and the optional fields of the goal. *)
Ltac branches :=
  repeat match goal with
  | |- context [no_less_than ?v ?w] => destruct (no_less_than v w) eqn:?
  | |- context [less_than ?v ?w] => destruct (less_than v w) eqn:?
  | |- context [match ?o with Some _ => _ | None => _ end] => is_var o; destruct o
  | |- context [decide ?P] => destruct (decide P)
  end; cbn [andb negb]; rewrite ?wr_app_assoc, ?wr_app_nil_l.

(** Closes a combination of version tests that no version satisfies. *)
Ltac no_version :=
  exfalso; unfold no_less_than, less_than in *;
  repeat match goal with
  | H : context [Z.leb ?v ?w] |- _ => is_const v; let c := eval cbv in v in change v with c in H
  | H : context [Z.ltb ?v ?w] |- _ => is_const w; let c := eval cbv in w in change w with c in H
  end; lia.

(** One field of a packet: the first write against the first read. *)
Ltac field :=
  match goal with
  | |- codes _ (mret _ ≫= _) _ => apply codes_absent
  | |- codes_all _ (mret _ ≫= _) _ => apply codes_all_absent
  | |- codes _ _ _ => eapply codes_bind; [solve [eauto with codec nocore]|]
  | |- codes_all _ _ _ => eapply codes_all_bind; [solve [eauto with codec nocore]|]
  end; cbn beta iota delta [negb].

(** All the fields of a packet, the branches of which have been decided. *)
Ltac fields :=
  cbn beta iota; repeat field;
  first [apply codes_ret | apply codes_codes_all, codes_ret | by apply codes_all_last | idtac].

(** Inverts a hypothesis that a decoder succeeded, one read at a time. *)
Ltac inv_reads :=
  repeat match goal with
  | H : (_ ≫= _) _ = Ok (_, _) |- _ =>
      let a := fresh "a" in let m := fresh "mid" in let Hr := fresh "Hread" in
      apply reader_bind_inv in H as (a & m & Hr & H); cbn beta in H
  | H : mret _ _ = Ok (_, _) |- _ => apply reader_ret_inv in H as [? ?]; subst
  | H : reader_fail _ _ = Ok _ |- _ => discriminate H
  end.
