(* ===== verification/LoginPackets.v ===== *)
(** * LoginPackets: the packets of the handshake, status, login and config states

    Models [packets/handshake.rs], [packets/status.rs], [packets/login.rs] and
    [packets/config.rs].  Each packet has its record, its [_decode] and its
    [_encode], its instance of [Packet], and its instance of [PacketLaws] with
    the round trip of every protocol version. *)
From S2P Require Import Prelude Wire Utf8 VarInt Codec Version Packet.

(** ** Handshake *)

Record SHandshake := mk_SHandshake {
  hs_protocol_version : Z;
  hs_server_address : rstring;
  hs_server_port : Z;
  hs_next_state : ConnectionState;
}.

Definition SHandshake_decode (_version : ProtocolVersion) : reader SHandshake :=
  protocol_version ← read_var_int;
  server_address ← read_string_bounded 255;
  server_port ← read_u16_be;
  next_state_id ← read_var_int;
  match from_handshake_id next_state_id with
  | None => reader_fail (Invalid ("invalid handshake next_state: " +:+ pretty next_state_id))
  | Some next_state =>
    mret (mk_SHandshake protocol_version server_address server_port next_state)
  end.

Definition SHandshake_encode (self : SHandshake) (_version : ProtocolVersion) :
    ProtocolResult bytes :=
  write_var_int (hs_protocol_version self) +>
  write_string (hs_server_address self) +>
  write_u16_be (hs_server_port self) +>
  match handshake_id (hs_next_state self) with
  | None =>
    Err (Invalid ("cannot encode handshake next_state: " +:+ state_display (hs_next_state self)))
  | Some state_id => write_var_int state_id +> Ok []
  end.

#[export] Instance SHandshake_packet : Packet SHandshake := {|
  NAME := "SHandshake"; pkt_state := Handshake; pkt_direction := Serverbound;
  pkt_decode := SHandshake_decode; pkt_encode := SHandshake_encode |}.

(** ** Status *)

Inductive SStatusRequest := mk_SStatusRequest.

Definition SStatusRequest_decode (_version : ProtocolVersion) : reader SStatusRequest :=
  mret mk_SStatusRequest.
Definition SStatusRequest_encode (_ : SStatusRequest) (_version : ProtocolVersion) :
  ProtocolResult bytes := Ok [].

#[export] Instance SStatusRequest_packet : Packet SStatusRequest := {|
  NAME := "SStatusRequest"; pkt_state := Status; pkt_direction := Serverbound;
  pkt_decode := SStatusRequest_decode; pkt_encode := SStatusRequest_encode |}.

Record CStatusResponse := mk_CStatusResponse { json_response : rstring }.

Definition CStatusResponse_decode (_version : ProtocolVersion) : reader CStatusResponse :=
  json_response ← read_string; mret (mk_CStatusResponse json_response).
Definition CStatusResponse_encode (self : CStatusResponse) (_version : ProtocolVersion) :
    ProtocolResult bytes :=
  write_string (json_response self) +> Ok [].

#[export] Instance CStatusResponse_packet : Packet CStatusResponse := {|
  NAME := "CStatusResponse"; pkt_state := Status; pkt_direction := Clientbound;
  pkt_decode := CStatusResponse_decode; pkt_encode := CStatusResponse_encode |}.

Record SPingRequest := mk_SPingRequest { preq_payload : Z }.

Definition SPingRequest_decode (_version : ProtocolVersion) : reader SPingRequest :=
  payload ← read_i64_be; mret (mk_SPingRequest payload).
Definition SPingRequest_encode (self : SPingRequest) (_version : ProtocolVersion) :
    ProtocolResult bytes :=
  write_i64_be (preq_payload self) +> Ok [].

#[export] Instance SPingRequest_packet : Packet SPingRequest := {|
  NAME := "SPingRequest"; pkt_state := Status; pkt_direction := Serverbound;
  pkt_decode := SPingRequest_decode; pkt_encode := SPingRequest_encode |}.

Record CPingResponse := mk_CPingResponse { presp_payload : Z }.

Definition CPingResponse_decode (_version : ProtocolVersion) : reader CPingResponse :=
  payload ← read_i64_be; mret (mk_CPingResponse payload).
Definition CPingResponse_encode (self : CPingResponse) (_version : ProtocolVersion) :
    ProtocolResult bytes :=
  write_i64_be (presp_payload self) +> Ok [].

#[export] Instance CPingResponse_packet : Packet CPingResponse := {|
  NAME := "CPingResponse"; pkt_state := Status; pkt_direction := Clientbound;
  pkt_decode := CPingResponse_decode; pkt_encode := CPingResponse_encode |}.

(** ** Login: helpers *)

Record Property := mk_Property {
  prop_name : rstring;
  prop_value : rstring;
  prop_signature : option rstring;
}.

Definition read_byte_array_short : reader bytes :=
  len ← read_i16_be;
  if decide (len < 0) then reader_fail (Invalid "negative byte array length")
  else read_byte_array_bounded len.

Definition write_byte_array_short (data : bytes) : ProtocolResult bytes :=
  if decide (zlen data > 32767) then Err (TooLarge 32767 (zlen data))
  else write_i16_be (wrap_s 16 (zlen data)) +> write_all data +> Ok [].

Definition read_uuid_int_array : reader Z :=
  a ← read_i32_be; let a := wrap_u 32 a in
  b ← read_i32_be; let b := wrap_u 32 b in
  c ← read_i32_be; let c := wrap_u 32 c in
  d ← read_i32_be; let d := wrap_u 32 d in
  let msb := Z.lor (wrap_u 64 (Z.shiftl a 32)) b in
  let lsb := Z.lor (wrap_u 64 (Z.shiftl c 32)) d in
  mret (Z.lor (wrap_u 128 (Z.shiftl msb 64)) lsb).

Definition write_uuid_int_array (uuid : Z) : ProtocolResult bytes :=
  let val := uuid in
  let msb := wrap_u 64 (Z.shiftr val 64) in
  let lsb := wrap_u 64 val in
  write_i32_be (wrap_s 32 (Z.shiftr msb 32)) +>
  write_i32_be (wrap_s 32 msb) +>
  write_i32_be (wrap_s 32 (Z.shiftr lsb 32)) +>
  write_i32_be (wrap_s 32 lsb) +> Ok [].

(** ** Login start *)

Record SLoginStart := mk_SLoginStart {
  ls_name : rstring;
  ls_uuid : option Z;
  ls_signature_data : option bytes;
}.

(** The player key of 1.19 to 1.19.2, kept as the bytes it was read from. *)
Definition read_player_key : reader bytes :=
  ts ← read_i64_be;
  let key_buf := to_be_bytes 8 ts in
  pk ← read_byte_array 512;
  let key_buf := key_buf ++ VarInt_encode (wrap_s 32 (zlen pk)) ++ pk in
  sig ← read_byte_array 4096;
  let key_buf := key_buf ++ VarInt_encode (wrap_s 32 (zlen sig)) ++ sig in
  mret key_buf.

Definition SLoginStart_decode (version : ProtocolVersion) : reader SLoginStart :=
  name ← read_string_bounded 16;
  if decide (name = []) then reader_fail (Invalid "empty username in SLoginStart") else
  if no_less_than version V1_19 then
    has_key ← (if less_than version V1_19_3 then read_bool else mret false);
    signature_data ← (if has_key : bool then k ← read_player_key; mret (Some k) else mret None);
    has_uuid ← (if no_less_than version V1_20_2 then mret true
                else if no_less_than version V1_19_1 then read_bool
                else mret false);
    uuid ← (if has_uuid : bool then u ← read_uuid; mret (Some u) else mret None);
    mret (mk_SLoginStart name uuid signature_data)
  else mret (mk_SLoginStart name None None).

Definition SLoginStart_encode (self : SLoginStart) (version : ProtocolVersion) :
    ProtocolResult bytes :=
  write_string (ls_name self) +>
  (if no_less_than version V1_19 then
    (if less_than version V1_19_3 then
       match ls_signature_data self with
       | Some sig => write_bool true +> write_all sig
       | None => write_bool false
       end
     else Ok []) +>
    (if no_less_than version V1_20_2 then write_uuid (default 0 (ls_uuid self))
     else if no_less_than version V1_19_1 then
       match ls_uuid self with
       | Some uuid => write_bool true +> write_uuid uuid
       | None => write_bool false
       end
     else Ok [])
   else Ok []) +> Ok [].

#[export] Instance SLoginStart_packet : Packet SLoginStart := {|
  NAME := "SLoginStart"; pkt_state := Login; pkt_direction := Serverbound;
  pkt_decode := SLoginStart_decode; pkt_encode := SLoginStart_encode |}.

(** ** Encryption *)

Record CEncryptionRequest := mk_CEncryptionRequest {
  er_server_id : rstring;
  er_public_key : bytes;
  er_verify_token : bytes;
  er_should_authenticate : bool;
}.

Definition CEncryptionRequest_decode (version : ProtocolVersion) :
    reader CEncryptionRequest :=
  server_id ← read_string_bounded 20;
  public_key ← (if no_less_than version V1_8 then read_byte_array 256
                else read_byte_array_short);
  verify_token ← (if no_less_than version V1_8 then read_byte_array 16
                  else read_byte_array_short);
  should_authenticate ← (if no_less_than version V1_20_5 then read_bool else mret true);
  mret (mk_CEncryptionRequest server_id public_key verify_token should_authenticate).

Definition CEncryptionRequest_encode (self : CEncryptionRequest)
    (version : ProtocolVersion) : ProtocolResult bytes :=
  write_string (er_server_id self) +>
  (if no_less_than version V1_8 then write_byte_array (er_public_key self)
   else write_byte_array_short (er_public_key self)) +>
  (if no_less_than version V1_8 then write_byte_array (er_verify_token self)
   else write_byte_array_short (er_verify_token self)) +>
  (if no_less_than version V1_20_5 then write_bool (er_should_authenticate self)
   else Ok []) +> Ok [].

#[export] Instance CEncryptionRequest_packet : Packet CEncryptionRequest := {|
  NAME := "CEncryptionRequest"; pkt_state := Login; pkt_direction := Clientbound;
  pkt_decode := CEncryptionRequest_decode; pkt_encode := CEncryptionRequest_encode |}.

Record SEncryptionResponse := mk_SEncryptionResponse {
  es_shared_secret : bytes;
  es_verify_token : bytes;
  es_salt : option Z;
}.

Definition SEncryptionResponse_decode (version : ProtocolVersion) :
    reader SEncryptionResponse :=
  if no_less_than version V1_8 then
    shared_secret ← read_byte_array 128;
    token_based ← (if no_less_than version V1_19 && less_than version V1_19_3
                   then read_bool else mret true);
    salt ← (if negb token_based then s ← read_i64_be; mret (Some s) else mret None);
    let max_vt := if no_less_than version V1_19 then 256 else 128 in
    verify_token ← read_byte_array max_vt;
    mret (mk_SEncryptionResponse shared_secret verify_token salt)
  else
    shared_secret ← read_byte_array_short;
    verify_token ← read_byte_array_short;
    mret (mk_SEncryptionResponse shared_secret verify_token None).

Definition SEncryptionResponse_encode (self : SEncryptionResponse)
    (version : ProtocolVersion) : ProtocolResult bytes :=
  if no_less_than version V1_8 then
    write_byte_array (es_shared_secret self) +>
    (if no_less_than version V1_19 && less_than version V1_19_3 then
       match es_salt self with
       | Some salt => write_bool false +> write_i64_be salt
       | None => write_bool true
       end
     else Ok []) +>
    write_byte_array (es_verify_token self) +> Ok []
  else
    write_byte_array_short (es_shared_secret self) +>
    write_byte_array_short (es_verify_token self) +> Ok [].

#[export] Instance SEncryptionResponse_packet : Packet SEncryptionResponse := {|
  NAME := "SEncryptionResponse"; pkt_state := Login; pkt_direction := Serverbound;
  pkt_decode := SEncryptionResponse_decode; pkt_encode := SEncryptionResponse_encode |}.

Record CSetCompression := mk_CSetCompression { sc_threshold : Z }.

Definition CSetCompression_decode (_version : ProtocolVersion) : reader CSetCompression :=
  threshold ← read_var_int; mret (mk_CSetCompression threshold).
Definition CSetCompression_encode (self : CSetCompression) (_version : ProtocolVersion) :
    ProtocolResult bytes :=
  write_var_int (sc_threshold self) +> Ok [].

#[export] Instance CSetCompression_packet : Packet CSetCompression := {|
  NAME := "CSetCompression"; pkt_state := Login; pkt_direction := Clientbound;
  pkt_decode := CSetCompression_decode; pkt_encode := CSetCompression_encode |}.

(** ** Login success *)

(** The textual forms of the [uuid] crate: [Uuid::to_string] (hyphenated),
    [Uuid::as_simple] and [Uuid::parse_str] with the text of its error. *)
Class UuidText := {
  uuid_to_string : Z → rstring;
  uuid_as_simple : Z → rstring;
  uuid_parse_str : rstring → result string Z;
}.

(** The documented behaviour of these forms: 36 characters with hyphens, 32
    without, and both are parsed back. *)
Class UuidTextLaws `{UuidText} := {
  uuid_to_string_text u : in_u 128 u → is_text 36 (uuid_to_string u);
  uuid_as_simple_text u : in_u 128 u → is_text 32 (uuid_as_simple u);
  uuid_parse_to_string u : in_u 128 u → uuid_parse_str (uuid_to_string u) = Ok u;
  uuid_parse_as_simple u : in_u 128 u → uuid_parse_str (uuid_as_simple u) = Ok u;
}.

Record CLoginSuccess := mk_CLoginSuccess {
  lsu_uuid : Z;
  lsu_username : rstring;
  lsu_properties : list Property;
  lsu_strict_error_handling : bool;
}.

Definition read_property : reader Property :=
  name ← read_string;
  value ← read_string;
  has_signature ← read_bool;
  signature ← (if has_signature : bool then s ← read_string; mret (Some s) else mret None);
  mret (mk_Property name value signature).

Definition write_property (prop : Property) : ProtocolResult bytes :=
  write_string (prop_name prop) +>
  write_string (prop_value prop) +>
  match prop_signature prop with
  | Some sig => write_bool true +> write_string sig
  | None => write_bool false
  end.

(** Reads a [uuid] in textual form: [max] is the length of the form. *)
Definition read_uuid_text `{UuidText} (max : Z) (msg : string) : reader Z :=
  s ← read_string_bounded max;
  match uuid_parse_str s with
  | Ok u => mret u
  | Err e => reader_fail (Invalid (msg +:+ e))
  end.

Definition CLoginSuccess_decode `{UuidText} (version : ProtocolVersion) :
    reader CLoginSuccess :=
  uuid ← (if no_less_than version V1_19 then read_uuid
          else if no_less_than version V1_16 then read_uuid_int_array
          else if no_less_than version V1_7_6 then read_uuid_text 36 "invalid UUID string: "
          else read_uuid_text 32 "invalid undashed UUID: ");
  username ← read_string_bounded 16;
  properties ← (if no_less_than version V1_19 then
                  count ← read_var_int;
                  read_n (Z.to_nat (wrap_u 64 count)) read_property
                else mret []);
  strict_error_handling ← (if decide (version = V1_20_5 ∨ version = V1_21) then read_bool
                           else mret false);
  mret (mk_CLoginSuccess uuid username properties strict_error_handling).

Definition CLoginSuccess_encode `{UuidText} (self : CLoginSuccess)
    (version : ProtocolVersion) : ProtocolResult bytes :=
  (if no_less_than version V1_19 then write_uuid (lsu_uuid self)
   else if no_less_than version V1_16 then write_uuid_int_array (lsu_uuid self)
   else if no_less_than version V1_7_6 then write_string (uuid_to_string (lsu_uuid self))
   else write_string (uuid_as_simple (lsu_uuid self))) +>
  write_string (lsu_username self) +>
  (if no_less_than version V1_19 then
     write_var_int (wrap_s 32 (zlen (lsu_properties self))) +>
     wr_list write_property (lsu_properties self)
   else Ok []) +>
  (if decide (version = V1_20_5 ∨ version = V1_21)
   then write_bool (lsu_strict_error_handling self) else Ok []) +> Ok [].

#[export] Instance CLoginSuccess_packet `{UuidText} : Packet CLoginSuccess := {|
  NAME := "CLoginSuccess"; pkt_state := Login; pkt_direction := Clientbound;
  pkt_decode := CLoginSuccess_decode; pkt_encode := CLoginSuccess_encode |}.

(** ** Login disconnect, plugin channels and acknowledgement *)

Record CLoginDisconnect := mk_CLoginDisconnect { ld_reason : rstring }.

Definition CLoginDisconnect_decode (_version : ProtocolVersion) : reader CLoginDisconnect :=
  reason ← read_string; mret (mk_CLoginDisconnect reason).
Definition CLoginDisconnect_encode (self : CLoginDisconnect) (_version : ProtocolVersion) :
    ProtocolResult bytes :=
  write_string (ld_reason self) +> Ok [].

#[export] Instance CLoginDisconnect_packet : Packet CLoginDisconnect := {|
  NAME := "CLoginDisconnect"; pkt_state := Login; pkt_direction := Clientbound;
  pkt_decode := CLoginDisconnect_decode; pkt_encode := CLoginDisconnect_encode |}.

Record CLoginPluginRequest := mk_CLoginPluginRequest {
  lpr_message_id : Z;
  lpr_channel : rstring;
  lpr_data : bytes;
}.

Definition CLoginPluginRequest_decode (_version : ProtocolVersion) :
    reader CLoginPluginRequest :=
  message_id ← read_var_int;
  channel ← read_string;
  data ← read_remaining;
  mret (mk_CLoginPluginRequest message_id channel data).
Definition CLoginPluginRequest_encode (self : CLoginPluginRequest)
    (_version : ProtocolVersion) : ProtocolResult bytes :=
  write_var_int (lpr_message_id self) +>
  write_string (lpr_channel self) +>
  write_all (lpr_data self) +> Ok [].

#[export] Instance CLoginPluginRequest_packet : Packet CLoginPluginRequest := {|
  NAME := "CLoginPluginRequest"; pkt_state := Login; pkt_direction := Clientbound;
  pkt_decode := CLoginPluginRequest_decode; pkt_encode := CLoginPluginRequest_encode |}.

Record SLoginPluginResponse := mk_SLoginPluginResponse {
  lps_message_id : Z;
  lps_successful : bool;
  lps_data : bytes;
}.

Definition SLoginPluginResponse_decode (_version : ProtocolVersion) :
    reader SLoginPluginResponse :=
  message_id ← read_var_int;
  successful ← read_bool;
  data ← read_remaining;
  mret (mk_SLoginPluginResponse message_id successful data).
Definition SLoginPluginResponse_encode (self : SLoginPluginResponse)
    (_version : ProtocolVersion) : ProtocolResult bytes :=
  write_var_int (lps_message_id self) +>
  write_bool (lps_successful self) +>
  write_all (lps_data self) +> Ok [].

#[export] Instance SLoginPluginResponse_packet : Packet SLoginPluginResponse := {|
  NAME := "SLoginPluginResponse"; pkt_state := Login; pkt_direction := Serverbound;
  pkt_decode := SLoginPluginResponse_decode; pkt_encode := SLoginPluginResponse_encode |}.

Inductive SLoginAcknowledged := mk_SLoginAcknowledged.

Definition SLoginAcknowledged_decode (_version : ProtocolVersion) :
  reader SLoginAcknowledged := mret mk_SLoginAcknowledged.
Definition SLoginAcknowledged_encode (_ : SLoginAcknowledged) (_version : ProtocolVersion) :
  ProtocolResult bytes := Ok [].

#[export] Instance SLoginAcknowledged_packet : Packet SLoginAcknowledged := {|
  NAME := "SLoginAcknowledged"; pkt_state := Login; pkt_direction := Serverbound;
  pkt_decode := SLoginAcknowledged_decode; pkt_encode := SLoginAcknowledged_encode |}.

(** ** Config *)

Record KnownPack := mk_KnownPack {
  kp_namespace : rstring;
  kp_id : rstring;
  kp_version : rstring;
}.

Inductive CFinishConfig := mk_CFinishConfig.

Definition CFinishConfig_decode (_version : ProtocolVersion) : reader CFinishConfig :=
  mret mk_CFinishConfig.
Definition CFinishConfig_encode (_ : CFinishConfig) (_version : ProtocolVersion) :
  ProtocolResult bytes := Ok [].

#[export] Instance CFinishConfig_packet : Packet CFinishConfig := {|
  NAME := "CFinishConfig"; pkt_state := Config; pkt_direction := Clientbound;
  pkt_decode := CFinishConfig_decode; pkt_encode := CFinishConfig_encode |}.

Inductive SAcknowledgeFinishConfig := mk_SAcknowledgeFinishConfig.

Definition SAcknowledgeFinishConfig_decode (_version : ProtocolVersion) :
  reader SAcknowledgeFinishConfig := mret mk_SAcknowledgeFinishConfig.
Definition SAcknowledgeFinishConfig_encode (_ : SAcknowledgeFinishConfig)
  (_version : ProtocolVersion) : ProtocolResult bytes := Ok [].

#[export] Instance SAcknowledgeFinishConfig_packet : Packet SAcknowledgeFinishConfig := {|
  NAME := "SAcknowledgeFinishConfig"; pkt_state := Config; pkt_direction := Serverbound;
  pkt_decode := SAcknowledgeFinishConfig_decode;
  pkt_encode := SAcknowledgeFinishConfig_encode |}.

Record CRegistryData := mk_CRegistryData { rd_data : bytes }.

Definition CRegistryData_decode (_version : ProtocolVersion) : reader CRegistryData :=
  data ← read_remaining; mret (mk_CRegistryData data).
Definition CRegistryData_encode (self : CRegistryData) (_version : ProtocolVersion) :
    ProtocolResult bytes :=
  write_all (rd_data self) +> Ok [].

#[export] Instance CRegistryData_packet : Packet CRegistryData := {|
  NAME := "CRegistryData"; pkt_state := Config; pkt_direction := Clientbound;
  pkt_decode := CRegistryData_decode; pkt_encode := CRegistryData_encode |}.

Record CKnownPacks := mk_CKnownPacks { ckp_packs : list KnownPack }.
Record SKnownPacks := mk_SKnownPacks { skp_packs : list KnownPack }.

Definition read_known_pack : reader KnownPack :=
  namespace ← read_string; id ← read_string; version ← read_string;
  mret (mk_KnownPack namespace id version).
Definition write_known_pack (pack : KnownPack) : ProtocolResult bytes :=
  write_string (kp_namespace pack) +>
  write_string (kp_id pack) +>
  write_string (kp_version pack).

(** The bodies the twin macro gives to both directions. *)
Definition KnownPacks_decode {P} (mk : list KnownPack → P) (_version : ProtocolVersion) :
    reader P :=
  count ← read_var_int;
  if decide (count < 0) then reader_fail (Invalid "negative pack count")
  else packs ← read_n (Z.to_nat count) read_known_pack; mret (mk packs).
Definition KnownPacks_encode (packs : list KnownPack) (_version : ProtocolVersion) :
    ProtocolResult bytes :=
  write_var_int (wrap_s 32 (zlen packs)) +> wr_list write_known_pack packs +> Ok [].

#[export] Instance CKnownPacks_packet : Packet CKnownPacks := {|
  NAME := "CKnownPacks"; pkt_state := Config; pkt_direction := Clientbound;
  pkt_decode := KnownPacks_decode mk_CKnownPacks;
  pkt_encode p := KnownPacks_encode (ckp_packs p) |}.
#[export] Instance SKnownPacks_packet : Packet SKnownPacks := {|
  NAME := "SKnownPacks"; pkt_state := Config; pkt_direction := Serverbound;
  pkt_decode := KnownPacks_decode mk_SKnownPacks;
  pkt_encode p := KnownPacks_encode (skp_packs p) |}.

Record CConfigPluginMessage := mk_CConfigPluginMessage {
  ccp_channel : rstring; ccp_data : bytes }.
Record SConfigPluginMessage := mk_SConfigPluginMessage {
  scp_channel : rstring; scp_data : bytes }.

Definition ConfigPluginMessage_decode {P} (mk : rstring → bytes → P)
    (_version : ProtocolVersion) : reader P :=
  channel ← read_string; data ← read_remaining; mret (mk channel data).
Definition ConfigPluginMessage_encode (channel : rstring) (data : bytes)
    (_version : ProtocolVersion) : ProtocolResult bytes :=
  write_string channel +> write_all data +> Ok [].

#[export] Instance CConfigPluginMessage_packet : Packet CConfigPluginMessage := {|
  NAME := "CConfigPluginMessage"; pkt_state := Config; pkt_direction := Clientbound;
  pkt_decode := ConfigPluginMessage_decode mk_CConfigPluginMessage;
  pkt_encode p := ConfigPluginMessage_encode (ccp_channel p) (ccp_data p) |}.
#[export] Instance SConfigPluginMessage_packet : Packet SConfigPluginMessage := {|
  NAME := "SConfigPluginMessage"; pkt_state := Config; pkt_direction := Serverbound;
  pkt_decode := ConfigPluginMessage_decode mk_SConfigPluginMessage;
  pkt_encode p := ConfigPluginMessage_encode (scp_channel p) (scp_data p) |}.

Record CConfigDisconnect := mk_CConfigDisconnect { ccd_reason : bytes }.

Definition CConfigDisconnect_decode (_version : ProtocolVersion) : reader CConfigDisconnect :=
  reason ← read_remaining; mret (mk_CConfigDisconnect reason).
Definition CConfigDisconnect_encode (self : CConfigDisconnect) (_version : ProtocolVersion) :
    ProtocolResult bytes :=
  write_all (ccd_reason self) +> Ok [].

#[export] Instance CConfigDisconnect_packet : Packet CConfigDisconnect := {|
  NAME := "CConfigDisconnect"; pkt_state := Config; pkt_direction := Clientbound;
  pkt_decode := CConfigDisconnect_decode; pkt_encode := CConfigDisconnect_encode |}.

(** ** Round trips

    One instance of [PacketLaws] per packet. *)

#[export, refine] Instance SHandshake_laws : PacketLaws SHandshake := {|
  pkt_ok p _ := in_s 32 (hs_protocol_version p) ∧ is_text 255 (hs_server_address p) ∧
    in_u 16 (hs_server_port p) ∧ (hs_next_state p = Status ∨ hs_next_state p = Login);
  pkt_norm p _ := p; pkt_norm_encode _ _ _ := eq_refl |}.
Proof.
  intros [ver addr port st] v (?&?&?&Hst); simpl in *.
  unfold SHandshake_decode, SHandshake_encode; simpl.
  destruct Hst as [-> | ->]; simpl; fields.
Defined.

#[export, refine] Instance SStatusRequest_laws : PacketLaws SStatusRequest := {|
  pkt_ok _ _ := True; pkt_norm p _ := p; pkt_norm_encode _ _ _ := eq_refl |}.
Proof. intros [] v _. apply codes_codes_all, codes_ret. Defined.

#[export, refine] Instance CStatusResponse_laws : PacketLaws CStatusResponse := {|
  pkt_ok p _ := is_text 32767 (json_response p); pkt_norm p _ := p; pkt_norm_encode _ _ _ := eq_refl |}.
Proof.
  intros [s] v ?. simpl in *. unfold CStatusResponse_decode, CStatusResponse_encode.
  fields.
Defined.

#[export, refine] Instance SPingRequest_laws : PacketLaws SPingRequest := {|
  pkt_ok p _ := in_s 64 (preq_payload p); pkt_norm p _ := p; pkt_norm_encode _ _ _ := eq_refl |}.
Proof.
  intros [x] v ?. simpl in *. unfold SPingRequest_decode, SPingRequest_encode. fields.
Defined.

#[export, refine] Instance CPingResponse_laws : PacketLaws CPingResponse := {|
  pkt_ok p _ := in_s 64 (presp_payload p); pkt_norm p _ := p; pkt_norm_encode _ _ _ := eq_refl |}.
Proof.
  intros [x] v ?. simpl in *. unfold CPingResponse_decode, CPingResponse_encode. fields.
Defined.

Lemma codes_byte_array_short data :
  zlen data ≤ 32767 → codes (write_byte_array_short data) read_byte_array_short data.
Proof.
  intros Hl. pose proof (zlen_nonneg data). unfold write_byte_array_short.
  assert (in_s 16 (zlen data)) by (unfold in_s; simpl; lia).
  rewrite decide_False, wrap_s_small, wr_app_nil_r by (done || lia).
  eapply codes_bind; [by apply codes_i16|]. cbn beta. rewrite decide_False by lia.
  by apply codes_reads, reads_exact.
Qed.

(** Splitting a word in halves and joining them. *)
Lemma split_halves w d x : 0 < w → d = 2 * w → in_u d x →
  Z.lor (wrap_u d (Z.shiftl (wrap_u w (Z.shiftr x w)) w)) (wrap_u w x) = x.
Proof.
  intros Hw -> Hx. unfold in_u in Hx. rewrite Z.shiftr_div_pow2 by lia.
  assert (2 ^ (2 * w) = 2 ^ w * 2 ^ w) as Hsq by (rewrite <- Z.pow_add_r by lia; f_equal; lia).
  pose proof (pow2_pos w ltac:(lia)) as Hp.
  assert (0 ≤ x / 2 ^ w < 2 ^ w) by (split; [apply Z.div_pos; lia|apply Z.div_lt_upper_bound; lia]).
  rewrite (wrap_u_small w (x / 2 ^ w)) by done.
  rewrite Z.shiftl_mul_pow2, wrap_u_small by (unfold in_u; nia).
  unfold wrap_u. rewrite lor_add_low by (try lia; apply Z.mod_pos_bound; lia).
  pose proof (Z.div_mod x (2 ^ w) ltac:(lia)). lia.
Qed.

Lemma codes_uuid_int_array u :
  in_u 128 u → codes (write_uuid_int_array u) read_uuid_int_array u.
Proof.
  intros Hu. unfold write_uuid_int_array, read_uuid_int_array. cbv zeta.
  assert (Hm : in_u 64 (wrap_u 64 (Z.shiftr u 64))) by (by apply wrap_u_range).
  assert (Hl : in_u 64 (wrap_u 64 u)) by (by apply wrap_u_range).
  do 4 (eapply codes_bind; [by apply codes_i32, wrap_s_range|]; cbn beta).
  rewrite !wrap_u_wrap_s by lia.
  rewrite !(split_halves 32 64) by done. rewrite (split_halves 64 128) by done.
  apply codes_ret.
Qed.
#[export] Hint Resolve codes_byte_array_short codes_uuid_int_array : codec.

(** *** Login start *)

Definition is_player_key (k : bytes) : Prop :=
  ∃ ts pk sig, in_s 64 ts ∧ zlen pk ≤ 512 ∧ zlen sig ≤ 4096 ∧
    k = to_be_bytes 8 ts ++ VarInt_encode (zlen pk) ++ pk ++ VarInt_encode (zlen sig) ++ sig.

Lemma codes_player_key k : is_player_key k → codes (write_all k) read_player_key k.
Proof.
  intros (ts&pk&sig&Hts&Hpk&Hsig&->).
  assert (Hs : ∀ l : bytes, zlen l ≤ 4096 → wrap_s 32 (zlen l) = zlen l).
  { intros l Hl. apply wrap_s_small; [done|]. by apply (zlen_in_s32 l 4096). }
  assert (Hw : write_all (to_be_bytes 8 ts ++ VarInt_encode (zlen pk) ++ pk ++
                          VarInt_encode (zlen sig) ++ sig) =
               write_i64_be ts +> write_byte_array pk +> write_byte_array sig).
  { unfold write_byte_array. rewrite !Hs by lia.
    cbv [write_all write_i64_be wr_app]. by rewrite <- !app_assoc. }
  rewrite Hw. unfold read_player_key. cbv zeta.
  eapply codes_bind; [by apply codes_i64|]. cbn beta.
  eapply codes_bind; [by apply codes_byte_array; [|done]; lia|]. cbn beta.
  eapply codes_bind_ret; [by apply codes_byte_array; [|done]; lia|]. cbn beta.
  rewrite !Hs by lia. by rewrite <- !app_assoc.
Qed.
#[export] Hint Resolve codes_player_key : codec.

Definition SLoginStart_norm (p : SLoginStart) (v : ProtocolVersion) : SLoginStart :=
  if no_less_than v V1_19 then
    mk_SLoginStart (ls_name p)
      (if no_less_than v V1_20_2 then Some (default 0 (ls_uuid p))
       else if no_less_than v V1_19_1 then ls_uuid p else None)
      (if less_than v V1_19_3 then ls_signature_data p else None)
  else mk_SLoginStart (ls_name p) None None.

#[export, refine] Instance SLoginStart_laws : PacketLaws SLoginStart := {|
  pkt_ok p _ := is_text 16 (ls_name p) ∧ ls_name p ≠ [] ∧
    from_option (in_u 128) True (ls_uuid p) ∧
    from_option is_player_key True (ls_signature_data p);
  pkt_norm := SLoginStart_norm |}.
Proof.
  2:{ intros [name uuid sig] v _. unfold SLoginStart_norm; simpl.
      unfold SLoginStart_encode. by branches; simpl; branches. }
  intros [name uuid sig] v (?&?&Hu&Hs); simpl in *.
  assert (in_u 128 (default 0 uuid)) by (by destruct uuid).
  unfold SLoginStart_decode, SLoginStart_encode, SLoginStart_norm; simpl.
  eapply codes_all_bind; [by apply codes_string_bounded|].
  rewrite decide_False by done.
  branches; simpl in *; fields.
Defined.

(** *** Encryption *)

Definition CEncryptionRequest_norm (p : CEncryptionRequest) (v : ProtocolVersion) :=
  mk_CEncryptionRequest (er_server_id p) (er_public_key p) (er_verify_token p)
    (if no_less_than v V1_20_5 then er_should_authenticate p else true).

#[export, refine] Instance CEncryptionRequest_laws : PacketLaws CEncryptionRequest := {|
  pkt_ok p v := is_text 20 (er_server_id p) ∧
    zlen (er_public_key p) ≤ (if no_less_than v V1_8 then 256 else 32767) ∧
    zlen (er_verify_token p) ≤ (if no_less_than v V1_8 then 16 else 32767);
  pkt_norm := CEncryptionRequest_norm |}.
Proof.
  2:{ intros [id pk vt auth] v _. simpl. unfold CEncryptionRequest_encode; simpl.
      by branches. }
  intros [id pk vt auth] v (?&Hpk&Hvt); simpl in *.
  unfold CEncryptionRequest_decode, CEncryptionRequest_encode, CEncryptionRequest_norm; simpl.
  branches; fields.
Defined.

Definition SEncryptionResponse_norm (p : SEncryptionResponse) (v : ProtocolVersion) :=
  mk_SEncryptionResponse (es_shared_secret p) (es_verify_token p)
    (if no_less_than v V1_19 && less_than v V1_19_3 then es_salt p else None).

#[export, refine] Instance SEncryptionResponse_laws : PacketLaws SEncryptionResponse := {|
  pkt_ok p v :=
    zlen (es_shared_secret p) ≤ (if no_less_than v V1_8 then 128 else 32767) ∧
    zlen (es_verify_token p) ≤ (if no_less_than v V1_19 then 256
                                else if no_less_than v V1_8 then 128 else 32767) ∧
    from_option (in_s 64) True (es_salt p);
  pkt_norm := SEncryptionResponse_norm |}.
Proof.
  2:{ intros [ss vt salt] v _. simpl. unfold SEncryptionResponse_encode; simpl.
      by branches. }
  intros [ss vt salt] v (Hss&Hvt&Hs); simpl in *.
  unfold SEncryptionResponse_decode, SEncryptionResponse_encode, SEncryptionResponse_norm; simpl.
  branches; simpl in *; fields; no_version.
Defined.

#[export, refine] Instance CSetCompression_laws : PacketLaws CSetCompression := {|
  pkt_ok p _ := in_s 32 (sc_threshold p); pkt_norm p _ := p; pkt_norm_encode _ _ _ := eq_refl |}.
Proof.
  intros [x] v ?. simpl in *. unfold CSetCompression_decode, CSetCompression_encode. fields.
Defined.

(** *** Login success *)

Definition property_ok (p : Property) : Prop :=
  is_text 32767 (prop_name p) ∧ is_text 32767 (prop_value p) ∧
  from_option (is_text 32767) True (prop_signature p).

Lemma codes_property p : property_ok p → codes (write_property p) read_property p.
Proof.
  destruct p as [name value sig]; intros (?&?&Hs); simpl in *.
  unfold write_property, read_property; simpl.
  field. field. destruct sig; simpl in Hs.
  - field. eapply codes_bind_ret; [by apply codes_some, codes_string|done].
  - eapply codes_bind_ret; [apply codes_bool|done].
Qed.

Section login_success.
Context `{UuidTextLaws}.

Lemma codes_uuid_to_string u msg : in_u 128 u →
  codes (write_string (uuid_to_string u)) (read_uuid_text 36 msg) u.
Proof.
  intros. eapply codes_bind_ret.
  - apply codes_string_bounded; [by apply uuid_to_string_text|lia].
  - by rewrite uuid_parse_to_string.
Qed.

Lemma codes_uuid_as_simple u msg : in_u 128 u →
  codes (write_string (uuid_as_simple u)) (read_uuid_text 32 msg) u.
Proof.
  intros. eapply codes_bind_ret.
  - apply codes_string_bounded; [by apply uuid_as_simple_text|lia].
  - by rewrite uuid_parse_as_simple.
Qed.

Definition CLoginSuccess_norm (p : CLoginSuccess) (v : ProtocolVersion) : CLoginSuccess :=
  mk_CLoginSuccess (lsu_uuid p) (lsu_username p)
    (if no_less_than v V1_19 then lsu_properties p else [])
    (if decide (v = V1_20_5 ∨ v = V1_21) then lsu_strict_error_handling p else false).

#[export, refine] Instance CLoginSuccess_laws : PacketLaws CLoginSuccess := {|
  pkt_ok p _ := in_u 128 (lsu_uuid p) ∧ is_text 16 (lsu_username p) ∧
    zlen (lsu_properties p) < 2 ^ 31 ∧ Forall property_ok (lsu_properties p);
  pkt_norm := CLoginSuccess_norm |}.
Proof.
  2:{ intros [uuid name props strict] v _. simpl. unfold CLoginSuccess_encode; simpl.
      by branches. }
  intros [uuid name props strict] v (?&?&?&Hp); simpl in *.
  unfold CLoginSuccess_decode, CLoginSuccess_encode, CLoginSuccess_norm; simpl.
  assert (Hps : codes (wr_list write_property props)
                  (read_n (Z.to_nat (wrap_u 64 (zlen props))) read_property) props).
  { apply codes_list; [by rewrite <- count_nat|]. eapply Forall_impl; [done|].
    apply codes_property. }
  assert (Hc : codes (write_var_int (wrap_s 32 (zlen props)) +> wr_list write_property props)
    (count ← read_var_int; read_n (Z.to_nat (wrap_u 64 count)) read_property) props).
  { eapply codes_bind; [by apply codes_count|done]. }
  apply codes_codes_all. eapply codes_bind; [|eapply codes_bind;
    [by eapply codes_string_bounded|]; eapply codes_bind; [|eapply codes_bind]].
  - instantiate (1 := uuid). branches; eauto using codes_uuid_to_string,
      codes_uuid_as_simple with codec nocore.
  - instantiate (1 := if no_less_than v V1_19 then props else []).
    by destruct (no_less_than v V1_19); [|apply codes_ret].
  - instantiate (1 := if decide (v = V1_20_5 ∨ v = V1_21) then strict else false).
    destruct (decide (v = V1_20_5 ∨ v = V1_21)); [apply codes_bool|apply codes_ret].
  - apply codes_ret.
Defined.
End login_success.

#[export, refine] Instance CLoginDisconnect_laws : PacketLaws CLoginDisconnect := {|
  pkt_ok p _ := is_text 32767 (ld_reason p); pkt_norm p _ := p; pkt_norm_encode _ _ _ := eq_refl |}.
Proof.
  intros [x] v ?. simpl in *. unfold CLoginDisconnect_decode, CLoginDisconnect_encode. fields.
Defined.

#[export, refine] Instance CLoginPluginRequest_laws : PacketLaws CLoginPluginRequest := {|
  pkt_ok p _ := in_s 32 (lpr_message_id p) ∧ is_text 32767 (lpr_channel p);
  pkt_norm p _ := p; pkt_norm_encode _ _ _ := eq_refl |}.
Proof.
  intros [id ch d] v (?&?). simpl in *.
  unfold CLoginPluginRequest_decode, CLoginPluginRequest_encode. fields.
Defined.

#[export, refine] Instance SLoginPluginResponse_laws : PacketLaws SLoginPluginResponse := {|
  pkt_ok p _ := in_s 32 (lps_message_id p); pkt_norm p _ := p; pkt_norm_encode _ _ _ := eq_refl |}.
Proof.
  intros [id b d] v ?. simpl in *.
  unfold SLoginPluginResponse_decode, SLoginPluginResponse_encode. fields.
Defined.

#[export, refine] Instance SLoginAcknowledged_laws : PacketLaws SLoginAcknowledged := {|
  pkt_ok _ _ := True; pkt_norm p _ := p; pkt_norm_encode _ _ _ := eq_refl |}.
Proof. intros [] v _. apply codes_codes_all, codes_ret. Defined.

(** *** Config *)

#[export, refine] Instance CFinishConfig_laws : PacketLaws CFinishConfig := {|
  pkt_ok _ _ := True; pkt_norm p _ := p; pkt_norm_encode _ _ _ := eq_refl |}.
Proof. intros [] v _. apply codes_codes_all, codes_ret. Defined.

#[export, refine] Instance SAcknowledgeFinishConfig_laws :
  PacketLaws SAcknowledgeFinishConfig := {| pkt_ok _ _ := True; pkt_norm p _ := p; pkt_norm_encode _ _ _ := eq_refl |}.
Proof. intros [] v _. apply codes_codes_all, codes_ret. Defined.

#[export, refine] Instance CRegistryData_laws : PacketLaws CRegistryData := {|
  pkt_ok _ _ := True; pkt_norm p _ := p; pkt_norm_encode _ _ _ := eq_refl |}.
Proof.
  intros [d] v _. simpl. unfold CRegistryData_decode, CRegistryData_encode. fields.
Defined.

Definition known_pack_ok (p : KnownPack) : Prop :=
  is_text 32767 (kp_namespace p) ∧ is_text 32767 (kp_id p) ∧ is_text 32767 (kp_version p).

Lemma codes_known_packs {P} (mk : list KnownPack → P) packs v :
  zlen packs < 2 ^ 31 → Forall known_pack_ok packs →
  codes (KnownPacks_encode packs v) (KnownPacks_decode mk v) (mk packs).
Proof.
  intros Hl Hp. pose proof (zlen_nonneg packs). unfold KnownPacks_encode, KnownPacks_decode.
  field. rewrite decide_False by lia. eapply codes_bind; [|apply codes_ret].
  apply codes_list; [unfold zlen; by rewrite Nat2Z.id|]. eapply Forall_impl; [done|].
  intros [ns id ver] (?&?&?); simpl in *. unfold write_known_pack, read_known_pack; simpl.
  field. field. by eapply codes_bind_ret; [apply codes_string|].
Qed.

#[export, refine] Instance CKnownPacks_laws : PacketLaws CKnownPacks := {|
  pkt_ok p _ := zlen (ckp_packs p) < 2 ^ 31 ∧ Forall known_pack_ok (ckp_packs p);
  pkt_norm p _ := p; pkt_norm_encode _ _ _ := eq_refl |}.
Proof. intros [ps] v (?&?). by apply codes_codes_all, (codes_known_packs mk_CKnownPacks). Defined.

#[export, refine] Instance SKnownPacks_laws : PacketLaws SKnownPacks := {|
  pkt_ok p _ := zlen (skp_packs p) < 2 ^ 31 ∧ Forall known_pack_ok (skp_packs p);
  pkt_norm p _ := p; pkt_norm_encode _ _ _ := eq_refl |}.
Proof. intros [ps] v (?&?). by apply codes_codes_all, (codes_known_packs mk_SKnownPacks). Defined.

#[export, refine] Instance CConfigPluginMessage_laws : PacketLaws CConfigPluginMessage := {|
  pkt_ok p _ := is_text 32767 (ccp_channel p); pkt_norm p _ := p; pkt_norm_encode _ _ _ := eq_refl |}.
Proof.
  intros [ch d] v ?. simpl in *.
  unfold ConfigPluginMessage_decode, ConfigPluginMessage_encode. fields.
Defined.

#[export, refine] Instance SConfigPluginMessage_laws : PacketLaws SConfigPluginMessage := {|
  pkt_ok p _ := is_text 32767 (scp_channel p); pkt_norm p _ := p; pkt_norm_encode _ _ _ := eq_refl |}.
Proof.
  intros [ch d] v ?. simpl in *.
  unfold ConfigPluginMessage_decode, ConfigPluginMessage_encode. fields.
Defined.

#[export, refine] Instance CConfigDisconnect_laws : PacketLaws CConfigDisconnect := {|
  pkt_ok _ _ := True; pkt_norm p _ := p; pkt_norm_encode _ _ _ := eq_refl |}.
Proof.
  intros [d] v _. simpl. unfold CConfigDisconnect_decode, CConfigDisconnect_encode. fields.
Defined.

(** ** A textual form for the witnesses

    Lower-case hexadecimal digits, with or without hyphens, which satisfies the
    laws of [UuidText]. *)

Definition hex_digit (d : Z) : Z := if decide (d < 10) then 48 + d else 87 + d.
Definition hex_val (c : Z) : option Z :=
  if decide (48 ≤ c ≤ 57) then Some (c - 48)
  else if decide (97 ≤ c ≤ 102) then Some (c - 87) else None.

Definition hex_of_byte (b : Z) : rstring := [hex_digit (b / 16); hex_digit (b mod 16)].
Definition hex_simple (u : Z) : rstring := concat (hex_of_byte <$> to_be_bytes 16 u).

Definition hex_hyphenated (u : Z) : rstring :=
  let s := hex_simple u in
  take 8 s ++ [45] ++ take 4 (drop 8 s) ++ [45] ++ take 4 (drop 12 s) ++ [45] ++
  take 4 (drop 16 s) ++ [45] ++ drop 20 s.

Fixpoint unhex (s : rstring) : option bytes :=
  match s with
  | [] => Some []
  | h :: l :: s =>
    match hex_val h, hex_val l, unhex s with
    | Some h, Some l, Some bs => Some (16 * h + l :: bs)
    | _, _, _ => None
    end
  | _ => None
  end.

Definition hex_parse (s : rstring) : result string Z :=
  let digits := filter (λ c, c ≠ 45) s in
  if decide (length digits = 32%nat) then
    match unhex digits with Some bs => Ok (from_be_bytes bs) | None => Err "invalid character"%string end
  else Err "invalid length"%string.

Definition hex_uuid : UuidText := {|
  uuid_to_string := hex_hyphenated; uuid_as_simple := hex_simple; uuid_parse_str := hex_parse |}.

Lemma hex_of_byte_ok b : is_byte b →
  Forall (λ c, 48 ≤ c ≤ 102) (hex_of_byte b) ∧ hex_val (hex_digit (b / 16)) = Some (b / 16) ∧
  hex_val (hex_digit (b mod 16)) = Some (b mod 16).
Proof. revert b. apply (byte_forall _). by vm_compute. Qed.

Lemma unhex_hex bs : is_bytes bs → unhex (concat (hex_of_byte <$> bs)) = Some bs.
Proof.
  induction 1 as [|b bs Hb _ IH]; [done|]. rewrite fmap_cons, concat_cons.
  unfold hex_of_byte at 1. cbn [app unhex].
  destruct (hex_of_byte_ok b Hb) as (_&->&->). rewrite IH. do 2 f_equal.
  pose proof (Z.div_mod b 16 ltac:(lia)). lia.
Qed.

Lemma hex_chars bs : is_bytes bs → Forall (λ c, 48 ≤ c ≤ 102) (concat (hex_of_byte <$> bs)).
Proof.
  induction 1 as [|b bs Hb _ IH]; [constructor|]. rewrite fmap_cons, concat_cons.
  apply Forall_app. split; [by apply hex_of_byte_ok|done].
Qed.

Lemma hex_length bs : length (concat (hex_of_byte <$> bs)) = (2 * length bs)%nat.
Proof.
  induction bs as [|b bs IH]; [done|]. rewrite fmap_cons, concat_cons, length_app, IH.
  simpl. lia.
Qed.

Lemma hex_simple_facts u :
  length (hex_simple u) = 32%nat ∧ Forall (λ c, 48 ≤ c ≤ 102) (hex_simple u).
Proof.
  unfold hex_simple. rewrite hex_length, length_to_be_bytes. split; [done|].
  apply hex_chars, to_be_bytes_bytes.
Qed.

Lemma no_hyphen l : Forall (λ c, 48 ≤ c ≤ 102) l → filter (λ c, c ≠ 45) l = l.
Proof.
  induction 1 as [|c l Hc _ IH]; [done|]. rewrite filter_cons_True by lia. by rewrite IH.
Qed.

Lemma hex_parse_digits u s : in_u 128 u →
  filter (λ c, c ≠ 45) s = hex_simple u → hex_parse s = Ok u.
Proof.
  intros Hu Hs. unfold hex_parse. rewrite Hs. destruct (hex_simple_facts u) as [Hl _].
  rewrite decide_True by done. unfold hex_simple. rewrite unhex_hex by apply to_be_bytes_bytes.
  rewrite from_to_be_bytes. f_equal. by apply Z.mod_small.
Qed.

Lemma hex_text n s : zlen s ≤ n → Forall (λ c, 45 ≤ c ≤ 102) s → is_text n s.
Proof.
  intros Hl Hs. split; [|done]. eapply Forall_impl; [exact Hs|].
  intros c Hc. unfold is_char. simpl in Hc. lia.
Qed.

Lemma hex_hyphenated_facts u :
  filter (λ c, c ≠ 45) (hex_hyphenated u) = hex_simple u ∧ is_text 36 (hex_hyphenated u).
Proof.
  unfold hex_hyphenated. cbv zeta. destruct (hex_simple_facts u) as [Hl Hs].
  revert Hl Hs. generalize (hex_simple u) as s. intros s Hl Hs.
  assert (Hp : ∀ n m, Forall (λ c, 48 ≤ c ≤ 102) (take n (drop m s)))
    by (intros; by apply Forall_take, Forall_drop).
  assert (Hd : ∀ m, Forall (λ c, 48 ≤ c ≤ 102) (drop m s)) by (intros; by apply Forall_drop).
  split.
  - rewrite !filter_app. rewrite (no_hyphen (take 8 s)), (no_hyphen (take 4 (drop 8 s))),
      (no_hyphen (take 4 (drop 12 s))), (no_hyphen (take 4 (drop 16 s))), (no_hyphen (drop _ s))
      by auto using Forall_take.
    change (filter (λ c, c ≠ 45) [45]) with (@nil Z). cbn [app].
    assert (Hsplit : ∀ n m k : nat, k = (m + n)%nat → take n (drop m s) ++ drop k s = drop m s).
    { intros n m k ->. rewrite <- drop_drop. apply take_drop. }
    rewrite (Hsplit 4 16 20)%nat, (Hsplit 4 12 16)%nat, (Hsplit 4 8 12)%nat by done.
    apply take_drop.
  - apply hex_text.
    + unfold zlen. rewrite !length_app, !length_take, !length_drop, Hl. simpl. lia.
    + assert (Hw : ∀ l, Forall (λ c, 48 ≤ c ≤ 102) l → Forall (λ c, 45 ≤ c ≤ 102) l)
        by (intros l Hl'; eapply Forall_impl; [exact Hl'|]; simpl; lia).
      assert (Forall (λ c, 45 ≤ c ≤ 102) [45]) by (repeat constructor; lia).
      repeat (apply Forall_app; split); auto using Forall_take.
Qed.

Lemma hex_uuid_laws : @UuidTextLaws hex_uuid.
Proof.
  split; intros u Hu.
  - apply hex_hyphenated_facts.
  - destruct (hex_simple_facts u) as [Hl Hs]. apply hex_text; [unfold zlen; simpl; lia|].
    eapply Forall_impl; [exact Hs|]. simpl. lia.
  - by apply hex_parse_digits, hex_hyphenated_facts.
  - apply hex_parse_digits; [done|]. apply no_hyphen, hex_simple_facts.
Qed.

(** ** Theorems *)

(** What a login start that the proxy accepts guarantees, whatever the client
    sent: a name of one to sixteen characters that is valid UTF-8, and the identity
    fields of the version: none before 1.19, a UUID from 1.20.2 on, a player key only
    in 1.19 to 1.19.2. *)
Theorem login_start_sound (v : ProtocolVersion) (bs : bytes) (p : SLoginStart) (rest : bytes) :
  SLoginStart_decode v bs = Ok (p, rest) →
  is_text 16 (ls_name p) ∧ 1 ≤ zlen (ls_name p) ∧
  (v < V1_19 → ls_uuid p = None ∧ ls_signature_data p = None) ∧
  (V1_20_2 ≤ v → is_Some (ls_uuid p)) ∧
  (V1_19_3 ≤ v → ls_signature_data p = None).
Proof.
  unfold SLoginStart_decode. intros Hd. inv_reads. rename a into name, Hread into Hname.
  apply read_string_bounded_inv in Hname as (Hs&Hl&_).
  destruct (decide (name = [])) as [|Hne]; [by inv_reads|].
  assert (1 ≤ zlen name) by (destruct name; [done|]; rewrite zlen_cons;
    pose proof (zlen_nonneg name); lia).
  unfold no_less_than, less_than in Hd.
  destruct (V1_19 <=? v) eqn:E19; [apply Z.leb_le in E19|apply Z.leb_gt in E19].
  2:{ inv_reads. cbn. split; [done|]. split; [done|]. split; [done|].
      unfold V1_19, V1_20_2, V1_19_3 in *. split; [lia|done]. }
  inv_reads. cbn. split; [done|]. split; [done|]. split; [lia|]. split.
  - intros Hv. rewrite (proj2 (Z.leb_le _ _) Hv) in Hread1. inv_reads. by inv_reads.
  - intros Hv. rewrite (proj2 (Z.ltb_ge _ _) Hv) in Hread. by inv_reads.
Qed.

Lemma login_start_sound_witness :
  ∃ p rest, SLoginStart_decode V1_20_2 (5 :: as_bytes (str "Steve") ++ to_be_bytes 16 9) = Ok (p, rest) ∧
    is_text 16 (ls_name p) ∧ 1 ≤ zlen (ls_name p) ∧
    (V1_20_2 < V1_19 → ls_uuid p = None ∧ ls_signature_data p = None) ∧
    (V1_20_2 ≤ V1_20_2 → is_Some (ls_uuid p)) ∧
    (V1_19_3 ≤ V1_20_2 → ls_signature_data p = None).
Proof.
  eexists _, _. split; [by vm_compute|].
  eapply (login_start_sound V1_20_2 (5 :: as_bytes (str "Steve") ++ to_be_bytes 16 9)).
  by vm_compute.
Defined.
