(* ===== verification/PlayPackets.v ===== *)
(** * PlayPackets: the packets of the play state the proxy reads or writes

    Models the files of [packets/play/] but [commands.rs], [dimension.rs] and
    [respawn_switch.rs], in the way of [LoginPackets].  A Rust [f32] or [f64] is
    the [Z] of its bits, which is all the codec looks at. *)
From S2P Require Import Prelude Wire Utf8 VarInt Codec Version Packet.

(** ** Center chunk, chunk batches and game events *)

Record CSetCenterChunk := mk_CSetCenterChunk { cc_chunk_x : Z; cc_chunk_z : Z }.

Definition CSetCenterChunk_decode (_version : ProtocolVersion) : reader CSetCenterChunk :=
  chunk_x ← read_var_int; chunk_z ← read_var_int; mret (mk_CSetCenterChunk chunk_x chunk_z).
Definition CSetCenterChunk_encode (self : CSetCenterChunk) (_version : ProtocolVersion) :
    ProtocolResult bytes :=
  write_var_int (cc_chunk_x self) +> write_var_int (cc_chunk_z self) +> Ok [].

#[export] Instance CSetCenterChunk_packet : Packet CSetCenterChunk := {|
  NAME := "CSetCenterChunk"; pkt_state := Play; pkt_direction := Clientbound;
  pkt_decode := CSetCenterChunk_decode; pkt_encode := CSetCenterChunk_encode |}.

Inductive CChunkBatchStart := mk_CChunkBatchStart.

Definition CChunkBatchStart_decode (_version : ProtocolVersion) : reader CChunkBatchStart :=
  mret mk_CChunkBatchStart.
Definition CChunkBatchStart_encode (_ : CChunkBatchStart) (_version : ProtocolVersion) :
  ProtocolResult bytes := Ok [].

#[export] Instance CChunkBatchStart_packet : Packet CChunkBatchStart := {|
  NAME := "CChunkBatchStart"; pkt_state := Play; pkt_direction := Clientbound;
  pkt_decode := CChunkBatchStart_decode; pkt_encode := CChunkBatchStart_encode |}.

Record CChunkBatchFinished := mk_CChunkBatchFinished { batch_size : Z }.

Definition CChunkBatchFinished_decode (_version : ProtocolVersion) :
    reader CChunkBatchFinished :=
  batch_size ← read_var_int; mret (mk_CChunkBatchFinished batch_size).
Definition CChunkBatchFinished_encode (self : CChunkBatchFinished)
    (_version : ProtocolVersion) : ProtocolResult bytes :=
  write_var_int (batch_size self) +> Ok [].

#[export] Instance CChunkBatchFinished_packet : Packet CChunkBatchFinished := {|
  NAME := "CChunkBatchFinished"; pkt_state := Play; pkt_direction := Clientbound;
  pkt_decode := CChunkBatchFinished_decode; pkt_encode := CChunkBatchFinished_encode |}.

Definition START_WAITING_CHUNKS : Z := 13.

Record CGameEvent := mk_CGameEvent { ge_event : Z; ge_value : Z }.

Definition CGameEvent_decode (_version : ProtocolVersion) : reader CGameEvent :=
  event ← read_u8; value ← read_f32_be; mret (mk_CGameEvent event value).
Definition CGameEvent_encode (self : CGameEvent) (_version : ProtocolVersion) :
    ProtocolResult bytes :=
  write_u8 (ge_event self) +> write_f32_be (ge_value self) +> Ok [].

#[export] Instance CGameEvent_packet : Packet CGameEvent := {|
  NAME := "CGameEvent"; pkt_state := Play; pkt_direction := Clientbound;
  pkt_decode := CGameEvent_decode; pkt_encode := CGameEvent_encode |}.

(** ** Chat *)

(** [std::str::from_utf8(..).map_err(..)?] followed by [write_string]. *)
Definition write_utf8_string (msg : string) (content : bytes) : ProtocolResult bytes :=
  match from_utf8 content with
  | None => Err (Invalid msg)
  | Some json => write_string json
  end.

(** [read_string()?.into_bytes()]. *)
Definition read_string_bytes : reader bytes := s ← read_string; mret (as_bytes s).

Record CSystemChatMessage := mk_CSystemChatMessage {
  scm_content : bytes; scm_overlay : bool }.

Definition CSystemChatMessage_from_json (json : rstring) (overlay : bool) :=
  mk_CSystemChatMessage (as_bytes json) overlay.
Definition CSystemChatMessage_from_nbt (nbt : bytes) (overlay : bool) :=
  mk_CSystemChatMessage nbt overlay.

Definition CSystemChatMessage_decode (version : ProtocolVersion) :
    reader CSystemChatMessage :=
  if less_than version V1_20_3 then
    content ← read_string_bytes;
    overlay ← read_bool;
    mret (mk_CSystemChatMessage content overlay)
  else
    remaining ← read_remaining;
    if decide (remaining = []) then
      reader_fail (Invalid "CSystemChatMessage: empty payload")
    else
      let overlay := bool_decide (default 0 (last remaining) ≠ 0) in
      let content := take (length remaining - 1) remaining in
      mret (mk_CSystemChatMessage content overlay).

Definition CSystemChatMessage_encode (self : CSystemChatMessage)
    (version : ProtocolVersion) : ProtocolResult bytes :=
  (if less_than version V1_20_3
   then write_utf8_string "CSystemChatMessage content is not valid UTF-8 for JSON version"
          (scm_content self)
   else write_all (scm_content self)) +>
  write_bool (scm_overlay self) +> Ok [].

#[export] Instance CSystemChatMessage_packet : Packet CSystemChatMessage := {|
  NAME := "CSystemChatMessage"; pkt_state := Play; pkt_direction := Clientbound;
  pkt_decode := CSystemChatMessage_decode; pkt_encode := CSystemChatMessage_encode |}.

Record CChatMessageLegacy := mk_CChatMessageLegacy {
  cml_content : rstring; cml_position : Z }.

Definition CChatMessageLegacy_decode (version : ProtocolVersion) :
    reader CChatMessageLegacy :=
  content ← read_string;
  position ← (if no_less_than version V1_8 then read_u8 else mret 0);
  _ ← (if no_less_than version V1_16 then read_uuid else mret 0);
  mret (mk_CChatMessageLegacy content position).

Definition CChatMessageLegacy_encode (self : CChatMessageLegacy)
    (version : ProtocolVersion) : ProtocolResult bytes :=
  write_string (cml_content self) +>
  (if no_less_than version V1_8 then write_u8 (cml_position self) else Ok []) +>
  (if no_less_than version V1_16 then write_uuid 0 else Ok []) +> Ok [].

#[export] Instance CChatMessageLegacy_packet : Packet CChatMessageLegacy := {|
  NAME := "CChatMessageLegacy"; pkt_state := Play; pkt_direction := Clientbound;
  pkt_decode := CChatMessageLegacy_decode; pkt_encode := CChatMessageLegacy_encode |}.

Record SChatMessage := mk_SChatMessage { cm_message : rstring; cm_remaining : bytes }.

Definition SChatMessage_decode (_version : ProtocolVersion) : reader SChatMessage :=
  message ← read_string; remaining ← read_remaining; mret (mk_SChatMessage message remaining).
Definition SChatMessage_encode (self : SChatMessage) (_version : ProtocolVersion) :
    ProtocolResult bytes :=
  write_string (cm_message self) +> write_all (cm_remaining self) +> Ok [].

#[export] Instance SChatMessage_packet : Packet SChatMessage := {|
  NAME := "SChatMessage"; pkt_state := Play; pkt_direction := Serverbound;
  pkt_decode := SChatMessage_decode; pkt_encode := SChatMessage_encode |}.

Record SChatCommand := mk_SChatCommand { sco_command : rstring; sco_remaining : bytes }.

Definition SChatCommand_decode (_version : ProtocolVersion) : reader SChatCommand :=
  command ← read_string; remaining ← read_remaining; mret (mk_SChatCommand command remaining).
Definition SChatCommand_encode (self : SChatCommand) (_version : ProtocolVersion) :
    ProtocolResult bytes :=
  write_string (sco_command self) +> write_all (sco_remaining self) +> Ok [].

#[export] Instance SChatCommand_packet : Packet SChatCommand := {|
  NAME := "SChatCommand"; pkt_state := Play; pkt_direction := Serverbound;
  pkt_decode := SChatCommand_decode; pkt_encode := SChatCommand_encode |}.

Inductive SChatSessionUpdate := mk_SChatSessionUpdate.

Definition SChatSessionUpdate_decode (_version : ProtocolVersion) :
    reader SChatSessionUpdate :=
  reader_fail (Invalid "SChatSessionUpdate is not decoded by the proxy").
Definition SChatSessionUpdate_encode (_ : SChatSessionUpdate) (_version : ProtocolVersion) :
  ProtocolResult bytes := Ok [].

#[export] Instance SChatSessionUpdate_packet : Packet SChatSessionUpdate := {|
  NAME := "SChatSessionUpdate"; pkt_state := Play; pkt_direction := Serverbound;
  pkt_decode := SChatSessionUpdate_decode; pkt_encode := SChatSessionUpdate_encode |}.

(** ** Disconnect and titles *)

Record CDisconnect := mk_CDisconnect { dc_reason : bytes }.

Definition CDisconnect_from_json (json : rstring) := mk_CDisconnect (as_bytes json).
Definition CDisconnect_from_nbt (nbt : bytes) := mk_CDisconnect nbt.
Definition CDisconnect_as_json (self : CDisconnect) : option rstring :=
  from_utf8 (dc_reason self).

Definition CDisconnect_decode (version : ProtocolVersion) : reader CDisconnect :=
  reason ← (if less_than version V1_20_3 then read_string_bytes else read_remaining);
  mret (mk_CDisconnect reason).
Definition CDisconnect_encode (self : CDisconnect) (version : ProtocolVersion) :
    ProtocolResult bytes :=
  (if less_than version V1_20_3
   then write_utf8_string "CDisconnect reason is not valid UTF-8 for JSON version"
          (dc_reason self)
   else write_all (dc_reason self)) +> Ok [].

#[export] Instance CDisconnect_packet : Packet CDisconnect := {|
  NAME := "CDisconnect"; pkt_state := Play; pkt_direction := Clientbound;
  pkt_decode := CDisconnect_decode; pkt_encode := CDisconnect_encode |}.

Record CSetTitle := mk_CSetTitle { title_text : bytes }.

Definition CSetTitle_from_json (json : rstring) := mk_CSetTitle (as_bytes json).
Definition CSetTitle_from_nbt (nbt : bytes) := mk_CSetTitle nbt.

Definition CSetTitle_decode (version : ProtocolVersion) : reader CSetTitle :=
  text ← (if less_than version V1_20_3 then read_string_bytes else read_remaining);
  mret (mk_CSetTitle text).
Definition CSetTitle_encode (self : CSetTitle) (version : ProtocolVersion) :
    ProtocolResult bytes :=
  (if less_than version V1_20_3
   then write_utf8_string "CSetTitle text is not valid UTF-8 for JSON version"
          (title_text self)
   else write_all (title_text self)) +> Ok [].

#[export] Instance CSetTitle_packet : Packet CSetTitle := {|
  NAME := "CSetTitle"; pkt_state := Play; pkt_direction := Clientbound;
  pkt_decode := CSetTitle_decode; pkt_encode := CSetTitle_encode |}.

Record CSetSubtitle := mk_CSetSubtitle { subtitle_text : bytes }.

Definition CSetSubtitle_from_json (json : rstring) := mk_CSetSubtitle (as_bytes json).
Definition CSetSubtitle_from_nbt (nbt : bytes) := mk_CSetSubtitle nbt.

Definition CSetSubtitle_decode (version : ProtocolVersion) : reader CSetSubtitle :=
  text ← (if less_than version V1_20_3 then read_string_bytes else read_remaining);
  mret (mk_CSetSubtitle text).
Definition CSetSubtitle_encode (self : CSetSubtitle) (version : ProtocolVersion) :
    ProtocolResult bytes :=
  (if less_than version V1_20_3
   then write_utf8_string "CSetSubtitle text is not valid UTF-8 for JSON version"
          (subtitle_text self)
   else write_all (subtitle_text self)) +> Ok [].

#[export] Instance CSetSubtitle_packet : Packet CSetSubtitle := {|
  NAME := "CSetSubtitle"; pkt_state := Play; pkt_direction := Clientbound;
  pkt_decode := CSetSubtitle_decode; pkt_encode := CSetSubtitle_encode |}.

Record CSetTitleTimes := mk_CSetTitleTimes {
  tt_fade_in : Z; tt_stay : Z; tt_fade_out : Z }.

Definition CSetTitleTimes_decode (_version : ProtocolVersion) : reader CSetTitleTimes :=
  fade_in ← read_i32_be; stay ← read_i32_be; fade_out ← read_i32_be;
  mret (mk_CSetTitleTimes fade_in stay fade_out).
Definition CSetTitleTimes_encode (self : CSetTitleTimes) (_version : ProtocolVersion) :
    ProtocolResult bytes :=
  write_i32_be (tt_fade_in self) +> write_i32_be (tt_stay self) +>
  write_i32_be (tt_fade_out self) +> Ok [].

#[export] Instance CSetTitleTimes_packet : Packet CSetTitleTimes := {|
  NAME := "CSetTitleTimes"; pkt_state := Play; pkt_direction := Clientbound;
  pkt_decode := CSetTitleTimes_decode; pkt_encode := CSetTitleTimes_encode |}.

Inductive CTitleLegacy :=
| SetTitle (json : rstring)
| SetSubtitle (json : rstring)
| SetTimes (fade_in stay fade_out : Z).

Definition action_id (self : CTitleLegacy) (version : ProtocolVersion) : Z :=
  match self with
  | SetTitle _ => 0
  | SetSubtitle _ => 1
  | SetTimes _ _ _ => if less_than version V1_12 then 2 else 3
  end.

Definition CTitleLegacy_decode (version : ProtocolVersion) : reader CTitleLegacy :=
  action ← read_var_int;
  let times_action := if less_than version V1_12 then 2 else 3 in
  if decide (action = 0) then s ← read_string; mret (SetTitle s)
  else if decide (action = 1) then s ← read_string; mret (SetSubtitle s)
  else if decide (action = times_action) then
    fade_in ← read_i32_be; stay ← read_i32_be; fade_out ← read_i32_be;
    mret (SetTimes fade_in stay fade_out)
  else reader_fail (Invalid ("CTitleLegacy: unknown action " +:+ pretty action)).

Definition CTitleLegacy_encode (self : CTitleLegacy) (version : ProtocolVersion) :
    ProtocolResult bytes :=
  write_var_int (action_id self version) +>
  match self with
  | SetTitle json | SetSubtitle json => write_string json
  | SetTimes fade_in stay fade_out =>
    write_i32_be fade_in +> write_i32_be stay +> write_i32_be fade_out
  end +> Ok [].

#[export] Instance CTitleLegacy_packet : Packet CTitleLegacy := {|
  NAME := "CTitleLegacy"; pkt_state := Play; pkt_direction := Clientbound;
  pkt_decode := CTitleLegacy_decode; pkt_encode := CTitleLegacy_encode |}.

(** ** Keep-alive, plugin messages, transfer and the configuration switch *)

Definition decode_keepalive_id (version : ProtocolVersion) : reader Z :=
  if no_less_than version V1_12_2 then read_i64_be
  else if no_less_than version V1_8 then read_var_int
  else read_i32_be.

Definition encode_keepalive_id (id : Z) (version : ProtocolVersion) : ProtocolResult bytes :=
  if no_less_than version V1_12_2 then write_i64_be id
  else if no_less_than version V1_8 then write_var_int (wrap_s 32 id)
  else write_i32_be (wrap_s 32 id).

Record CKeepAlive := mk_CKeepAlive { cka_id : Z }.
Record SKeepAlive := mk_SKeepAlive { ska_id : Z }.

Definition KeepAlive_decode {P} (mk : Z → P) (version : ProtocolVersion) : reader P :=
  id ← decode_keepalive_id version; mret (mk id).

#[export] Instance CKeepAlive_packet : Packet CKeepAlive := {|
  NAME := "CKeepAlive"; pkt_state := Play; pkt_direction := Clientbound;
  pkt_decode := KeepAlive_decode mk_CKeepAlive;
  pkt_encode p := encode_keepalive_id (cka_id p) |}.
#[export] Instance SKeepAlive_packet : Packet SKeepAlive := {|
  NAME := "SKeepAlive"; pkt_state := Play; pkt_direction := Serverbound;
  pkt_decode := KeepAlive_decode mk_SKeepAlive;
  pkt_encode p := encode_keepalive_id (ska_id p) |}.

Definition decode_plugin_message : reader (rstring * bytes) :=
  channel ← read_string; data ← read_remaining; mret (channel, data).
Definition encode_plugin_message (channel : rstring) (data : bytes) : ProtocolResult bytes :=
  write_string channel +> write_all data +> Ok [].

Record CPluginMessage := mk_CPluginMessage { cpm_channel : rstring; cpm_data : bytes }.
Record SPluginMessage := mk_SPluginMessage { spm_channel : rstring; spm_data : bytes }.

Definition PluginMessage_decode {P} (mk : rstring → bytes → P) (_version : ProtocolVersion) :
    reader P :=
  cd ← decode_plugin_message; mret (mk cd.1 cd.2).

#[export] Instance CPluginMessage_packet : Packet CPluginMessage := {|
  NAME := "CPluginMessage"; pkt_state := Play; pkt_direction := Clientbound;
  pkt_decode := PluginMessage_decode mk_CPluginMessage;
  pkt_encode p _ := encode_plugin_message (cpm_channel p) (cpm_data p) |}.
#[export] Instance SPluginMessage_packet : Packet SPluginMessage := {|
  NAME := "SPluginMessage"; pkt_state := Play; pkt_direction := Serverbound;
  pkt_decode := PluginMessage_decode mk_SPluginMessage;
  pkt_encode p _ := encode_plugin_message (spm_channel p) (spm_data p) |}.

Record CTransfer := mk_CTransfer { tr_host : rstring; tr_port : Z }.

Definition CTransfer_decode (_version : ProtocolVersion) : reader CTransfer :=
  host ← read_string; port ← read_var_int; mret (mk_CTransfer host port).
Definition CTransfer_encode (self : CTransfer) (_version : ProtocolVersion) :
    ProtocolResult bytes :=
  write_string (tr_host self) +> write_var_int (tr_port self) +> Ok [].

#[export] Instance CTransfer_packet : Packet CTransfer := {|
  NAME := "CTransfer"; pkt_state := Play; pkt_direction := Clientbound;
  pkt_decode := CTransfer_decode; pkt_encode := CTransfer_encode |}.

Inductive CStartConfiguration := mk_CStartConfiguration.

Definition CStartConfiguration_decode (_version : ProtocolVersion) :
  reader CStartConfiguration := mret mk_CStartConfiguration.
Definition CStartConfiguration_encode (_ : CStartConfiguration)
  (_version : ProtocolVersion) : ProtocolResult bytes := Ok [].

#[export] Instance CStartConfiguration_packet : Packet CStartConfiguration := {|
  NAME := "CStartConfiguration"; pkt_state := Play; pkt_direction := Clientbound;
  pkt_decode := CStartConfiguration_decode; pkt_encode := CStartConfiguration_encode |}.

Inductive SAcknowledgeConfiguration := mk_SAcknowledgeConfiguration.

Definition SAcknowledgeConfiguration_decode (_version : ProtocolVersion) :
  reader SAcknowledgeConfiguration := mret mk_SAcknowledgeConfiguration.
Definition SAcknowledgeConfiguration_encode (_ : SAcknowledgeConfiguration)
  (_version : ProtocolVersion) : ProtocolResult bytes := Ok [].

#[export] Instance SAcknowledgeConfiguration_packet : Packet SAcknowledgeConfiguration := {|
  NAME := "SAcknowledgeConfiguration"; pkt_state := Play; pkt_direction := Serverbound;
  pkt_decode := SAcknowledgeConfiguration_decode;
  pkt_encode := SAcknowledgeConfiguration_encode |}.

(** ** Positions *)

Record CSynchronizePlayerPosition := mk_CSynchronizePlayerPosition {
  pp_x : Z; pp_y : Z; pp_z : Z;
  pp_delta_x : Z; pp_delta_y : Z; pp_delta_z : Z;
  pp_yaw : Z; pp_pitch : Z;
  pp_flags : Z; pp_teleport_id : Z;
}.

Definition CSynchronizePlayerPosition_decode (version : ProtocolVersion) :
    reader CSynchronizePlayerPosition :=
  if no_less_than version V1_21_2 then
    teleport_id ← read_var_int;
    x ← read_f64_be; y ← read_f64_be; z ← read_f64_be;
    delta_x ← read_f64_be; delta_y ← read_f64_be; delta_z ← read_f64_be;
    yaw ← read_f32_be; pitch ← read_f32_be;
    flags ← read_i32_be;
    mret (mk_CSynchronizePlayerPosition x y z delta_x delta_y delta_z yaw pitch flags teleport_id)
  else
    x ← read_f64_be; y ← read_f64_be; z ← read_f64_be;
    yaw ← read_f32_be; pitch ← read_f32_be;
    flags ← read_u8;
    teleport_id ← (if no_less_than version V1_9 then read_var_int else mret 0);
    mret (mk_CSynchronizePlayerPosition x y z 0 0 0 yaw pitch flags teleport_id).

Definition CSynchronizePlayerPosition_encode (self : CSynchronizePlayerPosition)
    (version : ProtocolVersion) : ProtocolResult bytes :=
  (if no_less_than version V1_21_2 then
    write_var_int (pp_teleport_id self) +>
    write_f64_be (pp_x self) +> write_f64_be (pp_y self) +> write_f64_be (pp_z self) +>
    write_f64_be (pp_delta_x self) +> write_f64_be (pp_delta_y self) +>
    write_f64_be (pp_delta_z self) +>
    write_f32_be (pp_yaw self) +> write_f32_be (pp_pitch self) +>
    write_i32_be (pp_flags self)
  else
    write_f64_be (pp_x self) +> write_f64_be (pp_y self) +> write_f64_be (pp_z self) +>
    write_f32_be (pp_yaw self) +> write_f32_be (pp_pitch self) +>
    write_u8 (wrap_u 8 (pp_flags self)) +>
    (if no_less_than version V1_9 then write_var_int (pp_teleport_id self) else Ok [])) +>
  Ok [].

#[export] Instance CSynchronizePlayerPosition_packet : Packet CSynchronizePlayerPosition := {|
  NAME := "CSynchronizePlayerPosition"; pkt_state := Play; pkt_direction := Clientbound;
  pkt_decode := CSynchronizePlayerPosition_decode;
  pkt_encode := CSynchronizePlayerPosition_encode |}.

Definition pack_block_position (x y z : Z) : Z :=
  Z.lor (Z.lor (wrap_s 64 (Z.shiftl (Z.land x 0x3FFFFFF) 38))
               (wrap_s 64 (Z.shiftl (Z.land z 0x3FFFFFF) 12)))
        (Z.land y 0xFFF).

Record CSetDefaultSpawnPosition := mk_CSetDefaultSpawnPosition {
  sp_dimension_name : rstring;
  sp_location : Z;
  sp_yaw : Z;
  sp_pitch : Z;
}.

Definition spawn_at (x y z yaw : Z) : CSetDefaultSpawnPosition :=
  mk_CSetDefaultSpawnPosition (str "minecraft:overworld") (pack_block_position x y z) yaw 0.
Definition spawn_at_in (dimension : rstring) (x y z yaw : Z) : CSetDefaultSpawnPosition :=
  mk_CSetDefaultSpawnPosition dimension (pack_block_position x y z) yaw 0.

Definition CSetDefaultSpawnPosition_decode (version : ProtocolVersion) :
    reader CSetDefaultSpawnPosition :=
  dimension_name ← (if no_less_than version V1_21_9 then read_string
                    else mret (str "minecraft:overworld"));
  location ← read_i64_be;
  yaw ← read_f32_be;
  pitch ← (if no_less_than version V1_21_9 then read_f32_be else mret 0);
  mret (mk_CSetDefaultSpawnPosition dimension_name location yaw pitch).

Definition CSetDefaultSpawnPosition_encode (self : CSetDefaultSpawnPosition)
    (version : ProtocolVersion) : ProtocolResult bytes :=
  (if no_less_than version V1_21_9 then write_string (sp_dimension_name self) else Ok []) +>
  write_i64_be (sp_location self) +>
  write_f32_be (sp_yaw self) +>
  (if no_less_than version V1_21_9 then write_f32_be (sp_pitch self) else Ok []) +> Ok [].

#[export] Instance CSetDefaultSpawnPosition_packet : Packet CSetDefaultSpawnPosition := {|
  NAME := "CSetDefaultSpawnPosition"; pkt_state := Play; pkt_direction := Clientbound;
  pkt_decode := CSetDefaultSpawnPosition_decode;
  pkt_encode := CSetDefaultSpawnPosition_encode |}.

(** ** Tab completion *)

Record STabCompleteRequest := mk_STabCompleteRequest {
  tcq_transaction_id : Z; tcq_text : rstring }.

Definition STabCompleteRequest_decode (_version : ProtocolVersion) :
    reader STabCompleteRequest :=
  transaction_id ← read_var_int; text ← read_string;
  mret (mk_STabCompleteRequest transaction_id text).
Definition STabCompleteRequest_encode (self : STabCompleteRequest)
    (_version : ProtocolVersion) : ProtocolResult bytes :=
  write_var_int (tcq_transaction_id self) +> write_string (tcq_text self) +> Ok [].

#[export] Instance STabCompleteRequest_packet : Packet STabCompleteRequest := {|
  NAME := "STabCompleteRequest"; pkt_state := Play; pkt_direction := Serverbound;
  pkt_decode := STabCompleteRequest_decode; pkt_encode := STabCompleteRequest_encode |}.

Record TabCompleteMatch := mk_TabCompleteMatch {
  tcm_text : rstring; tcm_tooltip : option rstring }.

Record CTabCompleteResponse := mk_CTabCompleteResponse {
  tcr_transaction_id : Z;
  tcr_start : Z;
  tcr_length : Z;
  tcr_matches : list TabCompleteMatch;
}.

Definition read_match : reader TabCompleteMatch :=
  text ← read_string;
  has_tooltip ← read_u8;
  tooltip ← (if decide (has_tooltip ≠ 0) then s ← read_string; mret (Some s) else mret None);
  mret (mk_TabCompleteMatch text tooltip).

Definition write_match (m : TabCompleteMatch) : ProtocolResult bytes :=
  write_string (tcm_text m) +>
  match tcm_tooltip m with
  | Some tooltip => write_u8 1 +> write_string tooltip
  | None => write_u8 0
  end.

Definition CTabCompleteResponse_decode (_version : ProtocolVersion) :
    reader CTabCompleteResponse :=
  transaction_id ← read_var_int;
  start ← read_var_int;
  length ← read_var_int;
  count ← read_var_int;
  if decide (count < 0) then reader_fail (Invalid "negative match count")
  else
    matches ← read_n (Z.to_nat count) read_match;
    mret (mk_CTabCompleteResponse transaction_id start length matches).

Definition CTabCompleteResponse_encode (self : CTabCompleteResponse)
    (_version : ProtocolVersion) : ProtocolResult bytes :=
  write_var_int (tcr_transaction_id self) +>
  write_var_int (tcr_start self) +>
  write_var_int (tcr_length self) +>
  write_var_int (wrap_s 32 (zlen (tcr_matches self))) +>
  wr_list write_match (tcr_matches self) +> Ok [].

#[export] Instance CTabCompleteResponse_packet : Packet CTabCompleteResponse := {|
  NAME := "CTabCompleteResponse"; pkt_state := Play; pkt_direction := Clientbound;
  pkt_decode := CTabCompleteResponse_decode; pkt_encode := CTabCompleteResponse_encode |}.

(** ** Join game and respawn *)

Definition decode_death_location : reader (option rstring * option Z) :=
  present ← read_bool;
  if present : bool then
    dim ← read_string; pos ← read_i64_be; mret (Some dim, Some pos)
  else mret (None, None).

Definition encode_death_location (death_dimension : option rstring)
    (death_position : option Z) : ProtocolResult bytes :=
  match death_dimension, death_position with
  | Some dim, Some pos => write_bool true +> write_string dim +> write_i64_be pos
  | _, _ => write_bool false
  end.

Definition decode_world_info (version : ProtocolVersion) : reader (Z * Z) :=
  portal_cooldown ← read_var_int;
  sea_level ← (if no_less_than version V1_21_2 then read_var_int else mret 63);
  mret (portal_cooldown, sea_level).

Definition encode_world_info (portal_cooldown sea_level : Z) (version : ProtocolVersion) :
    ProtocolResult bytes :=
  write_var_int portal_cooldown +>
  (if no_less_than version V1_21_2 then write_var_int sea_level else Ok []).

Record CRespawn := mk_CRespawn {
  rs_dimension : Z;
  rs_level_name : rstring;
  rs_hashed_seed : Z;
  rs_gamemode : Z;
  rs_previous_gamemode : Z;
  rs_is_debug : bool;
  rs_is_flat : bool;
  rs_data_to_keep : Z;
  rs_death_dimension : option rstring;
  rs_death_position : option Z;
  rs_portal_cooldown : Z;
  rs_sea_level : Z;
  rs_raw_payload : option bytes;
}.

(** [CRespawn { raw_payload, ..Default::default() }]. *)
Definition CRespawn_default (raw_payload : option bytes) : CRespawn :=
  mk_CRespawn 0 [] 0 0 (-1) false false 0 None None 0 63 raw_payload.

Definition respawn_decode_1_20_2_up (version : ProtocolVersion) : reader CRespawn :=
  dimension ← (if no_less_than version V1_20_5 then read_var_int
               else _dim_key ← read_string; mret 0);
  level_name ← read_string;
  hashed_seed ← read_i64_be;
  gamemode ← read_u8;
  previous_gamemode ← read_i8;
  is_debug ← read_bool;
  is_flat ← read_bool;
  death ← decode_death_location;
  world ← decode_world_info version;
  data_to_keep ← read_u8;
  mret (mk_CRespawn dimension level_name hashed_seed gamemode previous_gamemode is_debug
          is_flat data_to_keep death.1 death.2 world.1 world.2 None).

Definition respawn_encode_1_20_2_up (pkt : CRespawn) (version : ProtocolVersion) :
    ProtocolResult bytes :=
  (if no_less_than version V1_20_5 then write_var_int (rs_dimension pkt)
   else write_string (str "minecraft:overworld")) +>
  write_string (rs_level_name pkt) +>
  write_i64_be (rs_hashed_seed pkt) +>
  write_u8 (rs_gamemode pkt) +>
  write_i8 (rs_previous_gamemode pkt) +>
  write_bool (rs_is_debug pkt) +>
  write_bool (rs_is_flat pkt) +>
  encode_death_location (rs_death_dimension pkt) (rs_death_position pkt) +>
  encode_world_info (rs_portal_cooldown pkt) (rs_sea_level pkt) version +>
  write_u8 (rs_data_to_keep pkt) +> Ok [].

Definition CRespawn_decode (version : ProtocolVersion) : reader CRespawn :=
  if less_than version V1_20_2 then
    raw_payload ← read_remaining; mret (CRespawn_default (Some raw_payload))
  else respawn_decode_1_20_2_up version.

Definition CRespawn_encode (self : CRespawn) (version : ProtocolVersion) :
    ProtocolResult bytes :=
  match rs_raw_payload self with
  | Some raw => write_all raw +> Ok []
  | None => respawn_encode_1_20_2_up self version
  end.

#[export] Instance CRespawn_packet : Packet CRespawn := {|
  NAME := "CRespawn"; pkt_state := Play; pkt_direction := Clientbound;
  pkt_decode := CRespawn_decode; pkt_encode := CRespawn_encode |}.

Record CJoinGame := mk_CJoinGame {
  jg_entity_id : Z;
  jg_is_hardcore : bool;
  jg_gamemode : Z;
  jg_previous_gamemode : Z;
  jg_max_players : Z;
  jg_view_distance : Z;
  jg_simulation_distance : Z;
  jg_reduced_debug_info : bool;
  jg_enable_respawn_screen : bool;
  jg_do_limited_crafting : bool;
  jg_level_names : list rstring;
  jg_level_name : rstring;
  jg_hashed_seed : Z;
  jg_is_debug : bool;
  jg_is_flat : bool;
  jg_dimension : Z;
  jg_portal_cooldown : Z;
  jg_sea_level : Z;
  jg_enforces_secure_chat : bool;
  jg_death_dimension : option rstring;
  jg_death_position : option Z;
  jg_raw_payload : option bytes;
}.

(** [CJoinGame { entity_id, raw_payload, ..Default::default() }]. *)
Definition CJoinGame_default (entity_id : Z) (raw_payload : option bytes) : CJoinGame :=
  mk_CJoinGame entity_id false 0 (-1) 20 10 10 false true false [] [] 0 false false 0 0 63
    false None None raw_payload.

Definition join_decode_1_20_2_up (entity_id : Z) (version : ProtocolVersion) :
    reader CJoinGame :=
  is_hardcore ← read_bool;
  level_count ← read_var_int;
  level_names ← read_n (Z.to_nat (wrap_u 64 level_count)) read_string;
  max_players ← read_var_int;
  view_distance ← read_var_int;
  simulation_distance ← read_var_int;
  reduced_debug_info ← read_bool;
  enable_respawn_screen ← read_bool;
  do_limited_crafting ← read_bool;
  dimension ← (if no_less_than version V1_21_2 then read_var_int
               else _dim_key ← read_string; mret 0);
  level_name ← read_string;
  hashed_seed ← read_i64_be;
  gamemode ← read_u8;
  previous_gamemode ← read_i8;
  is_debug ← read_bool;
  is_flat ← read_bool;
  death ← decode_death_location;
  world ← decode_world_info version;
  enforces_secure_chat ← (if no_less_than version V1_20_5 then read_bool else mret false);
  mret (mk_CJoinGame entity_id is_hardcore gamemode previous_gamemode max_players
          view_distance simulation_distance reduced_debug_info enable_respawn_screen
          do_limited_crafting level_names level_name hashed_seed is_debug is_flat dimension
          world.1 world.2 enforces_secure_chat death.1 death.2 None).

Definition join_encode_1_20_2_up (pkt : CJoinGame) (version : ProtocolVersion) :
    ProtocolResult bytes :=
  write_bool (jg_is_hardcore pkt) +>
  write_var_int (wrap_s 32 (zlen (jg_level_names pkt))) +>
  wr_list write_string (jg_level_names pkt) +>
  write_var_int (jg_max_players pkt) +>
  write_var_int (jg_view_distance pkt) +>
  write_var_int (jg_simulation_distance pkt) +>
  write_bool (jg_reduced_debug_info pkt) +>
  write_bool (jg_enable_respawn_screen pkt) +>
  write_bool (jg_do_limited_crafting pkt) +>
  (if no_less_than version V1_21_2 then write_var_int (jg_dimension pkt)
   else write_string (jg_level_name pkt)) +>
  write_string (jg_level_name pkt) +>
  write_i64_be (jg_hashed_seed pkt) +>
  write_u8 (jg_gamemode pkt) +>
  write_i8 (jg_previous_gamemode pkt) +>
  write_bool (jg_is_debug pkt) +>
  write_bool (jg_is_flat pkt) +>
  encode_death_location (jg_death_dimension pkt) (jg_death_position pkt) +>
  encode_world_info (jg_portal_cooldown pkt) (jg_sea_level pkt) version +>
  (if no_less_than version V1_20_5 then write_bool (jg_enforces_secure_chat pkt)
   else Ok []) +> Ok [].

Definition CJoinGame_decode (version : ProtocolVersion) : reader CJoinGame :=
  entity_id ← read_i32_be;
  if less_than version V1_20_2 then
    raw_payload ← read_remaining; mret (CJoinGame_default entity_id (Some raw_payload))
  else join_decode_1_20_2_up entity_id version.

Definition CJoinGame_encode (self : CJoinGame) (version : ProtocolVersion) :
    ProtocolResult bytes :=
  write_i32_be (jg_entity_id self) +>
  match jg_raw_payload self with
  | Some raw => write_all raw +> Ok []
  | None => join_encode_1_20_2_up self version
  end.

#[export] Instance CJoinGame_packet : Packet CJoinGame := {|
  NAME := "CJoinGame"; pkt_state := Play; pkt_direction := Clientbound;
  pkt_decode := CJoinGame_decode; pkt_encode := CJoinGame_encode |}.

(** ** Round trips *)

#[export, refine] Instance CSetCenterChunk_laws : PacketLaws CSetCenterChunk := {|
  pkt_ok p _ := in_s 32 (cc_chunk_x p) ∧ in_s 32 (cc_chunk_z p); pkt_norm p _ := p; pkt_norm_encode _ _ _ := eq_refl |}.
Proof.
  intros [x z] v (?&?). simpl in *. unfold CSetCenterChunk_decode, CSetCenterChunk_encode.
  fields.
Defined.

#[export, refine] Instance CChunkBatchStart_laws : PacketLaws CChunkBatchStart := {|
  pkt_ok _ _ := True; pkt_norm p _ := p; pkt_norm_encode _ _ _ := eq_refl |}.
Proof. intros [] v _. apply codes_codes_all, codes_ret. Defined.

#[export, refine] Instance CChunkBatchFinished_laws : PacketLaws CChunkBatchFinished := {|
  pkt_ok p _ := in_s 32 (batch_size p); pkt_norm p _ := p; pkt_norm_encode _ _ _ := eq_refl |}.
Proof.
  intros [x] v ?. simpl in *. unfold CChunkBatchFinished_decode, CChunkBatchFinished_encode.
  fields.
Defined.

#[export, refine] Instance CGameEvent_laws : PacketLaws CGameEvent := {|
  pkt_ok p _ := in_u 32 (ge_value p); pkt_norm p _ := p; pkt_norm_encode _ _ _ := eq_refl |}.
Proof.
  intros [e x] v ?. simpl in *. unfold CGameEvent_decode, CGameEvent_encode. fields.
Defined.

(** The bytes of a string of at most [max] characters. *)
Definition is_text_bytes (max : Z) (bs : bytes) : Prop :=
  ∃ s, is_text max s ∧ bs = as_bytes s.

Lemma codes_utf8_string msg bs :
  is_text_bytes 32767 bs → codes (write_utf8_string msg bs) read_string_bytes bs.
Proof.
  intros (s&Hs&->). unfold write_utf8_string. rewrite from_utf8_as_bytes by apply Hs.
  by eapply codes_bind_ret; [apply codes_string|].
Qed.
#[export] Hint Resolve codes_utf8_string : codec.

#[export, refine] Instance CSystemChatMessage_laws : PacketLaws CSystemChatMessage := {|
  pkt_ok p v := less_than v V1_20_3 = true → is_text_bytes 32767 (scm_content p);
  pkt_norm p _ := p; pkt_norm_encode _ _ _ := eq_refl |}.
Proof.
  intros [c o] v Hc. simpl in *.
  unfold CSystemChatMessage_decode, CSystemChatMessage_encode; simpl. branches.
  - specialize (Hc eq_refl). fields.
  - exists (c ++ [if o then 1 else 0]). split; [by destruct o|].
    unfold reads_all. cbv [mbind reader_bind read_remaining read_to_end].
    rewrite decide_False by (by destruct c). rewrite last_snoc, length_app; simpl.
    replace (length c + 1 - 1)%nat with (length c) by lia. rewrite take_app_length.
    by destruct o.
Defined.

#[export, refine] Instance CChatMessageLegacy_laws : PacketLaws CChatMessageLegacy := {|
  pkt_ok p _ := is_text 32767 (cml_content p);
  pkt_norm p v := mk_CChatMessageLegacy (cml_content p)
    (if no_less_than v V1_8 then cml_position p else 0) |}.
Proof.
  2:{ intros [c pos] v _. simpl. unfold CChatMessageLegacy_encode; simpl. by branches. }
  intros [c pos] v ?. simpl in *.
  unfold CChatMessageLegacy_decode, CChatMessageLegacy_encode; simpl. branches; fields.
Defined.

#[export, refine] Instance SChatMessage_laws : PacketLaws SChatMessage := {|
  pkt_ok p _ := is_text 32767 (cm_message p); pkt_norm p _ := p; pkt_norm_encode _ _ _ := eq_refl |}.
Proof.
  intros [m r] v ?. simpl in *. unfold SChatMessage_decode, SChatMessage_encode. fields.
Defined.

#[export, refine] Instance SChatCommand_laws : PacketLaws SChatCommand := {|
  pkt_ok p _ := is_text 32767 (sco_command p); pkt_norm p _ := p; pkt_norm_encode _ _ _ := eq_refl |}.
Proof.
  intros [m r] v ?. simpl in *. unfold SChatCommand_decode, SChatCommand_encode. fields.
Defined.

(** The proxy drops this packet by its id: the type encodes to nothing and its decoder always
    fails, so the codec admits no packet of it and has no round trip to promise. Theorems
    about all packets except it by name. *)
#[export, refine] Instance SChatSessionUpdate_laws : PacketLaws SChatSessionUpdate := {|
  pkt_ok _ _ := False; pkt_norm p _ := p; pkt_norm_encode _ _ _ := eq_refl |}.
Proof. done. Defined.

#[export, refine] Instance CDisconnect_laws : PacketLaws CDisconnect := {|
  pkt_ok p v := less_than v V1_20_3 = true → is_text_bytes 32767 (dc_reason p);
  pkt_norm p _ := p; pkt_norm_encode _ _ _ := eq_refl |}.
Proof.
  intros [c] v Hc. simpl in *. unfold CDisconnect_decode, CDisconnect_encode; simpl.
  branches; try specialize (Hc eq_refl); fields.
Defined.

#[export, refine] Instance CSetTitle_laws : PacketLaws CSetTitle := {|
  pkt_ok p v := less_than v V1_20_3 = true → is_text_bytes 32767 (title_text p);
  pkt_norm p _ := p; pkt_norm_encode _ _ _ := eq_refl |}.
Proof.
  intros [c] v Hc. simpl in *. unfold CSetTitle_decode, CSetTitle_encode; simpl.
  branches; try specialize (Hc eq_refl); fields.
Defined.

#[export, refine] Instance CSetSubtitle_laws : PacketLaws CSetSubtitle := {|
  pkt_ok p v := less_than v V1_20_3 = true → is_text_bytes 32767 (subtitle_text p);
  pkt_norm p _ := p; pkt_norm_encode _ _ _ := eq_refl |}.
Proof.
  intros [c] v Hc. simpl in *. unfold CSetSubtitle_decode, CSetSubtitle_encode; simpl.
  branches; try specialize (Hc eq_refl); fields.
Defined.

#[export, refine] Instance CSetTitleTimes_laws : PacketLaws CSetTitleTimes := {|
  pkt_ok p _ := in_s 32 (tt_fade_in p) ∧ in_s 32 (tt_stay p) ∧ in_s 32 (tt_fade_out p);
  pkt_norm p _ := p; pkt_norm_encode _ _ _ := eq_refl |}.
Proof.
  intros [a b c] v (?&?&?). simpl in *. unfold CSetTitleTimes_decode, CSetTitleTimes_encode.
  fields.
Defined.

#[export, refine] Instance CTitleLegacy_laws : PacketLaws CTitleLegacy := {|
  pkt_ok p _ := match p with
    | SetTitle s | SetSubtitle s => is_text 32767 s
    | SetTimes a b c => in_s 32 a ∧ in_s 32 b ∧ in_s 32 c
    end;
  pkt_norm p _ := p; pkt_norm_encode _ _ _ := eq_refl |}.
Proof.
  intros [s|s|a b c] v Hp; simpl in *; unfold CTitleLegacy_decode, CTitleLegacy_encode; simpl;
    rewrite ?wr_app_assoc.
  - field. simpl. fields.
  - field. simpl. fields.
  - destruct Hp as (?&?&?). eapply codes_all_bind.
    { apply codes_var_int. by destruct (less_than v V1_12). }
    cbn beta. cbv zeta.
    destruct (less_than v V1_12); rewrite !decide_False, decide_True by done; fields.
Defined.

Definition keepalive_ok (id : Z) (v : ProtocolVersion) : Prop :=
  if no_less_than v V1_12_2 then in_s 64 id else in_s 32 id.

Lemma codes_keepalive {P} (mk : Z → P) id v :
  keepalive_ok id v → codes (encode_keepalive_id id v) (KeepAlive_decode mk v) (mk id).
Proof.
  unfold keepalive_ok, encode_keepalive_id, KeepAlive_decode, decode_keepalive_id. intros Hid.
  destruct (no_less_than v V1_12_2); [|rewrite !wrap_s_small by done; destruct (no_less_than v V1_8)];
    eapply codes_bind_ret; eauto with codec nocore; done.
Qed.

#[export, refine] Instance CKeepAlive_laws : PacketLaws CKeepAlive := {|
  pkt_ok p v := keepalive_ok (cka_id p) v; pkt_norm p _ := p; pkt_norm_encode _ _ _ := eq_refl |}.
Proof. intros [id] v ?. by apply codes_codes_all, (codes_keepalive mk_CKeepAlive). Defined.

#[export, refine] Instance SKeepAlive_laws : PacketLaws SKeepAlive := {|
  pkt_ok p v := keepalive_ok (ska_id p) v; pkt_norm p _ := p; pkt_norm_encode _ _ _ := eq_refl |}.
Proof. intros [id] v ?. by apply codes_codes_all, (codes_keepalive mk_SKeepAlive). Defined.

Lemma codes_all_plugin_message {P} (mk : rstring → bytes → P) ch d v :
  is_text 32767 ch →
  codes_all (encode_plugin_message ch d) (PluginMessage_decode mk v) (mk ch d).
Proof.
  intros Hch. unfold encode_plugin_message, PluginMessage_decode, decode_plugin_message.
  destruct (codes_string ch Hch) as (bs&Hw&Hr). exists (bs ++ d).
  rewrite Hw. split; [cbv [wr_app write_all]; by rewrite app_nil_r|].
  unfold reads_all. cbv [mbind reader_bind]. by rewrite Hr.
Qed.

#[export, refine] Instance CPluginMessage_laws : PacketLaws CPluginMessage := {|
  pkt_ok p _ := is_text 32767 (cpm_channel p); pkt_norm p _ := p; pkt_norm_encode _ _ _ := eq_refl |}.
Proof. intros [ch d] v ?. by apply (codes_all_plugin_message mk_CPluginMessage). Defined.

#[export, refine] Instance SPluginMessage_laws : PacketLaws SPluginMessage := {|
  pkt_ok p _ := is_text 32767 (spm_channel p); pkt_norm p _ := p; pkt_norm_encode _ _ _ := eq_refl |}.
Proof. intros [ch d] v ?. by apply (codes_all_plugin_message mk_SPluginMessage). Defined.

#[export, refine] Instance CTransfer_laws : PacketLaws CTransfer := {|
  pkt_ok p _ := is_text 32767 (tr_host p) ∧ in_s 32 (tr_port p); pkt_norm p _ := p; pkt_norm_encode _ _ _ := eq_refl |}.
Proof.
  intros [h p] v (?&?). simpl in *. unfold CTransfer_decode, CTransfer_encode. fields.
Defined.

#[export, refine] Instance CStartConfiguration_laws : PacketLaws CStartConfiguration := {|
  pkt_ok _ _ := True; pkt_norm p _ := p; pkt_norm_encode _ _ _ := eq_refl |}.
Proof. intros [] v _. apply codes_codes_all, codes_ret. Defined.

#[export, refine] Instance SAcknowledgeConfiguration_laws :
  PacketLaws SAcknowledgeConfiguration := {| pkt_ok _ _ := True; pkt_norm p _ := p; pkt_norm_encode _ _ _ := eq_refl |}.
Proof. intros [] v _. apply codes_codes_all, codes_ret. Defined.

(** Before 1.21.2 the deltas are not sent and the flags are a byte. *)
Definition CSynchronizePlayerPosition_norm (p : CSynchronizePlayerPosition)
    (v : ProtocolVersion) : CSynchronizePlayerPosition :=
  if no_less_than v V1_21_2 then p else
  mk_CSynchronizePlayerPosition (pp_x p) (pp_y p) (pp_z p) 0 0 0 (pp_yaw p) (pp_pitch p)
    (wrap_u 8 (pp_flags p)) (if no_less_than v V1_9 then pp_teleport_id p else 0).

#[export, refine] Instance CSynchronizePlayerPosition_laws :
    PacketLaws CSynchronizePlayerPosition := {|
  pkt_ok p _ := (in_u 64 (pp_x p) ∧ in_u 64 (pp_y p) ∧ in_u 64 (pp_z p)) ∧
    (in_u 64 (pp_delta_x p) ∧ in_u 64 (pp_delta_y p) ∧ in_u 64 (pp_delta_z p)) ∧
    in_u 32 (pp_yaw p) ∧ in_u 32 (pp_pitch p) ∧ in_s 32 (pp_flags p) ∧
    in_s 32 (pp_teleport_id p);
  pkt_norm := CSynchronizePlayerPosition_norm |}.
Proof.
  2:{ intros [] v _. simpl. unfold CSynchronizePlayerPosition_encode,
        CSynchronizePlayerPosition_norm; simpl.
      branches; simpl; try done; unfold wrap_u; by rewrite Z.mod_mod. }
  intros [] v ((?&?&?)&(?&?&?)&?&?&?&?); simpl in *.
  unfold CSynchronizePlayerPosition_decode, CSynchronizePlayerPosition_encode,
    CSynchronizePlayerPosition_norm; simpl.
  branches; fields.
Defined.

#[export, refine] Instance CSetDefaultSpawnPosition_laws :
    PacketLaws CSetDefaultSpawnPosition := {|
  pkt_ok p _ := is_text 32767 (sp_dimension_name p) ∧ in_s 64 (sp_location p) ∧
    in_u 32 (sp_yaw p) ∧ in_u 32 (sp_pitch p);
  pkt_norm p v := if no_less_than v V1_21_9 then p else
    mk_CSetDefaultSpawnPosition (str "minecraft:overworld") (sp_location p) (sp_yaw p) 0 |}.
Proof.
  2:{ intros [] v _. simpl. unfold CSetDefaultSpawnPosition_encode; simpl. by branches. }
  intros [] v (?&?&?&?); simpl in *.
  unfold CSetDefaultSpawnPosition_decode, CSetDefaultSpawnPosition_encode; simpl.
  branches; fields.
Defined.

#[export, refine] Instance STabCompleteRequest_laws : PacketLaws STabCompleteRequest := {|
  pkt_ok p _ := in_s 32 (tcq_transaction_id p) ∧ is_text 32767 (tcq_text p);
  pkt_norm p _ := p; pkt_norm_encode _ _ _ := eq_refl |}.
Proof.
  intros [] v (?&?); simpl in *.
  unfold STabCompleteRequest_decode, STabCompleteRequest_encode. fields.
Defined.

Definition match_ok (m : TabCompleteMatch) : Prop :=
  is_text 32767 (tcm_text m) ∧ from_option (is_text 32767) True (tcm_tooltip m).

Lemma codes_match m : match_ok m → codes (write_match m) read_match m.
Proof.
  destruct m as [t [tip|]]; intros (?&?); simpl in *; unfold write_match, read_match; simpl.
  - field. field. rewrite decide_True by done.
    by eapply codes_bind_ret; [apply codes_some, codes_string|].
  - field. by eapply codes_bind_ret; [apply codes_u8|].
Qed.

#[export, refine] Instance CTabCompleteResponse_laws : PacketLaws CTabCompleteResponse := {|
  pkt_ok p _ := in_s 32 (tcr_transaction_id p) ∧ in_s 32 (tcr_start p) ∧
    in_s 32 (tcr_length p) ∧ zlen (tcr_matches p) < 2 ^ 31 ∧ Forall match_ok (tcr_matches p);
  pkt_norm p _ := p; pkt_norm_encode _ _ _ := eq_refl |}.
Proof.
  intros [id st len ms] v (?&?&?&?&Hm); simpl in *. pose proof (zlen_nonneg ms).
  unfold CTabCompleteResponse_decode, CTabCompleteResponse_encode; simpl.
  do 4 field. rewrite decide_False by lia. eapply codes_all_bind; [|apply codes_codes_all, codes_ret].
  apply codes_list; [unfold zlen; by rewrite Nat2Z.id|].
  eapply Forall_impl; [done|]. apply codes_match.
Defined.

(** A death location is sent when both of its halves are known. *)
Definition death_norm (dim : option rstring) (pos : option Z) : option rstring * option Z :=
  match dim, pos with Some d, Some p => (Some d, Some p) | _, _ => (None, None) end.

Definition death_ok (dim : option rstring) (pos : option Z) : Prop :=
  from_option (is_text 32767) True dim ∧ from_option (in_s 64) True pos.

Lemma codes_death_location dim pos : death_ok dim pos →
  codes (encode_death_location dim pos) decode_death_location (death_norm dim pos).
Proof.
  intros [Hd Hp]. unfold encode_death_location, decode_death_location.
  destruct dim, pos; simpl in *; try (by eapply codes_bind_ret; [apply codes_bool|]).
  do 2 field. by eapply codes_bind_ret; [apply codes_i64|].
Qed.

Lemma death_norm_encode dim pos :
  encode_death_location (death_norm dim pos).1 (death_norm dim pos).2 =
  encode_death_location dim pos.
Proof. by destruct dim, pos. Qed.

Lemma world_norm_encode cooldown sea v :
  encode_world_info cooldown (if no_less_than v V1_21_2 then sea else 63) v =
  encode_world_info cooldown sea v.
Proof. unfold encode_world_info. by destruct (no_less_than v V1_21_2). Qed.

Lemma codes_world_info cooldown sea v : in_s 32 cooldown → in_s 32 sea →
  codes (encode_world_info cooldown sea v) (decode_world_info v)
    (cooldown, if no_less_than v V1_21_2 then sea else 63).
Proof.
  intros. unfold encode_world_info, decode_world_info.
  field. destruct (no_less_than v V1_21_2); [|apply codes_ret].
  by eapply codes_bind_ret; [apply codes_var_int|].
Qed.

(** A dimension that is a [VarInt] or, in older versions, an identifier the
    decoder drops. *)
Lemma codes_dimension (c : bool) dim name : in_s 32 dim → is_text 32767 name →
  codes (if c then write_var_int dim else write_string name)
    (if c then read_var_int else _dim_key ← read_string; mret 0) (if c then dim else 0).
Proof.
  intros. destruct c; [by apply codes_var_int|]. by eapply codes_bind_ret; [apply codes_string|].
Qed.
#[export] Hint Resolve codes_death_location codes_world_info codes_dimension : codec.

Lemma overworld_text : is_text 32767 (str "minecraft:overworld").
Proof. apply (bool_decide_unpack _). by vm_compute. Qed.
#[export] Hint Resolve overworld_text : codec.

Definition CRespawn_norm (p : CRespawn) (v : ProtocolVersion) : CRespawn :=
  match rs_raw_payload p with
  | Some raw => CRespawn_default (Some raw)
  | None =>
    let death := death_norm (rs_death_dimension p) (rs_death_position p) in
    mk_CRespawn (if no_less_than v V1_20_5 then rs_dimension p else 0) (rs_level_name p)
      (rs_hashed_seed p) (rs_gamemode p) (rs_previous_gamemode p) (rs_is_debug p)
      (rs_is_flat p) (rs_data_to_keep p) death.1 death.2 (rs_portal_cooldown p)
      (if no_less_than v V1_21_2 then rs_sea_level p else 63) None
  end.

(** A raw payload is meant for the versions before 1.20.2, the fields for the others. *)
Definition CRespawn_ok (p : CRespawn) (v : ProtocolVersion) : Prop :=
  match rs_raw_payload p with
  | Some _ => less_than v V1_20_2 = true
  | None => less_than v V1_20_2 = false ∧
      in_s 32 (rs_dimension p) ∧ is_text 32767 (rs_level_name p) ∧
      in_s 64 (rs_hashed_seed p) ∧ in_s 8 (rs_previous_gamemode p) ∧
      death_ok (rs_death_dimension p) (rs_death_position p) ∧
      in_s 32 (rs_portal_cooldown p) ∧ in_s 32 (rs_sea_level p)
  end.

#[export, refine] Instance CRespawn_laws : PacketLaws CRespawn := {|
  pkt_ok := CRespawn_ok; pkt_norm := CRespawn_norm |}.
Proof.
  2:{ intros p v _. simpl. unfold CRespawn_encode, CRespawn_norm.
      destruct (rs_raw_payload p); [done|]. simpl. unfold respawn_encode_1_20_2_up; simpl.
      rewrite death_norm_encode, world_norm_encode. by branches. }
  intros p v Hp; unfold CRespawn_ok in Hp; simpl.
  unfold CRespawn_decode, CRespawn_encode, CRespawn_norm.
  destruct (rs_raw_payload p) as [raw|] eqn:Hraw.
  { rewrite Hp. fields. }
  destruct Hp as (->&?&?&?&?&?&?&?).
  unfold respawn_decode_1_20_2_up, respawn_encode_1_20_2_up. fields.
Defined.

Definition CJoinGame_norm (p : CJoinGame) (v : ProtocolVersion) : CJoinGame :=
  match jg_raw_payload p with
  | Some raw => CJoinGame_default (jg_entity_id p) (Some raw)
  | None =>
    let death := death_norm (jg_death_dimension p) (jg_death_position p) in
    mk_CJoinGame (jg_entity_id p) (jg_is_hardcore p) (jg_gamemode p) (jg_previous_gamemode p)
      (jg_max_players p) (jg_view_distance p) (jg_simulation_distance p)
      (jg_reduced_debug_info p) (jg_enable_respawn_screen p) (jg_do_limited_crafting p)
      (jg_level_names p) (jg_level_name p) (jg_hashed_seed p) (jg_is_debug p) (jg_is_flat p)
      (if no_less_than v V1_21_2 then jg_dimension p else 0) (jg_portal_cooldown p)
      (if no_less_than v V1_21_2 then jg_sea_level p else 63)
      (if no_less_than v V1_20_5 then jg_enforces_secure_chat p else false)
      death.1 death.2 None
  end.

Definition CJoinGame_ok (p : CJoinGame) (v : ProtocolVersion) : Prop :=
  in_s 32 (jg_entity_id p) ∧
  match jg_raw_payload p with
  | Some _ => less_than v V1_20_2 = true
  | None => less_than v V1_20_2 = false ∧ in_s 8 (jg_previous_gamemode p) ∧
      (in_s 32 (jg_max_players p) ∧ in_s 32 (jg_view_distance p) ∧
       in_s 32 (jg_simulation_distance p)) ∧
      (zlen (jg_level_names p) < 2 ^ 31 ∧ Forall (is_text 32767) (jg_level_names p)) ∧
      is_text 32767 (jg_level_name p) ∧ in_s 64 (jg_hashed_seed p) ∧
      in_s 32 (jg_dimension p) ∧ death_ok (jg_death_dimension p) (jg_death_position p) ∧
      in_s 32 (jg_portal_cooldown p) ∧ in_s 32 (jg_sea_level p)
  end.

#[export, refine] Instance CJoinGame_laws : PacketLaws CJoinGame := {|
  pkt_ok := CJoinGame_ok; pkt_norm := CJoinGame_norm |}.
Proof.
  2:{ intros p v _. simpl. unfold CJoinGame_encode, CJoinGame_norm.
      destruct (jg_raw_payload p); [done|]. simpl. unfold join_encode_1_20_2_up; simpl.
      rewrite death_norm_encode, world_norm_encode. by branches. }
  intros p v [Hid Hp]; simpl.
  unfold CJoinGame_decode, CJoinGame_encode, CJoinGame_norm.
  destruct (jg_raw_payload p) as [raw|] eqn:Hraw; field.
  { rewrite Hp. fields. }
  destruct Hp as (->&?&(?&?&?)&(?&Hn)&?&?&?&?&?&?).
  unfold join_decode_1_20_2_up, join_encode_1_20_2_up.
  do 2 field. eapply codes_all_bind.
  { apply codes_list; [by rewrite <- count_nat|]. by eapply Forall_impl; [|apply codes_string]. }
  cbn beta. do 15 field.
  destruct (no_less_than v V1_20_5); [|rewrite wr_app_nil_l]; fields.
Defined.

(** ** Packed positions *)

Lemma wrap_s_shift w z : 0 < w → ∃ k, wrap_s w z = z + k * 2 ^ w.
Proof.
  intros Hw. pose proof (pow2_pos w ltac:(lia)). unfold wrap_s.
  rewrite Z.mod_eq by lia. exists (- ((z + 2 ^ (w - 1)) / 2 ^ w)). lia.
Qed.

(** The fields of a sum of disjoint bit ranges survive the cast to [i64]. *)
Lemma pack_fields a b c k :
  0 ≤ a < 2 ^ 26 → 0 ≤ b < 2 ^ 26 → 0 ≤ c < 2 ^ 12 →
  let p := a * 2 ^ 38 + b * 2 ^ 12 + c + k * 2 ^ 64 in
  Z.shiftr p 38 mod 2 ^ 26 = a ∧ Z.shiftr p 12 mod 2 ^ 26 = b ∧ p mod 2 ^ 12 = c.
Proof.
  intros Ha Hb Hc p. rewrite !Z.shiftr_div_pow2 by lia.
  assert (H1 : p / 2 ^ 38 = a + k * 2 ^ 26).
  { symmetry. apply (Z.div_unique _ _ _ (b * 2 ^ 12 + c)); unfold p; lia. }
  assert (H2 : p / 2 ^ 12 = b + (a + k * 2 ^ 26) * 2 ^ 26).
  { symmetry. apply (Z.div_unique _ _ _ c); unfold p; lia. }
  rewrite H1, H2, !Z_mod_plus_full, !Z.mod_small by lia. split; [done|]. split; [done|].
  replace p with (c + (a * 2 ^ 26 + b + k * 2 ^ 52) * 2 ^ 12) by (unfold p; lia).
  by rewrite Z_mod_plus_full, Z.mod_small.
Qed.

Lemma pack_block_position_sum x y z :
  ∃ k, pack_block_position x y z =
    (x mod 2 ^ 26) * 2 ^ 38 + (z mod 2 ^ 26) * 2 ^ 12 + y mod 2 ^ 12 + k * 2 ^ 64.
Proof.
  unfold pack_block_position. change 0x3FFFFFF with (2 ^ 26 - 1). change 0xFFF with (2 ^ 12 - 1).
  rewrite !land_ones_mod by lia.
  assert (Hx := Z.mod_pos_bound x (2 ^ 26) ltac:(lia)).
  assert (Hz := Z.mod_pos_bound z (2 ^ 26) ltac:(lia)).
  assert (Hy := Z.mod_pos_bound y (2 ^ 12) ltac:(lia)).
  rewrite <- (wrap_s_small 64 ltac:(lia) (y mod 2 ^ 12)) by (unfold in_s; lia).
  rewrite <- !wrap_s_lor by lia. rewrite <- Z.lor_assoc, Z.lor_comm.
  rewrite (Z.lor_comm _ (y mod 2 ^ 12)), !Z.shiftl_mul_pow2 by lia.
  rewrite <- (Z.shiftl_mul_pow2 (z mod 2 ^ 26)), lor_disjoint_add by lia.
  rewrite <- (Z.shiftl_mul_pow2 (x mod 2 ^ 26)), lor_disjoint_add by lia.
  rewrite !Z.shiftl_mul_pow2, (wrap_s_small 64 ltac:(lia) (y mod 2 ^ 12))
    by (unfold in_s; lia).
  destruct (wrap_s_shift 64 (y mod 2 ^ 12 + z mod 2 ^ 26 * 2 ^ 12 + x mod 2 ^ 26 * 2 ^ 38))
    as [k ->]; [lia|]. exists k. lia.
Qed.

(** ** Theorems *)

(** A packed block position holds its three coordinates.  For coordinates in the
    26, 12 and 26 bits the format gives them, the value is a signed 64-bit integer
    from which sign-extending the top 26 bits gives X, the next 26 Z, and the low 12
    Y, negative coordinates included. *)
Theorem pack_block_position_fields (x y z : Z) :
  in_s 26 x → in_s 12 y → in_s 26 z →
  let p := pack_block_position x y z in
  in_s 64 p ∧ wrap_s 26 (Z.shiftr p 38) = x ∧ wrap_s 12 p = y ∧
  wrap_s 26 (Z.shiftr p 12) = z.
Proof.
  intros Hx Hy Hz p. split.
  { unfold p, pack_block_position. rewrite <- (wrap_s_small 64 ltac:(lia) (Z.land y 0xFFF)).
    - rewrite <- !wrap_s_lor by lia. by apply wrap_s_range.
    - change 0xFFF with (2 ^ 12 - 1). rewrite land_ones_mod by lia.
      pose proof (Z.mod_pos_bound y (2 ^ 12) ltac:(lia)). unfold in_s. lia. }
  destruct (pack_block_position_sum x y z) as [k Hp]. fold p in Hp.
  destruct (pack_fields (x mod 2 ^ 26) (z mod 2 ^ 26) (y mod 2 ^ 12) k) as (H1&H2&H3);
    [by apply Z.mod_pos_bound..|].
  rewrite <- Hp in H1, H2, H3.
  rewrite <- (wrap_s_wrap_u 26 ltac:(lia) (Z.shiftr p 38)), <- (wrap_s_wrap_u 12 ltac:(lia) p),
    <- (wrap_s_wrap_u 26 ltac:(lia) (Z.shiftr p 12)).
  unfold wrap_u. rewrite H1, H2, H3. split; [|split]; by apply wrap_s_of_u.
Qed.

Lemma pack_block_position_fields_witness :
  in_s 26 (-100) ∧ in_s 12 (-64) ∧ in_s 26 33554431 ∧
  let p := pack_block_position (-100) (-64) 33554431 in
  in_s 64 p ∧ wrap_s 26 (Z.shiftr p 38) = -100 ∧ wrap_s 12 p = -64 ∧
  wrap_s 26 (Z.shiftr p 12) = 33554431.
Proof.
  split; [by vm_compute|]. split; [by vm_compute|]. split; [by vm_compute|].
  exact (pack_block_position_fields (-100) (-64) 33554431 ltac:(by vm_compute)
    ltac:(by vm_compute) ltac:(by vm_compute)).
Defined.
