(* ===== verification/Nbt.v ===== *)
(** * Nbt: skipping NBT, and the dimension of a joined world

    Models [nbt.rs], [packets/play/dimension.rs] and [packets/play/respawn_switch.rs]: the
    proxy skips the NBT of a join packet to learn the dimension of the world, and builds
    from it the respawn packet of a server switch.

    The skipper recurses on what it reads; it is modelled with fuel, which counts nested
    calls, and runs with three units per byte of input and three more, which is enough
    whatever the input is ([skip_fuel]).  [Nbt] is the data model of NBT, with the format
    of its payloads: the reference the skipper is measured against.  Lengths are those of
    a 64-bit machine, where the [checked_mul] of the array arms cannot fail. *)
From S2P Require Import Prelude Wire Utf8 VarInt Codec Version Packet PlayPackets.

(** ** The skipper *)

Definition TAG_END : Z := 0.
Definition TAG_BYTE : Z := 1.
Definition TAG_SHORT : Z := 2.
Definition TAG_INT : Z := 3.
Definition TAG_LONG : Z := 4.
Definition TAG_FLOAT : Z := 5.
Definition TAG_DOUBLE : Z := 6.
Definition TAG_BYTE_ARRAY : Z := 7.
Definition TAG_STRING : Z := 8.
Definition TAG_LIST : Z := 9.
Definition TAG_COMPOUND : Z := 10.
Definition TAG_INT_ARRAY : Z := 11.
Definition TAG_LONG_ARRAY : Z := 12.

Definition MAX_DEPTH : Z := 512.

Definition skip_bytes (n : Z) : reader () := λ r,
  if decide (zlen r < n) then Err (Incomplete "NBT skip") else Ok ((), drop (Z.to_nat n) r).

Definition skip_nbt_string : reader () := len ← read_u16_be; skip_bytes len.

(** An array of elements of [size] bytes, whose negative count is [error]. *)
Definition skip_array (size : Z) (error : string) : reader () :=
  raw_len ← read_i32_be;
  if decide (raw_len < 0) then reader_fail (Invalid error) else skip_bytes (raw_len * size).

Definition depth_exceeded : ProtocolError := Invalid "NBT nesting depth exceeded".
Definition out_of_fuel : ProtocolError := Invalid "out of fuel".

(** [skip_elements] is the loop of the list arm. *)
Fixpoint skip_tag_payload (fuel : nat) (tag_type depth : Z) {struct fuel} : reader () :=
  match fuel with
  | O => reader_fail out_of_fuel
  | S fuel =>
    if decide (MAX_DEPTH < depth) then reader_fail depth_exceeded
    else if decide (tag_type = TAG_BYTE) then skip_bytes 1
    else if decide (tag_type = TAG_SHORT) then skip_bytes 2
    else if decide (tag_type = TAG_INT ∨ tag_type = TAG_FLOAT) then skip_bytes 4
    else if decide (tag_type = TAG_LONG ∨ tag_type = TAG_DOUBLE) then skip_bytes 8
    else if decide (tag_type = TAG_BYTE_ARRAY) then skip_array 1 "negative NBT byte array length"
    else if decide (tag_type = TAG_STRING) then skip_nbt_string
    else if decide (tag_type = TAG_LIST) then
      element_type ← read_u8;
      count ← read_i32_be;
      if decide (count ≤ 0) then mret () else skip_elements fuel count element_type (depth + 1)
    else if decide (tag_type = TAG_COMPOUND) then skip_compound_payload fuel (depth + 1)
    else if decide (tag_type = TAG_INT_ARRAY) then skip_array 4 "negative NBT int array count"
    else if decide (tag_type = TAG_LONG_ARRAY) then skip_array 8 "negative NBT long array count"
    else reader_fail (Invalid ("unknown NBT tag type: " +:+ pretty tag_type))
  end
with skip_elements (fuel : nat) (count element_type depth : Z) {struct fuel} : reader () :=
  match fuel with
  | O => reader_fail out_of_fuel
  | S fuel =>
    if decide (count ≤ 0) then mret ()
    else _ ← skip_tag_payload fuel element_type depth;
         skip_elements fuel (count - 1) element_type depth
  end
with skip_compound_payload (fuel : nat) (depth : Z) {struct fuel} : reader () :=
  match fuel with
  | O => reader_fail out_of_fuel
  | S fuel =>
    if decide (MAX_DEPTH < depth) then reader_fail depth_exceeded
    else
      child_type ← read_u8;
      if decide (child_type = TAG_END) then mret ()
      else _ ← skip_nbt_string;
           _ ← skip_tag_payload fuel child_type depth;
           skip_compound_payload fuel depth
  end.

Definition skip_fuel_for (r : bytes) : nat := (3 * length r + 3)%nat.

Definition skip_root_payload : reader () := λ r, skip_compound_payload (skip_fuel_for r) 0 r.

Definition skip_nbt_compound : reader () :=
  tag_type ← read_u8;
  if decide (tag_type = TAG_COMPOUND) then
    _ ← skip_nbt_string; skip_root_payload
  else reader_fail (Invalid ("expected NBT Compound (0x0A), got 0x" +:+ hex02 tag_type)).

(** ** The dimension of a join packet *)

Inductive DimensionInfo := DLegacy (id : Z) | DNamed (name : rstring).
#[export] Instance DimensionInfo_eq_dec : EqDecision DimensionInfo.
Proof. solve_decision. Defined.

(** [for _ in 0..n] over a reader; none for a negative [n]. *)
Definition skip_strings (n : Z) : reader () := _ ← read_n (Z.to_nat n) read_string; mret ().

(** Since 1.16. *)
Definition extract_named_dimension (version : ProtocolVersion) : reader DimensionInfo :=
  _is_hardcore ← read_bool;
  _gamemode ← read_u8;
  _previous_gamemode ← read_i8;
  world_count ← read_var_int;
  _ ← skip_strings world_count;
  _ ← skip_nbt_compound;
  _ ← (if less_than version V1_16_2 then skip_nbt_compound
       else _dimension_type ← read_string; mret ());
  dimension_name ← read_string;
  mret (DNamed dimension_name).

Definition extract_dimension_from_join_game (version : ProtocolVersion) : reader DimensionInfo :=
  if no_less_than version V1_20_2 then mret (DNamed (str "minecraft:overworld"))
  else if less_than version V1_16 then
    _gamemode ← read_u8; dimension ← read_i32_be; mret (DLegacy dimension)
  else extract_named_dimension version.

(** ** The respawn packet of a switch *)

Definition dimension_as_i32 (dim : DimensionInfo) : Z :=
  match dim with
  | DLegacy id => id
  | DNamed name =>
    if decide (name = str "minecraft:the_nether") then -1
    else if decide (name = str "minecraft:the_end") then 1 else 0
  end.

Definition dimension_as_name (dim : DimensionInfo) : rstring :=
  match dim with
  | DNamed name => name
  | DLegacy id =>
    str (if decide (id = -1) then "minecraft:the_nether"
         else if decide (id = 1) then "minecraft:the_end" else "minecraft:overworld")
  end.

Definition write_minimal_dimension_nbt : ProtocolResult bytes := Ok (0x0A :: to_be_bytes 2 0 ++ [0x00]).

(** The fields from the seed to [is_flat], which the versions since 1.16 share. *)
Definition write_switch_fields : ProtocolResult bytes :=
  write_i64_be 0 +> write_u8 0 +> write_i8 (-1) +> write_bool false +> write_bool false.

Definition encode_switch_respawn (dimension : DimensionInfo) (version : ProtocolVersion)
    : ProtocolResult bytes :=
  let dim_id := dimension_as_i32 dimension in
  let dim_name := dimension_as_name dimension in
  if decide (version < 477) then
    write_i32_be dim_id +> write_u8 2 +> write_u8 0 +> write_string (str "default")
  else if decide (version < 573) then
    write_i32_be dim_id +> write_u8 0 +> write_string (str "default")
  else if decide (version < 735) then
    write_i32_be dim_id +> write_i64_be 0 +> write_u8 0 +> write_string (str "default")
  else if decide (version < 751) then
    write_minimal_dimension_nbt +> write_string dim_name +> write_switch_fields +> write_bool true
  else if decide (version < 759) then
    write_string dim_name +> write_string dim_name +> write_switch_fields +> write_bool true
  else if decide (version < 761) then
    write_string dim_name +> write_string dim_name +> write_switch_fields +> write_bool true +>
    write_bool false
  else if decide (version < 762) then
    write_string dim_name +> write_string dim_name +> write_switch_fields +> write_u8 0x01 +>
    write_bool false
  else
    write_string dim_name +> write_string dim_name +> write_switch_fields +> write_u8 0x01 +>
    write_bool false +> write_var_int 0.

(** [None] is the panic of the [expect]. *)
Definition for_switch (dimension : DimensionInfo) (version : ProtocolVersion) : option CRespawn :=
  if no_less_than version V1_20_2 then
    let '(dim_id, level_name) :=
      match dimension with
      | DLegacy id => (id, str "minecraft:overworld")
      | DNamed name => (0, name)
      end in
    Some (mk_CRespawn dim_id level_name 0 0 (-1) false false 0x01 None None 0 63 None)
  else
    match encode_switch_respawn dimension version with
    | Ok raw => Some (CRespawn_default (Some raw))
    | Err _ => None
    end.

(** ** NBT *)

(** Numbers are given by their bits, byte arrays and strings by their bytes. *)
Inductive Nbt :=
| NByte (v : Z)
| NShort (v : Z)
| NInt (v : Z)
| NLong (v : Z)
| NFloat (v : Z)
| NDouble (v : Z)
| NByteArray (data : bytes)
| NString (data : bytes)
| NList (element_type : Z) (elements : list Nbt)
| NCompound (fields : list (bytes * Nbt))
| NIntArray (data : list Z)
| NLongArray (data : list Z).

Definition nbt_tag (t : Nbt) : Z :=
  match t with
  | NByte _ => TAG_BYTE | NShort _ => TAG_SHORT | NInt _ => TAG_INT | NLong _ => TAG_LONG
  | NFloat _ => TAG_FLOAT | NDouble _ => TAG_DOUBLE | NByteArray _ => TAG_BYTE_ARRAY
  | NString _ => TAG_STRING | NList _ _ => TAG_LIST | NCompound _ => TAG_COMPOUND
  | NIntArray _ => TAG_INT_ARRAY | NLongArray _ => TAG_LONG_ARRAY
  end.

Definition nbt_text (data : bytes) : bytes := to_be_bytes 2 (zlen data) ++ data.

Fixpoint nbt_payload (t : Nbt) : bytes :=
  match t with
  | NByte v => to_be_bytes 1 v
  | NShort v => to_be_bytes 2 v
  | NInt v | NFloat v => to_be_bytes 4 v
  | NLong v | NDouble v => to_be_bytes 8 v
  | NByteArray data => to_be_bytes 4 (zlen data) ++ data
  | NString data => nbt_text data
  | NList ty l => ty :: to_be_bytes 4 (zlen l) ++ concat (map nbt_payload l)
  | NCompound fs =>
    concat (map (λ f, nbt_tag f.2 :: nbt_text f.1 ++ nbt_payload f.2) fs) ++ [TAG_END]
  | NIntArray l => to_be_bytes 4 (zlen l) ++ concat (map (to_be_bytes 4) l)
  | NLongArray l => to_be_bytes 4 (zlen l) ++ concat (map (to_be_bytes 8) l)
  end.

(** The fields of a compound, without its end. *)
Abbreviation nbt_field f := (nbt_tag f.2 :: nbt_text f.1 ++ nbt_payload f.2).

(** A tree that fits the format, nested at most [MAX_DEPTH] deep below [depth]. *)
Fixpoint nbt_ok (depth : Z) (t : Nbt) : bool :=
  bool_decide (depth ≤ MAX_DEPTH) &&
  match t with
  | NByteArray data => bool_decide (zlen data < 2 ^ 31)
  | NString data => bool_decide (zlen data < 2 ^ 16)
  | NList ty l =>
    bool_decide (zlen l < 2 ^ 31) &&
    forallb (λ x, bool_decide (nbt_tag x = ty) && nbt_ok (depth + 1) x) l
  | NCompound fs =>
    bool_decide (depth + 1 ≤ MAX_DEPTH) &&
    forallb (λ f, bool_decide (zlen f.1 < 2 ^ 16) && nbt_ok (depth + 1) f.2) fs
  | NIntArray l | NLongArray l => bool_decide (zlen l < 2 ^ 31)
  | _ => true
  end.

(** Induction that reaches the elements. *)
Section nbt_ind.
Context (P : Nbt → Prop).
Context (Hleaf : ∀ t, match t with NList _ _ | NCompound _ => True | _ => P t end).
Context (Hlist : ∀ ty l, Forall P l → P (NList ty l)).
Context (Hcompound : ∀ fs, Forall (λ f, P f.2) fs → P (NCompound fs)).

Fixpoint nbt_nested_ind (t : Nbt) : P t :=
  match t with
  | NList ty l =>
    Hlist ty l ((fix go l := match l return Forall P l with
                             | [] => Forall_nil_2 P
                             | x :: l => Forall_cons_2 P x l (nbt_nested_ind x) (go l)
                             end) l)
  | NCompound fs =>
    Hcompound fs ((fix go fs := match fs return Forall (λ f, P f.2) fs with
                                | [] => Forall_nil_2 _
                                | f :: fs => Forall_cons_2 (λ f, P f.2) f fs (nbt_nested_ind f.2) (go fs)
                                end) fs)
  | t => Hleaf t
  end.
End nbt_ind.

(** ** The skipper takes exactly one payload *)

Lemma skip_bytes_reads n data : n = zlen data → reads (skip_bytes n) data ().
Proof.
  intros -> rest. unfold skip_bytes. rewrite decide_False, drop_zlen_app; [done|].
  rewrite zlen_app. pose proof (zlen_nonneg rest). lia.
Qed.

Lemma skip_nbt_string_reads data : zlen data < 2 ^ 16 → reads skip_nbt_string (nbt_text data) ().
Proof.
  intros Hd. eapply reads_bind; [apply read_u16_be_reads|by apply skip_bytes_reads].
  split; [apply zlen_nonneg|done].
Qed.

Lemma skip_array_reads size error n data :
  0 ≤ n < 2 ^ 31 → zlen data = n * size → reads (skip_array size error) (to_be_bytes 4 n ++ data) ().
Proof.
  intros Hn Hd. eapply reads_bind; [apply read_i32_be_reads; unfold in_s; lia|].
  rewrite decide_False by lia. by apply skip_bytes_reads.
Qed.

Lemma zlen_concat_be (n : nat) (l : list Z) :
  zlen (concat (map (to_be_bytes n) l)) = zlen l * Z.of_nat n.
Proof.
  induction l as [|x l IH]; [done|]. cbn [map concat]. rewrite zlen_app, IH, zlen_cons, zlen_to_be_bytes. lia.
Qed.

(** The arms of [skip_tag_payload] that recurse. *)
Lemma skip_list_arm fuel depth :
  depth ≤ MAX_DEPTH →
  skip_tag_payload (S fuel) TAG_LIST depth =
  (element_type ← read_u8; count ← read_i32_be;
   if decide (count ≤ 0) then mret () else skip_elements fuel count element_type (depth + 1)).
Proof. intros. cbn [skip_tag_payload]. by rewrite decide_False by lia. Qed.
Lemma skip_compound_arm fuel depth :
  depth ≤ MAX_DEPTH →
  skip_tag_payload (S fuel) TAG_COMPOUND depth = skip_compound_payload fuel (depth + 1).
Proof. intros. cbn [skip_tag_payload]. by rewrite decide_False by lia. Qed.

Lemma nbt_payload_nonempty t : (1 ≤ length (nbt_payload t))%nat.
Proof.
  destruct t; cbn [nbt_payload]; unfold nbt_text; rewrite ?length_app, ?length_cons, ?length_to_be_bytes;
    cbn [length]; lia.
Qed.

(** What is shown of every tree. *)
Definition skips (t : Nbt) : Prop :=
  ∀ depth fuel, nbt_ok depth t → (3 * length (nbt_payload t) + 2 ≤ fuel)%nat →
    reads (skip_tag_payload fuel (nbt_tag t) depth) (nbt_payload t) ().

Lemma skip_elements_reads (l : list Nbt) ty depth fuel :
  Forall skips l → forallb (λ x, bool_decide (nbt_tag x = ty) && nbt_ok depth x) l = true →
  (3 * length (concat (map nbt_payload l)) + 3 ≤ fuel)%nat →
  reads (skip_elements fuel (zlen l) ty depth) (concat (map nbt_payload l)) ().
Proof.
  intros Hs. revert fuel. induction Hs as [|x l Hx _ IH]; intros fuel Hok Hf;
    (destruct fuel as [|fuel]; [lia|]); cbn [skip_elements].
  { rewrite decide_True by done. apply reads_ret. }
  cbn [forallb map concat] in *. apply andb_true_iff in Hok as [[Hty Hxok]%andb_true_iff Hok].
  apply bool_decide_eq_true in Hty as <-. rewrite zlen_cons.
  rewrite decide_False by (pose proof (zlen_nonneg l); lia).
  rewrite length_app in Hf. pose proof (nbt_payload_nonempty x).
  eapply reads_bind; [apply Hx; [by rewrite Hxok|lia]|].
  replace (1 + zlen l - 1) with (zlen l) by lia. apply IH; [done|lia].
Qed.

Lemma skip_compound_reads (fs : list (bytes * Nbt)) depth fuel :
  Forall (λ f, skips f.2) fs → depth ≤ MAX_DEPTH →
  forallb (λ f, bool_decide (zlen f.1 < 2 ^ 16) && nbt_ok depth f.2) fs = true →
  (3 * length (nbt_payload (NCompound fs)) + 1 ≤ fuel)%nat →
  reads (skip_compound_payload fuel depth) (nbt_payload (NCompound fs)) ().
Proof.
  intros Hs Hdepth. revert fuel. induction Hs as [|[name x] fs Hx _ IH]; intros fuel Hok Hf;
    (destruct fuel as [|fuel]; [lia|]); cbn [skip_compound_payload]; rewrite decide_False by lia.
  { change (nbt_payload (NCompound [])) with [TAG_END].
    eapply reads_bind_ret; [apply read_u8_reads|done]. }
  cbn [forallb nbt_payload map concat fst snd] in *. apply andb_true_iff in Hok as [[Hn Hxok]%andb_true_iff Hok].
  apply bool_decide_eq_true in Hn. rewrite <- app_assoc in *. cbn [app] in *.
  rewrite length_cons, !length_app in Hf. pose proof (nbt_payload_nonempty x).
  change (nbt_tag x :: ?l) with ([nbt_tag x] ++ l). rewrite <- app_assoc.
  eapply reads_bind; [apply read_u8_reads|].
  rewrite decide_False by (by destruct x).
  eapply reads_bind; [by apply skip_nbt_string_reads|].
  eapply reads_bind; [apply Hx; [by rewrite Hxok|lia]|].
  apply IH; [done|]. rewrite length_app. lia.
Qed.

Lemma skips_all t : skips t.
Proof.
  apply nbt_nested_ind; clear t.
  - intros t. destruct t; try exact I; intros depth fuel Hok Hf; (destruct fuel as [|fuel]; [lia|]);
      cbn [nbt_ok nbt_tag nbt_payload] in *; apply andb_prop_elim in Hok as [Hd Hok];
      apply bool_decide_unpack in Hd; cbn [skip_tag_payload]; rewrite decide_False by lia;
      try (apply skip_bytes_reads; by rewrite zlen_to_be_bytes);
      apply bool_decide_unpack in Hok.
    + apply skip_array_reads; [split; [apply zlen_nonneg|done]|lia].
    + by apply skip_nbt_string_reads.
    + apply skip_array_reads; [split; [apply zlen_nonneg|done]|apply zlen_concat_be].
    + apply skip_array_reads; [split; [apply zlen_nonneg|done]|apply zlen_concat_be].
  - intros ty l Hl depth fuel Hok Hf. cbn [nbt_ok nbt_tag nbt_payload] in *.
    apply andb_prop_elim in Hok as [Hd [Hlen Hok]%andb_prop_elim].
    apply bool_decide_unpack in Hd, Hlen. destruct fuel as [|fuel]; [lia|].
    rewrite skip_list_arm by done. change (ty :: ?l) with ([ty] ++ l).
    eapply reads_bind; [apply read_u8_reads|].
    rewrite length_cons, length_app, length_to_be_bytes in Hf.
    eapply reads_bind; [apply read_i32_be_reads; pose proof (zlen_nonneg l); unfold in_s; lia|].
    case_decide as Hz.
    { destruct l; [apply reads_ret|]. rewrite zlen_cons in Hz. pose proof (zlen_nonneg l). lia. }
    apply skip_elements_reads; [done|by apply Is_true_true|lia].
  - intros fs Hfs depth fuel Hok Hf. cbn [nbt_ok nbt_tag] in *.
    apply andb_prop_elim in Hok as [Hd [Hd' Hok]%andb_prop_elim].
    apply bool_decide_unpack in Hd, Hd'. destruct fuel as [|fuel]; [lia|].
    rewrite skip_compound_arm by done. apply skip_compound_reads; [done..|by apply Is_true_true|lia].
Qed.

(** ** Fuel *)

(** A reader that takes at least [k] bytes when it succeeds. *)
Definition takes {A} (k : nat) (r : reader A) : Prop :=
  ∀ bs a rest, r bs = Ok (a, rest) → (length rest + k ≤ length bs)%nat.

Lemma takes_bind {A B} i j (r : reader A) (k : A → reader B) :
  takes i r → (∀ a, takes j (k a)) → takes (i + j) (r ≫= k).
Proof.
  intros Hr Hk bs b rest. cbv [mbind reader_bind].
  destruct (r bs) as [[a mid]|e] eqn:E; [|done]. intros E'.
  pose proof (Hr _ _ _ E). pose proof (Hk _ _ _ _ E'). lia.
Qed.
Lemma takes_weaken {A} i j (r : reader A) : (j ≤ i)%nat → takes i r → takes j r.
Proof. intros Hij Hr bs a rest E. pose proof (Hr _ _ _ E). lia. Qed.
Lemma takes_ret {A} (a : A) : takes 0 (mret a).
Proof. intros bs b rest [= _ ->]. lia. Qed.
Lemma takes_fail {A} k e : takes k (@reader_fail A e).
Proof. by intros bs a rest. Qed.
Lemma takes_exact n : takes (Z.to_nat n) (read_exact n).
Proof.
  intros bs a rest. unfold read_exact, zlen. case_decide; [|done]. intros [= _ <-].
  rewrite length_drop. lia.
Qed.
Lemma takes_map {A B} k (r : reader A) (f : A → B) : takes k r → takes k (x ← r; mret (f x)).
Proof. intros Hr. replace k with (k + 0)%nat by lia. apply takes_bind; [done|]. intros. apply takes_ret. Qed.
Lemma takes_u8 : takes 1 read_u8.
Proof. apply takes_map, (takes_exact 1). Qed.
Lemma takes_u16 : takes 2 read_u16_be.
Proof. apply takes_map, (takes_exact 2). Qed.
Lemma takes_i32 : takes 4 read_i32_be.
Proof. apply takes_map, (takes_exact 4). Qed.
Lemma takes_skip n : takes (Z.to_nat n) (skip_bytes n).
Proof.
  intros bs a rest. unfold skip_bytes, zlen. case_decide; [done|]. intros [= _ <-].
  rewrite length_drop. lia.
Qed.
Lemma takes_string : takes 2 skip_nbt_string.
Proof.
  apply (takes_weaken (2 + 0)); [lia|]. apply takes_bind; [apply takes_u16|]. intros n.
  eapply takes_weaken, takes_skip. lia.
Qed.
Lemma takes_array size e : takes 4 (skip_array size e).
Proof.
  apply (takes_weaken (4 + 0)); [lia|]. apply takes_bind; [apply takes_i32|]. intros n.
  case_decide; [apply takes_fail|]. eapply takes_weaken, takes_skip. lia.
Qed.

(** A payload has at least one byte. *)
Lemma skip_takes fuel :
  (∀ ty depth, takes 1 (skip_tag_payload fuel ty depth)) ∧
  (∀ count ty depth, takes 0 (skip_elements fuel count ty depth)) ∧
  (∀ depth, takes 1 (skip_compound_payload fuel depth)).
Proof.
  induction fuel as [|fuel (IHt&IHe&IHc)]; [split_and!; intros; apply takes_fail|].
  split_and!; intros; cbn [skip_tag_payload skip_elements skip_compound_payload].
  - repeat case_decide; try apply takes_fail; try (eapply takes_weaken, takes_skip; lia);
      try (eapply takes_weaken, takes_array; lia); [eapply takes_weaken, takes_string; lia| |apply IHc].
    apply (takes_weaken (1 + (4 + 0))); [lia|]. apply takes_bind; [apply takes_u8|]. intros ?.
    apply takes_bind; [apply takes_i32|]. intros ?. case_decide; [apply takes_ret|apply IHe].
  - case_decide; [apply takes_ret|]. apply (takes_weaken (1 + 0)); [lia|].
    apply takes_bind; [apply IHt|]. intros _. apply IHe.
  - case_decide; [apply takes_fail|]. apply (takes_weaken (1 + 0)); [lia|].
    apply takes_bind; [apply takes_u8|]. intros ?. case_decide; [apply takes_ret|].
    apply (takes_weaken (2 + (1 + 1))); [lia|]. apply takes_bind; [apply takes_string|]. intros _.
    apply takes_bind; [apply IHt|]. intros _. apply IHc.
Qed.

Lemma bind_ext {A B} i (r : reader A) (k k' : A → reader B) bs :
  takes i r → (∀ a rest, (length rest + i ≤ length bs)%nat → k a rest = k' a rest) →
  (r ≫= k) bs = (r ≫= k') bs.
Proof.
  intros Hr Hk. cbv [mbind reader_bind]. destruct (r bs) as [[a rest]|e] eqn:E; [|done].
  by apply Hk, (Hr _ _ _ E).
Qed.

Lemma skip_fuel_enough n m :
  (∀ ty depth r, (3 * length r + 2 ≤ n)%nat → (3 * length r + 2 ≤ m)%nat →
     skip_tag_payload n ty depth r = skip_tag_payload m ty depth r) ∧
  (∀ count ty depth r, (3 * length r + 3 ≤ n)%nat → (3 * length r + 3 ≤ m)%nat →
     skip_elements n count ty depth r = skip_elements m count ty depth r) ∧
  (∀ depth r, (3 * length r + 1 ≤ n)%nat → (3 * length r + 1 ≤ m)%nat →
     skip_compound_payload n depth r = skip_compound_payload m depth r).
Proof.
  revert m. induction n as [|n IH]; intros m; [split_and!; intros; lia|].
  destruct m as [|m]; [split_and!; intros; lia|].
  destruct (IH m) as (IHt&IHe&IHc). destruct (skip_takes n) as (Ht&_&_).
  split_and!; intros; cbn [skip_tag_payload skip_elements skip_compound_payload].
  - repeat case_decide; try done; [|apply IHc; lia].
    eapply bind_ext; [apply takes_u8|]. intros ty' r' Hr'.
    eapply bind_ext; [apply takes_i32|]. intros c r'' Hr''. case_decide; [done|]. apply IHe; lia.
  - case_decide; [done|]. transitivity ((_ ← skip_tag_payload n ty depth; skip_elements m (count - 1) ty depth) r).
    + eapply bind_ext; [apply Ht|]. intros _ r' Hr'. apply IHe; lia.
    + cbv [mbind reader_bind]. by rewrite IHt by lia.
  - case_decide; [done|]. eapply bind_ext; [apply takes_u8|]. intros ty r1 Hr1. case_decide; [done|].
    eapply bind_ext; [apply takes_string|]. intros _ r2 Hr2.
    transitivity ((_ ← skip_tag_payload n ty depth; skip_compound_payload m depth) r2).
    + eapply bind_ext; [apply Ht|]. intros _ r' Hr'. apply IHc; lia.
    + cbv [mbind reader_bind]. by rewrite IHt by lia.
Qed.

(** ** Theorems *)

(** A join packet of a version with named dimensions, as its fields. *)
Record JoinPayload := {
  jp_hardcore : bool;
  jp_gamemode : Z;
  jp_previous_gamemode : Z;
  jp_worlds : list rstring;
  jp_codec : bytes * list (bytes * Nbt);
  jp_type_nbt : bytes * list (bytes * Nbt);
  jp_type_name : rstring;
  jp_dimension : rstring }.

(** A root compound with its name. *)
Definition nbt_root (t : bytes * list (bytes * Nbt)) : bytes :=
  TAG_COMPOUND :: nbt_text t.1 ++ nbt_payload (NCompound t.2).
Definition root_ok (t : bytes * list (bytes * Nbt)) : bool :=
  bool_decide (zlen t.1 < 2 ^ 16) &&
  forallb (λ f, bool_decide (zlen f.1 < 2 ^ 16) && nbt_ok 0 f.2) t.2.

Definition join_payload (p : JoinPayload) (v : ProtocolVersion) : ProtocolResult bytes :=
  write_bool (jp_hardcore p) +> write_u8 (jp_gamemode p) +> write_i8 (jp_previous_gamemode p) +>
  write_var_int (zlen (jp_worlds p)) +> wr_list write_string (jp_worlds p) +>
  Ok (nbt_root (jp_codec p)) +>
  (if less_than v V1_16_2 then Ok (nbt_root (jp_type_nbt p)) else write_string (jp_type_name p)) +>
  write_string (jp_dimension p).

Lemma skip_nbt_compound_reads t : root_ok t → reads skip_nbt_compound (nbt_root t) ().
Proof.
  intros [Hn Hok]%andb_prop_elim. apply bool_decide_unpack in Hn. unfold nbt_root.
  change (TAG_COMPOUND :: ?l) with ([TAG_COMPOUND] ++ l).
  eapply reads_bind; [apply read_u8_reads|]. rewrite decide_True by done.
  eapply reads_bind; [by apply skip_nbt_string_reads|]. intros rest.
  unfold skip_root_payload, skip_fuel_for.
  apply skip_compound_reads; [apply Forall_true; intros; apply skips_all|done|by apply Is_true_true|].
  rewrite length_app. lia.
Qed.

Theorem skip_nbt_exact (name : bytes) (fields : list (bytes * Nbt)) (rest : bytes) :
  root_ok (name, fields) = true →
  skip_nbt_compound (nbt_root (name, fields) ++ rest) = Ok ((), rest).
Proof. intros Hok. apply skip_nbt_compound_reads. by rewrite Hok. Qed.

Lemma skip_strings_reads (l : list rstring) bs :
  Forall is_string l → wr_list write_string l = Ok bs → reads (skip_strings (zlen l)) bs ().
Proof.
  intros Hl Hw. unfold skip_strings. eapply reads_bind_ret; [|done].
  unfold zlen. rewrite Nat2Z.id. eapply (reads_n _ write_string is_string); [|done|done].
  intros. by apply read_string_reads.
Qed.

(** The type and the name of the dimension at the front of a respawn packet. *)
Definition respawn_dimension (v : ProtocolVersion) : reader rstring :=
  _ ← (if less_than v V1_16_2 then skip_nbt_compound
       else _dimension_type ← read_string; mret ());
  read_string.

Lemma dimension_type_reads v (nbt : bytes * list (bytes * Nbt)) name bs :
  root_ok nbt → is_string name →
  (if less_than v V1_16_2 then Ok (nbt_root nbt) else write_string name) = Ok bs →
  reads (if less_than v V1_16_2 then skip_nbt_compound
         else _dimension_type ← read_string; mret ()) bs ().
Proof.
  intros Hn Hs. destruct (less_than v V1_16_2).
  - intros [= <-]. by apply skip_nbt_compound_reads.
  - intros Hw. eapply reads_bind_ret; [by apply read_string_reads|done].
Qed.

(** The respawn packet of a switch, for a dimension that was read from the wire. *)
Lemma for_switch_names v d nameb :
  no_less_than v V1_16 = true → less_than v V1_20_2 = true → is_string d →
  write_string d = Ok nameb →
  ∃ raw more, for_switch (DNamed d) v = Some (CRespawn_default (Some raw)) ∧
    respawn_dimension v raw = Ok (d, more).
Proof.
  intros Hv16%Z.leb_le Hv20%Z.ltb_lt Hd Hw.
  assert (Hs : no_less_than v V1_20_2 = false) by (apply Z.leb_gt; lia).
  unfold for_switch. rewrite Hs. unfold encode_switch_respawn. cbn [dimension_as_name].
  rewrite !decide_False by (unfold V1_16 in Hv16; lia). rewrite Hw.
  unfold respawn_dimension, write_minimal_dimension_nbt.
  assert (Hty : ∀ tail ty, (if less_than v V1_16_2 then Ok (nbt_root ([], [])) else write_string d) = Ok ty →
    (_ ← (if less_than v V1_16_2 then skip_nbt_compound else _dimension_type ← read_string; mret ());
     read_string) (ty ++ nameb ++ tail) = Ok (d, tail)).
  { intros tail ty Hty. cbv [mbind reader_bind].
    rewrite (dimension_type_reads v ([], []) d ty); [|done..]. by apply read_string_reads. }
  destruct (less_than v V1_16_2) eqn:E.
  - apply Z.ltb_lt in E. rewrite decide_True by (unfold V1_16_2 in E; lia). cbn [wr_app].
    eexists _, _. split; [reflexivity|]. apply (Hty _ _ eq_refl).
  - apply Z.ltb_ge in E. unfold V1_16_2 in E. rewrite decide_False by lia.
    repeat case_decide; cbn [wr_app]; eexists _, _; (split; [reflexivity|]);
      rewrite <- ?app_assoc; apply (Hty _ _ Hw).
Qed.

Lemma extract_named_reads (p : JoinPayload) (v : ProtocolVersion) bs :
  in_s 8 (jp_previous_gamemode p) → zlen (jp_worlds p) < 2 ^ 31 →
  Forall is_string (jp_worlds p) → is_string (jp_type_name p) → is_string (jp_dimension p) →
  root_ok (jp_codec p) → root_ok (jp_type_nbt p) → join_payload p v = Ok bs →
  reads (extract_named_dimension v) bs (DNamed (jp_dimension p)).
Proof.
  intros Hg Hlen Hw Ht Hd Hc Hn. unfold join_payload.
  do 7 (intros (?b & ?b & ?Hb & Hbs & ->)%wr_app_Ok; revert Hbs). intros Hbs.
  injection Hb as <-. injection Hb0 as <-. injection Hb1 as <-. injection Hb2 as <-. injection Hb4 as <-.
  eapply reads_bind; [apply read_bool_reads|].
  eapply reads_bind; [apply read_u8_reads|].
  eapply reads_bind; [by apply read_i8_reads|].
  eapply reads_bind; [apply read_var_int_reads; pose proof (zlen_nonneg (jp_worlds p)); unfold in_s; lia|].
  eapply reads_bind; [by apply skip_strings_reads|].
  eapply reads_bind; [by apply skip_nbt_compound_reads|].
  eapply reads_bind; [by apply (dimension_type_reads v (jp_type_nbt p) (jp_type_name p))|].
  eapply reads_bind_ret; [by apply read_string_reads|done].
Qed.

(** From the join packet of a 1.16 to 1.20.1 backend, whatever registry NBT it carries,
    the dimension of the new world is extracted, and the respawn packet built for the
    switch carries it. *)
Theorem switch_keeps_dimension (p : JoinPayload) (v : ProtocolVersion) bs rest :
  no_less_than v V1_16 = true → less_than v V1_20_2 = true →
  in_s 8 (jp_previous_gamemode p) → zlen (jp_worlds p) < 2 ^ 31 →
  Forall is_string (jp_worlds p) → is_string (jp_type_name p) → is_string (jp_dimension p) →
  root_ok (jp_codec p) = true → root_ok (jp_type_nbt p) = true →
  join_payload p v = Ok bs →
  extract_dimension_from_join_game v (bs ++ rest) = Ok (DNamed (jp_dimension p), rest) ∧
  ∃ raw more, for_switch (DNamed (jp_dimension p)) v = Some (CRespawn_default (Some raw)) ∧
    respawn_dimension v raw = Ok (jp_dimension p, more).
Proof.
  intros Hv16 Hv20 Hg Hlen Hw Ht Hd Hc Hn Hbs. unfold join_payload in Hbs.
  assert (Hs20 : no_less_than v V1_20_2 = false) by (apply Z.leb_gt; by apply Z.ltb_lt).
  assert (Hs16 : less_than v V1_16 = false) by (apply Z.ltb_ge; by apply Z.leb_le).
  unfold extract_dimension_from_join_game. rewrite Hs20, Hs16.
  assert (Hname : ∃ nameb, write_string (jp_dimension p) = Ok nameb).
  { inv_writes. eauto. }
  destruct Hname as (nameb&Hname). split; [|by eapply for_switch_names].
  apply (extract_named_reads p v bs); try done; by rewrite ?Hc, ?Hn.
Qed.

Definition sample_join : JoinPayload := {|
  jp_hardcore := false; jp_gamemode := 0; jp_previous_gamemode := -1;
  jp_worlds := [str "minecraft:overworld"; str "minecraft:the_end"];
  jp_codec := ([], [(str "list", NList TAG_INT [NInt 1; NInt 2]);
                    (str "inner", NCompound [(str "name", NString (str "x")); (str "f", NFloat 0)])]);
  jp_type_nbt := ([], []); jp_type_name := str "minecraft:the_end";
  jp_dimension := str "minecraft:the_end" |}.

Lemma switch_keeps_dimension_witness :
  extract_dimension_from_join_game V1_19 (match join_payload sample_join V1_19 with Ok bs => bs | Err _ => [] end ++ [7]) =
    Ok (DNamed (str "minecraft:the_end"), [7]) ∧
  ∃ raw more, for_switch (DNamed (str "minecraft:the_end")) V1_19 = Some (CRespawn_default (Some raw)) ∧
    respawn_dimension V1_19 raw = Ok (str "minecraft:the_end", more).
Proof.
  refine (switch_keeps_dimension sample_join V1_19 _ [7] eq_refl eq_refl _ eq_refl _ _ _ eq_refl eq_refl eq_refl);
    apply (bool_decide_unpack _); vm_compute; exact I.
Defined.
