(* ===== verification/Json.v ===== *)
(** * Json: JSON values and what is assumed of [serde_json]

    [Value] is [serde_json::Value]; an object is the list of its members by ascending key,
    the order of the [BTreeMap] behind [serde_json::Map].  A number is kept as the text
    that [to_string] gives for it.

    [serde_json] is a parameter: [json_from_str] is [serde_json::from_str], and what is
    assumed of it ([SerdeJsonLaws]) is that it reads the texts of the JSON grammar without
    white space and with integers for numbers ([json_text]) that nest at most 127 deep, the limit it
    documents.  [reference_parser] is a parser of that grammar, which shows that the
    assumption can be met. *)
From S2P Require Import Prelude Utf8 Packet.

(** ** Values *)

Inductive Value :=
| VNull
| VBool (b : bool)
| VNumber (text : rstring)
| VStr (s : rstring)
| VArray (items : list Value)
| VObject (members : list (rstring * Value)).

Fixpoint value_eqb (a b : Value) : bool :=
  match a, b with
  | VNull, VNull => true
  | VBool a, VBool b => bool_decide (a = b)
  | VNumber a, VNumber b => bool_decide (a = b)
  | VStr a, VStr b => bool_decide (a = b)
  | VArray a, VArray b =>
    (fix go a b := match a, b with
                   | [], [] => true
                   | x :: a, y :: b => value_eqb x y && go a b
                   | _, _ => false
                   end) a b
  | VObject a, VObject b =>
    (fix go a b := match a, b with
                   | [], [] => true
                   | x :: a, y :: b => bool_decide (x.1 = y.1) && value_eqb x.2 y.2 && go a b
                   | _, _ => false
                   end) a b
  | _, _ => false
  end.

Definition as_str (v : Value) : option rstring := match v with VStr s => Some s | _ => None end.
Definition as_bool (v : Value) : option bool := match v with VBool b => Some b | _ => None end.

(** [map.get(key).and_then(f)]. *)
Definition json_get {A} (key : rstring) (f : Value → option A) : list (rstring * Value) → option A :=
  fix go m :=
    match m with
    | [] => None
    | (k, v) :: m => if decide (k = key) then f v else go m
    end.

(** The order of the keys, and [Map::insert]. *)
Fixpoint rs_ltb (a b : rstring) : bool :=
  match a, b with
  | _, [] => false
  | [], _ => true
  | x :: a, y :: b => bool_decide (x < y) || bool_decide (x = y) && rs_ltb a b
  end.

Fixpoint map_insert (key : rstring) (v : Value) (m : list (rstring * Value)) : list (rstring * Value) :=
  match m with
  | [] => [(key, v)]
  | (k, w) :: m' =>
    if decide (k = key) then (key, v) :: m'
    else if rs_ltb key k then (key, v) :: m else (k, w) :: map_insert key v m'
  end.

Definition object_of (members : list (rstring * Value)) : Value :=
  VObject (foldl (λ m kv, map_insert kv.1 kv.2 m) [] members).

(** How deep arrays and objects nest. *)
Fixpoint json_depth (v : Value) : Z :=
  match v with
  | VArray l => 1 + foldr Z.max 0 (map json_depth l)
  | VObject m => 1 + foldr Z.max 0 (map (λ kv, json_depth kv.2) m)
  | _ => 0
  end.

(** ** Decimal numbers *)

(** [str::parse::<i32>]. *)
Fixpoint parse_digits (acc : Z) (s : rstring) : option Z :=
  match s with
  | [] => Some acc
  | c :: s => if decide (48 ≤ c ≤ 57) then parse_digits (acc * 10 + (c - 48)) s else None
  end.
Definition parse_i32 (s : rstring) : option Z :=
  let '(sign, digits) :=
    match s with
    | [] => (1, [])
    | c :: s' => if decide (c = 45) then (-1, s') else if decide (c = 43) then (1, s') else (1, s)
    end in
  if decide (digits = []) then None
  else n ← parse_digits 0 digits; if decide (in_s 32 (sign * n)) then Some (sign * n) else None.

Definition is_digit (c : Z) : Prop := 48 ≤ c ≤ 57.

Lemma pretty_digit x s :
  (x < 10)%N → ∃ c, str (String (pretty_N_char x) s) = c :: str s ∧ is_digit c ∧ c - 48 = Z.of_N x.
Proof.
  intros Hx. eexists. split; [reflexivity|].
  assert (x = 0 ∨ x = 1 ∨ x = 2 ∨ x = 3 ∨ x = 4 ∨ x = 5 ∨ x = 6 ∨ x = 7 ∨ x = 8 ∨ x = 9)%N as Hc by lia.
  repeat (destruct Hc as [->|Hc]; [by split|]). by subst.
Qed.

Lemma parse_pretty_go x s : parse_digits 0 (str (pretty_N_go x s)) = parse_digits (Z.of_N x) (str s).
Proof.
  revert s. induction (N.lt_wf_0 x) as [x _ IH]; intros s.
  assert (x = 0 ∨ 0 < x)%N as [->|Hx] by lia; [by rewrite pretty_N_go_0|].
  rewrite pretty_N_go_step by done. rewrite IH by by apply N.div_lt.
  destruct (pretty_digit (x mod 10) s) as (c&->&Hd&Hv); [by apply N.mod_lt|]. cbn [parse_digits].
  rewrite decide_True by done. f_equal. rewrite Hv, N2Z.inj_div, N2Z.inj_mod by done.
  pose proof (Z.div_mod (Z.of_N x) 10). lia.
Qed.

Lemma pretty_go_digits x s : Forall is_digit (str s) → Forall is_digit (str (pretty_N_go x s)).
Proof.
  revert s. induction (N.lt_wf_0 x) as [x _ IH]; intros s Hs.
  assert (x = 0 ∨ 0 < x)%N as [->|Hx] by lia; [by rewrite pretty_N_go_0|].
  rewrite pretty_N_go_step by done. apply IH; [by apply N.div_lt|].
  destruct (pretty_digit (x mod 10) s) as (c&->&Hd&_); [by apply N.mod_lt|]. by constructor.
Qed.

Lemma parse_digits_pretty (n : N) : parse_digits 0 (str (pretty n)) = Some (Z.of_N n).
Proof. unfold pretty, pretty_N. case_decide as Hn; [by subst|]. by rewrite parse_pretty_go. Qed.

Lemma pretty_N_digits (n : N) : Forall is_digit (str (pretty n)) ∧ str (pretty n) ≠ [].
Proof.
  split.
  - unfold pretty, pretty_N. case_decide; [by repeat constructor|]. apply pretty_go_digits. constructor.
  - unfold pretty, pretty_N. case_decide as Hn; [done|]. intros Hs. pose proof (parse_pretty_go n "") as Hp.
    rewrite Hs in Hp. cbn in Hp. injection Hp as Hp. lia.
Qed.

Lemma parse_i32_pretty z : in_s 32 z → parse_i32 (str (pretty z)) = Some z.
Proof.
  intros Hz. destruct z as [|p|p]; [by vm_compute|..].
  - change (pretty (Z.pos p)) with (pretty (N.pos p)). unfold parse_i32. destruct (pretty_N_digits (N.pos p)) as [Hd _].
    pose proof (parse_digits_pretty (N.pos p)) as Hp. destruct (str (pretty (N.pos p))) as [|c s]; [done|].
    apply Forall_cons in Hd as [Hc _]. unfold is_digit in Hc. rewrite !decide_False by (lia || done). rewrite Hp.
    cbv [mbind option_bind]. by rewrite decide_True.
  - change (str (pretty (Z.neg p))) with (45 :: str (pretty (N.pos p))). unfold parse_i32.
    rewrite decide_True by done. destruct (pretty_N_digits (N.pos p)) as [_ Hne]. rewrite decide_False by done.
    rewrite parse_digits_pretty. cbv [mbind option_bind]. by rewrite decide_True.
Qed.

(** The characters of an integer. *)
Definition number_char (c : Z) : Prop := c = 45 ∨ is_digit c.
#[export] Instance number_char_dec c : Decision (number_char c).
Proof. unfold number_char, is_digit. apply _. Defined.

Lemma pretty_Z_chars (z : Z) :
  ∃ c s, str (pretty z) = c :: s ∧ Forall number_char (c :: s).
Proof.
  assert (Hn : ∀ n : N, ∃ c s, str (pretty n) = c :: s ∧ Forall number_char (c :: s)).
  { intros n. destruct (pretty_N_digits n) as [Hd Hne]. destruct (str (pretty n)) as [|c s]; [done|].
    exists c, s. split; [done|]. eapply Forall_impl; [exact Hd|]. by right. }
  destruct z as [|p|p]; [apply (Hn 0%N)|apply (Hn (N.pos p))|].
  destruct (Hn (N.pos p)) as (c&s&He&Hs). exists 45, (c :: s). rewrite <- He. split; [done|].
  constructor; [by left|]. by rewrite He.
Qed.

(** ** The grammar *)

Definition quoted (s : rstring) : rstring := [34] ++ s ++ [34].

(** The value of a hexadecimal digit. *)
Definition hex_value (c : Z) : option Z :=
  if decide (48 ≤ c ≤ 57) then Some (c - 48)
  else if decide (97 ≤ c ≤ 102) then Some (c - 87)
  else if decide (65 ≤ c ≤ 70) then Some (c - 55)
  else None.

(** The characters with an escape of their own. *)
Definition simple_escapes : list (Z * Z) :=
  [(34, 34); (92, 92); (47, 47); (98, 8); (102, 12); (110, 10); (114, 13); (116, 9)].
Definition unescape (e : Z) : option Z := (λ p, p.2.2) <$> list_find (λ p, p.1 = e) simple_escapes.

(** A string and the text between its quotes. *)
Inductive json_chars : rstring → rstring → Prop :=
| jc_nil : json_chars [] []
| jc_plain c s t : 32 ≤ c → c ≠ 34 → c ≠ 92 → json_chars s t → json_chars (c :: s) (c :: t)
| jc_escape e c s t : unescape e = Some c → json_chars s t → json_chars (c :: s) (92 :: e :: t)
| jc_hex a b c d x y z w s t :
    hex_value a = Some x → hex_value b = Some y → hex_value c = Some z → hex_value d = Some w →
    is_char (((x * 16 + y) * 16 + z) * 16 + w) → json_chars s t →
    json_chars ((((x * 16 + y) * 16 + z) * 16 + w) :: s) (92 :: 117 :: a :: b :: c :: d :: t).

Inductive json_text : Value → rstring → Prop :=
| jt_null : json_text VNull (str "null")
| jt_true : json_text (VBool true) (str "true")
| jt_false : json_text (VBool false) (str "false")
| jt_integer z : in_s 64 z → json_text (VNumber (str (pretty z))) (str (pretty z))
| jt_string s t : json_chars s t → json_text (VStr s) (quoted t)
| jt_empty_array : json_text (VArray []) [91; 93]
| jt_array vs t : json_elements vs t → json_text (VArray vs) ([91] ++ t ++ [93])
| jt_empty_object : json_text (VObject []) [123; 125]
| jt_object kvs t :
    NoDup kvs.*1 → json_members kvs t → json_text (object_of kvs) ([123] ++ t ++ [125])
with json_elements : list Value → rstring → Prop :=
| je_one v t : json_text v t → json_elements [v] t
| je_cons v t vs ts : json_text v t → json_elements vs ts → json_elements (v :: vs) (t ++ [44] ++ ts)
with json_members : list (rstring * Value) → rstring → Prop :=
| jm_one k kt v t :
    json_chars k kt → json_text v t → json_members [(k, v)] (quoted kt ++ [58] ++ t)
| jm_cons k kt v t kvs ts :
    json_chars k kt → json_text v t → json_members kvs ts →
    json_members ((k, v) :: kvs) (quoted kt ++ [58] ++ t ++ [44] ++ ts).

Scheme json_text_mut := Minimality for json_text Sort Prop
with json_elements_mut := Minimality for json_elements Sort Prop
with json_members_mut := Minimality for json_members Sort Prop.
Combined Scheme json_mutind from json_text_mut, json_elements_mut, json_members_mut.

(** ** [serde_json] *)

Class SerdeJson := { json_from_str : rstring → option Value }.
Class SerdeJsonLaws `{SerdeJson} := {
  json_from_str_text v s : json_text v s → json_depth v ≤ 127 → json_from_str s = Some v }.

(** ** Objects *)

Lemma json_get_insert {A} k key v (f : Value → option A) m :
  json_get k f (map_insert key v m) = if decide (key = k) then f v else json_get k f m.
Proof.
  induction m as [|[k' w] m IH]; cbn [map_insert]; [done|].
  destruct (decide (k' = key)) as [->|Hne]; [cbn [json_get]; by case_decide|].
  destruct (rs_ltb key k'); cbn [json_get]; [by case_decide|].
  destruct (decide (k' = k)) as [->|]; [by rewrite decide_False by congruence|]. apply IH.
Qed.

Lemma json_get_insert_all {A} k (f : Value → option A) kvs m :
  NoDup kvs.*1 →
  json_get k f (foldl (λ m kv, map_insert kv.1 kv.2 m) m kvs) =
  if decide (k ∈ kvs.*1) then json_get k f kvs else json_get k f m.
Proof.
  revert m. induction kvs as [|[key v] kvs IH]; intros m Hn.
  { by rewrite decide_False by apply not_elem_of_nil. }
  cbn [foldl fmap list_fmap fst snd] in *. apply NoDup_cons in Hn as [Hk Hn].
  rewrite IH by done. cbn [json_get]. rewrite json_get_insert.
  destruct (decide (key = k)) as [->|Hne].
  - by rewrite decide_False, decide_True by (done || left).
  - destruct (decide (k ∈ kvs.*1)); [by rewrite decide_True by by right|].
    rewrite decide_False; [done|]. rewrite elem_of_cons. intros [->|]; done.
Qed.

(** Looking a member up does not depend on how the map orders its keys. *)
Lemma json_get_object {A} k (f : Value → option A) kvs :
  NoDup kvs.*1 → json_get k f (foldl (λ m kv, map_insert kv.1 kv.2 m) [] kvs) = json_get k f kvs.
Proof.
  intros Hn. rewrite json_get_insert_all by done. case_decide as Hk; [done|]. symmetry.
  clear Hn. induction kvs as [|[key v] kvs IH]; [done|]. cbn [json_get fmap list_fmap fst] in *.
  rewrite elem_of_cons in Hk. rewrite decide_False by naive_solver. apply IH. naive_solver.
Qed.

(** ** A parser of the grammar *)

Fixpoint parse_chars (s : rstring) : option (rstring * rstring) :=
  match s with
  | [] => None
  | c :: s1 =>
    if decide (c = 34) then Some ([], s1)
    else if decide (c = 92) then
      match s1 with
      | [] => None
      | e :: s2 =>
        if decide (e = 117) then
          match s2 with
          | a :: b :: c :: d :: s3 =>
            x ← hex_value a; y ← hex_value b; z ← hex_value c; w ← hex_value d;
            p ← parse_chars s3; Some ((((x * 16 + y) * 16 + z) * 16 + w) :: p.1, p.2)
          | _ => None
          end
        else c ← unescape e; p ← parse_chars s2; Some (c :: p.1, p.2)
      end
    else if decide (c < 32) then None
    else p ← parse_chars s1; Some (c :: p.1, p.2)
  end.

Fixpoint expect (word : rstring) (s : rstring) : option rstring :=
  match word, s with
  | [], _ => Some s
  | w :: word, c :: s => if decide (w = c) then expect word s else None
  | _ :: _, [] => None
  end.

(** The longest prefix of characters of integers. *)
Fixpoint number_span (s : rstring) : rstring * rstring :=
  match s with
  | [] => ([], [])
  | c :: s' => if decide (number_char c) then let '(n, r) := number_span s' in (c :: n, r) else ([], s)
  end.

Fixpoint parse_value (fuel : nat) (s : rstring) {struct fuel} : option (Value * rstring) :=
  match fuel, s with
  | S fuel, c :: r =>
    if decide (c = 34) then p ← parse_chars r; Some (VStr p.1, p.2)
    else if decide (c = 91) then
      if decide (head r = Some 93) then Some (VArray [], tail r)
      else p ← parse_elements fuel r; Some (VArray p.1, p.2)
    else if decide (c = 123) then
      if decide (head r = Some 125) then Some (VObject [], tail r)
      else p ← parse_members fuel r; Some (object_of p.1, p.2)
    else if decide (c = 116) then r ← expect (str "rue") r; Some (VBool true, r)
    else if decide (c = 102) then r ← expect (str "alse") r; Some (VBool false, r)
    else if decide (c = 110) then r ← expect (str "ull") r; Some (VNull, r)
    else if decide (number_char c) then let '(n, r) := number_span (c :: r) in Some (VNumber n, r)
    else None
  | _, _ => None
  end
with parse_elements (fuel : nat) (s : rstring) {struct fuel} : option (list Value * rstring) :=
  match fuel with
  | S fuel =>
    p ← parse_value fuel s;
    match p.2 with
    | c :: r =>
      if decide (c = 44) then q ← parse_elements fuel r; Some (p.1 :: q.1, q.2)
      else if decide (c = 93) then Some ([p.1], r) else None
    | [] => None
    end
  | O => None
  end
with parse_members (fuel : nat) (s : rstring) {struct fuel} : option (list (rstring * Value) * rstring) :=
  match fuel with
  | S fuel =>
    s ← expect [34] s; k ← parse_chars s; s ← expect [58] k.2;
    p ← parse_value fuel s;
    match p.2 with
    | c :: r =>
      if decide (c = 44) then q ← parse_members fuel r; Some ((k.1, p.1) :: q.1, q.2)
      else if decide (c = 125) then Some ([(k.1, p.1)], r) else None
    | [] => None
    end
  | O => None
  end.

#[export] Instance reference_parser : SerdeJson := {|
  json_from_str s :=
    match parse_value (S (length s)) s with Some (v, []) => Some v | _ => None end |}.

Lemma parse_chars_text s t rest : json_chars s t → parse_chars (t ++ 34 :: rest) = Some (s, rest).
Proof.
  induction 1 as [|c s t Hc H34 H92 _ IH|e c s t He _ IH|a b c d x y z w s t Ha Hb Hc Hd _ _ IH];
    cbn [app parse_chars].
  - by rewrite decide_True.
  - rewrite !decide_False by (done || lia). by rewrite IH.
  - rewrite decide_False, decide_True by done. rewrite decide_False, He; [cbn; by rewrite IH|].
    intros ->. by vm_compute in He.
  - rewrite decide_False, !decide_True by done. rewrite Ha, Hb, Hc, Hd. cbn. by rewrite IH.
Qed.

(** A text starts with a character that is no closing bracket. *)
Lemma json_text_head v t : json_text v t → ∃ c r, t = c :: r ∧ c ≠ 93 ∧ c ≠ 125.
Proof.
  destruct 1 as [| | |z Hz|s t Hs| | | |]; try (eexists _, _; (split; [reflexivity|]); done).
  destruct (pretty_Z_chars z) as (c&s&->&Hc%Forall_inv). exists c, s. split; [done|].
  unfold number_char, is_digit in Hc. lia.
Qed.
Lemma json_elements_head vs t : json_elements vs t → ∃ c r, t = c :: r ∧ c ≠ 93.
Proof. destruct 1 as [v t Ht|v t vs ts Ht _]; destruct (json_text_head _ _ Ht) as (c&r&->&?&?); eauto. Qed.
Lemma json_members_head kvs t : json_members kvs t → ∃ r, t = 34 :: r.
Proof. destruct 1; eexists; reflexivity. Qed.

(** Where a number ends. *)
Definition ends_number (rest : rstring) : Prop := match rest with [] => True | c :: _ => ¬ number_char c end.

Lemma number_span_app t rest : Forall number_char t → ends_number rest → number_span (t ++ rest) = (t, rest).
Proof.
  intros Ht Hr. induction Ht as [|c t Hc Ht IH]; cbn [app number_span].
  - destruct rest as [|c rest]; [done|]. cbn in Hr |- *. by rewrite decide_False.
  - rewrite decide_True by done. by rewrite IH.
Qed.

Lemma parse_complete :
  (∀ v t, json_text v t → ∀ fuel rest, (length t ≤ fuel)%nat → ends_number rest →
     parse_value fuel (t ++ rest) = Some (v, rest)) ∧
  (∀ vs t, json_elements vs t → ∀ fuel rest, (length t < fuel)%nat →
     parse_elements fuel (t ++ 93 :: rest) = Some (vs, rest)) ∧
  (∀ kvs t, json_members kvs t → ∀ fuel rest, (length t ≤ fuel)%nat →
     parse_members fuel (t ++ 125 :: rest) = Some (kvs, rest)).
Proof.
  apply json_mutind.
  - intros [|fuel] rest Hf _; [cbn in Hf; lia|done].
  - intros [|fuel] rest Hf _; [cbn in Hf; lia|done].
  - intros [|fuel] rest Hf _; [cbn in Hf; lia|done].
  - intros z _ fuel rest Hf Hr. destruct (pretty_Z_chars z) as (c&s&Hz&Hs). rewrite Hz in *.
    destruct fuel as [|fuel]; [cbn in Hf; lia|]. pose proof (Forall_inv Hs) as Hc.
    assert (Hne : c ≠ 34 ∧ c ≠ 91 ∧ c ≠ 123 ∧ c ≠ 116 ∧ c ≠ 102 ∧ c ≠ 110)
      by (unfold number_char, is_digit in Hc; lia). destruct_and! Hne.
    cbn [app parse_value]. rewrite !decide_False by done. rewrite decide_True by done.
    change (c :: s ++ rest) with ((c :: s) ++ rest). by rewrite number_span_app.
  - intros s t Hs [|fuel] rest Hf _; [cbn in Hf; lia|]. unfold quoted. cbn [app parse_value].
    rewrite decide_True, <- app_assoc by done. cbn [app]. by rewrite (parse_chars_text _ _ _ Hs).
  - intros [|fuel] rest Hf _; [cbn in Hf; lia|done].
  - intros vs t Ht IH [|fuel] rest Hf _; [cbn in Hf; lia|]. cbn [app parse_value length] in *.
    rewrite length_app in Hf. cbn [length] in Hf. rewrite <- app_assoc. cbn [app].
    rewrite decide_False, decide_True by done. destruct (json_elements_head _ _ Ht) as (c&r&->&Hc).
    rewrite decide_False by (by intros [= ->]). by rewrite IH by lia.
  - intros [|fuel] rest Hf _; [cbn in Hf; lia|done].
  - intros kvs t _ Ht IH [|fuel] rest Hf _; [cbn in Hf; lia|]. cbn [app parse_value length] in *.
    rewrite length_app in Hf. cbn [length] in Hf. rewrite <- app_assoc. cbn [app].
    rewrite !decide_False, decide_True by done. destruct (json_members_head _ _ Ht) as (r&->).
    rewrite decide_False by done. by rewrite IH by lia.
  - intros v t _ IH [|fuel] rest Hf; [lia|]. cbn [parse_elements].
    by rewrite IH by (lia || (cbn; unfold number_char, is_digit; lia)).
  - intros v t vs ts _ IH _ IHs [|fuel] rest Hf; [lia|]. cbn [parse_elements].
    rewrite !length_app in Hf. cbn [length] in Hf. rewrite <- !app_assoc.
    rewrite IH by (lia || (cbn; unfold number_char, is_digit; lia)).
    cbv [mbind option_bind]. cbn [fst snd app]. rewrite decide_True by done. by rewrite IHs by lia.
  - intros k kt v t Hk _ IH fuel rest. unfold quoted. rewrite !length_app. cbn [length]. intros Hf.
    destruct fuel as [|fuel]; [lia|]. rewrite <- !app_assoc. cbn [parse_members]. cbv [mbind option_bind].
    cbn [app expect decide]. rewrite decide_True, (parse_chars_text _ _ _ Hk) by done. cbn [fst snd app expect].
    rewrite decide_True, IH by (done || lia || (cbn; unfold number_char, is_digit; lia)). done.
  - intros k kt v t kvs ts Hk _ IH _ IHs fuel rest. unfold quoted. rewrite !length_app. cbn [length]. intros Hf.
    destruct fuel as [|fuel]; [lia|]. rewrite <- !app_assoc. cbn [parse_members]. cbv [mbind option_bind].
    cbn [app expect decide]. rewrite decide_True, (parse_chars_text _ _ _ Hk) by done. cbn [fst snd app expect].
    rewrite decide_True, IH by (done || lia || (cbn; unfold number_char, is_digit; lia)).
    cbn [fst snd app]. rewrite decide_True by done.
    by rewrite IHs by lia.
Qed.

Lemma reference_parser_text v s : json_text v s → json_from_str s = Some v.
Proof.
  intros Hs. destruct parse_complete as (Hp&_&_). cbn [json_from_str reference_parser].
  specialize (Hp v s Hs (S (length s)) [] ltac:(lia) I). rewrite app_nil_r in Hp. by rewrite Hp.
Qed.

#[export] Instance reference_parser_laws : SerdeJsonLaws.
Proof. split. intros v s Hs _. by apply reference_parser_text. Qed.
