(* ===== verification/Component.v ===== *)
(** * Component: Minecraft's rich text

    Models [types/component.rs] of the API: the component tree, its JSON and NBT encodings,
    the parser of legacy [&] codes and the reader of JSON components. [serde_json] is the
    parameter of [Json]. *)
From S2P Require Import Prelude Wire Utf8 VarInt Codec Version Packet PlayPackets Nbt Json.

(** ** Components *)

Inductive ClickEvent :=
| OpenUrl (url : rstring)
| SuggestCommand (cmd : rstring)
| RunCommand (cmd : rstring)
| CopyToClipboard (text : rstring).

Inductive HoverEvent (C : Type) := ShowText (c : C).
Arguments ShowText {C} c.

Inductive Component := mk_Component {
  c_text : rstring;
  c_color : option rstring;
  c_bold : option bool;
  c_italic : option bool;
  c_underlined : option bool;
  c_strikethrough : option bool;
  c_obfuscated : option bool;
  c_extra : list Component;
  c_click_event : option ClickEvent;
  c_hover_event : option (HoverEvent Component) }.

(** ** Builders *)

Definition component_text (text : rstring) : Component :=
  mk_Component text None None None None None None [] None None.
Definition set_color (color : rstring) (c : Component) : Component :=
  mk_Component (c_text c) (Some color) (c_bold c) (c_italic c) (c_underlined c) (c_strikethrough c)
    (c_obfuscated c) (c_extra c) (c_click_event c) (c_hover_event c).
Definition set_bold (c : Component) : Component :=
  mk_Component (c_text c) (c_color c) (Some true) (c_italic c) (c_underlined c) (c_strikethrough c)
    (c_obfuscated c) (c_extra c) (c_click_event c) (c_hover_event c).
Definition set_italic (c : Component) : Component :=
  mk_Component (c_text c) (c_color c) (c_bold c) (Some true) (c_underlined c) (c_strikethrough c)
    (c_obfuscated c) (c_extra c) (c_click_event c) (c_hover_event c).
Definition set_underlined (c : Component) : Component :=
  mk_Component (c_text c) (c_color c) (c_bold c) (c_italic c) (Some true) (c_strikethrough c)
    (c_obfuscated c) (c_extra c) (c_click_event c) (c_hover_event c).
Definition set_strikethrough (c : Component) : Component :=
  mk_Component (c_text c) (c_color c) (c_bold c) (c_italic c) (c_underlined c) (Some true)
    (c_obfuscated c) (c_extra c) (c_click_event c) (c_hover_event c).
Definition set_obfuscated (c : Component) : Component :=
  mk_Component (c_text c) (c_color c) (c_bold c) (c_italic c) (c_underlined c) (c_strikethrough c)
    (Some true) (c_extra c) (c_click_event c) (c_hover_event c).
Definition set_extra (extra : list Component) (c : Component) : Component :=
  mk_Component (c_text c) (c_color c) (c_bold c) (c_italic c) (c_underlined c) (c_strikethrough c)
    (c_obfuscated c) extra (c_click_event c) (c_hover_event c).
Definition component_append (child c : Component) : Component := set_extra (c_extra c ++ [child]) c.
Definition component_error (text : rstring) : Component := set_color (str "red") (component_text text).
Definition component_join (components : list Component) (separator : Component) : Component :=
  match components with
  | [] => component_text []
  | first :: rest =>
    foldl (λ result c, component_append c (component_append separator result)) first rest
  end.

(** ** JSON *)

(** [{:04x}] of a character below 32. *)
Definition hex_digit (d : Z) : Z := if decide (d < 10) then 48 + d else 87 + d.
Definition hex4 (z : Z) : rstring :=
  hex_digit <$> [z / 4096 mod 16; z / 256 mod 16; z / 16 mod 16; z mod 16].

Definition escape_char (c : Z) : rstring :=
  if decide (c = 34) then [92; 34]
  else if decide (c = 92) then [92; 92]
  else if decide (c = 10) then [92; 110]
  else if decide (c = 13) then [92; 114]
  else if decide (c = 9) then [92; 116]
  else if decide (c < 32) then [92; 117] ++ hex4 c
  else [c].
Definition escape_json (s : rstring) : rstring := s ≫= escape_char.

(** A member of an object, its key a literal of the code. *)
Definition json_member (key : string) (value : rstring) : rstring := quoted (str key) ++ [58] ++ value.
Definition json_string_member (key : string) (value : rstring) : rstring :=
  json_member key (quoted (escape_json value)).
Definition json_flag (key : string) (flag : option bool) : rstring :=
  match flag with Some true => [44] ++ json_member key (str "true") | _ => [] end.

Definition click_action (e : ClickEvent) : string :=
  match e with
  | OpenUrl _ => "open_url" | SuggestCommand _ => "suggest_command"
  | RunCommand _ => "run_command" | CopyToClipboard _ => "copy_to_clipboard"
  end.
Definition click_value (e : ClickEvent) : rstring :=
  match e with OpenUrl s | SuggestCommand s | RunCommand s | CopyToClipboard s => s end.

(** The loop over the children: a comma before each but the first. *)
Fixpoint comma_separated (l : list rstring) : rstring :=
  match l with
  | [] => []
  | [x] => x
  | x :: l => x ++ [44] ++ comma_separated l
  end.

Fixpoint to_json (c : Component) : rstring :=
  [123] ++ json_string_member "text" (c_text c) ++
  (match c_color c with Some color => [44] ++ json_string_member "color" color | None => [] end) ++
  json_flag "bold" (c_bold c) ++ json_flag "italic" (c_italic c) ++
  json_flag "underlined" (c_underlined c) ++ json_flag "strikethrough" (c_strikethrough c) ++
  json_flag "obfuscated" (c_obfuscated c) ++
  (match c_click_event c with
   | Some click =>
     [44] ++ json_member "clickEvent"
       ([123] ++ json_member "action" (quoted (str (click_action click))) ++ [44] ++
        json_string_member "value" (click_value click) ++ [125])
   | None => []
   end) ++
  (match c_hover_event c with
   | Some (ShowText component) =>
     [44] ++ json_member "hoverEvent"
       ([123] ++ json_member "action" (quoted (str "show_text")) ++ [44] ++
        json_member "contents" (to_json component) ++ [125])
   | None => []
   end) ++
  (match c_extra c with
   | [] => []
   | extra => [44] ++ json_member "extra" ([91] ++ comma_separated (map to_json extra) ++ [93])
   end) ++ [125].

(** ** NBT *)

Definition write_nbt_name (name : rstring) : bytes :=
  let bytes := as_bytes name in to_be_bytes 2 (zlen bytes) ++ bytes.
Definition write_nbt_string_field (name : string) (value : rstring) : bytes :=
  0x08 :: write_nbt_name (str name) ++ to_be_bytes 2 (zlen (as_bytes value)) ++ as_bytes value.
Definition write_nbt_byte_field (name : string) (value : Z) : bytes :=
  0x01 :: write_nbt_name (str name) ++ [value].
Definition write_nbt_flag (name : string) (flag : option bool) : bytes :=
  match flag with Some true => write_nbt_byte_field name 1 | _ => [] end.

Fixpoint write_nbt_compound_content (c : Component) : bytes :=
  write_nbt_string_field "text" (c_text c) ++
  (match c_color c with Some color => write_nbt_string_field "color" color | None => [] end) ++
  write_nbt_flag "bold" (c_bold c) ++ write_nbt_flag "italic" (c_italic c) ++
  write_nbt_flag "underlined" (c_underlined c) ++ write_nbt_flag "strikethrough" (c_strikethrough c) ++
  write_nbt_flag "obfuscated" (c_obfuscated c) ++
  (match c_click_event c with
   | Some click =>
     0x0A :: write_nbt_name (str "clickEvent") ++
     write_nbt_string_field "action" (str (click_action click)) ++
     write_nbt_string_field "value" (click_value click) ++ [0x00]
   | None => []
   end) ++
  (match c_hover_event c with
   | Some (ShowText component) =>
     0x0A :: write_nbt_name (str "hoverEvent") ++ write_nbt_string_field "action" (str "show_text") ++
     0x0A :: write_nbt_name (str "contents") ++ write_nbt_compound_content component ++ [0x00]
   | None => []
   end) ++
  (match c_extra c with
   | [] => []
   | extra =>
     0x09 :: write_nbt_name (str "extra") ++ 0x0A :: to_be_bytes 4 (zlen extra) ++
     concat (map write_nbt_compound_content extra)
   end) ++ [0x00].

Definition to_nbt_network (c : Component) : bytes := 0x0A :: write_nbt_compound_content c.

(** ** Plain text and legacy codes *)

(** [Display]. *)
Fixpoint to_plain (c : Component) : rstring := c_text c ++ concat (map to_plain (c_extra c)).

Definition legacy_colors : list (Z * string) :=
  [(48, "black"); (49, "dark_blue"); (50, "dark_green"); (51, "dark_aqua"); (52, "dark_red");
   (53, "dark_purple"); (54, "gold"); (55, "gray"); (56, "dark_gray"); (57, "blue"); (97, "green");
   (98, "aqua"); (99, "red"); (100, "light_purple"); (101, "yellow"); (102, "white")].
Definition legacy_color_name (c : Z) : option string :=
  (λ e, e.2.2) <$> list_find (λ e, e.1 = c) legacy_colors.

Record LegacyFmt := { lf_color : option string; lf_bold : bool; lf_italic : bool; lf_underlined : bool }.
Definition LegacyFmt_new : LegacyFmt := Build_LegacyFmt None false false false.

Definition legacy_apply (f : LegacyFmt) (text : rstring) : Component :=
  let c := component_text text in
  let c := match lf_color f with Some color => set_color (str color) c | None => c end in
  let c := if lf_bold f then set_bold c else c in
  let c := if lf_italic f then set_italic c else c in
  if lf_underlined f then set_underlined c else c.

Definition is_format_code (code : Z) : bool :=
  bool_decide (code ∈ [108; 111; 110; 114]) || bool_decide (is_Some (legacy_color_name code)).

Definition legacy_update (code : Z) (f : LegacyFmt) : LegacyFmt :=
  if decide (code = 108) then Build_LegacyFmt (lf_color f) true (lf_italic f) (lf_underlined f)
  else if decide (code = 111) then Build_LegacyFmt (lf_color f) (lf_bold f) true (lf_underlined f)
  else if decide (code = 110) then Build_LegacyFmt (lf_color f) (lf_bold f) (lf_italic f) true
  else if decide (code = 114) then LegacyFmt_new
  else Build_LegacyFmt (legacy_color_name code) (lf_bold f) (lf_italic f) (lf_underlined f).

Definition flush_segment (f : LegacyFmt) (segment : rstring) (parts : list Component) : list Component :=
  if decide (segment = []) then parts else parts ++ [legacy_apply f segment].

(** The loop over the characters. *)
Fixpoint legacy_parts (parts : list Component) (segment : rstring) (f : LegacyFmt) (chars : rstring)
    : list Component :=
  match chars with
  | [] => flush_segment f segment parts
  | ch :: chars =>
    if decide (ch = 38) then
      match chars with
      | code :: chars' =>
        if is_format_code code
        then legacy_parts (flush_segment f segment parts) [] (legacy_update code f) chars'
        else legacy_parts parts (segment ++ [38]) f chars
      | [] => legacy_parts parts (segment ++ [38]) f chars
      end
    else legacy_parts parts (segment ++ [ch]) f chars
  end.

Definition from_legacy (text : rstring) : Component :=
  match legacy_parts [] [] LegacyFmt_new text with
  | [] => component_text []
  | root :: parts => foldl (λ root part, component_append part root) root parts
  end.

(** [str::replace] with a pattern that is not empty; [skip] counts what is left of a match. *)
Fixpoint replace_go (pat by_ : rstring) (skip : nat) (s : rstring) : rstring :=
  match s with
  | [] => []
  | c :: s' =>
    match skip with
    | S skip => replace_go pat by_ skip s'
    | O => if decide (pat `prefix_of` s) then by_ ++ replace_go pat by_ (pred (length pat)) s'
           else c :: replace_go pat by_ 0 s'
    end
  end.
Definition str_replace (pat by_ s : rstring) : rstring := replace_go pat by_ 0 s.

Definition format_placeholders (template : rstring) (vars : list (rstring * rstring)) : rstring :=
  foldl (λ result kv, str_replace ([123] ++ kv.1 ++ [125]) kv.2 result) template vars.
Definition from_legacy_format (template : rstring) (vars : list (rstring * rstring)) : Component :=
  from_legacy (format_placeholders template vars).

(** ** Reading JSON components *)

Definition parse_click_event (map : list (rstring * Value)) : option ClickEvent :=
  value ← json_get (str "value") as_str map;
  action ← json_get (str "action") as_str map;
  if decide (action = str "open_url") then Some (OpenUrl value)
  else if decide (action = str "suggest_command") then Some (SuggestCommand value)
  else if decide (action = str "run_command") then Some (RunCommand value)
  else if decide (action = str "copy_to_clipboard") then Some (CopyToClipboard value)
  else None.

(** [convert] is [from_json_value]. *)
Definition parse_hover_event (convert : Value → Component) (map : list (rstring * Value))
    : option (HoverEvent Component) :=
  action ← json_get (str "action") as_str map;
  if decide (action = str "show_text") then
    match json_get (str "contents") (λ v, Some (convert v)) map with
    | Some contents => Some (ShowText contents)
    | None => json_get (str "value") (λ v, Some (ShowText (convert v))) map
    end
  else None.

Fixpoint from_json_value (value : Value) : Component :=
  match value with
  | VStr s => component_text s
  | VBool b => component_text (str (if b then "true" else "false"))
  | VNumber n => component_text n
  | VNull => component_text []
  | VArray items =>
    match items with
    | [] => component_text []
    | first :: rest =>
      let root := from_json_value first in
      set_extra (c_extra root ++ map from_json_value rest) root
    end
  | VObject m =>
    mk_Component (default [] (json_get (str "text") as_str m)) (json_get (str "color") as_str m)
      (json_get (str "bold") as_bool m) (json_get (str "italic") as_bool m)
      (json_get (str "underlined") as_bool m) (json_get (str "strikethrough") as_bool m)
      (json_get (str "obfuscated") as_bool m)
      (default [] (json_get (str "extra")
         (λ v, match v with VArray extra => Some (map from_json_value extra) | _ => None end) m))
      (json_get (str "clickEvent")
         (λ v, match v with VObject e => parse_click_event e | _ => None end) m)
      (json_get (str "hoverEvent")
         (λ v, match v with VObject e => parse_hover_event from_json_value e | _ => None end) m)
  end.

Definition from_json `{SerdeJson} (s : rstring) : option Component :=
  from_json_value <$> json_from_str s.

(** ** Titles *)

Record TitleData := mk_TitleData {
  td_title : Component;
  td_subtitle : Component;
  td_fade_in_ticks : Z;
  td_stay_ticks : Z;
  td_fade_out_ticks : Z }.
Definition TitleData_new (title subtitle : Component) : TitleData := mk_TitleData title subtitle 10 70 20.

(** ** Induction over the tree *)

Section component_ind.
Context (P : Component → Prop).
Context (Hstep : ∀ text color b i u s o extra click hover,
  Forall P extra → (∀ c, hover = Some (ShowText c) → P c) →
  P (mk_Component text color b i u s o extra click hover)).

Lemma component_nested_ind (c : Component) : P c.
Proof.
  revert c. fix IH 1. intros [text color b i u s o extra click hover]. apply Hstep.
  - induction extra as [|x extra IHe]; constructor; [apply IH|exact IHe].
  - destruct hover as [[h]|]; [|discriminate]. intros c [= <-]. apply IH.
Qed.
End component_ind.

(** ** What the encodings carry *)

(** A flag is written only when it is set to true. *)
Definition keep_true (flag : option bool) : option bool :=
  match flag with Some true => Some true | _ => None end.
Fixpoint comp_norm (c : Component) : Component :=
  mk_Component (c_text c) (c_color c) (keep_true (c_bold c)) (keep_true (c_italic c))
    (keep_true (c_underlined c)) (keep_true (c_strikethrough c)) (keep_true (c_obfuscated c))
    (map comp_norm (c_extra c)) (c_click_event c)
    (match c_hover_event c with Some (ShowText h) => Some (ShowText (comp_norm h)) | None => None end).

(** Every string of the tree satisfies [p]. *)
Fixpoint comp_strings (p : rstring → bool) (c : Component) : bool :=
  p (c_text c) && match c_color c with Some s => p s | None => true end &&
  match c_click_event c with Some e => p (click_value e) | None => true end &&
  match c_hover_event c with Some (ShowText h) => comp_strings p h | None => true end &&
  forallb (comp_strings p) (c_extra c).

(** The levels of components below one, through children and tooltips. *)
Fixpoint comp_height (c : Component) : Z :=
  1 + Z.max (match c_hover_event c with Some (ShowText h) => comp_height h | None => 0 end)
            (foldr Z.max 0 (map comp_height (c_extra c))).

(** *** The JSON value of a component *)

Definition members_of (l : list (rstring * option Value)) : list (rstring * Value) :=
  omap (λ e, (e.1,.) <$> e.2) l.
Definition flag_value (flag : option bool) : option Value :=
  match flag with Some true => Some (VBool true) | _ => None end.
Definition click_json (e : ClickEvent) : Value :=
  object_of [(str "action", VStr (str (click_action e))); (str "value", VStr (click_value e))].

Fixpoint json_of (c : Component) : Value :=
  object_of (members_of
    [(str "text", Some (VStr (c_text c))); (str "color", VStr <$> c_color c);
     (str "bold", flag_value (c_bold c)); (str "italic", flag_value (c_italic c));
     (str "underlined", flag_value (c_underlined c));
     (str "strikethrough", flag_value (c_strikethrough c));
     (str "obfuscated", flag_value (c_obfuscated c));
     (str "clickEvent", click_json <$> c_click_event c);
     (str "hoverEvent",
       match c_hover_event c with
       | Some (ShowText h) =>
         Some (object_of [(str "action", VStr (str "show_text")); (str "contents", json_of h)])
       | None => None
       end);
     (str "extra",
       match c_extra c with [] => None | extra => Some (VArray (map json_of extra)) end)]).

(** ** The text that is written is JSON *)

Lemma json_chars_plain (s : rstring) :
  Forall (λ c, 32 ≤ c ∧ c ≠ 34 ∧ c ≠ 92) s → json_chars s s.
Proof. induction 1 as [|c s (?&?&?) _ IH]; constructor; done. Qed.

(** The names the code writes. *)
Definition plain_name (s : string) : bool :=
  bool_decide (Forall (λ c, 32 ≤ c ∧ c ≠ 34 ∧ c ≠ 92) (str s)).
Lemma json_chars_name (s : string) : plain_name s = true → json_chars (str s) (str s).
Proof. intros Hs. by apply json_chars_plain, (bool_decide_eq_true_1 _). Qed.

Lemma escape_char_control :
  ∀ c, is_byte c → c < 32 →
    hex_value <$> hex4 c = Some <$> [0; 0; c / 16; c mod 16] ∧ (c / 16) * 16 + c mod 16 = c.
Proof.
  apply (byte_forall (λ c, c < 32 → hex_value <$> hex4 c = Some <$> [0; 0; c / 16; c mod 16] ∧
    (c / 16) * 16 + c mod 16 = c)). by vm_compute.
Qed.

Lemma escape_char_text c s t :
  is_char c → json_chars s t → json_chars (c :: s) (escape_char c ++ t).
Proof.
  intros Hc Hs. unfold escape_char.
  destruct (decide (c = 34)) as [->|]; [by apply (jc_escape 34)|].
  destruct (decide (c = 92)) as [->|]; [by apply (jc_escape 92)|].
  destruct (decide (c = 10)) as [->|]; [by apply (jc_escape 110)|].
  destruct (decide (c = 13)) as [->|]; [by apply (jc_escape 114)|].
  destruct (decide (c = 9)) as [->|]; [by apply (jc_escape 116)|].
  destruct (decide (c < 32)); [|by apply jc_plain; try lia].
  assert (Hb : is_byte c) by (unfold is_char, is_byte in *; lia).
  destruct (escape_char_control c Hb) as [Hh Hv]; [done|]. unfold hex4 in *.
  cbn [fmap list_fmap] in Hh. injection Hh as H1 H2 H3 H4.
  replace c with (((0 * 16 + 0) * 16 + c / 16) * 16 + c mod 16) at 1 by lia.
  apply jc_hex; [done..| |done].
  by replace (((0 * 16 + 0) * 16 + c / 16) * 16 + c mod 16) with c by lia.
Qed.

Lemma escape_json_text s : is_string s → json_chars s (escape_json s).
Proof.
  induction 1 as [|c s Hc _ IH]; [constructor|]. change (escape_json (c :: s)) with (escape_char c ++ escape_json s).
  by apply escape_char_text.
Qed.

Lemma json_members_snoc kvs t k kt v vt :
  json_members kvs t → json_chars k kt → json_text v vt →
  json_members (kvs ++ [(k, v)]) (t ++ [44] ++ quoted kt ++ [58] ++ vt).
Proof.
  intros Hm Hk Hv. induction Hm as [k' kt' v' t' Hk' Hv'|k' kt' v' t' kvs ts Hk' Hv' _ IH]; cbn [app].
  - replace ((quoted kt' ++ 58 :: t') ++ 44 :: quoted kt ++ 58 :: vt)
      with (quoted kt' ++ [58] ++ t' ++ [44] ++ (quoted kt ++ [58] ++ vt)) by (by rewrite <- !app_assoc).
    apply jm_cons; [done..|]. by apply jm_one.
  - replace ((quoted kt' ++ 58 :: t' ++ 44 :: ts) ++ 44 :: quoted kt ++ 58 :: vt)
      with (quoted kt' ++ [58] ++ t' ++ [44] ++ (ts ++ [44] ++ quoted kt ++ [58] ++ vt))
      by (by cbn; rewrite <- !app_assoc; cbn; rewrite <- !app_assoc).
    by apply jm_cons.
Qed.

(** An optional member and its text, with the comma before it. *)
Definition member_text (e : rstring * option Value) (u : rstring) : Prop :=
  match e.2 with
  | Some v => ∃ kt vt, json_chars e.1 kt ∧ json_text v vt ∧ u = [44] ++ quoted kt ++ [58] ++ vt
  | None => u = []
  end.

Lemma json_members_more l us kvs t :
  json_members kvs t → Forall2 member_text l us → json_members (kvs ++ members_of l) (t ++ concat us).
Proof.
  intros Hm Hl. revert kvs t Hm. induction Hl as [|[k [v|]] u l us Hu _ IH]; intros kvs t Hm.
  - by rewrite !app_nil_r.
  - destruct Hu as (kt&vt&Hk&Hv&->). cbn [concat]. rewrite (app_assoc t).
    change (members_of ((k, Some v) :: l)) with ([(k, v)] ++ members_of l). rewrite (app_assoc kvs).
    apply IH. by apply json_members_snoc.
  - cbn in Hu. subst u. by apply IH.
Qed.

Lemma flag_text k flag : plain_name k = true → member_text (str k, flag_value flag) (json_flag k flag).
Proof.
  intros Hk. destruct flag as [[]|]; [|done..]. exists (str k), (str "true").
  split_and!; [by apply json_chars_name|constructor|]. unfold json_flag, json_member. by rewrite <- ?app_assoc.
Qed.

Lemma string_member_text k s :
  plain_name k = true → is_string s →
  member_text (str k, Some (VStr s)) ([44] ++ json_string_member k s).
Proof.
  intros Hk Hs. exists (str k), (quoted (escape_json s)).
  split_and!; [by apply json_chars_name|by constructor; apply escape_json_text|done].
Qed.

Lemma object_text kvs t : NoDup kvs.*1 → json_members kvs t → json_text (object_of kvs) ([123] ++ t ++ [125]).
Proof. apply jt_object. Qed.

Lemma click_text e : is_string (click_value e) →
  json_text (click_json e) ([123] ++ json_member "action" (quoted (str (click_action e))) ++ [44] ++
    json_string_member "value" (click_value e) ++ [125]).
Proof.
  intros Hs. set (a := json_member _ _). set (b := json_string_member _ _).
  replace ([123] ++ a ++ [44] ++ b ++ [125]) with ([123] ++ (a ++ [44] ++ b) ++ [125]) by (by rewrite <- !app_assoc).
  apply object_text; [apply (bool_decide_unpack _); by vm_compute|]. subst a b.
  apply (json_members_snoc [_]); [|by apply json_chars_name|by constructor; apply escape_json_text].
  apply jm_one; [by apply json_chars_name|]. constructor. apply json_chars_name. by destruct e.
Qed.

Lemma members_of_cons k v l : members_of ((k, Some v) :: l) = [(k, v)] ++ members_of l.
Proof. reflexivity. Qed.

Lemma members_of_keys l : (members_of l).*1 `sublist_of` l.*1.
Proof.
  induction l as [|[k [v|]] l IH]; [done| |]; cbn; by constructor.
Qed.

Lemma elements_text (l : list Component) :
  l ≠ [] → Forall (λ c, json_text (json_of c) (to_json c)) l →
  json_elements (map json_of l) (comma_separated (map to_json l)).
Proof.
  intros Hne Hl. induction Hl as [|c l Hc Hl IH]; [done|]. destruct l as [|c' l]; [by constructor|].
  change (comma_separated (map to_json (c :: c' :: l)))
    with (to_json c ++ [44] ++ comma_separated (map to_json (c' :: l))).
  constructor; [done|]. by apply IH.
Qed.

Abbreviation valid_text s := (bool_decide (is_string s)).

Lemma json_of_text c : comp_strings (λ s, valid_text s) c = true → json_text (json_of c) (to_json c).
Proof.
  induction c as [text color b i u s o extra click hover IHe IHh] using component_nested_ind.
  cbn [comp_strings c_text c_color c_click_event c_hover_event c_extra].
  intros [[[[Ht%bool_decide_eq_true Hc]%andb_true_iff Hk]%andb_true_iff Hh]%andb_true_iff He]%andb_true_iff.
  cbn [to_json json_of c_text c_color c_bold c_italic c_underlined c_strikethrough c_obfuscated
    c_click_event c_hover_event c_extra].
  set (members := members_of _). match goal with
    |- json_text _ ([123] ++ ?m ++ ?us1 ++ ?us2 ++ ?us3 ++ ?us4 ++ ?us5 ++ ?us6 ++ ?us7 ++ ?us8 ++ ?us9 ++ [125]) =>
      replace ([123] ++ m ++ us1 ++ us2 ++ us3 ++ us4 ++ us5 ++ us6 ++ us7 ++ us8 ++ us9 ++ [125])
        with ([123] ++ (m ++ concat [us1; us2; us3; us4; us5; us6; us7; us8; us9]) ++ [125])
        by (cbn [concat]; rewrite app_nil_r, <- !app_assoc; reflexivity)
  end.
  apply object_text.
  { eapply sublist_NoDup; [|apply members_of_keys]. apply (bool_decide_unpack _). by vm_compute. }
  subst members. rewrite members_of_cons.
  apply json_members_more; [apply jm_one; [by apply json_chars_name|by constructor; apply escape_json_text]|].
  apply Forall2_cons. split.
  { destruct color as [col|]; [|done]. apply bool_decide_eq_true in Hc. by apply string_member_text. }
  do 5 (apply Forall2_cons; split; [by apply flag_text|]).
  apply Forall2_cons. split.
  { destruct click as [e|]; [|done]. apply bool_decide_eq_true in Hk.
    eexists _, _. split_and!; [by apply json_chars_name|by apply click_text|done]. }
  apply Forall2_cons. split.
  { destruct hover as [[h]|]; [|done]. eexists _, _.
    split_and!; [by apply json_chars_name| |reflexivity].
    set (a := json_member "action" _). set (d := json_member "contents" _).
    replace ([123] ++ a ++ [44] ++ d ++ [125]) with ([123] ++ (a ++ [44] ++ d) ++ [125]) by (by rewrite <- !app_assoc).
    apply object_text; [apply (bool_decide_unpack _); by vm_compute|]. subst a d.
    apply (json_members_snoc [_]); [|by apply json_chars_name|by apply IHh].
    apply jm_one; [by apply json_chars_name|]. constructor. by apply json_chars_name. }
  apply Forall2_cons. split; [|done].
  destruct extra as [|x extra]; [done|]. eexists _, _.
  split_and!; [by apply json_chars_name| |reflexivity]. apply jt_array, elements_text; [done|].
  apply Is_true_true_2, forallb_True in He. rewrite Forall_forall in IHe, He. apply Forall_forall.
  intros c Hin. apply IHe; [done|]. by apply Is_true_true, He.
Qed.

(** ** Reading it back *)

Lemma json_get_members {A} (f : Value → option A) l k o :
  NoDup l.*1 → (k, o) ∈ l →
  json_get k f (foldl (λ m kv, map_insert kv.1 kv.2 m) [] (members_of l)) = o ≫= f.
Proof.
  intros Hn Hin. rewrite json_get_object by (eapply sublist_NoDup; [done|apply members_of_keys]).
  induction l as [|[k' o'] l IH]; [by apply not_elem_of_nil in Hin|].
  cbn [fmap list_fmap fst] in Hn. apply NoDup_cons in Hn as [Hk Hn].
  assert (Hcons : json_get k f (members_of ((k', o') :: l)) =
    if decide (k' = k) then match o' with Some v => f v | None => json_get k f (members_of l) end
    else json_get k f (members_of l)).
  { destruct o' as [v|]; cbn; [done|by case_decide]. }
  rewrite Hcons. apply elem_of_cons in Hin as [[= -> ->]|Hin].
  - rewrite decide_True by done. destruct o' as [v|]; [done|]. clear -Hk.
    induction l as [|[k o] l IH]; [done|]. cbn [fmap list_fmap fst] in Hk. rewrite elem_of_cons in Hk.
    destruct o as [v|]; [|apply IH; naive_solver].
    rewrite members_of_cons. cbn [app json_get]. rewrite decide_False by naive_solver. apply IH. naive_solver.
  - rewrite decide_False; [by apply IH|]. intros ->. apply Hk.
    apply list_elem_of_fmap. by exists (k, o).
Qed.

Lemma keep_flag flag : flag_value flag ≫= as_bool = keep_true flag.
Proof. by destruct flag as [[]|]. Qed.

Lemma click_json_parse e :
  match click_json e with VObject m => parse_click_event m | _ => None end = Some e.
Proof.
  unfold click_json, object_of, parse_click_event.
  rewrite !json_get_object by (apply (bool_decide_unpack _); by vm_compute). by destruct e.
Qed.

Lemma from_json_value_json_of c : from_json_value (json_of c) = comp_norm c.
Proof.
  induction c as [text color b i u s o extra click hover IHe IHh] using component_nested_ind.
  cbn [json_of comp_norm c_text c_color c_bold c_italic c_underlined c_strikethrough c_obfuscated
    c_click_event c_hover_event c_extra]. set (l := [(str "text", _); _; _; _; _; _; _; _; _; _]).
  assert (Hn : NoDup l.*1) by (apply (bool_decide_unpack _); by vm_compute).
  unfold object_of at 1. cbn [from_json_value].
  rewrite (json_get_members _ l (str "text") (Some (VStr text)) Hn) by set_solver.
  rewrite (json_get_members _ l (str "color") (VStr <$> color) Hn) by set_solver.
  rewrite (json_get_members _ l (str "bold") (flag_value b) Hn) by set_solver.
  rewrite (json_get_members _ l (str "italic") (flag_value i) Hn) by set_solver.
  rewrite (json_get_members _ l (str "underlined") (flag_value u) Hn) by set_solver.
  rewrite (json_get_members _ l (str "strikethrough") (flag_value s) Hn) by set_solver.
  rewrite (json_get_members _ l (str "obfuscated") (flag_value o) Hn) by set_solver.
  rewrite (json_get_members _ l (str "extra") _ Hn) by (unfold l; do 9 right; left).
  rewrite (json_get_members _ l (str "clickEvent") (click_json <$> click) Hn) by set_solver.
  rewrite (json_get_members _ l (str "hoverEvent") _ Hn) by (unfold l; do 8 right; left).
  rewrite !keep_flag. clear Hn l. f_equal.
  - by destruct color.
  - destruct extra as [|x extra]; [done|]. cbn [mbind option_bind]. cbv [mbind option_bind]. cbn [default].
    rewrite map_map. apply map_ext_Forall. exact IHe.
  - destruct click as [e|]; [|done]. cbv [mbind option_bind fmap option_fmap option_map].
    apply click_json_parse.
  - destruct hover as [[h]|]; [|done]. cbv [mbind option_bind]. unfold object_of, parse_hover_event.
    rewrite !json_get_object by (apply (bool_decide_unpack _); by vm_compute).
    change (json_get (str "action") as_str ?l) with (Some (str "show_text")).
    cbv [mbind option_bind]. rewrite decide_True by done.
    change (json_get (str "contents") (λ v, Some (from_json_value v)) ?l) with (Some (from_json_value (json_of h))).
    by rewrite (IHh h eq_refl).
Qed.

(** ** The NBT that is written is a tree *)

Definition nbt_string_field (name : string) (value : rstring) : bytes * Nbt :=
  (as_bytes (str name), NString (as_bytes value)).
Definition nbt_flag (name : string) (flag : option bool) : list (bytes * Nbt) :=
  match flag with Some true => [(as_bytes (str name), NByte 1)] | _ => [] end.

Definition click_nbt (e : ClickEvent) : Nbt :=
  NCompound [nbt_string_field "action" (str (click_action e)); nbt_string_field "value" (click_value e)].

Fixpoint component_nbt (c : Component) : list (bytes * Nbt) :=
  [nbt_string_field "text" (c_text c)] ++
  match c_color c with Some color => [nbt_string_field "color" color] | None => [] end ++
  nbt_flag "bold" (c_bold c) ++ nbt_flag "italic" (c_italic c) ++
  nbt_flag "underlined" (c_underlined c) ++ nbt_flag "strikethrough" (c_strikethrough c) ++
  nbt_flag "obfuscated" (c_obfuscated c) ++
  match c_click_event c with Some e => [(as_bytes (str "clickEvent"), click_nbt e)] | None => [] end ++
  match c_hover_event c with
  | Some (ShowText h) =>
    [(as_bytes (str "hoverEvent"),
      NCompound [nbt_string_field "action" (str "show_text");
                 (as_bytes (str "contents"), NCompound (component_nbt h))])]
  | None => []
  end ++
  match c_extra c with
  | [] => []
  | extra => [(as_bytes (str "extra"),
               NList TAG_COMPOUND (map (λ x, NCompound (component_nbt x)) extra))]
  end.

(** The fields of a compound, one after the other. *)
Abbreviation fields_payload fs := (concat (map (λ f, nbt_field f) fs)).

Lemma string_field_payload name value :
  fields_payload [nbt_string_field name value] = write_nbt_string_field name value.
Proof. cbn. rewrite app_nil_r. reflexivity. Qed.

Lemma flag_payload name flag : fields_payload (nbt_flag name flag) = write_nbt_flag name flag.
Proof. destruct flag as [[]|]; [|done..]. cbn. by rewrite app_nil_r. Qed.

Lemma click_payload e :
  fields_payload [(as_bytes (str "clickEvent"), click_nbt e)] =
  0x0A :: write_nbt_name (str "clickEvent") ++ write_nbt_string_field "action" (str (click_action e)) ++
    write_nbt_string_field "value" (click_value e) ++ [0x00].
Proof.
  cbn [map concat fst snd]. rewrite app_nil_r. unfold click_nbt. cbn [nbt_payload map concat fst snd nbt_tag].
  unfold write_nbt_name, write_nbt_string_field, nbt_text, nbt_string_field. cbn [fst snd nbt_payload nbt_tag].
  rewrite app_nil_r. cbn [app]. rewrite <- !app_assoc. done.
Qed.

Lemma extra_payload (l : list Component) :
  Forall (λ c, write_nbt_compound_content c = nbt_payload (NCompound (component_nbt c))) l →
  fields_payload [(as_bytes (str "extra"), NList TAG_COMPOUND (map (λ x, NCompound (component_nbt x)) l))] =
  0x09 :: write_nbt_name (str "extra") ++ 0x0A :: to_be_bytes 4 (zlen l) ++
    concat (map write_nbt_compound_content l).
Proof.
  intros Hl. assert (He : concat (map write_nbt_compound_content l) =
    concat (map nbt_payload (map (λ x, NCompound (component_nbt x)) l))).
  { rewrite map_map. f_equal. by apply map_ext_Forall. }
  assert (Hz : zlen (map (λ x, NCompound (component_nbt x)) l) = zlen l)
    by (unfold zlen; by rewrite length_map).
  rewrite He. cbn [map concat fst snd nbt_tag]. rewrite app_nil_r.
  change (nbt_payload (NList TAG_COMPOUND ?x)) with (TAG_COMPOUND :: to_be_bytes 4 (zlen x) ++ concat (map nbt_payload x)).
  by rewrite Hz.
Qed.

Lemma component_nbt_payload c : write_nbt_compound_content c = nbt_payload (NCompound (component_nbt c)).
Proof.
  induction c as [text color b i u s o extra click hover IHe IHh] using component_nested_ind.
  cbn [nbt_payload]. cbn [write_nbt_compound_content component_nbt c_text c_color c_bold c_italic c_underlined
    c_strikethrough c_obfuscated c_click_event c_hover_event c_extra].
  rewrite !map_app, !concat_app, !flag_payload, string_field_payload. rewrite <- !app_assoc.
  f_equal. f_equal; [destruct color; [by rewrite string_field_payload|done]|].
  do 5 f_equal. f_equal; [destruct click; [by rewrite click_payload|done]|].
  f_equal; [|f_equal].
  - destruct hover as [[h]|]; [|done]. rewrite (IHh h eq_refl). cbn [map concat fst snd nbt_tag].
    cbn [nbt_payload map concat fst snd nbt_tag]. rewrite !app_nil_r.
    unfold write_nbt_name, write_nbt_string_field, nbt_text, nbt_string_field. cbn [fst snd nbt_payload nbt_tag].
    cbn [app]. rewrite <- !app_assoc. cbn [app]. rewrite <- !app_assoc. done.
  - destruct extra as [|x extra]; [done|]. by rewrite extra_payload.
Qed.

(** Strings and lists that the length fields of NBT can count. *)
Definition fits_u16 (s : rstring) : bool := bool_decide (zlen (as_bytes s) < 2 ^ 16).
Fixpoint comp_fits (c : Component) : bool :=
  fits_u16 (c_text c) && match c_color c with Some s => fits_u16 s | None => true end &&
  match c_click_event c with Some e => fits_u16 (click_value e) | None => true end &&
  match c_hover_event c with Some (ShowText h) => comp_fits h | None => true end &&
  (bool_decide (zlen (c_extra c) < 2 ^ 31) && forallb comp_fits (c_extra c)).

Abbreviation fields_ok depth fs :=
  (forallb (λ f, bool_decide (zlen f.1 < 2 ^ 16) && nbt_ok depth f.2) fs).

Lemma string_field_ok depth name value :
  depth ≤ MAX_DEPTH → fits_u16 (str name) = true → fits_u16 value = true →
  fields_ok depth [nbt_string_field name value] = true.
Proof.
  intros Hd Hn Hv. cbn [forallb nbt_string_field fst snd nbt_ok].
  unfold fits_u16 in *. rewrite Hn, Hv, bool_decide_eq_true_2; done.
Qed.

Lemma flag_ok depth name flag :
  depth ≤ MAX_DEPTH → fits_u16 (str name) = true → fields_ok depth (nbt_flag name flag) = true.
Proof.
  intros Hd Hn. destruct flag as [[]|]; [|done..]. cbn [forallb nbt_flag fst snd nbt_ok].
  unfold fits_u16 in *. rewrite Hn, bool_decide_eq_true_2; done.
Qed.

Lemma compound_ok depth name fs :
  depth + 1 ≤ MAX_DEPTH → fits_u16 (str name) = true → fields_ok (depth + 1) fs = true →
  fields_ok depth [(as_bytes (str name), NCompound fs)] = true.
Proof.
  intros Hd Hn Hfs. cbn [forallb fst snd nbt_ok]. unfold fits_u16 in Hn.
  rewrite Hn, Hfs, !bool_decide_eq_true_2 by lia. done.
Qed.

Lemma foldr_max_nonneg (l : list Z) : 0 ≤ foldr Z.max 0 l.
Proof. induction l; cbn [foldr]; lia. Qed.
Lemma foldr_max_le {A} (f : A → Z) (l : list A) x : x ∈ l → f x ≤ foldr Z.max 0 (map f l).
Proof.
  induction l as [|y l IH]; intros Hx; [by apply not_elem_of_nil in Hx|].
  cbn [map foldr]. apply elem_of_cons in Hx as [->|Hx]; [lia|]. specialize (IH Hx). lia.
Qed.

Lemma comp_height_pos c : 1 ≤ comp_height c.
Proof.
  destruct c. cbn [comp_height c_extra]. pose proof (foldr_max_nonneg (map comp_height c_extra0)). lia.
Qed.

Lemma component_nbt_ok c depth :
  comp_fits c = true → 0 ≤ depth → depth + 2 * comp_height c ≤ MAX_DEPTH + 1 →
  fields_ok depth (component_nbt c) = true.
Proof.
  revert depth. induction c as [text color b i u s o extra click hover IHe IHh] using component_nested_ind.
  intros depth. cbn [comp_fits comp_height component_nbt c_text c_color c_click_event c_hover_event c_extra
    c_bold c_italic c_underlined c_strikethrough c_obfuscated].
  intros [[[[Ht Hc]%andb_true_iff Hk]%andb_true_iff Hh]%andb_true_iff
    [Hn%bool_decide_eq_true He]%andb_true_iff]%andb_true_iff Hd Hmax.
  set (hs := foldr Z.max 0 (map comp_height extra)) in *.
  assert (Hhs : 0 ≤ hs) by apply foldr_max_nonneg.
  rewrite !forallb_app, !flag_ok, string_field_ok by (done || lia).
  cbn [andb]. repeat (apply andb_true_iff; split); try done.
  - destruct color; [|done]. apply string_field_ok; [lia|done..].
  - destruct click as [e|]; [|done]. apply compound_ok; [lia|done|].
    change [?a; ?b] with ([a] ++ [b]). rewrite forallb_app, !string_field_ok; try done; try lia.
    by destruct e.
  - destruct hover as [[h]|]; [|done]. pose proof (comp_height_pos h). apply compound_ok; [lia|done|].
    change [?a; ?b] with ([a] ++ [b]). rewrite forallb_app, string_field_ok by (done || lia).
    apply compound_ok; [lia|done|]. apply IHh; [done..|lia|lia].
  - destruct extra as [|x extra]; [done|]. cbn [forallb fst snd]. rewrite andb_true_r.
    apply andb_true_iff. split; [done|]. cbn [nbt_ok]. rewrite bool_decide_eq_true_2 by lia. cbn [andb].
    apply andb_true_iff. split.
    { apply bool_decide_eq_true. unfold zlen in *. by rewrite length_map. }
    apply forallb_forall. intros t (y&<-&Hy%list_elem_of_In)%in_map_iff.
    rewrite bool_decide_eq_true_2 by done. cbn [andb nbt_ok].
    assert (Hin : comp_height y ≤ hs) by (by apply foldr_max_le).
    pose proof (comp_height_pos y). rewrite !bool_decide_eq_true_2 by lia. cbn [andb]. rewrite Forall_forall in IHe.
    apply IHe; [done| |lia|lia]. apply Is_true_true_2, forallb_True in He.
    rewrite Forall_forall in He. by apply Is_true_true, He.
Qed.

(** ** Legacy codes *)

(** The text without its format codes. *)
Fixpoint strip_legacy (chars : rstring) : rstring :=
  match chars with
  | [] => []
  | ch :: chars =>
    if decide (ch = 38) then
      match chars with
      | code :: chars' => if is_format_code code then strip_legacy chars' else 38 :: strip_legacy chars
      | [] => [38]
      end
    else ch :: strip_legacy chars
  end.

Lemma legacy_apply_plain f text : to_plain (legacy_apply f text) = text.
Proof. destruct f as [[col|] [] [] []]; cbn; by rewrite app_nil_r. Qed.

Lemma flush_segment_plain f segment parts :
  concat (map to_plain (flush_segment f segment parts)) = concat (map to_plain parts) ++ segment.
Proof.
  unfold flush_segment. case_decide as Hs; [by rewrite Hs, app_nil_r|].
  rewrite map_app, concat_app. cbn [map concat]. by rewrite app_nil_r, legacy_apply_plain.
Qed.

Lemma legacy_parts_plain n parts segment f chars :
  (length chars ≤ n)%nat →
  concat (map to_plain (legacy_parts parts segment f chars)) =
  concat (map to_plain parts) ++ segment ++ strip_legacy chars.
Proof.
  revert parts segment f chars. induction n as [|n IH]; intros parts segment f chars Hn;
    destruct chars as [|ch chars]; cbn [length] in Hn; try lia;
    try (cbn [legacy_parts strip_legacy]; by rewrite flush_segment_plain, app_nil_r).
  cbn [legacy_parts strip_legacy]. destruct (decide (ch = 38)) as [->|].
  - destruct chars as [|code chars]; [rewrite IH by lia; by rewrite <- !app_assoc|].
    destruct (is_format_code code); rewrite IH by (cbn [length] in *; lia).
    + by rewrite flush_segment_plain, <- app_assoc.
    + by rewrite <- !app_assoc.
  - rewrite IH by lia. by rewrite <- !app_assoc.
Qed.

Lemma append_all_plain parts root :
  to_plain (foldl (λ root part, component_append part root) root parts) =
  to_plain root ++ concat (map to_plain parts).
Proof.
  revert root. induction parts as [|p parts IH]; intros root; [by rewrite app_nil_r|].
  cbn [foldl map concat]. rewrite IH, app_assoc. f_equal. destruct root. cbn.
  rewrite map_app, concat_app. cbn. by rewrite app_nil_r, app_assoc.
Qed.

(** Parsing a text with colour codes keeps every character that is not part of a code,
    in order. *)
Theorem from_legacy_keeps_text (text : rstring) : to_plain (from_legacy text) = strip_legacy text.
Proof.
  pose proof (legacy_parts_plain (length text) [] [] LegacyFmt_new text (le_n _)) as Hp.
  unfold from_legacy. destruct (legacy_parts [] [] LegacyFmt_new text) as [|root parts]; [done|].
  by rewrite append_all_plain.
Qed.

(** ** Theorems *)

Section theorems.
Context `{SJ : SerdeJson, SJL : !SerdeJsonLaws}.

(** C39: A text component written as JSON and parsed again is the same component, up to
    flags that are false, which are not written. *)
Theorem component_json_roundtrip (c : Component) :
  comp_strings (λ s, valid_text s) c = true → json_depth (json_of c) ≤ 127 →
  from_json (to_json c) = Some (comp_norm c).
Proof.
  intros Hs Hd. unfold from_json. rewrite (json_from_str_text (json_of c)); [|by apply json_of_text|done].
  cbn. by rewrite from_json_value_json_of.
Qed.
End theorems.

(** A component whose texts fit the 16-bit lengths is written as the bytes of one NBT
    compound with its fields, which the NBT reader skips exactly. *)
Theorem component_nbt_exact (c : Component) (rest : bytes) :
  comp_fits c = true → comp_height c ≤ 256 →
  to_nbt_network c = TAG_COMPOUND :: nbt_payload (NCompound (component_nbt c)) ∧
  skip_root_payload (tail (to_nbt_network c) ++ rest) = Ok ((), rest).
Proof.
  intros Hf Hh. unfold to_nbt_network. rewrite component_nbt_payload. split; [done|]. cbn [tail].
  unfold skip_root_payload, skip_fuel_for.
  apply skip_compound_reads; [apply Forall_true; intros; apply skips_all|done| |].
  - apply component_nbt_ok; [done..|unfold MAX_DEPTH; lia].
  - rewrite length_app. lia.
Qed.

(** The length of a longer text wraps around, and what follows is no NBT. *)
Lemma long_text_is_no_nbt :
  skip_root_payload (tail (to_nbt_network (component_text (replicate (Z.to_nat 65536) 97)))) =
  Err (Invalid "unknown NBT tag type: 97").
Proof. by vm_compute. Qed.

Definition sample_component : Component :=
  mk_Component (str "Hi" ++ [10; 34; 8364]) (Some (str "gold")) (Some true) None (Some false) None None
    [component_text (str "there"); component_error (str "x")] (Some (RunCommand (str "/ir help")))
    (Some (ShowText (component_text (str "tip")))).

Lemma component_json_roundtrip_witness :
  from_json (to_json sample_component) = Some (comp_norm sample_component).
Proof. refine (component_json_roundtrip sample_component _ _); by vm_compute. Defined.

Lemma component_nbt_exact_witness :
  to_nbt_network sample_component = TAG_COMPOUND :: nbt_payload (NCompound (component_nbt sample_component)) ∧
  skip_root_payload (tail (to_nbt_network sample_component) ++ [1; 2]) = Ok ((), [1; 2]).
Proof. refine (component_nbt_exact sample_component [1; 2] _ _); by vm_compute. Defined.
