(* ===== verification/Commands.v ===== *)
(** * Commands: the command tree packet

    Models [packets/play/commands.rs]: the nodes of the Brigadier command graph,
    their argument parsers, by identifier before 1.19 and by index since, and the
    properties each parser carries, which the proxy keeps as raw bytes. *)
From S2P Require Import Prelude Wire Utf8 VarInt Codec Version Packet.

Definition NODE_TYPE_MASK : Z := 0x03.
Definition NODE_TYPE_ROOT : Z := 0x00.
Definition NODE_TYPE_LITERAL : Z := 0x01.
Definition NODE_TYPE_ARGUMENT : Z := 0x02.
Definition FLAG_EXECUTABLE : Z := 0x04.
Definition FLAG_REDIRECT : Z := 0x08.
Definition FLAG_SUGGESTIONS : Z := 0x10.

Inductive Parser :=
| Named (identifier : rstring) (properties : bytes)
| Indexed (id : Z) (properties : bytes).

Record CommandNode := mk_CommandNode {
  cn_flags : Z;
  cn_children : list Z;
  cn_redirect_node : option Z;
  cn_name : option rstring;
  cn_parser : option Parser;
  cn_suggestions_type : option rstring;
}.

Record CCommands := mk_CCommands { cmd_nodes : list CommandNode; cmd_root_index : Z }.

Definition node_type (self : CommandNode) : Z := Z.land (cn_flags self) NODE_TYPE_MASK.
Definition is_executable (self : CommandNode) : bool :=
  bool_decide (Z.land (cn_flags self) FLAG_EXECUTABLE ≠ 0).

(** ** Constructors *)

Definition node_literal (name : rstring) : CommandNode :=
  mk_CommandNode NODE_TYPE_LITERAL [] None (Some name) None None.
Definition node_literal_executable (name : rstring) : CommandNode :=
  mk_CommandNode (Z.lor NODE_TYPE_LITERAL FLAG_EXECUTABLE) [] None (Some name) None None.
Definition node_redirect (name : rstring) (target : Z) : CommandNode :=
  mk_CommandNode (Z.lor NODE_TYPE_LITERAL FLAG_REDIRECT) [] (Some target) (Some name) None None.
Definition node_argument (name : rstring) (parser : Parser) (suggestions : option rstring) :
    CommandNode :=
  let flags := Z.lor NODE_TYPE_ARGUMENT FLAG_EXECUTABLE in
  let flags := if suggestions is Some _ then Z.lor flags FLAG_SUGGESTIONS else flags in
  mk_CommandNode flags [] None (Some name) (Some parser) suggestions.
Definition node_argument_non_executable (name : rstring) (parser : Parser)
    (suggestions : option rstring) : CommandNode :=
  let flags := NODE_TYPE_ARGUMENT in
  let flags := if suggestions is Some _ then Z.lor flags FLAG_SUGGESTIONS else flags in
  mk_CommandNode flags [] None (Some name) (Some parser) suggestions.

(** ** Parser identifiers *)

(** The arms of [named_parser_to_id], in order. *)
Definition named_parsers : list (string * Z) :=
  [("brigadier:bool", 0); ("brigadier:float", 1); ("brigadier:double", 2);
   ("brigadier:integer", 3); ("brigadier:long", 4); ("brigadier:string", 5);
   ("minecraft:entity", 6); ("minecraft:game_profile", 7); ("minecraft:block_pos", 8);
   ("minecraft:column_pos", 9); ("minecraft:vec3", 10); ("minecraft:vec2", 11);
   ("minecraft:block_state", 12); ("minecraft:block_predicate", 13);
   ("minecraft:item_stack", 14); ("minecraft:item_predicate", 15);
   ("minecraft:color", 16); ("minecraft:component", 17); ("minecraft:message", 18);
   ("minecraft:nbt_compound_tag", 19); ("minecraft:nbt", 19); ("minecraft:nbt_tag", 20);
   ("minecraft:nbt_path", 21); ("minecraft:objective", 22);
   ("minecraft:objective_criteria", 23); ("minecraft:operation", 24);
   ("minecraft:particle", 25); ("minecraft:angle", 26); ("minecraft:rotation", 27);
   ("minecraft:scoreboard_slot", 28); ("minecraft:score_holder", 29);
   ("minecraft:swizzle", 30); ("minecraft:team", 31); ("minecraft:item_slot", 32);
   ("minecraft:resource_location", 33); ("minecraft:function", 34);
   ("minecraft:entity_anchor", 35); ("minecraft:int_range", 36);
   ("minecraft:float_range", 37); ("minecraft:dimension", 38); ("minecraft:gamemode", 39);
   ("minecraft:time", 40); ("minecraft:resource_or_tag", 41);
   ("minecraft:resource_or_tag_key", 42); ("minecraft:resource", 43);
   ("minecraft:resource_key", 44); ("minecraft:template_mirror", 45);
   ("minecraft:template_rotation", 46); ("minecraft:heightmap", 47)].

Definition named_parser_to_id (name : rstring) : Z :=
  match list_find (λ e, str e.1 = name) named_parsers with
  | Some (_, (_, id)) => id
  | None => -1
  end.

(** The arms of [indexed_parser_to_name], in order. *)
Definition indexed_parsers : list (Z * string) :=
  [(0, "brigadier:bool"); (1, "brigadier:float"); (2, "brigadier:double");
   (3, "brigadier:integer"); (4, "brigadier:long"); (5, "brigadier:string");
   (6, "minecraft:entity"); (7, "minecraft:game_profile"); (8, "minecraft:block_pos");
   (9, "minecraft:column_pos"); (10, "minecraft:vec3"); (11, "minecraft:vec2");
   (12, "minecraft:block_state"); (13, "minecraft:block_predicate");
   (14, "minecraft:item_stack"); (15, "minecraft:item_predicate");
   (16, "minecraft:color"); (17, "minecraft:component"); (18, "minecraft:message");
   (19, "minecraft:nbt_compound_tag"); (20, "minecraft:nbt_tag");
   (21, "minecraft:nbt_path"); (22, "minecraft:objective");
   (23, "minecraft:objective_criteria"); (24, "minecraft:operation");
   (25, "minecraft:particle"); (26, "minecraft:angle"); (27, "minecraft:rotation");
   (28, "minecraft:scoreboard_slot"); (29, "minecraft:score_holder");
   (30, "minecraft:swizzle"); (31, "minecraft:team"); (32, "minecraft:item_slot");
   (33, "minecraft:resource_location"); (34, "minecraft:function");
   (35, "minecraft:entity_anchor"); (36, "minecraft:int_range");
   (37, "minecraft:float_range"); (38, "minecraft:dimension"); (39, "minecraft:gamemode");
   (40, "minecraft:time"); (41, "minecraft:resource_or_tag");
   (42, "minecraft:resource_or_tag_key"); (43, "minecraft:resource");
   (44, "minecraft:resource_key"); (45, "minecraft:template_mirror");
   (46, "minecraft:template_rotation"); (47, "minecraft:heightmap")].

Definition indexed_parser_to_name (id : Z) : string :=
  match list_find (λ e, e.1 = id) indexed_parsers with
  | Some (_, (_, name)) => name
  | None => "brigadier:string"
  end.

(** ** Parser properties *)

(** A flags byte, then the optional minimum and maximum of [size] bytes. *)
Definition read_bounds (size : Z) : reader bytes :=
  flags ← read_u8;
  min ← (if decide (Z.land flags 0x01 ≠ 0) then read_byte_array_bounded size else mret []);
  max ← (if decide (Z.land flags 0x02 ≠ 0) then read_byte_array_bounded size else mret []);
  mret ((flags :: min) ++ max).

Definition read_parser_properties (id : Z) : reader bytes :=
  if decide (id = 0) then mret []
  else if decide (id = 1 ∨ id = 2) then read_bounds (if decide (id = 1) then 4 else 8)
  else if decide (id = 3 ∨ id = 4) then read_bounds (if decide (id = 3) then 4 else 8)
  else if decide (id = 5) then mode ← read_var_int; mret (VarInt_encode mode)
  else if decide (id = 6) then b ← read_u8; mret [b]
  else if decide (id = 31) then b ← read_u8; mret [b]
  else if decide (id = 43) then read_byte_array_bounded 4
  else if decide (44 ≤ id ≤ 47) then
    s ← read_string;
    match write_string s with Ok tmp => mret tmp | Err e => reader_fail e end
  else mret [].

Definition read_parser_properties_by_name (identifier : rstring) : reader bytes :=
  let id := named_parser_to_id identifier in
  read_parser_properties id.

Definition decode_parser (version : ProtocolVersion) : reader Parser :=
  if no_less_than version V1_19 then
    id ← read_var_int;
    properties ← read_parser_properties id;
    mret (Indexed id properties)
  else
    identifier ← read_string;
    properties ← read_parser_properties_by_name identifier;
    mret (Named identifier properties).

Definition encode_parser (parser : Parser) (version : ProtocolVersion) :
    ProtocolResult bytes :=
  match parser with
  | Indexed id properties =>
    (if no_less_than version V1_19 then write_var_int id
     else write_string (str (indexed_parser_to_name id))) +> write_all properties
  | Named identifier properties =>
    (if no_less_than version V1_19 then write_var_int (named_parser_to_id identifier)
     else write_string identifier) +> write_all properties
  end.

(** ** Nodes *)

Definition decode_node (version : ProtocolVersion) : reader CommandNode :=
  flags ← read_u8;
  child_count ← read_var_int;
  if decide (child_count < 0) then reader_fail (Invalid "negative child count") else
  children ← read_n (Z.to_nat child_count) read_var_int;
  redirect_node ← (if decide (Z.land flags FLAG_REDIRECT ≠ 0)
                   then i ← read_var_int; mret (Some i) else mret None);
  let node_type := Z.land flags NODE_TYPE_MASK in
  if decide (node_type = NODE_TYPE_ROOT) then
    mret (mk_CommandNode flags children redirect_node None None None)
  else if decide (node_type = NODE_TYPE_LITERAL) then
    name ← read_string;
    mret (mk_CommandNode flags children redirect_node (Some name) None None)
  else if decide (node_type = NODE_TYPE_ARGUMENT) then
    name ← read_string;
    parser ← decode_parser version;
    suggestions ← (if decide (Z.land flags FLAG_SUGGESTIONS ≠ 0)
                   then s ← read_string; mret (Some s) else mret None);
    mret (mk_CommandNode flags children redirect_node (Some name) (Some parser) suggestions)
  else reader_fail (Invalid ("unknown command node type: " +:+ pretty node_type)).

(** [if let Some(x) = o { write(x)? }]. *)
Definition write_some {A} (write : A → ProtocolResult bytes) (o : option A) :
    ProtocolResult bytes :=
  match o with Some x => write x | None => Ok [] end.

Definition encode_node (node : CommandNode) (version : ProtocolVersion) :
    ProtocolResult bytes :=
  write_u8 (cn_flags node) +>
  write_var_int (wrap_s 32 (zlen (cn_children node))) +>
  wr_list write_var_int (cn_children node) +>
  write_some write_var_int (cn_redirect_node node) +>
  let node_type := Z.land (cn_flags node) NODE_TYPE_MASK in
  (if decide (node_type = NODE_TYPE_ROOT) then Ok []
   else if decide (node_type = NODE_TYPE_LITERAL) then write_some write_string (cn_name node)
   else if decide (node_type = NODE_TYPE_ARGUMENT) then
     write_some write_string (cn_name node) +>
     write_some (λ p, encode_parser p version) (cn_parser node) +>
     write_some write_string (cn_suggestions_type node)
   else Ok []) +> Ok [].

(** ** The packet *)

Definition CCommands_decode (version : ProtocolVersion) : reader CCommands :=
  count ← read_var_int;
  if decide (count < 0) then reader_fail (Invalid "negative node count") else
  nodes ← read_n (Z.to_nat count) (decode_node version);
  root_index ← read_var_int;
  mret (mk_CCommands nodes root_index).

Definition CCommands_encode (self : CCommands) (version : ProtocolVersion) :
    ProtocolResult bytes :=
  write_var_int (wrap_s 32 (zlen (cmd_nodes self))) +>
  wr_list (λ node, encode_node node version) (cmd_nodes self) +>
  write_var_int (cmd_root_index self) +> Ok [].

#[export] Instance CCommands_packet : Packet CCommands := {|
  NAME := "CCommands"; pkt_state := Play; pkt_direction := Clientbound;
  pkt_decode := CCommands_decode; pkt_encode := CCommands_encode |}.

Definition string_parser (mode : Z) (version : ProtocolVersion) : Parser :=
  let props := VarInt_encode mode in
  if no_less_than version V1_19 then Indexed 5 props
  else Named (str "brigadier:string") props.

(** ** Properties that a parser carries *)

(** The bytes of a range: a flags byte and the bounds it announces. *)
Definition is_bounds (size : Z) (bs : bytes) : Prop :=
  ∃ flags min max, bs = flags :: min ++ max ∧
    zlen min = (if decide (Z.land flags 0x01 ≠ 0) then size else 0) ∧
    zlen max = (if decide (Z.land flags 0x02 ≠ 0) then size else 0).

(** The property bytes of the parser with this index. *)
Definition parser_props (id : Z) (bs : bytes) : Prop :=
  if decide (id = 1 ∨ id = 2) then is_bounds (if decide (id = 1) then 4 else 8) bs
  else if decide (id = 3 ∨ id = 4) then is_bounds (if decide (id = 3) then 4 else 8) bs
  else if decide (id = 5) then ∃ mode, in_s 32 mode ∧ bs = VarInt_encode mode
  else if decide (id = 6 ∨ id = 31) then zlen bs = 1
  else if decide (id = 43) then zlen bs = 4
  else if decide (44 ≤ id ≤ 47) then ∃ s, is_text 32767 s ∧ write_string s = Ok bs
  else bs = [].

Lemma codes_exact n bs : zlen bs = n → codes (write_all bs) (read_byte_array_bounded n) bs.
Proof. intros <-. by apply codes_reads, reads_exact. Qed.

Lemma codes_optional_exact (P : Prop) `{Decision P} size bs :
  zlen bs = (if decide P then size else 0) →
  codes (write_all bs) (if decide P then read_byte_array_bounded size else mret []) bs.
Proof.
  destruct (decide P); intros Hl; [by apply codes_exact|].
  destruct bs; [apply codes_ret|]. rewrite zlen_cons in Hl. pose proof (zlen_nonneg bs). lia.
Qed.

Lemma codes_bounds size bs : is_bounds size bs → codes (write_all bs) (read_bounds size) bs.
Proof.
  intros (flags&min&max&->&Hmin&Hmax). unfold read_bounds.
  change (write_all (flags :: min ++ max)) with (write_u8 flags +> write_all min +> write_all max).
  field. eapply codes_bind; [by apply codes_optional_exact|]. cbn beta.
  by eapply codes_bind_ret; [apply codes_optional_exact|].
Qed.

Lemma codes_one_byte bs : zlen bs = 1 → codes (write_all bs) (b ← read_u8; mret [b]) bs.
Proof.
  intros Hl. destruct bs as [|b [|c bs]]; [done| |].
  - by eapply codes_bind_ret; [apply (codes_u8 b)|].
  - rewrite !zlen_cons in Hl. pose proof (zlen_nonneg bs). lia.
Qed.

Lemma codes_parser_props id bs :
  parser_props id bs → codes (write_all bs) (read_parser_properties id) bs.
Proof.
  unfold parser_props, read_parser_properties.
  destruct (decide (id = 0)) as [->|]; [by intros ->; apply codes_ret|].
  destruct (decide (id = 1 ∨ id = 2)); [apply codes_bounds|].
  destruct (decide (id = 3 ∨ id = 4)); [apply codes_bounds|].
  destruct (decide (id = 5)).
  { intros (mode&?&->). by eapply codes_bind_ret; [apply codes_var_int|]. }
  destruct (decide (id = 6)) as [->|]; [by apply codes_one_byte|].
  destruct (decide (id = 31)) as [->|]; [by apply codes_one_byte|].
  rewrite decide_False by lia.
  destruct (decide (id = 43)); [apply codes_exact|].
  destruct (decide (44 ≤ id ≤ 47)).
  { intros (s&Hs&Hw). eapply codes_bind_ret; [|cbn beta; by rewrite Hw].
    unfold write_all. rewrite <- Hw. by apply codes_string. }
  intros ->. apply codes_ret.
Qed.

(** ** Well-formed trees *)

(** The parsers that the codec carries: those with the properties that its own table reads for
    the id. These are not all parsers of the protocol: before 1.19 a name is given another
    id than the table has for it, so that score_holder, time and resource arguments with
    their properties are decoded out of step ([parser_properties_shifted]). *)
Definition parser_carried (p : Parser) (v : ProtocolVersion) : Prop :=
  match p with
  | Indexed id props => parser_props id props ∧
      if no_less_than v V1_19 then in_s 32 id else 0 ≤ id ≤ 47
  | Named identifier props => parser_props (named_parser_to_id identifier) props ∧
      (no_less_than v V1_19 = false → is_text 32767 identifier)
  end.

(** The form of a parser in the version. *)
Definition parser_norm (p : Parser) (v : ProtocolVersion) : Parser :=
  match p with
  | Indexed id props =>
    if no_less_than v V1_19 then p else Named (str (indexed_parser_to_name id)) props
  | Named identifier props =>
    if no_less_than v V1_19 then Indexed (named_parser_to_id identifier) props else p
  end.

(** The flags of a node announce its optional fields. *)
Definition node_ok (n : CommandNode) (v : ProtocolVersion) : Prop :=
  zlen (cn_children n) < 2 ^ 31 ∧ Forall (in_s 32) (cn_children n) ∧
  from_option (in_s 32) True (cn_redirect_node n) ∧
  (is_Some (cn_redirect_node n) ↔ Z.land (cn_flags n) FLAG_REDIRECT ≠ 0) ∧
  match cn_name n, cn_parser n, cn_suggestions_type n with
  | None, None, None => node_type n = NODE_TYPE_ROOT
  | Some name, None, None => node_type n = NODE_TYPE_LITERAL ∧ is_text 32767 name
  | Some name, Some p, sugg => node_type n = NODE_TYPE_ARGUMENT ∧ is_text 32767 name ∧
      parser_carried p v ∧ from_option (is_text 32767) True sugg ∧
      (is_Some sugg ↔ Z.land (cn_flags n) FLAG_SUGGESTIONS ≠ 0)
  | _, _, _ => False
  end.

Definition node_norm (n : CommandNode) (v : ProtocolVersion) : CommandNode :=
  mk_CommandNode (cn_flags n) (cn_children n) (cn_redirect_node n) (cn_name n)
    (flip parser_norm v <$> cn_parser n) (cn_suggestions_type n).

(** ** Round trips *)

(** The two tables name the same parsers. *)
Lemma parser_tables id :
  0 ≤ id ≤ 47 → named_parser_to_id (str (indexed_parser_to_name id)) = id ∧
  is_text 32767 (str (indexed_parser_to_name id)).
Proof.
  intros Hid. assert (Hin : id ∈ seqZ 0 48) by (apply elem_of_seqZ; lia). revert id Hin Hid.
  assert (Forall (λ id, named_parser_to_id (str (indexed_parser_to_name id)) = id ∧
    is_text 32767 (str (indexed_parser_to_name id))) (seqZ 0 48)) as Hall.
  { apply (bool_decide_unpack _). by vm_compute. }
  rewrite Forall_forall in Hall. auto.
Qed.

Lemma named_parser_in_s32 name : in_s 32 (named_parser_to_id name).
Proof.
  unfold named_parser_to_id. destruct (list_find _ named_parsers) as [[i [n id]]|] eqn:E; [|done].
  apply list_find_Some in E as (E&_&_). apply list_elem_of_lookup_2 in E.
  assert (Forall (λ e : string * Z, in_s 32 e.2) named_parsers) as Hall.
  { apply (bool_decide_unpack _). by vm_compute. }
  rewrite Forall_forall in Hall. by apply (Hall (n, id)).
Qed.
#[export] Hint Resolve named_parser_in_s32 codes_parser_props : codec.

Lemma codes_parser p v :
  parser_carried p v → codes (encode_parser p v) (decode_parser v) (parser_norm p v).
Proof.
  unfold encode_parser, decode_parser, parser_norm, read_parser_properties_by_name.
  destruct p as [name props|id props]; simpl; intros [Hp Hv]; destruct (no_less_than v V1_19).
  - field. by eapply codes_bind_ret; [apply codes_parser_props|].
  - specialize (Hv eq_refl). field. by eapply codes_bind_ret; [apply codes_parser_props|].
  - field. by eapply codes_bind_ret; [apply codes_parser_props|].
  - destruct (parser_tables id Hv) as [Hid ?]. field.
    by eapply codes_bind_ret; [apply codes_parser_props; rewrite Hid|].
Qed.

(** An optional field announced by a flag. *)
Lemma codes_flagged {A} (write : A → ProtocolResult bytes) (r : reader A) (o : option A)
    (P : Prop) `{Decision P} :
  (is_Some o ↔ P) → (∀ x, o = Some x → codes (write x) r x) →
  codes (write_some write o) (if decide P then x ← r; mret (Some x) else mret None) o.
Proof.
  intros HP Hr. destruct o as [x|]; simpl.
  - rewrite decide_True by (apply HP; eauto). by apply codes_some, Hr.
  - rewrite decide_False by (intros [? ?]%HP; done). apply codes_ret.
Qed.

Lemma codes_node n v : node_ok n v → codes (encode_node n v) (decode_node v) (node_norm n v).
Proof.
  intros (Hl&Hc&Hr&Hrf&Hn). pose proof (zlen_nonneg (cn_children n)).
  unfold encode_node, decode_node, node_type in *.
  do 2 field. destruct (decide (zlen (cn_children n) < 0)); [lia|]. eapply codes_bind.
  { apply codes_list; [unfold zlen; by rewrite Nat2Z.id|].
    by eapply Forall_impl; [|apply codes_var_int]. }
  cbn beta. eapply codes_bind.
  { apply codes_flagged; [done|]. intros x Hx. rewrite Hx in Hr. by apply codes_var_int. }
  cbn beta. cbv zeta. unfold node_norm.
  destruct (cn_name n) as [name|], (cn_parser n) as [p|]; simpl in *; try done.
  - destruct Hn as (->&?&?&?&?). simpl. rewrite wr_app_assoc. field. rewrite wr_app_assoc.
    eapply codes_bind; [by apply codes_parser|]. cbn beta.
    eapply codes_bind; [|apply codes_ret]. apply codes_flagged; [done|].
    intros x Hx. apply codes_string. by rewrite Hx in *.
  - destruct (cn_suggestions_type n); [done|]. destruct Hn as (->&?). simpl. fields.
  - destruct (cn_suggestions_type n); [done|]. rewrite Hn. simpl. apply codes_ret.
Qed.

Lemma encode_parser_norm p v : encode_parser (parser_norm p v) v = encode_parser p v.
Proof.
  unfold encode_parser, parser_norm. destruct p; destruct (no_less_than v V1_19) eqn:E;
    by rewrite ?E.
Qed.

Lemma encode_node_norm n v : encode_node (node_norm n v) v = encode_node n v.
Proof.
  unfold encode_node, node_norm; simpl. destruct (cn_parser n); simpl; [|done].
  by rewrite encode_parser_norm.
Qed.

#[export, refine] Instance CCommands_laws : PacketLaws CCommands := {|
  pkt_ok p v := zlen (cmd_nodes p) < 2 ^ 31 ∧ Forall (flip node_ok v) (cmd_nodes p) ∧
    in_s 32 (cmd_root_index p);
  pkt_norm p v := mk_CCommands (flip node_norm v <$> cmd_nodes p) (cmd_root_index p) |}.
Proof.
  2:{ intros [nodes root] v _. simpl. unfold CCommands_encode; simpl.
      unfold zlen. rewrite length_fmap. f_equal. f_equal.
      unfold wr_list. rewrite foldr_fmap. apply foldr_ext; [|done..].
      intros n acc. f_equal. apply encode_node_norm. }
  intros [nodes root] v (?&Hn&?); simpl in *. pose proof (zlen_nonneg nodes).
  unfold CCommands_decode, CCommands_encode; simpl. field. rewrite decide_False by lia.
  eapply codes_all_bind; [|fields]. apply codes_list_fmap; [unfold zlen; by rewrite Nat2Z.id|].
  eapply Forall_impl; [done|]. intros n. apply codes_node.
Defined.

(** ** Theorems *)

(** The two parser tables translate into each other.  For the 48 indices, the name
    of the index has that index, every name of the table comes back up to the one
    alias, and an argument parser with its properties survives being written for a
    version on either side of 1.19 and read again, in the form of that version. *)
Theorem parser_translation :
  (∀ id, 0 ≤ id ≤ 47 → named_parser_to_id (str (indexed_parser_to_name id)) = id) ∧
  Forall (λ e, indexed_parser_to_name e.2 = e.1 ∨ e.1 = "minecraft:nbt"%string) named_parsers ∧
  (∀ p v, parser_carried p v → ∃ bs, encode_parser p v = Ok bs ∧
     reads (decode_parser v) bs (parser_norm p v)).
Proof.
  split; [by intros id Hid; apply parser_tables|]. split.
  - apply (bool_decide_unpack _). by vm_compute.
  - intros p v. apply codes_parser.
Qed.

(** The property reader and the name table disagree on parser indices.  The reader
    gives the flags byte of a score holder to index 31 and the number of a time to
    index 43, but the table maps the score holder to 29 and the time to 40: before
    1.19 the properties of these parsers are not consumed, and those of a team and a
    resource, which have none of that form, are. *)
Theorem parser_properties_shifted (r : bytes) (b : Z) :
  named_parser_to_id (str "minecraft:score_holder") = 29 ∧
  named_parser_to_id (str "minecraft:team") = 31 ∧
  read_parser_properties_by_name (str "minecraft:score_holder") (b :: r) = Ok ([], b :: r) ∧
  read_parser_properties_by_name (str "minecraft:team") (b :: r) = Ok ([b], r) ∧
  read_parser_properties_by_name (str "minecraft:time") r = Ok ([], r) ∧
  read_parser_properties_by_name (str "minecraft:resource") r = read_byte_array_bounded 4 r.
Proof.
  assert (H1 : named_parser_to_id (str "minecraft:score_holder") = 29) by (by vm_compute).
  assert (H2 : named_parser_to_id (str "minecraft:team") = 31) by (by vm_compute).
  assert (H3 : named_parser_to_id (str "minecraft:time") = 40) by (by vm_compute).
  assert (H4 : named_parser_to_id (str "minecraft:resource") = 43) by (by vm_compute).
  unfold read_parser_properties_by_name. rewrite H1, H2, H3, H4.
  split; [done|]. split; [done|]. split; [reflexivity|]. split; [|split; reflexivity].
  change (read_parser_properties 31) with (b ← read_u8; mret [b]).
  apply (reads_bind_ret _ _ [b] b [b] (read_u8_reads b) eq_refl r).
Qed.
