(* ===== verification/Registry.v ===== *)
(** * Registry: the version-aware packet registry

    Models [registry/mod.rs] and [registry/builder.rs].  A [TypeId] of a packet
    struct is its [packet_kind].  The registry holds one map from packet ids to
    decoders and one from packet types to ids per (state, direction, version);
    every decoder function in it is the [decode] of a packet type, so a
    [DecoderFn] is represented by that type and [run_decoder] is the call. *)
From S2P Require Import Prelude Wire Utf8 VarInt Codec Frame Version Packet LoginPackets.
From S2P Require Import PlayPackets Commands.

(** ** Packet types *)

Inductive packet_kind :=
| KSHandshake | KSStatusRequest | KSPingRequest | KCStatusResponse | KCPingResponse |
KSLoginStart | KSEncryptionResponse | KSLoginPluginResponse | KSLoginAcknowledged |
KCLoginDisconnect | KCEncryptionRequest | KCLoginSuccess | KCSetCompression |
KCLoginPluginRequest | KSConfigPluginMessage | KSAcknowledgeFinishConfig | KSKnownPacks |
KCConfigPluginMessage | KCConfigDisconnect | KCFinishConfig | KCRegistryData |
KCKnownPacks | KCCommands | KSTabCompleteRequest | KCTabCompleteResponse | KCKeepAlive |
KCDisconnect | KCJoinGame | KCRespawn | KCPluginMessage | KCChatMessageLegacy |
KCSystemChatMessage | KCTitleLegacy | KCSetTitle | KCSetSubtitle | KCSetTitleTimes |
KCTransfer | KCStartConfiguration | KCGameEvent | KCSetCenterChunk | KCChunkBatchStart |
KCChunkBatchFinished | KCSetDefaultSpawnPosition | KCSynchronizePlayerPosition |
KSAcknowledgeConfiguration | KSKeepAlive | KSChatMessage | KSChatCommand |
KSChatSessionUpdate | KSPluginMessage.

Definition kind_type (k : packet_kind) : Type :=
  match k with
  | KSHandshake => SHandshake
  | KSStatusRequest => SStatusRequest
  | KSPingRequest => SPingRequest
  | KCStatusResponse => CStatusResponse
  | KCPingResponse => CPingResponse
  | KSLoginStart => SLoginStart
  | KSEncryptionResponse => SEncryptionResponse
  | KSLoginPluginResponse => SLoginPluginResponse
  | KSLoginAcknowledged => SLoginAcknowledged
  | KCLoginDisconnect => CLoginDisconnect
  | KCEncryptionRequest => CEncryptionRequest
  | KCLoginSuccess => CLoginSuccess
  | KCSetCompression => CSetCompression
  | KCLoginPluginRequest => CLoginPluginRequest
  | KSConfigPluginMessage => SConfigPluginMessage
  | KSAcknowledgeFinishConfig => SAcknowledgeFinishConfig
  | KSKnownPacks => SKnownPacks
  | KCConfigPluginMessage => CConfigPluginMessage
  | KCConfigDisconnect => CConfigDisconnect
  | KCFinishConfig => CFinishConfig
  | KCRegistryData => CRegistryData
  | KCKnownPacks => CKnownPacks
  | KCCommands => CCommands
  | KSTabCompleteRequest => STabCompleteRequest
  | KCTabCompleteResponse => CTabCompleteResponse
  | KCKeepAlive => CKeepAlive
  | KCDisconnect => CDisconnect
  | KCJoinGame => CJoinGame
  | KCRespawn => CRespawn
  | KCPluginMessage => CPluginMessage
  | KCChatMessageLegacy => CChatMessageLegacy
  | KCSystemChatMessage => CSystemChatMessage
  | KCTitleLegacy => CTitleLegacy
  | KCSetTitle => CSetTitle
  | KCSetSubtitle => CSetSubtitle
  | KCSetTitleTimes => CSetTitleTimes
  | KCTransfer => CTransfer
  | KCStartConfiguration => CStartConfiguration
  | KCGameEvent => CGameEvent
  | KCSetCenterChunk => CSetCenterChunk
  | KCChunkBatchStart => CChunkBatchStart
  | KCChunkBatchFinished => CChunkBatchFinished
  | KCSetDefaultSpawnPosition => CSetDefaultSpawnPosition
  | KCSynchronizePlayerPosition => CSynchronizePlayerPosition
  | KSAcknowledgeConfiguration => SAcknowledgeConfiguration
  | KSKeepAlive => SKeepAlive
  | KSChatMessage => SChatMessage
  | KSChatCommand => SChatCommand
  | KSChatSessionUpdate => SChatSessionUpdate
  | KSPluginMessage => SPluginMessage
  end.

Definition all_kinds : list packet_kind :=
  [KSHandshake; KSStatusRequest; KSPingRequest; KCStatusResponse; KCPingResponse;
   KSLoginStart; KSEncryptionResponse; KSLoginPluginResponse; KSLoginAcknowledged;
   KCLoginDisconnect; KCEncryptionRequest; KCLoginSuccess; KCSetCompression;
   KCLoginPluginRequest; KSConfigPluginMessage; KSAcknowledgeFinishConfig; KSKnownPacks;
   KCConfigPluginMessage; KCConfigDisconnect; KCFinishConfig; KCRegistryData; KCKnownPacks;
   KCCommands; KSTabCompleteRequest; KCTabCompleteResponse; KCKeepAlive; KCDisconnect;
   KCJoinGame; KCRespawn; KCPluginMessage; KCChatMessageLegacy; KCSystemChatMessage;
   KCTitleLegacy; KCSetTitle; KCSetSubtitle; KCSetTitleTimes; KCTransfer;
   KCStartConfiguration; KCGameEvent; KCSetCenterChunk; KCChunkBatchStart;
   KCChunkBatchFinished; KCSetDefaultSpawnPosition; KCSynchronizePlayerPosition;
   KSAcknowledgeConfiguration; KSKeepAlive; KSChatMessage; KSChatCommand;
   KSChatSessionUpdate; KSPluginMessage].

#[export] Instance packet_kind_eq_dec : EqDecision packet_kind.
Proof. solve_decision. Defined.

Lemma all_kinds_complete k : k ∈ all_kinds.
Proof. apply (bool_decide_unpack _). destruct k; vm_compute; done. Qed.

#[export] Instance packet_kind_finite : Finite packet_kind.
Proof.
  refine {| enum := all_kinds; elem_of_enum := all_kinds_complete |}.
  apply (bool_decide_unpack _). by vm_compute.
Defined.
#[export] Instance packet_kind_countable : Countable packet_kind := finite_countable.

#[export] Instance kind_packet `{UuidText} (k : packet_kind) : Packet (kind_type k) :=
  match k with
  | KSHandshake => SHandshake_packet
  | KSStatusRequest => SStatusRequest_packet
  | KSPingRequest => SPingRequest_packet
  | KCStatusResponse => CStatusResponse_packet
  | KCPingResponse => CPingResponse_packet
  | KSLoginStart => SLoginStart_packet
  | KSEncryptionResponse => SEncryptionResponse_packet
  | KSLoginPluginResponse => SLoginPluginResponse_packet
  | KSLoginAcknowledged => SLoginAcknowledged_packet
  | KCLoginDisconnect => CLoginDisconnect_packet
  | KCEncryptionRequest => CEncryptionRequest_packet
  | KCLoginSuccess => CLoginSuccess_packet
  | KCSetCompression => CSetCompression_packet
  | KCLoginPluginRequest => CLoginPluginRequest_packet
  | KSConfigPluginMessage => SConfigPluginMessage_packet
  | KSAcknowledgeFinishConfig => SAcknowledgeFinishConfig_packet
  | KSKnownPacks => SKnownPacks_packet
  | KCConfigPluginMessage => CConfigPluginMessage_packet
  | KCConfigDisconnect => CConfigDisconnect_packet
  | KCFinishConfig => CFinishConfig_packet
  | KCRegistryData => CRegistryData_packet
  | KCKnownPacks => CKnownPacks_packet
  | KCCommands => CCommands_packet
  | KSTabCompleteRequest => STabCompleteRequest_packet
  | KCTabCompleteResponse => CTabCompleteResponse_packet
  | KCKeepAlive => CKeepAlive_packet
  | KCDisconnect => CDisconnect_packet
  | KCJoinGame => CJoinGame_packet
  | KCRespawn => CRespawn_packet
  | KCPluginMessage => CPluginMessage_packet
  | KCChatMessageLegacy => CChatMessageLegacy_packet
  | KCSystemChatMessage => CSystemChatMessage_packet
  | KCTitleLegacy => CTitleLegacy_packet
  | KCSetTitle => CSetTitle_packet
  | KCSetSubtitle => CSetSubtitle_packet
  | KCSetTitleTimes => CSetTitleTimes_packet
  | KCTransfer => CTransfer_packet
  | KCStartConfiguration => CStartConfiguration_packet
  | KCGameEvent => CGameEvent_packet
  | KCSetCenterChunk => CSetCenterChunk_packet
  | KCChunkBatchStart => CChunkBatchStart_packet
  | KCChunkBatchFinished => CChunkBatchFinished_packet
  | KCSetDefaultSpawnPosition => CSetDefaultSpawnPosition_packet
  | KCSynchronizePlayerPosition => CSynchronizePlayerPosition_packet
  | KSAcknowledgeConfiguration => SAcknowledgeConfiguration_packet
  | KSKeepAlive => SKeepAlive_packet
  | KSChatMessage => SChatMessage_packet
  | KSChatCommand => SChatCommand_packet
  | KSChatSessionUpdate => SChatSessionUpdate_packet
  | KSPluginMessage => SPluginMessage_packet
  end.

(** [Box<dyn ErasedPacket>]: a packet with its type. *)
Definition ErasedPacket : Type := { k : packet_kind & kind_type k }.

Definition packet_name `{UuidText} (p : ErasedPacket) : string := NAME (kind_type (projT1 p)).
Definition encode_payload `{UuidText} (p : ErasedPacket) (v : ProtocolVersion) :
    ProtocolResult bytes :=
  pkt_encode (projT2 p) v.
(** [as_any().downcast_ref::<P>()]. *)
Definition downcast (k : packet_kind) (p : ErasedPacket) : option (kind_type k) :=
  match decide (projT1 p = k) with
  | left e => Some (eq_rect _ kind_type (projT2 p) k e)
  | right _ => None
  end.

(** ** The registry *)

Abbreviation DecoderFn := packet_kind (only parsing).

(** [|r, v| Ok(Box::new(P::decode(r, v)?))]. *)
Definition run_decoder `{UuidText} (k : DecoderFn) (v : ProtocolVersion) :
    reader ErasedPacket :=
  p ← pkt_decode (kind_type k) v; mret (existT k p).

Inductive DecodedPacket :=
| Typed (id : Z) (packet : ErasedPacket)
| Opaque (id : Z) (payload : bytes).

Record VersionRegistry := mk_VersionRegistry {
  id_to_decoder : gmap Z DecoderFn;
  type_to_id : gmap packet_kind Z;
}.

Abbreviation RegistryKey := (ConnectionState * Direction * Z)%type.

Record PacketRegistry := mk_PacketRegistry { registries : gmap RegistryKey VersionRegistry }.

Definition VersionRegistry_default : VersionRegistry := mk_VersionRegistry ∅ ∅.
Definition PacketRegistry_new : PacketRegistry := mk_PacketRegistry ∅.

Definition decode_frame `{UuidText} (self : PacketRegistry) (frame : PacketFrame)
    (state : ConnectionState) (direction : Direction) (version : ProtocolVersion) :
    ProtocolResult DecodedPacket :=
  let key := (state, direction, version) in
  match registries self !! key with
  | Some ver_reg =>
    match id_to_decoder ver_reg !! frame_id frame with
    | Some decoder =>
      match run_decoder decoder version (payload frame) with
      | Ok (packet, _) => Ok (Typed (frame_id frame) packet)
      | Err e => Err e
      end
    | None => Ok (Opaque (frame_id frame) (payload frame))
    end
  | None => Ok (Opaque (frame_id frame) (payload frame))
  end.

Definition get_packet_id (self : PacketRegistry) (P : packet_kind) (state : ConnectionState)
    (direction : Direction) (version : ProtocolVersion) : option Z :=
  ver_reg ← registries self !! (state, direction, version);
  type_to_id ver_reg !! P.

Definition has_decoder (self : PacketRegistry) (state : ConnectionState)
    (direction : Direction) (version : ProtocolVersion) (packet_id : Z) : bool :=
  match registries self !! (state, direction, version) with
  | Some ver_reg => bool_decide (is_Some (id_to_decoder ver_reg !! packet_id))
  | None => false
  end.

Definition insert_type_mapping (key : RegistryKey) (type_id : packet_kind) (packet_id : Z)
    (self : PacketRegistry) : PacketRegistry :=
  let ver_reg := default VersionRegistry_default (registries self !! key) in
  mk_PacketRegistry (<[key := mk_VersionRegistry (id_to_decoder ver_reg)
    (<[type_id := packet_id]> (type_to_id ver_reg))]> (registries self)).

Definition insert_decoder (key : RegistryKey) (packet_id : Z) (decoder : DecoderFn)
    (self : PacketRegistry) : PacketRegistry :=
  let ver_reg := default VersionRegistry_default (registries self !! key) in
  mk_PacketRegistry (<[key := mk_VersionRegistry
    (<[packet_id := decoder]> (id_to_decoder ver_reg)) (type_to_id ver_reg)]>
    (registries self)).

(** ** The builder *)

Record PacketMapping := mk_PacketMapping {
  map_packet_id : Z;
  map_from : ProtocolVersion;
  map_to : option ProtocolVersion;
  map_encode_only : bool;
}.

Record PacketRegistration := mk_PacketRegistration {
  reg_kind : packet_kind;
  reg_state : ConnectionState;
  reg_direction : Direction;
  reg_mappings : list PacketMapping;
}.

Definition PacketRegistration_new (P : packet_kind) (state : ConnectionState)
    (direction : Direction) : PacketRegistration :=
  mk_PacketRegistration P state direction [].

(** [.map(id, from, encode_only)]. *)
Definition map_id (id : Z) (from : ProtocolVersion) (encode_only : bool)
    (self : PacketRegistration) : PacketRegistration :=
  mk_PacketRegistration (reg_kind self) (reg_state self) (reg_direction self)
    (reg_mappings self ++ [mk_PacketMapping id from None encode_only]).

Definition map_range (id : Z) (from to : ProtocolVersion) (encode_only : bool)
    (self : PacketRegistration) : PacketRegistration :=
  mk_PacketRegistration (reg_kind self) (reg_state self) (reg_direction self)
    (reg_mappings self ++ [mk_PacketMapping id from (Some to) encode_only]).

(** Method chaining. *)
Notation "x |> f" := (f x) (at level 50, left associativity, only parsing) : infrarust_scope.

(** The end of the range of mapping [i], and whether it is included. *)
Definition mapping_end (self : PacketRegistration) (last_supported : ProtocolVersion)
    (i : nat) (mapping : PacketMapping) : ProtocolVersion * bool :=
  match map_to mapping with
  | Some explicit_to => (explicit_to, true)
  | None =>
    match reg_mappings self !! S i with
    | Some next_mapping => (map_from next_mapping, false)
    | None => (last_supported, true)
    end
  end.

(** The body of the inner loop of [register]. *)
Definition register_version (self : PacketRegistration) (mapping : PacketMapping)
    (to : ProtocolVersion) (inclusive : bool) (registry : PacketRegistry)
    (version : ProtocolVersion) : PacketRegistry :=
  if negb inclusive && (version =? to) then registry
  else
    let key := (reg_state self, reg_direction self, version) in
    let registry := insert_type_mapping key (reg_kind self) (map_packet_id mapping) registry in
    if negb (map_encode_only mapping)
    then insert_decoder key (map_packet_id mapping) (reg_kind self) registry
    else registry.

Definition register_mapping (self : PacketRegistration) (last_supported : ProtocolVersion)
    (registry : PacketRegistry) (im : nat * PacketMapping) : PacketRegistry :=
  let '(i, mapping) := im in
  let '(to, inclusive) := mapping_end self last_supported i mapping in
  foldl (register_version self mapping to inclusive) registry
    (version_range (map_from mapping) to).

Definition register (self : PacketRegistration) (registry : PacketRegistry) : PacketRegistry :=
  match last SUPPORTED with
  | None => registry
  | Some last_supported =>
    foldl (register_mapping self last_supported) registry (imap pair (reg_mappings self))
  end.

(** ** What registering does

    [in_force] is the specification: at a version, the mapping that holds is the
    last one that starts at or before it. *)

Definition in_force (ms : list PacketMapping) (v : ProtocolVersion) : option PacketMapping :=
  last (filter (λ m, map_from m ≤ v) ms).

(** The effect of one mapping on the registry of one version. *)
Definition vr_apply (k : packet_kind) (m : PacketMapping) (o : option VersionRegistry) :
    option VersionRegistry :=
  let vr := default VersionRegistry_default o in
  Some (mk_VersionRegistry
    (if negb (map_encode_only m) then <[map_packet_id m := k]> (id_to_decoder vr)
     else id_to_decoder vr)
    (<[k := map_packet_id m]> (type_to_id vr))).

(** Mappings as the default registry writes them: in the order of their first
    version, without explicit ends. *)
Definition mappings_ordered (ms : list PacketMapping) : Prop :=
  StronglySorted (λ m m', map_from m < map_from m') ms ∧ Forall (λ m, map_to m = None) ms.

#[export] Instance mappings_ordered_dec ms : Decision (mappings_ordered ms).
Proof.
  refine (cast_if (decide (Sorted (λ m m', map_from m < map_from m') ms ∧
                           Forall (λ m, map_to m = None) ms))).
  - destruct a as [Hs Hn]. split; [|done]. apply Sorted_StronglySorted; [|done].
    intros ???; lia.
  - intros [Hs Hn]. destruct n. split; [|done]. by apply StronglySorted_Sorted.
Defined.

Lemma filter_none {A} (P : A → Prop) `{∀ x, Decision (P x)} l :
  Forall (λ x, ¬ P x) l → filter P l = [].
Proof. induction 1 as [|x l Hx _ IH]; [done|]. by rewrite filter_cons_False. Qed.

Section register.
Context (self : PacketRegistration).
Abbreviation key v := (reg_state self, reg_direction self, v).

Lemma register_version_lookup m to incl R version k :
  registries (register_version self m to incl R version) !! k =
  if decide (k = key version ∧ (incl = true ∨ version ≠ to))
  then vr_apply (reg_kind self) m (registries R !! k) else registries R !! k.
Proof.
  unfold register_version. destruct (negb incl && (version =? to)) eqn:E.
  - apply andb_true_iff in E as [?%negb_true_iff ?%Z.eqb_eq].
    rewrite decide_False; [done|]. intros [_ [?|?]]; congruence.
  - assert (Hc : incl = true ∨ version ≠ to).
    { destruct incl; [by left|]. right. intros ->. by rewrite Z.eqb_refl in E. }
    unfold vr_apply. destruct (decide (k = key version)) as [->|Hk].
    + rewrite decide_True by done.
      destruct (map_encode_only m); simpl; rewrite ?lookup_insert_eq; done.
    + rewrite decide_False by tauto.
      destruct (map_encode_only m); simpl; rewrite ?lookup_insert_ne by done; done.
Qed.

Lemma register_versions_lookup m to incl vs R k : NoDup vs →
  registries (foldl (register_version self m to incl) R vs) !! k =
  if decide (k.1 = (reg_state self, reg_direction self) ∧ k.2 ∈ vs ∧
             (incl = true ∨ k.2 ≠ to))
  then vr_apply (reg_kind self) m (registries R !! k) else registries R !! k.
Proof.
  intros Hnd. revert R. induction Hnd as [|v vs Hv Hnd IH]; intros R; simpl.
  { rewrite decide_False; [done|]. intros (_&[]%not_elem_of_nil&_). }
  rewrite IH, register_version_lookup. destruct k as [k1 kv]; simpl.
  destruct (decide (kv = v)) as [->|Hne].
  - rewrite decide_False by tauto. apply decide_ext. rewrite elem_of_cons, pair_eq. tauto.
  - rewrite (decide_False (P := (k1, kv) = _ ∧ _)) by (intros [[=] _]; tauto).
    apply decide_ext. rewrite elem_of_cons. tauto.
Qed.

(** The mappings, each with the end of its range. *)
Definition end_of (last_supported : ProtocolVersion) (m : PacketMapping)
    (next : option PacketMapping) : ProtocolVersion * bool :=
  match map_to m with
  | Some explicit_to => (explicit_to, true)
  | None => match next with Some n => (map_from n, false) | None => (last_supported, true) end
  end.

Fixpoint with_ends (last_supported : ProtocolVersion) (ms : list PacketMapping) :
    list (PacketMapping * (ProtocolVersion * bool)) :=
  match ms with
  | [] => []
  | m :: ms => (m, end_of last_supported m (head ms)) :: with_ends last_supported ms
  end.

Definition register_range (R : PacketRegistry)
    (e : PacketMapping * (ProtocolVersion * bool)) : PacketRegistry :=
  foldl (register_version self e.1 e.2.1 e.2.2) R (version_range (map_from e.1) e.2.1).

Lemma register_mappings_ends ls pre ms R :
  reg_mappings self = pre ++ ms →
  foldl (register_mapping self ls) R (imap (λ i m, (length pre + i, m)%nat) ms) =
  foldl register_range R (with_ends ls ms).
Proof.
  revert pre R. induction ms as [|m ms IH]; intros pre R Hms; simpl; [done|].
  rewrite Nat.add_0_r.
  assert (Hend : mapping_end self ls (length pre) m = end_of ls m (head ms)).
  { unfold mapping_end, end_of. destruct (map_to m); [done|]. rewrite Hms.
    rewrite lookup_app_r by lia.
    replace (S (length pre) - length pre)%nat with 1%nat by lia. by destruct ms. }
  rewrite Hend. destruct (end_of ls m (head ms)) as [to incl] eqn:E.
  rewrite <- (IH (pre ++ [m])) by (by rewrite <- app_assoc).
  unfold register_range at 1. simpl. f_equal. apply imap_ext. intros i x _. simpl.
  rewrite length_app. simpl. f_equal. lia.
Qed.

(** The ranges that cover a version. *)
Definition covers (v : ProtocolVersion) (e : PacketMapping * (ProtocolVersion * bool)) : Prop :=
  v ∈ version_range (map_from e.1) e.2.1 ∧ (e.2.2 = true ∨ v ≠ e.2.1).
#[local] Instance covers_dec v e : Decision (covers v e).
Proof. unfold covers. apply _. Defined.

Lemma register_ranges_lookup l R k :
  registries (foldl register_range R l) !! k =
  if decide (k.1 = (reg_state self, reg_direction self))
  then foldl (λ o e, vr_apply (reg_kind self) e.1 o) (registries R !! k)
         (filter (covers k.2) l)
  else registries R !! k.
Proof.
  revert R. induction l as [|e l IH]; intros R; simpl; [by case_decide|].
  rewrite IH. unfold register_range.
  rewrite register_versions_lookup by apply NoDup_filter, SUPPORTED_NoDup.
  destruct (decide (k.1 = _)); [|by rewrite decide_False by tauto].
  rewrite filter_cons. unfold covers at 2.
  repeat case_decide; simpl; first [done | tauto].
Qed.

(** Ordered mappings: the range that covers a version is that of the mapping in force. *)
Lemma covers_in_force ms v : mappings_ordered ms → v ∈ SUPPORTED →
  (filter (covers v) (with_ends V1_21_11 ms)).*1 = option_list (in_force ms v).
Proof.
  intros [Hs Hn] Hv. pose proof (SUPPORTED_last v Hv) as Hlast.
  induction ms as [|m ms IH]; [done|]. simpl.
  apply StronglySorted_inv in Hs as [Hs Hall]. apply Forall_cons in Hn as [Hm Hn].
  specialize (IH Hs Hn). unfold in_force in *. rewrite !filter_cons.
  assert (Hcov : covers v (m, end_of V1_21_11 m (head ms)) ↔
    map_from m ≤ v ∧ from_option (λ n, v < map_from n) True (head ms)).
  { unfold covers, end_of. rewrite Hm. simpl. rewrite version_range_spec.
    destruct ms as [|n ms]; simpl; split; try tauto; try lia.
    intros [??]. split; [split; [done|lia]|]. right. lia. }
  destruct (decide (map_from m ≤ v)) as [Hle|Hgt].
  - destruct ms as [|n ms].
    { simpl in *. rewrite decide_True; [done|]. by apply Hcov. }
    simpl in Hcov. destruct (decide (map_from n ≤ v)) as [Hn'|Hn'].
    + rewrite decide_False by (rewrite Hcov; lia). etransitivity; [exact IH|]. f_equal.
      rewrite filter_cons_True by done. symmetry. apply last_cons_cons.
    + rewrite decide_True by (apply Hcov; lia).
      assert (Hnil : filter (λ m0, map_from m0 ≤ v) ms = []); cycle 1.
      { rewrite filter_cons_False, Hnil in IH |- * by done. rewrite fmap_cons.
        by rewrite IH. }
      apply StronglySorted_inv in Hs as [_ Hs].
      apply filter_none. eapply Forall_impl; [exact Hs|]. simpl. lia.
  - rewrite decide_False by (rewrite Hcov; tauto). rewrite IH.
    assert (filter (λ m0, map_from m0 ≤ v) ms = []) as ->; [|done].
    apply filter_none. eapply Forall_impl; [exact Hall|]. simpl. lia.
Qed.

Lemma register_lookup R k : mappings_ordered (reg_mappings self) → k.2 ∈ SUPPORTED →
  registries (register self R) !! k =
  if decide (k.1 = (reg_state self, reg_direction self)) then
    match in_force (reg_mappings self) k.2 with
    | Some m => vr_apply (reg_kind self) m (registries R !! k)
    | None => registries R !! k
    end
  else registries R !! k.
Proof.
  intros Ho Hv. unfold register.
  change (last SUPPORTED) with (Some V1_21_11). cbv iota beta.
  rewrite (register_mappings_ends V1_21_11 [] (reg_mappings self)) by done.
  rewrite register_ranges_lookup. case_decide; [|done].
  pose proof (covers_in_force _ _ Ho Hv) as Hc. revert Hc.
  generalize (filter (covers k.2) (with_ends V1_21_11 (reg_mappings self))). intros l Hl.
  destruct (in_force (reg_mappings self) k.2) as [m|]; simpl in Hl.
  - destruct l as [|e [|]]; simplify_eq/=. done.
  - by destruct l.
Qed.
End register.

(** ** Theorems *)

(** C12: registering a packet implements the mapping in force.  After registering
    ordered mappings, for every supported version: the id of the packet type is the
    one of the last mapping that starts at or before the version, its decoder is
    installed under that id exactly when the mapping is not encode-only, and every
    other entry of the registry, of this or another state, direction, version,
    packet type or id, is as before. *)
Theorem register_mapping_in_force (r : PacketRegistration) (R : PacketRegistry)
    (s : ConnectionState) (d : Direction) (v : ProtocolVersion) (k : packet_kind) (id : Z) :
  mappings_ordered (reg_mappings r) → v ∈ SUPPORTED →
  let R' := register r R in
  let here := bool_decide (s = reg_state r ∧ d = reg_direction r) in
  get_packet_id R' k s d v =
    (match in_force (reg_mappings r) v with
     | Some m => if here && bool_decide (k = reg_kind r) then Some (map_packet_id m)
                 else get_packet_id R k s d v
     | None => get_packet_id R k s d v
     end) ∧
  (registries R' !! (s, d, v)) ≫= (λ vr, id_to_decoder vr !! id) =
    (match in_force (reg_mappings r) v with
     | Some m => if here && negb (map_encode_only m) && bool_decide (id = map_packet_id m)
                 then Some (reg_kind r)
                 else registries R !! (s, d, v) ≫= (λ vr, id_to_decoder vr !! id)
     | None => registries R !! (s, d, v) ≫= (λ vr, id_to_decoder vr !! id)
     end).
Proof.
  intros Ho Hv R' here. unfold R', here, get_packet_id.
  rewrite (register_lookup r R (s, d, v) Ho Hv). simpl.
  destruct (decide ((s, d) = (reg_state r, reg_direction r))) as [Heq|Hne].
  - simplify_eq. rewrite bool_decide_eq_true_2 by done. simpl.
    destruct (in_force (reg_mappings r) v) as [m|]; [|done].
    unfold vr_apply. destruct (registries R !! _) as [vr|]; cbv [mbind option_bind default];
      simpl; (split; [|destruct (map_encode_only m); simpl]).
    all: rewrite ?lookup_empty; try done.
    all: repeat case_bool_decide; subst; rewrite ?lookup_insert_eq, ?lookup_insert_ne by done;
      done.
  - rewrite bool_decide_eq_false_2 by (intros [-> ->]; done). simpl.
    by destruct (in_force (reg_mappings r) v).
Qed.

Lemma register_mapping_in_force_witness :
  let r := PacketRegistration_new KCKeepAlive Play Clientbound
           |> map_id 0x00 V1_7_2 false |> map_id 0x1F V1_9 false in
  mappings_ordered (reg_mappings r) ∧ V1_8 ∈ SUPPORTED ∧
  get_packet_id (register r PacketRegistry_new) KCKeepAlive Play Clientbound V1_8 = Some 0.
Proof.
  intros r. assert (Ho : mappings_ordered (reg_mappings r)) by (by apply (bool_decide_unpack _)).
  assert (Hv : V1_8 ∈ SUPPORTED) by (apply (bool_decide_unpack _); by vm_compute).
  split; [done|]. split; [done|].
  destruct (register_mapping_in_force r PacketRegistry_new Play Clientbound V1_8
    KCKeepAlive 0 Ho Hv) as [Hid _].
  exact Hid.
Defined.
