(* ===== verification/DefaultRegistry.v ===== *)
(** * DefaultRegistry: the packets the proxy knows

    Models [build_default_registry] of [registry/builder.rs], one definition per
    registration, and proves that the table it builds is consistent: every
    decodable packet has, in each version, an id whose decoder is its own. *)
From S2P Require Import Prelude Wire Utf8 VarInt Codec Frame Version Packet LoginPackets.
From S2P Require Import PlayPackets Commands Registry.

(** ** The default registry *)

Definition reg_SHandshake : PacketRegistration :=
  PacketRegistration_new KSHandshake Handshake Serverbound
  |> map_id 0x00 V1_7_2 false.
Definition reg_SStatusRequest : PacketRegistration :=
  PacketRegistration_new KSStatusRequest Status Serverbound
  |> map_id 0x00 V1_7_2 false.
Definition reg_SPingRequest : PacketRegistration :=
  PacketRegistration_new KSPingRequest Status Serverbound
  |> map_id 0x01 V1_7_2 false.
Definition reg_CStatusResponse : PacketRegistration :=
  PacketRegistration_new KCStatusResponse Status Clientbound
  |> map_id 0x00 V1_7_2 false.
Definition reg_CPingResponse : PacketRegistration :=
  PacketRegistration_new KCPingResponse Status Clientbound
  |> map_id 0x01 V1_7_2 false.
Definition reg_SLoginStart : PacketRegistration :=
  PacketRegistration_new KSLoginStart Login Serverbound
  |> map_id 0x00 V1_7_2 false.
Definition reg_SEncryptionResponse : PacketRegistration :=
  PacketRegistration_new KSEncryptionResponse Login Serverbound
  |> map_id 0x01 V1_7_2 false.
Definition reg_SLoginPluginResponse : PacketRegistration :=
  PacketRegistration_new KSLoginPluginResponse Login Serverbound
  |> map_id 0x02 V1_13 false.
Definition reg_SLoginAcknowledged : PacketRegistration :=
  PacketRegistration_new KSLoginAcknowledged Login Serverbound
  |> map_id 0x03 V1_20_2 false.
Definition reg_CLoginDisconnect : PacketRegistration :=
  PacketRegistration_new KCLoginDisconnect Login Clientbound
  |> map_id 0x00 V1_7_2 false.
Definition reg_CEncryptionRequest : PacketRegistration :=
  PacketRegistration_new KCEncryptionRequest Login Clientbound
  |> map_id 0x01 V1_7_2 false.
Definition reg_CLoginSuccess : PacketRegistration :=
  PacketRegistration_new KCLoginSuccess Login Clientbound
  |> map_id 0x02 V1_7_2 false.
Definition reg_CSetCompression : PacketRegistration :=
  PacketRegistration_new KCSetCompression Login Clientbound
  |> map_id 0x03 V1_8 false.
Definition reg_CLoginPluginRequest : PacketRegistration :=
  PacketRegistration_new KCLoginPluginRequest Login Clientbound
  |> map_id 0x04 V1_13 false.
Definition reg_SConfigPluginMessage : PacketRegistration :=
  PacketRegistration_new KSConfigPluginMessage Config Serverbound
  |> map_id 0x01 V1_20_2 false
  |> map_id 0x02 V1_20_5 false.
Definition reg_SAcknowledgeFinishConfig : PacketRegistration :=
  PacketRegistration_new KSAcknowledgeFinishConfig Config Serverbound
  |> map_id 0x02 V1_20_2 false
  |> map_id 0x03 V1_20_5 false.
Definition reg_SKnownPacks : PacketRegistration :=
  PacketRegistration_new KSKnownPacks Config Serverbound
  |> map_id 0x07 V1_20_5 false.
Definition reg_CConfigPluginMessage : PacketRegistration :=
  PacketRegistration_new KCConfigPluginMessage Config Clientbound
  |> map_id 0x00 V1_20_2 false
  |> map_id 0x01 V1_20_5 false.
Definition reg_CConfigDisconnect : PacketRegistration :=
  PacketRegistration_new KCConfigDisconnect Config Clientbound
  |> map_id 0x01 V1_20_2 false
  |> map_id 0x02 V1_20_5 false.
Definition reg_CFinishConfig : PacketRegistration :=
  PacketRegistration_new KCFinishConfig Config Clientbound
  |> map_id 0x02 V1_20_2 false
  |> map_id 0x03 V1_20_5 false.
Definition reg_CRegistryData : PacketRegistration :=
  PacketRegistration_new KCRegistryData Config Clientbound
  |> map_id 0x05 V1_20_2 false
  |> map_id 0x07 V1_20_5 false.
Definition reg_CKnownPacks : PacketRegistration :=
  PacketRegistration_new KCKnownPacks Config Clientbound
  |> map_id 0x0E V1_20_5 false.
Definition reg_CCommands : PacketRegistration :=
  PacketRegistration_new KCCommands Play Clientbound
  |> map_id 0x11 V1_13 false
  |> map_id 0x12 V1_15 false
  |> map_id 0x11 V1_16 false
  |> map_id 0x10 V1_16_2 false
  |> map_id 0x12 V1_17 false
  |> map_id 0x0F V1_19 false
  |> map_id 0x0E V1_19_3 false
  |> map_id 0x10 V1_19_4 false
  |> map_id 0x11 V1_20_2 false
  |> map_id 0x10 V1_21_5 false.
Definition reg_STabCompleteRequest : PacketRegistration :=
  PacketRegistration_new KSTabCompleteRequest Play Serverbound
  |> map_id 0x05 V1_13 false
  |> map_id 0x06 V1_14 false
  |> map_id 0x08 V1_19 false
  |> map_id 0x09 V1_19_1 false
  |> map_id 0x08 V1_19_3 false
  |> map_id 0x09 V1_19_4 false
  |> map_id 0x0A V1_20_2 false
  |> map_id 0x0B V1_20_5 false
  |> map_id 0x0D V1_21_2 false
  |> map_id 0x0E V1_21_6 false.
Definition reg_CTabCompleteResponse : PacketRegistration :=
  PacketRegistration_new KCTabCompleteResponse Play Clientbound
  |> map_id 0x10 V1_13 false
  |> map_id 0x11 V1_15 false
  |> map_id 0x10 V1_16 false
  |> map_id 0x0F V1_16_2 false
  |> map_id 0x11 V1_17 false
  |> map_id 0x0E V1_19 false
  |> map_id 0x0D V1_19_3 false
  |> map_id 0x0F V1_19_4 false
  |> map_id 0x10 V1_20_2 false
  |> map_id 0x0F V1_21_5 false.
Definition reg_CKeepAlive : PacketRegistration :=
  PacketRegistration_new KCKeepAlive Play Clientbound
  |> map_id 0x00 V1_7_2 false
  |> map_id 0x1F V1_9 false
  |> map_id 0x21 V1_13 false
  |> map_id 0x20 V1_14 false
  |> map_id 0x21 V1_15 false
  |> map_id 0x20 V1_16 false
  |> map_id 0x1F V1_16_2 false
  |> map_id 0x21 V1_17 false
  |> map_id 0x1E V1_19 false
  |> map_id 0x20 V1_19_1 false
  |> map_id 0x1F V1_19_3 false
  |> map_id 0x23 V1_19_4 false
  |> map_id 0x24 V1_20_2 false
  |> map_id 0x26 V1_20_5 false
  |> map_id 0x27 V1_21_2 false
  |> map_id 0x26 V1_21_5 false
  |> map_id 0x2B V1_21_9 false.
Definition reg_CDisconnect : PacketRegistration :=
  PacketRegistration_new KCDisconnect Play Clientbound
  |> map_id 0x40 V1_7_2 false
  |> map_id 0x1A V1_9 false
  |> map_id 0x1B V1_13 false
  |> map_id 0x1A V1_14 false
  |> map_id 0x1B V1_15 false
  |> map_id 0x1A V1_16 false
  |> map_id 0x19 V1_16_2 false
  |> map_id 0x1A V1_17 false
  |> map_id 0x17 V1_19 false
  |> map_id 0x19 V1_19_1 false
  |> map_id 0x17 V1_19_3 false
  |> map_id 0x1A V1_19_4 false
  |> map_id 0x1B V1_20_2 false
  |> map_id 0x1D V1_20_5 false
  |> map_id 0x1C V1_21_5 false
  |> map_id 0x20 V1_21_9 false.
Definition reg_CJoinGame : PacketRegistration :=
  PacketRegistration_new KCJoinGame Play Clientbound
  |> map_id 0x01 V1_7_2 true
  |> map_id 0x23 V1_9 true
  |> map_id 0x25 V1_13 true
  |> map_id 0x25 V1_14 true
  |> map_id 0x26 V1_15 true
  |> map_id 0x25 V1_16 true
  |> map_id 0x24 V1_16_2 true
  |> map_id 0x26 V1_17 true
  |> map_id 0x23 V1_19 true
  |> map_id 0x25 V1_19_1 true
  |> map_id 0x24 V1_19_3 true
  |> map_id 0x28 V1_19_4 true
  |> map_id 0x29 V1_20_2 true
  |> map_id 0x2B V1_20_5 true
  |> map_id 0x2C V1_21_2 true
  |> map_id 0x2B V1_21_5 true
  |> map_id 0x30 V1_21_9 true.
Definition reg_CRespawn : PacketRegistration :=
  PacketRegistration_new KCRespawn Play Clientbound
  |> map_id 0x07 V1_7_2 true
  |> map_id 0x33 V1_9 true
  |> map_id 0x34 V1_12 true
  |> map_id 0x35 V1_12_1 true
  |> map_id 0x38 V1_13 true
  |> map_id 0x3A V1_14 true
  |> map_id 0x3B V1_15 true
  |> map_id 0x3A V1_16 true
  |> map_id 0x39 V1_16_2 true
  |> map_id 0x3D V1_17 true
  |> map_id 0x3B V1_19 true
  |> map_id 0x3E V1_19_1 true
  |> map_id 0x3D V1_19_3 true
  |> map_id 0x41 V1_19_4 true
  |> map_id 0x43 V1_20_2 true
  |> map_id 0x45 V1_20_3 true
  |> map_id 0x47 V1_20_5 true
  |> map_id 0x4C V1_21_2 true
  |> map_id 0x4B V1_21_5 true
  |> map_id 0x50 V1_21_9 true.
Definition reg_CPluginMessage : PacketRegistration :=
  PacketRegistration_new KCPluginMessage Play Clientbound
  |> map_id 0x3F V1_7_2 true
  |> map_id 0x18 V1_9 true
  |> map_id 0x19 V1_13 true
  |> map_id 0x18 V1_14 true
  |> map_id 0x19 V1_15 true
  |> map_id 0x18 V1_16 true
  |> map_id 0x17 V1_16_2 true
  |> map_id 0x18 V1_17 true
  |> map_id 0x15 V1_19 true
  |> map_id 0x16 V1_19_1 true
  |> map_id 0x15 V1_19_3 true
  |> map_id 0x17 V1_19_4 true
  |> map_id 0x18 V1_20_2 true
  |> map_id 0x19 V1_20_5 true
  |> map_id 0x18 V1_21_5 true.
Definition reg_CChatMessageLegacy : PacketRegistration :=
  PacketRegistration_new KCChatMessageLegacy Play Clientbound
  |> map_id 0x02 V1_7_2 true
  |> map_id 0x0F V1_9 true
  |> map_id 0x0E V1_13 true
  |> map_id 0x0F V1_15 true
  |> map_id 0x0E V1_16 true
  |> map_id 0x0F V1_17 true.
Definition reg_CSystemChatMessage : PacketRegistration :=
  PacketRegistration_new KCSystemChatMessage Play Clientbound
  |> map_id 0x5F V1_19 true
  |> map_id 0x62 V1_19_1 true
  |> map_id 0x60 V1_19_3 true
  |> map_id 0x64 V1_19_4 true
  |> map_id 0x67 V1_20_2 true
  |> map_id 0x69 V1_20_3 true
  |> map_id 0x6C V1_20_5 true
  |> map_id 0x73 V1_21_2 true
  |> map_id 0x72 V1_21_5 true
  |> map_id 0x77 V1_21_9 true.
Definition reg_CTitleLegacy : PacketRegistration :=
  PacketRegistration_new KCTitleLegacy Play Clientbound
  |> map_id 0x45 V1_8 true
  |> map_id 0x47 V1_9 true
  |> map_id 0x48 V1_12 true
  |> map_id 0x4B V1_13 true
  |> map_id 0x4F V1_14 true
  |> map_id 0x50 V1_15 true
  |> map_id 0x4F V1_16 true.
Definition reg_CSetTitle : PacketRegistration :=
  PacketRegistration_new KCSetTitle Play Clientbound
  |> map_id 0x59 V1_17 true
  |> map_id 0x5A V1_18 true
  |> map_id 0x5D V1_19_1 true
  |> map_id 0x5B V1_19_3 true
  |> map_id 0x5F V1_19_4 true
  |> map_id 0x61 V1_20_2 true
  |> map_id 0x63 V1_20_3 true
  |> map_id 0x65 V1_20_5 true
  |> map_id 0x6C V1_21_2 true
  |> map_id 0x6B V1_21_5 true
  |> map_id 0x70 V1_21_9 true.
Definition reg_CSetSubtitle : PacketRegistration :=
  PacketRegistration_new KCSetSubtitle Play Clientbound
  |> map_id 0x57 V1_17 true
  |> map_id 0x58 V1_18 true
  |> map_id 0x5B V1_19_1 true
  |> map_id 0x59 V1_19_3 true
  |> map_id 0x5D V1_19_4 true
  |> map_id 0x5F V1_20_2 true
  |> map_id 0x61 V1_20_3 true
  |> map_id 0x63 V1_20_5 true
  |> map_id 0x6A V1_21_2 true
  |> map_id 0x69 V1_21_5 true
  |> map_id 0x6E V1_21_9 true.
Definition reg_CSetTitleTimes : PacketRegistration :=
  PacketRegistration_new KCSetTitleTimes Play Clientbound
  |> map_id 0x5A V1_17 true
  |> map_id 0x5B V1_18 true
  |> map_id 0x5E V1_19_1 true
  |> map_id 0x5C V1_19_3 true
  |> map_id 0x60 V1_19_4 true
  |> map_id 0x62 V1_20_2 true
  |> map_id 0x64 V1_20_3 true
  |> map_id 0x66 V1_20_5 true
  |> map_id 0x6D V1_21_2 true
  |> map_id 0x6C V1_21_5 true
  |> map_id 0x71 V1_21_9 true.
Definition reg_CTransfer : PacketRegistration :=
  PacketRegistration_new KCTransfer Play Clientbound
  |> map_id 0x73 V1_20_5 true
  |> map_id 0x7A V1_21_2 true
  |> map_id 0x7F V1_21_9 true.
Definition reg_CStartConfiguration : PacketRegistration :=
  PacketRegistration_new KCStartConfiguration Play Clientbound
  |> map_id 0x65 V1_20_2 true
  |> map_id 0x67 V1_20_3 true
  |> map_id 0x69 V1_20_5 true
  |> map_id 0x70 V1_21_2 true
  |> map_id 0x6F V1_21_5 true
  |> map_id 0x74 V1_21_9 true.
Definition reg_CGameEvent : PacketRegistration :=
  PacketRegistration_new KCGameEvent Play Clientbound
  |> map_id 0x1B V1_9 true
  |> map_id 0x1E V1_13 true
  |> map_id 0x1D V1_14 true
  |> map_id 0x1E V1_15 true
  |> map_id 0x1D V1_16 true
  |> map_id 0x1C V1_16_2 true
  |> map_id 0x1D V1_17 true
  |> map_id 0x1B V1_19 true
  |> map_id 0x1D V1_19_1 true
  |> map_id 0x1C V1_19_3 true
  |> map_id 0x20 V1_19_4 true
  |> map_id 0x20 V1_20_2 true
  |> map_id 0x22 V1_20_5 true
  |> map_id 0x23 V1_21_2 true
  |> map_id 0x22 V1_21_5 true
  |> map_id 0x26 V1_21_9 true.
Definition reg_CSetCenterChunk : PacketRegistration :=
  PacketRegistration_new KCSetCenterChunk Play Clientbound
  |> map_id 0x40 V1_14 true
  |> map_id 0x41 V1_15 true
  |> map_id 0x40 V1_16 true
  |> map_id 0x49 V1_17 true
  |> map_id 0x4A V1_18 true
  |> map_id 0x48 V1_19 true
  |> map_id 0x4B V1_19_1 true
  |> map_id 0x4A V1_19_3 true
  |> map_id 0x4E V1_19_4 true
  |> map_id 0x50 V1_20_2 true
  |> map_id 0x52 V1_20_3 true
  |> map_id 0x54 V1_20_5 true
  |> map_id 0x58 V1_21_2 true
  |> map_id 0x57 V1_21_5 true
  |> map_id 0x5C V1_21_9 true.
Definition reg_CChunkBatchStart : PacketRegistration :=
  PacketRegistration_new KCChunkBatchStart Play Clientbound
  |> map_id 0x0D V1_20_2 true
  |> map_id 0x0D V1_20_5 true
  |> map_id 0x0C V1_21_5 true
  |> map_id 0x0C V1_21_9 true.
Definition reg_CChunkBatchFinished : PacketRegistration :=
  PacketRegistration_new KCChunkBatchFinished Play Clientbound
  |> map_id 0x0C V1_20_2 true
  |> map_id 0x0C V1_20_5 true
  |> map_id 0x0B V1_21_5 true
  |> map_id 0x0B V1_21_9 true.
Definition reg_CSetDefaultSpawnPosition : PacketRegistration :=
  PacketRegistration_new KCSetDefaultSpawnPosition Play Clientbound
  |> map_id 0x05 V1_7_2 true
  |> map_id 0x43 V1_9 true
  |> map_id 0x46 V1_12 true
  |> map_id 0x49 V1_13 true
  |> map_id 0x4D V1_14 true
  |> map_id 0x4E V1_15 true
  |> map_id 0x42 V1_16 true
  |> map_id 0x4B V1_17 true
  |> map_id 0x4C V1_18 true
  |> map_id 0x4A V1_19 true
  |> map_id 0x4D V1_19_1 true
  |> map_id 0x4C V1_19_3 true
  |> map_id 0x50 V1_19_4 true
  |> map_id 0x52 V1_20_2 true
  |> map_id 0x54 V1_20_3 true
  |> map_id 0x56 V1_20_5 true
  |> map_id 0x5B V1_21_2 true
  |> map_id 0x5A V1_21_5 true
  |> map_id 0x5F V1_21_9 true.
Definition reg_CSynchronizePlayerPosition : PacketRegistration :=
  PacketRegistration_new KCSynchronizePlayerPosition Play Clientbound
  |> map_id 0x08 V1_7_2 true
  |> map_id 0x2E V1_9 true
  |> map_id 0x2F V1_12_1 true
  |> map_id 0x32 V1_13 true
  |> map_id 0x35 V1_14 true
  |> map_id 0x36 V1_15 true
  |> map_id 0x35 V1_16 true
  |> map_id 0x34 V1_16_2 true
  |> map_id 0x38 V1_17 true
  |> map_id 0x39 V1_18 true
  |> map_id 0x36 V1_19 true
  |> map_id 0x39 V1_19_1 true
  |> map_id 0x38 V1_19_3 true
  |> map_id 0x3C V1_19_4 true
  |> map_id 0x3E V1_20_2 true
  |> map_id 0x40 V1_20_3 true
  |> map_id 0x42 V1_20_5 true
  |> map_id 0x42 V1_21_2 true
  |> map_id 0x41 V1_21_5 true
  |> map_id 0x46 V1_21_9 true.
Definition reg_SAcknowledgeConfiguration : PacketRegistration :=
  PacketRegistration_new KSAcknowledgeConfiguration Play Serverbound
  |> map_id 0x0B V1_20_2 false
  |> map_id 0x0C V1_20_5 false
  |> map_id 0x0E V1_21_2 false
  |> map_id 0x0F V1_21_6 false.
Definition reg_SKeepAlive : PacketRegistration :=
  PacketRegistration_new KSKeepAlive Play Serverbound
  |> map_id 0x00 V1_7_2 false
  |> map_id 0x0B V1_9 false
  |> map_id 0x0C V1_12 false
  |> map_id 0x0B V1_12_1 false
  |> map_id 0x0E V1_13 false
  |> map_id 0x0F V1_14 false
  |> map_id 0x10 V1_16 false
  |> map_id 0x0F V1_17 false
  |> map_id 0x11 V1_19 false
  |> map_id 0x12 V1_19_1 false
  |> map_id 0x11 V1_19_3 false
  |> map_id 0x12 V1_19_4 false
  |> map_id 0x14 V1_20_2 false
  |> map_id 0x15 V1_20_3 false
  |> map_id 0x18 V1_20_5 false
  |> map_id 0x1A V1_21_2 false
  |> map_id 0x1B V1_21_6 false.
Definition reg_SChatMessage : PacketRegistration :=
  PacketRegistration_new KSChatMessage Play Serverbound
  |> map_id 0x01 V1_7_2 true
  |> map_id 0x02 V1_9 true
  |> map_id 0x03 V1_12 true
  |> map_id 0x02 V1_12_1 true
  |> map_id 0x02 V1_13 true
  |> map_id 0x03 V1_14 true
  |> map_id 0x03 V1_15 true
  |> map_id 0x03 V1_16 true
  |> map_id 0x03 V1_17 true
  |> map_id 0x05 V1_19 true
  |> map_id 0x05 V1_19_1 true
  |> map_id 0x05 V1_19_3 true
  |> map_id 0x05 V1_19_4 true
  |> map_id 0x06 V1_20_2 true
  |> map_id 0x06 V1_20_5 true
  |> map_id 0x07 V1_21_2 true
  |> map_id 0x08 V1_21_6 true.
Definition reg_SChatCommand : PacketRegistration :=
  PacketRegistration_new KSChatCommand Play Serverbound
  |> map_id 0x04 V1_19 true
  |> map_id 0x04 V1_19_1 true
  |> map_id 0x04 V1_19_3 true
  |> map_id 0x04 V1_19_4 true
  |> map_id 0x04 V1_20_2 true
  |> map_id 0x04 V1_20_5 true
  |> map_id 0x05 V1_21_2 true
  |> map_id 0x06 V1_21_6 true.
Definition reg_SChatSessionUpdate : PacketRegistration :=
  PacketRegistration_new KSChatSessionUpdate Play Serverbound
  |> map_id 0x07 V1_21 true
  |> map_id 0x08 V1_21_2 true
  |> map_id 0x09 V1_21_6 true.
Definition reg_SPluginMessage : PacketRegistration :=
  PacketRegistration_new KSPluginMessage Play Serverbound
  |> map_id 0x17 V1_7_2 true
  |> map_id 0x09 V1_9 true
  |> map_id 0x0A V1_12 true
  |> map_id 0x09 V1_12_1 true
  |> map_id 0x0A V1_13 true
  |> map_id 0x0B V1_14 true
  |> map_id 0x0A V1_17 true
  |> map_id 0x0C V1_19 true
  |> map_id 0x0D V1_19_1 true
  |> map_id 0x0C V1_19_3 true
  |> map_id 0x0D V1_19_4 true
  |> map_id 0x0F V1_20_2 true
  |> map_id 0x10 V1_20_3 true
  |> map_id 0x12 V1_20_5 true
  |> map_id 0x14 V1_21_2 true
  |> map_id 0x15 V1_21_6 true.

(** The calls of [build_default_registry], in order. *)
Definition default_registrations : list PacketRegistration :=
  [reg_SHandshake; reg_SStatusRequest; reg_SPingRequest; reg_CStatusResponse;
   reg_CPingResponse; reg_SLoginStart; reg_SEncryptionResponse; reg_SLoginPluginResponse;
   reg_SLoginAcknowledged; reg_CLoginDisconnect; reg_CEncryptionRequest; reg_CLoginSuccess;
   reg_CSetCompression; reg_CLoginPluginRequest; reg_SConfigPluginMessage;
   reg_SAcknowledgeFinishConfig; reg_SKnownPacks; reg_CConfigPluginMessage;
   reg_CConfigDisconnect; reg_CFinishConfig; reg_CRegistryData; reg_CKnownPacks;
   reg_CCommands; reg_STabCompleteRequest; reg_CTabCompleteResponse; reg_CKeepAlive;
   reg_CDisconnect; reg_CJoinGame; reg_CRespawn; reg_CPluginMessage; reg_CChatMessageLegacy;
   reg_CSystemChatMessage; reg_CTitleLegacy; reg_CSetTitle; reg_CSetSubtitle;
   reg_CSetTitleTimes; reg_CTransfer; reg_CStartConfiguration; reg_CGameEvent;
   reg_CSetCenterChunk; reg_CChunkBatchStart; reg_CChunkBatchFinished;
   reg_CSetDefaultSpawnPosition; reg_CSynchronizePlayerPosition;
   reg_SAcknowledgeConfiguration; reg_SKeepAlive; reg_SChatMessage; reg_SChatCommand;
   reg_SChatSessionUpdate; reg_SPluginMessage].

Definition build_default_registry : PacketRegistry :=
  foldl (λ registry reg, register reg registry) PacketRegistry_new default_registrations.

#[export] Instance kind_laws `{UuidTextLaws} (k : packet_kind) : PacketLaws (kind_type k) :=
  match k with
  | KSHandshake => SHandshake_laws
  | KSStatusRequest => SStatusRequest_laws
  | KSPingRequest => SPingRequest_laws
  | KCStatusResponse => CStatusResponse_laws
  | KCPingResponse => CPingResponse_laws
  | KSLoginStart => SLoginStart_laws
  | KSEncryptionResponse => SEncryptionResponse_laws
  | KSLoginPluginResponse => SLoginPluginResponse_laws
  | KSLoginAcknowledged => SLoginAcknowledged_laws
  | KCLoginDisconnect => CLoginDisconnect_laws
  | KCEncryptionRequest => CEncryptionRequest_laws
  | KCLoginSuccess => CLoginSuccess_laws
  | KCSetCompression => CSetCompression_laws
  | KCLoginPluginRequest => CLoginPluginRequest_laws
  | KSConfigPluginMessage => SConfigPluginMessage_laws
  | KSAcknowledgeFinishConfig => SAcknowledgeFinishConfig_laws
  | KSKnownPacks => SKnownPacks_laws
  | KCConfigPluginMessage => CConfigPluginMessage_laws
  | KCConfigDisconnect => CConfigDisconnect_laws
  | KCFinishConfig => CFinishConfig_laws
  | KCRegistryData => CRegistryData_laws
  | KCKnownPacks => CKnownPacks_laws
  | KCCommands => CCommands_laws
  | KSTabCompleteRequest => STabCompleteRequest_laws
  | KCTabCompleteResponse => CTabCompleteResponse_laws
  | KCKeepAlive => CKeepAlive_laws
  | KCDisconnect => CDisconnect_laws
  | KCJoinGame => CJoinGame_laws
  | KCRespawn => CRespawn_laws
  | KCPluginMessage => CPluginMessage_laws
  | KCChatMessageLegacy => CChatMessageLegacy_laws
  | KCSystemChatMessage => CSystemChatMessage_laws
  | KCTitleLegacy => CTitleLegacy_laws
  | KCSetTitle => CSetTitle_laws
  | KCSetSubtitle => CSetSubtitle_laws
  | KCSetTitleTimes => CSetTitleTimes_laws
  | KCTransfer => CTransfer_laws
  | KCStartConfiguration => CStartConfiguration_laws
  | KCGameEvent => CGameEvent_laws
  | KCSetCenterChunk => CSetCenterChunk_laws
  | KCChunkBatchStart => CChunkBatchStart_laws
  | KCChunkBatchFinished => CChunkBatchFinished_laws
  | KCSetDefaultSpawnPosition => CSetDefaultSpawnPosition_laws
  | KCSynchronizePlayerPosition => CSynchronizePlayerPosition_laws
  | KSAcknowledgeConfiguration => SAcknowledgeConfiguration_laws
  | KSKeepAlive => SKeepAlive_laws
  | KSChatMessage => SChatMessage_laws
  | KSChatCommand => SChatCommand_laws
  | KSChatSessionUpdate => SChatSessionUpdate_laws
  | KSPluginMessage => SPluginMessage_laws
  end.

(** ** The table *)

(** The decoder the registry holds for an id. *)
Definition decoder_at (R : PacketRegistry) (s : ConnectionState) (d : Direction)
    (v : ProtocolVersion) (id : Z) : option DecoderFn :=
  vr ← registries R !! (s, d, v); id_to_decoder vr !! id.

(** The registration of a packet type, and the packets the proxy intercepts in a
    version: those with a mapping in force that is not encode-only. *)
Definition registration_of (k : packet_kind) : option PacketRegistration :=
  snd <$> list_find (λ r, reg_kind r = k) default_registrations.

Definition mapping_of (k : packet_kind) (v : ProtocolVersion) : option PacketMapping :=
  r ← registration_of k; in_force (reg_mappings r) v.

Definition intercepted (k : packet_kind) (v : ProtocolVersion) : bool :=
  match mapping_of k v with Some m => negb (map_encode_only m) | None => false end.

(** The state and the direction the packet type is registered for. *)
Definition place_of (k : packet_kind) : ConnectionState * Direction :=
  match registration_of k with
  | Some r => (reg_state r, reg_direction r)
  | None => (Handshake, Serverbound)
  end.

Definition table_entry_ok (R : PacketRegistry) (v : ProtocolVersion) (k : packet_kind) : bool :=
  let '(s, d) := place_of k in
  bool_decide (get_packet_id R k s d v = map_packet_id <$> mapping_of k v) &&
  match mapping_of k v with
  | Some m =>
    bool_decide (in_s 32 (map_packet_id m)) &&
    (map_encode_only m || bool_decide (decoder_at R s d v (map_packet_id m) = Some k))
  | None => true
  end.

(** Every entry of the default registry, checked by evaluation. *)
Lemma default_table_ok :
  forallb (λ v, forallb (table_entry_ok build_default_registry v) all_kinds) SUPPORTED = true.
Proof. by vm_compute. Qed.

Lemma default_entry v k :
  v ∈ SUPPORTED → table_entry_ok build_default_registry v k = true.
Proof.
  intros Hv. pose proof default_table_ok as H. rewrite forallb_forall in H.
  specialize (H v). rewrite forallb_forall in H. apply H.
  - by apply list_elem_of_In.
  - apply list_elem_of_In, all_kinds_complete.
Qed.

Lemma table_intercepted R v k :
  table_entry_ok R v k = true → intercepted k v = true →
  ∃ id, in_s 32 id ∧ get_packet_id R k (place_of k).1 (place_of k).2 v = Some id ∧
    decoder_at R (place_of k).1 (place_of k).2 v id = Some k.
Proof.
  unfold table_entry_ok, intercepted. destruct (place_of k) as [s d].
  destruct (mapping_of k v) as [m|]; [|done]. intros He Hm%negb_true_iff.
  rewrite Hm in He. apply andb_true_iff in He as [Hid [Hr Hd]%andb_true_iff].
  apply bool_decide_eq_true_1 in Hid, Hr, Hd. by exists (map_packet_id m).
Qed.

Lemma default_intercepted v k :
  v ∈ SUPPORTED → intercepted k v = true →
  ∃ id, in_s 32 id ∧
    get_packet_id build_default_registry k (place_of k).1 (place_of k).2 v = Some id ∧
    decoder_at build_default_registry (place_of k).1 (place_of k).2 v id = Some k.
Proof. intros Hv. by apply table_intercepted, default_entry. Qed.

(** Registrations name the state and direction of the packet's own trait. *)
Lemma place_of_packet `{UuidText} k :
  place_of k = (pkt_state (kind_type k), pkt_direction (kind_type k)).
Proof. by destruct k. Qed.

(** Every decoder is that of a packet of its state, direction and version. *)
Lemma default_decoders_table :
  forallb (λ e, forallb (λ f, bool_decide (place_of f.2 = e.1.1) && intercepted f.2 e.1.2)
                  (map_to_list (id_to_decoder e.2)))
    (map_to_list (registries build_default_registry)) = true.
Proof. by vm_compute. Qed.

Lemma default_decoders_ok s d v vr id k :
  registries build_default_registry !! (s, d, v) = Some vr → id_to_decoder vr !! id = Some k →
  place_of k = (s, d) ∧ intercepted k v = true.
Proof.
  intros Hr Hk. generalize default_decoders_table. revert Hr.
  generalize (registries build_default_registry). intros m Hr Ht. rewrite forallb_forall in Ht.
  specialize (Ht ((s, d, v), vr)). rewrite forallb_forall in Ht.
  apply elem_of_map_to_list, list_elem_of_In in Hr. apply elem_of_map_to_list, list_elem_of_In in Hk.
  specialize (Ht Hr _ Hk). cbn [fst snd] in Ht. apply andb_true_iff in Ht as [Hp Hi].
  split; [exact (proj1 (bool_decide_eq_true _) Hp)|exact Hi].
Qed.

#[global] Opaque build_default_registry.

(** ** Decoding through the registry *)

Lemma decode_frame_decoder `{UuidText} R s d v id k bs (p : kind_type k) :
  decoder_at R s d v id = Some k → reads_all (pkt_decode (kind_type k) v) bs p →
  decode_frame R (mk_frame id bs) s d v = Ok (Typed id (existT k p)).
Proof.
  unfold decoder_at, decode_frame. cbn [frame_id payload]. intros Hd Hr.
  destruct (registries R !! (s, d, v)) as [vr|]; [|done]. cbv [mbind option_bind] in Hd.
  rewrite Hd. unfold run_decoder. cbv [mbind reader_bind]. by rewrite Hr.
Qed.

Lemma decode_frame_no_decoder `{UuidText} R s d v id bs :
  decoder_at R s d v id = None → decode_frame R (mk_frame id bs) s d v = Ok (Opaque id bs).
Proof.
  unfold decoder_at, decode_frame. cbn [frame_id payload]. intros Hd.
  destruct (registries R !! (s, d, v)) as [vr|]; [|done]. cbv [mbind option_bind] in Hd. by rewrite Hd.
Qed.

(** What a decoded packet says about where it was decoded. *)
Lemma decode_frame_place `{UuidText} f s d v id p :
  decode_frame build_default_registry f s d v = Ok (Typed id p) →
  place_of (projT1 p) = (s, d) ∧ intercepted (projT1 p) v = true ∧ id = frame_id f.
Proof.
  unfold decode_frame. destruct (registries build_default_registry !! (s, d, v)) as [vr|] eqn:Er; [|done].
  destruct (id_to_decoder vr !! frame_id f) as [k|] eqn:Ek; [|done]. unfold run_decoder. cbv [mbind reader_bind].
  destruct (pkt_decode (kind_type k) v (payload f)) as [[x rest]|e]; [|done]. intros [= <- <-]. cbn [projT1].
  destruct (default_decoders_ok _ _ _ _ _ _ Er Ek) as [Hp Hi]. exact (conj Hp (conj Hi eq_refl)).
Qed.

(** A packet of the default registry, from its fields to its frame and back. *)
Lemma default_packet `{UuidTextLaws} k (p : kind_type k) v :
  v ∈ SUPPORTED → intercepted k v = true → pkt_ok p v →
  ∃ id bs, in_s 32 id ∧
    get_packet_id build_default_registry k (pkt_state (kind_type k))
      (pkt_direction (kind_type k)) v = Some id ∧
    pkt_encode p v = Ok bs ∧
    decode_frame build_default_registry (mk_frame id bs) (pkt_state (kind_type k))
      (pkt_direction (kind_type k)) v = Ok (Typed id (existT k (pkt_norm p v))).
Proof.
  intros Hv Hk Hp. destruct (default_intercepted v k Hv Hk) as (id&Hs&Hid&Hd).
  rewrite (place_of_packet k) in Hid, Hd.
  destruct (pkt_roundtrip p v Hp) as (bs&Hbs&Hr). exists id, bs.
  split; [exact Hs|]. split; [exact Hid|]. split; [exact Hbs|].
  by apply decode_frame_decoder.
Qed.

(** ** Theorems *)

(** C10: every packet type of the proxy is registered.  For every type but the update of
    the chat session, in every protocol version, known or not, a well-formed packet is
    encoded without error, the decoder reads all of the bytes and gives the packet back
    up to the fields the version does not carry, and encoding the decoded packet gives
    the same bytes, so a packet the proxy decodes and sends on is unchanged on the wire.
    Well-formed command trees are those whose parsers have the properties that the
    codec's own table reads for them; before 1.19 the table is out of step for some.  The
    update of the chat session encodes to nothing and its decoder always fails. *)
Theorem all_packets_roundtrip `{UuidTextLaws} (k : packet_kind) (p : kind_type k)
    (v : ProtocolVersion) :
  is_Some (registration_of k) ∧
  (k ≠ KSChatSessionUpdate → pkt_ok p v →
   ∃ bs, pkt_encode p v = Ok bs ∧
     pkt_decode (kind_type k) v bs = Ok (pkt_norm p v, []) ∧
     pkt_encode (pkt_norm p v) v = Ok bs) ∧
  (k = KSChatSessionUpdate → pkt_encode p v = Ok [] ∧ ∀ bs, ∃ e, pkt_decode (kind_type k) v bs = Err e).
Proof.
  split; [by destruct k; eexists|]. split.
  - intros _ Hp. destruct (pkt_roundtrip p v Hp) as (bs&Hbs&Hr). exists bs.
    split; [done|]. split; [done|]. by rewrite pkt_norm_encode.
  - intros ->. split; [done|]. intros bs. by eexists.
Qed.

Lemma all_packets_roundtrip_witness :
  let p := mk_CRespawn 3 (str "minecraft:the_nether") 42 0 (-1) false true 1
             (Some (str "minecraft:overworld")) (Some 77) 0 63 None in
  is_Some (registration_of KCRespawn) ∧
  ∃ bs, CRespawn_encode p V1_20_2 = Ok bs ∧
    CRespawn_decode V1_20_2 bs = Ok (CRespawn_norm p V1_20_2, []) ∧
    CRespawn_encode (CRespawn_norm p V1_20_2) V1_20_2 = Ok bs.
Proof.
  intros p. assert (Hp : CRespawn_ok p V1_20_2).
  { unfold CRespawn_ok, death_ok. simpl.
    split; [reflexivity|]. unfold in_s. simpl.
    split; [lia|]. split; [apply (bool_decide_unpack _); by vm_compute|].
    split; [lia|]. split; [lia|]. split; [|lia].
    split; [apply (bool_decide_unpack _); by vm_compute|lia]. }
  destruct (@all_packets_roundtrip hex_uuid hex_uuid_laws KCRespawn p V1_20_2) as (Hr&Hbs&_).
  split; [exact Hr|]. exact (Hbs ltac:(discriminate) Hp).
Defined.

(** C11: the default registry is consistent with every packet codec.  For each of the
    34 supported versions and each packet type the proxy intercepts in it, the
    registry has an id for the type, a well-formed packet can be encoded, and
    decoding the frame with that id gives the packet back as the same type, up to
    the fields the version does not carry. *)
Theorem default_registry_roundtrip `{UuidTextLaws} (k : packet_kind) (p : kind_type k)
    (v : ProtocolVersion) :
  v ∈ SUPPORTED → intercepted k v = true → pkt_ok p v →
  ∃ id bs,
    get_packet_id build_default_registry k (pkt_state (kind_type k))
      (pkt_direction (kind_type k)) v = Some id ∧
    pkt_encode p v = Ok bs ∧
    decode_frame build_default_registry (mk_frame id bs) (pkt_state (kind_type k))
      (pkt_direction (kind_type k)) v = Ok (Typed id (existT k (pkt_norm p v))).
Proof.
  intros Hv Hk Hp. destruct (default_packet k p v Hv Hk Hp) as (id&bs&_&H1&H2&H3).
  exists id, bs. split; [exact H1|]. split; [exact H2|exact H3].
Qed.

Lemma default_registry_roundtrip_witness :
  let p := mk_SLoginStart (str "Notch") (Some 7) None in
  ∃ id bs,
    get_packet_id build_default_registry KSLoginStart Login Serverbound V1_20_2 = Some id ∧
    SLoginStart_encode p V1_20_2 = Ok bs ∧
    @decode_frame hex_uuid build_default_registry (mk_frame id bs) Login Serverbound V1_20_2
      = Ok (Typed id (existT KSLoginStart p)).
Proof.
  intros p.
  exact (@default_registry_roundtrip hex_uuid hex_uuid_laws KSLoginStart p V1_20_2
    ltac:(apply (bool_decide_unpack _); by vm_compute) ltac:(by vm_compute)
    ltac:(split; [apply (bool_decide_unpack _); by vm_compute|];
          split; [done|]; split; [apply (bool_decide_unpack _); by vm_compute|done])).
Defined.

(** A frame the registry has no decoder for is not an error: it comes back
    opaque, with its id and its payload as they were received, and an error can
    only come from the decoder of a registered packet. *)
Theorem decode_frame_total `{UuidText} (R : PacketRegistry) (f : PacketFrame)
    (s : ConnectionState) (d : Direction) (v : ProtocolVersion) :
  match decode_frame R f s d v with
  | Ok (Opaque id bs) => has_decoder R s d v (frame_id f) = false ∧
      id = frame_id f ∧ bs = payload f
  | Ok (Typed id p) => id = frame_id f ∧ decoder_at R s d v id = Some (projT1 p) ∧
      ∃ rest, pkt_decode (kind_type (projT1 p)) v (payload f) = Ok (projT2 p, rest)
  | Err e => ∃ k, decoder_at R s d v (frame_id f) = Some k ∧
      pkt_decode (kind_type k) v (payload f) = Err e
  end.
Proof.
  unfold decode_frame, has_decoder, decoder_at. destruct (registries R !! (s, d, v)) as [vr|]; [|done].
  cbv [mbind option_bind].
  destruct (id_to_decoder vr !! frame_id f) as [k|] eqn:Hk.
  2:{ split; [|done]. apply bool_decide_eq_false_2. by intros [? [=]]. }
  unfold run_decoder. cbv [mbind reader_bind option_bind mret reader_ret].
  destruct (pkt_decode (kind_type k) v (payload f)) as [[p rest]|e] eqn:E; simpl; rewrite ?Hk.
  - split; [done|]. split; [done|]. by exists rest.
  - by exists k.
Qed.

(** The legacy chat packet, registered for versions before 1.19, keeps the id 0x0F
    in every later version too, and there it is the id of another packet: encoded
    for 1.19 or 1.19.1 it carries the id of the command tree, and for 1.19.4 to
    1.20.1 and 1.21.5 on that of the tab-completion response. *)
Theorem legacy_chat_id_shared :
  (∀ v, v ∈ SUPPORTED → V1_17 ≤ v →
    get_packet_id build_default_registry KCChatMessageLegacy Play Clientbound v = Some 0x0F) ∧
  (∀ v, v ∈ [V1_19; V1_19_1] →
    get_packet_id build_default_registry KCCommands Play Clientbound v = Some 0x0F ∧
    decoder_at build_default_registry Play Clientbound v 0x0F = Some KCCommands) ∧
  (∀ v, v ∈ [V1_19_4; V1_20; V1_21_5; V1_21_6; V1_21_7; V1_21_9; V1_21_11] →
    get_packet_id build_default_registry KCTabCompleteResponse Play Clientbound v = Some 0x0F ∧
    decoder_at build_default_registry Play Clientbound v 0x0F = Some KCTabCompleteResponse).
Proof.
  split; [|split]; [|apply Forall_forall; apply (bool_decide_unpack _); by vm_compute..].
  apply (proj1 (Forall_forall (λ v, V1_17 ≤ v → get_packet_id build_default_registry
    KCChatMessageLegacy Play Clientbound v = Some 0x0F) SUPPORTED)).
  apply (bool_decide_unpack _). by vm_compute.
Qed.
