(* ===== verification/Bridge.v ===== *)
(** * Bridge: the two ends of a proxied connection

    Models [crypto/cipher.rs] and, of the core, [CoreError] ([error.rs]) and the
    packet transport of [session/client_bridge.rs] and [session/backend_bridge.rs]:
    framing, compression and encryption put together.  The socket is the list of
    the chunks that reads will yield and the bytes that were written so far;
    failures of the socket itself are not modelled. *)
From S2P Require Import Prelude Wire Utf8 VarInt Codec Frame Version Packet LoginPackets.
From S2P Require Import PlayPackets Commands Registry DefaultRegistry.

(** ** Errors of the core *)

Inductive CoreError :=
| CTransport (e : string)
| CProtocol (e : ProtocolError)
| CConfig (e : string)
| Rejected (msg : rstring)
| UnknownDomain (domain : rstring)
| ConnectionClosed
| CTimeout (msg : string)
| BackendUnreachable (msg : string)
| CIo (kind : IoErrorKind)
| Forwarding (e : string)
| Auth (msg : string)
| MissingExtension (name : string)
| InvalidProviderId (id : string)
| DockerConnection (msg : string)
| TelemetryInit (msg : string)
| COther (msg : string).

Definition is_expected_disconnect (self : CoreError) : bool :=
  match self with
  | CIo UnexpectedEof => true
  | CIo (OtherIo name) =>
    bool_decide (name ∈ ["ConnectionReset"; "BrokenPipe"; "ConnectionAborted"]%string)
  | ConnectionClosed | CTransport _ => true
  | _ => false
  end.

(** The derived [Debug] of a state and of a version. *)
Definition state_debug (s : ConnectionState) : string :=
  match s with
  | Handshake => "Handshake" | Status => "Status" | Login => "Login"
  | Config => "Config" | Play => "Play"
  end.
Definition version_debug (v : ProtocolVersion) : string :=
  "ProtocolVersion(" +:+ pretty v +:+ ")".

(** ** Ciphers *)

(** AES-128 in CFB8 mode, one byte at a time, of the [cfb8] crate. *)
Class Cfb8 := {
  cfb_state : Type;
  cfb_new : bytes → bytes → cfb_state;
  encrypt_block : cfb_state → Z → Z * cfb_state;
  decrypt_block : cfb_state → Z → Z * cfb_state;
}.

(** A decryptor in the state of the encryptor recovers the byte and stays with it. *)
Class Cfb8Laws `{Cfb8} := {
  decrypt_encrypt s b :
    decrypt_block s (encrypt_block s b).1 = (b, (encrypt_block s b).2);
}.

Section cipher.
Context `{Cfb8}.

Definition EncryptCipher_new (key : bytes) : cfb_state := cfb_new key key.
Definition DecryptCipher_new (key : bytes) : cfb_state := cfb_new key key.

Fixpoint cipher_encrypt (s : cfb_state) (data : bytes) : bytes * cfb_state :=
  match data with
  | [] => ([], s)
  | byte :: data =>
    let '(byte, s) := encrypt_block s byte in
    let '(data, s) := cipher_encrypt s data in (byte :: data, s)
  end.

Fixpoint cipher_decrypt (s : cfb_state) (data : bytes) : bytes * cfb_state :=
  match data with
  | [] => ([], s)
  | byte :: data =>
    let '(byte, s) := decrypt_block s byte in
    let '(data, s) := cipher_decrypt s data in (byte :: data, s)
  end.

(** [if let Some(cipher) = &mut self.encrypt_cipher { cipher.encrypt(&mut data) }]. *)
Definition encrypt_opt (c : option cfb_state) (data : bytes) : bytes * option cfb_state :=
  match c with
  | Some s => let '(data, s) := cipher_encrypt s data in (data, Some s)
  | None => (data, None)
  end.
Definition decrypt_opt (c : option cfb_state) (data : bytes) : bytes * option cfb_state :=
  match c with
  | Some s => let '(data, s) := cipher_decrypt s data in (data, Some s)
  | None => (data, None)
  end.

(** ** The client bridge *)

Record ClientBridge := mk_ClientBridge {
  cb_decoder : PacketDecoder;
  cb_encoder : PacketEncoder;
  cb_encrypt : option cfb_state;
  cb_decrypt : option cfb_state;
  cb_version : ProtocolVersion;
  cb_state : ConnectionState;
  cb_written : bytes;
}.

Definition ClientBridge_new (buffered_data : bytes) (v : ProtocolVersion) : ClientBridge :=
  let decoder := if decide (buffered_data = []) then PacketDecoder_new
                 else queue_bytes PacketDecoder_new buffered_data in
  mk_ClientBridge decoder PacketEncoder_new None None v Login [].

Definition cb_enable_encryption (key : bytes) (b : ClientBridge) : ClientBridge :=
  mk_ClientBridge (cb_decoder b) (cb_encoder b) (Some (EncryptCipher_new key))
    (Some (DecryptCipher_new key)) (cb_version b) (cb_state b) (cb_written b).

Definition cb_set_compression (threshold : Z) (b : ClientBridge) : ClientBridge :=
  mk_ClientBridge (dec_set_compression threshold (cb_decoder b))
    (enc_set_compression threshold (cb_encoder b)) (cb_encrypt b) (cb_decrypt b)
    (cb_version b) (cb_state b) (cb_written b).

Definition cb_set_state (s : ConnectionState) (b : ClientBridge) : ClientBridge :=
  mk_ClientBridge (cb_decoder b) (cb_encoder b) (cb_encrypt b) (cb_decrypt b)
    (cb_version b) s (cb_written b).

Context `{Zlib}.

(** The loop of [read_frame], on the chunks the socket has yet to yield; an empty
    chunk, or none, is the end of the stream. *)
Fixpoint cb_read_frame (b : ClientBridge) (chunks : list bytes) :
    result CoreError (option PacketFrame) * ClientBridge * list bytes :=
  let with_decoder d c := mk_ClientBridge d (cb_encoder b) (cb_encrypt b) c (cb_version b)
                            (cb_state b) (cb_written b) in
  match try_next_frame (cb_decoder b) with
  | (Err e, d) => (Err (CProtocol e), with_decoder d (cb_decrypt b), chunks)
  | (Ok (Some frame), d) => (Ok (Some frame), with_decoder d (cb_decrypt b), chunks)
  | (Ok None, d) =>
    match chunks with
    | [] => (Ok None, with_decoder d (cb_decrypt b), [])
    | chunk :: chunks =>
      if decide (chunk = []) then (Ok None, with_decoder d (cb_decrypt b), chunks)
      else
        let '(data, c) := decrypt_opt (cb_decrypt b) chunk in
        cb_read_frame (with_decoder (queue_bytes d data) c) chunks
    end
  end.

(** [append]; [take]; encrypt; [write_all]: the end of [write_frame] and [send_packet]. *)
Definition cb_write (id : Z) (data : bytes) (b : ClientBridge) :
    result CoreError () * ClientBridge :=
  match append_raw id data (cb_encoder b) with
  | (Err e, enc) =>
    (Err (CProtocol e), mk_ClientBridge (cb_decoder b) enc (cb_encrypt b) (cb_decrypt b)
       (cb_version b) (cb_state b) (cb_written b))
  | (Ok _, enc) =>
    let '(data, enc) := enc_take enc in
    let '(data, c) := encrypt_opt (cb_encrypt b) data in
    (Ok (), mk_ClientBridge (cb_decoder b) enc c (cb_decrypt b) (cb_version b) (cb_state b)
       (cb_written b ++ data))
  end.

Definition cb_write_frame (frame : PacketFrame) (b : ClientBridge) :
    result CoreError () * ClientBridge :=
  cb_write (frame_id frame) (payload frame) b.

Context `{UuidText}.

Definition cb_send_packet (registry : PacketRegistry) (packet : ErasedPacket)
    (b : ClientBridge) : result CoreError () * ClientBridge :=
  let P := projT1 packet in
  match get_packet_id registry P (cb_state b) (pkt_direction (kind_type P)) (cb_version b) with
  | None =>
    (Err (Auth ("no packet ID for " +:+ NAME (kind_type P) +:+ " in " +:+
                state_debug (cb_state b) +:+ "/" +:+ version_debug (cb_version b))), b)
  | Some packet_id =>
    match encode_payload packet (cb_version b) with
    | Err e => (Err (CProtocol e), b)
    | Ok data => cb_write packet_id data b
    end
  end.

(** Several packets, and several frames. *)
Fixpoint cb_send_packets (registry : PacketRegistry) (ps : list ErasedPacket)
    (b : ClientBridge) : result CoreError () * ClientBridge :=
  match ps with
  | [] => (Ok (), b)
  | p :: ps =>
    match cb_send_packet registry p b with
    | (Ok _, b) => cb_send_packets registry ps b
    | (Err e, b) => (Err e, b)
    end
  end.

Fixpoint cb_read_frames (n : nat) (b : ClientBridge) (chunks : list bytes) :
    result CoreError (list PacketFrame) * ClientBridge * list bytes :=
  match n with
  | O => (Ok [], b, chunks)
  | S n =>
    match cb_read_frame b chunks with
    | (Ok (Some f), b, chunks) =>
      match cb_read_frames n b chunks with
      | (Ok fs, b, chunks) => (Ok (f :: fs), b, chunks)
      | (Err e, b, chunks) => (Err e, b, chunks)
      end
    | (Ok None, b, chunks) => (Err ConnectionClosed, b, chunks)
    | (Err e, b, chunks) => (Err e, b, chunks)
    end
  end.

(** ** Streams under a cipher *)

Lemma cipher_decrypt_app s a b :
  cipher_decrypt s (a ++ b) =
  let '(a, s) := cipher_decrypt s a in let '(b, s) := cipher_decrypt s b in (a ++ b, s).
Proof.
  revert s. induction a as [|x a IH]; intros s; simpl; [by destruct (cipher_decrypt s b)|].
  destruct (decrypt_block s x) as [y s']. rewrite IH.
  destruct (cipher_decrypt s' a) as [a' s'']. by destruct (cipher_decrypt s'' b).
Qed.

Lemma decrypt_opt_app c a b :
  decrypt_opt c (a ++ b) =
  let '(a, c) := decrypt_opt c a in let '(b, c) := decrypt_opt c b in (a ++ b, c).
Proof.
  destruct c as [s|]; simpl; [|done]. rewrite cipher_decrypt_app.
  destruct (cipher_decrypt s a) as [a' s']. simpl. by destruct (cipher_decrypt s' b).
Qed.

Lemma cipher_decrypt_encrypt `{!Cfb8Laws} s data :
  cipher_decrypt s (cipher_encrypt s data).1 = (data, (cipher_encrypt s data).2).
Proof.
  revert s. induction data as [|x data IH]; intros s; simpl; [done|].
  pose proof (decrypt_encrypt s x) as Hx. destruct (encrypt_block s x) as [y s'].
  specialize (IH s'). destruct (cipher_encrypt s' data) as [d s'']. simpl in *.
  by rewrite Hx, IH.
Qed.

Lemma decrypt_opt_encrypt `{!Cfb8Laws} c data :
  decrypt_opt c (encrypt_opt c data).1 = (data, (encrypt_opt c data).2).
Proof.
  destruct c as [s|]; simpl; [|done]. pose proof (cipher_decrypt_encrypt s data) as Hd.
  destruct (cipher_encrypt s data) as [d s']. simpl in *. by rewrite Hd.
Qed.

(** The plain bytes the bridge has yet to decode: its buffer, then the socket's. *)
Definition pending (b : ClientBridge) (chunks : list bytes) : bytes :=
  dec_buf (cb_decoder b) ++ (decrypt_opt (cb_decrypt b) (concat chunks)).1.

(** On a prefix of a framed packet the decoder gives the packet or asks for more. *)
Lemma try_next_prefix `{!ZlibLaws} d more id data fb rest :
  in_s 32 id → packet_size id data ≤ MAX_PACKET_DATA_SIZE →
  frame_packet (dec_threshold d) id data = Ok fb → dec_buf d ++ more = fb ++ rest →
  (∃ d', try_next_frame d = (Ok (Some (mk_frame id data)), d') ∧
     dec_buf d' ++ more = rest ∧ dec_threshold d' = dec_threshold d) ∨
  (try_next_frame d = (Ok None, d) ∧ more ≠ []).
Proof.
  intros Hid Hsz Hfb Hbuf.
  pose proof (frame_packet_decodes _ id data fb rest Hid Hsz Hfb) as Hfull.
  rewrite <- Hbuf in Hfull.
  change (mk_decoder (dec_buf d ++ more) (dec_threshold d)) with (queue_bytes d more) in Hfull.
  pose proof (try_next_frame_app d more) as Happ.
  destruct (try_next_frame d) as [[[f|]|e] d'] eqn:E.
  - left. exists d'. destruct Happ as [Happ _]. rewrite Hfull in Happ.
    destruct d' as [buf' th']. unfold queue_bytes in Happ. simplify_eq/=. done.
  - right. subst d'. split; [done|]. intros ->.
    assert (queue_bytes d [] = d) as Hq by (destruct d; unfold queue_bytes; simpl;
      by rewrite app_nil_r).
    rewrite Hq, E in Hfull. discriminate Hfull.
  - rewrite Hfull in Happ. discriminate Happ.
Qed.

(** One frame off the stream, whatever the chunks. *)
Lemma cb_read_frame_next `{!ZlibLaws} chunks b id data fb rest :
  in_s 32 id → packet_size id data ≤ MAX_PACKET_DATA_SIZE →
  frame_packet (dec_threshold (cb_decoder b)) id data = Ok fb →
  Forall (λ c, c ≠ []) chunks → pending b chunks = fb ++ rest →
  ∃ b' chunks', cb_read_frame b chunks = (Ok (Some (mk_frame id data)), b', chunks') ∧
    pending b' chunks' = rest ∧ Forall (λ c, c ≠ []) chunks' ∧
    dec_threshold (cb_decoder b') = dec_threshold (cb_decoder b).
Proof.
  intros Hid Hsz. revert b. induction chunks as [|c chunks IH]; intros b Hfb Hne Hp.
  - destruct (try_next_prefix _ _ _ _ _ _ Hid Hsz Hfb Hp) as [(d'&Hd&Hr&Ht)|[_ Hmore]].
    + simpl. rewrite Hd. by eexists _, _.
    + by destruct (cb_decrypt b).
  - destruct (try_next_prefix _ _ _ _ _ _ Hid Hsz Hfb Hp) as [(d'&Hd&Hr&Ht)|[Hd _]].
    + cbn [cb_read_frame]. rewrite Hd. by eexists _, _.
    + cbn [cb_read_frame]. rewrite Hd. apply Forall_cons in Hne as [Hc Hne].
      rewrite decide_False by done. unfold pending in Hp. rewrite concat_cons in Hp.
      rewrite decrypt_opt_app in Hp. destruct (decrypt_opt (cb_decrypt b) c) as [pc s'].
      destruct (decrypt_opt s' (concat chunks)) as [pcs s''] eqn:Es. simpl in Hp.
      edestruct (IH (mk_ClientBridge (queue_bytes (cb_decoder b) pc) (cb_encoder b)
        (cb_encrypt b) s' (cb_version b) (cb_state b) (cb_written b)))
        as (b'&chunks'&Hread&Hpend&Hne'&Ht'); [done|done| |].
      { unfold pending. cbn. rewrite Es. by rewrite <- app_assoc. }
      by exists b', chunks'.
Qed.

(** The plain bytes of a sequence of frames. *)
Inductive framed (th : option Z) : list PacketFrame → bytes → Prop :=
| framed_nil : framed th [] []
| framed_cons f fs fb bs :
    sendable f → frame_packet th (frame_id f) (payload f) = Ok fb →
    framed th fs bs → framed th (f :: fs) (fb ++ bs).

(** A sequence of frames off the stream. *)
Lemma cb_read_frames_next `{!ZlibLaws} fs b chunks plain :
  framed (dec_threshold (cb_decoder b)) fs plain →
  Forall (λ c, c ≠ []) chunks → pending b chunks = plain →
  ∃ b', cb_read_frames (length fs) b chunks = (Ok fs, b', []) ∧
    dec_buf (cb_decoder b') = [].
Proof.
  intros Hf. remember (dec_threshold (cb_decoder b)) as th eqn:Hth. revert b chunks Hth.
  induction Hf as [|[id data] fs fb plain [Hid Hsz] Hfb Hf IH]; intros b chunks -> Hne Hp.
  - apply app_nil in Hp as [Hb Hc]. exists b. split; [|done]. simpl. do 2 f_equal.
    destruct chunks as [|c chunks]; [done|]. apply Forall_cons in Hne as [Hc' _].
    exfalso. destruct c as [|x c]; [done|]. destruct (cb_decrypt b) as [s|]; simpl in Hc; [|done].
    destruct (decrypt_block s x) as [y s']. by destruct (cipher_decrypt s' _).
  - edestruct (cb_read_frame_next chunks b id data fb plain) as (b'&chunks'&Hr&Hp'&Hne'&Ht);
      [done..|].
    destruct (IH b' chunks') as (b''&Hrs&Hbuf); [done|done|done|].
    exists b''. cbn [cb_read_frames length]. rewrite Hr, Hrs. done.
Qed.

(** ** Sending *)

Lemma cipher_encrypt_app s a b :
  cipher_encrypt s (a ++ b) =
  let '(a, s) := cipher_encrypt s a in let '(b, s) := cipher_encrypt s b in (a ++ b, s).
Proof.
  revert s. induction a as [|x a IH]; intros s; simpl; [by destruct (cipher_encrypt s b)|].
  destruct (encrypt_block s x) as [y s']. rewrite IH.
  destruct (cipher_encrypt s' a) as [a' s'']. by destruct (cipher_encrypt s'' b).
Qed.

Lemma encrypt_opt_app c a b :
  (encrypt_opt c (a ++ b)).1 = (encrypt_opt c a).1 ++ (encrypt_opt (encrypt_opt c a).2 b).1.
Proof.
  destruct c as [s|]; simpl; [|done]. rewrite cipher_encrypt_app.
  destruct (cipher_encrypt s a) as [a' s']. simpl. by destruct (cipher_encrypt s' b).
Qed.

(** A packet the bridge can send: registered and intercepted in the version and the
    state, well formed, and below the limit on decompressed packets. *)
Definition packet_ready `{!UuidTextLaws} (v : ProtocolVersion) (s : ConnectionState)
    (p : ErasedPacket) : Prop :=
  intercepted (projT1 p) v = true ∧ pkt_state (kind_type (projT1 p)) = s ∧
  pkt_ok (projT2 p) v ∧
  from_option (λ bs, zlen bs + 5 ≤ MAX_PACKET_DATA_SIZE) True
    (match encode_payload p v with Ok bs => Some bs | Err _ => None end).

(** The frame decodes to the packet. *)
Definition delivers `{!UuidTextLaws} (v : ProtocolVersion) (s : ConnectionState)
    (p : ErasedPacket) (f : PacketFrame) : Prop :=
  decode_frame build_default_registry f s (pkt_direction (kind_type (projT1 p))) v =
  Ok (Typed (frame_id f) (existT (projT1 p) (pkt_norm (projT2 p) v))).

Lemma cb_send_packet_framed `{!UuidTextLaws} v s p b b' :
  v ∈ SUPPORTED → packet_ready v s p → cb_version b = v → cb_state b = s →
  enc_buf (cb_encoder b) = [] →
  cb_send_packet build_default_registry p b = (Ok (), b') →
  ∃ f fb, sendable f ∧ delivers v s p f ∧
    frame_packet (enc_threshold (cb_encoder b)) (frame_id f) (payload f) = Ok fb ∧
    b' = mk_ClientBridge (cb_decoder b) (mk_encoder [] (enc_threshold (cb_encoder b)))
      (encrypt_opt (cb_encrypt b) fb).2 (cb_decrypt b) v s
      (cb_written b ++ (encrypt_opt (cb_encrypt b) fb).1).
Proof.
  intros Hv (Hint&Hst&Hok&Hsz) Hver Hs Hbuf. destruct p as [k p]. simpl in *.
  destruct (default_packet k p v Hv Hint Hok) as (id&bs&Hid&Hget&Henc&Hdec).
  subst v. rewrite Hst, <- Hs in Hget, Hdec. rewrite <- Hs.
  unfold cb_send_packet, encode_payload in *. cbn [projT1 projT2] in *.
  rewrite Hget, Henc. rewrite Henc in Hsz. simpl in Hsz.
  unfold cb_write, append_raw. rewrite Hbuf.
  destruct (frame_packet (enc_threshold (cb_encoder b)) id bs) as [fb|e] eqn:Hfb; [|done].
  cbn. destruct (encrypt_opt (cb_encrypt b) fb) as [out c] eqn:Hc. intros [= <-].
  exists (mk_frame id bs), fb. rewrite Hc. split.
  - split; [done|]. simpl. unfold packet_size. pose proof (VarInt_written_size_range id Hid). lia.
  - split; [exact Hdec|]. split; [exact Hfb|reflexivity].
Qed.

Lemma cb_send_packets_framed `{!UuidTextLaws} v s ps b b' :
  v ∈ SUPPORTED → Forall (packet_ready v s) ps → cb_version b = v → cb_state b = s →
  enc_buf (cb_encoder b) = [] →
  cb_send_packets build_default_registry ps b = (Ok (), b') →
  ∃ fs plain, framed (enc_threshold (cb_encoder b)) fs plain ∧ Forall2 (delivers v s) ps fs ∧
    cb_written b' = cb_written b ++ (encrypt_opt (cb_encrypt b) plain).1.
Proof.
  intros Hv Hps. revert b. induction Hps as [|p ps Hp Hps IH]; intros b Hver Hs Hbuf; simpl.
  { intros [= <-]. exists [], []. split; [constructor|]. split; [constructor|].
    destruct (cb_encrypt b); simpl; by rewrite app_nil_r. }
  destruct (cb_send_packet build_default_registry p b) as [[[]|e] b1] eqn:E; [|done].
  destruct (cb_send_packet_framed v s p b b1 Hv Hp Hver Hs Hbuf E) as (f&fb&Hf&Hd&Hfb&->).
  intros (fs&plain&Hfr&Hds&Hw)%IH; [|done..]. simpl in *.
  exists (f :: fs), (fb ++ plain). split; [by constructor|]. split; [by constructor|].
  by rewrite Hw, encrypt_opt_app, app_assoc.
Qed.
End cipher.

(** ** Theorems *)

(** C1: packets survive the whole transport.  One bridge sends packets, through the
    registry, the codec, the framing, the compression and the cipher; the network
    cuts the bytes as it likes; the bridge at the other end, with the same
    threshold and cipher state, reads exactly as many frames, consumes every byte,
    and the registry decodes the frames to the packets, in order, up to the fields
    the version does not carry. *)
Theorem session_transport `{Cfb8Laws, ZlibLaws, UuidTextLaws} (v : ProtocolVersion)
    (s : ConnectionState) (ps : list ErasedPacket) (sender sender' receiver : ClientBridge)
    (chunks : list bytes) :
  v ∈ SUPPORTED → Forall (packet_ready v s) ps →
  cb_version sender = v → cb_state sender = s → enc_buf (cb_encoder sender) = [] →
  dec_buf (cb_decoder receiver) = [] →
  dec_threshold (cb_decoder receiver) = enc_threshold (cb_encoder sender) →
  cb_decrypt receiver = cb_encrypt sender →
  cb_send_packets build_default_registry ps sender = (Ok (), sender') →
  cb_written sender' = cb_written sender ++ concat chunks →
  Forall (λ c, c ≠ []) chunks →
  ∃ fs receiver', cb_read_frames (length ps) receiver chunks = (Ok fs, receiver', []) ∧
    dec_buf (cb_decoder receiver') = [] ∧ Forall2 (delivers v s) ps fs.
Proof.
  intros Hv Hps Hver Hs Hbuf Hdbuf Hth Hc Hsend Hw Hne.
  destruct (cb_send_packets_framed v s ps sender sender' Hv Hps Hver Hs Hbuf Hsend)
    as (fs&plain&Hfr&Hds&Hw'). rewrite Hw' in Hw. apply app_inv_head in Hw.
  rewrite <- Hth in Hfr.
  destruct (cb_read_frames_next fs receiver chunks plain Hfr Hne) as (r'&Hr&Hb).
  - unfold pending. rewrite Hdbuf, <- Hw, Hc, decrypt_opt_encrypt. done.
  - rewrite (Forall2_length _ _ _ Hds). by exists fs, r'.
Qed.

(** CFB8 over a toy block function, for the witness: the key stream is the last byte
    sent. *)
Definition toy_cfb8 : Cfb8 := {|
  cfb_state := Z;
  cfb_new := λ key iv, default 0 (last iv);
  encrypt_block := λ s b, (Z.lxor b s, Z.lxor b s);
  decrypt_block := λ s c, (Z.lxor c s, c);
|}.
Lemma toy_cfb8_laws : @Cfb8Laws toy_cfb8.
Proof.
  split. intros s b. simpl. f_equal. rewrite Z.lxor_assoc, Z.lxor_nilpotent. apply Z.lxor_0_r.
Qed.

Lemma session_transport_witness :
  let b := @cb_enable_encryption toy_cfb8 [1; 2; 3]
             (@cb_set_state toy_cfb8 Play
               (@cb_set_compression toy_cfb8 8 (@ClientBridge_new toy_cfb8 [] V1_21))) in
  let ps := [existT KSKeepAlive (mk_SKeepAlive 77);
             existT KSTabCompleteRequest (mk_STabCompleteRequest 1 (str "/server lobby"))] in
  ∃ out, @cb_written toy_cfb8
           (@cb_send_packets toy_cfb8 stored_zlib hex_uuid build_default_registry ps b).2 = out ∧
  ∃ fs b', @cb_read_frames toy_cfb8 stored_zlib 2 b [take 3 out; drop 3 out] = (Ok fs, b', []) ∧
    dec_buf (cb_decoder b') = [] ∧
    Forall2 (@delivers hex_uuid hex_uuid_laws V1_21 Play) ps fs.
Proof.
  intros b ps. eexists. split; [by vm_compute|].
  eapply (@session_transport toy_cfb8 toy_cfb8_laws stored_zlib stored_zlib_laws hex_uuid
    hex_uuid_laws V1_21 Play ps b (@cb_send_packets toy_cfb8 stored_zlib hex_uuid
      build_default_registry ps b).2 b).
  - apply (bool_decide_unpack _). by vm_compute.
  - constructor; [|constructor; [|constructor]].
    + split; [by vm_compute|]. split; [done|]. split; [by vm_compute|]. by vm_compute.
    + split; [by vm_compute|]. split; [done|]. split.
      * split; [by vm_compute|]. apply (bool_decide_unpack _). by vm_compute.
      * by vm_compute.
  - done.
  - done.
  - done.
  - done.
  - done.
  - done.
  - by vm_compute.
  - by vm_compute.
  - apply (bool_decide_unpack _). by vm_compute.
Defined.
