(* ===== verification/Config.v ===== *)
(** * Config: server configurations and their validation

    The data of [infrarust_config]: [ServerConfig] with the types it holds, the
    defaults of [defaults.rs], the identifier a server is known by
    ([effective_id]), the IP filter, and [validation.rs].  A [Duration] is its
    number of nanoseconds and a path is its text.  A CIDR block is a value of the
    [ipnet] crate: [IpNet] is a parameter with its [contains]. *)
From S2P Require Import Prelude Utf8 Version Packet.

Abbreviation Duration := Z (only parsing).
Definition from_secs (s : Z) : Duration := s * 1000000000.

Definition DEFAULT_MC_PORT : Z := 25565.

(** ** Enumerations *)

Inductive ProxyMode :=
| Passthrough | ZeroCopy | ClientOnly | Offline | ServerOnly | Full.
#[export] Instance ProxyMode_eq_dec : EqDecision ProxyMode.
Proof. solve_decision. Defined.

Definition is_intercepted (m : ProxyMode) : bool :=
  match m with ClientOnly | Offline | Full => true | _ => false end.
Definition is_forwarding (m : ProxyMode) : bool :=
  match m with Passthrough | ZeroCopy | ServerOnly => true | _ => false end.

(** The derived [Debug] of [ProxyMode]. *)
Definition proxy_mode_debug (m : ProxyMode) : rstring :=
  match m with
  | Passthrough => str "Passthrough" | ZeroCopy => str "ZeroCopy"
  | ClientOnly => str "ClientOnly" | Offline => str "Offline"
  | ServerOnly => str "ServerOnly" | Full => str "Full"
  end.

Inductive ForwardingMode := FwdNone | FwdBungeeCord | FwdBungeeGuard | FwdVelocity.
#[export] Instance ForwardingMode_eq_dec : EqDecision ForwardingMode.
Proof. solve_decision. Defined.

Inductive DomainRewrite :=
| RewriteNone
| RewriteExplicit (domain : rstring)
| RewriteFromBackend.
#[export] Instance DomainRewrite_eq_dec : EqDecision DomainRewrite.
Proof. solve_decision. Defined.

(** ** Records *)

Record ServerAddress := { addr_host : rstring; addr_port : Z }.
#[export] Instance ServerAddress_eq_dec : EqDecision ServerAddress.
Proof. solve_decision. Defined.

Record MotdEntry := {
  me_text : rstring;
  me_favicon : option rstring;
  me_version_name : option rstring;
  me_max_players : option Z }.

#[export] Instance MotdEntry_eq_dec : EqDecision MotdEntry.
Proof. solve_decision. Defined.

Record MotdConfig := {
  motd_online : option MotdEntry;
  motd_offline : option MotdEntry;
  motd_sleeping : option MotdEntry;
  motd_starting : option MotdEntry;
  motd_crashed : option MotdEntry;
  motd_stopping : option MotdEntry;
  motd_unreachable : option MotdEntry }.

#[export] Instance MotdConfig_eq_dec : EqDecision MotdConfig.
Proof. solve_decision. Defined.

Definition MotdConfig_default : MotdConfig := Build_MotdConfig None None None None None None None.

Record TimeoutConfig := { to_connect : Duration; to_read : Duration; to_write : Duration }.

#[export] Instance TimeoutConfig_eq_dec : EqDecision TimeoutConfig.
Proof. solve_decision. Defined.

Definition connect_timeout : Duration := from_secs 5.
Definition read_timeout : Duration := from_secs 30.
Definition write_timeout : Duration := from_secs 30.
Definition shutdown_timeout : Duration := from_secs 30.
Definition start_timeout : Duration := from_secs 60.
Definition poll_interval : Duration := from_secs 5.
Definition ready_pattern : rstring := str "For help, type " ++ [34] ++ str "help" ++ [34].

Record LocalManagerConfig := {
  lm_command : rstring;
  lm_working_dir : rstring;
  lm_args : list rstring;
  lm_ready_pattern : rstring;
  lm_shutdown_timeout : Duration;
  lm_shutdown_after : option Duration;
  lm_start_timeout : Duration }.

#[export] Instance LocalManagerConfig_eq_dec : EqDecision LocalManagerConfig.
Proof. solve_decision. Defined.

Record PterodactylManagerConfig := {
  pt_api_url : rstring;
  pt_api_key : rstring;
  pt_server_id : rstring;
  pt_shutdown_after : option Duration;
  pt_start_timeout : Duration;
  pt_poll_interval : Duration }.

#[export] Instance PterodactylManagerConfig_eq_dec : EqDecision PterodactylManagerConfig.
Proof. solve_decision. Defined.

Record CraftyManagerConfig := {
  cr_api_url : rstring;
  cr_api_key : rstring;
  cr_server_id : rstring;
  cr_shutdown_after : option Duration;
  cr_start_timeout : Duration;
  cr_poll_interval : Duration }.

#[export] Instance CraftyManagerConfig_eq_dec : EqDecision CraftyManagerConfig.
Proof. solve_decision. Defined.

Inductive ServerManagerConfig :=
| SMLocal (c : LocalManagerConfig)
| SMPterodactyl (c : PterodactylManagerConfig)
| SMCrafty (c : CraftyManagerConfig).

#[export] Instance ServerManagerConfig_eq_dec : EqDecision ServerManagerConfig.
Proof. solve_decision. Defined.

(** ** IP filters *)

(** The [ipnet] crate: CIDR blocks over [IpAddr] and their [contains]. *)
Class IpNets := {
  IpAddr : Type;
  IpNet : Type;
  IpAddr_eq_dec :: EqDecision IpAddr;
  IpNet_eq_dec :: EqDecision IpNet;
  net_contains : IpNet → IpAddr → bool;
  ip_display : IpAddr → rstring }.

Section ip_filter.
Context `{IPN : IpNets}.

Record IpFilterConfig := { whitelist : list IpNet; blacklist : list IpNet }.

#[export] Instance IpFilterConfig_eq_dec : EqDecision IpFilterConfig.
Proof. solve_decision. Defined.

Definition is_allowed (f : IpFilterConfig) (ip : IpAddr) : bool :=
  if existsb (λ net, net_contains net ip) (blacklist f) then false
  else if decide (whitelist f = []) then true
  else existsb (λ net, net_contains net ip) (whitelist f).

Definition in_nets (nets : list IpNet) (ip : IpAddr) : Prop :=
  ∃ net, net ∈ nets ∧ net_contains net ip = true.

Lemma existsb_in_nets nets ip : existsb (λ net, net_contains net ip) nets = true ↔ in_nets nets ip.
Proof.
  rewrite existsb_exists. unfold in_nets. by setoid_rewrite list_elem_of_In.
Qed.

(** The documented rule: the blacklist always applies, and a whitelist that is
    not empty must hold the address. *)
Lemma is_allowed_spec f ip :
  is_allowed f ip = true ↔
    ¬ in_nets (blacklist f) ip ∧ (whitelist f = [] ∨ in_nets (whitelist f) ip).
Proof.
  unfold is_allowed. rewrite <- !existsb_in_nets.
  destruct (existsb _ (blacklist f)); [naive_solver|].
  destruct (decide (whitelist f = [])) as [->|]; naive_solver.
Qed.

(** ** Server configurations *)

Record ServerConfig := {
  sc_id : option rstring;
  sc_name : option rstring;
  sc_network : option rstring;
  sc_domains : list rstring;
  sc_addresses : list ServerAddress;
  sc_proxy_mode : ProxyMode;
  sc_forwarding_mode : option ForwardingMode;
  sc_send_proxy_protocol : bool;
  sc_domain_rewrite : DomainRewrite;
  sc_motd : MotdConfig;
  sc_server_manager : option ServerManagerConfig;
  sc_timeouts : option TimeoutConfig;
  sc_max_players : Z;
  sc_ip_filter : option IpFilterConfig;
  sc_disconnect_message : option rstring;
  sc_limbo_handlers : list rstring }.

#[export] Instance ServerConfig_eq_dec : EqDecision ServerConfig.
Proof. solve_decision. Defined.

Definition effective_id (c : ServerConfig) : rstring :=
  match sc_name c with
  | Some name => name
  | None => match sc_id c with Some id => id | None => str "unknown" end
  end.

Definition effective_disconnect_message (c : ServerConfig) : rstring :=
  default (str "Server is currently unreachable. Please try again later.")
    (sc_disconnect_message c).

(** ** Validation *)

(** The errors of [error.rs]; the error of the file system or of the TOML parser that
    the first two wrap is left out. *)
Inductive ConfigError :=
| ReadFile (path : rstring)
| ParseToml (path : rstring)
| InvalidAddress (s : rstring)
| NoDomains (id : rstring) (proxy_mode : ProxyMode)
| NoAddresses (id : rstring)
| DuplicateId (id : rstring)
| DirectoryNotFound (path : rstring)
| Validation (msg : rstring).

(** [char::is_whitespace]: the Unicode [White_Space] property. *)
Definition is_whitespace (c : Z) : bool :=
  bool_decide (9 ≤ c ≤ 13 ∨ c = 32 ∨ c = 0x85 ∨ c = 0xA0 ∨ c = 0x1680 ∨
    0x2000 ≤ c ≤ 0x200A ∨ c = 0x2028 ∨ c = 0x2029 ∨ c = 0x202F ∨ c = 0x205F ∨ c = 0x3000).

(** [str::trim]. *)
Fixpoint trim_start (s : rstring) : rstring :=
  match s with
  | [] => []
  | c :: s' => if is_whitespace c then trim_start s' else s
  end.
Definition trim (s : rstring) : rstring := reverse (trim_start (reverse (trim_start s))).

Definition identifier_byte (b : Z) : bool :=
  bool_decide (97 ≤ b ≤ 122 ∨ 48 ≤ b ≤ 57 ∨ b = 95 ∨ b = 45).

Definition validate_identifier (value field server_id : rstring) : result ConfigError unit :=
  let prefix := str "server '" ++ server_id ++ str "': " ++ field in
  if decide (as_bytes value = []) then
    Err (Validation (prefix ++ str " must not be empty"))
  else if decide (zlen (as_bytes value) > 64) then
    Err (Validation (prefix ++ str " must be at most 64 characters"))
  else if negb (forallb identifier_byte (as_bytes value)) then
    Err (Validation (prefix ++ str " '" ++ value ++
      str "' contains invalid characters (allowed: a-z, 0-9, _, -)"))
  else Ok tt.

Fixpoint check_domains (id : rstring) (domains : list rstring) : result ConfigError unit :=
  match domains with
  | [] => Ok tt
  | d :: ds =>
    if decide (trim d = []) then
      Err (Validation (str "server config " ++ id ++ str " has an empty domain"))
    else check_domains id ds
  end.

Definition validate_optional (value : option rstring) (field id : rstring) : result ConfigError unit :=
  match value with Some v => validate_identifier v field id | None => Ok tt end.

Definition validate_forwarding (c : ServerConfig) : result ConfigError unit :=
  let id := effective_id c in
  if is_forwarding (sc_proxy_mode c) then
    if decide (sc_domains c = []) then Err (NoDomains id (sc_proxy_mode c))
    else if decide (sc_network c = None) then Ok tt
    else Err (Validation (str "server '" ++ id ++ str "' uses " ++
      proxy_mode_debug (sc_proxy_mode c) ++
      str " mode which cannot belong to a network (forwarding modes don't support server switching)"))
  else Ok tt.

Definition validate_server_config (c : ServerConfig) : result ConfigError unit :=
  let id := effective_id c in
  _ ← validate_forwarding c;
  _ ← (if decide (sc_addresses c = []) then Err (NoAddresses id) else Ok tt);
  _ ← check_domains id (sc_domains c);
  _ ← validate_optional (sc_name c) (str "name") id;
  validate_optional (sc_network c) (str "network") id.

Fixpoint validate_unique (seen : list rstring) (configs : list ServerConfig) : result ConfigError unit :=
  match configs with
  | [] => Ok tt
  | c :: cs =>
    let id := effective_id c in
    if decide (id ∈ seen) then Err (DuplicateId id) else validate_unique (id :: seen) cs
  end.

Definition validate_server_configs (configs : list ServerConfig) : result ConfigError unit :=
  validate_unique [] configs.

(** ** What validation accepts *)

(** An identifier: 1 to 64 characters of [a-z0-9_-]. *)
Definition is_identifier (s : rstring) : Prop :=
  s ≠ [] ∧ zlen s ≤ 64 ∧ Forall (λ c, identifier_byte c = true) s.

Record valid_config (c : ServerConfig) : Prop := {
  vc_addresses : sc_addresses c ≠ [];
  vc_forwarding : is_forwarding (sc_proxy_mode c) = true →
    sc_domains c ≠ [] ∧ sc_network c = None;
  vc_domains : Forall (λ d, ¬ Forall (λ ch, is_whitespace ch = true) d) (sc_domains c);
  vc_name : ∀ n, sc_name c = Some n → is_identifier n;
  vc_network : ∀ n, sc_network c = Some n → is_identifier n }.

Lemma trim_start_nil s : trim_start s = [] ↔ Forall (λ ch, is_whitespace ch = true) s.
Proof.
  induction s as [|c s IH]; simpl; [done|]. rewrite Forall_cons.
  destruct (is_whitespace c); naive_solver.
Qed.

Lemma trim_start_suffix s : ∃ p, s = p ++ trim_start s.
Proof.
  induction s as [|c s [p IH]]; simpl; [by exists []|].
  destruct (is_whitespace c); [exists (c :: p); simpl; congruence|by exists []].
Qed.

Lemma trim_start_head s c s' : trim_start s = c :: s' → is_whitespace c = false.
Proof.
  induction s as [|d s IH]; simpl; [done|].
  destruct (is_whitespace d) eqn:E; [done|]. by intros [= <- <-].
Qed.

(** Trimming leaves nothing exactly when the text is all white space. *)
Lemma trim_nil s : trim s = [] ↔ Forall (λ ch, is_whitespace ch = true) s.
Proof.
  unfold trim. rewrite <- (trim_start_nil s). split.
  - intros Hr. apply (f_equal reverse) in Hr. rewrite reverse_involutive in Hr.
    apply trim_start_nil in Hr. apply Forall_reverse in Hr.
    rewrite ?reverse_involutive in Hr.
    destruct (trim_start s) as [|c s'] eqn:E; [done|].
    apply trim_start_head in E. apply Forall_cons in Hr as [Hc _]. congruence.
  - by intros ->.
Qed.

(** A string whose bytes are all ASCII is its own encoding. *)
Lemma as_bytes_ascii s : Forall (λ c, 0 ≤ c < 128) s → as_bytes s = s.
Proof.
  induction 1 as [|c s Hc _ IH]; [done|]. rewrite as_bytes_cons, IH.
  unfold encode_utf8. by rewrite decide_True by lia.
Qed.

Lemma identifier_byte_range b : identifier_byte b = true → 0 ≤ b < 128.
Proof. unfold identifier_byte. rewrite bool_decide_eq_true. lia. Qed.

Lemma encode_utf8_identifier c :
  Forall (λ b, identifier_byte b = true) (encode_utf8 c) ↔ identifier_byte c = true.
Proof.
  unfold encode_utf8. destruct (decide (c < 0x80)); [by rewrite Forall_singleton|].
  split; [|intros ?%identifier_byte_range; lia].
  repeat case_decide; rewrite Forall_cons; intros [?%identifier_byte_range _].
  all: Z.to_euclidean_division_equations; lia.
Qed.

Lemma as_bytes_identifier s :
  Forall (λ b, identifier_byte b = true) (as_bytes s) ↔ Forall (λ b, identifier_byte b = true) s.
Proof.
  induction s as [|c s IH]; [done|].
  by rewrite as_bytes_cons, Forall_app, Forall_cons, IH, encode_utf8_identifier.
Qed.

Lemma identifier_ascii s :
  Forall (λ b, identifier_byte b = true) s → as_bytes s = s.
Proof.
  intros H. apply as_bytes_ascii. eapply Forall_impl; [exact H|]. apply identifier_byte_range.
Qed.

Lemma validate_identifier_Ok value field id :
  validate_identifier value field id = Ok tt ↔ is_identifier value.
Proof.
  unfold validate_identifier, is_identifier.
  assert (Hb : forallb identifier_byte (as_bytes value) = true ↔
    Forall (λ c, identifier_byte c = true) value).
  { rewrite <- as_bytes_identifier, forallb_forall, Forall_forall.
    by setoid_rewrite list_elem_of_In. }
  destruct (forallb identifier_byte (as_bytes value)) eqn:E; simpl.
  - apply proj1 in Hb. specialize (Hb eq_refl). rewrite identifier_ascii by done.
    destruct (decide (value = [])); [naive_solver|].
    destruct (decide (zlen value > 64)); [|naive_solver lia].
    split; [done|]. intros (_&?&_). lia.
  - split; [by repeat case_decide|]. intros (_&_&Hall). by apply Hb in Hall.
Qed.

Lemma validate_optional_Ok value field id :
  validate_optional value field id = Ok tt ↔ ∀ v, value = Some v → is_identifier v.
Proof.
  destruct value as [v|]; simpl; [|naive_solver]. rewrite validate_identifier_Ok. naive_solver.
Qed.

Lemma check_domains_Ok id ds :
  check_domains id ds = Ok tt ↔
    Forall (λ d, ¬ Forall (λ ch, is_whitespace ch = true) d) ds.
Proof.
  induction ds as [|d ds IH]; simpl; [done|]. rewrite Forall_cons, <- IH, <- trim_nil.
  destruct (decide (trim d = [])); naive_solver.
Qed.

Lemma validate_forwarding_Ok c :
  validate_forwarding c = Ok tt ↔
    (is_forwarding (sc_proxy_mode c) = true → sc_domains c ≠ [] ∧ sc_network c = None).
Proof.
  unfold validate_forwarding. destruct (is_forwarding _); [|naive_solver].
  destruct (decide (sc_domains c = [])); [naive_solver|].
  destruct (decide (sc_network c = None)); naive_solver.
Qed.

Lemma unit_bind_Ok (m : result ConfigError unit) (k : unit → result ConfigError unit) :
  m ≫= k = Ok tt ↔ m = Ok tt ∧ k tt = Ok tt.
Proof. rewrite result_bind_Ok. split; [intros ([]&?&?)|intros [? ?]]; eauto. Qed.

Lemma validate_unique_Ok seen cs :
  validate_unique seen cs = Ok tt ↔
    NoDup (effective_id <$> cs) ∧ (∀ c, c ∈ cs → effective_id c ∉ seen).
Proof.
  revert seen. induction cs as [|c cs IH]; intros seen; simpl.
  { split; [|done]. intros _. split; [constructor|]. intros c Hc. by apply not_elem_of_nil in Hc. }
  rewrite NoDup_cons. destruct (decide (effective_id c ∈ seen)) as [Hin|Hin].
  - split; [done|]. intros [_ H']. destruct (H' c); [left|done].
  - rewrite IH, list_elem_of_fmap. setoid_rewrite elem_of_cons. naive_solver.
Qed.

Lemma validate_server_config_Ok c : validate_server_config c = Ok tt ↔ valid_config c.
Proof.
  unfold validate_server_config. rewrite !unit_bind_Ok, validate_forwarding_Ok, check_domains_Ok, !validate_optional_Ok.
  destruct (decide (sc_addresses c = [])); split.
  1,3: intros (?&?&?&?&?); by constructor.
  all: by intros [].
Qed.

(** Validation accepts exactly the configurations that have an address, identifiers of
    1 to 64 characters of the allowed set, no blank domain, and, in a forwarding mode, a
    domain and no network; and exactly the batches whose identifiers are distinct. *)
Theorem validation_exact (c : ServerConfig) (cs : list ServerConfig) :
  (validate_server_config c = Ok tt ↔ valid_config c) ∧
  (validate_server_configs cs = Ok tt ↔ NoDup (effective_id <$> cs)).
Proof.
  split; [apply validate_server_config_Ok|].
  unfold validate_server_configs. rewrite validate_unique_Ok. split; [by intros []|].
  intros. split; [done|]. intros ? _. apply not_elem_of_nil.
Qed.
End ip_filter.
