(* ===== verification/Router.v ===== *)
(** * Router: from the address a client names to a server configuration

    [routing/domain_router.rs], the [ProviderId]s of [provider/provider_id.rs],
    the events of [provider/traits.rs] with the event loop of
    [provider/registry.rs], and the directory diff of [provider/file.rs].

    The two concurrent maps of the router and the [HashMap]s of the file provider
    are values of an abstract map type, [DashMap]: its laws say what a lookup
    returns and that an iteration visits every entry once, in an order that may
    depend on the whole history of the map.  [WildMatch::matches] and the
    locale-free [str::to_lowercase] are parameters too.

    The contract is [RouterSpec]: which configurations are registered and which
    provider owns each exact domain, the last one registered for it.  The router
    implements it ([router_refines]) for the sequences of events a provider may
    emit ([allowed]). *)
From S2P Require Import Prelude Utf8 Version Packet Config.

(** ** Maps with an unspecified iteration order *)

Class DashMap (K V M : Type) := {
  dm_new : M;
  dm_get : M → K → option V;
  dm_insert : K → V → M → M;
  dm_remove : K → M → M;
  dm_iter : M → list (K * V) }.

Class DashMapLaws (K V M : Type) `{!EqDecision K, !DashMap K V M} := {
  dm_get_new k : dm_get dm_new k = None;
  dm_get_insert k v m k' :
    dm_get (dm_insert k v m) k' = if decide (k = k') then Some v else dm_get m k';
  dm_get_remove k m k' :
    dm_get (dm_remove k m) k' = if decide (k = k') then None else dm_get m k';
  dm_iter_get m k v : (k, v) ∈ dm_iter m ↔ dm_get m k = Some v;
  dm_iter_NoDup m : NoDup (dm_iter m).*1 }.

(** [DashMap::remove_if]. *)
Definition dm_remove_if {K V M} `{DashMap K V M} (k : K) (p : V → bool) (m : M) : M :=
  match dm_get m k with
  | Some v => if p v then dm_remove k m else m
  | None => m
  end.

Lemma dm_get_remove_if {K V M} `{DashMapLaws K V M} (k : K) (p : V → bool) (m : M) k' :
  dm_get (dm_remove_if k p m) k' =
    match dm_get m k' with
    | Some v => if decide (k = k') then if p v then None else Some v else Some v
    | None => None
    end.
Proof.
  unfold dm_remove_if. destruct (decide (k = k')) as [<-|Hne].
  - destruct (dm_get m k) as [v|] eqn:E; [|done].
    destruct (p v); [|done]. rewrite dm_get_remove. by rewrite decide_True.
  - destruct (dm_get m k) as [v|] eqn:E; [|by destruct (dm_get m k')].
    destruct (p v); [|by destruct (dm_get m k')].
    rewrite dm_get_remove, decide_False by done. by destruct (dm_get m k').
Qed.

(** An association list, with the last entry written first, is such a map. *)
Section assoc.
Context {K V : Type} `{!EqDecision K}.

Definition assoc_get (m : list (K * V)) (k : K) : option V :=
  snd <$> List.find (λ kv, bool_decide (kv.1 = k)) m.
Definition assoc_remove (k : K) (m : list (K * V)) : list (K * V) :=
  filter (λ kv, kv.1 ≠ k) m.

(** Its entries have distinct keys, which the type keeps. *)
Definition assoc_map : Type := { m : list (K * V) | NoDup m.*1 }.

Lemma assoc_remove_NoDup k m : NoDup m.*1 → NoDup (assoc_remove k m).*1.
Proof.
  unfold assoc_remove. induction m as [|[k' v] m IH]; intros Hm; [done|].
  simpl in Hm. apply NoDup_cons in Hm as [Hk Hm]. rewrite filter_cons. case_decide; [|by apply IH].
  simpl. apply NoDup_cons. split; [|by apply IH]. rewrite list_elem_of_fmap.
  intros (x&?&[_ Hx]%list_elem_of_filter). apply Hk, list_elem_of_fmap. eauto.
Qed.

Lemma assoc_insert_NoDup k (v : V) m :
  NoDup m.*1 → NoDup ((k, v) :: assoc_remove k m).*1.
Proof.
  intros Hm. simpl. apply NoDup_cons. split; [|by apply assoc_remove_NoDup].
  rewrite list_elem_of_fmap. intros (x&->&[Hx _]%list_elem_of_filter). done.
Qed.

#[export] Instance assoc_dashmap : DashMap K V assoc_map := {
  dm_new := [] ↾ NoDup_nil_2;
  dm_get m := assoc_get (`m);
  dm_insert k v m := ((k, v) :: assoc_remove k (`m)) ↾ assoc_insert_NoDup k v (`m) (proj2_sig m);
  dm_remove k m := assoc_remove k (`m) ↾ assoc_remove_NoDup k (`m) (proj2_sig m);
  dm_iter m := `m }.

Lemma assoc_get_elem m k v : NoDup m.*1 → (k, v) ∈ m ↔ assoc_get m k = Some v.
Proof.
  unfold assoc_get. induction m as [|[k' v'] m IH]; intros Hm; simpl.
  { split; [|done]. by intros ?%not_elem_of_nil. }
  simpl in Hm. apply NoDup_cons in Hm as [Hk Hm]. rewrite elem_of_cons.
  case_bool_decide as Hkk; simpl.
  - subst k'. split; [|intros [= <-]; by left]. intros [[= ->]|Hin]; [done|].
    destruct Hk. apply list_elem_of_fmap. by exists (k, v).
  - rewrite <- IH by done. split; [|by right]. intros [[= -> ->]|]; done.
Qed.

Lemma assoc_get_remove k m k' :
  NoDup m.*1 →
  assoc_get (assoc_remove k m) k' = if decide (k = k') then None else assoc_get m k'.
Proof.
  intros Hm. apply option_eq. intros v.
  rewrite <- assoc_get_elem by by apply assoc_remove_NoDup.
  unfold assoc_remove. rewrite list_elem_of_filter. simpl.
  destruct (decide (k = k')) as [<-|]; [naive_solver|]. rewrite assoc_get_elem by done. naive_solver.
Qed.

#[export] Instance assoc_dashmap_laws : DashMapLaws K V assoc_map.
Proof.
  split.
  - done.
  - intros k v [m Hm] k'. cbn [dm_get dm_insert assoc_dashmap proj1_sig].
    unfold assoc_get at 1. cbn [List.find fst].
    destruct (decide (k = k')) as [Heq|Hne]; [by rewrite bool_decide_eq_true_2|].
    rewrite bool_decide_eq_false_2 by done.
    fold (assoc_get (assoc_remove k m) k'). rewrite assoc_get_remove by done.
    by rewrite decide_False.
  - intros k [m Hm] k'. by apply assoc_get_remove.
  - intros [m Hm] k v. by apply assoc_get_elem.
  - by intros [m Hm].
Qed.
End assoc.
Arguments assoc_map K V : clear implicits.

(** ** Names *)

Record ProviderId := { provider_type : rstring; unique_id : rstring }.
#[export] Instance ProviderId_eq_dec : EqDecision ProviderId.
Proof. solve_decision. Defined.
#[export] Instance ProviderId_countable : Countable ProviderId.
Proof.
  refine (inj_countable' (λ p, (provider_type p, unique_id p)) (λ p, Build_ProviderId p.1 p.2) _).
  by intros [].
Defined.

Definition ProviderId_file (filename : rstring) : ProviderId := Build_ProviderId (str "file") filename.
Definition ProviderId_docker (name : rstring) : ProviderId := Build_ProviderId (str "docker") name.

Definition ProviderId_display (p : ProviderId) : rstring :=
  provider_type p ++ str "@" ++ unique_id p.

(** [str::split_once] at the first occurrence of a character. *)
Fixpoint split_once (c : Z) (s : rstring) : option (rstring * rstring) :=
  match s with
  | [] => None
  | x :: s' =>
    if decide (x = c) then Some ([], s')
    else (λ p, (x :: p.1, p.2)) <$> split_once c s'
  end.

Definition ProviderId_from_str (s : rstring) : option ProviderId :=
  (λ p, Build_ProviderId p.1 p.2) <$> split_once 64 s.

(** The text up to the first NUL, without trailing dots. *)
Fixpoint until_nul (s : rstring) : rstring :=
  match s with
  | [] => []
  | c :: s' => if decide (c = 0) then [] else c :: until_nul s'
  end.
Fixpoint drop_dots (s : rstring) : rstring :=
  match s with
  | [] => []
  | c :: s' => if decide (c = 46) then drop_dots s' else s
  end.
Definition trim_end_dots (s : rstring) : rstring := reverse (drop_dots (reverse s)).
Definition normalize_handshake (domain : rstring) : rstring := trim_end_dots (until_nul domain).

Definition is_wildcard (domain : rstring) : bool :=
  existsb (λ c, bool_decide (c = 42)) domain || existsb (λ c, bool_decide (c = 63)) domain.

(** [str::to_lowercase]; on ASCII it is the table everyone knows. *)
Class Lowercase := to_lowercase : rstring → rstring.
Definition ascii_lower (c : Z) : Z := if decide (65 ≤ c ≤ 90) then c + 32 else c.
Class LowercaseLaws `{Lowercase} :=
  to_lowercase_ascii s : Forall (λ c, 0 ≤ c < 128) s → to_lowercase s = ascii_lower <$> s.

(** The [wildmatch] crate: does the pattern match the text? *)
Class WildMatch := wild_matches : rstring → rstring → bool.

(** ** The router *)

Section router.
Context `{IPN : IpNets} `{LC : Lowercase} `{WM : WildMatch}.

Record RouterEntry := { re_config : ServerConfig; re_domains : list rstring }.

Record WildcardEntry := { we_raw : rstring; we_matcher : rstring; we_provider_id : ProviderId }.

Context {CM EM : Type} `{!DashMap ProviderId RouterEntry CM} `{!DashMap rstring ProviderId EM}.

Record DomainRouter := {
  configs : CM;
  exact_domains : EM;
  wildcard_patterns : list WildcardEntry }.

Definition router_new : DomainRouter := Build_DomainRouter dm_new dm_new [].

Definition wildcards_of (id : ProviderId) (e : RouterEntry) : list WildcardEntry :=
  (λ d, Build_WildcardEntry d d id) <$> filter (λ d, is_wildcard d = true) (re_domains e).

Definition rebuild_wildcards (r : DomainRouter) : DomainRouter :=
  {| configs := configs r;
     exact_domains := exact_domains r;
     wildcard_patterns := dm_iter (configs r) ≫= λ ke, wildcards_of ke.1 ke.2 |}.

(** The loop of [add] over the domains of the configuration: the exact map, the
    domains registered so far and whether a wildcard was among them. *)
Fixpoint register_domains (id : ProviderId) (ds : list rstring) (ex : EM)
    (registered : list rstring) (has_wildcards : bool) : EM * list rstring * bool :=
  match ds with
  | [] => (ex, registered, has_wildcards)
  | domain :: ds =>
    let normalized := to_lowercase domain in
    if is_wildcard normalized then
      register_domains id ds ex (registered ++ [normalized]) true
    else
      register_domains id ds (dm_insert normalized id ex) (registered ++ [normalized]) has_wildcards
  end.

Definition add (id : ProviderId) (config : ServerConfig) (r : DomainRouter) : DomainRouter :=
  let '(ex, registered, has_wildcards) :=
    register_domains id (sc_domains config) (exact_domains r) [] false in
  let r' := {| configs := dm_insert id (Build_RouterEntry config registered) (configs r);
               exact_domains := ex;
               wildcard_patterns := wildcard_patterns r |} in
  if has_wildcards then rebuild_wildcards r' else r'.

(** The loop of [remove] over the domains of the entry. *)
Fixpoint unregister_domains (id : ProviderId) (ds : list rstring) (ex : EM)
    (had_wildcards : bool) : EM * bool :=
  match ds with
  | [] => (ex, had_wildcards)
  | domain :: ds =>
    if is_wildcard domain then unregister_domains id ds ex true
    else unregister_domains id ds
      (dm_remove_if domain (λ owner, bool_decide (owner = id)) ex) had_wildcards
  end.

Definition remove (id : ProviderId) (r : DomainRouter) : DomainRouter :=
  match dm_get (configs r) id with
  | None => r
  | Some entry =>
    let '(ex, had_wildcards) := unregister_domains id (re_domains entry) (exact_domains r) false in
    let r' := {| configs := dm_remove id (configs r);
                 exact_domains := ex;
                 wildcard_patterns := wildcard_patterns r |} in
    if had_wildcards then rebuild_wildcards r' else r'
  end.

Definition update (id : ProviderId) (config : ServerConfig) (r : DomainRouter) : DomainRouter :=
  add id config (remove id r).

Definition remove_all_by_provider_type (ty : rstring) (r : DomainRouter) : DomainRouter :=
  let ids := filter (λ id, provider_type id = ty) (dm_iter (configs r)).*1 in
  foldl (λ r id, remove id r) r ids.

(** The scan of the wildcard list. *)
Fixpoint find_wildcard (r : DomainRouter) (normalized : rstring) (ps : list WildcardEntry)
    : option (ProviderId * ServerConfig) :=
  match ps with
  | [] => None
  | wc :: ps =>
    match (if wild_matches (we_matcher wc) normalized
           then dm_get (configs r) (we_provider_id wc) else None) with
    | Some entry => Some (we_provider_id wc, re_config entry)
    | None => find_wildcard r normalized ps
    end
  end.

Definition resolve (r : DomainRouter) (domain : rstring) : option (ProviderId * ServerConfig) :=
  let normalized := to_lowercase (normalize_handshake domain) in
  match (id ← dm_get (exact_domains r) normalized;
         entry ← dm_get (configs r) id;
         Some (id, re_config entry)) with
  | Some res => Some res
  | None => find_wildcard r normalized (wildcard_patterns r)
  end.

Definition resolve_config (r : DomainRouter) (domain : rstring) : option ServerConfig :=
  snd <$> resolve r domain.

Definition find_by_server_id (r : DomainRouter) (server_id : rstring) : option ServerConfig :=
  (λ ke, re_config ke.2) <$>
    List.find (λ ke, bool_decide (effective_id (re_config ke.2) = server_id)) (dm_iter (configs r)).

Definition list_all (r : DomainRouter) : list (ProviderId * ServerConfig) :=
  (λ ke, (ke.1, re_config ke.2)) <$> dm_iter (configs r).

Definition count_by_provider (r : DomainRouter) : gmap rstring Z :=
  foldl (λ counts ke, partial_alter (λ n, Some (default 0 n + 1)) (provider_type ke.1) counts)
    ∅ (dm_iter (configs r)).

(** ** Provider events *)

Record ProviderConfig := { pc_id : ProviderId; pc_config : ServerConfig }.

Inductive ProviderEvent :=
| Added (pc : ProviderConfig)
| Updated (pc : ProviderConfig)
| Removed (id : ProviderId).

(** The arm of the event loop for each event. *)
Definition apply_event (ev : ProviderEvent) (r : DomainRouter) : DomainRouter :=
  match ev with
  | Added pc => add (pc_id pc) (pc_config pc) r
  | Updated pc => update (pc_id pc) (pc_config pc) r
  | Removed id => remove id r
  end.

Definition event_loop (evs : list ProviderEvent) (r : DomainRouter) : DomainRouter :=
  foldl (λ r ev, apply_event ev r) r evs.

(** ** The contract *)

(** What is registered, and who owns each exact domain. *)
Record RouterSpec := {
  sp_configs : gmap ProviderId ServerConfig;
  sp_owner : gmap rstring ProviderId }.

Definition spec_new : RouterSpec := Build_RouterSpec ∅ ∅.

Definition normal_domains (c : ServerConfig) : list rstring := to_lowercase <$> sc_domains c.
Definition exact_of (c : ServerConfig) : list rstring :=
  filter (λ d, is_wildcard d = false) (normal_domains c).

(** The new configuration takes over the exact domains it lists. *)
Definition spec_add (id : ProviderId) (c : ServerConfig) (sp : RouterSpec) : RouterSpec :=
  {| sp_configs := <[id := c]> (sp_configs sp);
     sp_owner := foldr (λ d o, <[d := id]> o) (sp_owner sp) (exact_of c) |}.

(** A provider that is removed owns nothing any more. *)
Definition spec_remove (id : ProviderId) (sp : RouterSpec) : RouterSpec :=
  {| sp_configs := delete id (sp_configs sp);
     sp_owner := filter (λ do, do.2 ≠ id) (sp_owner sp) |}.

Definition spec_event (ev : ProviderEvent) (sp : RouterSpec) : RouterSpec :=
  match ev with
  | Added pc => spec_add (pc_id pc) (pc_config pc) sp
  | Updated pc => spec_add (pc_id pc) (pc_config pc) (spec_remove (pc_id pc) sp)
  | Removed id => spec_remove id sp
  end.
Definition spec_run (evs : list ProviderEvent) (sp : RouterSpec) : RouterSpec :=
  foldl (λ sp ev, spec_event ev sp) sp evs.

(** A registered configuration has a wildcard that matches. *)
Definition wild_route (sp : RouterSpec) (n : rstring) (id : ProviderId) (c : ServerConfig) : Prop :=
  sp_configs sp !! id = Some c ∧
  ∃ p, p ∈ normal_domains c ∧ is_wildcard p = true ∧ wild_matches p n = true.

(** The answers the contract allows for a normalized name: the owner of the exact
    domain; without one, any provider with a matching wildcard; otherwise none. *)
Inductive spec_resolves (sp : RouterSpec) (n : rstring) : option (ProviderId * ServerConfig) → Prop :=
| resolves_exact id c :
    sp_owner sp !! n = Some id → sp_configs sp !! id = Some c →
    spec_resolves sp n (Some (id, c))
| resolves_wild id c :
    sp_owner sp !! n = None → wild_route sp n id c → spec_resolves sp n (Some (id, c))
| resolves_none :
    sp_owner sp !! n = None → (∀ id c, ¬ wild_route sp n id c) → spec_resolves sp n None.

(** An event a provider may emit in a state: what it adds is not there yet. *)
Definition allowed (sp : RouterSpec) (ev : ProviderEvent) : Prop :=
  match ev with Added pc => sp_configs sp !! pc_id pc = None | _ => True end.

Fixpoint all_allowed (sp : RouterSpec) (evs : list ProviderEvent) : Prop :=
  match evs with
  | [] => True
  | ev :: evs => allowed sp ev ∧ all_allowed (spec_event ev sp) evs
  end.

(** ** The router implements the contract *)

Record sim (r : DomainRouter) (sp : RouterSpec) : Prop := {
  sim_configs id : dm_get (configs r) id =
    (λ c, Build_RouterEntry c (normal_domains c)) <$> sp_configs sp !! id;
  sim_owner d : dm_get (exact_domains r) d = sp_owner sp !! d;
  sim_owned d id : sp_owner sp !! d = Some id →
    ∃ c, sp_configs sp !! id = Some c ∧ d ∈ exact_of c;
  sim_wild raw m id : Build_WildcardEntry raw m id ∈ wildcard_patterns r ↔
    raw = m ∧ ∃ c, sp_configs sp !! id = Some c ∧ raw ∈ normal_domains c ∧ is_wildcard raw = true }.

Context `{!DashMapLaws ProviderId RouterEntry CM} `{!DashMapLaws rstring ProviderId EM}.

Lemma register_domains_spec id ds ex reg hw :
  let '(ex', reg', hw') := register_domains id ds ex reg hw in
  (∀ d, dm_get ex' d =
     if decide (d ∈ filter (λ d, is_wildcard d = false) (to_lowercase <$> ds))
     then Some id else dm_get ex d) ∧
  reg' = reg ++ (to_lowercase <$> ds) ∧
  (hw' = true ↔ hw = true ∨ ∃ d, d ∈ to_lowercase <$> ds ∧ is_wildcard d = true).
Proof.
  revert ex reg hw. induction ds as [|d0 ds IH]; intros ex reg hw; simpl.
  { split_and!; [done|by rewrite app_nil_r|]. set_solver. }
  rewrite filter_cons.
  destruct (is_wildcard (to_lowercase d0)) eqn:Ew.
  - specialize (IH ex (reg ++ [to_lowercase d0]) true).
    destruct (register_domains _ _ _ _ _) as [[ex' reg'] hw']. destruct IH as (Hex&->&Hhw).
    split_and!; [|by rewrite <- app_assoc|set_solver].
    by rewrite decide_False.
  - specialize (IH (dm_insert (to_lowercase d0) id ex) (reg ++ [to_lowercase d0]) hw).
    destruct (register_domains _ _ _ _ _) as [[ex' reg'] hw']. destruct IH as (Hex&->&Hhw).
    split_and!; [|by rewrite <- app_assoc|].
    + intros d. rewrite Hex, dm_get_insert. rewrite (decide_True (P := false = false)) by done.
      repeat case_decide; set_solver.
    + rewrite Hhw. setoid_rewrite elem_of_cons. clear -Ew. naive_solver congruence.
Qed.

Lemma unregister_domains_spec id ds ex hw :
  let '(ex', hw') := unregister_domains id ds ex hw in
  (∀ d, dm_get ex' d =
     if decide (d ∈ filter (λ d, is_wildcard d = false) ds ∧ dm_get ex d = Some id)
     then None else dm_get ex d) ∧
  (hw' = true ↔ hw = true ∨ ∃ d, d ∈ ds ∧ is_wildcard d = true).
Proof.
  revert ex hw. induction ds as [|d0 ds IH]; intros ex hw; cbn [unregister_domains].
  { split; [|set_solver]. intros d. rewrite decide_False; [done|]. set_solver. }
  rewrite filter_cons.
  destruct (is_wildcard d0) eqn:Ew.
  - specialize (IH ex true). destruct (unregister_domains _ _ _ _) as [ex' hw'].
    destruct IH as [Hex Hhw]. split; [|set_solver]. by rewrite decide_False.
  - specialize (IH (dm_remove_if d0 (λ owner, bool_decide (owner = id)) ex) hw).
    destruct (unregister_domains _ _ _ _) as [ex' hw'].
    destruct IH as [Hex Hhw]. split; [|rewrite Hhw; setoid_rewrite elem_of_cons; clear -Ew; naive_solver congruence].
    intros d. rewrite Hex, dm_get_remove_if. rewrite (decide_True (P := false = false)) by done.
    destruct (dm_get ex d) as [o|] eqn:Ed; [|by repeat case_decide].
    destruct (decide (d0 = d)) as [->|Hne].
    + case_bool_decide; subst; repeat case_decide; set_solver.
    + repeat case_decide; set_solver.
Qed.

Lemma spec_add_owner id c sp d :
  sp_owner (spec_add id c sp) !! d =
    if decide (d ∈ exact_of c) then Some id else sp_owner sp !! d.
Proof.
  cbn [sp_owner spec_add]. induction (exact_of c) as [|d0 ds IH]; cbn [foldr].
  { rewrite decide_False; [done|]. apply not_elem_of_nil. }
  destruct (decide (d0 = d)) as [->|Hne].
  - rewrite lookup_insert_eq, decide_True; [done|left].
  - rewrite lookup_insert_ne by done. rewrite IH.
    destruct (decide (d ∈ ds)); [rewrite decide_True by by right|rewrite decide_False]; [done..|].
    by rewrite elem_of_cons; intros [->|].
Qed.

Lemma spec_remove_owner id sp d :
  sp_owner (spec_remove id sp) !! d =
    if decide (sp_owner sp !! d = Some id) then None else sp_owner sp !! d.
Proof.
  cbn [sp_owner spec_remove]. rewrite map_lookup_filter.
  destruct (sp_owner sp !! d) as [o|] eqn:E; cbv [mbind option_bind]; [|by destruct (decide _)].
  destruct (decide (Some o = Some id)) as [[= ->]|Hne]; case_guard as Hg; try done.
  simpl in Hg. congruence.
Qed.

Lemma rebuild_wildcards_elem r raw m id :
  Build_WildcardEntry raw m id ∈ wildcard_patterns (rebuild_wildcards r) ↔
    raw = m ∧ ∃ e, dm_get (configs r) id = Some e ∧ raw ∈ re_domains e ∧ is_wildcard raw = true.
Proof.
  cbn [wildcard_patterns rebuild_wildcards]. rewrite list_elem_of_bind. split.
  - intros ([id' e]&Hw&Hin%dm_iter_get). apply list_elem_of_fmap in Hw as (d&[= -> -> ->]&Hd).
    apply list_elem_of_filter in Hd as [? ?]. eauto.
  - intros (<-&e&He&Hraw&Hw). exists (id, e). split; [|by apply dm_iter_get].
    apply list_elem_of_fmap. exists raw. split; [done|]. by apply list_elem_of_filter.
Qed.

(** After a change the wildcard list is rebuilt, or it needs no change. *)
Lemma sim_of_rebuild cm ex ps (rebuild : bool) sp :
  (∀ id, dm_get cm id = (λ c, Build_RouterEntry c (normal_domains c)) <$> sp_configs sp !! id) →
  (∀ d, dm_get ex d = sp_owner sp !! d) →
  (∀ d id, sp_owner sp !! d = Some id → ∃ c, sp_configs sp !! id = Some c ∧ d ∈ exact_of c) →
  (rebuild = false → ∀ raw m id, Build_WildcardEntry raw m id ∈ ps ↔
    raw = m ∧ ∃ c, sp_configs sp !! id = Some c ∧ raw ∈ normal_domains c ∧ is_wildcard raw = true) →
  sim (if rebuild then rebuild_wildcards (Build_DomainRouter cm ex ps)
       else Build_DomainRouter cm ex ps) sp.
Proof.
  intros Hc Ho Hown Hw. destruct rebuild; [|by split; auto]. split; [done..|].
  intros raw m id. rewrite rebuild_wildcards_elem. cbn [configs]. rewrite Hc.
  split; intros (<-&x&Hx&Hraw&His); (split; [done|]).
  - apply fmap_Some in Hx as (c&Hx&->). eauto.
  - exists (Build_RouterEntry x (normal_domains x)). by rewrite Hx.
Qed.

Lemma sim_new : sim router_new spec_new.
Proof.
  split; cbn.
  - intros id. by rewrite dm_get_new, lookup_empty.
  - intros d. by rewrite dm_get_new, lookup_empty.
  - intros d id. by rewrite lookup_empty.
  - intros raw m id. setoid_rewrite lookup_empty. rewrite elem_of_nil. naive_solver.
Qed.

Lemma sim_add r sp id c :
  sp_configs sp !! id = None → sim r sp → sim (add id c r) (spec_add id c sp).
Proof.
  intros Hnew [Hc Ho Hown Hw]. unfold add.
  pose proof (register_domains_spec id (sc_domains c) (exact_domains r) [] false) as Hreg.
  destruct (register_domains _ _ _ _ _) as [[ex reg] hw]. destruct Hreg as (Hex&->&Hhw).
  apply sim_of_rebuild; cbn [sp_configs spec_add].
  - intros id'. rewrite dm_get_insert.
    destruct (decide (id = id')) as [<-|]; [by rewrite lookup_insert_eq|].
    by rewrite lookup_insert_ne, Hc.
  - intros d. rewrite Hex, Ho, spec_add_owner. done.
  - intros d id'. rewrite spec_add_owner. case_decide as Hd.
    + intros [= <-]. exists c. by rewrite lookup_insert_eq.
    + intros H'. destruct (Hown d id' H') as (c'&Hc'&?). exists c'.
      rewrite lookup_insert_ne by congruence. done.
  - intros -> raw m id'. rewrite Hw.
    destruct (decide (id = id')) as [<-|]; [|by rewrite lookup_insert_ne].
    rewrite lookup_insert_eq, Hnew. split; [naive_solver|].
    intros (->&c'&[= <-]&Hraw&His). exfalso. enough (false = true) by done. apply Hhw. eauto.
Qed.

Lemma sim_remove r sp id : sim r sp → sim (remove id r) (spec_remove id sp).
Proof.
  intros Hsim. pose proof Hsim as [Hc Ho Hown Hw]. unfold remove. rewrite Hc.
  destruct (sp_configs sp !! id) as [c|] eqn:Ec; simpl.
  - pose proof (unregister_domains_spec id (normal_domains c) (exact_domains r) false) as Hun.
    destruct (unregister_domains _ _ _ _) as [ex hw]. destruct Hun as [Hex Hhw].
    apply sim_of_rebuild.
    + intros id'. rewrite dm_get_remove. cbn [sp_configs spec_remove].
      destruct (decide (id = id')) as [<-|]; [by rewrite lookup_delete_eq|].
      by rewrite lookup_delete_ne.
    + intros d. rewrite Hex, Ho, spec_remove_owner.
      destruct (decide (sp_owner sp !! d = Some id)) as [Hd|Hd].
      * rewrite decide_True; [done|]. split; [|done].
        destruct (Hown d id Hd) as (c'&Hc'&?). by simplify_eq.
      * rewrite decide_False; [done|]. naive_solver.
    + intros d id'. rewrite spec_remove_owner. case_decide as Hd; [done|]. intros H'.
      destruct (Hown d id' H') as (c'&?&?). exists c'. cbn [sp_configs spec_remove].
      rewrite lookup_delete_ne by congruence. done.
    + intros -> raw m id'. rewrite Hw. cbn [sp_configs spec_remove].
      destruct (decide (id = id')) as [<-|]; [|by rewrite lookup_delete_ne].
      rewrite lookup_delete_eq, Ec. split; [|naive_solver].
      intros (->&c'&[= <-]&Hraw&His). exfalso. enough (false = true) by done. apply Hhw. eauto.
  - replace (spec_remove id sp) with sp; [done|]. destruct sp as [cs os].
    unfold spec_remove. cbn [sp_configs sp_owner] in *. f_equal.
    + symmetry. by apply delete_id.
    + symmetry. apply map_filter_id. intros d id' Hd. cbn. intros ->.
      destruct (Hown d id Hd) as (c&?&_). congruence.
Qed.

Lemma spec_remove_configs id sp : sp_configs (spec_remove id sp) !! id = None.
Proof. apply lookup_delete_eq. Qed.

Lemma sim_event r sp ev : allowed sp ev → sim r sp → sim (apply_event ev r) (spec_event ev sp).
Proof.
  destruct ev as [pc|pc|id]; simpl; intros Ha Hs.
  - by apply sim_add.
  - apply sim_add; [apply spec_remove_configs|]. by apply sim_remove.
  - by apply sim_remove.
Qed.

Lemma sim_run r sp evs : all_allowed sp evs → sim r sp → sim (event_loop evs r) (spec_run evs sp).
Proof.
  revert r sp. induction evs as [|ev evs IH]; intros r sp; [done|]. simpl.
  intros [Ha Has] Hs. apply IH; [done|]. by apply sim_event.
Qed.

Lemma find_wildcard_spec r sp n ps :
  sim r sp → (∀ w, w ∈ ps → w ∈ wildcard_patterns r) →
  match find_wildcard r n ps with
  | Some (id, c) => wild_route sp n id c
  | None => ∀ w, w ∈ ps → wild_matches (we_matcher w) n = false
  end.
Proof.
  intros Hs. induction ps as [|[raw m id] ps IH]; intros Hps; simpl.
  { by intros w ?%not_elem_of_nil. }
  pose proof (Hps (Build_WildcardEntry raw m id) ltac:(left)) as Hin.
  apply (sim_wild _ _ Hs) in Hin as (<-&c&Hc&Hraw&His).
  rewrite (sim_configs _ _ Hs), Hc. simpl.
  destruct (wild_matches raw n) eqn:Em; [split; [done|]; by exists raw|].
  specialize (IH ltac:(intros; apply Hps; by right)).
  destruct (find_wildcard r n ps) as [[id' c']|]; [done|].
  intros w [->|Hw]%elem_of_cons; [done|]. by apply IH.
Qed.

Lemma resolve_sim r sp q :
  sim r sp → spec_resolves sp (to_lowercase (normalize_handshake q)) (resolve r q).
Proof.
  intros Hs. unfold resolve. set (n := to_lowercase (normalize_handshake q)).
  rewrite (sim_owner _ _ Hs). destruct (sp_owner sp !! n) as [id|] eqn:Eo; simpl.
  - destruct (sim_owned _ _ Hs n id Eo) as (c&Hc&_).
    cbv [mbind option_bind]. rewrite (sim_configs _ _ Hs), Hc. by constructor.
  - pose proof (find_wildcard_spec r sp n (wildcard_patterns r) Hs ltac:(done)) as Hf.
    destruct (find_wildcard _ _ _) as [[id c]|]; [by apply resolves_wild|].
    apply resolves_none; [done|]. intros id c (Hc&p&Hp&His&Hm).
    enough (wild_matches p n = false) by congruence.
    apply (Hf (Build_WildcardEntry p p id)), (sim_wild _ _ Hs). eauto.
Qed.

(** The identifier an event is about, and whether it registers a configuration
    that lists [d] as an exact domain. *)
Definition event_id (ev : ProviderEvent) : ProviderId :=
  match ev with Added pc | Updated pc => pc_id pc | Removed id => id end.
Definition event_lists (d : rstring) (ev : ProviderEvent) : Prop :=
  match ev with Added pc | Updated pc => d ∈ exact_of (pc_config pc) | Removed _ => False end.
Definition registers (id : ProviderId) (ev : ProviderEvent) : Prop :=
  match ev with Added pc | Updated pc => pc_id pc = id | Removed _ => False end.

Lemma spec_run_app evs evs' sp : spec_run (evs ++ evs') sp = spec_run evs' (spec_run evs sp).
Proof. apply foldl_app. Qed.

Lemma spec_event_configs ev sp id :
  event_id ev ≠ id → sp_configs (spec_event ev sp) !! id = sp_configs sp !! id.
Proof.
  destruct ev as [pc|pc|id']; cbn; intros;
    by rewrite ?lookup_insert_ne, ?lookup_delete_ne by done.
Qed.

(** A route stays while nobody registers for its domain and its provider is left
    alone. *)
Lemma spec_event_keeps ev sp d id :
  event_id ev ≠ id → ¬ event_lists d ev →
  sp_owner sp !! d = Some id → sp_owner (spec_event ev sp) !! d = Some id.
Proof.
  intros Hid Hd Ho. destruct ev as [pc|pc|id']; cbn [spec_event event_id event_lists] in *.
  - by rewrite spec_add_owner, decide_False.
  - rewrite spec_add_owner, decide_False, spec_remove_owner, decide_False by congruence. done.
  - rewrite spec_remove_owner, decide_False by congruence. done.
Qed.

Lemma spec_run_keeps evs sp d id c :
  Forall (λ ev, event_id ev ≠ id ∧ ¬ event_lists d ev) evs →
  sp_owner sp !! d = Some id → sp_configs sp !! id = Some c →
  sp_owner (spec_run evs sp) !! d = Some id ∧ sp_configs (spec_run evs sp) !! id = Some c.
Proof.
  intros Hevs. revert sp. induction Hevs as [|ev evs [Hid Hl] _ IH]; intros sp Ho Hc; [done|].
  apply IH; [by apply spec_event_keeps|]. by rewrite spec_event_configs.
Qed.

Lemma spec_run_unregistered evs sp id :
  Forall (λ ev, ¬ registers id ev) evs → sp_configs sp !! id = None →
  sp_configs (spec_run evs sp) !! id = None.
Proof.
  intros Hevs. revert sp. induction Hevs as [|ev evs Hr _ IH]; intros sp Hc; [done|].
  apply IH. destruct (decide (event_id ev = id)) as [<-|]; [|by rewrite spec_event_configs].
  destruct ev as [pc|pc|id']; [by destruct Hr..|]. apply spec_remove_configs.
Qed.

(** C17: For every sequence of events in which only new identifiers are added, the router
    holds exactly the registered configurations and resolves each name as the contract
    says: the owner of the exact domain, else a provider with a matching wildcard, else
    none. *)
Theorem router_refines (evs : list ProviderEvent) :
  all_allowed spec_new evs →
  let r := event_loop evs router_new in
  let sp := spec_run evs spec_new in
  (∀ id, re_config <$> dm_get (configs r) id = sp_configs sp !! id) ∧
  (∀ q, spec_resolves sp (to_lowercase (normalize_handshake q)) (resolve r q)).
Proof.
  intros Hall. pose proof (sim_run _ _ _ Hall sim_new) as Hs. split.
  - intros id. rewrite (sim_configs _ _ Hs), <- option_fmap_compose. apply option_fmap_id.
  - intros q. by apply resolve_sim.
Qed.

(** A domain a provider registers is routed to it from then on, until the provider
    changes or another one registers the same domain. *)
Theorem registered_domain_routes (evs evs' : list ProviderEvent) (ev : ProviderEvent)
    (pc : ProviderConfig) (q : rstring) :
  all_allowed spec_new (evs ++ ev :: evs') →
  ev = Added pc ∨ ev = Updated pc →
  to_lowercase (normalize_handshake q) ∈ exact_of (pc_config pc) →
  Forall (λ ev', event_id ev' ≠ pc_id pc ∧
    ¬ event_lists (to_lowercase (normalize_handshake q)) ev') evs' →
  resolve (event_loop (evs ++ ev :: evs') router_new) q = Some (pc_id pc, pc_config pc).
Proof.
  intros Hall Hev Hq Hevs.
  pose proof (resolve_sim _ _ q (sim_run _ _ _ Hall sim_new)) as Hr.
  revert Hr. generalize (resolve (event_loop (evs ++ ev :: evs') router_new) q).
  set (n := to_lowercase (normalize_handshake q)) in *.
  rewrite spec_run_app. cbn [spec_run foldl].
  set (sp := spec_event ev (spec_run evs spec_new)).
  assert (sp_owner sp !! n = Some (pc_id pc) ∧ sp_configs sp !! pc_id pc = Some (pc_config pc))
    as [Ho Hc].
  { unfold sp. destruct Hev as [-> | ->]; cbn [spec_event];
      (split; [by rewrite spec_add_owner, decide_True|apply lookup_insert_eq]). }
  destruct (spec_run_keeps evs' sp n _ _ Hevs Ho Hc) as [Ho' Hc'].
  intros res Hres. destruct Hres; unfold spec_run in *; congruence.
Qed.

(** After a provider is removed no name resolves to it until it registers again. *)
Theorem removed_provider_unreachable (evs evs' : list ProviderEvent) (id : ProviderId) (q : rstring) :
  all_allowed spec_new (evs ++ Removed id :: evs') →
  Forall (λ ev, ¬ registers id ev) evs' →
  ∀ c, resolve (event_loop (evs ++ Removed id :: evs') router_new) q ≠ Some (id, c).
Proof.
  intros Hall Hevs c Hres.
  pose proof (resolve_sim _ _ q (sim_run _ _ _ Hall sim_new)) as Hr. rewrite Hres in Hr.
  enough (sp_configs (spec_run (evs ++ Removed id :: evs') spec_new) !! id = None) as Hnone.
  { inversion Hr as [? ? ? Hc|? ? ? [Hc _]|]; simplify_eq; congruence. }
  rewrite spec_run_app. apply (spec_run_unregistered evs'); [done|]. apply spec_remove_configs.
Qed.
End router.

(** ** A concrete instance

    Addresses as numbers and blocks as ranges of them, ASCII lowercasing, and a
    glob matcher: [*] stands for any text, [?] for one character. *)

Definition range_nets : IpNets := {|
  IpAddr := Z; IpNet := Z * Z;
  net_contains := λ net ip, bool_decide (net.1 ≤ ip ≤ net.2);
  ip_display := λ ip, str (pretty ip) |}.

Definition ascii_lowercase : Lowercase := fmap ascii_lower.
Lemma ascii_lowercase_laws : @LowercaseLaws ascii_lowercase.
Proof. done. Qed.

Fixpoint glob (p s : rstring) : bool :=
  match p with
  | [] => bool_decide (s = [])
  | c :: p' =>
    if decide (c = 42) then
      (fix star s := glob p' s || match s with [] => false | _ :: s' => star s' end) s
    else match s with
    | [] => false
    | d :: s' => bool_decide (c = 63 ∨ c = d) && glob p' s'
    end
  end.
Definition glob_match : WildMatch := glob.

#[local] Existing Instance range_nets.
#[local] Existing Instance ascii_lowercase.
#[local] Existing Instance glob_match.

Definition simple_config (name : string) (domains : list string) : ServerConfig :=
  Build_ServerConfig (Some (str name)) None None (str <$> domains)
    [Build_ServerAddress (str "10.0.0.1") 25565] Passthrough None false RewriteNone
    MotdConfig_default None None 0 None None [].

Definition survival : ProviderConfig :=
  Build_ProviderConfig (ProviderId_file (str "survival.toml"))
    (simple_config "survival" ["Play.Example.com"; "*.survival.example.com"]).
Definition lobby : ProviderConfig :=
  Build_ProviderConfig (ProviderId_docker (str "lobby"))
    (simple_config "lobby" ["lobby.example.com"; "*.example.com"]).

Abbreviation run evs :=
  (event_loop evs (router_new : @DomainRouter
     (assoc_map ProviderId RouterEntry) (assoc_map rstring ProviderId))).

Lemma router_refines_witness :
  let r := run [Added survival; Added lobby; Updated survival] in
  (∀ q, spec_resolves (spec_run [Added survival; Added lobby; Updated survival] spec_new)
     (to_lowercase (normalize_handshake q)) (resolve r q)) ∧
  resolve r (str "play.EXAMPLE.com.") = Some (pc_id survival, pc_config survival) ∧
  resolve r (str "a.example.com") = Some (pc_id lobby, pc_config lobby) ∧
  resolve r (str "example.org") = None.
Proof.
  split; [|split_and!; by vm_compute].
  apply router_refines. split_and!; by vm_compute.
Defined.

Lemma registered_domain_routes_witness :
  resolve (run [Added lobby; Added survival; Removed (pc_id lobby)]) (str "PLAY.example.com.") =
    Some (pc_id survival, pc_config survival).
Proof.
  apply (registered_domain_routes [Added lobby] [Removed (pc_id lobby)] (Added survival)).
  - split_and!; by vm_compute.
  - by left.
  - apply (bool_decide_unpack _). by vm_compute.
  - constructor; [|constructor]. split; [|by intros []]. by vm_compute.
Defined.

Lemma removed_provider_unreachable_witness :
  resolve (run [Added survival; Added lobby; Removed (pc_id survival)]) (str "x.survival.example.com")
    ≠ Some (pc_id survival, pc_config survival).
Proof.
  apply (removed_provider_unreachable [Added survival; Added lobby] []); [|constructor].
  split_and!; by vm_compute.
Defined.

(** When a second provider takes over a domain and is then removed, the first one is
    still registered but its domain resolves to nothing. *)
Theorem override_then_remove_loses_route :
  let rival := Build_ProviderConfig (ProviderId_file (str "rival.toml"))
    (simple_config "rival" ["play.example.com"]) in
  let r := run [Added survival; Added rival; Removed (pc_id rival)] in
  re_config <$> dm_get (configs r) (pc_id survival) = Some (pc_config survival) ∧
  resolve r (str "play.example.com") = None ∧
  resolve (run [Added survival]) (str "play.example.com") = Some (pc_id survival, pc_config survival).
Proof. split_and!; by vm_compute. Qed.
