(* ===== verification/Transport.v ===== *)
(** * Transport: addresses, the proxy protocol, accepting and connecting

    Models [infrarust-transport]: [connection.rs], [proxy_protocol.rs], [backend.rs] and the
    accept loop of [listener.rs].  The headers themselves are parsed and built by the [ppp]
    crate, the class [Ppp], whose laws are those of the proxy protocol specification: a
    header that was built is parsed back, whatever follows it, and a part of one is
    incomplete.  A socket is the list of the chunks its reads will yield; a read takes no
    more than there is room for.  A time limit is the number of reads that complete before
    it. *)
From S2P Require Import Prelude Wire Utf8 VarInt Codec Version Packet Config Router.

(** ** Addresses *)

(** [std::net::IpAddr]: the 32 or 128 bits of the address. *)
Inductive SockIp := V4 (a : Z) | V6 (a : Z).
Record SocketAddr := { sa_ip : SockIp; sa_port : Z }.
#[export] Instance SockIp_eq_dec : EqDecision SockIp.
Proof. solve_decision. Defined.
#[export] Instance SocketAddr_eq_dec : EqDecision SocketAddr.
Proof. solve_decision. Defined.

Definition valid_ip (ip : SockIp) : Prop :=
  match ip with V4 a => in_u 32 a | V6 a => in_u 128 a end.

(** The prefix [::ffff:0:0/96] of the mapped addresses. *)
Definition MAPPED : Z := 0xFFFF * 2 ^ 32.
Definition to_ipv6_mapped (a : Z) : Z := MAPPED + a.
Definition to_ipv4_mapped (a : Z) : option Z :=
  if decide (a / 2 ^ 32 = 0xFFFF) then Some (a mod 2 ^ 32) else None.

Definition canonicalize_ip (ip : SockIp) : SockIp :=
  match ip with
  | V6 v6 => match to_ipv4_mapped v6 with Some v4 => V4 v4 | None => V6 v6 end
  | v4 => v4
  end.

(** ** Errors and connections *)

Inductive TransportError :=
| TBind (addr : SocketAddr) (source : IoErrorKind)
| TAccept (e : IoErrorKind)
| BackendConnect (addr : SocketAddr) (source : IoErrorKind)
| AllBackendsFailed (server_id : rstring)
| ConnectTimeout (addr : SocketAddr) (timeout : Z)
| InvalidProxyProtocol (msg : string)
| ProxyProtocolDecode (msg : string)
| SocketConfig (e : IoErrorKind)
| TForward (e : IoErrorKind)
| Splice (e : IoErrorKind)
| TShutdown.

Inductive ProxyProtocolVersion := PPV1 | PPV2.
Record ProxyProtocolInfo := {
  pp_source_addr : SocketAddr;
  pp_dest_addr : SocketAddr;
  pp_version : ProxyProtocolVersion }.

Record ConnectionInfo := {
  ci_peer_addr : SocketAddr;
  ci_real_ip : option SockIp;
  ci_real_port : option Z;
  ci_local_addr : SocketAddr }.

(** The time of the connection is left out. *)
Record ClientConnection := {
  cc_stream : list bytes;
  cc_peer_addr : SocketAddr;
  cc_real_ip : option SockIp;
  cc_real_port : option Z;
  cc_local_addr : SocketAddr;
  cc_buffered_data : bytes }.

Definition ClientConnection_new (stream : list bytes) (peer local : SocketAddr) : ClientConnection :=
  Build_ClientConnection stream peer None None local [].
Definition with_proxy_protocol (info : ProxyProtocolInfo) (c : ClientConnection) : ClientConnection :=
  Build_ClientConnection (cc_stream c) (cc_peer_addr c) (Some (sa_ip (pp_source_addr info)))
    (Some (sa_port (pp_source_addr info))) (cc_local_addr c) (cc_buffered_data c).
Definition inject_buffered_data (data : bytes) (c : ClientConnection) : ClientConnection :=
  Build_ClientConnection (cc_stream c) (cc_peer_addr c) (cc_real_ip c) (cc_real_port c)
    (cc_local_addr c) (cc_buffered_data c ++ data).
Definition client_addr (c : ClientConnection) : SockIp :=
  canonicalize_ip (default (sa_ip (cc_peer_addr c)) (cc_real_ip c)).
Definition into_parts (c : ClientConnection) : list bytes * bytes * ConnectionInfo :=
  (cc_stream c, cc_buffered_data c,
   Build_ConnectionInfo (cc_peer_addr c) (cc_real_ip c) (cc_real_port c) (cc_local_addr c)).

(** One read into a buffer with room for [n] bytes. *)
Definition stream_read (n : nat) (chunks : list bytes) : bytes * list bytes :=
  match chunks with
  | [] => ([], [])
  | c :: chunks => if decide (length c ≤ n)%nat then (c, chunks) else (take n c, drop n c :: chunks)
  end.

(** Up to [n] bytes at the front, read once if fewer are buffered. *)
Definition peek (n : nat) (c : ClientConnection) : bytes * ClientConnection :=
  if decide (length (cc_buffered_data c) < n)%nat then
    let '(data, stream) := stream_read (n - length (cc_buffered_data c)) (cc_stream c) in
    let buffered := cc_buffered_data c ++ data in
    (take n buffered, Build_ClientConnection stream (cc_peer_addr c) (cc_real_ip c) (cc_real_port c)
       (cc_local_addr c) buffered)
  else (take n (cc_buffered_data c), c).

(** ** The proxy protocol *)

Definition MAX_HEADER_SIZE : nat := 536.
Definition PP_V2_SIGNATURE : bytes :=
  [0x0D; 0x0A; 0x0D; 0x0A; 0x00; 0x0D; 0x0A; 0x51; 0x55; 0x49; 0x54; 0x0A].
Definition PP_V1_PREFIX : bytes := as_bytes (str "PROXY ").

(** The addresses of [ppp::v1] and [ppp::v2]. *)
Inductive V1Addresses := V1Unknown | V1Tcp4 (src dst : Z) (sport dport : Z) | V1Tcp6 (src dst : Z) (sport dport : Z).
Inductive V2Addresses :=
| V2Unspecified
| V2IPv4 (src dst : Z) (sport dport : Z)
| V2IPv6 (src dst : Z) (sport dport : Z)
| V2Unix (src dst : bytes).
Inductive V2Error := V2Incomplete | V2Other (msg : string).

Class Ppp := {
  v2_parse : bytes → result V2Error (V2Addresses * nat);
  v2_build : V2Addresses → result string bytes;
  v1_parse : rstring → result string V1Addresses;
  (** [str::parse::<SocketAddr>], used for error messages only. *)
  parse_socket_addr : rstring → option SocketAddr }.

(** The address blocks that carry a client address. *)
Definition inet (a : V2Addresses) : Prop :=
  match a with
  | V2IPv4 s d sp dp => in_u 32 s ∧ in_u 32 d ∧ in_u 16 sp ∧ in_u 16 dp
  | V2IPv6 s d sp dp => in_u 128 s ∧ in_u 128 d ∧ in_u 16 sp ∧ in_u 16 dp
  | _ => False
  end.

Class PppLaws `{PP : Ppp} := {
  v2_built a : inet a → ∃ header, v2_build a = Ok header ∧
    take 12 header = PP_V2_SIGNATURE ∧ (16 ≤ length header ≤ 52)%nat;
  v2_parsed a header rest : inet a → v2_build a = Ok header →
    v2_parse (header ++ rest) = Ok (a, length header);
  v2_partial a header n : inet a → v2_build a = Ok header → (16 ≤ n < length header)%nat →
    v2_parse (take n header) = Err V2Incomplete }.

Section proxy_protocol.
Context `{PP : Ppp}.

Inductive DecodeAttempt := AttemptIncomplete | AttemptFailed (e : TransportError).

Definition extract_v2_addresses (a : V2Addresses) : result TransportError (SocketAddr * SocketAddr) :=
  match a with
  | V2IPv4 s d sp dp => Ok (Build_SocketAddr (V4 s) sp, Build_SocketAddr (V4 d) dp)
  | V2IPv6 s d sp dp => Ok (Build_SocketAddr (V6 s) sp, Build_SocketAddr (V6 d) dp)
  | _ => Err (InvalidProxyProtocol "unsupported address family in v2 header")
  end.

Definition extract_v1_addresses (a : V1Addresses) : result TransportError (SocketAddr * SocketAddr) :=
  match a with
  | V1Tcp4 s d sp dp => Ok (Build_SocketAddr (V4 s) sp, Build_SocketAddr (V4 d) dp)
  | V1Tcp6 s d sp dp => Ok (Build_SocketAddr (V6 s) sp, Build_SocketAddr (V6 d) dp)
  | V1Unknown => Err (InvalidProxyProtocol "unexpected unknown address family in v1 header")
  end.

Definition try_decode_v2 (buf : bytes) : result DecodeAttempt (ProxyProtocolInfo * nat) :=
  match v2_parse buf with
  | Err V2Incomplete => Err AttemptIncomplete
  | Err (V2Other e) => Err (AttemptFailed (ProxyProtocolDecode e))
  | Ok (addresses, consumed) =>
    match extract_v2_addresses addresses with
    | Err e => Err (AttemptFailed e)
    | Ok (src, dst) => Ok (Build_ProxyProtocolInfo src dst PPV2, consumed)
    end
  end.

(** [buf.windows(2).position(|w| w == b"\r\n")]. *)
Fixpoint crlf_position (buf : bytes) : option nat :=
  match buf with
  | 13 :: (10 :: _) => Some 0%nat
  | _ :: buf => S <$> crlf_position buf
  | [] => None
  end.

Definition try_decode_v1 (buf : bytes) : result DecodeAttempt (option ProxyProtocolInfo * nat) :=
  match crlf_position buf with
  | None => Err AttemptIncomplete
  | Some pos =>
    let end_ := (pos + 2)%nat in
    match from_utf8 (take end_ buf) with
    | None => Err (AttemptFailed (ProxyProtocolDecode "invalid utf-8 sequence"))
    | Some header_str =>
      match v1_parse header_str with
      | Err e => Err (AttemptFailed (ProxyProtocolDecode e))
      | Ok V1Unknown => Ok (None, end_)
      | Ok addresses =>
        match extract_v1_addresses addresses with
        | Err e => Err (AttemptFailed e)
        | Ok (src, dst) => Ok (Some (Build_ProxyProtocolInfo src dst PPV1), end_)
        end
      end
    end
  end.

(** What the bytes read so far say: a header and what follows it, an error, or that more
    are needed. *)
Definition decode_attempt (buf : bytes) : option (result TransportError (option ProxyProtocolInfo * bytes)) :=
  if decide (16 ≤ length buf ∧ take 12 buf = PP_V2_SIGNATURE)%nat then
    match try_decode_v2 buf with
    | Ok (info, consumed) => Some (Ok (Some info, drop consumed buf))
    | Err AttemptIncomplete => None
    | Err (AttemptFailed e) => Some (Err e)
    end
  else if decide (6 ≤ length buf ∧ take 6 buf = PP_V1_PREFIX)%nat then
    match try_decode_v1 buf with
    | Ok (info, consumed) => Some (Ok (info, drop consumed buf))
    | Err AttemptIncomplete => None
    | Err (AttemptFailed e) => Some (Err e)
    end
  else if decide (16 ≤ length buf)%nat
  then Some (Err (InvalidProxyProtocol "data does not start with a proxy protocol signature"))
  else None.

(** [time]: how many reads complete before the limit. *)
Fixpoint decode_loop (time : nat) (buf : bytes) (chunks : list bytes)
    : result TransportError (option ProxyProtocolInfo * bytes) * list bytes :=
  if decide (MAX_HEADER_SIZE ≤ length buf)%nat
  then (Err (InvalidProxyProtocol "header exceeds maximum size"), chunks)
  else
    match time with
    | O => (Err (ProxyProtocolDecode "proxy protocol header read timed out"), chunks)
    | S time =>
      let '(data, chunks) := stream_read (MAX_HEADER_SIZE - length buf) chunks in
      if decide (data = [])
      then (Err (InvalidProxyProtocol "connection closed before proxy protocol header"), chunks)
      else
        match decode_attempt (buf ++ data) with
        | Some r => (r, chunks)
        | None => decode_loop time (buf ++ data) chunks
        end
    end.

Definition decode_proxy_protocol (time : nat) (chunks : list bytes)
    : result TransportError (option ProxyProtocolInfo * bytes) * list bytes :=
  decode_loop time [] chunks.

Definition ip_to_v6 (ip : SockIp) : Z := match ip with V4 v4 => to_ipv6_mapped v4 | V6 v6 => v6 end.

Definition source_of (info : ConnectionInfo) : SocketAddr :=
  Build_SocketAddr (default (sa_ip (ci_peer_addr info)) (ci_real_ip info))
    (default (sa_port (ci_peer_addr info)) (ci_real_port info)).

Definition proxy_addresses (info : ConnectionInfo) : V2Addresses :=
  let src := source_of info in
  let dst := ci_local_addr info in
  match sa_ip src, sa_ip dst with
  | V4 s, V4 d => V2IPv4 s d (sa_port src) (sa_port dst)
  | V6 s, V6 d => V2IPv6 s d (sa_port src) (sa_port dst)
  | s, d => V2IPv6 (ip_to_v6 s) (ip_to_v6 d) (sa_port src) (sa_port dst)
  end.

(** The bytes written to the stream, or the error before anything is written. *)
Definition encode_proxy_protocol_v2 (info : ConnectionInfo) : result TransportError bytes :=
  match v2_build (proxy_addresses info) with
  | Ok header_bytes => Ok header_bytes
  | Err e => Err (ProxyProtocolDecode e)
  end.

(** ** Connecting to a backend *)

(** An open socket to a backend: what reads will yield, what was written, and the error
    writing meets. *)
Record BackendSocket := {
  bs_in : list bytes;
  bs_written : bytes;
  bs_broken : option IoErrorKind }.

(** What becomes of one attempt: the network's answer within the time limit. *)
Inductive attempt :=
| Connected (socket : BackendSocket)
| ConnectFailed (source : IoErrorKind)
| ConnectTimedOut
| ConfigFailed (e : IoErrorKind).

Definition backend_write_all (data : bytes) (s : BackendSocket) : result TransportError BackendSocket :=
  match bs_broken s with
  | Some kind => Err (TForward kind)
  | None => Ok (Build_BackendSocket (bs_in s) (bs_written s ++ data) None)
  end.

(** The network: an attempt per address and limit. *)
Context (net : rstring → Z → attempt).

Definition connect_addr (a : ServerAddress) : rstring :=
  addr_host a ++ str ":" ++ str (pretty (addr_port a)).

Definition error_addr (a : ServerAddress) : SocketAddr :=
  default (Build_SocketAddr (V4 0) (addr_port a)) (parse_socket_addr (connect_addr a)).

Definition try_connect (address : ServerAddress) (timeout : Z) (send_proxy_protocol : bool)
    (client_info : ConnectionInfo) : result TransportError BackendSocket :=
  match net (connect_addr address) timeout with
  | ConnectTimedOut => Err (ConnectTimeout (error_addr address) timeout)
  | ConnectFailed source => Err (BackendConnect (error_addr address) source)
  | ConfigFailed e => Err (SocketConfig e)
  | Connected stream =>
    if send_proxy_protocol then
      match encode_proxy_protocol_v2 client_info with
      | Err e => Err e
      | Ok header => backend_write_all header stream
      end
    else Ok stream
  end.

Fixpoint connect_loop (server_id : rstring) (timeout : Z) (send_proxy_protocol : bool)
    (client_info : ConnectionInfo) (last_error : option TransportError) (addresses : list ServerAddress)
    : result TransportError BackendSocket :=
  match addresses with
  | [] => Err (default (AllBackendsFailed server_id) last_error)
  | address :: addresses =>
    match try_connect address timeout send_proxy_protocol client_info with
    | Ok conn => Ok conn
    | Err e => connect_loop server_id timeout send_proxy_protocol client_info (Some e) addresses
    end
  end.

Definition connect (default_timeout : Z) (server_id : rstring) (addresses : list ServerAddress)
    (timeout_override : option Z) (send_proxy_protocol : bool) (client_info : ConnectionInfo)
    : result TransportError BackendSocket :=
  connect_loop server_id (default default_timeout timeout_override) send_proxy_protocol client_info None addresses.

(** ** Accepting *)

(** What [accept] on the socket yields: a stream with its peer, or an error with its kind
    and, if it has one, its number. *)
Inductive accept_event :=
| Incoming (stream : list bytes) (peer : SocketAddr)
| AcceptError (kind : IoErrorKind) (os_error : option Z)
| Cancelled.

Definition is_transient_error (kind : IoErrorKind) (os_error : option Z) : bool :=
  match kind with
  | OtherIo name => bool_decide (name ∈ ["ConnectionAborted"; "ConnectionReset"]%string)
  | _ => false
  end ||
  match os_error with Some n => bool_decide (n ∈ [24; 23; 12; 105]) | None => false end.

(** An accepted connection, the pauses in milliseconds before it, and what is left of the
    events; [None] waits for a connection or a permit. *)
Fixpoint accept_loop (receive_proxy_protocol : bool) (local_addr : SocketAddr) (permits : option nat) (time : nat)
    (backoff : Z) (events : list accept_event)
    : option (result TransportError ClientConnection * list Z * list accept_event) :=
  match events with
  | [] => None
  | Cancelled :: events => Some (Err TShutdown, [], events)
  | event :: events =>
    match permits, event with
    | Some O, _ => None
    | _, AcceptError kind os =>
      if is_transient_error kind os then
        match accept_loop receive_proxy_protocol local_addr permits time (Z.min (backoff * 2) 5000) events with
        | Some (r, pauses, events) => Some (r, backoff :: pauses, events)
        | None => None
        end
      else Some (Err (TAccept kind), [], events)
    | _, Incoming stream peer =>
      if receive_proxy_protocol then
        match decode_proxy_protocol time stream with
        | (Err e, _) => Some (Err e, [], events)
        | (Ok (info, leftover), stream) =>
          let conn := ClientConnection_new stream peer local_addr in
          let conn := match info with Some pp_info => with_proxy_protocol pp_info conn | None => conn end in
          Some (Ok (if decide (leftover = []) then conn else inject_buffered_data leftover conn), [], events)
        end
      else Some (Ok (ClientConnection_new stream peer local_addr), [], events)
    | _, Cancelled => Some (Err TShutdown, [], events)
    end
  end.
Definition accept (receive_proxy_protocol : bool) (local_addr : SocketAddr) (permits : option nat) (time : nat)
    (events : list accept_event) : option (result TransportError ClientConnection * list Z * list accept_event) :=
  accept_loop receive_proxy_protocol local_addr permits time 100 events.
End proxy_protocol.

(** ** Reading a header *)

Section proxy_proofs.
Context `{PP : Ppp, PPL : !PppLaws}.

Lemma stream_read_more n chunks :
  (0 < n)%nat → Forall (λ c, c ≠ []) chunks → chunks ≠ [] →
  ∃ data chunks', stream_read n chunks = (data, chunks') ∧ data ≠ [] ∧
    data ++ concat chunks' = concat chunks ∧ Forall (λ c, c ≠ []) chunks'.
Proof.
  intros Hn Hne Hc. destruct chunks as [|c chunks]; [done|]. apply Forall_cons in Hne as [Hc0 Hne].
  cbn [stream_read]. case_decide as Hl; eexists _, _; (split; [done|]).
  - done.
  - split; [intros Ht; apply (f_equal length) in Ht; rewrite length_take in Ht; cbn in Ht; lia|]. split; [cbn; by rewrite app_assoc, take_drop|].
    apply Forall_cons. split; [|done]. intros Hd. apply (f_equal length) in Hd. rewrite length_drop in Hd. cbn in Hd. lia.
Qed.

Lemma take_app_same {A} n (l k l' k' : list A) :
  l ++ k = l' ++ k' → (n ≤ length l)%nat → (n ≤ length l')%nat → take n l = take n l'.
Proof. intros He Hl Hl'. apply (f_equal (take n)) in He. by rewrite !take_app_le in He by done. Qed.

(** The attempt on a part of the stream that starts with a header. *)
Lemma attempt_short a header buf rest more :
  inet a → v2_build a = Ok header → buf ++ more = header ++ rest →
  (length buf < length header)%nat → decode_attempt buf = None.
Proof using PPL.
  intros Ha Hb He Hl. destruct (v2_built a Ha) as (h&Hh&Hsig&Hlen). rewrite Hb in Hh. injection Hh as <-.
  unfold decode_attempt. destruct (decide (16 ≤ length buf)%nat) as [H16|H16].
  - assert (Hbuf : buf = take (length buf) header).
    { rewrite <- (take_app_le header rest) by lia. rewrite <- He. by rewrite take_app_length. }
    rewrite decide_True; [|split; [done|]].
    + unfold try_decode_v2. rewrite Hbuf. rewrite v2_partial with (a := a); [done|done|done|lia].
    + rewrite <- Hsig. apply (take_app_same _ _ more _ rest); [done|lia|lia].
  - rewrite decide_False by (intros [? _]; lia). rewrite decide_False; [done|].
    intros [H6 Hv1]. rewrite (take_app_same 6 buf more header rest) in Hv1; [|done|lia|lia].
    apply (f_equal (take 6)) in Hsig. rewrite take_take in Hsig. cbn in Hsig.
    rewrite Hsig in Hv1. by vm_compute in Hv1.
Qed.

Lemma attempt_full a header src dst rest :
  inet a → v2_build a = Ok header → extract_v2_addresses a = Ok (src, dst) →
  decode_attempt (header ++ rest) = Some (Ok (Some (Build_ProxyProtocolInfo src dst PPV2), rest)).
Proof using PPL.
  intros Ha Hb Hx. destruct (v2_built a Ha) as (h&Hh&Hsig&Hlen). rewrite Hb in Hh. injection Hh as <-.
  unfold decode_attempt. rewrite decide_True.
  - unfold try_decode_v2. rewrite (v2_parsed a) by done. rewrite Hx. by rewrite drop_app_length.
  - rewrite length_app, take_app_le by lia. split; [lia|done].
Qed.

Lemma decode_loop_header a header src dst time buf rest chunks :
  inet a → v2_build a = Ok header → extract_v2_addresses a = Ok (src, dst) →
  (length buf < length header)%nat → (length header ≤ time + length buf)%nat →
  Forall (λ c, c ≠ []) chunks → buf ++ concat chunks = header ++ rest →
  ∃ leftover chunks',
    decode_loop time buf chunks = (Ok (Some (Build_ProxyProtocolInfo src dst PPV2), leftover), chunks') ∧
    leftover ++ concat chunks' = rest.
Proof using PPL.
  intros Ha Hb Hx. destruct (v2_built a Ha) as (h&Hh&_&Hlen). rewrite Hb in Hh. injection Hh as <-.
  revert buf chunks. induction time as [|time IH]; intros buf chunks Hl Ht Hne He; [lia|].
  cbn [decode_loop]. assert (Hc : chunks ≠ []).
  { intros ->. cbn in He. rewrite app_nil_r in He. apply (f_equal length) in He. rewrite length_app in He. lia. }
  rewrite decide_False by (unfold MAX_HEADER_SIZE; lia).
  destruct (stream_read_more (MAX_HEADER_SIZE - length buf) chunks) as (data&chunks'&Hr&Hd&Hcat&Hne');
    [unfold MAX_HEADER_SIZE; lia|done|done|].
  rewrite Hr. rewrite decide_False by done. rewrite <- Hcat, app_assoc in He.
  destruct (decide (length (buf ++ data) < length header)%nat) as [Hs|Hs].
  - rewrite (attempt_short a header (buf ++ data) rest (concat chunks')) by done.
    apply IH; [done| |done|done]. rewrite length_app. destruct data; [done|cbn; lia].
  - assert (Hbuf : buf ++ data = header ++ drop (length header) (buf ++ data)).
    { pose proof (take_app_length header rest) as Hh. rewrite <- He, take_app_le in Hh by lia.
      rewrite <- Hh at 1. by rewrite take_drop. }
    rewrite Hbuf, (attempt_full a header src dst) by done. eexists _, _. split; [done|].
    rewrite Hbuf, <- app_assoc in He. by apply app_inv_head in He.
Qed.

(** ** Addresses through a chain of proxies *)

Lemma canonical_mapped a : in_u 32 a → canonicalize_ip (V6 (to_ipv6_mapped a)) = V4 a.
Proof.
  intros Ha. unfold canonicalize_ip, to_ipv4_mapped, to_ipv6_mapped, MAPPED, in_u in *.
  rewrite Z.add_comm, Z.div_add, Z.mod_add, Z.div_small, Z.mod_small by lia. by rewrite decide_True.
Qed.

Definition valid_info (info : ConnectionInfo) : Prop :=
  valid_ip (sa_ip (source_of info)) ∧ in_u 16 (sa_port (source_of info)) ∧
  valid_ip (sa_ip (ci_local_addr info)) ∧ in_u 16 (sa_port (ci_local_addr info)).

Lemma mapped_range a : in_u 32 a → in_u 128 (to_ipv6_mapped a).
Proof. unfold in_u, to_ipv6_mapped, MAPPED. lia. Qed.

Lemma proxy_addresses_inet info : valid_info info → inet (proxy_addresses info).
Proof.
  intros (Hs&Hsp&Hd&Hdp). unfold proxy_addresses, valid_ip in *.
  destruct (sa_ip (source_of info)), (sa_ip (ci_local_addr info)); cbn; eauto 10 using mapped_range.
Qed.

Lemma proxy_addresses_source info : valid_info info →
  ∃ src dst, extract_v2_addresses (proxy_addresses info) = Ok (src, dst) ∧
    canonicalize_ip (sa_ip src) = canonicalize_ip (sa_ip (source_of info)) ∧
    sa_port src = sa_port (source_of info) ∧
    canonicalize_ip (sa_ip dst) = canonicalize_ip (sa_ip (ci_local_addr info)) ∧
    sa_port dst = sa_port (ci_local_addr info).
Proof.
  intros (Hs&Hsp&Hd&Hdp). unfold proxy_addresses, valid_ip in *.
  destruct (sa_ip (source_of info)), (sa_ip (ci_local_addr info)); eexists _, _; (split; [reflexivity|]);
    cbn [sa_ip sa_port ip_to_v6]; rewrite ?canonical_mapped by done; done.
Qed.

(** Behind a proxy that sends the proxy protocol, an accepted connection has the
    address and port of the original client in canonical form, whatever the families of
    the two addresses and the chunks of the stream, and every byte after the header is
    kept. *)
Theorem proxied_address_kept (info : ConnectionInfo) (peer local : SocketAddr) (permits : option nat)
    (time : nat) (rest : bytes) (chunks : list bytes) (events : list accept_event) :
  valid_info info → permits ≠ Some 0%nat → (52 ≤ time)%nat → Forall (λ c, c ≠ []) chunks →
  ∃ header, encode_proxy_protocol_v2 info = Ok header ∧
    (concat chunks = header ++ rest →
     ∃ conn, accept true local permits time (Incoming chunks peer :: events) = Some (Ok conn, [], events) ∧
       client_addr conn = canonicalize_ip (sa_ip (source_of info)) ∧
       cc_real_port conn = Some (sa_port (source_of info)) ∧ cc_peer_addr conn = peer ∧
       cc_buffered_data conn ++ concat (cc_stream conn) = rest).
Proof using PPL.
  intros Hi Hp Ht Hne. pose proof (proxy_addresses_inet _ Hi) as Ha.
  destruct (proxy_addresses_source _ Hi) as (src&dst&Hx&Hip&Hport&_&_).
  destruct (v2_built _ Ha) as (h&Hh&_&Hlen). exists h. unfold encode_proxy_protocol_v2. rewrite Hh.
  split; [done|]. intros Hc.
  destruct (decode_loop_header _ h src dst time [] rest chunks Ha Hh Hx) as (left&chunks'&Hd&Hr);
    [cbn; lia|cbn; lia|done|done|].
  unfold accept. cbn [accept_loop]. unfold decode_proxy_protocol. rewrite Hd.
  assert (Hconn : ∀ r, match permits with Some 0%nat => None | _ => Some r end = Some r :> option
    (result TransportError ClientConnection * list Z * list accept_event)) by (destruct permits as [[|]|]; done).
  destruct permits as [[|]|]; [done|..]; (eexists; split; [reflexivity|]);
    case_decide as Hl; subst; unfold client_addr; cbn; by rewrite ?Hip, ?Hport.
Qed.

(** ** Failover *)

Lemma connect_loop_exact net id timeout pp info last addresses :
  match connect_loop net id timeout pp info last addresses with
  | Ok s => ∃ pre a post, addresses = pre ++ a :: post ∧ try_connect net a timeout pp info = Ok s ∧
      Forall (λ a, ∃ e, try_connect net a timeout pp info = Err e) pre
  | Err e => Forall (λ a, ∃ e, try_connect net a timeout pp info = Err e) addresses ∧
      (addresses = [] ∧ e = default (AllBackendsFailed id) last ∨
       ∃ pre a, addresses = pre ++ [a] ∧ try_connect net a timeout pp info = Err e)
  end.
Proof.
  revert last. induction addresses as [|a addresses IH]; intros last; cbn [connect_loop]; [by eauto|].
  destruct (try_connect net a timeout pp info) as [s|e] eqn:Ha; [by exists [], a, addresses|].
  specialize (IH (Some e)). destruct (connect_loop _ _ _ _ _ _ _) as [s|e'].
  - destruct IH as (pre&b&post&->&Hb&Hpre). exists (a :: pre), b, post. by eauto.
  - destruct IH as [Hall Hlast]. split; [by eauto|]. right.
    destruct Hlast as [[-> ->]|(pre&b&->&Hb)]; [by exists [], a|by exists (a :: pre), b].
Qed.

(** Connecting to a backend gives the first address, in order, that can be reached, and
    an error only when none can: that of the last attempt, or that there was no address. *)
Theorem connect_fails_over net (limit : Z) (id : rstring) (addresses : list ServerAddress)
    (timeout : option Z) (pp : bool) (info : ConnectionInfo) :
  let attempt a := try_connect net a (default limit timeout) pp info in
  match connect net limit id addresses timeout pp info with
  | Ok s => ∃ pre a post, addresses = pre ++ a :: post ∧ attempt a = Ok s ∧
      Forall (λ a, ∃ e, attempt a = Err e) pre
  | Err e => Forall (λ a, ∃ e, attempt a = Err e) addresses ∧
      (addresses = [] ∧ e = AllBackendsFailed id ∨ ∃ pre a, addresses = pre ++ [a] ∧ attempt a = Err e)
  end.
Proof. apply connect_loop_exact. Qed.

(** ** Pauses between errors *)

Definition pauses (backoff : Z) (n : nat) : list Z := (λ k, Z.min (backoff * 2 ^ Z.of_nat k) 5000) <$> seq 0 n.

Lemma pauses_S backoff n : 0 < backoff ≤ 5000 →
  pauses backoff (S n) = backoff :: pauses (Z.min (backoff * 2) 5000) n.
Proof.
  intros Hb. unfold pauses. cbn [seq fmap list_fmap]. rewrite Z.mul_1_r, Z.min_l by lia. f_equal.
  rewrite <- (fmap_S_seq 0 n), <- list_fmap_compose. apply list_fmap_ext. intros i k _. cbn.
  replace (Z.of_nat (S k)) with (1 + Z.of_nat k) by lia. rewrite Z.pow_add_r, Z.pow_1_r by lia.
  pose proof (Z.pow_pos_nonneg 2 (Z.of_nat k)). nia.
Qed.

Lemma accept_retries_loop errors pp local permits time backoff stream peer events :
  0 < backoff ≤ 5000 → permits ≠ Some 0%nat →
  Forall (λ e, match e with AcceptError k os => is_transient_error k os = true | _ => False end) errors →
  accept_loop pp local permits time backoff (errors ++ Incoming stream peer :: events) =
  match accept_loop pp local permits time backoff (Incoming stream peer :: events) with
  | Some (r, [], events) => Some (r, pauses backoff (length errors), events)
  | r => r
  end.
Proof.
  intros Hb Hp Herr. revert backoff Hb. induction Herr as [|e errors He Herr IH]; intros backoff Hb.
  { cbn. repeat case_match; naive_solver. }
  cbn [app length]. rewrite pauses_S by done. destruct e as [|kind os|]; [done| |done].
  cbn [accept_loop]. rewrite He, IH by lia. clear IH. cbn [accept_loop].
  repeat case_match; simplify_eq; try done; destruct permits as [[]|]; simplify_eq; done.
Qed.
End proxy_proofs.

Theorem accept_retries_transient `{PP : Ppp} (errors : list accept_event) (pp : bool) (local peer : SocketAddr)
    (permits : option nat) (time : nat) (stream : list bytes) (events : list accept_event) :
  permits ≠ Some 0%nat →
  Forall (λ e, match e with AcceptError k os => is_transient_error k os = true | _ => False end) errors →
  ∃ r, accept pp local permits time (Incoming stream peer :: events) = Some (r, [], events) ∧
    accept pp local permits time (errors ++ Incoming stream peer :: events) =
      Some (r, pauses 100 (length errors), events).
Proof.
  intros Hp Herr. unfold accept. rewrite (accept_retries_loop errors pp local permits time 100) by done.
  assert (Hr : ∃ r, accept_loop pp local permits time 100 (Incoming stream peer :: events) = Some (r, [], events)).
  { cbn [accept_loop]. destruct permits as [[|]|]; [done|..]; repeat case_match; eauto. }
  destruct Hr as (r&Hr). exists r. by rewrite Hr.
Qed.

(** ** The binary header of the specification *)

Definition v2_header (family : Z) (body : bytes) : bytes :=
  PP_V2_SIGNATURE ++ [0x21; family; 0; zlen body] ++ body.
Definition v2_body (w : nat) (s d sp dp : Z) : bytes :=
  to_be_bytes w s ++ to_be_bytes w d ++ to_be_bytes 2 sp ++ to_be_bytes 2 dp.
Definition v2_fields (w : nat) (body : bytes) : Z * Z * Z * Z :=
  (from_be_bytes (take w body), from_be_bytes (take w (drop w body)),
   from_be_bytes (take 2 (drop (2 * w) body)), from_be_bytes (take 2 (drop (2 * w + 2) body))).

Definition v2_spec_parse (buf : bytes) : result V2Error (V2Addresses * nat) :=
  match drop 12 buf with
  | _ :: family :: _ :: len :: body =>
    if decide (zlen body < len) then Err V2Incomplete
    else if decide (family = 0x11 ∧ len = 12) then
      let '(s, d, sp, dp) := v2_fields 4 body in Ok (V2IPv4 s d sp dp, 28%nat)
    else if decide (family = 0x21 ∧ len = 36) then
      let '(s, d, sp, dp) := v2_fields 16 body in Ok (V2IPv6 s d sp dp, 52%nat)
    else Ok (V2Unspecified, 16%nat)
  | _ => Err V2Incomplete
  end.

#[local] Instance spec_ppp : Ppp := {|
  v2_parse := v2_spec_parse;
  v2_build a := match a with
                | V2IPv4 s d sp dp => Ok (v2_header 0x11 (v2_body 4 s d sp dp))
                | V2IPv6 s d sp dp => Ok (v2_header 0x21 (v2_body 16 s d sp dp))
                | _ => Err "unsupported"%string
                end;
  v1_parse _ := Ok V1Unknown;
  parse_socket_addr _ := None |}.

Lemma length_v2_body w s d sp dp : length (v2_body w s d sp dp) = (2 * w + 4)%nat.
Proof. unfold v2_body. rewrite !length_app, !length_to_be_bytes. lia. Qed.

Lemma v2_fields_body w s d sp dp rest :
  in_u (8 * Z.of_nat w) s → in_u (8 * Z.of_nat w) d → in_u 16 sp → in_u 16 dp →
  v2_fields w (v2_body w s d sp dp ++ rest) = (s, d, sp, dp).
Proof.
  intros Hs Hd Hsp Hdp. unfold v2_fields, v2_body. rewrite <- !app_assoc.
  assert (Hb : ∀ n z (l : bytes), in_u (8 * Z.of_nat n) z → from_be_bytes (take n (to_be_bytes n z ++ l)) = z).
  { intros n z l Hz. rewrite take_app_length' by (by rewrite length_to_be_bytes). rewrite from_to_be_bytes.
    by apply Z.mod_small. }
  assert (Hdrop : ∀ n z (l : bytes) m, m = n → drop m (to_be_bytes n z ++ l) = l).
  { intros n z l m ->. apply drop_app_length'. by rewrite length_to_be_bytes. }
  rewrite Hb by done. rewrite (Hdrop w) by done. rewrite Hb by done.
  replace (2 * w)%nat with (w + w)%nat by lia. replace (w + w + 2)%nat with (w + (w + 2))%nat by lia.
  rewrite <- !drop_drop, !(Hdrop w), Hb, (Hdrop 2%nat), Hb by done. done.
Qed.

Lemma spec_partial fam body n :
  (16 ≤ n < 16 + length body)%nat → v2_spec_parse (take n (v2_header fam body)) = Err V2Incomplete.
Proof.
  intros Hn. destruct n as [|[|[|[|[|[|[|[|[|[|[|[|[|[|[|[|n]]]]]]]]]]]]]]]]; try lia.
  unfold v2_spec_parse, v2_header, PP_V2_SIGNATURE. cbn [app take drop]. rewrite decide_True; [done|].
  unfold zlen. rewrite length_take. lia.
Qed.

#[local] Instance spec_ppp_laws : PppLaws.
Proof.
  split.
  - intros [] Ha; [done|..|done]; (eexists; split; [reflexivity|]); (split; [reflexivity|]);
      unfold v2_header; rewrite !length_app, length_v2_body; cbn; lia.
  - intros [|s d sp dp|s d sp dp|] h rest Ha; [done|..|done]; intros [= <-]; destruct Ha as (Hs&Hd&Hsp&Hdp);
      unfold v2_header; rewrite <- !app_assoc; cbn [v2_parse spec_ppp app]; unfold v2_spec_parse, PP_V2_SIGNATURE;
      cbn [app drop]; unfold zlen; rewrite length_app, length_v2_body, decide_False by lia.
    + rewrite decide_True by done. rewrite v2_fields_body by done. done.
    + rewrite decide_False by (intros [? _]; lia). rewrite decide_True by done. rewrite v2_fields_body by done. done.
  - intros [] h n Ha; [done|..|done]; intros [= <-]; unfold v2_header; rewrite !length_app, length_v2_body;
      intros Hn; apply spec_partial; rewrite length_v2_body; cbn in Hn; lia.
Qed.

Definition upstream : ConnectionInfo :=
  Build_ConnectionInfo (Build_SocketAddr (V4 0x0A000001) 40000) (Some (V4 0xC0000207)) (Some 51234)
    (Build_SocketAddr (V6 1) 25565).

Lemma proxied_address_kept_witness :
  ∃ conn, accept true (Build_SocketAddr (V4 0) 25565) (Some 1%nat) 60
      [Incoming (match encode_proxy_protocol_v2 upstream with
                 | Ok h => [take 5 h; drop 5 h ++ [16; 0]; [1; 2]] | Err _ => [] end)
         (Build_SocketAddr (V4 0x0A000002) 33000)] = Some (Ok conn, [], []) ∧
    client_addr conn = V4 0xC0000207 ∧ cc_real_port conn = Some 51234 ∧
    cc_buffered_data conn ++ concat (cc_stream conn) = [16; 0; 1; 2].
Proof.
  destruct (proxied_address_kept upstream (Build_SocketAddr (V4 0x0A000002) 33000)
    (Build_SocketAddr (V4 0) 25565) (Some 1%nat) 60 [16; 0; 1; 2]
    (match encode_proxy_protocol_v2 upstream with
     | Ok h => [take 5 h; drop 5 h ++ [16; 0]; [1; 2]] | Err _ => [] end) []) as (header&Hh&Hc).
  - by apply (bool_decide_unpack _).
  - done.
  - lia.
  - by apply (bool_decide_unpack _); vm_compute.
  - destruct Hc as (conn&Ha&Hip&Hport&_&Hrest).
    { rewrite Hh. cbn [concat]. rewrite app_nil_r, <- !app_assoc, app_assoc, take_drop. done. }
    exists conn. by rewrite Ha, Hip, Hport, Hrest.
Defined.

Lemma accept_retries_transient_witness :
  ∃ r, accept false (Build_SocketAddr (V4 0) 25565) None 0
      (replicate 7 (AcceptError (OtherIo "Uncategorized") (Some 24)) ++
        [Incoming [] (Build_SocketAddr (V4 1) 1)]) =
    Some (r, [100; 200; 400; 800; 1600; 3200; 5000], []).
Proof.
  destruct (accept_retries_transient (replicate 7 (AcceptError (OtherIo "Uncategorized") (Some 24))) false
    (Build_SocketAddr (V4 0) 25565) (Build_SocketAddr (V4 1) 1) None 0 [] []) as (r&_&Hr); [done|by repeat constructor|].
  by exists r.
Defined.
