(* ===== verification/Address.v ===== *)
(** * Address: the text of socket addresses and of backend addresses

    [types/address.rs]: [ServerAddress] is read from ["host:port"] or ["host"] and written
    back when a configuration is saved.  Reading tries [SocketAddr] of the standard library
    first, so its parser and the [Display] of [IpAddr] are modelled too. *)
From S2P Require Import Prelude Wire Utf8 VarInt Codec Version Packet Json Config Transport.

(** ** The parser of [core::net]

    A reader takes the text that is left and gives a value and what follows it. *)

Definition to_digit (radix c : Z) : option Z :=
  let d := if decide (48 ≤ c ≤ 57) then c - 48
           else if decide (97 ≤ c ≤ 122) then c - 87 else if decide (65 ≤ c ≤ 90) then c - 55 else radix in
  if decide (d < radix) then Some d else None.

(** The digits at the start of the text. *)
Fixpoint read_digits (radix : Z) (s : rstring) : list Z * rstring :=
  match s with
  | [] => ([], [])
  | c :: s' =>
    match to_digit radix c with
    | Some d => let '(ds, rest) := read_digits radix s' in (d :: ds, rest)
    | None => ([], s)
    end
  end.

Definition digits_value (radix : Z) (ds : list Z) : Z := foldl (λ n d, n * radix + d) 0 ds.

(** [read_number] into a type that holds the numbers below [bound]. *)
Definition read_number (radix : Z) (max_digits : option nat) (allow_zero_prefix : bool) (bound : Z) (s : rstring)
    : option (Z * rstring) :=
  let '(ds, rest) := read_digits radix s in
  if decide (ds = []) then None
  else if match max_digits with Some m => bool_decide (m < length ds)%nat | None => false end then None
  else if negb allow_zero_prefix && bool_decide (head ds = Some 0) && bool_decide (1 < length ds)%nat then None
  else let n := digits_value radix ds in if decide (n < bound) then Some (n, rest) else None.

Definition read_given_char (c : Z) (s : rstring) : option rstring :=
  match s with x :: s' => if decide (x = c) then Some s' else None | [] => None end.

Definition read_octet : rstring → option (Z * rstring) := read_number 10 (Some 3%nat) false 256.

Definition read_ipv4_addr (s : rstring) : option (list Z * rstring) :=
  '(a, s) ← read_octet s; s ← read_given_char 46 s;
  '(b, s) ← read_octet s; s ← read_given_char 46 s;
  '(c, s) ← read_octet s; s ← read_given_char 46 s;
  '(d, s) ← read_octet s;
  Some ([a; b; c; d], s).

(** [read_separator]: no separator before the first of a list. *)
Definition read_separator {A} (sep : Z) (first : bool) (inner : rstring → option A) (s : rstring) : option A :=
  if first then inner s else s ← read_given_char sep s; inner s.

(** [read_groups]: at most [n] groups, and whether the last two are a dotted address. *)
Fixpoint read_groups (n : nat) (first : bool) (s : rstring) : list Z * bool * rstring :=
  match n with
  | 0%nat => ([], false, s)
  | S n' =>
    match (if decide (n' = 0%nat) then None else read_separator 58 first read_ipv4_addr s) with
    | Some (octets, rest) =>
      ([from_be_bytes (take 2 octets); from_be_bytes (drop 2 octets)], true, rest)
    | None =>
      match read_separator 58 first (read_number 16 (Some 4%nat) true 65536) s with
      | Some (g, rest) => let '(gs, v4, rest) := read_groups n' false rest in (g :: gs, v4, rest)
      | None => ([], false, s)
      end
    end
  end.

Definition read_ipv6_addr (s : rstring) : option (list Z * rstring) :=
  let '(head, head_ipv4, s) := read_groups 8 true s in
  if decide (length head = 8%nat) then Some (head, s)
  else if head_ipv4 then None
  else
    s ← read_given_char 58 s; s ← read_given_char 58 s;
    let '(tail, _, s) := read_groups (7 - length head) true s in
    Some (head ++ replicate (8 - length head - length tail) 0 ++ tail, s).

(** The numbers of an address, the most significant first. *)
Definition of_groups (width : Z) (gs : list Z) : Z := foldl (λ n g, n * 2 ^ width + g) 0 gs.

Definition read_port (s : rstring) : option (Z * rstring) :=
  s ← read_given_char 58 s; read_number 10 None true 65536 s.

Definition read_socket_addr_v4 (s : rstring) : option (SocketAddr * rstring) :=
  '(octets, s) ← read_ipv4_addr s;
  '(port, s) ← read_port s;
  Some (Build_SocketAddr (V4 (of_groups 8 octets)) port, s).

(** The scope of an address is read and, [sock.ip()] being all that is used, forgotten. *)
Definition skip_scope_id (s : rstring) : rstring :=
  match (s ← read_given_char 37 s; read_number 10 None true (2 ^ 32) s) with Some (_, rest) => rest | None => s end.

Definition read_socket_addr_v6 (s : rstring) : option (SocketAddr * rstring) :=
  s ← read_given_char 91 s;
  '(groups, s) ← read_ipv6_addr s;
  s ← read_given_char 93 (skip_scope_id s);
  '(port, s) ← read_port s;
  Some (Build_SocketAddr (V6 (of_groups 16 groups)) port, s).

(** [str::parse::<SocketAddr>]: nothing may be left. *)
Definition socket_addr_from_str (s : rstring) : option SocketAddr :=
  '(addr, rest) ← match read_socket_addr_v4 s with Some r => Some r | None => read_socket_addr_v6 s end;
  if decide (rest = []) then Some addr else None.

(** [str::parse::<IpAddr>]. *)
Definition ip_addr_from_str (s : rstring) : option SockIp :=
  match read_ipv4_addr s with
  | Some (octets, []) => Some (V4 (of_groups 8 octets))
  | _ => '(groups, rest) ← read_ipv6_addr s; if decide (rest = []) then Some (V6 (of_groups 16 groups)) else None
  end.

Definition is_loopback (ip : SockIp) : bool :=
  match ip with V4 a => bool_decide (a / 2 ^ 24 = 127) | V6 a => bool_decide (a = 1) end.

(** ** The text of an address *)

Fixpoint join_with (sep : rstring) (parts : list rstring) : rstring :=
  match parts with [] => [] | [p] => p | p :: parts => p ++ sep ++ join_with sep parts end.

Definition v4_text (octets : list Z) : rstring := join_with (str ".") ((λ o, str (pretty o)) <$> octets).

(** [{:x}] of a group. *)
Definition hex_char (d : Z) : Z := if decide (d < 10) then 48 + d else 87 + d.
Definition hex_group (g : Z) : rstring :=
  let ds := [g / 4096; (g / 256) mod 16; (g / 16) mod 16; g mod 16] in
  hex_char <$> (if decide (g < 16) then drop 3 ds else if decide (g < 256) then drop 2 ds
                else if decide (g < 4096) then drop 1 ds else ds).

(** The first longest run of zeros: its start and its length. *)
Fixpoint zero_span (i start len best_start best_len : nat) (gs : list Z) : nat * nat :=
  match gs with
  | [] => (best_start, best_len)
  | g :: gs =>
    if decide (g = 0) then
      let start := if decide (len = 0%nat) then i else start in
      let len := S len in
      if decide (best_len < len)%nat then zero_span (S i) start len start len gs
      else zero_span (S i) start len best_start best_len gs
    else zero_span (S i) 0 0 best_start best_len gs
  end.

Definition v6_text (gs : list Z) : rstring :=
  let sub gs := join_with (str ":") (hex_group <$> gs) in
  let '(start, len) := zero_span 0 0 0 0 0 gs in
  if decide (1 < len)%nat then sub (take start gs) ++ str "::" ++ sub (drop (start + len) gs) else sub gs.

Definition octets_of (a : Z) : list Z := (λ i, (a / 2 ^ (8 * i)) mod 256) <$> [3; 2; 1; 0].
Definition groups_of (a : Z) : list Z := (λ i, (a / 2 ^ (16 * i)) mod 65536) <$> [7; 6; 5; 4; 3; 2; 1; 0].

(** [IpAddr::to_string]. *)
Definition ip_to_string (ip : SockIp) : rstring :=
  match ip with
  | V4 a => v4_text (octets_of a)
  | V6 a =>
    match to_ipv4_mapped a with
    | Some v4 => str "::ffff:" ++ v4_text (octets_of v4)
    | None => v6_text (groups_of a)
    end
  end.

(** ** Backend addresses *)

(** [str::rsplit_once]. *)
Fixpoint rsplit_once (c : Z) (s : rstring) : option (rstring * rstring) :=
  match s with
  | [] => None
  | x :: s =>
    match rsplit_once c s with
    | Some (a, b) => Some (x :: a, b)
    | None => if decide (x = c) then Some ([], s) else None
    end
  end.

(** [str::parse::<u16>]. *)
Definition parse_u16 (s : rstring) : option Z :=
  let digits := match s with c :: s' => if decide (c = 43) then s' else s | [] => [] end in
  if decide (digits = []) then None
  else n ← parse_digits 0 digits; if decide (n < 65536) then Some n else None.

Definition ServerAddress_from_str (s : rstring) : result ConfigError ServerAddress :=
  match socket_addr_from_str s with
  | Some sock => Ok (Build_ServerAddress (ip_to_string (sa_ip sock)) (sa_port sock))
  | None =>
    match ('(host, port_str) ← rsplit_once 58 s; port ← parse_u16 port_str; Some (host, port)) with
    | Some (host, port) => Ok (Build_ServerAddress host port)
    | None => if decide (s = []) then Err (InvalidAddress s) else Ok (Build_ServerAddress s DEFAULT_MC_PORT)
    end
  end.

Definition ServerAddress_fmt (a : ServerAddress) : rstring :=
  addr_host a ++ str ":" ++ str (pretty (addr_port a)).

Example addresses_read :
  ServerAddress_from_str <$> [str "10.0.0.1:25566"; str "[::1]:25565"; str "[2001:DB8::0:1%3]:80"; str "mc.example.com";
    str "mc:+80"; str "a:b:99999"; str "[::FFFF:1.2.3.4]:7"; str "01.2.3.4:5"; str "[1:2:3:4:5:6:7:8]:9"; []] =
  [Ok (Build_ServerAddress (str "10.0.0.1") 25566); Ok (Build_ServerAddress (str "::1") 25565);
   Ok (Build_ServerAddress (str "2001:db8::1") 80); Ok (Build_ServerAddress (str "mc.example.com") 25565);
   Ok (Build_ServerAddress (str "mc") 80); Ok (Build_ServerAddress (str "a:b:99999") 25565);
   Ok (Build_ServerAddress (str "::ffff:1.2.3.4") 7); Ok (Build_ServerAddress (str "01.2.3.4") 5);
   Ok (Build_ServerAddress (str "1:2:3:4:5:6:7:8") 9); Err (InvalidAddress [])].
Proof. by vm_compute. Qed.

(** ** Reading back what was written *)

Lemma rsplit_once_none c b : c ∉ b → rsplit_once c b = None.
Proof.
  induction b as [|x b IH]; [done|]. intros [Hx Hb]%not_elem_of_cons. cbn [rsplit_once]. rewrite IH by done.
  by rewrite decide_False.
Qed.
Lemma rsplit_once_middle c a b : c ∉ b → rsplit_once c (a ++ [c] ++ b) = Some (a, b).
Proof.
  intros Hb. induction a as [|x a IH]; cbn [app rsplit_once]; [by rewrite rsplit_once_none, decide_True|].
  change (c :: b) with ([c] ++ b). by rewrite IH.
Qed.


(** A number without a leading zero is its text. *)
Lemma octet_text ds :
  Forall (λ d, 0 ≤ d < 10) ds → ds ≠ [] → (length ds ≤ 3)%nat → (head ds = Some 0 → length ds = 1%nat) →
  str (pretty (digits_value 10 ds)) = (λ d, 48 + d) <$> ds.
Proof.
  assert (Hall : ∀ a b c, 0 ≤ a < 10 → 0 ≤ b < 10 → 0 ≤ c < 10 →
    str (pretty (digits_value 10 [a])) = [48 + a] ∧
    (a ≠ 0 → str (pretty (digits_value 10 [a; b])) = [48 + a; 48 + b]) ∧
    (a ≠ 0 → str (pretty (digits_value 10 [a; b; c])) = [48 + a; 48 + b; 48 + c])).
  { intros a b c Ha Hb Hc.
    assert (Hf : Forall (λ a, Forall (λ b, Forall (λ c, str (pretty (digits_value 10 [a])) = [48 + a] ∧
      (a ≠ 0 → str (pretty (digits_value 10 [a; b])) = [48 + a; 48 + b]) ∧
      (a ≠ 0 → str (pretty (digits_value 10 [a; b; c])) = [48 + a; 48 + b; 48 + c]))
      (seqZ 0 10)) (seqZ 0 10)) (seqZ 0 10)) by (apply (bool_decide_unpack _); by vm_compute).
    rewrite Forall_forall in Hf. specialize (Hf a). rewrite Forall_forall in Hf.
    specialize (Hf ltac:(apply elem_of_seqZ; lia) b). rewrite Forall_forall in Hf.
    apply Hf; apply elem_of_seqZ; lia. }
  intros Hd Hne Hl Hz. destruct ds as [|a [|b [|c [|d ds]]]]; try (done || cbn in Hl; lia);
    repeat (apply Forall_cons in Hd as [? Hd]); cbn in Hz.
  - by apply (Hall a a a).
  - apply (Hall a b a); [done..|]. intros ->. by specialize (Hz eq_refl).
  - apply (Hall a b c); [done..|]. intros ->. by specialize (Hz eq_refl).
Qed.

Lemma to_digit_10 c d : to_digit 10 c = Some d → c = 48 + d ∧ 0 ≤ d < 10.
Proof. unfold to_digit. repeat case_decide; intros; simplify_eq; lia. Qed.

Lemma read_digits_10 s ds rest :
  read_digits 10 s = (ds, rest) → s = ((λ d, 48 + d) <$> ds) ++ rest ∧ Forall (λ d, 0 ≤ d < 10) ds.
Proof.
  revert ds rest. induction s as [|c s IH]; intros ds rest; cbn [read_digits]; [by intros [= <- <-]|].
  destruct (to_digit 10 c) as [d|] eqn:Hd; [|by intros [= <- <-]].
  apply to_digit_10 in Hd as [-> Hd]. destruct (read_digits 10 s) as [ds' rest']. intros [= <- <-].
  destruct (IH _ _ eq_refl) as [-> Hds]. by split; [|constructor].
Qed.

Lemma digits_value_nonneg ds : Forall (λ d, 0 ≤ d < 10) ds → 0 ≤ digits_value 10 ds.
Proof.
  unfold digits_value. intros Hd. enough (∀ acc, 0 ≤ acc → 0 ≤ foldl (λ n d, n * 10 + d) acc ds) by (by apply H).
  induction Hd as [|d ds Hd _ IH]; intros acc Hacc; cbn [foldl]; [done|]. apply IH. lia.
Qed.

Lemma parse_digits_bound acc s n : parse_digits acc s = Some n → 0 ≤ acc → 0 ≤ n.
Proof.
  revert acc. induction s as [|c s IH]; intros acc; cbn; [by intros [= ->]|]. case_decide; [|done].
  intros Hs Hacc. eapply IH; [done|lia].
Qed.

Lemma read_octet_text s n rest : read_octet s = Some (n, rest) → s = str (pretty n) ++ rest ∧ 0 ≤ n < 256.
Proof.
  unfold read_octet, read_number. destruct (read_digits 10 s) as [ds r] eqn:Hr.
  apply read_digits_10 in Hr as [-> Hds]. case_decide as Hne; [done|]. case_bool_decide as Hl; [done|]. cbn [negb andb].
  destruct (bool_decide (head ds = Some 0) && bool_decide (1 < length ds)%nat) eqn:Hz; [done|].
  destruct (decide (digits_value 10 ds < 256)) as [Hb|]; [|discriminate]. intros [= <- <-]. split.
  - rewrite octet_text; [done..|lia|]. intros Hh. rewrite bool_decide_true in Hz by done. cbn in Hz.
    apply bool_decide_eq_false in Hz. destruct ds; [done|]. cbn in *. lia.
  - split; [by apply digits_value_nonneg|done].
Qed.

Lemma read_given_char_Some c s rest : read_given_char c s = Some rest → s = c :: rest.
Proof. destruct s as [|x s]; [done|]. cbn. case_decide; [|done]. by intros [= ->]; subst. Qed.

Lemma read_ipv4_text s octets rest :
  read_ipv4_addr s = Some (octets, rest) →
  s = v4_text octets ++ rest ∧ length octets = 4%nat ∧ is_bytes octets.
Proof.
  unfold read_ipv4_addr.
  destruct (read_octet s) as [[a sa]|] eqn:Ha; [|done]. cbv [mbind option_bind].
  destruct (read_given_char 46 sa) as [s1|] eqn:H1; [|done]. destruct (read_octet s1) as [[b sb]|] eqn:Hb; [|done].
  destruct (read_given_char 46 sb) as [s2|] eqn:H2; [|done]. destruct (read_octet s2) as [[c sc]|] eqn:Hc; [|done].
  destruct (read_given_char 46 sc) as [s3|] eqn:H3; [|done]. destruct (read_octet s3) as [[d sd]|] eqn:Hd; [|done].
  intros [= <- <-].
  apply read_octet_text in Ha as [-> ?], Hb as [-> ?], Hc as [-> ?], Hd as [-> ?].
  apply read_given_char_Some in H1 as ->, H2 as ->, H3 as ->.
  split_and!; [|done|by repeat (constructor; try done)].
  unfold v4_text. cbn [fmap list_fmap join_with]. by rewrite <- !app_assoc.
Qed.

Lemma octets_of_groups octets : length octets = 4%nat → is_bytes octets → octets_of (of_groups 8 octets) = octets.
Proof.
  intros Hl Hb. destruct octets as [|a [|b [|c [|d [|]]]]]; try done.
  repeat (apply Forall_cons in Hb as [? Hb]). unfold is_byte in *. unfold octets_of, of_groups. cbn [foldl fmap list_fmap].
  change (2 ^ 8) with 256. change (2 ^ (8 * 3)) with 16777216. change (2 ^ (8 * 2)) with 65536.
  change (2 ^ (8 * 1)) with 256. change (2 ^ (8 * 0)) with 1.
  repeat (apply (f_equal2 cons); [Z.to_euclidean_division_equations; lia|]). done.
Qed.

(** The text of a port: digits that have its value. *)
Lemma port_digits port :
  in_u 16 port → Forall is_digit (str (pretty port)) ∧ str (pretty port) ≠ [] ∧
    parse_digits 0 (str (pretty port)) = Some port.
Proof.
  intros Hp. assert (pretty port = pretty (Z.to_N port)) as -> by by destruct port; [..|unfold in_u in Hp; lia].
  destruct (pretty_N_digits (Z.to_N port)) as [Hd Hne]. rewrite parse_digits_pretty. split_and!; [done..|].
  f_equal. unfold in_u in Hp. lia.
Qed.

Lemma digits_value_parse ds :
  Forall (λ d, 0 ≤ d < 10) ds → parse_digits 0 ((λ d, 48 + d) <$> ds) = Some (digits_value 10 ds).
Proof.
  unfold digits_value. intros Hd.
  enough (∀ acc, parse_digits acc ((λ d, 48 + d) <$> ds) = Some (foldl (λ n d, n * 10 + d) acc ds)) by done.
  induction Hd as [|d ds Hd _ IH]; intros acc; [done|]. cbn [fmap list_fmap parse_digits foldl].
  rewrite decide_True by lia. rewrite <- IH. f_equal. lia.
Qed.

(** What [SocketAddr] reads from a text that does not start with a bracket is its host and
    its port. *)
Lemma read_v4_socket host port sock :
  head host ≠ Some 91 → in_u 16 port → socket_addr_from_str (host ++ [58] ++ str (pretty port)) = Some sock →
  ip_to_string (sa_ip sock) = host ∧ sa_port sock = port.
Proof.
  intros Hh Hp. unfold socket_addr_from_str. set (text := host ++ _).
  assert (Hv6 : read_socket_addr_v6 text = None).
  { unfold read_socket_addr_v6. destruct (read_given_char 91 text) as [r|] eqn:Hr; [|done].
    apply read_given_char_Some in Hr. subst text. destruct host; [done|]. by injection Hr as -> _. }
  rewrite Hv6. unfold read_socket_addr_v4, read_port. destruct (read_ipv4_addr text) as [[octets s]|] eqn:Hv4; [|done].
  apply read_ipv4_text in Hv4 as (Htext&Hl&Hb). cbv [mbind option_bind].
  destruct (read_given_char 58 s) as [s'|] eqn:Hc; [|done]. apply read_given_char_Some in Hc as ->.
  unfold read_number. destruct (read_digits 10 s') as [ds rest] eqn:Hd. apply read_digits_10 in Hd as [-> Hd].
  case_decide as Hne; [done|]. cbn [negb andb]. destruct (decide (digits_value 10 ds < 65536)) as [Hlt|]; [|discriminate].
  case_decide as Hrest; [|done]. subst rest. rewrite app_nil_r in Htext. intros [= <-]. cbn [sa_ip sa_port ip_to_string].
  rewrite octets_of_groups by done.
  destruct (port_digits port Hp) as (Hpd&_&Hpv).
  assert (Hcolon : ∀ ds : list Z, Forall (λ d, 0 ≤ d < 10) ds → 58 ∉ ((λ d, 48 + d) <$> ds)).
  { intros l Hf Hin%list_elem_of_fmap. destruct Hin as (d0&?&Hin). rewrite Forall_forall in Hf. specialize (Hf _ Hin). lia. }
  pose proof (rsplit_once_middle 58 (v4_text octets) _ (Hcolon _ Hd)) as H1.
  cbn [app] in H1. rewrite <- Htext in H1. subst text.
  rewrite rsplit_once_middle in H1 by (intros Hin; rewrite Forall_forall in Hpd; specialize (Hpd _ Hin); unfold is_digit in Hpd; lia).
  injection H1 as -> H2. split; [done|].
  rewrite H2, digits_value_parse in Hpv by done. by injection Hpv.
Qed.

(** ** The text of an IPv4 socket *)

Lemma read_digits_app s rest :
  Forall is_digit s → (∀ c, head rest = Some c → ¬ is_digit c) →
  read_digits 10 (s ++ rest) = ((λ c, c - 48) <$> s, rest).
Proof.
  intros Hs Hrest. induction Hs as [|c s Hc _ IH]; cbn [app read_digits].
  - destruct rest as [|c rest]; [done|]. cbn [read_digits]. specialize (Hrest c eq_refl). unfold is_digit in Hrest.
    destruct (to_digit 10 c) eqn:Hd; [|done]. apply to_digit_10 in Hd. lia.
  - rewrite IH. unfold to_digit, is_digit in *. rewrite (decide_True (P := 48 ≤ c ≤ 57)) by done. cbv zeta.
    by rewrite decide_True by lia.
Qed.

Lemma octet_digits n :
  0 ≤ n < 256 → let ds := (λ c, c - 48) <$> str (pretty n) in
  Forall is_digit (str (pretty n)) ∧ ds ≠ [] ∧ (length ds ≤ 3)%nat ∧
  bool_decide (head ds = Some 0) && bool_decide (1 < length ds)%nat = false ∧ digits_value 10 ds = n.
Proof.
  intros Hn. revert n Hn.
  assert (Hf : Forall (λ n, let ds := (λ c, c - 48) <$> str (pretty n) in
    Forall (λ c, 48 ≤ c ≤ 57) (str (pretty n)) ∧ ds ≠ [] ∧ (length ds ≤ 3)%nat ∧
    bool_decide (head ds = Some 0) && bool_decide (1 < length ds)%nat = false ∧ digits_value 10 ds = n) (seqZ 0 256))
    by (cbv zeta; apply (bool_decide_unpack _); by vm_compute).
  intros n Hn. rewrite Forall_forall in Hf. apply Hf, elem_of_seqZ. lia.
Qed.

Lemma read_octet_pretty n rest :
  0 ≤ n < 256 → (∀ c, head rest = Some c → ¬ is_digit c) → read_octet (str (pretty n) ++ rest) = Some (n, rest).
Proof.
  intros Hn Hrest. destruct (octet_digits n Hn) as (Hd&Hne&Hl&Hz&Hv). unfold read_octet, read_number.
  rewrite read_digits_app by done. rewrite decide_False by done. rewrite bool_decide_false by lia. cbn [negb andb].
  rewrite Hz, Hv, decide_True by lia. done.
Qed.

Lemma read_ipv4_v4_text octets rest :
  length octets = 4%nat → is_bytes octets → (∀ c, head rest = Some c → ¬ is_digit c) →
  read_ipv4_addr (v4_text octets ++ rest) = Some (octets, rest).
Proof.
  intros Hl Hb Hrest. destruct octets as [|a [|b [|c [|d [|]]]]]; try done.
  repeat (apply Forall_cons in Hb as [? Hb]). unfold is_byte in *.
  assert (Hdot : ∀ s c, head (str "." ++ s) = Some c → ¬ is_digit c) by (intros s c0 [= <-]; unfold is_digit; lia).
  unfold v4_text, read_ipv4_addr. cbn [fmap list_fmap join_with]. rewrite <- !app_assoc.
  do 3 (rewrite read_octet_pretty by (done || apply Hdot); cbv [mbind option_bind]; cbn [str app]; 
        change (str "." ++ ?s) with (46 :: s); cbn [read_given_char]; rewrite decide_True by done).
  by rewrite read_octet_pretty by done.
Qed.

Lemma of_groups_octets a : in_u 32 a → of_groups 8 (octets_of a) = a ∧ is_bytes (octets_of a).
Proof.
  unfold in_u. intros Ha. unfold of_groups, octets_of, is_bytes, is_byte. cbn [fmap list_fmap foldl].
  change (2 ^ 8) with 256. change (2 ^ (8 * 3)) with 16777216. change (2 ^ (8 * 2)) with 65536.
  change (2 ^ (8 * 1)) with 256. change (2 ^ (8 * 0)) with 1. change (2 ^ 32) with 4294967296 in Ha. split.
  - Z.to_euclidean_division_equations; lia.
  - repeat constructor; apply Z.mod_pos_bound; lia.
Qed.

(** The text of an IPv4 socket is read back as that socket. *)
Lemma socket_v4_text a port :
  in_u 32 a → in_u 16 port →
  socket_addr_from_str (ip_to_string (V4 a) ++ str ":" ++ str (pretty port)) = Some (Build_SocketAddr (V4 a) port).
Proof.
  intros Ha Hp. destruct (of_groups_octets a Ha) as [Hg Hb]. destruct (port_digits port Hp) as (Hd&Hne&Hv).
  unfold socket_addr_from_str, read_socket_addr_v4. cbn [ip_to_string].
  rewrite read_ipv4_v4_text; [|done|done|by intros c [= <-]; unfold is_digit; lia].
  cbv [mbind option_bind]. rewrite Hg. unfold read_port. change (str ":" ++ ?s) with (58 :: s).
  cbn [read_given_char]. rewrite decide_True by done. cbv [mbind option_bind]. unfold read_number.
  rewrite <- (app_nil_r (str (pretty port))), read_digits_app by done. rewrite decide_False by (intros E%fmap_nil_inv; done).
  cbn [negb andb].
  assert (digits_value 10 ((λ c, c - 48) <$> str (pretty port)) = port) as ->.
  { apply (inj Some). rewrite <- Hv, <- digits_value_parse.
    - f_equal. rewrite <- list_fmap_compose. rewrite <- (list_fmap_id (str (pretty port))) at 2.
      apply list_fmap_ext. intros i c Hc. cbn. lia.
    - apply Forall_fmap. eapply Forall_impl; [exact Hd|]. intros c Hc. unfold is_digit in Hc. cbn. lia. }
  unfold in_u in Hp. change (2 ^ 16) with 65536 in Hp. by rewrite decide_True by lia.
Qed.

(** A backend address that is written to a file is read back from it, whatever its host
    looks like, unless it starts with a bracket. *)
Lemma server_address_back (a : ServerAddress) :
  head (addr_host a) ≠ Some 91 → in_u 16 (addr_port a) → ServerAddress_from_str (ServerAddress_fmt a) = Ok a.
Proof.
  destruct a as [host port]. unfold ServerAddress_fmt, ServerAddress_from_str. cbn [addr_host addr_port].
  change (str ":") with [58]. intros Hh Hp.
  destruct (socket_addr_from_str _) as [sock|] eqn:Hs; [by destruct (read_v4_socket _ _ _ Hh Hp Hs) as [-> ->]|].
  destruct (port_digits port Hp) as (Hd&Hne&Hv). rewrite rsplit_once_middle.
  - cbv [mbind option_bind]. unfold parse_u16. destruct (str (pretty port)) as [|c s]; [done|].
    apply Forall_cons in Hd as [Hc _]. unfold is_digit in Hc. rewrite (decide_False (P := c = 43)) by lia.
    rewrite decide_False by done. rewrite Hv. cbv [mbind option_bind]. by rewrite decide_True by apply Hp.
  - intros Hin. rewrite Forall_forall in Hd. specialize (Hd _ Hin). unfold is_digit in Hd. lia.
Qed.

(** The port of an address that was read fits in 16 bits. *)
Lemma from_str_port s a : ServerAddress_from_str s = Ok a → in_u 16 (addr_port a).
Proof.
  unfold in_u. change (2 ^ 16) with 65536. unfold ServerAddress_from_str. destruct (socket_addr_from_str s) as [sock|] eqn:Hs.
  - intros [= <-]. cbn [addr_port]. revert Hs. unfold socket_addr_from_str.
    destruct (match read_socket_addr_v4 s with Some _ => _ | None => _ end) as [[addr rest]|] eqn:Hr; [|done].
    cbv [mbind option_bind]. case_decide; [|done]. intros [= ->].
    assert (Hport : ∀ s p rest, read_port s = Some (p, rest) → 0 ≤ p < 65536).
    { intros s0 p r. unfold read_port. destruct (read_given_char 58 s0) as [s1|]; [|done]. cbv [mbind option_bind].
      unfold read_number. destruct (read_digits 10 s1) as [ds r'] eqn:Hd. apply read_digits_10 in Hd as [_ Hd].
      case_decide; [done|]. cbn [negb andb]. destruct (decide (digits_value 10 ds < 65536)); [|discriminate].
      intros [= <- _]. pose proof (digits_value_nonneg ds Hd). lia. }
    destruct (read_socket_addr_v4 s) as [r4|] eqn:H4.
    + injection Hr as ->. revert H4. unfold read_socket_addr_v4. destruct (read_ipv4_addr s) as [[o s1]|]; [|done].
      cbv [mbind option_bind]. destruct (read_port s1) as [[p r]|] eqn:Hp; [|done]. intros [= <- _]. by eapply Hport.
    + revert Hr. unfold read_socket_addr_v6. destruct (read_given_char 91 s) as [s1|]; [|done]. cbv [mbind option_bind].
      destruct (read_ipv6_addr s1) as [[g s2]|]; [|done]. destruct (read_given_char 93 _) as [s3|]; [|done].
      destruct (read_port s3) as [[p r]|] eqn:Hp; [|done]. intros [= <- _]. by eapply Hport.
  - destruct (rsplit_once 58 s) as [[h p]|]; cbv [mbind option_bind].
    + unfold parse_u16. set (digits := match p with [] => _ | _ => _ end). case_decide; [case_decide; [done|by intros [= <-]]|].
      destruct (parse_digits 0 digits) as [n|] eqn:Hn; cbv [mbind option_bind]; [|case_decide; [done|by intros [= <-]]].
      apply parse_digits_bound in Hn; [|done]. case_decide; [intros [= <-]; cbn; lia|]. case_decide; [done|by intros [= <-]].
    + case_decide; [done|by intros [= <-]].
Qed.

(** A bracketed address without a port keeps its brackets, and loses them when it is saved. *)
Lemma bracketed_host_changes :
  ServerAddress_from_str (str "[::1]") = Ok (Build_ServerAddress (str "[::1]") 25565) ∧
  ServerAddress_from_str (ServerAddress_fmt (Build_ServerAddress (str "[::1]") 25565)) =
    Ok (Build_ServerAddress (str "::1") 25565).
Proof. by vm_compute. Qed.
