(* ===== verification/Provider.v ===== *)
(** * Provider: server files and the events their changes give

    [provider/file.rs]: [load_server_config], the initial load of the servers
    directory, and [compute_diff], which compares the directory with the map of
    known configurations and emits the events that bring the router up to date.

    A directory listing is a list of file names, each with the text of the file if
    it can be read; names are text.  The TOML parser is a parameter.  The theorem
    [compute_diff_syncs] composes the diff with the event loop and the router. *)
From S2P Require Import Prelude Utf8 Version Packet Config Router.

Section provider.
Context `{IPN : IpNets} `{LC : Lowercase}.

(** The [toml] crate, with the [serde] attributes of [ServerConfig]. *)
Class TomlParser := parse_toml : rstring → option ServerConfig.
Context `{TP : TomlParser}.

(** ** File names *)

(** [rsplit_once] at the last dot. *)
Fixpoint rsplit_dot (s : rstring) : option (rstring * rstring) :=
  match s with
  | [] => None
  | c :: s' =>
    match rsplit_dot s' with
    | Some (a, b) => Some (c :: a, b)
    | None => if decide (c = 46) then Some ([], s') else None
    end
  end.

(** [Path::extension] and [Path::file_stem] of a file name: a name that starts with
    its only dot has no extension. *)
Definition extension (name : rstring) : option rstring :=
  if decide (name = str "..") then None else
  match rsplit_dot name with
  | Some (before, after) => if decide (before = []) then None else Some after
  | None => None
  end.
Definition file_stem (name : rstring) : rstring :=
  if decide (name = str "..") then name else
  match rsplit_dot name with
  | Some (before, _) => if decide (before = []) then name else before
  | None => name
  end.

(** ** Loading *)

Abbreviation listing := (list (rstring * option rstring)) (only parsing).

Definition is_toml (name : rstring) : bool := bool_decide (extension name = Some (str "toml")).

Definition with_id (id : option rstring) (c : ServerConfig) : ServerConfig :=
  Build_ServerConfig id (sc_name c) (sc_network c) (sc_domains c) (sc_addresses c)
    (sc_proxy_mode c) (sc_forwarding_mode c) (sc_send_proxy_protocol c) (sc_domain_rewrite c)
    (sc_motd c) (sc_server_manager c) (sc_timeouts c) (sc_max_players c) (sc_ip_filter c)
    (sc_disconnect_message c) (sc_limbo_handlers c).

Definition load_server_config (name : rstring) (content : option rstring)
    : result ConfigError ServerConfig :=
  content ← match content with Some text => Ok text | None => Err (ReadFile name) end;
  config ← match parse_toml content with Some c => Ok c | None => Err (ParseToml name) end;
  _ ← validate_server_config config;
  Ok (match sc_id config with
      | None => with_id (Some (file_stem name)) config
      | Some _ => config
      end).

(** [do_load_initial]; [None] is a directory that does not exist. *)
Fixpoint load_entries (entries : listing) : list ProviderConfig :=
  match entries with
  | [] => []
  | (name, content) :: entries =>
    if is_toml name then
      match load_server_config name content with
      | Ok config => Build_ProviderConfig (ProviderId_file name) config :: load_entries entries
      | Err _ => load_entries entries
      end
    else load_entries entries
  end.
Definition do_load_initial (dir : option listing) : list ProviderConfig :=
  match dir with Some entries => load_entries entries | None => [] end.

(** ** The difference with what is known *)

Context {KM FM : Type} `{!DashMap rstring ServerConfig KM}
  `{!DashMap rstring (option ServerConfig) FM}.

Definition ok {E A} (r : result E A) : option A := match r with Ok a => Some a | Err _ => None end.

(** The map [do_watch] starts from. *)
Definition initial_known (dir : option listing) : KM :=
  foldl (λ m e,
    if is_toml e.1 then
      match load_server_config e.1 e.2 with Ok c => dm_insert e.1 c m | Err _ => m end
    else m) dm_new (default [] dir).

(** The files of the directory, those that do not load included. *)
Definition current_files (dir : option listing) : FM :=
  foldl (λ m e, if is_toml e.1 then dm_insert e.1 (ok (load_server_config e.1 e.2)) m else m)
    dm_new (default [] dir).

Definition configs_equal (a b : ServerConfig) : bool := bool_decide (a = b).

(** One round of the loop over the current files: an event, perhaps, and the map. *)
Definition diff_entry (known : KM) (name : rstring) (maybe_config : option ServerConfig)
    : list ProviderEvent * KM :=
  match maybe_config with
  | None => ([], known)
  | Some config =>
    match dm_get known name with
    | Some old_config =>
      if configs_equal old_config config then ([], known)
      else ([Updated (Build_ProviderConfig (ProviderId_file name) config)],
            dm_insert name config known)
    | None =>
      ([Added (Build_ProviderConfig (ProviderId_file name) config)], dm_insert name config known)
    end
  end.

Fixpoint diff_current (entries : list (rstring * option ServerConfig)) (known : KM)
    : list ProviderEvent * KM :=
  match entries with
  | [] => ([], known)
  | (name, mc) :: entries =>
    let '(evs, known) := diff_entry known name mc in
    let '(evs', known) := diff_current entries known in
    (evs ++ evs', known)
  end.

Fixpoint diff_removed (names : list rstring) (known : KM) : list ProviderEvent * KM :=
  match names with
  | [] => ([], known)
  | name :: names =>
    let '(evs, known) := diff_removed names (dm_remove name known) in
    (Removed (ProviderId_file name) :: evs, known)
  end.

Definition compute_diff (dir : option listing) (known : KM) : list ProviderEvent * KM :=
  let current := current_files dir in
  let '(evs, known) := diff_current (dm_iter current) known in
  let removed_paths := filter (λ name, dm_get current name = None) (dm_iter known).*1 in
  let '(evs', known) := diff_removed removed_paths known in
  (evs ++ evs', known).

(** ** The diff keeps the router in step *)

Context `{!DashMapLaws rstring ServerConfig KM} `{!DashMapLaws rstring (option ServerConfig) FM}.

(** The router holds, for each file, the known configuration. *)
Definition in_sync (sp : RouterSpec) (known : KM) : Prop :=
  ∀ name, sp_configs sp !! ProviderId_file name = dm_get known name.

(** Events about files only. *)
Definition file_events (evs : list ProviderEvent) : Prop :=
  Forall (λ ev, ∃ name, event_id ev = ProviderId_file name) evs.

(** A step of the provider: its events may be emitted, keep the two in step and
    leave the other providers alone. *)
Definition synced (known : KM) (res : list ProviderEvent * KM) : Prop :=
  file_events res.1 ∧
  ∀ sp, in_sync sp known → all_allowed sp res.1 ∧ in_sync (spec_run res.1 sp) res.2.

Lemma all_allowed_app sp evs evs' :
  all_allowed sp (evs ++ evs') ↔ all_allowed sp evs ∧ all_allowed (spec_run evs sp) evs'.
Proof.
  revert sp. induction evs as [|ev evs IH]; intros sp; simpl; [naive_solver|].
  rewrite IH. unfold spec_run. simpl. naive_solver.
Qed.

Lemma synced_nil known : synced known ([], known).
Proof. split; [constructor|done]. Qed.

Lemma synced_app known evs known1 evs' known2 :
  synced known (evs, known1) → synced known1 (evs', known2) → synced known (evs ++ evs', known2).
Proof.
  intros [Hf Hs] [Hf' Hs']. split; [by apply Forall_app|].
  intros sp Hsp. destruct (Hs sp Hsp) as [Ha Hin]. destruct (Hs' _ Hin) as [Ha' Hin'].
  cbn [fst snd] in *. rewrite all_allowed_app, spec_run_app. done.
Qed.

Lemma file_id_inj name name' : ProviderId_file name = ProviderId_file name' ↔ name = name'.
Proof. unfold ProviderId_file. naive_solver. Qed.

(** Registering a file in the contract and in the known map. *)
Lemma in_sync_insert sp known name c :
  in_sync sp known →
  in_sync (spec_add (ProviderId_file name) c sp) (dm_insert name c known).
Proof.
  intros Hs name'. cbn [spec_add sp_configs]. rewrite dm_get_insert.
  destruct (decide (name = name')) as [<-|Hne]; [apply lookup_insert_eq|].
  rewrite lookup_insert_ne; [done|]. by rewrite file_id_inj.
Qed.

Lemma in_sync_remove sp known name :
  in_sync sp known → in_sync (spec_remove (ProviderId_file name) sp) (dm_remove name known).
Proof.
  intros Hs name'. cbn [spec_remove sp_configs]. rewrite dm_get_remove.
  destruct (decide (name = name')) as [<-|Hne]; [apply lookup_delete_eq|].
  rewrite lookup_delete_ne; [done|]. by rewrite file_id_inj.
Qed.

Lemma diff_entry_synced known name mc : synced known (diff_entry known name mc).
Proof.
  unfold diff_entry. destruct mc as [c|]; [|apply synced_nil].
  destruct (dm_get known name) as [old|] eqn:E; [destruct (configs_equal old c)|].
  - apply synced_nil.
  - split; [repeat constructor; by exists name|]. intros sp Hs. split; [done|].
    intros name'. rewrite <- (in_sync_insert sp known name c Hs). cbn.
    by rewrite insert_delete_eq.
  - split; [repeat constructor; by exists name|]. intros sp Hs. split.
    + split; [|done]. cbn. by rewrite Hs.
    + by apply in_sync_insert.
Qed.

Lemma diff_current_synced entries known : synced known (diff_current entries known).
Proof.
  revert known. induction entries as [|[name mc] entries IH]; intros known; simpl; [apply synced_nil|].
  pose proof (diff_entry_synced known name mc) as He.
  destruct (diff_entry known name mc) as [evs known1]. specialize (IH known1).
  destruct (diff_current entries known1) as [evs' known2]. by apply synced_app with known1.
Qed.

Lemma diff_removed_synced names known : synced known (diff_removed names known).
Proof.
  revert known. induction names as [|name names IH]; intros known; simpl; [apply synced_nil|].
  specialize (IH (dm_remove name known)).
  destruct (diff_removed names (dm_remove name known)) as [evs known'].
  apply (synced_app known [Removed (ProviderId_file name)] (dm_remove name known)); [|done].
  split; [repeat constructor; by exists name|]. intros sp Hs. split; [done|].
  by apply in_sync_remove.
Qed.

(** What becomes known after the first loop: the file's configuration if it loads. *)
Lemma diff_current_known entries known name :
  NoDup entries.*1 →
  dm_get (diff_current entries known).2 name =
    match assoc_get entries name with
    | Some (Some c) => Some c
    | _ => dm_get known name
    end.
Proof.
  revert known. induction entries as [|[name0 mc] entries IH]; intros known Hnd; [done|].
  cbn [fmap list_fmap] in Hnd. apply NoDup_cons in Hnd as [Hn Hnd].
  cbn [diff_current]. destruct (diff_entry known name0 mc) as [evs known1] eqn:E.
  specialize (IH known1 Hnd). destruct (diff_current entries known1) as [evs' known2].
  cbn [snd] in *. rewrite IH. unfold assoc_get at 2. cbn [List.find fst].
  assert (Hk : dm_get known1 name =
    if decide (name0 = name) then match mc with Some c => Some c | None => dm_get known name end
    else dm_get known name).
  { revert E. unfold diff_entry, configs_equal.
    destruct mc as [c|]; [|intros [= <- <-]; by destruct (decide _)].
    destruct (dm_get known name0) as [old|] eqn:Eo; [case_bool_decide|]; intros [= <- <-].
    - subst. destruct (decide _); [congruence|done].
    - by rewrite dm_get_insert.
    - by rewrite dm_get_insert. }
  destruct (decide (name0 = name)) as [->|Hne].
  - rewrite bool_decide_eq_true_2 by done. simpl.
    assert (assoc_get entries name = None) as ->; [|by rewrite Hk; destruct mc].
    destruct (assoc_get entries name) as [v|] eqn:Ea; [|done].
    destruct Hn. apply assoc_get_elem in Ea; [|done]. apply list_elem_of_fmap. by exists (name, v).
  - rewrite bool_decide_eq_false_2 by done. by rewrite Hk.
Qed.

Lemma diff_removed_known names known name :
  dm_get (diff_removed names known).2 name =
    if decide (name ∈ names) then None else dm_get known name.
Proof.
  revert known. induction names as [|name0 names IH]; intros known; cbn [diff_removed].
  { rewrite decide_False; [done|apply not_elem_of_nil]. }
  specialize (IH (dm_remove name0 known)).
  destruct (diff_removed names (dm_remove name0 known)) as [evs known']. cbn [snd] in *.
  rewrite IH, dm_get_remove.
  destruct (decide (name ∈ name0 :: names)) as [Hin|Hin]; rewrite elem_of_cons in Hin;
    destruct (decide (name ∈ names)), (decide (name0 = name)); naive_solver.
Qed.

Lemma dm_iter_assoc {V M} `{DashMapLaws rstring V M} (m : M) name :
  assoc_get (dm_iter m) name = dm_get m name.
Proof.
  apply option_eq. intros v. rewrite <- assoc_get_elem by apply dm_iter_NoDup.
  apply dm_iter_get.
Qed.

(** The listing of a directory, whose names are distinct, as a map. *)
Lemma current_files_get entries name :
  NoDup entries.*1 →
  dm_get (current_files (Some entries)) name =
    if is_toml name then (λ text, ok (load_server_config name text)) <$> assoc_get entries name
    else None.
Proof.
  intros Hnd. unfold current_files, default. cbn [from_option id].
  assert (Hgen : ∀ m : FM, dm_get (foldl (λ m e,
      if is_toml e.1 then dm_insert e.1 (ok (load_server_config e.1 e.2)) m else m) m entries) name =
    match (if is_toml name then assoc_get entries name else None) with
    | Some text => Some (ok (load_server_config name text))
    | None => dm_get m name
    end).
  { induction entries as [|[n text] entries IH]; intros m; cbn [foldl fst snd].
    { by destruct (is_toml name). }
    cbn [fmap list_fmap] in Hnd. apply NoDup_cons in Hnd as [Hn Hnd]. rewrite (IH Hnd).
    unfold assoc_get at 2. cbn [List.find fst].
    destruct (decide (n = name)) as [->|Hne].
    - rewrite bool_decide_eq_true_2 by done. destruct (is_toml name); [|done].
      assert (assoc_get entries name = None) as ->.
      { destruct (assoc_get entries name) as [v|] eqn:Ea; [|done].
        destruct Hn. apply assoc_get_elem in Ea; [|done]. apply list_elem_of_fmap. by exists (name, v). }
      simpl. by rewrite dm_get_insert, decide_True.
    - rewrite bool_decide_eq_false_2 by done. fold (assoc_get entries name).
      destruct (if is_toml name then assoc_get entries name else None); [done|].
      destruct (is_toml n); [|done]. by rewrite dm_get_insert, decide_False. }
  rewrite Hgen, dm_get_new. by destruct (is_toml name), (assoc_get entries name).
Qed.

(** A file that is there: its configuration, or the previous one if it does not
    load; a file that is gone: none. *)
Definition known_after (dir : option listing) (known : KM) (name : rstring) : option ServerConfig :=
  match dm_get (current_files dir) name with
  | Some (Some c) => Some c
  | Some None => dm_get known name
  | None => None
  end.

Lemma compute_diff_known dir known name :
  dm_get (compute_diff dir known).2 name = known_after dir known name.
Proof.
  unfold compute_diff, known_after. set (current := current_files dir).
  pose proof (diff_current_known (dm_iter current) known name (dm_iter_NoDup current)) as Hc.
  destruct (diff_current (dm_iter current) known) as [evs known1]. cbn [snd] in Hc.
  rewrite dm_iter_assoc in Hc.
  set (names := filter _ _).
  pose proof (diff_removed_known names known1 name) as Hr.
  destruct (diff_removed names known1) as [evs' known2]. cbn [snd] in *.
  rewrite Hr. destruct (dm_get current name) as [mc|] eqn:Ec.
  - rewrite decide_False; [by rewrite Hc; destruct mc|].
    unfold names. rewrite list_elem_of_filter. naive_solver.
  - destruct (decide (name ∈ names)) as [|Hn]; [done|]. rewrite Hc.
    destruct (dm_get known name) as [c|] eqn:Ek; [|done]. destruct Hn. unfold names.
    apply list_elem_of_filter. split; [done|]. apply list_elem_of_fmap. exists (name, c).
    split; [done|]. apply dm_iter_get. congruence.
Qed.

Lemma compute_diff_synced dir known : synced known (compute_diff dir known).
Proof.
  unfold compute_diff. pose proof (diff_current_synced (dm_iter (current_files dir)) known) as Hc.
  destruct (diff_current _ known) as [evs known1].
  set (names := filter _ _). pose proof (diff_removed_synced names known1) as Hr.
  destruct (diff_removed names known1) as [evs' known2]. by apply synced_app with known1.
Qed.

Lemma file_events_others evs sp id :
  file_events evs → (∀ name, id ≠ ProviderId_file name) →
  sp_configs (spec_run evs sp) !! id = sp_configs sp !! id.
Proof.
  intros Hf Hid. revert sp. induction Hf as [|ev evs [name Hev] _ IH]; intros sp; [done|].
  cbn [spec_run foldl]. etrans; [apply IH|]. apply spec_event_configs. rewrite Hev.
  intros Heq. by destruct (Hid name).
Qed.

(** The router proper, with its maps. *)
Context `{WM : WildMatch} {CM EM : Type} `{!DashMap ProviderId RouterEntry CM}
  `{!DashMap rstring ProviderId EM} `{!DashMapLaws ProviderId RouterEntry CM}
  `{!DashMapLaws rstring ProviderId EM}.

(** C36: The events of a directory diff, fed through the event loop, keep router and file
    provider in step: each file that loads is registered with its new configuration, one
    that does not load keeps its old one, one that is gone is removed, and the other
    providers are left alone. *)
Theorem compute_diff_syncs (r : DomainRouter) (sp : RouterSpec) (dir : option listing) (known : KM) :
  sim (CM := CM) (EM := EM) r sp →
  (∀ name, re_config <$> dm_get (configs r) (ProviderId_file name) = dm_get known name) →
  let evs := (compute_diff dir known).1 in
  let known' := (compute_diff dir known).2 in
  let r' := event_loop evs r in
  sim r' (spec_run evs sp) ∧
  (∀ name, dm_get known' name = known_after dir known name) ∧
  (∀ name, re_config <$> dm_get (configs r') (ProviderId_file name) = known_after dir known name) ∧
  (∀ id, (∀ name, id ≠ ProviderId_file name) →
    re_config <$> dm_get (configs r') id = re_config <$> dm_get (configs r) id).
Proof.
  intros Hsim Hknown.
  assert (Hcfg : ∀ r sp id, sim (CM := CM) (EM := EM) r sp →
    re_config <$> dm_get (configs r) id = sp_configs sp !! id).
  { intros r0 sp0 id [Hc _ _ _]. rewrite Hc, <- option_fmap_compose. apply option_fmap_id. }
  pose proof (compute_diff_known dir known) as Hk.
  destruct (compute_diff_synced dir known) as [Hf Hs].
  destruct (compute_diff dir known) as [evs known']. cbn [fst snd] in *.
  destruct (Hs sp) as [Hall Hin].
  { intros name. rewrite <- Hknown. symmetry. by apply Hcfg. }
  pose proof (sim_run r sp evs Hall Hsim) as Hsim'.
  split_and!; [done..| |].
  - intros name. rewrite <- Hk, <- Hin. by apply Hcfg.
  - intros id Hid. rewrite (Hcfg _ _ id Hsim'), (Hcfg _ _ id Hsim). by apply file_events_others.
Qed.
End provider.

(** ** A concrete directory *)

#[local] Existing Instance range_nets.
#[local] Existing Instance ascii_lowercase.
#[local] Existing Instance glob_match.

(** A parser for files that hold just a domain. *)
Definition domain_toml : TomlParser := λ text,
  if decide (text = []) then None else
  Some (Build_ServerConfig None None None [text]
    [Build_ServerAddress (str "10.0.0.1") 25565] Passthrough None false RewriteNone
    MotdConfig_default None None 0 None None []).
#[local] Existing Instance domain_toml.

Lemma compute_diff_syncs_witness :
  let r := event_loop [Added survival]
    (router_new : @DomainRouter (assoc_map ProviderId RouterEntry) (assoc_map rstring ProviderId)) in
  let known : assoc_map rstring ServerConfig :=
    dm_insert (str "survival.toml") (pc_config survival) dm_new in
  let dir := Some [(str "a.toml", Some (str "a.example.com")); (str "bad.toml", Some []);
                   (str "notes.txt", Some (str "b.example.com"))] in
  let evs := (compute_diff (FM := assoc_map rstring (option ServerConfig)) dir known).1 in
  (∀ name, re_config <$> dm_get (configs (event_loop evs r)) (ProviderId_file name) =
    known_after (FM := assoc_map rstring (option ServerConfig)) dir known name) ∧
  map event_id evs = [ProviderId_file (str "a.toml"); ProviderId_file (str "survival.toml")] ∧
  resolve (event_loop evs r) (str "play.example.com") = None.
Proof.
  intros r known dir evs. split; [|split; by vm_compute].
  apply (compute_diff_syncs (FM := assoc_map rstring (option ServerConfig)) r
    (spec_run [Added survival] spec_new) dir known).
  - apply sim_run; [|apply sim_new]. split; by vm_compute.
  - intros name. unfold known. rewrite dm_get_insert, dm_get_new.
    replace (configs r) with (dm_insert (pc_id survival)
      (Build_RouterEntry (pc_config survival) (normal_domains (pc_config survival)))
      (dm_new : assoc_map ProviderId RouterEntry)).
    + rewrite dm_get_insert, dm_get_new.
      destruct (decide (str "survival.toml" = name)) as [<-|Hne]; [done|].
      rewrite decide_False; [done|]. intros [=]. by destruct Hne.
    + by vm_compute.
Defined.
