(* ===== verification/Ban.v ===== *)
(** * Ban: who may not connect

    [BanTarget] and [BanEntry] of the API's [ban_service.rs] and the storage of
    [ban/file_storage.rs].  A time is its distance from the Unix epoch in
    nanoseconds; an operation gets the time it runs at ([now]) and what becomes of
    the write it makes to disk ([io]).  The ban file is the value its JSON text
    stands for, with times cut to whole seconds as [epoch_serde] writes them.

    [lookup_ban] is the contract: one entry per target, names compared in lower
    case.  Every operation is an update of that map, and what the storage answers is
    read off it. *)
From S2P Require Import Prelude Wire Utf8 VarInt Codec Frame Version Packet LoginPackets.
From S2P Require Import PlayPackets Commands Registry DefaultRegistry Bridge.
From S2P Require Import Config Router.

Section ban.
Context `{IPN : IpNets} `{LC : Lowercase}.

Inductive BanTarget :=
| BanIp (ip : IpAddr)
| BanUsername (name : rstring)
| BanUuid (uuid : Z).
#[export] Instance BanTarget_eq_dec : EqDecision BanTarget.
Proof. solve_decision. Defined.

Record BanEntry := {
  be_target : BanTarget;
  be_reason : option rstring;
  be_expires_at : option Z;
  be_created_at : Z;
  be_source : rstring }.

Definition BanEntry_new (now : Z) (target : BanTarget) (reason : option rstring)
    (duration : option Duration) (source : rstring) : BanEntry :=
  Build_BanEntry target reason ((λ d, now + d) <$> duration) now source.

Definition is_expired (now : Z) (e : BanEntry) : bool :=
  match be_expires_at e with Some exp => bool_decide (exp ≤ now) | None => false end.

Definition is_permanent (e : BanEntry) : bool := bool_decide (be_expires_at e = None).

(** [duration_since] fails when the expiry has passed. *)
Definition remaining (now : Z) (e : BanEntry) : option Duration :=
  exp ← be_expires_at e; if decide (now ≤ exp) then Some (exp - now) else None.

Definition kick_message (now : Z) (e : BanEntry) : rstring :=
  let reason := default (str "Banned by administrator") (be_reason e) in
  match remaining now e with
  | None => reason ++ [10; 10] ++ str "This ban is permanent."
  | Some d =>
    let secs := d / 1000000000 in
    let hours := secs / 3600 in
    let minutes := secs mod 3600 / 60 in
    if decide (24 < hours) then
      reason ++ [10; 10] ++ str "Expires in " ++ str (pretty (hours / 24)) ++ str " day(s)"
    else if decide (0 < hours) then
      reason ++ [10; 10] ++ str "Expires in " ++ str (pretty hours) ++ str "h " ++
        str (pretty minutes) ++ str "m"
    else reason ++ [10; 10] ++ str "Expires in " ++ str (pretty minutes) ++ str " minute(s)"
  end.

Inductive BanAction := ActBan | ActUnban | ActExpired.

Record BanAuditLogEntry := {
  al_action : BanAction;
  al_target : BanTarget;
  al_reason : option rstring;
  al_source : rstring;
  al_timestamp : Z }.

(** ** The file *)

Record BanFileData := { bf_bans : list BanEntry; bf_audit_log : list BanAuditLogEntry }.

Inductive BanFile := FileMissing | FileCorrupt | FileData (d : BanFileData) | FileUnreadable (e : IoErrorKind).

(** What [epoch_serde] keeps of a time: whole seconds, and nothing before 1970. *)
Definition epoch_secs (t : Z) : Z := Z.max 0 t / 1000000000 * 1000000000.
Definition entry_serde (e : BanEntry) : BanEntry :=
  Build_BanEntry (be_target e) (be_reason e) (epoch_secs <$> be_expires_at e)
    (epoch_secs (be_created_at e)) (be_source e).
Definition audit_serde (a : BanAuditLogEntry) : BanAuditLogEntry :=
  Build_BanAuditLogEntry (al_action a) (al_target a) (al_reason a) (al_source a)
    (epoch_secs (al_timestamp a)).

(** How a write ends: the lock is not got within five seconds, an I/O error, or done. *)
Inductive persist_io := LockTimedOut | WriteFailed (e : IoErrorKind) | Written.

(** ** The storage *)

Context {IM UM VM : Type} `{!DashMap IpAddr BanEntry IM} `{!DashMap rstring BanEntry UM}
  `{!DashMap Z BanEntry VM}.

Record FileBanStorage := {
  ip_bans : IM;
  username_bans : UM;
  uuid_bans : VM;
  audit_log : list BanAuditLogEntry;
  ban_file : BanFile }.

Definition MAX_AUDIT_LOG_ENTRIES : Z := 10000.

Definition storage_new (file : BanFile) : FileBanStorage :=
  Build_FileBanStorage dm_new dm_new dm_new [] file.

Definition with_ips (m : IM) (s : FileBanStorage) : FileBanStorage :=
  Build_FileBanStorage m (username_bans s) (uuid_bans s) (audit_log s) (ban_file s).
Definition with_usernames (m : UM) (s : FileBanStorage) : FileBanStorage :=
  Build_FileBanStorage (ip_bans s) m (uuid_bans s) (audit_log s) (ban_file s).
Definition with_uuids (m : VM) (s : FileBanStorage) : FileBanStorage :=
  Build_FileBanStorage (ip_bans s) (username_bans s) m (audit_log s) (ban_file s).
Definition with_log (l : list BanAuditLogEntry) (s : FileBanStorage) : FileBanStorage :=
  Build_FileBanStorage (ip_bans s) (username_bans s) (uuid_bans s) l (ban_file s).
Definition with_file (f : BanFile) (s : FileBanStorage) : FileBanStorage :=
  Build_FileBanStorage (ip_bans s) (username_bans s) (uuid_bans s) (audit_log s) f.

Definition serialize_all (s : FileBanStorage) : BanFileData :=
  Build_BanFileData
    (entry_serde <$> (dm_iter (ip_bans s)).*2 ++ (dm_iter (username_bans s)).*2 ++
                     (dm_iter (uuid_bans s)).*2)
    (audit_serde <$> audit_log s).

Definition insert_entry (e : BanEntry) (s : FileBanStorage) : FileBanStorage :=
  match be_target e with
  | BanIp ip => with_ips (dm_insert ip e (ip_bans s)) s
  | BanUsername name => with_usernames (dm_insert (to_lowercase name) e (username_bans s)) s
  | BanUuid uuid => with_uuids (dm_insert uuid e (uuid_bans s)) s
  end.

Definition populate_maps (bans : list BanEntry) (s : FileBanStorage) : FileBanStorage :=
  foldl (λ s e, insert_entry e s) s bans.

Definition add_audit_entry (a : BanAuditLogEntry) (s : FileBanStorage) : FileBanStorage :=
  let log := audit_log s ++ [a] in
  if decide (zlen log > MAX_AUDIT_LOG_ENTRIES)
  then with_log (drop (Z.to_nat (zlen log - MAX_AUDIT_LOG_ENTRIES)) log) s
  else with_log log s.

Definition persist (io : persist_io) (s : FileBanStorage) : result CoreError () * FileBanStorage :=
  match io with
  | LockTimedOut => (Ok (), s)
  | WriteFailed e => (Err (CIo e), s)
  | Written => (Ok (), with_file (FileData (serialize_all s)) s)
  end.

(** [load]; [bak] says whether the corrupt file could be moved out of the way. *)
Definition load (bak : bool) (s : FileBanStorage) : result CoreError () * FileBanStorage :=
  match ban_file s with
  | FileData d => (Ok (), with_log (bf_audit_log d) (populate_maps (bf_bans d) s))
  | FileCorrupt => (Ok (), if bak then with_file FileMissing s else s)
  | FileMissing => (Ok (), s)
  | FileUnreadable e => (Err (CIo e), s)
  end.

Definition add_ban (now : Z) (io : persist_io) (e : BanEntry) (s : FileBanStorage)
    : result CoreError () * FileBanStorage :=
  let s := insert_entry e s in
  let s := add_audit_entry
    (Build_BanAuditLogEntry ActBan (be_target e) (be_reason e) (be_source e) now) s in
  persist io s.

(** The entry of a target, and the storage without it. *)
Definition get_entry (t : BanTarget) (s : FileBanStorage) : option BanEntry :=
  match t with
  | BanIp ip => dm_get (ip_bans s) ip
  | BanUsername name => dm_get (username_bans s) (to_lowercase name)
  | BanUuid uuid => dm_get (uuid_bans s) uuid
  end.
Definition remove_entry (t : BanTarget) (s : FileBanStorage) : FileBanStorage :=
  match t with
  | BanIp ip => with_ips (dm_remove ip (ip_bans s)) s
  | BanUsername name => with_usernames (dm_remove (to_lowercase name) (username_bans s)) s
  | BanUuid uuid => with_uuids (dm_remove uuid (uuid_bans s)) s
  end.

Definition remove_ban (now : Z) (io : persist_io) (t : BanTarget) (s : FileBanStorage)
    : result CoreError bool * FileBanStorage :=
  match get_entry t s with
  | None => (Ok false, s)
  | Some _ =>
    let s := remove_entry t s in
    let s := add_audit_entry (Build_BanAuditLogEntry ActUnban t None [] now) s in
    match persist io s with
    | (Ok _, s) => (Ok true, s)
    | (Err e, s) => (Err e, s)
    end
  end.

Definition is_banned (now : Z) (io : persist_io) (t : BanTarget) (s : FileBanStorage)
    : result CoreError (option BanEntry) * FileBanStorage :=
  match get_entry t s with
  | None => (Ok None, s)
  | Some e =>
    if is_expired now e then
      match persist io (remove_entry t s) with
      | (Ok _, s) => (Ok None, s)
      | (Err e, s) => (Err e, s)
      end
    else (Ok (Some e), s)
  end.

(** One of the three tests of [check_player]: the active ban, or what is left after an
    expired one is dropped. *)
Definition check_target (now : Z) (t : BanTarget) (s : FileBanStorage)
    : option BanEntry * FileBanStorage :=
  match get_entry t s with
  | Some e => if is_expired now e then (None, remove_entry t s) else (Some e, s)
  | None => (None, s)
  end.

Definition check_player (now : Z) (ip : IpAddr) (username : rstring) (uuid : option Z)
    (s : FileBanStorage) : result CoreError (option BanEntry) * FileBanStorage :=
  match check_target now (BanIp ip) s with
  | (Some e, s) => (Ok (Some e), s)
  | (None, s) =>
    match check_target now (BanUsername username) s with
    | (Some e, s) => (Ok (Some e), s)
    | (None, s) =>
      match uuid with
      | None => (Ok None, s)
      | Some u => let '(r, s) := check_target now (BanUuid u) s in (Ok r, s)
      end
    end
  end.

Definition get_all_active (now : Z) (s : FileBanStorage) : list BanEntry :=
  filter (λ e, is_expired now e = false)
    ((dm_iter (ip_bans s)).*2 ++ (dm_iter (username_bans s)).*2 ++ (dm_iter (uuid_bans s)).*2).

(** The keys of the expired entries of a map, and the map without them. *)
Definition expired_keys {K M} `{DashMap K BanEntry M} (now : Z) (m : M) : list K :=
  (filter (λ ke, is_expired now ke.2 = true) (dm_iter m)).*1.
Definition remove_keys {K M} `{DashMap K BanEntry M} (ks : list K) (m : M) : M :=
  foldl (λ m k, dm_remove k m) m ks.

Definition purge_expired (now : Z) (io : persist_io) (s : FileBanStorage)
    : result CoreError Z * FileBanStorage :=
  let expired_ips := expired_keys now (ip_bans s) in
  let s := with_ips (remove_keys expired_ips (ip_bans s)) s in
  let expired_usernames := expired_keys now (username_bans s) in
  let s := with_usernames (remove_keys expired_usernames (username_bans s)) s in
  let expired_uuids := expired_keys now (uuid_bans s) in
  let s := with_uuids (remove_keys expired_uuids (uuid_bans s)) s in
  let purged_targets :=
    (BanIp <$> expired_ips) ++ (BanUsername <$> expired_usernames) ++ (BanUuid <$> expired_uuids) in
  let purged := zlen purged_targets in
  if decide (0 < purged) then
    let s := with_log (audit_log s ++
      ((λ t, Build_BanAuditLogEntry ActExpired t None (str "system") now) <$> purged_targets)) s in
    match persist io s with
    | (Ok _, s) => (Ok purged, s)
    | (Err e, s) => (Err e, s)
    end
  else (Ok purged, s).

(** ** The contract: a map from what is banned to the ban *)

Inductive ban_key := KIp (ip : IpAddr) | KName (name : rstring) | KUuid (uuid : Z).
#[export] Instance ban_key_eq_dec : EqDecision ban_key.
Proof. solve_decision. Defined.

Definition target_key (t : BanTarget) : ban_key :=
  match t with
  | BanIp ip => KIp ip
  | BanUsername name => KName (to_lowercase name)
  | BanUuid uuid => KUuid uuid
  end.

Definition lookup_ban (s : FileBanStorage) (k : ban_key) : option BanEntry :=
  match k with
  | KIp ip => dm_get (ip_bans s) ip
  | KName name => dm_get (username_bans s) name
  | KUuid uuid => dm_get (uuid_bans s) uuid
  end.

(** The ban in force on a target. *)
Definition active_ban (now : Z) (s : FileBanStorage) (t : BanTarget) : option BanEntry :=
  e ← lookup_ban s (target_key t); if is_expired now e then None else Some e.

(** Each entry is filed under its own target. *)
Definition well_filed (s : FileBanStorage) : Prop :=
  ∀ k e, lookup_ban s k = Some e → target_key (be_target e) = k.

Context `{!DashMapLaws IpAddr BanEntry IM} `{!DashMapLaws rstring BanEntry UM}
  `{!DashMapLaws Z BanEntry VM}.

Lemma get_entry_lookup t s : get_entry t s = lookup_ban s (target_key t).
Proof. by destruct t. Qed.

Lemma lookup_insert_entry e s k :
  lookup_ban (insert_entry e s) k =
    if decide (k = target_key (be_target e)) then Some e else lookup_ban s k.
Proof.
  unfold insert_entry. destruct (be_target e), k; cbn; rewrite ?dm_get_insert; try done.
  all: repeat case_decide; congruence.
Qed.

Lemma lookup_remove_entry t s k :
  lookup_ban (remove_entry t s) k = if decide (k = target_key t) then None else lookup_ban s k.
Proof.
  destruct t, k; cbn; rewrite ?dm_get_remove; try done. all: repeat case_decide; congruence.
Qed.

Lemma lookup_persist io s k : lookup_ban (persist io s).2 k = lookup_ban s k.
Proof. destruct io, k; done. Qed.

Lemma lookup_with_log l s k : lookup_ban (with_log l s) k = lookup_ban s k.
Proof. by destruct k. Qed.

Lemma lookup_add_audit a s k : lookup_ban (add_audit_entry a s) k = lookup_ban s k.
Proof. unfold add_audit_entry. case_decide; by rewrite lookup_with_log. Qed.

Lemma lookup_new f k : lookup_ban (storage_new f) k = None.
Proof. destruct k; cbn; by rewrite dm_get_new. Qed.

Lemma check_target_spec now t s :
  (check_target now t s).1 = active_ban now s t ∧
  ∀ now' t', now ≤ now' → active_ban now' (check_target now t s).2 t' = active_ban now' s t'.
Proof.
  unfold check_target, active_ban. rewrite get_entry_lookup.
  destruct (lookup_ban s (target_key t)) as [e|] eqn:E; [|done]. cbv [mbind option_bind].
  destruct (is_expired now e) eqn:Ex; [|done]. split; [done|]. intros now' t' Hle. simpl.
  rewrite lookup_remove_entry. destruct (decide _) as [->|]; [|done]. rewrite E.
  assert (is_expired now' e = true) as ->; [|done]. revert Ex. unfold is_expired.
  destruct (be_expires_at e) as [x|]; [|done]. rewrite !bool_decide_eq_true. lia.
Qed.

(** What an operation leaves in the map, whatever becomes of the write. *)
Lemma add_ban_lookup now io e s k :
  lookup_ban (add_ban now io e s).2 k =
    if decide (k = target_key (be_target e)) then Some e else lookup_ban s k.
Proof. unfold add_ban. by rewrite lookup_persist, lookup_add_audit, lookup_insert_entry. Qed.

Lemma remove_ban_lookup now io t s k :
  lookup_ban (remove_ban now io t s).2 k =
    if decide (k = target_key t) then None else lookup_ban s k.
Proof.
  unfold remove_ban. rewrite get_entry_lookup.
  destruct (lookup_ban s (target_key t)) as [e|] eqn:E.
  - set (s' := add_audit_entry _ _).
    transitivity (lookup_ban (persist io s').2 k); [by destruct (persist io s') as [[] ?]|].
    unfold s'. by rewrite lookup_persist, lookup_add_audit, lookup_remove_entry.
  - simpl. destruct (decide _) as [->|]; done.
Qed.

Lemma remove_ban_found now io t s e :
  (∀ err, io ≠ WriteFailed err) → lookup_ban s (target_key t) = Some e → (remove_ban now io t s).1 = Ok true.
Proof.
  intros Hio He. unfold remove_ban. rewrite get_entry_lookup, He. by destruct io as [|err|]; [|destruct (Hio err)|].
Qed.

Lemma is_banned_lookup now io t s k :
  lookup_ban (is_banned now io t s).2 k =
    if decide (k = target_key t) then active_ban now s t else lookup_ban s k.
Proof.
  unfold is_banned, active_ban. rewrite get_entry_lookup.
  destruct (lookup_ban s (target_key t)) as [e|] eqn:E; cbv [mbind option_bind].
  - destruct (is_expired now e); [|simpl; destruct (decide _) as [->|]; done].
    transitivity (lookup_ban (persist io (remove_entry t s)).2 k);
      [by destruct (persist io (remove_entry t s)) as [[] ?]|].
    by rewrite lookup_persist, lookup_remove_entry.
  - simpl. destruct (decide _) as [->|]; done.
Qed.

(** ** Purging *)

Section purge_map.
Context {K M : Type} `{!EqDecision K} `{!DashMap K BanEntry M} `{!DashMapLaws K BanEntry M}.

Lemma remove_keys_get ks (m : M) k :
  dm_get (remove_keys ks m) k = if decide (k ∈ ks) then None else dm_get m k.
Proof.
  revert m. induction ks as [|k0 ks IH]; intros m; cbn [remove_keys foldl].
  { rewrite decide_False; [done|apply not_elem_of_nil]. }
  fold (remove_keys ks (dm_remove k0 m)). rewrite IH, dm_get_remove.
  destruct (decide (k ∈ k0 :: ks)) as [Hin|Hin]; rewrite elem_of_cons in Hin;
    destruct (decide (k ∈ ks)), (decide (k0 = k)); naive_solver.
Qed.

Lemma expired_keys_elem now (m : M) k :
  k ∈ expired_keys now m ↔ ∃ e, dm_get m k = Some e ∧ is_expired now e = true.
Proof.
  unfold expired_keys. rewrite list_elem_of_fmap. setoid_rewrite list_elem_of_filter. split.
  - intros ([k' e]&->&He&Hin). exists e. by rewrite <- dm_iter_get.
  - intros (e&Hk&He). exists (k, e). by rewrite dm_iter_get.
Qed.

Lemma purge_map_get now (m : M) k :
  dm_get (remove_keys (expired_keys now m) m) k =
    (e ← dm_get m k; if is_expired now e then None else Some e).
Proof.
  rewrite remove_keys_get. pose proof (expired_keys_elem now m k) as Hk.
  destruct (dm_get m k) as [e|]; cbv [mbind option_bind]; [|by destruct (decide _)].
  destruct (is_expired now e) eqn:E.
  - rewrite decide_True; [done|]. apply Hk. eauto.
  - rewrite decide_False; [done|]. rewrite Hk. intros (e0&[= <-]&He). congruence.
Qed.

Lemma iter_keys (m : M) (c : K → ban_key) :
  (∀ k e, dm_get m k = Some e → target_key (be_target e) = c k) →
  (target_key ∘ be_target) ∘ entry_serde <$> (dm_iter m).*2 = c <$> (dm_iter m).*1.
Proof.
  intros Hc. rewrite <- !list_fmap_compose. apply list_fmap_ext.
  intros i [k e] Hi. simpl. apply Hc, dm_iter_get. by eapply list_elem_of_lookup_2.
Qed.

Lemma iter_values (m : M) e : e ∈ (dm_iter m).*2 ↔ ∃ k, dm_get m k = Some e.
Proof.
  rewrite list_elem_of_fmap. split.
  - intros ([k y]&->&Hin%dm_iter_get). eauto.
  - intros (k&Hk). exists (k, e). by rewrite dm_iter_get.
Qed.

Lemma iter_keys_NoDup (m : M) (c : K → ban_key) : Inj (=) (=) c → NoDup (c <$> (dm_iter m).*1).
Proof. intros. apply NoDup_fmap; [done|apply dm_iter_NoDup]. Qed.
End purge_map.

Lemma purge_expired_lookup now io s k :
  lookup_ban (purge_expired now io s).2 k =
    (e ← lookup_ban s k; if is_expired now e then None else Some e).
Proof.
  unfold purge_expired. set (targets := _ ++ _). set (s' := with_uuids _ _).
  transitivity (lookup_ban s' k).
  - destruct (decide (0 < zlen targets)); [|done].
    set (s'' := with_log _ _). transitivity (lookup_ban (persist io s'').2 k);
      [by destruct (persist io s'') as [[] ?]|]. by rewrite lookup_persist; unfold s'';
      rewrite lookup_with_log.
  - destruct k; cbn; apply purge_map_get.
Qed.

(** ** The file *)

Lemma populate_lookup bans s k :
  NoDup (target_key ∘ be_target <$> bans) →
  lookup_ban (populate_maps bans s) k =
    match List.find (λ e, bool_decide (target_key (be_target e) = k)) bans with
    | Some e => Some e
    | None => lookup_ban s k
    end.
Proof.
  revert s. induction bans as [|e bans IH]; intros s Hnd; [done|].
  cbn [fmap list_fmap] in Hnd. apply NoDup_cons in Hnd as [Hn Hnd].
  cbn [populate_maps foldl List.find]. fold (populate_maps bans (insert_entry e s)).
  rewrite IH by done. rewrite lookup_insert_entry.
  destruct (decide (k = target_key (be_target e))) as [->|Hne].
  - rewrite bool_decide_eq_true_2 by done.
    destruct (List.find _ bans) as [e'|] eqn:Ef; [|done].
    apply find_some in Ef as [Hin Heq%bool_decide_eq_true]. destruct Hn.
    apply list_elem_of_fmap. exists e'. split; [done|]. by apply list_elem_of_In.
  - by rewrite bool_decide_eq_false_2 by done.
Qed.

Lemma serialized_keys s : well_filed s →
  NoDup (target_key ∘ be_target <$> bf_bans (serialize_all s)).
Proof.
  intros Hw. cbn [serialize_all bf_bans]. rewrite <- list_fmap_compose, !fmap_app.
  rewrite (iter_keys (ip_bans s) KIp), (iter_keys (username_bans s) KName),
    (iter_keys (uuid_bans s) KUuid);
    [|intros k; by apply (Hw (KUuid k))|intros k; by apply (Hw (KName k))
     |intros k; by apply (Hw (KIp k))].
  apply NoDup_app. split; [apply iter_keys_NoDup; by intros ?? [=]|]. split.
  { intros k [? [-> _]]%list_elem_of_fmap. rewrite elem_of_app, !list_elem_of_fmap. naive_solver. }
  apply NoDup_app. split; [apply iter_keys_NoDup; by intros ?? [=]|]. split.
  { intros k [? [-> _]]%list_elem_of_fmap. rewrite list_elem_of_fmap. naive_solver. }
  apply iter_keys_NoDup. by intros ?? [=].
Qed.

Lemma serialized_elem s e :
  e ∈ bf_bans (serialize_all s) ↔ ∃ k e0, lookup_ban s k = Some e0 ∧ e = entry_serde e0.
Proof.
  cbn [serialize_all bf_bans]. rewrite list_elem_of_fmap. setoid_rewrite elem_of_app.
  setoid_rewrite elem_of_app. setoid_rewrite iter_values. split.
  - intros (e0&->&[[k Hk]|[[k Hk]|[k Hk]]]);
      [exists (KIp k)|exists (KName k)|exists (KUuid k)]; eauto.
  - intros (k&e0&Hk&->). exists e0. split; [done|]. destruct k; eauto.
Qed.

Lemma well_filed_insert e s : well_filed s → well_filed (insert_entry e s).
Proof.
  intros Hw k e'. rewrite lookup_insert_entry. case_decide; [naive_solver|apply Hw].
Qed.

(** Loading what was written. *)
Lemma load_serialized s k : well_filed s →
  lookup_ban (populate_maps (bf_bans (serialize_all s)) (storage_new FileMissing)) k =
    entry_serde <$> lookup_ban s k.
Proof.
  intros Hw. rewrite populate_lookup by by apply serialized_keys. rewrite lookup_new.
  destruct (List.find _ _) as [e|] eqn:Ef.
  - apply find_some in Ef as [Hin%list_elem_of_In Hk%bool_decide_eq_true].
    apply serialized_elem in Hin as (k'&e0&Hl&->). simpl in Hk. rewrite (Hw _ _ Hl) in Hk.
    subst. by rewrite Hl.
  - destruct (lookup_ban s k) as [e0|] eqn:El; [|done]. exfalso.
    pose proof (find_none _ _ Ef (entry_serde e0)) as Hnone.
    rewrite <- list_elem_of_In, serialized_elem, bool_decide_eq_false in Hnone.
    apply Hnone; [eauto|]. cbn. by apply (Hw k e0).
Qed.

(** The answer of [is_banned], when the write goes well. *)
Lemma is_banned_exact now io t s :
  (∀ r, (is_banned now io t s).1 = Ok r → r = active_ban now s t) ∧
  ∀ now' t', now ≤ now' → active_ban now' (is_banned now io t s).2 t' = active_ban now' s t'.
Proof.
  split.
  - unfold is_banned, active_ban. rewrite get_entry_lookup. intros r.
    destruct (lookup_ban s (target_key t)) as [e|]; cbv [mbind option_bind]; [|by intros [= <-]].
    destruct (is_expired now e); [|by intros [= <-]].
    destruct (persist io (remove_entry t s)) as [[] ?]; [by intros [= <-]|done].
  - intros now' t' Hle. pose proof (check_target_spec now t s) as [_ Hc].
    rewrite <- (Hc now' t' Hle). unfold active_ban. rewrite is_banned_lookup.
    unfold check_target, active_ban. rewrite get_entry_lookup.
    destruct (lookup_ban s (target_key t)) as [e|] eqn:E; cbv [mbind option_bind].
    + destruct (is_expired now e); cbn [snd]; [by rewrite lookup_remove_entry|].
      destruct (decide _) as [->|]; [by rewrite E|done].
    + cbn [snd]. destruct (decide _) as [->|]; [by rewrite E|done].
Qed.

Lemma check_player_spec (now : Z) (ip : IpAddr) (username : rstring) (uuid : option Z)
    (s : FileBanStorage) :
  (check_player now ip username uuid s).1 =
    Ok (match active_ban now s (BanIp ip) with
        | Some e => Some e
        | None =>
          match active_ban now s (BanUsername username) with
          | Some e => Some e
          | None => u ← uuid; active_ban now s (BanUuid u)
          end
        end) ∧
  ∀ now' t, now ≤ now' → active_ban now' (check_player now ip username uuid s).2 t = active_ban now' s t.
Proof.
  unfold check_player.
  destruct (check_target_spec now (BanIp ip) s) as [H1 Hs1].
  destruct (check_target now (BanIp ip) s) as [r1 s1]. cbn [fst snd] in *. rewrite <- H1.
  destruct r1 as [e1|]; [done|].
  destruct (check_target_spec now (BanUsername username) s1) as [H2 Hs2].
  destruct (check_target now (BanUsername username) s1) as [r2 s2]. cbn [fst snd] in *.
  rewrite Hs1 in H2 by lia. rewrite <- H2.
  destruct r2 as [e2|]; [split; [done|]; intros; rewrite Hs2 by done; auto|].
  destruct uuid as [u|]; [|split; [done|]; intros; rewrite Hs2 by done; auto].
  destruct (check_target_spec now (BanUuid u) s2) as [H3 Hs3].
  destruct (check_target now (BanUuid u) s2) as [r3 s3]. cbn [fst snd] in *.
  rewrite Hs2, Hs1 in H3 by lia. split; [by rewrite H3|].
  intros. rewrite Hs3, Hs2 by done. auto.
Qed.

Lemma check_player_res now ip username uuid s :
  (check_player now ip username uuid s).1 =
    Ok (match active_ban now s (BanIp ip) with
        | Some e => Some e
        | None =>
          match active_ban now s (BanUsername username) with
          | Some e => Some e
          | None => u ← uuid; active_ban now s (BanUuid u)
          end
        end).
Proof. apply check_player_spec. Qed.

(** ** Properties *)

(** Whatever becomes of the write to disk, each operation of the ban storage is the
    corresponding update of a map from targets to bans, and every entry stays filed
    under its own target. *)
Theorem ban_storage_refines_map (now : Z) (io : persist_io) (e : BanEntry) (t : BanTarget)
    (s : FileBanStorage) (k : ban_key) :
  well_filed s →
  lookup_ban (add_ban now io e s).2 k =
    (if decide (k = target_key (be_target e)) then Some e else lookup_ban s k) ∧
  lookup_ban (remove_ban now io t s).2 k =
    (if decide (k = target_key t) then None else lookup_ban s k) ∧
  lookup_ban (is_banned now io t s).2 k =
    (if decide (k = target_key t) then active_ban now s t else lookup_ban s k) ∧
  lookup_ban (purge_expired now io s).2 k =
    (e ← lookup_ban s k; if is_expired now e then None else Some e) ∧
  well_filed (add_ban now io e s).2 ∧ well_filed (remove_ban now io t s).2 ∧
  well_filed (is_banned now io t s).2 ∧ well_filed (purge_expired now io s).2.
Proof.
  intros Hw. split_and!.
  - apply add_ban_lookup.
  - apply remove_ban_lookup.
  - apply is_banned_lookup.
  - apply purge_expired_lookup.
  - intros k' e'. rewrite add_ban_lookup. case_decide; [naive_solver|apply Hw].
  - intros k' e'. rewrite remove_ban_lookup. case_decide; [done|apply Hw].
  - intros k' e'. rewrite is_banned_lookup. case_decide; [|apply Hw]. subst. unfold active_ban.
    destruct (lookup_ban s (target_key t)) as [e0|] eqn:E; cbv [mbind option_bind]; [|done].
    destruct (is_expired now e0); [done|]. intros [= <-]. by apply Hw.
  - intros k' e'. rewrite purge_expired_lookup.
    destruct (lookup_ban s k') as [e0|] eqn:E; cbv [mbind option_bind]; [|done].
    destruct (is_expired now e0); [done|]. intros [= <-]. by apply Hw.
Qed.

(** The ban check reports the first ban in force among address, name and identifier,
    and drops expired entries without changing which bans are in force. *)
Theorem check_player_exact (now : Z) (ip : IpAddr) (username : rstring) (uuid : option Z)
    (s : FileBanStorage) :
  (check_player now ip username uuid s).1 =
    Ok (match active_ban now s (BanIp ip) with
        | Some e => Some e
        | None =>
          match active_ban now s (BanUsername username) with
          | Some e => Some e
          | None => u ← uuid; active_ban now s (BanUuid u)
          end
        end) ∧
  ∀ now' t, now ≤ now' → active_ban now' (check_player now ip username uuid s).2 t = active_ban now' s t.
Proof. apply check_player_spec. Qed.

(** Loading a written ban file gives back every ban and the audit log with times cut to
    whole seconds, and no ban outlives its expiry. *)
Theorem ban_file_roundtrip (s : FileBanStorage) (bak : bool) :
  well_filed s →
  let s' := (persist Written s).2 in
  let loaded := (load bak (storage_new (ban_file s'))).2 in
  (∀ k, lookup_ban s' k = lookup_ban s k) ∧
  (∀ k, lookup_ban loaded k = entry_serde <$> lookup_ban s k) ∧
  audit_log loaded = audit_serde <$> audit_log s ∧
  (∀ now t e, 0 ≤ now → active_ban now loaded t = Some e →
     ∃ e0, active_ban now s t = Some e0 ∧ e = entry_serde e0).
Proof.
  intros Hw s' loaded.
  assert (Hl : ∀ k, lookup_ban loaded k = entry_serde <$> lookup_ban s k).
  { intros k. unfold loaded, s'. cbn [persist snd ban_file with_file load storage_new].
    rewrite lookup_with_log, <- load_serialized by done.
    assert (Hf : ∀ bans f, lookup_ban (populate_maps bans (storage_new f)) k =
      lookup_ban (populate_maps bans (storage_new FileMissing)) k); [|apply Hf].
    intros bans f. induction bans as [|e bans IH] using rev_ind; [by destruct k|].
    unfold populate_maps in *. rewrite !foldl_app. cbn [foldl]. by rewrite !lookup_insert_entry, IH. }
  split_and!; [intros; apply lookup_persist|done|done|].
  intros now t e Hnow. unfold active_ban. rewrite Hl.
  destruct (lookup_ban s (target_key t)) as [e0|]; cbv [mbind option_bind fmap option_fmap option_map];
    [|done].
  destruct (is_expired now (entry_serde e0)) eqn:Ex; [done|]. intros [= <-]. exists e0.
  enough (is_expired now e0 = false) as ->; [done|]. revert Ex. unfold is_expired, entry_serde.
  cbn [be_expires_at]. destruct (be_expires_at e0) as [x|]; cbn; [|done].
  rewrite !bool_decide_eq_false. unfold epoch_secs. intros H1 H2. destruct H1.
  Z.to_euclidean_division_equations. lia.
Qed.

(** Adding a ban leaves at most 10000 audit entries, but purging appends one entry per
    expired ban without trimming. *)
Theorem audit_log_growth (now : Z) (io : persist_io) (e : BanEntry) (s : FileBanStorage) :
  zlen (audit_log (add_ban now io e s).2) ≤ MAX_AUDIT_LOG_ENTRIES ∧
  ∃ n, (purge_expired now Written s).1 = Ok n ∧
    zlen (audit_log (purge_expired now Written s).2) = zlen (audit_log s) + n.
Proof.
  split.
  - assert (Hp : ∀ s, audit_log (persist io s).2 = audit_log s) by (by destruct io).
    unfold add_ban. rewrite Hp. unfold add_audit_entry. case_decide; cbn [audit_log with_log]; [|lia].
    unfold zlen in *. rewrite length_drop. unfold MAX_AUDIT_LOG_ENTRIES in *. lia.
  - unfold purge_expired. set (targets := _ ++ _). exists (zlen targets).
    destruct (decide (0 < zlen targets)); cbn [persist fst snd audit_log with_log with_file
      with_uuids with_usernames with_ips].
    + split; [done|]. rewrite zlen_app. f_equal. unfold zlen. by rewrite length_fmap.
    + split; [done|]. pose proof (zlen_nonneg targets). lia.
Qed.
End ban.

(** ** A concrete storage *)

#[local] Existing Instance range_nets.
#[local] Existing Instance ascii_lowercase.

Definition griefer : BanEntry :=
  BanEntry_new 1500000000 (BanUsername (str "Griefer")) None (Some (from_secs 60)) (str "console").

Abbreviation storage := (@FileBanStorage range_nets (assoc_map IpAddr BanEntry)
  (assoc_map rstring BanEntry) (assoc_map Z BanEntry)) (only parsing).

Lemma ban_storage_refines_map_witness :
  let s : storage := storage_new FileMissing in
  well_filed s ∧
  lookup_ban (add_ban 0 LockTimedOut griefer s).2 (KName (str "griefer")) = Some griefer.
Proof.
  intros s. assert (Hw : well_filed s).
  { intros k e. unfold s. by rewrite lookup_new. }
  split; [done|].
  pose proof (ban_storage_refines_map 0 LockTimedOut griefer (be_target griefer) s
    (KName (str "griefer")) Hw) as [Ha _].
  rewrite Ha. by apply decide_True.
Defined.

Lemma ban_file_roundtrip_witness :
  let s : storage := insert_entry griefer (storage_new FileMissing) in
  lookup_ban (load true (storage_new (ban_file (persist Written s).2) : storage)).2
    (KName (str "griefer")) = Some (entry_serde griefer) ∧
  be_expires_at (entry_serde griefer) = Some (from_secs 61) ∧
  be_expires_at griefer = Some (from_secs 61 + 500000000).
Proof.
  intros s. assert (Hw : well_filed s).
  { apply well_filed_insert. intros k e. by rewrite lookup_new. }
  destruct (ban_file_roundtrip s true Hw) as (_&Hl&_). split; [|done].
  rewrite Hl. by vm_compute.
Defined.

(** A ban by name holds from any address until its minute is over. *)
Lemma check_player_exact_witness :
  let s : storage := (add_ban 0 Written griefer (storage_new FileMissing)).2 in
  (check_player (from_secs 60) (7 : @IpAddr range_nets) (str "GRIEFER") None s).1 = Ok (Some griefer) ∧
  (check_player (from_secs 90) (7 : @IpAddr range_nets) (str "GRIEFER") None s).1 = Ok None.
Proof.
  intros s. split.
  - rewrite (proj1 (check_player_exact (from_secs 60) _ _ None s)). by vm_compute.
  - rewrite (proj1 (check_player_exact (from_secs 90) _ _ None s)). by vm_compute.
Defined.
