(* ===== verification/Middleware.v ===== *)
(** * Middleware: from an accepted connection to a routed player

    [pipeline/] and [middleware/] of the core, with [util/domain_rewrite.rs] and
    [legacy::detect].  A [ConnectionContext] holds the chunks the socket will still
    yield, whether it then closes or just stays silent until the read times out,
    the bytes read but not consumed yet, and one optional field per type of the
    extension map.  The middlewares share the router and the ban storage and the
    two rate limiters, whose [governor] crate is a parameter. *)
From S2P Require Import Prelude Wire Utf8 VarInt Codec Frame Version Packet LoginPackets.
From S2P Require Import PlayPackets Commands Registry DefaultRegistry Bridge.
From S2P Require Import Config Router Ban.

(** ** Detection of old clients *)

Inductive LegacyDetection := LegacyPing | LegacyLogin | Modern.

Definition detect (first_byte : Z) : LegacyDetection :=
  if decide (first_byte = 0xFE) then LegacyPing
  else if decide (first_byte = 0x02) then LegacyLogin
  else Modern.

(** ** The context *)

Inductive ConnectionIntent := IntentStatus | IntentLogin | IntentTransfer.
#[export] Instance ConnectionIntent_eq_dec : EqDecision ConnectionIntent.
Proof. solve_decision. Defined.

Record HandshakeData := {
  hd_domain : rstring;
  hd_port : Z;
  hd_protocol_version : ProtocolVersion;
  hd_intent : ConnectionIntent;
  hd_raw_packets : list bytes }.

Record LoginData := { ld_username : rstring; ld_player_uuid : option Z }.

Inductive MiddlewareResult :=
| Continue
| ShortCircuit
| Reject (msg : rstring).

(** When the chunks have run out: the peer has closed, or says nothing more. *)
Inductive stream_end := StreamClosed | StreamSilent.

Section middleware.
Context `{IPN : IpNets} `{LC : Lowercase} `{WM : WildMatch} `{UT : UuidText} `{ZL : Zlib}.

Record RoutingData := { rd_server_config : ServerConfig; rd_config_id : rstring }.

Record ConnectionContext := {
  ctx_stream : list bytes;
  ctx_end : stream_end;
  ctx_client_ip : IpAddr;
  ctx_buffered : bytes;
  ext_handshake : option HandshakeData;
  ext_routing : option RoutingData;
  ext_login : option LoginData;
  ext_legacy : bool }.

Definition set_stream (s : list bytes) (ctx : ConnectionContext) : ConnectionContext :=
  Build_ConnectionContext s (ctx_end ctx) (ctx_client_ip ctx) (ctx_buffered ctx)
    (ext_handshake ctx) (ext_routing ctx) (ext_login ctx) (ext_legacy ctx).
Definition set_buffered (b : bytes) (ctx : ConnectionContext) : ConnectionContext :=
  Build_ConnectionContext (ctx_stream ctx) (ctx_end ctx) (ctx_client_ip ctx) b
    (ext_handshake ctx) (ext_routing ctx) (ext_login ctx) (ext_legacy ctx).
Definition set_handshake (h : HandshakeData) (ctx : ConnectionContext) : ConnectionContext :=
  Build_ConnectionContext (ctx_stream ctx) (ctx_end ctx) (ctx_client_ip ctx) (ctx_buffered ctx)
    (Some h) (ext_routing ctx) (ext_login ctx) (ext_legacy ctx).
Definition set_routing (r : RoutingData) (ctx : ConnectionContext) : ConnectionContext :=
  Build_ConnectionContext (ctx_stream ctx) (ctx_end ctx) (ctx_client_ip ctx) (ctx_buffered ctx)
    (ext_handshake ctx) (Some r) (ext_login ctx) (ext_legacy ctx).
Definition set_login (l : LoginData) (ctx : ConnectionContext) : ConnectionContext :=
  Build_ConnectionContext (ctx_stream ctx) (ctx_end ctx) (ctx_client_ip ctx) (ctx_buffered ctx)
    (ext_handshake ctx) (ext_routing ctx) (Some l) (ext_legacy ctx).
Definition set_legacy (ctx : ConnectionContext) : ConnectionContext :=
  Build_ConnectionContext (ctx_stream ctx) (ctx_end ctx) (ctx_client_ip ctx) (ctx_buffered ctx)
    (ext_handshake ctx) (ext_routing ctx) (ext_login ctx) true.

(** ** Reading a frame *)

Inductive read_failure := ReadProtocol (e : ProtocolError) | ReadEof | ReadTimeout.

Definition end_failure (e : stream_end) : read_failure :=
  match e with StreamClosed => ReadEof | StreamSilent => ReadTimeout end.

(** The loop both parsers share: the frame with the decoder and all bytes read, and
    the rest of the stream. *)
Fixpoint read_first_frame (fin : stream_end) (d : PacketDecoder) (raw : bytes) (stream : list bytes)
    : result read_failure (PacketFrame * PacketDecoder * bytes) * list bytes :=
  match try_next_frame d with
  | (Err e, _) => (Err (ReadProtocol e), stream)
  | (Ok (Some frame), d) => (Ok (frame, d, raw), stream)
  | (Ok None, d) =>
    match stream with
    | [] => (Err (end_failure fin), [])
    | chunk :: stream =>
      if decide (chunk = []) then (Err ReadEof, stream)
      else read_first_frame fin (queue_bytes d chunk) (raw ++ chunk) stream
    end
  end.

(** [raw_data.truncate(raw_data.len() - remaining.len())]. *)
Definition truncate (raw remaining : bytes) : bytes := take (length raw - length remaining) raw.

(** ** The handshake parser *)

Definition intent_of (next_state : ConnectionState) : ConnectionIntent :=
  match next_state with Status => IntentStatus | Login => IntentLogin | _ => IntentTransfer end.

Definition handshake_failure (e : read_failure) : CoreError :=
  match e with
  | ReadProtocol e => CProtocol e
  | ReadEof => ConnectionClosed
  | ReadTimeout => CTimeout "handshake read timed out"
  end.

(** What a read into a shorter buffer leaves of a chunk. *)
Definition unread (more : bytes) (stream : list bytes) : list bytes :=
  if decide (more = []) then stream else more :: stream.

(** The first byte, read alone from the stream if none is buffered. *)
Definition first_byte (ctx : ConnectionContext) : result read_failure Z * ConnectionContext :=
  match ctx_buffered ctx with
  | b :: _ => (Ok b, ctx)
  | [] =>
    match ctx_stream ctx with
    | [] => (Err (end_failure (ctx_end ctx)), ctx)
    | chunk :: stream =>
      match chunk with
      | [] => (Err ReadEof, set_stream stream ctx)
      | b :: more => (Ok b, set_buffered [b] (set_stream (unread more stream) ctx))
      end
    end
  end.

(** After the frame is read: the handshake is decoded and recorded. *)
Definition record_handshake (frame : PacketFrame) (raw : bytes) (ctx : ConnectionContext)
    : result CoreError MiddlewareResult * ConnectionContext :=
  if decide (frame_id frame ≠ 0) then
    (Err (CProtocol (Invalid ("expected handshake (0x00), got 0x" +:+ hex02 (frame_id frame)))), ctx)
  else
    match SHandshake_decode V1_7_2 (payload frame) with
    | Err e => (Err (CProtocol e), ctx)
    | Ok (handshake, _) =>
      (Ok Continue, set_handshake
        {| hd_domain := to_lowercase (normalize_handshake (hs_server_address handshake));
           hd_port := hs_server_port handshake;
           hd_protocol_version := hs_protocol_version handshake;
           hd_intent := intent_of (hs_next_state handshake);
           hd_raw_packets := [raw] |} ctx)
    end.

Definition handshake_parser (ctx : ConnectionContext)
    : result CoreError MiddlewareResult * ConnectionContext :=
  match first_byte ctx with
  | (Err e, ctx) => (Err (handshake_failure e), ctx)
  | (Ok b, ctx) =>
    match detect b with
    | LegacyPing | LegacyLogin => (Ok ShortCircuit, set_legacy ctx)
    | Modern =>
      match read_first_frame (ctx_end ctx) (queue_bytes PacketDecoder_new (ctx_buffered ctx))
              (ctx_buffered ctx) (ctx_stream ctx) with
      | (Err e, stream) => (Err (handshake_failure e), set_stream stream ctx)
      | (Ok (frame, d, raw), stream) =>
        let remaining := into_remaining d in
        record_handshake frame (truncate raw remaining)
          (set_buffered remaining (set_stream stream ctx))
      end
    end
  end.

(** ** The login start parser *)

Definition login_failure (e : read_failure) : CoreError :=
  match e with ReadProtocol e => CProtocol e | ReadEof | ReadTimeout => ConnectionClosed end.

Definition push_raw (raw : bytes) (ctx : ConnectionContext) : ConnectionContext :=
  match ext_handshake ctx with
  | Some h => set_handshake
      (Build_HandshakeData (hd_domain h) (hd_port h) (hd_protocol_version h) (hd_intent h)
        (hd_raw_packets h ++ [raw])) ctx
  | None => ctx
  end.

Definition login_start_parser (ctx : ConnectionContext)
    : result CoreError MiddlewareResult * ConnectionContext :=
  match ext_handshake ctx with
  | None => (Err (MissingExtension "HandshakeData"), ctx)
  | Some h =>
    let decoder := if decide (ctx_buffered ctx = []) then PacketDecoder_new
                   else queue_bytes PacketDecoder_new (ctx_buffered ctx) in
    match read_first_frame (ctx_end ctx) decoder (ctx_buffered ctx) (ctx_stream ctx) with
    | (Err e, stream) => (Err (login_failure e), set_stream stream ctx)
    | (Ok (frame, d, raw), stream) =>
      let ctx := set_stream stream ctx in
      if decide (frame_id frame ≠ 0) then
        (Err (CProtocol (Invalid ("expected login start (0x00), got 0x" +:+ hex02 (frame_id frame)))), ctx)
      else
        match SLoginStart_decode (hd_protocol_version h) (payload frame) with
        | Err e => (Err (CProtocol e), ctx)
        | Ok (login_start, _) =>
          let ctx := set_login (Build_LoginData (ls_name login_start) (ls_uuid login_start)) ctx in
          let remaining := into_remaining d in
          (Ok Continue, set_buffered remaining (push_raw (truncate raw remaining) ctx))
        end
    end
  end.

(** ** Rate limiting *)

Record RateLimitConfig := {
  rl_enabled : bool;
  rl_max_connections : Z;
  rl_window : Duration;
  rl_status_max : Z;
  rl_status_window : Duration }.

Definition RateLimitConfig_default : RateLimitConfig :=
  Build_RateLimitConfig false 3 (from_secs 10) 300 (from_secs 10).

(** The [governor] crate: quotas and keyed limiters. *)
Class Governor := {
  Quota : Type;
  with_period : Duration → option Quota;
  allow_burst : Z → Quota → Quota;
  limiter : Type;
  limiter_new : Quota → limiter;
  check_key : Z → IpAddr → limiter → bool * limiter }.

(** A quota that replenishes after no time at all is refused, any other accepted. *)
Class GovernorLaws `{Governor} := {
  with_period_None p : with_period p = None ↔ p = 0 }.

Context `{GV : Governor}.

(** [build_limiter]; [None] is the panic of its [expect]. *)
Definition build_limiter (max : Z) (window : Duration) : option limiter :=
  let max := Z.max max 1 in
  quota ← with_period (window / max);
  Some (limiter_new (allow_burst max quota)).

Record RateLimiterMiddleware := {
  rlm_enabled : bool;
  rlm_login_limiter : limiter;
  rlm_status_limiter : limiter }.

Definition RateLimiterMiddleware_new (config : RateLimitConfig) : option RateLimiterMiddleware :=
  login_limiter ← build_limiter (rl_max_connections config) (rl_window config);
  status_limiter ← build_limiter (rl_status_max config) (rl_status_window config);
  Some (Build_RateLimiterMiddleware (rl_enabled config) login_limiter status_limiter).

(** ** The pipelines *)

Context {CM EM IM UM VM : Type}.
Context `{!DashMap ProviderId RouterEntry CM} `{!DashMap rstring ProviderId EM}.
Context `{!DashMap IpAddr BanEntry IM} `{!DashMap rstring BanEntry UM} `{!DashMap Z BanEntry VM}.

(** What the connections of the proxy share. *)
Record shared := {
  sh_router : DomainRouter (CM := CM) (EM := EM);
  sh_bans : FileBanStorage (IM := IM) (UM := UM) (VM := VM);
  sh_limiter : RateLimiterMiddleware }.

Definition set_bans (b : FileBanStorage) (sh : shared) : shared :=
  Build_shared (sh_router sh) b (sh_limiter sh).
Definition set_limiter (l : RateLimiterMiddleware) (sh : shared) : shared :=
  Build_shared (sh_router sh) (sh_bans sh) l.

Definition outcome : Type := result CoreError MiddlewareResult * shared * ConnectionContext.
Definition middleware : Type := shared → ConnectionContext → outcome.

(** A middleware that only works on the context. *)
Definition on_context
    (f : ConnectionContext → result CoreError MiddlewareResult * ConnectionContext) : middleware :=
  λ sh ctx, let '(r, ctx) := f ctx in (r, sh, ctx).

Definition ip_filter (global_filter : option IpFilterConfig) : middleware := λ sh ctx,
  match global_filter with
  | Some filter =>
    if is_allowed filter (ctx_client_ip ctx) then (Ok Continue, sh, ctx)
    else (Ok (Reject (str "IP " ++ ip_display (ctx_client_ip ctx) ++ str " is not allowed")), sh, ctx)
  | None => (Ok Continue, sh, ctx)
  end.

Section at_time.
Context (now : Z) (io : persist_io).

Definition ban_ip_check : middleware := λ sh ctx,
  match is_banned now io (BanIp (ctx_client_ip ctx)) (sh_bans sh) with
  | (Err e, bans) => (Err e, set_bans bans sh, ctx)
  | (Ok (Some _), bans) => (Ok ShortCircuit, set_bans bans sh, ctx)
  | (Ok None, bans) => (Ok Continue, set_bans bans sh, ctx)
  end.

Definition rate_limiter : middleware := λ sh ctx,
  let rl := sh_limiter sh in
  if negb (rlm_enabled rl) then (Ok Continue, sh, ctx) else
  match ext_handshake ctx with
  | None => (Ok Continue, sh, ctx)
  | Some handshake =>
    let '(passed, rl) :=
      match hd_intent handshake with
      | IntentStatus =>
        let '(b, l) := check_key now (ctx_client_ip ctx) (rlm_status_limiter rl) in
        (b, Build_RateLimiterMiddleware (rlm_enabled rl) (rlm_login_limiter rl) l)
      | IntentLogin | IntentTransfer =>
        let '(b, l) := check_key now (ctx_client_ip ctx) (rlm_login_limiter rl) in
        (b, Build_RateLimiterMiddleware (rlm_enabled rl) l (rlm_status_limiter rl))
      end in
    (Ok (if (passed : bool) then Continue else Reject (str "Rate limit exceeded")),
     set_limiter rl sh, ctx)
  end.

Definition domain_router : middleware := λ sh ctx,
  match ext_handshake ctx with
  | None => (Err (MissingExtension "HandshakeData"), sh, ctx)
  | Some handshake =>
    match resolve (sh_router sh) (hd_domain handshake) with
    | None => (Ok (Reject (str "Unknown server: " ++ hd_domain handshake)), sh, ctx)
    | Some (_, server_config) =>
      let routed := (Ok Continue, sh,
        set_routing (Build_RoutingData server_config (effective_id server_config)) ctx) in
      match sc_ip_filter server_config with
      | Some filter =>
        if is_allowed filter (ctx_client_ip ctx) then routed
        else (Ok (Reject (str "IP " ++ ip_display (ctx_client_ip ctx) ++
                          str " is not allowed on this server")), sh, ctx)
      | None => routed
      end
    end
  end.

Definition ban_check : middleware := λ sh ctx,
  match ext_login ctx with
  | None => (Ok Continue, sh, ctx)
  | Some data =>
    match check_player now (ctx_client_ip ctx) (ld_username data) None (sh_bans sh) with
    | (Err e, bans) => (Err e, set_bans bans sh, ctx)
    | (Ok (Some ban_entry), bans) => (Ok (Reject (kick_message now ban_entry)), set_bans bans sh, ctx)
    | (Ok None, bans) => (Ok Continue, set_bans bans sh, ctx)
    end
  end.

(** [Pipeline::execute]. *)
Fixpoint execute (middlewares : list middleware) : middleware := λ sh ctx,
  match middlewares with
  | [] => (Ok Continue, sh, ctx)
  | mw :: middlewares =>
    match mw sh ctx with
    | (Ok Continue, sh, ctx) => execute middlewares sh ctx
    | stop => stop
    end
  end.

(** The common pipeline of [server.rs], and the start of the login pipeline. *)
Definition common_pipeline (global_filter : option IpFilterConfig) : list middleware :=
  [ip_filter global_filter; ban_ip_check; on_context handshake_parser; rate_limiter; domain_router].
Definition login_pipeline : list middleware := [on_context login_start_parser; ban_check].
End at_time.

(** ** Rewriting the handshake *)

Definition first_raw_packet (h : HandshakeData) : bytes := default [] (head (hd_raw_packets h)).

Definition encode_handshake_with_domain (h : HandshakeData) (new_domain : rstring)
    : result CoreError bytes :=
  let next_state :=
    match hd_intent h with
    | IntentStatus => Status
    | IntentLogin | IntentTransfer => Login
    end in
  let modified := mk_SHandshake (hd_protocol_version h) new_domain (hd_port h) next_state in
  match SHandshake_encode modified (hd_protocol_version h) with
  | Err e => Err (CProtocol e)
  | Ok payload =>
    match append_raw 0 payload PacketEncoder_new with
    | (Err e, _) => Err (CProtocol e)
    | (Ok _, encoder) => Ok (enc_take encoder).1
    end
  end.

Definition rewrite_handshake (h : HandshakeData) (c : ServerConfig) : result CoreError bytes :=
  match sc_domain_rewrite c with
  | RewriteNone => Ok (first_raw_packet h)
  | RewriteExplicit domain => encode_handshake_with_domain h domain
  | RewriteFromBackend =>
    match sc_addresses c with
    | [] => Ok (first_raw_packet h)
    | addr :: _ => encode_handshake_with_domain h (addr_host addr)
    end
  end.

(** ** Reading: soundness and progress *)

Lemma read_first_frame_Ok fin d raw stream f d' raw' stream' :
  dec_buf d = raw →
  read_first_frame fin d raw stream = (Ok (f, d', raw'), stream') →
  raw' ++ concat stream' = raw ++ concat stream ∧
  ∃ used, raw' = used ++ dec_buf d' ∧
    try_next_frame (mk_decoder used (dec_threshold d)) =
      (Ok (Some f), mk_decoder [] (dec_threshold d)).
Proof.
  revert d raw. induction stream as [|chunk stream IH]; intros d raw Hraw; cbn [read_first_frame];
    pose proof (try_next_frame_app d []) as Happ;
    destruct (try_next_frame d) as [[[f0|]|e] d0] eqn:E; try done.
  - intros [= -> <- <- <-]. split; [done|].
    destruct (try_next_frame_split _ _ _ E) as (used&?&_&?). exists used. by subst.
  - intros [= -> <- <- <-]. split; [done|].
    destruct (try_next_frame_split _ _ _ E) as (used&?&_&?). exists used. by subst.
  - subst d0. destruct (decide (chunk = [])); [done|]. intros H'.
    apply IH in H' as [Hcat Hused]; [|by rewrite <- Hraw]. split; [|done].
    rewrite Hcat. simpl. by rewrite app_assoc.
Qed.

Lemma truncate_app used remaining : truncate (used ++ remaining) remaining = used.
Proof.
  unfold truncate. rewrite length_app.
  replace (length used + length remaining - length remaining)%nat with (length used) by lia.
  apply take_app_length.
Qed.

(** A whole frame at the front of the stream is found, however it is cut. *)
Lemma read_first_frame_finds fin d raw stream bs rest f :
  dec_buf d = raw → Forall (λ c, c ≠ []) stream →
  raw ++ concat stream = bs ++ rest →
  try_next_frame (mk_decoder bs (dec_threshold d)) = (Ok (Some f), mk_decoder [] (dec_threshold d)) →
  ∃ d' raw' stream',
    read_first_frame fin d raw stream = (Ok (f, d', raw'), stream') ∧
    dec_buf d' ++ concat stream' = rest ∧ raw' = bs ++ dec_buf d'.
Proof.
  intros Hraw Hne. revert d raw Hraw. induction Hne as [|chunk stream Hc Hne IH];
    intros d raw Hraw Hcat Hbs.
  all: pose proof (try_next_frame_app (mk_decoder bs (dec_threshold d)) rest) as Hb;
    rewrite Hbs in Hb; destruct Hb as [Hb _]; unfold queue_bytes in Hb; cbn [dec_buf dec_threshold app] in Hb.
  - cbn [concat] in Hcat. rewrite app_nil_r in Hcat.
    assert (Hd : d = mk_decoder (bs ++ rest) (dec_threshold d)).
    { rewrite <- Hcat, <- Hraw. by destruct d. }
    cbn [read_first_frame]. rewrite <- Hd in Hb. rewrite Hb. eexists _, _, _. split; [done|].
    cbn [dec_buf concat]. by rewrite app_nil_r.
  - cbn [read_first_frame].
    pose proof (try_next_frame_app d (concat (chunk :: stream))) as Hd.
    assert (Hq : queue_bytes d (concat (chunk :: stream)) = mk_decoder (bs ++ rest) (dec_threshold d)).
    { unfold queue_bytes. by rewrite Hraw, Hcat. }
    rewrite Hq, Hb in Hd. destruct (try_next_frame d) as [[[f0|]|e] d0] eqn:E.
    + destruct Hd as [[= <- Hrest _] _]. eexists _, _, _. split; [done|]. split; [done|].
      apply (app_inv_tail (concat (chunk :: stream))).
      by rewrite Hcat, <- app_assoc, Hrest.
    + subst d0. rewrite decide_False by done.
      apply (IH (queue_bytes d chunk) (raw ++ chunk)); [by rewrite <- Hraw| |done].
      rewrite <- app_assoc. done.
    + done.
Qed.

(** ** No byte is lost *)

(** All bytes of the connection: those kept for the backend, those buffered and those
    to come. *)
Definition all_bytes (ctx : ConnectionContext) : bytes :=
  match ext_handshake ctx with Some h => concat (hd_raw_packets h) | None => [] end ++
  ctx_buffered ctx ++ concat (ctx_stream ctx).

(** One frame, and nothing else. *)
Definition one_frame (raw : bytes) : Prop :=
  ∃ f, try_next_frame (mk_decoder raw None) = (Ok (Some f), PacketDecoder_new).

Lemma unread_concat more stream : concat (unread more stream) = more ++ concat stream.
Proof. unfold unread. by case_decide; subst. Qed.

Lemma first_byte_bytes ctx b ctx' :
  first_byte ctx = (Ok b, ctx') →
  all_bytes ctx' = all_bytes ctx ∧ ext_handshake ctx' = ext_handshake ctx ∧
  ctx_client_ip ctx' = ctx_client_ip ctx ∧ ctx_end ctx' = ctx_end ctx ∧ head (ctx_buffered ctx') = Some b.
Proof.
  unfold first_byte, all_bytes. destruct (ctx_buffered ctx) as [|b0 bs] eqn:Eb.
  - destruct (ctx_stream ctx) as [|[|b1 chunk] stream] eqn:Es; [done..|].
    intros [= -> <-]. cbn. by rewrite unread_concat.
  - intros [= -> <-]. rewrite Eb. done.
Qed.

Lemma handshake_parser_Continue ctx ctx' :
  handshake_parser ctx = (Ok Continue, ctx') → ext_handshake ctx = None →
  all_bytes ctx' = all_bytes ctx ∧ ctx_client_ip ctx' = ctx_client_ip ctx ∧
  ∃ h raw, ext_handshake ctx' = Some h ∧ hd_raw_packets h = [raw] ∧ one_frame raw ∧
    hd_intent h ≠ IntentTransfer.
Proof.
  unfold handshake_parser. destruct (first_byte ctx) as [[b|e] ctx1] eqn:E1; [|done].
  apply first_byte_bytes in E1 as (Hall&Hh&Hip&_). intros Hp Hnone. rewrite Hnone in Hh.
  destruct (detect b); [done..|].
  destruct (read_first_frame _ _ _ _) as [[[[f d] raw]|e] stream] eqn:E2; [|done].
  apply read_first_frame_Ok in E2 as (Hcat&used&->&Hone); [|done].
  cbn [into_remaining] in Hp. rewrite truncate_app in Hp. unfold record_handshake in Hp.
  destruct (decide _); [done|].
  destruct (SHandshake_decode _ _) as [[hs rest]|e] eqn:Eh; [|done]. injection Hp as <-.
  split_and!; [|done|].
  - rewrite <- Hall. unfold all_bytes. rewrite Hh. cbn. rewrite app_nil_r.
    rewrite app_assoc. exact Hcat.
  - eexists _, used. cbn. split_and!; [done..|by exists f|].
    assert (Hst : hs_next_state hs = Status ∨ hs_next_state hs = Login).
    { unfold SHandshake_decode in Eh.
      do 4 (apply reader_bind_inv in Eh as (?&?&_&Eh)).
      unfold from_handshake_id in Eh. repeat case_decide; try done;
        apply reader_ret_inv in Eh as [<- _]; [by left|by right]. }
    by destruct Hst as [-> | ->].
Qed.

Lemma login_start_parser_Continue ctx ctx' :
  login_start_parser ctx = (Ok Continue, ctx') →
  all_bytes ctx' = all_bytes ctx ∧ ctx_client_ip ctx' = ctx_client_ip ctx ∧
  ext_routing ctx' = ext_routing ctx ∧
  ∃ h h' l raw, ext_handshake ctx = Some h ∧ ext_handshake ctx' = Some h' ∧
    ext_login ctx' = Some l ∧ one_frame raw ∧
    hd_domain h' = hd_domain h ∧ hd_raw_packets h' = hd_raw_packets h ++ [raw].
Proof.
  unfold login_start_parser. destruct (ext_handshake ctx) as [h|] eqn:Eh; [|done].
  set (d0 := if decide _ then _ else _).
  assert (Hd0 : d0 = mk_decoder (ctx_buffered ctx) None).
  { unfold d0. by destruct (decide _) as [->|]. }
  rewrite Hd0. clear d0 Hd0.
  destruct (read_first_frame _ _ _ _) as [[[[f d] raw]|e] stream] eqn:E2; [|done].
  apply read_first_frame_Ok in E2 as (Hcat&used&->&Hone); [|done].
  destruct (decide _); [done|]. cbn [into_remaining]. rewrite truncate_app.
  destruct (SLoginStart_decode _ _) as [[ls rest]|e]; [|done]. unfold push_raw. cbn [ext_handshake set_login set_stream].
  rewrite Eh. intros [= <-]. split_and!; [|done..|].
  - unfold all_bytes. cbn. rewrite Eh, concat_app. cbn. rewrite app_nil_r, <- !app_assoc.
    f_equal. rewrite app_assoc. exact Hcat.
  - eexists h, _, _, used. cbn. split_and!; [done..|by exists f|done|done].
Qed.

(** ** Handshakes on the wire *)

(** Without compression a framed packet decodes to itself. *)
Lemma plain_frame_decodes id data bs rest :
  in_s 32 id → frame_packet None id data = Ok bs →
  try_next_frame (mk_decoder (bs ++ rest) None) = (Ok (Some (mk_frame id data)), mk_decoder rest None).
Proof.
  intros Hid. unfold frame_packet. pose proof (packet_size_pos id data Hid) as Hpos.
  pose proof (packet_size_zlen id data Hid) as Hz. unfold packet_size in *.
  case_decide; [done|]. intros <-%Ok_inj. rewrite <- !app_assoc, (app_assoc _ data).
  apply try_next_frame_framed; [done|lia|lia|]. by apply decode_plain_encode.
Qed.

(** The bytes a client sends for a handshake. *)
Definition handshake_bytes (hs : SHandshake) (bs : bytes) : Prop :=
  ∃ data, SHandshake_encode hs V1_7_2 = Ok data ∧ frame_packet None 0 data = Ok bs.

Definition handshake_data (hs : SHandshake) (raw : bytes) : HandshakeData :=
  {| hd_domain := to_lowercase (normalize_handshake (hs_server_address hs));
     hd_port := hs_server_port hs;
     hd_protocol_version := hs_protocol_version hs;
     hd_intent := intent_of (hs_next_state hs);
     hd_raw_packets := [raw] |}.

Lemma handshake_decodes hs data :
  pkt_ok hs V1_7_2 → SHandshake_encode hs V1_7_2 = Ok data → SHandshake_decode V1_7_2 data = Ok (hs, []).
Proof.
  intros Hok Henc. destruct (pkt_roundtrip hs V1_7_2 Hok) as (bs&Hbs&Hread).
  cbn [pkt_encode SHandshake_packet] in Hbs. rewrite Henc in Hbs. apply Ok_inj in Hbs as <-.
  apply Hread.
Qed.

Lemma first_byte_finds ctx b bs :
  Forall (λ c, c ≠ []) (ctx_stream ctx) →
  ctx_buffered ctx ++ concat (ctx_stream ctx) = b :: bs →
  ∃ ctx1, first_byte ctx = (Ok b, ctx1) ∧ Forall (λ c, c ≠ []) (ctx_stream ctx1) ∧
    ctx_buffered ctx1 ++ concat (ctx_stream ctx1) = b :: bs.
Proof.
  unfold first_byte. destruct (ctx_buffered ctx) as [|b0 buf] eqn:Eb; cbn [app].
  - destruct (ctx_stream ctx) as [|chunk stream] eqn:Es; [done|]. intros Hne Hcat.
    apply Forall_cons in Hne as [Hc Hne]. destruct chunk as [|b0 chunk]; [done|].
    injection Hcat as -> Hcat. eexists. split; [done|]. cbn. rewrite unread_concat, Hcat.
    split; [|done]. unfold unread. case_decide; [done|by constructor].
  - intros Hne [= -> Hcat]. exists ctx. rewrite Eb. cbn. by rewrite Hcat.
Qed.

(** C15: A well-formed handshake at the front of the stream whose first byte is neither that of
    the legacy ping (0xFE) nor that of the legacy login (0x02), cut into any chunks, is parsed:
    the recorded domain is the lower-case address without marker and trailing dots, the
    raw packet is the handshake byte for byte, and what follows it stays in the buffer
    and the stream. *)
Theorem handshake_parser_accepts (ctx : ConnectionContext) (hs : SHandshake) (b : Z) (bs rest : bytes) :
  pkt_ok hs V1_7_2 → handshake_bytes hs (b :: bs) → detect b = Modern →
  Forall (λ c, c ≠ []) (ctx_stream ctx) →
  ctx_buffered ctx ++ concat (ctx_stream ctx) = (b :: bs) ++ rest →
  ∃ ctx', handshake_parser ctx = (Ok Continue, ctx') ∧
    ext_handshake ctx' = Some (handshake_data hs (b :: bs)) ∧
    ctx_buffered ctx' ++ concat (ctx_stream ctx') = rest.
Proof.
  intros Hok (data&Henc&Hframe) Hb Hne Hcat. unfold handshake_parser.
  destruct (first_byte_finds ctx b (bs ++ rest) Hne Hcat) as (ctx1&->&Hne1&Hcat1). rewrite Hb.
  pose proof (plain_frame_decodes 0 data (b :: bs) [] ltac:(unfold in_s; lia) Hframe) as Hone.
  rewrite app_nil_r in Hone.
  edestruct (read_first_frame_finds (ctx_end ctx1)
    (queue_bytes PacketDecoder_new (ctx_buffered ctx1)) (ctx_buffered ctx1) (ctx_stream ctx1)
    (b :: bs) rest) as (d'&raw'&stream'&->&Hrest&->); [done|done|exact Hcat1|exact Hone|].
  cbn [into_remaining]. rewrite truncate_app. unfold record_handshake. cbn [frame_id payload].
  rewrite decide_False by lia. rewrite (handshake_decodes hs data) by done.
  eexists. split; [done|]. cbn. by split.
Qed.

(** [out] is a handshake for [domain], with the rest as the client sent it, that any
    receiver reads off the front of the stream. *)
Definition rewritten (h : HandshakeData) (domain : rstring) (out : bytes) : Prop :=
  ∃ hs, handshake_bytes hs out ∧ hs_server_address hs = domain ∧
    hs_protocol_version hs = hd_protocol_version h ∧ hs_server_port hs = hd_port h ∧
    intent_of (hs_next_state hs) = hd_intent h ∧
    ∀ rest, ∃ data, try_next_frame (mk_decoder (out ++ rest) None) =
        (Ok (Some (mk_frame 0 data)), mk_decoder rest None) ∧
      SHandshake_decode V1_7_2 data = Ok (hs, []).

Lemma encode_handshake_rewritten h domain out :
  in_s 32 (hd_protocol_version h) → in_u 16 (hd_port h) → hd_intent h ≠ IntentTransfer →
  encode_handshake_with_domain h domain = Ok out → is_text 255 domain → rewritten h domain out.
Proof.
  intros Hv Hp Hi He Htext. unfold encode_handshake_with_domain in He.
  set (hs := mk_SHandshake _ _ _ _) in He. exists hs.
  destruct (SHandshake_encode hs _) as [data|e] eqn:Eh; [|done].
  assert (Eh' : SHandshake_encode hs V1_7_2 = Ok data) by exact Eh.
  unfold append_raw in He. cbn [enc_threshold PacketEncoder_new] in He.
  destruct (frame_packet None 0 data) as [bs|e] eqn:Ef; [|done].
  cbn in He. apply Ok_inj in He as <-.
  assert (Hok : pkt_ok hs V1_7_2).
  { cbn. unfold hs. cbn. split_and!; try done; destruct (hd_intent h); auto. }
  split_and!; [by exists data|done..|by destruct (hd_intent h)|].
  intros rest. exists data. split; [by apply plain_frame_decodes|]. by apply handshake_decodes.
Qed.

(** C16: Of a client that asks for the status or a login (a transfer is rewritten as a login),
    rewriting the handshake forwards the original bytes when there is nothing to rewrite,
    and otherwise, if the new domain is a text of at most 255 characters, a frame that
    decodes to a handshake with that domain and the version, port and intent of the
    client. *)
Theorem rewrite_handshake_exact (h : HandshakeData) (c : ServerConfig) (out : bytes) :
  in_s 32 (hd_protocol_version h) → in_u 16 (hd_port h) → hd_intent h ≠ IntentTransfer →
  rewrite_handshake h c = Ok out →
  match sc_domain_rewrite c, sc_addresses c with
  | RewriteNone, _ | RewriteFromBackend, [] => out = first_raw_packet h
  | RewriteExplicit domain, _ | RewriteFromBackend, Build_ServerAddress domain _ :: _ =>
      is_text 255 domain → rewritten h domain out
  end.
Proof.
  intros Hv Hp Hi. unfold rewrite_handshake. destruct (sc_domain_rewrite c) as [|domain|].
  - by intros [= ->].
  - by apply encode_handshake_rewritten.
  - destruct (sc_addresses c) as [|[host port] addrs]; [by intros [= ->]|].
    by apply encode_handshake_rewritten.
Qed.

(** ** The pipelines as a whole *)

Lemma execute_Continue mw mws sh ctx sh' ctx' :
  execute (mw :: mws) sh ctx = (Ok Continue, sh', ctx') →
  ∃ sh1 ctx1, mw sh ctx = (Ok Continue, sh1, ctx1) ∧ execute mws sh1 ctx1 = (Ok Continue, sh', ctx').
Proof.
  cbn [execute]. destruct (mw sh ctx) as [[[[| |]|] sh1] ctx1]; try done. by exists sh1, ctx1.
Qed.

Lemma execute_app mws mws' sh ctx sh' ctx' :
  execute mws sh ctx = (Ok Continue, sh', ctx') → execute (mws ++ mws') sh ctx = execute mws' sh' ctx'.
Proof.
  revert sh ctx. induction mws as [|mw mws IH]; intros sh ctx; cbn [execute app]; [by intros [= <- <-]|].
  destruct (mw sh ctx) as [[[[| |]|] sh1] ctx1]; try done. apply IH.
Qed.

Lemma execute_app_Continue mws mws' sh ctx sh' ctx' :
  execute (mws ++ mws') sh ctx = (Ok Continue, sh', ctx') →
  ∃ sh1 ctx1, execute mws sh ctx = (Ok Continue, sh1, ctx1) ∧ execute mws' sh1 ctx1 = (Ok Continue, sh', ctx').
Proof.
  revert sh ctx. induction mws as [|mw mws IH]; intros sh ctx; cbn [execute app]; [by eauto|].
  destruct (mw sh ctx) as [[[[| |]|] sh1] ctx1]; try done. apply IH.
Qed.

Lemma ip_filter_Continue gf sh ctx sh' ctx' :
  ip_filter gf sh ctx = (Ok Continue, sh', ctx') →
  sh' = sh ∧ ctx' = ctx ∧ ∀ f, gf = Some f → is_allowed f (ctx_client_ip ctx) = true.
Proof.
  unfold ip_filter. destruct gf as [f|]; [|by intros [= <- <-]].
  destruct (is_allowed f (ctx_client_ip ctx)) eqn:E; [|done]. intros [= <- <-]. naive_solver.
Qed.

Lemma rate_limiter_Continue now sh ctx sh' ctx' :
  rate_limiter now sh ctx = (Ok Continue, sh', ctx') →
  sh_router sh' = sh_router sh ∧ sh_bans sh' = sh_bans sh ∧ ctx' = ctx.
Proof.
  unfold rate_limiter. destruct (negb _); [by intros [= <- <-]|].
  destruct (ext_handshake ctx) as [h|]; [|by intros [= <- <-]].
  destruct (match hd_intent h with IntentStatus => _ | _ => _ end) as [b rl].
  intros [= _ <- <-]. done.
Qed.

Lemma domain_router_Continue sh ctx sh' ctx' :
  domain_router sh ctx = (Ok Continue, sh', ctx') →
  sh' = sh ∧ ∃ h id c, ext_handshake ctx = Some h ∧ resolve (sh_router sh) (hd_domain h) = Some (id, c) ∧
    (∀ f, sc_ip_filter c = Some f → is_allowed f (ctx_client_ip ctx) = true) ∧
    ctx' = set_routing (Build_RoutingData c (effective_id c)) ctx.
Proof.
  unfold domain_router. destruct (ext_handshake ctx) as [h|]; [|done].
  destruct (resolve _ _) as [[id c]|] eqn:Er; [|done].
  destruct (sc_ip_filter c) as [f|] eqn:Ef.
  - destruct (is_allowed f _) eqn:Ea; [|done]. intros [= <- <-]. naive_solver.
  - intros [= <- <-]. naive_solver.
Qed.

Context `{!DashMapLaws IpAddr BanEntry IM} `{!DashMapLaws rstring BanEntry UM}
  `{!DashMapLaws Z BanEntry VM}.

Lemma ban_ip_check_Continue now io sh ctx sh' ctx' :
  ban_ip_check now io sh ctx = (Ok Continue, sh', ctx') →
  ctx' = ctx ∧ sh_router sh' = sh_router sh ∧
  active_ban now (sh_bans sh) (BanIp (ctx_client_ip ctx)) = None ∧
  ∀ now' t, now ≤ now' → active_ban now' (sh_bans sh') t = active_ban now' (sh_bans sh) t.
Proof.
  unfold ban_ip_check.
  pose proof (is_banned_exact now io (BanIp (ctx_client_ip ctx)) (sh_bans sh)) as [Hres Hkeep].
  destruct (is_banned _ _ _ _) as [[[e|]|e] bans]; [done| |done].
  intros [= <- <-]. split_and!; [done..| |done]. symmetry. by apply Hres.
Qed.

Lemma ban_check_Continue now sh ctx sh' ctx' l :
  ban_check now sh ctx = (Ok Continue, sh', ctx') → ext_login ctx = Some l →
  ctx' = ctx ∧ active_ban now (sh_bans sh) (BanIp (ctx_client_ip ctx)) = None ∧
  active_ban now (sh_bans sh) (BanUsername (ld_username l)) = None.
Proof.
  unfold ban_check. intros Hb Hl. rewrite Hl in Hb.
  pose proof (check_player_res now (ctx_client_ip ctx) (ld_username l) None (sh_bans sh)) as Hres.
  destruct (check_player _ _ _ _ _) as [r bans]. cbn [fst] in Hres. subst r.
  destruct (active_ban now _ (BanIp _)); [done|].
  destruct (active_ban now _ (BanUsername _)); [done|]. injection Hb as _ <-. done.
Qed.

Lemma pipeline_Continue (gf : option IpFilterConfig) (now now' : Z) (io : persist_io)
    (sh sh' : shared) (ctx ctx' : ConnectionContext) :
  now ≤ now' → ext_handshake ctx = None →
  execute (common_pipeline now io gf ++ login_pipeline now') sh ctx = (Ok Continue, sh', ctx') →
  let ip := ctx_client_ip ctx in
  (∀ f, gf = Some f → is_allowed f ip = true) ∧
  active_ban now (sh_bans sh) (BanIp ip) = None ∧
  active_ban now' (sh_bans sh) (BanIp ip) = None ∧
  ∃ h l id c, ext_handshake ctx' = Some h ∧ ext_login ctx' = Some l ∧
    active_ban now' (sh_bans sh) (BanUsername (ld_username l)) = None ∧
    resolve (sh_router sh) (hd_domain h) = Some (id, c) ∧
    ext_routing ctx' = Some (Build_RoutingData c (effective_id c)) ∧
    (∀ f, sc_ip_filter c = Some f → is_allowed f ip = true) ∧
    all_bytes ctx' = all_bytes ctx ∧
    ∃ raw_handshake raw_login, hd_raw_packets h = [raw_handshake; raw_login] ∧
      one_frame raw_handshake ∧ one_frame raw_login.
Proof.
  intros Hnow Hnone Hrun ip. unfold common_pipeline, login_pipeline in Hrun. cbn [app] in Hrun.
  apply execute_Continue in Hrun as (sh1&ctx1&(->&->&Hf)%ip_filter_Continue&Hrun).
  apply execute_Continue in Hrun as (sh2&ctx2&(->&Hr2&Hb2&Hk2)%ban_ip_check_Continue&Hrun).
  apply execute_Continue in Hrun as (sh3&ctx3&H3&Hrun). unfold on_context in H3.
  destruct (handshake_parser ctx) as [r3 c3] eqn:E3. injection H3 as -> <- <-.
  apply handshake_parser_Continue in E3 as (Hall3&Hip3&h3&raw3&Hh3&Hraw3&Hone3&_); [|done].
  apply execute_Continue in Hrun as (sh4&ctx4&(Hr4&Hb4&->)%rate_limiter_Continue&Hrun).
  apply execute_Continue in Hrun as (sh5&ctx5&(->&h5&id&c&Hh5&Hres&Hcf&->)%domain_router_Continue&Hrun).
  apply execute_Continue in Hrun as (sh6&ctx6&H6&Hrun). unfold on_context in H6.
  destruct (login_start_parser _) as [r6 c6] eqn:E6. injection H6 as -> <- <-.
  apply login_start_parser_Continue in E6
    as (Hall6&Hip6&Hro6&h6&h6'&l&raw6&Hh6&Hh6'&Hl6&Hone6&Hd6&Hraw6).
  apply execute_Continue in Hrun as (sh7&ctx7&H7&Hrun). cbn [execute] in Hrun.
  injection Hrun as <- <-. apply ban_check_Continue with (l := l) in H7 as (->&Hi7&Hn7); [|done].
  cbn [ctx_client_ip ext_handshake ext_routing set_routing] in *.
  rewrite Hip3 in *. rewrite Hh5 in Hh6. injection Hh6 as ->. rewrite Hh3 in Hh5. injection Hh5 as ->.
  rewrite Hip6, Hb4, Hk2 in Hi7 by done. rewrite Hb4, Hk2 in Hn7 by done.
  split_and!; [done..|]. exists h6', l, id, c.
  split_and!; [done..|by rewrite Hd6, <- Hr2, <- Hr4|by rewrite Hro6|done| |].
  - rewrite Hall6. exact Hall3.
  - exists raw3, raw6. rewrite Hraw6, Hraw3. done.
Qed.

(** C14: A connection that passes the common and the login pipeline comes from an address
    the global filter and the filter of its server allow, neither the address nor the
    player name is banned, it is routed to the configuration the router resolves its
    domain to, and every byte the client sent is kept: the raw packets, one whole frame
    each, the buffer and the stream together are what was there before. *)
Theorem pipeline_admits (gf : option IpFilterConfig) (now now' : Z) (io : persist_io)
    (sh sh' : shared) (ctx ctx' : ConnectionContext) :
  now ≤ now' → ext_handshake ctx = None →
  execute (common_pipeline now io gf ++ login_pipeline now') sh ctx = (Ok Continue, sh', ctx') →
  let ip := ctx_client_ip ctx in
  (∀ f, gf = Some f → is_allowed f ip = true) ∧
  active_ban now (sh_bans sh) (BanIp ip) = None ∧
  active_ban now' (sh_bans sh) (BanIp ip) = None ∧
  ∃ h l id c, ext_handshake ctx' = Some h ∧ ext_login ctx' = Some l ∧
    active_ban now' (sh_bans sh) (BanUsername (ld_username l)) = None ∧
    resolve (sh_router sh) (hd_domain h) = Some (id, c) ∧
    ext_routing ctx' = Some (Build_RoutingData c (effective_id c)) ∧
    (∀ f, sc_ip_filter c = Some f → is_allowed f ip = true) ∧
    all_bytes ctx' = all_bytes ctx ∧
    ∃ raw_handshake raw_login, hd_raw_packets h = [raw_handshake; raw_login] ∧
      one_frame raw_handshake ∧ one_frame raw_login.
Proof. apply pipeline_Continue. Qed.

(** The handshake parser never records a transfer intent: a client that is transferred
    is recorded as logging in. *)
Theorem transfer_is_never_an_intent (ctx ctx' : ConnectionContext) (h : HandshakeData) :
  ext_handshake ctx = None → handshake_parser ctx = (Ok Continue, ctx') →
  ext_handshake ctx' = Some h → hd_intent h = IntentStatus ∨ hd_intent h = IntentLogin.
Proof.
  intros Hnone Hp Hh. apply handshake_parser_Continue in Hp as (_&_&h'&raw&Hh'&_&_&Hi); [|done].
  assert (h' = h) as -> by congruence. revert Hi. destruct (hd_intent h); [by left|by right|done].
Qed.

(** Building the rate limiter fails exactly when a window is shorter in nanoseconds
    than the number of connections it allows. *)
Theorem rate_limiter_start `{!GovernorLaws} (config : RateLimitConfig) :
  RateLimiterMiddleware_new config = None ↔
    0 ≤ rl_window config < Z.max (rl_max_connections config) 1 ∨
    0 ≤ rl_status_window config < Z.max (rl_status_max config) 1.
Proof.
  assert (Hb : ∀ max window, build_limiter max window = None ↔ 0 ≤ window < Z.max max 1).
  { intros max window. unfold build_limiter.
    pose proof (with_period_None (window / Z.max max 1)) as Hp.
    destruct (with_period _) as [q|] eqn:E; cbv [mbind option_bind].
    - split; [done|]. intros Hw. rewrite Z.div_small in Hp by done. discriminate (proj2 Hp eq_refl).
    - split; [|done]. intros _. destruct Hp as [Hp _]. specialize (Hp eq_refl).
      apply Z.div_small_iff in Hp; lia. }
  unfold RateLimiterMiddleware_new. rewrite <- !Hb.
  destruct (build_limiter (rl_max_connections config) _); cbv [mbind option_bind]; [|naive_solver].
  destruct (build_limiter (rl_status_max config) _); naive_solver.
Qed.
End middleware.

(** ** A concrete connection *)

#[local] Existing Instance range_nets.
#[local] Existing Instance ascii_lowercase.
#[local] Existing Instance glob_match.
#[local] Existing Instance hex_uuid.
#[local] Existing Instance stored_zlib.

(** A limiter that counts down: so many passes for everybody. *)
Definition countdown : Governor := {|
  Quota := Z;
  with_period := λ p, if decide (p = 0) then None else Some 1;
  allow_burst := λ n _, n;
  limiter := Z;
  limiter_new := λ n, n;
  check_key := λ _ _ n, (bool_decide (0 < n), n - 1) |}.
#[local] Existing Instance countdown.
Lemma countdown_laws : GovernorLaws.
Proof. split. intros p. cbn. by destruct (decide (p = 0)). Qed.

Definition sample_shared : shared
    (CM := assoc_map ProviderId RouterEntry) (EM := assoc_map rstring ProviderId)
    (IM := assoc_map IpAddr BanEntry) (UM := assoc_map rstring BanEntry) (VM := assoc_map Z BanEntry) :=
  {| sh_router := event_loop [Added survival; Added lobby] router_new;
     sh_bans := (add_ban 0 LockTimedOut griefer (storage_new FileMissing)).2;
     sh_limiter := Build_RateLimiterMiddleware true 1 1 |}.

(** A modded client of 1.7.2: handshake and login start in odd pieces, and one byte more. *)
Definition sample_handshake : SHandshake :=
  mk_SHandshake V1_7_2 (str "play.EXAMPLE.com." ++ [0] ++ str "FML" ++ [0]) 25565 Login.
Definition sample_frame (p : SHandshake) : bytes :=
  match SHandshake_encode p V1_7_2 with
  | Ok data => match frame_packet None 0 data with Ok bs => bs | Err _ => [] end
  | Err _ => []
  end.
Definition sample_login : bytes := [6; 0; 4] ++ str "Alex".
Definition sample_ctx : ConnectionContext :=
  Build_ConnectionContext
    [take 1 (sample_frame sample_handshake); take 9 (drop 1 (sample_frame sample_handshake));
     drop 10 (sample_frame sample_handshake) ++ take 2 sample_login; drop 2 sample_login ++ [7]]
    StreamSilent 42 [] None None None false.

Lemma handshake_parser_accepts_witness :
  ∃ ctx', handshake_parser sample_ctx = (Ok Continue, ctx') ∧
    (hd_domain <$> ext_handshake ctx') = Some (str "play.example.com") ∧
    ctx_buffered ctx' ++ concat (ctx_stream ctx') = sample_login ++ [7].
Proof.
  destruct (handshake_parser_accepts sample_ctx sample_handshake
    (default 0 (head (sample_frame sample_handshake))) (tail (sample_frame sample_handshake))
    (sample_login ++ [7])) as (ctx'&Hp&Hh&Hrest).
  - cbn [pkt_ok SHandshake_laws]. split_and!; [unfold in_s; cbn; lia..| | | |by right].
    all: apply (bool_decide_unpack _); by vm_compute.
  - exists (tail (tail (sample_frame sample_handshake))). split; by vm_compute.
  - by vm_compute.
  - repeat constructor; by vm_compute.
  - by vm_compute.
  - exists ctx'. split_and!; [done| |done]. rewrite Hh. by vm_compute.
Defined.

Lemma rewrite_handshake_exact_witness :
  ∃ out, rewrite_handshake (handshake_data sample_handshake (sample_frame sample_handshake))
      (Build_ServerConfig None None None [] [] Passthrough None false
        (RewriteExplicit (str "backend.local")) MotdConfig_default None None 0 None None []) = Ok out ∧
    rewritten (handshake_data sample_handshake (sample_frame sample_handshake)) (str "backend.local") out.
Proof.
  eexists. split; [by vm_compute|].
  refine (rewrite_handshake_exact (handshake_data sample_handshake (sample_frame sample_handshake))
    (Build_ServerConfig None None None [] [] Passthrough None false
        (RewriteExplicit (str "backend.local")) MotdConfig_default None None 0 None None []) _ _ _ _ _ _).
  - apply (bool_decide_unpack _). by vm_compute.
  - apply (bool_decide_unpack _). by vm_compute.
  - by vm_compute.
  - by vm_compute.
  - apply (bool_decide_unpack _). by vm_compute.
Defined.

Lemma pipeline_admits_witness :
  let res := execute (common_pipeline 0 LockTimedOut None ++ login_pipeline 1) sample_shared sample_ctx in
  res.1.1 = Ok Continue ∧
  all_bytes res.2 = sample_frame sample_handshake ++ sample_login ++ [7] ∧
  (ld_username <$> ext_login res.2) = Some (str "Alex") ∧
  (rd_config_id <$> ext_routing res.2) = Some (str "survival").
Proof.
  intros res. assert (Hres : res.1.1 = Ok Continue) by by vm_compute. split; [done|].
  destruct (pipeline_admits None 0 1 LockTimedOut sample_shared res.1.2 sample_ctx res.2)
    as (_&_&_&h&l&id&c&_&_&_&_&_&_&Hall&_).
  - lia.
  - done.
  - rewrite <- Hres. unfold res. by destruct (execute _ _ _) as [[]].
  - rewrite Hall. split_and!; by vm_compute.
Defined.

Lemma transfer_is_never_an_intent_witness :
  ∃ ctx' h, handshake_parser sample_ctx = (Ok Continue, ctx') ∧ ext_handshake ctx' = Some h ∧
    (hd_intent h = IntentStatus ∨ hd_intent h = IntentLogin).
Proof.
  eexists _, _. split; [by vm_compute|]. split; [done|].
  eapply (transfer_is_never_an_intent sample_ctx); [done|by vm_compute|done].
Defined.

Lemma rate_limiter_start_witness :
  RateLimiterMiddleware_new (Build_RateLimitConfig false 3 0 300 (from_secs 10)) = None ∧
  RateLimiterMiddleware_new RateLimitConfig_default ≠ None.
Proof.
  split; [|by vm_compute].
  apply (rate_limiter_start (H := countdown_laws)). left. cbn. lia.
Defined.

(** A well-formed handshake whose frame is 254 bytes long starts with the byte of the
    legacy ping and is short-circuited as one. *)
Theorem long_handshake_taken_for_legacy :
  let hs := mk_SHandshake V1_7_2 (replicate 247 97) 25565 Login in
  let ctx := Build_ConnectionContext [sample_frame hs] StreamSilent 42 [] None None None false in
  handshake_bytes hs (sample_frame hs) ∧
  SHandshake_decode V1_7_2 (drop 3 (sample_frame hs)) = Ok (hs, []) ∧
  (handshake_parser ctx).1 = Ok ShortCircuit ∧ ext_legacy (handshake_parser ctx).2 = true.
Proof.
  intros hs ctx. split; [exists (drop 3 (sample_frame hs)); split; by vm_compute|].
  split_and!; by vm_compute.
Qed.
