(* ===== verification/ServerManager.v ===== *)
(** * ServerManager: waking servers up and putting them to sleep

    The crate [infrarust_server_manager]: the states of a managed server
    ([state.rs], [provider.rs]), the service with its waiters ([service.rs]), the
    monitoring task with its automatic shutdown ([monitor.rs]) and the local
    process provider ([local.rs]); and the middleware of the core that uses them.

    A section of code that runs under the lock of one map entry is one operation
    here; what happens between two of them may be interleaved with anything, which
    the step relation [step] says.  A waiter is the number of the [oneshot] channel
    made for it; [sm_sent] is the log of the messages sent, [sm_fired] that of the
    state changes announced.  What a provider answers is an argument. *)
From S2P Require Import Prelude Wire Utf8 VarInt Codec Frame Version Packet LoginPackets.
From S2P Require Import PlayPackets Commands Registry DefaultRegistry Bridge.
From S2P Require Import Config Router Ban Middleware.

(** ** States *)

Inductive ServerState := Online | Sleeping | Starting | Stopping | Crashed | Unknown.
#[export] Instance ServerState_eq_dec : EqDecision ServerState.
Proof. solve_decision. Defined.

Definition is_joinable (s : ServerState) : bool := bool_decide (s = Online).
Definition is_startable (s : ServerState) : bool := bool_decide (s = Sleeping ∨ s = Crashed).
Definition should_wait (s : ServerState) : bool := bool_decide (s = Starting).

Inductive ProviderStatus := StRunning | StStopped | StStarting | StStopping | StUnknown.
#[export] Instance ProviderStatus_eq_dec : EqDecision ProviderStatus.
Proof. solve_decision. Defined.

Definition state_of_status (st : ProviderStatus) : ServerState :=
  match st with
  | StRunning => Online
  | StStopped => Sleeping
  | StStarting => Starting
  | StStopping => Stopping
  | StUnknown => Unknown
  end.

Definition map_pterodactyl_state (state : rstring) : ProviderStatus :=
  if decide (state = str "running") then StRunning
  else if decide (state = str "starting") then StStarting
  else if decide (state = str "stopping") then StStopping
  else if decide (state = str "offline") then StStopped
  else StUnknown.

(** The status in an answer of the Crafty panel: the flag it holds, if any. *)
Definition crafty_status (running : option bool) : ProviderStatus :=
  match running with Some true => StRunning | Some false => StStopped | None => StUnknown end.

Inductive ServerManagerError :=
| ServerNotFound (server_id : rstring)
| InvalidState (server_id : rstring) (state : ServerState) (action : rstring)
| StartTimeout (server_id : rstring) (timeout : Duration)
| ProviderErr (server_id message : rstring)
| HttpErr (msg : rstring)
| ProcessErr (kind : IoErrorKind)
| ApiResponse (msg : rstring)
| ProcessExited (server_id : rstring) (exit_code : option Z)
| ShutdownErr.

(** ** The local provider *)

(** A process that was spawned: has its ready pattern been seen? *)
Record LocalProcess := { lp_ready : bool }.
Abbreviation LocalProvider := (option LocalProcess) (only parsing).

Definition server_label (c : LocalManagerConfig) : rstring :=
  lm_command c ++ str ":" ++ lm_working_dir c.

(** [str::contains]. *)
Fixpoint starts_with (s pat : rstring) : bool :=
  match pat, s with
  | [], _ => true
  | p :: pat, c :: s => bool_decide (p = c) && starts_with s pat
  | _ :: _, [] => false
  end.
Fixpoint contains (s pat : rstring) : bool :=
  starts_with s pat || match s with [] => false | _ :: s => contains s pat end.

(** [start]; [spawn] is the error of spawning the process, if any. *)
Definition local_start (c : LocalManagerConfig) (spawn : option IoErrorKind) (p : LocalProvider)
    : result ServerManagerError () * LocalProvider :=
  match p with
  | Some _ => (Err (InvalidState (server_label c) Starting (str "start")), p)
  | None =>
    match spawn with
    | Some k => (Err (ProcessErr k), None)
    | None => (Ok (), Some (Build_LocalProcess false))
    end
  end.

(** A line the process prints, seen by the task that reads its output. *)
Definition local_line (c : LocalManagerConfig) (p : LocalProvider) (line : rstring) : LocalProvider :=
  match p with
  | Some proc =>
    if contains line (lm_ready_pattern c) then Some (Build_LocalProcess true) else Some proc
  | None => None
  end.

Definition local_stop (c : LocalManagerConfig) (p : LocalProvider)
    : result ServerManagerError () * LocalProvider :=
  match p with
  | None => (Err (InvalidState (server_label c) Sleeping (str "stop")), None)
  | Some _ => (Ok (), None)
  end.

Inductive try_wait := WaitExited | WaitRunning | WaitError.

Definition local_check_status (tw : try_wait) (p : LocalProvider) : ProviderStatus * LocalProvider :=
  match p with
  | None => (StStopped, None)
  | Some proc =>
    match tw with
    | WaitExited => (StStopped, None)
    | WaitRunning | WaitError => (if lp_ready proc then StRunning else StStarting, p)
    end
  end.

Lemma local_lines_ready c line lines more :
  contains line (lm_ready_pattern c) = true →
  foldl (local_line c) (Some (Build_LocalProcess false)) (lines ++ line :: more) =
    Some (Build_LocalProcess true).
Proof.
  intros Hl. rewrite foldl_app. cbn [foldl].
  assert (Hkeep : ∀ ls p, ∃ b, foldl (local_line c) (Some p) ls = Some (Build_LocalProcess b) ∧
    (lp_ready p = true → b = true)).
  { induction ls as [|l ls IH]; intros [b]; cbn [foldl]; [by exists b|]. cbn [local_line].
    destruct (contains l _); [|apply IH]. destruct (IH (Build_LocalProcess true)) as (b'&->&Hb').
    exists b'. split; [done|]. intros _. by apply Hb'. }
  destruct (Hkeep lines (Build_LocalProcess false)) as (b&->&_). cbn [local_line]. rewrite Hl.
  destruct (Hkeep more (Build_LocalProcess true)) as (b'&->&Hb'). by rewrite Hb'.
Qed.

(** ** The service *)

Record ServerEntry := {
  se_state : ServerState;
  se_shutdown_after : option Duration;
  se_start_timeout : Duration;
  se_poll_interval : Duration;
  se_last_player_seen : option Z;
  se_waiters : list nat }.

Definition entry_set_state (st : ServerState) (e : ServerEntry) : ServerEntry :=
  Build_ServerEntry st (se_shutdown_after e) (se_start_timeout e) (se_poll_interval e)
    (se_last_player_seen e) (se_waiters e).
Definition entry_set_seen (t : option Z) (e : ServerEntry) : ServerEntry :=
  Build_ServerEntry (se_state e) (se_shutdown_after e) (se_start_timeout e) (se_poll_interval e)
    t (se_waiters e).
Definition entry_set_waiters (ws : list nat) (e : ServerEntry) : ServerEntry :=
  Build_ServerEntry (se_state e) (se_shutdown_after e) (se_start_timeout e) (se_poll_interval e)
    (se_last_player_seen e) ws.

Definition entry_new (shutdown_after : option Duration) (start_timeout poll : Duration) : ServerEntry :=
  Build_ServerEntry Sleeping shutdown_after start_timeout poll None [].

Section service.
Context {SM : Type} `{!DashMap rstring ServerEntry SM}.

Abbreviation answer := (result ServerManagerError ()).

Record ServerManagerService := {
  sm_entries : SM;
  sm_listeners : list (Z * nat);
  sm_next_listener_id : Z;
  sm_next_waiter : nat;
  sm_sent : list (nat * answer);
  sm_fired : list (rstring * ServerState * ServerState) }.

Definition set_entries (m : SM) (s : ServerManagerService) : ServerManagerService :=
  Build_ServerManagerService m (sm_listeners s) (sm_next_listener_id s) (sm_next_waiter s)
    (sm_sent s) (sm_fired s).
Definition put_entry (id : rstring) (e : ServerEntry) (s : ServerManagerService)
    : ServerManagerService := set_entries (dm_insert id e (sm_entries s)) s.

(** The provider settings of a configuration: its idle time, start timeout and poll
    interval. *)
Definition manager_timing (c : ServerManagerConfig) : option Duration * Duration * Duration :=
  match c with
  | SMLocal c => (lm_shutdown_after c, lm_start_timeout c, from_secs 5)
  | SMPterodactyl c => (pt_shutdown_after c, pt_start_timeout c, pt_poll_interval c)
  | SMCrafty c => (cr_shutdown_after c, cr_start_timeout c, cr_poll_interval c)
  end.

Definition service_new (server_configs : list (rstring * ServerManagerConfig)) : ServerManagerService :=
  let entries := foldl (λ m idc,
    let '(after, timeout, poll) := manager_timing idc.2 in
    dm_insert idc.1 (entry_new after timeout poll) m) dm_new server_configs in
  Build_ServerManagerService entries [] 1 0 [] [].

Definition register_server (id : rstring) (after : option Duration) (timeout poll : Duration)
    (s : ServerManagerService) : ServerManagerService :=
  put_entry id (entry_new after timeout poll) s.

Definition get_state (s : ServerManagerService) (id : rstring) : option ServerState :=
  se_state <$> dm_get (sm_entries s) id.

Definition get_all_managed (s : ServerManagerService) : list (rstring * ServerState) :=
  (λ ke, (ke.1, se_state ke.2)) <$> dm_iter (sm_entries s).

Definition add_on_state_change (callback : nat) (s : ServerManagerService)
    : Z * ServerManagerService :=
  (sm_next_listener_id s,
   Build_ServerManagerService (sm_entries s) (sm_listeners s ++ [(sm_next_listener_id s, callback)])
     (wrap_u 64 (sm_next_listener_id s + 1)) (sm_next_waiter s) (sm_sent s) (sm_fired s)).

Definition remove_on_state_change (listener_id : Z) (s : ServerManagerService) : ServerManagerService :=
  Build_ServerManagerService (sm_entries s) (filter (λ l, l.1 ≠ listener_id) (sm_listeners s))
    (sm_next_listener_id s) (sm_next_waiter s) (sm_sent s) (sm_fired s).

Definition fire_state_change (id : rstring) (old new : ServerState) (s : ServerManagerService)
    : ServerManagerService :=
  Build_ServerManagerService (sm_entries s) (sm_listeners s) (sm_next_listener_id s)
    (sm_next_waiter s) (sm_sent s) (sm_fired s ++ [(id, old, new)]).

(** One message to each of the waiters. *)
Definition send_all (ws : list nat) (r : answer) (s : ServerManagerService) : ServerManagerService :=
  Build_ServerManagerService (sm_entries s) (sm_listeners s) (sm_next_listener_id s)
    (sm_next_waiter s) (sm_sent s ++ ((λ w, (w, r)) <$> ws)) (sm_fired s).

Definition next_waiter (s : ServerManagerService) : ServerManagerService :=
  Build_ServerManagerService (sm_entries s) (sm_listeners s) (sm_next_listener_id s)
    (S (sm_next_waiter s)) (sm_sent s) (sm_fired s).

(** One server of [initial_health_check]. *)
Definition initial_check (id : rstring) (r : result ServerManagerError ProviderStatus)
    (s : ServerManagerService) : ServerManagerService :=
  match dm_get (sm_entries s) id, r with
  | Some e, Ok status =>
    let new_state := state_of_status status in
    let s := put_entry id (entry_set_state new_state e) s in
    if decide (se_state e = new_state) then s else fire_state_change id (se_state e) new_state s
  | _, _ => s
  end.

(** What the locked part of [ensure_started] decides: it is done, or the caller waits,
    after asking the provider to start if [start] says so. *)
Inductive ensure_outcome :=
| EnsureReturned (r : answer)
| EnsureWait (waiter : nat) (timeout : Duration) (start : bool).

Definition ensure_begin (id : rstring) (s : ServerManagerService) : ensure_outcome * ServerManagerService :=
  match dm_get (sm_entries s) id with
  | None => (EnsureReturned (Err (ServerNotFound id)), s)
  | Some entry =>
    let w := sm_next_waiter s in
    let waiting := entry_set_waiters (se_waiters entry ++ [w]) entry in
    match se_state entry with
    | Online => (EnsureReturned (Ok ()), s)
    | Stopping => (EnsureReturned (Err (InvalidState id Stopping (str "connect"))), s)
    | Starting =>
      (EnsureWait w (se_start_timeout entry) false, put_entry id waiting (next_waiter s))
    | Sleeping | Crashed | Unknown =>
      (EnsureWait w (se_start_timeout entry) true,
       fire_state_change id (se_state entry) Starting
         (put_entry id (entry_set_state Starting waiting) (next_waiter s)))
    end
  end.

(** The provider refused to start. *)
Definition ensure_start_failed (id : rstring) (s : ServerManagerService) : ServerManagerService :=
  match dm_get (sm_entries s) id with
  | None => s
  | Some entry =>
    let waiters := se_waiters entry in
    let s := put_entry id (entry_set_waiters [] (entry_set_state Crashed entry)) s in
    let s := fire_state_change id Starting Crashed s in
    send_all waiters (Err (ProviderErr id (str "start failed"))) s
  end.

(** How the wait ends: a message, a closed channel, or the timeout. *)
Inductive wait_end := WaitMessage (r : answer) | WaitClosed | WaitTimedOut.

Definition ensure_end (id : rstring) (timeout : Duration) (e : wait_end) : answer :=
  match e with
  | WaitMessage r => r
  | WaitClosed => Err (ProviderErr id (str "waiter channel closed unexpectedly"))
  | WaitTimedOut => Err (StartTimeout id timeout)
  end.

Definition start_begin (id : rstring) (s : ServerManagerService) : answer * ServerManagerService :=
  match dm_get (sm_entries s) id with
  | None => (Err (ServerNotFound id), s)
  | Some entry =>
    if is_startable (se_state entry) then
      (Ok (), fire_state_change id (se_state entry) Starting
                (put_entry id (entry_set_state Starting entry) s))
    else (Err (InvalidState id (se_state entry) (str "start")), s)
  end.

Definition stop_begin (id : rstring) (s : ServerManagerService)
    : result ServerManagerError ServerState * ServerManagerService :=
  match dm_get (sm_entries s) id with
  | None => (Err (ServerNotFound id), s)
  | Some entry =>
    (Ok (se_state entry), fire_state_change id (se_state entry) Stopping
       (put_entry id (entry_set_state Stopping entry) s))
  end.

(** After the provider's answer to the request to stop. *)
Definition stop_end (id : rstring) (old_state : ServerState) (r : answer) (s : ServerManagerService)
    : answer * ServerManagerService :=
  match r with
  | Err e =>
    let s := match dm_get (sm_entries s) id with
             | Some entry => put_entry id (entry_set_state old_state entry) s
             | None => s
             end in
    (Err e, fire_state_change id Stopping old_state s)
  | Ok _ =>
    let s := match dm_get (sm_entries s) id with
             | Some entry => put_entry id (entry_set_seen None (entry_set_state Sleeping entry)) s
             | None => s
             end in
    (Ok (), fire_state_change id Stopping Sleeping s)
  end.

Definition update_state (id : rstring) (status : ProviderStatus) (s : ServerManagerService)
    : option (ServerState * ServerState) * ServerManagerService :=
  match dm_get (sm_entries s) id with
  | None => (None, s)
  | Some entry =>
    let new_state := state_of_status status in
    let old_state := se_state entry in
    if decide (old_state = new_state) then (None, s)
    else (Some (old_state, new_state),
          fire_state_change id old_state new_state (put_entry id (entry_set_state new_state entry) s))
  end.

Definition notify_waiters (id : rstring) (r : answer) (s : ServerManagerService) : ServerManagerService :=
  match dm_get (sm_entries s) id with
  | None => s
  | Some entry =>
    let waiters := se_waiters entry in
    let s := put_entry id (entry_set_waiters [] entry) s in
    send_all waiters
      (match r with
       | Ok _ => Ok ()
       | Err _ => Err (ProviderErr id (str "server failed to start"))
       end) s
  end.

Definition get_poll_interval (s : ServerManagerService) (id : rstring) : Duration :=
  match dm_get (sm_entries s) id with Some e => se_poll_interval e | None => from_secs 5 end.

(** ** The monitor *)

Definition monitor_interval (fast_poll : bool) (s : ServerManagerService) (id : rstring) : Duration :=
  if fast_poll then get_poll_interval s id else get_poll_interval s id * 6.

(** What a poll leads to: the waiters to notify, if any, and the polling speed. *)
Definition after_transition (id : rstring) (tr : option (ServerState * ServerState)) (fast_poll : bool)
    : option answer * bool :=
  match tr with
  | Some (_, Online) => (Some (Ok ()), false)
  | Some (_, Crashed) | Some (_, Sleeping) => (Some (Err (ProcessExited id None)), false)
  | Some (_, Starting) | Some (_, Stopping) => (None, true)
  | Some (_, Unknown) | None => (None, fast_poll)
  end.

(** The locked part of [check_auto_shutdown]. *)
Definition auto_shutdown_due (id : rstring) (player_count now : Z) (s : ServerManagerService)
    : bool * ServerManagerService :=
  match dm_get (sm_entries s) id with
  | None => (false, s)
  | Some entry =>
    if decide (player_count > 0) then (false, put_entry id (entry_set_seen (Some now) entry) s)
    else match se_shutdown_after entry with
    | None => (false, s)
    | Some shutdown_after =>
      match se_last_player_seen entry with
      | None => (false, put_entry id (entry_set_seen (Some now) entry) s)
      | Some last_seen => (bool_decide (shutdown_after ≤ now - last_seen), s)
      end
    end
  end.

Definition check_auto_shutdown (id : rstring) (player_count now : Z) (stop : answer)
    (s : ServerManagerService) : ServerManagerService :=
  let '(should_stop, s) := auto_shutdown_due id player_count now s in
  if (should_stop : bool) then
    match stop_begin id s with
    | (Ok old_state, s) => (stop_end id old_state stop s).2
    | (Err _, s) => s
    end
  else s.

(** One round of the monitor after its sleep, with nothing in between: the provider's
    status, the number of players, the time, and its answer to a stop. *)
Definition monitor_round (id : rstring) (status : result ServerManagerError ProviderStatus)
    (player_count now : Z) (stop : answer) (fast_poll : bool) (s : ServerManagerService)
    : bool * ServerManagerService :=
  if decide (get_state s id = Some Crashed) then (fast_poll, s)
  else
    (* [check_provider_status] fails too when the server is not registered *)
    match (match dm_get (sm_entries s) id with
           | None => Err (ServerNotFound id) | Some _ => status end) with
    | Err _ => (fast_poll, s)
    | Ok new_status =>
      let '(tr, s) := update_state id new_status s in
      let '(notify, fast_poll) := after_transition id tr fast_poll in
      let s := match notify with Some r => notify_waiters id r s | None => s end in
      let s := if decide (new_status = StRunning)
               then check_auto_shutdown id player_count now stop s else s in
      (fast_poll, s)
    end.

(** ** All interleavings *)

(** What a task still has to do after leaving a locked section: wait for the provider to
    start, to stop or to give its status, notify the waiters, or look at the players. *)
Inductive pending_task :=
| PStart (id : rstring)
| PStop (id : rstring) (old_state : ServerState)
| PPoll (id : rstring)
| PNotify (id : rstring) (r : answer)
| PAuto (id : rstring) (player_count now : Z).

Record world := { w_service : ServerManagerService; w_pending : list pending_task }.

(** A task is picked up where it was, and leaves a state and what it does next. *)
Inductive resume : pending_task → ServerManagerService → list pending_task → ServerManagerService → Prop :=
| resume_started id s : resume (PStart id) s [] s
| resume_start_failed id s : resume (PStart id) s [] (ensure_start_failed id s)
| resume_stopped id old r s : resume (PStop id old) s [] (stop_end id old r s).2
| resume_poll_failed id s : resume (PPoll id) s [] s
| resume_polled id status n now fast s :
    resume (PPoll id) s
      (match (after_transition id (update_state id status s).1 fast).1 with
       | Some r => [PNotify id r] | None => [] end ++
       (if decide (status = StRunning) then [PAuto id n now] else []))
      (update_state id status s).2
| resume_notify id r s : resume (PNotify id r) s [] (notify_waiters id r s)
| resume_auto_idle id n now s :
    (auto_shutdown_due id n now s).1 = false →
    resume (PAuto id n now) s [] (auto_shutdown_due id n now s).2
| resume_auto_stop id n now s s1 old s2 :
    auto_shutdown_due id n now s = (true, s1) → stop_begin id s1 = (Ok old, s2) →
    resume (PAuto id n now) s [PStop id old] s2.

(** Players, operators and monitors may act at any time, and any task may go on. A
    monitor looks at the state before it asks the provider, and anything may happen,
    a crash included, until the answer comes. *)
Inductive step : world → world → Prop :=
| step_ensure id w :
    step w (Build_world (ensure_begin id (w_service w)).2
      (w_pending w ++ match (ensure_begin id (w_service w)).1 with
                      | EnsureWait _ _ true => [PStart id] | _ => [] end))
| step_start id w : step w (Build_world (start_begin id (w_service w)).2 (w_pending w))
| step_stop id old s' w :
    stop_begin id (w_service w) = (Ok old, s') →
    step w (Build_world s' (w_pending w ++ [PStop id old]))
| step_poll id w :
    get_state (w_service w) id ≠ Some Crashed →
    step w (Build_world (w_service w) (w_pending w ++ [PPoll id]))
| step_resume ps p ps' next s' w :
    w_pending w = ps ++ p :: ps' → resume p (w_service w) next s' →
    step w (Build_world s' (ps ++ next ++ ps')).

(** ** No player is forgotten, none is answered twice *)

Definition waiters_of (s : ServerManagerService) (id : rstring) : list nat :=
  match dm_get (sm_entries s) id with Some e => se_waiters e | None => [] end.

Record waiters_inv (s : ServerManagerService) : Prop := {
  wi_open id w : w ∈ waiters_of s id → (w < sm_next_waiter s)%nat ∧ w ∉ (sm_sent s).*1;
  wi_sent : NoDup (sm_sent s).*1;
  wi_sent_lt w : w ∈ (sm_sent s).*1 → (w < sm_next_waiter s)%nat;
  wi_nodup id : NoDup (waiters_of s id);
  wi_own id id' w : w ∈ waiters_of s id → w ∈ waiters_of s id' → id = id';
  wi_all w : (w < sm_next_waiter s)%nat → w ∈ (sm_sent s).*1 ∨ ∃ id, w ∈ waiters_of s id }.

Lemma waiters_inv_keep s s' :
  (∀ id, waiters_of s' id = waiters_of s id) → sm_next_waiter s' = sm_next_waiter s →
  sm_sent s' = sm_sent s → waiters_inv s → waiters_inv s'.
Proof.
  intros Hw Hn Hs [H1 H2 H3 H4 H5 H6]. split; rewrite ?Hn, ?Hs; try done.
  - intros id w. rewrite Hw. apply H1.
  - intros id. rewrite Hw. apply H4.
  - intros id id' w. rewrite !Hw. apply H5.
  - intros w Hlt. destruct (H6 w Hlt) as [|[id ?]]; [by left|right]. exists id. by rewrite Hw.
Qed.

Lemma waiters_inv_push s s' id :
  (∀ id', waiters_of s' id' =
     if decide (id = id') then waiters_of s id ++ [sm_next_waiter s] else waiters_of s id') →
  sm_next_waiter s' = S (sm_next_waiter s) → sm_sent s' = sm_sent s →
  waiters_inv s → waiters_inv s'.
Proof.
  intros Hw Hn Hs [H1 H2 H3 H4 H5 H6].
  assert (Hin : ∀ id' w, w ∈ waiters_of s' id' ↔
    w ∈ waiters_of s id' ∨ id = id' ∧ w = sm_next_waiter s).
  { intros id' w. rewrite Hw. destruct (decide (id = id')) as [<-|].
    - rewrite elem_of_app, list_elem_of_singleton. naive_solver.
    - naive_solver. }
  assert (Hfresh : ∀ id', sm_next_waiter s ∉ waiters_of s id').
  { intros id' [? _]%H1. lia. }
  split; rewrite ?Hn, ?Hs; try done.
  - intros id' w [[? ?]%H1|[_ ->]]%Hin; [split; [lia|done]|].
    split; [lia|]. intros ?%H3. lia.
  - intros w ?%H3. lia.
  - intros id'. rewrite Hw. destruct (decide (id = id')) as [<-|]; [|done].
    apply NoDup_app. split_and!; [done| |apply NoDup_singleton].
    intros w Hx ->%list_elem_of_singleton. by apply (Hfresh id).
  - intros i1 i2 w [Ha|[-> ->]]%Hin [Hb|[Hi Hx]]%Hin; subst; [by eapply H5|exfalso..|done].
    + by apply (Hfresh i1).
    + by apply (Hfresh i2).
  - intros w Hlt. destruct (decide (w = sm_next_waiter s)) as [->|].
    + right. exists id. apply Hin. by right.
    + destruct (H6 w) as [|[id' ?]]; [lia|by left|right]. exists id'. apply Hin. by left.
Qed.

Lemma waiters_inv_flush s s' id r :
  (∀ id', waiters_of s' id' = if decide (id = id') then [] else waiters_of s id') →
  sm_next_waiter s' = sm_next_waiter s →
  sm_sent s' = sm_sent s ++ ((λ w, (w, r)) <$> waiters_of s id) →
  waiters_inv s → waiters_inv s'.
Proof.
  intros Hw Hn Hs [H1 H2 H3 H4 H5 H6].
  assert (Hk : (sm_sent s').*1 = (sm_sent s).*1 ++ waiters_of s id).
  { rewrite Hs, fmap_app. f_equal. rewrite <- list_fmap_compose. apply list_fmap_id. }
  assert (Hin : ∀ id' w, w ∈ waiters_of s' id' ↔ id ≠ id' ∧ w ∈ waiters_of s id').
  { intros id' w. rewrite Hw. destruct (decide (id = id')); [|naive_solver].
    rewrite elem_of_nil. naive_solver. }
  split; rewrite ?Hn, ?Hk.
  - intros id' w [Hne Hin']%Hin. destruct (H1 _ _ Hin') as [? ?]. split; [done|].
    rewrite elem_of_app. intros [|Hx]; [done|]. by destruct Hne; eapply H5.
  - apply NoDup_app. split_and!; [done| |done]. intros w Hx Hy. by apply H1 in Hy as [_ ?].
  - intros w [?|Hx]%elem_of_app; [by apply H3|]. by apply H1 in Hx as [? _].
  - intros id'. rewrite Hw. destruct (decide _); [constructor|done].
  - intros i1 i2 w [_ ?]%Hin [_ ?]%Hin. by eapply H5.
  - intros w Hlt. rewrite elem_of_app. destruct (H6 w Hlt) as [|[id' Hx]]; [auto|].
    destruct (decide (id = id')) as [<-|]; [auto|]. right. exists id'. by apply Hin.
Qed.

Context `{!DashMapLaws rstring ServerEntry SM}.

Lemma waiters_of_put id e s id' :
  waiters_of (put_entry id e s) id' = if decide (id = id') then se_waiters e else waiters_of s id'.
Proof. unfold waiters_of, put_entry. cbn. rewrite dm_get_insert. by destruct (decide _). Qed.

(** An update of an entry that leaves its waiters alone. *)
Lemma waiters_of_put_same id e e' s id' :
  dm_get (sm_entries s) id = Some e → se_waiters e' = se_waiters e →
  waiters_of (put_entry id e' s) id' = waiters_of s id'.
Proof.
  intros He Hw. rewrite waiters_of_put. destruct (decide (id = id')) as [<-|]; [|done].
  unfold waiters_of. by rewrite He, Hw.
Qed.

Lemma waiters_of_fire id o n s id' : waiters_of (fire_state_change id o n s) id' = waiters_of s id'.
Proof. done. Qed.

Lemma ensure_begin_inv id s : waiters_inv s → waiters_inv (ensure_begin id s).2.
Proof.
  intros Hi. unfold ensure_begin. destruct (dm_get (sm_entries s) id) as [e|] eqn:E; [|done].
  assert (Hpush : ∀ e' s', se_waiters e' = se_waiters e ++ [sm_next_waiter s] →
    (∀ id', waiters_of s' id' = waiters_of (put_entry id e' (next_waiter s)) id') →
    sm_next_waiter s' = S (sm_next_waiter s) → sm_sent s' = sm_sent s → waiters_inv s').
  { intros e' s' He' Hw Hn Hs. eapply (waiters_inv_push s s' id); try done.
    intros id'. rewrite Hw, waiters_of_put, He'. unfold waiters_of. cbn. by rewrite E. }
  destruct (se_state e); cbn [snd]; try done;
    (eapply Hpush; cycle 1; [intros; rewrite ?waiters_of_fire; reflexivity|done..]).
Qed.

Lemma flush_inv id e e' s s' r :
  dm_get (sm_entries s) id = Some e → se_waiters e' = [] →
  (∀ id', waiters_of s' id' = waiters_of (put_entry id e' s) id') →
  sm_next_waiter s' = sm_next_waiter s →
  sm_sent s' = sm_sent s ++ ((λ w, (w, r)) <$> se_waiters e) →
  waiters_inv s → waiters_inv s'.
Proof.
  intros He He' Hw Hn Hs Hi. eapply (waiters_inv_flush s s' id r); try done.
  - intros id'. by rewrite Hw, waiters_of_put, He'.
  - unfold waiters_of. by rewrite He.
Qed.

Ltac flush_waiters id e E :=
  eapply (flush_inv id e); [exact E| |intros; reflexivity|reflexivity|reflexivity|done]; done.

Lemma ensure_start_failed_inv id s : waiters_inv s → waiters_inv (ensure_start_failed id s).
Proof.
  intros Hi. unfold ensure_start_failed. destruct (dm_get (sm_entries s) id) as [e|] eqn:E; [|done].
  flush_waiters id e E.
Qed.

Lemma notify_waiters_inv id r s : waiters_inv s → waiters_inv (notify_waiters id r s).
Proof.
  intros Hi. unfold notify_waiters. destruct (dm_get (sm_entries s) id) as [e|] eqn:E; [|done].
  flush_waiters id e E.
Qed.

(** The other operations do not touch waiters. *)
Ltac keep_waiters E :=
  match goal with
  | Hi : waiters_inv ?s |- _ =>
    apply (waiters_inv_keep s); [intros ?|reflexivity|reflexivity|exact Hi]
  end;
  cbn [snd]; rewrite ?waiters_of_fire;
  first [reflexivity | eapply waiters_of_put_same; [exact E|reflexivity]].

Lemma start_begin_inv id s : waiters_inv s → waiters_inv (start_begin id s).2.
Proof.
  intros Hi. unfold start_begin. destruct (dm_get (sm_entries s) id) as [e|] eqn:E; [|done].
  destruct (is_startable _); [keep_waiters E|done].
Qed.

Lemma stop_begin_inv id s : waiters_inv s → waiters_inv (stop_begin id s).2.
Proof.
  intros Hi. unfold stop_begin. destruct (dm_get (sm_entries s) id) as [e|] eqn:E; [|done].
  keep_waiters E.
Qed.

Lemma stop_end_inv id old r s : waiters_inv s → waiters_inv (stop_end id old r s).2.
Proof.
  intros Hi. unfold stop_end.
  destruct r; cbn [snd]; destruct (dm_get (sm_entries s) id) as [e0|] eqn:E; keep_waiters E.
Qed.

Lemma update_state_inv id status s : waiters_inv s → waiters_inv (update_state id status s).2.
Proof.
  intros Hi. unfold update_state. destruct (dm_get (sm_entries s) id) as [e|] eqn:E; [|done].
  destruct (decide _); [done|]. keep_waiters E.
Qed.

Lemma auto_shutdown_due_inv id n now s : waiters_inv s → waiters_inv (auto_shutdown_due id n now s).2.
Proof.
  intros Hi. unfold auto_shutdown_due. destruct (dm_get (sm_entries s) id) as [e|] eqn:E; [|done].
  destruct (decide _); [keep_waiters E|]. destruct (se_shutdown_after e); [|done].
  destruct (se_last_player_seen e); [done|]. keep_waiters E.
Qed.

Lemma resume_inv p s next s' : resume p s next s' → waiters_inv s → waiters_inv s'.
Proof.
  destruct 1 as [| | | | | | |id n now s s1 old s2 H1 H2]; intros Hi;
    auto using ensure_start_failed_inv, stop_end_inv, notify_waiters_inv, auto_shutdown_due_inv, update_state_inv.
  apply (f_equal snd) in H1, H2. cbn in H1, H2. subst.
  by apply stop_begin_inv, auto_shutdown_due_inv.
Qed.

Lemma step_inv w w' : step w w' → waiters_inv (w_service w) → waiters_inv (w_service w').
Proof.
  destruct 1 as [| |id old s' w H1| |ps p ps' nx s' w _ Hr]; intros Hi; cbn [w_service];
    auto using ensure_begin_inv, start_begin_inv.
  - apply (f_equal snd) in H1. cbn in H1. subst. by apply stop_begin_inv.
  - by eapply resume_inv.
Qed.

(** ** The middleware *)

Section server_manager_middleware.
Context `{IPN : IpNets}.

(** [ensure] is what the awaited call of [ensure_started] returns. *)
Definition server_manager (s : ServerManagerService) (ensure : rstring → answer)
    (ctx : ConnectionContext) : MiddlewareResult :=
  match ext_routing ctx with
  | None => Continue
  | Some routing =>
    match sc_server_manager (rd_server_config routing) with
    | None => Continue
    | Some _ =>
      let server_id := effective_id (rd_server_config routing) in
      match get_state s server_id with
      | None => Continue
      | Some Stopping => Reject (str "Server is shutting down, please try again later.")
      | Some Sleeping | Some Crashed | Some Starting =>
        match ensure server_id with
        | Ok _ => Continue
        | Err (StartTimeout _ _) => Reject (str "Server failed to start in time. Please try again.")
        | Err _ => Reject (str "Server is unavailable. Please try again later.")
        end
      | Some _ => Continue
      end
    end
  end.
End server_manager_middleware.

(** ** Properties *)

Lemma waiters_inv_new configs : waiters_inv (service_new configs).
Proof.
  assert (Hw : ∀ id, waiters_of (service_new configs) id = []).
  { intros id. unfold waiters_of, service_new. cbn [sm_entries].
    assert (Hg : ∀ m : SM, (∀ e, dm_get m id = Some e → se_waiters e = []) →
      ∀ e, dm_get (foldl (λ m idc, let '(after, timeout, poll) := manager_timing idc.2 in
        dm_insert idc.1 (entry_new after timeout poll) m) m configs) id = Some e → se_waiters e = []).
    { induction configs as [|[i c] configs IH]; [done|]. intros m Hm. cbn [foldl fst snd].
      destruct (manager_timing c) as [[after timeout] poll]. apply IH. intros e.
      rewrite dm_get_insert. destruct (decide _); [by intros [= <-]|apply Hm]. }
    destruct (dm_get _ id) as [e|] eqn:E; [|done]. eapply Hg; [|exact E].
    intros e'. by rewrite dm_get_new. }
  split; cbn.
  - intros id w. by rewrite Hw; intros ?%not_elem_of_nil.
  - constructor.
  - by intros w ?%not_elem_of_nil.
  - intros id. rewrite Hw. constructor.
  - intros id id' w. by rewrite Hw; intros ?%not_elem_of_nil.
  - intros w. lia.
Qed.

(** C24: In every interleaving of players, operators and monitors, each player who waits for
    a server is registered with exactly one server or has been answered exactly once,
    never both and never neither. *)
Theorem waiters_answered_once (configs : list (rstring * ServerManagerConfig)) (w : world) :
  rtc step (Build_world (service_new configs) []) w →
  let s := w_service w in
  NoDup (sm_sent s).*1 ∧
  ∀ n, (n < sm_next_waiter s)%nat ↔
    (n ∈ (sm_sent s).*1 ∧ ∀ id, n ∉ waiters_of s id) ∨
    (n ∉ (sm_sent s).*1 ∧ ∃ id, n ∈ waiters_of s id ∧ NoDup (waiters_of s id) ∧
       ∀ id', n ∈ waiters_of s id' → id' = id).
Proof.
  intros Hrun s.
  assert (Hi : waiters_inv s).
  { unfold s. pose proof (waiters_inv_new configs) as H0. revert H0.
    change (service_new configs) with (w_service (Build_world (service_new configs) [])).
    induction Hrun as [|x y z Hxy _ IH]; [done|]. intros Hx. by apply IH, (step_inv x). }
  destruct Hi as [H1 H2 H3 H4 H5 H6]. split; [done|]. intros n. split.
  - intros Hn. destruct (decide (n ∈ (sm_sent s).*1)) as [Hs|Hs].
    + left. split; [done|]. intros id Hx. by apply H1 in Hx as [_ ?].
    + right. split; [done|]. destruct (H6 n Hn) as [|[id Hid]]; [done|]. exists id. eauto.
  - intros [[Hs _]|[_ (id&Hid&_)]]; [by apply H3|]. by apply H1 in Hid as [? _].
Qed.

Lemma get_put id e s : dm_get (sm_entries (put_entry id e s)) id = Some e.
Proof. cbn. rewrite dm_get_insert. by rewrite decide_True. Qed.

(** A server is stopped for inactivity exactly when no player is on it and the last one
    was seen at least the configured time ago; the check changes neither state nor
    waiters, and a player on the server resets the clock. *)
Theorem auto_shutdown_exact (id : rstring) (n now : Z) (s : ServerManagerService) :
  ((auto_shutdown_due id n now s).1 = true ↔
     n ≤ 0 ∧ ∃ e after seen, dm_get (sm_entries s) id = Some e ∧
       se_shutdown_after e = Some after ∧ se_last_player_seen e = Some seen ∧ seen + after ≤ now) ∧
  (∀ e, dm_get (sm_entries s) id = Some e →
     ∃ e', dm_get (sm_entries (auto_shutdown_due id n now s).2) id = Some e' ∧
       se_state e' = se_state e ∧ se_waiters e' = se_waiters e ∧
       (0 < n → se_last_player_seen e' = Some now)) ∧
  sm_fired (auto_shutdown_due id n now s).2 = sm_fired s.
Proof.
  unfold auto_shutdown_due. destruct (dm_get (sm_entries s) id) as [e|] eqn:E; [|naive_solver].
  destruct (decide (n > 0)).
  { cbn [fst snd]. split_and!; [split; [done|lia]| |done]. intros e0 [= <-]. rewrite get_put. eauto. }
  destruct (se_shutdown_after e) as [after|] eqn:Ea.
  2:{ cbn [fst snd]. split_and!; [split; [done|naive_solver]| |done]. intros e0 [= <-].
      exists e. split_and!; [done..|lia]. }
  destruct (se_last_player_seen e) as [seen|] eqn:Es; cbn [fst snd].
  - split_and!; [| |done].
    + rewrite bool_decide_eq_true. split; [intros; split; [lia|]; exists e, after, seen; naive_solver lia|].
      intros (_&e0&a0&s0&[= <-]&?&?&?). simplify_eq. lia.
    + intros e0 [= <-]. exists e. split_and!; [done..|lia].
  - split_and!; [split; [done|naive_solver]| |done]. intros e0 [= <-]. rewrite get_put. eauto.
Qed.

Lemma check_auto_shutdown_waiters id n now stop s :
  sm_sent (check_auto_shutdown id n now stop s) = sm_sent s ∧
  waiters_of (check_auto_shutdown id n now stop s) id = waiters_of s id.
Proof.
  unfold check_auto_shutdown.
  assert (Hd : sm_sent (auto_shutdown_due id n now s).2 = sm_sent s ∧
    waiters_of (auto_shutdown_due id n now s).2 id = waiters_of s id).
  { unfold auto_shutdown_due. destruct (dm_get (sm_entries s) id) as [e|] eqn:E; [|done].
    destruct (decide _); [split; [done|]; by eapply waiters_of_put_same|].
    destruct (se_shutdown_after e); [|done]. destruct (se_last_player_seen e); [done|].
    split; [done|]. by eapply waiters_of_put_same. }
  destruct (auto_shutdown_due id n now s) as [[] s1]; cbn [snd] in Hd; [|done].
  destruct Hd as [<- <-]. unfold stop_begin.
  destruct (dm_get (sm_entries s1) id) as [e|] eqn:E; [|done]. unfold stop_end.
  destruct stop; cbn [snd]; cbn [fire_state_change sm_entries]; rewrite get_put; (split; [done|]);
    rewrite ?waiters_of_fire, !waiters_of_put, decide_True by done; unfold waiters_of; by rewrite E.
Qed.

(** A poll that finds the server running answers everybody who waits. *)
Lemma running_poll_releases_waiters (id : rstring) (n now : Z) (stop : answer) (fast : bool)
    (s : ServerManagerService) (st : ServerState) (w : nat) :
  get_state s id = Some st → st ≠ Online → st ≠ Crashed → w ∈ waiters_of s id →
  let s' := (monitor_round id (Ok StRunning) n now stop fast s).2 in
  (w, Ok ()) ∈ sm_sent s' ∧ waiters_of s' id = [].
Proof.
  intros Hst Hon Hcr Hw. unfold monitor_round. rewrite decide_False by congruence.
  unfold get_state in Hst. destruct (dm_get (sm_entries s) id) as [e|] eqn:E; [|done].
  injection Hst as Hst. unfold update_state. rewrite E. cbn [state_of_status].
  rewrite decide_False by congruence. cbn [after_transition].
  rewrite decide_True by done. cbn [snd].
  set (s1 := fire_state_change _ _ _ _).
  assert (E1 : dm_get (sm_entries s1) id = Some (entry_set_state Online e)) by apply get_put.
  set (s2 := notify_waiters id (Ok ()) s1).
  assert (H2 : (w, Ok ()) ∈ sm_sent s2 ∧ waiters_of s2 id = []).
  { unfold s2, notify_waiters. rewrite E1. split.
    - cbn. apply elem_of_app. right. apply list_elem_of_fmap. exists w. split; [done|].
      unfold waiters_of in Hw. by rewrite E in Hw.
    - unfold waiters_of. cbn. rewrite dm_get_insert. by rewrite decide_True. }
  destruct (check_auto_shutdown_waiters id n now stop s2) as [-> ->]. done.
Qed.

(** While a server that a player woke up is starting, the monitor sees no transition
    and keeps polling at six times the configured interval. *)
Theorem wakeup_is_polled_slowly (id : rstring) (s s' : ServerManagerService) (w : nat)
    (timeout : Duration) (n now : Z) (stop : answer) (fast : bool) :
  ensure_begin id s = (EnsureWait w timeout true, s') →
  get_state s' id = Some Starting ∧
  monitor_round id (Ok StStarting) n now stop fast s' = (fast, s') ∧
  monitor_interval false s' id = 6 * get_poll_interval s' id.
Proof.
  intros Hb. assert (Hst : get_state s' id = Some Starting).
  { unfold ensure_begin in Hb. destruct (dm_get (sm_entries s) id) as [e|]; [|done].
    destruct (se_state e); try done; injection Hb as _ _ <-;
      unfold get_state; cbn; rewrite dm_get_insert; by rewrite decide_True. }
  split_and!; [done| |unfold monitor_interval; lia].
  unfold monitor_round. rewrite Hst, decide_False by done.
  unfold get_state in Hst. destruct (dm_get (sm_entries s') id) as [e|] eqn:E; [|done].
  injection Hst as Hst. unfold update_state. rewrite E. cbn [state_of_status].
  rewrite decide_True by done. done.
Qed.

(** ** A waiting player stays where it waits until it is answered *)

(** [n] waits for [id], or has been answered. *)
Definition kept (n : nat) (id : rstring) (s : ServerManagerService) : Prop :=
  n ∈ (sm_sent s).*1 ∨ n ∈ waiters_of s id.

Lemma kept_same n id s s' :
  (∀ i, waiters_of s' i = waiters_of s i) → sm_sent s' = sm_sent s → kept n id s → kept n id s'.
Proof. intros Hw Hs. unfold kept. by rewrite Hw, Hs. Qed.

Lemma kept_flush n id i e e' s s' r :
  dm_get (sm_entries s) i = Some e →
  (∀ id', waiters_of s' id' = waiters_of (put_entry i e' s) id') →
  sm_sent s' = sm_sent s ++ ((λ w, (w, r)) <$> se_waiters e) →
  kept n id s → kept n id s'.
Proof.
  intros He Hw Hs [Hk|Hk]; [left; rewrite Hs, fmap_app; apply elem_of_app; by left|].
  destruct (decide (i = id)) as [->|Hne].
  - left. rewrite Hs, fmap_app, <- list_fmap_compose. apply elem_of_app. right.
    apply list_elem_of_fmap. exists n. split; [done|]. unfold waiters_of in Hk. by rewrite He in Hk.
  - right. by rewrite Hw, waiters_of_put, decide_False.
Qed.

Ltac keeps_waiter E :=
  match goal with
  | Hk : kept _ _ ?s |- _ => apply (kept_same _ _ s); [intros ?|reflexivity|exact Hk]
  end;
  cbn [snd]; rewrite ?waiters_of_fire;
  first [reflexivity | eapply waiters_of_put_same; [exact E|reflexivity]].

Lemma kept_ensure_begin n id i s : kept n id s → kept n id (ensure_begin i s).2.
Proof.
  intros Hk. unfold ensure_begin. destruct (dm_get (sm_entries s) i) as [e|] eqn:E; [|done].
  destruct (se_state e); cbn [snd]; try done;
    (destruct Hk as [Hk|Hk]; [by left|right]; rewrite ?waiters_of_fire, waiters_of_put; cbn;
     destruct (decide (i = id)) as [->|]; [|done]; unfold waiters_of in Hk; rewrite E in Hk;
     apply elem_of_app; by left).
Qed.

Lemma kept_start_begin n id i s : kept n id s → kept n id (start_begin i s).2.
Proof.
  intros Hk. unfold start_begin. destruct (dm_get (sm_entries s) i) as [e|] eqn:E; [|done].
  destruct (is_startable _); [keeps_waiter E|done].
Qed.

Lemma kept_stop_begin n id i s : kept n id s → kept n id (stop_begin i s).2.
Proof.
  intros Hk. unfold stop_begin. destruct (dm_get (sm_entries s) i) as [e|] eqn:E; [|done].
  keeps_waiter E.
Qed.

Lemma kept_auto_shutdown_due n id i c now s : kept n id s → kept n id (auto_shutdown_due i c now s).2.
Proof.
  intros Hk. unfold auto_shutdown_due. destruct (dm_get (sm_entries s) i) as [e|] eqn:E; [|done].
  destruct (decide _); [keeps_waiter E|]. destruct (se_shutdown_after e); [|done].
  destruct (se_last_player_seen e); [done|]. keeps_waiter E.
Qed.

Lemma kept_resume n id p s next s' : resume p s next s' → kept n id s → kept n id s'.
Proof.
  destruct 1 as [|i s|i old r s| |i status ? ? ? s|i r s|i c now s _|i c now s s1 old s2 H1 H2]; intros Hk; try done.
  - unfold ensure_start_failed. destruct (dm_get (sm_entries s) i) as [e|] eqn:E; [|done].
    eapply (kept_flush n id i e); [exact E|intros; reflexivity|reflexivity|exact Hk].
  - unfold stop_end. destruct r; cbn [snd]; destruct (dm_get (sm_entries s) i) as [e0|] eqn:E; keeps_waiter E.
  - unfold update_state. destruct (dm_get (sm_entries s) i) as [e|] eqn:E; [|done].
    destruct (decide _); [done|]. keeps_waiter E.
  - unfold notify_waiters. destruct (dm_get (sm_entries s) i) as [e|] eqn:E; [|done].
    eapply (kept_flush n id i e); [exact E|intros; reflexivity|reflexivity|exact Hk].
  - by apply kept_auto_shutdown_due.
  - apply (f_equal snd) in H1, H2. cbn in H1, H2. subst.
    by apply kept_stop_begin, kept_auto_shutdown_due.
Qed.

Lemma kept_step n id w w' : step w w' → kept n id (w_service w) → kept n id (w_service w').
Proof.
  destruct 1 as [| |i old s' w H1| |ps p ps' nx s' w _ Hr]; intros Hk; cbn [w_service];
    auto using kept_ensure_begin, kept_start_begin.
  - apply (f_equal snd) in H1. cbn in H1. subst. by apply kept_stop_begin.
  - by eapply kept_resume.
Qed.

Lemma ensure_begin_waits id s s' w timeout start :
  ensure_begin id s = (EnsureWait w timeout start, s') → w ∈ waiters_of s' id.
Proof.
  unfold ensure_begin. destruct (dm_get (sm_entries s) id) as [e|]; [|done].
  destruct (se_state e); try done; intros [= <- _ _ <-];
    unfold waiters_of; cbn; rewrite dm_get_insert, decide_True by done; cbn;
    apply elem_of_app; right; by apply list_elem_of_singleton.
Qed.

End service.

(** ** A concrete service *)

Definition sample_manager : LocalManagerConfig :=
  Build_LocalManagerConfig (str "java") (str "/srv/survival") [] ready_pattern shutdown_timeout
    (Some (from_secs 600)) start_timeout.
Definition survival_id : rstring := str "survival".
Definition sample_service : ServerManagerService (SM := assoc_map rstring ServerEntry) :=
  service_new [(survival_id, SMLocal sample_manager)].

Lemma waiters_answered_once_witness :
  let s := (ensure_begin survival_id sample_service).2 in
  NoDup (sm_sent s).*1 ∧ sm_next_waiter s = 1%nat ∧ waiters_of s survival_id = [0%nat].
Proof.
  intros s.
  destruct (waiters_answered_once [(survival_id, SMLocal sample_manager)]
    (Build_world s [PStart survival_id])) as [Hnd _]; [|split; [exact Hnd|by vm_compute]].
  eapply rtc_l; [|apply rtc_refl].
  exact (step_ensure survival_id (Build_world sample_service [])).
Defined.

(** Ten minutes is the time the sample server may be idle. *)
Lemma auto_shutdown_exact_witness :
  let s := (auto_shutdown_due survival_id 1 0 sample_service).2 in
  (auto_shutdown_due survival_id 0 (from_secs 3600) s).1 = true.
Proof.
  intros s. apply (auto_shutdown_exact survival_id 0 (from_secs 3600) s). split; [lia|].
  do 3 eexists. split; [vm_compute; reflexivity|]. split; [vm_compute; reflexivity|].
  split; [vm_compute; reflexivity|]. by vm_compute.
Defined.

Lemma wakeup_is_polled_slowly_witness :
  let s := (ensure_begin survival_id sample_service).2 in
  monitor_round survival_id (Ok StStarting) 0 0 (Ok ()) false s = (false, s) ∧
  monitor_interval false s survival_id = from_secs 30.
Proof.
  intros s. split; [|by vm_compute].
  apply (wakeup_is_polled_slowly survival_id sample_service s 0 start_timeout). by vm_compute.
Defined.


(** A poll before the process is spawned finds it stopped, and tells the player who woke
    the server up that the start failed. *)
Theorem early_poll_fails_wake_up :
  let s := (ensure_begin survival_id sample_service).2 in
  let s' := (monitor_round survival_id (Ok StStopped) 0 0 (Ok ()) false s).2 in
  sm_sent s' = [(0%nat, Err (ProviderErr survival_id (str "server failed to start")))] ∧
  get_state s' survival_id = Some Sleeping.
Proof. by vm_compute. Qed.

(** After a server has stopped by itself and is woken up an hour later, the monitoring
    round that finds it online answers the player and stops the server again, because
    the time a player was last seen is from before. *)
Theorem stale_idle_clock_stops_woken_server :
  let hour := from_secs 3600 in
  (* a player is seen at time 0, then the server stops by itself *)
  let '(fast, s) := monitor_round survival_id (Ok StRunning) 1 0 (Ok ()) false sample_service in
  let '(fast, s) := monitor_round survival_id (Ok StStopped) 0 (from_secs 30) (Ok ()) fast s in
  (* an hour later a player wakes it up *)
  let '(outcome, s) := ensure_begin survival_id s in
  let '(_, s) := monitor_round survival_id (Ok StRunning) 0 hour (Ok ()) fast s in
  outcome = EnsureWait 0 start_timeout true ∧
  sm_sent s = [(0%nat, Ok ())] ∧
  drop 3 (sm_fired s) = [(survival_id, Starting, Online); (survival_id, Online, Stopping);
                         (survival_id, Stopping, Sleeping)] ∧
  get_state s survival_id = Some Sleeping.
Proof. by vm_compute. Qed.

(** A poll never moves a server to [Crashed]: no status of a provider maps to it. *)
Theorem status_is_never_crashed (id : rstring) (status : ProviderStatus)
    (s : ServerManagerService (SM := assoc_map rstring ServerEntry)) :
  match (update_state id status s).1 with
  | Some (_, new) => new ≠ Crashed
  | None => True
  end.
Proof.
  unfold update_state. destruct (dm_get (sm_entries s) id) as [e|]; [|done].
  destruct (decide _); [done|]. by destruct status.
Qed.
