(* ===== verification/Forwarding.v ===== *)
(** * Forwarding: telling the backend who the player is

    Models [forwarding/mod.rs], [forwarding/velocity.rs], [forwarding/legacy.rs] and
    [forwarding/bungeeguard.rs], and [offline_uuid] of [auth/game_profile.rs].  HMAC-SHA256,
    MD5, the JSON text of the properties and the texts of addresses and uuids come from
    libraries and are parameters; an address is given as its [Display] text.  The [expect]s
    on writes are [None]: a string over the limit of the protocol makes them panic. *)
From S2P Require Import Prelude Wire Utf8 VarInt Codec Frame Version Packet LoginPackets Registry Bridge Config Middleware.

Record ChatSessionData := {
  csd_expiry : Z;
  csd_public_key : bytes;
  csd_key_signature : bytes;
  csd_holder_uuid : option Z }.

Record ForwardingData := {
  fd_real_ip : rstring;
  fd_uuid : Z;
  fd_username : rstring;
  fd_properties : list Property;
  fd_protocol_version : ProtocolVersion;
  fd_chat_session : option ChatSessionData }.

Inductive ForwardingMode :=
| FwdNone
| FwdBungeeCord
| FwdBungeeGuard (token : rstring)
| FwdVelocity (secret : bytes).

Inductive ForwardingHandler :=
| FHNone
| FHLegacy
| FHBungeeGuard (token : rstring)
| FHVelocity.

Definition build_forwarding_handler (mode : ForwardingMode) : ForwardingHandler :=
  match mode with
  | FwdNone => FHNone
  | FwdBungeeCord => FHLegacy
  | FwdBungeeGuard token => FHBungeeGuard token
  | FwdVelocity _ => FHVelocity
  end.

Definition modifies_handshake (h : ForwardingHandler) : bool :=
  match h with FHLegacy | FHBungeeGuard _ => true | _ => false end.

Definition build_handshake_for_backend `{IPN : IpNets} (h : HandshakeData) (c : ServerConfig) : SHandshake :=
  let domain :=
    match sc_domain_rewrite c with
    | RewriteNone => hd_domain h
    | RewriteExplicit d => d
    | RewriteFromBackend => match sc_addresses c with a :: _ => addr_host a | [] => hd_domain h end
    end in
  let next_state :=
    match hd_intent h with IntentStatus => Status | IntentLogin | IntentTransfer => Login end in
  mk_SHandshake (hd_protocol_version h) domain (hd_port h) next_state.

Section legacy.
Context `{UuidText} (properties_json : list Property → rstring).

Definition set_server_address (address : rstring) (hs : SHandshake) : SHandshake :=
  mk_SHandshake (hs_protocol_version hs) address (hs_server_port hs) (hs_next_state hs).

Definition legacy_apply_handshake (hs : SHandshake) (data : ForwardingData) : SHandshake :=
  set_server_address
    (hs_server_address hs ++ [0] ++ fd_real_ip data ++ [0] ++ uuid_as_simple (fd_uuid data) ++ [0] ++
     properties_json (fd_properties data)) hs.

Definition with_properties (properties : list Property) (data : ForwardingData) : ForwardingData :=
  Build_ForwardingData (fd_real_ip data) (fd_uuid data) (fd_username data) properties
    (fd_protocol_version data) (fd_chat_session data).
Definition bungeeguard_apply_handshake (token : rstring) (hs : SHandshake) (data : ForwardingData)
    : SHandshake :=
  legacy_apply_handshake hs
    (with_properties (fd_properties data ++ [mk_Property (str "bungeeguard-token") token (Some [])]) data).

Definition apply_handshake (h : ForwardingHandler) (hs : SHandshake) (data : ForwardingData) : SHandshake :=
  match h with
  | FHNone | FHVelocity => hs
  | FHLegacy => legacy_apply_handshake hs data
  | FHBungeeGuard token => bungeeguard_apply_handshake token hs data
  end.
End legacy.

(** [Uuid::new_v3(&Uuid::nil(), name)]: MD5 of the namespace and the name, with the version
    and the variant set. *)
Definition uuid_v3 (md5 : bytes → Z) (namespace : Z) (name : bytes) : Z :=
  let hash := md5 (to_be_bytes 16 namespace ++ name) in
  Z.lor (Z.land hash (Z.lnot (Z.lor (Z.shiftl 0xF000 64) (Z.shiftl 0xC0 56))))
    (Z.lor (Z.shiftl 0x3000 64) (Z.shiftl 0x80 56)).
Definition offline_uuid (md5 : bytes → Z) (username : rstring) : Z :=
  uuid_v3 md5 0 (as_bytes (str "OfflinePlayer:" ++ username)).

(** ** Velocity *)

Definition VELOCITY_PLAYER_INFO_CHANNEL : rstring := str "velocity:player_info".
Definition MAX_SUPPORTED_FORWARDING_VERSION : Z := 0x04.

Definition negotiate_version (backend_version : Z) (protocol : ProtocolVersion)
    (has_chat_session : bool) : Z :=
  let requested := Z.min backend_version MAX_SUPPORTED_FORWARDING_VERSION in
  if decide (requested ≤ 0x01) then 0x01
  else if no_less_than protocol V1_19_3 then (if decide (0x04 ≤ requested) then 0x04 else 0x01)
  else if has_chat_session then 0x02
  else 0x01.

Definition write_holder (holder : option Z) : ProtocolResult bytes :=
  match holder with
  | Some uuid => write_bool true +> write_uuid uuid
  | None => write_bool false
  end.

Definition write_chat_session (version : Z) (session : option ChatSessionData) : ProtocolResult bytes :=
  match session with
  | Some session =>
    if decide (0x02 ≤ version < 0x04) then
      Ok (to_be_bytes 8 (csd_expiry session)) +> write_byte_array (csd_public_key session) +>
      write_byte_array (csd_key_signature session) +>
      (if decide (0x03 ≤ version) then write_holder (csd_holder_uuid session) else Ok [])
    else Ok []
  | None => Ok []
  end.

(** The writes of [build_payload]; an error is a panic. *)
Definition build_payload (data : ForwardingData) (version : Z) : ProtocolResult bytes :=
  write_var_int version +> write_string (fd_real_ip data) +> write_uuid (fd_uuid data) +>
  write_string (fd_username data) +> write_var_int (wrap_s 32 (zlen (fd_properties data))) +>
  wr_list write_property (fd_properties data) +> write_chat_session version (fd_chat_session data).

Definition is_velocity_request (request : CLoginPluginRequest) : bool :=
  bool_decide (lpr_channel request = VELOCITY_PLAYER_INFO_CHANNEL).

(** HMAC-SHA256, a key and a message to 32 bytes. *)
Class HmacSha256 := { sign_payload : bytes → bytes → bytes }.
Class HmacSha256Laws `{HmacSha256} := { sign_payload_length k m : zlen (sign_payload k m) = 32 }.

Section velocity.
Context `{HS : HmacSha256}.

Definition negotiated_version (request : CLoginPluginRequest) (data : ForwardingData) : Z :=
  negotiate_version (default 0x01 (head (lpr_data request))) (fd_protocol_version data)
    (bool_decide (is_Some (fd_chat_session data))).

Definition build_velocity_response (request : CLoginPluginRequest) (data : ForwardingData)
    (secret : bytes) : option SLoginPluginResponse :=
  match build_payload data (negotiated_version request data) with
  | Ok payload =>
    Some (mk_SLoginPluginResponse (lpr_message_id request) true (sign_payload secret payload ++ payload))
  | Err _ => None
  end.

(** ** What the backend reads *)

(** A backend checks the signature over all that follows it, then reads the identity. *)
Definition read_identity : reader (Z * rstring * Z * rstring * list Property) :=
  version ← read_var_int;
  ip ← read_string;
  uuid ← read_uuid;
  name ← read_string;
  n ← read_var_int;
  properties ← read_n (Z.to_nat n) read_property;
  mret (version, ip, uuid, name, properties).

Definition backend_accepts (secret data : bytes)
    : option (Z * rstring * Z * rstring * list Property * bytes) :=
  let signature := take 32 data in
  let payload := drop 32 data in
  if decide (signature = sign_payload secret payload) then
    match read_identity payload with
    | Ok (identity, rest) => Some (identity, rest)
    | Err _ => None
    end
  else None.

Definition forwarding_ok (data : ForwardingData) : Prop :=
  is_text 32767 (fd_real_ip data) ∧ in_u 128 (fd_uuid data) ∧ is_text 32767 (fd_username data) ∧
  zlen (fd_properties data) < 2 ^ 31 ∧ Forall property_ok (fd_properties data).

Lemma negotiate_version_range backend protocol session :
  1 ≤ negotiate_version backend protocol session ≤ 4 ∧
  negotiate_version backend protocol session ≤ Z.max 1 backend.
Proof.
  unfold negotiate_version, MAX_SUPPORTED_FORWARDING_VERSION.
  case_decide; [lia|]. destruct (no_less_than protocol V1_19_3); [case_decide; lia|]. destruct session; lia.
Qed.

Lemma write_chat_session_Ok version session : ∃ rest, write_chat_session version session = Ok rest.
Proof.
  destruct session as [[e pk sig [h|]]|]; unfold write_chat_session; repeat case_decide;
    eexists; reflexivity.
Qed.

Lemma identity_codes data version :
  forwarding_ok data → in_s 32 version →
  codes (write_var_int version +> write_string (fd_real_ip data) +> write_uuid (fd_uuid data) +>
    write_string (fd_username data) +> write_var_int (wrap_s 32 (zlen (fd_properties data))) +>
    wr_list write_property (fd_properties data)) read_identity
    (version, fd_real_ip data, fd_uuid data, fd_username data, fd_properties data).
Proof.
  intros (Hip&Huuid&Hname&Hlen&Hprops) Hv. pose proof (zlen_nonneg (fd_properties data)) as Hz.
  rewrite wrap_s_small by (lia || unfold in_s; lia).
  unfold read_identity. eapply codes_bind; [by apply codes_var_int|].
  eapply codes_bind; [by apply codes_string|]. eapply codes_bind; [by apply codes_uuid|].
  eapply codes_bind; [by apply codes_string|].
  eapply codes_bind; [apply codes_var_int; unfold in_s; lia|].
  eapply codes_bind_ret; [|done]. unfold zlen. rewrite Nat2Z.id.
  apply codes_list; [done|]. eapply Forall_impl; [exact Hprops|]. intros p Hp. by apply codes_property.
Qed.

(** The backend accepts the answer to its request and reads the identity off it; the
    version is one it asked for. *)
Theorem velocity_identity_accepted `{!HmacSha256Laws} (request : CLoginPluginRequest)
    (data : ForwardingData) (secret : bytes) :
  forwarding_ok data →
  let version := negotiated_version request data in
  (1 ≤ version ≤ 4 ∧ version ≤ Z.max 1 (default 1 (head (lpr_data request)))) ∧
  ∃ response rest,
    build_velocity_response request data secret = Some response ∧
    lps_message_id response = lpr_message_id request ∧ lps_successful response = true ∧
    write_chat_session version (fd_chat_session data) = Ok rest ∧
    backend_accepts secret (lps_data response) =
      Some ((version, fd_real_ip data, fd_uuid data, fd_username data, fd_properties data), rest).
Proof.
  intros Hok version. split; [apply negotiate_version_range|].
  assert (Hv : in_s 32 version).
  { unfold version, negotiated_version.
    pose proof (negotiate_version_range (default 1 (head (lpr_data request))) (fd_protocol_version data)
      (bool_decide (is_Some (fd_chat_session data)))). unfold in_s. lia. }
  destruct (write_chat_session_Ok version (fd_chat_session data)) as (rest&Hrest).
  destruct (identity_codes data version Hok Hv) as (bs&Hbs&Hr).
  assert (Hp : build_payload data version = Ok (bs ++ rest)).
  { unfold build_payload. rewrite Hrest. rewrite <- !wr_app_assoc. rewrite <- !wr_app_assoc in Hbs.
    by rewrite Hbs. }
  unfold build_velocity_response. fold version. rewrite Hp. eexists _, rest.
  split_and!; [reflexivity..|done|]. cbn [lps_data]. unfold backend_accepts.
  pose proof (sign_payload_length secret (bs ++ rest)) as Hlen. unfold zlen in Hlen.
  rewrite take_app_length', drop_app_length' by lia. rewrite decide_True by done. by rewrite Hr.
Qed.
End velocity.

(** ** Witness *)

#[local] Instance sum_mac : HmacSha256 := {| sign_payload k m := replicate 32 (foldr Z.add 0 (k ++ m)) |}.
#[local] Instance sum_mac_laws : HmacSha256Laws.
Proof. split. intros. unfold sign_payload, sum_mac, zlen. by rewrite length_replicate. Qed.

Definition sample_request : CLoginPluginRequest := mk_CLoginPluginRequest 9 VELOCITY_PLAYER_INFO_CHANNEL [4].
Definition sample_data : ForwardingData :=
  Build_ForwardingData (str "192.168.1.42") 42 (str "Notch")
    [mk_Property (str "textures") (str "eyJ0") (Some (str "Yp4q"))] V1_21 None.

Lemma velocity_identity_accepted_witness :
  ∃ response, build_velocity_response sample_request sample_data [1; 2; 3] = Some response ∧
    backend_accepts [1; 2; 3] (lps_data response) =
      Some ((4, str "192.168.1.42", 42, str "Notch", fd_properties sample_data), []).
Proof.
  destruct (velocity_identity_accepted sample_request sample_data [1; 2; 3]) as (_&r&rest&Hr&_&_&Hrest&Ha).
  - unfold forwarding_ok. split_and!; try (apply (bool_decide_unpack _); vm_compute; exact I).
    apply Forall_singleton. unfold property_ok. split_and!; apply (bool_decide_unpack _); vm_compute; exact I.
  - exists r. split; [exact Hr|]. injection Hrest as <-. exact Ha.
Defined.
