(* ===== verification/Backend.v ===== *)
(** * Backend: the backend's end of a connection, and its login

    Models [session/backend_bridge.rs].  The socket is the list of the chunks that reads
    will yield, an empty chunk or the end of the list being the end of the stream, the
    bytes written so far, and the error, if any, that writing meets.  The login loop runs
    with one unit of fuel per frame; a frame has at least one byte, so that fuel for every
    byte is enough ([consume_login_enough]).  Its time limit is not modelled. *)
From S2P Require Import Prelude Wire Utf8 VarInt Codec Frame Version Packet LoginPackets PlayPackets Registry.
From S2P Require Import DefaultRegistry Bridge Config Middleware Forwarding.

Record BackendBridge := mk_BackendBridge {
  bb_decoder : PacketDecoder;
  bb_encoder : PacketEncoder;
  bb_state : ConnectionState;
  bb_version : ProtocolVersion;
  bb_written : bytes;
  bb_broken : option IoErrorKind }.

Definition BackendBridge_new (v : ProtocolVersion) : BackendBridge :=
  mk_BackendBridge PacketDecoder_new PacketEncoder_new Login v [] None.

Definition bb_set_compression (threshold : Z) (b : BackendBridge) : BackendBridge :=
  mk_BackendBridge (dec_set_compression threshold (bb_decoder b))
    (enc_set_compression threshold (bb_encoder b)) (bb_state b) (bb_version b) (bb_written b) (bb_broken b).
Definition bb_set_state (s : ConnectionState) (b : BackendBridge) : BackendBridge :=
  mk_BackendBridge (bb_decoder b) (bb_encoder b) s (bb_version b) (bb_written b) (bb_broken b).
Definition bb_set_decoder (d : PacketDecoder) (b : BackendBridge) : BackendBridge :=
  mk_BackendBridge d (bb_encoder b) (bb_state b) (bb_version b) (bb_written b) (bb_broken b).
Definition bb_set_encoder (e : PacketEncoder) (b : BackendBridge) : BackendBridge :=
  mk_BackendBridge (bb_decoder b) e (bb_state b) (bb_version b) (bb_written b) (bb_broken b).

(** [stream.write_all(data)]. *)
Definition bb_write_all (data : bytes) (b : BackendBridge) : result CoreError () * BackendBridge :=
  match bb_broken b with
  | Some kind => (Err (CIo kind), b)
  | None =>
    (Ok (), mk_BackendBridge (bb_decoder b) (bb_encoder b) (bb_state b) (bb_version b)
       (bb_written b ++ data) (bb_broken b))
  end.

Section bridge.
Context `{ZL : Zlib}.

Fixpoint bb_read_frame (b : BackendBridge) (chunks : list bytes)
    : result CoreError (option PacketFrame) * BackendBridge * list bytes :=
  match try_next_frame (bb_decoder b) with
  | (Err e, d) => (Err (CProtocol e), bb_set_decoder d b, chunks)
  | (Ok (Some frame), d) => (Ok (Some frame), bb_set_decoder d b, chunks)
  | (Ok None, d) =>
    match chunks with
    | [] => (Ok None, bb_set_decoder d b, [])
    | chunk :: chunks =>
      if decide (chunk = []) then (Ok None, bb_set_decoder d b, chunks)
      else bb_read_frame (bb_set_decoder (queue_bytes d chunk) b) chunks
    end
  end.

(** [append_raw]; [take]; [write_all]. *)
Definition bb_write (id : Z) (data : bytes) (b : BackendBridge) : result CoreError () * BackendBridge :=
  match append_raw id data (bb_encoder b) with
  | (Err e, enc) => (Err (CProtocol e), bb_set_encoder enc b)
  | (Ok _, enc) =>
    let '(data, enc) := enc_take enc in bb_write_all data (bb_set_encoder enc b)
  end.

Definition bb_write_frame (frame : PacketFrame) (b : BackendBridge) : result CoreError () * BackendBridge :=
  bb_write (frame_id frame) (payload frame) b.

Context `{UT : UuidText}.

Definition bb_send_packet (registry : PacketRegistry) (packet : ErasedPacket) (b : BackendBridge)
    : result CoreError () * BackendBridge :=
  let P := projT1 packet in
  match get_packet_id registry P (bb_state b) (pkt_direction (kind_type P)) (bb_version b) with
  | None =>
    (Err (Auth ("no packet ID for " +:+ NAME (kind_type P) +:+ " in " +:+ state_debug (bb_state b))), b)
  | Some packet_id =>
    match encode_payload packet (bb_version b) with
    | Err e => (Err (CProtocol e), b)
    | Ok data => bb_write packet_id data b
    end
  end.

(** ** Opening the login *)

Context `{IPN : IpNets}.

Fixpoint bb_write_raws (raws : list bytes) (b : BackendBridge) : result CoreError () * BackendBridge :=
  match raws with
  | [] => (Ok (), b)
  | raw :: raws =>
    match bb_write_all raw b with
    | (Ok _, b) => bb_write_raws raws b
    | (Err e, b) => (Err e, b)
    end
  end.

Definition send_initial_packets (h : HandshakeData) (c : ServerConfig) (b : BackendBridge)
    : result CoreError () * BackendBridge :=
  match rewrite_handshake h c with
  | Err e => (Err e, b)
  | Ok handshake_bytes => bb_write_raws (handshake_bytes :: tail (hd_raw_packets h)) b
  end.

Context (md5 : bytes → Z).

(** The login start with the offline uuid. *)
Definition send_login_start (registry : PacketRegistry) (username : rstring) (version : ProtocolVersion)
    (b : BackendBridge) : result CoreError () * BackendBridge :=
  let login_start := mk_SLoginStart username (Some (offline_uuid md5 username)) None in
  let packet_id := default 0 (get_packet_id registry KSLoginStart Login Serverbound version) in
  match SLoginStart_encode login_start version with
  | Err e => (Err (CProtocol e), b)
  | Ok payload => bb_write packet_id payload b
  end.

Definition send_initial_packets_offline (h : HandshakeData) (c : ServerConfig) (username : rstring)
    (registry : PacketRegistry) (b : BackendBridge) : result CoreError () * BackendBridge :=
  match rewrite_handshake h c with
  | Err e => (Err e, b)
  | Ok handshake_bytes =>
    match bb_write_all handshake_bytes b with
    | (Err e, b) => (Err e, b)
    | (Ok _, b) => send_login_start registry username (hd_protocol_version h) b
    end
  end.

Definition send_handshake_and_login (handshake : SHandshake) (username : rstring)
    (registry : PacketRegistry) (b : BackendBridge) : result CoreError () * BackendBridge :=
  match SHandshake_encode handshake (bb_version b) with
  | Err e => (Err (CProtocol e), b)
  | Ok payload =>
    match bb_write 0 payload b with
    | (Err e, b) => (Err e, b)
    | (Ok _, b) => send_login_start registry username (bb_version b) b
    end
  end.

(** ** Consuming the backend's login *)

Context `{HS : HmacSha256}.

(** What a packet of the login comes to. *)
Inductive login_step :=
| LoginContinue
| LoginDone
| LoginFailed (e : CoreError)
| LoginPanicked.

Definition answer (registry : PacketRegistry) (response : SLoginPluginResponse) (b : BackendBridge)
    : login_step * BackendBridge :=
  match bb_send_packet registry (existT KSLoginPluginResponse response) b with
  | (Ok _, b) => (LoginContinue, b)
  | (Err e, b) => (LoginFailed e, b)
  end.

Definition login_packet (registry : PacketRegistry) (version : ProtocolVersion)
    (velocity_ctx : option (ForwardingData * bytes)) (packet : ErasedPacket) (b : BackendBridge)
    : login_step * BackendBridge :=
  match downcast KCSetCompression packet with
  | Some set_comp => (LoginContinue, bb_set_compression (sc_threshold set_comp) b)
  | None =>
    match downcast KCLoginSuccess packet with
    | Some _ => (LoginDone, if less_than version V1_20_2 then bb_set_state Play b else b)
    | None =>
      match downcast KCLoginDisconnect packet with
      | Some disconnect =>
        (LoginFailed (Rejected (str "backend refused login: " ++ ld_reason disconnect)), b)
      | None =>
        match downcast KCLoginPluginRequest packet with
        | Some request =>
          match (if is_velocity_request request then velocity_ctx else None) with
          | Some (fwd_data, secret) =>
            match build_velocity_response request fwd_data secret with
            | Some response => answer registry response b
            | None => (LoginPanicked, b)
            end
          | None => answer registry (mk_SLoginPluginResponse (lpr_message_id request) false []) b
          end
        | None => (LoginContinue, b)
        end
      end
    end
  end.

(** [None] is a panic or the end of the fuel. *)
Fixpoint consume_backend_login (fuel : nat) (registry : PacketRegistry) (version : ProtocolVersion)
    (velocity_ctx : option (ForwardingData * bytes)) (b : BackendBridge) (chunks : list bytes)
    : option (result CoreError ()) * BackendBridge * list bytes :=
  match fuel with
  | O => (None, b, chunks)
  | S fuel =>
    match bb_read_frame b chunks with
    | (Err e, b, chunks) => (Some (Err e), b, chunks)
    | (Ok None, b, chunks) => (Some (Err ConnectionClosed), b, chunks)
    | (Ok (Some frame), b, chunks) =>
      match decode_frame registry frame Login Clientbound version with
      | Err e => (Some (Err (CProtocol e)), b, chunks)
      | Ok (Opaque _ _) => consume_backend_login fuel registry version velocity_ctx b chunks
      | Ok (Typed _ packet) =>
        match login_packet registry version velocity_ctx packet b with
        | (LoginContinue, b) => consume_backend_login fuel registry version velocity_ctx b chunks
        | (LoginDone, b) => (Some (Ok ()), b, chunks)
        | (LoginFailed e, b) => (Some (Err e), b, chunks)
        | (LoginPanicked, b) => (None, b, chunks)
        end
      end
    end
  end.

(** ** The login as a list of frames *)

(** What the loop does with one frame. *)
Definition login_frame (registry : PacketRegistry) (version : ProtocolVersion)
    (velocity_ctx : option (ForwardingData * bytes)) (frame : PacketFrame) (b : BackendBridge)
    : login_step * BackendBridge :=
  match decode_frame registry frame Login Clientbound version with
  | Err e => (LoginFailed (CProtocol e), b)
  | Ok (Opaque _ _) => (LoginContinue, b)
  | Ok (Typed _ packet) => login_packet registry version velocity_ctx packet b
  end.

(** What it comes to at the end. *)
Definition login_result (s : login_step) : option (result CoreError ()) :=
  match s with
  | LoginContinue | LoginPanicked => None
  | LoginDone => Some (Ok ())
  | LoginFailed e => Some (Err e)
  end.

Lemma consume_step fuel registry version ctx b chunks :
  consume_backend_login (S fuel) registry version ctx b chunks =
  match bb_read_frame b chunks with
  | (Err e, b, chunks) => (Some (Err e), b, chunks)
  | (Ok None, b, chunks) => (Some (Err ConnectionClosed), b, chunks)
  | (Ok (Some frame), b, chunks) =>
    match login_frame registry version ctx frame b with
    | (LoginContinue, b) => consume_backend_login fuel registry version ctx b chunks
    | (s, b) => (login_result s, b, chunks)
    end
  end.
Proof.
  cbn [consume_backend_login]. destruct (bb_read_frame b chunks) as [[[[f|]|e] b'] chunks']; [|done..].
  unfold login_frame. destruct (decode_frame _ f _ _ _) as [[id p|id d]|e]; [|done..].
  by destruct (login_packet _ _ _ _ _) as [[] b''].
Qed.

(** ** Reading *)

(** A bridge but for the bytes its decoder holds. *)
Definition same_but_buffer (a b : BackendBridge) : Prop :=
  ∃ buf, a = bb_set_decoder (mk_decoder buf (dec_threshold (bb_decoder b))) b.

Definition bb_pending (b : BackendBridge) (chunks : list bytes) : bytes :=
  dec_buf (bb_decoder b) ++ concat chunks.

Lemma bb_set_decoder_twice d d' b : bb_set_decoder d (bb_set_decoder d' b) = bb_set_decoder d b.
Proof. done. Qed.

(** One frame off the stream, whatever the chunks. *)
Lemma bb_read_frame_next `{!ZlibLaws} chunks b id data fb rest :
  in_s 32 id → packet_size id data ≤ MAX_PACKET_DATA_SIZE →
  frame_packet (dec_threshold (bb_decoder b)) id data = Ok fb →
  Forall (λ c, c ≠ []) chunks → bb_pending b chunks = fb ++ rest →
  ∃ b' chunks', bb_read_frame b chunks = (Ok (Some (mk_frame id data)), b', chunks') ∧
    bb_pending b' chunks' = rest ∧ Forall (λ c, c ≠ []) chunks' ∧ same_but_buffer b' b.
Proof.
  intros Hid Hsz. revert b. induction chunks as [|c chunks IH]; intros b Hfb Hne Hp;
    destruct (try_next_prefix _ _ _ _ _ _ Hid Hsz Hfb Hp) as [(d'&Hd&Hr&Ht)|[Hd Hmore]];
    cbn [bb_read_frame]; rewrite Hd.
  - eexists _, _. split_and!; [done|done|done|]. exists (dec_buf d'). rewrite <- Ht. by destruct d'.
  - done.
  - eexists _, _. split_and!; [done|done|done|]. exists (dec_buf d'). rewrite <- Ht. by destruct d'.
  - apply Forall_cons in Hne as [Hc Hne]. rewrite decide_False by done.
    destruct (IH (bb_set_decoder (queue_bytes (bb_decoder b) c) b)) as (b'&chunks'&Hread&Hpend&Hne'&buf&Hb');
      [done|done| |].
    { unfold bb_pending in *. cbn. by rewrite <- app_assoc. }
    exists b', chunks'. split_and!; [done..|]. exists buf. by rewrite Hb'.
Qed.

(** The step for a frame does not look at the decoder's buffer. *)
Lemma bb_write_all_buffer data b d :
  bb_write_all data (bb_set_decoder d b) =
  let '(r, b) := bb_write_all data b in (r, bb_set_decoder d b).
Proof. unfold bb_write_all. cbn. by destruct (bb_broken b). Qed.
Lemma bb_write_buffer id data b d :
  bb_write id data (bb_set_decoder d b) =
  let '(r, b) := bb_write id data b in (r, bb_set_decoder d b).
Proof.
  unfold bb_write. cbn [bb_encoder bb_set_decoder].
  destruct (append_raw id data (bb_encoder b)) as [[[]|e] enc]; [|done].
  destruct (enc_take enc) as [out enc']. apply (bb_write_all_buffer out (bb_set_encoder enc' b)).
Qed.
Lemma bb_write_decoder id data b : bb_decoder (bb_write id data b).2 = bb_decoder b.
Proof.
  unfold bb_write. destruct (append_raw id data (bb_encoder b)) as [[[]|e] enc]; [|done].
  destruct (enc_take enc) as [out enc']. unfold bb_write_all. cbn. by destruct (bb_broken b).
Qed.

Lemma bb_send_packet_buffer registry p b d :
  bb_send_packet registry p (bb_set_decoder d b) =
  let '(r, b) := bb_send_packet registry p b in (r, bb_set_decoder d b).
Proof.
  unfold bb_send_packet. cbn [bb_state bb_version bb_set_decoder].
  destruct (get_packet_id _ _ _ _ _) as [id|]; [|done].
  destruct (encode_payload p (bb_version b)) as [data|e]; [|done]. apply bb_write_buffer.
Qed.
Lemma bb_send_packet_decoder registry p b : bb_decoder (bb_send_packet registry p b).2 = bb_decoder b.
Proof.
  unfold bb_send_packet. destruct (get_packet_id _ _ _ _ _) as [id|]; [|done].
  destruct (encode_payload p (bb_version b)) as [data|e]; [|done]. apply bb_write_decoder.
Qed.

(** [step] does the same to two bridges that differ in the buffered bytes, and keeps these. *)
Definition buffer_blind (step : BackendBridge → login_step * BackendBridge) : Prop :=
  ∀ a b, same_but_buffer a b →
    (step a).1 = (step b).1 ∧ same_but_buffer (step a).2 (step b).2 ∧
    dec_buf (bb_decoder (step a).2) = dec_buf (bb_decoder a).

Lemma answer_blind registry response : buffer_blind (answer registry response).
Proof.
  intros a b (buf&->). unfold answer. rewrite bb_send_packet_buffer.
  pose proof (bb_send_packet_decoder registry (existT KSLoginPluginResponse response) b) as Hd.
  destruct (bb_send_packet registry (existT KSLoginPluginResponse response) b) as [[[]|e] b'];
    cbn [fst snd] in *; (split; [done|]); (split; [exists buf; by rewrite Hd|done]).
Qed.
Lemma const_blind s : buffer_blind (λ b, (s, b)).
Proof. intros a b Hab. done. Qed.

Lemma login_packet_blind registry version ctx packet : buffer_blind (login_packet registry version ctx packet).
Proof.
  unfold login_packet. destruct (downcast KCSetCompression packet) as [sc|].
  { intros a b (buf&->). split; [done|]. split; [by exists buf|done]. }
  destruct (downcast KCLoginSuccess packet).
  { destruct (less_than version V1_20_2); [|apply const_blind].
    intros a b (buf&->). split; [done|]. split; [by exists buf|done]. }
  destruct (downcast KCLoginDisconnect packet); [apply const_blind|].
  destruct (downcast KCLoginPluginRequest packet) as [request|]; [|apply const_blind].
  destruct (if is_velocity_request request then ctx else None) as [[data secret]|]; [|apply answer_blind].
  destruct (build_velocity_response request data secret); [apply answer_blind|apply const_blind].
Qed.

Lemma login_frame_blind registry version ctx frame : buffer_blind (login_frame registry version ctx frame).
Proof.
  unfold login_frame. destruct (decode_frame _ _ _ _ _) as [[id p|id d]|e];
    [apply login_packet_blind|apply const_blind..].
Qed.

(** ** Fuel *)

Lemma bb_read_frame_pending b chunks :
  match bb_read_frame b chunks with
  | (Ok (Some _), b', chunks') =>
    (length (bb_pending b' chunks') < length (bb_pending b chunks))%nat
  | _ => True
  end.
Proof.
  revert b. induction chunks as [|c chunks IH]; intros b; cbn [bb_read_frame];
    pose proof (try_next_frame_app (bb_decoder b) []) as Ht;
    destruct (try_next_frame (bb_decoder b)) as [[[f|]|e] d]; try done;
    try (unfold bb_pending; cbn [bb_decoder bb_set_decoder]; rewrite !length_app; lia).
  case_decide; [done|]. specialize (IH (bb_set_decoder (queue_bytes d c) b)).
  destruct (bb_read_frame _ chunks) as [[[[f|]|e] b'] chunks']; [|done..].
  subst d. unfold bb_pending in *. cbn in IH. rewrite concat_cons. rewrite <- app_assoc in IH. exact IH.
Qed.

Lemma consume_login_enough registry version ctx n m b chunks :
  (length (bb_pending b chunks) < n)%nat → (length (bb_pending b chunks) < m)%nat →
  consume_backend_login n registry version ctx b chunks =
  consume_backend_login m registry version ctx b chunks.
Proof.
  revert m b chunks. induction n as [|n IH]; intros m b chunks Hn Hm; [lia|].
  destruct m as [|m]; [lia|]. rewrite !consume_step.
  pose proof (bb_read_frame_pending b chunks) as Hp.
  destruct (bb_read_frame b chunks) as [[[[f|]|e] b'] chunks']; [|done..].
  pose proof (login_frame_blind registry version ctx f b' b') as (_&_&Hbuf).
  { exists (dec_buf (bb_decoder b')). by destruct b' as [[]]. }
  destruct (login_frame registry version ctx f b') as [[] b'']; [|done..].
  cbn [snd] in Hbuf. apply IH; unfold bb_pending in *; rewrite Hbuf; lia.
Qed.

(** ** The login off the stream *)

(** The frames of a login, the bytes that carry them, each framed with the compression in
    force when it is sent, and what the last of them comes to. *)
Inductive login_stream registry version ctx
    : BackendBridge → list PacketFrame → bytes → login_step → BackendBridge → Prop :=
| ls_last b f fb s b' :
    sendable f → frame_packet (dec_threshold (bb_decoder b)) (frame_id f) (payload f) = Ok fb →
    login_frame registry version ctx f b = (s, b') → s ≠ LoginContinue →
    login_stream registry version ctx b [f] fb s b'
| ls_cons b f fb b1 fs bs s b' :
    sendable f → frame_packet (dec_threshold (bb_decoder b)) (frame_id f) (payload f) = Ok fb →
    login_frame registry version ctx f b = (LoginContinue, b1) →
    login_stream registry version ctx b1 fs bs s b' →
    login_stream registry version ctx b (f :: fs) (fb ++ bs) s b'.

Lemma consume_stream `{!ZlibLaws} registry version ctx b fs plain s b' :
  login_stream registry version ctx b fs plain s b' →
  ∀ a chunks rest fuel, same_but_buffer a b → Forall (λ c, c ≠ []) chunks →
    bb_pending a chunks = plain ++ rest → (length fs ≤ fuel)%nat →
    ∃ a' chunks', consume_backend_login fuel registry version ctx a chunks = (login_result s, a', chunks') ∧
      same_but_buffer a' b' ∧ bb_pending a' chunks' = rest.
Proof.
  induction 1 as [b [id data] fb s b' [Hid Hsz] Hfb Hf Hs|b [id data] fb b1 fs bs s b' [Hid Hsz] Hfb Hf Hl IH];
    intros a chunks rest fuel Hab Hne Hp Hfuel; (destruct fuel as [|fuel]; [cbn in Hfuel; lia|]);
    rewrite consume_step.
  - destruct Hab as (buf&->).
    destruct (bb_read_frame_next chunks
      (bb_set_decoder (mk_decoder buf (dec_threshold (bb_decoder b))) b) id data fb rest Hid Hsz Hfb Hne Hp) as (a1&chunks'&Hr&Hp'&_&Ha1).
    rewrite Hr. assert (Hab : same_but_buffer a1 b) by (destruct Ha1 as (buf1&->); by exists buf1).
    destruct (login_frame_blind registry version ctx (mk_frame id data) a1 b Hab) as (H1&H2&H3).
    rewrite Hf in H1, H2. destruct (login_frame _ _ _ _ a1) as [s1 a2]. cbn [fst snd] in *. subst s1.
    exists a2, chunks'. split; [by destruct s|]. split; [done|]. unfold bb_pending in *. by rewrite H3.
  - destruct Hab as (buf&->). rewrite <- app_assoc in Hp.
    destruct (bb_read_frame_next chunks
      (bb_set_decoder (mk_decoder buf (dec_threshold (bb_decoder b))) b) id data fb _ Hid Hsz Hfb Hne Hp) as (a1&chunks'&Hr&Hp'&Hne'&Ha1).
    rewrite Hr. assert (Hab : same_but_buffer a1 b) by (destruct Ha1 as (buf1&->); by exists buf1).
    destruct (login_frame_blind registry version ctx (mk_frame id data) a1 b Hab) as (H1&H2&H3).
    rewrite Hf in H1, H2. destruct (login_frame _ _ _ _ a1) as [s1 a2]. cbn [fst snd] in *. subst s1.
    apply IH; [done|done| |cbn in Hfuel; lia]. unfold bb_pending in *. by rewrite H3.
Qed.

Lemma answer_written registry response b b' id bs :
  enc_buf (bb_encoder b) = [] → bb_broken b = None →
  answer registry response b = (LoginContinue, b') →
  get_packet_id registry KSLoginPluginResponse (bb_state b) Serverbound (bb_version b) = Some id →
  SLoginPluginResponse_encode response (bb_version b) = Ok bs →
  ∃ fb, frame_packet (enc_threshold (bb_encoder b)) id bs = Ok fb ∧
    bb_written b' = bb_written b ++ fb ∧ bb_decoder b' = bb_decoder b.
Proof.
  intros Hbuf Hbr Hl Hget Henc. unfold answer, bb_send_packet in Hl. cbn [projT1] in Hl.
  change (pkt_direction (kind_type KSLoginPluginResponse)) with Serverbound in Hl. rewrite Hget in Hl.
  change (encode_payload (existT KSLoginPluginResponse response) (bb_version b))
    with (SLoginPluginResponse_encode response (bb_version b)) in Hl. rewrite Henc in Hl.
  unfold bb_write, append_raw in Hl. rewrite Hbuf in Hl.
  destruct (frame_packet (enc_threshold (bb_encoder b)) id bs) as [fb|e]; [|discriminate Hl].
  exists fb. cbn in Hl. unfold bb_write_all in Hl. cbn in Hl. rewrite Hbr in Hl. by injection Hl as <-.
Qed.

(** ** What a backend says during a login *)

(** The bytes of a packet as the other side sends it: its id, its encoding, and the frame
    with the compression that is in force. *)
Definition sent_as (v : ProtocolVersion) (th : option Z) {k : packet_kind} (p : kind_type k) (fb : bytes) : Prop :=
  ∃ id bs, get_packet_id build_default_registry k (pkt_state (kind_type k)) (pkt_direction (kind_type k)) v = Some id ∧
    pkt_encode p v = Ok bs ∧ sendable (mk_frame id bs) ∧ frame_packet th id bs = Ok fb.

(** What the proxy owes to a request of a plugin channel. *)
Definition login_reply (ctx : option (ForwardingData * bytes)) (request : CLoginPluginRequest) : option SLoginPluginResponse :=
  match ctx with
  | Some (data, secret) =>
    if decide (lpr_channel request = VELOCITY_PLAYER_INFO_CHANNEL) then build_velocity_response request data secret
    else Some (mk_SLoginPluginResponse (lpr_message_id request) false [])
  | None => Some (mk_SLoginPluginResponse (lpr_message_id request) false [])
  end.

(** How a backend ends a login, and what it may say before. *)
Inductive login_end := Accepts (p : CLoginSuccess) | Refuses (p : CLoginDisconnect).

(** [login_talk v ctx th bytes answers th' e]: with the compression [th] the backend may send
    [bytes] and be sent [answers]; at the end the compression is [th'] and the login ends
    with [e]. Compression switched on holds for what follows; a packet that is not known
    is skipped. *)
Inductive login_talk `{!UuidTextLaws} (v : ProtocolVersion) (ctx : option (ForwardingData * bytes))
    : option Z → bytes → bytes → option Z → login_end → Prop :=
| lt_accepts th (p : CLoginSuccess) fb :
    pkt_ok p v → intercepted KCLoginSuccess v = true → sent_as v th (k := KCLoginSuccess) p fb →
    login_talk v ctx th fb [] th (Accepts p)
| lt_refuses th (p : CLoginDisconnect) fb :
    pkt_ok p v → intercepted KCLoginDisconnect v = true → sent_as v th (k := KCLoginDisconnect) p fb →
    login_talk v ctx th fb [] th (Refuses p)
| lt_compression th t fb bs answers th' e :
    0 ≤ t < 2 ^ 31 → intercepted KCSetCompression v = true →
    sent_as v th (k := KCSetCompression) (mk_CSetCompression t) fb →
    login_talk v ctx (Some t) bs answers th' e → login_talk v ctx th (fb ++ bs) answers th' e
| lt_request th (request : CLoginPluginRequest) (response : SLoginPluginResponse) fb ab bs answers th' e :
    pkt_ok request v → intercepted KCLoginPluginRequest v = true →
    sent_as v th (k := KCLoginPluginRequest) request fb →
    login_reply ctx request = Some response → sent_as v th (k := KSLoginPluginResponse) response ab →
    login_talk v ctx th bs answers th' e → login_talk v ctx th (fb ++ bs) (ab ++ answers) th' e
| lt_other th f id data fb bs answers th' e :
    decode_frame build_default_registry f Login Clientbound v = Ok (Opaque id data) →
    sendable f → frame_packet th (frame_id f) (payload f) = Ok fb →
    login_talk v ctx th bs answers th' e → login_talk v ctx th (fb ++ bs) answers th' e.

(** A bridge in its login, with a compression. *)
Record in_login (v : ProtocolVersion) (th : option Z) (b : BackendBridge) : Prop := {
  il_version : bb_version b = v;
  il_state : bb_state b = Login;
  il_dec : dec_threshold (bb_decoder b) = th;
  il_enc : bb_encoder b = mk_encoder [] th;
  il_ok : bb_broken b = None }.

(** What is left of the bridge when the login has ended. *)
Definition login_left (v : ProtocolVersion) (b : BackendBridge) (answers : bytes) (th : option Z) (e : login_end)
    (a : BackendBridge) : Prop :=
  bb_written a = bb_written b ++ answers ∧ bb_encoder a = mk_encoder [] th ∧ dec_threshold (bb_decoder a) = th ∧
  bb_version a = v ∧ bb_broken a = None ∧
  bb_state a = match e with Accepts _ => if less_than v V1_20_2 then Play else Login | Refuses _ => Login end.

Definition login_verdict (e : login_end) : login_step :=
  match e with
  | Accepts _ => LoginDone
  | Refuses p => LoginFailed (Rejected (str "backend refused login: " ++ ld_reason p))
  end.

Lemma login_frame_typed registry v ctx f id p b :
  decode_frame registry f Login Clientbound v = Ok (Typed id p) →
  login_frame registry v ctx f b = login_packet registry v ctx p b.
Proof using Type. intros Hd. unfold login_frame. by rewrite Hd. Qed.

(** A packet that was sent is read as it was. *)
Lemma sent_read `{!UuidTextLaws} v th k (p : kind_type k) fb :
  v ∈ SUPPORTED → intercepted k v = true → pkt_ok p v → sent_as v th p fb →
  ∃ f id, sendable f ∧ frame_packet th (frame_id f) (payload f) = Ok fb ∧
    decode_frame build_default_registry f (pkt_state (kind_type k)) (pkt_direction (kind_type k)) v =
      Ok (Typed id (existT k (pkt_norm p v))).
Proof.
  intros Hv Hi Hp (id&bs&Hget&Henc&Hs&Hfb). destruct (default_packet k p v Hv Hi Hp) as (id'&bs'&_&Hget'&Henc'&Hdec).
  rewrite Hget in Hget'. injection Hget' as <-. rewrite Henc in Henc'. injection Henc' as <-.
  exists (mk_frame id bs), id. split; [exact Hs|]. split; [exact Hfb|exact Hdec].
Qed.

(** An answer is written as it is owed. *)
Lemma answer_sent v th response b ab :
  in_login v th b → sent_as v th (k := KSLoginPluginResponse) response ab →
  ∃ b', answer build_default_registry response b = (LoginContinue, b') ∧ in_login v th b' ∧
    bb_written b' = bb_written b ++ ab.
Proof.
  intros [Hv Hst Hd He Hbr] (id&bs&Hget&Henc&_&Hfb). revert Hget. generalize build_default_registry as registry.
  intros registry Hget. change (get_packet_id registry KSLoginPluginResponse Login Serverbound v = Some id) in Hget.
  change (SLoginPluginResponse_encode response v = Ok bs) in Henc. unfold answer, bb_send_packet. cbn [projT1].
  change (pkt_direction (kind_type KSLoginPluginResponse)) with Serverbound. rewrite Hst, Hv, Hget.
  change (encode_payload (existT KSLoginPluginResponse response) v) with (SLoginPluginResponse_encode response v).
  rewrite Henc. unfold bb_write, append_raw. rewrite He. cbn [enc_threshold enc_buf]. rewrite Hfb. cbn [enc_take].
  unfold bb_write_all. cbn. rewrite Hbr. eexists. split; [reflexivity|]. by split.
Qed.

Lemma login_packet_request v ctx request response b :
  login_reply ctx request = Some response →
  login_packet build_default_registry v ctx (existT KCLoginPluginRequest request) b =
  answer build_default_registry response b.
Proof using Type.
  intros Hr. unfold login_packet.
  change (downcast KCSetCompression (existT KCLoginPluginRequest request)) with (@None CSetCompression).
  change (downcast KCLoginSuccess (existT KCLoginPluginRequest request)) with (@None CLoginSuccess).
  change (downcast KCLoginDisconnect (existT KCLoginPluginRequest request)) with (@None CLoginDisconnect).
  change (downcast KCLoginPluginRequest (existT KCLoginPluginRequest request)) with (Some request).
  unfold is_velocity_request, login_reply in *. destruct ctx as [[data secret]|].
  - case_decide as Hc; [rewrite bool_decide_eq_true_2 by done; by rewrite Hr|].
    rewrite bool_decide_eq_false_2 by done. by injection Hr as <-.
  - injection Hr as <-. by case_bool_decide.
Qed.

(** What the backend says, as the frames that the loop reads. *)
Lemma talk_stream `{!UuidTextLaws} v ctx th plain answers th' e :
  v ∈ SUPPORTED → login_talk v ctx th plain answers th' e → ∀ b, in_login v th b →
  ∃ fs b', login_stream build_default_registry v ctx b fs plain (login_verdict e) b' ∧ login_left v b answers th' e b'.
Proof.
  intros Hsup. induction 1 as [th p fb Hp Hi Hs|th p fb Hp Hi Hs|th t fb bs answers th' e Ht Hi Hs _ IH
    |th rq rs fb ab bs answers th' e Hp Hi Hs Hr Ha _ IH|th f id data fb bs answers th' e Hd Hs Hfb _ IH];
    intros b Hb; pose proof Hb as [Hv Hst Hdt He Hbr].
  - destruct (sent_read v th KCLoginSuccess p fb Hsup Hi Hp Hs) as (f&id&Hf&Hfb&Hdec).
    exists [f], (if less_than v V1_20_2 then bb_set_state Play b else b). split.
    + apply ls_last; [exact Hf|rewrite Hdt; exact Hfb| |discriminate].
      rewrite (login_frame_typed _ _ _ _ _ _ _ Hdec). reflexivity.
    + clear Hs Hdec. unfold login_left. destruct (less_than v V1_20_2); cbn; rewrite ?app_nil_r; by split_and!.
  - destruct (sent_read v th KCLoginDisconnect p fb Hsup Hi Hp Hs) as (f&id&Hf&Hfb&Hdec). exists [f], b. split.
    + apply ls_last; [exact Hf|rewrite Hdt; exact Hfb| |discriminate].
      rewrite (login_frame_typed _ _ _ _ _ _ _ Hdec). reflexivity.
    + clear Hs Hdec. unfold login_left. rewrite app_nil_r. by split_and!.
  - destruct (sent_read v th KCSetCompression (mk_CSetCompression t) fb Hsup Hi) as (f&id&Hf&Hfb&Hdec); [|exact Hs|].
    { cbn. unfold in_s. lia. }
    destruct (IH (bb_set_compression t b)) as (fs&b'&Hfs&Hleft).
    { clear Hs Hdec. split; cbn; try done. by rewrite He. }
    exists (f :: fs), b'. split; [|exact Hleft].
    eapply ls_cons; [exact Hf|rewrite Hdt; exact Hfb| |exact Hfs].
    rewrite (login_frame_typed _ _ _ _ _ _ _ Hdec). reflexivity.
  - destruct (sent_read v th KCLoginPluginRequest rq fb Hsup Hi Hp Hs) as (f&id&Hf&Hfb&Hdec).
    destruct (answer_sent v th rs b ab Hb Ha) as (b1&Hans&Hb1&Hw).
    destruct (IH b1 Hb1) as (fs&b'&Hfs&Hleft). exists (f :: fs), b'. split.
    + eapply ls_cons; [exact Hf|rewrite Hdt; exact Hfb| |exact Hfs]. rewrite (login_frame_typed _ _ _ _ _ _ _ Hdec).
      rewrite <- Hans. exact (login_packet_request v ctx rq rs b Hr).
    + destruct Hleft as (Hwr&Hleft). split; [|exact Hleft]. rewrite Hwr, Hw. by rewrite <- app_assoc.
  - destruct (IH b Hb) as (fs&b'&Hfs&Hleft). exists (f :: fs), b'. split; [|exact Hleft].
    eapply ls_cons; [exact Hs|rewrite Hdt; exact Hfb| |exact Hfs]. unfold login_frame. rewrite Hd. reflexivity.
Qed.

(** ** Theorems *)

(** C18: The login with a backend, in every supported version and in whatever chunks its bytes
    arrive. The backend may switch compression on (with a threshold that is not negative),
    ask on plugin channels and send packets that are not known, in any order and number, and
    then accepts or refuses. The proxy then goes on or fails with the backend's reason; it
    has sent exactly the answers that are owed, a signed identity to a Velocity request if
    it forwards so and a refusal to any other request, each compressed as was agreed when it
    was asked; it has taken exactly the bytes of the login from the stream; and its codec
    has the compression that the backend set last. *)
Theorem backend_login_handover `{!ZlibLaws, !UuidTextLaws} (v : ProtocolVersion)
    (ctx : option (ForwardingData * bytes)) (b : BackendBridge) (th th' : option Z)
    (plain answers rest : bytes) (chunks : list bytes) (e : login_end) :
  v ∈ SUPPORTED → in_login v th b → login_talk v ctx th plain answers th' e →
  Forall (λ c, c ≠ []) chunks → bb_pending b chunks = plain ++ rest →
  ∃ a chunks',
    consume_backend_login (S (length (bb_pending b chunks))) build_default_registry v ctx b chunks =
      (Some (match e with
             | Accepts _ => Ok ()
             | Refuses p => Err (Rejected (str "backend refused login: " ++ ld_reason p))
             end), a, chunks') ∧
    bb_pending a chunks' = rest ∧
    bb_written a = bb_written b ++ answers ∧ enc_threshold (bb_encoder a) = th' ∧ dec_threshold (bb_decoder a) = th' ∧
    bb_state a = match e with Accepts _ => if less_than v V1_20_2 then Play else Login | Refuses _ => Login end.
Proof.
  intros Hv Hb Ht Hne Hp. destruct (talk_stream v ctx th plain answers th' e Hv Ht b Hb) as (fs&b'&Hs&Hleft).
  set (n := S (length (bb_pending b chunks))).
  destruct (consume_stream _ _ _ _ _ _ _ _ Hs b chunks rest (n + length fs)) as (a&chunks'&Hc&(buf&->)&Hr); [|done|done|lia|].
  { exists (dec_buf (bb_decoder b)). by destruct b as [[]]. }
  eexists _, chunks'. split.
  { rewrite (consume_login_enough _ _ _ n (n + length fs)) by lia. rewrite Hc. by destruct e. }
  destruct Hleft as (Hw&He&Hd&_&_&Hst). cbn. rewrite He. by split_and!.
Qed.

(** A forwarding request of a Velocity backend is answered, under the id of the
    request, with a signed identity that a backend with the same secret accepts and
    reads as the address, uuid, name and properties of the player. *)
Theorem velocity_request_answered `{!ZlibLaws, !UuidTextLaws, !HmacSha256Laws} (v : ProtocolVersion)
    (request : CLoginPluginRequest) (data : ForwardingData) (secret : bytes) (b b' : BackendBridge) :
  v ∈ SUPPORTED → intercepted KSLoginPluginResponse v = true →
  bb_version b = v → bb_state b = Login → enc_buf (bb_encoder b) = [] → bb_broken b = None →
  in_s 32 (lpr_message_id request) → lpr_channel request = VELOCITY_PLAYER_INFO_CHANNEL →
  forwarding_ok data →
  login_packet build_default_registry v (Some (data, secret)) (existT KCLoginPluginRequest request) b =
    (LoginContinue, b') →
  ∃ f fb response rest,
    bb_written b' = bb_written b ++ fb ∧ bb_decoder b' = bb_decoder b ∧
    frame_packet (enc_threshold (bb_encoder b)) (frame_id f) (payload f) = Ok fb ∧
    decode_frame build_default_registry f Login Serverbound v =
      Ok (Typed (frame_id f) (existT KSLoginPluginResponse response)) ∧
    lps_message_id response = lpr_message_id request ∧
    backend_accepts secret (lps_data response) =
      Some ((negotiated_version request data, fd_real_ip data, fd_uuid data, fd_username data,
             fd_properties data), rest).
Proof.
  intros Hv Hi Hver Hst Hbuf Hbr Hid Hch Hok Hl.
  destruct (velocity_identity_accepted request data secret Hok) as (_&response&rest&Hr&Hmid&_&_&Ha).
  unfold login_packet in Hl. cbn [downcast projT1] in Hl.
  change (downcast KCSetCompression (existT KCLoginPluginRequest request)) with (@None CSetCompression) in Hl.
  change (downcast KCLoginSuccess (existT KCLoginPluginRequest request)) with (@None CLoginSuccess) in Hl.
  change (downcast KCLoginDisconnect (existT KCLoginPluginRequest request)) with (@None CLoginDisconnect) in Hl.
  change (downcast KCLoginPluginRequest (existT KCLoginPluginRequest request)) with (Some request) in Hl.
  cbn match in Hl. unfold is_velocity_request in Hl. rewrite bool_decide_eq_true_2 in Hl by done. rewrite Hr in Hl.
  destruct (default_packet KSLoginPluginResponse response v Hv Hi) as (id&bs&Hid'&Hget&Henc&Hdec).
  { by rewrite <- Hmid in Hid. }
  cbn [kind_type pkt_state pkt_direction kind_packet SLoginPluginResponse_packet] in Hget, Hdec.
  destruct (answer_written _ _ _ _ id bs Hbuf Hbr Hl) as (fb&Hfb&Hw&Hd).
  { rewrite Hst, Hver. exact Hget. } { rewrite Hver. exact Henc. }
  exists (mk_frame id bs), fb, response, rest. split_and!; [exact Hw|exact Hd|exact Hfb|exact Hdec|exact Hmid|exact Ha].
Qed.
End bridge.

(** ** Witnesses *)

Section witnesses.
#[local] Existing Instances stored_zlib stored_zlib_laws hex_uuid hex_uuid_laws sum_mac sum_mac_laws.

Definition bytes_of (r : ProtocolResult bytes) : bytes := match r with Ok bs => bs | Err _ => [] end.

Definition compression_frame : PacketFrame := mk_frame 3 (VarInt_encode 64).
Definition success_frame : PacketFrame :=
  mk_frame 2 (bytes_of (CLoginSuccess_encode (mk_CLoginSuccess 42 (str "Notch") [] false) V1_21)).
Definition fresh : BackendBridge := BackendBridge_new V1_21.

(** What a plugin channel other than Velocity's is answered, with compression on. *)
Definition other_request : CLoginPluginRequest := mk_CLoginPluginRequest 5 (str "fml:handshake") [1].
Definition request_frame : PacketFrame := mk_frame 4 (bytes_of (CLoginPluginRequest_encode other_request V1_21)).
Definition refusal_bytes : bytes :=
  bytes_of (frame_packet (Some 64) 2 (bytes_of (SLoginPluginResponse_encode (mk_SLoginPluginResponse 5 false []) V1_21))).
Definition login_chunks : list bytes :=
  let bs := bytes_of (frame_packet None (frame_id compression_frame) (payload compression_frame)) ++
            bytes_of (frame_packet (Some 64) (frame_id request_frame) (payload request_frame)) ++
            bytes_of (frame_packet (Some 64) (frame_id success_frame) (payload success_frame)) in
  [take 5 bs; drop 5 bs ++ [9; 9]].

Ltac sent_here := do 2 eexists; split_and!; [vm_compute; reflexivity|vm_compute; reflexivity|
  apply (bool_decide_unpack _); vm_compute; exact I|vm_compute; reflexivity].

Lemma backend_login_handover_witness :
  ∃ a chunks',
    consume_backend_login (S (length (bb_pending fresh login_chunks))) build_default_registry V1_21 None fresh
      login_chunks =
      (Some (Ok ()), a, chunks') ∧
    bb_pending a chunks' = [9; 9] ∧ bb_written a = refusal_bytes ∧ enc_threshold (bb_encoder a) = Some 64 ∧
    dec_threshold (bb_decoder a) = Some 64 ∧ bb_state a = Login.
Proof.
  refine (backend_login_handover V1_21 None fresh None (Some 64)
    (bytes_of (frame_packet None (frame_id compression_frame) (payload compression_frame)) ++
     bytes_of (frame_packet (Some 64) (frame_id request_frame) (payload request_frame)) ++
     bytes_of (frame_packet (Some 64) (frame_id success_frame) (payload success_frame)))
    (refusal_bytes ++ []) [9; 9] login_chunks (Accepts (mk_CLoginSuccess 42 (str "Notch") [] false)) _ _ _ _ _).
  - apply (bool_decide_unpack _). vm_compute. exact I.
  - by split.
  - apply (lt_compression _ _ _ 64); [lia|by vm_compute|sent_here|].
    eapply (lt_request _ _ _ other_request); [|by vm_compute|sent_here|reflexivity|sent_here|].
    { cbn. split; apply (bool_decide_unpack _); vm_compute; exact I. }
    apply lt_accepts; [|by vm_compute|sent_here].
    cbn. split_and!; try (apply (bool_decide_unpack _); vm_compute; exact I). constructor.
  - apply (bool_decide_unpack _). vm_compute. exact I.
  - vm_compute. reflexivity.
Defined.

Definition asked : login_step * BackendBridge :=
  login_packet build_default_registry V1_21 (Some (sample_data, [1; 2; 3]))
    (existT KCLoginPluginRequest sample_request) fresh.

Lemma velocity_request_answered_witness :
  ∃ f fb response rest,
    bb_written asked.2 = bb_written fresh ++ fb ∧ bb_decoder asked.2 = bb_decoder fresh ∧
    frame_packet (enc_threshold (bb_encoder fresh)) (frame_id f) (payload f) = Ok fb ∧
    decode_frame build_default_registry f Login Serverbound V1_21 =
      Ok (Typed (frame_id f) (existT KSLoginPluginResponse response)) ∧
    lps_message_id response = 9 ∧
    backend_accepts [1; 2; 3] (lps_data response) =
      Some ((negotiated_version sample_request sample_data, fd_real_ip sample_data, fd_uuid sample_data,
             fd_username sample_data, fd_properties sample_data), rest).
Proof.
  refine (velocity_request_answered V1_21 sample_request sample_data [1; 2; 3] fresh asked.2 _ _
    eq_refl eq_refl eq_refl eq_refl _ eq_refl _ _).
  - apply (bool_decide_unpack _). vm_compute. exact I.
  - vm_compute. reflexivity.
  - apply (bool_decide_unpack _). vm_compute. exact I.
  - unfold forwarding_ok. split_and!; try (apply (bool_decide_unpack _); vm_compute; exact I).
    apply Forall_singleton. unfold property_ok. split_and!; apply (bool_decide_unpack _); vm_compute; exact I.
  - vm_compute. reflexivity.
Defined.
End witnesses.
