(* ===== verification/Ordering.v ===== *)
(** * Ordering: in which order filters run and plugins load

    [filter/ordering.rs] and [plugin/dependency.rs] are two uses of Kahn's algorithm;
    they differ in the work queue, a heap by priority and a plain queue.  The
    algorithm is [kahn], over the interface [WorkQueue]; both functions instantiate it.

    [topological] is the contract: a permutation of the nodes with every edge going
    forward.  Kahn's algorithm returns one when there is one and fails only when there is
    none; the loop ends within one round per node ([kahn_correct]).
    A [HashMap] that is iterated is visited in the order [ord], which is only known
    to be a permutation of the entries. *)
From S2P Require Import Prelude Utf8 Version Packet.

Abbreviation node := (list Z) (only parsing).

(** ** Work queues *)

(** [q_le x y] says that [x] may be taken while [y] is there too. *)
Class WorkQueue (Q : Type) := {
  q_push : node → Q → Q;
  q_pop : Q → option (node * Q);
  q_elems : Q → list node;
  q_le : node → node → Prop;
  q_push_elems x q : q_elems (q_push x q) ≡ₚ x :: q_elems q;
  q_pop_None q : q_pop q = None → q_elems q = [];
  q_pop_Some q x q' : q_pop q = Some (x, q') →
    q_elems q ≡ₚ x :: q_elems q' ∧ ∀ y, y ∈ q_elems q → q_le x y }.

(** ** The algorithm *)

Section kahn.
Context {Q : Type} `{WorkQueue Q}.

(** One edge fewer for each of the dependents of a node that was taken.  The degrees are
    [usize]; among distinct nodes none goes below zero ([kahn_inv]). *)
Fixpoint relax (deps : list node) (in_degree : gmap node Z) (q : Q) : gmap node Z * Q :=
  match deps with
  | [] => (in_degree, q)
  | dep :: deps =>
    match in_degree !! dep with
    | None => relax deps in_degree q
    | Some deg =>
      let deg := deg - 1 in
      relax deps (<[dep := deg]> in_degree) (if decide (deg = 0) then q_push dep q else q)
    end
  end.

(** The main loop; [None] if the fuel does not suffice. *)
Fixpoint kahn (fuel : nat) (dependents : gmap node (list node)) (in_degree : gmap node Z) (q : Q)
    (sorted : list node) : option (list node * gmap node Z) :=
  match fuel with
  | O => None
  | S fuel =>
    match q_pop q with
    | None => Some (sorted, in_degree)
    | Some (x, q) =>
      let '(in_degree, q) := relax (default [] (dependents !! x)) in_degree q in
      kahn fuel dependents in_degree q (sorted ++ [x])
    end
  end.
End kahn.

(** ** The graph *)

(** [(a, b)] says that [a] comes before [b]. *)
Abbreviation edge := (node * node)%type (only parsing).

(** [*in_degree.entry(b).or_insert(0) += 1; dependents.entry(a).or_default().push(b)]. *)
Definition add_edge (g : gmap node Z * gmap node (list node)) (e : edge)
    : gmap node Z * gmap node (list node) :=
  (<[e.2 := default 0 (g.1 !! e.2) + 1]> g.1,
   <[e.1 := default [] (g.2 !! e.1) ++ [e.2]]> g.2).

Definition zero_degrees (nodes : list node) : gmap node Z :=
  foldl (λ m n, <[n := default 0 (m !! n)]> m) ∅ nodes.

Definition build_graph (nodes : list node) (edges : list edge)
    : gmap node Z * gmap node (list node) :=
  foldl add_edge (zero_degrees nodes, ∅) edges.

Definition occ (b : node) (l : list node) : Z := zlen (filter (λ x, x = b) l).

Lemma occ_nil b : occ b [] = 0.
Proof. done. Qed.
Lemma occ_cons b x l : occ b (x :: l) = (if decide (x = b) then 1 else 0) + occ b l.
Proof. unfold occ. rewrite filter_cons. destruct (decide (x = b)); rewrite ?zlen_cons; lia. Qed.
Lemma occ_app b l k : occ b (l ++ k) = occ b l + occ b k.
Proof. unfold occ. by rewrite filter_app, zlen_app. Qed.
Lemma occ_nonneg b l : 0 ≤ occ b l.
Proof. apply zlen_nonneg. Qed.
Lemma occ_pos b l : 0 < occ b l ↔ b ∈ l.
Proof.
  induction l as [|x l IH]; [rewrite occ_nil, elem_of_nil; lia|].
  rewrite occ_cons, elem_of_cons, <- IH. pose proof (occ_nonneg b l).
  destruct (decide (x = b)); split; intros; try lia; naive_solver lia.
Qed.

(** The nodes an edge leads to from [a], with repetitions. *)
Definition succs (edges : list edge) (a : node) : list node := (filter (λ e, e.1 = a) edges).*2.

Definition degree (edges : list edge) (b : node) : Z := occ b edges.*2.

Lemma succs_app es fs a : succs (es ++ fs) a = succs es a ++ succs fs a.
Proof. unfold succs. by rewrite filter_app, fmap_app. Qed.

(** The two maps hold the edges [edges] between the nodes [nodes]. *)
Definition graph_of (nodes : list node) (edges : list edge)
    (g : gmap node Z * gmap node (list node)) : Prop :=
  (∀ b, g.1 !! b = if decide (b ∈ nodes) then Some (degree edges b) else None) ∧
  (∀ a, default [] (g.2 !! a) = succs edges a).

Lemma degree_app es fs b : degree (es ++ fs) b = degree es b + degree fs b.
Proof. unfold degree. by rewrite fmap_app, occ_app. Qed.

Lemma degree_foreign (nodes : list node) es b : (∀ e, e ∈ es → e.2 ∈ nodes) → b ∉ nodes → degree es b = 0.
Proof.
  intros Hin Hb. pose proof (occ_nonneg b es.*2) as Hnn. pose proof (occ_pos b es.*2) as Hpos.
  unfold degree. destruct (decide (occ b es.*2 = 0)) as [|Hne]; [done|]. exfalso.
  assert (Hx : b ∈ es.*2) by (apply Hpos; lia).
  apply list_elem_of_fmap in Hx as [e [-> He]]. by apply Hb, Hin.
Qed.

Lemma graph_of_nil : graph_of [] [] (∅, ∅).
Proof.
  split; intros x; cbn [fst snd]; rewrite lookup_empty; [|done].
  by rewrite decide_False by apply not_elem_of_nil.
Qed.

Lemma graph_of_node nodes es g n :
  (∀ e, e ∈ es → e.2 ∈ nodes) → graph_of nodes es g →
  graph_of (nodes ++ [n]) es (<[n := default 0 (g.1 !! n)]> g.1, g.2).
Proof.
  intros Hin [Hd Hs]. split; [|exact Hs]. intros b. cbn [fst].
  assert (Hb : b ∈ nodes ++ [n] ↔ b ∈ nodes ∨ b = n)
    by (rewrite elem_of_app, list_elem_of_singleton; done).
  destruct (decide (b = n)) as [->|Hne].
  - rewrite lookup_insert_eq, (decide_True (P := n ∈ nodes ++ [n])), Hd by tauto. f_equal.
    destruct (decide (n ∈ nodes)); [done|]. symmetry. by eapply degree_foreign.
  - rewrite lookup_insert_ne, Hd by congruence.
    destruct (decide (b ∈ nodes)); [rewrite decide_True by tauto|rewrite decide_False by tauto]; done.
Qed.

Lemma graph_of_edges nodes es g fs :
  (∀ e, e ∈ fs → e.2 ∈ nodes) → graph_of nodes es g → graph_of nodes (es ++ fs) (foldl add_edge g fs).
Proof.
  revert es g. induction fs as [|[a b] fs IH]; intros es g Hin [Hd Hs]; cbn [foldl].
  { by rewrite app_nil_r. }
  replace (es ++ (a, b) :: fs) with ((es ++ [(a, b)]) ++ fs) by by rewrite <- app_assoc.
  apply IH; [intros; apply Hin; by right|].
  assert (Hb : b ∈ nodes) by (apply (Hin (a, b)); left). split.
  - intros x. cbn [add_edge fst snd]. rewrite degree_app. unfold degree at 2. cbn [fmap list_fmap snd].
    rewrite occ_cons, occ_nil. destruct (decide (b = x)) as [<-|Hne].
    + by rewrite lookup_insert_eq, Hd, !decide_True by done.
    + rewrite lookup_insert_ne, Hd by done. destruct (decide _); [|done]. f_equal. lia.
  - intros x. cbn [add_edge fst snd]. rewrite succs_app. unfold succs at 2. rewrite filter_cons, filter_nil.
    cbn [fst]. destruct (decide (a = x)) as [<-|Hne].
    + rewrite lookup_insert_eq. cbn. by rewrite Hs.
    + rewrite lookup_insert_ne by done. cbn. by rewrite app_nil_r.
Qed.

Lemma graph_of_zero nodes : graph_of nodes [] (zero_degrees nodes, ∅).
Proof.
  unfold zero_degrees. induction nodes as [|n nodes IH] using rev_ind; [exact graph_of_nil|].
  rewrite foldl_app. cbn [foldl].
  apply (graph_of_node nodes [] (foldl _ ∅ nodes, ∅) n); [|exact IH]. by intros e ?%not_elem_of_nil.
Qed.

Lemma build_graph_spec nodes edges :
  (∀ e, e ∈ edges → e.2 ∈ nodes) → graph_of nodes edges (build_graph nodes edges).
Proof. intros Hin. apply (graph_of_edges nodes []); [exact Hin|apply graph_of_zero]. Qed.

(** ** The contract *)

(** Every edge goes forward. *)
Definition forward (edges : list edge) (l : list node) : Prop :=
  ∀ l1 b l2 a, l = l1 ++ b :: l2 → (a, b) ∈ edges → a ∈ l1.

Definition topological (nodes : list node) (edges : list edge) (l : list node) : Prop :=
  l ≡ₚ nodes ∧ forward edges l.

(** A node is ready once what must come before it is there. *)
Definition ready (edges : list edge) (done : list node) (b : node) : Prop :=
  ∀ a, (a, b) ∈ edges → a ∈ done.

Section kahn_correct.
Context {Q : Type} `{WorkQueue Q}.
Context (nodes : list node) (edges : list edge).
Context (Hnodes : NoDup nodes) (Hedges : ∀ e, e ∈ edges → e.1 ∈ nodes ∧ e.2 ∈ nodes).
Context (g : gmap node Z * gmap node (list node)) (Hg : graph_of nodes edges g).

(** The edges into [b] from nodes that are not sorted yet. *)
Definition open_degree (sorted : list node) (b : node) : Z :=
  zlen (filter (λ e, e.2 = b ∧ e.1 ∉ sorted) edges).

Lemma open_degree_0 sorted b : open_degree sorted b = 0 ↔ ready edges sorted b.
Proof.
  unfold open_degree, ready. split.
  - intros Hl a Hin. destruct (decide (a ∈ sorted)) as [|Hn]; [done|]. exfalso.
    assert (Hx : (a, b) ∈ filter (λ e, e.2 = b ∧ e.1 ∉ sorted) edges).
    { apply list_elem_of_filter. done. }
    destruct (filter _ edges); [by apply not_elem_of_nil in Hx|].
    rewrite zlen_cons in Hl. pose proof (zlen_nonneg l). lia.
  - intros Hr. destruct (filter _ edges) as [|[a b'] l] eqn:E; [done|]. exfalso.
    assert (Hx : (a, b') ∈ filter (λ e, e.2 = b ∧ e.1 ∉ sorted) edges) by (rewrite E; left).
    apply list_elem_of_filter in Hx as [[Hb Hn] Hin]. cbn in *. subst. by apply Hn, Hr.
Qed.

Lemma open_degree_nil b : open_degree [] b = degree edges b.
Proof.
  unfold open_degree, degree, occ, zlen. f_equal. clear Hedges g Hg. induction edges as [|[a c] es IH]; [done|].
  rewrite filter_cons. cbn [fmap list_fmap snd fst]. rewrite filter_cons.
  destruct (decide (c = b)), (decide _) as [Hx|Hx]; cbn; try lia.
  - destruct Hx. split; [done|]. apply not_elem_of_nil.
  - naive_solver.
Qed.

Lemma open_degree_snoc sorted x b :
  x ∉ sorted → open_degree (sorted ++ [x]) b = open_degree sorted b - occ b (succs edges x).
Proof.
  intros Hx. unfold open_degree, succs, occ, zlen. clear Hedges g Hg.
  induction edges as [|[a c] es IH]; [done|]. rewrite !filter_cons. cbn [fst snd].
  assert (Ha : a ∈ sorted ++ [x] ↔ a ∈ sorted ∨ a = x)
    by (rewrite elem_of_app, list_elem_of_singleton; done).
  destruct (decide (a = x)) as [->|Hax].
  - rewrite (decide_False (P := c = b ∧ x ∉ sorted ++ [x])) by tauto.
    cbn [fmap list_fmap snd]. rewrite filter_cons.
    destruct (decide (c = b)); [rewrite decide_True by tauto|rewrite decide_False by tauto];
      cbn [length]; lia.
  - destruct (decide (c = b ∧ a ∉ sorted)).
    + rewrite decide_True by tauto. cbn [length]. lia.
    + rewrite decide_False by tauto. lia.
Qed.

Lemma relax_spec deps deg q :
  (∀ d, d ∈ deps → ∃ n, deg !! d = Some n ∧ occ d deps ≤ n) →
  let '(deg', q') := relax deps deg q in
  (∀ b, deg' !! b = (λ n, n - occ b deps) <$> deg !! b) ∧
  ∃ fresh, q_elems q' ≡ₚ fresh ++ q_elems q ∧ NoDup fresh ∧
    ∀ b, b ∈ fresh ↔ b ∈ deps ∧ deg !! b = Some (occ b deps).
Proof.
  revert deg q. induction deps as [|d deps IH]; intros deg q Hd; cbn [relax].
  { split.
    - intros b. rewrite occ_nil. destruct (deg !! b); cbn; f_equal. lia.
    - exists []. split_and!; [done|constructor|]. intros b. rewrite elem_of_nil. tauto. }
  destruct (Hd d) as (n&Hn&Hle); [left|]. rewrite Hn. rewrite occ_cons, decide_True in Hle by done.
  set (deg1 := <[d := n - 1]> deg).
  set (q1 := if decide (n - 1 = 0) then q_push d q else q).
  specialize (IH deg1 q1).
  assert (Hocc : ∀ b, b ≠ d → occ b (d :: deps) = occ b deps)
    by (intros; rewrite occ_cons, decide_False by done; lia).
  assert (Hd1 : ∀ b, b ≠ d → deg1 !! b = deg !! b) by (intros; by apply lookup_insert_ne).
  destruct (relax deps deg1 q1) as [deg' q']. destruct IH as [Hdeg (fresh&Hq&Hnd&Hfresh)].
  { intros b Hb. destruct (decide (b = d)) as [->|Hne].
    - exists (n - 1). split; [apply lookup_insert_eq|]. lia.
    - rewrite Hd1 by done. destruct (Hd b) as (m&?&?); [by right|]. exists m. by rewrite <- Hocc. }
  pose proof (occ_pos d deps) as Hpos. pose proof (occ_nonneg d deps) as Hnn. split.
  - intros b. rewrite Hdeg. destruct (decide (b = d)) as [->|Hne].
    + unfold deg1. rewrite lookup_insert_eq, Hn. cbn. rewrite occ_cons, decide_True by done. f_equal. lia.
    + by rewrite Hd1, Hocc.
  - unfold q1 in Hq. destruct (decide (n - 1 = 0)) as [Hz|Hz].
    + exists (d :: fresh). split_and!.
      * rewrite Hq, q_push_elems. cbn. by rewrite Permutation_middle.
      * constructor; [|done]. intros [? _]%Hfresh. apply Hpos in H0. lia.
      * intros b. rewrite !elem_of_cons, Hfresh. destruct (decide (b = d)) as [->|Hne].
        -- rewrite occ_cons, decide_True by done. rewrite Hn. split; [|by left].
           intros _. split; [by left|]. f_equal. lia.
        -- rewrite Hocc, Hd1 by done. naive_solver.
    + exists fresh. split_and!; [done..|]. intros b. rewrite elem_of_cons, Hfresh.
      destruct (decide (b = d)) as [->|Hne].
      * unfold deg1. rewrite lookup_insert_eq, occ_cons, decide_True, Hn by done. split.
        -- intros [? [= ?]]. split; [by left|]. f_equal. lia.
        -- intros [_ [= ?]]. split; [apply Hpos; lia|]. f_equal. lia.
      * rewrite Hocc, Hd1 by done. naive_solver.
Qed.

(** The state of the loop. *)
Record kahn_inv (sorted : list node) (q : Q) (deg : gmap node Z) : Prop := {
  k_nodup : NoDup (sorted ++ q_elems q);
  k_nodes b : b ∈ sorted ++ q_elems q → b ∈ nodes;
  k_degree b : deg !! b = if decide (b ∈ nodes) then Some (open_degree sorted b) else None;
  k_ready b : b ∈ nodes → b ∈ sorted ++ q_elems q ↔ ready edges sorted b;
  k_forward : forward edges sorted;
  k_greedy l1 x l2 y : sorted = l1 ++ x :: l2 → y ∈ nodes → y ∉ l1 → ready edges l1 y → q_le x y }.

Lemma snoc_split {A} (sorted l1 l2 : list A) x b :
  sorted ++ [x] = l1 ++ b :: l2 → (b = x ∧ l1 = sorted) ∨ ∃ l2', sorted = l1 ++ b :: l2'.
Proof.
  destruct l2 as [|y l2 _] using rev_ind; intros Heq.
  - apply app_inj_tail in Heq as [-> ->]. by left.
  - right. exists l2. rewrite app_comm_cons, app_assoc in Heq.
    by apply app_inj_tail in Heq as [-> _].
Qed.

Lemma ready_mono s s' b : (∀ a, a ∈ s → a ∈ s') → ready edges s b → ready edges s' b.
Proof. unfold ready. naive_solver. Qed.

Lemma kahn_inv_step sorted q deg x q1 deps :
  kahn_inv sorted q deg → q_pop q = Some (x, q1) → deps = succs edges x →
  let '(deg', q') := relax deps deg q1 in kahn_inv (sorted ++ [x]) q' deg'.
Proof using Hedges.
  intros [Hnd Hin Hdeg Hrdy Hfwd Hgr] Hpop ->.
  apply q_pop_Some in Hpop as [Hperm Hle]. rewrite Hperm in Hnd.
  setoid_rewrite Hperm in Hin. setoid_rewrite Hperm in Hrdy.
  assert (Hxs : x ∉ sorted).
  { intros Hx. apply NoDup_app in Hnd as (_&Hd&_). apply (Hd x Hx). left. }
  assert (Hxn : x ∈ nodes) by (apply Hin, elem_of_app; right; left).
  assert (Hxr : ready edges sorted x) by (apply Hrdy; [done|]; apply elem_of_app; right; left).
  pose proof (relax_spec (succs edges x) deg q1) as Hrel.
  assert (Hsucc : ∀ d, d ∈ succs edges x → d ∈ nodes).
  { intros d [[a d'] [-> Hd]]%list_elem_of_fmap. apply list_elem_of_filter in Hd as [_ Hd].
    apply (Hedges (a, d') Hd). }
  assert (Hopen : ∀ b, open_degree (sorted ++ [x]) b = open_degree sorted b - occ b (succs edges x))
    by (intros; by apply open_degree_snoc).
  destruct (relax _ _ _) as [deg' q']. destruct Hrel as [Hdeg' (fresh&Hq'&Hndf&Hfresh)].
  { intros d Hd. exists (open_degree sorted d). rewrite Hdeg, decide_True by auto. split; [done|].
    specialize (Hopen d). pose proof (zlen_nonneg
      (filter (λ e, e.2 = d ∧ e.1 ∉ sorted ++ [x]) edges)). unfold open_degree in *. lia. }
  assert (Hold : ∀ b, b ∈ nodes → b ∈ sorted ++ x :: q_elems q1 ↔ open_degree sorted b = 0)
    by (intros b Hb; rewrite open_degree_0; by apply Hrdy).
  assert (Hfr : ∀ b, b ∈ fresh ↔ b ∈ succs edges x ∧ open_degree sorted b = occ b (succs edges x)).
  { intros b. rewrite Hfresh, Hdeg. split; intros [Hb He]; (split; [done|]).
    - rewrite decide_True in He by auto. by injection He.
    - rewrite decide_True by auto. by f_equal. }
  assert (Hmem : ∀ b, b ∈ (sorted ++ [x]) ++ q_elems q' ↔ b ∈ sorted ++ x :: q_elems q1 ∨ b ∈ fresh).
  { intros b. rewrite Hq', !elem_of_app, !elem_of_cons, elem_of_nil. tauto. }
  split.
  - rewrite Hq', (Permutation_app_comm fresh), app_assoc, <- app_assoc. cbn [app].
    rewrite app_assoc. apply NoDup_app. rewrite <- app_assoc. cbn [app].
    split_and!; [done| |done].
    intros b Hb [Hs Ho]%Hfr. apply Hold in Hb; [|by apply Hsucc]. apply occ_pos in Hs. lia.
  - intros b [?|[Hs _]%Hfr]%Hmem; [by apply Hin|by apply Hsucc].
  - intros b. rewrite Hdeg', Hdeg. destruct (decide (b ∈ nodes)); cbn; [|done]. by rewrite Hopen.
  - intros b Hb. rewrite Hmem, <- open_degree_0, Hopen, (Hold b Hb), Hfr.
    pose proof (occ_nonneg b (succs edges x)). pose proof (occ_pos b (succs edges x)) as Hop.
    specialize (Hopen b). pose proof (zlen_nonneg
      (filter (λ e, e.2 = b ∧ e.1 ∉ sorted ++ [x]) edges)). unfold open_degree at 1 in Hopen.
    split; [intros [?|[_ ?]]; lia|]. intros. destruct (decide (0 < occ b (succs edges x))); [right|left].
    + split; [by apply Hop|lia].
    + lia.
  - intros l1 b l2 a [[-> ->]|[l2' Hs]]%snoc_split He; [by apply Hxr|by eapply Hfwd].
  - intros l1 b l2 y [[-> ->]|[l2' Hs]]%snoc_split Hy Hny Hr; [|by eapply Hgr].
    apply Hle. rewrite Hperm. apply Hrdy in Hr; [|done]. apply elem_of_app in Hr as [|]; done.
Qed.

Lemma kahn_inv_start q :
  (∀ b, b ∈ q_elems q ↔ b ∈ nodes ∧ degree edges b = 0) → NoDup (q_elems q) →
  kahn_inv [] q g.1.
Proof using Hedges Hg.
  intros Hq Hnd. destruct Hg as [Hdeg _].
  split; cbn [app].
  - done.
  - by intros b [? _]%Hq.
  - intros b. rewrite Hdeg. by rewrite open_degree_nil.
  - intros b Hb. rewrite Hq, <- open_degree_0, open_degree_nil. naive_solver.
  - intros l1 b l2 a Hl. by destruct l1.
  - intros l1 x l2 y Hl. by destruct l1.
Qed.

Lemma kahn_loop_spec fuel q deg sorted :
  (length nodes < fuel + length sorted)%nat → kahn_inv sorted q deg →
  ∃ res deg' q', kahn fuel g.2 deg q sorted = Some (res, deg') ∧
    kahn_inv res q' deg' ∧ q_elems q' = [].
Proof using Hedges Hg.
  revert q deg sorted. induction fuel as [|fuel IH]; intros q deg sorted Hlen Hinv.
  { exfalso. destruct Hinv as [Hnd Hin _ _ _ _]. apply NoDup_app in Hnd as (Hnd&_&_).
    assert (length sorted ≤ length nodes)%nat; [|lia].
    apply submseteq_length, NoDup_submseteq; [done|].
    intros b Hb. apply Hin, elem_of_app. by left. }
  cbn [kahn]. destruct (q_pop q) as [[x q1]|] eqn:Ep.
  - destruct Hg as [_ Hs]. rewrite Hs.
    pose proof (kahn_inv_step sorted q deg x q1 _ Hinv Ep eq_refl) as Hstep.
    destruct (relax _ deg q1) as [deg' q']. apply IH; [|done]. rewrite length_app. cbn. lia.
  - exists sorted, deg, q. split_and!; [done..|]. by apply q_pop_None.
Qed.

(** The loop ends; its result is a topological order that takes the best ready node
    each time, or is too short and there is no topological order at all. *)
Lemma kahn_correct fuel q :
  (length nodes < fuel)%nat →
  (∀ b, b ∈ q_elems q ↔ b ∈ nodes ∧ degree edges b = 0) → NoDup (q_elems q) →
  ∃ res deg', kahn fuel g.2 g.1 q [] = Some (res, deg') ∧
    (length res ≤ length nodes)%nat ∧
    (length res = length nodes → topological nodes edges res ∧
      ∀ l1 x l2 y, res = l1 ++ x :: l2 → y ∈ nodes → y ∉ l1 → ready edges l1 y → q_le x y) ∧
    (length res ≠ length nodes → ∀ l, ¬ topological nodes edges l).
Proof using Hnodes Hedges Hg.
  intros Hfuel Hq Hnd. destruct (kahn_loop_spec fuel q g.1 []) as (res&deg'&q'&Hk&Hinv&Hq').
  { cbn. lia. }
  { by apply kahn_inv_start. }
  exists res, deg'. split; [done|]. destruct Hinv as [Hndr Hin _ Hrdy Hfwd Hgr].
  rewrite Hq', app_nil_r in *.
  assert (Hsub : res ⊆+ nodes) by (apply NoDup_submseteq; [done|]; intros; by apply Hin).
  split; [by apply submseteq_length|]. split.
  - intros Hlen. split; [|done]. split; [|done].
    apply submseteq_length_Permutation; [done|lia].
  - intros Hlen l [Hl Hf].
    assert (Hex : ∃ l1 b l2, l = l1 ++ b :: l2 ∧ (b ∉ res) ∧ (∀ a, a ∈ l1 → a ∈ res)).
    { assert (Hmiss : Exists (λ b, b ∉ res) l).
      { apply Exists_exists. destruct (decide (Forall (λ b, b ∈ res) nodes)) as [Hall|Hall].
        - exfalso. apply Hlen. apply Permutation_length, submseteq_length_Permutation; [done|].
          apply submseteq_length, NoDup_submseteq; [done|]. by apply Forall_forall.
        - apply not_Forall_Exists in Hall; [|apply _]. apply Exists_exists in Hall as (b&Hb&Hn).
          exists b. by rewrite Hl. }
      clear -Hmiss. induction Hmiss as [b l Hb|b l Hl IH].
      - exists [], b, l. split_and!; [done..|]. by intros a ?%not_elem_of_nil.
      - destruct (decide (b ∈ res)) as [Hb|Hb].
        + destruct IH as (l1&c&l2&->&Hc&Hl1). exists (b :: l1), c, l2. split_and!; [done..|].
          intros a [->|]%elem_of_cons; auto.
        + exists [], b, l. split_and!; [done..|]. by intros a ?%not_elem_of_nil. }
    destruct Hex as (l1&b&l2&->&Hb&Hl1). apply Hb.
    assert (Hbn : b ∈ nodes) by (rewrite <- Hl; apply elem_of_app; right; left).
    specialize (Hrdy b Hbn). apply Hrdy.
    intros a Ha. apply Hl1. by eapply Hf.
Qed.
End kahn_correct.

(** [join(", ")]. *)
Fixpoint join (l : list node) : rstring :=
  match l with
  | [] => []
  | [x] => x
  | x :: l => (x ++ str ", ") ++ join l
  end.

(** The nodes that still have a predecessor, as the error names them. *)
Definition remaining_nodes (ord : gmap node Z → list (node * Z)) (deg : gmap node Z) : list node :=
  (filter (λ nd, 0 < nd.2) (ord deg)).*1.

(** ** Filters *)

Inductive FilterPriority := PFirst | PEarly | PNormal | PLate | PLast.
Definition priority_value (p : FilterPriority) : Z :=
  match p with PFirst => 0 | PEarly => 1 | PNormal => 2 | PLate => 3 | PLast => 4 end.

Record FilterMetadata := {
  fm_id : rstring;
  fm_priority : FilterPriority;
  fm_after : list rstring;
  fm_before : list rstring }.

Definition FilterMetadata_new (id : rstring) : FilterMetadata := Build_FilterMetadata id PNormal [] [].

(** The order of the heap: the lower priority value first, then the lower index. *)
Definition entry_le (x y : Z * Z) : Prop := x.1 < y.1 ∨ x.1 = y.1 ∧ x.2 ≤ y.2.
#[export] Instance entry_le_dec x y : Decision (entry_le x y).
Proof. unfold entry_le. apply _. Defined.

Lemma entry_le_total x y : entry_le x y ∨ entry_le y x.
Proof. unfold entry_le. lia. Qed.
Lemma entry_le_trans x y z : entry_le x y → entry_le y z → entry_le x z.
Proof. unfold entry_le. lia. Qed.

(** The heap as the list of its entries; [pop] takes a greatest one. *)
Fixpoint heap_pop (key : node → Z * Z) (h : list node) : option (node * list node) :=
  match h with
  | [] => None
  | x :: h =>
    match heap_pop key h with
    | None => Some (x, [])
    | Some (y, h') => if decide (entry_le (key x) (key y)) then Some (x, h) else Some (y, x :: h')
    end
  end.

Lemma heap_pop_spec key h x h' :
  heap_pop key h = Some (x, h') →
  h ≡ₚ x :: h' ∧ ∀ y, y ∈ h → entry_le (key x) (key y).
Proof.
  revert x h'. induction h as [|z h IH]; intros x h'; cbn [heap_pop]; [done|].
  destruct (heap_pop key h) as [[y h1]|] eqn:E.
  - destruct (IH y h1 eq_refl) as [Hp Hmin]. case_decide as Hle; intros [= <- <-].
    + split; [done|]. intros w [->|Hw]%elem_of_cons; [unfold entry_le; lia|].
      eapply entry_le_trans; [exact Hle|by apply Hmin].
    + split; [rewrite Hp; constructor|].
      intros w [->|Hw]%elem_of_cons; [|by apply Hmin].
      destruct (entry_le_total (key y) (key z)); done.
  - assert (h = []) as ->.
    { destruct h as [|a h]; [done|]. cbn in E. destruct (heap_pop key h) as [[]|]; [|done].
      by destruct (decide _). }
    intros [= <- <-]. split; [done|]. intros w ->%list_elem_of_singleton. unfold entry_le. lia.
Qed.

#[refine] Definition heap_queue (key : node → Z * Z) : WorkQueue (list node) := {|
  q_push x h := x :: h;
  q_pop := heap_pop key;
  q_elems h := h;
  q_le x y := entry_le (key x) (key y) |}.
Proof.
  - done.
  - intros [|x h]; [done|]. cbn. destruct (heap_pop key h) as [[]|]; [|done]. by destruct (decide _).
  - apply heap_pop_spec.
Defined.

Definition after_edges (available : list node) (f : FilterMetadata) : list edge :=
  (λ dep, (dep, fm_id f)) <$> filter (λ dep, dep ∈ available) (fm_after f).
Definition before_edges (available : list node) (f : FilterMetadata) : list edge :=
  (λ target, (fm_id f, target)) <$> filter (λ target, target ∈ available) (fm_before f).

Definition filter_ids (filters : list FilterMetadata) : list node := fm_id <$> filters.
Definition filter_edges (filters : list FilterMetadata) : list edge :=
  (filters ≫= after_edges (filter_ids filters)) ++ (filters ≫= before_edges (filter_ids filters)).

(** [priority_map]; of filters with the same id the last one counts. *)
Definition priority_map (filters : list FilterMetadata) : gmap node (Z * Z) :=
  foldl (λ m f, <[fm_id f.2 := (priority_value (fm_priority f.2), Z.of_nat f.1)]> m) ∅
    (imap (λ i f, (i, f)) filters).
Definition filter_key (filters : list FilterMetadata) (x : node) : Z * Z :=
  default (0, 0) (priority_map filters !! x).

Inductive FilterOrderError := CyclicDependency (involved : rstring).

Definition resolve_filter_order (ord : gmap node Z → list (node * Z)) (filters : list FilterMetadata)
    : option (result FilterOrderError (list rstring)) :=
  if decide (filters = []) then Some (Ok []) else
  let '(in_degree, dependents) := build_graph (filter_ids filters) (filter_edges filters) in
  let Hq := heap_queue (filter_key filters) in
  let heap := foldl (λ h f, if decide (in_degree !! fm_id f = Some 0) then q_push (fm_id f) h else h)
    [] filters in
  '(sorted, in_degree) ← kahn (S (length filters)) dependents in_degree heap [];
  if decide (length sorted = length filters) then Some (Ok sorted)
  else Some (Err (CyclicDependency (join (remaining_nodes ord in_degree)))).

(** ** Plugins *)

Record PluginDependency := { pd_id : rstring; pd_optional : bool }.
Record PluginMetadata := {
  pm_id : rstring;
  pm_name : rstring;
  pm_version : rstring;
  pm_authors : list rstring;
  pm_description : option rstring;
  pm_dependencies : list PluginDependency }.

Inductive PluginError := InitFailed (msg : rstring) | PluginCustom (msg : rstring).

(** [VecDeque]: taken from the front, put at the back. *)
#[refine] Definition fifo_queue : WorkQueue (list node) := {|
  q_push x q := q ++ [x];
  q_pop q := match q with [] => None | x :: q => Some (x, q) end;
  q_elems q := q;
  q_le _ _ := True |}.
Proof.
  - intros x q. symmetry. apply Permutation_cons_append.
  - by intros [].
  - intros [|y q] x q' [= -> ->]. done.
Defined.

(** The first required dependency that is not there. *)
Definition missing_dependency (available : list node) (p : PluginMetadata) : option PluginDependency :=
  List.find (λ d, negb (pd_optional d) && negb (bool_decide (pd_id d ∈ available))) (pm_dependencies p).
Fixpoint check_dependencies (available : list node) (plugins : list PluginMetadata)
    : result PluginError () :=
  match plugins with
  | [] => Ok ()
  | p :: plugins =>
    match missing_dependency available p with
    | Some dep => Err (InitFailed (str "Plugin '" ++ pm_id p ++ str "' requires '" ++ pd_id dep ++
                                   str "' which is not loaded"))
    | None => check_dependencies available plugins
    end
  end.

Definition plugin_ids (plugins : list PluginMetadata) : list node := pm_id <$> plugins.
Definition dependency_edges (available : list node) (p : PluginMetadata) : list edge :=
  (λ dep, (pd_id dep, pm_id p)) <$> filter (λ dep, pd_id dep ∈ available) (pm_dependencies p).
Definition plugin_edges (plugins : list PluginMetadata) : list edge :=
  plugins ≫= dependency_edges (plugin_ids plugins).

(** The graph is built plugin by plugin. *)
Definition plugin_graph (available : list node) (plugins : list PluginMetadata)
    : gmap node Z * gmap node (list node) :=
  foldl (λ g p, foldl add_edge (<[pm_id p := default 0 (g.1 !! pm_id p)]> g.1, g.2)
                  (dependency_edges available p)) (∅, ∅) plugins.

Definition resolve_load_order (ord : gmap node Z → list (node * Z)) (plugins : list PluginMetadata)
    : option (result PluginError (list rstring)) :=
  let available := plugin_ids plugins in
  match check_dependencies available plugins with
  | Err e => Some (Err e)
  | Ok _ =>
    let '(in_degree, dependents) := plugin_graph available plugins in
    let Hq := fifo_queue in
    let queue := (filter (λ nd, nd.2 = 0) (ord in_degree)).*1 in
    '(sorted, in_degree) ← kahn (S (length plugins)) dependents in_degree queue [];
    if decide (length sorted = length plugins) then Some (Ok sorted)
    else Some (Err (InitFailed (str "Circular dependency detected involving: " ++
                                join (remaining_nodes ord in_degree))))
  end.

(** ** The filter order *)

Lemma filter_ids_elem fs x : x ∈ filter_ids fs ↔ ∃ f, f ∈ fs ∧ fm_id f = x.
Proof. unfold filter_ids. rewrite list_elem_of_fmap. naive_solver. Qed.

Lemma filter_edges_nodes fs e :
  e ∈ filter_edges fs → e.1 ∈ filter_ids fs ∧ e.2 ∈ filter_ids fs.
Proof.
  unfold filter_edges. rewrite elem_of_app, !list_elem_of_bind.
  intros [(f&He&Hf)|(f&He&Hf)]; apply list_elem_of_fmap in He as (d&->&Hd);
    apply list_elem_of_filter in Hd as [Hd _]; split; try done;
    apply filter_ids_elem; eauto.
Qed.

(** The seeds of the heap: the filters nothing must precede. *)
Lemma heap_seed (P : node → Prop) `{∀ x, Decision (P x)} fs h0 :
  foldl (λ h f, if decide (P (fm_id f)) then fm_id f :: h else h) h0 fs ≡ₚ
    filter P (filter_ids fs) ++ h0.
Proof.
  revert h0. induction fs as [|f fs IH]; intros h0; [done|]. cbn [foldl filter_ids fmap list_fmap].
  rewrite IH, filter_cons. destruct (decide _); [|done]. cbn. by rewrite Permutation_middle.
Qed.

Lemma priority_map_lookup fs i f :
  NoDup (filter_ids fs) → fs !! i = Some f →
  filter_key fs (fm_id f) = (priority_value (fm_priority f), Z.of_nat i).
Proof.
  unfold filter_key, priority_map. revert i f. induction fs as [|g fs IH] using rev_ind; [done|].
  intros i f Hnd Hi. unfold filter_ids in Hnd. rewrite fmap_app in Hnd.
  apply NoDup_app in Hnd as (Hnd&Hd&_). rewrite imap_app, foldl_app. cbn [imap foldl snd fst].
  rewrite lookup_app in Hi. destruct (fs !! i) as [f'|] eqn:E.
  - injection Hi as ->. rewrite lookup_insert_ne; [by apply IH|]. intros Heq.
    apply (Hd (fm_id f)); [|rewrite <- Heq; left].
    apply list_elem_of_fmap. exists f. split; [done|]. exact (list_elem_of_lookup_2 _ _ _ E).
  - apply lookup_ge_None in E. apply list_lookup_singleton_Some in Hi as [Hi ->].
    rewrite lookup_insert_eq. cbn. f_equal. lia.
Qed.

Lemma resolve_filter_order_spec ord filters :
  NoDup (filter_ids filters) →
  ∃ r, resolve_filter_order ord filters = Some r ∧
  match r with
  | Ok order =>
    topological (filter_ids filters) (filter_edges filters) order ∧
    ∀ l1 l2 i f j g, order = l1 ++ fm_id f :: l2 → filters !! i = Some f → filters !! j = Some g →
      fm_id g ∉ l1 → ready (filter_edges filters) l1 (fm_id g) →
      entry_le (priority_value (fm_priority f), Z.of_nat i)
               (priority_value (fm_priority g), Z.of_nat j)
  | Err _ => ∀ order, ¬ topological (filter_ids filters) (filter_edges filters) order
  end.
Proof.
  intros Hnd. unfold resolve_filter_order. case_decide as Hnil.
  { subst. exists (Ok []). split; [done|].
    split; [split; [done|]; by intros []|]. by intros []. }
  assert (Hg : graph_of (filter_ids filters) (filter_edges filters)
            (build_graph (filter_ids filters) (filter_edges filters)))
    by (apply build_graph_spec; intros e He; by apply filter_edges_nodes).
  destruct (build_graph _ _) as [deg deps] eqn:Eg.
  set (P := λ x, deg !! x = Some 0).
  pose proof (heap_seed P filters []) as Hseed. rewrite app_nil_r in Hseed.
  pose proof (kahn_correct (H := heap_queue (filter_key filters)) (filter_ids filters)
    (filter_edges filters) Hnd (filter_edges_nodes filters) (deg, deps) Hg (S (length filters))
    (foldl (λ h f, if decide (P (fm_id f)) then fm_id f :: h else h) [] filters)) as Hk.
  destruct Hk as (res&deg'&Hk&_&Hok&Herr).
  { unfold filter_ids. rewrite length_fmap. lia. }
  { intros b. cbn [q_elems heap_queue]. rewrite Hseed, list_elem_of_filter. unfold P.
    pose proof (proj1 Hg b) as Hd. cbn [fst] in Hd. rewrite Hd. destruct (decide (b ∈ filter_ids filters)); [|tauto].
    split; [intros [[=] ?]; done|intros [_ ->]; done]. }
  { cbn [q_elems heap_queue]. rewrite Hseed. by apply NoDup_filter. }
  cbn [fst snd] in Hk. unfold filter_ids in Hok, Herr. rewrite length_fmap in Hok, Herr.
  change (foldl _ [] filters) with
    (foldl (λ h f, if decide (P (fm_id f)) then fm_id f :: h else h) [] filters).
  rewrite Hk. cbv [mbind option_bind]. case_decide as Hlen; (eexists; split; [done|]); [|exact (Herr Hlen)].
  destruct (Hok Hlen) as [Htop Hgr]. split; [done|]. intros l1 l2 i f j g -> Hi Hj Hn Hr.
  rewrite <- (priority_map_lookup filters i f Hnd Hi), <- (priority_map_lookup filters j g Hnd Hj).
  apply (Hgr _ _ _ _ eq_refl); [|done..]. apply list_elem_of_fmap.
  exists g. split; [done|]. exact (list_elem_of_lookup_2 _ _ _ Hj).
Qed.

(** C32: For filters with distinct identifiers the resolution ends; it returns an order of
    all filters that respects every after and before constraint and at each point takes
    the ready filter with the lowest priority value and index, or an error when no such
    order exists. *)
Theorem filter_order_correct ord filters :
  NoDup (filter_ids filters) →
  ∃ r, resolve_filter_order ord filters = Some r ∧
  match r with
  | Ok order =>
    topological (filter_ids filters) (filter_edges filters) order ∧
    ∀ l1 l2 i f j g, order = l1 ++ fm_id f :: l2 → filters !! i = Some f → filters !! j = Some g →
      fm_id g ∉ l1 → ready (filter_edges filters) l1 (fm_id g) →
      entry_le (priority_value (fm_priority f), Z.of_nat i)
               (priority_value (fm_priority g), Z.of_nat j)
  | Err _ => ∀ order, ¬ topological (filter_ids filters) (filter_edges filters) order
  end.
Proof. apply resolve_filter_order_spec. Qed.

(** ** The load order of plugins *)

Lemma plugin_edges_nodes available ps e :
  e ∈ ps ≫= dependency_edges available → e.1 ∈ available ∧ e.2 ∈ plugin_ids ps.
Proof.
  rewrite list_elem_of_bind. intros (p&He&Hp). apply list_elem_of_fmap in He as (d&->&Hd).
  apply list_elem_of_filter in Hd as [Hd _]. split; [done|].
  apply list_elem_of_fmap. eauto.
Qed.

Lemma plugin_graph_spec available ps :
  graph_of (plugin_ids ps) (ps ≫= dependency_edges available) (plugin_graph available ps).
Proof.
  unfold plugin_graph. induction ps as [|p ps IH] using rev_ind; [exact graph_of_nil|].
  rewrite foldl_app. unfold plugin_ids. rewrite fmap_app, bind_app. cbn [foldl fmap list_fmap].
  rewrite bind_singleton.
  apply graph_of_edges.
  - intros e He. apply list_elem_of_fmap in He as (d&->&_). cbn.
    apply elem_of_app. right. left.
  - apply graph_of_node; [|exact IH]. intros e He. by eapply plugin_edges_nodes.
Qed.

Lemma remove_dups_submseteq (l : list node) : remove_dups l ⊆+ l.
Proof. apply NoDup_submseteq; [apply NoDup_remove_dups|]. intros x. by rewrite elem_of_remove_dups. Qed.

Lemma graph_of_remove_dups nodes es g : graph_of nodes es g → graph_of (remove_dups nodes) es g.
Proof.
  intros [Hd Hs]. split; [|exact Hs]. intros b. rewrite Hd.
  apply decide_ext. by rewrite elem_of_remove_dups.
Qed.

(** The nodes of degree zero, in the order of the map. *)
Lemma queue_seed ord nodes es g :
  (∀ m : gmap node Z, ord m ≡ₚ map_to_list m) → graph_of nodes es g →
  let queue := (filter (λ nd, nd.2 = 0) (ord g.1)).*1 in
  NoDup queue ∧ ∀ b, b ∈ queue ↔ b ∈ nodes ∧ degree es b = 0.
Proof.
  intros Hord [Hd _] queue.
  assert (Hperm : queue ≡ₚ (filter (λ nd, nd.2 = 0) (map_to_list g.1)).*1)
    by (unfold queue; by rewrite Hord).
  split.
  - rewrite Hperm. eapply sublist_NoDup; [apply (NoDup_fst_map_to_list g.1)|].
    apply fmap_sublist, sublist_filter.
  - intros b. rewrite Hperm, list_elem_of_fmap. split.
    + intros ([x n]&->&Hx). apply list_elem_of_filter in Hx as [Hn Hx]. cbn in Hn. subst n.
      apply elem_of_map_to_list in Hx. rewrite Hd in Hx. cbn. destruct (decide _); [|done]. naive_solver.
    + intros [Hb Hz]. exists (b, 0). split; [done|]. apply list_elem_of_filter. split; [done|].
      apply elem_of_map_to_list. rewrite Hd, decide_True by done. by f_equal.
Qed.

(** Every required dependency is loaded. *)
Definition dependencies_present (available : list node) (ps : list PluginMetadata) : Prop :=
  ∀ p d, p ∈ ps → d ∈ pm_dependencies p → pd_optional d = false → pd_id d ∈ available.

Lemma missing_dependency_None available p :
  missing_dependency available p = None ↔
  ∀ d, d ∈ pm_dependencies p → pd_optional d = false → pd_id d ∈ available.
Proof.
  unfold missing_dependency. split.
  - intros Hf d Hd Ho. eapply find_none in Hf; [|by apply list_elem_of_In]. rewrite Ho in Hf. cbn in Hf.
    by destruct (bool_decide_reflect (pd_id d ∈ available)).
  - intros Hall. destruct (List.find _ _) as [d|] eqn:E; [|done]. exfalso.
    apply find_some in E as [Hd Hb]. rewrite <- list_elem_of_In in Hd. specialize (Hall d Hd).
    destruct (pd_optional d); [done|]. by rewrite bool_decide_true in Hb by auto.
Qed.

Lemma check_dependencies_spec available ps :
  match check_dependencies available ps with
  | Ok _ => dependencies_present available ps
  | Err _ => ¬ dependencies_present available ps
  end.
Proof.
  induction ps as [|p ps IH]; cbn [check_dependencies]; [by intros ? ? ?%not_elem_of_nil|].
  destruct (missing_dependency available p) as [d|] eqn:E.
  - intros Hall. assert (missing_dependency available p = None); [|congruence].
    apply missing_dependency_None. intros e He Ho. eapply Hall; [left|done..].
  - rewrite missing_dependency_None in E.
    destruct (check_dependencies available ps) as [[]|].
    + intros q d [->|Hq]%elem_of_cons; [by apply E|by apply IH].
    + intros Hall. apply IH. intros q d Hq. apply Hall. by right.
Qed.

(** Whatever the iteration order of the hash map, the load order of plugins is
    computed: every required dependency is present and each plugin comes once, after
    what it depends on; an error means that a required dependency is missing or that no
    such order exists. *)
Theorem load_order_correct ord plugins :
  (∀ m, ord m ≡ₚ map_to_list m) →
  ∃ r, resolve_load_order ord plugins = Some r ∧
  match r with
  | Ok order =>
    dependencies_present (plugin_ids plugins) plugins ∧ NoDup order ∧
    topological (plugin_ids plugins) (plugin_edges plugins) order
  | Err _ =>
    dependencies_present (plugin_ids plugins) plugins →
    ∀ order, NoDup order → ¬ topological (plugin_ids plugins) (plugin_edges plugins) order
  end.
Proof.
  intros Hord. unfold resolve_load_order. set (ids := plugin_ids plugins).
  pose proof (check_dependencies_spec ids plugins) as Hdeps.
  destruct (check_dependencies ids plugins) as [[]|e]; [|eexists; split; [done|]; by intros ?%Hdeps].
  pose proof (graph_of_remove_dups _ _ _ (plugin_graph_spec ids plugins)) as Hg.
  destruct (plugin_graph ids plugins) as [deg deps] eqn:Eg. fold ids in Hg.
  destruct (queue_seed ord _ _ _ Hord Hg) as [Hndq Hq]. cbn [fst] in Hq, Hndq.
  assert (Hlen : length ids = length plugins) by apply length_fmap.
  pose proof (submseteq_length _ _ (remove_dups_submseteq ids)) as Hdups.
  destruct (kahn_correct (H := fifo_queue) (remove_dups ids) (plugin_edges plugins)
    (NoDup_remove_dups ids)) with (g := (deg, deps)) (fuel := S (length plugins))
    (q := (filter (λ nd : node * Z, nd.2 = 0) (ord deg)).*1) as (res&deg'&Hk&Hle&Hok&Herr).
  { intros e He. rewrite !elem_of_remove_dups. by apply (plugin_edges_nodes ids plugins). }
  { exact Hg. }
  { lia. }
  { exact Hq. }
  { exact Hndq. }
  cbn [fst snd] in Hk. rewrite Hk. cbv [mbind option_bind].
  case_decide as Hl; (eexists; split; [done|]).
  - assert (Hperm : remove_dups ids ≡ₚ ids)
      by (apply submseteq_length_Permutation; [apply remove_dups_submseteq|lia]).
    destruct Hok as [[Hp Hf] _]; [apply Permutation_length in Hperm; lia|].
    split; [done|]. split; [rewrite Hp; apply NoDup_remove_dups|]. split; [by rewrite Hp, Hperm|done].
  - intros _ order Hnd [Hp Hf].
    assert (Hperm : remove_dups ids ≡ₚ ids).
    { apply NoDup_Permutation; [apply NoDup_remove_dups|by rewrite <- Hp|].
      intros x. apply elem_of_remove_dups. }
    apply (Herr ltac:(apply Permutation_length in Hperm; lia) order).
    split; [by rewrite Hp, Hperm|done].
Qed.

(** ** Examples *)

(** A logger that runs last, a codec that must precede the chat filter, and a guard. *)
Definition chat_filters : list FilterMetadata :=
  [Build_FilterMetadata (str "log") PLast [] [];
   Build_FilterMetadata (str "chat") PNormal [str "guard"; str "absent"] [];
   Build_FilterMetadata (str "codec") PLate [] [str "chat"];
   Build_FilterMetadata (str "guard") PNormal [] []].

Lemma filter_order_correct_witness :
  resolve_filter_order map_to_list chat_filters =
    Some (Ok [str "guard"; str "codec"; str "chat"; str "log"]) ∧
  topological (filter_ids chat_filters) (filter_edges chat_filters)
    [str "guard"; str "codec"; str "chat"; str "log"].
Proof.
  assert (Hnd : NoDup (filter_ids chat_filters)) by (apply (bool_decide_unpack _); vm_compute; exact I).
  assert (Hr : resolve_filter_order map_to_list chat_filters =
    Some (Ok [str "guard"; str "codec"; str "chat"; str "log"])) by (vm_compute; reflexivity).
  split; [exact Hr|].
  destruct (filter_order_correct map_to_list chat_filters Hnd) as (r & Hs & Hm).
  rewrite Hr in Hs. injection Hs as <-. exact (proj1 Hm).
Defined.

Definition plugin (id : rstring) (deps : list PluginDependency) : PluginMetadata :=
  Build_PluginMetadata id id (str "1.0.0") [] None deps.

Definition permission_plugins : list PluginMetadata :=
  [plugin (str "chat") [Build_PluginDependency (str "perms") false;
                        Build_PluginDependency (str "discord") true];
   plugin (str "perms") [Build_PluginDependency (str "db") false];
   plugin (str "db") []].

Definition cyclic_plugins : list PluginMetadata :=
  [plugin (str "a") [Build_PluginDependency (str "b") false];
   plugin (str "b") [Build_PluginDependency (str "a") true]].

Lemma load_order_correct_witness :
  topological (plugin_ids permission_plugins) (plugin_edges permission_plugins)
    [str "db"; str "perms"; str "chat"] ∧
  ¬ (∃ order, NoDup order ∧
      topological (plugin_ids cyclic_plugins) (plugin_edges cyclic_plugins) order).
Proof.
  split.
  - destruct (load_order_correct map_to_list permission_plugins (λ m, Permutation_refl _))
      as (r & Hs & Hm).
    assert (Hr : resolve_load_order map_to_list permission_plugins =
      Some (Ok [str "db"; str "perms"; str "chat"])) by (vm_compute; reflexivity).
    rewrite Hr in Hs. injection Hs as <-. exact (proj2 (proj2 Hm)).
  - intros (order & Hnd & Ht).
    destruct (load_order_correct map_to_list cyclic_plugins (λ m, Permutation_refl _))
      as (r & Hs & Hm).
    assert (Hr : ∃ e, resolve_load_order map_to_list cyclic_plugins = Some (Err e))
      by (eexists; vm_compute; reflexivity).
    destruct Hr as [e Hr]. rewrite Hr in Hs. injection Hs as <-. refine (Hm _ order Hnd Ht).
    pose proof (check_dependencies_spec (plugin_ids cyclic_plugins) cyclic_plugins) as Hc.
    replace (check_dependencies _ _) with (Ok (E := PluginError) ()) in Hc by (vm_compute; reflexivity).
    exact Hc.
Defined.
