(* ===== verification/EventBus.v ===== *)
(** * EventBus: who hears of an event, and in which order

    Models [event_bus/handler.rs], [event_bus/bus.rs] and the types of the API it serves
    ([event/mod.rs], [events/packet.rs]).  A listener is a function on the event; that an
    asynchronous one is awaited makes no difference to what it does to the event, because
    listeners run one after the other on a snapshot of the list.  A [HashMap] that is
    iterated is a [DashMap] of [Router], whose order of iteration is unspecified.

    The contract is a plain list of the live subscriptions in the order they were made:
    the listeners of a topic are those of the list, by priority and then by age. *)
From S2P Require Import Prelude Utf8 Version Packet Config Router.

(** ** Types *)

(** [EventPriority(u8)]. *)
Definition PRIORITY_FIRST : Z := 0.
Definition PRIORITY_EARLY : Z := 64.
Definition PRIORITY_NORMAL : Z := 128.
Definition PRIORITY_LATE : Z := 192.
Definition PRIORITY_LAST : Z := 255.

Inductive ApiConnectionState := AHandshake | AStatus | ALogin | AConfiguration | APlay.
#[export] Instance ApiConnectionState_eq_dec : EqDecision ApiConnectionState.
Proof. solve_decision. Defined.
Inductive PacketDirection := PServerbound | PClientbound.
#[export] Instance PacketDirection_eq_dec : EqDecision PacketDirection.
Proof. solve_decision. Defined.

Definition protocol_state_to_api (s : ConnectionState) : ApiConnectionState :=
  match s with
  | Handshake => AHandshake | Status => AStatus | Login => ALogin
  | Config => AConfiguration | Play => APlay
  end.
Definition protocol_direction_to_api (d : Direction) : PacketDirection :=
  match d with Serverbound => PServerbound | Clientbound => PClientbound end.

Record PacketKey := {
  pk_id : Z;
  pk_state : ApiConnectionState;
  pk_direction : PacketDirection }.
#[export] Instance PacketKey_eq_dec : EqDecision PacketKey.
Proof. solve_decision. Defined.

Record RawPacket := { rp_packet_id : Z; rp_data : bytes }.
Inductive RawPacketResult := RawPass | RawModify (packet : RawPacket) | RawDrop.
Record RawPacketEvent := {
  re_player : Z;
  re_direction : PacketDirection;
  re_packet : RawPacket;
  re_result : RawPacketResult }.

Definition RawPacketEvent_new (player : Z) (d : PacketDirection) (p : RawPacket) : RawPacketEvent :=
  Build_RawPacketEvent player d p RawPass.
Definition drop_packet (e : RawPacketEvent) : RawPacketEvent :=
  Build_RawPacketEvent (re_player e) (re_direction e) (re_packet e) RawDrop.
Definition modify_packet (p : RawPacket) (e : RawPacketEvent) : RawPacketEvent :=
  Build_RawPacketEvent (re_player e) (re_direction e) (re_packet e) (RawModify p).

Inductive HandlerKind (E : Type) := HSync (f : E → E) | HAsync (f : E → E).
Arguments HSync {E} f.
Arguments HAsync {E} f.

Record HandlerEntry (E : Type) := mk_HandlerEntry {
  he_handle : Z;
  he_priority : Z;
  he_kind : HandlerKind E }.
Arguments mk_HandlerEntry {E}.
Arguments he_handle {E}.
Arguments he_priority {E}.
Arguments he_kind {E}.

Definition run_handler {E} (k : HandlerKind E) (event : E) : E :=
  match k with HSync f | HAsync f => f event end.

(** The loop of [fire] and of [fire_packet_event]. *)
Definition dispatch {E} (handlers : list (HandlerEntry E)) (event : E) : E :=
  foldl (λ event entry, run_handler (he_kind entry) event) event handlers.

(** ** The listeners of one kind of topic *)

(** [partition_point]: the first index whose element does not satisfy the predicate;
    every list it is used on has those that do in front. *)
Fixpoint partition_point {A} (p : A → bool) (l : list A) : nat :=
  match l with
  | [] => 0
  | x :: l => if p x then S (partition_point p l) else 0
  end.

(** [vec.insert(pos, entry)] at that position. *)
Definition insert_sorted {E} (entry : HandlerEntry E) (vec : list (HandlerEntry E))
    : list (HandlerEntry E) :=
  let pos := partition_point (λ h, bool_decide (he_priority h ≤ he_priority entry)) vec in
  take pos vec ++ entry :: drop pos vec.

(** [vec.iter().position(...)] and [vec.remove(pos)]. *)
Fixpoint remove_handle {E} (handle : Z) (vec : list (HandlerEntry E))
    : option (list (HandlerEntry E)) :=
  match vec with
  | [] => None
  | h :: vec =>
    if decide (he_handle h = handle) then Some vec else (h ::.) <$> remove_handle handle vec
  end.

Section topics.
Context {K E M : Type} `{!EqDecision K, !DashMap K (list (HandlerEntry E)) M}.

Definition listeners (m : M) (k : K) : list (HandlerEntry E) := default [] (dm_get m k).

Definition topic_insert (k : K) (entry : HandlerEntry E) (m : M) : M :=
  dm_insert k (insert_sorted entry (listeners m k)) m.

(** The loop of [unsubscribe] over the lists of a map. *)
Fixpoint topic_remove_from (handle : Z) (lists : list (K * list (HandlerEntry E))) (m : M) : option M :=
  match lists with
  | [] => None
  | (k, vec) :: lists =>
    match remove_handle handle vec with
    | Some vec => Some (dm_insert k vec m)
    | None => topic_remove_from handle lists m
    end
  end.
Definition topic_remove (handle : Z) (m : M) : option M := topic_remove_from handle (dm_iter m) m.
End topics.

(** ** The bus *)

Section bus.
Context {TypeId Event : Type} `{!EqDecision TypeId}.
Context {HM PM : Type}.
Context `{!DashMap TypeId (list (HandlerEntry Event)) HM}.
Context `{!DashMap PacketKey (list (HandlerEntry RawPacketEvent)) PM}.

Record EventBusImpl := {
  eb_handlers : HM;
  eb_packet_handlers : PM;
  eb_next_handle : Z;
  eb_packet_listener_count : Z }.

Definition bus_new : EventBusImpl := Build_EventBusImpl dm_new dm_new 1 0.

Definition next_handle (b : EventBusImpl) : Z * EventBusImpl :=
  (eb_next_handle b,
   Build_EventBusImpl (eb_handlers b) (eb_packet_handlers b) (wrap_u 64 (eb_next_handle b + 1))
     (eb_packet_listener_count b)).

Definition insert_handler (event_type : TypeId) (entry : HandlerEntry Event) (b : EventBusImpl)
    : Z * EventBusImpl :=
  (he_handle entry,
   Build_EventBusImpl (topic_insert event_type entry (eb_handlers b)) (eb_packet_handlers b)
     (eb_next_handle b) (eb_packet_listener_count b)).

Definition insert_packet_handler (key : PacketKey) (entry : HandlerEntry RawPacketEvent)
    (b : EventBusImpl) : Z * EventBusImpl :=
  (he_handle entry,
   Build_EventBusImpl (eb_handlers b) (topic_insert key entry (eb_packet_handlers b))
     (eb_next_handle b) (wrap_u 64 (eb_packet_listener_count b + 1))).

(** [subscribe_erased] and [subscribe_async_erased]; [subscribe_packet] and
    [subscribe_packet_async]. *)
Definition subscribe (event_type : TypeId) (priority : Z) (kind : HandlerKind Event)
    (b : EventBusImpl) : Z * EventBusImpl :=
  let '(handle, b) := next_handle b in
  insert_handler event_type (mk_HandlerEntry handle priority kind) b.
Definition subscribe_packet (filter : PacketKey) (priority : Z) (kind : HandlerKind RawPacketEvent)
    (b : EventBusImpl) : Z * EventBusImpl :=
  let '(handle, b) := next_handle b in
  insert_packet_handler filter (mk_HandlerEntry handle priority kind) b.

Definition has_packet_listeners (packet_id : Z) (state : ApiConnectionState)
    (direction : PacketDirection) (b : EventBusImpl) : bool :=
  if decide (eb_packet_listener_count b = 0) then false
  else match dm_get (eb_packet_handlers b) (Build_PacketKey packet_id state direction) with
       | Some v => negb (bool_decide (length v = 0%nat))
       | None => false
       end.

Definition unsubscribe (handle : Z) (b : EventBusImpl) : EventBusImpl :=
  match topic_remove handle (eb_handlers b) with
  | Some m =>
    Build_EventBusImpl m (eb_packet_handlers b) (eb_next_handle b) (eb_packet_listener_count b)
  | None =>
    match topic_remove handle (eb_packet_handlers b) with
    | Some m =>
      Build_EventBusImpl (eb_handlers b) m (eb_next_handle b)
        (wrap_u 64 (eb_packet_listener_count b - 1))
    | None => b
    end
  end.

(** [fire] for an event whose type is [event_type]. *)
Definition fire (event_type : TypeId) (event : Event) (b : EventBusImpl) : Event :=
  match dm_get (eb_handlers b) event_type with
  | Some handlers => dispatch handlers event
  | None => event
  end.
Definition fire_packet_event (packet_id : Z) (state : ApiConnectionState)
    (direction : PacketDirection) (event : RawPacketEvent) (b : EventBusImpl) : RawPacketEvent :=
  match dm_get (eb_packet_handlers b) (Build_PacketKey packet_id state direction) with
  | Some handlers => dispatch handlers event
  | None => event
  end.
End bus.

(** ** Lists of subscriptions *)

(** Which of two listeners runs first. *)
Definition runs_before {E} (a b : HandlerEntry E) : Prop :=
  he_priority a < he_priority b ∨ he_priority a = he_priority b ∧ he_handle a < he_handle b.

Lemma runs_before_irrefl {E} (a : HandlerEntry E) : ¬ runs_before a a.
Proof. unfold runs_before. lia. Qed.

Lemma sorted_NoDup {E} (l : list (HandlerEntry E)) : StronglySorted runs_before l → NoDup l.
Proof.
  induction 1 as [|a l Hs IH Ha]; constructor; [|done]. intros Hin.
  rewrite Forall_forall in Ha. by eapply runs_before_irrefl, Ha.
Qed.

Lemma insert_sorted_elem {E} (e x : HandlerEntry E) l : x ∈ insert_sorted e l ↔ x = e ∨ x ∈ l.
Proof.
  unfold insert_sorted. set (n := partition_point _ _).
  rewrite elem_of_app, elem_of_cons. rewrite <- (take_drop n l) at 3. rewrite elem_of_app. tauto.
Qed.

(** The new listener is the youngest, so that it goes after those of its priority. *)
Lemma insert_sorted_sorted {E} (e : HandlerEntry E) l :
  StronglySorted runs_before l → (∀ x, x ∈ l → he_handle x < he_handle e) →
  StronglySorted runs_before (insert_sorted e l).
Proof.
  unfold insert_sorted. induction 1 as [|a l Hs IH Ha]; intros Hnew; [repeat constructor|].
  cbn [partition_point]. pose proof (Hnew a ltac:(left)) as Hae. case_bool_decide as Hp; cbn [take drop app].
  - constructor; [apply IH; intros; apply Hnew; by right|]. apply Forall_forall. intros x.
    change (x ∈ insert_sorted e l → runs_before a x). rewrite insert_sorted_elem.
    intros [->|Hx]; [unfold runs_before; lia|]. rewrite Forall_forall in Ha. by apply Ha.
  - constructor; [by constructor|]. apply Forall_cons. split; [unfold runs_before; lia|].
    eapply Forall_impl; [exact Ha|]. unfold runs_before. intros x. lia.
Qed.

Lemma remove_handle_Some {E} h (l l' : list (HandlerEntry E)) :
  remove_handle h l = Some l' →
  ∃ l1 e l2, l = l1 ++ e :: l2 ∧ l' = l1 ++ l2 ∧ he_handle e = h.
Proof.
  revert l'. induction l as [|a l IH]; intros l'; cbn [remove_handle]; [done|].
  case_decide as Ha; [intros [= ->]; by exists [], a, l'|].
  destruct (remove_handle h l) as [r|]; [|done]. intros [= <-].
  destruct (IH r eq_refl) as (l1&e&l2&->&->&He). by exists (a :: l1), e, l2.
Qed.

Lemma remove_handle_None {E} h (l : list (HandlerEntry E)) :
  remove_handle h l = None → ∀ x, x ∈ l → he_handle x ≠ h.
Proof.
  induction l as [|a l IH]; cbn [remove_handle]; intros Hr x Hx; [by apply not_elem_of_nil in Hx|].
  case_decide as Ha; [done|]. destruct (remove_handle h l); [done|].
  apply elem_of_cons in Hx as [->|Hx]; auto.
Qed.

Lemma sorted_remove {E} (l1 : list (HandlerEntry E)) e l2 :
  StronglySorted runs_before (l1 ++ e :: l2) → StronglySorted runs_before (l1 ++ l2).
Proof.
  induction l1 as [|a l1 IH]; cbn [app]; intros Hs; inversion Hs as [|? ? Hs' Ha]; subst; [done|].
  constructor; [by apply IH|]. rewrite !Forall_app, Forall_cons in Ha. rewrite Forall_app. tauto.
Qed.

Lemma filter_all {A} (P : A → Prop) `{∀ x, Decision (P x)} (l : list A) : (∀ x, x ∈ l → P x) → filter P l = l.
Proof.
  induction l as [|a l IH]; intros Hl; [done|]. rewrite filter_cons, decide_True by (apply Hl; left).
  f_equal. apply IH. intros x Hx. apply Hl. by right.
Qed.

(** ** The contract *)

Section topic_contract.
Context {K E M : Type} `{!EqDecision K, !DashMap K (list (HandlerEntry E)) M}.
Context `{DML : !DashMapLaws K (list (HandlerEntry E)) M}.

Abbreviation subscription := (K * HandlerEntry E)%type.
Abbreviation handle_of := (λ x : subscription, he_handle x.2).

(** The map holds the subscriptions, each list in the order of its listeners. *)
Definition topic_inv (m : M) (live : list subscription) : Prop :=
  (∀ k e, e ∈ listeners m k ↔ (k, e) ∈ live) ∧
  ∀ k, StronglySorted runs_before (listeners m k).

Lemma handles_inj (live : list subscription) x y :
  NoDup (handle_of <$> live) → x ∈ live → y ∈ live → handle_of x = handle_of y → x = y.
Proof using Type.
  induction live as [|a live IH]; intros Hnd Hx Hy Heq; [by apply not_elem_of_nil in Hx|].
  apply NoDup_cons in Hnd as [Ha Hnd].
  assert (Hout : ∀ z, z ∈ live → handle_of z ≠ handle_of a).
  { intros z Hz Hza. apply Ha, list_elem_of_fmap. exists z. by rewrite Hza. }
  apply elem_of_cons in Hx as [->|Hx]; apply elem_of_cons in Hy as [->|Hy]; auto.
  - by destruct (Hout y Hy).
  - by destruct (Hout x Hx).
Qed.

Lemma handles_filter (live : list subscription) x :
  NoDup (handle_of <$> live) → x ∈ live →
  zlen (filter (λ y : subscription, he_handle y.2 ≠ he_handle x.2) live) = zlen live - 1.
Proof using Type.
  induction live as [|a live IH]; intros Hnd Hx; [by apply not_elem_of_nil in Hx|].
  apply NoDup_cons in Hnd as [Ha Hnd]. rewrite filter_cons, zlen_cons.
  destruct (decide (he_handle a.2 = he_handle x.2)) as [Heq|Hne].
  - rewrite decide_False by tauto. rewrite filter_all; [lia|].
    intros z Hz Hzx. apply Ha, list_elem_of_fmap. exists z. split; [cbn; congruence|done].
  - rewrite decide_True by done. rewrite zlen_cons.
    apply elem_of_cons in Hx as [->|Hx]; [done|]. rewrite IH by done. lia.
Qed.

Lemma listeners_insert k l m k' :
  listeners (dm_insert k l m) k' = if decide (k = k') then l else listeners m k'.
Proof using DML. unfold listeners. rewrite dm_get_insert. by destruct (decide (k = k')). Qed.

Lemma topic_inv_new : topic_inv dm_new [].
Proof using DML.
  split; intros k; unfold listeners; rewrite dm_get_new; [|constructor].
  intros e. cbn. by rewrite !elem_of_nil.
Qed.

Lemma topic_inv_insert m live k entry :
  topic_inv m live → (∀ x, x ∈ live → he_handle x.2 < he_handle entry) →
  topic_inv (topic_insert k entry m) (live ++ [(k, entry)]).
Proof using DML.
  intros [Hin Hs] Hnew. unfold topic_insert. split; intros k'; rewrite listeners_insert.
  - intros e. rewrite elem_of_app, list_elem_of_singleton.
    destruct (decide (k = k')) as [<-|Hne]; [rewrite insert_sorted_elem|]; rewrite Hin; naive_solver.
  - destruct (decide (k = k')) as [<-|Hne]; [|done]. apply insert_sorted_sorted; [done|].
    intros x Hx%Hin. by apply (Hnew (k, x)).
Qed.

Lemma topic_remove_from_Some h lists m m' :
  topic_remove_from h lists m = Some m' →
  ∃ k vec vec', (k, vec) ∈ lists ∧ remove_handle h vec = Some vec' ∧ m' = dm_insert k vec' m.
Proof using Type.
  induction lists as [|[k vec] lists IH]; cbn [topic_remove_from]; [done|].
  destruct (remove_handle h vec) as [vec'|] eqn:Er.
  - intros [= <-]. exists k, vec, vec'. split_and!; [left|done..].
  - intros (k'&v&v'&Hin&Hr&->)%IH. exists k', v, v'. split_and!; [by right|done..].
Qed.

Lemma topic_remove_from_None h lists m :
  topic_remove_from h lists m = None → ∀ k vec, (k, vec) ∈ lists → remove_handle h vec = None.
Proof using Type.
  induction lists as [|[k vec] lists IH]; cbn [topic_remove_from]; intros Hr k' v Hin.
  { by apply not_elem_of_nil in Hin. }
  destruct (remove_handle h vec) eqn:Er; [done|].
  apply elem_of_cons in Hin as [[= -> ->]|Hin]; [done|by eapply IH].
Qed.

(** Unsubscribing takes the one entry with the handle out, if it is in this map. *)
Lemma topic_inv_remove m live h :
  topic_inv m live → NoDup (handle_of <$> live) →
  match topic_remove h m with
  | Some m' =>
    topic_inv m' (filter (λ y : subscription, he_handle y.2 ≠ h) live) ∧
    ∃ x, x ∈ live ∧ he_handle x.2 = h
  | None => ∀ x, x ∈ live → he_handle x.2 ≠ h
  end.
Proof using DML.
  intros [Hin Hs] Hnd. unfold topic_remove. destruct (topic_remove_from _ _ _) as [m'|] eqn:Er.
  - apply topic_remove_from_Some in Er as (k&vec&vec'&Hk&Hr&->).
    assert (Hl : listeners m k = vec) by (apply dm_iter_get in Hk; unfold listeners; by rewrite Hk).
    apply remove_handle_Some in Hr as (l1&e&l2&Hvec&->&He). specialize (Hs k) as Hsk.
    rewrite Hl, Hvec in Hsk.
    assert (Hlive : (k, e) ∈ live) by (apply Hin; rewrite Hl, Hvec; apply elem_of_app; right; left).
    split; [split|by exists (k, e)]; intros k'; rewrite listeners_insert;
      destruct (decide (k = k')) as [<-|Hne]; [| |by eapply sorted_remove|done].
    + intros x. rewrite list_elem_of_filter. cbn. rewrite <- Hin, Hl, Hvec, !elem_of_app, elem_of_cons.
      apply sorted_NoDup, NoDup_app in Hsk as (_&Hd&[He2 _]%NoDup_cons).
      split.
      * intros Hx. split; [|tauto]. intros Hxh.
        assert (Heq : (k, x) = (k, e)); [|injection Heq as ->].
        { eapply handles_inj; [exact Hnd| |done|cbn; congruence].
          apply Hin. rewrite Hl, Hvec, elem_of_app, elem_of_cons. tauto. }
        destruct Hx as [Hx|Hx]; [|done]. apply (Hd e Hx). left.
      * intros [Hxh [?|[->|?]]]; tauto.
    + intros x. rewrite Hin, list_elem_of_filter. cbn. split; [|tauto]. intros Hx. split; [|done].
      intros Hxh. assert (Heq : (k', x) = (k, e)); [|by injection Heq].
      eapply handles_inj; [exact Hnd|done|done|cbn; congruence].
  - intros [k x] Hx. apply Hin in Hx. cbn.
    unfold listeners in Hx. destruct (dm_get m k) as [vec|] eqn:Ek; [|by apply not_elem_of_nil in Hx].
    apply dm_iter_get in Ek. by eapply remove_handle_None; [eapply topic_remove_from_None|].
Qed.
End topic_contract.

(** ** The bus against the contract *)

Section bus_contract.
Context {TypeId Event : Type} `{!EqDecision TypeId}.
Context {HM PM : Type}.
Context `{!DashMap TypeId (list (HandlerEntry Event)) HM}.
Context `{!DashMap PacketKey (list (HandlerEntry RawPacketEvent)) PM}.
Context `{HL : !DashMapLaws TypeId (list (HandlerEntry Event)) HM}.
Context `{PL : !DashMapLaws PacketKey (list (HandlerEntry RawPacketEvent)) PM}.

(** What plugins do to the bus. *)
Inductive bus_op :=
| OpSubscribe (event_type : TypeId) (priority : Z) (kind : HandlerKind Event)
| OpSubscribePacket (key : PacketKey) (priority : Z) (kind : HandlerKind RawPacketEvent)
| OpUnsubscribe (handle : Z).

Definition bus_step (b : EventBusImpl) (op : bus_op) : EventBusImpl :=
  match op with
  | OpSubscribe ty p k => (subscribe ty p k b).2
  | OpSubscribePacket key p k => (subscribe_packet key p k b).2
  | OpUnsubscribe h => unsubscribe h b
  end.
Definition bus_run (ops : list bus_op) : EventBusImpl := foldl bus_step bus_new ops.

(** The live subscriptions, oldest first. *)
Record BusSpec := {
  bs_events : list (TypeId * HandlerEntry Event);
  bs_packets : list (PacketKey * HandlerEntry RawPacketEvent);
  bs_next : Z }.

Definition spec_step (s : BusSpec) (op : bus_op) : BusSpec :=
  match op with
  | OpSubscribe ty p k =>
    Build_BusSpec (bs_events s ++ [(ty, mk_HandlerEntry (bs_next s) p k)]) (bs_packets s) (bs_next s + 1)
  | OpSubscribePacket key p k =>
    Build_BusSpec (bs_events s) (bs_packets s ++ [(key, mk_HandlerEntry (bs_next s) p k)]) (bs_next s + 1)
  | OpUnsubscribe h =>
    Build_BusSpec (filter (λ y, he_handle y.2 ≠ h) (bs_events s))
      (filter (λ y, he_handle y.2 ≠ h) (bs_packets s)) (bs_next s)
  end.
Definition bus_spec (ops : list bus_op) : BusSpec := foldl spec_step (Build_BusSpec [] [] 1) ops.

Definition handles (s : BusSpec) : list Z :=
  ((λ y, he_handle y.2) <$> bs_events s) ++ ((λ y, he_handle y.2) <$> bs_packets s).

(** Bus and contract after [n] operations. *)
Record bus_sim (n : Z) (b : EventBusImpl) (s : BusSpec) : Prop := {
  sim_events : topic_inv (eb_handlers b) (bs_events s);
  sim_packets : topic_inv (eb_packet_handlers b) (bs_packets s);
  sim_handles : NoDup (handles s);
  sim_old h : h ∈ handles s → h < bs_next s;
  sim_next : eb_next_handle b = bs_next s;
  sim_count : eb_packet_listener_count b = zlen (bs_packets s);
  sim_bound : 0 < bs_next s ≤ n + 1 ∧ zlen (bs_packets s) ≤ n }.

Lemma bus_sim_new : bus_sim 0 bus_new (Build_BusSpec [] [] 1).
Proof using HL PL.
  split; try done; try apply topic_inv_new.
  - constructor.
  - by intros h ?%not_elem_of_nil.
Qed.

Lemma fresh_NoDup (l : list Z) n : NoDup l → (∀ h, h ∈ l → h < n) → NoDup (l ++ [n]).
Proof using Type.
  intros Hl Hn. apply NoDup_app. split_and!; [done| |apply NoDup_singleton].
  intros h Hh ->%list_elem_of_singleton. specialize (Hn n Hh). lia.
Qed.

Lemma handles_unsubscribe s h x :
  x ∈ handles (spec_step s (OpUnsubscribe h)) ↔ x ∈ handles s ∧ x ≠ h.
Proof using Type.
  unfold handles. cbn [spec_step bs_events bs_packets]. rewrite !elem_of_app, !list_elem_of_fmap.
  setoid_rewrite list_elem_of_filter. naive_solver.
Qed.

Lemma handles_sublist s h : handles (spec_step s (OpUnsubscribe h)) `sublist_of` handles s.
Proof using Type. apply sublist_app; apply fmap_sublist, sublist_filter. Qed.

Lemma bus_sim_step n b s op :
  n + 1 < 2 ^ 64 - 1 → bus_sim n b s → bus_sim (n + 1) (bus_step b op) (spec_step s op).
Proof using HL PL.
  intros Hn [He Hp Hnd Hold Hnext Hcount [Hb1 Hb2]]. pose proof (zlen_nonneg (bs_packets s)) as Hnn.
  destruct op as [ty p k|key p k|h].
  - assert (Hnd' : NoDup (handles s ++ [bs_next s])) by by apply fresh_NoDup.
    split; cbn [bus_step spec_step subscribe next_handle insert_handler snd eb_handlers
      eb_packet_handlers eb_next_handle eb_packet_listener_count bs_events bs_packets bs_next]; try done.
    + rewrite Hnext. apply topic_inv_insert; [done|]. intros x Hx. cbn [he_handle]. apply Hold.
      apply elem_of_app. left. apply list_elem_of_fmap. eauto.
    + unfold handles in *. cbn [bs_events bs_packets]. rewrite fmap_app. cbn.
      eapply NoDup_Permutation_proper; [|exact Hnd']. solve_Permutation.
    + intros h. unfold handles in *. cbn [bs_events bs_packets]. rewrite fmap_app, !elem_of_app.
      cbn. rewrite list_elem_of_singleton. setoid_rewrite elem_of_app in Hold.
      intros [[?| ->]|?]; [|lia|]; (assert (h < bs_next s) by auto; lia).
    + rewrite Hnext. apply wrap_u_small. unfold in_u. lia.
    + lia.
  - assert (Hnd' : NoDup (handles s ++ [bs_next s])) by by apply fresh_NoDup.
    split; cbn [bus_step spec_step subscribe_packet next_handle insert_packet_handler snd eb_handlers
      eb_packet_handlers eb_next_handle eb_packet_listener_count bs_events bs_packets bs_next]; try done.
    + rewrite Hnext. apply topic_inv_insert; [done|]. intros x Hx. cbn [he_handle]. apply Hold.
      apply elem_of_app. right. apply list_elem_of_fmap. eauto.
    + unfold handles in *. cbn [bs_events bs_packets]. rewrite fmap_app, app_assoc. exact Hnd'.
    + intros h. unfold handles in *. cbn [bs_events bs_packets]. rewrite fmap_app, !elem_of_app.
      cbn. rewrite list_elem_of_singleton. setoid_rewrite elem_of_app in Hold.
      intros [?|[?| ->]]; [| |lia]; (assert (h < bs_next s) by auto; lia).
    + rewrite Hnext. apply wrap_u_small. unfold in_u. lia.
    + rewrite Hcount, zlen_app. change (zlen [_]) with 1. apply wrap_u_small. unfold in_u. lia.
    + rewrite zlen_app. change (zlen [_]) with 1. lia.
  - destruct (proj1 (NoDup_app ((λ y, he_handle y.2) <$> bs_events s) _) Hnd) as (Hnde&Hdisj&Hndp).
    assert (Hrest : ∀ b', topic_inv (eb_handlers b') (filter (λ y, he_handle y.2 ≠ h) (bs_events s)) →
      topic_inv (eb_packet_handlers b') (filter (λ y, he_handle y.2 ≠ h) (bs_packets s)) →
      eb_next_handle b' = bs_next s →
      eb_packet_listener_count b' = zlen (filter (λ y, he_handle y.2 ≠ h) (bs_packets s)) →
      bus_sim (n + 1) b' (spec_step s (OpUnsubscribe h))).
    { intros b' He' Hp' Hn' Hc'. split; try done.
      - eapply sublist_NoDup; [exact Hnd|]. apply handles_sublist.
      - intros x [Hx _]%handles_unsubscribe. by apply Hold.
      - cbn [spec_step bs_next bs_packets].
        pose proof (length_filter (λ y : PacketKey * HandlerEntry RawPacketEvent, he_handle y.2 ≠ h)
          (bs_packets s)). unfold zlen in *. lia. }
    pose proof (topic_inv_remove _ _ h He Hnde) as HE.
    pose proof (topic_inv_remove _ _ h Hp Hndp) as HP.
    cbn [bus_step]. unfold unsubscribe. destruct (topic_remove h (eb_handlers b)) as [m|].
    + destruct HE as [HE (x&Hx&Hxh)].
      assert (Hno : filter (λ y : PacketKey * HandlerEntry RawPacketEvent, he_handle y.2 ≠ h)
        (bs_packets s) = bs_packets s).
      { apply filter_all. intros y Hy Hyh. apply (Hdisj h); apply list_elem_of_fmap; eauto. }
      apply Hrest; cbn [eb_handlers eb_packet_handlers eb_next_handle eb_packet_listener_count];
        rewrite ?Hno; done.
    + rewrite <- (filter_all (λ y : TypeId * HandlerEntry Event, he_handle y.2 ≠ h) (bs_events s)) in He
        by done.
      destruct (topic_remove h (eb_packet_handlers b)) as [m|].
      * destruct HP as [HP (x&Hx&Hxh)]. pose proof (handles_filter _ _ Hndp Hx) as Hlen.
        rewrite Hxh in Hlen.
        apply Hrest; cbn [eb_handlers eb_packet_handlers eb_next_handle eb_packet_listener_count];
          try done. rewrite Hcount, Hlen. apply wrap_u_small. unfold in_u.
        pose proof (zlen_nonneg (filter (λ y : PacketKey * HandlerEntry RawPacketEvent,
          he_handle y.2 ≠ h) (bs_packets s))). lia.
      * rewrite <- (filter_all (λ y : PacketKey * HandlerEntry RawPacketEvent, he_handle y.2 ≠ h)
          (bs_packets s)) in Hp, Hcount by done. by apply Hrest.
Qed.

Lemma bus_sim_run ops : zlen ops < 2 ^ 64 - 1 → bus_sim (zlen ops) (bus_run ops) (bus_spec ops).
Proof using HL PL.
  unfold bus_run, bus_spec. induction ops as [|op ops IH] using rev_ind; intros Hlen.
  { apply bus_sim_new. }
  rewrite zlen_app in *. change (zlen [op]) with 1 in *. rewrite !foldl_app. cbn [foldl].
  apply bus_sim_step; [lia|]. apply IH. lia.
Qed.

(** C31: Whatever subscriptions and unsubscriptions went before, firing an event runs
    exactly the listeners that are subscribed to its type, by priority and, at equal
    priority, in order of subscription; the same holds for packet listeners, a packet
    has listeners exactly when one is subscribed, and no two listeners share a handle. *)
Theorem event_bus_refines (ops : list bus_op) :
  zlen ops < 2 ^ 64 - 1 →
  let b := bus_run ops in
  let s := bus_spec ops in
  (∀ ty, ∃ l, StronglySorted runs_before l ∧ (∀ e, e ∈ l ↔ (ty, e) ∈ bs_events s) ∧
     ∀ event, fire ty event b = dispatch l event) ∧
  (∀ id st dir, ∃ l, StronglySorted runs_before l ∧
     (∀ e, e ∈ l ↔ (Build_PacketKey id st dir, e) ∈ bs_packets s) ∧
     (∀ event, fire_packet_event id st dir event b = dispatch l event) ∧
     has_packet_listeners id st dir b = negb (bool_decide (l = []))) ∧
  NoDup (handles s).
Proof using HL PL.
  intros Hlen b s. destruct (bus_sim_run ops Hlen) as [[He Hse] [Hp Hsp] Hnd _ _ Hc _].
  fold b s in He, Hse, Hp, Hsp, Hnd, Hc. split_and!; [| |done].
  - intros ty. exists (listeners (eb_handlers b) ty). split_and!; [done|done|].
    intros event. unfold fire, listeners. by destruct (dm_get (eb_handlers b) ty).
  - intros id st dir. set (k := Build_PacketKey id st dir).
    exists (listeners (eb_packet_handlers b) k). split_and!; [done|apply Hp| |].
    + intros event. unfold fire_packet_event, listeners. fold k. by destruct (dm_get (eb_packet_handlers b) k).
    + unfold has_packet_listeners. fold k. specialize (Hp k). unfold listeners in *.
      case_decide as H0.
      * destruct (dm_get (eb_packet_handlers b) k) as [[|e v]|]; [done| |done]. exfalso.
        assert (Hx : (k, e) ∈ bs_packets s) by (apply Hp; left).
        rewrite Hc in H0. destruct (bs_packets s); [by apply not_elem_of_nil in Hx|].
        rewrite zlen_cons in H0. pose proof (zlen_nonneg l). lia.
      * by destruct (dm_get (eb_packet_handlers b) k) as [[|e v]|].
Qed.
End bus_contract.

(** ** A concrete bus *)

(** Events are logs that each listener signs. *)
Definition sign (name : string) : HandlerKind (list string) := HSync (λ log, log ++ [name]).
Definition chat_packet : PacketKey := Build_PacketKey 5 APlay PServerbound.
Definition sample_ops : list (bus_op (TypeId := Z) (Event := list string)) :=
  [OpSubscribe 0 PRIORITY_NORMAL (sign "first");
   OpSubscribe 0 PRIORITY_EARLY (sign "early");
   OpSubscribe 0 PRIORITY_NORMAL (sign "second");
   OpSubscribePacket chat_packet PRIORITY_LAST (HAsync drop_packet);
   OpUnsubscribe 1; OpUnsubscribe 9].
Definition sample_bus := bus_run (HM := assoc_map Z (list (HandlerEntry (list string))))
  (PM := assoc_map PacketKey (list (HandlerEntry RawPacketEvent))) sample_ops.

Lemma event_bus_refines_witness :
  (∃ l, StronglySorted runs_before l ∧ fire 0 [] sample_bus = dispatch l []) ∧
  fire 0 [] sample_bus = ["early"; "second"]%string ∧
  has_packet_listeners 5 APlay PServerbound sample_bus = true ∧
  has_packet_listeners 5 APlay PClientbound sample_bus = false.
Proof.
  split; [|by vm_compute].
  destruct (event_bus_refines (HM := assoc_map Z (list (HandlerEntry (list string))))
    (PM := assoc_map PacketKey (list (HandlerEntry RawPacketEvent))) sample_ops ltac:(by vm_compute))
    as [He _].
  destruct (He 0) as (l & Hs & _ & Hf). exists l. split; [exact Hs|apply Hf].
Defined.
