(* ===== verification/Filters.v ===== *)
(** * Filters: the filters of a session

    Models [filter/registry_base.rs], [filter/codec_registry.rs], [filter/codec_chain.rs]
    and the codec side of the filter API ([filter/codec.rs]).  The registry keeps the
    filters and an order of their identifiers, which it computes with [resolve_filter_order]
    after each change; when there is no order the old one stays.  A session instantiates
    the filters in that order and runs every packet through them. *)
From S2P Require Import Prelude Utf8 Version Packet Config Router Ordering EventBus.

(** ** The registry of filters *)

Section registry.
Context {F : Type} (metadata : F → FilterMetadata).
Context (ord : gmap (list Z) Z → list (list Z * Z)).

Record FilterRegistryBase := {
  fr_items : list F;
  fr_ordered_ids : list rstring }.

Definition filter_registry_new : FilterRegistryBase := Build_FilterRegistryBase [] [].

(** An error, as running out of fuel, would keep the previous order. *)
Definition recalculate_order (r : FilterRegistryBase) : FilterRegistryBase :=
  match resolve_filter_order ord (metadata <$> fr_items r) with
  | Some (Ok order) => Build_FilterRegistryBase (fr_items r) order
  | _ => r
  end.

Definition item_id (f : F) : rstring := fm_id (metadata f).

Definition register_filter (item : F) (r : FilterRegistryBase) : FilterRegistryBase :=
  recalculate_order
    (Build_FilterRegistryBase (filter (λ f, item_id f ≠ item_id item) (fr_items r) ++ [item])
       (fr_ordered_ids r)).

Definition unregister_filter (filter_id : rstring) (r : FilterRegistryBase) : FilterRegistryBase :=
  recalculate_order
    (Build_FilterRegistryBase (filter (λ f, item_id f ≠ filter_id) (fr_items r)) (fr_ordered_ids r)).

Definition registry_is_empty (r : FilterRegistryBase) : bool :=
  bool_decide (length (fr_items r) = 0%nat).

(** [factory_map.get(id)]: of items with the same identifier the last one. *)
Definition item_by_id (items : list F) (id : rstring) : option F :=
  last (filter (λ f, item_id f = id) items).

(** The items in the resolved order. *)
Definition ordered_items (r : FilterRegistryBase) : list F :=
  omap (item_by_id (fr_items r)) (fr_ordered_ids r).

(** What the owner of the registry does. *)
Inductive registry_op := OpRegister (item : F) | OpUnregister (filter_id : rstring).
Definition registry_step (r : FilterRegistryBase) (op : registry_op) : FilterRegistryBase :=
  match op with
  | OpRegister f => register_filter f r
  | OpUnregister id => unregister_filter id r
  end.
Definition registry_run (ops : list registry_op) : FilterRegistryBase :=
  foldl registry_step filter_registry_new ops.
End registry.

(** ** Codec filters *)

Inductive ConnectionSide := ClientSide | ServerSide.

Record PlayerInfo := { pi_username : rstring; pi_uuid : option Z }.

Record CodecSessionInit := {
  ci_client_version : ProtocolVersion;
  ci_connection_id : Z;
  ci_remote_addr : rstring;
  ci_real_ip : option rstring;
  ci_side : ConnectionSide }.

Record CodecContext := {
  cc_client_version : ProtocolVersion;
  cc_server_version : option ProtocolVersion;
  cc_state : ApiConnectionState;
  cc_connection_id : Z;
  cc_side : ConnectionSide;
  cc_player_info : option PlayerInfo;
  cc_is_proxy_consumed : bool }.

Inductive CodecFilterError :=
| TranslationFailed (msg : rstring)
| MalformedPayload
| UnsupportedVersion (version : Z)
| InternalError (msg : rstring).

Inductive CodecVerdict := VPass | VDrop | VReplace | VError (e : CodecFilterError).

Record FrameOutput := { fo_before : list RawPacket; fo_after : list RawPacket }.
Definition FrameOutput_new : FrameOutput := Build_FrameOutput [] [].
Definition inject_before (p : RawPacket) (o : FrameOutput) : FrameOutput :=
  Build_FrameOutput (fo_before o ++ [p]) (fo_after o).
Definition inject_after (p : RawPacket) (o : FrameOutput) : FrameOutput :=
  Build_FrameOutput (fo_before o) (fo_after o ++ [p]).
Definition has_injections (o : FrameOutput) : bool :=
  negb (bool_decide (length (fo_before o) = 0%nat)) || negb (bool_decide (length (fo_after o) = 0%nat)).
Definition take_before (o : FrameOutput) : list RawPacket * FrameOutput :=
  (fo_before o, Build_FrameOutput [] (fo_after o)).
Definition take_after (o : FrameOutput) : list RawPacket * FrameOutput :=
  (fo_after o, Build_FrameOutput (fo_before o) []).

(** [CodecFilterInstance], which plugins implement; an instance holds its own state. *)
Class CodecInstances (I : Type) := {
  ci_filter : I → CodecContext → RawPacket → FrameOutput →
              CodecVerdict * I * RawPacket * FrameOutput;
  ci_on_state_change : ApiConnectionState → I → I;
  ci_on_compression_change : Z → I → I;
  ci_on_close : I → I }.

Inductive FilterResult :=
| FPass
| FDropped
| FReplaced (output : FrameOutput)
| FPassWithInjections (output : FrameOutput).

Section chain.
Context {I : Type} `{!CodecInstances I}.

Record CodecFilterChain := {
  ch_instances : list I;
  ch_context : CodecContext }.

(** The loop of [process]; the instances behind a verdict that ends it keep their state. *)
Fixpoint process_loop (ctx : CodecContext) (instances : list I) (packet : RawPacket)
    (output : FrameOutput) : FilterResult * list I * RawPacket :=
  match instances with
  | [] => (if has_injections output then FPassWithInjections output else FPass, [], packet)
  | i :: rest =>
    let '(verdict, i, packet, output) := ci_filter i ctx packet output in
    match verdict with
    | VPass | VError _ =>
      let '(r, rest, packet) := process_loop ctx rest packet output in (r, i :: rest, packet)
    | VDrop => (FDropped, i :: rest, packet)
    | VReplace => (FReplaced output, i :: rest, packet)
    end
  end.

Definition process (packet : RawPacket) (c : CodecFilterChain)
    : FilterResult * RawPacket * CodecFilterChain :=
  if decide (length (ch_instances c) = 0%nat) then (FPass, packet, c) else
  let '(r, instances, packet) := process_loop (ch_context c) (ch_instances c) packet FrameOutput_new in
  (r, packet, Build_CodecFilterChain instances (ch_context c)).

Definition context_set_state (st : ApiConnectionState) (c : CodecContext) : CodecContext :=
  Build_CodecContext (cc_client_version c) (cc_server_version c) st (cc_connection_id c) (cc_side c)
    (cc_player_info c) (cc_is_proxy_consumed c).
Definition notify_state_change (st : ApiConnectionState) (c : CodecFilterChain) : CodecFilterChain :=
  Build_CodecFilterChain (ci_on_state_change st <$> ch_instances c) (context_set_state st (ch_context c)).
Definition notify_compression_change (threshold : Z) (c : CodecFilterChain) : CodecFilterChain :=
  Build_CodecFilterChain (ci_on_compression_change threshold <$> ch_instances c) (ch_context c).
Definition chain_close (c : CodecFilterChain) : CodecFilterChain :=
  Build_CodecFilterChain (ci_on_close <$> ch_instances c) (ch_context c).
Definition chain_is_empty (c : CodecFilterChain) : bool :=
  bool_decide (length (ch_instances c) = 0%nat).

(** [CodecFilterFactory]. *)
Record CodecFilterFactory := {
  cf_metadata : FilterMetadata;
  cf_create : CodecSessionInit → I }.

Definition create_instances (init : CodecSessionInit)
    (r : FilterRegistryBase (F := CodecFilterFactory)) : list I :=
  (λ f, cf_create f init) <$> ordered_items cf_metadata r.

Definition build_codec_chains (r : FilterRegistryBase (F := CodecFilterFactory))
    (client_version : ProtocolVersion) (connection_id : Z) (remote_addr : rstring)
    (real_ip : option rstring) : CodecFilterChain * CodecFilterChain :=
  let init side := Build_CodecSessionInit client_version connection_id remote_addr real_ip side in
  let ctx side := Build_CodecContext client_version None AHandshake connection_id side None false in
  (Build_CodecFilterChain (create_instances (init ClientSide) r) (ctx ClientSide),
   Build_CodecFilterChain (create_instances (init ServerSide) r) (ctx ServerSide)).
End chain.
Arguments CodecFilterFactory I : clear implicits.
Arguments CodecFilterChain I : clear implicits.

(** ** The registry keeps a valid order *)

Section registry_proofs.
Context {F : Type} (metadata : F → FilterMetadata).
Context (ord : gmap (list Z) Z → list (list Z * Z)).

Abbreviation ids items := (filter_ids (metadata <$> items)).
Abbreviation edges items := (filter_edges (metadata <$> items)).

Lemma ids_item_id (items : list F) : ids items = item_id metadata <$> items.
Proof. unfold filter_ids. by rewrite <- list_fmap_compose. Qed.

(** The identifiers are distinct, and the order is one whenever there is one. *)
Record registry_inv (r : FilterRegistryBase) : Prop := {
  ri_items : NoDup (ids (fr_items r));
  ri_order : NoDup (fr_ordered_ids r);
  ri_topological : (∃ order, topological (ids (fr_items r)) (edges (fr_items r)) order) →
    topological (ids (fr_items r)) (edges (fr_items r)) (fr_ordered_ids r) }.

Lemma recalculate_inv r :
  NoDup (ids (fr_items r)) → NoDup (fr_ordered_ids r) → registry_inv (recalculate_order metadata ord r).
Proof.
  intros Hi Ho. destruct (resolve_filter_order_spec ord (metadata <$> fr_items r) Hi) as (res&Hr&Hres).
  unfold recalculate_order. rewrite Hr. destruct res as [order|e].
  - split; cbn [fr_items fr_ordered_ids]; [done| |tauto]. destruct Hres as [[Hp _] _]. by rewrite Hp.
  - split; [done..|]. intros (order&Ht). by destruct (Hres order).
Qed.

Lemma retain_NoDup (items : list F) (P : F → Prop) `{∀ f, Decision (P f)} :
  NoDup (ids items) → NoDup (ids (filter P items)).
Proof.
  rewrite !ids_item_id. intros Hn. eapply sublist_NoDup; [exact Hn|].
  apply fmap_sublist, sublist_filter.
Qed.

Lemma registry_step_inv r op : registry_inv r → registry_inv (registry_step metadata ord r op).
Proof.
  intros [Hi Ho _]. destruct op as [item|id]; apply recalculate_inv; cbn [fr_items fr_ordered_ids]; try done.
  - rewrite ids_item_id, fmap_app. apply NoDup_app. split_and!; [| |apply NoDup_singleton].
    + rewrite <- ids_item_id. by apply retain_NoDup.
    + intros x (f&->&[Hf _]%list_elem_of_filter)%list_elem_of_fmap Hx.
      apply Hf. by apply list_elem_of_singleton in Hx.
  - by apply retain_NoDup.
Qed.

Lemma registry_run_inv ops : registry_inv (registry_run metadata ord ops).
Proof.
  unfold registry_run. induction ops as [|op ops IH] using rev_ind.
  - split; [apply NoDup_nil_2..|]. intros _. split; [done|]. by intros [].
  - rewrite foldl_app. by apply registry_step_inv.
Qed.

Lemma item_by_id_Some (items : list F) id f :
  item_by_id metadata items id = Some f → f ∈ items ∧ item_id metadata f = id.
Proof.
  unfold item_by_id. intros Hl. apply last_Some_elem_of, list_elem_of_filter in Hl. tauto.
Qed.

Lemma item_by_id_elem (items : list F) f :
  NoDup (ids items) → f ∈ items → item_by_id metadata items (item_id metadata f) = Some f.
Proof.
  rewrite ids_item_id. intros Hn Hf. destruct (item_by_id metadata items (item_id metadata f)) as [g|] eqn:E.
  - apply item_by_id_Some in E as [Hg Hid]. f_equal.
    apply list_elem_of_lookup in Hf as [i Hi]. apply list_elem_of_lookup in Hg as [j Hj].
    assert (i = j) as ->; [|congruence].
    eapply NoDup_lookup; [exact Hn| |]; rewrite list_lookup_fmap; [by rewrite Hi|].
    rewrite Hj. cbn. by f_equal.
  - exfalso. unfold item_by_id in E. apply last_None in E.
    assert (Hx : f ∈ filter (λ g, item_id metadata g = item_id metadata f) items)
      by by apply list_elem_of_filter.
    rewrite E in Hx. by apply not_elem_of_nil in Hx.
Qed.

(** The identifiers of the ordered items are the order, less those that are not there. *)
Lemma ordered_items_ids (items : list F) (l : list rstring) :
  item_id metadata <$> omap (item_by_id metadata items) l `sublist_of` l.
Proof.
  induction l as [|id l IH]; [done|]. cbn [omap list_omap].
  destruct (item_by_id metadata items id) as [f|] eqn:E.
  - apply item_by_id_Some in E as [_ <-]. by constructor.
  - by constructor.
Qed.

Lemma ordered_items_all (items : list F) (l : list rstring) :
  NoDup (ids items) → (∀ id, id ∈ l → id ∈ ids items) →
  item_id metadata <$> omap (item_by_id metadata items) l = l.
Proof.
  intros Hn. induction l as [|id l IH]; intros Hl; [done|]. cbn [omap list_omap].
  assert (Hid : id ∈ ids items) by (apply Hl; left).
  rewrite ids_item_id in Hid. apply list_elem_of_fmap in Hid as (f&->&Hf).
  rewrite item_by_id_elem by done. cbn. f_equal. apply IH. intros x Hx. apply Hl. by right.
Qed.

(** After any registrations and removals the filters of a new session are distinct
    registered filters; when the constraints of the registered filters can be met, they
    are all of them in an order that meets every after and before constraint. *)
Theorem filter_registry_order (ops : list (registry_op (F := F))) :
  let r := registry_run metadata ord ops in
  let run := ordered_items metadata r in
  (∀ f, f ∈ run → f ∈ fr_items r) ∧ NoDup (item_id metadata <$> run) ∧
  ((∃ order, topological (ids (fr_items r)) (edges (fr_items r)) order) →
   run ≡ₚ fr_items r ∧ forward (edges (fr_items r)) (item_id metadata <$> run)).
Proof.
  intros r run. destruct (registry_run_inv ops) as [Hi Ho Ht]. fold r in Hi, Ho, Ht.
  assert (Hin : ∀ f, f ∈ run → f ∈ fr_items r).
  { intros f (id&_&Hf)%list_elem_of_omap. apply item_by_id_Some in Hf. tauto. }
  assert (Hnd : NoDup (item_id metadata <$> run))
    by (eapply sublist_NoDup; [exact Ho|apply ordered_items_ids]).
  split; [done|]. split; [done|]. intros Hex. destruct (Ht Hex) as [Hp Hf].
  assert (Hids : item_id metadata <$> run = fr_ordered_ids r).
  { apply ordered_items_all; [done|]. intros id. by rewrite Hp. }
  rewrite Hids. split; [|done].
  apply NoDup_Permutation.
  { exact (NoDup_fmap_1 (item_id metadata) _ Hnd). }
  { apply (NoDup_fmap_1 (item_id metadata)). rewrite <- ids_item_id. exact Hi. }
  intros f. split; [apply Hin|]. intros Hf'. apply list_elem_of_omap.
  exists (item_id metadata f). split; [|by apply item_by_id_elem].
  rewrite Hp, ids_item_id. apply list_elem_of_fmap. eauto.
Qed.
End registry_proofs.
