(* ===== verification/TransportFilters.v ===== *)
(** * TransportFilters: the filters of a connection

    Models [filter/transport_registry.rs], [filter/transport_chain.rs], the transport side of
    the filter API ([filter/transport.rs]) and what [run] of [server.rs] does with them when a
    connection is accepted.  Filters are shared by all connections and may keep a state of
    their own, which is one value [W] here. *)
From S2P Require Import Prelude Utf8 Version Packet Config Router Ordering EventBus Filters Transport.

Inductive FilterVerdict := FvContinue | FvModified | FvReject.

(** The extensions are those a filter leaves to the next. *)
Record TransportContext (X : Type) := mk_TransportContext {
  tc_remote_addr : SocketAddr;
  tc_local_addr : SocketAddr;
  tc_real_ip : option SockIp;
  tc_connection_time : Z;
  tc_bytes_received : Z;
  tc_bytes_sent : Z;
  tc_connection_id : Z;
  tc_extensions : X }.
Arguments mk_TransportContext {X}.

(** [TransportFilter], which plugins implement. *)
Class TransportFilterOps (F X W : Type) := {
  tf_metadata : F → FilterMetadata;
  tf_on_accept : F → TransportContext X → W → FilterVerdict * TransportContext X * W;
  tf_on_close : F → TransportContext X → W → W }.

Section transport_filters.
Context {F X W : Type} `{TF : !TransportFilterOps F X W}.
Context (ord : gmap (list Z) Z → list (list Z * Z)).

Definition TransportFilterChain : Type := list F.

Fixpoint on_accept (chain : TransportFilterChain) (ctx : TransportContext X) (w : W)
    : FilterVerdict * TransportContext X * W :=
  match chain with
  | [] => (FvContinue, ctx, w)
  | f :: chain =>
    match tf_on_accept f ctx w with
    | (FvContinue, ctx, w) | (FvModified, ctx, w) => on_accept chain ctx w
    | (FvReject, ctx, w) => (FvReject, ctx, w)
    end
  end.

Definition on_close (chain : TransportFilterChain) (ctx : TransportContext X) (w : W) : W :=
  foldl (λ w f, tf_on_close f ctx w) w chain.

Definition transport_chain_is_empty (chain : TransportFilterChain) : bool := bool_decide (length chain = 0%nat).

Abbreviation meta := (tf_metadata (F := F) (X := X) (W := W)).
Abbreviation Base := (FilterRegistryBase (F := F)).

Definition transport_register (f : F) (r : Base) : Base := register_filter meta ord f r.
Definition transport_unregister (id : rstring) (r : Base) : Base := unregister_filter meta ord id r.

(** [iter().find]: the first filter of an identifier. *)
Definition find_filter (filters : list F) (id : rstring) : option F :=
  snd <$> list_find (λ f, item_id meta f = id) filters.
Definition build_chain (r : Base) : TransportFilterChain := omap (find_filter (fr_items r)) (fr_ordered_ids r).

(** What becomes of an accepted connection: [None] when it is dropped. *)
Definition accept_filtered (chain : TransportFilterChain) (now : Z) (empty : X) (c : ClientConnection) (w : W)
    : option ClientConnection * W :=
  if transport_chain_is_empty chain then (Some c, w)
  else
    let ctx := mk_TransportContext (cc_peer_addr c) (cc_local_addr c) None now 0 0 0 empty in
    match on_accept chain ctx w with
    | (FvReject, _, w) => (None, w)
    | (_, _, w) => (Some c, w)
    end.

(** ** What the chain decides *)

Definition lets_through (f : F) (ctx : TransportContext X) (w : W) : Prop := (tf_on_accept f ctx w).1.1 ≠ FvReject.

(** What filters leave that all let the connection through. *)
Fixpoint passed (fs : list F) (ctx : TransportContext X) (w : W) : option (TransportContext X * W) :=
  match fs with
  | [] => Some (ctx, w)
  | f :: fs =>
    match tf_on_accept f ctx w with
    | (FvReject, _, _) => None
    | (_, ctx, w) => passed fs ctx w
    end
  end.

Lemma on_accept_passed chain ctx w :
  match passed chain ctx w with
  | Some (ctx', w') => on_accept chain ctx w = (FvContinue, ctx', w')
  | None => ∃ before f behind ctx1 w1, chain = before ++ f :: behind ∧ passed before ctx w = Some (ctx1, w1) ∧
      ¬ lets_through f ctx1 w1 ∧ on_accept chain ctx w = (FvReject, (tf_on_accept f ctx1 w1).1.2, (tf_on_accept f ctx1 w1).2)
  end.
Proof.
  revert ctx w. induction chain as [|f chain IH]; intros ctx w; [done|]. cbn [passed on_accept].
  destruct (tf_on_accept f ctx w) as [[v ctx1] w1] eqn:Hf. destruct v.
  3: { exists [], f, chain, ctx, w. unfold lets_through. rewrite Hf. cbn. split_and!; try done. by intros []. }
  all: specialize (IH ctx1 w1); destruct (passed chain ctx1 w1) as [[ctx2 w2]|]; [done|].
  all: destruct IH as (before&g&behind&ctx3&w3&->&Hp&Hn&Ho).
  all: exists (f :: before), g, behind, ctx3, w3; cbn [passed app]; by rewrite Hf.
Qed.

(** With distinct identifiers the first filter of one is the only one. *)
Lemma find_filter_item (filters : list F) id :
  NoDup (item_id meta <$> filters) → find_filter filters id = item_by_id meta filters id.
Proof.
  intros Hn. unfold find_filter. destruct (list_find _ filters) as [[i f]|] eqn:He; cbn.
  - apply list_find_Some in He as (Hi&<-&_). apply list_elem_of_lookup_2 in Hi. symmetry.
    apply item_by_id_elem; [by rewrite ids_item_id|done].
  - symmetry. destruct (item_by_id meta filters id) as [f|] eqn:Hi; [|done].
    apply item_by_id_Some in Hi as [Hf Hid]. apply list_find_None in He. rewrite Forall_forall in He. by destruct (He f Hf).
Qed.

Lemma build_chain_ordered ops :
  build_chain (registry_run meta ord ops) = ordered_items meta (registry_run meta ord ops).
Proof.
  destruct (registry_run_inv meta ord ops) as [Hi _ _]. rewrite ids_item_id in Hi.
  unfold build_chain, ordered_items. induction (fr_ordered_ids _) as [|id l IH]; [done|]. cbn. by rewrite find_filter_item, IH.
Qed.

(** A connection is dropped exactly when some registered transport filter rejects it after all
    filters before it in the order let it through; the filters behind that one are not asked.
    Otherwise it goes on, as it was, after every filter was asked once, in the order. *)
Theorem transport_filters_decide (ops : list (registry_op (F := F))) (now : Z) (empty : X) (c : ClientConnection) (w : W) :
  let chain := build_chain (registry_run meta ord ops) in
  let ctx := mk_TransportContext (cc_peer_addr c) (cc_local_addr c) None now 0 0 0 empty in
  (∀ f, f ∈ chain → f ∈ fr_items (registry_run meta ord ops)) ∧ NoDup (item_id meta <$> chain) ∧
  match passed chain ctx w with
  | Some (_, w') => accept_filtered chain now empty c w = (Some c, w')
  | None => ∃ before f behind ctx1 w1, chain = before ++ f :: behind ∧ passed before ctx w = Some (ctx1, w1) ∧
      ¬ lets_through f ctx1 w1 ∧ accept_filtered chain now empty c w = (None, (tf_on_accept f ctx1 w1).2)
  end.
Proof.
  intros chain ctx. destruct (registry_run_inv meta ord ops) as [_ Ho _]. unfold chain in *. split; [|split].
  - intros f. rewrite build_chain_ordered. intros (id&_&Hf)%list_elem_of_omap. by apply item_by_id_Some in Hf as [? _].
  - rewrite build_chain_ordered. eapply sublist_NoDup; [exact Ho|apply ordered_items_ids].
  - fold chain. pose proof (on_accept_passed chain ctx w) as Hp. unfold accept_filtered, transport_chain_is_empty.
    fold ctx. destruct (passed chain ctx w) as [[ctx' w']|] eqn:He.
    + rewrite Hp. case_bool_decide as Hl; [|done]. apply length_zero_iff_nil in Hl. rewrite Hl in He. by injection He as _ ->.
    + destruct Hp as (before&f&behind&ctx1&w1&Hc&Hb&Hn&Ha). exists before, f, behind, ctx1, w1. rewrite Ha.
      split_and!; try done. rewrite bool_decide_false; [done|]. rewrite Hc, length_app. cbn. lia.
Qed.
End transport_filters.

(** ** A concrete chain *)

Section sample.
(** Filters that count whom they are asked about, and reject one port. *)
Record port_filter := { pf_name : string; pf_after : list string; pf_port : Z }.
#[local] Instance port_filters : TransportFilterOps port_filter () (list string) := {|
  tf_metadata f := Build_FilterMetadata (str (pf_name f)) PNormal (str <$> pf_after f) [];
  tf_on_accept f ctx w :=
    (if decide (sa_port (tc_remote_addr _ ctx) = pf_port f) then FvReject else FvContinue, ctx, w ++ [pf_name f]);
  tf_on_close f ctx w := w |}.

Definition first_filter : port_filter := {| pf_name := "first"; pf_after := []; pf_port := 1 |}.
Definition second_filter : port_filter := {| pf_name := "second"; pf_after := ["first"%string]; pf_port := 2 |}.
Definition third_filter : port_filter := {| pf_name := "third"; pf_after := ["second"%string]; pf_port := 3 |}.
Definition sample_chain : list port_filter :=
  build_chain (registry_run (tf_metadata (X := ()) (W := list string)) map_to_list
    (OpRegister <$> [third_filter; second_filter; first_filter])).
Definition connection_from (port : Z) : ClientConnection :=
  ClientConnection_new [] (Build_SocketAddr (V4 1) port) (Build_SocketAddr (V4 2) 25565).

(** The second filter rejects the connection, and the third does not hear of it. *)
Example second_rejects :
  sample_chain = [first_filter; second_filter; third_filter] ∧
  accept_filtered sample_chain 0 () (connection_from 2) [] = (None, ["first"; "second"]%string) ∧
  accept_filtered sample_chain 0 () (connection_from 9) [] = (Some (connection_from 9), ["first"; "second"; "third"]%string).
Proof. by vm_compute. Qed.
End sample.
