(* ===== verification/ProxyCommands.v ===== *)
(** * ProxyCommands: who may run which command of the proxy

    Models [permissions/mod.rs] with the permission API, [services/command_manager.rs], the
    root command of [commands/mod.rs] up to the subcommand it picks, and
    [commands/brigadier.rs], which announces the commands to the client.  A handler of a
    plugin is a value of an abstract type; running it is recorded, not executed.  Uuids,
    players and the Mojang lookup of names are parameters. *)
From S2P Require Import Prelude Wire Utf8 VarInt Codec Version Packet Commands Config Router.

(** ** Permission levels and capabilities *)

Inductive PermissionLevel := LPlayer | LAdmin.
#[export] Instance PermissionLevel_eq_dec : EqDecision PermissionLevel.
Proof. solve_decision. Defined.

Inductive Capability :=
| CapEventBus | CapPlayerRead | CapPlayerWrite | CapRawPacket | CapServerManage | CapBan
| CapCommand | CapScheduler | CapConfigRead | CapCodecFilter | CapTransportFilter | CapLimbo
| CapVirtualBackend | CapPermissionProvider | CapFilesystemExtended | CapNetwork.
#[export] Instance Capability_eq_dec : EqDecision Capability.
Proof. solve_decision. Defined.

Definition Capability_ALL : list Capability :=
  [CapEventBus; CapPlayerRead; CapPlayerWrite; CapRawPacket; CapServerManage; CapBan; CapCommand;
   CapScheduler; CapConfigRead; CapCodecFilter; CapTransportFilter; CapLimbo; CapVirtualBackend;
   CapPermissionProvider; CapFilesystemExtended; CapNetwork].

Definition to_kebab (c : Capability) : rstring :=
  str match c with
      | CapEventBus => "event-bus" | CapPlayerRead => "player-read"
      | CapPlayerWrite => "player-write" | CapRawPacket => "raw-packet"
      | CapServerManage => "server-manage" | CapBan => "ban" | CapCommand => "command"
      | CapScheduler => "scheduler" | CapConfigRead => "config-read"
      | CapCodecFilter => "codec-filter" | CapTransportFilter => "transport-filter"
      | CapLimbo => "limbo" | CapVirtualBackend => "virtual-backend"
      | CapPermissionProvider => "permission-provider"
      | CapFilesystemExtended => "filesystem-extended" | CapNetwork => "network"
      end.

(** The arms of [from_kebab], in order. *)
Definition kebab_names : list (string * Capability) :=
  [("event-bus", CapEventBus); ("player-read", CapPlayerRead); ("player-write", CapPlayerWrite);
   ("raw-packet", CapRawPacket); ("server-manage", CapServerManage); ("ban", CapBan);
   ("command", CapCommand); ("scheduler", CapScheduler); ("config-read", CapConfigRead);
   ("codec-filter", CapCodecFilter); ("transport-filter", CapTransportFilter);
   ("limbo", CapLimbo); ("virtual-backend", CapVirtualBackend);
   ("permission-provider", CapPermissionProvider);
   ("filesystem-extended", CapFilesystemExtended); ("network", CapNetwork)].
Definition from_kebab (s : rstring) : option Capability :=
  (λ e, e.2.2) <$> list_find (λ e, str e.1 = s) kebab_names.

(** A [CapabilitySet] is the set of what was granted. *)
Definition cap_with (c : Capability) (set : list Capability) : list Capability :=
  if decide (c ∈ set) then set else set ++ [c].
Definition baseline : list Capability :=
  foldl (λ s c, cap_with c s) []
    [CapEventBus; CapPlayerRead; CapPlayerWrite; CapCommand; CapScheduler; CapConfigRead].
Definition native_trusted : list Capability := foldl (λ s c, cap_with c s) [] Capability_ALL.

(** The capabilities granted and the strings rejected. *)
Definition from_config_strings (strings : list rstring) : list Capability * list rstring :=
  foldl (λ acc s,
    match from_kebab s with
    | Some CapTransportFilter | None => (acc.1, acc.2 ++ [s])
    | Some cap => (cap_with cap acc.1, acc.2)
    end) (baseline, []) strings.

(** ** The permission service *)

Record PermissionsConfig := {
  pc_admins : list rstring;
  pc_player_commands : list rstring }.

Section permissions.
Context `{LC : Lowercase}.

Record SubcommandInfo := { si_all : gset rstring; si_admin_only : gset rstring }.

Record PermissionService := {
  ps_admin_uuids : gset Z;
  ps_player_commands : gset rstring;
  ps_subcommand_info : option SubcommandInfo }.

(** [Uuid::parse_str] and the lookup of a name at Mojang. *)
Context (parse_uuid : rstring → option Z) (resolve_username : rstring → option Z).

Definition resolve_admins_into (admins : list rstring) (target : gset Z) : gset Z :=
  foldl (λ target entry,
    let trimmed := trim entry in
    if decide (trimmed = []) then target
    else match parse_uuid trimmed with
         | Some uuid => {[uuid]} ∪ target
         | None => match resolve_username trimmed with
                   | Some uuid => {[uuid]} ∪ target
                   | None => target
                   end
         end) target admins.

Definition permission_build (c : PermissionsConfig) (admin_uuids : gset Z) : PermissionService :=
  Build_PermissionService admin_uuids (list_to_set (to_lowercase <$> pc_player_commands c)) None.
Definition permission_new_sync (c : PermissionsConfig) : PermissionService := permission_build c ∅.
Definition permission_new (c : PermissionsConfig) : PermissionService :=
  permission_build c (resolve_admins_into (pc_admins c) ∅).

(** [OnceLock::set] keeps the first value. *)
Definition register_subcommands (all admin_only : gset rstring) (s : PermissionService)
    : PermissionService :=
  Build_PermissionService (ps_admin_uuids s) (ps_player_commands s)
    (match ps_subcommand_info s with
     | Some info => Some info
     | None => Some (Build_SubcommandInfo all admin_only)
     end).

Definition is_admin (uuid : Z) (s : PermissionService) : bool := bool_decide (uuid ∈ ps_admin_uuids s).

Definition is_command_allowed (command : rstring) (level : PermissionLevel) (s : PermissionService)
    : bool :=
  match level with
  | LAdmin => true
  | LPlayer =>
    let cmd_lower := to_lowercase command in
    if match ps_subcommand_info s with
       | Some info => bool_decide (cmd_lower ∈ si_admin_only info)
       | None => false
       end
    then false else bool_decide (cmd_lower ∈ ps_player_commands s)
  end.

Definition visible_subcommands (level : PermissionLevel) (s : PermissionService) : gset rstring :=
  match level with
  | LAdmin => match ps_subcommand_info s with Some i => si_all i | None => ∅ end
  | LPlayer =>
    match ps_subcommand_info s with
    | Some i => filter (λ cmd, cmd ∉ si_admin_only i) (ps_player_commands s)
    | None => ps_player_commands s
    end
  end.

Definition set_admins (u : gset Z) (s : PermissionService) : PermissionService :=
  Build_PermissionService u (ps_player_commands s) (ps_subcommand_info s).

(** The new admins are inserted, then those that are not among them go. *)
Definition permission_reload (c : PermissionsConfig) (s : PermissionService) : PermissionService :=
  let new_uuids := resolve_admins_into (pc_admins c) ∅ in
  set_admins (filter (λ u, u ∈ new_uuids) (new_uuids ∪ ps_admin_uuids s)) s.
Definition add_admin (uuid : Z) (s : PermissionService) : PermissionService :=
  set_admins ({[uuid]} ∪ ps_admin_uuids s) s.
Definition remove_admin (uuid : Z) (s : PermissionService) : bool * PermissionService :=
  (bool_decide (uuid ∈ ps_admin_uuids s), set_admins (ps_admin_uuids s ∖ {[uuid]}) s).

(** [ConfigPermissionChecker], which shares the sets of the service. *)
Definition PERM_ADMIN : rstring := str "infrarust.admin".
Definition PERM_COMMAND_PREFIX : rstring := str "infrarust.command.".

Fixpoint strip_prefix (pre s : rstring) : option rstring :=
  match pre, s with
  | [], _ => Some s
  | p :: pre, c :: s => if decide (p = c) then strip_prefix pre s else None
  | _ :: _, [] => None
  end.

Definition permission_level (s : PermissionService) (player_uuid : Z) : PermissionLevel :=
  if decide (player_uuid ∈ ps_admin_uuids s) then LAdmin else LPlayer.

Definition has_permission (s : PermissionService) (player_uuid : Z) (permission : rstring) : bool :=
  let is_admin := bool_decide (player_uuid ∈ ps_admin_uuids s) in
  if decide (permission = PERM_ADMIN) then is_admin
  else match strip_prefix PERM_COMMAND_PREFIX permission with
       | Some cmd => is_admin || bool_decide (cmd ∈ ps_player_commands s)
       | None => is_admin
       end.

(** ** The root command *)

(** The subcommands and whether they need an admin. *)
Definition subcommand_list : list (string * PermissionLevel) :=
  [("help", LPlayer); ("version", LPlayer); ("list", LPlayer); ("server", LPlayer);
   ("find", LPlayer); ("send", LAdmin); ("broadcast", LAdmin); ("kick", LAdmin);
   ("plugins", LAdmin); ("plugin", LAdmin); ("reload", LAdmin)].
Definition all_subcommands : gset rstring := list_to_set ((λ e, str e.1) <$> subcommand_list).
Definition admin_subcommands : gset rstring :=
  list_to_set ((λ e, str e.1) <$> filter (λ e, e.2 = LAdmin) subcommand_list).

(** What [execute] of the root command comes to. *)
Inductive root_outcome :=
| RootDenied
| RootHelp (args : list rstring)
| RootRun (name : rstring) (args : list rstring).

(** [player] is the level of the player the registry has for the caller: [None] for the
    console, and for a player that is not in the registry. *)
Definition root_execute (s : PermissionService) (player : option PermissionLevel) (args : list rstring)
    : root_outcome :=
  let sub_name := to_lowercase <$> head args in
  let denied :=
    match player with
    | None => false
    | Some level =>
      match sub_name with
      | Some name => negb (is_command_allowed name level s)
      | None => bool_decide (visible_subcommands level s = ∅)
      end
    end in
  if denied then RootDenied else
  match sub_name with
  | Some name =>
    if decide (name = str "help") then RootHelp (tail args)
    else if decide (name ∈ all_subcommands) then RootRun name (tail args)
    else RootHelp []
  | None => RootHelp []
  end.
End permissions.

(** ** The command manager *)

Section command_manager.
Context `{LC : Lowercase} {H : Type}.

Record RegisteredCommand := {
  rc_handler : H;
  rc_aliases : list rstring;
  rc_description : rstring;
  rc_is_builtin : bool;
  rc_plugin_id : rstring }.

Record CommandManagerImpl := {
  cmgr_commands : gmap rstring RegisteredCommand;
  cmgr_aliases : gmap rstring rstring }.

Definition command_manager_new : CommandManagerImpl := Build_CommandManagerImpl ∅ ∅.

Record CommandContext := {
  cx_player_id : option Z;
  cx_args : list rstring;
  cx_raw : rstring }.

(** [str::split_whitespace]; [word] is the word being read. *)
Fixpoint split_whitespace_from (word s : rstring) : list rstring :=
  match s with
  | [] => if decide (word = []) then [] else [word]
  | c :: s =>
    if is_whitespace c
    then if decide (word = []) then split_whitespace_from [] s else word :: split_whitespace_from [] s
    else split_whitespace_from (word ++ [c]) s
  end.
Definition split_whitespace (s : rstring) : list rstring := split_whitespace_from [] s.

(** The command a typed name stands for. *)
Definition canonical (name : rstring) (m : CommandManagerImpl) : rstring :=
  let name_lower := to_lowercase name in default name_lower (cmgr_aliases m !! name_lower).

(** [split_once(' ')], the whole of it being the name when there is no space. *)
Definition split_name (input : rstring) : rstring * rstring := default (input, []) (split_once 32 input).

(** [dispatch]: the handler that runs and the context it gets; [None] for [false]. *)
Definition dispatch_command (player_id : option Z) (input : rstring) (m : CommandManagerImpl)
    : option (H * CommandContext) :=
  let input := trim input in
  let '(name, args_str) := split_name input in
  cmd ← cmgr_commands m !! canonical name m;
  let args := if decide (args_str = []) then [] else split_whitespace args_str in
  Some (rc_handler cmd, Build_CommandContext player_id args input).

Definition insert_aliases (alias_list : list rstring) (name_lower : rstring)
    (aliases : gmap rstring rstring) : gmap rstring rstring :=
  foldl (λ a alias, <[alias := name_lower]> a) aliases alias_list.

Definition insert_command (name : rstring) (aliases : list rstring) (description : rstring)
    (handler : H) (is_builtin : bool) (plugin_id : rstring) (m : CommandManagerImpl)
    : CommandManagerImpl :=
  let name_lower := to_lowercase name in
  let alias_list := to_lowercase <$> aliases in
  Build_CommandManagerImpl
    (<[name_lower := Build_RegisteredCommand handler alias_list description is_builtin plugin_id]>
       (cmgr_commands m))
    (insert_aliases alias_list name_lower (cmgr_aliases m)).

Definition register_builtin (name : rstring) (aliases : list rstring) (description : rstring)
    (handler : H) (m : CommandManagerImpl) : CommandManagerImpl :=
  insert_command name aliases description handler true [] m.

Definition unregister_command (name : rstring) (m : CommandManagerImpl) : CommandManagerImpl :=
  let name_lower := to_lowercase name in
  let alias_list := match cmgr_commands m !! name_lower with Some cmd => rc_aliases cmd | None => [] end in
  Build_CommandManagerImpl (delete name_lower (cmgr_commands m))
    (foldl (λ a alias, delete alias a) (cmgr_aliases m) alias_list).

Definition register_with_plugin_id (name : rstring) (aliases : list rstring) (description : rstring)
    (handler : H) (plugin_id : rstring) (m : CommandManagerImpl) : CommandManagerImpl :=
  if match cmgr_commands m !! to_lowercase name with
     | Some existing => rc_is_builtin existing
     | None => false
     end
  then m
  else insert_command name aliases description handler false plugin_id (unregister_command name m).

Definition is_plugin_command (name : rstring) (m : CommandManagerImpl) : bool :=
  match cmgr_commands m !! to_lowercase name with
  | Some cmd => negb (rc_is_builtin cmd)
  | None => false
  end.

Definition find_plugin_command (plugin_id command_name : rstring) (m : CommandManagerImpl) : option H :=
  cmd ← cmgr_commands m !! to_lowercase command_name;
  if decide (rc_plugin_id cmd = plugin_id) then Some (rc_handler cmd) else None.

(** Listings, in the order [ord] in which the map is visited. *)
Context (ord : gmap rstring RegisteredCommand → list (rstring * RegisteredCommand)).
Definition list_commands (m : CommandManagerImpl) : list (rstring * rstring) :=
  (λ e, (e.1, rc_description e.2)) <$> ord (cmgr_commands m).
Definition list_plugin_commands (m : CommandManagerImpl) : list (rstring * rstring) :=
  (λ e, (e.1, rc_plugin_id e.2)) <$>
    filter (λ e, rc_is_builtin e.2 = false) (ord (cmgr_commands m)).
Definition commands_for_plugin (plugin_id : rstring) (m : CommandManagerImpl)
    : list (rstring * rstring) :=
  (λ e, (e.1, rc_description e.2)) <$>
    filter (λ e, rc_plugin_id e.2 = plugin_id) (ord (cmgr_commands m)).

(** [tab_complete_for_player]: the handler that is asked, the words and the cursor. *)
Definition tab_complete_request (input : rstring) (m : CommandManagerImpl)
    : option (H * list rstring * Z) :=
  let input := trim_start input in
  let '(name, rest) := split_name input in
  let cursor := let n := zlen (as_bytes rest) in if decide (n < 2 ^ 32) then n else 2 ^ 32 - 1 in
  cmd ← cmgr_commands m !! canonical name m;
  let partial_args :=
    if decide (rest = []) then []
    else if decide (last rest = Some 32) then split_whitespace rest ++ [[]]
    else split_whitespace rest in
  Some (rc_handler cmd, partial_args, cursor).
End command_manager.
Arguments CommandManagerImpl H : clear implicits.
Arguments RegisteredCommand H : clear implicits.

(** ** Announcing the commands *)

Section brigadier.

Definition ASK_SERVER : option rstring := Some (str "minecraft:ask_server").
Definition SINGLE_WORD : Z := 0.
Definition GREEDY_PHRASE : Z := 2.

(** [children.push(child)]. *)
Definition push_child (child : Z) (n : CommandNode) : CommandNode :=
  mk_CommandNode (cn_flags n) (cn_children n ++ [child]) (cn_redirect_node n) (cn_name n)
    (cn_parser n) (cn_suggestions_type n).
Definition set_children (children : list Z) (n : CommandNode) : CommandNode :=
  mk_CommandNode (cn_flags n) children (cn_redirect_node n) (cn_name n)
    (cn_parser n) (cn_suggestions_type n).

(** A node index, an [i32]. *)
Definition index_after (base : Z) (nodes : list CommandNode) : Z := wrap_s 32 (base + wrap_s 32 (zlen nodes)).

Definition push_node (base : Z) (node : CommandNode) (nodes : list CommandNode)
    : Z * list CommandNode :=
  (index_after base nodes, nodes ++ [node]).

(** [nodes[(parent - base) as usize].children.push(child)]. *)
Definition link (base parent child : Z) (nodes : list CommandNode) : list CommandNode :=
  alter (push_child child) (Z.to_nat (parent - base)) nodes.

(** A subcommand: its literal and its arguments, each the child of the one before it.
    The nodes are pushed in this order, then linked. *)
Fixpoint push_chain (base : Z) (chain : list CommandNode) (nodes : list CommandNode)
    : list Z * list CommandNode :=
  match chain with
  | [] => ([], nodes)
  | n :: chain =>
    let '(idx, nodes) := push_node base n nodes in
    let '(rest, nodes) := push_chain base chain nodes in (idx :: rest, nodes)
  end.
Fixpoint link_chain (base : Z) (indices : list Z) (nodes : list CommandNode) : list CommandNode :=
  match indices with
  | parent :: (child :: _) as rest => link base parent child (link_chain base rest nodes)
  | _ => nodes
  end.

Context (version : ProtocolVersion).

Definition word_arg (name : string) : CommandNode :=
  node_argument (str name) (string_parser SINGLE_WORD version) ASK_SERVER.

(** The subcommands in the order of the code. *)
Definition subcommand_chains : list (string * list CommandNode) :=
  [("help", [node_literal_executable (str "help"); word_arg "command"]);
   ("version", [node_literal_executable (str "version")]);
   ("list", [node_literal_executable (str "list")]);
   ("plugins", [node_literal_executable (str "plugins")]);
   ("reload", [node_literal_executable (str "reload")]);
   ("server", [node_literal_executable (str "server"); word_arg "name"]);
   ("find", [node_literal (str "find"); word_arg "player"]);
   ("send", [node_literal (str "send");
             node_argument_non_executable (str "player") (string_parser SINGLE_WORD version) ASK_SERVER;
             word_arg "server"]);
   ("kick", [node_literal (str "kick"); word_arg "player";
             node_argument (str "reason") (string_parser GREEDY_PHRASE version) None]);
   ("broadcast", [node_literal (str "broadcast");
                  node_argument (str "message") (string_parser GREEDY_PHRASE version) None]);
   ("plugin", [node_literal (str "plugin");
               node_argument_non_executable (str "plugin_id") (string_parser SINGLE_WORD version)
                 ASK_SERVER;
               node_argument (str "command") (string_parser GREEDY_PHRASE version) ASK_SERVER])].

Definition is_visible (visible : option (gset rstring)) (name : rstring) : bool :=
  match visible with None => true | Some set => bool_decide (name ∈ set) end.

(** One [if is_visible(...)] block: the nodes so far and the children of the root
    literal. *)
Definition add_subcommand (visible : option (gset rstring)) (base : Z)
    (st : list CommandNode * list Z) (sub : string * list CommandNode) : list CommandNode * list Z :=
  if is_visible visible (str sub.1) then
    let '(indices, nodes) := push_chain base sub.2 st.1 in
    (link_chain base indices nodes, st.2 ++ take 1 indices)
  else st.

(** [nodes[root as usize].children.push(child)]; [None] is a panic. *)
Definition push_child_at (root child : Z) (nodes : list CommandNode) : option (list CommandNode) :=
  if decide (0 ≤ root < zlen nodes) then Some (alter (push_child child) (Z.to_nat root) nodes) else None.

Definition inject_builtin (visible : option (gset rstring)) (commands : CCommands)
    : option (list CommandNode) :=
  let base := wrap_s 32 (zlen (cmd_nodes commands)) in
  let root := cmd_root_index commands in
  let '(infrarust_idx, nodes) := push_node base (node_literal (str "infrarust")) [] in
  let '(nodes, ir_children) := foldl (add_subcommand visible base) (nodes, []) subcommand_chains in
  let nodes := alter (set_children ir_children) (Z.to_nat (infrarust_idx - base)) nodes in
  let '(ir_idx, nodes) := push_node base (node_redirect (str "ir") infrarust_idx) nodes in
  nodes ← push_child_at root infrarust_idx (cmd_nodes commands ++ nodes);
  push_child_at root ir_idx nodes.

(** One plugin command: a literal with a greedy argument. *)
Definition inject_plugin_command (root : Z) (nodes : list CommandNode) (cmd_name : rstring)
    : option (list CommandNode) :=
  let cmd_idx := wrap_s 32 (zlen nodes) in
  let nodes := nodes ++ [node_literal_executable cmd_name] in
  let args_idx := wrap_s 32 (zlen nodes) in
  let nodes := nodes ++ [node_argument (str "args") (string_parser GREEDY_PHRASE version) ASK_SERVER] in
  nodes ← push_child_at cmd_idx args_idx nodes;
  push_child_at root cmd_idx nodes.

Fixpoint inject_plugin_commands (root : Z) (nodes : list CommandNode) (names : list rstring)
    : option (list CommandNode) :=
  match names with
  | [] => Some nodes
  | name :: names =>
    nodes ← inject_plugin_command root nodes name; inject_plugin_commands root nodes names
  end.

Definition inject_proxy_commands (plugin_commands : list (rstring * rstring))
    (visible : option (gset rstring)) (commands : CCommands) : option CCommands :=
  let has_any_visible := match visible with None => true | Some set => bool_decide (set ≠ ∅) end in
  nodes ← (if has_any_visible then inject_builtin visible commands else Some (cmd_nodes commands));
  nodes ← inject_plugin_commands (cmd_root_index commands) nodes plugin_commands.*1;
  Some (mk_CCommands nodes (cmd_root_index commands)).
End brigadier.

(** ** The command tree stays a tree *)

(** Children and redirects lead to one of the [n] nodes. *)
Definition closed (n : Z) (node : CommandNode) : Prop :=
  Forall (λ i, 0 ≤ i < n) (cn_children node) ∧ from_option (λ i, 0 ≤ i < n) True (cn_redirect_node node).

Lemma closed_le n m node : n ≤ m → closed n node → closed m node.
Proof.
  intros Hnm [Hc Hr]. split; [eapply Forall_impl; [exact Hc|]; cbn; lia|].
  destruct (cn_redirect_node node); cbn in *; lia.
Qed.

(** A node as the constructors make it. *)
Definition fresh_node (v : ProtocolVersion) (n : CommandNode) : Prop :=
  node_ok n v ∧ cn_children n = [] ∧ cn_redirect_node n = None.

Lemma string_parser_carried mode v : in_s 32 mode → parser_carried (string_parser mode v) v.
Proof.
  intros Hm. unfold string_parser, parser_carried. destruct (no_less_than v V1_19).
  - split; [by exists mode|done].
  - split; [by exists mode|]. intros _. apply (bool_decide_unpack _). by vm_compute.
Qed.

Lemma literal_ok name v : is_text 32767 name → fresh_node v (node_literal name).
Proof. intros Ht. split; [|done]. split_and!; try done. by split; [intros []|]. Qed.
Lemma literal_executable_ok name v : is_text 32767 name → fresh_node v (node_literal_executable name).
Proof. intros Ht. split; [|done]. split_and!; try done. by split; [intros []|]. Qed.

Lemma argument_ok name mode sugg v :
  is_text 32767 name → in_s 32 mode → from_option (is_text 32767) True sugg →
  fresh_node v (node_argument name (string_parser mode v) sugg) ∧
  fresh_node v (node_argument_non_executable name (string_parser mode v) sugg).
Proof.
  intros Ht Hm Hs. pose proof (string_parser_carried mode v Hm) as Hp.
  destruct sugg as [s|]; split; (split; [|done]);
    (split; [done|]; split; [done|]; split; [done|]; split; [by split; [intros []|]|]);
    (split; [done|]; split; [done|]; split; [done|]; split; [done|]);
    (split; [intros Hx; try (intros Hz; by vm_compute in Hz); by destruct Hx|]).
  1,2: intros _; by eexists.
  all: intros Hz; by destruct Hz.
Qed.

Lemma subcommand_chains_ok v : Forall (λ sub, Forall (fresh_node v) sub.2 ∧ sub.2 ≠ []) (subcommand_chains v).
Proof.
  assert (Ha : from_option (is_text 32767) True ASK_SERVER) by (apply (bool_decide_unpack _); by vm_compute).
  assert (Hn : ∀ s, bool_decide (is_text 32767 (str s)) = true → is_text 32767 (str s))
    by (intros s; apply bool_decide_eq_true_1).
  unfold subcommand_chains, word_arg. repeat (apply Forall_cons; split); cbn [snd]; try apply Forall_nil;
    try (split; [|done]); repeat (apply Forall_cons; split); try apply Forall_nil;
    first [exact I|apply literal_ok, Hn; by vm_compute|apply literal_executable_ok, Hn; by vm_compute
          |apply argument_ok; [apply Hn; by vm_compute|unfold in_s, SINGLE_WORD, GREEDY_PHRASE; lia
                               |exact Ha || exact I]].
Qed.

(** *** Chains *)

(** Each node leads to the one after it. *)
Fixpoint linked (idx : Z) (chain : list CommandNode) : list CommandNode :=
  match chain with
  | [] => []
  | n :: rest =>
    match rest with [] => [n] | _ :: _ => push_child (idx + 1) n :: linked (idx + 1) rest end
  end.

Lemma length_linked idx chain : length (linked idx chain) = length chain.
Proof.
  revert idx. induction chain as [|n [|m rest] IH]; intros idx; [done..|].
  cbn [linked length] in *. by rewrite IH.
Qed.

Lemma linked_names idx chain : cn_name <$> linked idx chain = cn_name <$> chain.
Proof.
  revert idx. induction chain as [|n [|m rest] IH]; intros idx; [done..|].
  change (linked idx (n :: m :: rest)) with (push_child (idx + 1) n :: linked (idx + 1) (m :: rest)).
  rewrite !fmap_cons. f_equal. apply IH.
Qed.

Lemma push_child_ok v n child :
  node_ok n v → in_s 32 child → zlen (cn_children n) + 1 < 2 ^ 31 → node_ok (push_child child n) v.
Proof.
  intros (Hl&Hc&Hr&Hf&Hn) Hi Hb. unfold push_child, node_ok, node_type in *. cbn.
  split_and!; [rewrite zlen_app; change (zlen [child]) with 1; lia| |done|done|done].
  apply Forall_app. split; [done|by constructor].
Qed.

Lemma linked_ok v idx chain :
  0 ≤ idx → idx + zlen chain < 2 ^ 31 → Forall (fresh_node v) chain →
  Forall (λ n, node_ok n v ∧ closed (idx + zlen chain) n) (linked idx chain).
Proof.
  revert idx. induction chain as [|n [|m rest] IH]; intros idx Hi Hb Hf; [constructor| |].
  - apply Forall_cons in Hf as [(Hok&Hc&Hr) _]. constructor; [|constructor].
    split; [done|]. unfold closed. rewrite Hc, Hr. by split.
  - apply Forall_cons in Hf as [(Hok&Hc&Hr) Hf]. rewrite zlen_cons in Hb |- *.
    pose proof (zlen_nonneg rest) as Hnn. assert (Hm : zlen (m :: rest) = 1 + zlen rest) by apply zlen_cons.
    change (linked idx (n :: m :: rest)) with (push_child (idx + 1) n :: linked (idx + 1) (m :: rest)).
    constructor.
    + split; [apply push_child_ok; [done|unfold in_s; lia|rewrite Hc; change (zlen []) with 0; lia]|].
      unfold closed, push_child. cbn. rewrite Hc, Hr. split; [|done]. repeat constructor; lia.
    + replace (idx + (1 + zlen (m :: rest))) with ((idx + 1) + zlen (m :: rest)) by lia.
      apply IH; [lia|lia|done].
Qed.

Lemma index_after_small base nodes :
  0 ≤ base → base + zlen nodes < 2 ^ 31 → index_after base nodes = base + zlen nodes.
Proof.
  intros Hb Hl. pose proof (zlen_nonneg nodes). unfold index_after.
  rewrite (wrap_s_small 32 ltac:(lia) (zlen nodes)) by (unfold in_s; lia).
  apply wrap_s_small; [lia|unfold in_s; lia].
Qed.

(** Pushing and linking a chain appends the linked chain. *)
Lemma push_chain_spec base chain nodes :
  0 ≤ base → base + zlen nodes + zlen chain < 2 ^ 31 →
  push_chain base chain nodes = (seqZ (base + zlen nodes) (zlen chain), nodes ++ chain) ∧
  link_chain base (seqZ (base + zlen nodes) (zlen chain)) (nodes ++ chain) =
    nodes ++ linked (base + zlen nodes) chain.
Proof.
  intros Hb. revert nodes. induction chain as [|n chain IH]; intros nodes Hl.
  { cbn. by rewrite app_nil_r. }
  rewrite zlen_cons in Hl. pose proof (zlen_nonneg nodes). pose proof (zlen_nonneg chain).
  destruct (IH (nodes ++ [n])) as [IH1 IH2]; [rewrite zlen_app; change (zlen [n]) with 1; lia|].
  rewrite zlen_app in IH1, IH2. change (zlen [n]) with 1 in IH1, IH2.
  replace (base + (zlen nodes + 1)) with (Z.succ (base + zlen nodes)) in IH1, IH2 by lia.
  cbn [push_chain push_node]. rewrite IH1, index_after_small by lia.
  rewrite zlen_cons, (seqZ_cons _ (1 + zlen chain)) by lia.
  replace (Z.pred (1 + zlen chain)) with (zlen chain) by lia. rewrite <- app_assoc. cbn [app].
  split; [done|]. rewrite <- app_assoc in IH2. cbn [app] in IH2. destruct chain as [|m rest]; [done|].
  rewrite zlen_cons in *. pose proof (zlen_nonneg rest). rewrite (seqZ_cons _ (1 + zlen rest)) in * by lia.
  cbn [link_chain] in *. rewrite IH2. unfold link.
  replace (Z.to_nat (base + zlen nodes - base)) with (length nodes + 0)%nat by (unfold zlen; lia).
  rewrite <- app_assoc. rewrite alter_app_r. cbn [app alter list_alter linked].
  by replace (Z.succ (base + zlen nodes)) with (base + zlen nodes + 1) by lia.
Qed.

(** *** The visible subcommands *)

Lemma chains_named v :
  Forall (λ sub, cn_name <$> head sub.2 = Some (Some (str sub.1))) (subcommand_chains v).
Proof. repeat (apply Forall_cons; split; [done|]). apply Forall_nil. exact I. Qed.

(** The name of the node with index [i], where the first of [nodes] has index [base]. *)
Definition name_at (base : Z) (nodes : list CommandNode) (i : Z) : option rstring :=
  n ← nodes !! Z.to_nat (i - base); cn_name n.

Lemma name_at_app base nodes more i :
  base ≤ i < base + zlen nodes → name_at base (nodes ++ more) i = name_at base nodes i.
Proof. intros Hi. unfold name_at. rewrite lookup_app_l; [done|]. unfold zlen in Hi. lia. Qed.

Lemma name_at_names base nodes nodes' i :
  cn_name <$> nodes = cn_name <$> nodes' → name_at base nodes i = name_at base nodes' i.
Proof.
  intros Hn. unfold name_at. set (k := Z.to_nat (i - base)).
  assert (Hk : (cn_name <$> nodes) !! k = (cn_name <$> nodes') !! k) by by rewrite Hn.
  rewrite !list_lookup_fmap in Hk. destruct (nodes !! k), (nodes' !! k); naive_solver.
Qed.

Lemma add_subcommands_spec v visible base subs nodes ch :
  0 ≤ base → base + zlen nodes + zlen (concat subs.*2) < 2 ^ 31 →
  Forall (λ sub, Forall (fresh_node v) sub.2 ∧ sub.2 ≠ []) subs →
  Forall (λ sub, cn_name <$> head sub.2 = Some (Some (str sub.1))) subs →
  ∃ added new, foldl (add_subcommand visible base) (nodes, ch) subs = (nodes ++ added, ch ++ new) ∧
    zlen added ≤ zlen (concat subs.*2) ∧ zlen new ≤ zlen subs ∧
    Forall (λ n, node_ok n v ∧ closed (base + zlen nodes + zlen added) n) added ∧
    Forall (λ i, base + zlen nodes ≤ i < base + zlen nodes + zlen added) new ∧
    name_at (base + zlen nodes) added <$> new =
      (λ sub, Some (str sub.1)) <$> filter (λ sub, is_visible visible (str sub.1) = true) subs.
Proof.
  intros Hb. revert nodes ch. induction subs as [|[s chain] subs IH]; intros nodes ch Hl Hok Hnm.
  { exists [], []. rewrite !app_nil_r. cbn. split_and!; try done; constructor. }
  apply Forall_cons in Hok as [[Hch Hne] Hok]. apply Forall_cons in Hnm as [Hname Hnm].
  cbn [foldl fmap list_fmap snd fst concat] in *. rewrite zlen_app in *. rewrite filter_cons. cbn [fst].
  pose proof (zlen_nonneg nodes). pose proof (zlen_nonneg (concat subs.*2)). pose proof (zlen_nonneg chain).
  destruct (is_visible visible (str s)) eqn:Ev.
  - destruct (push_chain_spec base chain nodes) as [Hp Hlk]; [done|lia|].
    set (idx := base + zlen nodes) in *. set (part := linked idx chain).
    assert (Hpart : zlen part = zlen chain) by (unfold zlen, part; by rewrite length_linked).
    destruct chain as [|n chain]; [done|]. set (chain' := n :: chain) in *.
    assert (Hpos : 0 < zlen chain') by (unfold chain'; rewrite zlen_cons; pose proof (zlen_nonneg chain); lia).
    assert (Hstep : add_subcommand visible base (nodes, ch) (s, chain') = (nodes ++ part, ch ++ [idx])).
    { unfold add_subcommand. cbn [fst snd]. rewrite Ev, Hp, Hlk. by rewrite seqZ_cons. }
    rewrite Hstep. destruct (IH (nodes ++ part) (ch ++ [idx])) as (added&new&Hf&Hla&Hln&Hadd&Hnew&Hnames);
      [rewrite zlen_app; lia|done|done|].
    rewrite zlen_app, Hpart in Hadd, Hnew, Hnames.
    replace (base + (zlen nodes + zlen chain')) with (idx + zlen chain') in * by lia.
    pose proof (zlen_nonneg added).
    exists (part ++ added), (idx :: new). rewrite Hf, <- !app_assoc, zlen_app, Hpart, !zlen_cons.
    replace (idx + (zlen chain' + zlen added)) with (idx + zlen chain' + zlen added) by lia.
    split_and!; [done|lia|lia| | |].
    + apply Forall_app. split; [|exact Hadd].
      eapply Forall_impl; [apply (linked_ok v idx chain'); [lia|lia|done]|].
      intros x [Hx Hc]. split; [done|]. eapply closed_le; [|exact Hc]. lia.
    + constructor; [lia|]. eapply Forall_impl; [exact Hnew|]. cbn. lia.
    + rewrite decide_True by done. rewrite !fmap_cons. f_equal.
      * rewrite name_at_app by lia. unfold part. rewrite (name_at_names _ _ chain') by apply linked_names.
        unfold name_at. rewrite Z.sub_diag. unfold chain' in *. cbv [mbind option_bind]. cbn in *. by injection Hname.
      * rewrite <- Hnames. apply list_fmap_ext. intros k i Hi%list_elem_of_lookup_2.
        rewrite Forall_forall in Hnew. specialize (Hnew i Hi). unfold name_at.
        rewrite lookup_app_r by (unfold zlen in *; lia). f_equal. f_equal. unfold zlen in *. lia.
  - destruct (IH nodes ch) as (added&new&Hf&Hla&Hln&Hadd&Hnew&Hnames); [lia|done|done|].
    assert (Hstep : add_subcommand visible base (nodes, ch) (s, chain) = (nodes, ch))
      by (unfold add_subcommand; cbn [fst]; by rewrite Ev).
    exists added, new. rewrite Hstep, Hf, zlen_cons, decide_False by done. split_and!; try done; lia.
Qed.

(** *** The whole tree *)

(** Every node is well formed for the version, and leads to nodes of the tree. *)
Definition tree_inv (v : ProtocolVersion) (nodes : list CommandNode) (root : Z) : Prop :=
  Forall (λ n, node_ok n v ∧ closed (zlen nodes) n) nodes ∧ 0 ≤ root < zlen nodes.

Definition children_of (nodes : list CommandNode) (i : Z) : list Z :=
  from_option cn_children [] (nodes !! Z.to_nat i).
Definition child_names (nodes : list CommandNode) (i : Z) : list (option rstring) :=
  name_at 0 nodes <$> children_of nodes i.

Lemma tree_inv_app v nodes root added :
  tree_inv v nodes root →
  Forall (λ n, node_ok n v ∧ closed (zlen nodes + zlen added) n) added →
  tree_inv v (nodes ++ added) root.
Proof.
  intros [Hn Hr] Ha. pose proof (zlen_nonneg added). split; rewrite zlen_app; [|lia].
  apply Forall_app. split; [|exact Ha]. eapply Forall_impl; [exact Hn|].
  intros n [Hok Hc]. split; [done|]. eapply closed_le; [|exact Hc]. lia.
Qed.

Definition root_link (root child : Z) (nodes : list CommandNode) : list CommandNode :=
  alter (push_child child) (Z.to_nat root) nodes.

Lemma root_link_names root child nodes : cn_name <$> root_link root child nodes = cn_name <$> nodes.
Proof.
  unfold root_link. apply list_eq. intros i. rewrite !list_lookup_fmap.
  destruct (decide (Z.to_nat root = i)) as [<-|Hne].
  - rewrite list_lookup_alter_eq. by destruct (nodes !! Z.to_nat root).
  - by rewrite list_lookup_alter_ne.
Qed.

Lemma root_link_other root child nodes i :
  i ≠ Z.to_nat root → root_link root child nodes !! i = nodes !! i.
Proof. intros. by apply list_lookup_alter_ne. Qed.

Lemma zlen_root_link root child nodes : zlen (root_link root child nodes) = zlen nodes.
Proof. unfold zlen, root_link. by rewrite length_alter. Qed.

Lemma children_root_link root child nodes :
  0 ≤ root < zlen nodes → children_of (root_link root child nodes) root = children_of nodes root ++ [child].
Proof.
  intros Hr. unfold children_of, root_link. rewrite list_lookup_alter_eq.
  destruct (lookup_lt_is_Some_2 nodes (Z.to_nat root)) as [n Hn]; [unfold zlen in Hr; lia|].
  by rewrite Hn.
Qed.

Lemma children_app nodes more root :
  0 ≤ root < zlen nodes → children_of (nodes ++ more) root = children_of nodes root.
Proof. intros Hr. unfold children_of. rewrite lookup_app_l; [done|]. unfold zlen in Hr. lia. Qed.

(** A well-formed tree stays one when its root gets another child. *)
Lemma tree_inv_link v nodes root child :
  tree_inv v nodes root → 0 ≤ child < zlen nodes → zlen nodes < 2 ^ 31 →
  zlen (children_of nodes root) + 1 < 2 ^ 31 →
  push_child_at root child nodes = Some (root_link root child nodes) ∧
  tree_inv v (root_link root child nodes) root.
Proof.
  intros [Hn Hr] Hc Hl Hcnt. unfold push_child_at. rewrite decide_True by done. split; [done|].
  split; rewrite zlen_root_link; [|done]. apply Forall_lookup. intros i x.
  destruct (decide (i = Z.to_nat root)) as [->|Hne].
  - unfold root_link. rewrite list_lookup_alter_eq. unfold children_of in Hcnt.
    destruct (nodes !! Z.to_nat root) as [n|] eqn:E; [|done]. cbn in *. intros [= <-].
    rewrite Forall_lookup in Hn. destruct (Hn _ _ E) as [Hok [Hch Hred]].
    split; [apply push_child_ok; [done|unfold in_s; lia|done]|].
    split; cbn; [|done]. apply Forall_app. split; [done|]. by repeat constructor; lia.
  - rewrite root_link_other by done. rewrite Forall_lookup in Hn. apply Hn.
Qed.

Lemma name_at_closed nodes more v root :
  tree_inv v nodes root → child_names (nodes ++ more) root = child_names nodes root.
Proof.
  intros [Hn Hr]. unfold child_names. rewrite children_app by done. apply list_fmap_ext.
  intros k i Hi%list_elem_of_lookup_2. apply name_at_app. unfold children_of in Hi.
  destruct (nodes !! Z.to_nat root) as [n|] eqn:E; [|by apply not_elem_of_nil in Hi].
  rewrite Forall_lookup in Hn. destruct (Hn _ _ E) as [_ [Hc _]]. rewrite Forall_forall in Hc.
  by apply Hc.
Qed.

Lemma child_names_link root child nodes :
  0 ≤ root < zlen nodes →
  child_names (root_link root child nodes) root = child_names nodes root ++ [name_at 0 nodes child].
Proof.
  intros Hr. unfold child_names. rewrite children_root_link by done. rewrite fmap_app. cbn.
  f_equal; [|f_equal; by apply name_at_names, root_link_names].
  apply list_fmap_ext. intros k i _. by apply name_at_names, root_link_names.
Qed.

(** The tree after nodes were added and linked to the root: [names] are the names of the
    new children of the root, and nothing else changed. *)
Record grown (v : ProtocolVersion) (root : Z) (nodes nodes' : list CommandNode)
    (names : list (option rstring)) : Prop := {
  g_tree : tree_inv v nodes' root;
  g_length : zlen nodes ≤ zlen nodes';
  g_old i : i ≠ Z.to_nat root → (i < length nodes)%nat → nodes' !! i = nodes !! i;
  g_label i : (i < length nodes)%nat → cn_name <$> nodes' !! i = cn_name <$> nodes !! i;
  g_names : child_names nodes' root = child_names nodes root ++ names }.

Lemma grown_refl v root nodes : tree_inv v nodes root → grown v root nodes nodes [].
Proof. intros. split; [done|lia|done|done|]. by rewrite app_nil_r. Qed.

Lemma grown_trans v root n1 n2 n3 l1 l2 :
  grown v root n1 n2 l1 → grown v root n2 n3 l2 → grown v root n1 n3 (l1 ++ l2).
Proof.
  intros [H1 L1 O1 B1 N1] [H2 L2 O2 B2 N2]. split; [done|lia| | |by rewrite N2, N1, app_assoc].
  - intros i Hi Hl. rewrite O2; [by apply O1|done|]. unfold zlen in *. lia.
  - intros i Hl. rewrite B2; [by apply B1|]. unfold zlen in *. lia.
Qed.

Lemma grown_children v root nodes nodes' names :
  grown v root nodes nodes' names →
  zlen (children_of nodes' root) = zlen (children_of nodes root) + zlen names.
Proof.
  intros [_ _ _ _ Hn]. apply (f_equal length) in Hn. unfold child_names in Hn.
  rewrite length_app, !length_fmap in Hn. unfold zlen. lia.
Qed.

(** Adding nodes and making one of the nodes a child of the root. *)
Lemma grown_step v root nodes added child :
  tree_inv v nodes root →
  Forall (λ n, node_ok n v ∧ closed (zlen nodes + zlen added) n) added →
  0 ≤ child < zlen nodes + zlen added → zlen nodes + zlen added < 2 ^ 31 →
  zlen (children_of nodes root) + 1 < 2 ^ 31 →
  push_child_at root child (nodes ++ added) = Some (root_link root child (nodes ++ added)) ∧
  grown v root nodes (root_link root child (nodes ++ added)) [name_at 0 (nodes ++ added) child].
Proof.
  intros Ht Ha Hc Hl Hcnt. pose proof (tree_inv_app _ _ _ _ Ht Ha) as Ht'.
  pose proof (proj2 Ht) as Hr. pose proof (zlen_nonneg added).
  destruct (tree_inv_link v (nodes ++ added) root child Ht') as [Hp Hinv];
    [rewrite zlen_app; lia|rewrite zlen_app; lia|by rewrite children_app|].
  split; [done|]. split; [done|rewrite zlen_root_link, zlen_app; lia| | |].
  - intros i Hi Hlt. rewrite root_link_other by done. by apply lookup_app_l.
  - intros i Hlt. rewrite <- !list_lookup_fmap, root_link_names, fmap_app.
    apply lookup_app_l. by rewrite length_fmap.
  - rewrite child_names_link by apply Ht'. by rewrite (name_at_closed _ _ v).
Qed.

Lemma zlen_chains v : zlen (concat (subcommand_chains v).*2) = 21.
Proof. done. Qed.

Definition visible_names (v : ProtocolVersion) (visible : option (gset rstring)) : list rstring :=
  (λ sub, str sub.1) <$> filter (λ sub, is_visible visible (str sub.1) = true) (subcommand_chains v).

(** The nodes of the built-in command. *)
Lemma builtin_nodes v visible base :
  0 ≤ base → base + 23 < 2 ^ 31 →
  ∃ added ch,
    foldl (add_subcommand visible base) ([node_literal (str "infrarust")], []) (subcommand_chains v) =
      (node_literal (str "infrarust") :: added, ch) ∧ zlen added ≤ 21 ∧
    Forall (λ n, node_ok n v ∧ closed (base + 1 + zlen added) n)
      (set_children ch (node_literal (str "infrarust")) :: added) ∧
    name_at (base + 1) added <$> ch = Some <$> visible_names v visible ∧
    Forall (λ i, base + 1 ≤ i < base + 1 + zlen added) ch.
Proof.
  intros Hb Hl.
  destruct (add_subcommands_spec v visible base (subcommand_chains v) [node_literal (str "infrarust")] [])
    as (added&ch&Hf&Hla&Hlc&Hadd&Hch&Hnames); [done| |apply subcommand_chains_ok|apply chains_named|].
  { rewrite zlen_chains. change (zlen [_]) with 1. lia. }
  rewrite zlen_chains in Hla. change (zlen [_]) with 1 in *. cbn [app] in Hf.
  assert (Hlc' : zlen ch ≤ 11) by exact Hlc. clear Hlc.
  exists added, ch. rewrite Hf. split_and!; [done|lia| |unfold visible_names; by rewrite <- list_fmap_compose|done].
  constructor; [|exact Hadd].
  assert (Hok : node_ok (node_literal (str "infrarust")) v)
    by (apply literal_ok; apply (bool_decide_unpack _); by vm_compute).
  split.
  - destruct Hok as (_&_&Hr&Hf'&Hn). unfold node_ok. cbn. split_and!; [|by eapply Forall_impl; [exact Hch|];
      unfold in_s; cbn; lia|done|done|done|apply Hn]. pose proof (zlen_nonneg ch). lia.
  - unfold closed. cbn. split; [|done]. eapply Forall_impl; [exact Hch|]. cbn. lia.
Qed.

Lemma redirect_ok v target : 0 ≤ target < 2 ^ 31 → node_ok (node_redirect (str "ir") target) v.
Proof.
  intros Ht. split; [done|]. split; [constructor|]. split; [cbn; unfold in_s; lia|].
  split; [split; [intros _ Hz; by vm_compute in Hz|by eexists]|].
  split; [done|]. apply (bool_decide_unpack _). by vm_compute.
Qed.

Lemma inject_builtin_spec v visible c :
  let nodes := cmd_nodes c in
  let root := cmd_root_index c in
  tree_inv v nodes root → zlen nodes + 23 < 2 ^ 31 → zlen (children_of nodes root) + 2 < 2 ^ 31 →
  ∃ nodes', inject_builtin v visible c = Some nodes' ∧
    zlen nodes' ≤ zlen nodes + 23 ∧
    grown v root nodes nodes' [Some (str "infrarust"); Some (str "ir")] ∧
    zlen nodes ∈ children_of nodes' root ∧ name_at 0 nodes' (zlen nodes) = Some (str "infrarust") ∧
    child_names nodes' (zlen nodes) = Some <$> visible_names v visible.
Proof.
  intros nodes root Ht Hl Hcnt. pose proof (zlen_nonneg nodes) as Hnn. set (base := zlen nodes) in *.
  destruct (builtin_nodes v visible base) as (added&ch&Hf&Hla&Hok&Hnames&Hch); [lia|lia|].
  pose proof (zlen_nonneg added) as Hna.
  set (infr := set_children ch (node_literal (str "infrarust"))) in *.
  set (ir := node_redirect (str "ir") base). set (block := (infr :: added) ++ [ir]).
  assert (Hzb : zlen block = 2 + zlen added)
    by (unfold block; rewrite zlen_app, zlen_cons; change (zlen [ir]) with 1; lia).
  assert (Hblock : Forall (λ n, node_ok n v ∧ closed (base + zlen block) n) block).
  { rewrite Hzb. unfold block. apply Forall_app. split.
    - eapply Forall_impl; [exact Hok|]. intros n [Hn Hc]. split; [done|]. eapply closed_le; [|exact Hc]. lia.
    - constructor; [|constructor]. split; [apply redirect_ok; lia|]. split; cbn; [constructor|lia]. }
  destruct (grown_step v root nodes block base Ht Hblock) as [Hp1 Hg1]; [lia|lia|lia|].
  set (n1 := root_link root base (nodes ++ block)) in *.
  assert (Hz1 : zlen n1 = base + zlen block) by (unfold n1; by rewrite zlen_root_link, zlen_app).
  destruct (grown_step v root n1 [] (base + 1 + zlen added) (g_tree _ _ _ _ _ Hg1)) as [Hp2 Hg2];
    [constructor|change (zlen []) with 0; lia|change (zlen []) with 0; lia| |].
  { rewrite (grown_children _ _ _ _ _ Hg1). change (zlen [_]) with 1. lia. }
  rewrite app_nil_r in Hp2, Hg2. set (n2 := root_link root (base + 1 + zlen added) n1) in *.
  assert (Hat : ∀ k, (0 ≤ k < zlen block) → name_at 0 (nodes ++ block) (base + k) = name_at 0 block k).
  { intros k Hk. unfold name_at. rewrite lookup_app_r by (unfold base, zlen; lia). f_equal. f_equal.
    unfold base, zlen. lia. }
  assert (Hn12 : ∀ i, name_at 0 n2 i = name_at 0 (nodes ++ block) i).
  { intros i. unfold n2, n1. by rewrite !(name_at_names 0 (root_link _ _ _) _ i (root_link_names _ _ _)). }
  assert (Hn0 : name_at 0 (nodes ++ block) base = Some (str "infrarust")).
  { replace base with (base + 0) by lia. rewrite Hat by lia. done. }
  assert (Hnir : name_at 0 n1 (base + 1 + zlen added) = Some (str "ir")).
  { unfold n1. rewrite (name_at_names 0 (root_link _ _ _) _ _ (root_link_names _ _ _)).
    replace (base + 1 + zlen added) with (base + (1 + zlen added)) by lia. rewrite Hat by lia.
    unfold name_at, block. rewrite Z.sub_0_r, lookup_app_r by (cbn; unfold zlen; lia). cbn [length].
    replace (_ - _)%nat with 0%nat by (unfold zlen; lia). done. }
  exists n2. split_and!.
  - unfold inject_builtin. fold nodes root. fold base.
    assert (Hw : wrap_s 32 base = base) by (apply wrap_s_small; [lia|unfold in_s; lia]). rewrite Hw.
    cbn [push_node]. rewrite index_after_small by (change (zlen []) with 0; lia).
    change (zlen []) with 0. rewrite Z.add_0_r. cbn [app]. rewrite Hf.
    rewrite Z.sub_diag. change (alter (set_children ch) (Z.to_nat 0) (node_literal (str "infrarust") :: added))
      with (infr :: added).
    rewrite index_after_small by (rewrite ?zlen_cons; lia). fold ir block. rewrite zlen_cons.
    replace (base + (1 + zlen added)) with (base + 1 + zlen added) by lia.
    rewrite Hp1. exact Hp2.
  - unfold n2. rewrite zlen_root_link, Hz1, Hzb. lia.
  - rewrite Hn0 in Hg1. rewrite Hnir in Hg2. exact (grown_trans _ _ _ _ _ _ _ Hg1 Hg2).
  - destruct Ht as [_ Hr]. fold base in Hr. unfold n2. rewrite children_root_link by lia.
    apply elem_of_app. left. unfold n1. rewrite children_root_link by (rewrite zlen_app; fold base; lia).
    apply elem_of_app. right. left.
  - by rewrite Hn12.
  - unfold child_names. rewrite (list_fmap_ext (name_at 0 n2) (name_at 0 (nodes ++ block)) _ (λ _ i _, Hn12 i)).
    assert (Hinfr : n2 !! Z.to_nat base = Some infr).
    { destruct Ht as [_ Hr]. unfold n2, n1. rewrite !root_link_other by lia.
      rewrite lookup_app_r by (unfold base, zlen; lia).
      by replace (_ - _)%nat with 0%nat by (unfold base, zlen; lia). }
    unfold children_of. rewrite Hinfr, <- Hnames. cbn [from_option set_children cn_children infr].
    apply list_fmap_ext. intros k i Hi%list_elem_of_lookup_2. rewrite Forall_forall in Hch.
    specialize (Hch i Hi). replace i with (base + (i - base)) at 1 by lia. rewrite Hat by lia.
    unfold name_at, block. rewrite Z.sub_0_r. cbn [app].
    replace (Z.to_nat (i - base)) with (S (Z.to_nat (i - (base + 1)))) by lia.
    set (k' := Z.to_nat (i - (base + 1))).
    change ((infr :: added ++ [ir]) !! S k') with ((added ++ [ir]) !! k').
    rewrite lookup_app_l by (unfold k', zlen in *; lia). done.
Qed.

Lemma inject_plugin_command_spec v root nodes name :
  tree_inv v nodes root → is_text 32767 name → zlen nodes + 2 < 2 ^ 31 →
  zlen (children_of nodes root) + 1 < 2 ^ 31 →
  ∃ nodes', inject_plugin_command v root nodes name = Some nodes' ∧ zlen nodes' = zlen nodes + 2 ∧
    grown v root nodes nodes' [Some name].
Proof.
  intros Ht Hname Hl Hcnt. pose proof (zlen_nonneg nodes) as Hnn. set (base := zlen nodes) in *.
  set (lit := node_literal_executable name).
  set (arg := node_argument (str "args") (string_parser GREEDY_PHRASE v) ASK_SERVER).
  set (added := [push_child (base + 1) lit; arg]).
  destruct (literal_executable_ok name v Hname) as (Hlit&_&_).
  destruct (argument_ok (str "args") GREEDY_PHRASE ASK_SERVER v) as [(Harg&_&_) _].
  { apply (bool_decide_unpack _). by vm_compute. }
  { unfold in_s, GREEDY_PHRASE. lia. }
  { apply (bool_decide_unpack _). by vm_compute. }
  destruct (grown_step v root nodes added base Ht) as [Hp Hg]; change (zlen added) with 2; [|fold base; lia..|].
  { fold base. constructor; [|constructor; [|constructor]].
    - split; [apply push_child_ok; [done|unfold in_s; lia|change (zlen (cn_children lit)) with 0; lia]|].
      split; [|done]. constructor; [lia|constructor].
    - split; [done|]. split; [constructor|done]. }
  assert (Hname' : name_at 0 (nodes ++ added) base = Some name).
  { unfold name_at. rewrite Z.sub_0_r, lookup_app_r by (unfold base, zlen; lia).
    by replace (_ - _)%nat with 0%nat by (unfold base, zlen; lia). }
  rewrite Hname' in Hg. exists (root_link root base (nodes ++ added)). split_and!; [|by rewrite zlen_root_link, zlen_app|exact Hg].
  unfold inject_plugin_command. fold base lit arg.
  assert (Hw : wrap_s 32 base = base) by (apply wrap_s_small; [lia|unfold in_s; lia]).
  rewrite Hw, zlen_app. fold base. change (zlen [lit]) with 1.
  rewrite wrap_s_small by (try lia; unfold in_s; lia).
  assert (Hlink : push_child_at base (base + 1) ((nodes ++ [lit]) ++ [arg]) = Some (nodes ++ added)).
  { unfold push_child_at. rewrite !zlen_app. fold base. change (zlen [lit]) with 1.
    change (zlen [arg]) with 1. rewrite decide_True by lia. rewrite <- app_assoc.
    replace (Z.to_nat base) with (length nodes + 0)%nat by (unfold base, zlen; lia).
    by rewrite alter_app_r. }
  rewrite Hlink. exact Hp.
Qed.

Lemma inject_plugin_commands_spec v root names nodes :
  tree_inv v nodes root → Forall (is_text 32767) names → zlen nodes + 2 * zlen names < 2 ^ 31 →
  zlen (children_of nodes root) + zlen names < 2 ^ 31 →
  ∃ nodes', inject_plugin_commands v root nodes names = Some nodes' ∧
    zlen nodes' = zlen nodes + 2 * zlen names ∧ grown v root nodes nodes' (Some <$> names).
Proof.
  intros Ht Hn. revert nodes Ht. induction Hn as [|name names Hname Hn IH]; intros nodes Ht Hl Hcnt.
  { exists nodes. split_and!; [done|change (zlen []) with 0; lia|by apply grown_refl]. }
  rewrite zlen_cons in *. pose proof (zlen_nonneg names).
  destruct (inject_plugin_command_spec v root nodes name Ht Hname) as (n1&Hi&Hz1&Hg1); [lia|lia|].
  destruct (IH n1 (g_tree _ _ _ _ _ Hg1)) as (n2&Hi2&Hz2&Hg2); [lia| |].
  { rewrite (grown_children _ _ _ _ _ Hg1). change (zlen [_]) with 1. lia. }
  exists n2. cbn [inject_plugin_commands]. rewrite Hi. cbv [mbind option_bind]. rewrite Hi2.
  split_and!; [done|lia|]. exact (grown_trans _ _ _ _ _ _ _ Hg1 Hg2).
Qed.

(** A node that was there before, other than the root, keeps its name and the names of
    its children. *)
Lemma grown_node v root nodes n1 n2 l1 l2 names :
  tree_inv v nodes root → grown v root nodes n1 l1 → grown v root n1 n2 l2 →
  name_at 0 n1 (zlen nodes) = Some (str "infrarust") →
  child_names n1 (zlen nodes) = names →
  name_at 0 n2 (zlen nodes) = Some (str "infrarust") ∧ child_names n2 (zlen nodes) = names.
Proof.
  intros [_ Hr] [[Hn1 _] L1 _ _ _] [_ _ O2 B2 _] Hn <-. pose proof (zlen_nonneg nodes) as Hnn.
  assert (Hat : ∀ i, 0 ≤ i < zlen n1 → name_at 0 n2 i = name_at 0 n1 i).
  { intros i Hi. unfold name_at. specialize (B2 (Z.to_nat (i - 0)) ltac:(unfold zlen in Hi; lia)).
    destruct (n2 !! _), (n1 !! _); naive_solver. }
  destruct (n1 !! Z.to_nat (zlen nodes)) as [n|] eqn:E; [|unfold name_at in Hn; by rewrite Z.sub_0_r, E in Hn].
  assert (Hlt : zlen nodes < zlen n1) by (apply lookup_lt_Some in E; unfold zlen in *; lia).
  split; [by rewrite Hat by lia|]. unfold child_names, children_of.
  rewrite O2 by (unfold zlen in *; lia). rewrite E. cbn. apply list_fmap_ext.
  intros k i Hi%list_elem_of_lookup_2. apply Hat. rewrite Forall_lookup in Hn1.
  destruct (Hn1 _ _ E) as [_ [Hc _]]. rewrite Forall_forall in Hc. by apply Hc.
Qed.

Definition any_visible (visible : option (gset rstring)) : bool :=
  match visible with None => true | Some set => bool_decide (set ≠ ∅) end.

(** C35: Adding the proxy commands to a well-formed command tree neither panics nor breaks
    it: the result is well formed and encodable, every node of the backend keeps its
    place and its own children, the root gains exactly the proxy and plugin commands,
    and the infrarust node has the subcommands the player may see. *)
Theorem inject_keeps_tree (v : ProtocolVersion) (plugins : list (rstring * rstring))
    (visible : option (gset rstring)) (c : CCommands) :
  tree_inv v (cmd_nodes c) (cmd_root_index c) → Forall (is_text 32767) plugins.*1 →
  zlen (cmd_nodes c) + 23 + 2 * zlen plugins < 2 ^ 31 →
  zlen (children_of (cmd_nodes c) (cmd_root_index c)) + 2 + zlen plugins < 2 ^ 31 →
  ∃ c', inject_proxy_commands v plugins visible c = Some c' ∧
    cmd_root_index c' = cmd_root_index c ∧ pkt_ok c' v ∧
    grown v (cmd_root_index c) (cmd_nodes c) (cmd_nodes c')
      ((if any_visible visible then [Some (str "infrarust"); Some (str "ir")] else []) ++
       (Some <$> plugins.*1)) ∧
    (any_visible visible = true →
     name_at 0 (cmd_nodes c') (zlen (cmd_nodes c)) = Some (str "infrarust") ∧
     child_names (cmd_nodes c') (zlen (cmd_nodes c)) = Some <$> visible_names v visible).
Proof.
  destruct c as [nodes root]. cbn [cmd_nodes cmd_root_index]. intros Ht Hp Hl Hcnt.
  pose proof (zlen_nonneg plugins). pose proof (zlen_nonneg nodes).
  assert (Hzp : zlen plugins.*1 = zlen plugins) by (unfold zlen; by rewrite length_fmap).
  set (new := if any_visible visible then [Some (str "infrarust"); Some (str "ir")] else []).
  assert (Hb : ∃ n1, (if any_visible visible then inject_builtin v visible (mk_CCommands nodes root)
      else Some nodes) = Some n1 ∧ zlen n1 ≤ zlen nodes + 23 ∧ grown v root nodes n1 new ∧
      (any_visible visible = true → name_at 0 n1 (zlen nodes) = Some (str "infrarust") ∧
         child_names n1 (zlen nodes) = Some <$> visible_names v visible)).
  { unfold new. destruct (any_visible visible).
    - destruct (inject_builtin_spec v visible (mk_CCommands nodes root)) as (n1&Hi&Hz&Hg&_&Hn&Hc);
        cbn [cmd_nodes cmd_root_index] in *; [done|lia|lia|]. by exists n1.
    - exists nodes. split_and!; [done|lia|by apply grown_refl|done]. }
  destruct Hb as (n1&Hi1&Hz1&Hg1&Hnames).
  assert (Hznew : zlen new ≤ 2) by (unfold new; by destruct (any_visible visible)).
  destruct (inject_plugin_commands_spec v root plugins.*1 n1 (g_tree _ _ _ _ _ Hg1) Hp)
    as (n2&Hi2&Hz2&Hg2); [lia|rewrite (grown_children _ _ _ _ _ Hg1); lia|].
  exists (mk_CCommands n2 root). cbn [cmd_nodes cmd_root_index]. split_and!.
  - unfold inject_proxy_commands. cbn [cmd_nodes cmd_root_index]. fold (any_visible visible).
    rewrite Hi1. cbv [mbind option_bind]. by rewrite Hi2.
  - done.
  - destruct (g_tree _ _ _ _ _ Hg2) as [Hn2 Hr2]. cbn. split; [lia|]. split; [|unfold in_s; lia].
    eapply Forall_impl; [exact Hn2|]. intros n [Hn _]. exact Hn.
  - exact (grown_trans _ _ _ _ _ _ _ Hg1 Hg2).
  - intros Hv. destruct (Hnames Hv) as [Hn Hc]. by apply (grown_node v root nodes n1 n2 _ _ _ Ht Hg1 Hg2).
Qed.

(** ** Permissions: announced means allowed *)

Section permission_proofs.
Context `{LC : Lowercase} `{LCL : !LowercaseLaws}.

(** The service once the built-in commands are registered. *)
Definition ready_service (s : PermissionService) : PermissionService :=
  register_subcommands all_subcommands admin_subcommands s.

Lemma subcommand_lower name : name ∈ all_subcommands → to_lowercase name = name.
Proof using LCL.
  intros Hn. unfold all_subcommands in Hn. rewrite elem_of_list_to_set in Hn.
  assert (Hall : Forall (λ n : rstring, Forall (λ c, 0 ≤ c < 128) n ∧ ascii_lower <$> n = n)
    ((λ e : string * PermissionLevel, str e.1) <$> subcommand_list))
    by (apply (bool_decide_unpack _); by vm_compute).
  rewrite Forall_forall in Hall. destruct (Hall name Hn) as [Ha Hl].
  by rewrite to_lowercase_ascii.
Qed.

(** A subcommand is announced to a player exactly when running it is allowed: to
    administrators, and to others when it is configured for players and is not admin-
    only. *)
Theorem announced_iff_allowed (s : PermissionService) (level : PermissionLevel)
    (typed name : rstring) (args : list rstring) :
  ps_subcommand_info s = None → to_lowercase typed = name → name ∈ all_subcommands → name ≠ str "help" →
  let s := ready_service s in
  (root_execute s (Some level) (typed :: args) = RootRun name args ↔
     is_visible (Some (visible_subcommands level s)) name = true) ∧
  (is_visible (Some (visible_subcommands level s)) name = true ↔
     level = LAdmin ∨ name ∈ ps_player_commands s ∧ name ∉ admin_subcommands).
Proof using LCL.
  intros Hinfo Hty Hin Hh. cbv zeta. unfold ready_service, register_subcommands. rewrite Hinfo.
  unfold root_execute. cbn [head tail fmap option_fmap option_map]. rewrite Hty.
  rewrite decide_False, decide_True by done. unfold is_visible, is_command_allowed.
  rewrite (subcommand_lower name Hin). rewrite bool_decide_eq_true.
  destruct level; cbn [visible_subcommands ps_subcommand_info si_admin_only si_all ps_player_commands].
  - rewrite elem_of_filter. destruct (bool_decide_reflect (name ∈ admin_subcommands)) as [Ha|Ha];
      cbn [negb]; [split; [split; [done|tauto]|split; [tauto|intros [|]; [done|tauto]]]|].
    destruct (bool_decide_reflect (name ∈ ps_player_commands s)) as [Hp|Hp]; cbn [negb].
    + split; [split; [tauto|reflexivity]|]. split; [tauto|intros [|]; [discriminate|tauto]].
    + split; [split; [discriminate|tauto]|]. split; [tauto|intros [|]; [discriminate|tauto]].
  - cbn [negb]. split; [split; done|]. split; [by left|done].
Qed.

(** A player the registry does not know is not checked at all. *)
Lemma unknown_player_unchecked (s : PermissionService) (name : rstring) (args : list rstring) :
  name ∈ all_subcommands → name ≠ str "help" → root_execute s None (name :: args) = RootRun name args.
Proof using LCL.
  intros Hin Hh. unfold root_execute. cbn [head tail fmap option_fmap option_map].
  rewrite (subcommand_lower name Hin). by rewrite decide_False, decide_True.
Qed.
End permission_proofs.

(** ** The command manager: a registered command is found *)

Section command_proofs.
Context `{LC : Lowercase} {H : Type}.

Lemma insert_aliases_lookup (l : list rstring) (name : rstring) (m : gmap rstring rstring) (x : rstring) :
  insert_aliases l name m !! x = if decide (x ∈ l) then Some name else m !! x.
Proof.
  unfold insert_aliases. revert m. induction l as [|a l IH]; intros m; cbn [foldl].
  { by rewrite decide_False by apply not_elem_of_nil. }
  rewrite IH. destruct (decide (x ∈ l)); [by rewrite decide_True by by right|].
  destruct (decide (x = a)) as [->|Hne]; [rewrite lookup_insert_eq, decide_True by left; done|].
  rewrite lookup_insert_ne by done. rewrite decide_False; [done|]. by rewrite elem_of_cons; intros [|].
Qed.

Lemma delete_aliases_lookup (l : list rstring) (m : gmap rstring rstring) (x : rstring) :
  foldl (λ a alias, delete alias a) m l !! x = if decide (x ∈ l) then None else m !! x.
Proof.
  revert m. induction l as [|a l IH]; intros m; cbn [foldl].
  { by rewrite decide_False by apply not_elem_of_nil. }
  rewrite IH. destruct (decide (x ∈ l)); [by rewrite decide_True by by right|].
  destruct (decide (x = a)) as [->|Hne]; [rewrite lookup_delete_eq, decide_True by left; done|].
  rewrite lookup_delete_ne by done. rewrite decide_False; [done|]. by rewrite elem_of_cons; intros [|].
Qed.

(** The aliases of the command that has this name. *)
Definition old_aliases (m : CommandManagerImpl H) (name_lower : rstring) : list rstring :=
  match cmgr_commands m !! name_lower with Some cmd => rc_aliases cmd | None => [] end.

(** Registering a command makes its name and aliases, in any case, stand for it, leaves
    every other name as it was save the old aliases, and unregistering takes them out
    again. *)
Theorem register_then_dispatch (m : CommandManagerImpl H) (name : rstring) (aliases : list rstring)
    (description : rstring) (h : H) (plugin_id : rstring) :
  (∀ cmd, cmgr_commands m !! to_lowercase name = Some cmd → rc_is_builtin cmd = false) →
  let m' := register_with_plugin_id name aliases description h plugin_id m in
  (* every alias, and the name unless it is an alias itself, stand for the command *)
  (∀ typed, to_lowercase typed ∈ to_lowercase <$> aliases → canonical typed m' = to_lowercase name) ∧
  (∀ typed, to_lowercase typed = to_lowercase name →
     cmgr_aliases m !! to_lowercase name = None → canonical typed m' = to_lowercase name) ∧
  rc_handler <$> cmgr_commands m' !! to_lowercase name = Some h ∧
  (* every other name stands for what it stood for before, save the old aliases *)
  (∀ typed, to_lowercase typed ∉ to_lowercase <$> aliases →
     to_lowercase typed ∉ old_aliases m (to_lowercase name) → canonical typed m' = canonical typed m) ∧
  (∀ other, other ≠ to_lowercase name → cmgr_commands m' !! other = cmgr_commands m !! other) ∧
  (* and unregistering it takes it and its aliases out *)
  (let m'' := unregister_command name m' in
   cmgr_commands m'' !! to_lowercase name = None ∧
   ∀ alias, alias ∈ to_lowercase <$> aliases → cmgr_aliases m'' !! alias = None).
Proof.
  intros Hb m'.
  assert (Hm' : m' = insert_command name aliases description h false plugin_id (unregister_command name m)).
  { unfold m', register_with_plugin_id. destruct (cmgr_commands m !! to_lowercase name) as [cmd|]; [|done].
    by rewrite (Hb cmd eq_refl). }
  assert (Ha : ∀ x, cmgr_aliases m' !! x =
    if decide (x ∈ to_lowercase <$> aliases) then Some (to_lowercase name)
    else if decide (x ∈ old_aliases m (to_lowercase name)) then None else cmgr_aliases m !! x).
  { intros x. rewrite Hm'. cbn [insert_command unregister_command cmgr_aliases].
    rewrite insert_aliases_lookup. fold (old_aliases m (to_lowercase name)).
    by rewrite delete_aliases_lookup. }
  assert (Hc : ∀ x, cmgr_commands m' !! x = if decide (x = to_lowercase name)
    then Some (Build_RegisteredCommand h (to_lowercase <$> aliases) description false plugin_id)
    else cmgr_commands m !! x).
  { intros x. rewrite Hm'. cbn [insert_command unregister_command cmgr_commands].
    destruct (decide (x = to_lowercase name)) as [->|Hne]; [apply lookup_insert_eq|].
    by rewrite lookup_insert_ne, lookup_delete_ne by done. }
  split_and!.
  - intros typed Ht. unfold canonical. by rewrite Ha, decide_True.
  - intros typed Ht Hno. unfold canonical. rewrite Ht, Ha.
    destruct (decide _); [done|]. destruct (decide _); [done|]. by rewrite Hno.
  - by rewrite Hc, decide_True.
  - intros typed H1 H2. unfold canonical. by rewrite Ha, !decide_False.
  - intros other Ho. by rewrite Hc, decide_False.
  - split; [cbn [unregister_command cmgr_commands]; apply lookup_delete_eq|]. intros alias Hal. cbn [unregister_command cmgr_aliases]. rewrite delete_aliases_lookup, Hc.
    rewrite (decide_True (P := to_lowercase name = to_lowercase name)) by done. cbn [rc_aliases].
    by rewrite decide_True.
Qed.
End command_proofs.

(** ** Examples *)

#[local] Existing Instance ascii_lowercase.

(** A server with a lobby command, its root first. *)
Definition sample_tree : CCommands :=
  mk_CCommands [mk_CommandNode 0 [1] None None None None; node_literal_executable (str "lobby")] 0.

Lemma inject_keeps_tree_witness :
  ∃ c', inject_proxy_commands V1_21 [(str "party", str "party-plugin")]
          (Some {[str "list"; str "server"]}) sample_tree = Some c' ∧
    child_names (cmd_nodes c') 0 =
      [Some (str "lobby"); Some (str "infrarust"); Some (str "ir"); Some (str "party")] ∧
    child_names (cmd_nodes c') 2 = [Some (str "list"); Some (str "server")].
Proof.
  destruct (inject_keeps_tree V1_21 [(str "party", str "party-plugin")]
    (Some {[str "list"; str "server"]}) sample_tree) as (c'&Hi&_&_&Hg&Hv).
  - split; [|by vm_compute]. constructor; [|constructor; [|constructor]].
    + split; [|split; [|done]; constructor; [by vm_compute|constructor]].
      split; [by vm_compute|]. split; [constructor; [unfold in_s; lia|constructor]|].
      split; [done|]. split; [by split; [intros []|intros Hz; destruct Hz]|done].
    + destruct (literal_executable_ok (str "lobby") V1_21) as (Hok&_&_);
        [apply (bool_decide_unpack _); by vm_compute|].
      split; [exact Hok|]. by split.
  - constructor; [|constructor]. apply (bool_decide_unpack _). by vm_compute.
  - by vm_compute.
  - by vm_compute.
  - exists c'. split; [exact Hi|]. split; [exact (g_names _ _ _ _ _ Hg)|].
    exact (proj2 (Hv eq_refl)).
Defined.

Definition open_list : PermissionService :=
  permission_new_sync (Build_PermissionsConfig [] [str "List"; str "KICK"]).
Lemma announced_iff_allowed_witness :
  root_execute (ready_service open_list) (Some LPlayer) [str "LIST"; str "-v"] =
    RootRun (str "list") [str "-v"] ∧
  root_execute (ready_service open_list) (Some LPlayer) [str "kick"; str "Alex"] = RootDenied.
Proof.
  split; [|by vm_compute].
  apply (announced_iff_allowed (LCL := ascii_lowercase_laws) open_list LPlayer (str "LIST") (str "list") [str "-v"]);
    by vm_compute.
Defined.

(** The checker of plugins grants the permission of an admin command that the
    configuration tries to open, which the command itself refuses. *)
Lemma permission_of_refused_command :
  has_permission (ready_service open_list) 7 (str "infrarust.command.kick") = true ∧
  is_command_allowed (str "kick") LPlayer (ready_service open_list) = false.
Proof. by vm_compute. Qed.

Definition builtin_manager : CommandManagerImpl string :=
  register_builtin (str "infrarust") [str "ir"] [] "builtin"%string command_manager_new.

Lemma register_then_dispatch_witness :
  let m := register_with_plugin_id (str "Party") [str "P"] [] "party"%string (str "party-plugin")
             builtin_manager in
  canonical (str "p") m = str "party" ∧
  dispatch_command (Some 1) (str " PARTY invite  Alex ") m =
    Some ("party"%string, Build_CommandContext (Some 1) [str "invite"; str "Alex"]
                            (str "PARTY invite  Alex")).
Proof.
  intros m. split; [|by vm_compute].
  destruct (register_then_dispatch builtin_manager (str "Party") [str "P"] [] "party"%string
    (str "party-plugin")) as [Ha _].
  - intros cmd Hc. by vm_compute in Hc.
  - apply (Ha (str "p")). left.
Defined.

Theorem builtin_command_can_be_taken :
  let attack := register_with_plugin_id (str "x") [str "infrarust"; str "ir"] [] "plugin"%string
                  (str "evil") builtin_manager in
  fst <$> dispatch_command (Some 1) (str "infrarust kick Alex") builtin_manager = Some "builtin"%string ∧
  (* a plugin may not take the name of the built-in command *)
  register_with_plugin_id (str "infrarust") [] [] "plugin"%string (str "evil") builtin_manager =
    builtin_manager ∧
  (* but it may take it as an alias, and it may unregister it *)
  fst <$> dispatch_command (Some 1) (str "infrarust kick Alex") attack = Some "plugin"%string ∧
  dispatch_command (Some 1) (str "ir help") (unregister_command (str "infrarust") builtin_manager) = None.
Proof. split_and!; by vm_compute. Qed.
