(* ===== verification/Tracking.v ===== *)
(** * Tracking: what plugins register, and taking it back

    Models [services/scheduler.rs] and the contract behind [plugin/tracking.rs]: a plugin
    registers listeners, commands, tasks and configurations through wrappers that keep the
    handles, so that all of it can be released when the plugin is disabled.  [Tracked] states
    what such a service promises; the event bus, the command manager, the scheduler and the
    router are instances, and the lemmas at the end, which are proved once against the
    interface, say what a service holds while plugins use it and after a cleanup. *)
From S2P Require Import Prelude Utf8 Version Packet Config Router EventBus ProxyCommands.

(** ** The scheduler *)

Section scheduler.
Context {Task : Type}.

(** What a spawned tokio task does; [TDelay] has the copy of the map that the task captured:
    cloning a [DashMap] copies it. *)
Inductive TaskKind :=
| TDelay (copy : gmap Z nat)
| TInterval (period : Z).
Inductive TaskStatus := TRunning | TFinished | TAborted.

(** A spawned task, with the handle it was scheduled under and the time at which it runs the
    next time. *)
Record SpawnedTask := {
  st_kind : TaskKind;
  st_task : Task;
  st_handle : Z;
  st_due : Z;
  st_status : TaskStatus }.

(** [tasks] maps a handle to the place of its task in the runtime, its abort handle. *)
Record SchedulerImpl := {
  sch_tasks : gmap Z nat;
  sch_next_id : Z;
  sch_spawned : list SpawnedTask }.

Definition scheduler_new : SchedulerImpl := Build_SchedulerImpl ∅ 1 [].

Definition task_handle (s : SchedulerImpl) : Z * SchedulerImpl :=
  (sch_next_id s, Build_SchedulerImpl (sch_tasks s) (wrap_u 64 (sch_next_id s + 1)) (sch_spawned s)).

(** [tokio::spawn], and [tasks.insert] of its abort handle. *)
Definition spawn_task (handle : Z) (kind : TaskKind) (task : Task) (due : Z) (s : SchedulerImpl)
    : SchedulerImpl :=
  Build_SchedulerImpl (<[handle := length (sch_spawned s)]> (sch_tasks s)) (sch_next_id s)
    (sch_spawned s ++ [Build_SpawnedTask kind task handle due TRunning]).

Definition delay (now duration : Z) (task : Task) (s : SchedulerImpl) : Z * SchedulerImpl :=
  let '(handle, s) := task_handle s in
  let tasks := sch_tasks s in
  (handle, spawn_task handle (TDelay tasks) task (now + duration) s).

(** The first tick, which is immediate, is skipped. *)
Definition interval (now period : Z) (task : Task) (s : SchedulerImpl) : Z * SchedulerImpl :=
  let '(handle, s) := task_handle s in
  (handle, spawn_task handle (TInterval period) task (now + period) s).

Definition interval_with_delay (now period delay : Z) (task : Task) (s : SchedulerImpl)
    : Z * SchedulerImpl :=
  let '(handle, s) := task_handle s in
  (handle, spawn_task handle (TInterval period) task (now + delay) s).

Definition set_status (st : TaskStatus) (t : SpawnedTask) : SpawnedTask :=
  Build_SpawnedTask (st_kind t) (st_task t) (st_handle t) (st_due t) st.

(** A task that has finished cannot be aborted any more. *)
Definition abort_task (i : nat) (l : list SpawnedTask) : list SpawnedTask :=
  alter (λ t, match st_status t with TRunning => set_status TAborted t | _ => t end) i l.

Definition cancel_task (handle : Z) (s : SchedulerImpl) : SchedulerImpl :=
  match sch_tasks s !! handle with
  | Some i => Build_SchedulerImpl (delete handle (sch_tasks s)) (sch_next_id s) (abort_task i (sch_spawned s))
  | None => s
  end.

(** The runtime comes to task [i] at time [now]: what runs.  A delayed task removes itself
    from its copy of the map and ends; an interval goes on at the next multiple of its
    period, missed ticks being skipped, and a period of zero is a panic in the task. *)
Definition fire_task (now : Z) (i : nat) (s : SchedulerImpl) : option (Task * SchedulerImpl) :=
  t ← sch_spawned s !! i;
  match st_status t with
  | TRunning =>
    if decide (now < st_due t) then None
    else match st_kind t with
         | TDelay copy =>
           let t' := Build_SpawnedTask (TDelay (delete (st_handle t) copy)) (st_task t) (st_handle t)
                       (st_due t) TFinished in
           Some (st_task t, Build_SchedulerImpl (sch_tasks s) (sch_next_id s) (<[i := t']> (sch_spawned s)))
         | TInterval period =>
           if decide (period ≤ 0) then None
           else
             let due := st_due t + ((now - st_due t) / period + 1) * period in
             let t' := Build_SpawnedTask (TInterval period) (st_task t) (st_handle t) due TRunning in
             Some (st_task t, Build_SchedulerImpl (sch_tasks s) (sch_next_id s) (<[i := t']> (sch_spawned s)))
         end
  | _ => None
  end.

(** A task that may still run: its place and its handle. *)
Definition scheduled (s : SchedulerImpl) (r : nat * Z) : Prop :=
  ∃ t, sch_spawned s !! r.1 = Some t ∧ st_status t = TRunning ∧ st_handle t = r.2.

(** After at most [n] calls: a task that may run can be cancelled. *)
Record scheduler_wf (n : Z) (s : SchedulerImpl) : Prop := {
  swf_listed i h : scheduled s (i, h) → sch_tasks s !! h = Some i;
  swf_old h i : sch_tasks s !! h = Some i → h < sch_next_id s;
  swf_next : 0 < sch_next_id s ≤ n + 1 }.
End scheduler.
Arguments SchedulerImpl : clear implicits.

(** ** What a service promises to the wrapper that tracks it *)

(** [S] is the state of the service, [Req] what is registered, [Hd] the handle that is kept
    and [Res] what the service holds; [n] bounds the registrations so far. *)
Class Tracked (S Req Hd Res : Type) := {
  tr_register : Req → S → Hd * S;
  tr_release : Hd → S → S;
  tr_live : S → Res → Prop;
  tr_held : Hd → Res → Prop;
  tr_wf : Z → S → Prop }.

Class TrackedLaws (S Req Hd Res : Type) `{!Tracked S Req Hd Res} := {
  tr_register_ok n req s :
    n + 1 < 2 ^ 64 - 1 → tr_wf n s →
    tr_wf (n + 1) (tr_register req s).2 ∧
    ∀ r, tr_live (tr_register req s).2 r → tr_live s r ∨ tr_held (tr_register req s).1 r;
  tr_release_ok n h s :
    n + 1 < 2 ^ 64 - 1 → tr_wf n s →
    tr_wf n (tr_release h s) ∧ ∀ r, tr_live (tr_release h s) r → tr_live s r ∧ ¬ tr_held h r;
  tr_wf_mono n m s : n ≤ m → tr_wf n s → tr_wf m s }.

(** *** The scheduler *)

Section scheduler_tracked.
Context {Task : Type}.

Inductive schedule_req :=
| SDelay (now duration : Z) (task : Task)
| SInterval (now period : Z) (task : Task)
| SIntervalWithDelay (now period delay : Z) (task : Task).
Definition schedule (req : schedule_req) (s : SchedulerImpl Task) : Z * SchedulerImpl Task :=
  match req with
  | SDelay now duration task => delay now duration task s
  | SInterval now period task => interval now period task s
  | SIntervalWithDelay now period d task => interval_with_delay now period d task s
  end.

#[export] Instance scheduler_tracked : Tracked (SchedulerImpl Task) schedule_req Z (nat * Z) := {|
  tr_register := schedule;
  tr_release := cancel_task;
  tr_live := scheduled;
  tr_held h r := r.2 = h;
  tr_wf := scheduler_wf |}.

Lemma scheduler_new_wf n : 0 ≤ n → scheduler_wf n (@scheduler_new Task).
Proof. intros. split; [by intros i h (t&?&?)|done|cbn; lia]. Qed.

Lemma scheduled_spawn h kind task due (s : SchedulerImpl Task) i h' :
  scheduled (spawn_task h kind task due s) (i, h') →
  scheduled s (i, h') ∨ i = length (sch_spawned s) ∧ h' = h.
Proof.
  intros (t&Ht&Hr&Hh). cbn [fst snd spawn_task sch_spawned] in *. subst h'.
  apply lookup_snoc_Some in Ht as [[_ Ht]|[-> <-]]; [left; by exists t|by right].
Qed.

Lemma spawn_task_ok n h kind task due (s : SchedulerImpl Task) :
  n + 1 < 2 ^ 64 - 1 → scheduler_wf n s →
  sch_next_id s = h →
  scheduler_wf (n + 1) (spawn_task h kind task due
    (Build_SchedulerImpl (sch_tasks s) (wrap_u 64 (h + 1)) (sch_spawned s))).
Proof.
  intros Hn [Hl Ho Hx] Hh. assert (Hw : wrap_u 64 (h + 1) = h + 1) by (apply wrap_u_small; unfold in_u; lia).
  split; cbn [spawn_task sch_tasks sch_next_id sch_spawned].
  - intros i h' [Hs|[-> ->]]%scheduled_spawn; [|apply lookup_insert_eq].
    pose proof (Hl i h' Hs) as Hin. pose proof (Ho _ _ Hin).
    rewrite lookup_insert_ne by lia. exact Hin.
  - intros h' i [[<- _]|[_ H%Ho]]%lookup_insert_Some; rewrite Hw; lia.
  - rewrite Hw. lia.
Qed.

Lemma scheduled_cancel h (s : SchedulerImpl Task) i h' n :
  scheduler_wf n s → scheduled (cancel_task h s) (i, h') → scheduled s (i, h') ∧ h' ≠ h.
Proof.
  intros [Hl Ho Hx]. unfold cancel_task. destruct (sch_tasks s !! h) as [j|] eqn:Hj.
  - intros (t&Ht&Hr&Hh). cbn [fst snd sch_spawned] in *.
    unfold abort_task in Ht. destruct (decide (i = j)) as [->|Hne].
    + rewrite list_lookup_alter_eq in Ht. destruct (sch_spawned s !! j) as [u|]; [|done].
      injection Ht as <-. by destruct (st_status u) eqn:Hu; cbn in Hr; rewrite ?Hu in Hr.
    + rewrite list_lookup_alter_ne in Ht by done. assert (Hs : scheduled s (i, h')) by by exists t.
      split; [done|]. intros ->. pose proof (Hl i h Hs). congruence.
  - intros Hs. split; [done|]. intros ->. pose proof (Hl i h Hs). congruence.
Qed.

#[export] Instance scheduler_tracked_laws : TrackedLaws (SchedulerImpl Task) schedule_req Z (nat * Z).
Proof.
  split.
  - intros n req s Hn Hwf. cbn [tr_wf tr_register tr_live tr_held scheduler_tracked].
    destruct req; (split; [by apply spawn_task_ok|intros [i h] [?|[_ ->]]%scheduled_spawn; [by left|by right]]).
  - intros n h s Hn Hwf. cbn [tr_wf tr_release tr_live tr_held scheduler_tracked]. split.
    + split.
      * intros i h' Hs. destruct (scheduled_cancel _ _ _ _ _ Hwf Hs) as [Hs' Hne].
        pose proof (swf_listed _ _ Hwf _ _ Hs'). unfold cancel_task.
        destruct (sch_tasks s !! h); [|done]. cbn [sch_tasks]. by rewrite lookup_delete_ne by done.
      * intros h' i. unfold cancel_task. destruct (sch_tasks s !! h); [|apply (swf_old _ _ Hwf)].
        cbn [sch_tasks sch_next_id]. intros [_ ?]%lookup_delete_Some. by eapply (swf_old _ _ Hwf).
      * unfold cancel_task. destruct (sch_tasks s !! h); apply Hwf.
    + intros [i h'] Hs. apply (scheduled_cancel _ _ _ _ _ Hwf Hs).
  - intros n m s Hnm [? ? ?]. split; [done..|lia].
Qed.

(** Firing keeps the scheduler as it is but for tasks that have ended. *)
Lemma fire_task_ok n now i (s s' : SchedulerImpl Task) task :
  scheduler_wf n s → fire_task now i s = Some (task, s') →
  scheduler_wf n s' ∧ ∀ r, scheduled s' r → scheduled s r.
Proof.
  intros [Hl Ho Hx] Hf.
  assert (Hs : ∃ t', sch_spawned s !! i ≠ None ∧ s' = Build_SchedulerImpl (sch_tasks s) (sch_next_id s) (<[i := t']> (sch_spawned s)) ∧
            (st_status t' = TRunning → scheduled s (i, st_handle t'))).
  { unfold fire_task in Hf. destruct (sch_spawned s !! i) as [t|] eqn:Ht; [|done]. cbv [mbind option_bind] in Hf.
    destruct (st_status t) eqn:Hst; [|done..]. case_decide; [done|].
    destruct (st_kind t); [|case_decide; [done|]]; injection Hf as <- <-; eexists; (split; [done|]); (split; [done|]); [by intros|].
    intros _. by exists t. }
  destruct Hs as (t'&Hin&->&Hrun).
  assert (Hsub : ∀ r, scheduled (Build_SchedulerImpl (sch_tasks s) (sch_next_id s) (<[i := t']> (sch_spawned s))) r → scheduled s r).
  { intros [j h] (t&Ht&Hr&Hh). cbn [fst snd sch_spawned] in *. subst h.
    apply list_lookup_insert_Some in Ht as [(->&<-&_)|[_ Ht]]; [by apply Hrun|by exists t]. }
  split; [|done]. split; cbn [sch_tasks sch_next_id]; [|done..]. intros j h ?%Hsub. by apply Hl.
Qed.
End scheduler_tracked.
Arguments schedule_req : clear implicits.

(** *** The event bus *)

Section bus_tracked.
Context {TypeId Event : Type} `{!EqDecision TypeId}.
Context {HM PM : Type}.
Context `{!DashMap TypeId (list (HandlerEntry Event)) HM}.
Context `{!DashMap PacketKey (list (HandlerEntry RawPacketEvent)) PM}.
Context `{HL : !DashMapLaws TypeId (list (HandlerEntry Event)) HM}.
Context `{PL : !DashMapLaws PacketKey (list (HandlerEntry RawPacketEvent)) PM}.

Abbreviation bus := (EventBusImpl (HM := HM) (PM := PM)).
Inductive listen_req :=
| LEvent (event_type : TypeId) (priority : Z) (kind : HandlerKind Event)
| LPacket (filter : PacketKey) (priority : Z) (kind : HandlerKind RawPacketEvent).
Abbreviation listener := (TypeId * HandlerEntry Event + PacketKey * HandlerEntry RawPacketEvent)%type.

Definition listen (req : listen_req) (b : bus) : Z * bus :=
  match req with
  | LEvent ty p k => subscribe ty p k b
  | LPacket key p k => subscribe_packet key p k b
  end.
Definition listening (b : bus) (l : listener) : Prop :=
  match l with
  | inl (ty, e) => e ∈ listeners (eb_handlers b) ty
  | inr (key, e) => e ∈ listeners (eb_packet_handlers b) key
  end.
Definition listener_handle (l : listener) : Z :=
  match l with inl (_, e) => he_handle e | inr (_, e) => he_handle e end.

#[export] Instance bus_tracked : Tracked bus listen_req Z listener := {|
  tr_register := listen;
  tr_release := unsubscribe;
  tr_live := listening;
  tr_held h l := listener_handle l = h;
  tr_wf n b := ∃ s, bus_sim n b s |}.

(** What listens is what the contract of the bus lists. *)
Lemma listening_spec n (b : bus) (s : BusSpec (TypeId := TypeId) (Event := Event)) l :
  bus_sim n b s →
  listening b l ↔ match l with inl x => x ∈ bs_events s | inr x => x ∈ bs_packets s end.
Proof using Type. intros Hs. destruct l as [[ty e]|[key e]]; [apply (sim_events _ _ _ Hs)|apply (sim_packets _ _ _ Hs)]. Qed.

Lemma bus_sim_unsubscribe n (b : bus) (s : BusSpec (TypeId := TypeId) (Event := Event)) h :
  n + 1 < 2 ^ 64 - 1 → bus_sim n b s → bus_sim n (unsubscribe h b) (spec_step s (OpUnsubscribe h)).
Proof using HL PL.
  intros Hn Hs. destruct (bus_sim_step n b s (OpUnsubscribe h) Hn Hs) as [? ? ? ? ? ? _].
  split; [done..|]. cbn [spec_step bs_next bs_packets]. destruct (sim_bound _ _ _ Hs) as [Hb Hp]. split; [done|].
  pose proof (length_filter (λ y : PacketKey * HandlerEntry RawPacketEvent, he_handle y.2 ≠ h) (bs_packets s)).
  unfold zlen in *. lia.
Qed.

#[export] Instance bus_tracked_laws : TrackedLaws bus listen_req Z listener.
Proof using HL PL.
  split.
  - intros n req b Hn [s Hs]. cbn [tr_wf tr_register tr_live tr_held bus_tracked].
    set (op := match req with LEvent ty p k => OpSubscribe ty p k | LPacket key p k => OpSubscribePacket key p k end).
    assert (Hop : (listen req b).2 = bus_step b op) by by destruct req. rewrite Hop.
    pose proof (bus_sim_step n b s op Hn Hs) as Hs'. split; [by eexists|].
    intros l. rewrite (listening_spec _ _ _ _ Hs'), (listening_spec _ _ _ _ Hs).
    assert (Hh : (listen req b).1 = bs_next s) by (rewrite <- (sim_next _ _ _ Hs); by destruct req).
    rewrite Hh. destruct req, l as [x|x]; cbn [op spec_step bs_events bs_packets];
      rewrite ?elem_of_app, ?list_elem_of_singleton; (intros [?| ->] || intros ?); auto.
  - intros n h b Hn [s Hs]. cbn [tr_wf tr_release tr_live tr_held bus_tracked].
    pose proof (bus_sim_unsubscribe n b s h Hn Hs) as Hs'. split; [by eexists|].
    intros l. rewrite (listening_spec _ _ _ _ Hs'), (listening_spec _ _ _ _ Hs).
    destruct l as [[ty e]|[key e]]; cbn [spec_step bs_events bs_packets listener_handle];
      rewrite list_elem_of_filter; cbn [snd]; intros [? ?]; done.
  - intros n m b Hnm [s [? ? ? ? ? ? []]]. exists s. split; [done..|lia].
Qed.
End bus_tracked.
Arguments listen_req : clear implicits.

(** *** The command manager *)

Section commands_tracked.
Context `{LC : Lowercase} {H : Type}.

Record command_req := {
  cr_name : rstring;
  cr_aliases : list rstring;
  cr_description : rstring;
  cr_handler : H;
  cr_plugin_id : rstring }.

(** The wrapper keeps the name, whether or not the manager took the command. *)
Definition register_req (req : command_req) (m : CommandManagerImpl H) : rstring * CommandManagerImpl H :=
  (cr_name req,
   register_with_plugin_id (cr_name req) (cr_aliases req) (cr_description req) (cr_handler req)
     (cr_plugin_id req) m).

#[export] Instance commands_tracked :
  Tracked (CommandManagerImpl H) command_req rstring (rstring * RegisteredCommand H) := {|
  tr_register := register_req;
  tr_release := unregister_command;
  tr_live m c := cmgr_commands m !! c.1 = Some c.2;
  tr_held name c := c.1 = to_lowercase name;
  tr_wf _ _ := True |}.

#[export] Instance commands_tracked_laws :
  TrackedLaws (CommandManagerImpl H) command_req rstring (rstring * RegisteredCommand H).
Proof.
  split; [| |done].
  - intros n req m _ _. split; [done|]. intros [k c].
    cbn [tr_register tr_live tr_held commands_tracked register_req fst snd]. unfold register_with_plugin_id.
    destruct (match cmgr_commands m !! _ with Some _ => _ | None => _ end); [by left|].
    cbn [insert_command unregister_command cmgr_commands].
    intros [[<- _]|[_ [_ ?]%lookup_delete_Some]]%lookup_insert_Some; [by right|by left].
  - intros n name m _ _. split; [done|]. intros [k c].
    cbn [tr_release tr_live tr_held commands_tracked unregister_command cmgr_commands fst snd].
    intros [Hne ?]%lookup_delete_Some. split; [done|]. congruence.
Qed.
End commands_tracked.
Arguments command_req : clear implicits.

(** *** The router *)

Section router_tracked.
Context `{IPN : IpNets} `{LC : Lowercase} `{WM : WildMatch}.
Context {CM EM : Type} `{!DashMap ProviderId RouterEntry CM} `{!DashMap rstring ProviderId EM}.
Context `{CL : !DashMapLaws ProviderId RouterEntry CM} `{EL : !DashMapLaws rstring ProviderId EM}.

Abbreviation router := (DomainRouter (CM := CM) (EM := EM)).
Definition routed (r : router) (id : ProviderId) : Prop := is_Some (dm_get (configs r) id).

#[export] Instance router_tracked : Tracked router (ProviderId * ServerConfig) ProviderId ProviderId := {|
  tr_register req r := (req.1, add req.1 req.2 r);
  tr_release := remove;
  tr_live := routed;
  tr_held id id' := id' = id;
  tr_wf _ _ := True |}.

Lemma add_configs id config (r : router) :
  ∃ e, configs (add id config r) = dm_insert id e (configs r).
Proof using Type.
  unfold add. destruct (register_domains _ _ _ _ _) as [[ex reg] w].
  eexists. destruct w; reflexivity.
Qed.
Lemma remove_configs id (r : router) :
  configs (remove id r) = configs r ∧ dm_get (configs r) id = None ∨ configs (remove id r) = dm_remove id (configs r).
Proof using Type.
  unfold remove. destruct (dm_get (configs r) id) as [e|]; [right|by left].
  destruct (unregister_domains _ _ _ _) as [ex w]. by destruct w.
Qed.

#[export] Instance router_tracked_laws : TrackedLaws router (ProviderId * ServerConfig) ProviderId ProviderId.
Proof using CL.
  split; [| |done].
  - intros n [id c] r _ _. split; [done|]. intros id'. cbn [tr_register tr_live tr_held router_tracked fst snd].
    unfold routed. destruct (add_configs id c r) as [e ->]. rewrite dm_get_insert. case_decide; [by right|by left].
  - intros n id r _ _. split; [done|]. intros id'. cbn [tr_release tr_live tr_held router_tracked].
    unfold routed. destruct (remove_configs id r) as [[-> Hn]| ->].
    + intros Hs. split; [done|]. intros ->. rewrite Hn in Hs. by destruct Hs.
    + rewrite dm_get_remove. case_decide; [by intros []|done].
Qed.
End router_tracked.

(** ** Services that plugins use *)

(** The contexts of the plugins, each with the handles [proj] that it keeps for the service. *)
Section tracking.
Context {S Req Hd Res C : Type} `{!Tracked S Req Hd Res} `{TL : !TrackedLaws S Req Hd Res}.
Context (proj : C → list Hd) (base : Res → Prop).

(** All that the service holds is not the plugins' ([base]) or is held by a plugin that can be
    made to release it. *)
Definition accounted (contexts : gmap rstring C) (s : S) : Prop :=
  ∀ r, tr_live s r → base r ∨ ∃ id c h, contexts !! id = Some c ∧ h ∈ proj c ∧ tr_held h r.
Definition tracked_inv (n : Z) (contexts : gmap rstring C) (s : S) : Prop := tr_wf n s ∧ accounted contexts s.

(** [cleanup] for this service. *)
Definition release_all (hs : list Hd) (s : S) : S := foldl (λ s h, tr_release h s) s hs.

Lemma tracked_start n s : tr_wf n s → (∀ r, tr_live s r → base r) → tracked_inv n ∅ s.
Proof using Type. intros. split; [done|]. intros r Hr. left. auto. Qed.

(** The service changes and so do the contexts: what was accounted for still is. *)
Lemma tracked_update n m cs cs' s s' :
  tr_wf m s' → (∀ r, tr_live s' r → tr_live s r ∨ base r ∨ ∃ id c h, cs' !! id = Some c ∧ h ∈ proj c ∧ tr_held h r) →
  (∀ id c h r, tr_live s' r → tr_held h r → cs !! id = Some c → h ∈ proj c → ∃ c', cs' !! id = Some c' ∧ h ∈ proj c') →
  tracked_inv n cs s → tracked_inv m cs' s'.
Proof using Type.
  intros Hwf Hlive Hcs [_ Hacc]. split; [done|]. intros r Hr. destruct (Hlive r Hr) as [Hs|?]; [|done].
  destruct (Hacc r Hs) as [?|(id&c&h&Hid&Hin&Hh)]; [by left|].
  destruct (Hcs id c h r Hr Hh Hid Hin) as (c'&?&?). right. by exists id, c', h.
Qed.

Lemma tracked_mono n m cs s : n ≤ m → tracked_inv n cs s → tracked_inv m cs s.
Proof using TL. intros Hnm [? ?]. split; [by eapply tr_wf_mono|done]. Qed.

(** The handles of a plugin change without being lost. *)
Lemma tracked_keep n cs s id c' :
  (∀ c h, cs !! id = Some c → h ∈ proj c → h ∈ proj c') →
  tracked_inv n cs s → tracked_inv n (<[id := c']> cs) s.
Proof using Type.
  intros Hc Hi. eapply tracked_update; [apply Hi|by left| |exact Hi].
  intros id' c h r _ _ Hid Hh. destruct (decide (id = id')) as [<-|Hne].
  - exists c'. rewrite lookup_insert_eq. eauto.
  - exists c. by rewrite lookup_insert_ne.
Qed.

Lemma tracked_register n cs s id c c' req :
  n + 1 < 2 ^ 64 - 1 → cs !! id = Some c → proj c' = proj c ++ [(tr_register req s).1] →
  tracked_inv n cs s → tracked_inv (n + 1) (<[id := c']> cs) (tr_register req s).2.
Proof using TL.
  intros Hn Hid Hp Hi. destruct (tr_register_ok n req s Hn (proj1 Hi)) as [Hwf Hlive].
  apply (tracked_update n _ (<[id := c']> cs) _ s); [done| | |].
  - intros r [?|?]%Hlive; [by left|]. right. right. exists id, c', (tr_register req s).1.
    rewrite lookup_insert_eq, Hp, elem_of_app, list_elem_of_singleton. auto.
  - intros id' d h r _ _ Hlk Hh. by exists d.
  - apply tracked_keep; [|done]. intros d h. rewrite Hid. intros [= <-] Hh. rewrite Hp. apply elem_of_app. by left.
Qed.

Lemma tracked_release n cs s h :
  n + 1 < 2 ^ 64 - 1 → tracked_inv n cs s → tracked_inv n cs (tr_release h s).
Proof using TL.
  intros Hn Hi. destruct (tr_release_ok n h s Hn (proj1 Hi)) as [Hwf Hlive].
  eapply tracked_update; [done| | |exact Hi]; [intros r [? _]%Hlive; by left|]. eauto.
Qed.

Lemma release_all_ok n hs s :
  n + 1 < 2 ^ 64 - 1 → tr_wf n s →
  tr_wf n (release_all hs s) ∧ ∀ r, tr_live (release_all hs s) r → tr_live s r ∧ ∀ h, h ∈ hs → ¬ tr_held h r.
Proof using TL.
  intros Hn. unfold release_all. revert s. induction hs as [|h hs IH]; intros s Hwf; cbn [foldl].
  { split; [done|]. intros r Hr. split; [done|]. by intros h ?%not_elem_of_nil. }
  destruct (tr_release_ok n h s Hn Hwf) as [Hwf1 Hl1]. destruct (IH _ Hwf1) as [Hwf2 Hl2].
  split; [done|]. intros r Hr. destruct (Hl2 r Hr) as [Hr1 Hhs]. destruct (Hl1 r Hr1) as [? ?].
  split; [done|]. intros h' [->|?]%elem_of_cons; [done|by apply Hhs].
Qed.

(** After a cleanup the plugin has nothing left, whatever becomes of its context. *)
Lemma tracked_cleanup n cs cs' s id c :
  n + 1 < 2 ^ 64 - 1 → cs !! id = Some c → (∀ id', id' ≠ id → cs' !! id' = cs !! id') →
  tracked_inv n cs s → tracked_inv n cs' (release_all (proj c) s).
Proof using TL.
  intros Hn Hid Hcs Hi. destruct (release_all_ok n (proj c) s Hn (proj1 Hi)) as [Hwf Hlive].
  eapply tracked_update; [done| | |exact Hi]; [intros r [? _]%Hlive; by left|].
  intros id' d h r Hr Hh Hlk Hin. destruct (decide (id' = id)) as [->|Hne].
  - rewrite Hid in Hlk. injection Hlk as <-. by destruct (proj2 (Hlive r Hr) h Hin).
  - exists d. by rewrite Hcs.
Qed.

(** A context that holds nothing can go. *)
Lemma tracked_drop n cs s id c :
  cs !! id = Some c → proj c = [] → tracked_inv n cs s → tracked_inv n (delete id cs) s.
Proof using Type.
  intros Hid Hp Hi. eapply tracked_update; [apply Hi|by left| |exact Hi].
  intros id' d h r _ _ Hlk Hin. exists d. split; [|done]. rewrite lookup_delete_ne; [done|]. intros <-.
  rewrite Hid in Hlk. injection Hlk as <-. rewrite Hp in Hin. by apply not_elem_of_nil in Hin.
Qed.

(** When no plugin holds anything, what is there is not the plugins'. *)
Lemma tracked_done n cs s :
  (∀ id c, cs !! id = Some c → proj c = []) → tracked_inv n cs s → ∀ r, tr_live s r → base r.
Proof using Type.
  intros Hcs [_ Hacc] r Hr. destruct (Hacc r Hr) as [?|(id&c&h&Hid&Hin&_)]; [done|].
  rewrite (Hcs _ _ Hid) in Hin. by apply not_elem_of_nil in Hin.
Qed.
End tracking.

(** ** A limit: a task that has run stays in the map *)

(** A delayed task takes itself out of the copy of the map that was made when it was
    scheduled, not out of the map: once it has run its entry is still there. *)
Theorem finished_task_stays_listed {Task} (now duration now' : Z) (task : Task) (s s' : SchedulerImpl Task) :
  let '(handle, s1) := delay now duration task s in
  fire_task now' (length (sch_spawned s)) s1 = Some (task, s') →
  sch_tasks s' !! handle = Some (length (sch_spawned s)) ∧ ∀ i, ¬ scheduled s' (length (sch_spawned s), i).
Proof.
  cbn [delay task_handle spawn_task sch_spawned sch_tasks sch_next_id]. unfold fire_task, spawn_task. cbn [sch_spawned sch_tasks sch_next_id].
  rewrite lookup_app_r, Nat.sub_diag by lia. cbn [lookup list_lookup]. cbv [mbind option_bind]. cbn [st_status st_due st_kind st_task st_handle].
  case_decide; [done|]. intros [= <-]. cbn [sch_tasks]. split; [apply lookup_insert_eq|].
  intros i (t&Ht&Hr&_). cbn [fst sch_spawned] in Ht.
  rewrite list_lookup_insert_eq in Ht by (rewrite length_app; cbn; lia). by injection Ht as <-.
Qed.
