(* ===== verification/Plugins.v ===== *)
(** * Plugins: contexts and the life of a plugin

    Models [plugin/context.rs], [plugin/context_factory.rs], [plugin/manager.rs],
    [plugin/static_loader.rs], [plugin/plugin_registry_impl.rs], [provider/plugin_adapter.rs],
    [services/config_service.rs], and from main.rs what is done with plugins at start and at
    shutdown.  A plugin is what it does in [on_enable] and [on_disable]: a script of calls to
    its context, each of which may depend on the replies before.  The shared services are
    those of [EventBus], [ProxyCommands], [Router], [Filters] and [Tracking]; the contexts,
    which the manager and the plugins share, live in a store.  A log records what was called
    and in which order. *)
From S2P Require Import Prelude Utf8 Version Packet Config Router Ordering EventBus Filters ProxyCommands Tracking.

(** ** What plugins see of a server *)

Inductive ApiProxyMode := ApiPassthrough | ApiZeroCopy | ApiClientOnly | ApiOffline | ApiServerOnly.
Record ApiServerConfig := {
  ac_id : rstring;
  ac_network : option rstring;
  ac_addresses : list ServerAddress;
  ac_domains : list rstring;
  ac_proxy_mode : ApiProxyMode;
  ac_limbo_handlers : list rstring;
  ac_max_players : Z;
  ac_disconnect_message : option rstring;
  ac_send_proxy_protocol : bool;
  ac_has_server_manager : bool }.

(** A mode the plugin API does not have is shown as passthrough. *)
Definition api_proxy_mode (m : ProxyMode) : ApiProxyMode :=
  match m with
  | Passthrough => ApiPassthrough | ZeroCopy => ApiZeroCopy | ClientOnly => ApiClientOnly
  | Offline => ApiOffline | ServerOnly => ApiServerOnly
  | Full => ApiPassthrough
  end.

Section api.
Context `{IPN : IpNets}.
Definition convert_config (id : rstring) (c : ServerConfig) : ApiServerConfig :=
  Build_ApiServerConfig id (sc_network c) (sc_addresses c) (sc_domains c)
    (api_proxy_mode (sc_proxy_mode c)) (sc_limbo_handlers c) (sc_max_players c)
    (sc_disconnect_message c) (sc_send_proxy_protocol c)
    (match sc_server_manager c with Some _ => true | None => false end).

Definition api_mode_to_config (m : ApiProxyMode) : ProxyMode :=
  match m with
  | ApiPassthrough => Passthrough | ApiZeroCopy => ZeroCopy | ApiClientOnly => ClientOnly
  | ApiOffline => Offline | ApiServerOnly => ServerOnly
  end.

Definition convert_api_to_config (api : ApiServerConfig) : ServerConfig :=
  Build_ServerConfig (Some (ac_id api)) None (ac_network api) (ac_domains api) (ac_addresses api)
    (api_mode_to_config (ac_proxy_mode api)) None (ac_send_proxy_protocol api) RewriteNone
    MotdConfig_default None None (ac_max_players api) None (ac_disconnect_message api)
    (ac_limbo_handlers api).
End api.

(** ** Errors of loaders *)

Inductive LoaderError :=
| DirectoryNotAccessible (path : rstring)
| PluginNotFound (plugin_id : rstring)
| InvalidFormat (path reason : rstring)
| LoadFailed (plugin_id reason : rstring)
| UnloadFailed (plugin_id reason : rstring)
| DuplicateId (plugin_id first second : rstring).

Definition LoaderError_fmt (e : LoaderError) : rstring :=
  match e with
  | DirectoryNotAccessible path => str "plugin directory not accessible: " ++ path
  | PluginNotFound id => str "plugin not found: " ++ id
  | InvalidFormat path reason => str "invalid plugin format at " ++ path ++ str ": " ++ reason
  | LoadFailed id reason => str "failed to load plugin '" ++ id ++ str "': " ++ reason
  | UnloadFailed id reason => str "failed to unload plugin '" ++ id ++ str "': " ++ reason
  | DuplicateId id first second =>
    str "duplicate plugin id '" ++ id ++ str "' (found in loader '" ++ first ++ str "' and '" ++
    second ++ str "')"
  end.

Definition PluginError_fmt (e : PluginError) : rstring :=
  match e with
  | InitFailed msg => str "plugin initialization failed: " ++ msg
  | PluginCustom msg => msg
  end.

(** The state of a plugin. *)
Inductive PluginState := PLoading | PEnabled | PDisabled | PError (msg : rstring).
#[export] Instance PluginState_eq_dec : EqDecision PluginState.
Proof. solve_decision. Defined.

(** The permissions of a plugin, and the capabilities they give. *)
Record PluginPermissions := { pp_permissions : list rstring; pp_trusted : bool }.
Definition PluginPermissions_default : PluginPermissions := Build_PluginPermissions [] false.

Definition capabilities_of (perms : PluginPermissions) : list Capability :=
  if pp_trusted perms then native_trusted else (from_config_strings (pp_permissions perms)).1.

(** The permissions main.rs builds: those of the configuration, plugins that are compiled in
    being trusted. *)
Definition plugin_permissions (configs : list (rstring * list rstring)) (static_ids : list rstring)
    : gmap rstring PluginPermissions :=
  foldl (λ m id,
    <[id := match m !! id with
            | Some p => Build_PluginPermissions (pp_permissions p) true
            | None => Build_PluginPermissions [] true
            end]> m)
    (list_to_map (reverse ((λ e, (e.1, Build_PluginPermissions e.2 false)) <$> configs))) static_ids.

Section plugins.
Context {TypeId Event : Type} `{!EqDecision TypeId}.
Context {HM PM : Type} `{!DashMap TypeId (list (HandlerEntry Event)) HM}.
Context `{!DashMap PacketKey (list (HandlerEntry RawPacketEvent)) PM}.
Context `{IPN : IpNets} `{LC : Lowercase} `{WM : WildMatch}.
Context {CM EM : Type} `{!DashMap ProviderId RouterEntry CM} `{!DashMap rstring ProviderId EM}.
(** Command handlers, tasks, limbo handlers and filters are the plugins'. *)
Context {H Task Handler CodecFactory TransportFilter : Type}.
Context (codec_metadata : CodecFactory → FilterMetadata) (transport_metadata : TransportFilter → FilterMetadata).
Context (ord : gmap rstring Z → list (rstring * Z)).

(** ** The services that plugins share *)

(** [ps_now] is the clock; the tokens that were handed out are numbered. *)
Record PluginServices := {
  ps_bus : EventBusImpl (HM := HM) (PM := PM);
  ps_commands : CommandManagerImpl H;
  ps_scheduler : SchedulerImpl Task;
  ps_router : DomainRouter (CM := CM) (EM := EM);
  ps_codec_filters : FilterRegistryBase (F := CodecFactory);
  ps_transport_filters : FilterRegistryBase (F := TransportFilter);
  ps_next_token : Z;
  ps_cancelled : gset Z;
  ps_now : Z }.

Definition with_bus b (s : PluginServices) := Build_PluginServices b (ps_commands s) (ps_scheduler s)
  (ps_router s) (ps_codec_filters s) (ps_transport_filters s) (ps_next_token s) (ps_cancelled s) (ps_now s).
Definition with_commands m (s : PluginServices) := Build_PluginServices (ps_bus s) m (ps_scheduler s)
  (ps_router s) (ps_codec_filters s) (ps_transport_filters s) (ps_next_token s) (ps_cancelled s) (ps_now s).
Definition with_scheduler sch (s : PluginServices) := Build_PluginServices (ps_bus s) (ps_commands s) sch
  (ps_router s) (ps_codec_filters s) (ps_transport_filters s) (ps_next_token s) (ps_cancelled s) (ps_now s).
Definition with_router r (s : PluginServices) := Build_PluginServices (ps_bus s) (ps_commands s) (ps_scheduler s)
  r (ps_codec_filters s) (ps_transport_filters s) (ps_next_token s) (ps_cancelled s) (ps_now s).
Definition with_codec f (s : PluginServices) := Build_PluginServices (ps_bus s) (ps_commands s) (ps_scheduler s)
  (ps_router s) f (ps_transport_filters s) (ps_next_token s) (ps_cancelled s) (ps_now s).
Definition with_transport f (s : PluginServices) := Build_PluginServices (ps_bus s) (ps_commands s) (ps_scheduler s)
  (ps_router s) (ps_codec_filters s) f (ps_next_token s) (ps_cancelled s) (ps_now s).
Definition with_tokens next cancelled (s : PluginServices) := Build_PluginServices (ps_bus s) (ps_commands s)
  (ps_scheduler s) (ps_router s) (ps_codec_filters s) (ps_transport_filters s) next cancelled (ps_now s).
Definition at_time now (s : PluginServices) := Build_PluginServices (ps_bus s) (ps_commands s) (ps_scheduler s)
  (ps_router s) (ps_codec_filters s) (ps_transport_filters s) (ps_next_token s) (ps_cancelled s) now.

(** A provider of configurations; what its [watch] sends later are events of the router. *)
Record PluginConfigProvider := {
  pcp_type : rstring;
  pcp_load_initial : result PluginError (list ApiServerConfig) }.

(** ** The context of a plugin *)

Record PluginContextImpl := {
  pc_plugin_id : rstring;
  pc_capabilities : list Capability;
  pc_limbo_handlers : list Handler;
  pc_config_providers : list PluginConfigProvider;
  pc_handles : list Z;
  pc_commands : list rstring;
  pc_tasks : list Z;
  pc_provider_ids : list ProviderId;
  pc_provider_tokens : list Z }.

Definition context_new (plugin_id : rstring) (capabilities : list Capability) : PluginContextImpl :=
  Build_PluginContextImpl plugin_id capabilities [] [] [] [] [] [] [].

Definition push_handle h (c : PluginContextImpl) := Build_PluginContextImpl (pc_plugin_id c) (pc_capabilities c)
  (pc_limbo_handlers c) (pc_config_providers c) (pc_handles c ++ [h]) (pc_commands c) (pc_tasks c)
  (pc_provider_ids c) (pc_provider_tokens c).
Definition push_command n (c : PluginContextImpl) := Build_PluginContextImpl (pc_plugin_id c) (pc_capabilities c)
  (pc_limbo_handlers c) (pc_config_providers c) (pc_handles c) (pc_commands c ++ [n]) (pc_tasks c)
  (pc_provider_ids c) (pc_provider_tokens c).
Definition push_task t (c : PluginContextImpl) := Build_PluginContextImpl (pc_plugin_id c) (pc_capabilities c)
  (pc_limbo_handlers c) (pc_config_providers c) (pc_handles c) (pc_commands c) (pc_tasks c ++ [t])
  (pc_provider_ids c) (pc_provider_tokens c).

(** [register_limbo_handler]: refused without the capability. *)
Definition ctx_register_limbo_handler (handler : Handler) (c : PluginContextImpl) : PluginContextImpl :=
  if decide (CapLimbo ∈ pc_capabilities c)
  then Build_PluginContextImpl (pc_plugin_id c) (pc_capabilities c) (pc_limbo_handlers c ++ [handler])
         (pc_config_providers c) (pc_handles c) (pc_commands c) (pc_tasks c) (pc_provider_ids c)
         (pc_provider_tokens c)
  else c.
Definition register_config_provider (p : PluginConfigProvider) (c : PluginContextImpl) : PluginContextImpl :=
  Build_PluginContextImpl (pc_plugin_id c) (pc_capabilities c) (pc_limbo_handlers c)
    (pc_config_providers c ++ [p]) (pc_handles c) (pc_commands c) (pc_tasks c) (pc_provider_ids c)
    (pc_provider_tokens c).
Definition take_limbo_handlers (c : PluginContextImpl) : list Handler * PluginContextImpl :=
  (pc_limbo_handlers c, Build_PluginContextImpl (pc_plugin_id c) (pc_capabilities c) []
    (pc_config_providers c) (pc_handles c) (pc_commands c) (pc_tasks c) (pc_provider_ids c)
    (pc_provider_tokens c)).
Definition take_config_providers (c : PluginContextImpl) : list PluginConfigProvider * PluginContextImpl :=
  (pc_config_providers c, Build_PluginContextImpl (pc_plugin_id c) (pc_capabilities c)
    (pc_limbo_handlers c) [] (pc_handles c) (pc_commands c) (pc_tasks c) (pc_provider_ids c)
    (pc_provider_tokens c)).
Definition register_active_provider_ids (ids : list ProviderId) (c : PluginContextImpl) : PluginContextImpl :=
  Build_PluginContextImpl (pc_plugin_id c) (pc_capabilities c) (pc_limbo_handlers c)
    (pc_config_providers c) (pc_handles c) (pc_commands c) (pc_tasks c) (pc_provider_ids c ++ ids)
    (pc_provider_tokens c).
Definition register_provider_token (token : Z) (c : PluginContextImpl) : PluginContextImpl :=
  Build_PluginContextImpl (pc_plugin_id c) (pc_capabilities c) (pc_limbo_handlers c)
    (pc_config_providers c) (pc_handles c) (pc_commands c) (pc_tasks c) (pc_provider_ids c)
    (pc_provider_tokens c ++ [token]).

(** What the wrappers kept is taken out and released: listeners, commands, tasks, the tokens
    of the watches, and the configurations that were loaded. *)
Definition cleanup (c : PluginContextImpl) (s : PluginServices) : PluginContextImpl * PluginServices :=
  let s := with_bus (foldl (λ b handle, unsubscribe handle b) (ps_bus s) (pc_handles c)) s in
  let s := with_commands (foldl (λ m cmd, unregister_command cmd m) (ps_commands s) (pc_commands c)) s in
  let s := with_scheduler (foldl (λ sch task, cancel_task task sch) (ps_scheduler s) (pc_tasks c)) s in
  let s := with_tokens (ps_next_token s)
             (foldl (λ cancelled token, {[token]} ∪ cancelled) (ps_cancelled s) (pc_provider_tokens c)) s in
  let s := with_router (foldl (λ r pid, remove pid r) (ps_router s) (pc_provider_ids c)) s in
  (Build_PluginContextImpl (pc_plugin_id c) (pc_capabilities c) (pc_limbo_handlers c)
     (pc_config_providers c) [] [] [] [] [], s).

(** *** What a plugin may do through its context *)

Inductive context_call :=
| CListen (req : listen_req TypeId Event)
| CUnsubscribe (handle : Z)
| CHasPacketListeners (packet_id : Z) (state : ApiConnectionState) (direction : PacketDirection)
| CRegisterCommand (name : rstring) (aliases : list rstring) (description : rstring) (handler : H)
| CUnregisterCommand (name : rstring)
| CDelay (duration : Z) (task : Task)
| CInterval (period : Z) (task : Task)
| CIntervalWithDelay (period delay : Z) (task : Task)
| CCancelTask (handle : Z)
| CRegisterLimboHandler (handler : Handler)
| CRegisterConfigProvider (provider : PluginConfigProvider)
| CRegisterCodecFilter (f : CodecFactory)
| CUnregisterCodecFilter (id : rstring)
| CRegisterTransportFilter (f : TransportFilter)
| CUnregisterTransportFilter (id : rstring).

(** The reply of a call, a handle or a flag, and what it changes.  The filter registries are
    there for plugins with the capability only. *)
Definition call_context (call : context_call) (c : PluginContextImpl) (s : PluginServices)
    : Z * PluginContextImpl * PluginServices :=
  let schedule_with req :=
    let '(task, sch) := schedule req (ps_scheduler s) in (task, push_task task c, with_scheduler sch s) in
  let codec f := if decide (CapCodecFilter ∈ pc_capabilities c)
    then (1, c, with_codec (f (ps_codec_filters s)) s) else (0, c, s) in
  let transport f := if decide (CapTransportFilter ∈ pc_capabilities c)
    then (1, c, with_transport (f (ps_transport_filters s)) s) else (0, c, s) in
  match call with
  | CListen req => let '(handle, b) := listen req (ps_bus s) in (handle, push_handle handle c, with_bus b s)
  | CUnsubscribe handle => (0, c, with_bus (unsubscribe handle (ps_bus s)) s)
  | CHasPacketListeners id st dir => (if has_packet_listeners id st dir (ps_bus s) then 1 else 0, c, s)
  | CRegisterCommand name aliases description handler =>
    (0, push_command name c,
     with_commands (register_with_plugin_id name aliases description handler (pc_plugin_id c) (ps_commands s)) s)
  | CUnregisterCommand name => (0, c, with_commands (unregister_command name (ps_commands s)) s)
  | CDelay duration task => schedule_with (SDelay (ps_now s) duration task)
  | CInterval period task => schedule_with (SInterval (ps_now s) period task)
  | CIntervalWithDelay period d task => schedule_with (SIntervalWithDelay (ps_now s) period d task)
  | CCancelTask handle => (0, c, with_scheduler (cancel_task handle (ps_scheduler s)) s)
  | CRegisterLimboHandler handler => (0, ctx_register_limbo_handler handler c, s)
  | CRegisterConfigProvider p => (0, register_config_provider p c, s)
  | CRegisterCodecFilter f => codec (register_filter codec_metadata ord f)
  | CUnregisterCodecFilter id => codec (unregister_filter codec_metadata ord id)
  | CRegisterTransportFilter f => transport (register_filter transport_metadata ord f)
  | CUnregisterTransportFilter id => transport (unregister_filter transport_metadata ord id)
  end.

(** ** Plugins and loaders *)

(** What a plugin does, each call after the reply of the one before. *)
Inductive PluginScript :=
| PReturn (r : result PluginError ())
| PCall (call : context_call) (k : Z → PluginScript).

Record Plugin := {
  pl_metadata : PluginMetadata;
  pl_on_enable : PluginScript;
  pl_on_disable : PluginScript }.

(** A loader by what it answers. *)
Record PluginLoader := {
  ld_name : rstring;
  ld_discover : result LoaderError (list PluginMetadata);
  ld_on_load : result LoaderError ();
  ld_load : rstring → result LoaderError Plugin;
  ld_unload : rstring → result LoaderError ();
  ld_on_shutdown : result LoaderError () }.

(** [StaticPluginLoader]: the plugins that are compiled in, by their identifiers.  A second
    registration under the same identifier is a panic. *)
Abbreviation Factories := (gmap rstring (PluginMetadata * Plugin)).
Definition static_register (metadata : PluginMetadata) (create : Plugin) (factories : Factories)
    : option Factories :=
  let id := pm_id metadata in
  match factories !! id with
  | Some _ => None
  | None => Some (<[id := (metadata, create)]> factories)
  end.
Definition static_loader (factories : Factories) : PluginLoader := {|
  ld_name := str "static";
  ld_discover := Ok ((λ e, e.2.1) <$> map_to_list factories);
  ld_on_load := Ok ();
  ld_load id := match factories !! id with Some f => Ok f.2 | None => Err (PluginNotFound id) end;
  ld_unload _ := Ok ();
  ld_on_shutdown := Ok () |}.

(** What was called. *)
Inductive plugin_event :=
| EvOnLoad (loader : rstring)
| EvLoad (loader plugin_id : rstring)
| EvEnable (plugin_id : rstring)
| EvCall (plugin_id : rstring) (call : context_call)
| EvDisable (plugin_id : rstring)
| EvCleanup (plugin_id : rstring)
| EvUnload (loader plugin_id : rstring)
| EvShutdown (loader : rstring).

(** The services, the contexts that are alive and the log. *)
Record PluginWorld := {
  pw_services : PluginServices;
  pw_contexts : gmap rstring PluginContextImpl;
  pw_log : list plugin_event }.
Definition log (e : plugin_event) (w : PluginWorld) : PluginWorld :=
  Build_PluginWorld (pw_services w) (pw_contexts w) (pw_log w ++ [e]).

(** A call of plugin [id] through its context. *)
Definition plugin_call (id : rstring) (call : context_call) (w : PluginWorld) : Z * PluginWorld :=
  match pw_contexts w !! id with
  | Some c =>
    let '(reply, c, s) := call_context call c (pw_services w) in
    (reply, Build_PluginWorld s (<[id := c]> (pw_contexts w)) (pw_log w ++ [EvCall id call]))
  | None => (0, w)
  end.
Fixpoint run_plugin (id : rstring) (script : PluginScript) (w : PluginWorld) : result PluginError () * PluginWorld :=
  match script with
  | PReturn r => (r, w)
  | PCall call k => let '(reply, w) := plugin_call id call w in run_plugin id (k reply) w
  end.

(** [ctx_impl.cleanup()] for the context of [id]. *)
Definition cleanup_context (id : rstring) (w : PluginWorld) : PluginWorld :=
  match pw_contexts w !! id with
  | Some c =>
    let '(c, s) := cleanup c (pw_services w) in
    Build_PluginWorld s (<[id := c]> (pw_contexts w)) (pw_log w ++ [EvCleanup id])
  | None => w
  end.

(** ** The factory of contexts *)

Context (plugin_configs : gmap rstring PluginPermissions).

(** A context that is alive is used again. *)
Definition create_context (plugin_id : rstring) (w : PluginWorld) : PluginWorld :=
  match pw_contexts w !! plugin_id with
  | Some _ => w
  | None =>
    let perms := default PluginPermissions_default (plugin_configs !! plugin_id) in
    Build_PluginWorld (pw_services w)
      (<[plugin_id := context_new plugin_id (capabilities_of perms)]> (pw_contexts w)) (pw_log w)
  end.
(** The last reference to a context is dropped. *)
Definition drop_context (plugin_id : rstring) (w : PluginWorld) : PluginWorld :=
  Build_PluginWorld (pw_services w) (delete plugin_id (pw_contexts w)) (pw_log w).

(** ** The manager *)

(** The context of a loaded plugin is the one in the store under [lp_context]. *)
Record LoadedPlugin := {
  lp_plugin : Plugin;
  lp_context : rstring;
  lp_metadata : PluginMetadata;
  lp_loader_name : rstring }.

Record PluginManager := {
  mg_loaders : list PluginLoader;
  mg_plugins : list LoadedPlugin;
  mg_states : gmap rstring PluginState;
  mg_load_order : list rstring;
  mg_loader_mapping : gmap rstring rstring;
  mg_loaded_loaders : list rstring }.

Definition manager_new (loaders : list PluginLoader) : PluginManager :=
  Build_PluginManager loaders [] ∅ [] ∅ [].

Definition set_state (id : rstring) (st : PluginState) (m : PluginManager) : PluginManager :=
  Build_PluginManager (mg_loaders m) (mg_plugins m) (<[id := st]> (mg_states m)) (mg_load_order m)
    (mg_loader_mapping m) (mg_loaded_loaders m).
Definition push_plugin (p : LoadedPlugin) (m : PluginManager) : PluginManager :=
  Build_PluginManager (mg_loaders m) (mg_plugins m ++ [p]) (mg_states m) (mg_load_order m)
    (mg_loader_mapping m) (mg_loaded_loaders m).

(** *** Discovery *)

Fixpoint discover_metadata (loader : rstring) (discovered : list PluginMetadata)
    (all : list PluginMetadata) (seen : gmap rstring rstring)
    : result PluginError (list PluginMetadata * gmap rstring rstring) :=
  match discovered with
  | [] => Ok (all, seen)
  | metadata :: discovered =>
    match seen !! pm_id metadata with
    | Some existing =>
      Err (InitFailed (str "Duplicate plugin id '" ++ pm_id metadata ++ str "': found in loader '" ++
                       existing ++ str "' and '" ++ loader ++ str "'"))
    | None => discover_metadata loader discovered (all ++ [metadata]) (<[pm_id metadata := loader]> seen)
    end
  end.
Fixpoint discover_loaders (loaders : list PluginLoader) (all : list PluginMetadata) (seen : gmap rstring rstring)
    : result PluginError (list PluginMetadata * gmap rstring rstring) :=
  match loaders with
  | [] => Ok (all, seen)
  | loader :: loaders =>
    match ld_discover loader with
    | Err e => Err (InitFailed (str "Loader '" ++ ld_name loader ++ str "' discovery failed: " ++ LoaderError_fmt e))
    | Ok discovered =>
      '(all, seen) ← discover_metadata (ld_name loader) discovered all seen;
      discover_loaders loaders all seen
    end
  end.

(** [None] when the sort ran out of fuel, which it does not. *)
Definition discover_all (m : PluginManager) : option (result PluginError (list PluginMetadata) * PluginManager) :=
  match discover_loaders (mg_loaders m) [] ∅ with
  | Err e => Some (Err e, m)
  | Ok (all, seen) =>
    r ← resolve_load_order ord all;
    match r with
    | Err e => Some (Err e, m)
    | Ok order =>
      Some (Ok all, Build_PluginManager (mg_loaders m) (mg_plugins m) (mg_states m) order seen
                      (mg_loaded_loaders m))
    end
  end.

(** *** Loading *)

(** The runtimes of the loaders: the names of those that started, of those that failed, and
    the errors. *)
Definition start_loader (st : list rstring * list rstring * list PluginError * PluginWorld) (loader : PluginLoader)
    : list rstring * list rstring * list PluginError * PluginWorld :=
  let '(ok_loaders, failed, errors, w) := st in
  let w := log (EvOnLoad (ld_name loader)) w in
  match ld_on_load loader with
  | Ok _ => (ok_loaders ++ [ld_name loader], failed, errors, w)
  | Err e =>
    (ok_loaders, failed ++ [ld_name loader],
     errors ++ [InitFailed (str "Loader '" ++ ld_name loader ++ str "' on_load failed: " ++ LoaderError_fmt e)], w)
  end.

Definition find_loader (name : rstring) (loaders : list PluginLoader) : option PluginLoader :=
  List.find (λ l, bool_decide (ld_name l = name)) loaders.

(** [on_enable] of a plugin that was loaded. *)
Definition enable_plugin (plugin_id loader_name : rstring) (plugin : Plugin)
    (errors : list PluginError) (m : PluginManager) (w : PluginWorld)
    : list PluginError * PluginManager * PluginWorld :=
  let metadata := pl_metadata plugin in
  let w := create_context plugin_id w in
  let m := set_state plugin_id PLoading m in
  let '(r, w) := run_plugin plugin_id (pl_on_enable plugin) (log (EvEnable plugin_id) w) in
  match r with
  | Ok _ =>
    (errors, push_plugin (Build_LoadedPlugin plugin plugin_id metadata loader_name) (set_state plugin_id PEnabled m), w)
  | Err e =>
    (errors ++ [e], set_state plugin_id (PError (PluginError_fmt e)) m, drop_context plugin_id (cleanup_context plugin_id w))
  end.

Definition load_plugin (failed : list rstring) (st : list PluginError * PluginManager * PluginWorld)
    (plugin_id : rstring) : list PluginError * PluginManager * PluginWorld :=
  let '(errors, m, w) := st in
  match mg_loader_mapping m !! plugin_id with
  | None => (errors ++ [InitFailed (str "No loader mapping for plugin '" ++ plugin_id ++ str "'")], m, w)
  | Some loader_name =>
    if decide (loader_name ∈ failed) then
      (errors, set_state plugin_id (PError (str "loader '" ++ loader_name ++ str "' on_load failed")) m, w)
    else
      match find_loader loader_name (mg_loaders m) with
      | None =>
        (errors ++ [InitFailed (str "Loader '" ++ loader_name ++ str "' not found for plugin '" ++ plugin_id ++ str "'")], m, w)
      | Some loader =>
        let w := log (EvLoad loader_name plugin_id) w in
        match ld_load loader plugin_id with
        | Err e =>
          (errors ++ [InitFailed (str "Loader '" ++ loader_name ++ str "' failed to load '" ++ plugin_id ++ str "': " ++ LoaderError_fmt e)],
           set_state plugin_id (PError (LoaderError_fmt e)) m, w)
        | Ok plugin => enable_plugin plugin_id loader_name plugin errors m w
        end
      end
  end.

Definition load_and_enable_all (m : PluginManager) (w : PluginWorld) : list PluginError * PluginManager * PluginWorld :=
  let '(ok_loaders, failed, errors, w) := foldl start_loader ([], [], [], w) (mg_loaders m) in
  let m := Build_PluginManager (mg_loaders m) (mg_plugins m) (mg_states m) (mg_load_order m)
             (mg_loader_mapping m) ok_loaders in
  foldl (load_plugin failed) (errors, m, w) (mg_load_order m).

(** *** Shutdown *)

Definition disable_plugin (st : PluginManager * PluginWorld) (p : LoadedPlugin) : PluginManager * PluginWorld :=
  let '(m, w) := st in
  let id := pm_id (lp_metadata p) in
  match mg_states m !! id with
  | Some PEnabled =>
    let m := set_state id PDisabled m in
    let '(_, w) := run_plugin (lp_context p) (pl_on_disable (lp_plugin p)) (log (EvDisable id) w) in
    (m, cleanup_context (lp_context p) w)
  | _ => (m, w)
  end.

Definition unload_plugin (loaders : list PluginLoader) (w : PluginWorld) (p : LoadedPlugin) : PluginWorld :=
  match find_loader (lp_loader_name p) loaders with
  | Some loader => log (EvUnload (ld_name loader) (pm_id (lp_metadata p))) w
  | None => w
  end.
Definition stop_loader (loaders : list PluginLoader) (w : PluginWorld) (name : rstring) : PluginWorld :=
  match find_loader name loaders with
  | Some loader => log (EvShutdown (ld_name loader)) w
  | None => w
  end.

Definition shutdown (m : PluginManager) (w : PluginWorld) : PluginManager * PluginWorld :=
  let plugins := mg_plugins m in
  let loaded := mg_loaded_loaders m in
  let m := Build_PluginManager (mg_loaders m) [] (mg_states m) (mg_load_order m) (mg_loader_mapping m) [] in
  let '(m, w) := foldl disable_plugin (m, w) (reverse plugins) in
  let w := foldl (unload_plugin (mg_loaders m)) w (reverse plugins) in
  let w := foldl (stop_loader (mg_loaders m)) w (reverse loaded) in
  (m, w).

(** *** What the proxy takes from the plugins *)

Definition set_context (id : rstring) (c : PluginContextImpl) (w : PluginWorld) : PluginWorld :=
  Build_PluginWorld (pw_services w) (<[id := c]> (pw_contexts w)) (pw_log w).

Definition collect_limbo_handlers (m : PluginManager) (w : PluginWorld) : list Handler * PluginWorld :=
  foldl (λ (acc : list Handler * PluginWorld) p,
    let '(all, w) := acc in
    match pw_contexts w !! lp_context p with
    | Some c => let '(handlers, c) := take_limbo_handlers c in (all ++ handlers, set_context (lp_context p) c w)
    | None => (all, w)
    end) ([], w) (mg_plugins m).

Definition collect_config_providers (m : PluginManager) (w : PluginWorld)
    : list (rstring * PluginConfigProvider) * PluginWorld :=
  foldl (λ (acc : list (rstring * PluginConfigProvider) * PluginWorld) p,
    let '(all, w) := acc in
    match pw_contexts w !! lp_context p with
    | Some c =>
      let '(providers, c) := take_config_providers c in
      (all ++ ((pm_id (lp_metadata p),.) <$> providers), set_context (lp_context p) c w)
    | None => (all, w)
    end) ([], w) (mg_plugins m).

Definition is_plugin_loaded (id : rstring) (m : PluginManager) : bool :=
  bool_decide (mg_states m !! id = Some PEnabled).
Definition plugin_state (id : rstring) (m : PluginManager) : option PluginState := mg_states m !! id.
Definition list_plugins (m : PluginManager) : list PluginMetadata := lp_metadata <$> mg_plugins m.

(** *** Providers of configurations *)

Record ActivatedProvider := { ap_config_ids : list ProviderId; ap_watch_token : Z }.

(** [format!("plugin:{}:{}", plugin_id, provider.provider_type())]. *)
Definition provider_prefix (plugin_id provider_type : rstring) : rstring :=
  str "plugin:" ++ plugin_id ++ str ":" ++ provider_type.
Definition make_provider_id (prefix config_id : rstring) : ProviderId := Build_ProviderId prefix config_id.

Inductive PluginProviderEvent :=
| PAdded (config : ApiServerConfig)
| PUpdated (config : ApiServerConfig)
| PRemoved (server_id : rstring).
(** [PluginProviderSenderImpl::send]: the event the router gets. *)
Definition sender_event (prefix : rstring) (ev : PluginProviderEvent) : ProviderEvent :=
  match ev with
  | PAdded c => Added (Build_ProviderConfig (make_provider_id prefix (ac_id c)) (convert_api_to_config c))
  | PUpdated c => Updated (Build_ProviderConfig (make_provider_id prefix (ac_id c)) (convert_api_to_config c))
  | PRemoved id => Removed (make_provider_id prefix id)
  end.

Definition activate_provider (st : list (rstring * ActivatedProvider) * PluginServices)
    (pp : rstring * PluginConfigProvider) : list (rstring * ActivatedProvider) * PluginServices :=
  let '(results, s) := st in
  let '(plugin_id, provider) := pp in
  let prefix := provider_prefix plugin_id (pcp_type provider) in
  let '(loaded_ids, r) :=
    match pcp_load_initial provider with
    | Ok configs =>
      foldl (λ (acc : list ProviderId * DomainRouter) config,
        let pid := make_provider_id prefix (ac_id config) in
        (acc.1 ++ [pid], add pid (convert_api_to_config config) acc.2)) ([], ps_router s) configs
    | Err _ => ([], ps_router s)
    end in
  let watch_token := ps_next_token s in
  let s := with_tokens (ps_next_token s + 1) (ps_cancelled s) (with_router r s) in
  (results ++ [(plugin_id, Build_ActivatedProvider loaded_ids watch_token)], s).
Definition activate_plugin_providers (providers : list (rstring * PluginConfigProvider)) (s : PluginServices)
    : list (rstring * ActivatedProvider) * PluginServices :=
  foldl activate_provider ([], s) providers.

(** The first plugin with the identifier keeps what is to be taken back. *)
Definition store_cleanup (plugins : list LoadedPlugin) (w : PluginWorld) (result : rstring * ActivatedProvider)
    : PluginWorld :=
  match List.find (λ p, bool_decide (pm_id (lp_metadata p) = result.1)) plugins with
  | Some p =>
    match pw_contexts w !! lp_context p with
    | Some c =>
      set_context (lp_context p)
        (register_provider_token (ap_watch_token result.2)
           (register_active_provider_ids (ap_config_ids result.2) c)) w
    | None => w
    end
  | None => w
  end.
Definition store_provider_cleanup (results : list (rstring * ActivatedProvider)) (m : PluginManager)
    (w : PluginWorld) : PluginWorld := foldl (store_cleanup (mg_plugins m)) w results.

(** *** The registry of plugins *)

Record PluginInfo := {
  pi_id : rstring;
  pi_name : rstring;
  pi_version : rstring;
  pi_authors : list rstring;
  pi_description : option rstring;
  pi_state : rstring;
  pi_dependencies : list PluginDependency }.

Definition PluginState_text (st : option PluginState) : rstring :=
  match st with
  | Some PLoading => str "loading"
  | Some PEnabled => str "enabled"
  | Some PDisabled => str "disabled"
  | Some (PError e) => str "error: " ++ e
  | None => str "unknown"
  end.
Definition update_from (plugins : list PluginMetadata) (states : rstring → option PluginState) : list PluginInfo :=
  (λ meta, Build_PluginInfo (pm_id meta) (pm_name meta) (pm_version meta) (pm_authors meta)
             (pm_description meta) (PluginState_text (states (pm_id meta))) (pm_dependencies meta)) <$> plugins.
Definition plugin_info (id : rstring) (data : list PluginInfo) : option PluginInfo :=
  List.find (λ p, bool_decide (pi_id p = id)) data.

(** ** From start to shutdown *)

(** What main.rs does with the plugins before connections are accepted. *)
Record StartedPlugins := {
  sp_errors : list PluginError;
  sp_manager : PluginManager;
  sp_infos : list PluginInfo;
  sp_limbo_handlers : list Handler;
  sp_providers : list (rstring * ActivatedProvider) }.

Definition start_plugins (m : PluginManager) (w : PluginWorld) : StartedPlugins * PluginWorld :=
  let '(errors, m, w) := load_and_enable_all m w in
  let infos := update_from (list_plugins m) (λ id, plugin_state id m) in
  let '(handlers, w) := collect_limbo_handlers m w in
  let '(providers, w) := collect_config_providers m w in
  let '(results, s) := activate_plugin_providers providers (pw_services w) in
  let w := Build_PluginWorld s (pw_contexts w) (pw_log w) in
  (Build_StartedPlugins errors m infos handlers results, store_provider_cleanup results m w).

(** While the proxy runs: a plugin uses its context, the runtime comes to a scheduled task,
    the router gets an event of some provider, time passes. *)
Inductive run_step :=
| RCall (plugin_id : rstring) (call : context_call)
| RFire (i : nat)
| RProvider (ev : ProviderEvent)
| RTime (now : Z).
Definition running (w : PluginWorld) (step : run_step) : PluginWorld :=
  let s := pw_services w in
  match step with
  | RCall id call => (plugin_call id call w).2
  | RFire i =>
    match fire_task (ps_now s) i (ps_scheduler s) with
    | Some (_, sch) => Build_PluginWorld (with_scheduler sch s) (pw_contexts w) (pw_log w)
    | None => w
    end
  | RProvider ev => Build_PluginWorld (with_router (apply_event ev (ps_router s)) s) (pw_contexts w) (pw_log w)
  | RTime now => Build_PluginWorld (at_time now s) (pw_contexts w) (pw_log w)
  end.
Definition run_proxy (steps : list run_step) (w : PluginWorld) : PluginWorld := foldl running w steps.

(** ** What plugins leave behind *)

Context `{HL : !DashMapLaws TypeId (list (HandlerEntry Event)) HM}.
Context `{PL : !DashMapLaws PacketKey (list (HandlerEntry RawPacketEvent)) PM}.
Context `{CL : !DashMapLaws ProviderId RouterEntry CM}.

(** What is in the services and not the plugins'. *)
Context (base_listener : TypeId * HandlerEntry Event + PacketKey * HandlerEntry RawPacketEvent → Prop).
Context (base_command : rstring * RegisteredCommand H → Prop) (base_task : nat * Z → Prop).
Context (base_route : ProviderId → Prop).

Record services_inv (n : Z) (cs : gmap rstring PluginContextImpl) (s : PluginServices) : Prop := {
  si_bus : tracked_inv pc_handles base_listener n cs (ps_bus s);
  si_commands : tracked_inv pc_commands base_command n cs (ps_commands s);
  si_tasks : tracked_inv pc_tasks base_task n cs (ps_scheduler s);
  si_router : tracked_inv pc_provider_ids base_route n cs (ps_router s) }.

Lemma services_inv_mono n k cs s : n ≤ k → services_inv n cs s → services_inv k cs s.
Proof. intros Hn [? ? ? ?]. split; by eapply tracked_mono. Qed.

(** The context of a plugin changes and keeps its handles. *)
Definition keeps_handles (c c' : PluginContextImpl) : Prop :=
  pc_handles c ⊆ pc_handles c' ∧ pc_commands c ⊆ pc_commands c' ∧ pc_tasks c ⊆ pc_tasks c' ∧
  pc_provider_ids c ⊆ pc_provider_ids c'.
Lemma services_inv_keep n cs s id c' :
  (∀ c, cs !! id = Some c → keeps_handles c c') → services_inv n cs s → services_inv n (<[id := c']> cs) s.
Proof.
  intros Hk [? ? ? ?]. split; (apply tracked_keep; [|done]); intros c h Hc; apply (Hk c Hc).
Qed.

Lemma call_context_inv n cs s id c call :
  n + 1 < 2 ^ 64 - 1 → cs !! id = Some c → services_inv n cs s →
  let '(_, c', s') := call_context call c s in services_inv (n + 1) (<[id := c']> cs) s'.
Proof.
  intros Hn Hid Hi. assert (Hi' : services_inv (n + 1) cs s) by (apply (services_inv_mono n); [lia|done]).
  assert (Hkeep : ∀ c', keeps_handles c c' → services_inv (n + 1) (<[id := c']> cs) s).
  { intros c' Hk. apply services_inv_keep; [|done]. intros d. rewrite Hid. by intros [= <-]. }
  assert (Hid' : <[id := c]> cs = cs) by by apply insert_id.
  assert (Hsched : ∀ req : schedule_req Task, services_inv (n + 1) (<[id := push_task (schedule req (ps_scheduler s)).1 c]> cs)
    (with_scheduler (schedule req (ps_scheduler s)).2 s)).
  { intros req. destruct (Hkeep (push_task (schedule req (ps_scheduler s)).1 c)) as [? ? ? ?].
    { split_and!; try done. cbn. set_solver. }
    split; try done.
    exact (tracked_register pc_tasks base_task n cs (ps_scheduler s) id c (push_task _ c) req Hn Hid eq_refl (si_tasks _ _ _ Hi)). }
  assert (Hn1 : n + 1 ≤ n + 1) by lia.
  destruct call as [req|h|? ? ?|name al de ha|name|d t|p t|p d t|h|ha|p|f|i|f|i];
    cbn [call_context]; cbv zeta.
  - pose proof (tracked_register pc_handles base_listener n cs (ps_bus s) id c
      (push_handle (listen req (ps_bus s)).1 c) req Hn Hid eq_refl (si_bus _ _ _ Hi)) as Hb.
    cbn [tr_register bus_tracked] in Hb. destruct (listen req (ps_bus s)) as [h b].
    destruct (Hkeep (push_handle h c)) as [? ? ? ?]; [split_and!; try done; cbn; set_solver|]. by split.
  - rewrite Hid'. destruct Hi', Hi as [Hb]. split; try done.
    apply (tracked_mono _ _ n); [lia|]. exact (tracked_release pc_handles base_listener n cs (ps_bus s) h Hn Hb).
  - by rewrite Hid'.
  - destruct (Hkeep (push_command name c)) as [? ? ? ?]; [split_and!; try done; cbn; set_solver|]. split; try done.
    exact (tracked_register pc_commands base_command n cs (ps_commands s) id c (push_command name c)
      (Build_command_req name al de ha (pc_plugin_id c)) Hn Hid eq_refl (si_commands _ _ _ Hi)).
  - rewrite Hid'. destruct Hi', Hi as [_ Hc]. split; try done.
    apply (tracked_mono _ _ n); [lia|]. exact (tracked_release pc_commands base_command n cs (ps_commands s) name Hn Hc).
  - specialize (Hsched (SDelay (ps_now s) d t)). by destruct (schedule _ _).
  - specialize (Hsched (SInterval (ps_now s) p t)). by destruct (schedule _ _).
  - specialize (Hsched (SIntervalWithDelay (ps_now s) p d t)). by destruct (schedule _ _).
  - rewrite Hid'. destruct Hi', Hi as [_ _ Ht]. split; try done.
    apply (tracked_mono _ _ n); [lia|]. exact (tracked_release pc_tasks base_task n cs (ps_scheduler s) h Hn Ht).
  - apply Hkeep. unfold ctx_register_limbo_handler. by case_decide.
  - by apply Hkeep.
  - case_decide; rewrite Hid'; [by destruct Hi'|done].
  - case_decide; rewrite Hid'; [by destruct Hi'|done].
  - case_decide; rewrite Hid'; [by destruct Hi'|done].
  - case_decide; rewrite Hid'; [by destruct Hi'|done].
Qed.

Lemma cleanup_inv n cs cs' s id c :
  n + 1 < 2 ^ 64 - 1 → cs !! id = Some c → (∀ id', id' ≠ id → cs' !! id' = cs !! id') →
  services_inv n cs s → services_inv n cs' (cleanup c s).2.
Proof.
  intros Hn Hid Hcs [Hb Hc Ht Hr]. split.
  - exact (tracked_cleanup pc_handles base_listener n cs cs' _ id c Hn Hid Hcs Hb).
  - exact (tracked_cleanup pc_commands base_command n cs cs' _ id c Hn Hid Hcs Hc).
  - exact (tracked_cleanup pc_tasks base_task n cs cs' _ id c Hn Hid Hcs Ht).
  - exact (tracked_cleanup pc_provider_ids base_route n cs cs' _ id c Hn Hid Hcs Hr).
Qed.

(** *** The world *)

Definition is_call (e : plugin_event) : bool := match e with EvCall _ _ => true | _ => false end.
(** The log without what plugins do through their contexts. *)
Definition lifecycle (l : list plugin_event) : list plugin_event := filter (λ e, is_call e = false) l.
Lemma lifecycle_app l l' : lifecycle (l ++ l') = lifecycle l ++ lifecycle l'.
Proof. apply filter_app. Qed.

(** [n0] calls were made before; the handles do not wrap around. *)
Context (n0 : Z).
Definition world_inv (w : PluginWorld) : Prop :=
  services_inv (n0 + zlen (pw_log w)) (pw_contexts w) (pw_services w).
Definition in_bounds (w : PluginWorld) : Prop := n0 + zlen (pw_log w) < 2 ^ 64 - 2.

Lemma world_inv_log e w : world_inv w → world_inv (log e w).
Proof.
  unfold world_inv. cbn [log pw_log pw_contexts pw_services]. rewrite zlen_app. change (zlen [e]) with 1.
  apply services_inv_mono. lia.
Qed.

(** What a plugin does changes its own context only, and neither the tokens nor what the
    loaders are asked. *)
Record own_steps (id : rstring) (w w' : PluginWorld) : Prop := {
  os_log : ∃ l, pw_log w' = pw_log w ++ l ∧ lifecycle l = [];
  os_others id' : id' ≠ id → pw_contexts w' !! id' = pw_contexts w !! id';
  os_none : pw_contexts w !! id = None → pw_contexts w' !! id = None;
  os_some c : pw_contexts w !! id = Some c →
    ∃ c', pw_contexts w' !! id = Some c' ∧ pc_provider_tokens c' = pc_provider_tokens c;
  os_cancelled : ps_cancelled (pw_services w') = ps_cancelled (pw_services w) }.

Lemma own_steps_refl id w : own_steps id w w.
Proof. split; [|done..|eauto|done]. exists []. by rewrite app_nil_r. Qed.
Lemma own_steps_trans id w1 w2 w3 : own_steps id w1 w2 → own_steps id w2 w3 → own_steps id w1 w3.
Proof.
  intros [(l&Hl&Hc) Ho Hn Hs Hk] [(l'&Hl'&Hc') Ho' Hn' Hs' Hk']. split.
  - exists (l ++ l'). rewrite Hl', Hl, <- app_assoc, lifecycle_app, Hc, Hc'. done.
  - intros id' Hid. rewrite Ho', Ho by done. done.
  - auto.
  - intros c (c'&Hc1&Ht)%Hs. destruct (Hs' c' Hc1) as (c''&?&Ht'). exists c''. by rewrite Ht', Ht.
  - by rewrite Hk', Hk.
Qed.

Lemma plugin_call_own id call w : own_steps id w (plugin_call id call w).2.
Proof.
  unfold plugin_call. destruct (pw_contexts w !! id) as [c|] eqn:Hc; [|apply own_steps_refl].
  assert (Ht : pc_provider_tokens (call_context call c (pw_services w)).1.2 = pc_provider_tokens c ∧
               ps_cancelled (call_context call c (pw_services w)).2 = ps_cancelled (pw_services w)).
  { unfold call_context. destruct call; cbv zeta; repeat case_match; cbn; simplify_eq; try done; unfold ctx_register_limbo_handler; by case_decide. }
  destruct (call_context call c (pw_services w)) as [[reply c'] s'] eqn:Hcc. cbn [fst snd] in *. destruct Ht as [Ht Hk].
  split; cbn [pw_log pw_contexts pw_services].
  - by exists [EvCall id call].
  - intros id' Hid. by apply lookup_insert_ne.
  - congruence.
  - intros d. rewrite Hc. intros [= <-]. exists c'. by rewrite lookup_insert_eq.
  - done.
Qed.

Lemma run_plugin_own id script w : own_steps id w (run_plugin id script w).2.
Proof.
  revert w. induction script as [r|call k IH]; intros w; [apply own_steps_refl|]. cbn [run_plugin].
  pose proof (plugin_call_own id call w) as Hc. destruct (plugin_call id call w) as [reply w1].
  eapply own_steps_trans; [exact Hc|apply IH].
Qed.

Lemma in_bounds_before l w w' : pw_log w' = pw_log w ++ l → in_bounds w' → in_bounds w.
Proof. unfold in_bounds. intros ->. rewrite zlen_app. pose proof (zlen_nonneg l). lia. Qed.
Lemma own_steps_bounds id w w' : own_steps id w w' → in_bounds w' → in_bounds w.
Proof. intros [(l&Hl&_) _ _ _ _]. by apply (in_bounds_before l). Qed.

Lemma plugin_call_inv id call w :
  in_bounds (plugin_call id call w).2 → world_inv w → world_inv (plugin_call id call w).2.
Proof.
  unfold plugin_call, in_bounds, world_inv. destruct (pw_contexts w !! id) as [c|] eqn:Hc; [|done].
  pose proof (call_context_inv (n0 + zlen (pw_log w)) (pw_contexts w) (pw_services w) id c call) as Hi.
  destruct (call_context call c (pw_services w)) as [[reply c'] s']. cbn [snd pw_log pw_contexts pw_services].
  rewrite zlen_app. change (zlen [_]) with 1. rewrite Z.add_assoc. intros Hb Hw. apply Hi; [lia|done..].
Qed.

Lemma run_plugin_inv id script w :
  in_bounds (run_plugin id script w).2 → world_inv w → world_inv (run_plugin id script w).2.
Proof.
  revert w. induction script as [r|call k IH]; intros w Hb Hw; [done|]. cbn [run_plugin] in *.
  pose proof (plugin_call_inv id call w) as Hc. destruct (plugin_call id call w) as [reply w1]. cbn [snd] in Hc.
  apply IH; [done|]. apply Hc; [|done]. eapply own_steps_bounds; [apply run_plugin_own|exact Hb].
Qed.

(** A context that holds nothing that is to be taken back. *)
Definition context_clean (c : PluginContextImpl) : Prop :=
  pc_handles c = [] ∧ pc_commands c = [] ∧ pc_tasks c = [] ∧ pc_provider_ids c = [] ∧ pc_provider_tokens c = [].

Lemma cleanup_context_eq id w c :
  pw_contexts w !! id = Some c →
  ∃ c', context_clean c' ∧ cleanup_context id w =
    Build_PluginWorld (cleanup c (pw_services w)).2 (<[id := c']> (pw_contexts w)) (pw_log w ++ [EvCleanup id]).
Proof. intros Hc. unfold cleanup_context. rewrite Hc. eexists. split; [|reflexivity]. done. Qed.

Lemma cleanup_context_inv id w : in_bounds w → world_inv w → world_inv (cleanup_context id w).
Proof.
  intros Hb Hw. destruct (pw_contexts w !! id) as [c|] eqn:Hc; [|by unfold cleanup_context; rewrite Hc].
  destruct (cleanup_context_eq id w c Hc) as (c'&_&->). unfold world_inv, in_bounds in *.
  cbn [pw_log pw_contexts pw_services]. rewrite zlen_app. change (zlen [_]) with 1.
  apply (services_inv_mono (n0 + zlen (pw_log w))); [lia|].
  apply (cleanup_inv _ (pw_contexts w) _ _ id c); [lia|done| |done]. intros id' ?. by apply lookup_insert_ne.
Qed.

(** The tokens [toks] were given out: each is cancelled or some plugin has it. *)
Definition tokens_inv (toks : list Z) (w : PluginWorld) : Prop :=
  ∀ t, t ∈ toks → t ∈ ps_cancelled (pw_services w) ∨
    ∃ id c, pw_contexts w !! id = Some c ∧ t ∈ pc_provider_tokens c.

Lemma own_steps_tokens toks id w w' : own_steps id w w' → tokens_inv toks w → tokens_inv toks w'.
Proof.
  intros [_ Ho Hn Hs Hk] Ht t Hin. rewrite Hk. destruct (Ht t Hin) as [?|(id'&c&Hc&Htc)]; [by left|right].
  destruct (decide (id' = id)) as [->|Hne].
  - destruct (Hs c Hc) as (c'&?&Heq). exists id, c'. by rewrite Heq.
  - exists id', c. by rewrite Ho.
Qed.

Lemma cancel_tokens (l : list Z) (X : gset Z) t :
  t ∈ foldl (λ cancelled token, {[token]} ∪ cancelled) X l ↔ t ∈ X ∨ t ∈ l.
Proof.
  revert X. induction l as [|u l IH]; intros X; cbn [foldl].
  - split; [by left|]. by intros [?|?%not_elem_of_nil].
  - rewrite IH, elem_of_union, elem_of_singleton, elem_of_cons. tauto.
Qed.

Lemma cleanup_context_tokens toks id w : tokens_inv toks w → tokens_inv toks (cleanup_context id w).
Proof.
  intros Ht. destruct (pw_contexts w !! id) as [c|] eqn:Hc; [|by unfold cleanup_context; rewrite Hc].
  destruct (cleanup_context_eq id w c Hc) as (c'&_&->). intros t Hin. cbn [pw_services pw_contexts].
  cbn [cleanup snd ps_cancelled with_router with_tokens with_scheduler with_commands with_bus]. rewrite cancel_tokens.
  destruct (Ht t Hin) as [?|(id'&d&Hd&Htd)]; [by left; left|].
  destruct (decide (id' = id)) as [->|Hne].
  - left. right. rewrite Hc in Hd. by injection Hd as <-.
  - right. exists id', d. by rewrite lookup_insert_ne.
Qed.

(** *** Loading *)

(** A loader gives the plugin that was asked for. *)
Definition honest_loader (l : PluginLoader) : Prop :=
  ∀ id p, ld_load l id = Ok p → pm_id (pl_metadata p) = id.

(** The plugins that are enabled are those with a context. *)
Record manager_inv (m : PluginManager) (w : PluginWorld) : Prop := {
  mi_nodup : NoDup (lp_context <$> mg_plugins m);
  mi_plugin p : p ∈ mg_plugins m →
    pm_id (lp_metadata p) = lp_context p ∧ mg_states m !! lp_context p = Some PEnabled ∧
    is_Some (pw_contexts w !! lp_context p) ∧ is_Some (find_loader (lp_loader_name p) (mg_loaders m));
  mi_contexts id : is_Some (pw_contexts w !! id) → id ∈ lp_context <$> mg_plugins m }.

Definition enable_calls (l : list plugin_event) : list rstring :=
  omap (λ e, match e with EvEnable id => Some id | _ => None end) l.
Lemma enable_calls_app l l' : enable_calls (l ++ l') = enable_calls l ++ enable_calls l'.
Proof. apply omap_app. Qed.
Lemma enable_calls_none l : lifecycle l = [] → enable_calls l = [].
Proof.
  induction l as [|e l IH]; [done|]. unfold lifecycle. rewrite filter_cons. case_decide as He; [done|].
  intros Hl. by destruct e; [done|done|done|apply IH|..].
Qed.

(** Where the plugins of [done] have been tried. *)
Record loading_inv (m0 : PluginManager) (tried : list rstring) (m : PluginManager) (w : PluginWorld) : Prop := {
  li_manager : manager_inv m w;
  li_sublist : (lp_context <$> mg_plugins m) `sublist_of` tried;
  li_enables : enable_calls (pw_log w) `sublist_of` tried;
  li_enabled : (lp_context <$> mg_plugins m) `sublist_of` enable_calls (pw_log w);
  li_states id : id ∈ tried →
    mg_states m !! id = Some PEnabled ∧ id ∈ lp_context <$> mg_plugins m ∨
    ∃ e, mg_states m !! id = Some (PError e);
  li_same : mg_loaders m = mg_loaders m0 ∧ mg_loader_mapping m = mg_loader_mapping m0 ∧
    mg_loaded_loaders m = mg_loaded_loaders m0 ∧ mg_load_order m = mg_load_order m0 }.

Lemma services_inv_drop n cs s id c :
  cs !! id = Some c → context_clean c → services_inv n cs s → services_inv n (delete id cs) s.
Proof.
  intros Hid (Hh&Hc&Ht&Hp&_) [? ? ? ?]. split; by eapply tracked_drop.
Qed.

Lemma create_context_new id w :
  pw_contexts w !! id = None →
  ∃ c, context_clean c ∧ create_context id w = set_context id c w.
Proof. intros Hn. unfold create_context. rewrite Hn. eexists. split; [|reflexivity]. done. Qed.

(** What is left when a plugin fails to start: nothing of it. *)
Lemma failed_enable id w : is_Some (pw_contexts w !! id) →
  let w' := drop_context id (cleanup_context id w) in
  pw_contexts w' = delete id (pw_contexts w) ∧ pw_log w' = pw_log w ++ [EvCleanup id] ∧
  (in_bounds w → world_inv w → world_inv w').
Proof.
  intros [c Hc]. cbv zeta. destruct (cleanup_context_eq id w c Hc) as (c'&Hcl&He).
  pose proof (cleanup_context_inv id w) as Hi. rewrite He in *. cbn [drop_context pw_contexts pw_log].
  split; [by rewrite delete_insert_eq|]. split; [done|]. intros Hb Hw. specialize (Hi Hb Hw).
  unfold world_inv in *. cbn [drop_context pw_contexts pw_log pw_services] in *.
  eapply services_inv_drop; [apply lookup_insert_eq|done|exact Hi].
Qed.

(** A step of the manager: the log grows and what plugins registered stays accounted for. *)
Definition keeps_inv (w w' : PluginWorld) : Prop :=
  (∃ l, pw_log w' = pw_log w ++ l) ∧ (in_bounds w' → world_inv w → world_inv w').

Lemma keeps_inv_refl w : keeps_inv w w.
Proof. split; [exists []; by rewrite app_nil_r|done]. Qed.
Lemma keeps_inv_trans w1 w2 w3 : keeps_inv w1 w2 → keeps_inv w2 w3 → keeps_inv w1 w3.
Proof.
  intros [[l Hl] H12] [[l' Hl'] H23]. split; [exists (l ++ l'); by rewrite Hl', Hl, app_assoc|].
  intros Hb Hw. apply H23; [done|]. apply H12; [by eapply in_bounds_before|done].
Qed.
Lemma keeps_inv_log e w : keeps_inv w (log e w).
Proof. split; [by exists [e]|]. intros _. apply world_inv_log. Qed.
Lemma keeps_inv_run id script w : keeps_inv w (run_plugin id script w).2.
Proof. split; [|apply run_plugin_inv]. destruct (run_plugin_own id script w) as [(l&?&_) _ _ _ _]. by exists l. Qed.
Lemma keeps_inv_cleanup id w : keeps_inv w (cleanup_context id w).
Proof.
  assert (Hl : ∃ l, pw_log (cleanup_context id w) = pw_log w ++ l).
  { unfold cleanup_context. destruct (pw_contexts w !! id); [by eexists|]. exists []. by rewrite app_nil_r. }
  split; [done|]. intros Hb. apply cleanup_context_inv. destruct Hl as [l Hl]. by eapply in_bounds_before.
Qed.
Lemma keeps_inv_context id c w :
  (∀ d, pw_contexts w !! id = Some d → keeps_handles d c) → keeps_inv w (set_context id c w).
Proof. intros Hk. split; [exists []; by rewrite app_nil_r|]. intros _. by apply services_inv_keep. Qed.

Lemma enable_plugin_ok m0 tried m w id loader plugin errors :
  loading_inv m0 tried m w → id ∉ tried → pm_id (pl_metadata plugin) = id →
  is_Some (find_loader loader (mg_loaders m)) →
  let '(_, m', w') := enable_plugin id loader plugin errors m w in
  loading_inv m0 (tried ++ [id]) m' w' ∧ keeps_inv w w'.
Proof.
  intros [[Hnd Hp Hcs] Hsub Hen Hed Hst Hsame] Hid Hmeta Hfind. unfold enable_plugin. cbv zeta.
  assert (Hnew : id ∉ lp_context <$> mg_plugins m) by (intros Hin; apply Hid; eapply elem_of_sublist; done).
  assert (Hnone : pw_contexts w !! id = None).
  { destruct (pw_contexts w !! id) eqn:Hc; [|done]. destruct Hnew. apply Hcs. by rewrite Hc. }
  destruct (create_context_new id w Hnone) as (c&Hclean&->).
  set (w1 := log (EvEnable id) (set_context id c w)).
  pose proof (run_plugin_own id (pl_on_enable plugin) w1) as Hown.
  assert (Hk1 : keeps_inv w w1).
  { eapply keeps_inv_trans; [|apply keeps_inv_log]. apply keeps_inv_context. by rewrite Hnone. }
  pose proof (keeps_inv_run id (pl_on_enable plugin) w1) as Hk2.
  destruct (run_plugin id (pl_on_enable plugin) w1) as [r w2]. cbn [snd] in *.
  destruct Hown as [(l&Hl&Hlc) Ho _ Hs _].
  destruct (Hs c) as (c2&Hc2&_); [apply lookup_insert_eq|].
  assert (Hother : ∀ id', id' ≠ id → pw_contexts w2 !! id' = pw_contexts w !! id').
  { intros id' Hne. rewrite Ho by done. cbn. by apply lookup_insert_ne. }
  assert (Henc : enable_calls (pw_log w2) = enable_calls (pw_log w) ++ [id]).
  { rewrite Hl. cbn [w1 log set_context pw_log]. by rewrite !enable_calls_app, (enable_calls_none l), app_nil_r. }
  assert (Hsub' : ∀ l' : list rstring, l' `sublist_of` tried → l' `sublist_of` tried ++ [id])
    by (intros l' ?; by apply sublist_inserts_r).
  destruct r as [[]|e].
  - split; [|by eapply keeps_inv_trans]. split.
    + split; cbn [push_plugin set_state mg_plugins mg_states mg_loaders].
      * rewrite fmap_app. apply NoDup_app. split_and!; [done| |apply NoDup_singleton].
        intros x Hx ->%list_elem_of_singleton. done.
      * intros p [Hin| ->%list_elem_of_singleton]%elem_of_app.
        { destruct (Hp p Hin) as (?&?&?&?).
          assert (lp_context p ≠ id) by (intros <-; apply Hnew, list_elem_of_fmap; eauto).
          rewrite !lookup_insert_ne, Hother by done. done. }
        cbn [lp_metadata lp_context lp_loader_name]. rewrite lookup_insert_eq, Hc2. eauto.
      * intros id' Hid'. rewrite fmap_app, elem_of_app. destruct (decide (id' = id)) as [->|Hne]; [right; by apply list_elem_of_singleton|].
        left. apply Hcs. by rewrite <- Hother.
    + cbn [push_plugin set_state mg_plugins]. rewrite fmap_app. by apply sublist_app.
    + rewrite Henc. by apply sublist_app.
    + cbn [push_plugin set_state mg_plugins]. rewrite fmap_app, Henc. by apply sublist_app.
    + cbn [push_plugin set_state mg_plugins mg_states]. intros x. rewrite fmap_app, !elem_of_app, !list_elem_of_singleton.
      intros [Hx| ->]; [|left; rewrite lookup_insert_eq; split; [done|right; by apply list_elem_of_singleton]].
      rewrite !lookup_insert_ne by (intros <-; done). destruct (Hst x Hx) as [[??]|?]; [left; split; [done|by left]|by right].
    + done.
  - destruct (failed_enable id w2) as (Hcs'&Hlog&Hinv); [by rewrite Hc2|]. cbv zeta in *.
    set (w3 := drop_context id (cleanup_context id w2)) in *.
    split.
    + split.
      * split; cbn [set_state mg_plugins mg_states mg_loaders]; [done| |].
        { intros p Hin. destruct (Hp p Hin) as (?&?&?&?).
          assert (lp_context p ≠ id) by (intros <-; apply Hnew, list_elem_of_fmap; eauto).
          rewrite !lookup_insert_ne, Hcs', lookup_delete_ne, Hother by done. done. }
        intros id'. rewrite Hcs'. intros [d [Hne Hd]%lookup_delete_Some]. apply Hcs. by rewrite <- Hother, Hd.
      * by apply Hsub'.
      * rewrite Hlog, enable_calls_app, Henc. cbn. rewrite app_nil_r. by apply sublist_app.
      * cbn [set_state mg_plugins]. rewrite Hlog, enable_calls_app, Henc. cbn. rewrite app_nil_r. by apply sublist_inserts_r.
      * cbn [set_state mg_plugins mg_states]. intros x. rewrite elem_of_app, list_elem_of_singleton.
        intros [Hx| ->]; [|right; rewrite lookup_insert_eq; eauto].
        rewrite !lookup_insert_ne by (intros <-; done). by apply Hst.
      * done.
    + eapply keeps_inv_trans; [exact Hk1|]. eapply keeps_inv_trans; [exact Hk2|].
      split; [by eexists|]. intros Hb. apply Hinv. by eapply in_bounds_before.
Qed.

Lemma find_loader_Some name loaders : is_Some (find_loader name loaders) ↔ name ∈ ld_name <$> loaders.
Proof.
  unfold find_loader. induction loaders as [|l loaders IH]; cbn [List.find fmap list_fmap].
  { split; [by intros []|by intros ?%not_elem_of_nil]. }
  rewrite elem_of_cons. case_bool_decide as Hl; [split; eauto|]. rewrite IH. split; [by right|]. by intros [->|?].
Qed.
Lemma find_loader_name name loaders l : find_loader name loaders = Some l → l ∈ loaders ∧ ld_name l = name.
Proof.
  unfold find_loader. intros [Hin Hb]%List.find_some. split; [by apply list_elem_of_In|]. by apply bool_decide_eq_true in Hb.
Qed.

(** Every plugin of the order has a loader. *)
Definition mapped (m : PluginManager) (id : rstring) : Prop :=
  ∃ name, mg_loader_mapping m !! id = Some name ∧ name ∈ ld_name <$> mg_loaders m.

Lemma load_plugin_ok m0 failed tried errors m w id :
  (∀ l, l ∈ mg_loaders m0 → honest_loader l) → mapped m0 id →
  loading_inv m0 tried m w → id ∉ tried →
  let '(_, m', w') := load_plugin failed (errors, m, w) id in
  loading_inv m0 (tried ++ [id]) m' w' ∧ keeps_inv w w'.
Proof.
  intros Hhon (name&Hmap&Hname) Hi Hid. pose proof (li_same _ _ _ _ Hi) as (Hl&Hm&Hok&Ho).
  assert (Hfail : ∀ e w', keeps_inv w w' → pw_contexts w' = pw_contexts w → enable_calls (pw_log w') = enable_calls (pw_log w) →
    loading_inv m0 (tried ++ [id]) (set_state id (PError e) m) w' ∧ keeps_inv w w').
  { intros e w' Hk Hc He. split; [|done]. destruct Hi as [[Hnd Hp Hcs] Hsub Hen Hed Hst Hsame].
    assert (Hnew : id ∉ lp_context <$> mg_plugins m) by (intros Hin; apply Hid; eapply elem_of_sublist; done).
    split; rewrite ?Hc, ?He; [|by apply sublist_inserts_r|by apply sublist_inserts_r|done| |done].
    - split; rewrite ?Hc; [done| |done]. intros p Hin. destruct (Hp p Hin) as (?&?&?&?).
      assert (lp_context p ≠ id) by (intros <-; apply Hnew, list_elem_of_fmap; eauto).
      cbn [set_state mg_states mg_loaders]. by rewrite lookup_insert_ne.
    - cbn [set_state mg_states mg_plugins]. intros x [Hx| ->%list_elem_of_singleton]%elem_of_app.
      + rewrite lookup_insert_ne by (by intros <-). by apply Hst.
      + right. rewrite lookup_insert_eq. eauto. }
  unfold load_plugin. rewrite Hm, Hmap. case_decide; [apply Hfail; [apply keeps_inv_refl|done..]|].
  assert (is_Some (find_loader name (mg_loaders m))) as [l Hfind] by (apply find_loader_Some; by rewrite Hl).
  rewrite Hfind. destruct (find_loader_name _ _ _ Hfind) as [Hin Hln]. rewrite Hl in Hin.
  assert (Hev : enable_calls (pw_log (log (EvLoad name id) w)) = enable_calls (pw_log w)).
  { cbn [log pw_log]. by rewrite enable_calls_app, app_nil_r. }
  destruct (ld_load l id) as [plugin|e] eqn:Hload.
  - assert (Hi' : loading_inv m0 tried m (log (EvLoad name id) w)).
    { destruct Hi as [[? ? ?] ? ? ? ? ?]. split; rewrite ?Hev; done. }
    pose proof (enable_plugin_ok m0 tried m _ id name plugin errors Hi' Hid (Hhon l Hin id plugin Hload) ltac:(by rewrite Hfind)) as He.
    destruct (enable_plugin id name plugin errors m _) as [[errs m'] w']. destruct He as [? ?]. split; [done|].
    eapply keeps_inv_trans; [apply keeps_inv_log|done].
  - by apply Hfail; [apply keeps_inv_log|..].
Qed.

Lemma load_plugins_ok m0 failed order : ∀ tried errors m w,
  (∀ l, l ∈ mg_loaders m0 → honest_loader l) → (∀ id, id ∈ order → mapped m0 id) → NoDup (tried ++ order) →
  loading_inv m0 tried m w →
  let '(_, m', w') := foldl (load_plugin failed) (errors, m, w) order in
  loading_inv m0 (tried ++ order) m' w' ∧ keeps_inv w w'.
Proof.
  induction order as [|id order IH]; intros tried errors m w Hhon Hmap Hnd Hi; cbn [foldl].
  { rewrite app_nil_r. split; [done|apply keeps_inv_refl]. }
  assert (Hid : id ∉ tried) by (apply NoDup_app in Hnd as (_&Hd&_); intros Hin; apply (Hd id Hin); by left).
  pose proof (load_plugin_ok m0 failed tried errors m w id Hhon (Hmap id ltac:(by left)) Hi Hid) as H1.
  destruct (load_plugin failed (errors, m, w) id) as [[errs1 m1] w1]. destruct H1 as [Hi1 Hk1].
  specialize (IH (tried ++ [id]) errs1 m1 w1 Hhon (λ x Hx, Hmap x ltac:(by right))).
  rewrite <- app_assoc in IH. specialize (IH Hnd Hi1).
  destruct (foldl _ _ order) as [[errs2 m2] w2]. destruct IH as [? ?]. split; [done|]. by eapply keeps_inv_trans.
Qed.

(** The names of the loaders whose runtime starts. *)
Definition started_loaders (loaders : list PluginLoader) : list rstring :=
  ld_name <$> filter (λ l, is_Ok (ld_on_load l) = true) loaders.
Lemma start_loaders_ok loaders : ∀ ok failed errors w,
  let '(ok', _, _, w') := foldl start_loader (ok, failed, errors, w) loaders in
  ok' = ok ++ started_loaders loaders ∧ pw_log w' = pw_log w ++ (EvOnLoad ∘ ld_name <$> loaders) ∧
  pw_contexts w' = pw_contexts w ∧ pw_services w' = pw_services w.
Proof.
  induction loaders as [|l loaders IH]; intros ok failed errors w; cbn [foldl]; [by rewrite !app_nil_r|].
  unfold started_loaders. rewrite filter_cons. unfold start_loader at 2. destruct (ld_on_load l) as [[]|e]; cbn [is_Ok].
  - specialize (IH (ok ++ [ld_name l]) failed errors (log (EvOnLoad (ld_name l)) w)).
    destruct (foldl _ _ loaders) as [[[ok' f'] e'] w']. destruct IH as (->&->&->&->). cbn. by rewrite <- !app_assoc.
  - specialize (IH ok (failed ++ [ld_name l]) (errors ++ [InitFailed (str "Loader '" ++ ld_name l ++ str "' on_load failed: " ++ LoaderError_fmt e)]) (log (EvOnLoad (ld_name l)) w)).
    destruct (foldl _ _ loaders) as [[[ok' f'] e'] w']. destruct IH as (->&->&->&->). cbn. by rewrite <- !app_assoc.
Qed.

Lemma load_and_enable_all_ok m w :
  (∀ l, l ∈ mg_loaders m → honest_loader l) → (∀ id, id ∈ mg_load_order m → mapped m id) →
  NoDup (mg_load_order m) → mg_plugins m = [] → pw_contexts w = ∅ → pw_log w = [] →
  let '(_, m', w') := load_and_enable_all m w in
  manager_inv m' w' ∧ keeps_inv w w' ∧
  (lp_context <$> mg_plugins m') `sublist_of` enable_calls (pw_log w') ∧
  enable_calls (pw_log w') `sublist_of` mg_load_order m ∧
  (∀ id, id ∈ mg_load_order m →
    mg_states m' !! id = Some PEnabled ∧ id ∈ lp_context <$> mg_plugins m' ∨ ∃ e, mg_states m' !! id = Some (PError e)) ∧
  mg_loaders m' = mg_loaders m ∧ mg_loaded_loaders m' = started_loaders (mg_loaders m).
Proof.
  intros Hhon Hmap Hnd Hno Hcs Hlog. unfold load_and_enable_all.
  pose proof (start_loaders_ok (mg_loaders m) [] [] [] w) as Hs.
  destruct (foldl start_loader _ _) as [[[ok failed] errors] w1]. destruct Hs as (->&Hlog1&Hcs1&Hsv1).
  cbn [app]. set (m1 := Build_PluginManager (mg_loaders m) (mg_plugins m) (mg_states m) (mg_load_order m)
    (mg_loader_mapping m) (started_loaders (mg_loaders m))).
  assert (He : enable_calls (pw_log w1) = []).
  { rewrite Hlog1, Hlog. cbn [app]. generalize (mg_loaders m). intros ls. by induction ls. }
  assert (Hi : loading_inv m1 [] m1 w1).
  { split; cbn [mg_plugins m1]; rewrite ?Hno, ?He; try done.
    - split; cbn [mg_plugins m1]; rewrite ?Hno, ?Hcs1, ?Hcs; [constructor|by intros p ?%not_elem_of_nil|].
      intros id. rewrite lookup_empty. by intros [].
    - by intros id ?%not_elem_of_nil. }
  pose proof (load_plugins_ok m1 failed (mg_load_order m) [] errors m1 w1 Hhon Hmap Hnd Hi) as H2.
  destruct (foldl _ _ (mg_load_order m)) as [[errs m'] w']. destruct H2 as [[Hm Hsub Hen Hed Hst (Hl&Hmp&Hok&Ho)] Hk].
  split_and!; try done. eapply keeps_inv_trans; [|exact Hk]. split; [eauto|].
  intros _. unfold world_inv. rewrite Hcs1, Hsv1, Hlog1, zlen_app.
  apply services_inv_mono. pose proof (zlen_nonneg (EvOnLoad ∘ ld_name <$> mg_loaders m)). lia.
Qed.

(** *** Discovery *)

Definition discovered_inv (loaders : list PluginLoader) (all : list PluginMetadata) (seen : gmap rstring rstring) : Prop :=
  NoDup (plugin_ids all) ∧ (∀ id, is_Some (seen !! id) ↔ id ∈ plugin_ids all) ∧
  ∀ id name, seen !! id = Some name → name ∈ ld_name <$> loaders.

Lemma discover_metadata_ok loaders name discovered : ∀ all seen all' seen',
  name ∈ ld_name <$> loaders → discovered_inv loaders all seen →
  discover_metadata name discovered all seen = Ok (all', seen') → discovered_inv loaders all' seen'.
Proof.
  induction discovered as [|md ds IH]; intros all seen all' seen' Hname Hi; cbn [discover_metadata]; [by intros [= <- <-]|].
  destruct (seen !! pm_id md) eqn:Hseen; [done|]. apply IH; [done|]. destruct Hi as (Hnd&Hdom&Hval).
  assert (Hnew : pm_id md ∉ plugin_ids all) by (intros Hin%Hdom; rewrite Hseen in Hin; by destruct Hin).
  unfold discovered_inv, plugin_ids in *. split_and!.
  - rewrite fmap_app. apply NoDup_app. split_and!; [done| |apply NoDup_singleton]. by intros x Hx ->%list_elem_of_singleton.
  - intros id. rewrite fmap_app, elem_of_app. cbn [fmap list_fmap]. rewrite list_elem_of_singleton, <- Hdom.
    destruct (decide (id = pm_id md)) as [->|Hne]; [rewrite lookup_insert_eq; split; [by right|eauto]|].
    rewrite lookup_insert_ne by done. split; [by left|]. by intros [?|?].
  - intros id n [[<- <-]|[_ ?]]%lookup_insert_Some; [done|eauto].
Qed.

Lemma discover_loaders_ok all_loaders loaders : ∀ all seen all' seen',
  loaders ⊆ all_loaders → discovered_inv all_loaders all seen →
  discover_loaders loaders all seen = Ok (all', seen') → discovered_inv all_loaders all' seen'.
Proof.
  induction loaders as [|l loaders IH]; intros all seen all' seen' Hsub Hi; cbn [discover_loaders]; [by intros [= <- <-]|].
  destruct (ld_discover l) as [ds|e]; [|done]. cbv [mbind result_bind].
  destruct (discover_metadata (ld_name l) ds all seen) as [[all1 seen1]|e] eqn:Hd; [|done]. apply IH.
  - intros x Hx. apply Hsub. by right.
  - eapply discover_metadata_ok; [|exact Hi|exact Hd]. apply list_elem_of_fmap. exists l. split; [done|]. apply Hsub. by left.
Qed.

Lemma discover_all_ok loaders metas m :
  (∀ m, ord m ≡ₚ map_to_list m) → discover_all (manager_new loaders) = Some (Ok metas, m) →
  mg_loaders m = loaders ∧ mg_plugins m = [] ∧ NoDup (mg_load_order m) ∧
  dependencies_present (plugin_ids metas) metas ∧
  topological (plugin_ids metas) (plugin_edges metas) (mg_load_order m) ∧
  ∀ id, id ∈ mg_load_order m → mapped m id.
Proof.
  intros Hord. unfold discover_all, manager_new. cbn [mg_loaders mg_plugins mg_states mg_loaded_loaders].
  destruct (discover_loaders loaders [] ∅) as [[all seen]|e] eqn:Hd; [|done].
  assert (Hi : discovered_inv loaders all seen).
  { eapply discover_loaders_ok; [done| |exact Hd]. split_and!; [constructor| |by intros id n ?].
    intros id. rewrite lookup_empty. split; [by intros []|by intros ?%not_elem_of_nil]. }
  destruct (load_order_correct ord all Hord) as (r&Hr&Hspec). rewrite Hr. cbv [mbind option_bind].
  destruct r as [order|e]; [|done]. intros [= <- <-]. cbn [mg_loaders mg_plugins mg_load_order].
  destruct Hspec as (Hdeps&Hnd&Htop). split_and!; try done. intros id Hid.
  destruct Hi as (_&Hdom&Hval). destruct Htop as [Hperm _]. rewrite Hperm in Hid. apply Hdom in Hid as [name Hname].
  exists name. split; [done|]. by eapply Hval.
Qed.

(** Discovery has a result. *)
Lemma discover_all_total loaders : (∀ m, ord m ≡ₚ map_to_list m) → ∃ r, discover_all (manager_new loaders) = Some r.
Proof.
  intros Hord. unfold discover_all. destruct (discover_loaders _ _ _) as [[all seen]|e]; [|by eexists].
  destruct (load_order_correct ord all Hord) as (r&->&_). cbv [mbind option_bind]. by destruct r; eexists.
Qed.

(** *** Contexts that are taken from and added to *)

Record ctx_update (w w' : PluginWorld) : Prop := {
  cu_log : pw_log w' = pw_log w;
  cu_services : pw_services w' = pw_services w;
  cu_none id : pw_contexts w !! id = None → pw_contexts w' !! id = None;
  cu_some id c : pw_contexts w !! id = Some c →
    ∃ c', pw_contexts w' !! id = Some c' ∧ keeps_handles c c' ∧ pc_provider_tokens c ⊆ pc_provider_tokens c' }.

Lemma ctx_update_refl w : ctx_update w w.
Proof. split; try done. intros id c Hc. by exists c. Qed.
Lemma ctx_update_trans w1 w2 w3 : ctx_update w1 w2 → ctx_update w2 w3 → ctx_update w1 w3.
Proof.
  intros [Hl Hs Hn Hc] [Hl' Hs' Hn' Hc']. split; [congruence..|auto|].
  intros id c Hid. destruct (Hc id c Hid) as (c1&H1&(?&?&?&?)&?). destruct (Hc' id c1 H1) as (c2&?&(?&?&?&?)&?).
  exists c2. split; [done|]. split; [split_and!|]; by etrans.
Qed.
Lemma ctx_update_set id c c' w :
  pw_contexts w !! id = Some c → keeps_handles c c' → pc_provider_tokens c ⊆ pc_provider_tokens c' →
  ctx_update w (set_context id c' w).
Proof.
  intros Hc Hk Ht. split; try done; cbn [set_context pw_contexts].
  - intros id' Hid. rewrite lookup_insert_ne; [done|]. congruence.
  - intros id' d Hd. destruct (decide (id' = id)) as [->|Hne].
    + exists c'. rewrite lookup_insert_eq. by rewrite Hc in Hd; injection Hd as <-.
    + exists d. by rewrite lookup_insert_ne.
Qed.

(** The services with the contexts updated, the router being looked at apart. *)
Lemma ctx_update_tracked {S Req Hd Res} `{!Tracked S Req Hd Res} (proj : PluginContextImpl → list Hd) base n (s : S) w w' :
  (∀ c c', keeps_handles c c' → proj c ⊆ proj c') → ctx_update w w' →
  tracked_inv proj base n (pw_contexts w) s → tracked_inv proj base n (pw_contexts w') s.
Proof.
  intros Hproj [_ _ _ Hc] Hi. eapply tracked_update; [apply Hi|by left| |exact Hi].
  intros id c h r _ _ Hid Hh. destruct (Hc id c Hid) as (c'&?&Hk&_). exists c'. split; [done|]. by apply (Hproj c c' Hk).
Qed.

Lemma ctx_update_keeps w w' : ctx_update w w' → keeps_inv w w'.
Proof.
  intros Hu. split; [exists []; by rewrite app_nil_r, (cu_log _ _ Hu)|]. intros _ [? ? ? ?]. unfold world_inv.
  rewrite (cu_log _ _ Hu), (cu_services _ _ Hu). split; (eapply ctx_update_tracked; [|done..]); intros c c' (?&?&?&?); done.
Qed.
Lemma ctx_update_manager m w w' : ctx_update w w' → manager_inv m w → manager_inv m w'.
Proof.
  intros [_ _ Hn Hc] [Hnd Hp Hcs]. split; [done| |].
  - intros p Hin. destruct (Hp p Hin) as (?&?&[c Hid]&?). split_and!; try done. destruct (Hc _ _ Hid) as (c'&->&_). done.
  - intros id Hid. apply Hcs. destruct (pw_contexts w !! id) eqn:H1; [done|]. rewrite (Hn id H1) in Hid. by destruct Hid.
Qed.

Lemma collect_limbo_handlers_ok m w : ctx_update w (collect_limbo_handlers m w).2.
Proof.
  unfold collect_limbo_handlers. generalize (@nil Handler). revert w.
  induction (mg_plugins m) as [|p ps IH]; intros w all; cbn [foldl]; [apply ctx_update_refl|].
  destruct (pw_contexts w !! lp_context p) as [c|] eqn:Hc; [|apply IH]. cbn [take_limbo_handlers].
  eapply ctx_update_trans; [|apply IH]. by eapply ctx_update_set.
Qed.

Lemma collect_config_providers_ok m w :
  let '(providers, w') := collect_config_providers m w in
  ctx_update w w' ∧ ∀ x, x ∈ providers → x.1 ∈ pm_id ∘ lp_metadata <$> mg_plugins m.
Proof.
  unfold collect_config_providers.
  assert (Hgen : ∀ ps all w, ps ⊆ mg_plugins m → (∀ x, x ∈ all → x.1 ∈ pm_id ∘ lp_metadata <$> mg_plugins m) →
    let '(providers, w') := foldl (λ (acc : list (rstring * PluginConfigProvider) * PluginWorld) p,
      let '(all, w) := acc in
      match pw_contexts w !! lp_context p with
      | Some c => let '(providers, c) := take_config_providers c in
        (all ++ ((pm_id (lp_metadata p),.) <$> providers), set_context (lp_context p) c w)
      | None => (all, w)
      end) (all, w) ps in
    ctx_update w w' ∧ ∀ x, x ∈ providers → x.1 ∈ pm_id ∘ lp_metadata <$> mg_plugins m).
  2: { apply Hgen; [done|]. by intros x ?%not_elem_of_nil. }
  clear w. induction ps as [|p ps IH]; intros all w Hps Hall; cbn [foldl]; [split; [apply ctx_update_refl|done]|].
  assert (Hps' : ps ⊆ mg_plugins m) by (intros x Hx; apply Hps; by right).
  destruct (pw_contexts w !! lp_context p) as [c|] eqn:Hc; [|by apply IH]. cbn [take_config_providers].
  specialize (IH (all ++ ((pm_id (lp_metadata p),.) <$> pc_config_providers c))
    (set_context (lp_context p) (take_config_providers c).2 w) Hps'). cbn [take_config_providers snd] in IH.
  destruct (foldl _ _ ps) as [providers w']. destruct IH as [Hu Hin].
  { intros x [?|(q&->&_)%list_elem_of_fmap]%elem_of_app; [auto|]. apply list_elem_of_fmap. exists p. split; [done|]. apply Hps. by left. }
  split; [|done]. eapply ctx_update_trans; [|exact Hu]. by eapply ctx_update_set.
Qed.

Lemma add_configs_ok prefix configs : ∀ ids r,
  let '(ids', r') := foldl (λ (acc : list ProviderId * DomainRouter) config,
      let pid := make_provider_id prefix (ac_id config) in
      (acc.1 ++ [pid], add pid (convert_api_to_config config) acc.2)) (ids, r) configs in
  ids ⊆ ids' ∧ ∀ id, routed r' id → routed r id ∨ id ∈ ids'.
Proof.
  induction configs as [|c configs IH]; intros ids r; cbn [foldl]; [split; [done|by left]|].
  cbv zeta. cbn [fst snd]. set (pid := make_provider_id prefix (ac_id c)).
  specialize (IH (ids ++ [pid]) (add pid (convert_api_to_config c) r)).
  destruct (foldl _ _ configs) as [ids' r']. destruct IH as [Hsub Hr].
  assert (Hids : ids ⊆ ids') by (intros x Hx; apply Hsub, elem_of_app; by left).
  split; [done|]. intros id [Hid|?]%Hr; [|by right].
  unfold routed in Hid. destruct (add_configs pid (convert_api_to_config c) r) as [e He].
  rewrite He, dm_get_insert in Hid. case_decide as Hp; [|by left]. right. rewrite <- Hp. apply Hsub, elem_of_app. right. by apply list_elem_of_singleton.
Qed.

(** What activating the providers changes: the router, and what it has more is in the
    results. *)
Record activated (results0 results : list (rstring * ActivatedProvider)) (providers : list (rstring * PluginConfigProvider))
    (s s' : PluginServices) : Prop := {
  av_results : results.*1 = results0.*1 ++ providers.*1;
  av_sub : results0 ⊆ results;
  av_router id : routed (ps_router s') id → routed (ps_router s) id ∨ ∃ a, a ∈ results ∧ id ∈ ap_config_ids a.2;
  av_bus : ps_bus s' = ps_bus s;
  av_commands : ps_commands s' = ps_commands s;
  av_tasks : ps_scheduler s' = ps_scheduler s;
  av_cancelled : ps_cancelled s' = ps_cancelled s }.

Lemma activate_ok providers : ∀ results0 s,
  let '(results, s') := foldl activate_provider (results0, s) providers in activated results0 results providers s s'.
Proof.
  induction providers as [|[pid prov] providers IH]; intros results0 s; cbn [foldl].
  { split; try done; [by rewrite app_nil_r|by left]. }
  assert (H1 : let '(results1, s1) := activate_provider (results0, s) (pid, prov) in activated results0 results1 [(pid, prov)] s s1).
  { unfold activate_provider. set (prefix := provider_prefix pid (pcp_type prov)).
    assert (Hids : let '(ids, r) := match pcp_load_initial prov with
        | Ok configs => foldl (λ (acc : list ProviderId * DomainRouter) config,
            let pid := make_provider_id prefix (ac_id config) in
            (acc.1 ++ [pid], add pid (convert_api_to_config config) acc.2)) ([], ps_router s) configs
        | Err _ => ([], ps_router s) end in ∀ id, routed r id → routed (ps_router s) id ∨ id ∈ ids).
    { destruct (pcp_load_initial prov) as [configs|]; [|by left].
      pose proof (add_configs_ok prefix configs [] (ps_router s)) as Ha. destruct (foldl _ _ configs). apply Ha. }
    destruct (match pcp_load_initial prov with Ok _ => _ | Err _ => _ end) as [ids r].
    split; try done; cbn [ps_router with_tokens with_router].
    - by rewrite fmap_app.
    - intros x Hx. apply elem_of_app. by left.
    - intros id [?|?]%Hids; [by left|right]. eexists. split; [apply elem_of_app; right; by apply list_elem_of_singleton|done]. }
  destruct (activate_provider (results0, s) (pid, prov)) as [results1 s1].
  specialize (IH results1 s1). destruct (foldl _ _ providers) as [results s'].
  destruct H1 as [Hr1 Hs1 Hro1 ? ? ? ?], IH as [Hr Hs Hro ? ? ? ?]. split; [|..|congruence|congruence|congruence|congruence].
  - rewrite Hr, Hr1, <- app_assoc. done.
  - by etrans.
  - intros id [[?|(a&?&?)]%Hro1|?]%Hro; [by left| |by right]. right. exists a. auto.
Qed.

Lemma store_cleanup_ok m results : ∀ w,
  manager_inv m w → (∀ x, x ∈ results.*1 → x ∈ pm_id ∘ lp_metadata <$> mg_plugins m) →
  let w' := store_provider_cleanup results m w in
  ctx_update w w' ∧ ∀ a, a ∈ results → ∃ id c, pw_contexts w' !! id = Some c ∧
    ap_config_ids a.2 ⊆ pc_provider_ids c ∧ ap_watch_token a.2 ∈ pc_provider_tokens c.
Proof.
  unfold store_provider_cleanup. induction results as [|a results IH]; intros w Hi Hin; cbn [foldl].
  { split; [apply ctx_update_refl|]. by intros a ?%not_elem_of_nil. }
  assert (H1 : ∃ id c, ctx_update w (store_cleanup (mg_plugins m) w a) ∧
    pw_contexts (store_cleanup (mg_plugins m) w a) !! id = Some c ∧
    ap_config_ids a.2 ⊆ pc_provider_ids c ∧ ap_watch_token a.2 ∈ pc_provider_tokens c).
  { unfold store_cleanup. destruct (List.find _ (mg_plugins m)) as [p|] eqn:Hf.
    - apply List.find_some in Hf as [Hp%list_elem_of_In _]. destruct (mi_plugin _ _ Hi p Hp) as (_&_&[c Hc]&_). rewrite Hc.
      set (c' := register_provider_token _ _). exists (lp_context p), c'. split; [|split; [apply lookup_insert_eq|]].
      + eapply ctx_update_set; [exact Hc|split_and!; try done|]; cbn; intros x Hx; apply elem_of_app; by left.
      + cbn. split; [intros x Hx; apply elem_of_app; by right|]. apply elem_of_app. right. by apply list_elem_of_singleton.
    - assert (Ha : a.1 ∈ pm_id ∘ lp_metadata <$> mg_plugins m) by (apply Hin; by left).
      apply list_elem_of_fmap in Ha as (p&Hp&Hpin). apply list_elem_of_In in Hpin.
      pose proof (List.find_none _ _ Hf p Hpin) as Hb. by rewrite Hp, bool_decide_eq_true_2 in Hb. }
  destruct H1 as (id&c&Hu&Hc&Hids&Htok).
  destruct (IH (store_cleanup (mg_plugins m) w a)) as [Hu' Hrest].
  { by eapply ctx_update_manager. }
  { intros x Hx. apply Hin. by right. }
  split; [by eapply ctx_update_trans|]. intros b [->|Hb]%elem_of_cons; [|by apply Hrest].
  destruct (cu_some _ _ Hu' id c Hc) as (c'&Hc'&(_&_&_&Hk)&Ht). exists id, c'. split; [done|]. split; [by etrans|by apply Ht].
Qed.

Lemma start_plugins_ok m w :
  (∀ l, l ∈ mg_loaders m → honest_loader l) → (∀ id, id ∈ mg_load_order m → mapped m id) →
  NoDup (mg_load_order m) → mg_plugins m = [] → pw_contexts w = ∅ → pw_log w = [] →
  let '(st, w') := start_plugins m w in
  manager_inv (sp_manager st) w' ∧ keeps_inv w w' ∧
  tokens_inv ((ap_watch_token ∘ snd) <$> sp_providers st) w' ∧
  (sp_errors st, sp_manager st) = (load_and_enable_all m w).1 ∧ pw_log w' = pw_log (load_and_enable_all m w).2.
Proof.
  intros Hhon Hmap Hnd Hno Hcs Hlog. unfold start_plugins.
  pose proof (load_and_enable_all_ok m w Hhon Hmap Hnd Hno Hcs Hlog) as Hl.
  destruct (load_and_enable_all m w) as [[errors m1] w1]. destruct Hl as (Hm1&Hk1&_).
  pose proof (collect_limbo_handlers_ok m1 w1) as Hu2. destruct (collect_limbo_handlers m1 w1) as [handlers w2]. cbn [snd] in Hu2.
  pose proof (collect_config_providers_ok m1 w2) as H3. destruct (collect_config_providers m1 w2) as [providers w3].
  destruct H3 as [Hu3 Hprov]. unfold activate_plugin_providers.
  pose proof (activate_ok providers [] (pw_services w3)) as Ha. destruct (foldl activate_provider _ _) as [results s].
  pose proof (ctx_update_trans _ _ _ Hu2 Hu3) as Hu13. destruct Ha as [Hres _ Hro Hbus Hcmd Htask Hcan].
  set (w4 := Build_PluginWorld s (pw_contexts w3) (pw_log w3)).
  assert (Hm4 : manager_inv m1 w4) by (destruct (ctx_update_manager _ _ _ Hu13 Hm1) as [? ? ?]; by split).
  destruct (store_cleanup_ok m1 results w4 Hm4) as [Hu5 Hstored].
  { intros x Hx. rewrite Hres in Hx. apply list_elem_of_fmap in Hx as (y&->&Hy). by apply Hprov. }
  set (w5 := store_provider_cleanup results m1 w4) in *. cbn [sp_manager sp_providers sp_errors fst snd].
  split_and!; [by eapply ctx_update_manager| | |done|].
  - eapply keeps_inv_trans; [exact Hk1|]. eapply keeps_inv_trans; [by apply ctx_update_keeps|].
    split; [exists []; by rewrite app_nil_r, (cu_log _ _ Hu5)|]. intros _ [Hb Hc Ht Hr]. unfold world_inv.
    rewrite (cu_log _ _ Hu5), (cu_services _ _ Hu5). cbn [w4 pw_services pw_log]. split.
    + rewrite Hbus. eapply (ctx_update_tracked _ _ _ _ w4); [|exact Hu5|exact Hb]. by intros c c' (?&?&?&?).
    + rewrite Hcmd. eapply (ctx_update_tracked _ _ _ _ w4); [|exact Hu5|exact Hc]. by intros c c' (?&?&?&?).
    + rewrite Htask. eapply (ctx_update_tracked _ _ _ _ w4); [|exact Hu5|exact Ht]. by intros c c' (?&?&?&?).
    + pose proof (ctx_update_tracked pc_provider_ids base_route _ _ w4 w5 ltac:(by intros c c' (?&?&?&?)) Hu5 Hr) as Hr5.
      eapply tracked_update; [done| | |exact Hr5]; [|eauto].
      intros id [?|(a&Ha&Hid)]%Hro; [by left|]. right. right. destruct (Hstored a Ha) as (pid&c&Hpc&Hsub&_).
      exists pid, c, id. split_and!; [done|by apply Hsub|done].
  - intros t (a&->&Ha)%list_elem_of_fmap. right. destruct (Hstored a Ha) as (pid&c&Hpc&_&Htok). by exists pid, c.
  - rewrite (cu_log _ _ Hu5). cbn [w4 pw_log]. apply (cu_log _ _ Hu13).
Qed.

(** *** While the proxy runs *)

Lemma apply_event_routed ev (r : DomainRouter (CM := CM) (EM := EM)) id :
  routed (apply_event ev r) id → routed r id ∨ registers id ev.
Proof.
  assert (Hadd : ∀ pid c (r : DomainRouter (CM := CM) (EM := EM)), routed (add pid c r) id → routed r id ∨ pid = id).
  { intros pid c r'. unfold routed. destruct (add_configs pid c r') as [e ->]. rewrite dm_get_insert. case_decide; auto. }
  assert (Hrem : ∀ pid, routed (remove pid r) id → routed r id).
  { intros pid. unfold routed. destruct (remove_configs pid r) as [[-> _]| ->]; [done|]. rewrite dm_get_remove. case_decide; [by intros []|done]. }
  destruct ev as [pc|pc|pid]; cbn [apply_event registers]; [apply Hadd| |intros ?%Hrem; by left].
  unfold update. intros [?%Hrem|?]%Hadd; [by left|by right].
Qed.

Lemma own_steps_manager m id w w' : own_steps id w w' → manager_inv m w → manager_inv m w'.
Proof.
  intros [_ Ho Hn Hs _] [Hnd Hp Hcs].
  assert (Hdom : ∀ id', is_Some (pw_contexts w' !! id') ↔ is_Some (pw_contexts w !! id')).
  { intros id'. destruct (decide (id' = id)) as [->|Hne]; [|by rewrite Ho].
    destruct (pw_contexts w !! id) as [c|]; [destruct (Hs c eq_refl) as (c'&->&_)|rewrite Hn by done]; done. }
  split; [done| |].
  - intros p Hin. rewrite Hdom. by apply Hp.
  - intros id'. rewrite Hdom. apply Hcs.
Qed.

Lemma running_ok m toks w step :
  (∀ ev id, step = RProvider ev → registers id ev → base_route id) →
  manager_inv m w → tokens_inv toks w →
  manager_inv m (running w step) ∧ tokens_inv toks (running w step) ∧ keeps_inv w (running w step) ∧
  ∃ l, pw_log (running w step) = pw_log w ++ l ∧ lifecycle l = [].
Proof.
  intros Hev Hm Ht.
  assert (Hnolog : ∀ s', ps_cancelled s' = ps_cancelled (pw_services w) →
    (world_inv w → services_inv (n0 + zlen (pw_log w)) (pw_contexts w) s') →
    let w' := Build_PluginWorld s' (pw_contexts w) (pw_log w) in
    manager_inv m w' ∧ tokens_inv toks w' ∧ keeps_inv w w' ∧ ∃ l, pw_log w' = pw_log w ++ l ∧ lifecycle l = []).
  { intros s' Hc Hi. split_and!.
    - by destruct Hm as [? ? ?].
    - unfold tokens_inv in *. cbn [pw_services pw_contexts]. by rewrite Hc.
    - split; [exists []; by rewrite app_nil_r|]. intros _. exact Hi.
    - exists []. by rewrite app_nil_r. }
  destruct step as [id call|i|ev|now]; cbn [running].
  - pose proof (plugin_call_own id call w) as Hown. split_and!.
    + by eapply own_steps_manager.
    + by eapply own_steps_tokens.
    + split; [|apply plugin_call_inv]. destruct Hown as [(l&?&_) _ _ _ _]. by exists l.
    + apply Hown.
  - destruct (fire_task (ps_now (pw_services w)) i (ps_scheduler (pw_services w))) as [[task sch]|] eqn:Hf.
    + apply Hnolog; [done|]. intros [Hb Hc Htk Hr]. split; try done.
      destruct (fire_task_ok _ _ _ _ _ _ (proj1 Htk) Hf) as [Hwf Hlive].
      eapply tracked_update; [exact Hwf|left; by apply Hlive| |exact Htk]. eauto.
    + split_and!; [done..|apply keeps_inv_refl|]. exists []. by rewrite app_nil_r.
  - apply Hnolog; [done|]. intros [Hb Hc Htk Hr]. split; try done.
    eapply tracked_update; [done| | |exact Hr]; [|eauto].
    intros id [?|?]%apply_event_routed; [by left|]. right. left. by eapply Hev.
  - apply Hnolog; [done|]. by intros [? ? ? ?].
Qed.

Lemma run_proxy_ok m toks steps : ∀ w,
  (∀ ev id, RProvider ev ∈ steps → registers id ev → base_route id) →
  manager_inv m w → tokens_inv toks w →
  let w' := run_proxy steps w in
  manager_inv m w' ∧ tokens_inv toks w' ∧ keeps_inv w w' ∧ ∃ l, pw_log w' = pw_log w ++ l ∧ lifecycle l = [].
Proof.
  unfold run_proxy. induction steps as [|step steps IH]; intros w Hev Hm Ht; cbn [foldl].
  { split_and!; [done..|apply keeps_inv_refl|]. exists []. by rewrite app_nil_r. }
  destruct (running_ok m toks w step) as (Hm1&Ht1&Hk1&l&Hl&Hlc); [|done..|].
  { intros ev id ->. apply Hev. by left. }
  destruct (IH (running w step)) as (Hm2&Ht2&Hk2&l'&Hl'&Hlc'); [|done..|].
  { intros ev id Hin. apply Hev. by right. }
  split_and!; [done..|by eapply keeps_inv_trans|]. exists (l ++ l'). by rewrite Hl', Hl, app_assoc, lifecycle_app, Hlc, Hlc'.
Qed.

(** *** Shutdown *)

(** With the plugins of [rest] still enabled. *)
Record disabling_inv (rest : list LoadedPlugin) (m : PluginManager) (w : PluginWorld) : Prop := {
  di_nodup : NoDup (lp_context <$> rest);
  di_plugin p : p ∈ rest →
    pm_id (lp_metadata p) = lp_context p ∧ mg_states m !! lp_context p = Some PEnabled ∧
    is_Some (pw_contexts w !! lp_context p);
  di_clean id c : pw_contexts w !! id = Some c → id ∈ lp_context <$> rest ∨ context_clean c }.

Lemma disable_plugin_ok toks p rest m w :
  disabling_inv (p :: rest) m w → tokens_inv toks w →
  let '(m', w') := disable_plugin (m, w) p in
  disabling_inv rest m' w' ∧ tokens_inv toks w' ∧ keeps_inv w w' ∧ m' = set_state (lp_context p) PDisabled m ∧
  ∃ l, pw_log w' = pw_log w ++ l ∧ lifecycle l = [EvDisable (lp_context p); EvCleanup (lp_context p)].
Proof.
  intros [Hnd Hp Hcl] Ht. destruct (Hp p ltac:(by left)) as (Hid&Hst&[c Hc]). unfold disable_plugin. rewrite Hid, Hst.
  cbv zeta. set (id := lp_context p) in *. set (w1 := log (EvDisable id) w).
  pose proof (run_plugin_own id (pl_on_disable (lp_plugin p)) w1) as Hown.
  pose proof (keeps_inv_run id (pl_on_disable (lp_plugin p)) w1) as Hk2.
  destruct (run_plugin id _ w1) as [r w2]. cbn [snd] in *. pose proof (own_steps_tokens toks id w1 w2 Hown Ht) as Ht2.
  destruct Hown as [(l&Hl&Hlc) Ho _ Hs _]. destruct (Hs c Hc) as (c2&Hc2&_).
  destruct (cleanup_context_eq id w2 c2 Hc2) as (c3&Hclean&He).
  apply NoDup_cons in Hnd as [Hnew Hnd].
  assert (Hctx : ∀ id', id' ≠ id → pw_contexts (cleanup_context id w2) !! id' = pw_contexts w !! id').
  { intros id' Hne. rewrite He. cbn [pw_contexts]. rewrite lookup_insert_ne, Ho by done. done. }
  split_and!; [| | |done|].
  - split; [done| |].
    + intros q Hq. destruct (Hp q ltac:(by right)) as (?&?&?).
      assert (lp_context q ≠ id) by (intros Heq; apply Hnew, list_elem_of_fmap; by exists q).
      cbn [set_state mg_states]. rewrite lookup_insert_ne, Hctx by done. done.
    + intros id' d Hd. destruct (decide (id' = id)) as [->|Hne].
      * right. rewrite He in Hd. cbn [pw_contexts] in Hd. rewrite lookup_insert_eq in Hd. by injection Hd as <-.
      * rewrite Hctx in Hd by done. destruct (Hcl id' d Hd) as [[->|?]%elem_of_cons|?]; [done|by left|by right].
  - by apply cleanup_context_tokens.
  - eapply keeps_inv_trans; [apply (keeps_inv_log (EvDisable id))|]. eapply keeps_inv_trans; [exact Hk2|]. apply keeps_inv_cleanup.
  - exists ([EvDisable id] ++ l ++ [EvCleanup id]). rewrite He. cbn [pw_log]. rewrite Hl. cbn [w1 log pw_log].
    split; [by rewrite <- !app_assoc|]. rewrite !lifecycle_app, Hlc. done.
Qed.

Lemma disable_all_ok toks rest : ∀ m w,
  disabling_inv rest m w → tokens_inv toks w →
  let '(m', w') := foldl disable_plugin (m, w) rest in
  disabling_inv [] m' w' ∧ tokens_inv toks w' ∧ keeps_inv w w' ∧ mg_loaders m' = mg_loaders m ∧
  (∀ id, mg_states m' !! id = if decide (id ∈ lp_context <$> rest) then Some PDisabled else mg_states m !! id) ∧
  ∃ l, pw_log w' = pw_log w ++ l ∧ lifecycle l = rest ≫= λ p, [EvDisable (lp_context p); EvCleanup (lp_context p)].
Proof.
  induction rest as [|p rest IH]; intros m w Hi Ht; cbn [foldl].
  { split_and!; [done..|apply keeps_inv_refl|done|done|]. exists []. by rewrite app_nil_r. }
  pose proof (disable_plugin_ok toks p rest m w Hi Ht) as H1. destruct (disable_plugin (m, w) p) as [m1 w1].
  destruct H1 as (Hi1&Ht1&Hk1&->&l&Hl&Hlc). specialize (IH _ w1 Hi1 Ht1).
  destruct (foldl disable_plugin _ rest) as [m' w']. destruct IH as (Hi2&Ht2&Hk2&Hld&Hst&l'&Hl'&Hlc').
  split_and!; [done|done|by eapply keeps_inv_trans|done| |].
  - intros id. rewrite Hst. cbn [set_state mg_states]. pose proof (di_nodup _ _ _ Hi) as [Hnew _]%NoDup_cons.
    case_decide as Hin; [by rewrite decide_True by (by right)|].
    destruct (decide (id = lp_context p)) as [->|Hne]; [by rewrite lookup_insert_eq, decide_True by (by left)|].
    rewrite lookup_insert_ne by done. rewrite decide_False; [done|]. by intros [?|?]%elem_of_cons.
  - exists (l ++ l'). by rewrite Hl', Hl, app_assoc, lifecycle_app, Hlc, Hlc'.
Qed.

Lemma log_all_ok {A} (step : PluginWorld → A → PluginWorld) (ev : A → plugin_event) xs : ∀ w,
  (∀ x w, x ∈ xs → step w x = log (ev x) w) →
  foldl step w xs = Build_PluginWorld (pw_services w) (pw_contexts w) (pw_log w ++ (ev <$> xs)).
Proof.
  induction xs as [|x xs IH]; intros w Hs; cbn [foldl]; [destruct w; by rewrite app_nil_r|].
  rewrite (Hs x w) by by left. rewrite IH by (intros; apply Hs; by right). cbn [log pw_services pw_contexts pw_log].
  by rewrite <- app_assoc.
Qed.

Lemma keeps_inv_grow w l : keeps_inv w (Build_PluginWorld (pw_services w) (pw_contexts w) (pw_log w ++ l)).
Proof.
  split; [by exists l|]. intros _. unfold world_inv. cbn [pw_services pw_contexts pw_log].
  apply services_inv_mono. rewrite zlen_app. pose proof (zlen_nonneg l). lia.
Qed.

(** The calls of a shutdown. *)
Definition shutdown_log (m : PluginManager) : list plugin_event :=
  (reverse (mg_plugins m) ≫= λ p, [EvDisable (lp_context p); EvCleanup (lp_context p)]) ++
  ((λ p, EvUnload (lp_loader_name p) (lp_context p)) <$> reverse (mg_plugins m)) ++
  (EvShutdown <$> reverse (mg_loaded_loaders m)).

Lemma shutdown_ok toks m w :
  manager_inv m w → tokens_inv toks w → (∀ n, n ∈ mg_loaded_loaders m → n ∈ ld_name <$> mg_loaders m) →
  let '(m', w') := shutdown m w in
  keeps_inv w w' ∧ tokens_inv toks w' ∧ (∀ id c, pw_contexts w' !! id = Some c → context_clean c) ∧
  (∀ id, mg_states m' !! id = if decide (id ∈ lp_context <$> mg_plugins m) then Some PDisabled else mg_states m !! id) ∧
  mg_plugins m' = [] ∧ ∃ l, pw_log w' = pw_log w ++ l ∧ lifecycle l = shutdown_log m.
Proof.
  intros [Hnd Hp Hcs] Ht Hld. unfold shutdown. cbv zeta.
  set (m1 := Build_PluginManager (mg_loaders m) [] (mg_states m) (mg_load_order m) (mg_loader_mapping m) []).
  assert (Hmem : ∀ x, x ∈ reverse (mg_plugins m) ↔ x ∈ mg_plugins m) by (intros x; apply elem_of_reverse).
  assert (Hi : disabling_inv (reverse (mg_plugins m)) m1 w).
  { split.
    - rewrite fmap_reverse. by rewrite reverse_Permutation.
    - intros p Hin%Hmem. destruct (Hp p Hin) as (?&?&?&?). done.
    - intros id c Hc. left. rewrite fmap_reverse. apply elem_of_reverse, Hcs. by rewrite Hc. }
  pose proof (disable_all_ok toks (reverse (mg_plugins m)) m1 w Hi Ht) as Hd.
  assert (Hpl : mg_plugins (foldl disable_plugin (m1, w) (reverse (mg_plugins m))).1 = []).
  { assert (Hg : ∀ ps m w, mg_plugins m = [] → mg_plugins (foldl disable_plugin (m, w) ps).1 = []).
    { induction ps as [|q ps IH]; intros m' w' Hm'; [done|]. cbn [foldl]. unfold disable_plugin at 2.
      destruct (mg_states m' !! _) as [[]|]; try by apply IH. destruct (run_plugin _ _ _). by apply IH. }
    by apply Hg. }
  destruct (foldl disable_plugin (m1, w) (reverse (mg_plugins m))) as [m2 w2]. cbn [fst] in Hpl.
  destruct Hd as (Hi2&Ht2&Hk2&Hl2&Hst2&l&Hl&Hlc). cbn [m1 mg_loaders mg_states] in Hl2, Hst2.
  rewrite (log_all_ok _ (λ p, EvUnload (lp_loader_name p) (lp_context p))).
  2: { intros p w' Hin%Hmem. destruct (Hp p Hin) as (Hid&_&_&[ldr Hf]). unfold unload_plugin.
       rewrite Hl2, Hf, Hid. by destruct (find_loader_name _ _ _ Hf) as [_ ->]. }
  rewrite (log_all_ok _ EvShutdown).
  2: { intros n w' Hin. rewrite elem_of_reverse in Hin. unfold stop_loader. rewrite Hl2.
       destruct (proj2 (find_loader_Some n (mg_loaders m)) (Hld n Hin)) as [ldr Hf]. rewrite Hf.
       by destruct (find_loader_name _ _ _ Hf) as [_ ->]. }
  cbn [pw_services pw_contexts pw_log]. split_and!.
  - eapply keeps_inv_trans; [exact Hk2|]. rewrite <- app_assoc. apply keeps_inv_grow.
  - exact Ht2.
  - intros id c Hc. destruct (di_clean _ _ _ Hi2 id c Hc) as [?%not_elem_of_nil|?]; done.
  - intros id. rewrite Hst2, fmap_reverse. apply decide_ext. apply elem_of_reverse.
  - done.
  - eexists. rewrite Hl, <- !app_assoc. split; [reflexivity|]. rewrite !lifecycle_app, Hlc. unfold shutdown_log.
    f_equal. f_equal; unfold lifecycle; apply filter_all; intros x (y&->&_)%list_elem_of_fmap; done.
Qed.
(** *** The whole life of the plugins *)

Lemma whole_life loaders metas m w0 steps :
  (∀ m, ord m ≡ₚ map_to_list m) → (∀ l, l ∈ loaders → honest_loader l) →
  discover_all (manager_new loaders) = Some (Ok metas, m) → pw_contexts w0 = ∅ → pw_log w0 = [] →
  (∀ ev id, RProvider ev ∈ steps → registers id ev → base_route id) →
  let '(st, w1) := start_plugins m w0 in
  let '(m', w) := shutdown (sp_manager st) (run_proxy steps w1) in
  let enabled := lp_context <$> mg_plugins (sp_manager st) in
  keeps_inv w0 w ∧ tokens_inv ((ap_watch_token ∘ snd) <$> sp_providers st) w ∧
  (∀ id c, pw_contexts w !! id = Some c → context_clean c) ∧
  enabled `sublist_of` enable_calls (pw_log w1) ∧ enable_calls (pw_log w1) `sublist_of` mg_load_order m ∧
  (∀ id, id ∈ mg_load_order m →
    mg_states (sp_manager st) !! id = Some PEnabled ∧ id ∈ enabled ∧ mg_states m' !! id = Some PDisabled ∨
    ∃ e, mg_states (sp_manager st) !! id = Some (PError e) ∧ mg_states m' !! id = Some (PError e)) ∧
  lifecycle (pw_log w) = lifecycle (pw_log w1) ++ shutdown_log (sp_manager st) ∧
  mg_loaded_loaders (sp_manager st) = started_loaders loaders.
Proof.
  intros Hord Hhon Hdisc Hcs Hlog Hev.
  destruct (discover_all_ok loaders metas m Hord Hdisc) as (Hld&Hno&Hnd&_&_&Hmap). rewrite <- Hld in Hhon |- *.
  pose proof (start_plugins_ok m w0 Hhon Hmap Hnd Hno Hcs Hlog) as Hs.
  pose proof (load_and_enable_all_ok m w0 Hhon Hmap Hnd Hno Hcs Hlog) as Hl.
  destruct (load_and_enable_all m w0) as [[errs m1] wl]. destruct Hl as (_&_&Hen&Hord1&Hst1&Hl1&Hl2).
  destruct (start_plugins m w0) as [st w1]. destruct Hs as (Hm1&Hk1&Ht1&Hst&Hlog1). cbn [fst snd] in Hst, Hlog1.
  injection Hst as _ <-. rewrite <- Hlog1 in Hen, Hord1.
  destruct (run_proxy_ok _ _ steps w1 Hev Hm1 Ht1) as (Hm2&Ht2&Hk2&l2&Hlog2&Hlc2).
  pose proof (shutdown_ok _ _ _ Hm2 Ht2) as Hsd. destruct (shutdown (sp_manager st) (run_proxy steps w1)) as [m' w].
  destruct Hsd as (Hk3&Ht3&Hclean&Hstates&_&l3&Hlog3&Hlc3).
  { rewrite Hl1, Hl2. unfold started_loaders. intros n (l&->&[_ Hin]%list_elem_of_filter)%list_elem_of_fmap.
    apply list_elem_of_fmap. eauto. }
  cbv zeta. split_and!; try done.
  - eapply keeps_inv_trans; [exact Hk1|]. by eapply keeps_inv_trans.
  - intros id Hid. rewrite Hstates. destruct (Hst1 id Hid) as [[? Hin]|[e He]].
    + left. by rewrite decide_True.
    + right. exists e. rewrite decide_False; [done|]. intros (p&->&Hp)%list_elem_of_fmap.
      destruct (mi_plugin _ _ Hm1 p Hp) as (_&Hst&_). congruence.
  - by rewrite Hlog3, Hlog2, !lifecycle_app, Hlc2, Hlc3, app_nil_r.
Qed.
End plugins.

(** ** The properties *)

Section life.
Context {TypeId Event : Type} `{!EqDecision TypeId}.
Context {HM PM : Type} `{!DashMap TypeId (list (HandlerEntry Event)) HM}.
Context `{!DashMap PacketKey (list (HandlerEntry RawPacketEvent)) PM}.
Context `{IPN : IpNets} `{LC : Lowercase} `{WM : WildMatch}.
Context {CM EM : Type} `{!DashMap ProviderId RouterEntry CM} `{!DashMap rstring ProviderId EM}.
Context `{HL : !DashMapLaws TypeId (list (HandlerEntry Event)) HM}.
Context `{PL : !DashMapLaws PacketKey (list (HandlerEntry RawPacketEvent)) PM}.
Context `{CL : !DashMapLaws ProviderId RouterEntry CM}.
Context {H Task Handler CodecFactory TransportFilter : Type}.
Context (codec_metadata : CodecFactory → FilterMetadata) (transport_metadata : TransportFilter → FilterMetadata).
Context (ord : gmap rstring Z → list (rstring * Z)) (plugin_configs : gmap rstring PluginPermissions).

Abbreviation pworld := (PluginWorld (TypeId := TypeId) (Event := Event) (HM := HM) (PM := PM) (CM := CM) (EM := EM)
  (H := H) (Task := Task) (Handler := Handler) (CodecFactory := CodecFactory) (TransportFilter := TransportFilter)).
Abbreviation start := (start_plugins codec_metadata transport_metadata ord plugin_configs).
Abbreviation runs := (run_proxy codec_metadata transport_metadata ord).
Abbreviation stop := (shutdown codec_metadata transport_metadata ord).

(** C34: When plugins are stopped their listeners, commands, tasks and configurations go.  If every
    loader gives a plugin with the id it was discovered under, then whatever the plugins did
    through their contexts while they were enabled, disabled and in between, after the shutdown
    every listener on the bus and every command was there before the first plugin was loaded, no
    task of theirs runs any more, a configuration that is still routed was there before or was
    sent by a provider while the proxy ran, and the watch of every provider has been told to end.
    Filters and limbo handlers are not tracked, and stay. (The number of operations is below
    2^64, so that the handles of listeners do not wrap around.) *)
Theorem stopped_plugins_leave_nothing loaders metas m (ops : list (bus_op (TypeId := TypeId) (Event := Event)))
    (w0 : pworld) steps :
  (∀ m, ord m ≡ₚ map_to_list m) → (∀ l, l ∈ loaders → honest_loader l) →
  discover_all ord (manager_new loaders) = Some (Ok metas, m) →
  ps_bus (pw_services w0) = bus_run ops → ps_scheduler (pw_services w0) = scheduler_new →
  pw_contexts w0 = ∅ → pw_log w0 = [] →
  let '(st, w1) := start m w0 in
  let '(m', w) := stop (sp_manager st) (runs steps w1) in
  zlen ops + zlen (pw_log w) < 2 ^ 64 - 2 →
  (∀ l, listening (ps_bus (pw_services w)) l → listening (ps_bus (pw_services w0)) l) ∧
  cmgr_commands (ps_commands (pw_services w)) ⊆ cmgr_commands (ps_commands (pw_services w0)) ∧
  (∀ i h, ¬ scheduled (ps_scheduler (pw_services w)) (i, h)) ∧
  (∀ id, routed (ps_router (pw_services w)) id →
     routed (ps_router (pw_services w0)) id ∨ ∃ ev, RProvider ev ∈ steps ∧ registers id ev) ∧
  (∀ a, a ∈ sp_providers st → ap_watch_token a.2 ∈ ps_cancelled (pw_services w)).
Proof.
  intros Hord Hhon Hdisc Hbus Hsched Hcs Hlog.
  set (bl := listening (ps_bus (pw_services w0))).
  set (bc := λ c : rstring * RegisteredCommand H, cmgr_commands (ps_commands (pw_services w0)) !! c.1 = Some c.2).
  set (bt := λ _ : nat * Z, False).
  set (br := λ id, routed (ps_router (pw_services w0)) id ∨ ∃ ev, RProvider ev ∈ steps ∧ registers id ev).
  pose proof (whole_life codec_metadata transport_metadata ord plugin_configs bl bc bt br (zlen ops) loaders metas m w0 steps
    Hord Hhon Hdisc Hcs Hlog ltac:(intros; right; eauto)) as Hlife.
  destruct (start m w0) as [st w1]. destruct (stop (sp_manager st) (runs steps w1)) as [m' w].
  destruct Hlife as ([_ Hk]&Ht3&Hclean&_). intros Hb.
  assert (Hw : world_inv bl bc bt br (zlen ops) w).
  { apply Hk; [exact Hb|]. unfold world_inv. rewrite Hcs, Hlog. change (zlen []) with 0. rewrite Z.add_0_r. split; apply tracked_start; try done.
    - exists (bus_spec ops). rewrite Hbus. apply bus_sim_run. unfold zlen in *. lia.
    - rewrite Hsched. apply scheduler_new_wf, zlen_nonneg.
    - rewrite Hsched. intros [i h] (t&Ht&_). done.
    - intros id Hid. by left. }
  destruct Hw as [Hwb Hwc Hwt Hwr]. split_and!.
  - exact (tracked_done pc_handles bl _ _ _ ltac:(intros id d Hd; apply (Hclean id d Hd)) Hwb).
  - apply map_subseteq_spec. intros k c Hc. apply (tracked_done pc_commands bc _ _ _ ltac:(intros id d Hd; apply (Hclean id d Hd)) Hwc (k, c) Hc).
  - intros i h Hs. apply (tracked_done pc_tasks bt _ _ _ ltac:(intros id d Hd; apply (Hclean id d Hd)) Hwt (i, h) Hs).
  - exact (tracked_done pc_provider_ids br _ _ _ ltac:(intros id d Hd; apply (Hclean id d Hd)) Hwr).
  - intros a Ha. destruct (Ht3 (ap_watch_token a.2)) as [?|(id&c&Hc&Hin)]; [apply list_elem_of_fmap; by exists a|done|].
    destruct (Hclean id c Hc) as (_&_&_&_&Heq). rewrite Heq in Hin. by apply not_elem_of_nil in Hin.
Qed.

(** C33: If every loader gives a plugin with the id it was discovered under, plugins are started
    after what they depend on and stopped before it: every required dependency was found,
    [on_enable] is called in an order of the dependency graph, also for a plugin whose dependency
    failed to start, and each plugin that was discovered is either enabled, and disabled at the
    end, or marked with its error.  The shutdown disables and cleans up the enabled plugins, the
    last first, then unloads them, and then stops the loaders whose runtime had started, the last
    first. *)
Theorem plugins_follow_dependencies loaders metas m (w0 : pworld) steps :
  (∀ m, ord m ≡ₚ map_to_list m) → (∀ l, l ∈ loaders → honest_loader l) →
  discover_all ord (manager_new loaders) = Some (Ok metas, m) →
  pw_contexts w0 = ∅ → pw_log w0 = [] →
  let '(st, w1) := start m w0 in
  let '(m', w) := stop (sp_manager st) (runs steps w1) in
  let plugins := mg_plugins (sp_manager st) in
  dependencies_present (plugin_ids metas) metas ∧
  (∃ order, topological (plugin_ids metas) (plugin_edges metas) order ∧
     enable_calls (pw_log w1) `sublist_of` order ∧ (lp_context <$> plugins) `sublist_of` enable_calls (pw_log w1)) ∧
  (∀ id, id ∈ plugin_ids metas →
     is_plugin_loaded id (sp_manager st) = true ∧ id ∈ lp_context <$> plugins ∧ plugin_state id m' = Some PDisabled ∨
     ∃ e, plugin_state id (sp_manager st) = Some (PError e) ∧ plugin_state id m' = Some (PError e)) ∧
  lifecycle (pw_log w) = lifecycle (pw_log w1) ++
    (reverse plugins ≫= λ p, [EvDisable (lp_context p); EvCleanup (lp_context p)]) ++
    ((λ p, EvUnload (lp_loader_name p) (lp_context p)) <$> reverse plugins) ++
    (EvShutdown <$> reverse (started_loaders loaders)).
Proof.
  intros Hord Hhon Hdisc Hcs Hlog.
  destruct (discover_all_ok ord loaders metas m Hord Hdisc) as (_&_&_&Hdeps&Htop&_).
  pose proof (whole_life codec_metadata transport_metadata ord plugin_configs (λ _, True) (λ _, True) (λ _, True) (λ _, True) 0
    loaders metas m w0 steps Hord Hhon Hdisc Hcs Hlog ltac:(done)) as Hlife.
  destruct (start m w0) as [st w1]. destruct (stop (sp_manager st) (runs steps w1)) as [m' w].
  destruct Hlife as (_&_&_&Hen&Hcalls&Hst&Hlc&Hld). cbv zeta. unfold shutdown_log in Hlc. rewrite Hld in Hlc.
  split_and!; [done|by exists (mg_load_order m)| |done].
  intros id Hid. destruct Htop as [Hperm _]. rewrite <- Hperm in Hid. unfold is_plugin_loaded, plugin_state.
  destruct (Hst id Hid) as [(He&?&?)|?]; [left|by right]. by rewrite bool_decide_eq_true_2.
Qed.
End life.

(** ** A proxy with plugins *)

#[local] Existing Instance range_nets.
#[local] Existing Instance ascii_lowercase.
#[local] Existing Instance glob_match.

Abbreviation SamplePlugin := (Plugin (TypeId := Z) (Event := list string) (H := string) (Task := string)
  (Handler := string) (CodecFactory := FilterMetadata) (TransportFilter := FilterMetadata)).
Abbreviation SampleScript := (PluginScript (TypeId := Z) (Event := list string) (H := string) (Task := string)
  (Handler := string) (CodecFactory := FilterMetadata) (TransportFilter := FilterMetadata)).
Abbreviation SampleLoader := (PluginLoader (TypeId := Z) (Event := list string) (H := string) (Task := string)
  (Handler := string) (CodecFactory := FilterMetadata) (TransportFilter := FilterMetadata)).
Abbreviation SampleStep := (run_step (TypeId := Z) (Event := list string) (H := string) (Task := string)
  (Handler := string) (CodecFactory := FilterMetadata) (TransportFilter := FilterMetadata)).
Abbreviation SampleWorld := (PluginWorld (TypeId := Z) (Event := list string)
  (HM := assoc_map Z (list (HandlerEntry (list string)))) (PM := assoc_map PacketKey (list (HandlerEntry RawPacketEvent)))
  (CM := assoc_map ProviderId RouterEntry) (EM := assoc_map rstring ProviderId)
  (H := string) (Task := string) (Handler := string) (CodecFactory := FilterMetadata) (TransportFilter := FilterMetadata)).

(** The services before the first plugin: the listeners of [sample_ops] and the built-in
    command. *)
Definition sample_services := Build_PluginServices sample_bus builtin_manager (scheduler_new (Task := string))
  (router_new : @DomainRouter (assoc_map ProviderId RouterEntry) (assoc_map rstring ProviderId))
  (filter_registry_new (F := FilterMetadata)) (filter_registry_new (F := FilterMetadata)) 0 ∅ 0.
Definition sample_world : SampleWorld := Build_PluginWorld sample_services ∅ [].

(** A plugin that registers something of each kind and drops its first listener again. *)
Definition arena_config : ApiServerConfig :=
  Build_ApiServerConfig (str "arena") None [Build_ServerAddress (str "10.0.0.9") 25565] [str "arena.example.com"]
    ApiOffline [] 0 None false false.
Definition arena_script : SampleScript :=
  PCall (CListen (LEvent 0 PRIORITY_NORMAL (sign "arena"))) (λ first,
  PCall (CListen (LPacket chat_packet PRIORITY_NORMAL (HSync drop_packet))) (λ _,
  PCall (CUnsubscribe first) (λ _,
  PCall (CRegisterCommand (str "Arena") [str "a"] [] "arena"%string) (λ _,
  PCall (CInterval 50 "tick"%string) (λ _,
  PCall (CRegisterLimboHandler "queue"%string) (λ _,
  PCall (CRegisterConfigProvider (Build_PluginConfigProvider (str "db") (Ok [arena_config]))) (λ _,
  PReturn (Ok ())))))))).
Definition sample_plugin (id : string) (deps : list PluginDependency) (enable : SampleScript) : SamplePlugin :=
  Build_Plugin (plugin (str id) deps) enable (PReturn (Ok ())).
Definition need (id : string) : list PluginDependency := [Build_PluginDependency (str id) false].

Definition factories_of (ps : list SamplePlugin) :=
  foldl (λ fs p, default fs (static_register (pl_metadata p) p fs)) ∅ ps.
Definition arena_plugins : list SamplePlugin :=
  [sample_plugin "arena" (need "db") arena_script;
   sample_plugin "broken" [] (PCall (CDelay 5 "late"%string) (λ _, PReturn (Err (PluginCustom (str "no")))));
   sample_plugin "db" [] (PCall (CListen (LEvent 0 PRIORITY_LATE (sign "db"))) (λ _, PReturn (Ok ())))].
Definition arena_loaders : list SampleLoader := [static_loader (factories_of arena_plugins)].
Definition arena_permissions : gmap rstring PluginPermissions :=
  plugin_permissions [(str "arena", [str "ban"])] [str "arena"; str "db"; str "broken"].
Definition arena_steps : list SampleStep :=
  [RTime 120; RFire 1; RCall (str "db") (CListen (LEvent 0 PRIORITY_FIRST (sign "again")));
   RProvider (Added lobby)].

Abbreviation started m := (start_plugins id id map_to_list arena_permissions m sample_world).
Abbreviation ran st := (run_proxy id id map_to_list arena_steps st.2).

Definition discovered (loaders : list SampleLoader) :=
  match discover_all map_to_list (manager_new loaders) with Some (_, m) => m | None => manager_new loaders end.

Definition honest_factories (fs : gmap rstring (PluginMetadata * SamplePlugin)) : Prop :=
  ∀ id f, fs !! id = Some f → pm_id (pl_metadata f.2) = id.
Lemma factories_of_honest (ps : list SamplePlugin) : honest_factories (factories_of ps).
Proof.
  assert (Hg : ∀ fs : gmap rstring (PluginMetadata * SamplePlugin), honest_factories fs →
    honest_factories (foldl (λ fs p, default fs (static_register (pl_metadata p) p fs)) fs ps)); [|by apply Hg; intros id f].
  induction ps as [|p ps IH]; intros fs Hfs; cbn [foldl]; [exact Hfs|]. apply IH. intros id f.
  unfold static_register. case_match; cbn; [exact (Hfs id f)|].
  intros [[<- <-]|[_ ?]]%lookup_insert_Some; [done|by apply Hfs].
Qed.
Lemma static_loader_honest (ps : list SamplePlugin) l :
  l ∈ [static_loader (factories_of ps)] → honest_loader l.
Proof.
  intros ->%list_elem_of_singleton. unfold honest_loader, static_loader. cbn [ld_load].
  intros id p. destruct (factories_of ps !! id) as [f|] eqn:Hl; [|done]. intros [= <-]. by apply (factories_of_honest ps).
Qed.

Lemma stopped_plugins_leave_nothing_witness :
  let st := started (discovered arena_loaders) in
  let w := (shutdown id id map_to_list (sp_manager st.1) (ran st)).2 in
  (* while it runs the plugins listen and the command and the server are there *)
  fire 0 [] (ps_bus (pw_services (ran st))) = ["again"; "early"; "second"; "db"]%string ∧
  is_Some (cmgr_commands (ps_commands (pw_services (ran st))) !! str "arena") ∧
  sp_limbo_handlers st.1 = ["queue"%string] ∧
  fst <$> resolve (ps_router (pw_services (ran st))) (str "arena.example.com") =
    Some (Build_ProviderId (str "plugin:arena:db") (str "arena")) ∧
  (* afterwards nothing of it *)
  (∀ l, listening (ps_bus (pw_services w)) l → listening sample_bus l) ∧
  cmgr_commands (ps_commands (pw_services w)) ⊆ cmgr_commands builtin_manager ∧
  (∀ i h, ¬ scheduled (ps_scheduler (pw_services w)) (i, h)) ∧
  fire 0 [] (ps_bus (pw_services w)) = ["early"; "second"]%string.
Proof.
  intros st w.
  assert (Hd : ∃ metas, discover_all map_to_list (manager_new arena_loaders) = Some (Ok metas, discovered arena_loaders))
    by (eexists; vm_compute; reflexivity).
  destruct Hd as [metas Hd].
  pose proof (stopped_plugins_leave_nothing id id map_to_list arena_permissions arena_loaders metas (discovered arena_loaders)
    sample_ops sample_world arena_steps (λ m, Permutation_refl _) (static_loader_honest arena_plugins) Hd eq_refl eq_refl eq_refl eq_refl) as Ht.
  assert (Hw : zlen sample_ops + zlen (pw_log w) < 2 ^ 64 - 2) by (vm_compute; reflexivity).
  fold st in Ht. rewrite (surjective_pairing st) in Ht. cbv beta iota in Ht.
  rewrite (surjective_pairing (shutdown _ _ _ _ _)) in Ht. cbv beta iota in Ht.
  destruct (Ht Hw) as (Hl&Hc&Hsch&_). clear Ht Hw.
  split_and!; [vm_compute; reflexivity|vm_compute; by eexists|vm_compute; reflexivity|vm_compute; reflexivity|done|done|done|vm_compute; reflexivity].
Defined.

Lemma plugins_follow_dependencies_witness :
  let st := started (discovered arena_loaders) in
  let '(m', w) := shutdown id id map_to_list (sp_manager st.1) (ran st) in
  plugin_state (str "broken") (sp_manager st.1) = Some (PError (str "no")) ∧
  plugin_state (str "arena") (sp_manager st.1) = Some PEnabled ∧
  plugin_state (str "arena") m' = Some PDisabled ∧
  lifecycle (pw_log w) = lifecycle (pw_log st.2) ++
    [EvDisable (str "arena"); EvCleanup (str "arena"); EvDisable (str "db"); EvCleanup (str "db");
     EvUnload (str "static") (str "arena"); EvUnload (str "static") (str "db"); EvShutdown (str "static")].
Proof.
  intros st.
  assert (Hd : ∃ metas, discover_all map_to_list (manager_new arena_loaders) = Some (Ok metas, discovered arena_loaders))
    by (eexists; vm_compute; reflexivity).
  destruct Hd as [metas Hd].
  pose proof (plugins_follow_dependencies id id map_to_list arena_permissions arena_loaders metas (discovered arena_loaders)
    sample_world arena_steps (λ m, Permutation_refl _) (static_loader_honest arena_plugins) Hd eq_refl eq_refl) as Ht.
  fold st in Ht. rewrite (surjective_pairing st) in Ht. cbv beta iota in Ht.
  rewrite (surjective_pairing (shutdown _ _ _ _ _)) in Ht. rewrite (surjective_pairing (shutdown _ _ _ _ _)). cbv beta iota in Ht |- *.
  destruct Ht as (_&_&_&Hl). split_and!; [vm_compute; reflexivity..|]. etrans; [exact Hl|]. f_equal.
Defined.

(** ** Limits *)

(** The life of the plugins [ps], which do [steps] while the proxy runs. *)
Definition life_of (ps : list SamplePlugin) (steps : list SampleStep) :=
  let st := start_plugins id id map_to_list (plugin_permissions [] ((λ p, pm_id (pl_metadata p)) <$> ps))
              (discovered [static_loader (factories_of ps)]) sample_world in
  shutdown id id map_to_list (sp_manager st.1) (run_proxy id id map_to_list steps st.2).

(** A plugin that asked for the name of a built-in command does not get it, but when the
    plugin is disabled the built-in command is taken out. *)
Theorem refused_command_takes_builtin :
  let greedy := sample_plugin "greedy" []
    (PCall (CRegisterCommand (str "infrarust") [] [] "mine"%string) (λ _, PReturn (Ok ()))) in
  let st := start_plugins id id map_to_list ∅ (discovered [static_loader (factories_of [greedy])]) sample_world in
  ps_commands (pw_services st.2) = builtin_manager ∧
  dispatch_command (Some 1) (str "infrarust help") (ps_commands (pw_services (life_of [greedy] []).2)) = None.
Proof. by vm_compute. Qed.

(** The filters of a plugin stay registered after it was disabled. *)
Theorem filters_outlive_plugin :
  let f := Build_FilterMetadata (str "guard") PNormal [] [] in
  let p := sample_plugin "guard" [] (PCall (CRegisterCodecFilter f) (λ _, PReturn (Ok ()))) in
  let '(m', w) := life_of [p] [] in
  plugin_state (str "guard") m' = Some PDisabled ∧ fr_items (ps_codec_filters (pw_services w)) = [f].
Proof. by vm_compute. Qed.

(** A configuration that the watch of a provider sent stays routed. *)
Theorem watched_config_outlives_plugin :
  let provider := Build_PluginConfigProvider (str "db") (Ok []) in
  let p := sample_plugin "arena" [] (PCall (CRegisterConfigProvider provider) (λ _, PReturn (Ok ()))) in
  let sent := sender_event (provider_prefix (str "arena") (str "db")) (PAdded arena_config) in
  let '(m', w) := life_of [p] [RProvider sent] in
  plugin_state (str "arena") m' = Some PDisabled ∧ ps_cancelled (pw_services w) = {[0]} ∧
  fst <$> resolve (ps_router (pw_services w)) (str "arena.example.com") =
    Some (Build_ProviderId (str "plugin:arena:db") (str "arena")).
Proof. by vm_compute. Qed.

(** A plugin whose required dependency failed to start is started all the same. *)
Theorem started_without_dependency :
  let db := sample_plugin "db" [] (PReturn (Err (PluginCustom (str "down")))) in
  let arena := sample_plugin "arena" (need "db") (PReturn (Ok ())) in
  let m := sp_manager (start_plugins id id map_to_list ∅ (discovered [static_loader (factories_of [arena; db])]) sample_world).1 in
  plugin_state (str "db") m = Some (PError (str "down")) ∧ plugin_state (str "arena") m = Some PEnabled.
Proof. by vm_compute. Qed.

(** A plugin whose own metadata has another identifier than the one it was registered under
    is never disabled, and what it registered stays. *)
Theorem misnamed_plugin_never_stops :
  let p := Build_Plugin (plugin (str "other") [])
    (PCall (CRegisterCommand (str "hi") [] [] "hi"%string) (λ _, PReturn (Ok ()))) (PReturn (Ok ())) in
  let factories := {[str "hello" := (plugin (str "hello") [], p)]} in
  let st := start_plugins id id map_to_list ∅ (discovered [static_loader factories]) sample_world in
  let '(m', w) := shutdown id id map_to_list (sp_manager st.1) st.2 in
  plugin_state (str "hello") m' = Some PEnabled ∧
  fst <$> dispatch_command None (str "hi") (ps_commands (pw_services w)) = Some "hi"%string.
Proof. by vm_compute. Qed.

(** A server in full mode is shown to plugins as passthrough, and stays so when a plugin
    gives back what it was shown. *)
Theorem full_mode_lost (id : rstring) (c : ServerConfig) :
  sc_proxy_mode c = Full → sc_proxy_mode (convert_api_to_config (convert_config id c)) = Passthrough.
Proof. intros Hm. cbn. by rewrite Hm. Qed.
