(* ===== verification/Proxy.v ===== *)
(** * Proxy: the configuration of the proxy itself

    [proxy.rs] of [infrarust_config] with the sections it holds ([types/*.rs]) and their
    defaults ([defaults.rs]), and the one section that decides something, [WebConfig]: with
    which key the admin API may start ([resolve_api_key]).  A [Duration] is its number of
    nanoseconds, a path is its text, and the sampling ratio is the bits of the [f64]. *)
From S2P Require Import Prelude Wire Utf8 VarInt Codec Version Packet Json Config Router Middleware ProxyCommands Transport Address.

(** ** The sections *)

Inductive UnknownDomainBehavior := DefaultMotd | DropUnknown.
#[export] Instance UnknownDomainBehavior_eq_dec : EqDecision UnknownDomainBehavior.
Proof. solve_decision. Defined.

Record KeepaliveConfig := { ka_time : Duration; ka_interval : Duration; ka_retries : Z }.
Record StatusCacheConfig := { sca_ttl : Duration; sca_max_entries : Z }.
Record BanConfig := { bc_file : rstring; bc_purge_interval : Duration; bc_enable_audit_log : bool }.
Record DockerProviderConfig := {
  dk_endpoint : rstring;
  dk_network : option rstring;
  dk_poll_interval : Duration;
  dk_reconnect_delay : Duration }.
Record MetricsConfig := { mt_enabled : bool; mt_export_interval : Duration }.
Record TracesConfig := { tr_enabled : bool; tr_sampling_ratio : Z }.
Record ResourceConfig := { re_service_name : rstring; re_service_version : rstring }.
Record TelemetryConfig := {
  te_enabled : bool;
  te_endpoint : option rstring;
  te_protocol : rstring;
  te_metrics : MetricsConfig;
  te_traces : TracesConfig;
  te_resource : ResourceConfig }.
Record BungeeCordChannelPermissions := {
  bp_connect : bool; bp_connect_other : bool; bp_ip : bool; bp_ip_other : bool; bp_player_count : bool;
  bp_player_list : bool; bp_get_servers : bool; bp_get_server : bool; bp_get_player_server : bool;
  bp_forward : bool; bp_forward_to_player : bool; bp_uuid : bool; bp_uuid_other : bool; bp_server_ip : bool;
  bp_message : bool; bp_message_raw : bool; bp_kick_player : bool; bp_kick_player_raw : bool }.
Record ForwardingConfig := {
  fc_mode : ForwardingMode;
  fc_secret_file : rstring;
  fc_bungeecord_channel : bool;
  fc_channel_permissions : BungeeCordChannelPermissions }.
Record WebRateLimitConfig := { wr_requests_per_minute : Z }.
Record WebConfig := {
  web_enable_api : bool;
  web_enable_webui : bool;
  web_bind : rstring;
  web_api_key : option rstring;
  web_cors_origins : list rstring;
  web_rate_limit : WebRateLimitConfig }.
Record PluginConfig := { plc_path : option rstring; plc_permissions : list rstring; plc_enabled : option bool }.

(** ** The defaults *)

Definition default_bind : SocketAddr := Build_SocketAddr (V4 0) 25565.
Definition servers_dir : rstring := str "./servers".
Definition plugins_dir : rstring := str "./plugins".
Definition rate_limit_max : Z := 3.
Definition rate_limit_window : Duration := from_secs 10.
Definition status_cache_ttl : Duration := from_secs 5.
Definition status_cache_max_entries : Z := 1000.
Definition service_name : rstring := str "infrarust".
Definition service_version : rstring := str "2.0.0-alpha.7".
Definition telemetry_protocol : rstring := str "grpc".
Definition metrics_export_interval : Duration := from_secs 15.
Definition sampling_ratio : Z := 0x3FB999999999999A.
Definition keepalive_time : Duration := from_secs 30.
Definition keepalive_interval : Duration := from_secs 10.
Definition keepalive_retries : Z := 3.
Definition ban_file : rstring := str "bans.json".
Definition ban_purge_interval : Duration := from_secs 300.
Definition ban_audit_log : bool := true.
Definition docker_endpoint : rstring := str "unix:///var/run/docker.sock".
Definition docker_poll_interval : Duration := from_secs 30.
Definition docker_reconnect_delay : Duration := from_secs 5.
Definition announce_proxy_commands : bool := true.

Definition KeepaliveConfig_default : KeepaliveConfig :=
  Build_KeepaliveConfig keepalive_time keepalive_interval keepalive_retries.
Definition StatusCacheConfig_default : StatusCacheConfig := Build_StatusCacheConfig status_cache_ttl status_cache_max_entries.
Definition BanConfig_default : BanConfig := Build_BanConfig ban_file ban_purge_interval ban_audit_log.
Definition DockerProviderConfig_default : DockerProviderConfig :=
  Build_DockerProviderConfig docker_endpoint None docker_poll_interval docker_reconnect_delay.
Definition MetricsConfig_default : MetricsConfig := Build_MetricsConfig true metrics_export_interval.
Definition TracesConfig_default : TracesConfig := Build_TracesConfig true sampling_ratio.
Definition ResourceConfig_default : ResourceConfig := Build_ResourceConfig service_name service_version.
Definition TelemetryConfig_default : TelemetryConfig :=
  Build_TelemetryConfig false None telemetry_protocol MetricsConfig_default TracesConfig_default ResourceConfig_default.
Definition BungeeCordChannelPermissions_default : BungeeCordChannelPermissions :=
  Build_BungeeCordChannelPermissions true false true true true true true true true true true true true true
    false false false false.
Definition ForwardingConfig_default : ForwardingConfig :=
  Build_ForwardingConfig FwdNone (str "forwarding.secret") true BungeeCordChannelPermissions_default.
Definition WebRateLimitConfig_default : WebRateLimitConfig := Build_WebRateLimitConfig 60.
Definition WebConfig_default : WebConfig :=
  Build_WebConfig true true (str "127.0.0.1:8080") None [] WebRateLimitConfig_default.
Definition PermissionsConfig_default : PermissionsConfig := Build_PermissionsConfig [] [].

(** ** The configuration *)

Section proxy_config.
Context `{IPN : IpNets}.

(** The plugins are a map that no operation here looks into: its entries. *)
Record ProxyConfig := {
  px_bind : SocketAddr;
  px_max_connections : Z;
  px_connect_timeout : Duration;
  px_receive_proxy_protocol : bool;
  px_servers_dir : rstring;
  px_plugins_dir : rstring;
  px_worker_threads : Z;
  px_rate_limit : RateLimitConfig;
  px_status_cache : StatusCacheConfig;
  px_default_motd : option MotdConfig;
  px_telemetry : option TelemetryConfig;
  px_keepalive : KeepaliveConfig;
  px_so_reuseport : bool;
  px_ban : BanConfig;
  px_docker : option DockerProviderConfig;
  px_ip_filter : option IpFilterConfig;
  px_unknown_domain_behavior : UnknownDomainBehavior;
  px_announce_proxy_commands : bool;
  px_forwarding : option ForwardingConfig;
  px_web : option WebConfig;
  px_permissions : PermissionsConfig;
  px_plugins : list (rstring * PluginConfig) }.
End proxy_config.

(** ** The key of the admin API *)

Definition MIN_API_KEY_LENGTH : Z := 16.

(** [str::trim_matches] with the two brackets. *)
Definition is_bracket (c : Z) : bool := bool_decide (c = 91 ∨ c = 93).
Fixpoint trim_brackets_start (s : rstring) : rstring :=
  match s with
  | [] => []
  | c :: s' => if is_bracket c then trim_brackets_start s' else s
  end.
Definition trim_brackets (s : rstring) : rstring := reverse (trim_brackets_start (reverse (trim_brackets_start s))).

Definition eq_ignore_ascii_case (a b : rstring) : bool := bool_decide (ascii_lower <$> a = ascii_lower <$> b).

Definition bind_is_loopback (w : WebConfig) : bool :=
  match socket_addr_from_str (web_bind w) with
  | Some addr => is_loopback (sa_ip addr)
  | None =>
    let host := trim_brackets (match rsplit_once 58 (web_bind w) with Some (h, _) => h | None => web_bind w end) in
    eq_ignore_ascii_case host (str "localhost") ||
    match ip_addr_from_str host with Some ip => is_loopback ip | None => false end
  end.

Definition with_api_key (key : rstring) (w : WebConfig) : WebConfig :=
  Build_WebConfig (web_enable_api w) (web_enable_webui w) (web_bind w) (Some key) (web_cors_origins w) (web_rate_limit w).

(** [generated]: the random identifier.  The result, and the configuration after it. *)
Definition resolve_api_key (generated : rstring) (w : WebConfig) : result rstring rstring * WebConfig :=
  let unset :=
    if bind_is_loopback w then (Ok generated, with_api_key generated w)
    else (Err (str "the web admin API is bound to a non-loopback address (" ++ web_bind w ++
            str ") but no `api_key` is set. Set a strong `api_key` (>= 16 characters) in the [web] section, or bind to 127.0.0.1. Refusing to start an externally-reachable admin API without authentication."), w) in
  match web_api_key w with
  | Some key =>
    if decide (key ≠ str "CHANGE-ME" ∧ as_bytes key ≠ []) then
      if decide (zlen (as_bytes key) < MIN_API_KEY_LENGTH) then
        (Err (str "API key is too short (" ++ str (pretty (zlen (as_bytes key))) ++
           str " chars). Minimum length is 16 characters."), w)
      else (Ok key, w)
    else unset
  | None => unset
  end.

Definition web_at (bind : rstring) (key : option rstring) : WebConfig :=
  Build_WebConfig true true bind key [] WebRateLimitConfig_default.

Example loopback_binds :
  (λ b, bind_is_loopback (web_at (str b) None)) <$>
    (["127.0.0.1:8080"; "127.8.9.1:1"; "localhost:8080"; "LocalHost"; "[::1]:8080"; "[::1]"; "0.0.0.0:8080";
     "192.168.1.10:8080"; "[::]:8080"; "example.com:80"; "128.0.0.1:1"]%string) =
  [true; true; true; true; true; false; false; false; false; false; false].
Proof. by vm_compute. Qed.

(** A key that is resolved is in the configuration, and is either the one that was set, of
    at least 16 bytes, or a fresh one for a server that only this machine can reach. *)
Lemma resolve_api_key_Ok generated w key w' :
  resolve_api_key generated w = (Ok key, w') →
  web_api_key w' = Some key ∧
  (web_api_key w = Some key ∧ key ≠ str "CHANGE-ME" ∧ MIN_API_KEY_LENGTH ≤ zlen (as_bytes key) ∨
   bind_is_loopback w = true ∧ key = generated).
Proof.
  unfold resolve_api_key. set (unset := if bind_is_loopback w then _ else _).
  assert (Hunset : unset = (Ok key, w') → web_api_key w' = Some key ∧ (bind_is_loopback w = true ∧ key = generated)).
  { subst unset. destruct (bind_is_loopback w); [|done]. by intros [= <- <-]. }
  destruct (web_api_key w) as [k|] eqn:Hk; [|naive_solver].
  destruct (decide _) as [[Hc Hne]|]; [|naive_solver]. case_decide as Hl; [done|]. intros [= <- <-].
  split; [done|]. left. split_and!; [done..|]. lia.
Qed.

(** An admin API that other machines can reach starts only with a key the administrator
    set, of at least 16 bytes and not the placeholder. *)
Theorem reachable_admin_api_has_key (generated : rstring) (w : WebConfig) (ip port : Z) (key : rstring) (w' : WebConfig) :
  in_u 32 ip → in_u 16 port → web_bind w = ip_to_string (V4 ip) ++ str ":" ++ str (pretty port) → ip / 2 ^ 24 ≠ 127 →
  resolve_api_key generated w = (Ok key, w') →
  web_api_key w = Some key ∧ key ≠ str "CHANGE-ME" ∧ 16 ≤ zlen (as_bytes key) ∧ w' = w.
Proof.
  intros Hip Hp Hb Hn Hr.
  assert (bind_is_loopback w = false) as Hl.
  { unfold bind_is_loopback. rewrite Hb, socket_v4_text by done. by apply bool_decide_eq_false. }
  destruct (resolve_api_key_Ok _ _ _ _ Hr) as [_ [(Hk&Hc&Hlen)|[? _]]]; [|congruence].
  split_and!; [done..|]. revert Hr. unfold resolve_api_key. rewrite Hl, Hk.
  repeat case_decide; congruence.
Qed.

Lemma reachable_admin_api_has_key_witness :
  let w := web_at (str "0.0.0.0:8080") (Some (str "a-sufficiently-long-api-key-value")) in
  (resolve_api_key [] w).1 = Ok (str "a-sufficiently-long-api-key-value") ∧
  web_api_key w = Some (str "a-sufficiently-long-api-key-value") ∧
  (resolve_api_key [] (web_at (str "0.0.0.0:8080") (Some (str "CHANGE-ME")))).2 =
    web_at (str "0.0.0.0:8080") (Some (str "CHANGE-ME")).
Proof.
  split_and!; [by vm_compute| |by vm_compute].
  apply (reachable_admin_api_has_key [] (web_at (str "0.0.0.0:8080") (Some (str "a-sufficiently-long-api-key-value"))) 0 8080
    (str "a-sufficiently-long-api-key-value") (web_at (str "0.0.0.0:8080") (Some (str "a-sufficiently-long-api-key-value"))));
    [done|done|by vm_compute|done|by vm_compute].
Defined.
