(* ===== verification/Session.v ===== *)
(** * Session: the loop that forwards packets between client and backend

    Models [session/proxy_loop.rs], [session/chat_utils.rs], [player/packets.rs], the
    commands of [player/mod.rs] and [limbo/registry_cache.rs].

    A session is the two bridges, the codec filter chains, the cache of registry frames and
    a log of the proxy commands that were run.  The code awaits one of four things at a
    time; here a schedule says which of them is ready next, and both sockets are lists of
    chunks.  A frame read is never lost when another branch wins, since the decoder keeps
    what was read.  Handlers of commands and listeners of events are functions; the
    player's permission level and whether commands are announced are parameters. *)
From S2P Require Import Prelude Wire Utf8 VarInt Codec Frame Version Packet LoginPackets PlayPackets Commands.
From S2P Require Import Component Registry DefaultRegistry Bridge Config Router Middleware ServerManager Forwarding.
From S2P Require Import Backend EventBus Filters ProxyCommands.

(** ** The cache of registry frames *)

Record CapturedFrames := {
  cap_registry_frames : list PacketFrame;
  cap_known_packs_frame : option PacketFrame;
  cap_finalized : bool }.
Abbreviation RegistryCodecCache := (gmap Z CapturedFrames).

Definition captured_entry (version : ProtocolVersion) (cache : RegistryCodecCache) : CapturedFrames :=
  default (Build_CapturedFrames [] None false) (cache !! version).

Definition collect_registry_frame (version : ProtocolVersion) (frame : PacketFrame)
    (cache : RegistryCodecCache) : RegistryCodecCache :=
  let entry := captured_entry version cache in
  <[version := if cap_finalized entry then entry
               else Build_CapturedFrames (cap_registry_frames entry ++ [frame])
                      (cap_known_packs_frame entry) false]> cache.

Definition collect_known_packs_frame (version : ProtocolVersion) (frame : PacketFrame)
    (cache : RegistryCodecCache) : RegistryCodecCache :=
  let entry := captured_entry version cache in
  <[version := if cap_finalized entry then entry
               else Build_CapturedFrames (cap_registry_frames entry) (Some frame) false]> cache.

Definition cache_finalize (version : ProtocolVersion) (cache : RegistryCodecCache) : RegistryCodecCache :=
  match cache !! version with
  | Some entry =>
    <[version := Build_CapturedFrames (cap_registry_frames entry) (cap_known_packs_frame entry) true]> cache
  | None => cache
  end.

Definition has_captured (version : ProtocolVersion) (cache : RegistryCodecCache) : bool :=
  match cache !! version with Some e => cap_finalized e | None => false end.

(** The frames of the cache, or of [provider] where it has none. *)
Definition get_registry_frames (provider : ProtocolVersion → result CoreError (list PacketFrame))
    (version : ProtocolVersion) (cache : RegistryCodecCache) : result CoreError (list PacketFrame) :=
  match cache !! version with
  | Some entry =>
    if cap_finalized entry && negb (bool_decide (length (cap_registry_frames entry) = 0%nat))
    then Ok (cap_registry_frames entry) else provider version
  | None => provider version
  end.
Definition get_known_packs_frame (provider : ProtocolVersion → result CoreError (option PacketFrame))
    (version : ProtocolVersion) (cache : RegistryCodecCache) : result CoreError (option PacketFrame) :=
  match cache !! version with
  | Some entry => if cap_finalized entry then Ok (cap_known_packs_frame entry) else provider version
  | None => provider version
  end.

(** ** Packets for the player *)

Definition protocol_error_display (e : ProtocolError) : string :=
  match e with
  | Incomplete context => "incomplete: " +:+ context
  | Invalid context => "invalid: " +:+ context
  | TooLarge max actual => "too large: " +:+ pretty actual +:+ " bytes exceeds maximum of " +:+ pretty max
  | Io WouldBlock => "WouldBlock" | Io UnexpectedEof => "UnexpectedEof" | Io (OtherIo name) => name
  end.

Inductive PlayerCommand :=
| SendMessage (component : Component)
| SendTitle (title : TitleData)
| SendActionBar (component : Component)
| SendPacket (packet : RawPacket)
| Kick (reason : Component)
| SwitchServer (target : rstring).

Section packets.
Context `{UT : UuidText} (registry : PacketRegistry).

Definition encode_packet (packet : ErasedPacket) (version : ProtocolVersion) : result CoreError PacketFrame :=
  let P := projT1 packet in
  match get_packet_id registry P Play Clientbound version with
  | None =>
    Err (COther ("no packet ID for " +:+ NAME (kind_type P) +:+ " in Play/Clientbound/" +:+ version_debug version))
  | Some packet_id =>
    match encode_payload packet version with
    | Err e => Err (COther (protocol_error_display e))
    | Ok payload => Ok (mk_frame packet_id payload)
    end
  end.

(** A chat line or, with [overlay], the action bar. *)
Definition modern_chat (c : Component) (version : ProtocolVersion) (overlay : bool) : CSystemChatMessage :=
  if less_than version V1_20_3 then CSystemChatMessage_from_json (to_json c) overlay
  else CSystemChatMessage_from_nbt (to_nbt_network c) overlay.

Definition build_system_chat_message (c : Component) (version : ProtocolVersion) : result CoreError PacketFrame :=
  if less_than version V1_19
  then encode_packet (existT KCChatMessageLegacy (mk_CChatMessageLegacy (to_json c) 1)) version
  else encode_packet (existT KCSystemChatMessage (modern_chat c version false)) version.

Definition build_action_bar (c : Component) (version : ProtocolVersion) : result CoreError PacketFrame :=
  if less_than version V1_19
  then
    let position := if no_less_than version V1_8 then 2 else 1 in
    encode_packet (existT KCChatMessageLegacy (mk_CChatMessageLegacy (to_json c) position)) version
  else encode_packet (existT KCSystemChatMessage (modern_chat c version true)) version.

Definition build_disconnect (reason : Component) (version : ProtocolVersion) : result CoreError PacketFrame :=
  encode_packet (existT KCDisconnect
    (if less_than version V1_20_3 then CDisconnect_from_json (to_json reason)
     else CDisconnect_from_nbt (to_nbt_network reason))) version.

(** Several packets, up to the first that does not encode. *)
Fixpoint encode_packets (packets : list ErasedPacket) (version : ProtocolVersion)
    : result CoreError (list PacketFrame) :=
  match packets with
  | [] => Ok []
  | p :: packets => f ← encode_packet p version; fs ← encode_packets packets version; Ok (f :: fs)
  end.

Definition build_title_packets (title : TitleData) (version : ProtocolVersion)
    : result CoreError (list PacketFrame) :=
  if less_than version V1_8 then Ok []
  else if less_than version V1_17 then
    encode_packets
      [existT KCTitleLegacy (SetTimes (td_fade_in_ticks title) (td_stay_ticks title) (td_fade_out_ticks title));
       existT KCTitleLegacy (SetSubtitle (to_json (td_subtitle title)));
       existT KCTitleLegacy (SetTitle (to_json (td_title title)))] version
  else
    encode_packets
      [existT KCSetTitleTimes (mk_CSetTitleTimes (td_fade_in_ticks title) (td_stay_ticks title)
         (td_fade_out_ticks title));
       existT KCSetSubtitle
         (if less_than version V1_20_3 then CSetSubtitle_from_json (to_json (td_subtitle title))
          else CSetSubtitle_from_nbt (to_nbt_network (td_subtitle title)));
       existT KCSetTitle
         (if less_than version V1_20_3 then CSetTitle_from_json (to_json (td_title title))
          else CSetTitle_from_nbt (to_nbt_network (td_title title)))] version.

(** ** Chat and commands of the client *)

Inductive ChatAction := ChatCommand (input : rstring) | ChatText (text : rstring).

Definition detect_chat_or_command (frame : PacketFrame) (version : ProtocolVersion) : option ChatAction :=
  let as_command :=
    if decide (Some (frame_id frame) = get_packet_id registry KSChatCommand Play Serverbound version) then
      match SChatCommand_decode version (payload frame) with
      | Ok (decoded, _) => Some (ChatCommand (sco_command decoded))
      | Err _ => None
      end
    else None in
  match as_command with
  | Some action => Some action
  | None =>
    if decide (Some (frame_id frame) = get_packet_id registry KSChatMessage Play Serverbound version) then
      match SChatMessage_decode version (payload frame) with
      | Ok (decoded, _) =>
        if decide (head (cm_message decoded) = Some 47) then Some (ChatCommand (tail (cm_message decoded)))
        else Some (ChatText (cm_message decoded))
      | Err _ => None
      end
    else None
  end.
End packets.

(** ** Chat events *)

Inductive ChatMessageResult := ChatAllow | ChatDeny (reason : Component) | ChatModify (new_message : rstring).
Record ChatMessageEvent := {
  ce_player_id : Z;
  ce_message : rstring;
  ce_result : ChatMessageResult }.
Definition ChatMessageEvent_new (player_id : Z) (message : rstring) : ChatMessageEvent :=
  Build_ChatMessageEvent player_id message ChatAllow.
Definition chat_deny (reason : Component) (e : ChatMessageEvent) : ChatMessageEvent :=
  Build_ChatMessageEvent (ce_player_id e) (ce_message e) (ChatDeny reason).
Definition chat_modify (new_message : rstring) (e : ChatMessageEvent) : ChatMessageEvent :=
  Build_ChatMessageEvent (ce_player_id e) (ce_message e) (ChatModify new_message).

(** ** Text helpers *)

(** [String::from_utf8_lossy]: each maximal part that starts a character and cannot be
    completed becomes U+FFFD. *)
Fixpoint from_utf8_lossy (bs : bytes) : rstring :=
  match bs with
  | [] => []
  | b0 :: r0 =>
    if decide (b0 < 0x80) then b0 :: from_utf8_lossy r0
    else if decide (0xC2 ≤ b0 < 0xE0) then
      match r0 with
      | b1 :: r1 =>
        if decide (is_cont b1) then ((b0 - 0xC0) * 64 + (b1 - 0x80)) :: from_utf8_lossy r1
        else 0xFFFD :: from_utf8_lossy r0
      | [] => [0xFFFD]
      end
    else if decide (0xE0 ≤ b0 < 0xF0) then
      match r0 with
      | b1 :: r1 =>
        if decide (second3 b0 b1) then
          match r1 with
          | b2 :: r2 =>
            if decide (is_cont b2)
            then (((b0 - 0xE0) * 64 + (b1 - 0x80)) * 64 + (b2 - 0x80)) :: from_utf8_lossy r2
            else 0xFFFD :: from_utf8_lossy r1
          | [] => [0xFFFD]
          end
        else 0xFFFD :: from_utf8_lossy r0
      | [] => [0xFFFD]
      end
    else if decide (0xF0 ≤ b0 < 0xF5) then
      match r0 with
      | b1 :: r1 =>
        if decide (second4 b0 b1) then
          match r1 with
          | b2 :: r2 =>
            if decide (is_cont b2) then
              match r2 with
              | b3 :: r3 =>
                if decide (is_cont b3)
                then ((((b0 - 0xF0) * 64 + (b1 - 0x80)) * 64 + (b2 - 0x80)) * 64 + (b3 - 0x80)) :: from_utf8_lossy r3
                else 0xFFFD :: from_utf8_lossy r2
              | [] => [0xFFFD]
              end
            else 0xFFFD :: from_utf8_lossy r1
          | [] => [0xFFFD]
          end
        else 0xFFFD :: from_utf8_lossy r0
      | [] => [0xFFFD]
      end
    else 0xFFFD :: from_utf8_lossy r0
  end.

(** [trim_start_matches(c)]. *)
Fixpoint trim_start_matches (c : Z) (s : rstring) : rstring :=
  match s with x :: s' => if decide (x = c) then trim_start_matches c s' else s | [] => [] end.

(** [rfind(' ')], an index into the bytes. *)
Fixpoint rfind_byte (c : Z) (bs : bytes) : option Z :=
  match bs with
  | [] => None
  | b :: bs =>
    match rfind_byte c bs with
    | Some i => Some (i + 1)
    | None => if decide (b = c) then Some 0 else None
    end
  end.

(** ** The session *)

Section session.
Context `{CF : Cfb8, ZL : Zlib, UT : UuidText, LC : Lowercase}.
Context {H I : Type} `{CI : !CodecInstances I}.
Context {TypeId HM PM : Type} `{TED : !EqDecision TypeId}.
Context `{HMD : !DashMap TypeId (list (HandlerEntry ChatMessageEvent)) HM}.
Context `{PMD : !DashMap PacketKey (list (HandlerEntry RawPacketEvent)) PM}.

(** What the loop uses of [ProxyServices]; [sv_player_level] is the level of a player the
    registry has. *)
Record Services := {
  sv_registry : PacketRegistry;
  sv_command_manager : CommandManagerImpl H;
  sv_command_order : gmap rstring (RegisteredCommand H) → list (rstring * RegisteredCommand H);
  sv_tab_complete_for : H → list rstring → Z → option Z → list rstring;
  sv_permissions : PermissionService;
  sv_player_level : Z → option PermissionLevel;
  sv_event_bus : EventBusImpl (HM := HM) (PM := PM);
  sv_chat_event : TypeId;
  sv_announce_proxy_commands : bool }.

Record Session := mk_Session {
  ss_client : ClientBridge;
  ss_client_in : list bytes;
  ss_backend : BackendBridge;
  ss_backend_in : list bytes;
  ss_client_chain : CodecFilterChain I;
  ss_server_chain : CodecFilterChain I;
  ss_cache : RegistryCodecCache;
  ss_ran : list (H * CommandContext) }.

Definition set_client (c : ClientBridge) (s : Session) : Session :=
  mk_Session c (ss_client_in s) (ss_backend s) (ss_backend_in s) (ss_client_chain s) (ss_server_chain s)
    (ss_cache s) (ss_ran s).
Definition set_backend (b : BackendBridge) (s : Session) : Session :=
  mk_Session (ss_client s) (ss_client_in s) b (ss_backend_in s) (ss_client_chain s) (ss_server_chain s)
    (ss_cache s) (ss_ran s).
Definition set_inputs (ci bi : list bytes) (s : Session) : Session :=
  mk_Session (ss_client s) ci (ss_backend s) bi (ss_client_chain s) (ss_server_chain s) (ss_cache s) (ss_ran s).
Definition set_cache (c : RegistryCodecCache) (s : Session) : Session :=
  mk_Session (ss_client s) (ss_client_in s) (ss_backend s) (ss_backend_in s) (ss_client_chain s)
    (ss_server_chain s) c (ss_ran s).
Definition set_ran (l : list (H * CommandContext)) (s : Session) : Session :=
  mk_Session (ss_client s) (ss_client_in s) (ss_backend s) (ss_backend_in s) (ss_client_chain s)
    (ss_server_chain s) (ss_cache s) l.

(** How a handler ends early. *)
Inductive exit := Failed (e : CoreError) | Panicked.

(** A handler: it changes the session and gives a value or ends early. *)
Definition SM (A : Type) : Type := Session → result exit A * Session.
#[global] Instance sm_ret : MRet SM := λ A a s, (Ok a, s).
#[global] Instance sm_bind : MBind SM := λ A B f m s,
  match m s with (Ok a, s) => f a s | (Err e, s) => (Err e, s) end.

Definition sm_get {A} (f : Session → A) : SM A := λ s, (Ok (f s), s).
Definition sm_modify (f : Session → Session) : SM () := λ s, (Ok (), f s).
Definition sm_panic {A} : SM A := λ s, (Err Panicked, s).

Definition lift_exit (r : result CoreError ()) : result exit () :=
  match r with Ok a => Ok a | Err e => Err (Failed e) end.
Definition client_write (frame : PacketFrame) : SM () := λ s,
  let '(r, c) := cb_write_frame frame (ss_client s) in (lift_exit r, set_client c s).
Definition backend_write (frame : PacketFrame) : SM () := λ s,
  let '(r, b) := bb_write_frame frame (ss_backend s) in (lift_exit r, set_backend b s).

(** [for frame in frames { writer.write_frame(frame).await? }]. *)
Fixpoint write_frames (writer : PacketFrame → SM ()) (frames : list PacketFrame) : SM () :=
  match frames with
  | [] => mret ()
  | f :: frames => _ ← writer f; write_frames writer frames
  end.

Definition frame_to_raw (frame : PacketFrame) : RawPacket := Build_RawPacket (frame_id frame) (payload frame).
Definition raw_to_frame (raw : RawPacket) : PacketFrame := mk_frame (rp_packet_id raw) (rp_data raw).

(** Both protocol states at once. *)
Definition set_states (st : ConnectionState) (s : Session) : Session :=
  set_backend (bb_set_state st (ss_backend s)) (set_client (cb_set_state st (ss_client s)) s).

(** *** Codec filters *)

(** The side a packet comes from: its chain, and where its frames go. *)
Inductive side := FromClient | FromBackend.
Definition chain_of (d : side) (s : Session) : CodecFilterChain I :=
  match d with FromClient => ss_client_chain s | FromBackend => ss_server_chain s end.
Definition set_chain (d : side) (c : CodecFilterChain I) (s : Session) : Session :=
  match d with
  | FromClient => mk_Session (ss_client s) (ss_client_in s) (ss_backend s) (ss_backend_in s) c
                    (ss_server_chain s) (ss_cache s) (ss_ran s)
  | FromBackend => mk_Session (ss_client s) (ss_client_in s) (ss_backend s) (ss_backend_in s)
                     (ss_client_chain s) c (ss_cache s) (ss_ran s)
  end.
Definition writer_of (d : side) : PacketFrame → SM () :=
  match d with FromClient => backend_write | FromBackend => client_write end.

Definition send_injected_frames (writer : PacketFrame → SM ()) (output : FrameOutput)
    (send_before send_after : bool) : SM FrameOutput :=
  let '(before, output) := if send_before then take_before output else ([], output) in
  let '(after, output) := if send_after then take_after output else ([], output) in
  _ ← write_frames writer (raw_to_frame <$> before);
  _ ← write_frames writer (raw_to_frame <$> after);
  mret output.

(** Whether the frame was consumed, and the frame to go on with. *)
Definition apply_codec_filter (d : side) (frame : PacketFrame) : SM (bool * PacketFrame) := λ s,
  if chain_is_empty (chain_of d s) then (Ok (false, frame), s)
  else
    let '(r, raw, chain) := process (frame_to_raw frame) (chain_of d s) in
    let s := set_chain d chain s in
    match r with
    | FPass => (Ok (false, raw_to_frame raw), s)
    | FDropped => (Ok (true, frame), s)
    | FReplaced output =>
      (_ ← send_injected_frames (writer_of d) output true true; mret (true, frame)) s
    | FPassWithInjections output =>
      (output ← send_injected_frames (writer_of d) output true false;
       _ ← writer_of d (raw_to_frame raw);
       _ ← send_injected_frames (writer_of d) output false true;
       mret (true, raw_to_frame raw)) s
    end.

Context (services : Services) (player_id : Z).
Abbreviation registry := (sv_registry services).

(** *** Packet events *)

(** The frame after the listeners, or [None] when they drop it. *)
Definition raw_packet_event (state : ConnectionState) (direction : Direction) (frame : PacketFrame)
    : option PacketFrame :=
  let api_state := protocol_state_to_api state in
  let api_direction := protocol_direction_to_api direction in
  if has_packet_listeners (frame_id frame) api_state api_direction (sv_event_bus services) then
    let event := RawPacketEvent_new player_id api_direction (frame_to_raw frame) in
    match re_result (fire_packet_event (frame_id frame) api_state api_direction event (sv_event_bus services)) with
    | RawPass => Some frame
    | RawModify packet => Some (raw_to_frame packet)
    | RawDrop => None
    end
  else Some frame.

(** *** Tab completion *)

Definition should_intercept (text : rstring) : bool :=
  if starts_with text (str "/infrarust ") || starts_with text (str "/ir ") then true
  else
    let cmd_name := default [] (head (split_whitespace (trim_start_matches 47 text))) in
    negb (bool_decide (cmd_name = [])) && is_plugin_command cmd_name (sv_command_manager services).

Definition suggestions (cmd_input : rstring) : list rstring :=
  match tab_complete_request cmd_input (sv_command_manager services) with
  | Some (handler, partial_args, cursor) =>
    sv_tab_complete_for services handler partial_args cursor (Some player_id)
  | None => []
  end.

Definition tab_complete_response (req : STabCompleteRequest) : CTabCompleteResponse :=
  let text := trim_start (tcq_text req) in
  let last_space := default 0 (rfind_byte 32 (as_bytes text)) + 1 in
  mk_CTabCompleteResponse (tcq_transaction_id req) (wrap_s 32 last_space)
    (wrap_s 32 (zlen (as_bytes text) - last_space))
    ((λ s, mk_TabCompleteMatch s None) <$> suggestions (trim_start_matches 47 text)).

(** The answer to a completion request for a command of the proxy. *)
Definition tab_complete_frame (version : ProtocolVersion) (frame : PacketFrame) : option PacketFrame :=
  if decide (Some (frame_id frame) = get_packet_id registry KSTabCompleteRequest Play Serverbound version) then
    match decode_frame registry frame Play Serverbound version with
    | Ok (Typed _ packet) =>
      req ← downcast KSTabCompleteRequest packet;
      if should_intercept (trim_start (tcq_text req)) then
        resp_id ← get_packet_id registry KCTabCompleteResponse Play Clientbound version;
        match CTabCompleteResponse_encode (tab_complete_response req) version with
        | Ok buf => Some (mk_frame resp_id buf)
        | Err _ => None
        end
      else None
    | _ => None
    end
  else None.

(** *** From the client *)

(** The command or the chat line is the proxy's: it does not go on to the backend. *)
Definition chat_consumed (version : ProtocolVersion) (frame : PacketFrame) : SM bool :=
  match detect_chat_or_command registry frame version with
  | Some (ChatCommand input) =>
    match dispatch_command (Some player_id) input (sv_command_manager services) with
    | Some run => _ ← sm_modify (λ s, set_ran (ss_ran s ++ [run]) s); mret true
    | None => mret false
    end
  | Some (ChatText text) =>
    match ce_result (fire (sv_chat_event services) (ChatMessageEvent_new player_id text) (sv_event_bus services)) with
    | ChatDeny _ => mret true
    | ChatAllow | ChatModify _ => mret false
    end
  | None => mret false
  end.

Definition client_play (version : ProtocolVersion) (frame : PacketFrame) : SM () :=
  filtered ← apply_codec_filter FromClient frame;
  let '(consumed, frame) := filtered in
  if consumed : bool then mret ()
  else if decide (Some (frame_id frame) = get_packet_id registry KSChatSessionUpdate Play Serverbound version)
  then mret ()
  else
    match tab_complete_frame version frame with
    | Some resp_frame => client_write resp_frame
    | None =>
      consumed ← chat_consumed version frame;
      if consumed : bool then mret ()
      else
        match raw_packet_event Play Serverbound frame with
        | Some frame => backend_write frame
        | None => mret ()
        end
    end.

Definition handle_client_to_backend (frame : PacketFrame) : SM () :=
  version ← sm_get (λ s, cb_version (ss_client s));
  state ← sm_get (λ s, cb_state (ss_client s));
  if decide (state = Play) then client_play version frame
  else
    match decode_frame registry frame state Serverbound version with
    | Ok (Typed _ packet) =>
      match downcast KSLoginAcknowledged packet with
      | Some _ =>
        _ ← backend_write frame;
        sm_modify (λ s,
          set_chain FromClient (notify_state_change (protocol_state_to_api Config) (ss_client_chain s))
            (set_states Config s))
      | None =>
        match downcast KSAcknowledgeFinishConfig packet with
        | Some _ =>
          _ ← backend_write frame;
          sm_modify (λ s,
            set_chain FromClient (notify_state_change (protocol_state_to_api Play) (ss_client_chain s))
              (set_states Play s))
        | None => backend_write frame
        end
      end
    | _ => backend_write frame
    end.

(** *** From the backend *)

Inductive BackendAction := BContinue | BDisconnected (reason : option rstring).

(** The command tree with the proxy's commands, or the frame as it came. *)
Definition announce_commands (version : ProtocolVersion) (frame : PacketFrame) (id : Z) (commands : CCommands)
    : SM () :=
  if sv_announce_proxy_commands services then
    let plugin_cmds := list_plugin_commands (sv_command_order services) (sv_command_manager services) in
    let visible := (λ level, visible_subcommands level (sv_permissions services)) <$>
                     sv_player_level services player_id in
    match inject_proxy_commands version plugin_cmds visible commands with
    | None => sm_panic
    | Some modified =>
      match CCommands_encode modified version with
      | Err _ => client_write frame
      | Ok buf => client_write (mk_frame id buf)
      end
    end
  else client_write frame.

Definition disconnect_reason (disc : CDisconnect) : rstring :=
  match CDisconnect_as_json disc with Some s => s | None => from_utf8_lossy (dc_reason disc) end.

Definition backend_play (version : ProtocolVersion) (frame : PacketFrame) : SM BackendAction :=
  filtered ← apply_codec_filter FromBackend frame;
  let '(consumed, frame) := filtered in
  if consumed : bool then mret BContinue
  else
    match raw_packet_event Play Clientbound frame with
    | None => mret BContinue
    | Some frame =>
      match decode_frame registry frame Play Clientbound version with
      | Ok (Typed id packet) =>
        match downcast KCDisconnect packet with
        | Some disc => _ ← client_write frame; mret (BDisconnected (Some (disconnect_reason disc)))
        | None =>
          match downcast KCCommands packet with
          | Some commands => _ ← announce_commands version frame id commands; mret BContinue
          | None => _ ← client_write frame; mret BContinue
          end
        end
      | _ => _ ← client_write frame; mret BContinue
      end
    end.

(** A frame of the configuration phase goes into the cache. *)
Definition collect_frame (version : ProtocolVersion) (frame : PacketFrame) (typed : bool) : SM () :=
  let is_known_packs :=
    typed && bool_decide (get_packet_id registry KCKnownPacks Config Clientbound version = Some (frame_id frame)) in
  sm_modify (λ s, set_cache
    (if is_known_packs then collect_known_packs_frame version frame (ss_cache s)
     else collect_registry_frame version frame (ss_cache s)) s).

Definition backend_login (version : ProtocolVersion) (state : ConnectionState) (frame : PacketFrame)
    (packet : ErasedPacket) : SM BackendAction :=
  match downcast KCSetCompression packet with
  | Some set_comp =>
    let threshold := sc_threshold set_comp in
    _ ← sm_modify (λ s, set_backend (bb_set_compression threshold (ss_backend s)) s);
    _ ← sm_modify (λ s, set_client (cb_set_compression threshold (ss_client s)) s);
    _ ← client_write frame;
    _ ← sm_modify (λ s, set_chain FromBackend (notify_compression_change threshold (ss_server_chain s)) s);
    mret BContinue
  | None =>
    match downcast KCLoginSuccess packet with
    | Some _ =>
      _ ← client_write frame;
      _ ← (if less_than version V1_20_2 then
             sm_modify (λ s,
               set_chain FromBackend (notify_state_change (protocol_state_to_api Play) (ss_server_chain s))
                 (set_states Play s))
           else mret ());
      mret BContinue
    | None =>
      match downcast KCLoginDisconnect packet with
      | Some disconnect => _ ← client_write frame; mret (BDisconnected (Some (ld_reason disconnect)))
      | None =>
        match downcast KCDisconnect packet with
        | Some _ => _ ← client_write frame; mret (BDisconnected (Some (str "backend disconnect")))
        | None =>
          match downcast KCFinishConfig packet with
          | Some _ =>
            _ ← sm_modify (λ s, set_cache (cache_finalize version (ss_cache s)) s);
            _ ← client_write frame; mret BContinue
          | None =>
            _ ← (if decide (state = Config) then collect_frame version frame true else mret ());
            _ ← client_write frame; mret BContinue
          end
        end
      end
    end
  end.

Definition handle_backend_to_client (frame : PacketFrame) : SM BackendAction :=
  version ← sm_get (λ s, cb_version (ss_client s));
  state ← sm_get (λ s, bb_state (ss_backend s));
  if decide (state = Play) then backend_play version frame
  else
    match decode_frame registry frame state Clientbound version with
    | Ok (Typed _ packet) => backend_login version state frame packet
    | Ok (Opaque _ _) =>
      _ ← (if decide (state = Config) then collect_frame version frame false else mret ());
      _ ← client_write frame; mret BContinue
    | Err _ => _ ← client_write frame; mret BContinue
    end.

(** *** Commands to the player *)

Inductive CommandResult := CmdContinue | CmdKick | CmdSwitch (target : rstring).

Definition lift_frame {A} (r : result CoreError A) : SM A := λ s,
  match r with Ok a => (Ok a, s) | Err e => (Err (Failed e), s) end.

Definition handle_player_command (cmd : PlayerCommand) : SM CommandResult :=
  version ← sm_get (λ s, cb_version (ss_client s));
  match cmd with
  | SendMessage component =>
    frame ← lift_frame (build_system_chat_message registry component version);
    _ ← client_write frame; mret CmdContinue
  | SendActionBar component =>
    frame ← lift_frame (build_action_bar registry component version);
    _ ← client_write frame; mret CmdContinue
  | SendTitle title_data =>
    frames ← lift_frame (build_title_packets registry title_data version);
    _ ← write_frames client_write frames; mret CmdContinue
  | SendPacket raw_packet => _ ← client_write (raw_to_frame raw_packet); mret CmdContinue
  | Kick reason =>
    frame ← lift_frame (build_disconnect registry reason version);
    _ ← client_write frame; mret CmdKick
  | SwitchServer target => mret (CmdSwitch target)
  end.

(** *** The loop *)

(** The reason of a disconnect: a text, or the [Display] of an error. *)
Inductive disconnect_text := ReasonText (s : rstring) | ReasonError (e : CoreError).

Inductive ProxyLoopOutcome :=
| ClientDisconnected
| BackendDisconnected (reason : option disconnect_text)
| Shutdown
| LoopError (e : CoreError)
| SwitchRequested (target : rstring)
| LoopPanicked.

(** Which branch of the [select!] is taken. *)
Inductive ready := ClientReady | BackendReady | CommandReady (cmd : PlayerCommand) | ShutdownReady.

(** [None] when the loop goes on. *)
Definition loop_step (r : ready) (s : Session) : option ProxyLoopOutcome * Session :=
  match r with
  | ClientReady =>
    let '(frame, c, ci) := cb_read_frame (ss_client s) (ss_client_in s) in
    let s := set_inputs ci (ss_backend_in s) (set_client c s) in
    match frame with
    | Ok (Some frame) =>
      match handle_client_to_backend frame s with
      | (Ok _, s) => (None, s)
      | (Err Panicked, s) => (Some LoopPanicked, s)
      | (Err (Failed e), s) =>
        (Some (if is_expected_disconnect e then BackendDisconnected (Some (ReasonError e)) else LoopError e), s)
      end
    | Ok None => (Some ClientDisconnected, s)
    | Err e => (Some (LoopError e), s)
    end
  | BackendReady =>
    let '(frame, b, bi) := bb_read_frame (ss_backend s) (ss_backend_in s) in
    let s := set_inputs (ss_client_in s) bi (set_backend b s) in
    match frame with
    | Ok (Some frame) =>
      match handle_backend_to_client frame s with
      | (Ok BContinue, s) => (None, s)
      | (Ok (BDisconnected reason), s) => (Some (BackendDisconnected (ReasonText <$> reason)), s)
      | (Err Panicked, s) => (Some LoopPanicked, s)
      | (Err (Failed e), s) => (Some (LoopError e), s)
      end
    | Ok None => (Some (BackendDisconnected None), s)
    | Err e => (Some (LoopError e), s)
    end
  | CommandReady cmd =>
    match handle_player_command cmd s with
    | (Ok CmdContinue, s) | (Err (Failed _), s) => (None, s)
    | (Ok CmdKick, s) => (Some ClientDisconnected, s)
    | (Ok (CmdSwitch target), s) => (Some (SwitchRequested target), s)
    | (Err Panicked, s) => (Some LoopPanicked, s)
    end
  | ShutdownReady => (Some Shutdown, s)
  end.

(** The loop along a schedule; [None] when the schedule ends first. *)
Fixpoint proxy_loop (schedule : list ready) (s : Session) : option ProxyLoopOutcome * Session :=
  match schedule with
  | [] => (None, s)
  | r :: schedule =>
    match loop_step r s with
    | (Some outcome, s) => (Some outcome, s)
    | (None, s) => proxy_loop schedule s
    end
  end.
(** ** The phases of a session *)

(** The phases a session may go through, by its version. *)
Inductive phase_step (v : ProtocolVersion) : ConnectionState → ConnectionState → Prop :=
| phase_config : no_less_than v V1_20_2 = true → phase_step v Login Config
| phase_play : no_less_than v V1_20_2 = true → phase_step v Config Play
| phase_legacy : less_than v V1_20_2 = true → phase_step v Login Play.

(** Both ends are in the same phase of the same version. *)
Definition in_phase (v : ProtocolVersion) (st : ConnectionState) (s : Session) : Prop :=
  cb_version (ss_client s) = v ∧ cb_state (ss_client s) = st ∧ bb_state (ss_backend s) = st.

(** What a handler does to the phase, however it ends. *)
Definition stays {A} (m : SM A) : Prop :=
  ∀ v st s, in_phase v st s → in_phase v st (m s).2.
Definition moves (v : ProtocolVersion) (st : ConnectionState) {A} (m : SM A) : Prop :=
  ∀ s, in_phase v st s → ∃ st', rtc (phase_step v) st st' ∧ in_phase v st' (m s).2.

Lemma stays_moves {A} v st (m : SM A) : stays m → moves v st m.
Proof. intros Hm s Hs. exists st. split; [done|by apply Hm]. Qed.
Lemma stays_ret {A} (a : A) : stays (mret a).
Proof. by intros v st s Hs. Qed.
Lemma stays_bind {A B} (m : SM A) (f : A → SM B) : stays m → (∀ a, stays (f a)) → stays (m ≫= f).
Proof.
  intros Hm Hf v st s Hs. cbv [mbind sm_bind]. specialize (Hm v st s Hs).
  destruct (m s) as [[a|e] s']; [by apply Hf|done].
Qed.
Lemma moves_bind {A B} v st (m : SM A) (f : A → SM B) : stays m → (∀ a, moves v st (f a)) → moves v st (m ≫= f).
Proof.
  intros Hm Hf s Hs. cbv [mbind sm_bind]. specialize (Hm v st s Hs).
  destruct (m s) as [[a|e] s']; [by apply Hf|by exists st].
Qed.
Lemma stays_client_write f : stays (client_write f).
Proof.
  intros v st s Hs. unfold client_write, cb_write_frame, cb_write.
  destruct (append_raw _ _ _) as [[[]|e] enc]; [|done]. destruct (enc_take enc) as [data enc'].
  by destruct (encrypt_opt _ _) as [out c].
Qed.
Lemma stays_backend_write f : stays (backend_write f).
Proof.
  intros v st s Hs. unfold backend_write, bb_write_frame, bb_write, bb_write_all.
  destruct (append_raw _ _ _) as [[[]|e] enc]; [|done]. destruct (enc_take enc) as [data enc'].
  cbn. by destruct (bb_broken _).
Qed.
Lemma stays_get {A} (f : Session → A) : stays (sm_get f).
Proof. by intros v st s Hs. Qed.
Lemma stays_lift {A} (r : result CoreError A) : stays (lift_frame r).
Proof. intros v st s Hs. by destruct r. Qed.
Lemma stays_panic {A} : stays (sm_panic (A := A)).
Proof. by intros v st s Hs. Qed.
Lemma stays_modify f : (∀ s, ss_client (f s) = ss_client s ∧ ss_backend (f s) = ss_backend s) → stays (sm_modify f).
Proof. intros Hf v st s Hs. unfold in_phase. cbn. destruct (Hf s) as [-> ->]. exact Hs. Qed.
Lemma stays_writer d f : stays (writer_of d f).
Proof. destruct d; [apply stays_backend_write|apply stays_client_write]. Qed.
Lemma stays_write_frames w fs : (∀ f, stays (w f)) → stays (write_frames w fs).
Proof.
  intros Hw. induction fs as [|f fs IH]; [apply stays_ret|]. apply stays_bind; [done|]. by intros [].
Qed.
Lemma stays_injected w o a b : (∀ f, stays (w f)) → stays (send_injected_frames w o a b).
Proof.
  intros Hw. unfold send_injected_frames. destruct (if a then _ else _) as [before o1].
  destruct (if b then _ else _) as [after o2].
  apply stays_bind; [by apply stays_write_frames|]. intros _.
  apply stays_bind; [by apply stays_write_frames|]. intros _. apply stays_ret.
Qed.

Lemma stays_codec_filter d f : stays (apply_codec_filter d f).
Proof.
  intros v st s Hs. unfold apply_codec_filter. destruct (chain_is_empty (chain_of d s)); [done|].
  destruct (process _ _) as [[r raw] chain].
  assert (Hc : in_phase v st (set_chain d chain s)) by by destruct d.
  destruct r; [done|done| |].
  - revert Hc. generalize (set_chain d chain s). apply (stays_bind (A := FrameOutput) (B := bool * PacketFrame)).
    + apply stays_injected, stays_writer.
    + intros o. apply stays_ret.
  - revert Hc. generalize (set_chain d chain s). apply (stays_bind (A := FrameOutput) (B := bool * PacketFrame)).
    + apply stays_injected, stays_writer.
    + intros o. apply stays_bind; [apply stays_writer|]. intros _.
      apply stays_bind; [apply stays_injected, stays_writer|]. intros _. apply stays_ret.
Qed.
Lemma stays_chat v f : stays (chat_consumed v f).
Proof.
  unfold chat_consumed. destruct (detect_chat_or_command _ _ _) as [[input|text]|]; [| |apply stays_ret].
  - destruct (dispatch_command _ _ _) as [run|]; [|apply stays_ret].
    apply stays_bind; [by apply stays_modify|]. intros _. apply stays_ret.
  - destruct (ce_result _); apply stays_ret.
Qed.

Lemma stays_client_play v f : stays (client_play v f).
Proof.
  apply stays_bind; [apply stays_codec_filter|]. intros [[] f']; [apply stays_ret|].
  destruct (decide _); [apply stays_ret|].
  destruct (tab_complete_frame v f'); [apply stays_client_write|].
  apply stays_bind; [apply stays_chat|]. intros []; [apply stays_ret|].
  destruct (raw_packet_event _ _ _); [apply stays_backend_write|apply stays_ret].
Qed.

Lemma stays_client_reply {A} f (a : A) : stays (_ ← client_write f; mret a).
Proof. apply stays_bind; [apply stays_client_write|]. intros _. apply stays_ret. Qed.

Lemma stays_announce v f id commands : stays (announce_commands v f id commands).
Proof.
  unfold announce_commands. destruct (sv_announce_proxy_commands services); [|apply stays_client_write].
  destruct (inject_proxy_commands _ _ _ _) as [modified|]; [|apply stays_panic].
  destruct (CCommands_encode modified v); apply stays_client_write.
Qed.

Lemma stays_backend_play v f : stays (backend_play v f).
Proof.
  apply stays_bind; [apply stays_codec_filter|]. intros [[] f']; [apply stays_ret|].
  destruct (raw_packet_event _ _ _) as [f''|]; [|apply stays_ret].
  destruct (decode_frame _ _ _ _ _) as [[id packet|id bs]|e]; [|apply stays_client_reply..].
  destruct (downcast KCDisconnect packet); [apply stays_client_reply|].
  destruct (downcast KCCommands packet); [|apply stays_client_reply].
  apply stays_bind; [apply stays_announce|]. intros _. apply stays_ret.
Qed.

Lemma stays_player_command cmd : stays (handle_player_command cmd).
Proof.
  apply stays_bind; [apply stays_get|]. intros v. destruct cmd.
  4: apply stays_client_reply.
  5: apply stays_ret.
  1, 3, 4: apply stays_bind; [apply stays_lift|]; intros f; apply stays_client_reply.
  apply stays_bind; [apply stays_lift|]. intros fs.
  apply stays_bind; [apply stays_write_frames, stays_client_write|]. intros _. apply stays_ret.
Qed.

Lemma stays_collect P (c : {P} + {¬ P}) v f typed : stays (if c then collect_frame v f typed else mret ()).
Proof. destruct c; [|apply stays_ret]. unfold collect_frame. by apply stays_modify. Qed.

(** A step to another phase. *)
Lemma moves_step v st st' d (chain : Session → CodecFilterChain I) :
  phase_step v st st' → moves v st (sm_modify (λ s, set_chain d (chain s) (set_states st' s))).
Proof.
  intros Hp s (Hv&Hc&Hb). exists st'. split; [by apply rtc_once|]. by destruct d.
Qed.
Context (Hregistry : registry = build_default_registry).

(** Where the packets that end a phase are decoded. *)
Lemma phase_packets :
  forallb (λ v, implb (intercepted KSLoginAcknowledged v) (no_less_than v V1_20_2) &&
                implb (intercepted KSAcknowledgeFinishConfig v) (no_less_than v V1_20_2)) SUPPORTED = true.
Proof. by vm_compute. Qed.

Lemma phase_packet v k f st d id p x :
  v ∈ SUPPORTED → k = KSLoginAcknowledged ∨ k = KSAcknowledgeFinishConfig →
  decode_frame registry f st d v = Ok (Typed id p) → downcast k p = Some x →
  (st, d) = place_of k ∧ no_less_than v V1_20_2 = true.
Proof.
  intros Hv Hk Hd Hx. rewrite Hregistry in Hd. apply decode_frame_place in Hd as (Hp&Hi&_).
  unfold downcast in Hx. destruct (decide (projT1 p = k)) as [<-|]; [|done]. split; [done|].
  pose proof phase_packets as Ht. rewrite forallb_forall in Ht.
  specialize (Ht v (proj1 (list_elem_of_In _ _) Hv)). apply andb_true_iff in Ht as [H1 H2].
  destruct Hk as [Hk|Hk]; rewrite Hk in Hi; rewrite Hi in *; done.
Qed.

Lemma downcast_place k p x f st d v id :
  decode_frame registry f st d v = Ok (Typed id p) → downcast k p = Some x → (st, d) = place_of k.
Proof.
  intros Hd Hx. rewrite Hregistry in Hd. apply decode_frame_place in Hd as (Hp&_&_).
  unfold downcast in Hx. by destruct (decide (projT1 p = k)) as [<-|].
Qed.

Lemma moves_client v st f : v ∈ SUPPORTED → moves v st (handle_client_to_backend f).
Proof.
  intros Hv s Hs. pose proof Hs as (Hcv&Hcs&_). unfold handle_client_to_backend.
  cbv [mbind sm_bind sm_get]. rewrite Hcv, Hcs. revert s Hs Hcv Hcs.
  enough (moves v st (if decide (st = Play) then client_play v f else
    match decode_frame registry f st Serverbound v with
    | Ok (Typed _ packet) => _ | _ => backend_write f end)) as Hm by (intros s Hs _ _; exact (Hm s Hs)).
  destruct (decide (st = Play)); [apply stays_moves, stays_client_play|].
  destruct (decode_frame registry f st Serverbound v) as [[id p|id bs]|e] eqn:Hd;
    [|apply stays_moves, stays_backend_write..].
  destruct (downcast KSLoginAcknowledged p) eqn:H1.
  { destruct (phase_packet _ _ _ _ _ _ _ _ Hv (or_introl eq_refl) Hd H1) as [Hp Hn].
    injection Hp as ->. apply moves_bind; [apply stays_backend_write|]. intros _.
    by apply (moves_step v Login Config FromClient), phase_config. }
  destruct (downcast KSAcknowledgeFinishConfig p) eqn:H2; [|apply stays_moves, stays_backend_write].
  destruct (phase_packet _ _ _ _ _ _ _ _ Hv (or_intror eq_refl) Hd H2) as [Hp Hn].
  injection Hp as ->. apply moves_bind; [apply stays_backend_write|]. intros _.
  by apply (moves_step v Config Play FromClient), phase_play.
Qed.
Lemma stays_compression th : stays (sm_modify (λ s, set_client (cb_set_compression th (ss_client s)) s)).
Proof. by intros v st s Hs. Qed.
Lemma stays_backend_compression th : stays (sm_modify (λ s, set_backend (bb_set_compression th (ss_backend s)) s)).
Proof. by intros v st s Hs. Qed.

Lemma moves_backend_login v st f id p :
  decode_frame registry f st Clientbound v = Ok (Typed id p) → moves v st (backend_login v st f p).
Proof.
  intros Hd. unfold backend_login. destruct (downcast KCSetCompression p) as [sc|].
  { apply stays_moves. apply stays_bind; [apply stays_backend_compression|]. intros _.
    apply stays_bind; [apply stays_compression|]. intros _.
    apply stays_bind; [apply stays_client_write|]. intros _.
    apply stays_bind; [by apply stays_modify|]. intros _. apply stays_ret. }
  destruct (downcast KCLoginSuccess p) eqn:H1.
  { apply moves_bind; [apply stays_client_write|]. intros _.
    destruct (less_than v V1_20_2) eqn:Hl; [|apply stays_moves, stays_bind; intros; apply stays_ret].
    injection (downcast_place _ _ _ _ _ _ _ _ Hd H1) as ->. intros s Hs.
    by apply (moves_step v Login Play FromBackend
      (λ s, notify_state_change (protocol_state_to_api Play) (ss_server_chain s)) (phase_legacy _ Hl) s). }
  apply stays_moves. destruct (downcast KCLoginDisconnect p); [apply stays_client_reply|].
  destruct (downcast KCDisconnect p); [apply stays_client_reply|].
  destruct (downcast KCFinishConfig p).
  - apply stays_bind; [by apply stays_modify|]. intros _. apply stays_client_reply.
  - apply stays_bind; [apply stays_collect|]. intros _. apply stays_client_reply.
Qed.

Lemma moves_backend v st f : moves v st (handle_backend_to_client f).
Proof.
  intros s Hs. pose proof Hs as (Hcv&_&Hbs). unfold handle_backend_to_client.
  cbv [mbind sm_bind sm_get]. rewrite Hcv, Hbs. revert s Hs Hcv Hbs.
  enough (moves v st (if decide (st = Play) then backend_play v f else
    match decode_frame registry f st Clientbound v with
    | Ok (Typed _ packet) => backend_login v st f packet | Ok (Opaque _ _) => _ | Err _ => _ end))
    as Hm by (intros s Hs _ _; exact (Hm s Hs)).
  destruct (decide (st = Play)); [apply stays_moves, stays_backend_play|].
  destruct (decode_frame registry f st Clientbound v) as [[id p|id bs]|e] eqn:Hd.
  - by apply (moves_backend_login v st f id).
  - apply stays_moves. apply stays_bind; [apply stays_collect|]. intros _. apply stays_client_reply.
  - apply stays_moves, stays_client_reply.
Qed.
(** ** The loop *)

(** Reading changes nothing but what reading is about. *)
Lemma cb_read_frame_keeps (c : ClientBridge) chunks :
  let c' := (cb_read_frame c chunks).1.2 in
  cb_version c' = cb_version c ∧ cb_state c' = cb_state c ∧ cb_encoder c' = cb_encoder c ∧
  cb_encrypt c' = cb_encrypt c ∧ cb_written c' = cb_written c.
Proof.
  revert c. induction chunks as [|chunk chunks IH]; intros c; cbn [cb_read_frame];
    destruct (try_next_frame (cb_decoder c)) as [[[f|]|e] d]; try done.
  destruct (decide (chunk = [])); [done|]. destruct (decrypt_opt _ chunk) as [data k].
  exact (IH (mk_ClientBridge (queue_bytes d data) (cb_encoder c) (cb_encrypt c) k (cb_version c)
    (cb_state c) (cb_written c))).
Qed.
Lemma bb_read_frame_keeps (b : BackendBridge) chunks :
  ∃ d, (bb_read_frame b chunks).1.2 = bb_set_decoder d b.
Proof.
  revert b. induction chunks as [|chunk chunks IH]; intros b; cbn [bb_read_frame];
    destruct (try_next_frame (bb_decoder b)) as [[[f|]|e] d]; try by eexists.
  destruct (decide (chunk = [])); [by eexists|]. destruct (IH (bb_set_decoder (queue_bytes d chunk) b)) as [d' ->].
  by exists d'.
Qed.

Lemma loop_step_moves v st r s :
  v ∈ SUPPORTED → in_phase v st s → ∃ st', rtc (phase_step v) st st' ∧ in_phase v st' (loop_step r s).2.
Proof.
  intros Hv Hs. destruct r as [| |cmd|]; cbn [loop_step].
  - pose proof (cb_read_frame_keeps (ss_client s) (ss_client_in s)) as Hk.
    destruct (cb_read_frame (ss_client s) (ss_client_in s)) as [[fr c] ci]. cbn in Hk.
    destruct Hk as (Hkv&Hks&_).
    assert (Hs' : in_phase v st (set_inputs ci (ss_backend_in s) (set_client c s)))
      by (unfold in_phase in *; cbn; by rewrite Hkv, Hks).
    destruct fr as [[f|]|e]; [|by exists st..]. destruct (moves_client v st f Hv _ Hs') as (st'&Hst&Hin).
    exists st'. split; [exact Hst|]. by destruct (handle_client_to_backend f _) as [[[]|[]] s'].
  - destruct (bb_read_frame_keeps (ss_backend s) (ss_backend_in s)) as [d Hk].
    destruct (bb_read_frame (ss_backend s) (ss_backend_in s)) as [[fr b] bi]. cbn in Hk. subst b.
    assert (Hs' : in_phase v st (set_inputs (ss_client_in s) bi (set_backend (bb_set_decoder d (ss_backend s)) s)))
      by exact Hs.
    destruct fr as [[f|]|e]; [|by exists st..]. destruct (moves_backend v st f _ Hs') as (st'&Hst&Hin).
    exists st'. split; [exact Hst|]. by destruct (handle_backend_to_client f _) as [[[]|[]] s'].
  - exists st. split; [done|]. pose proof (stays_player_command cmd v st s Hs) as Hin.
    by destruct (handle_player_command cmd s) as [[[]|[]] s'].
  - by exists st.
Qed.

(** C8: A proxy loop that starts with both ends in the same protocol phase keeps them so:
    whatever client, backend, filters and plugins do and in whatever order, both ends are in
    the same phase, and the phase only moves Login to Config to Play from 1.20.2 on, and
    Login to Play before. This is about one run of the loop: after a failed switch the next
    one may start with the client in another phase than the backend. *)
Theorem session_phases (v : ProtocolVersion) (st : ConnectionState) (schedule : list ready) (s : Session) :
  v ∈ SUPPORTED → in_phase v st s →
  ∃ st', rtc (phase_step v) st st' ∧ in_phase v st' (proxy_loop schedule s).2.
Proof.
  intros Hv. revert st s. induction schedule as [|r schedule IH]; intros st s Hs; [by exists st|].
  destruct (loop_step_moves v st r s Hv Hs) as (st1&H1&Hs1). cbn [proxy_loop].
  destruct (loop_step r s) as [[o|] s1]; [by exists st1|]. destruct (IH st1 s1 Hs1) as (st2&H2&Hs2).
  exists st2. split; [by etrans|done].
Qed.
(** ** Forwarding in the play phase *)

(** Frames the proxy has no interest in. *)
Definition plain_to_backend (v : ProtocolVersion) (f : PacketFrame) : Prop :=
  Forall (λ k, get_packet_id registry k Play Serverbound v ≠ Some (frame_id f))
    [KSChatSessionUpdate; KSTabCompleteRequest; KSChatCommand; KSChatMessage] ∧
  has_packet_listeners (frame_id f) (protocol_state_to_api Play) (protocol_direction_to_api Serverbound)
    (sv_event_bus services) = false.
Definition plain_to_client (v : ProtocolVersion) (f : PacketFrame) : Prop :=
  (∀ id p, decode_frame registry f Play Clientbound v = Ok (Typed id p) →
     projT1 p ≠ KCDisconnect ∧ projT1 p ≠ KCCommands) ∧
  has_packet_listeners (frame_id f) (protocol_state_to_api Play) (protocol_direction_to_api Clientbound)
    (sv_event_bus services) = false.

(** A schedule that takes these frames from the client and these from the backend. *)
Inductive traffic : list ready → list PacketFrame → list PacketFrame → Prop :=
| traffic_nil : traffic [] [] []
| traffic_client r f fs gs : traffic r fs gs → traffic (ClientReady :: r) (f :: fs) gs
| traffic_backend r g fs gs : traffic r fs gs → traffic (BackendReady :: r) fs (g :: gs).

(** A session in the play phase with no codec filters, about to receive [fs] from the
    client and [gs] from the backend; [ob] and [oc] are these frames for the other side. *)
Record flows (v : ProtocolVersion) (fs gs : list PacketFrame) (ob oc : bytes) (s : Session) : Prop := {
  fl_phase : in_phase v Play s;
  fl_client_chain : chain_is_empty (ss_client_chain s) = true;
  fl_server_chain : chain_is_empty (ss_server_chain s) = true;
  fl_client_chunks : Forall (λ c, c ≠ []) (ss_client_in s);
  fl_backend_chunks : Forall (λ c, c ≠ []) (ss_backend_in s);
  fl_from_client : framed (dec_threshold (cb_decoder (ss_client s))) fs (pending (ss_client s) (ss_client_in s));
  fl_from_backend :
    framed (dec_threshold (bb_decoder (ss_backend s))) gs (bb_pending (ss_backend s) (ss_backend_in s));
  fl_to_backend : framed (enc_threshold (bb_encoder (ss_backend s))) fs ob;
  fl_to_client : framed (enc_threshold (cb_encoder (ss_client s))) gs oc;
  fl_client_buf : enc_buf (cb_encoder (ss_client s)) = [];
  fl_backend_buf : enc_buf (bb_encoder (ss_backend s)) = [];
  fl_open : bb_broken (ss_backend s) = None }.

Lemma apply_codec_filter_empty d f s :
  chain_is_empty (chain_of d s) = true → apply_codec_filter d f s = (Ok (false, f), s).
Proof. unfold apply_codec_filter. by intros ->. Qed.

Lemma plain_client_play v f s :
  plain_to_backend v f → chain_is_empty (ss_client_chain s) = true → client_play v f s = backend_write f s.
Proof.
  intros [Hids Hl] Hc. repeat (apply Forall_cons in Hids as [? Hids]).
  unfold client_play. cbv [mbind sm_bind]. rewrite (apply_codec_filter_empty FromClient) by done. cbn beta iota zeta.
  rewrite decide_False by congruence. unfold tab_complete_frame. rewrite decide_False by congruence.
  unfold chat_consumed, detect_chat_or_command. rewrite !decide_False by congruence.
  cbv [mret sm_ret]. cbn beta iota zeta. unfold raw_packet_event. by rewrite Hl.
Qed.

Lemma downcast_None k p : projT1 p ≠ k → downcast k p = None.
Proof. intros Hk. unfold downcast. by destruct (decide (projT1 p = k)). Qed.

Lemma plain_backend_play v f s :
  plain_to_client v f → chain_is_empty (ss_server_chain s) = true →
  backend_play v f s = (_ ← client_write f; mret BContinue) s.
Proof.
  intros [Hd Hl] Hc. unfold backend_play. cbv [mbind sm_bind].
  rewrite (apply_codec_filter_empty FromBackend) by done. cbn beta iota zeta. unfold raw_packet_event. rewrite Hl.
  destruct (decode_frame registry f Play Clientbound v) as [[id p|id bs]|e]; [|done..].
  destruct (Hd id p eq_refl) as [H1 H2]. by rewrite !downcast_None.
Qed.
Lemma backend_write_framed f fb s :
  enc_buf (bb_encoder (ss_backend s)) = [] → bb_broken (ss_backend s) = None →
  frame_packet (enc_threshold (bb_encoder (ss_backend s))) (frame_id f) (payload f) = Ok fb →
  let b := ss_backend s in
  backend_write f s =
  (Ok (), set_backend (mk_BackendBridge (bb_decoder b) (mk_encoder [] (enc_threshold (bb_encoder b))) (bb_state b)
            (bb_version b) (bb_written b ++ fb) None) s).
Proof.
  intros Hbuf Hbr Hfb. unfold backend_write, bb_write_frame, bb_write, append_raw. rewrite Hfb.
  cbn [enc_take enc_buf enc_threshold]. unfold bb_write_all. cbn. by rewrite Hbr, Hbuf.
Qed.
Lemma client_write_framed f fb s :
  enc_buf (cb_encoder (ss_client s)) = [] →
  frame_packet (enc_threshold (cb_encoder (ss_client s))) (frame_id f) (payload f) = Ok fb →
  let c := ss_client s in
  client_write f s =
  (Ok (), set_client (mk_ClientBridge (cb_decoder c) (mk_encoder [] (enc_threshold (cb_encoder c)))
            (encrypt_opt (cb_encrypt c) fb).2 (cb_decrypt c) (cb_version c) (cb_state c)
            (cb_written c ++ (encrypt_opt (cb_encrypt c) fb).1)) s).
Proof.
  intros Hbuf Hfb. unfold client_write, cb_write_frame, cb_write, append_raw. rewrite Hfb.
  cbn [enc_take enc_buf enc_threshold]. rewrite Hbuf. cbn.
  by destruct (encrypt_opt (cb_encrypt (ss_client s)) fb).
Qed.

Context `{ZLL : !ZlibLaws}.

Lemma flows_client v f fs gs ob oc s :
  plain_to_backend v f → flows v (f :: fs) gs ob oc s →
  ∃ fb ob' s', ob = fb ++ ob' ∧ loop_step ClientReady s = (None, s') ∧ flows v fs gs ob' oc s' ∧
    bb_written (ss_backend s') = bb_written (ss_backend s) ++ fb ∧
    cb_written (ss_client s') = cb_written (ss_client s) ∧
    cb_encrypt (ss_client s') = cb_encrypt (ss_client s) ∧ ss_ran s' = ss_ran s.
Proof.
  intros Hp [Hph Hcc Hsc Hcn Hbn Hfc Hfb Htb Htc Hcb Hbb Hop]. pose proof Hph as (Hv&Hcs&_).
  inversion Hfc as [|? ? inb inrest [Hid Hsz] Hin Hfc' Heq1 Heq2]; subst.
  inversion Htb as [|? ? fb ob' Hsend Hout Htb' Heq3 Heq4]; subst.
  destruct f as [id data]. cbn [frame_id payload] in *.
  destruct (cb_read_frame_next _ _ _ _ _ _ Hid Hsz Hin Hcn (eq_sym Heq2)) as (c'&ci&Hr&Hpend&Hcn'&Hth).
  pose proof (cb_read_frame_keeps (ss_client s) (ss_client_in s)) as Hk. rewrite Hr in Hk. cbn in Hk.
  destruct Hk as (Hkv&Hks&Hke&Hkc&Hkw).
  eexists fb, ob', _. split; [done|]. split.
  { cbn [loop_step]. rewrite Hr. unfold handle_client_to_backend. cbv [mbind sm_bind sm_get].
    cbn [ss_client set_inputs set_client]. rewrite Hks, Hcs. rewrite decide_True by done.
    rewrite plain_client_play; [|by rewrite Hkv|done].
    by rewrite (backend_write_framed _ fb). }
  split; [|by split_and!].
  split; cbn; try done; [|by rewrite Hth, Hpend|by rewrite Hke..].
  destruct Hph as (?&?&?). split_and!; cbn; congruence.
Qed.

Lemma flows_backend v g fs gs ob oc s :
  plain_to_client v g → flows v fs (g :: gs) ob oc s →
  ∃ gb oc' s', oc = gb ++ oc' ∧ loop_step BackendReady s = (None, s') ∧ flows v fs gs ob oc' s' ∧
    bb_written (ss_backend s') = bb_written (ss_backend s) ∧
    cb_written (ss_client s') = cb_written (ss_client s) ++ (encrypt_opt (cb_encrypt (ss_client s)) gb).1 ∧
    cb_encrypt (ss_client s') = (encrypt_opt (cb_encrypt (ss_client s)) gb).2 ∧ ss_ran s' = ss_ran s.
Proof.
  intros Hp [Hph Hcc Hsc Hcn Hbn Hfc Hfb Htb Htc Hcb Hbb Hop]. pose proof Hph as (Hv&_&Hbs).
  inversion Hfb as [|? ? inb inrest [Hid Hsz] Hin Hfb' Heq1 Heq2]; subst.
  inversion Htc as [|? ? gb oc' Hsend Hout Htc' Heq3 Heq4]; subst.
  destruct g as [id data]. cbn [frame_id payload] in *.
  destruct (bb_read_frame_next _ _ _ _ _ _ Hid Hsz Hin Hbn (eq_sym Heq2)) as (b'&bi&Hr&Hpend&Hbn'&buf&->).
  eexists gb, oc', _. split; [done|]. split.
  { cbn [loop_step]. rewrite Hr. unfold handle_backend_to_client. cbv [mbind sm_bind sm_get].
    cbn [ss_client ss_backend set_inputs set_backend bb_state bb_set_decoder].
    rewrite Hbs. rewrite decide_True by done.
    rewrite plain_backend_play; [|done|done]. cbv [mbind sm_bind].
    by rewrite (client_write_framed _ gb). }
  split; [|by split_and!].
  split; cbn; try done. rewrite <- Hpend in Hfb'. exact Hfb'.
Qed.

(** C4: In the play phase, with no codec filter on either side and no packet listener for the
    frames, for every interleaving of reads and every chunking, the frames of the client
    that are not chat, commands, completions or updates of the chat session reach the
    backend unchanged and in order, and those of the backend that are not disconnects or
    command trees reach the client, re-framed for the compression of that side and
    encrypted; no other byte is written. *)
Theorem play_traffic_forwarded (v : ProtocolVersion) (schedule : list ready) (fs gs : list PacketFrame)
    (ob oc : bytes) (s : Session) :
  traffic schedule fs gs → Forall (plain_to_backend v) fs → Forall (plain_to_client v) gs →
  flows v fs gs ob oc s →
  ∃ s', proxy_loop schedule s = (None, s') ∧
    bb_written (ss_backend s') = bb_written (ss_backend s) ++ ob ∧
    cb_written (ss_client s') = cb_written (ss_client s) ++ (encrypt_opt (cb_encrypt (ss_client s)) oc).1 ∧
    ss_ran s' = ss_ran s.
Proof.
  intros Ht. revert ob oc s. induction Ht as [|r f fs gs Ht IH|r g fs gs Ht IH]; intros ob oc s Hfs Hgs Hfl.
  - exists s. destruct Hfl as [? ? ? ? ? ? ? Htb Htc]. inversion Htb; inversion Htc; subst.
    rewrite app_nil_r. split_and!; try done. destruct (cb_encrypt (ss_client s)); cbn; by rewrite app_nil_r.
  - apply Forall_cons in Hfs as [Hf Hfs].
    destruct (flows_client v f fs gs ob oc s Hf Hfl) as (fb&ob'&s1&->&Hstep&Hfl1&Hb&Hc&He&Hr).
    destruct (IH ob' oc s1 Hfs Hgs Hfl1) as (s'&Hloop&Hb'&Hc'&Hr'). exists s'. cbn [proxy_loop]. rewrite Hstep.
    split; [done|]. rewrite Hb', Hc', Hr', Hb, Hc, He, Hr. by rewrite app_assoc.
  - apply Forall_cons in Hgs as [Hg Hgs].
    destruct (flows_backend v g fs gs ob oc s Hg Hfl) as (gb&oc'&s1&->&Hstep&Hfl1&Hb&Hc&He&Hr).
    destruct (IH ob oc' s1 Hfs Hgs Hfl1) as (s'&Hloop&Hb'&Hc'&Hr'). exists s'. cbn [proxy_loop]. rewrite Hstep.
    split; [done|]. rewrite Hb', Hc', Hr', Hb, Hc, He, Hr. by rewrite encrypt_opt_app, app_assoc.
Qed.
(** ** Chat and commands *)

(** The packets a client sends for a command or for a line of chat. *)
Definition typed_as (a : ChatAction) (p : ErasedPacket) : Prop :=
  match a with
  | ChatCommand input =>
    (∃ rest, p = existT KSChatMessage (mk_SChatMessage (47 :: input) rest)) ∨
    (∃ rest, p = existT KSChatCommand (mk_SChatCommand input rest))
  | ChatText text =>
    head text ≠ Some 47 ∧ ∃ rest, p = existT KSChatMessage (mk_SChatMessage text rest)
  end.

(** What becomes of it: a command the proxy knows is run and goes no further, a line a
    listener denies is dropped, and the rest goes to the backend as it came. *)
Definition chat_reaction (a : ChatAction) (f : PacketFrame) : SM () := λ s,
  match a with
  | ChatCommand input =>
    match dispatch_command (Some player_id) input (sv_command_manager services) with
    | Some run => (Ok (), set_ran (ss_ran s ++ [run]) s)
    | None => backend_write f s
    end
  | ChatText text =>
    match ce_result (fire (sv_chat_event services) (ChatMessageEvent_new player_id text) (sv_event_bus services)) with
    | ChatDeny _ => (Ok (), s)
    | ChatAllow | ChatModify _ => backend_write f s
    end
  end.

Definition play_ids : list packet_kind := [KSChatSessionUpdate; KSTabCompleteRequest; KSChatCommand; KSChatMessage].

Lemma play_ids_table :
  forallb (λ v, forallb (λ k, forallb (λ k',
    bool_decide (k = k') || bool_decide (get_packet_id build_default_registry k Play Serverbound v = None) ||
    bool_decide (get_packet_id build_default_registry k Play Serverbound v ≠
                 get_packet_id build_default_registry k' Play Serverbound v)) play_ids) play_ids) SUPPORTED = true.
Proof. by vm_compute. Qed.

Lemma play_ids_distinct v k k' id :
  v ∈ SUPPORTED → k ∈ play_ids → k' ∈ play_ids → k ≠ k' →
  get_packet_id registry k Play Serverbound v = Some id →
  Some id ≠ get_packet_id registry k' Play Serverbound v.
Proof.
  rewrite Hregistry. intros Hv Hk Hk' Hne. pose proof play_ids_table as Ht. revert Ht.
  generalize build_default_registry. intros R Ht Hid. rewrite forallb_forall in Ht.
  specialize (Ht v (proj1 (list_elem_of_In _ _) Hv)). rewrite forallb_forall in Ht.
  specialize (Ht k (proj1 (list_elem_of_In _ _) Hk)). rewrite forallb_forall in Ht.
  specialize (Ht k' (proj1 (list_elem_of_In _ _) Hk')). rewrite !Hid in Ht.
  apply orb_true_iff in Ht as [[Ht|Ht]%orb_true_iff|Ht].
  - apply bool_decide_eq_true_1 in Ht. by destruct Hne.
  - apply bool_decide_eq_true_1 in Ht. discriminate Ht.
  - exact (bool_decide_eq_true_1 _ Ht).
Qed.

Context `{UTL : !UuidTextLaws}.
Lemma client_play_chat v k id bs s :
  v ∈ SUPPORTED → k = KSChatMessage ∨ k = KSChatCommand →
  get_packet_id registry k Play Serverbound v = Some id → chain_is_empty (ss_client_chain s) = true →
  has_packet_listeners id (protocol_state_to_api Play) (protocol_direction_to_api Serverbound)
    (sv_event_bus services) = false →
  client_play v (mk_frame id bs) s =
  (consumed ← chat_consumed v (mk_frame id bs);
   if consumed : bool then mret () else backend_write (mk_frame id bs)) s.
Proof.
  intros Hv Hk Hid Hc Hl. unfold client_play. cbv [mbind sm_bind].
  rewrite (apply_codec_filter_empty FromClient) by exact Hc. cbn beta iota zeta.
  assert (Hother : ∀ k', k' = KSChatSessionUpdate ∨ k' = KSTabCompleteRequest →
    Some id ≠ get_packet_id registry k' Play Serverbound v).
  { intros k' Hk'. apply (play_ids_distinct v k); [exact Hv| | | |exact Hid].
    - destruct Hk as [->| ->]; by repeat constructor.
    - destruct Hk' as [->| ->]; by repeat constructor.
    - destruct Hk as [->| ->], Hk' as [->| ->]; discriminate. }
  rewrite decide_False by (apply Hother; by left). unfold tab_complete_frame.
  rewrite decide_False by (apply Hother; by right). unfold raw_packet_event. cbn [frame_id] in *. by rewrite Hl.
Qed.

Lemma detect_typed v a p id bs :
  v ∈ SUPPORTED → typed_as a p →
  get_packet_id registry (projT1 p) Play Serverbound v = Some id →
  pkt_decode (kind_type (projT1 p)) v bs = Ok (projT2 p, []) →
  detect_chat_or_command registry (mk_frame id bs) v = Some a.
Proof.
  intros Hv Ha Hid Hd. unfold detect_chat_or_command. cbn [frame_id payload].
  assert (Hmsg : ∀ m, projT1 p = KSChatMessage →
    SChatMessage_decode v bs = Ok (m, []) → detect_chat_or_command registry (mk_frame id bs) v =
      if decide (head (cm_message m) = Some 47) then Some (ChatCommand (tail (cm_message m)))
      else Some (ChatText (cm_message m))).
  { intros m Hp Hm. unfold detect_chat_or_command. cbn [frame_id payload]. rewrite Hp in *.
    rewrite decide_False by (apply (play_ids_distinct v KSChatMessage); try done; by repeat constructor).
    rewrite decide_True by done. by rewrite Hm. }
  destruct a as [input|text]; [destruct Ha as [[rest ->]|[rest ->]]|destruct Ha as [Hh [rest ->]]];
    cbn [projT1 projT2] in *.
  - exact (Hmsg _ eq_refl Hd).
  - rewrite decide_True by done.
    change (SChatCommand_decode v bs = Ok (mk_SChatCommand input rest, [])) in Hd. by rewrite Hd.
  - etrans; [exact (Hmsg _ eq_refl Hd)|]. cbn [cm_message]. by rewrite decide_False.
Qed.

(** C9: In the play phase, with no codec filter on the client's side and no packet listener
    for the packet: a command of the player that the proxy knows is run once with the id
    and the arguments of the player and goes no further, a line of chat that a listener
    denies is dropped, and any other command or line of chat goes to the backend as it
    came, in every version. *)
Theorem chat_and_commands (v : ProtocolVersion) (a : ChatAction) (p : ErasedPacket) (id : Z) (s : Session) :
  v ∈ SUPPORTED → in_phase v Play s → chain_is_empty (ss_client_chain s) = true →
  typed_as a p → pkt_ok (projT2 p) v →
  get_packet_id registry (projT1 p) Play Serverbound v = Some id →
  has_packet_listeners id (protocol_state_to_api Play) (protocol_direction_to_api Serverbound)
    (sv_event_bus services) = false →
  ∃ bs, encode_payload p v = Ok bs ∧
    handle_client_to_backend (mk_frame id bs) s = chat_reaction a (mk_frame id bs) s.
Proof.
  intros Hv (Hcv&Hcs&_) Hc Ha Hok Hid Hl.
  assert (Hk : (projT1 p = KSChatMessage ∨ projT1 p = KSChatCommand) ∧ pkt_norm (projT2 p) v = projT2 p)
    by (destruct a; [destruct Ha as [[rest ->]|[rest ->]]|destruct Ha as [_ [rest ->]]]; cbn; tauto).
  destruct Hk as [Hk Hn]. destruct (pkt_roundtrip (projT2 p) v Hok) as (bs&Hbs&Hr).
  rewrite Hn in Hr. exists bs. split; [exact Hbs|].
  unfold handle_client_to_backend. cbv [mbind sm_bind sm_get]. rewrite Hcs, Hcv. rewrite decide_True by done.
  rewrite (client_play_chat v (projT1 p)) by done. unfold chat_consumed.
  rewrite (detect_typed v a p) by done.
  unfold chat_reaction. cbv [mbind sm_bind]. destruct a as [input|text].
  - by destruct (dispatch_command _ _ _) as [run|].
  - by destruct (ce_result _).
Qed.
End session.
Arguments Session {CF} H I.

(** ** Sample sessions *)

#[local] Existing Instances toy_cfb8 stored_zlib hex_uuid ascii_lowercase.

(** A filter that announces every packet with one of its own. *)
#[local] Instance announcing : CodecInstances RawPacket := {
  ci_filter i _ p o := (VPass, i, p, inject_before i o);
  ci_on_state_change _ i := i;
  ci_on_compression_change _ i := i;
  ci_on_close i := i }.

Definition sample_services : Services (H := string) (TypeId := Z)
    (HM := assoc_map Z (list (HandlerEntry ChatMessageEvent)))
    (PM := assoc_map PacketKey (list (HandlerEntry RawPacketEvent))) := {|
  sv_registry := build_default_registry;
  sv_command_manager := register_builtin (str "spawn") [] [] "spawn handler"%string command_manager_new;
  sv_command_order := map_to_list;
  sv_tab_complete_for _ _ _ _ := [];
  sv_permissions := permission_new_sync (Build_PermissionsConfig [] []);
  sv_player_level _ := None;
  sv_event_bus := bus_new;
  sv_chat_event := 0;
  sv_announce_proxy_commands := false |}.

Definition chain_with (l : list RawPacket) : CodecFilterChain RawPacket :=
  Build_CodecFilterChain l (Build_CodecContext V1_21 None AHandshake 0 ClientSide None false).
Definition sample_session (v : ProtocolVersion) (st : ConnectionState) (filters : list RawPacket)
    (from_client from_backend : list bytes) : Session string RawPacket :=
  mk_Session (cb_set_state st (ClientBridge_new [] v)) from_client (bb_set_state st (BackendBridge_new v))
    from_backend (chain_with filters) (chain_with []) ∅ [].

(** The client acknowledges the login, then the configuration. *)
Definition acknowledging : Session string RawPacket := sample_session V1_21 Login [] [[1]; [3; 1; 3]] [].

Lemma session_phases_witness :
  (∃ st, rtc (phase_step V1_21) Login st ∧
     in_phase V1_21 st (proxy_loop sample_services 7 [ClientReady; ClientReady] acknowledging).2) ∧
  cb_state (ss_client (proxy_loop sample_services 7 [ClientReady; ClientReady] acknowledging).2) = Play.
Proof.
  split; [|by vm_compute].
  apply (session_phases sample_services 7 eq_refl V1_21 Login [ClientReady; ClientReady] acknowledging).
  - apply (bool_decide_unpack _). by vm_compute.
  - by vm_compute.
Defined.

(** Two frames from the client and one from the backend, cut anywhere. *)
Definition from_client : list PacketFrame := [mk_frame 200 [5]; mk_frame 201 []].
Definition from_backend : list PacketFrame := [mk_frame 222 [9; 9]].
Definition playing : Session string RawPacket :=
  sample_session V1_21 Play [] [[3; 200]; [1; 5; 2; 201]; [1]] [[4; 222; 1; 9]; [9]].

Lemma play_traffic_forwarded_witness :
  ∃ s, proxy_loop sample_services 7 [ClientReady; BackendReady; ClientReady] playing = (None, s) ∧
    bb_written (ss_backend s) = [] ++ [3; 200; 1; 5; 2; 201; 1] ∧
    cb_written (ss_client s) = [] ++ [4; 222; 1; 9; 9] ∧ ss_ran s = [].
Proof.
  apply (play_traffic_forwarded (ZLL := stored_zlib_laws) sample_services 7 V1_21
    [ClientReady; BackendReady; ClientReady] from_client from_backend
    [3; 200; 1; 5; 2; 201; 1] [4; 222; 1; 9; 9] playing).
  - unfold from_client, from_backend. by repeat constructor.
  - apply Forall_cons. split; [|apply Forall_singleton]; (split; [|by vm_compute]);
      apply (bool_decide_unpack _); by vm_compute.
  - apply Forall_singleton. split; [|by vm_compute]. intros id p Hd. by vm_compute in Hd.
  - assert (Hs : ∀ f, f ∈ from_client ++ from_backend → sendable f).
    { apply Forall_forall, (bool_decide_unpack _). by vm_compute. }
    assert (Hc : framed None from_client [3; 200; 1; 5; 2; 201; 1]).
    { apply (framed_cons _ _ _ [3; 200; 1; 5] [2; 201; 1]); [apply Hs; by left|by vm_compute|].
      apply (framed_cons _ _ _ [2; 201; 1] []); [apply Hs; by right; left|by vm_compute|constructor]. }
    assert (Hb : framed None from_backend [4; 222; 1; 9; 9]).
    { apply (framed_cons _ _ _ [4; 222; 1; 9; 9] []); [apply Hs; by right; right; left|by vm_compute|constructor]. }
    split; [by vm_compute|done|done| | |exact Hc|exact Hb|exact Hc|exact Hb|done|done|done];
      apply (bool_decide_unpack _); by vm_compute.
Defined.

(** The command the proxy knows, and one it does not. *)
Definition command_packet (text : string) : ErasedPacket := existT KSChatCommand (mk_SChatCommand (str text) []).

Lemma chat_and_commands_witness :
  (∃ bs, encode_payload (command_packet "Spawn now") V1_21 = Ok bs ∧
     handle_client_to_backend sample_services 7 (mk_frame 4 bs) playing =
     chat_reaction sample_services 7 (ChatCommand (str "Spawn now")) (mk_frame 4 bs) playing) ∧
  ss_ran (chat_reaction sample_services 7 (ChatCommand (str "Spawn now")) (mk_frame 4 []) playing).2 =
    [("spawn handler"%string, Build_CommandContext (Some 7) [str "now"] (str "Spawn now"))] ∧
  bb_written (ss_backend (chat_reaction sample_services 7 (ChatCommand (str "home")) (mk_frame 4 [1]) playing).2) =
    [2; 4; 1].
Proof.
  split; [|split; by vm_compute].
  apply (chat_and_commands sample_services 7 eq_refl (UTL := hex_uuid_laws) V1_21
    (ChatCommand (str "Spawn now")) (command_packet "Spawn now") 4 playing).
  - apply (bool_decide_unpack _). by vm_compute.
  - by vm_compute.
  - done.
  - right. by exists [].
  - apply (bool_decide_unpack _). by vm_compute.
  - by vm_compute.
  - by vm_compute.
Defined.

(** ** Where the loop does not do what its comments say *)

(** When the backend switches compression on during a forwarded login, the packet that
    says so is itself sent to the client in the compressed format: the client reads it
    as packet 0, which is a disconnect. *)
Theorem set_compression_garbled :
  let s := (proxy_loop sample_services 7 [BackendReady]
              (sample_session V1_21 Login [] [] [[3; 3; 128; 2]])).2 in
  cb_written (ss_client s) = [4; 0; 3; 128; 2] ∧
  (try_next_frame (queue_bytes PacketDecoder_new (cb_written (ss_client s)))).1 =
    Ok (Some (mk_frame 0 [3; 128; 2])).
Proof. split; by vm_compute. Qed.

Theorem injection_skips_commands :
  let play filters := (proxy_loop sample_services 7 [ClientReady]
                         (sample_session V1_21 Play filters [[7; 4; 5; 115; 112; 97; 119; 110]] [])).2 in
  length (ss_ran (play [])) = 1%nat ∧ bb_written (ss_backend (play [])) = [] ∧
  ss_ran (play [Build_RawPacket 9 []]) = [] ∧
  bb_written (ss_backend (play [Build_RawPacket 9 []])) = [1; 9; 7; 4; 5; 115; 112; 97; 119; 110].
Proof. split_and!; by vm_compute. Qed.

Theorem reconfiguration_drops_known_packs :
  get_packet_id build_default_registry KSChatSessionUpdate Play Serverbound V1_21 = Some 7 ∧
  let s := (proxy_loop sample_services 7 [BackendReady; ClientReady; ClientReady]
              (sample_session V1_21 Play [] [[1; 12]; [2; 7; 0]] [[1; 105]])).2 in
  cb_state (ss_client s) = Play ∧ cb_written (ss_client s) = [1; 105] ∧ bb_written (ss_backend s) = [1; 12].
Proof. split_and!; by vm_compute. Qed.
