(* ===== verification/LimboWorld.v ===== *)
(** * LimboWorld: the world a player sees in limbo

    Models [chunk.rs], [limbo/registry_nbt.rs] and [limbo/spawn.rs]: the empty chunk, the
    registry the join packet of 1.16 to 1.20.1 embeds, and the packets that put a player
    into the limbo world.  A float is the integer with the same bits.  Each [send_] function
    encodes and writes to the client; an error leaves what was written before. *)
From S2P Require Import Prelude Wire Utf8 VarInt Codec Frame Version Packet LoginPackets PlayPackets Nbt Component.
From S2P Require Import Registry DefaultRegistry Bridge Config Router Middleware ServerManager Forwarding Backend EventBus.
From S2P Require Import Filters ProxyCommands Session.

(** ** The empty chunk *)

(** The loop of [write_varint]: at most five groups of seven bits. *)
Fixpoint write_varint_loop (fuel : nat) (val : Z) : bytes :=
  match fuel with
  | O => []
  | S fuel =>
    if decide (Z.land val (wrap_u 32 (Z.lnot 0x7F)) = 0) then [wrap_u 8 val]
    else wrap_u 8 (Z.lor (Z.land val 0x7F) 0x80) :: write_varint_loop fuel (Z.shiftr val 7)
  end.
Definition write_varint (value : Z) : bytes := write_varint_loop 5 (wrap_u 32 value).

Definition chunk_data_packet_id (v : ProtocolVersion) : Z :=
  if no_less_than v V1_14 && less_than v V1_15 then 0x21
  else if no_less_than v V1_15 && less_than v V1_16 then 0x22
  else if no_less_than v V1_16 && less_than v V1_16_2 then 0x21
  else if no_less_than v V1_16_2 && less_than v V1_17 then 0x20
  else if no_less_than v V1_17 && less_than v V1_18 then 0x22
  else if no_less_than v V1_18 && less_than v V1_19 then 0x22
  else if no_less_than v V1_19 && less_than v V1_19_1 then 0x1F
  else if no_less_than v V1_19_1 && less_than v V1_19_3 then 0x21
  else if no_less_than v V1_19_3 && less_than v V1_19_4 then 0x20
  else if no_less_than v V1_19_4 && less_than v V1_20_2 then 0x24
  else if no_less_than v V1_20_2 && less_than v V1_20_5 then 0x25
  else if no_less_than v V1_20_5 && less_than v V1_21_2 then 0x27
  else if no_less_than v V1_21_2 && less_than v V1_21_5 then 0x28
  else if no_less_than v V1_21_5 && less_than v V1_21_9 then 0x27
  else if no_less_than v V1_21_9 then 0x2C
  else if no_less_than v V1_13 then 0x22
  else if no_less_than v V1_9 then 0x20
  else 0x21.

Section chunk.
Context `{ZL : Zlib}.

Definition zlib_compress (data : bytes) : bytes := zlib_encode 6 data.

Definition build_pre_1_14_empty_chunk (v : ProtocolVersion) : bytes :=
  let biome_data := replicate 256 0 in
  [1] ++
  (if less_than v V1_8 then
     let compressed := zlib_compress biome_data in
     to_be_bytes 2 0 ++ to_be_bytes 2 0 ++ to_be_bytes 4 (wrap_s 32 (zlen compressed)) ++ compressed
   else if less_than v V1_9 then to_be_bytes 2 0 ++ write_varint 256 ++ biome_data
   else write_varint 0 ++ write_varint 256 ++ biome_data ++ write_varint 0).

Definition encode_empty_section (v : ProtocolVersion) : bytes :=
  let data_length := if less_than v V1_21_5 then write_varint 0 else [] in
  to_be_bytes 2 0 ++ [0] ++ write_varint 0 ++ data_length ++ [0] ++ write_varint 0 ++ data_length.

Definition encode_empty_chunk_sections (num_sections : nat) (v : ProtocolVersion) : bytes :=
  concat (replicate num_sections (encode_empty_section v)).

Definition encode_nbt_long_array (name : rstring) (count : Z) : bytes :=
  let name_bytes := as_bytes name in
  [0x0C] ++ to_be_bytes 2 (zlen name_bytes) ++ name_bytes ++ to_be_bytes 4 count ++
  concat (replicate (Z.to_nat count) (to_be_bytes 8 0)).

Definition encode_empty_heightmaps_nbt (v : ProtocolVersion) : bytes :=
  [0x0A] ++ (if less_than v V1_20_2 then to_be_bytes 2 0 else []) ++
  encode_nbt_long_array (str "MOTION_BLOCKING") 37 ++ encode_nbt_long_array (str "WORLD_SURFACE") 37 ++ [0x00].

Definition encode_empty_heightmaps_map : bytes :=
  write_varint 3 ++
  concat ((λ index, write_varint index ++ write_varint 37 ++ concat (replicate 37 (to_be_bytes 8 0))) <$> [1; 4; 5]).

Definition encode_empty_heightmaps (v : ProtocolVersion) : bytes :=
  if less_than v V1_21_5 then encode_empty_heightmaps_nbt v else encode_empty_heightmaps_map.

Definition encode_light_data (num_sections : nat) : bytes :=
  let total_bits := Z.of_nat num_sections + 2 in
  let num_longs := (total_bits + 63) / 64 in
  let all_set := if decide (64 ≤ total_bits) then 2 ^ 64 - 1 else 2 ^ total_bits - 1 in
  let zeros n := concat (replicate (Z.to_nat n) (to_be_bytes 8 0)) in
  let empty := write_varint (wrap_s 32 num_longs) ++ zeros num_longs in
  let full := write_varint (wrap_s 32 num_longs) ++ to_be_bytes 8 all_set ++ zeros (num_longs - 1) in
  empty ++ empty ++ full ++ full ++ write_varint 0 ++ write_varint 0.

Definition build_chunk_data_payload (chunk_x chunk_z : Z) (num_sections : nat) (v : ProtocolVersion) : bytes :=
  to_be_bytes 4 chunk_x ++ to_be_bytes 4 chunk_z ++
  (if less_than v V1_14 then build_pre_1_14_empty_chunk v
   else
     let sections := encode_empty_chunk_sections num_sections v in
     encode_empty_heightmaps v ++ write_varint (wrap_s 32 (zlen sections)) ++ sections ++ write_varint 0 ++
     (if no_less_than v V1_18 then encode_light_data num_sections else [])).

Definition build_chunk_data_frame (chunk_x chunk_z : Z) (num_sections : nat) (v : ProtocolVersion)
    : ProtocolResult PacketFrame :=
  Ok (mk_frame (chunk_data_packet_id v) (build_chunk_data_payload chunk_x chunk_z num_sections v)).
End chunk.

(** ** The registry in the join packet *)

Definition write_nbt_string (s : rstring) : bytes :=
  let bs := as_bytes s in to_be_bytes 2 (wrap_u 16 (zlen bs)) ++ bs.
Definition write_nbt_raw_string (s : rstring) : bytes :=
  let bs := as_bytes s in to_be_bytes 2 (wrap_u 16 (zlen bs)) ++ bs.
Definition string_field (name value : string) : bytes :=
  [TAG_STRING] ++ write_nbt_string (str name) ++ write_nbt_string (str value).
Definition byte_field (name : string) (value : Z) : bytes :=
  [TAG_BYTE] ++ write_nbt_string (str name) ++ [value].
Definition int_field (name : string) (value : Z) : bytes :=
  [TAG_INT] ++ write_nbt_string (str name) ++ to_be_bytes 4 value.
Definition float_field (name : string) (value : Z) : bytes :=
  [TAG_FLOAT] ++ write_nbt_string (str name) ++ to_be_bytes 4 value.
Definition double_field (name : string) (value : Z) : bytes :=
  [TAG_DOUBLE] ++ write_nbt_string (str name) ++ to_be_bytes 8 value.
Definition open_compound (name : string) : bytes := [TAG_COMPOUND] ++ write_nbt_string (str name).

Definition write_registry_entry_container (key type_id : string) (element : bytes) : bytes :=
  open_compound key ++ string_field "type" type_id ++
  [TAG_LIST] ++ write_nbt_string (str "value") ++ [TAG_COMPOUND] ++ to_be_bytes 4 1 ++
  string_field "name" "minecraft:the_end" ++ int_field "id" 0 ++
  open_compound "element" ++ element ++ [TAG_END] ++
  [TAG_END] ++ [TAG_END].

Definition write_dimension_type_fields (pvn : Z) : bytes :=
  byte_field "piglin_safe" 0 ++ byte_field "natural" 0 ++ float_field "ambient_light" 0 ++
  string_field "infiniburn"
    (if decide (759 ≤ pvn) then "#minecraft:infiniburn_end" else "minecraft:infiniburn_end") ++
  byte_field "respawn_anchor_works" 0 ++ byte_field "has_skylight" 0 ++ byte_field "bed_works" 0 ++
  string_field "effects" "minecraft:the_end" ++ byte_field "has_raids" 1 ++
  (if decide (751 ≤ pvn) then int_field "min_y" 0 ++ int_field "height" 256 else []) ++
  int_field "logical_height" 256 ++ double_field "coordinate_scale" 0x3FF0000000000000 ++
  byte_field "ultrawarm" 0 ++ byte_field "has_ceiling" 0 ++
  (if decide (759 ≤ pvn) then
     int_field "monster_spawn_block_light_limit" 0 ++
     open_compound "monster_spawn_light_level" ++ string_field "type" "minecraft:uniform" ++
     open_compound "value" ++ int_field "max_inclusive" 7 ++ int_field "min_inclusive" 0 ++ [TAG_END] ++ [TAG_END]
   else []).
Definition end_dimension_type_element (pvn : Z) : bytes := write_dimension_type_fields pvn.

Definition plains_biome_element (pvn : Z) : bytes :=
  (if decide (pvn < 759) then string_field "precipitation" "rain" else byte_field "has_precipitation" 1) ++
  open_compound "effects" ++ int_field "sky_color" 7907327 ++ int_field "water_fog_color" 329011 ++
  int_field "fog_color" 12638463 ++ int_field "water_color" 4159204 ++
  open_compound "mood_sound" ++ int_field "tick_delay" 6000 ++ double_field "offset" 0x4000000000000000 ++
  string_field "sound" "minecraft:ambient.cave" ++ int_field "block_search_extent" 8 ++ [TAG_END] ++
  [TAG_END] ++
  float_field "temperature" 0x3F4CCCCD ++ float_field "downfall" 0x3ECCCCCD ++
  (if decide (pvn < 759) then
     float_field "depth" 0x3E000000 ++ float_field "scale" 0x3D4CCCCD ++ string_field "category" "plains"
   else []).

(** The chat and narration part of a chat type: its key and its two parameters. *)
Definition chat_decoration (name key : string) : bytes :=
  open_compound name ++ string_field "translation_key" key ++
  [TAG_LIST] ++ write_nbt_string (str "parameters") ++ [TAG_STRING] ++ to_be_bytes 4 2 ++
  write_nbt_raw_string (str "sender") ++ write_nbt_raw_string (str "content") ++ [TAG_END].
Definition write_chat_type_registry : bytes :=
  open_compound "minecraft:chat_type" ++ string_field "type" "minecraft:chat_type" ++
  [TAG_LIST] ++ write_nbt_string (str "value") ++ [TAG_COMPOUND] ++ to_be_bytes 4 1 ++
  string_field "name" "minecraft:chat" ++ int_field "id" 0 ++
  open_compound "element" ++ chat_decoration "chat" "chat.type.text" ++
  chat_decoration "narration" "chat.type.text.narrate" ++ [TAG_END] ++ [TAG_END] ++ [TAG_END].

Definition write_damage_type_registry : bytes :=
  open_compound "minecraft:damage_type" ++ string_field "type" "minecraft:damage_type" ++
  [TAG_LIST] ++ write_nbt_string (str "value") ++ [TAG_COMPOUND] ++ to_be_bytes 4 1 ++
  string_field "name" "minecraft:generic" ++ int_field "id" 0 ++
  open_compound "element" ++ string_field "message_id" "generic" ++ string_field "scaling" "never" ++
  float_field "exhaustion" 0 ++ [TAG_END] ++ [TAG_END] ++ [TAG_END].

Definition build_registry_codec (pvn : Z) : bytes :=
  open_compound "" ++
  (if decide (pvn < 751) then
     write_registry_entry_container "dimension" "minecraft:dimension_type" (end_dimension_type_element pvn)
   else
     write_registry_entry_container "minecraft:dimension_type" "minecraft:dimension_type"
       (end_dimension_type_element pvn) ++
     write_registry_entry_container "minecraft:worldgen/biome" "minecraft:worldgen/biome"
       (plains_biome_element pvn) ++
     (if decide (759 ≤ pvn) then write_chat_type_registry else []) ++
     (if decide (762 ≤ pvn) then write_damage_type_registry else [])) ++
  [TAG_END].

Definition build_dimension_codec (pvn : Z) : bytes :=
  open_compound "" ++ write_dimension_type_fields pvn ++ [TAG_END].

(** ** The spawn sequence *)

Definition LIMBO_DIMENSION_NAME : rstring := str "minecraft:the_end".
Definition LIMBO_DIMENSION_ID : Z := 2.
Definition LIMBO_NUM_SECTIONS : nat := 16.
Definition LIMBO_DIM : DimensionInfo := DLegacy 1.

Definition build_pre_1_16_join_game_payload (v : ProtocolVersion) : ProtocolResult bytes :=
  write_u8 2 +>
  (if less_than v V1_9 then write_i8 1 else write_i32_be 1) +>
  (if less_than v V1_14 then write_u8 0 else Ok []) +>
  (if no_less_than v V1_15 then write_i64_be 0 else Ok []) +>
  (if no_less_than v V1_14 && less_than v V1_15 then write_var_int 1 else write_u8 1) +>
  write_string (str "default") +>
  (if no_less_than v V1_14 then write_var_int 2 else Ok []) +>
  (if no_less_than v V1_8 then write_bool false else Ok []) +>
  (if no_less_than v V1_15 then write_bool false else Ok []).

Definition build_1_16_to_1_20_1_join_game_payload (v : ProtocolVersion) : ProtocolResult bytes :=
  (if decide (751 ≤ v) then write_bool false else Ok []) +>
  write_u8 2 +> write_i8 (-1) +>
  write_var_int 1 +> write_string LIMBO_DIMENSION_NAME +>
  Ok (build_registry_codec v) +>
  (if decide (751 ≤ v ≤ 758) then Ok (build_dimension_codec v) else Ok []) +>
  write_string LIMBO_DIMENSION_NAME +>
  write_string LIMBO_DIMENSION_NAME +>
  write_i64_be 0 +> write_var_int 1 +> write_var_int 2 +>
  (if decide (757 ≤ v) then write_var_int 2 else Ok []) +>
  write_bool false +> write_bool true +> write_bool false +> write_bool false +>
  (if decide (759 ≤ v) then write_bool false else Ok []) +>
  (if decide (762 ≤ v) then write_var_int 0 else Ok []).

Definition build_limbo_join_game (v : ProtocolVersion) : ProtocolResult CJoinGame :=
  if less_than v V1_16 then
    raw_payload ← build_pre_1_16_join_game_payload v; Ok (CJoinGame_default 0 (Some raw_payload))
  else if less_than v V1_20_2 then
    raw_payload ← build_1_16_to_1_20_1_join_game_payload v; Ok (CJoinGame_default 0 (Some raw_payload))
  else
    Ok (mk_CJoinGame 0 false 2 (-1) 1 2 2 false true false [LIMBO_DIMENSION_NAME] LIMBO_DIMENSION_NAME 0 false false
          LIMBO_DIMENSION_ID 0 0 false None None None).

(** The y coordinate: 400.0 before 1.16, 64.0 since. *)
Definition limbo_player_position (v : ProtocolVersion) : CSynchronizePlayerPosition :=
  let y := if less_than v V1_16 then 0x4079000000000000 else 0x4050000000000000 in
  mk_CSynchronizePlayerPosition 0 y 0 0 0 0 0 0 0 0.

Definition container_set_content_packet_id (pvn : ProtocolVersion) : Z :=
  if decide (770 ≤ pvn) then 0x12
  else if decide (764 ≤ pvn ≤ 769) then 0x13
  else if decide (762 ≤ pvn ≤ 763) then 0x12
  else if decide (pvn = 761) then 0x11
  else if decide (pvn = 760) then 0x12
  else if decide (pvn = 759) then 0x13
  else if decide (755 ≤ pvn ≤ 758) then 0x14
  else if decide (751 ≤ pvn ≤ 754) then 0x13
  else if decide (735 ≤ pvn ≤ 750) then 0x14
  else 0x13.

(** A handler with the client's end only; [None] is a panic. *)
Section spawn.
Context `{CF : Cfb8, ZL : Zlib, UT : UuidText}.

Definition CM (A : Type) : Type := ClientBridge → option (result CoreError A) * ClientBridge.
#[global] Instance cm_ret : MRet CM := λ A a c, (Some (Ok a), c).
#[global] Instance cm_bind : MBind CM := λ A B f m c,
  match m c with
  | (Some (Ok a), c) => f a c
  | (Some (Err e), c) => (Some (Err e), c)
  | (None, c) => (None, c)
  end.
Definition cm_result {A} (r : result CoreError A) : CM A := λ c, (Some r, c).
Definition cm_protocol {A} (r : ProtocolResult A) : CM A := λ c,
  (Some (match r with Ok a => Ok a | Err e => Err (CProtocol e) end), c).
Definition cm_write (frame : PacketFrame) : CM () := λ c,
  let '(r, c) := cb_write_frame frame c in (Some r, c).

Context (v : ProtocolVersion) (registry : PacketRegistry).

Definition send_encoded (packet : ErasedPacket) : CM () :=
  frame ← cm_result (encode_packet registry packet v); cm_write frame.

Definition send_join_game : CM () :=
  join ← cm_protocol (build_limbo_join_game v); send_encoded (existT KCJoinGame join).
Definition send_spawn_position : CM () :=
  send_encoded (existT KCSetDefaultSpawnPosition (spawn_at_in LIMBO_DIMENSION_NAME 0 64 0 0)).
Definition send_player_position : CM () :=
  send_encoded (existT KCSynchronizePlayerPosition (limbo_player_position v)).
Definition send_chunk : CM () :=
  frame ← cm_protocol (build_chunk_data_frame 0 0 LIMBO_NUM_SECTIONS v); cm_write frame.

Definition send_limbo_respawn (dimension : DimensionInfo) : CM () := λ c,
  match for_switch dimension v with
  | None => (None, c)
  | Some respawn =>
    (packet_id ← cm_result (match get_packet_id registry KCRespawn Play Clientbound v with
                            | Some id => Ok id | None => Err (COther "no Respawn packet ID") end);
     payload ← cm_protocol (CRespawn_encode respawn v);
     cm_write (mk_frame packet_id payload)) c
  end.

Definition send_modern_chunk_setup : CM () :=
  _ ← send_encoded (existT KCSetCenterChunk (mk_CSetCenterChunk 0 0));
  _ ← send_encoded (existT KCGameEvent (mk_CGameEvent START_WAITING_CHUNKS 0));
  _ ← send_encoded (existT KCChunkBatchStart mk_CChunkBatchStart);
  _ ← send_chunk;
  send_encoded (existT KCChunkBatchFinished (mk_CChunkBatchFinished 1)).

Definition send_modern_with_join : CM () :=
  _ ← send_join_game; _ ← send_spawn_position; _ ← send_player_position; send_modern_chunk_setup.
Definition send_modern_switch : CM () := _ ← send_modern_chunk_setup; send_player_position.
Definition send_pre_1_16_switch : CM () :=
  _ ← send_limbo_respawn (DLegacy 0); _ ← send_limbo_respawn LIMBO_DIM; _ ← send_player_position; send_chunk.
Definition send_pre_1_16_with_join : CM () :=
  _ ← send_join_game;
  _ ← send_limbo_respawn (DLegacy 0); _ ← send_limbo_respawn LIMBO_DIM; _ ← send_player_position; send_chunk.
Definition send_legacy_with_join : CM () := _ ← send_join_game; _ ← send_player_position; send_chunk.
Definition send_legacy_switch : CM () :=
  _ ← (if no_less_than v V1_16 then
         _ ← send_limbo_respawn (DNamed (str "minecraft:overworld"));
         send_limbo_respawn (DNamed LIMBO_DIMENSION_NAME)
       else mret ());
  _ ← send_player_position; send_chunk.

Definition send_clear_inventory : CM () :=
  let buf :=
    if no_less_than v V1_17 then [0] ++ write_varint 0 ++ write_varint 46 ++ replicate 46 0 ++ [0]
    else [0] ++ to_be_bytes 2 46 ++ replicate 46 0 in
  cm_write (mk_frame (container_set_content_packet_id v) buf).

Definition send_spawn_sequence (needs_join_game : bool) : CM () :=
  let is_modern := no_less_than v V1_20_2 in
  let is_pre_1_16 := less_than v V1_16 in
  _ ← (if is_modern && needs_join_game then send_modern_with_join
       else if is_modern then send_modern_switch
       else if is_pre_1_16 && needs_join_game then send_pre_1_16_with_join
       else if is_pre_1_16 then send_pre_1_16_switch
       else if needs_join_game then send_legacy_with_join
       else send_legacy_switch);
  if negb is_pre_1_16 then send_clear_inventory else mret ().
End spawn.

(** ** The encoder of variable-length integers *)

Lemma land_high_bits u : 0 ≤ u < 2 ^ 32 → Z.land u (wrap_u 32 (Z.lnot 0x7F)) = u - u mod 128.
Proof.
  intros Hu. change (wrap_u 32 (Z.lnot 0x7F)) with (Z.ldiff (Z.ones 32) (Z.ones 7)).
  rewrite Z.ldiff_land, Z.land_assoc, Z.land_ones, Z.mod_small by lia.
  rewrite <- Z.ldiff_land, Z.ldiff_ones_r by lia. rewrite Z.shiftr_div_pow2, Z.shiftl_mul_pow2 by lia.
  change (2 ^ 7) with 128. pose proof (Z.div_mod u 128). lia.
Qed.

Lemma write_varint_loop_leb128 n u : 0 ≤ u < 2 ^ 32 → write_varint_loop n u = leb128 n u.
Proof.
  revert u. induction n as [|n IH]; intros u Hu; [done|]. rewrite leb128_S. cbn [write_varint_loop].
  rewrite land_high_bits by done. pose proof (Z.mod_pos_bound u 128 ltac:(lia)).
  pose proof (Z.div_mod u 128 ltac:(lia)) as Hd.
  assert (Hw : ∀ x, 0 ≤ x < 256 → wrap_u 8 x = x) by (intros x Hx; unfold wrap_u; by rewrite Z.mod_small).
  case_decide as Hz; case_decide as Hlt.
  - rewrite Hw by lia. done.
  - assert (u / 128 = 0) by lia. lia.
  - rewrite Z.mod_small in Hz by lia. lia.
  - change 0x7F with (Z.ones 7). rewrite Z.land_ones by lia. change (2 ^ 7) with 128.
    rewrite Z.shiftr_div_pow2 by lia. change (2 ^ 7) with 128.
    rewrite IH by (split; [apply Z.div_pos; lia|apply Z.div_lt_upper_bound; lia]). f_equal.
    assert (Hl : Z.lor (u mod 128) 128 = u mod 128 + 128).
    { symmetry. rewrite Z.add_nocarry_lxor; [apply Z.lxor_lor|]; apply Z.bits_inj'; intros i Hi;
        rewrite Z.land_spec, Z.bits_0; change 128 with (2 ^ 7); rewrite Z.pow2_bits_eqb by lia;
        destruct (Z.eqb_spec 7 i) as [<-|]; try apply andb_false_r;
        rewrite Z.mod_pow2_bits_high by lia; done. }
    rewrite Hl. apply Hw. lia.
Qed.

Lemma write_varint_VarInt v : write_varint v = VarInt_encode v.
Proof.
  rewrite VarInt_encode_leb128. unfold write_varint. apply write_varint_loop_leb128.
  apply Z.mod_pos_bound. lia.
Qed.

(** ** What is written to the client *)

Section spawn_proofs.
Context `{CF : Cfb8, ZL : Zlib, UT : UuidText}.

(** The client's end after these plain bytes were written. *)
Definition wrote (plain : bytes) (c : ClientBridge) : ClientBridge :=
  let '(out, k) := encrypt_opt (cb_encrypt c) plain in
  mk_ClientBridge (cb_decoder c) (mk_encoder [] (enc_threshold (cb_encoder c))) k (cb_decrypt c)
    (cb_version c) (cb_state c) (cb_written c ++ out).

(** The action succeeds and writes these frames. *)
Definition emits (m : CM ()) (fs : list PacketFrame) : Prop :=
  ∀ c plain, enc_buf (cb_encoder c) = [] → framed (enc_threshold (cb_encoder c)) fs plain →
    m c = (Some (Ok ()), wrote plain c).

Lemma framed_app th fs gs bs :
  framed th (fs ++ gs) bs → ∃ a b, bs = a ++ b ∧ framed th fs a ∧ framed th gs b.
Proof.
  revert bs. induction fs as [|f fs IH]; intros bs Hf; cbn [app] in Hf.
  - exists [], bs. split; [done|]. split; [constructor|done].
  - inversion Hf as [|? ? fb bs' Hs Hp Hf']; subst. destruct (IH bs' Hf') as (a&b&->&Ha&Hb).
    exists (fb ++ a), b. split; [by rewrite app_assoc|]. split; [by constructor|done].
Qed.

Lemma wrote_app a b c : wrote b (wrote a c) = wrote (a ++ b) c.
Proof.
  unfold wrote. pose proof (encrypt_opt_app (cb_encrypt c) a b) as Happ.
  assert (H2 : (encrypt_opt (encrypt_opt (cb_encrypt c) a).2 b).2 = (encrypt_opt (cb_encrypt c) (a ++ b)).2).
  { destruct (cb_encrypt c) as [s|]; cbn; [|done]. rewrite cipher_encrypt_app.
    destruct (cipher_encrypt s a) as [a' s']. cbn. by destruct (cipher_encrypt s' b). }
  destruct (encrypt_opt (cb_encrypt c) a) as [oa ka], (encrypt_opt (cb_encrypt c) (a ++ b)) as [oab kab].
  cbn in *. destruct (encrypt_opt ka b) as [ob kb]. cbn in *. subst. by rewrite app_assoc.
Qed.

Lemma emits_ret : emits (mret ()) [].
Proof.
  intros c plain Hb Hf. inversion Hf; subst. cbv [mret cm_ret]. f_equal. unfold wrote.
  destruct c as [d [eb et] ek dk ver st w]. cbn in *. subst.
  destruct ek as [k|]; cbn; by rewrite app_nil_r.
Qed.

Lemma emits_write f : emits (cm_write f) [f].
Proof.
  intros c plain Hb Hf. inversion Hf as [|? ? fb bs Hs Hp Hnil]; subst. inversion Hnil; subst.
  unfold cm_write, cb_write_frame, cb_write, append_raw, wrote. rewrite Hp, Hb. cbn. rewrite app_nil_r.
  by destruct (encrypt_opt (cb_encrypt c) fb).
Qed.

Lemma emits_bind m k fs gs : emits m fs → emits k gs → emits (_ ← m; k) (fs ++ gs).
Proof.
  intros Hm Hk c plain Hb Hf. apply framed_app in Hf as (a&b&->&Ha&Hf). cbv [mbind cm_bind].
  rewrite (Hm c a Hb Ha). rewrite (Hk (wrote a c) b).
  - by rewrite wrote_app.
  - unfold wrote. by destruct (encrypt_opt _ _).
  - unfold wrote. by destruct (encrypt_opt _ _).
Qed.

Lemma emits_result {A} (r : result CoreError A) a (k : A → CM ()) fs :
  r = Ok a → emits (k a) fs → emits (x ← cm_result r; k x) fs.
Proof. by intros ->. Qed.
Lemma emits_protocol {A} (r : ProtocolResult A) a (k : A → CM ()) fs :
  r = Ok a → emits (k a) fs → emits (x ← cm_protocol r; k x) fs.
Proof. by intros ->. Qed.

(** ** The packets of the sequence *)

Abbreviation R := build_default_registry.

Definition ok_or {E A} (a : A) (r : result E A) : A := match r with Ok x => x | Err _ => a end.
Definition is_ok {E A} (r : result E A) : bool := match r with Ok _ => true | Err _ => false end.

Definition encoded (v : ProtocolVersion) (p : ErasedPacket) : PacketFrame :=
  ok_or (mk_frame 0 []) (encode_packet R p v).
Definition join_packet (v : ProtocolVersion) : ErasedPacket :=
  existT KCJoinGame (ok_or (CJoinGame_default 0 None) (build_limbo_join_game v)).
Definition respawn_packet (v : ProtocolVersion) (d : DimensionInfo) : ErasedPacket :=
  existT KCRespawn (default (CRespawn_default None) (for_switch d v)).
Definition position_packet (v : ProtocolVersion) : ErasedPacket :=
  existT KCSynchronizePlayerPosition (limbo_player_position v).
Definition chunk_setup (v : ProtocolVersion) : list ErasedPacket :=
  [existT KCSetCenterChunk (mk_CSetCenterChunk 0 0);
   existT KCGameEvent (mk_CGameEvent START_WAITING_CHUNKS 0); existT KCChunkBatchStart mk_CChunkBatchStart].
Definition batch_finished : ErasedPacket := existT KCChunkBatchFinished (mk_CChunkBatchFinished 1).
Definition spawn_packet : ErasedPacket :=
  existT KCSetDefaultSpawnPosition (spawn_at_in LIMBO_DIMENSION_NAME 0 64 0 0).
Definition chunk_frame (v : ProtocolVersion) : PacketFrame :=
  mk_frame (chunk_data_packet_id v) (build_chunk_data_payload 0 0 LIMBO_NUM_SECTIONS v).

(** The two respawns that make a client before 1.20.2 load the limbo world. *)
Definition limbo_respawns (v : ProtocolVersion) : list ErasedPacket :=
  respawn_packet v <$> (if less_than v V1_16 then [DLegacy 0; LIMBO_DIM]
                        else [DNamed (str "minecraft:overworld"); DNamed LIMBO_DIMENSION_NAME]).

(** All packets a client of this version can be sent. *)
Definition limbo_packets (v : ProtocolVersion) : list ErasedPacket :=
  if no_less_than v V1_20_2 then
    [join_packet v; spawn_packet; position_packet v; batch_finished] ++ chunk_setup v
  else [join_packet v; position_packet v] ++ limbo_respawns v.

Lemma limbo_packets_table :
  forallb (λ v, is_ok (build_limbo_join_game v) &&
                forallb (λ p, is_ok (encode_packet R p v)) (limbo_packets v)) SUPPORTED = true.
Proof. by vm_compute. Qed.

Lemma limbo_packet_ok v p : v ∈ SUPPORTED → p ∈ limbo_packets v → encode_packet R p v = Ok (encoded v p).
Proof.
  intros Hv Hp. pose proof limbo_packets_table as Ht. rewrite forallb_forall in Ht.
  specialize (Ht v (proj1 (list_elem_of_In _ _) Hv)). apply andb_true_iff in Ht as [_ Ht].
  rewrite forallb_forall in Ht. specialize (Ht p (proj1 (list_elem_of_In _ _) Hp)).
  unfold encoded. destruct (encode_packet R p v); [done|discriminate Ht].
Qed.
Lemma limbo_join_ok v : v ∈ SUPPORTED →
  build_limbo_join_game v = Ok (ok_or (CJoinGame_default 0 None) (build_limbo_join_game v)).
Proof.
  intros Hv. pose proof limbo_packets_table as Ht. rewrite forallb_forall in Ht.
  specialize (Ht v (proj1 (list_elem_of_In _ _) Hv)). apply andb_true_iff in Ht as [Ht _].
  destruct (build_limbo_join_game v); [done|discriminate Ht].
Qed.

Lemma emits_encoded v p : v ∈ SUPPORTED → p ∈ limbo_packets v → emits (send_encoded v R p) [encoded v p].
Proof.
  intros Hv Hp. eapply emits_result; [exact (limbo_packet_ok v p Hv Hp)|]. apply emits_write.
Qed.

Lemma emits_join v : v ∈ SUPPORTED → emits (send_join_game v R) [encoded v (join_packet v)].
Proof.
  intros Hv. eapply emits_protocol; [exact (limbo_join_ok v Hv)|]. apply emits_encoded; [exact Hv|].
  unfold limbo_packets. destruct (no_less_than v V1_20_2); left.
Qed.
Lemma emits_position v : v ∈ SUPPORTED → emits (send_player_position v R) [encoded v (position_packet v)].
Proof.
  intros Hv. apply emits_encoded; [exact Hv|].
  unfold limbo_packets. destruct (no_less_than v V1_20_2); repeat constructor.
Qed.
Lemma emits_chunk v : emits (send_chunk v) [chunk_frame v].
Proof. eapply emits_protocol; [reflexivity|]. apply emits_write. Qed.

Lemma emits_respawn v d :
  v ∈ SUPPORTED → no_less_than v V1_20_2 = false → is_Some (for_switch d v) →
  respawn_packet v d ∈ limbo_respawns v → emits (send_limbo_respawn v R d) [encoded v (respawn_packet v d)].
Proof.
  intros Hv Hm [r Hr] Hin. assert (Hok : encode_packet R (respawn_packet v d) v = Ok (encoded v (respawn_packet v d))).
  { apply limbo_packet_ok; [exact Hv|]. unfold limbo_packets. rewrite Hm. apply elem_of_app. by right. }
  revert Hok. generalize (encoded v (respawn_packet v d)). intros f Hok c plain Hb Hf.
  unfold send_limbo_respawn. unfold respawn_packet in Hok. rewrite Hr in *.
  change (default (CRespawn_default None) (Some r)) with r in Hok.
  unfold encode_packet in Hok. cbv zeta in Hok. cbn [projT1 projT2] in Hok.
  destruct (get_packet_id R KCRespawn Play Clientbound v) as [id|]; [|discriminate Hok].
  change (encode_payload (existT KCRespawn r) v) with (CRespawn_encode r v) in Hok.
  destruct (CRespawn_encode r v) as [payload|e] eqn:He; [|discriminate Hok]. injection Hok as <-.
  revert c plain Hb Hf. change (emits (packet_id ← cm_result (Ok id);
    payload0 ← cm_protocol (Ok payload); cm_write (mk_frame packet_id payload0)) [mk_frame id payload]).
  eapply emits_result; [reflexivity|]. eapply emits_protocol; [reflexivity|]. apply emits_write.
Qed.

Lemma emits_list_encoded v ps (k : CM ()) gs :
  v ∈ SUPPORTED → Forall (λ p, p ∈ limbo_packets v) ps → emits k gs →
  emits (foldr (λ p k, _ ← send_encoded v R p; k) k ps) ((encoded v <$> ps) ++ gs).
Proof.
  intros Hv Hps Hk. induction Hps as [|p ps Hp Hps IH]; [done|].
  exact (emits_bind _ _ [encoded v p] _ (emits_encoded v p Hv Hp) IH).
Qed.

(** The frames of the sequence. *)
Definition inventory_frame (v : ProtocolVersion) : PacketFrame :=
  mk_frame (container_set_content_packet_id v)
    (if no_less_than v V1_17 then [0] ++ write_varint 0 ++ write_varint 46 ++ replicate 46 0 ++ [0]
     else [0] ++ to_be_bytes 2 46 ++ replicate 46 0).
Definition modern_frames (v : ProtocolVersion) : list PacketFrame :=
  (encoded v <$> chunk_setup v) ++ [chunk_frame v; encoded v batch_finished].
Definition spawn_frames (v : ProtocolVersion) (join : bool) : list PacketFrame :=
  (if no_less_than v V1_20_2 then
     if join then (encoded v <$> [join_packet v; spawn_packet; position_packet v]) ++ modern_frames v
     else modern_frames v ++ [encoded v (position_packet v)]
   else
     (if join then [encoded v (join_packet v)] else []) ++
     (if less_than v V1_16 || negb join then encoded v <$> limbo_respawns v else []) ++
     [encoded v (position_packet v); chunk_frame v]) ++
  (if less_than v V1_16 then [] else [inventory_frame v]).

Lemma emits_modern v :
  v ∈ SUPPORTED → no_less_than v V1_20_2 = true → emits (send_modern_chunk_setup v R) (modern_frames v).
Proof.
  intros Hv Hm.
  assert (Hin : ∀ p, p ∈ batch_finished :: spawn_packet :: chunk_setup v → p ∈ limbo_packets v).
  { intros p Hp. unfold limbo_packets. rewrite Hm. unfold chunk_setup in *. cbn [app].
    rewrite !elem_of_cons in *. tauto. }
  apply (emits_list_encoded v (chunk_setup v)
    (_ ← send_chunk v; send_encoded v R batch_finished)); [exact Hv| |].
  - apply Forall_forall. intros p Hp. apply Hin. by do 2 right.
  - apply (emits_bind _ _ [chunk_frame v]); [apply emits_chunk|].
    apply emits_encoded; [exact Hv|]. apply Hin. left.
Qed.

Definition limbo_dimensions : list DimensionInfo :=
  [DLegacy 0; LIMBO_DIM; DNamed (str "minecraft:overworld"); DNamed LIMBO_DIMENSION_NAME].
Lemma respawn_table :
  forallb (λ v, forallb (λ d, bool_decide (is_Some (for_switch d v))) limbo_dimensions) SUPPORTED = true.
Proof. by vm_compute. Qed.
Lemma limbo_respawn_built v d : v ∈ SUPPORTED → d ∈ limbo_dimensions → is_Some (for_switch d v).
Proof.
  intros Hv Hd. pose proof respawn_table as Ht. rewrite forallb_forall in Ht.
  specialize (Ht v (proj1 (list_elem_of_In _ _) Hv)). rewrite forallb_forall in Ht.
  exact (bool_decide_eq_true_1 _ (Ht d (proj1 (list_elem_of_In _ _) Hd))).
Qed.

Lemma emits_respawns v a b (k : CM ()) gs :
  v ∈ SUPPORTED → no_less_than v V1_20_2 = false →
  [a; b] = (if less_than v V1_16 then [DLegacy 0; LIMBO_DIM]
            else [DNamed (str "minecraft:overworld"); DNamed LIMBO_DIMENSION_NAME]) →
  emits k gs →
  emits (_ ← send_limbo_respawn v R a; _ ← send_limbo_respawn v R b; k) ((encoded v <$> limbo_respawns v) ++ gs).
Proof.
  intros Hv Hm Hab Hk. unfold limbo_respawns. rewrite <- Hab.
  assert (Ha : ∀ d, d ∈ [a; b] → emits (send_limbo_respawn v R d) [encoded v (respawn_packet v d)]).
  { intros d Hd. apply emits_respawn; [exact Hv|exact Hm| |].
    - apply limbo_respawn_built; [exact Hv|]. rewrite Hab in Hd. unfold limbo_dimensions.
      destruct (less_than v V1_16); rewrite !elem_of_cons in *; tauto.
    - unfold limbo_respawns. rewrite <- Hab. by apply list_elem_of_fmap_2. }
  apply (emits_bind _ _ [_]); [apply Ha; left|]. apply (emits_bind _ _ [_]); [apply Ha; right; left|exact Hk].
Qed.

Lemma emits_place v :
  v ∈ SUPPORTED → emits (_ ← send_player_position v R; send_chunk v) [encoded v (position_packet v); chunk_frame v].
Proof. intros Hv. apply (emits_bind _ _ [_] [_]); [by apply emits_position|apply emits_chunk]. Qed.

Lemma emits_inventory v :
  emits (if negb (less_than v V1_16) then send_clear_inventory v else mret ())
    (if less_than v V1_16 then [] else [inventory_frame v]).
Proof. destruct (less_than v V1_16); [apply emits_ret|apply emits_write]. Qed.

(** C19: In every supported version each packet of the limbo spawn sequence is registered
    and can be encoded, and the sequence writes exactly its frames to the client, in
    order, for a join as for a switch. *)
Theorem limbo_spawn_sent (v : ProtocolVersion) (join : bool) :
  v ∈ SUPPORTED →
  Forall (λ p, encode_packet R p v = Ok (encoded v p)) (limbo_packets v) ∧
  emits (send_spawn_sequence v R join) (spawn_frames v join).
Proof.
  intros Hv. split; [apply Forall_forall; intros p Hp; by apply limbo_packet_ok|].
  apply emits_bind; [|apply emits_inventory].
  destruct (no_less_than v V1_20_2) eqn:Hm; [|destruct (less_than v V1_16) eqn:Hp]; destruct join; cbn [andb orb negb].
  - apply (emits_bind _ _ [_]); [by apply emits_join|]. apply (emits_bind _ _ [_]).
    { apply emits_encoded; [exact Hv|]. unfold limbo_packets. rewrite Hm. right. left. }
    apply (emits_bind _ _ [_]); [by apply emits_position|by apply emits_modern].
  - apply emits_bind; [by apply emits_modern|by apply emits_position].
  - apply (emits_bind _ _ [_]); [by apply emits_join|].
    apply emits_respawns; [exact Hv|exact Hm|by rewrite Hp|by apply emits_place].
  - apply (emits_respawns v _ _ _ _ Hv Hm); [by rewrite Hp|by apply emits_place].
  - apply (emits_bind _ _ [_]); [by apply emits_join|by apply emits_place].
  - unfold send_legacy_switch. replace (no_less_than v V1_16) with true
      by (symmetry; unfold no_less_than, less_than in *; lia).
    assert (He : ∀ (m k l : CM ()) (fs : list PacketFrame),
      emits (_ ← m; _ ← k; l) fs → emits (_ ← (_ ← m; k); l) fs).
    { intros m k l fs Hmk c plain Hb Hf. rewrite <- (Hmk c plain Hb Hf). cbv [mbind cm_bind].
      by destruct (m c) as [[[[]|e]|] c1]. }
    apply He. apply (emits_respawns v _ _ _ _ Hv Hm); [by rewrite Hp|by apply emits_place].
Qed.
End spawn_proofs.

(** The dimension the proxy reads back from its own join packet. *)
Definition own_dimension (v : ProtocolVersion) : option rstring :=
  match build_limbo_join_game v with
  | Ok join =>
    raw ← jg_raw_payload join;
    match extract_dimension_from_join_game v raw with
    | Ok (d, _) => Some (dimension_as_name d)
    | Err _ => None
    end
  | Err _ => None
  end.

Theorem join_layouts_disagree :
  filter (λ v, less_than v V1_20_2 = true ∧ own_dimension v ≠ Some LIMBO_DIMENSION_NAME) SUPPORTED =
    [V1_7_2; V1_7_6; V1_8; V1_16; V1_16_2; V1_16_4; V1_17; V1_18; V1_18_2] ∧
  match build_limbo_join_game V1_8 with
  | Ok join => fst <$> (raw ← jg_raw_payload join; match extract_dimension_from_join_game V1_8 raw with
                                                    | Ok r => Some r | Err _ => None end) = Some (DLegacy 16777479)
  | Err _ => False
  end.
Proof. split; by vm_compute. Qed.

#[local] Existing Instances toy_cfb8 stored_zlib hex_uuid.

Lemma limbo_spawn_sent_witness :
  (Forall (λ p, encode_packet build_default_registry p V1_16 = Ok (encoded V1_16 p)) (limbo_packets V1_16) ∧
   emits (send_spawn_sequence V1_16 build_default_registry false) (spawn_frames V1_16 false)) ∧
  frame_id <$> spawn_frames V1_16 false = [0x3A; 0x3A; 0x35; 0x21; 0x14].
Proof.
  split; [|by vm_compute]. apply (limbo_spawn_sent V1_16 false). apply (bool_decide_unpack _). by vm_compute.
Defined.
