(* ===== verification/Switch.v ===== *)
(** * Switch: moving a player from one backend to another

    Models [session/server_switch/] ([mod.rs], [config_phase.rs], [switch_packets.rs],
    [validation.rs]), [limbo/registry.rs] and the forwarding mode of [services/proxy.rs].

    The two ends are the client's bridge and the new backend's, each with the chunks its
    socket will yield.  The configuration phase runs under a time limit and waits for either
    end: its [ticks] hold one entry per read that completes before the limit, which says,
    where both ends are awaited, the one that is ready.  The informational events are a log. *)
From S2P Require Import Prelude Wire Utf8 VarInt Codec Frame Version Packet LoginPackets PlayPackets Nbt.
From S2P Require Import Component Registry DefaultRegistry Bridge Config Router Middleware ServerManager Forwarding.
From S2P Require Import Backend EventBus Filters ProxyCommands Session LimboWorld Transport.

(** ** Limbo handlers by name *)

Section limbo_registry.
Context {LH HR : Type} `{DM : !DashMap rstring LH HR} (handler_name : LH → rstring).

Definition register_limbo_handler (handler : LH) (r : HR) : HR := dm_insert (handler_name handler) handler r.
Definition get_limbo_handler (r : HR) (name : rstring) : option LH := dm_get r name.

Fixpoint resolve_handlers (r : HR) (names : list rstring) : result rstring (list LH) :=
  match names with
  | [] => Ok []
  | name :: names =>
    match get_limbo_handler r name with
    | None => Err (str "limbo handler not found: " ++ name)
    | Some h => hs ← resolve_handlers r names; Ok (h :: hs)
    end
  end.

Definition resolve_handlers_lenient (r : HR) (names : list rstring) : list LH :=
  omap (get_limbo_handler r) names.
End limbo_registry.

(** ** Events *)

Record GameProfile := { gp_uuid : Z; gp_username : rstring; gp_properties : list Property }.

Inductive ServerPreConnectResult :=
| PreAllowed
| PreConnectTo (server : rstring)
| PreSendToLimbo (limbo_handlers : list rstring)
| PreVirtualBackend
| PreDenied (reason : Component).
Record ServerPreConnectEvent := {
  pc_player_id : Z;
  pc_profile : GameProfile;
  pc_original_server : rstring;
  pc_result : ServerPreConnectResult }.
Definition ServerPreConnectEvent_new (player_id : Z) (profile : GameProfile) (server : rstring)
    : ServerPreConnectEvent :=
  Build_ServerPreConnectEvent player_id profile server PreAllowed.

Inductive switch_event :=
| ServerConnected (player_id : Z) (server : rstring)
| ServerSwitched (player_id : Z) (previous_server new_server : rstring).

Inductive LimboEntryContext :=
| InitialConnection (target_server : rstring)
| KickedFromServer (server : rstring) (reason : Component)
| PluginRedirect (from_server : option rstring).

(** ** Networks and forwarding *)

Section switch.
Context `{CF : Cfb8, ZL : Zlib, UT : UuidText, IPN : IpNets, HS : HmacSha256, PP : Ppp}.

Inductive SwitchValidationError := DifferentNetworks (current target : rstring).

Definition validate_switch_allowed (current target : ServerConfig) : result SwitchValidationError () :=
  match sc_network current, sc_network target with
  | Some a, Some b => if decide (a = b) then Ok () else Err (DifferentNetworks a b)
  | _, _ => Ok ()
  end.

Definition validation_error_display (e : SwitchValidationError) : rstring :=
  match e with
  | DifferentNetworks current target =>
    str "servers are in different networks: '" ++ current ++ str "' vs '" ++ target ++ str "'"
  end.

Definition config_to_core_mode (config_mode : Config.ForwardingMode) (global : Forwarding.ForwardingMode)
    : Forwarding.ForwardingMode :=
  match config_mode with
  | Config.FwdNone => FwdNone
  | Config.FwdBungeeCord => FwdBungeeCord
  | Config.FwdBungeeGuard =>
    match global with
    | FwdBungeeGuard token => FwdBungeeGuard token
    | FwdVelocity secret => FwdBungeeGuard (from_utf8_lossy secret)
    | _ => FwdNone
    end
  | Config.FwdVelocity => match global with FwdVelocity secret => FwdVelocity secret | _ => FwdNone end
  end.

Definition resolve_forwarding_handler (global : Forwarding.ForwardingMode) (c : ServerConfig) : ForwardingHandler :=
  match sc_forwarding_mode c with
  | Some server_override => build_forwarding_handler (config_to_core_mode server_override global)
  | None => build_forwarding_handler global
  end.

(** ** The two ends *)

Record Ends := mk_Ends {
  en_client : ClientBridge;
  en_client_in : list bytes;
  en_backend : BackendBridge;
  en_backend_in : list bytes;
  en_fired : list switch_event }.

(** [None] is a panic. *)
Definition XM (A : Type) : Type := Ends → option (result CoreError A) * Ends.
#[global] Instance xm_ret : MRet XM := λ A a e, (Some (Ok a), e).
#[global] Instance xm_bind : MBind XM := λ A B f m e,
  match m e with
  | (Some (Ok a), e) => f a e
  | (Some (Err err), e) => (Some (Err err), e)
  | (None, e) => (None, e)
  end.
Definition xm_fail {A} (err : CoreError) : XM A := λ e, (Some (Err err), e).

Definition on_client {A} (m : CM A) : XM A := λ e,
  let '(r, c) := m (en_client e) in
  (r, mk_Ends c (en_client_in e) (en_backend e) (en_backend_in e) (en_fired e)).
Definition on_backend {A} (m : BackendBridge → result CoreError A * BackendBridge) : XM A := λ e,
  let '(r, b) := m (en_backend e) in
  (Some r, mk_Ends (en_client e) (en_client_in e) b (en_backend_in e) (en_fired e)).
Definition on_login (m : BackendBridge → list bytes → option (result CoreError ()) * BackendBridge * list bytes)
    : XM () := λ e,
  let '(r, b, bi) := m (en_backend e) (en_backend_in e) in
  (r, mk_Ends (en_client e) (en_client_in e) b bi (en_fired e)).
Definition fire_and_forget (event : switch_event) : XM () := λ e,
  (Some (Ok ()), mk_Ends (en_client e) (en_client_in e) (en_backend e) (en_backend_in e) (en_fired e ++ [event])).

(** [read_frame().await?.ok_or(ConnectionClosed)?]. *)
Definition read_client : XM PacketFrame := λ e,
  let '(r, c, ci) := cb_read_frame (en_client e) (en_client_in e) in
  (Some (match r with Ok (Some f) => Ok f | Ok None => Err ConnectionClosed | Err err => Err err end),
   mk_Ends c ci (en_backend e) (en_backend_in e) (en_fired e)).
Definition read_backend : XM PacketFrame := λ e,
  let '(r, b, bi) := bb_read_frame (en_backend e) (en_backend_in e) in
  (Some (match r with Ok (Some f) => Ok f | Ok None => Err ConnectionClosed | Err err => Err err end),
   mk_Ends (en_client e) (en_client_in e) b bi (en_fired e)).
Definition write_client (frame : PacketFrame) : XM () := on_client (cm_write frame).
Definition write_backend (frame : PacketFrame) : XM () := on_backend (bb_write_frame frame).
Definition states_to (st : ConnectionState) : XM () := λ e,
  (Some (Ok ()), mk_Ends (cb_set_state st (en_client e)) (en_client_in e) (bb_set_state st (en_backend e))
     (en_backend_in e) (en_fired e)).

(** ** The configuration phase *)

Context (registry : PacketRegistry).

Definition timed_out {A} : XM A := xm_fail (CTimeout "server switch config phase timed out").

(** Reads from the client until the packet with this id. *)
Fixpoint absorb_until (wanted : option Z) (ticks : list side) : XM (PacketFrame * list side) :=
  match ticks with
  | [] => timed_out
  | _ :: ticks =>
    frame ← read_client;
    if decide (Some (frame_id frame) = wanted) then mret (frame, ticks) else absorb_until wanted ticks
  end.

(** Forwards in both directions until the backend's packet with this id. *)
Fixpoint forward_config (finish_config_id : option Z) (ticks : list side) : XM (list side) :=
  match ticks with
  | [] => timed_out
  | FromBackend :: ticks =>
    frame ← read_backend;
    _ ← write_client frame;
    if decide (Some (frame_id frame) = finish_config_id) then mret ticks else forward_config finish_config_id ticks
  | FromClient :: ticks =>
    frame ← read_client; _ ← write_backend frame; forward_config finish_config_id ticks
  end.

Definition handle_config_phase_switch (version : ProtocolVersion) (ticks : list side) : XM PacketFrame :=
  _ ← on_client (λ c, let '(r, c) := cb_send_packet registry (existT KCStartConfiguration mk_CStartConfiguration) c in
                      (Some r, c));
  acked ← absorb_until (get_packet_id registry KSAcknowledgeConfiguration Play Serverbound version) ticks;
  _ ← states_to Config;
  ticks ← forward_config (get_packet_id registry KCFinishConfig Config Clientbound version) acked.2;
  finished ← absorb_until (get_packet_id registry KSAcknowledgeFinishConfig Config Serverbound version) ticks;
  _ ← write_backend finished.1;
  _ ← states_to Play;
  match finished.2 with [] => timed_out | _ :: _ => read_backend end.

(** ** The packets that change the world *)

Definition temp_dimension (dim : DimensionInfo) : DimensionInfo :=
  match dim with
  | DLegacy id => if decide (id = 0) then DLegacy (-1) else DLegacy 0
  | DNamed name =>
    if decide (name = str "minecraft:overworld") then DNamed (str "minecraft:the_nether")
    else DNamed (str "minecraft:overworld")
  end.

Definition send_respawn (dimension : DimensionInfo) (version : ProtocolVersion) : CM () := λ c,
  match for_switch dimension version with
  | None => (None, c)
  | Some respawn =>
    (packet_id ← cm_protocol (match get_packet_id registry KCRespawn Play Clientbound version with
                              | Some id => Ok id | None => Err (Invalid "no Respawn packet ID") end);
     payload ← cm_protocol (CRespawn_encode respawn version);
     cm_write (mk_frame packet_id payload)) c
  end.

Definition send_switch_packets (join_game_frame : PacketFrame) (version : ProtocolVersion) : CM () :=
  _ ← cm_write join_game_frame;
  if no_less_than version V1_20_2 then mret ()
  else
    join_game ← cm_protocol (fst <$> CJoinGame_decode version (payload join_game_frame));
    raw_payload ← cm_protocol (match jg_raw_payload join_game with
                               | Some raw => Ok raw
                               | None => Err (Invalid "JoinGame pre-1.20.2 should have raw_payload") end);
    dimension ← cm_protocol (fst <$> extract_dimension_from_join_game version raw_payload);
    if less_than version V1_16 then
      _ ← send_respawn (temp_dimension dimension) version; send_respawn dimension version
    else send_respawn dimension version.
(** ** The switch *)

Context {LH HR : Type} `{DM : !DashMap rstring LH HR}.
Context {CM' EM : Type} `{DMC : !DashMap ProviderId RouterEntry CM', DME : !DashMap rstring ProviderId EM}.
Context {TypeId HM PM : Type} `{TED : !EqDecision TypeId}.
Context `{HMD : !DashMap TypeId (list (HandlerEntry ServerPreConnectEvent)) HM}.
Context `{PMD : !DashMap PacketKey (list (HandlerEntry RawPacketEvent)) PM}.
Context (md5 : bytes → Z) (properties_json : list Property → rstring).
Context (ip_to_string : SockIp → rstring) (transport_error_display : TransportError → rstring).
Context (net : rstring → Z → attempt) (default_timeout : Z).

(** What a switch uses of [ProxyServices]. *)
Record SwitchServices := {
  sw_domain_router : DomainRouter (CM := CM') (EM := EM);
  sw_event_bus : EventBusImpl (HM := HM) (PM := PM);
  sw_pre_connect_event : TypeId;
  sw_limbo_handler_registry : HR;
  sw_forwarding_mode : Forwarding.ForwardingMode;
  sw_forwarding_secret : option bytes }.
Context (services : SwitchServices).

Definition find_server (what id : rstring) : result CoreError ServerConfig :=
  match find_by_server_id (sw_domain_router services) id with
  | Some c => Ok c
  | None => Err (Rejected (what ++ id))
  end.

Definition fire_pre_connect (player_id : Z) (profile : GameProfile) (target : rstring) : ServerPreConnectResult :=
  pc_result (fire (sw_pre_connect_event services) (ServerPreConnectEvent_new player_id profile target)
               (sw_event_bus services)).

(** Where a switch goes. *)
Inductive destination :=
| ToServer (id : rstring) (config : ServerConfig)
| ToLimbo (handlers : list LH) (ctx : LimboEntryContext).

(** Steps 1 and 2: the configurations, the networks and the event. *)
Definition resolve_target (current_server target : rstring) (player_id : Z) (profile : GameProfile)
    : result CoreError destination :=
  server_config ← find_server (str "unknown server: ") target;
  current_config ← find_server (str "unknown current server: ") current_server;
  match validate_switch_allowed current_config server_config with
  | Err e => Err (Rejected (validation_error_display e))
  | Ok _ =>
    match fire_pre_connect player_id profile target with
    | PreAllowed | PreVirtualBackend => Ok (ToServer target server_config)
    | PreConnectTo redirect =>
      if decide (redirect = target) then Ok (ToServer target server_config)
      else c ← find_server (str "unknown redirect server: ") redirect; Ok (ToServer redirect c)
    | PreDenied reason => Err (Rejected (str "switch denied: " ++ to_json reason))
    | PreSendToLimbo limbo_handlers =>
      let handler_names := if decide (limbo_handlers = []) then sc_limbo_handlers server_config else limbo_handlers in
      Ok (ToLimbo (resolve_handlers_lenient (sw_limbo_handler_registry services) handler_names)
            (PluginRedirect (Some current_server)))
    end
  end.

(** What is known of the player. *)
Record Player := {
  pl_id : Z;
  pl_name : rstring;
  pl_profile : GameProfile;
  pl_handshake : HandshakeData;
  pl_peer_addr : SocketAddr;
  pl_real_ip : option SockIp;
  pl_version : ProtocolVersion }.

Definition switch_connection_info (p : Player) : ConnectionInfo :=
  Build_ConnectionInfo (pl_peer_addr p) (pl_real_ip p) None (pl_peer_addr p).

Definition forwarding_data (p : Player) : ForwardingData :=
  Build_ForwardingData (ip_to_string (default (sa_ip (pl_peer_addr p)) (pl_real_ip p))) (gp_uuid (pl_profile p))
    (pl_name p) (gp_properties (pl_profile p)) (pl_version p) None.

(** A bridge on a socket the connector has opened. *)
Definition bridge_on (v : ProtocolVersion) (s : BackendSocket) : BackendBridge :=
  mk_BackendBridge PacketDecoder_new PacketEncoder_new Login v (bs_written s) (bs_broken s).

(** Step 3: the connection. *)
Definition open_backend (p : Player) (id : rstring) (c : ServerConfig) : result CoreError (BackendBridge * list bytes) :=
  match connect net default_timeout id (sc_addresses c) (to_connect <$> sc_timeouts c) (sc_send_proxy_protocol c)
          (switch_connection_info p) with
  | Err e => Err (Rejected (str "failed to connect to " ++ id ++ str ": " ++ transport_error_display e))
  | Ok s => Ok (bridge_on (pl_version p) s, bs_in s)
  end.

(** Steps 4 to 6: handshake, login and acknowledgement. *)
Definition login_to_backend (fuel : nat) (p : Player) (c : ServerConfig) : XM () :=
  let handler := resolve_forwarding_handler (sw_forwarding_mode services) c in
  let fwd_data := forwarding_data p in
  _ ← on_backend (λ b,
    if modifies_handshake handler then
      send_handshake_and_login md5
        (apply_handshake properties_json handler (build_handshake_for_backend (pl_handshake p) c) fwd_data)
        (pl_name p) registry b
    else send_initial_packets_offline md5 (pl_handshake p) c (pl_name p) registry b);
  _ ← on_login (consume_backend_login fuel registry (pl_version p)
                  ((λ secret, (fwd_data, secret)) <$> sw_forwarding_secret services));
  if no_less_than (pl_version p) V1_20_2 then
    _ ← on_backend (bb_send_packet registry (existT KSLoginAcknowledged mk_SLoginAcknowledged));
    on_backend (λ b, (Ok (), bb_set_state Config b))
  else mret ().

Inductive SwitchResult :=
| SwitchBackend (new_server_id : rstring)
| SwitchLimbo (handlers : list LH) (ctx : LimboEntryContext).

(** The new backend is the one of the ends. *)
Definition switch_to (fuel : nat) (ticks : list side) (current_server : rstring) (p : Player) (id : rstring)
    (c : ServerConfig) : XM SwitchResult :=
  _ ← login_to_backend fuel p c;
  _ ← fire_and_forget (ServerConnected (pl_id p) id);
  join_game_frame ←
    (if no_less_than (pl_version p) V1_20_2 then handle_config_phase_switch (pl_version p) ticks else read_backend);
  _ ← on_client (send_switch_packets join_game_frame (pl_version p));
  _ ← fire_and_forget (ServerSwitched (pl_id p) current_server id);
  mret (SwitchBackend id).

(** Without a new backend there is none in the result; [None] is a panic. *)
Definition perform_switch (fuel : nat) (ticks : list side) (current_server target : rstring) (p : Player)
    (client : ClientBridge) (client_in : list bytes)
    : option (result CoreError SwitchResult) * ClientBridge * list bytes * option (BackendBridge * list bytes) *
      list switch_event :=
  match resolve_target current_server target (pl_id p) (pl_profile p) with
  | Err e => (Some (Err e), client, client_in, None, [])
  | Ok (ToLimbo handlers ctx) => (Some (Ok (SwitchLimbo handlers ctx)), client, client_in, None, [])
  | Ok (ToServer id c) =>
    match open_backend p id c with
    | Err e => (Some (Err e), client, client_in, None, [])
    | Ok (b, bi) =>
      let '(r, e) := switch_to fuel ticks current_server p id c (mk_Ends client client_in b bi []) in
      (r, en_client e, en_client_in e, Some (en_backend e, en_backend_in e), en_fired e)
    end
  end.
End switch.

(** ** What goes through the ends *)

Section live.
Context `{CF : Cfb8, ZL : Zlib, UT : UuidText, ZLL : !ZlibLaws}.
(** All bytes the client's and the backend's sockets will have been sent, and what is left
    unread of each. *)
Context (wc wb rc rb : bytes).

(** The ends are to receive [fs] and [gs] and to be sent [co] and [bo]. *)
Record live (fs gs co bo : list PacketFrame) (e : Ends) : Prop := {
  lv_client_chunks : Forall (λ c, c ≠ []) (en_client_in e);
  lv_backend_chunks : Forall (λ c, c ≠ []) (en_backend_in e);
  lv_from_client : ∃ plain, framed (dec_threshold (cb_decoder (en_client e))) fs plain ∧
    pending (en_client e) (en_client_in e) = plain ++ rc;
  lv_from_backend : ∃ plain, framed (dec_threshold (bb_decoder (en_backend e))) gs plain ∧
    bb_pending (en_backend e) (en_backend_in e) = plain ++ rb;
  lv_to_client : ∃ oc, framed (enc_threshold (cb_encoder (en_client e))) co oc ∧
    cb_written (en_client e) ++ (encrypt_opt (cb_encrypt (en_client e)) oc).1 = wc;
  lv_to_backend : ∃ ob, framed (enc_threshold (bb_encoder (en_backend e))) bo ob ∧
    bb_written (en_backend e) ++ ob = wb;
  lv_client_buf : enc_buf (cb_encoder (en_client e)) = [];
  lv_backend_buf : enc_buf (bb_encoder (en_backend e)) = [];
  lv_open : bb_broken (en_backend e) = None }.

(** The states and versions of the ends, and the events. *)
Definition kept (e e' : Ends) : Prop :=
  cb_state (en_client e') = cb_state (en_client e) ∧ cb_version (en_client e') = cb_version (en_client e) ∧
  bb_state (en_backend e') = bb_state (en_backend e) ∧ bb_version (en_backend e') = bb_version (en_backend e) ∧
  en_fired e' = en_fired e.

Lemma kept_trans e1 e2 e3 : kept e1 e2 → kept e2 e3 → kept e1 e3.
Proof. unfold kept. intuition congruence. Qed.
Lemma kept_refl e : kept e e.
Proof. by split_and!. Qed.

Lemma live_read_client f fs gs co bo e :
  live (f :: fs) gs co bo e → ∃ e', read_client e = (Some (Ok f), e') ∧ live fs gs co bo e' ∧ kept e e'.
Proof using ZLL.
  intros [Hcn Hbn (plain&Hfr&Hp) Hfb Htc Htb Hcb Hbb Hop].
  inversion Hfr as [|? ? inb inrest [Hid Hsz] Hin Hfr' Heq1 Heq2]. subst plain. rewrite <- app_assoc in Hp.
  destruct f as [id data]. cbn [frame_id payload] in *.
  destruct (cb_read_frame_next _ _ _ _ _ _ Hid Hsz Hin Hcn Hp) as (c'&ci&Hr&Hpend&Hcn'&Hth).
  pose proof (cb_read_frame_keeps (en_client e) (en_client_in e)) as Hk. rewrite Hr in Hk. cbn in Hk.
  destruct Hk as (Hkv&Hks&Hke&Hkc&Hkw).
  eexists. split; [unfold read_client; by rewrite Hr|]. split; [|by split_and!].
  split; cbn; try done; [|by rewrite Hke, Hkc, Hkw|by rewrite Hke]. rewrite Hth. eauto.
Qed.

Lemma live_read_backend g fs gs co bo e :
  live fs (g :: gs) co bo e → ∃ e', read_backend e = (Some (Ok g), e') ∧ live fs gs co bo e' ∧ kept e e'.
Proof using ZLL.
  intros [Hcn Hbn Hfc (plain&Hfr&Hp) Htc Htb Hcb Hbb Hop].
  inversion Hfr as [|? ? inb inrest [Hid Hsz] Hin Hfr' Heq1 Heq2]. subst plain. rewrite <- app_assoc in Hp.
  destruct g as [id data]. cbn [frame_id payload] in *.
  destruct (bb_read_frame_next _ _ _ _ _ _ Hid Hsz Hin Hbn Hp) as (b'&bi&Hr&Hpend&Hbn'&buf&->).
  eexists. split; [unfold read_backend; by rewrite Hr|]. split; [|by split_and!].
  split; cbn; try done. eauto.
Qed.

Lemma live_write_client f fs gs co bo e :
  live fs gs (f :: co) bo e → ∃ e', write_client f e = (Some (Ok ()), e') ∧ live fs gs co bo e' ∧ kept e e'.
Proof.
  intros [Hcn Hbn Hfc Hfb (oc&Hfr&Hw) Htb Hcb Hbb Hop].
  inversion Hfr as [|? ? fb rest Hs Hout Hfr' Heq1 Heq2]. subst oc.
  unfold write_client, on_client, cm_write, cb_write_frame, cb_write, append_raw. rewrite Hout.
  cbn [enc_take enc_buf enc_threshold]. rewrite Hcb. cbn [app].
  destruct (encrypt_opt (cb_encrypt (en_client e)) fb) as [out c] eqn:He.
  eexists. split; [reflexivity|]. split; [|by split_and!].
  split; cbn; try done. exists rest. split; [done|].
  rewrite encrypt_opt_app, He in Hw. cbn in Hw. by rewrite <- app_assoc.
Qed.

Lemma live_write_backend f fs gs co bo e :
  live fs gs co (f :: bo) e → ∃ e', write_backend f e = (Some (Ok ()), e') ∧ live fs gs co bo e' ∧ kept e e'.
Proof.
  intros [Hcn Hbn Hfc Hfb Htc (ob&Hfr&Hw) Hcb Hbb Hop].
  inversion Hfr as [|? ? fb rest Hs Hout Hfr' Heq1 Heq2]. subst ob.
  unfold write_backend, on_backend, bb_write_frame, bb_write, append_raw. rewrite Hout.
  cbn [enc_take enc_buf enc_threshold]. rewrite Hbb. unfold bb_write_all. cbn. rewrite Hop.
  eexists. split; [reflexivity|]. split; [|by split_and!].
  split; cbn; try done. exists rest. split; [done|]. by rewrite <- app_assoc.
Qed.

Lemma live_states st fs gs co bo e :
  live fs gs co bo e → ∃ e', states_to st e = (Some (Ok ()), e') ∧ live fs gs co bo e' ∧
    cb_state (en_client e') = st ∧ bb_state (en_backend e') = st ∧
    cb_version (en_client e') = cb_version (en_client e) ∧ bb_version (en_backend e') = bb_version (en_backend e) ∧
    en_fired e' = en_fired e.
Proof. intros []. eexists. split; [reflexivity|]. split; [by split|]. by split_and!. Qed.

Lemma xm_step {A B} (m : XM A) (k : A → XM B) e a e1 :
  m e = (Some (Ok a), e1) → (m ≫= k) e = k a e1.
Proof. intros Hm. cbv [mbind xm_bind]. by rewrite Hm. Qed.

(** ** The configuration phase *)

(** A schedule that takes these frames from the client and these from the backend. *)
Inductive config_traffic : list side → list PacketFrame → list PacketFrame → Prop :=
| ct_nil : config_traffic [] [] []
| ct_client t f fs gs : config_traffic t fs gs → config_traffic (FromClient :: t) (f :: fs) gs
| ct_backend t g fs gs : config_traffic t fs gs → config_traffic (FromBackend :: t) fs (g :: gs).

Lemma live_absorb wanted skipped f t ticks fs gs co bo e :
  Forall (λ f, Some (frame_id f) ≠ wanted) skipped → Some (frame_id f) = wanted →
  length t = S (length skipped) → live (skipped ++ f :: fs) gs co bo e →
  ∃ e', absorb_until wanted (t ++ ticks) e = (Some (Ok (f, ticks)), e') ∧ live fs gs co bo e' ∧ kept e e'.
Proof using ZLL.
  intros Hs Hf. revert t e. induction Hs as [|g skipped Hg Hs IH]; intros t e Hl He; (destruct t as [|x t]; [done|]);
    cbn [app absorb_until]; destruct (live_read_client _ _ _ _ _ _ He) as (e1&Hr&He1&Hk1);
    rewrite (xm_step _ _ _ _ _ Hr).
  - destruct t; [|done]. rewrite decide_True by done. by exists e1.
  - rewrite decide_False by done. destruct (IH t e1) as (e2&Hr2&He2&Hk2); [by injection Hl|done|].
    exists e2. eauto using kept_trans.
Qed.

Lemma live_forward finish fin t ticks cfs bfs fs gs co bo e :
  Forall (λ f, Some (frame_id f) ≠ finish) bfs → Some (frame_id fin) = finish → config_traffic t cfs bfs →
  live (cfs ++ fs) (bfs ++ fin :: gs) (bfs ++ fin :: co) (cfs ++ bo) e →
  ∃ e', forward_config finish (t ++ FromBackend :: ticks) e = (Some (Ok ticks), e') ∧
    live fs gs co bo e' ∧ kept e e'.
Proof using ZLL.
  intros Hb Hf Ht. revert e Hb. induction Ht as [|t f cfs bfs Ht IH|t g cfs bfs Ht IH]; intros e Hb He;
    cbn [app forward_config].
  - destruct (live_read_backend _ _ _ _ _ _ He) as (e1&Hr&He1&Hk1). rewrite (xm_step _ _ _ _ _ Hr).
    destruct (live_write_client _ _ _ _ _ _ He1) as (e2&Hw&He2&Hk2). rewrite (xm_step _ _ _ _ _ Hw).
    rewrite decide_True by done. exists e2. eauto using kept_trans.
  - destruct (live_read_client _ _ _ _ _ _ He) as (e1&Hr&He1&Hk1). rewrite (xm_step _ _ _ _ _ Hr).
    destruct (live_write_backend _ _ _ _ _ _ He1) as (e2&Hw&He2&Hk2). rewrite (xm_step _ _ _ _ _ Hw).
    destruct (IH e2 Hb He2) as (e3&Hr3&He3&Hk3). exists e3. eauto using kept_trans.
  - apply Forall_cons in Hb as [Hg Hb].
    destruct (live_read_backend _ _ _ _ _ _ He) as (e1&Hr&He1&Hk1). rewrite (xm_step _ _ _ _ _ Hr).
    destruct (live_write_client _ _ _ _ _ _ He1) as (e2&Hw&He2&Hk2). rewrite (xm_step _ _ _ _ _ Hw).
    rewrite decide_False by done. destruct (IH e2 Hb He2) as (e3&Hr3&He3&Hk3). exists e3. eauto using kept_trans.
Qed.

(** The frame of the packet that starts the phase. *)
Definition start_frame (registry : PacketRegistry) (v : ProtocolVersion) : PacketFrame :=
  mk_frame (default 0 (get_packet_id registry KCStartConfiguration Play Clientbound v)) [].

(** The ids of the packets that delimit the phase. *)
Definition delimited (registry : PacketRegistry) (v : ProtocolVersion) (ack fin ackfin : PacketFrame) : Prop :=
  get_packet_id registry KCStartConfiguration Play Clientbound v ≠ None ∧
  get_packet_id registry KSAcknowledgeConfiguration Play Serverbound v = Some (frame_id ack) ∧
  get_packet_id registry KCFinishConfig Config Clientbound v = Some (frame_id fin) ∧
  get_packet_id registry KSAcknowledgeFinishConfig Config Serverbound v = Some (frame_id ackfin).

Lemma live_send_start registry v fs gs co bo e :
  get_packet_id registry KCStartConfiguration Play Clientbound v ≠ None →
  cb_state (en_client e) = Play → cb_version (en_client e) = v → live fs gs (start_frame registry v :: co) bo e →
  ∃ e', on_client (λ c, let '(r, c) := cb_send_packet registry (existT KCStartConfiguration mk_CStartConfiguration) c in
                      (Some r, c)) e = (Some (Ok ()), e') ∧ live fs gs co bo e' ∧ kept e e'.
Proof.
  intros Hid Hst Hv He. unfold on_client, cb_send_packet. cbn [projT1]. rewrite Hst, Hv.
  change (pkt_direction (kind_type KCStartConfiguration)) with Clientbound.
  destruct (get_packet_id registry KCStartConfiguration Play Clientbound v) as [id|] eqn:Hg; [|done].
  change (encode_payload _ v) with (@Ok ProtocolError bytes []). cbn beta iota.
  destruct (live_write_client _ _ _ _ _ _ He) as (e'&Hw&He'&Hk). exists e'.
  revert Hw. unfold write_client, on_client, cm_write, cb_write_frame, start_frame. rewrite Hg. cbn [frame_id payload].
  change (default 0 (Some id)) with id.
  destruct (cb_write id [] (en_client e)) as [r c]. intros Hw. split; [exact Hw|done].
Qed.

(** What the client is sent and what the backend is sent during the phase: no frame of the
    backend is lost or reordered, and of the client's frames those that come while the
    configuration is negotiated and the last acknowledgement. *)
Lemma config_phase_runs registry v pre ack cfs bfs fin mid ackfin join later blater co t1 t2 t3 x rest e :
  delimited registry v ack fin ackfin →
  Forall (λ f, frame_id f ≠ frame_id ack) pre → Forall (λ f, frame_id f ≠ frame_id fin) bfs →
  Forall (λ f, frame_id f ≠ frame_id ackfin) mid →
  length t1 = S (length pre) → config_traffic t2 cfs bfs → length t3 = S (length mid) →
  cb_state (en_client e) = Play → cb_version (en_client e) = v →
  live (pre ++ ack :: cfs ++ mid ++ ackfin :: later) (bfs ++ fin :: join :: blater)
    (start_frame registry v :: bfs ++ fin :: co) (cfs ++ [ackfin]) e →
  ∃ e', handle_config_phase_switch registry v (t1 ++ t2 ++ FromBackend :: t3 ++ x :: rest) e = (Some (Ok join), e') ∧
    live later blater co [] e' ∧ cb_state (en_client e') = Play ∧ bb_state (en_backend e') = Play ∧
    cb_version (en_client e') = v ∧ bb_version (en_backend e') = bb_version (en_backend e) ∧
    en_fired e' = en_fired e.
Proof using ZLL.
  intros (Hstart&Hack&Hfin&Hackfin) Hpre Hbfs Hmid Ht1 Ht2 Ht3 Hst Hv He. unfold handle_config_phase_switch.
  assert (Hne : ∀ (g : PacketFrame) fs, Forall (λ f, frame_id f ≠ frame_id g) fs →
    Forall (λ f, Some (frame_id f) ≠ Some (frame_id g)) fs) by (intros g fs Hf; eapply Forall_impl; [exact Hf|congruence]).
  destruct (live_send_start _ _ _ _ _ _ _ Hstart Hst Hv He) as (e1&Hr1&He1&Hk1). rewrite (xm_step _ _ _ _ _ Hr1).
  rewrite Hack, Hfin, Hackfin.
  destruct (live_absorb _ pre ack t1 (t2 ++ FromBackend :: t3 ++ x :: rest) _ _ _ _ _
    (Hne _ _ Hpre) eq_refl Ht1 He1) as (e2&Hr2&He2&Hk2).
  rewrite (xm_step _ _ _ _ _ Hr2). cbn [snd].
  destruct (live_states Config _ _ _ _ _ He2) as (e3&Hr3&He3&_&_&Hv3&Hb3&Hf3). rewrite (xm_step _ _ _ _ _ Hr3).
  destruct (live_forward _ fin t2 (t3 ++ x :: rest) _ _ _ _ co _ _ (Hne _ _ Hbfs) eq_refl Ht2 He3) as (e4&Hr4&He4&Hk4).
  rewrite (xm_step _ _ _ _ _ Hr4).
  destruct (live_absorb _ mid ackfin t3 (x :: rest) _ _ _ _ _ (Hne _ _ Hmid) eq_refl Ht3 He4) as (e5&Hr5&He5&Hk5).
  rewrite (xm_step _ _ _ _ _ Hr5). cbn [fst snd].
  destruct (live_write_backend _ _ _ _ _ _ He5) as (e6&Hr6&He6&Hk6). rewrite (xm_step _ _ _ _ _ Hr6).
  destruct (live_states Play _ _ _ _ _ He6) as (e7&Hr7&He7&Hc7&Hb7&Hv7&Hbv7&Hf7). rewrite (xm_step _ _ _ _ _ Hr7).
  destruct (live_read_backend _ _ _ _ _ _ He7) as (e8&Hr8&He8&Hk8).
  exists e8. unfold kept in *. intuition congruence.
Qed.
(** Without the end of the configuration the limit passes, with the client in that phase. *)
Lemma live_forward_stalls finish t cfs bfs fs gs co bo e :
  Forall (λ f, Some (frame_id f) ≠ finish) bfs → config_traffic t cfs bfs →
  live (cfs ++ fs) (bfs ++ gs) (bfs ++ co) (cfs ++ bo) e →
  ∃ e', forward_config finish t e = (Some (Err (CTimeout "server switch config phase timed out")), e') ∧
    live fs gs co bo e' ∧ kept e e'.
Proof using ZLL.
  intros Hb Ht. revert e Hb. induction Ht as [|t f cfs bfs Ht IH|t g cfs bfs Ht IH]; intros e Hb He;
    cbn [app forward_config].
  - exists e. by eauto using kept_refl.
  - destruct (live_read_client _ _ _ _ _ _ He) as (e1&Hr&He1&Hk1). rewrite (xm_step _ _ _ _ _ Hr).
    destruct (live_write_backend _ _ _ _ _ _ He1) as (e2&Hw&He2&Hk2). rewrite (xm_step _ _ _ _ _ Hw).
    destruct (IH e2 Hb He2) as (e3&Hr3&He3&Hk3). exists e3. eauto using kept_trans.
  - apply Forall_cons in Hb as [Hg Hb].
    destruct (live_read_backend _ _ _ _ _ _ He) as (e1&Hr&He1&Hk1). rewrite (xm_step _ _ _ _ _ Hr).
    destruct (live_write_client _ _ _ _ _ _ He1) as (e2&Hw&He2&Hk2). rewrite (xm_step _ _ _ _ _ Hw).
    rewrite decide_False by done. destruct (IH e2 Hb He2) as (e3&Hr3&He3&Hk3). exists e3. eauto using kept_trans.
Qed.

(** ** The switch packets *)

Lemma on_client_bind {A B} (m : CM A) (k : A → CM B) e :
  on_client (m ≫= k) e = (on_client m ≫= (λ a, on_client (k a))) e.
Proof.
  cbv [mbind cm_bind xm_bind]. unfold on_client. destruct (m (en_client e)) as [[[a|err]|] c]; cbn; [|done..].
  by destruct (k a c).
Qed.

(** The respawn packet for a dimension. *)
Definition respawn_frame (registry : PacketRegistry) (v : ProtocolVersion) (d : DimensionInfo) : option PacketFrame :=
  respawn ← for_switch d v;
  id ← get_packet_id registry KCRespawn Play Clientbound v;
  match CRespawn_encode respawn v with Ok payload => Some (mk_frame id payload) | Err _ => None end.

Lemma live_respawn registry v d f fs gs co bo e :
  respawn_frame registry v d = Some f → live fs gs (f :: co) bo e →
  ∃ e', on_client (send_respawn registry d v) e = (Some (Ok ()), e') ∧ live fs gs co bo e' ∧ kept e e'.
Proof.
  unfold respawn_frame, send_respawn. destruct (for_switch d v) as [r|]; [|done].
  destruct (get_packet_id registry KCRespawn Play Clientbound v) as [id|]; [|done]. cbv [mbind option_bind].
  destruct (CRespawn_encode r v) as [payload|] eqn:Hp; [|done]. intros [= <-] He.
  destruct (live_write_client _ _ _ _ _ _ He) as (e'&Hw&He'&Hk). exists e'. split; [|done]. rewrite <- Hw.
  unfold write_client, on_client. cbv [mbind cm_bind cm_protocol]. done.
Qed.

(** What a client before 1.20.2 is sent for a join packet whose dimension is [d]. *)
Definition world_change (registry : PacketRegistry) (v : ProtocolVersion) (join : PacketFrame) (d : DimensionInfo)
    : option (list PacketFrame) :=
  r ← respawn_frame registry v d;
  if less_than v V1_16 then t ← respawn_frame registry v (temp_dimension d); Some [join; t; r] else Some [join; r].

Lemma live_switch_packets registry v join jg raw d frames fs gs co bo e :
  less_than v V1_20_2 = true → (∃ r, CJoinGame_decode v (payload join) = Ok (jg, r)) →
  jg_raw_payload jg = Some raw → (∃ r, extract_dimension_from_join_game v raw = Ok (d, r)) →
  world_change registry v join d = Some frames → live fs gs (frames ++ co) bo e →
  ∃ e', on_client (send_switch_packets registry join v) e = (Some (Ok ()), e') ∧ live fs gs co bo e' ∧ kept e e'.
Proof.
  intros Hv (r1&Hj) Hraw (r2&Hd) Hw He. unfold send_switch_packets. rewrite on_client_bind.
  unfold world_change in Hw. destruct (respawn_frame registry v d) as [r|] eqn:Hr; [|done].
  assert (Hn : no_less_than v V1_20_2 = false) by (unfold no_less_than, less_than in *; lia). rewrite Hn.
  assert (Hk : ∀ (k : DimensionInfo → CM ()) e, on_client (
      join_game ← cm_protocol (fst <$> CJoinGame_decode v (payload join));
      raw_payload ← cm_protocol (match jg_raw_payload join_game with
                                 | Some raw => Ok raw
                                 | None => Err (Invalid "JoinGame pre-1.20.2 should have raw_payload") end);
      dimension ← cm_protocol (fst <$> extract_dimension_from_join_game v raw_payload); k dimension) e =
      on_client (k d) e).
  { intros k e0. unfold on_client. cbv [mbind cm_bind cm_protocol]. rewrite Hj. cbn. rewrite Hraw. cbn. by rewrite Hd. }
  cbn [mbind option_bind] in Hw. destruct (less_than v V1_16) eqn:H16.
  - destruct (respawn_frame registry v (temp_dimension d)) as [t|] eqn:Ht; [|done]. injection Hw as <-.
    destruct (live_write_client _ _ _ _ _ _ He) as (e1&Hr1&He1&Hk1).
    rewrite (xm_step _ _ _ _ _ (Hr1 : on_client (cm_write join) e = _)). rewrite Hk. rewrite on_client_bind.
    destruct (live_respawn _ _ _ _ _ _ _ _ _ Ht He1) as (e2&Hr2&He2&Hk2). rewrite (xm_step _ _ _ _ _ Hr2).
    destruct (live_respawn _ _ _ _ _ _ _ _ _ Hr He2) as (e3&Hr3&He3&Hk3). exists e3. eauto using kept_trans.
  - injection Hw as <-. destruct (live_write_client _ _ _ _ _ _ He) as (e1&Hr1&He1&Hk1).
    rewrite (xm_step _ _ _ _ _ (Hr1 : on_client (cm_write join) e = _)). rewrite Hk.
    destruct (live_respawn _ _ _ _ _ _ _ _ _ Hr He1) as (e2&Hr2&He2&Hk2). exists e2. eauto using kept_trans.
Qed.

(** The temporary dimension is another one. *)
Lemma temp_dimension_other d : temp_dimension d ≠ d.
Proof. destruct d as [id|name]; cbn; case_decide; congruence. Qed.
End live.

(** ** The whole switch *)

Section switched.
Context `{CF : Cfb8, ZL : Zlib, UT : UuidText, IPN : IpNets, HS : HmacSha256, PP : Ppp, ZLL : !ZlibLaws}.
Context (registry : PacketRegistry).
Context {LH HR : Type} `{DM : !DashMap rstring LH HR}.
Context {CM' EM : Type} `{DMC : !DashMap ProviderId RouterEntry CM', DME : !DashMap rstring ProviderId EM}.
Context {TypeId HM PM : Type} `{TED : !EqDecision TypeId}.
Context `{HMD : !DashMap TypeId (list (HandlerEntry ServerPreConnectEvent)) HM}.
Context `{PMD : !DashMap PacketKey (list (HandlerEntry RawPacketEvent)) PM}.
Context (md5 : bytes → Z) (properties_json : list Property → rstring).
Context (ip_to_string : SockIp → rstring) (transport_error_display : TransportError → rstring).
Context (net : rstring → Z → attempt) (default_timeout : Z).
Context (services : SwitchServices (HR := HR) (CM' := CM') (EM := EM) (TypeId := TypeId) (HM := HM) (PM := PM)).

Abbreviation switch := (perform_switch registry (LH := LH) md5 properties_json ip_to_string transport_error_display
  net default_timeout services).
Abbreviation login := (login_to_backend registry md5 properties_json ip_to_string services).
Abbreviation target_of := (resolve_target (LH := LH) services).
Abbreviation opened := (open_backend transport_error_display net default_timeout).

(** The login never looks at the client. *)
Definition blind_to_client {A} (m : XM A) : Prop :=
  ∀ e, let e' := (m e).2 in
    en_client e' = en_client e ∧ en_client_in e' = en_client_in e ∧ en_fired e' = en_fired e.

Lemma blind_bind {A B} (m : XM A) (k : A → XM B) :
  blind_to_client m → (∀ a, blind_to_client (k a)) → blind_to_client (m ≫= k).
Proof.
  intros Hm Hk e. specialize (Hm e). cbv [mbind xm_bind]. destruct (m e) as [[[a|err]|] e1]; [|done..].
  cbn in Hm. destruct Hm as (Hc&Hi&Hf). destruct (Hk a e1) as (->&->&->). done.
Qed.
Lemma blind_backend {A} m : blind_to_client (on_backend (A := A) m).
Proof. intros e. unfold on_backend. by destruct (m (en_backend e)). Qed.
Lemma blind_login m : blind_to_client (on_login m).
Proof. intros e. unfold on_login. by destruct (m (en_backend e) (en_backend_in e)) as [[r b] bi]. Qed.
Lemma blind_ret {A} (a : A) : blind_to_client (mret a).
Proof. by intros e. Qed.

Lemma login_blind fuel p c : blind_to_client (login fuel p c).
Proof.
  apply blind_bind; [apply blind_backend|]. intros _. apply blind_bind; [apply blind_login|]. intros _.
  destruct (no_less_than (pl_version p) V1_20_2); [|apply blind_ret].
  apply blind_bind; [apply blind_backend|]. intros _. apply blind_backend.
Qed.

(** A login before 1.20.2 ends in the play phase. *)
Lemma consume_login_play fuel v ctx b chunks b' chunks' :
  less_than v V1_20_2 = true →
  consume_backend_login fuel registry v ctx b chunks = (Some (Ok ()), b', chunks') → bb_state b' = Play.
Proof.
  intros Hv. revert b chunks. induction fuel as [|fuel IH]; intros b chunks; [done|]. rewrite consume_step.
  destruct (bb_read_frame b chunks) as [[[[f|]|e] b1] chunks1]; [|done..].
  destruct (login_frame registry v ctx f b1) as [s b2] eqn:Hl. destruct s; try done; [apply IH|].
  intros [= <- <-]. revert Hl. unfold login_frame, login_packet, answer.
  repeat case_match; intros; simplify_eq; try done; by rewrite Hv in *.
Qed.

Lemma login_ends_in_play fuel p c e e' :
  less_than (pl_version p) V1_20_2 = true → login fuel p c e = (Some (Ok ()), e') → bb_state (en_backend e') = Play.
Proof.
  intros Hv. unfold login_to_backend. cbv [mbind xm_bind].
  destruct (on_backend _ e) as [[[[]|]|] e1]; try done. unfold on_login.
  destruct (consume_backend_login _ _ _ _ _ _) as [[r b] bi] eqn:Hc. destruct r as [[[]|]|]; try done.
  assert (Hn : no_less_than (pl_version p) V1_20_2 = false) by (unfold no_less_than, less_than in *; lia).
  rewrite Hn. intros [= <-]. cbn. by eapply consume_login_play.
Qed.

(** The exchange of a switch: what comes from the ends, what they are sent, and what is
    left for the session. *)
Inductive switch_exchange (v : ProtocolVersion) (later blater : list PacketFrame)
    : list side → list PacketFrame → list PacketFrame → list PacketFrame → list PacketFrame → Prop :=
| sx_modern pre ack cfs bfs fin mid ackfin join t1 t2 t3 x rest :
    no_less_than v V1_20_2 = true → delimited registry v ack fin ackfin →
    Forall (λ f, frame_id f ≠ frame_id ack) pre → Forall (λ f, frame_id f ≠ frame_id fin) bfs →
    Forall (λ f, frame_id f ≠ frame_id ackfin) mid →
    length t1 = S (length pre) → config_traffic t2 cfs bfs → length t3 = S (length mid) →
    switch_exchange v later blater (t1 ++ t2 ++ FromBackend :: t3 ++ x :: rest)
      (pre ++ ack :: cfs ++ mid ++ ackfin :: later) (bfs ++ fin :: join :: blater)
      (start_frame registry v :: bfs ++ [fin; join]) (cfs ++ [ackfin])
| sx_legacy ticks join jg raw d frames :
    less_than v V1_20_2 = true → (∃ r, CJoinGame_decode v (payload join) = Ok (jg, r)) →
    jg_raw_payload jg = Some raw → (∃ r, extract_dimension_from_join_game v raw = Ok (d, r)) →
    world_change registry v join d = Some frames →
    switch_exchange v later blater ticks later (join :: blater) frames [].

Lemma live_done wc wb rc rb fs gs e :
  live wc wb rc rb fs gs [] [] e → cb_written (en_client e) = wc ∧ bb_written (en_backend e) = wb.
Proof.
  intros [_ _ _ _ (oc&Hc&<-) (ob&Hb&<-) _ _ _]. inversion Hc. inversion Hb.
  split; [|by rewrite app_nil_r]. destruct (cb_encrypt (en_client e)); cbn; by rewrite app_nil_r.
Qed.

Lemma perform_switch_completes (wc wb rc rb : bytes) (fuel : nat) (ticks : list side) (current target id : rstring)
    (p : Player) (c : ServerConfig) (client : ClientBridge) (client_in : list bytes) (b : BackendBridge)
    (bi : list bytes) (e : Ends) (fs gs co bo later blater : list PacketFrame) :
  target_of current target (pl_id p) (pl_profile p) = Ok (ToServer id c) → opened p id c = Ok (b, bi) →
  login fuel p c (mk_Ends client client_in b bi []) = (Some (Ok ()), e) →
  cb_state client = Play → cb_version client = pl_version p →
  switch_exchange (pl_version p) later blater ticks fs gs co bo → live wc wb rc rb fs gs co bo e →
  ∃ e', switch fuel ticks current target p client client_in =
      (Some (Ok (SwitchBackend id)), en_client e', en_client_in e', Some (en_backend e', en_backend_in e'),
       [ServerConnected (pl_id p) id; ServerSwitched (pl_id p) current id]) ∧
    cb_written (en_client e') = wc ∧ bb_written (en_backend e') = wb ∧
    live wc wb rc rb later blater [] [] e' ∧
    cb_state (en_client e') = Play ∧ bb_state (en_backend e') = Play.
Proof using ZLL.
  intros Ht Ho Hl Hst Hv Hx He. pose proof (login_blind fuel p c (mk_Ends client client_in b bi [])) as Hb.
  rewrite Hl in Hb. cbn in Hb. destruct Hb as (Hbc&Hbi&Hbf).
  unfold perform_switch. rewrite Ht, Ho. unfold switch_to. rewrite (xm_step _ _ _ _ _ Hl).
  set (e1 := mk_Ends (en_client e) (en_client_in e) (en_backend e) (en_backend_in e)
    (en_fired e ++ [ServerConnected (pl_id p) id])).
  rewrite (xm_step _ _ e () e1) by done. assert (He1 : live wc wb rc rb fs gs co bo e1) by (destruct He; by split).
  assert (Hst1 : cb_state (en_client e1) = Play) by (cbn; by rewrite Hbc).
  assert (Hv1 : cb_version (en_client e1) = pl_version p) by (cbn; by rewrite Hbc).
  assert (Hf1 : en_fired e1 = [ServerConnected (pl_id p) id]) by (cbn; by rewrite Hbf).
  assert (Hb1 : en_backend e1 = en_backend e) by done.
  assert (Hend : ∃ j e2 e3,
    (if no_less_than (pl_version p) V1_20_2 then handle_config_phase_switch registry (pl_version p) ticks
     else read_backend) e1 = (Some (Ok j), e2) ∧
    on_client (send_switch_packets registry j (pl_version p)) e2 = (Some (Ok ()), e3) ∧
    live wc wb rc rb later blater [] [] e3 ∧ en_fired e3 = en_fired e1 ∧
    cb_state (en_client e3) = Play ∧ bb_state (en_backend e3) = Play).
  { clearbody e1. destruct Hx as [pre ack cfs bfs fin mid ackfin join t1 t2 t3 x rest Hm Hd Hpre Hbfs Hmid Ht1 Ht2 Ht3|
      ticks join jg raw d frames Hv20 Hj Hraw Hdim Hw].
    - rewrite Hm. destruct (config_phase_runs wc wb rc rb registry (pl_version p) pre ack cfs bfs fin mid ackfin join
        later blater [join] t1 t2 t3 x rest e1) as (e2&Hr&He2&Hc2&Hb2&_&_&Hf2); try done.
      exists join, e2. destruct (live_write_client _ _ _ _ _ _ _ _ _ _ He2) as (e3&Hr3&He3&Hk3).
      exists e3. split; [done|]. unfold send_switch_packets. rewrite Hm, on_client_bind.
      rewrite (xm_step _ _ _ _ _ (Hr3 : on_client (cm_write join) e2 = _)).
      split; [by destruct e3|]. unfold kept in Hk3. split; [done|]. intuition congruence.
    - assert (Hn : no_less_than (pl_version p) V1_20_2 = false) by (unfold no_less_than, less_than in *; lia).
      rewrite Hn. destruct (live_read_backend _ _ _ _ _ _ _ _ _ _ He1) as (e2&Hr&He2&Hk2).
      rewrite <- (app_nil_r frames) in He2.
      destruct (live_switch_packets _ _ _ _ _ _ _ _ _ _ _ _ _ _ _ _ Hv20 Hj Hraw Hdim Hw He2) as (e3&Hr3&He3&Hk3).
      exists join, e2, e3. split_and!; try done; unfold kept in *; [intuition congruence..|].
      pose proof (login_ends_in_play _ _ _ _ _ Hv20 Hl). intuition congruence. }
  destruct Hend as (j&e2&e3&Hr2&Hr3&He3&Hf3&Hc3&Hb3). rewrite (xm_step _ _ _ _ _ Hr2), (xm_step _ _ _ _ _ Hr3).
  destruct (live_done _ _ _ _ _ _ _ He3) as [Hwc Hwb].
  eexists (mk_Ends (en_client e3) (en_client_in e3) (en_backend e3) (en_backend_in e3)
    (en_fired e3 ++ [ServerSwitched (pl_id p) current id])).
  split_and!; try done; [|by destruct He3; split].
  cbv [mbind xm_bind fire_and_forget mret xm_ret]. cbn. by rewrite Hf3, Hf1.
Qed.

(** The target of a switch. *)
Lemma target_of_server current target pid profile id c :
  target_of current target pid profile = Ok (ToServer id c) →
  find_by_server_id (sw_domain_router services) id = Some c ∧
  ∃ cur tgt, find_by_server_id (sw_domain_router services) current = Some cur ∧
    find_by_server_id (sw_domain_router services) target = Some tgt ∧ validate_switch_allowed cur tgt = Ok () ∧
    (id = target ∨ fire_pre_connect services pid profile target = PreConnectTo id).
Proof.
  unfold resolve_target, find_server.
  destruct (find_by_server_id _ target) as [tgt|] eqn:Ht; [|done].
  destruct (find_by_server_id _ current) as [cur|] eqn:Hc; [|done]. cbv [mbind result_bind].
  destruct (validate_switch_allowed cur tgt) as [[]|] eqn:Hv; [|done].
  destruct (fire_pre_connect _ _ _ _) as [|r| | |] eqn:Hf; [|case_decide|done| |done]; try (intros [= <- <-]; by eauto 10).
  destruct (find_by_server_id _ r) as [rc|] eqn:Hr; [|done]. intros [= <- <-]. by eauto 10.
Qed.

Lemma networks_allowed cur tgt :
  validate_switch_allowed cur tgt = Ok () ↔
  ∀ a b, sc_network cur = Some a → sc_network tgt = Some b → a = b.
Proof.
  unfold validate_switch_allowed.
  destruct (sc_network cur) as [a|], (sc_network tgt) as [b|]; [case_decide|..]; naive_solver.
Qed.

(** No event is fired on the way. *)
Definition silent {A} (m : XM A) : Prop := ∀ e, en_fired (m e).2 = en_fired e.

Lemma silent_bind {A B} (m : XM A) (k : A → XM B) : silent m → (∀ a, silent (k a)) → silent (m ≫= k).
Proof.
  intros Hm Hk e. specialize (Hm e). cbv [mbind xm_bind]. destruct (m e) as [[[a|err]|] e1]; [|done..].
  cbn in Hm. by rewrite Hk.
Qed.
Lemma silent_client {A} (m : CM A) : silent (on_client m).
Proof. intros e. unfold on_client. by destruct (m (en_client e)). Qed.
Lemma silent_backend {A} m : silent (on_backend (A := A) m).
Proof. intros e. unfold on_backend. by destruct (m (en_backend e)). Qed.
Lemma silent_read_client : silent read_client.
Proof. intros e. unfold read_client. by destruct (cb_read_frame _ _) as [[r c] ci]. Qed.
Lemma silent_read_backend : silent read_backend.
Proof. intros e. unfold read_backend. by destruct (bb_read_frame _ _) as [[r b] bi]. Qed.
Lemma silent_fail {A} err : silent (xm_fail (A := A) err).
Proof. by intros e. Qed.
Lemma silent_absorb wanted ticks : silent (absorb_until wanted ticks).
Proof.
  induction ticks as [|t ticks IH]; [apply silent_fail|]. apply silent_bind; [apply silent_read_client|].
  intros f. case_decide; [by intros e|done].
Qed.
Lemma silent_forward finish ticks : silent (forward_config finish ticks).
Proof.
  induction ticks as [|[] ticks IH]; [apply silent_fail|..]; (apply silent_bind; [first
    [apply silent_read_client|apply silent_read_backend]|]); intros f;
    (apply silent_bind; [first [apply silent_client|apply silent_backend]|]); intros _; [done|].
  case_decide; [by intros e|done].
Qed.
Lemma silent_config_phase v ticks : silent (handle_config_phase_switch registry v ticks).
Proof.
  apply silent_bind; [apply silent_client|]. intros _. apply silent_bind; [apply silent_absorb|]. intros acked.
  apply silent_bind; [by intros e|]. intros _. apply silent_bind; [apply silent_forward|]. intros t.
  apply silent_bind; [apply silent_absorb|]. intros fin. apply silent_bind; [apply silent_backend|]. intros _.
  apply silent_bind; [by intros e|]. intros _. destruct fin.2; [apply silent_fail|apply silent_read_backend].
Qed.

(** Nothing has been asked of the client before the first event, and both have been fired
    when the switch succeeds. *)
Lemma switch_to_fired fuel ticks current p id c e :
  en_fired e = [] →
  match switch_to registry (LH := LH) md5 properties_json ip_to_string services fuel ticks current p id c e with
  | (Some (Ok r), e') =>
    r = SwitchBackend id ∧ en_fired e' = [ServerConnected (pl_id p) id; ServerSwitched (pl_id p) current id]
  | (_, e') => en_fired e' = [] ∧ en_client e' = en_client e ∧ en_client_in e' = en_client_in e ∨
    en_fired e' = [ServerConnected (pl_id p) id]
  end.
Proof.
  intros He. unfold switch_to. pose proof (login_blind fuel p c e) as Hb. cbv [mbind xm_bind].
  destruct (login fuel p c e) as [[[[]|err]|] e1]; cbn in Hb; destruct Hb as (Hbc&Hbi&Hbf);
    [|left; rewrite Hbf; by split_and!..].
  cbv [fire_and_forget]. set (e2 := mk_Ends _ _ _ _ (en_fired e1 ++ _)).
  assert (Hf2 : en_fired e2 = [ServerConnected (pl_id p) id]) by (cbn; by rewrite Hbf, He). clearbody e2.
  set (m := if no_less_than (pl_version p) V1_20_2
    then handle_config_phase_switch registry (pl_version p) ticks else read_backend).
  assert (Hs : silent m) by (unfold m; destruct (no_less_than _ _); [apply silent_config_phase|apply silent_read_backend]).
  specialize (Hs e2). destruct (m e2) as [[[j|err]|] e3]; cbn in Hs; [|right; congruence..].
  pose proof (silent_client (send_switch_packets registry j (pl_version p)) e3) as Hs3.
  destruct (on_client (send_switch_packets registry j (pl_version p)) e3) as [[[[]|err]|] e4]; cbn in Hs3;
    [|right; congruence..]. cbn. by rewrite Hs3, Hs, Hf2.
Qed.

(** Where a player may be moved to. *)
Definition allowed_move (p : Player) (current id : rstring) : Prop :=
  ∃ target cur tgt c, find_by_server_id (sw_domain_router services) current = Some cur ∧
    find_by_server_id (sw_domain_router services) target = Some tgt ∧
    find_by_server_id (sw_domain_router services) id = Some c ∧
    (∀ a b, sc_network cur = Some a → sc_network tgt = Some b → a = b) ∧
    (id = target ∨ fire_pre_connect services (pl_id p) (pl_profile p) target = PreConnectTo id).

Lemma perform_switch_guarded (fuel : nat) (ticks : list side) (current target : rstring) (p : Player)
    (client : ClientBridge) (client_in : list bytes) :
  let '(r, client', client_in', nb, fired) := switch fuel ticks current target p client client_in in
  match r with
  | Some (Ok (SwitchBackend id)) =>
    fired = [ServerConnected (pl_id p) id; ServerSwitched (pl_id p) current id] ∧ nb ≠ None ∧
    allowed_move p current id
  | Some (Ok (SwitchLimbo _ _)) => client' = client ∧ client_in' = client_in ∧ fired = []
  | Some (Err _) | None =>
    fired = [] ∧ client' = client ∧ client_in' = client_in ∨ ∃ id, fired = [ServerConnected (pl_id p) id]
  end.
Proof.
  unfold perform_switch. destruct (target_of current target (pl_id p) (pl_profile p)) as [[id c|hs ctx]|err] eqn:Ht;
    [|done|by left].
  destruct (opened p id c) as [[b bi]|err] eqn:Ho; [|by left].
  pose proof (switch_to_fired fuel ticks current p id c (mk_Ends client client_in b bi []) eq_refl) as Hf.
  destruct (switch_to _ _ _ _ _ _ _ _ _ _ _ _) as [[[r|e']|] e]; [|destruct Hf; [by left|right; by exists id]..].
  destruct Hf as [-> Hf]. split; [done|]. split; [done|].
  destruct (target_of_server _ _ _ _ _ _ Ht) as (Hc&cur&tgt&Hcur&Htgt&Hv&Hid).
  exists target, cur, tgt, c. split_and!; try done. by apply networks_allowed.
Qed.

(** When the new backend never ends the configuration, the configuration phase ends with a
    timeout and the client is left in it. *)
Lemma config_phase_stalls (wc wb rc rb : bytes) (v : ProtocolVersion) (pre cfs bfs fs gs co bo : list PacketFrame)
    (ack fin ackfin : PacketFrame) (t1 t2 : list side) (e : Ends) :
  delimited registry v ack fin ackfin → Forall (λ f, frame_id f ≠ frame_id ack) pre →
  Forall (λ f, frame_id f ≠ frame_id fin) bfs → length t1 = S (length pre) → config_traffic t2 cfs bfs →
  cb_state (en_client e) = Play → cb_version (en_client e) = v →
  live wc wb rc rb (pre ++ ack :: cfs ++ fs) (bfs ++ gs) (start_frame registry v :: bfs ++ co) (cfs ++ bo) e →
  ∃ e', handle_config_phase_switch registry v (t1 ++ t2) e =
      (Some (Err (CTimeout "server switch config phase timed out")), e') ∧ cb_state (en_client e') = Config ∧
    en_fired e' = en_fired e.
Proof using ZLL.
  intros (Hstart&Hack&Hfin&_) Hpre Hbfs Ht1 Ht2 Hst Hv He. unfold handle_config_phase_switch.
  assert (Hne : ∀ (g : PacketFrame) fs, Forall (λ f, frame_id f ≠ frame_id g) fs →
    Forall (λ f, Some (frame_id f) ≠ Some (frame_id g)) fs) by (intros g l Hf; eapply Forall_impl; [exact Hf|congruence]).
  destruct (live_send_start _ _ _ _ _ _ _ _ _ _ _ Hstart Hst Hv He) as (e1&Hr1&He1&Hk1). rewrite (xm_step _ _ _ _ _ Hr1).
  rewrite Hack, Hfin.
  destruct (live_absorb _ _ _ _ _ pre ack t1 t2 _ _ _ _ _ (Hne _ _ Hpre) eq_refl Ht1 He1) as (e2&Hr2&He2&Hk2).
  rewrite (xm_step _ _ _ _ _ Hr2). cbn [snd].
  destruct (live_states _ _ _ _ Config _ _ _ _ _ He2) as (e3&Hr3&He3&Hc3&Hk3). rewrite (xm_step _ _ _ _ _ Hr3).
  destruct (live_forward_stalls _ _ _ _ _ _ _ _ _ _ _ _ _ (Hne _ _ Hbfs) Ht2 He3) as (e4&Hr4&_&Hk4).
  exists e4. cbv [mbind xm_bind]. rewrite Hr4. split; [done|].
  destruct Hk1 as (_&_&_&_&Hf1), Hk2 as (_&_&_&_&Hf2), Hk3 as (_&_&_&Hf3), Hk4 as (->&_&_&_&->).
  by rewrite Hf3, Hf2, Hf1.
Qed.

(** A switch whose configuration phase stalls fails, and the client stays in that phase. *)
Lemma perform_switch_stalls (wc wb rc rb : bytes) (fuel : nat) (current target id : rstring)
    (p : Player) (c : ServerConfig) (client : ClientBridge) (client_in : list bytes) (b : BackendBridge)
    (bi : list bytes) (pre cfs bfs fs gs co bo : list PacketFrame) (ack fin ackfin : PacketFrame) (t1 t2 : list side) (e : Ends) :
  target_of current target (pl_id p) (pl_profile p) = Ok (ToServer id c) → opened p id c = Ok (b, bi) →
  login fuel p c (mk_Ends client client_in b bi []) = (Some (Ok ()), e) →
  cb_state client = Play → cb_version client = pl_version p → no_less_than (pl_version p) V1_20_2 = true →
  delimited registry (pl_version p) ack fin ackfin → Forall (λ f, frame_id f ≠ frame_id ack) pre →
  Forall (λ f, frame_id f ≠ frame_id fin) bfs → length t1 = S (length pre) → config_traffic t2 cfs bfs →
  live wc wb rc rb (pre ++ ack :: cfs ++ fs) (bfs ++ gs) (start_frame registry (pl_version p) :: bfs ++ co) (cfs ++ bo) e →
  ∃ e', switch fuel (t1 ++ t2) current target p client client_in =
      (Some (Err (CTimeout "server switch config phase timed out")), en_client e', en_client_in e',
       Some (en_backend e', en_backend_in e'), [ServerConnected (pl_id p) id]) ∧
    cb_state (en_client e') = Config.
Proof using ZLL.
  intros Ht Ho Hl Hst Hv Hm Hd Hpre Hbfs Ht1 Ht2 He.
  pose proof (login_blind fuel p c (mk_Ends client client_in b bi [])) as Hb.
  rewrite Hl in Hb. cbn in Hb. destruct Hb as (Hbc&Hbi&Hbf).
  unfold perform_switch. rewrite Ht, Ho. unfold switch_to. rewrite (xm_step _ _ _ _ _ Hl).
  set (e1 := mk_Ends (en_client e) (en_client_in e) (en_backend e) (en_backend_in e)
    (en_fired e ++ [ServerConnected (pl_id p) id])).
  rewrite (xm_step _ _ e () e1) by done. rewrite Hm.
  destruct (config_phase_stalls wc wb rc rb (pl_version p) pre cfs bfs fs gs co bo ack fin ackfin t1 t2 e1)
    as (e'&Hr&Hc&Hf); [done..|cbn; by rewrite Hbc|cbn; by rewrite Hbc|destruct He; by split|].
  cbv [mbind xm_bind]. rewrite Hr. exists e'. split; [|done]. by rewrite Hf; cbn; rewrite Hbf.
Qed.
End switched.

(** ** A sample switch *)

(** The bytes of a sequence of frames. *)
Fixpoint frames_bytes `{Zlib} (th : option Z) (fs : list PacketFrame) : option bytes :=
  match fs with
  | [] => Some []
  | f :: fs =>
    match frame_packet th (frame_id f) (payload f) with
    | Ok fb => app fb <$> frames_bytes th fs
    | Err _ => None
    end
  end.

Lemma frames_bytes_framed `{Zlib} th fs bs : Forall sendable fs → frames_bytes th fs = Some bs → framed th fs bs.
Proof.
  intros Hs. revert bs. induction Hs as [|f fs Hf Hs IH]; intros bs; cbn [frames_bytes].
  { intros [= <-]. constructor. }
  destruct (frame_packet th (frame_id f) (payload f)) as [fb|] eqn:Hfb; [|done].
  destruct (frames_bytes th fs) as [rest|]; [|done]. intros [= <-]. apply framed_cons; [done|done|by apply IH].
Qed.

Section sample.
#[local] Existing Instances toy_cfb8 stored_zlib hex_uuid range_nets ascii_lowercase glob_match sum_mac spec_ppp.

Definition sample_router : @DomainRouter (assoc_map ProviderId RouterEntry) (assoc_map rstring ProviderId) :=
  event_loop [Added survival; Added lobby] router_new.

Definition sample_switch_services : SwitchServices (HR := assoc_map rstring Z)
    (CM' := assoc_map ProviderId RouterEntry) (EM := assoc_map rstring ProviderId) (TypeId := Z)
    (HM := assoc_map Z (list (HandlerEntry ServerPreConnectEvent)))
    (PM := assoc_map PacketKey (list (HandlerEntry RawPacketEvent))) := {|
  sw_domain_router := sample_router;
  sw_event_bus := bus_new;
  sw_pre_connect_event := 0;
  sw_limbo_handler_registry := dm_new;
  sw_forwarding_mode := FwdNone;
  sw_forwarding_secret := None |}.

Definition sample_player : Player := {|
  pl_id := 7; pl_name := str "Notch"; pl_profile := Build_GameProfile 42 (str "Notch") [];
  pl_handshake := Build_HandshakeData (str "play.example.com") 25565 V1_21 IntentLogin [[1; 0]];
  pl_peer_addr := Build_SocketAddr (V4 1) 40000; pl_real_ip := None; pl_version := V1_21 |}.

(** What the client sends, and what the new backend sends after its login. *)
Definition client_frames : list PacketFrame :=
  [mk_frame 26 [1]; mk_frame 12 []; mk_frame 7 [0]; mk_frame 3 []; mk_frame 27 []].
Definition backend_frames : list PacketFrame := [mk_frame 14 [0]; mk_frame 3 []; mk_frame 43 [1; 2]; mk_frame 44 []].
Definition to_client : list PacketFrame := [mk_frame 105 []; mk_frame 14 [0]; mk_frame 3 []; mk_frame 43 [1; 2]].
Definition to_backend : list PacketFrame := [mk_frame 7 [0]; mk_frame 3 []].
Definition of_frames (fs : list PacketFrame) : bytes := default [] (frames_bytes None fs).

Definition sample_net : rstring → Z → attempt := λ _ _,
  Connected (Build_BackendSocket [of_frames (success_frame :: backend_frames)] [] None).
Definition sample_client : ClientBridge := cb_set_state Play (ClientBridge_new [] V1_21).
Definition sample_ticks : list side :=
  [FromClient; FromClient; FromBackend; FromClient; FromBackend; FromClient; FromBackend].

Definition sample_login : option (result CoreError ()) * Ends :=
  login_to_backend build_default_registry (λ _, 0) (λ _, []) (λ _, []) sample_switch_services 9 sample_player
    (simple_config "lobby" ["lobby.example.com"; "*.example.com"])
    (mk_Ends sample_client [of_frames client_frames] (bridge_on V1_21 (Build_BackendSocket [] [] None))
       [of_frames (success_frame :: backend_frames)] []).

Lemma sample_sendable : Forall sendable (client_frames ++ backend_frames ++ to_client ++ to_backend).
Proof. apply (bool_decide_unpack _). by vm_compute. Qed.

Lemma of_frames_framed fs :
  fs ⊆ client_frames ++ backend_frames ++ to_client ++ to_backend → frames_bytes None fs ≠ None →
  framed None fs (of_frames fs).
Proof.
  intros Hs Hn. unfold of_frames. destruct (frames_bytes None fs) as [bs|] eqn:Hb; [|done].
  apply frames_bytes_framed; [|done]. rewrite Forall_forall. intros f Hf.
  pose proof sample_sendable as Ha. rewrite Forall_forall in Ha. by apply Ha, Hs.
Qed.
End sample.
