(* ===== verification/Limbo.v ===== *)
(** * Limbo: players held by plugins in a world of the proxy

    Models [limbo/keepalive.rs], [limbo/chat.rs], [limbo/login.rs], [limbo/session.rs],
    [limbo/virtual_session.rs], [limbo/handler_chain.rs], [limbo/engine.rs] and the
    handler trait of [infrarust-api].

    A handler is a plugin: each of its callbacks is a [Script] over the plugins' own state,
    which asks the session for operations and goes on with their answers.  What happens
    while a player is held is a schedule of events; those of plugin tasks that kept a handle
    are among them.  A callback runs to its end before the next event.  Times are in
    milliseconds. *)
From S2P Require Import Prelude Wire Utf8 VarInt Codec Frame Version Packet LoginPackets PlayPackets Nbt.
From S2P Require Import Component Registry DefaultRegistry Bridge Config Router Middleware ServerManager Forwarding.
From S2P Require Import Backend EventBus Filters ProxyCommands Session LimboWorld Transport Switch.

(** ** Keep-alive *)

Definition KEEPALIVE_TIMEOUT_SECS : Z := 15.
Definition KEEPALIVE_INTERVAL_SECS : Z := 10.

Inductive KeepAliveTick := KASend (frame : PacketFrame) | KAIdle | KATimeout.

Record KeepAliveState := mk_KeepAlive {
  ka_last_sent_id : Z;
  ka_last_sent_at : Z;
  ka_awaiting_response : bool }.
Definition KeepAliveState_new (now : Z) : KeepAliveState := mk_KeepAlive 0 now false.

(** A clock: the instant, the time of the day in milliseconds and a random [i32]. *)
Record clock := { clk_now : Z; clk_unix_millis : Z; clk_random : Z }.

Section keepalive.
Context `{UT : UuidText} (registry : PacketRegistry).

Definition ka_tick (c : clock) (version : ProtocolVersion) (self : KeepAliveState)
    : result CoreError KeepAliveTick * KeepAliveState :=
  if ka_awaiting_response self then
    (Ok (if decide (KEEPALIVE_TIMEOUT_SECS * 1000 ≤ clk_now c - ka_last_sent_at self) then KATimeout else KAIdle), self)
  else
    let id := if less_than version V1_12_2 then clk_random c else wrap_s 64 (clk_unix_millis c) in
    let self := mk_KeepAlive id (clk_now c) true in
    match encode_packet registry (existT KCKeepAlive (mk_CKeepAlive id)) version with
    | Ok frame => (Ok (KASend frame), self)
    | Err e => (Err e, self)
    end.

Definition ka_on_response (id : Z) (self : KeepAliveState) : bool * KeepAliveState :=
  if decide (id = ka_last_sent_id self)
  then (true, mk_KeepAlive (ka_last_sent_id self) (ka_last_sent_at self) false)
  else (false, self).

Definition is_keepalive_response (frame : PacketFrame) (version : ProtocolVersion) : bool :=
  bool_decide (Some (frame_id frame) = get_packet_id registry KSKeepAlive Play Serverbound version).

Definition extract_keepalive_id (frame : PacketFrame) (version : ProtocolVersion) : option Z :=
  match KeepAlive_decode mk_SKeepAlive version (payload frame) with Ok (pkt, _) => Some (ska_id pkt) | Err _ => None end.

(** ** Messages of the client *)

Inductive ClientMessage := LimboCommand (name : rstring) (args : list rstring) | LimboChat (message : rstring).

(** [splitn(2, ' ')]: before the first space, and what follows it. *)
Fixpoint split_space (s : rstring) : rstring * option rstring :=
  match s with
  | [] => ([], None)
  | c :: s => if decide (c = 32) then ([], Some s) else let '(a, b) := split_space s in (c :: a, b)
  end.

Definition parse_client_message (frame : PacketFrame) (version : ProtocolVersion) : option ClientMessage :=
  action ← detect_chat_or_command registry frame version;
  match action with
  | ChatCommand input =>
    let '(name, rest) := split_space input in
    Some (LimboCommand name (match rest with Some rest => split_whitespace rest | None => [] end))
  | ChatText msg => Some (LimboChat msg)
  end.
End keepalive.

(** [args.join(" ")]. *)
Definition join_args (args : list rstring) : rstring :=
  match args with [] => [] | a :: args => a ++ concat ((λ a, 32 :: a) <$> args) end.

(** ** Entering from the configuration phase *)

Section login.
Context `{CF : Cfb8, ZL : Zlib, UT : UuidText} (registry : PacketRegistry).

(** Only the client's end is there. *)
Definition LM (A : Type) : Type :=
  ClientBridge * list bytes → result CoreError A * (ClientBridge * list bytes).
#[global] Instance lm_ret : MRet LM := λ A a s, (Ok a, s).
#[global] Instance lm_bind : MBind LM := λ A B f m s,
  match m s with (Ok a, s) => f a s | (Err e, s) => (Err e, s) end.
Definition lm_result {A} (r : result CoreError A) : LM A := λ s, (r, s).
Definition lm_read : LM PacketFrame := λ s,
  let '(r, c, ci) := cb_read_frame s.1 s.2 in
  (match r with Ok (Some f) => Ok f | Ok None => Err ConnectionClosed | Err e => Err e end, (c, ci)).
Definition lm_write (frame : PacketFrame) : LM () := λ s,
  let '(r, c) := cb_write_frame frame s.1 in (r, (c, s.2)).
Definition lm_set_state (st : ConnectionState) : LM () := λ s, (Ok (), (cb_set_state st s.1, s.2)).
Fixpoint lm_write_all (frames : list PacketFrame) : LM () :=
  match frames with [] => mret () | f :: frames => _ ← lm_write f; lm_write_all frames end.

(** [time]: how many reads complete before the limit. *)
Fixpoint limbo_absorb_until (target_id : option Z) (timeout_message : string) (time : nat) : LM () :=
  match time with
  | O => lm_result (Err (CTimeout timeout_message))
  | S time =>
    frame ← lm_read;
    if decide (Some (frame_id frame) = target_id) then mret () else limbo_absorb_until target_id timeout_message time
  end.

Definition finish_config_frame (version : ProtocolVersion) : result CoreError PacketFrame :=
  match get_packet_id registry KCFinishConfig Config Clientbound version with
  | None => Err (COther ("no packet ID for CFinishConfig in Config/Clientbound/" +:+ version_debug version))
  | Some finish_id =>
    match encode_payload (existT KCFinishConfig mk_CFinishConfig) version with
    | Ok payload => Ok (mk_frame finish_id payload)
    | Err e => Err (COther (protocol_error_display e))
    end
  end.

(** The cache's answers; the two limits are separate. *)
Definition complete_config_for_limbo (known_packs : result CoreError (option PacketFrame))
    (registry_frames : result CoreError (list PacketFrame)) (version : ProtocolVersion) (time1 time2 : nat) : LM () :=
  _ ← (match known_packs with
       | Ok (Some kp_frame) =>
         _ ← lm_write kp_frame;
         limbo_absorb_until (get_packet_id registry KSKnownPacks Config Serverbound version)
           "limbo login: client did not send KnownPacks in time" time1
       | _ => mret ()
       end);
  frames ← lm_result registry_frames;
  _ ← lm_write_all frames;
  finish_frame ← lm_result (finish_config_frame version);
  _ ← lm_write finish_frame;
  _ ← limbo_absorb_until (get_packet_id registry KSAcknowledgeFinishConfig Config Serverbound version)
        "limbo login: client did not acknowledge finish config in time" time2;
  lm_set_state Play.
End login.

(** ** Handlers and their sessions *)

Inductive HandlerResult :=
| HAccept
| HDeny (reason : Component)
| HHold
| HRedirect (server : rstring)
| HSendToLimbo (handlers : list rstring)
| HHoldWithTimeout (after : Z) (on_timeout : HandlerResult).

Inductive SessionEndReason := Disconnected | Released | Kicked | Redirected | TimedOut | EndShutdown.

Definition OUTGOING_CHANNEL_SIZE : nat := 64.

(** What a plugin asks of a session, and the answer. *)
Inductive SessionOp :=
| OpSendMessage (message : Component)
| OpSendTitle (title : TitleData)
| OpSendActionBar (message : Component)
| OpComplete (result : HandlerResult)
| OpCompleteScoped (hold_id : Z) (result : HandlerResult)
| OpHandle.
Inductive reply := ReplySent (r : result CoreError ()) | ReplyDone | ReplyHold (hold_id : Z).

Inductive Script (W A : Type) :=
| Return (w : W) (a : A)
| Perform (op : SessionOp) (k : reply → Script W A).
Arguments Return {W A} w a.
Arguments Perform {W A} op k.

Record LimboHandler (W : Type) := {
  lh_name : rstring;
  on_player_enter : W → Script W HandlerResult;
  on_command : rstring → list rstring → W → Script W ();
  on_chat : rstring → W → Script W ();
  on_disconnect : Z → W → W;
  on_session_end : Z → SessionEndReason → W → W }.
Arguments lh_name {W} l.
Arguments on_player_enter {W} l.
Arguments on_command {W} l.
Arguments on_chat {W} l.
Arguments on_disconnect {W} l.
Arguments on_session_end {W} l.

Section limbo.
Context `{CF : Cfb8, ZL : Zlib, UT : UuidText, LC : Lowercase} {W H : Type}.
Context (registry : PacketRegistry) (version : ProtocolVersion) (player_id : Z).
Context (command_manager : CommandManagerImpl H).

(** A player in limbo: the client, the queue of outgoing frames, the value of the completion
    channel and whether it is new, the number of the hold, and the plugins' state. *)
Record LimboState := mk_Limbo {
  li_client : ClientBridge;
  li_client_in : list bytes;
  li_outgoing : list PacketFrame;
  li_complete : option HandlerResult;
  li_changed : bool;
  li_hold_seq : Z;
  li_keepalive : KeepAliveState;
  li_world : W;
  li_ran : list (H * CommandContext) }.

Definition with_client (c : ClientBridge) (ci : list bytes) (s : LimboState) : LimboState :=
  mk_Limbo c ci (li_outgoing s) (li_complete s) (li_changed s) (li_hold_seq s) (li_keepalive s) (li_world s) (li_ran s).
Definition with_outgoing (q : list PacketFrame) (s : LimboState) : LimboState :=
  mk_Limbo (li_client s) (li_client_in s) q (li_complete s) (li_changed s) (li_hold_seq s) (li_keepalive s)
    (li_world s) (li_ran s).
Definition with_complete (r : option HandlerResult) (changed : bool) (s : LimboState) : LimboState :=
  mk_Limbo (li_client s) (li_client_in s) (li_outgoing s) r changed (li_hold_seq s) (li_keepalive s)
    (li_world s) (li_ran s).
Definition with_keepalive (k : KeepAliveState) (s : LimboState) : LimboState :=
  mk_Limbo (li_client s) (li_client_in s) (li_outgoing s) (li_complete s) (li_changed s) (li_hold_seq s) k
    (li_world s) (li_ran s).
Definition with_world (w : W) (s : LimboState) : LimboState :=
  mk_Limbo (li_client s) (li_client_in s) (li_outgoing s) (li_complete s) (li_changed s) (li_hold_seq s)
    (li_keepalive s) w (li_ran s).
Definition with_ran (r : list (H * CommandContext)) (s : LimboState) : LimboState :=
  mk_Limbo (li_client s) (li_client_in s) (li_outgoing s) (li_complete s) (li_changed s) (li_hold_seq s)
    (li_keepalive s) (li_world s) r.

(** [hold_seq.fetch_add(1)], a [u64]. *)
Definition begin_handler (s : LimboState) : LimboState :=
  mk_Limbo (li_client s) (li_client_in s) (li_outgoing s) (li_complete s) (li_changed s)
    (wrap_u 64 (li_hold_seq s + 1)) (li_keepalive s) (li_world s) (li_ran s).

(** [client_sender.try_send]. *)
Definition try_send (frame : PacketFrame) (s : LimboState) : result CoreError () * LimboState :=
  if decide (length (li_outgoing s) < OUTGOING_CHANNEL_SIZE)%nat
  then (Ok (), with_outgoing (li_outgoing s ++ [frame]) s)
  else (Err (COther "no available capacity"), s).
Fixpoint try_send_all (frames : list PacketFrame) (s : LimboState) : result CoreError () * LimboState :=
  match frames with
  | [] => (Ok (), s)
  | f :: frames => match try_send f s with (Ok _, s) => try_send_all frames s | r => r end
  end.

Definition complete_scoped (hold_id : Z) (result : HandlerResult) (s : LimboState) : LimboState :=
  if decide (hold_id = li_hold_seq s) then with_complete (Some result) true s else s.

Definition session_op (op : SessionOp) (s : LimboState) : reply * LimboState :=
  let send frames :=
    match frames with
    | Err e => (ReplySent (Err e), s)
    | Ok frames => let '(r, s) := try_send_all frames s in (ReplySent r, s)
    end in
  match op with
  | OpSendMessage message => send ((λ f, [f]) <$> build_system_chat_message registry message version)
  | OpSendTitle title => send (build_title_packets registry title version)
  | OpSendActionBar message => send ((λ f, [f]) <$> build_action_bar registry message version)
  | OpComplete result => (ReplyDone, complete_scoped (li_hold_seq s) result s)
  | OpCompleteScoped hold_id result => (ReplyDone, complete_scoped hold_id result s)
  | OpHandle => (ReplyHold (li_hold_seq s), s)
  end.

Fixpoint run_script {A} (script : Script W A) (s : LimboState) : A * LimboState :=
  match script with
  | Return w a => (a, with_world w s)
  | Perform op k => let '(r, s) := session_op op s in run_script (k r) s
  end.

(** ** The chain of handlers *)

Inductive LimboChainResult :=
| LCompleted
| LSwitch (server : rstring)
| LKick (reason : Component)
| LClientDisconnected
| LShutdown
| LTimeout
| LSendToLimbo (handlers : list rstring)
| LPanicked.

Record HoldTimeout := { ht_after : Z; ht_on_timeout : HandlerResult }.
Inductive HandlerAction :=
| HContinue
| HExit (r : LimboChainResult)
| HHolding (t : option HoldTimeout).

Definition process_handler_result (r : HandlerResult) : HandlerAction :=
  match r with
  | HAccept => HContinue
  | HDeny reason => HExit (LKick reason)
  | HRedirect server => HExit (LSwitch server)
  | HSendToLimbo handlers => HExit (LSendToLimbo handlers)
  | HHold => HHolding None
  | HHoldWithTimeout after on_timeout =>
    HHolding (Some (Build_HoldTimeout after
      (match on_timeout with HHold | HHoldWithTimeout _ _ => HAccept | other => other end)))
  end.

(** What happens during a hold; [PluginTask] is an operation a task does on its handle. *)
Inductive hold_event :=
| ClientFrame
| OutgoingReady
| KeepaliveDue (c : clock)
| CompletionReady
| CancelRequested
| HoldTimedOut
| PluginTask (op : SessionOp) (w : W).

Definition client_message (handler : LimboHandler W) (msg : ClientMessage) (s : LimboState) : LimboState :=
  match msg with
  | LimboCommand name args =>
    let input := if decide (args = []) then name else name ++ [32] ++ join_args args in
    match dispatch_command (Some player_id) input command_manager with
    | Some run => with_ran (li_ran s ++ [run]) s
    | None => (run_script (on_command handler name args (li_world s)) s).2
    end
  | LimboChat message => (run_script (on_chat handler message (li_world s)) s).2
  end.

Definition hold_frame (handler : LimboHandler W) (frame : PacketFrame) (s : LimboState) : LimboState :=
  if is_keepalive_response registry frame version then
    match extract_keepalive_id frame version with
    | Some id => with_keepalive (ka_on_response id (li_keepalive s)).2 s
    | None => s
    end
  else
    match parse_client_message registry frame version with
    | Some msg => client_message handler msg s
    | None => s
    end.

(** One event; [None] goes on waiting.  A branch that is not ready is not taken. *)
Definition hold_step (handler : LimboHandler W) (timeout : option HoldTimeout) (event : hold_event) (s : LimboState)
    : option HandlerAction * LimboState :=
  match event with
  | ClientFrame =>
    let '(r, c, ci) := cb_read_frame (li_client s) (li_client_in s) in
    let s := with_client c ci s in
    match r with
    | Ok (Some frame) => (None, hold_frame handler frame s)
    | Ok None | Err _ => (Some (HExit LClientDisconnected), s)
    end
  | OutgoingReady =>
    match li_outgoing s with
    | [] => (None, s)
    | frame :: q =>
      match cb_write_frame frame (li_client s) with
      | (Ok _, c) => (None, with_client c (li_client_in s) (with_outgoing q s))
      | (Err _, c) => (Some (HExit LClientDisconnected), with_client c (li_client_in s) (with_outgoing q s))
      end
    end
  | KeepaliveDue clock =>
    match ka_tick registry clock version (li_keepalive s) with
    | (Ok (KASend frame), k) =>
      let '(r, c) := cb_write_frame frame (li_client s) in
      let s := with_client c (li_client_in s) (with_keepalive k s) in
      (match r with Ok _ => None | Err _ => Some (HExit LClientDisconnected) end, s)
    | (Ok KAIdle, k) => (None, with_keepalive k s)
    | (Ok KATimeout, k) | (Err _, k) => (Some (HExit LTimeout), with_keepalive k s)
    end
  | CompletionReady =>
    if li_changed s then
      (process_handler_result <$> li_complete s, with_complete (li_complete s) false s)
    else (None, s)
  | CancelRequested => (Some (HExit LShutdown), s)
  | HoldTimedOut => (process_handler_result <$> (ht_on_timeout <$> timeout), s)
  | PluginTask op w => (None, with_world w (session_op op s).2)
  end.

(** [None] when the schedule ends first; what is left of it otherwise. *)
Fixpoint wait_for_hold (handler : LimboHandler W) (timeout : option HoldTimeout) (events : list hold_event)
    (s : LimboState) : option HandlerAction * list hold_event * LimboState :=
  match events with
  | [] => (None, [], s)
  | event :: events =>
    match hold_step handler timeout event s with
    | (Some action, s) => (Some action, events, s)
    | (None, s) => wait_for_hold handler timeout events s
    end
  end.

(** The spawn sequence, or the kick when it fails. *)
Definition spawn_for_hold (needs_join_game : bool) (s : LimboState) : option LimboChainResult * LimboState :=
  match send_spawn_sequence version registry needs_join_game (li_client s) with
  | (Some (Ok _), c) => (None, with_client c (li_client_in s) s)
  | (Some (Err _), c) => (Some (LKick (component_text (str "Internal error"))), with_client c (li_client_in s) s)
  | (None, c) => (Some LPanicked, with_client c (li_client_in s) s)
  end.

Fixpoint run_handler_chain (handlers : list (LimboHandler W)) (needs_join_game spawn_sent : bool)
    (events : list hold_event) (s : LimboState) : option LimboChainResult * LimboState :=
  match handlers with
  | [] => (Some LCompleted, s)
  | handler :: handlers =>
    let s := begin_handler s in
    let '(result, s) := run_script (on_player_enter handler (li_world s)) s in
    match process_handler_result result with
    | HContinue => run_handler_chain handlers needs_join_game spawn_sent events s
    | HExit chain_result => (Some chain_result, s)
    | HHolding timeout =>
      let '(failed, s) := if spawn_sent then (None, s) else spawn_for_hold needs_join_game s in
      match failed with
      | Some chain_result => (Some chain_result, s)
      | None =>
        match wait_for_hold handler timeout events s with
        | (None, _, s) => (None, s)
        | (Some HContinue, events, s) => run_handler_chain handlers needs_join_game true events s
        | (Some (HExit chain_result), _, s) => (Some chain_result, s)
        | (Some (HHolding _), _, s) => (Some LPanicked, s)
        end
      end
    end
  end.

(** ** The engine *)

Inductive LimboExitResult :=
| ExitCompleted
| ExitSwitchedTo (server : rstring)
| ExitKicked
| ExitClientDisconnected
| ExitShutdown
| ExitTimeout
| ExitSendToLimbo (handlers : list rstring)
| ExitPanicked.

Definition fire_on_disconnect (handlers : list (LimboHandler W)) (w : W) : W :=
  foldl (λ w h, on_disconnect h player_id w) w handlers.
Definition fire_on_session_end (handlers : list (LimboHandler W)) (reason : SessionEndReason) (w : W) : W :=
  foldl (λ w h, on_session_end h player_id reason w) w handlers.

Definition end_reason (r : LimboChainResult) : option SessionEndReason :=
  match r with
  | LCompleted => Some Released
  | LSwitch _ => Some Redirected
  | LKick _ => Some Kicked
  | LClientDisconnected => Some Disconnected
  | LShutdown => Some EndShutdown
  | LTimeout => Some TimedOut
  | LSendToLimbo _ | LPanicked => None
  end.

Definition send_disconnect (reason : Component) (s : LimboState) : LimboState :=
  match build_disconnect registry reason version with
  | Ok frame => with_client (cb_write_frame frame (li_client s)).2 (li_client_in s) s
  | Err _ => s
  end.

Definition map_chain_result (r : LimboChainResult) (handlers : list (LimboHandler W)) (s : LimboState)
    : LimboExitResult * LimboState :=
  let s := match end_reason r with
           | Some reason => with_world (fire_on_session_end handlers reason (li_world s)) s
           | None => s
           end in
  match r with
  | LCompleted => (ExitCompleted, s)
  | LSwitch server => (ExitSwitchedTo server, s)
  | LKick reason => (ExitKicked, send_disconnect reason s)
  | LClientDisconnected => (ExitClientDisconnected, with_world (fire_on_disconnect handlers (li_world s)) s)
  | LShutdown => (ExitShutdown, s)
  | LTimeout => (ExitTimeout, s)
  | LSendToLimbo names => (ExitSendToLimbo names, s)
  | LPanicked => (ExitPanicked, s)
  end.

Definition limbo_state (client : ClientBridge) (client_in : list bytes) (now : Z) (w : W) : LimboState :=
  mk_Limbo client client_in [] None false 0 (KeepAliveState_new now) w [].

Definition enter_limbo (handlers : list (LimboHandler W)) (events : list hold_event) (s : LimboState)
    : option LimboExitResult * LimboState :=
  match run_handler_chain handlers true false events s with
  | (None, s) => (None, s)
  | (Some r, s) => let '(exit, s) := map_chain_result r handlers s in (Some exit, s)
  end.
End limbo.

(** ** When a client is given up *)

Section keepalive_proofs.
Context `{UT : UuidText} (registry : PacketRegistry) (v : ProtocolVersion).

Inductive ka_event := KATick (c : clock) | KAResponse (id : Z).

Definition ka_step (e : ka_event) (s : KeepAliveState) : KeepAliveState :=
  match e with
  | KATick c => (ka_tick registry c v s).2
  | KAResponse id => (ka_on_response id s).2
  end.
Definition ka_run (es : list ka_event) (s : KeepAliveState) : KeepAliveState := foldl (λ s e, ka_step e s) s es.

(** The id of the ping that a tick sends. *)
Definition ping_id (c : clock) : Z := if less_than v V1_12_2 then clk_random c else wrap_s 64 (clk_unix_millis c).

(** The ping that a history leaves unanswered, from the events alone: a tick sends one if
    there is none, and an answer settles it if it has its id. *)
Fixpoint outstanding (es : list ka_event) (ping : option clock) : option clock :=
  match es, ping with
  | [], _ => ping
  | KATick c :: es, None => outstanding es (Some c)
  | KATick _ :: es, Some c => outstanding es (Some c)
  | KAResponse _ :: es, None => outstanding es None
  | KAResponse id :: es, Some c => outstanding es (if decide (id = ping_id c) then None else Some c)
  end.

Lemma ka_step_tick c s :
  ka_step (KATick c) s =
  if ka_awaiting_response s then s else mk_KeepAlive (ping_id c) (clk_now c) true.
Proof.
  unfold ka_step, ka_tick, ping_id. destruct (ka_awaiting_response s); [done|].
  by destruct (encode_packet _ _ _).
Qed.

(** The state knows the outstanding ping. *)
Definition ka_knows (s : KeepAliveState) (ping : option clock) : Prop :=
  match ping with
  | None => ka_awaiting_response s = false
  | Some c => s = mk_KeepAlive (ping_id c) (clk_now c) true
  end.

Lemma ka_run_knows es : ∀ s ping, ka_knows s ping → ka_knows (ka_run es s) (outstanding es ping).
Proof.
  induction es as [|[c|id] es IH]; intros s ping Hk; [done|..]; cbn [ka_run foldl outstanding].
  - rewrite ka_step_tick. destruct ping as [c0|]; cbn in Hk.
    + subst s. by apply IH.
    + rewrite Hk. by apply IH.
  - unfold ka_step, ka_on_response. destruct ping as [c0|]; cbn in Hk.
    + subst s. cbn. case_decide; by apply IH.
    + case_decide; by apply IH.
Qed.

(** C21: In every history of ticks and answers, a tick sends a ping if none is outstanding
    (sent by an earlier tick and not answered since with its id), or fails if the ping
    cannot be encoded; if one is, it sends nothing, and gives the client up exactly when that ping is fifteen seconds old. *)
Theorem limbo_keepalive_exact (start : Z) (es : list ka_event) (c : clock) :
  (ka_tick registry c v (ka_run es (KeepAliveState_new start))).1 =
    match outstanding es None with
    | None => KASend <$> encode_packet registry (existT KCKeepAlive (mk_CKeepAlive (ping_id c))) v
    | Some sent => Ok (if decide (15000 ≤ clk_now c - clk_now sent) then KATimeout else KAIdle)
    end.
Proof.
  pose proof (ka_run_knows es (KeepAliveState_new start) None eq_refl) as Hk.
  unfold ka_tick. destruct (outstanding es None) as [sent|]; cbn in Hk; rewrite Hk; [done|].
  unfold ping_id. by destruct (encode_packet _ _ _).
Qed.
End keepalive_proofs.

(** ** Entering limbo *)

Section login_proofs.
Context `{CF : Cfb8, ZL : Zlib, UT : UuidText, ZLL : !ZlibLaws} (registry : PacketRegistry).
(** All the client's socket will have been sent, and what is left unread of it. *)
Context (wc rc : bytes).

(** The client is to send [fs] and to be sent [co]. *)
Record client_live (fs co : list PacketFrame) (s : ClientBridge * list bytes) : Prop := {
  cl_chunks : Forall (λ c, c ≠ []) s.2;
  cl_from : ∃ plain, framed (dec_threshold (cb_decoder s.1)) fs plain ∧ pending s.1 s.2 = plain ++ rc;
  cl_to : ∃ oc, framed (enc_threshold (cb_encoder s.1)) co oc ∧
    cb_written s.1 ++ (encrypt_opt (cb_encrypt s.1) oc).1 = wc;
  cl_buf : enc_buf (cb_encoder s.1) = [] }.

Lemma lm_step {A B} (m : LM A) (k : A → LM B) s a s1 : m s = (Ok a, s1) → (m ≫= k) s = k a s1.
Proof. intros Hm. cbv [mbind lm_bind]. by rewrite Hm. Qed.

Lemma client_live_read f fs co s :
  client_live (f :: fs) co s → ∃ s', lm_read s = (Ok f, s') ∧ client_live fs co s'.
Proof using ZLL.
  intros [Hcn (plain&Hfr&Hp) Htc Hcb]. destruct s as [c ci]. cbn [fst snd] in *.
  inversion Hfr as [|? ? inb inrest [Hid Hsz] Hin Hfr' Heq1 Heq2]. subst plain. rewrite <- app_assoc in Hp.
  destruct f as [id data]. cbn [frame_id payload] in *.
  destruct (cb_read_frame_next _ _ _ _ _ _ Hid Hsz Hin Hcn Hp) as (c'&ci'&Hr&Hpend&Hcn'&Hth).
  pose proof (cb_read_frame_keeps c ci) as Hk. rewrite Hr in Hk. cbn in Hk. destruct Hk as (Hkv&Hks&Hke&Hkc&Hkw).
  eexists. split; [unfold lm_read; cbn [fst snd]; by rewrite Hr|].
  split; cbn; try done; [|by rewrite Hke, Hkc, Hkw|by rewrite Hke]. rewrite Hth. eauto.
Qed.

Lemma client_live_write f fs co s :
  client_live fs (f :: co) s → ∃ s', lm_write f s = (Ok (), s') ∧ client_live fs co s'.
Proof.
  intros [Hcn Hfc (oc&Hfr&Hw) Hcb]. destruct s as [c ci]. cbn [fst snd] in *.
  inversion Hfr as [|? ? fb rest Hs Hout Hfr' Heq1 Heq2]. subst oc.
  unfold lm_write, cb_write_frame, cb_write, append_raw. cbn [fst snd]. rewrite Hout.
  cbn [enc_take enc_buf enc_threshold]. rewrite Hcb. cbn [app].
  destruct (encrypt_opt (cb_encrypt c) fb) as [out k] eqn:He.
  eexists. split; [reflexivity|]. split; cbn; try done. exists rest. split; [done|].
  rewrite encrypt_opt_app, He in Hw. cbn in Hw. by rewrite <- app_assoc.
Qed.

Lemma client_live_write_all frames fs co s :
  client_live fs (frames ++ co) s → ∃ s', lm_write_all frames s = (Ok (), s') ∧ client_live fs co s'.
Proof.
  revert s. induction frames as [|f frames IH]; intros s Hs; [by exists s|].
  destruct (client_live_write _ _ _ _ Hs) as (s1&Hw&Hs1). cbn [lm_write_all]. rewrite (lm_step _ _ _ _ _ Hw). by apply IH.
Qed.

Lemma client_live_absorb wanted msg skipped f time fs co s :
  Forall (λ f, Some (frame_id f) ≠ wanted) skipped → Some (frame_id f) = wanted → (length skipped < time)%nat →
  client_live (skipped ++ f :: fs) co s →
  ∃ s', limbo_absorb_until wanted msg time s = (Ok (), s') ∧ client_live fs co s'.
Proof using ZLL.
  intros Hs Hf. revert time s. induction Hs as [|g skipped Hg Hs IH]; intros time s Ht Hl; (destruct time as [|time];
    [cbn in Ht; lia|]); cbn [app limbo_absorb_until]; destruct (client_live_read _ _ _ _ Hl) as (s1&Hr&Hs1);
    rewrite (lm_step _ _ _ _ _ Hr).
  - rewrite decide_True by done. by exists s1.
  - rewrite decide_False by done. apply IH; [cbn in Ht; lia|done].
Qed.

(** What the client sends for the known packs, if it is asked. *)
Definition packs_exchange (kp : option PacketFrame) (v : ProtocolVersion) (time : nat) (fs : list PacketFrame) : Prop :=
  match kp with
  | None => fs = []
  | Some _ => ∃ skipped answer, fs = skipped ++ [answer] ∧ (length skipped < time)%nat ∧
      Some (frame_id answer) = get_packet_id registry KSKnownPacks Config Serverbound v ∧
      Forall (λ f, Some (frame_id f) ≠ get_packet_id registry KSKnownPacks Config Serverbound v) skipped
  end.

(** A player who is to enter limbo is taken through the configuration phase: it is sent
    the known packs, if there are any, the registry frames and the end of the phase,
    exactly these and in this order, whatever else it sends in between, and ends in the
    play phase with what it sent afterwards left for the session. *)
Theorem limbo_login_completes (v : ProtocolVersion) (kp : option PacketFrame) (frames : list PacketFrame)
    (finish ack : PacketFrame) (packs skipped later : list PacketFrame) (time1 time2 : nat)
    (s : ClientBridge * list bytes) :
  packs_exchange kp v time1 packs → finish_config_frame registry v = Ok finish →
  Some (frame_id ack) = get_packet_id registry KSAcknowledgeFinishConfig Config Serverbound v →
  Forall (λ f, Some (frame_id f) ≠ get_packet_id registry KSAcknowledgeFinishConfig Config Serverbound v) skipped →
  (length skipped < time2)%nat →
  client_live (packs ++ skipped ++ ack :: later) (option_list kp ++ frames ++ [finish]) s →
  ∃ s', complete_config_for_limbo registry (Ok kp) (Ok frames) v time1 time2 s = (Ok (), s') ∧
    cb_state s'.1 = Play ∧ cb_written s'.1 = wc ∧ client_live later [] s'.
Proof using ZLL.
  intros Hp Hfin Hack Hsk Ht Hl. unfold complete_config_for_limbo.
  assert (H1 : ∃ s1, (match (Ok kp : result CoreError (option PacketFrame)) with
       | Ok (Some kp_frame) =>
         _ ← lm_write kp_frame;
         limbo_absorb_until (get_packet_id registry KSKnownPacks Config Serverbound v)
           "limbo login: client did not send KnownPacks in time" time1
       | _ => mret ()
       end : LM ()) s = (Ok (), s1) ∧ client_live (skipped ++ ack :: later) (frames ++ [finish]) s1).
  { destruct kp as [kp|]; cbn in Hp.
    - destruct Hp as (pre&answer&->&Hlt&Ha&Hpre). destruct (client_live_write _ _ _ _ Hl) as (s1&Hw&Hs1).
      rewrite (lm_step _ _ _ _ _ Hw). rewrite <- app_assoc in Hs1. by eapply client_live_absorb.
    - subst packs. by exists s. }
  destruct H1 as (s1&Hr1&Hs1). rewrite (lm_step _ _ _ _ _ Hr1).
  rewrite (lm_step _ _ s1 frames s1) by done.
  destruct (client_live_write_all _ _ _ _ Hs1) as (s2&Hr2&Hs2). rewrite (lm_step _ _ _ _ _ Hr2).
  rewrite Hfin. rewrite (lm_step _ _ s2 finish s2) by done.
  destruct (client_live_write _ _ _ _ Hs2) as (s3&Hr3&Hs3). rewrite (lm_step _ _ _ _ _ Hr3).
  destruct (client_live_absorb _ "limbo login: client did not acknowledge finish config in time" skipped ack time2
    later [] s3 Hsk Hack Ht Hs3) as (s4&Hr4&Hs4).
  rewrite (lm_step _ _ _ _ _ Hr4). eexists. split; [reflexivity|]. destruct Hs4 as [Hcn Hfc (oc&Hfr&Hw) Hcb].
  split_and!; [done| |by split; eauto]. inversion Hfr. subst oc. cbn. rewrite <- Hw.
  destruct (cb_encrypt s4.1); cbn; by rewrite app_nil_r.
Qed.
End login_proofs.

(** ** Sample players in limbo *)

Section sample.
#[local] Existing Instances toy_cfb8 stored_zlib hex_uuid ascii_lowercase.

Lemma limbo_login_completes_witness :
  ∃ s, complete_config_for_limbo build_default_registry (Ok (Some (mk_frame 14 [0]))) (Ok [mk_frame 7 [1]; mk_frame 7 [2]])
      V1_21 3 1 (cb_set_state Config (ClientBridge_new [] V1_21),
                 [of_frames [mk_frame 0 [1]; mk_frame 7 [0]; mk_frame 3 []; mk_frame 27 []]]) = (Ok (), s) ∧
    cb_state s.1 = Play ∧ cb_written s.1 = of_frames [mk_frame 14 [0]; mk_frame 7 [1]; mk_frame 7 [2]; mk_frame 3 []].
Proof.
  destruct (limbo_login_completes (ZLL := stored_zlib_laws) build_default_registry
    (of_frames [mk_frame 14 [0]; mk_frame 7 [1]; mk_frame 7 [2]; mk_frame 3 []]) []
    V1_21 (Some (mk_frame 14 [0])) [mk_frame 7 [1]; mk_frame 7 [2]] (mk_frame 3 []) (mk_frame 3 [])
    [mk_frame 0 [1]; mk_frame 7 [0]] [] [mk_frame 27 []] 3 1 (cb_set_state Config (ClientBridge_new [] V1_21),
      [of_frames [mk_frame 0 [1]; mk_frame 7 [0]; mk_frame 3 []; mk_frame 27 []]])) as (s&Hr&Hst&Hw&_);
    [| | | | | |exists s; split; [exact Hr|split; [exact Hst|exact Hw]]].
  - exists [mk_frame 0 [1]], (mk_frame 7 [0]). split_and!; [done|cbn; lia|by vm_compute|].
    apply Forall_singleton. by vm_compute.
  - by vm_compute.
  - by vm_compute.
  - constructor.
  - cbn. lia.
  - split; [by vm_compute; repeat constructor| | |done].
    + exists (of_frames [mk_frame 0 [1]; mk_frame 7 [0]; mk_frame 3 []; mk_frame 27 []]). split; [|by vm_compute].
      apply frames_bytes_framed; [|by vm_compute]. apply (bool_decide_unpack _). by vm_compute.
    + exists (of_frames [mk_frame 14 [0]; mk_frame 7 [1]; mk_frame 7 [2]; mk_frame 3 []]). split; [|by vm_compute].
      apply frames_bytes_framed; [|by vm_compute]. apply (bool_decide_unpack _). by vm_compute.
Defined.

(** Handlers that return at once, after the operations given. *)
Definition scripted (name : string) (ops : list SessionOp) (r : HandlerResult) : LimboHandler () := {|
  lh_name := str name;
  on_player_enter w := foldr (λ op k, Perform op (λ _, k)) (Return w r) ops;
  on_command _ _ w := Return w ();
  on_chat _ w := Return w ();
  on_disconnect _ w := w;
  on_session_end _ _ w := w |}.

Definition chain_outcome (handlers : list (LimboHandler ())) (events : list (hold_event (W := ()))) : option LimboExitResult :=
  (enter_limbo build_default_registry V1_21 7 (command_manager_new (H := ())) handlers events
     (limbo_state (cb_set_state Play (ClientBridge_new [] V1_21)) [] 0 ())).1.

Theorem stale_completion_releases_next_hold :
  chain_outcome [scripted "auth" [] HHold] [CompletionReady] = None ∧
  chain_outcome [scripted "greeter" [OpComplete HAccept] HAccept; scripted "auth" [] HHold] [CompletionReady] =
    Some ExitCompleted.
Proof. split; by vm_compute. Qed.

Theorem completing_with_hold_panics :
  chain_outcome [scripted "auth" [] HHold] [PluginTask (OpCompleteScoped 1 HHold) (); CompletionReady] =
    Some ExitPanicked.
Proof. by vm_compute. Qed.
End sample.
