(* ===== verification/Wake.v ===== *)
(** * Wake: players wait in limbo until their server is up

    Models the plugin [plugins/infrarust-plugin-server-wake] (handler.rs, state.rs, lib.rs,
    config.rs) and the bridge to the server manager it uses
    ([services/server_manager_bridge.rs]).  The plugin's limbo handler starts the server of
    a player that enters limbo and holds the player; a callback on the changes of server
    states releases the players that wait for a server when it is online.

    [wake_handler] is the handler as [Limbo] runs it.  [wake_step] is the plugin with many
    players on a runtime with many threads: an entry is cut between its read of the server's
    state, its request to start the server, the provider's answer and the moment it is
    written down; a change of a server's state is cut between the write and the callback;
    and the callback is cut between its look at who waits and each answer.  Anything may
    come in between. *)
From S2P Require Import Prelude Wire Utf8 VarInt Codec Frame Version Packet LoginPackets PlayPackets Nbt.
From S2P Require Import Component Registry DefaultRegistry Bridge Config Router Middleware ServerManager Forwarding.
From S2P Require Import Backend EventBus Filters ProxyCommands Session LimboWorld Transport Switch Limbo.

(** ** Server states as plugins see them *)

Inductive ApiServerState := AOnline | AOffline | AStarting | AStopping | ASleeping | ACrashed.
#[export] Instance ApiServerState_eq_dec : EqDecision ApiServerState.
Proof. solve_decision. Defined.

Definition convert_state (s : ServerState) : ApiServerState :=
  match s with
  | Online => AOnline | Starting => AStarting | Stopping => AStopping
  | Sleeping => ASleeping | Crashed => ACrashed
  | Unknown => AOffline
  end.

(** ** Configuration *)

Record TimingConfig := {
  tc_start_timeout_seconds : Z;
  tc_title_refresh_interval_seconds : Z;
  tc_show_waiting_count : bool }.
Definition TimingConfig_default : TimingConfig := Build_TimingConfig 180 3 true.

Record ServerWakeMessages := {
  wm_starting_title : rstring;
  wm_starting_subtitle : rstring;
  wm_stopping_title : rstring;
  wm_stopping_subtitle : rstring;
  wm_ready_title : rstring;
  wm_ready_subtitle : rstring;
  wm_failed_kick : rstring;
  wm_timeout_kick : rstring;
  wm_waiting_action_bar : rstring }.
Definition ServerWakeMessages_default : ServerWakeMessages :=
  Build_ServerWakeMessages (str "&eServer Starting") (str "&7Please wait&f{dots}")
    (str "&eServer Restarting") (str "&7Waiting for shutdown&f{dots}") (str "&aServer Ready!")
    (str "&7Connecting you now...") (str "&cThe server failed to start. Please try again later.")
    (str "&cThe server took too long to start. Please try again.")
    (str "&7{count} player(s) waiting for &e{server}").

Record ServerWakeConfig := { wc_timing : TimingConfig; wc_messages : ServerWakeMessages }.
Definition ServerWakeConfig_default : ServerWakeConfig :=
  Build_ServerWakeConfig TimingConfig_default ServerWakeMessages_default.

(** [load_or_create_config]: the file, when there is one, and what reading and parsing it
    gives; otherwise the default, which is written, the write being allowed to fail. *)
Definition load_or_create_config (file : option (result rstring ServerWakeConfig)) (write : result rstring ())
    : result rstring ServerWakeConfig :=
  match file with
  | Some r => r
  | None => match write with Ok _ => Ok ServerWakeConfig_default | Err e => Err e end
  end.

(** ** Who waits *)

(** The handle of a session is the hold it was made in. *)
Record WaitingEntry := {
  we_target_server : rstring;
  we_session_handle : Z;
  we_started_waiting : Z;
  we_tick : Z }.

Definition animated_dots (tick : Z) : rstring :=
  if decide (tick mod 3 = 0) then str "." else if decide (tick mod 3 = 1) then str ".." else str "...".

Section wake.
Context {WM SM : Type} `{!DashMap Z WaitingEntry WM} `{!DashMap rstring ServerEntry SM}.
Context (config : ServerWakeConfig).
Abbreviation messages := (wc_messages config).
Abbreviation timing := (wc_timing config).

Definition players_waiting_for (server : rstring) (waiting : WM) : list Z :=
  (filter (λ e, we_target_server e.2 = server) (dm_iter waiting)).*1.
Definition waiting_count_for (server : rstring) (waiting : WM) : Z :=
  zlen (filter (λ e, we_target_server e.2 = server) (dm_iter waiting)).

(** ** Titles *)

Definition fade_in (ticks : Z) (t : TitleData) : TitleData :=
  mk_TitleData (td_title t) (td_subtitle t) ticks (td_stay_ticks t) (td_fade_out_ticks t).
Definition stay (ticks : Z) (t : TitleData) : TitleData :=
  mk_TitleData (td_title t) (td_subtitle t) (td_fade_in_ticks t) ticks (td_fade_out_ticks t).

Definition build_title (title_tpl subtitle_tpl server : rstring) (tick count : Z) : TitleData :=
  let vars := [(str "server", server); (str "dots", animated_dots tick); (str "count", str (pretty count))] in
  fade_in 0 (TitleData_new (from_legacy_format title_tpl vars) (from_legacy_format subtitle_tpl vars)).

Definition waiting_action_bar (waiting : WM) (server : rstring) : option Component :=
  if tc_show_waiting_count timing then
    Some (from_legacy_format (wm_waiting_action_bar messages)
      [(str "server", server); (str "count", str (pretty (waiting_count_for server waiting)))])
  else None.

(** One tick of the animation of a player: what it sends, or [None] when it ends. *)
Definition animation_tick (player_id : Z) (server : rstring) (waiting : WM) : option (list SessionOp * WM) :=
  entry ← dm_get waiting player_id;
  let tick := wrap_u 32 (we_tick entry + 1) in
  let waiting := dm_insert player_id (Build_WaitingEntry (we_target_server entry) (we_session_handle entry)
                   (we_started_waiting entry) tick) waiting in
  let title := build_title (wm_starting_title messages) (wm_starting_subtitle messages) server tick
                 (waiting_count_for server waiting) in
  Some (OpSendTitle title :: option_list (OpSendActionBar <$> waiting_action_bar waiting server), waiting).

(** ** Entering *)

Definition target_server (ctx : LimboEntryContext) : option rstring :=
  match ctx with
  | InitialConnection target => Some target
  | KickedFromServer server _ => Some server
  | PluginRedirect _ => None
  end.

(** What the state of the server leads to: the player is answered, the server has to be
    started, or the player waits in limbo. *)
Inductive enter_outcome :=
| EnterAnswer (r : HandlerResult)
| EnterStart (target : rstring) (seen : ApiServerState)
| EnterWait (target : rstring) (seen : ApiServerState).

(** [has_manager] is what the configuration service says of a server. *)
Definition failed_kick : HandlerResult := HDeny (from_legacy (wm_failed_kick messages)).
Definition enter_read (has_manager : rstring → option bool) (ctx : LimboEntryContext)
    (service : ServerManagerService (SM := SM)) : enter_outcome :=
  match target_server ctx with
  | None => EnterAnswer (HDeny (component_text (str "Server wake: no target server in entry context")))
  | Some target =>
    match has_manager target with
    | None => EnterAnswer (HDeny (component_text (str "Server wake: unknown server")))
    | Some false => EnterAnswer HAccept
    | Some true =>
      match convert_state <$> get_state service target with
      | None => EnterAnswer HAccept
      | Some AOnline => EnterAnswer HAccept
      | Some ((ASleeping | ACrashed | AOffline) as seen) => EnterStart target seen
      | Some ((AStarting | AStopping) as seen) => EnterWait target seen
      end
    end
  end.

(** With nothing in between, up to the request to the provider. *)
Definition enter_begin (has_manager : rstring → option bool) (ctx : LimboEntryContext)
    (service : ServerManagerService (SM := SM)) : enter_outcome * ServerManagerService (SM := SM) :=
  match enter_read has_manager ctx service with
  | EnterStart target seen =>
    match start_begin target service with
    | (Ok _, service) => (EnterStart target seen, service)
    | (Err _, service) => (EnterAnswer failed_kick, service)
    end
  | outcome => (outcome, service)
  end.

Definition hold_or_timeout : HandlerResult :=
  let timeout_secs := tc_start_timeout_seconds timing in
  if decide (timeout_secs = 0) then HHold
  else HHoldWithTimeout (timeout_secs * 1000) (HDeny (from_legacy (wm_timeout_kick messages))).

(** The player is written down, and told. *)
Definition enter_wait (player_id hold now : Z) (target : rstring) (seen : ApiServerState) (waiting : WM)
    : list SessionOp * WM :=
  let '(title_tpl, subtitle_tpl) :=
    if decide (seen = AStopping) then (wm_stopping_title messages, wm_stopping_subtitle messages)
    else (wm_starting_title messages, wm_starting_subtitle messages) in
  let waiting := dm_insert player_id (Build_WaitingEntry target hold now 0) waiting in
  let title := build_title title_tpl subtitle_tpl target 0 (waiting_count_for target waiting) in
  (OpSendTitle title :: option_list (OpSendActionBar <$> waiting_action_bar waiting target), waiting).

(** ** When a server changes its state *)

(** What is asked of the sessions of players, by their handles. *)
Abbreviation requests := (list (Z * Z * SessionOp)).

Definition answer_waiting (ops : Z → list SessionOp) (acc : requests * WM) (player_id : Z) : requests * WM :=
  match dm_get acc.2 player_id with
  | Some entry =>
    (acc.1 ++ ((λ op, (player_id, we_session_handle entry, op)) <$> ops (we_session_handle entry)),
     dm_remove player_id acc.2)
  | None => acc
  end.

Definition ready_ops (server : rstring) (hold : Z) : list SessionOp :=
  let vars := [(str "server", server)] in
  [OpSendTitle (stay 40 (fade_in 0 (TitleData_new (from_legacy_format (wm_ready_title messages) vars)
                                      (from_legacy_format (wm_ready_subtitle messages) vars))));
   OpCompleteScoped hold HAccept].
Definition crashed_ops (hold : Z) : list SessionOp := [OpCompleteScoped hold failed_kick].

(** What the players who wait for the server are told; most states do not matter. *)
Definition change_ops (server : rstring) (new_state : ApiServerState) : option (Z → list SessionOp) :=
  match new_state with
  | AOnline => Some (ready_ops server)
  | ACrashed => Some crashed_ops
  | _ => None
  end.

Definition handle_state_change (server : rstring) (new_state : ApiServerState) (waiting : WM) : requests * WM :=
  match change_ops server new_state with
  | Some ops => foldl (answer_waiting ops) ([], waiting) (players_waiting_for server waiting)
  | None => ([], waiting)
  end.

(** [on_session_end]. *)
Definition wake_session_end (player_id : Z) (waiting : WM) : WM := dm_remove player_id waiting.

(** ** The handler as a limbo handler *)

(** The state of the plugin, with the server manager and what its providers will answer. *)
Record WakeWorld := {
  ww_waiting : WM;
  ww_service : ServerManagerService (SM := SM);
  ww_now : Z;
  ww_start : rstring → result ServerManagerError () }.

Fixpoint perform_all {A} (ops : list SessionOp) (w : WakeWorld) (a : A) : Script WakeWorld A :=
  match ops with [] => Return w a | op :: ops => Perform op (λ _, perform_all ops w a) end.

Definition wake_wait (player_id : Z) (target : rstring) (seen : ApiServerState) (w : WakeWorld)
    : Script WakeWorld HandlerResult :=
  Perform OpHandle (λ reply,
    let hold := match reply with ReplyHold hold => hold | _ => 0 end in
    let '(ops, waiting) := enter_wait player_id hold (ww_now w) target seen (ww_waiting w) in
    perform_all ops (Build_WakeWorld waiting (ww_service w) (ww_now w) (ww_start w)) hold_or_timeout).

Definition wake_on_player_enter (has_manager : rstring → option bool) (player_id : Z) (ctx : LimboEntryContext)
    (w : WakeWorld) : Script WakeWorld HandlerResult :=
  let '(outcome, service) := enter_begin has_manager ctx (ww_service w) in
  let w := Build_WakeWorld (ww_waiting w) service (ww_now w) (ww_start w) in
  match outcome with
  | EnterAnswer r => Return w r
  | EnterStart target seen =>
    match ww_start w target with
    | Ok _ => wake_wait player_id target seen w
    | Err _ => Return w failed_kick
    end
  | EnterWait target seen => wake_wait player_id target seen w
  end.

Definition wake_handler (has_manager : rstring → option bool) (player_id : Z) (ctx : LimboEntryContext)
    : LimboHandler WakeWorld := {|
  lh_name := str "server_wake";
  on_player_enter := wake_on_player_enter has_manager player_id ctx;
  on_command _ _ w := Return w ();
  on_chat _ w := Return w ();
  on_disconnect _ w := w;
  on_session_end id _ w :=
    Build_WakeWorld (wake_session_end id (ww_waiting w)) (ww_service w) (ww_now w) (ww_start w) |}.
End wake.

(** ** Many players *)

Section system.
Context {WM SM : Type} `{!DashMap Z WaitingEntry WM} `{!DashMap rstring ServerEntry SM}.
Context `{WL : !DashMapLaws Z WaitingEntry WM} `{SL : !DashMapLaws rstring ServerEntry SM}.
Context (config : ServerWakeConfig) (has_manager : rstring → option bool).

(** An entry under way: it is to ask for the start, awaits the provider, or is to be
    written down. *)
Inductive entry_stage := ToStart | Awaiting | ToInsert.
#[export] Instance entry_stage_eq_dec : EqDecision entry_stage.
Proof. solve_decision. Defined.
Record PendingEntry := {
  pd_player : Z; pd_hold : Z; pd_target : rstring; pd_seen : ApiServerState; pd_stage : entry_stage }.

(** A callback under way: it was fired, or it goes through the players it found. *)
Inductive Callback :=
| Fired (id : rstring) (new_state : ApiServerState)
| Answering (id : rstring) (ops : Z → list SessionOp) (players : list Z).

(** The server manager, the plugin, the entries and callbacks under way, what was asked of
    sessions and what the handler answered. *)
Record WakeSystem := {
  wy_service : ServerManagerService (SM := SM);
  wy_waiting : WM;
  wy_pending : list PendingEntry;
  wy_callbacks : list Callback;
  wy_requests : list (Z * Z * SessionOp);
  wy_answers : list (Z * HandlerResult) }.

(** A player enters limbo in a hold and reads the server's state; its entry asks for the
    start; the provider answers it; it is written down; the server manager changes the
    state of a server; a callback makes a step; the animation of a player that entered in
    [hold] for [server] ticks; a session ends. *)
Inductive wake_event :=
| WEnter (player hold : Z) (ctx : LimboEntryContext)
| WStart (player : Z)
| WProvider (player : Z) (answer : result ServerManagerError ())
| WInsert (player : Z)
| WChange (id : rstring) (new_state : ServerState)
| WCallback (i : nat)
| WTick (player hold : Z) (server : rstring)
| WEnd (player : Z).

Definition set_pending (pending : list PendingEntry) (y : WakeSystem) : WakeSystem :=
  Build_WakeSystem (wy_service y) (wy_waiting y) pending (wy_callbacks y) (wy_requests y) (wy_answers y).
Definition set_callbacks (callbacks : list Callback) (y : WakeSystem) : WakeSystem :=
  Build_WakeSystem (wy_service y) (wy_waiting y) (wy_pending y) callbacks (wy_requests y) (wy_answers y).
Definition set_service (service : ServerManagerService (SM := SM)) (y : WakeSystem) : WakeSystem :=
  Build_WakeSystem service (wy_waiting y) (wy_pending y) (wy_callbacks y) (wy_requests y) (wy_answers y).
Definition set_waiting (rw : list (Z * Z * SessionOp) * WM) (y : WakeSystem) : WakeSystem :=
  Build_WakeSystem (wy_service y) rw.2 (wy_pending y) (wy_callbacks y) rw.1 (wy_answers y).
Definition answered (player : Z) (r : HandlerResult) (y : WakeSystem) : WakeSystem :=
  Build_WakeSystem (wy_service y) (wy_waiting y) (wy_pending y) (wy_callbacks y) (wy_requests y)
    (wy_answers y ++ [(player, r)]).

Definition held (player hold now : Z) (target : rstring) (seen : ApiServerState) (y : WakeSystem) : WakeSystem :=
  let '(ops, waiting) := enter_wait config player hold now target seen (wy_waiting y) in
  set_waiting (wy_requests y ++ ((λ op, (player, hold, op)) <$> ops), waiting) y.

(** The entry of a player that is at a stage. *)
Definition entry_at (player : Z) (stage : entry_stage) (y : WakeSystem) : option (nat * PendingEntry) :=
  list_find (λ d, pd_player d = player ∧ pd_stage d = stage) (wy_pending y).
Definition moved_on (stage : entry_stage) (d : PendingEntry) : PendingEntry :=
  Build_PendingEntry (pd_player d) (pd_hold d) (pd_target d) (pd_seen d) stage.

(** The state of a server as the manager sets it; nothing is fired when it stays. *)
Definition change_state (id : rstring) (new_state : ServerState) (s : ServerManagerService (SM := SM))
    : option (ServerManagerService (SM := SM)) :=
  entry ← dm_get (sm_entries s) id;
  if decide (se_state entry = new_state) then None
  else Some (fire_state_change id (se_state entry) new_state (put_entry id (entry_set_state new_state entry) s)).

(** A step of a callback: it looks who waits, or answers the next player. An entry that is
    written down or removed while it looks may be seen or not, as if it were before or
    after that step. *)
Definition callback_step (cb : Callback) (y : WakeSystem) : Callback * WakeSystem :=
  match cb with
  | Fired id new_state =>
    match change_ops config id new_state with
    | Some ops => (Answering id ops (players_waiting_for id (wy_waiting y)), y)
    | None => (Answering id (λ _, []) [], y)
    end
  | Answering id ops (p :: ps) =>
    (Answering id ops ps, set_waiting (answer_waiting ops (wy_requests y, wy_waiting y) p) y)
  | Answering id ops [] => (cb, y)
  end.

Definition wake_step (now : Z) (y : WakeSystem) (ev : wake_event) : WakeSystem :=
  match ev with
  | WEnter player hold ctx =>
    match enter_read has_manager ctx (wy_service y) with
    | EnterAnswer r => answered player r y
    | EnterStart target seen =>
      set_pending (wy_pending y ++ [Build_PendingEntry player hold target seen ToStart]) y
    | EnterWait target seen =>
      set_pending (wy_pending y ++ [Build_PendingEntry player hold target seen ToInsert]) y
    end
  | WStart player =>
    match entry_at player ToStart y with
    | Some (i, d) =>
      match start_begin (pd_target d) (wy_service y) with
      | (Ok _, service) =>
        set_callbacks (wy_callbacks y ++ [Fired (pd_target d) AStarting])
          (set_pending (<[i := moved_on Awaiting d]> (wy_pending y)) (set_service service y))
      | (Err _, service) =>
        answered player (failed_kick config) (set_pending (delete i (wy_pending y)) (set_service service y))
      end
    | None => y
    end
  | WProvider player answer =>
    match entry_at player Awaiting y with
    | Some (i, d) =>
      match answer with
      | Ok _ => set_pending (<[i := moved_on ToInsert d]> (wy_pending y)) y
      | Err _ => answered player (failed_kick config) (set_pending (delete i (wy_pending y)) y)
      end
    | None => y
    end
  | WInsert player =>
    match entry_at player ToInsert y with
    | Some (i, d) =>
      held player (pd_hold d) now (pd_target d) (pd_seen d) (set_pending (delete i (wy_pending y)) y)
    | None => y
    end
  | WChange id new_state =>
    match change_state id new_state (wy_service y) with
    | Some service => set_callbacks (wy_callbacks y ++ [Fired id (convert_state new_state)]) (set_service service y)
    | None => y
    end
  | WCallback i =>
    match wy_callbacks y !! i with
    | Some cb => let '(cb, y) := callback_step cb y in set_callbacks (<[i := cb]> (wy_callbacks y)) y
    | None => y
    end
  | WTick player hold server =>
    match animation_tick config player server (wy_waiting y) with
    | Some (ops, waiting) => set_waiting (wy_requests y ++ ((λ op, (player, hold, op)) <$> ops), waiting) y
    | None => y
    end
  | WEnd player => set_waiting (wy_requests y, wake_session_end player (wy_waiting y)) y
  end.
Definition wake_run (y : WakeSystem) (evs : list (Z * wake_event)) : WakeSystem :=
  foldl (λ y ev, wake_step ev.1 y ev.2) y evs.

(** *** Who is released *)

Lemma waiting_for_spec server (waiting : WM) p :
  p ∈ players_waiting_for server waiting ↔ ∃ e, dm_get waiting p = Some e ∧ we_target_server e = server.
Proof using WL.
  unfold players_waiting_for. rewrite list_elem_of_fmap. split.
  - intros ([q e]&->&[Ht Hin]%list_elem_of_filter). exists e. split; [by apply dm_iter_get|done].
  - intros (e&He&Ht). exists (p, e). split; [done|]. apply list_elem_of_filter. split; [done|]. by apply dm_iter_get.
Qed.

Lemma answer_waiting_all ops (ps : list Z) : ∀ acc (waiting : WM),
  let '(reqs, waiting') := foldl (answer_waiting ops) (acc, waiting) ps in
  (∀ p, dm_get waiting' p = if decide (p ∈ ps) then None else dm_get waiting p) ∧
  ∃ new, reqs = acc ++ new ∧
    ∀ p h op, (p, h, op) ∈ new ↔ p ∈ ps ∧ ∃ e, dm_get waiting p = Some e ∧ we_session_handle e = h ∧ op ∈ ops h.
Proof using WL.
  induction ps as [|q ps IH]; intros acc waiting; cbn [foldl].
  { split; [intros p; by rewrite decide_False by apply not_elem_of_nil|]. exists []. split; [by rewrite app_nil_r|].
    intros p h op. split; [by intros ?%not_elem_of_nil|by intros [?%not_elem_of_nil _]]. }
  unfold answer_waiting at 2. cbn [fst snd]. destruct (dm_get waiting q) as [e|] eqn:Hq.
  - specialize (IH (acc ++ ((λ op, (q, we_session_handle e, op)) <$> ops (we_session_handle e))) (dm_remove q waiting)).
    destruct (foldl _ _ ps) as [reqs waiting']. destruct IH as [Hget (new&->&Hnew)]. split.
    + intros p. rewrite Hget, dm_get_remove. destruct (decide (p ∈ ps)) as [Hp|Hp].
      { by rewrite decide_True by (by right). }
      destruct (decide (q = p)) as [->|Hne]; [by rewrite decide_True by (by left)|].
      rewrite decide_False; [done|]. by intros [->|?]%elem_of_cons.
    + eexists. split; [by rewrite <- app_assoc|]. intros p h op. rewrite elem_of_app, list_elem_of_fmap, Hnew.
      rewrite elem_of_cons. setoid_rewrite dm_get_remove. split.
      * intros [(o&[= -> -> ->]&Ho)|(Hp&d&Hd&<-&Ho)]; [split; [by left|by exists e]|].
        case_decide as Hqp; [done|]. split; [by right|by exists d].
      * intros [Hp (d&Hd&<-&Ho)]. destruct (decide (q = p)) as [->|Hne].
        { left. rewrite Hq in Hd. injection Hd as <-. by exists op. }
        right. destruct Hp as [->|Hp]; [done|]. split; [done|]. by exists d.
  - specialize (IH acc waiting). destruct (foldl _ _ ps) as [reqs waiting']. destruct IH as [Hget (new&->&Hnew)]. split.
    + intros p. rewrite Hget. destruct (decide (p ∈ ps)); [by rewrite decide_True by (by right)|].
      case_decide as Hp; [|done]. apply elem_of_cons in Hp as [->|?]; [done|done].
    + exists new. split; [done|]. intros p h op. rewrite Hnew, elem_of_cons. split.
      * intros [? ?]. split; [by right|done].
      * intros [[->|?] (e&He&?)]; [congruence|]. split; [done|]. by exists e.
Qed.

(** *** Nobody waits for a server that is up *)

(** A server does not come online between the moment at which an entry reads that it is not
    (or asks for its start) and the moment at which the entry is written down. *)
Definition timely (y : WakeSystem) (ev : wake_event) : Prop :=
  match ev with
  | WChange id Online => ∀ d, d ∈ wy_pending y → pd_stage d ≠ ToStart → pd_target d ≠ id
  | _ => True
  end.
Fixpoint all_timely (y : WakeSystem) (evs : list (Z * wake_event)) : Prop :=
  match evs with
  | [] => True
  | ev :: evs => timely y ev.2 ∧ all_timely (wake_step ev.1 y ev.2) evs
  end.

(** The callback has still to let the player through to the server. *)
Definition will_release (cb : Callback) (p : Z) (id : rstring) : Prop :=
  cb = Fired id AOnline ∨ ∃ ps, cb = Answering id (ready_ops config id) ps ∧ p ∈ ps.

Definition not_online (s : ServerManagerService (SM := SM)) (id : rstring) : Prop := get_state s id ≠ Some Online.
Record wake_inv (y : WakeSystem) : Prop := {
  wi_waiting p e : dm_get (wy_waiting y) p = Some e → get_state (wy_service y) (we_target_server e) = Some Online →
    ∃ i cb, wy_callbacks y !! i = Some cb ∧ will_release cb p (we_target_server e);
  wi_pending d : d ∈ wy_pending y → pd_stage d ≠ ToStart → not_online (wy_service y) (pd_target d) }.

Lemma put_state id st (entry : ServerEntry) (s : ServerManagerService (SM := SM)) old id' :
  dm_get (sm_entries s) id = Some entry →
  get_state (fire_state_change id old st (put_entry id (entry_set_state st entry) s)) id' =
    if decide (id = id') then Some st else get_state s id'.
Proof using SL.
  intros He. unfold get_state, fire_state_change, put_entry, set_entries. cbn [sm_entries]. rewrite dm_get_insert.
  by case_decide.
Qed.

Lemma start_begin_state t service r service' id :
  start_begin t service = (r, service') →
  get_state service' id =
    match r with Ok _ => if decide (t = id) then Some Starting else get_state service id | Err _ => get_state service id end.
Proof using SL.
  unfold start_begin. destruct (dm_get (sm_entries service) t) as [entry|] eqn:He.
  2:{ by intros [= <- <-]. }
  destruct (is_startable (se_state entry)); intros [= <- <-]; [|done]. by rewrite (put_state t _ _ _ _ _ He).
Qed.

(** An entry that waits has read that the server is not online. *)
Lemma enter_read_waits ctx service t seen :
  enter_read has_manager ctx service = EnterWait t seen → not_online service t.
Proof using Type.
  unfold enter_read. destruct (target_server ctx) as [t'|]; [|done]. destruct (has_manager t') as [[]|]; [|done..].
  destruct (convert_state <$> get_state service t') as [[]|] eqn:Hst; try done; intros [= <- <-] Ho; by rewrite Ho in Hst.
Qed.

(** Changes of the parts that the invariant does not read, or only shrinks. *)
Lemma inv_weaken y y' :
  wake_inv y → wy_callbacks y' = wy_callbacks y →
  (∀ id, get_state (wy_service y') id = get_state (wy_service y) id) →
  (∀ p e, dm_get (wy_waiting y') p = Some e →
     not_online (wy_service y) (we_target_server e) ∨
     ∃ e', dm_get (wy_waiting y) p = Some e' ∧ we_target_server e' = we_target_server e) →
  (∀ d, d ∈ wy_pending y' → pd_stage d ≠ ToStart →
     not_online (wy_service y) (pd_target d)) → wake_inv y'.
Proof using Type.
  intros [Hw Hp] Hc Hs Hwait Hpend. split.
  - intros p e He. rewrite Hs, Hc. intros Ho. destruct (Hwait p e He) as [Hn|(e'&He'&Ht)]; [by destruct Hn|].
    rewrite <- Ht in *. by apply (Hw p e').
  - intros d Hd Hst. unfold not_online. rewrite Hs. by apply Hpend.
Qed.

Lemma entry_at_spec p stage y i d :
  entry_at p stage y = Some (i, d) → wy_pending y !! i = Some d ∧ d ∈ wy_pending y ∧ pd_stage d = stage.
Proof using Type.
  intros Hf. apply list_find_Some in Hf as (Hd&[_ Hst]&_). split_and!; [done|by eapply list_elem_of_lookup_2|done].
Qed.

Lemma pending_delete i y d : d ∈ delete i (wy_pending y) → d ∈ wy_pending y.
Proof using Type. intros Hd. eapply elem_of_submseteq; [exact Hd|]. apply sublist_submseteq, sublist_delete. Qed.

Lemma pending_insert i x y d : d ∈ <[i := x]> (wy_pending y) → d = x ∨ d ∈ wy_pending y.
Proof using Type.
  intros [j Hj]%list_elem_of_lookup. destruct (decide (i = j)) as [->|].
  - apply list_lookup_insert_Some in Hj as [(_&<-&_)|(?&_)]; [by left|done].
  - rewrite list_lookup_insert_ne in Hj by done. right. by eapply list_elem_of_lookup_2.
Qed.

(** The steps that neither change a server nor run a callback. *)
Lemma enter_inv now y p h ctx : wake_inv y → wake_inv (wake_step now y (WEnter p h ctx)).
Proof using Type.
  intros Hi. cbn [wake_step]. destruct (enter_read has_manager ctx (wy_service y)) as [r|t seen|t seen] eqn:He.
  - apply (inv_weaken y); [done..|by eauto|]. apply Hi.
  - apply (inv_weaken y); [done..|by eauto|]. cbn [wy_pending set_pending].
    intros d [Hd| ->%list_elem_of_singleton]%elem_of_app; [by apply Hi|done].
  - apply (inv_weaken y); [done..|by eauto|]. cbn [wy_pending set_pending].
    intros d [Hd| ->%list_elem_of_singleton]%elem_of_app; [by apply Hi|]. intros _. by eapply enter_read_waits.
Qed.

Lemma provider_inv now y p a : wake_inv y → wake_inv (wake_step now y (WProvider p a)).
Proof using Type.
  intros Hi. cbn [wake_step]. destruct (entry_at p Awaiting y) as [[i d]|] eqn:Hf; [|done].
  apply entry_at_spec in Hf as (_&Hd&Hst). destruct a; apply (inv_weaken y); try done; try by eauto.
  - cbn [wy_pending set_pending]. intros d' [->|Hd']%pending_insert; [|by apply Hi].
    intros _. apply (wi_pending _ Hi d Hd). by rewrite Hst.
  - cbn [wy_pending set_pending answered]. intros d' Hd'%pending_delete. by apply Hi.
Qed.

Lemma insert_inv now y p : wake_inv y → wake_inv (wake_step now y (WInsert p)).
Proof using WL.
  intros Hi. cbn [wake_step]. destruct (entry_at p ToInsert y) as [[i d]|] eqn:Hf; [|done].
  apply entry_at_spec in Hf as (_&Hd&Hst). unfold held, enter_wait.
  destruct (if decide (pd_seen d = AStopping) then _ else _) as [tt st].
  apply (inv_weaken y); [done..| |].
  - cbn [set_waiting wy_waiting set_pending snd]. intros q e. rewrite dm_get_insert. case_decide; [|by eauto].
    intros [= <-]. left. apply (wi_pending _ Hi d Hd). by rewrite Hst.
  - cbn [wy_pending set_pending set_waiting]. intros d' Hd'%pending_delete. by apply Hi.
Qed.

Lemma tick_inv now y p h server : wake_inv y → wake_inv (wake_step now y (WTick p h server)).
Proof using WL.
  intros Hi. cbn [wake_step]. unfold animation_tick. destruct (dm_get (wy_waiting y) p) as [e|] eqn:He; [|done].
  cbv [mbind option_bind]. apply (inv_weaken y); [done..| |apply Hi].
  cbn [set_waiting wy_waiting snd]. intros q e'. rewrite dm_get_insert. case_decide as Hq; [|by eauto].
  intros [= <-]. subst. by eauto.
Qed.

Lemma end_inv now y p : wake_inv y → wake_inv (wake_step now y (WEnd p)).
Proof using WL.
  intros Hi. apply (inv_weaken y); [done..| |apply Hi]. cbn [wake_step set_waiting wy_waiting snd]. intros q e.
  unfold wake_session_end. rewrite dm_get_remove. case_decide; [done|]. by eauto.
Qed.

(** A change of a state with its callback. *)
Lemma fired_inv y service id st pending :
  wake_inv y →
  (∀ id', get_state service id' = if decide (id = id') then Some st else get_state (wy_service y) id') →
  (∀ d, d ∈ pending → pd_stage d ≠ ToStart → not_online service (pd_target d)) →
  wake_inv (set_callbacks (wy_callbacks y ++ [Fired id (convert_state st)]) (set_pending pending (set_service service y))).
Proof using Type.
  intros [Hw Hp] Hs Hpend. split; cbn [wy_waiting wy_service wy_callbacks wy_pending set_callbacks set_pending set_service].
  - intros p e He. rewrite Hs. case_decide as Hid.
    + intros [= ->]. exists (length (wy_callbacks y)), (Fired id AOnline). split; [|left; by rewrite Hid].
      by rewrite lookup_app_r, Nat.sub_diag.
    + intros Ho. destruct (Hw p e He Ho) as (i&cb&Hi&Hr). exists i, cb. split; [|done]. by apply lookup_app_l_Some.
  - done.
Qed.

Lemma start_inv now y p : wake_inv y → wake_inv (wake_step now y (WStart p)).
Proof using SL.
  intros Hi. cbn [wake_step]. destruct (entry_at p ToStart y) as [[i d]|] eqn:Hf; [|done].
  destruct (start_begin (pd_target d) (wy_service y)) as [r service] eqn:Hb.
  pose proof (λ id, start_begin_state _ _ _ _ id Hb) as Hs. destruct r as [[]|].
  - assert (Hs' : ∀ id', get_state service id' =
      if decide (pd_target d = id') then Some Starting else get_state (wy_service y) id').
    { intros id'. by rewrite Hs. }
    apply (fired_inv _ _ _ Starting); [done|done|]. intros d' [->|Hd']%pending_insert Hst; unfold not_online; rewrite Hs'.
    + cbn. by rewrite decide_True.
    + case_decide; [done|]. by apply Hi.
  - apply (inv_weaken y); [done|done| |by eauto|].
    + intros id. cbn [set_service set_pending answered wy_service]. by rewrite Hs.
    + cbn [set_service set_pending answered wy_pending]. intros d' Hd'%pending_delete. by apply Hi.
Qed.

Lemma change_inv now y id st : timely y (WChange id st) → wake_inv y → wake_inv (wake_step now y (WChange id st)).
Proof using SL.
  intros Ht Hi. cbn [wake_step]. unfold change_state.
  destruct (dm_get (sm_entries (wy_service y)) id) as [entry|] eqn:He; [|done]. cbv [mbind option_bind].
  case_decide; [done|]. pose proof (put_state id st entry (wy_service y) (se_state entry)) as Hs.
  pose proof (fired_inv y (fire_state_change id (se_state entry) st (put_entry id (entry_set_state st entry) (wy_service y)))
    id st (wy_pending y) Hi) as Hf. apply Hf; [by intros; apply Hs|].
  intros d Hd Hst. unfold not_online. rewrite (Hs _ He). case_decide as Hid; [|by apply Hi].
  intros [= ->]. by apply (Ht d Hd Hst).
Qed.

Lemma callback_inv now y i : wake_inv y → wake_inv (wake_step now y (WCallback i)).
Proof using WL.
  intros Hi. cbn [wake_step]. destruct (wy_callbacks y !! i) as [cb|] eqn:Hcb; [|done].
  pose proof (lookup_lt_Some _ _ _ Hcb) as Hlt.
  assert (Hgo : ∀ cb' y', wy_callbacks y' = wy_callbacks y → wy_service y' = wy_service y → wy_pending y' = wy_pending y →
    (∀ p e, dm_get (wy_waiting y') p = Some e → dm_get (wy_waiting y) p = Some e ∧
       (will_release cb p (we_target_server e) → will_release cb' p (we_target_server e))) →
    wake_inv (set_callbacks (<[i := cb']> (wy_callbacks y')) y')).
  { intros cb' y' Hc Hs Hp Hw. split; cbn [set_callbacks wy_waiting wy_service wy_callbacks wy_pending];
      rewrite ?Hc, ?Hs, ?Hp; [|apply Hi].
    intros p e He Ho. destruct (Hw p e He) as [He' Hr]. destruct (wi_waiting _ Hi p e He' Ho) as (j&c&Hj&Hc').
    destruct (decide (i = j)) as [->|Hne].
    - exists j, cb'. rewrite list_lookup_insert_eq by done. rewrite Hcb in Hj. injection Hj as ->. auto.
    - exists j, c. by rewrite list_lookup_insert_ne. }
  destruct cb as [id st|id ops [|q ps]]; cbn [callback_step].
  - destruct (change_ops config id st) as [ops|] eqn:Hops.
    + apply Hgo; [done..|]. intros p e He. split; [done|]. intros [[= -> ->]|(ps&?&_)]; [|done].
      cbn in Hops. injection Hops as <-. right. eexists. split; [done|]. apply waiting_for_spec. by exists e.
    + apply Hgo; [done..|]. intros p e He. split; [done|]. intros [[= -> ->]|(ps&?&_)]; done.
  - by apply Hgo.
  - apply Hgo; [done..|]. cbn [set_waiting wy_waiting snd]. intros p e. unfold answer_waiting. cbn [fst snd].
    destruct (dm_get (wy_waiting y) q) as [eq|] eqn:Hq; cbn [snd].
    + rewrite dm_get_remove. case_decide as Hqp; [done|]. intros He. split; [done|].
      intros [?|(ps'&[= -> -> <-]&Hin)]; [done|]. right. exists ps. split; [done|]. by apply elem_of_cons in Hin as [->|].
    + intros He. split; [done|]. intros [?|(ps'&[= -> -> <-]&Hin)]; [done|]. right. exists ps. split; [done|].
      apply elem_of_cons in Hin as [->|]; [congruence|done].
Qed.

Lemma wake_run_inv y evs : all_timely y evs → wake_inv y → wake_inv (wake_run y evs).
Proof using WL SL.
  unfold wake_run. revert y. induction evs as [|[now ev] evs IH]; intros y; [done|]. intros [Ht Hts] Hi. cbn [foldl fst snd].
  apply IH; [done|]. cbn [snd] in Ht. destruct ev; eauto using enter_inv, start_inv, provider_inv, insert_inv, change_inv, callback_inv, tick_inv, end_inv.
Qed.

(** A callback that goes through its players answers them in order. *)
Lemma answering_runs now id ops i ps : ∀ y, wy_callbacks y !! i = Some (Answering id ops ps) →
  let y' := wake_run y (replicate (length ps) (now, WCallback i)) in
  (wy_requests y', wy_waiting y') = foldl (answer_waiting ops) (wy_requests y, wy_waiting y) ps.
Proof using Type.
  induction ps as [|p ps IH]; intros y Hi; [done|]. cbn [length replicate wake_run foldl fst snd]. cbn [wake_step].
  rewrite Hi. cbn [callback_step]. pose proof (lookup_lt_Some _ _ _ Hi) as Hlt.
  rewrite (IH (set_callbacks _ (set_waiting _ y))).
  - cbn [set_callbacks set_waiting wy_requests wy_waiting]. by rewrite <- surjective_pairing.
  - cbn [set_callbacks set_waiting wy_callbacks]. by apply list_lookup_insert_eq.
Qed.

(** C23: A player who waits for a server is let through when it comes up, and nobody is
    forgotten. Whatever players enter, whatever providers answer, however the servers change
    and however all of that interleaves, provided that no server comes online between the
    moment an entry reads that it is on its way, or has asked for its start, and the moment
    the entry is written down: whoever waits for a server that is online is still to be
    released by a callback under way, so once the callbacks are done nobody waits for an
    online server. A change to online fires a callback; one that runs without interruption
    tells and lets through exactly the players that wait for the server, each under the hold
    it entered in, and they do not wait any more, while all others still do. *)
Theorem waiting_players_released (service : ServerManagerService (SM := SM)) (evs : list (Z * wake_event)) :
  let y0 := Build_WakeSystem service dm_new [] [] [] [] in
  all_timely y0 evs →
  let y := wake_run y0 evs in
  (∀ p e, dm_get (wy_waiting y) p = Some e → get_state (wy_service y) (we_target_server e) = Some Online →
     ∃ i cb, wy_callbacks y !! i = Some cb ∧ will_release cb p (we_target_server e)) ∧
  (∀ now id st, get_state (wy_service y) id = Some st → st ≠ Online →
     let y' := wake_step now y (WChange id Online) in
     get_state (wy_service y') id = Some Online ∧ wy_callbacks y' = wy_callbacks y ++ [Fired id AOnline]) ∧
  ∀ now i id, wy_callbacks y !! i = Some (Fired id AOnline) →
  let n := length (players_waiting_for id (wy_waiting y)) in
  let y' := wake_run y (replicate (S n) (now, WCallback i)) in
  (∀ p, dm_get (wy_waiting y') p = match dm_get (wy_waiting y) p with
                                   | Some e => if decide (we_target_server e = id) then None else Some e
                                   | None => None
                                   end) ∧
  ∃ new, wy_requests y' = wy_requests y ++ new ∧
    ∀ p h op, (p, h, op) ∈ new ↔ ∃ e, dm_get (wy_waiting y) p = Some e ∧ we_target_server e = id ∧
      we_session_handle e = h ∧ op ∈ ready_ops config id h.
Proof using WL SL.
  intros y0 Ht y. assert (Hi : wake_inv y).
  { apply wake_run_inv; [done|]. split; cbn [y0 wy_waiting wy_pending]; [|by intros d ?%not_elem_of_nil].
    intros p e. by rewrite dm_get_new. }
  split_and!; [apply Hi| |].
  - intros now id st Hst Hne. cbn [wake_step]. unfold change_state. unfold get_state in Hst.
    destruct (dm_get (sm_entries (wy_service y)) id) as [entry|] eqn:He; [|done]. injection Hst as Hst.
    cbv [mbind option_bind]. rewrite decide_False by congruence. split; [|done].
    cbn [set_callbacks set_service wy_service]. by rewrite (put_state _ _ _ _ _ _ He), decide_True.
  - intros now i id Hcb n y'.
    set (y1 := set_callbacks (<[i := Answering id (ready_ops config id) (players_waiting_for id (wy_waiting y))]> (wy_callbacks y)) y).
    assert (Hy' : y' = wake_run y1 (replicate n (now, WCallback i))).
    { unfold y'. cbn [replicate wake_run foldl fst snd]. f_equal. cbn [wake_step]. by rewrite Hcb. }
    pose proof (answering_runs now id (ready_ops config id) i (players_waiting_for id (wy_waiting y)) y1
      ltac:(apply list_lookup_insert_eq; by eapply lookup_lt_Some)) as Hr. cbn zeta in Hr. fold n in Hr. rewrite <- Hy' in Hr.
    pose proof (answer_waiting_all (ready_ops config id) (players_waiting_for id (wy_waiting y)) (wy_requests y) (wy_waiting y)) as Ha.
    change (wy_requests y1, wy_waiting y1) with (wy_requests y, wy_waiting y) in Hr. rewrite <- Hr in Ha.
    destruct Ha as [Hget (new&Hnew&Hin)]. split.
    + intros p. rewrite Hget. case_decide as Hp.
      * apply waiting_for_spec in Hp as (e&->&He). by rewrite decide_True.
      * destruct (dm_get (wy_waiting y) p) as [e|] eqn:He; [|done]. case_decide as Het; [|done].
        destruct Hp. apply waiting_for_spec. by exists e.
    + exists new. split; [done|]. intros p h op. rewrite Hin. split.
      * intros [(d&Hd&Htd)%waiting_for_spec (e&He&Hh&Ho)]. rewrite Hd in He. injection He as ->. by exists e.
      * intros (e&He&Hte&Hh&Ho). split; [apply waiting_for_spec; by exists e|by exists e].
Qed.
End system.

(** ** In limbo *)

Section wake_limbo.
Context `{CF : Cfb8, ZL : Zlib, UT : UuidText, LC : Lowercase} {H : Type}.
Context {WM SM : Type} `{!DashMap Z WaitingEntry WM} `{!DashMap rstring ServerEntry SM}.
Context `{WL : !DashMapLaws Z WaitingEntry WM}.
Context (registry : PacketRegistry) (version : ProtocolVersion) (player_id : Z) (commands : CommandManagerImpl H).
Context (config : ServerWakeConfig) (has_manager : rstring → option bool) (ctx : LimboEntryContext).

Abbreviation LState := (LimboState (W := WakeWorld (WM := WM) (SM := SM)) (H := H)).
Abbreviation handler := (wake_handler (WM := WM) (SM := SM) config has_manager player_id ctx).
Abbreviation hold_for := (wait_for_hold registry version player_id commands handler).

(** Nothing that happens during a hold starts another. *)
Lemma try_send_all_hold frames (s : LState) : li_hold_seq (try_send_all frames s).2 = li_hold_seq s.
Proof using Type.
  revert s. induction frames as [|f frames IH]; intros s; [done|]. cbn [try_send_all]. unfold try_send.
  case_decide; [|done]. by rewrite IH.
Qed.
Lemma session_op_hold op (s : LState) : li_hold_seq (session_op registry version op s).2 = li_hold_seq s.
Proof using Type.
  destruct op as [m|t|m|r|h r|]; cbn [session_op]; try done.
  1-3: (destruct (_ : result CoreError (list PacketFrame)) as [frames|e]; [|done];
    pose proof (try_send_all_hold frames s) as Ht; by destruct (try_send_all frames s)).
  all: unfold complete_scoped; by case_decide.
Qed.
Lemma perform_all_run {A} ops w (a : A) (s : LState) :
  let '(a', s') := run_script registry version (perform_all ops w a) s in
  a' = a ∧ li_world s' = w ∧ li_hold_seq s' = li_hold_seq s.
Proof using Type.
  revert s. induction ops as [|op ops IH]; intros s; [done|]. cbn [perform_all run_script].
  pose proof (session_op_hold op s) as Hh. destruct (session_op registry version op s) as [r s1]. cbn [snd] in Hh.
  specialize (IH s1). destruct (run_script _ _ _ s1) as [a' s']. by rewrite <- Hh.
Qed.
Lemma hold_frame_hold f (s : LState) :
  li_hold_seq (hold_frame registry version player_id commands handler f s) = li_hold_seq s.
Proof using Type.
  unfold hold_frame. destruct (is_keepalive_response _ _ _); [by destruct (extract_keepalive_id f version)|].
  destruct (parse_client_message registry f version) as [[name args|m]|]; [|done..]. cbn [client_message].
  by destruct (dispatch_command _ _ _).
Qed.
Lemma hold_step_hold t e (s : LState) :
  li_hold_seq (hold_step registry version player_id commands handler t e s).2 = li_hold_seq s.
Proof using Type.
  destruct e as [| |c| | | |op w]; cbn [hold_step]; try done.
  - destruct (cb_read_frame _ _) as [[[[f|]|e] c] ci]; [|done..]. cbn [snd]. by rewrite hold_frame_hold.
  - destruct (li_outgoing s); [done|]. by destruct (cb_write_frame _ _) as [[] c].
  - destruct (ka_tick _ _ _ _) as [[[f| |]|] k]; try done. by destruct (cb_write_frame _ _).
  - by destruct (li_changed s).
  - apply session_op_hold.
Qed.

(** While the hold lasts, what comes later does not change what came before. *)
Lemma wait_for_hold_app t pre post (s s2 : LState) :
  hold_for t pre s = (None, [], s2) → hold_for t (pre ++ post) s = hold_for t post s2 ∧ li_hold_seq s2 = li_hold_seq s.
Proof using Type.
  revert s. induction pre as [|e pre IH]; intros s; cbn [wait_for_hold app]; [by intros [= <-]|].
  pose proof (hold_step_hold t e s) as Hh. destruct (hold_step _ _ _ _ _ _ _ _) as [[a|] s1]; [done|]. cbn [snd] in Hh.
  intros [-> ->]%IH. done.
Qed.

(** What the plugin does to hold a player. *)
Lemma wake_wait_run (target : rstring) (seen : ApiServerState) (w : WakeWorld (WM := WM) (SM := SM)) (s : LState) :
  let '(r, s1) := run_script registry version (wake_wait config player_id target seen w) s in
  r = hold_or_timeout config ∧ ∃ e, dm_get (ww_waiting (li_world s1)) player_id = Some e ∧ we_target_server e = target ∧
    we_session_handle e = li_hold_seq s1.
Proof using WL.
  unfold wake_wait. cbn [run_script session_op]. unfold enter_wait.
  destruct (if decide (seen = AStopping) then _ else _) as [tt sb].
  set (waiting := dm_insert _ _ _). set (ops := _ :: _).
  pose proof (perform_all_run ops (Build_WakeWorld waiting (ww_service w) (ww_now w) (ww_start w)) (hold_or_timeout config) s) as Hp.
  destruct (run_script _ _ _ _) as [r s1]. destruct Hp as (->&Hw&Hh). split; [done|].
  rewrite Hw, Hh. cbn [ww_waiting]. eexists. unfold waiting. rewrite dm_get_insert, decide_True by done. done.
Qed.

(** What it asks for when the server is online ends the hold. *)
Lemma ready_ends_hold target t pre (s1 s2 : LState) w2 rest :
  hold_for t pre s1 = (None, [], s2) →
  ∃ s3, hold_for t (pre ++ ((λ op, PluginTask op w2) <$> ready_ops config target (li_hold_seq s1)) ++
                    CompletionReady :: rest) s1 = (Some HContinue, rest, s3).
Proof using Type.
  intros Hpre. destruct (wait_for_hold_app t pre
    (((λ op, PluginTask op w2) <$> ready_ops config target (li_hold_seq s1)) ++ CompletionReady :: rest) s1 s2 Hpre) as [-> Hs2].
  cbn [ready_ops fmap list_fmap app wait_for_hold hold_step].
  match goal with |- context [session_op registry version (OpSendTitle ?t) s2] =>
    pose proof (session_op_hold (OpSendTitle t) s2) as Hs3; set (s3 := (session_op registry version (OpSendTitle t) s2).2) in * end.
  cbn [session_op snd]. unfold complete_scoped. cbn [li_hold_seq with_world]. rewrite Hs3, Hs2, decide_True by done.
  cbn [li_changed with_complete with_world li_complete fmap option_fmap option_map process_handler_result]. by eexists.
Qed.

(** A player who enters while the server is down or on its way is held, under the hold that the
    plugin writes down, and what the plugin asks for when the server is online ends exactly that
    hold, whatever happened in limbo until then. *)
Theorem woken_player_leaves_limbo (s : LState) (target : rstring) (st : ServerState) :
  let w := li_world s in
  target_server ctx = Some target → has_manager target = Some true →
  get_state (ww_service w) target = Some st →
  st = Starting ∨ st = Stopping ∨ is_startable st = true ∧ ww_start w target = Ok () →
  let '(r, s1) := run_script registry version (on_player_enter handler w) (begin_handler s) in
  r = hold_or_timeout config ∧
  ∃ e, dm_get (ww_waiting (li_world s1)) player_id = Some e ∧ we_target_server e = target ∧
  ∀ t pre s2 w2 rest, hold_for t pre s1 = (None, [], s2) →
  ∃ s3, hold_for t (pre ++ ((λ op, PluginTask op w2) <$> ready_ops config target (we_session_handle e)) ++
                    CompletionReady :: rest) s1 = (Some HContinue, rest, s3).
Proof using WL.
  intros w Htg Hm Hst Hcase. cbn [on_player_enter wake_handler]. unfold wake_on_player_enter.
  assert (Hout : ∃ seen service,
    (enter_begin config has_manager ctx (ww_service w) = (EnterWait target seen, service) ∨
     enter_begin config has_manager ctx (ww_service w) = (EnterStart target seen, service) ∧ ww_start w target = Ok ())).
  { unfold enter_begin, enter_read. rewrite Htg, Hm, Hst. unfold get_state in Hst.
    destruct (dm_get (sm_entries (ww_service w)) target) as [entry|] eqn:He; [|done]. injection Hst as Hst.
    destruct Hcase as [->|[->|[Hs Hok]]]; [by eauto..|].
    destruct st; try done; cbn; unfold start_begin; rewrite He, Hst; cbn; eauto. }
  destruct Hout as (seen&service&Hout).
  assert (Hgo : ∀ w' : WakeWorld (WM := WM) (SM := SM),
    let '(r, s1) := run_script registry version (wake_wait config player_id target seen w') (begin_handler s) in
    r = hold_or_timeout config ∧ ∃ e, dm_get (ww_waiting (li_world s1)) player_id = Some e ∧ we_target_server e = target ∧
    ∀ t pre s2 w2 rest, hold_for t pre s1 = (None, [], s2) →
    ∃ s3, hold_for t (pre ++ ((λ op, PluginTask op w2) <$> ready_ops config target (we_session_handle e)) ++
                      CompletionReady :: rest) s1 = (Some HContinue, rest, s3)).
  { intros w'. pose proof (wake_wait_run target seen w' (begin_handler s)) as Hr. destruct (run_script _ _ _ _) as [r s1].
    destruct Hr as (->&e&He&Ht&Hh). split; [done|]. exists e. rewrite Hh. split_and!; [done..|]. intros. by eapply ready_ends_hold. }
  destruct Hout as [->|[-> Hok]]; [apply Hgo|]. cbn [ww_start]. rewrite Hok. apply Hgo.
Qed.
End wake_limbo.

(** ** A sample *)

Section sample.
Abbreviation waits := (assoc_map Z WaitingEntry).
Abbreviation SampleSystem := (WakeSystem (WM := waits) (SM := assoc_map rstring ServerEntry)).
Abbreviation sample_config := ServerWakeConfig_default.

(** Survival and creative, asleep. *)
Definition two_servers : ServerManagerService (SM := assoc_map rstring ServerEntry) :=
  service_new [(str "survival", SMLocal sample_manager); (str "creative", SMLocal sample_manager)].
Definition managed (id : rstring) : option bool := Some true.
Definition wake_start : SampleSystem := Build_WakeSystem two_servers dm_new [] [] [] [].

(** Two players want survival, one creative; the second finds survival on its way. *)
Definition morning : list (Z * wake_event) :=
  [(0, WEnter 7 1 (InitialConnection (str "survival"))); (5, WStart 7); (10, WProvider 7 (Ok ())); (11, WInsert 7);
   (20, WEnter 8 3 (InitialConnection (str "survival"))); (25, WInsert 8);
   (30, WEnter 9 1 (InitialConnection (str "creative"))); (32, WStart 9);
   (40, WProvider 9 (Ok ())); (45, WInsert 9); (50, WTick 7 1 (str "survival")); (60, WChange (str "survival") Online)].

Lemma waiting_players_released_witness :
  let y := wake_run sample_config managed wake_start morning in
  let y' := wake_run sample_config managed y (replicate 3 (61, WCallback 2)) in
  players_waiting_for (str "survival") (wy_waiting y) = [7; 8] ∧
  players_waiting_for (str "survival") (wy_waiting y') = [] ∧
  players_waiting_for (str "creative") (wy_waiting y') = [9] ∧
  (∃ new, wy_requests y' = wy_requests y ++ new ∧ (7, 1, OpCompleteScoped 1 HAccept) ∈ new ∧
     (8, 3, OpCompleteScoped 3 HAccept) ∈ new).
Proof.
  intros y y'. destruct (waiting_players_released (WM := waits) (SM := assoc_map rstring ServerEntry) sample_config managed
    two_servers morning) as (_&_&Hon).
  { vm_compute. split_and!; try exact I. intros d Hd. inversion Hd. }
  destruct (Hon 61 2%nat (str "survival") eq_refl) as (_&new&Hnew&Hin).
  split_and!; [by vm_compute..|]. exists new. split_and!; [exact Hnew| |].
  - apply Hin. eexists. split_and!; [vm_compute; reflexivity|by vm_compute|by vm_compute|]. right. left.
  - apply Hin. eexists. split_and!; [vm_compute; reflexivity|by vm_compute|by vm_compute|]. right. left.
Defined.

(** ** Limits *)

(** When the server is online before the provider has answered the request to start it, the
    player is written down too late, and waits for a server that is up. So does a player
    that reads that the server is starting just before it is online. *)
Theorem early_server_missed :
  let y := wake_run sample_config managed wake_start
    [(0, WEnter 7 1 (InitialConnection (str "survival"))); (1, WStart 7); (5, WEnter 8 3 (InitialConnection (str "survival")));
     (10, WChange (str "survival") Online); (11, WCallback 1); (20, WProvider 7 (Ok ())); (21, WInsert 7); (22, WInsert 8)] in
  get_state (wy_service y) (str "survival") = Some Online ∧
  players_waiting_for (str "survival") (wy_waiting y) = [8; 7] ∧
  wy_callbacks y !! 1%nat = Some (Answering (str "survival") (ready_ops sample_config (str "survival")) []) ∧
  (∀ p hold r, (p, hold, OpCompleteScoped hold r) ∉ wy_requests y).
Proof.
  split_and!; [by vm_compute|vm_compute; reflexivity|vm_compute; reflexivity|]. intros p hold r. vm_compute. intros Hin.
  repeat (apply elem_of_cons in Hin as [Hin|Hin]; [done|]). by apply not_elem_of_nil in Hin.
Qed.

(** A player who enters while the server stops is held, but once it has stopped nothing starts
    it again. *)
Theorem stopped_server_not_started :
  let y := wake_run sample_config managed wake_start
    [(0, WChange (str "survival") Stopping); (10, WEnter 7 1 (InitialConnection (str "survival"))); (11, WInsert 7);
     (20, WChange (str "survival") Sleeping); (21, WCallback 0); (22, WCallback 1)] in
  get_state (wy_service y) (str "survival") = Some Sleeping ∧ wy_pending y = [] ∧
  players_waiting_for (str "survival") (wy_waiting y) = [7].
Proof. by vm_compute. Qed.

(** A server whose state is not known is shown as offline, cannot be started, and the player
    is told that it failed to start. *)
Theorem unknown_state_kicks :
  wy_answers (wake_run sample_config managed wake_start
    [(0, WChange (str "survival") Unknown); (10, WEnter 7 1 (InitialConnection (str "survival"))); (11, WStart 7)]) =
  [(7, failed_kick sample_config)].
Proof. by vm_compute. Qed.
End sample.
