(* ===== verification/Auth.v ===== *)
(** * Auth: logging a player in

    Models [auth/mojang.rs], [auth/game_profile.rs], [handler/intercepted/auth.rs] and
    [ClientBridge::disconnect].  RSA, SHA-1 and the session server are parameters of the
    model, as are the random bytes; the messages of their errors are left out.  The
    listeners of an event are the list the event bus holds for it. *)
From S2P Require Import Prelude Wire Utf8 VarInt Codec Frame Version Packet LoginPackets PlayPackets Nbt Json.
From S2P Require Import Component Registry DefaultRegistry Bridge Config Router Middleware ServerManager Forwarding.
From S2P Require Import Backend EventBus Filters ProxyCommands Session LimboWorld Transport Switch Limbo.

(** ** The server hash *)

(** The digits of a number in base 16, at most [fuel] of them. *)
Definition lower_hex (d : Z) : Z := if decide (d < 10) then 48 + d else 87 + d.
Fixpoint radix_digits (fuel : nat) (n : Z) (acc : rstring) : rstring :=
  match fuel with
  | O => acc
  | S fuel =>
    let acc := lower_hex (n mod 16) :: acc in
    if decide (n / 16 = 0) then acc else radix_digits fuel (n / 16) acc
  end.

(** [BigInt::to_str_radix(16)]: [fuel] digits are enough below [16 ^ fuel]. *)
Definition to_str_radix_16 (fuel : nat) (n : Z) : rstring :=
  if decide (n < 0) then 45 :: radix_digits fuel (- n) [] else radix_digits fuel n [].

(** [BigInt::from_signed_bytes_be]. *)
Definition from_signed_bytes_be (bs : bytes) : Z :=
  match bs with [] => 0 | _ => wrap_s (8 * zlen bs) (from_be_bytes bs) end.

Definition minecraft_server_hash (sha1 : bytes → bytes) (server_id : rstring) (shared_secret public_key_der : bytes)
    : rstring :=
  let digest := sha1 (as_bytes server_id ++ shared_secret ++ public_key_der) in
  to_str_radix_16 (2 * length digest) (from_signed_bytes_be digest).

(** ** Telling the client why it is disconnected *)

(** The escapes of [serde_json]. *)
Definition serde_escape_char (c : Z) : rstring :=
  if decide (c = 8) then [92; 98] else if decide (c = 12) then [92; 102] else escape_char c.
(** [json!({"text": reason}).to_string()]. *)
Definition text_json (reason : rstring) : rstring :=
  str "{" ++ json_member "text" (quoted (reason ≫= serde_escape_char)) ++ str "}".

(** The connection of a client who logs in: whether its stream is shut down, the events
    fired, and the number of the next player. *)
Inductive conn_event :=
| PostLogin (profile : GameProfile) (player_id : Z) (version : ProtocolVersion)
| OnlineAuthFailed (username : rstring)
| InitialServerConnected (player_id : Z) (server : rstring).

Section auth.
Context `{CF : Cfb8, ZL : Zlib, UT : UuidText}.

Record Conn := mk_Conn {
  cn_client : ClientBridge;
  cn_in : list bytes;
  cn_shut : bool;
  cn_fired : list conn_event;
  cn_next_id : Z }.

Definition KM (A : Type) : Type := Conn → result CoreError A * Conn.
#[global] Instance km_ret : MRet KM := λ A a s, (Ok a, s).
#[global] Instance km_bind : MBind KM := λ A B f m s,
  match m s with (Ok a, s) => f a s | (Err e, s) => (Err e, s) end.
Definition km_result {A} (r : result CoreError A) : KM A := λ s, (r, s).
Definition km_get {A} (f : Conn → A) : KM A := λ s, (Ok (f s), s).
Definition km_update (f : ClientBridge → ClientBridge) : KM () := λ s,
  (Ok (), mk_Conn (f (cn_client s)) (cn_in s) (cn_shut s) (cn_fired s) (cn_next_id s)).
Definition km_fire (e : conn_event) : KM () := λ s,
  (Ok (), mk_Conn (cn_client s) (cn_in s) (cn_shut s) (cn_fired s ++ [e]) (cn_next_id s)).

(** An action on the client's end; on a stream that was shut down it fails. *)
Definition on_open {A} (m : LM A) : KM A := λ s,
  if cn_shut s then (Err (CIo (OtherIo "BrokenPipe")), s)
  else
    let '(r, (c, ci)) := m (cn_client s, cn_in s) in
    (r, mk_Conn c ci (cn_shut s) (cn_fired s) (cn_next_id s)).

Definition next_player_id : KM Z := λ s,
  (Ok (cn_next_id s), mk_Conn (cn_client s) (cn_in s) (cn_shut s) (cn_fired s) (wrap_u 64 (cn_next_id s + 1))).

Context (registry : PacketRegistry).

Definition lm_send (packet : ErasedPacket) : LM () := λ s,
  let '(r, c) := cb_send_packet registry packet s.1 in (r, (c, s.2)).
Definition km_send (packet : ErasedPacket) : KM () := on_open (lm_send packet).

(** The packet [disconnect] sends: none in the states without one. *)
Definition disconnect_packet (reason : rstring) (state : ConnectionState) (version : ProtocolVersion)
    : result CoreError (option ErasedPacket) :=
  let json := text_json reason in
  match state with
  | Login => Ok (Some (existT KCLoginDisconnect (mk_CLoginDisconnect json)))
  | Config =>
    if less_than version V1_20_3 then
      match write_string json with
      | Ok buf => Ok (Some (existT KCConfigDisconnect (mk_CConfigDisconnect buf)))
      | Err e => Err (CProtocol e)
      end
    else Ok (Some (existT KCConfigDisconnect (mk_CConfigDisconnect (to_nbt_network (component_text reason)))))
  | Play =>
    Ok (Some (existT KCDisconnect (mk_CDisconnect
      (if less_than version V1_20_3 then as_bytes json else to_nbt_network (component_text reason)))))
  | _ => Ok None
  end.

(** [client.disconnect(reason, registry).await.ok()]: the packet, then the end of the stream. *)
Definition disconnect (reason : rstring) : KM () := λ s,
  match disconnect_packet reason (cb_state (cn_client s)) (cb_version (cn_client s)) with
  | Err _ => (Ok (), s)
  | Ok packet =>
    let s := match packet with Some p => (km_send p s).2 | None => s end in
    (Ok (), mk_Conn (cn_client s) (cn_in s) true (cn_fired s) (cn_next_id s))
  end.

(** ** The session server *)

Record ProfileProperty := { ppr_name : rstring; ppr_value : rstring; ppr_signature : option rstring }.
Record MojangProfile := { mp_id : rstring; mp_name : rstring; mp_properties : list ProfileProperty }.

Record MojangAuth := {
  ma_rsa_decrypt : bytes → option bytes;
  ma_public_key_der : bytes;
  ma_sha1 : bytes → bytes;
  ma_session_server : rstring → rstring → option MojangProfile }.

Definition verify_session (auth : MojangAuth) (username server_hash : rstring) : result CoreError MojangProfile :=
  match ma_session_server auth username server_hash with
  | Some profile => Ok profile
  | None => Err (Auth "session server request failed")
  end.

Definition enc_response_of (frame : PacketFrame) (version : ProtocolVersion) : result CoreError SEncryptionResponse :=
  match decode_frame registry frame Login Serverbound version with
  | Err e => Err (CProtocol e)
  | Ok (Typed _ packet) =>
    match downcast KSEncryptionResponse packet with
    | Some r => Ok r
    | None => Err (Auth ("expected EncryptionResponse, got " +:+ NAME (kind_type (projT1 packet))))
    end
  | Ok (Opaque _ _) => Err (Auth "expected EncryptionResponse, got opaque packet")
  end.

(** [verify_token]: the four random bytes. *)
Definition mojang_authenticate (auth : MojangAuth) (username : rstring) (verify_token : bytes) : KM MojangProfile :=
  version ← km_get (λ s, cb_version (cn_client s));
  _ ← km_send (existT KCEncryptionRequest (mk_CEncryptionRequest [] (ma_public_key_der auth) verify_token true));
  frame ← on_open lm_read;
  enc_response ← km_result (enc_response_of frame version);
  shared_secret ← km_result (match ma_rsa_decrypt auth (es_shared_secret enc_response) with
                             | Some secret => Ok secret | None => Err (Auth "shared secret decrypt failed") end);
  _ ← km_result (if decide (length shared_secret = 16%nat) then Ok ()
                 else Err (Auth "shared secret must be 16 bytes"));
  decrypted_token ← km_result (match ma_rsa_decrypt auth (es_verify_token enc_response) with
                               | Some token => Ok token | None => Err (Auth "verify token decrypt failed") end);
  _ ← km_result (if decide (decrypted_token = verify_token) then Ok () else Err (Auth "verify token mismatch"));
  profile ← km_result (verify_session auth username
    (minecraft_server_hash (ma_sha1 auth) [] shared_secret (ma_public_key_der auth)));
  _ ← km_update (cb_enable_encryption shared_secret);
  mret profile.

(** ** The two strategies *)

Record AuthResult := {
  ar_player_id : Z;
  ar_player_uuid : Z;
  ar_username : rstring;
  ar_api_profile : GameProfile;
  ar_login_completed : bool;
  ar_online_mode : bool }.

Inductive PreLoginResult := PLAllowed | PLDenied (reason : Component) | PLForceOffline | PLForceOnline.
Record PreLoginEvent := {
  ple_profile : GameProfile;
  ple_remote_addr : SocketAddr;
  ple_protocol_version : ProtocolVersion;
  ple_server_domain : rstring;
  ple_result : PreLoginResult }.

Context (pre_login_listeners : list (HandlerEntry PreLoginEvent)).

Definition fire_pre_login (profile : GameProfile) (peer : SocketAddr) (version : ProtocolVersion) (domain : rstring)
    : KM PreLoginResult :=
  let result := ple_result (dispatch pre_login_listeners
                              (Build_PreLoginEvent profile peer version domain PLAllowed)) in
  match result with
  | PLDenied reason => _ ← disconnect (to_json reason); km_result (Err ConnectionClosed)
  | _ => mret result
  end.

Definition send_login_success (uuid : Z) (username : rstring) (properties : list Property)
    (version : ProtocolVersion) : KM () :=
  km_send (existT KCLoginSuccess (mk_CLoginSuccess uuid username properties
    (no_less_than version V1_20_5 && no_greater_than version V1_21))).

Definition consume_login_acknowledged (version : ProtocolVersion) : KM () :=
  frame ← on_open lm_read;
  decoded ← km_result (match decode_frame registry frame Login Serverbound version with
                       | Ok d => Ok d | Err e => Err (CProtocol e) end);
  match decoded with
  | Typed _ packet =>
    match downcast KSLoginAcknowledged packet with
    | Some _ => km_update (cb_set_state Config)
    | None => km_result (Err (Auth "expected LoginAcknowledged from client"))
    end
  | Opaque _ _ => km_result (Err (Auth "expected LoginAcknowledged from client"))
  end.

(** [Uuid::parse_str], [Uuid::new_v4()] and MD5. *)
Context (parse_uuid : rstring → option Z) (random_uuid : Z) (md5 : bytes → Z).

Definition login_property (p : ProfileProperty) : Property := mk_Property (ppr_name p) (ppr_value p) (ppr_signature p).

(** The end of a login: the acknowledgement, or the play phase. *)
Definition finish_login (version : ProtocolVersion) : KM () :=
  if no_less_than version V1_20_2 then consume_login_acknowledged version else km_update (cb_set_state Play).

Definition run_mojang_auth_flow (auth : MojangAuth) (verify_token : bytes) (login_data : LoginData)
    (version : ProtocolVersion) : KM AuthResult :=
  game_profile ← mojang_authenticate auth (ld_username login_data) verify_token;
  let player_uuid := default random_uuid (parse_uuid (mp_id game_profile)) in
  player_id ← next_player_id;
  let props := login_property <$> mp_properties game_profile in
  let api_profile := Build_GameProfile player_uuid (mp_name game_profile) props in
  _ ← send_login_success player_uuid (mp_name game_profile) props version;
  _ ← km_fire (PostLogin api_profile player_id version);
  _ ← finish_login version;
  mret (Build_AuthResult player_id player_uuid (mp_name game_profile) api_profile true true).

(** A result without packets. *)
Definition offline_auth (player_uuid : Z) (username : rstring) (version : ProtocolVersion) : KM AuthResult :=
  player_id ← next_player_id;
  let api_profile := Build_GameProfile player_uuid username [] in
  _ ← km_fire (PostLogin api_profile player_id version);
  mret (Build_AuthResult player_id player_uuid username api_profile false false).

Definition build_offline_result (username : rstring) (login_data : LoginData) (version : ProtocolVersion)
    : KM AuthResult :=
  offline_auth (default (offline_uuid md5 username) (ld_player_uuid login_data)) username version.

(** The session check, with its event when it fails. *)
Definition mojang_or_failed (auth : MojangAuth) (verify_token : bytes) (login_data : LoginData)
    (version : ProtocolVersion) : KM AuthResult := λ s,
  match run_mojang_auth_flow auth verify_token login_data version s with
  | (Ok r, s) => (Ok r, s)
  | (Err e, s) => (Err e, (km_fire (OnlineAuthFailed (ld_username login_data)) s).2)
  end.

Inductive AuthStrategy := Mojang (auth : MojangAuth) | Offline (mojang : option MojangAuth).

Definition require_login_data (d : option LoginData) : KM LoginData :=
  km_result (match d with Some d => Ok d | None => Err (MissingExtension "LoginData") end).

Definition authenticate (strategy : AuthStrategy) (verify_token : bytes) (login_data : option LoginData)
    (version : ProtocolVersion) (peer : SocketAddr) (domain : rstring) : KM AuthResult :=
  match strategy with
  | Mojang auth =>
    login_data ← require_login_data login_data;
    pre_login ← fire_pre_login (Build_GameProfile 0 (ld_username login_data) []) peer version domain;
    match pre_login with
    | PLForceOffline => build_offline_result (ld_username login_data) login_data version
    | _ => mojang_or_failed auth verify_token login_data version
    end
  | Offline mojang =>
    let player_uuid := default random_uuid (login_data ≫= ld_player_uuid) in
    let username := default [] (ld_username <$> login_data) in
    pre_login ← fire_pre_login (Build_GameProfile player_uuid username []) peer version domain;
    match pre_login, mojang with
    | PLForceOnline, Some auth =>
      login_data ← require_login_data login_data;
      mojang_or_failed auth verify_token login_data version
    | _, _ => offline_auth player_uuid username version
    end
  end.
End auth.

(** ** The hash reads back *)

Definition hex_of (c : Z) : Z := if decide (c < 58) then c - 48 else c - 87.
Definition read_hex (s : rstring) : Z := foldl (λ n c, 16 * n + hex_of c) 0 s.
Definition read_signed_hex (s : rstring) : Z :=
  match s with 45 :: s => - read_hex s | s => read_hex s end.

Lemma hex_of_lower d : 0 ≤ d < 16 → hex_of (lower_hex d) = d.
Proof. unfold hex_of, lower_hex. intros. repeat case_decide; lia. Qed.

Lemma lower_hex_sign d : 0 ≤ d < 16 → lower_hex d ≠ 45.
Proof. unfold lower_hex. intros. case_decide; lia. Qed.

Lemma radix_digits_read fuel n acc : 0 ≤ n < 16 ^ Z.of_nat (S fuel) →
  ∃ d ds, radix_digits (S fuel) n acc = d :: ds ++ acc ∧ read_hex (d :: ds) = n ∧ d ≠ 45.
Proof.
  revert n acc. induction fuel as [|fuel IH]; intros n acc Hn; cbn [radix_digits];
    pose proof (Z.mod_pos_bound n 16 ltac:(lia)) as Hm; pose proof (Z.div_mod n 16 ltac:(lia)) as Hdm.
  - exists (lower_hex (n mod 16)), []. split; [by case_decide|]. split; [|by apply lower_hex_sign].
    unfold read_hex. cbn. rewrite hex_of_lower by done. rewrite Z.mod_small; [lia|]. cbn in Hn. lia.
  - case_decide as Hz.
    + exists (lower_hex (n mod 16)), []. split; [done|]. split; [|by apply lower_hex_sign].
      unfold read_hex. cbn. rewrite hex_of_lower by done. lia.
    + destruct (IH (n / 16) (lower_hex (n mod 16) :: acc)) as (d&ds&He&Hr&Hd).
      { split; [apply Z.div_pos; lia|]. apply Z.div_lt_upper_bound; [lia|].
        rewrite <- Z.pow_succ_r by lia. replace (Z.succ (Z.of_nat (S fuel))) with (Z.of_nat (S (S fuel))) by lia. lia. }
      exists d, (ds ++ [lower_hex (n mod 16)]). cbn [radix_digits] in He. rewrite He. split; [by rewrite <- app_assoc|].
      split; [|done]. unfold read_hex in *. rewrite app_comm_cons, foldl_app, Hr. cbn. rewrite hex_of_lower by done. lia.
Qed.

Theorem server_hash_reads_back (sha1 : bytes → bytes) (server_id : rstring) (secret key : bytes) :
  let digest := sha1 (as_bytes server_id ++ secret ++ key) in
  is_bytes digest → digest ≠ [] →
  read_signed_hex (minecraft_server_hash sha1 server_id secret key) = wrap_s (8 * zlen digest) (from_be_bytes digest).
Proof.
  intros digest Hb Hne. unfold minecraft_server_hash. fold digest.
  assert (Hlen : 0 < zlen digest) by (unfold zlen; destruct digest; [done|cbn; lia]).
  unfold from_signed_bytes_be. destruct digest as [|b0 bs] eqn:Hd; [done|]. rewrite <- Hd in *.
  set (n := wrap_s (8 * zlen digest) (from_be_bytes digest)).
  assert (Hn : in_s (8 * zlen digest) n) by (apply wrap_s_range; lia).
  assert (Hp : 16 ^ Z.of_nat (2 * length digest) = 2 * 2 ^ (8 * zlen digest - 1)).
  { rewrite <- Z.pow_succ_r by lia. change 16 with (2 ^ 4). rewrite <- Z.pow_mul_r by lia. f_equal. unfold zlen. lia. }
  unfold in_s in Hn. destruct (2 * length digest)%nat as [|fuel] eqn:Hf; [unfold zlen in Hlen; lia|].
  unfold to_str_radix_16. case_decide as Hneg.
  - destruct (radix_digits_read fuel (- n) []) as (d&ds&He&Hr&Hd0); [lia|].
    rewrite He, app_nil_r. cbn [read_signed_hex]. rewrite Hr. lia.
  - destruct (radix_digits_read fuel n []) as (d&ds&He&Hr&Hd0); [lia|].
    rewrite He, app_nil_r. rewrite <- Hr. unfold read_signed_hex. by repeat case_match; simplify_eq.
Qed.

(** ** Who is online *)

Section verified.
Context `{CF : Cfb8, ZL : Zlib, UT : UuidText} (registry : PacketRegistry).
Context (listeners : list (HandlerEntry PreLoginEvent)).
Context (parse_uuid : rstring → option Z) (random_uuid : Z) (md5 : bytes → Z).

Lemma km_bind_Ok {A B} (m : KM A) (k : A → KM B) s b s' :
  (m ≫= k) s = (Ok b, s') → ∃ a s1, m s = (Ok a, s1) ∧ k a s1 = (Ok b, s').
Proof. cbv [mbind km_bind]. destruct (m s) as [[a|e] s1]; [|done]. eauto. Qed.

Lemma on_open_Ok {A} (m : LM A) s a s' :
  on_open m s = (Ok a, s') → cn_shut s = false ∧ m (cn_client s, cn_in s) = (Ok a, (cn_client s', cn_in s')) ∧
    cn_shut s' = false.
Proof.
  unfold on_open. destruct (cn_shut s) eqn:Hs; [done|]. destruct (m _) as [r [c ci]]. by intros [= -> <-].
Qed.

Lemma km_result_Ok {A} (r : result CoreError A) s a s' : km_result r s = (Ok a, s') → r = Ok a ∧ s' = s.
Proof. unfold km_result. by intros [= -> ->]. Qed.

(** What sending a packet writes: its bytes in a frame, under the cipher if there is one. *)
Lemma km_send_Ok packet s s' :
  km_send registry packet s = (Ok (), s') → enc_buf (cb_encoder (cn_client s)) = [] →
  ∃ fb, cb_written (cn_client s') = cb_written (cn_client s) ++ (encrypt_opt (cb_encrypt (cn_client s)) fb).1 ∧
    cb_encrypt (cn_client s') = (encrypt_opt (cb_encrypt (cn_client s)) fb).2 ∧
    enc_buf (cb_encoder (cn_client s')) = [] ∧
    cb_decoder (cn_client s') = cb_decoder (cn_client s) ∧ cb_decrypt (cn_client s') = cb_decrypt (cn_client s) ∧
    cn_in s' = cn_in s.
Proof.
  intros Hs Hbuf. apply on_open_Ok in Hs as (_&Hs&_). revert Hs. unfold lm_send, cb_send_packet. cbn [fst snd].
  destruct (get_packet_id _ _ _ _ _) as [id|]; [|done]. destruct (encode_payload _ _) as [data|e]; [|done].
  unfold cb_write, append_raw. destruct (frame_packet _ id data) as [fb|e]; [|done].
  cbn [enc_take enc_buf enc_threshold]. rewrite Hbuf. cbn [app].
  destruct (encrypt_opt _ fb) as [out c] eqn:He. intros [= <- <-]. exists fb. by rewrite He.
Qed.

(** What is read does not depend on what was written. *)
Lemma cb_read_frame_same (c c' : ClientBridge) chunks :
  cb_decoder c' = cb_decoder c → cb_decrypt c' = cb_decrypt c →
  (cb_read_frame c' chunks).1.1 = (cb_read_frame c chunks).1.1.
Proof.
  revert c c'. induction chunks as [|chunk chunks IH]; intros c c' Hd Hk; cbn [cb_read_frame]; rewrite Hd, ?Hk;
    destruct (try_next_frame (cb_decoder c)) as [[[f|]|e] d]; try done.
  destruct (decide (chunk = [])); [done|]. destruct (decrypt_opt _ chunk) as [data k]. by apply IH.
Qed.

Lemma downcast_Some k p (x : kind_type k) : downcast k p = Some x → p = existT k x.
Proof.
  unfold downcast. destruct p as [k' y]. cbn [projT1 projT2]. destruct (decide (k' = k)) as [<-|]; [|done].
  cbn. by intros [= ->].
Qed.

(** Reading writes nothing. *)
Lemma km_read_Ok s f s' :
  on_open lm_read s = (Ok f, s') →
  (cb_read_frame (cn_client s) (cn_in s)).1.1 = Ok (Some f) ∧
  cb_written (cn_client s') = cb_written (cn_client s) ∧ cb_encrypt (cn_client s') = cb_encrypt (cn_client s) ∧
  cb_encoder (cn_client s') = cb_encoder (cn_client s).
Proof.
  intros Hs. apply on_open_Ok in Hs as (_&Hs&_). revert Hs. unfold lm_read. cbn [fst snd].
  pose proof (cb_read_frame_keeps (cn_client s) (cn_in s)) as Hk.
  destruct (cb_read_frame _ _) as [[[[g|]|e] c] ci]; cbn in Hk |- *; [|done..]. intros [= -> <- _]. tauto.
Qed.

(** What it takes to be verified: the next frame of the client is an encryption response,
    what it carries under the proxy's key is a 16-byte secret and the token given to the
    client, and the session server confirms the name for the hash of that secret. *)
Definition verified (auth : MojangAuth) (s : Conn) (name : rstring) (token secret : bytes) (profile : MojangProfile) : Prop :=
  length secret = 16%nat ∧
  (∃ frame id response,
    (cb_read_frame (cn_client s) (cn_in s)).1.1 = Ok (Some frame) ∧
    decode_frame registry frame Login Serverbound (cb_version (cn_client s)) =
      Ok (Typed id (existT KSEncryptionResponse response)) ∧
    ma_rsa_decrypt auth (es_shared_secret response) = Some secret ∧
    ma_rsa_decrypt auth (es_verify_token response) = Some token) ∧
  ma_session_server auth name (minecraft_server_hash (ma_sha1 auth) [] secret (ma_public_key_der auth)) = Some profile.

Lemma mojang_authenticate_Ok auth name token s profile s' :
  mojang_authenticate registry auth name token s = (Ok profile, s') → enc_buf (cb_encoder (cn_client s)) = [] →
  ∃ secret request, verified auth s name token secret profile ∧
    cb_written (cn_client s') = cb_written (cn_client s) ++ (encrypt_opt (cb_encrypt (cn_client s)) request).1 ∧
    cb_encrypt (cn_client s') = Some (EncryptCipher_new secret) ∧ enc_buf (cb_encoder (cn_client s')) = [].
Proof.
  unfold mojang_authenticate. intros Hm Hbuf.
  apply km_bind_Ok in Hm as (v&s0&[= <- <-]&Hm). apply km_bind_Ok in Hm as ([]&s1&Hsend&Hm).
  apply km_bind_Ok in Hm as (f&s2&Hread&Hm). apply km_bind_Ok in Hm as (resp&s3&Hresp&Hm).
  apply km_bind_Ok in Hm as (secret&s4&Hsec&Hm). apply km_bind_Ok in Hm as ([]&s5&Hlen&Hm).
  apply km_bind_Ok in Hm as (dec&s6&Hdec&Hm). apply km_bind_Ok in Hm as ([]&s7&Htok&Hm).
  apply km_bind_Ok in Hm as (pr&s8&Hver&Hm). apply km_bind_Ok in Hm as ([]&s9&Hup&Hm).
  apply km_result_Ok in Hresp as [Hresp ->], Hsec as [Hsec ->], Hlen as [Hlen ->], Hdec as [Hdec ->], Htok as [Htok ->].
  apply km_result_Ok in Hver as [Hver ->]. cbv [mret km_ret] in Hm. injection Hm as -> <-. injection Hup as <-.
  destruct (km_send_Ok _ _ _ Hsend Hbuf) as (fb&Hw&_&Hb1&Hdc&Hdk&Hin).
  destruct (km_read_Ok _ _ _ Hread) as (Hf&Hw2&_&He2). rewrite Hin, (cb_read_frame_same _ _ _ Hdc Hdk) in Hf.
  assert (Hr : ∃ id, decode_frame registry f Login Serverbound (cb_version (cn_client s)) =
    Ok (Typed id (existT KSEncryptionResponse resp))).
  { unfold enc_response_of in Hresp. destruct (decode_frame _ _ _ _ _) as [[id p|]|]; [|done..].
    destruct (downcast KSEncryptionResponse p) as [x|] eqn:Hx; [|done]. injection Hresp as ->.
    exists id. by rewrite (downcast_Some _ _ _ Hx). }
  destruct Hr as [id Hr].
  destruct (decide (length secret = 16%nat)) as [H16|]; [|done].
  unfold verify_session in Hver. destruct (ma_session_server _ _ _) as [p|] eqn:Hss; [|done]. injection Hver as ->.
  destruct (ma_rsa_decrypt auth (es_shared_secret resp)) as [sec|] eqn:Hs1; [|done]. injection Hsec as <-.
  destruct (ma_rsa_decrypt auth (es_verify_token resp)) as [tok|] eqn:Hs2; [|done]. injection Hdec as <-.
  destruct (decide (tok = token)) as [->|]; [|done].
  exists sec, fb. unfold verified. cbn. rewrite Hw2, He2. split_and!; try done. by exists f, id, resp.
Qed.

Lemma mojang_flow_Ok auth token data v s r s' :
  run_mojang_auth_flow registry parse_uuid random_uuid auth token data v s = (Ok r, s') →
  enc_buf (cb_encoder (cn_client s)) = [] →
  ∃ secret profile request plain, verified auth s (ld_username data) token secret profile ∧
    ar_username r = mp_name profile ∧ ar_player_uuid r = default random_uuid (parse_uuid (mp_id profile)) ∧
    cb_written (cn_client s') = cb_written (cn_client s) ++
      (encrypt_opt (cb_encrypt (cn_client s)) request).1 ++ (encrypt_opt (Some (EncryptCipher_new secret)) plain).1 ∧
    cb_encrypt (cn_client s') = (encrypt_opt (Some (EncryptCipher_new secret)) plain).2.
Proof.
  unfold run_mojang_auth_flow. intros Hm Hbuf.
  apply km_bind_Ok in Hm as (profile&s1&Hauth&Hm). apply km_bind_Ok in Hm as (pid&s2&Hid&Hm).
  apply km_bind_Ok in Hm as ([]&s3&Hsend&Hm). apply km_bind_Ok in Hm as ([]&s4&Hfire&Hm).
  apply km_bind_Ok in Hm as ([]&s5&Hfin&Hm). cbv [mret km_ret] in Hm. injection Hm as <- <-.
  destruct (mojang_authenticate_Ok _ _ _ _ _ _ Hauth Hbuf) as (secret&request&Hss&Hw1&He1&Hb1).
  injection Hid as <- <-. injection Hfire as <-.
  unfold send_login_success in Hsend. destruct (km_send_Ok _ _ _ Hsend) as (plain&Hw3&He3&_&_&_&_); [done|].
  cbn in Hw3, He3. rewrite He1 in Hw3, He3.
  exists secret, profile, request, plain. split_and!; [done..| |].
  all: enough (cb_written (cn_client s5) = cb_written (cn_client s3) ∧ cb_encrypt (cn_client s5) = cb_encrypt (cn_client s3))
    as [Hw5 He5] by (rewrite ?Hw5, ?He5, ?Hw3, ?He3, ?Hw1; by rewrite <- ?app_assoc).
  all: unfold finish_login in Hfin; destruct (no_less_than v V1_20_2); [|by injection Hfin as <-];
    unfold consume_login_acknowledged in Hfin; apply km_bind_Ok in Hfin as (f&s6&Hread&Hfin);
    destruct (km_read_Ok _ _ _ Hread) as (_&Hw6&He6&_); apply km_bind_Ok in Hfin as (d&s7&Hd&Hfin);
    unfold km_result in *; injection Hd as _ <-; destruct d; [|done];
    destruct (downcast KSLoginAcknowledged _); [|done]; injection Hfin as <-; cbn; by rewrite Hw6, He6.
Qed.

(** C6: Whatever the strategy and the listeners, a player who is logged in as online answered
    the request for encryption with its next frame, which carries a 16-byte secret and the
    verify token under the proxy's key; the session server confirmed the login name for the
    hash of that secret; the player has the name that the session server gave and the
    identifier it gave, or a random one if that does not parse as a uuid; and everything
    the client is sent from the end of the login on is encrypted with that secret. *)
Theorem online_only_when_verified (strategy : AuthStrategy) (token : bytes) (login_data : option LoginData)
    (v : ProtocolVersion) (peer : SocketAddr) (domain : rstring) (s s' : Conn) (r : AuthResult) :
  authenticate registry listeners parse_uuid random_uuid md5 strategy token login_data v peer domain s = (Ok r, s') →
  cb_encrypt (cn_client s) = None → enc_buf (cb_encoder (cn_client s)) = [] → ar_online_mode r = true →
  ∃ auth data secret profile request plain,
    (strategy = Mojang auth ∨ strategy = Offline (Some auth)) ∧ login_data = Some data ∧ verified auth s (ld_username data) token secret profile ∧
    ar_username r = mp_name profile ∧ ar_player_uuid r = default random_uuid (parse_uuid (mp_id profile)) ∧
    cb_written (cn_client s') = cb_written (cn_client s) ++ request ++
      (encrypt_opt (Some (EncryptCipher_new secret)) plain).1 ∧
    cb_encrypt (cn_client s') = (encrypt_opt (Some (EncryptCipher_new secret)) plain).2.
Proof.
  intros Ha Henc Hbuf Hon.
  assert (Hoff : ∀ uuid name s0, offline_auth uuid name v s0 = (Ok r, s') → False).
  { intros uuid name s0 Ho. unfold offline_auth in Ho. apply km_bind_Ok in Ho as (pid&s1&Hid&Ho).
    apply km_bind_Ok in Ho as ([]&s2&Hf&Ho). cbv [mret km_ret] in Ho. by injection Ho as <- <-. }
  assert (Hpre : ∀ profile pl s0, fire_pre_login registry listeners profile peer v domain s = (Ok pl, s0) → s0 = s).
  { intros profile pl s0. unfold fire_pre_login. destruct (ple_result _); try by intros [= _ <-].
    intros Hd. apply km_bind_Ok in Hd as ([]&s1&_&Hd). done. }
  assert (Hmo : ∀ auth data, mojang_or_failed registry parse_uuid random_uuid auth token data v s = (Ok r, s') →
    ∃ secret profile request plain, verified auth s (ld_username data) token secret profile ∧
      ar_username r = mp_name profile ∧ ar_player_uuid r = default random_uuid (parse_uuid (mp_id profile)) ∧
      cb_written (cn_client s') = cb_written (cn_client s) ++ request ++
        (encrypt_opt (Some (EncryptCipher_new secret)) plain).1 ∧
      cb_encrypt (cn_client s') = (encrypt_opt (Some (EncryptCipher_new secret)) plain).2).
  { intros auth data. unfold mojang_or_failed. destruct (run_mojang_auth_flow _ _ _ _ _ _ _ _) as [[r0|e] s0] eqn:Hr; [|done].
    intros [= -> ->]. destruct (mojang_flow_Ok _ _ _ _ _ _ _ Hr Hbuf) as (secret&profile&request&plain&H1&H3&H4&H5&H6).
    rewrite Henc in H5. exists secret, profile, request, plain. by split_and!. }
  unfold authenticate in Ha. destruct strategy as [auth|mojang].
  - apply km_bind_Ok in Ha as (data&s1&Hd&Ha). unfold require_login_data, km_result in Hd.
    destruct login_data as [d|]; [|done]. injection Hd as <- <-. apply km_bind_Ok in Ha as (pl&s2&Hp&Ha).
    rewrite (Hpre _ _ _ Hp) in Ha. destruct pl; try (destruct (Hmo _ _ Ha) as (secret&profile&request&plain&H1);
      exists auth, d, secret, profile, request, plain; by split_and!; [left| |apply H1..]).
    unfold build_offline_result in Ha. by apply Hoff in Ha.
  - apply km_bind_Ok in Ha as (pl&s2&Hp&Ha). rewrite (Hpre _ _ _ Hp) in Ha.
    destruct pl; try by apply Hoff in Ha. destruct mojang as [auth|]; [|by apply Hoff in Ha].
    apply km_bind_Ok in Ha as (data&s1&Hd&Ha). unfold require_login_data, km_result in Hd.
    destruct login_data as [d|]; [|done]. injection Hd as <- <-.
    destruct (Hmo _ _ Ha) as (secret&profile&request&plain&H1).
    exists auth, d, secret, profile, request, plain. by split_and!; [right| |apply H1..].
Qed.
End verified.

(** ** Sample logins *)

Section sample.
#[local] Existing Instances toy_cfb8 stored_zlib hex_uuid.

Definition sample_secret : bytes := replicate 16 7.
Definition sample_mojang : MojangAuth := {|
  ma_rsa_decrypt bs := Some bs;
  ma_public_key_der := [48; 1];
  ma_sha1 bs := replicate 19 0 ++ [zlen bs];
  ma_session_server name hash :=
    if decide (hash = str "12") then Some (Build_MojangProfile (str "2a") name []) else None |}.
Definition encryption_response : PacketFrame :=
  mk_frame 1 (bytes_of (SEncryptionResponse_encode (mk_SEncryptionResponse sample_secret [1; 2; 3; 4] None) V1_8)).
Definition logging_in (v : ProtocolVersion) (fs : list PacketFrame) : Conn :=
  mk_Conn (ClientBridge_new [] v) [of_frames fs] false [] 1.
Definition notch : LoginData := Build_LoginData (str "Notch") None.
Definition sample_peer : SocketAddr := Build_SocketAddr (V4 1) 40000.
Definition sample_auth (listeners : list (HandlerEntry PreLoginEvent)) (strategy : AuthStrategy) (v : ProtocolVersion)
    (fs : list PacketFrame) : result CoreError AuthResult * Conn :=
  authenticate build_default_registry listeners (λ _, Some 42) 0 (λ _, 0) strategy [1; 2; 3; 4] (Some notch) v
    sample_peer (str "play.example.com") (logging_in v fs).

Definition online_result : AuthResult :=
  Build_AuthResult 1 42 (str "Notch") (Build_GameProfile 42 (str "Notch") []) true true.

Lemma online_only_when_verified_witness :
  (∃ auth data secret profile request plain,
    (Mojang sample_mojang = Mojang auth ∨ Mojang sample_mojang = Offline (Some auth)) ∧ Some notch = Some data ∧
    verified build_default_registry auth (logging_in V1_8 [encryption_response]) (ld_username data) [1; 2; 3; 4] secret profile ∧
    ar_username online_result = mp_name profile ∧ ar_player_uuid online_result = default 0 (Some 42) ∧
    let c := cn_client (sample_auth [] (Mojang sample_mojang) V1_8 [encryption_response]).2 in
    cb_written c = [] ++ request ++ (encrypt_opt (Some (EncryptCipher_new secret)) plain).1 ∧
    cb_encrypt c = (encrypt_opt (Some (EncryptCipher_new secret)) plain).2) ∧
  (sample_auth [] (Mojang sample_mojang) V1_8 [encryption_response]).1 = Ok online_result.
Proof.
  split; [|by vm_compute].
  apply (online_only_when_verified build_default_registry [] (λ _, Some 42) 0 (λ _, 0) (Mojang sample_mojang) [1; 2; 3; 4]
    (Some notch) V1_8 sample_peer (str "play.example.com") (logging_in V1_8 [encryption_response])
    (sample_auth [] (Mojang sample_mojang) V1_8 [encryption_response]).2 online_result); [|done|done|done].
  by vm_compute.
Defined.

Lemma server_hash_reads_back_witness :
  read_signed_hex (minecraft_server_hash (λ _, 0x88 :: replicate 19 0) [] sample_secret []) =
    wrap_s (8 * 20) (from_be_bytes (0x88 :: replicate 19 0)) ∧
  minecraft_server_hash (λ _, 0x88 :: replicate 19 0) [] sample_secret [] =
    str "-7800000000000000000000000000000000000000".
Proof.
  split; [|by vm_compute]. apply (server_hash_reads_back (λ _, 0x88 :: replicate 19 0) [] sample_secret []); [|done].
  by repeat constructor.
Defined.

(** ** What a refused player reads *)

Definition refusing : HandlerEntry PreLoginEvent :=
  mk_HandlerEntry 1 0 (HSync (λ e, Build_PreLoginEvent (ple_profile e) (ple_remote_addr e) (ple_protocol_version e)
    (ple_server_domain e) (PLDenied (component_text (str "Banned"))))).

Theorem refusal_shows_json_source :
  let c := cn_client (sample_auth [refusing] (Mojang sample_mojang) V1_21 []).2 in
  match try_next_frame (queue_bytes PacketDecoder_new (cb_written c)) with
  | (Ok (Some f), _) =>
    frame_id f = 0 ∧
    match CLoginDisconnect_decode V1_21 (payload f) with
    | Ok (packet, _) => (to_plain <$> from_json (ld_reason packet)) = Some (to_json (component_text (str "Banned")))
    | Err _ => False
    end
  | _ => False
  end.
Proof. by vm_compute. Qed.
End sample.
