(* ===== verification/Accounts.v ===== *)
(** * Accounts: the passwords and the accounts of the login plugin

    [infrarust-plugin-auth]: [account.rs], [error.rs], [password.rs], [config.rs],
    [ip_mask.rs], the accounts file ([storage/json.rs]) and the cache and the detector of
    premium names ([premium/]).

    The hashing crates are the class [Hashing]; a salt and an instant are values the
    environment gives.  The accounts are a map; the text of the accounts file is the
    business of [serde_json], the class [AccountJson]. *)
From stdpp Require Import gmap.
From S2P Require Import Prelude Wire Utf8 VarInt Codec Version Packet LoginPackets Json Component Config Router ServerManager.
From S2P Require Import Transport Address EventBus Auth.

(** ** Accounts *)

Section account.
Context `{LC : Lowercase}.

(** [Username::new]; the other names are wrapped strings. *)
Definition Username_new (raw : rstring) : rstring := to_lowercase raw.
End account.

Record PremiumInfo := {
  pi_mojang_uuid : Z;
  pi_force_cracked : bool;
  pi_first_premium_login : Z;
  pi_last_premium_login : option Z }.
Record AuthAccount := {
  ac_username : rstring;
  ac_display_name : rstring;
  ac_password_hash : option rstring;
  ac_registered_at : Z;
  ac_last_login : option Z;
  ac_last_ip : option SockIp;
  ac_login_count : Z;
  ac_premium_info : option PremiumInfo }.
#[export] Instance PremiumInfo_eq_dec : EqDecision PremiumInfo.
Proof. solve_decision. Defined.
#[export] Instance AuthAccount_eq_dec : EqDecision AuthAccount.
Proof. solve_decision. Defined.

Inductive AuthStorageError :=
| AccountAlreadyExists (username : rstring)
| AccountNotFound (username : rstring)
| StorageIo (e : rstring)
| Serialization (e : rstring).
Inductive AuthError :=
| AuthStorageFailed (e : AuthStorageError)
| HashingError (msg : rstring)
| AuthConfigError (msg : rstring)
| AuthIo (e : rstring)
| PasswordValidation (reason : rstring).

(** ** Passwords *)

Record HashingConfig := {
  hc_memory_cost : Z;
  hc_time_cost : Z;
  hc_parallelism : Z;
  hc_migrate_legacy_hashes : bool }.
Definition HashingConfig_default : HashingConfig := Build_HashingConfig 19456 2 1 true.

(** The [argon2] and [bcrypt] crates: the parameters that are refused, the text of a hash for
    a salt, whether a text is a hash, and the two verifications. *)
Class Hashing := {
  argon2_params : Z → Z → Z → result rstring ();
  argon2_hash : HashingConfig → rstring → Z → result rstring rstring;
  argon2_parses : rstring → result rstring ();
  argon2_verify : rstring → rstring → bool;
  bcrypt_verify : rstring → rstring → result rstring bool }.

Section password.
Context `{HS : Hashing}.

Definition validate_hashing_config (c : HashingConfig) : result AuthError () :=
  match argon2_params (hc_memory_cost c) (hc_time_cost c) (hc_parallelism c) with
  | Ok _ => Ok ()
  | Err e => Err (HashingError (str "invalid Argon2 parameters: " ++ e))
  end.

Definition hash_password (password : rstring) (c : HashingConfig) (salt : Z) : result AuthError rstring :=
  match argon2_params (hc_memory_cost c) (hc_time_cost c) (hc_parallelism c) with
  | Err e => Err (HashingError e)
  | Ok _ => match argon2_hash c password salt with Ok h => Ok h | Err e => Err (HashingError e) end
  end.

Definition is_bcrypt_hash (hash : rstring) : bool :=
  starts_with hash (str "$2b$") || starts_with hash (str "$2a$").

(** The last error shows the first bytes of the text; where they end inside a character the
    task panics, which is an error with another message. *)
Definition verify_password (password hash : rstring) : result AuthError bool :=
  if starts_with hash (str "$argon2") then
    match argon2_parses hash with Ok _ => Ok (argon2_verify password hash) | Err e => Err (HashingError e) end
  else if is_bcrypt_hash hash then
    match bcrypt_verify password hash with Ok b => Ok b | Err e => Err (HashingError e) end
  else Err (HashingError (str "unsupported hash format: " ++ take 8 hash)).

Definition verify_and_migrate (password hash : rstring) (c : HashingConfig) (salt : Z)
    : result AuthError (bool * option rstring) :=
  verified ← verify_password password hash;
  if verified && hc_migrate_legacy_hashes c && is_bcrypt_hash hash then
    new_hash ← hash_password password c salt; Ok (true, Some new_hash)
  else Ok (verified, None).

Definition DUMMY_PASSWORD : rstring := str "dummy-timing-attack-resistance-value".
Definition generate_dummy_hash (c : HashingConfig) (salt : Z) : result AuthError rstring :=
  hash_password DUMMY_PASSWORD c salt.
End password.

(** ** Masked addresses *)

Inductive IpMaskingMode := LastTwoOctets | LastOctet | MaskNone.

Definition mask_last_octet (ip : SockIp) : rstring :=
  match ip with
  | V4 a => join_with (str ".") (((λ o, str (pretty o)) <$> take 3 (octets_of a)) ++ [str "x"])
  | V6 a => join_with (str ":") ((hex_group <$> take 4 (groups_of a)) ++ replicate 4 (str "x"))
  end.
Definition mask_last_two_octets (ip : SockIp) : rstring :=
  match ip with
  | V4 a => join_with (str ".") (((λ o, str (pretty o)) <$> take 2 (octets_of a)) ++ [str "x"; str "x"])
  | V6 a => join_with (str ":") ((hex_group <$> take 3 (groups_of a)) ++ replicate 5 (str "x"))
  end.
Definition mask_ip_for_log (ip : SockIp) (mode : IpMaskingMode) : rstring :=
  match mode with
  | MaskNone => ip_to_string ip
  | LastOctet => mask_last_octet ip
  | LastTwoOctets => mask_last_two_octets ip
  end.

Example masked_addresses :
  mask_ip_for_log (V4 0xC0A8012A) <$> [MaskNone; LastOctet; LastTwoOctets] =
    [str "192.168.1.42"; str "192.168.1.x"; str "192.168.x.x"] ∧
  mask_ip_for_log (V6 0x20010db885a312345678abcdef012345) <$> [LastOctet; LastTwoOctets] =
    [str "2001:db8:85a3:1234:x:x:x:x"; str "2001:db8:85a3:x:x:x:x:x"].
Proof. by vm_compute. Qed.

(** ** The accounts file *)

(** What [serde_json] writes and reads. *)
Class AccountJson := {
  accounts_to_json : list AuthAccount → result rstring rstring;
  accounts_from_json : rstring → result rstring (list AuthAccount) }.

(** The accounts, whether they changed since they were last written, and the file itself:
    [None] when there is none. *)
Record JsonFileStorage := mk_Storage {
  js_accounts : gmap rstring AuthAccount;
  js_dirty : bool;
  js_file : option rstring }.

Section storage.
Context `{AJ : AccountJson}.

Definition load_accounts (loaded : list AuthAccount) : gmap rstring AuthAccount :=
  foldl (λ m a, <[ac_username a := a]> m) ∅ loaded.

(** [file] is the file's text if it exists; [read] and [create] are the outcomes of reading
    it and of creating the directory. *)
Definition load_or_create (file : option rstring) (read create : result rstring ())
    : result AuthStorageError JsonFileStorage :=
  match file with
  | Some content =>
    match read with
    | Err e => Err (StorageIo e)
    | Ok _ =>
      match accounts_from_json content with
      | Ok loaded => Ok (mk_Storage (load_accounts loaded) false file)
      | Err e => Err (Serialization e)
      end
    end
  | None => match create with Ok _ => Ok (mk_Storage ∅ false None) | Err e => Err (StorageIo e) end
  end.

Definition set_accounts (m : gmap rstring AuthAccount) (s : JsonFileStorage) : JsonFileStorage :=
  mk_Storage m true (js_file s).

Definition has_account (username : rstring) (s : JsonFileStorage) : bool := bool_decide (is_Some (js_accounts s !! username)).
Definition get_account (username : rstring) (s : JsonFileStorage) : option AuthAccount := js_accounts s !! username.

Definition create_account (account : AuthAccount) (s : JsonFileStorage) : result AuthStorageError () * JsonFileStorage :=
  match js_accounts s !! ac_username account with
  | Some _ => (Err (AccountAlreadyExists (ac_username account)), s)
  | None => (Ok (), set_accounts (<[ac_username account := account]> (js_accounts s)) s)
  end.

Definition with_password_hash (h : rstring) (a : AuthAccount) : AuthAccount :=
  Build_AuthAccount (ac_username a) (ac_display_name a) (Some h) (ac_registered_at a) (ac_last_login a) (ac_last_ip a)
    (ac_login_count a) (ac_premium_info a).
Definition update_password_hash (username new_hash : rstring) (s : JsonFileStorage)
    : result AuthStorageError () * JsonFileStorage :=
  match js_accounts s !! username with
  | Some a => (Ok (), set_accounts (<[username := with_password_hash new_hash a]> (js_accounts s)) s)
  | None => (Err (AccountNotFound username), s)
  end.

Definition delete_account (username : rstring) (s : JsonFileStorage) : bool * JsonFileStorage :=
  match js_accounts s !! username with
  | Some _ => (true, set_accounts (delete username (js_accounts s)) s)
  | None => (false, s)
  end.

(** The counter is a [u64]. *)
Definition with_login (ip : SockIp) (now : Z) (a : AuthAccount) : AuthAccount :=
  Build_AuthAccount (ac_username a) (ac_display_name a) (ac_password_hash a) (ac_registered_at a) (Some now) (Some ip)
    (wrap_u 64 (ac_login_count a + 1)) (ac_premium_info a).
Definition update_last_login (username : rstring) (ip : SockIp) (now : Z) (s : JsonFileStorage) : JsonFileStorage :=
  match js_accounts s !! username with
  | Some a => set_accounts (<[username := with_login ip now a]> (js_accounts s)) s
  | None => s
  end.

Definition with_premium_info (info : option PremiumInfo) (a : AuthAccount) : AuthAccount :=
  Build_AuthAccount (ac_username a) (ac_display_name a) (ac_password_hash a) (ac_registered_at a) (ac_last_login a)
    (ac_last_ip a) (ac_login_count a) info.
Definition update_premium_info (username : rstring) (info : option PremiumInfo) (s : JsonFileStorage)
    : result AuthStorageError () * JsonFileStorage :=
  match js_accounts s !! username with
  | Some a => (Ok (), set_accounts (<[username := with_premium_info info a]> (js_accounts s)) s)
  | None => (Err (AccountNotFound username), s)
  end.

Definition is_force_cracked (username : rstring) (s : JsonFileStorage) : bool :=
  from_option pi_force_cracked false (js_accounts s !! username ≫= ac_premium_info).

(** [write] and [rename]: the outcomes of writing the temporary file and of renaming it. *)
Definition flush (write rename : result rstring ()) (s : JsonFileStorage) : result AuthStorageError () * JsonFileStorage :=
  if negb (js_dirty s) then (Ok (), s)
  else
    let s := mk_Storage (js_accounts s) false (js_file s) in
    match accounts_to_json ((map_to_list (js_accounts s)).*2) with
    | Err e => (Err (Serialization e), s)
    | Ok json =>
      match write with
      | Err e => (Err (StorageIo e), s)
      | Ok _ =>
        match rename with
        | Err e => (Err (StorageIo e), s)
        | Ok _ => (Ok (), mk_Storage (js_accounts s) false (Some json))
        end
      end
    end.
End storage.

(** ** The store as a map *)

(** Every account is kept under its own name. *)
Definition keyed (m : gmap rstring AuthAccount) : Prop := map_Forall (λ u a, ac_username a = u) m.

Section storage_proofs.
Context `{AJ : AccountJson}.

(** The operations of the plugin on its storage. *)
Inductive storage_op :=
| OpCreate (a : AuthAccount)
| OpSetHash (username hash : rstring)
| OpDelete (username : rstring)
| OpLogin (username : rstring) (ip : SockIp) (now : Z)
| OpPremium (username : rstring) (info : option PremiumInfo)
| OpFlush (write rename : result rstring ()).

Definition storage_step (op : storage_op) (s : JsonFileStorage) : JsonFileStorage :=
  match op with
  | OpCreate a => (create_account a s).2
  | OpSetHash u h => (update_password_hash u h s).2
  | OpDelete u => (delete_account u s).2
  | OpLogin u ip now => update_last_login u ip now s
  | OpPremium u info => (update_premium_info u info s).2
  | OpFlush write rename => (flush write rename s).2
  end.

(** What each does to the map of accounts. *)
Definition spec_step (op : storage_op) (m : gmap rstring AuthAccount) : gmap rstring AuthAccount :=
  match op with
  | OpCreate a => <[ac_username a := default a (m !! ac_username a)]> m
  | OpSetHash u h => alter (with_password_hash h) u m
  | OpDelete u => delete u m
  | OpLogin u ip now => alter (with_login ip now) u m
  | OpPremium u info => alter (with_premium_info info) u m
  | OpFlush _ _ => m
  end.

Lemma alter_insert_Some (f : AuthAccount → AuthAccount) (u : rstring) (a : AuthAccount) (m : gmap rstring AuthAccount) : m !! u = Some a → <[u := f a]> m = alter f u m.
Proof. intros Hu. apply map_eq. intros k. destruct (decide (u = k)) as [<-|]; simplify_map_eq; done. Qed.
Lemma alter_None (f : AuthAccount → AuthAccount) (u : rstring) (m : gmap rstring AuthAccount) : m !! u = None → alter f u m = m.
Proof. intros Hu. apply map_eq. intros k. destruct (decide (u = k)) as [<-|]; simplify_map_eq; done. Qed.

Lemma storage_step_spec op s : js_accounts (storage_step op s) = spec_step op (js_accounts s).
Proof.
  destruct op as [a|u h|u|u ip now|u info|write rename]; cbn [storage_step spec_step].
  - unfold create_account. destruct (js_accounts s !! ac_username a) eqn:Hu; [|done]. cbn. by rewrite insert_id.
  - unfold update_password_hash. destruct (js_accounts s !! u) eqn:Hu; cbn; [by apply alter_insert_Some|by rewrite alter_None].
  - unfold delete_account. destruct (js_accounts s !! u) eqn:Hu; cbn; [done|by rewrite delete_id].
  - unfold update_last_login. destruct (js_accounts s !! u) eqn:Hu; cbn; [by apply alter_insert_Some|by rewrite alter_None].
  - unfold update_premium_info. destruct (js_accounts s !! u) eqn:Hu; cbn; [by apply alter_insert_Some|by rewrite alter_None].
  - unfold flush. destruct (js_dirty s); [|done]. cbn [negb]. cbv zeta. destruct (accounts_to_json _); [|done].
    destruct write; [|done]. by destruct rename.
Qed.

Lemma alter_keyed (f : AuthAccount → AuthAccount) (u : rstring) m : (∀ a, ac_username (f a) = ac_username a) → keyed m → keyed (alter f u m).
Proof.
  intros Hf Hk k a. destruct (decide (u = k)) as [<-|Hne]; [|by rewrite lookup_alter_ne by done; apply Hk].
  rewrite lookup_alter_eq. destruct (m !! u) as [a0|] eqn:Hu; [|done]. intros [= <-]. rewrite Hf. by apply Hk.
Qed.

Lemma spec_step_keyed op m : keyed m → keyed (spec_step op m).
Proof.
  intros Hk. destruct op as [a|u h|u|u ip now|u info|write rename]; cbn; try by apply alter_keyed.
  - destruct (m !! ac_username a) as [a0|] eqn:Hu; cbn; [by rewrite insert_id|]. by apply map_Forall_insert_2.
  - by apply map_Forall_delete.
  - done.
Qed.

(** Reading the accounts of a map gives the map. *)
Lemma foldl_insert_list (l : list (rstring * AuthAccount)) (acc : gmap rstring AuthAccount) :
  NoDup l.*1 → foldl (λ m ka, <[ka.1 := ka.2]> m) acc l = list_to_map l ∪ acc.
Proof.
  revert acc. induction l as [|[u a] l IH]; intros acc Hnd; cbn; [by rewrite (left_id_L ∅ (∪))|].
  apply NoDup_cons in Hnd as [Hu Hnd]. rewrite IH by done. rewrite <- insert_union_r.
  - by rewrite insert_union_l.
  - by apply not_elem_of_list_to_map.
Qed.

Lemma load_accounts_list m : keyed m → load_accounts (map_to_list m).*2 = m.
Proof.
  intros Hk. unfold load_accounts.
  enough (∀ l, l ⊆ map_to_list m → ∀ acc : gmap rstring AuthAccount,
    foldl (λ m a, <[ac_username a := a]> m) acc l.*2 = foldl (λ m ka, <[ka.1 := ka.2]> m) acc l) as E.
  { rewrite E by done. rewrite foldl_insert_list by apply NoDup_fst_map_to_list.
    by rewrite (right_id_L ∅ (∪)), list_to_map_to_list. }
  induction l as [|[u a] l IH]; intros Hl acc; [done|]. cbn [fmap list_fmap foldl fst snd].
  assert ((u, a) ∈ map_to_list m) as Hin by (apply Hl; left). apply elem_of_map_to_list in Hin.
  rewrite (Hk u a Hin). apply IH. intros x Hx. apply Hl. by right.
Qed.

(** [serde_json]: accounts can be written, and are read back. *)
Class AccountJsonLaws := accounts_json l : ∃ json, accounts_to_json l = Ok json ∧ accounts_from_json json = Ok l.

(** What has been written is what is known, unless something changed since. *)
Definition saved (s : JsonFileStorage) : Prop :=
  keyed (js_accounts s) ∧
  (js_dirty s = false →
   ∃ s', load_or_create (js_file s) (Ok ()) (Ok ()) = Ok s' ∧ js_accounts s' = js_accounts s).

Definition flushes (op : storage_op) : Prop :=
  match op with OpFlush write rename => write = Ok () ∧ rename = Ok () | _ => True end.

Lemma load_accounts_keyed l : keyed (load_accounts l).
Proof.
  unfold load_accounts. enough (∀ m, keyed m → keyed (foldl (λ m a, <[ac_username a := a]> m) m l)) as E by by apply E.
  induction l as [|a l IH]; intros m Hm; [done|]. by apply IH, map_Forall_insert_2.
Qed.

Lemma load_saved file s : load_or_create file (Ok ()) (Ok ()) = Ok s → saved s.
Proof.
  intros Hl. split.
  - destruct file as [content|]; cbn in Hl; [|injection Hl as <-; done].
    destruct (accounts_from_json content) as [l|]; [|done]. injection Hl as <-. apply load_accounts_keyed.
  - intros _. exists s. split; [|done]. destruct file as [content|]; cbn in Hl.
    + destruct (accounts_from_json content) as [l|] eqn:Hj; [|done]. injection Hl as <-. cbn. by rewrite Hj.
    + by injection Hl as <-.
Qed.

(** Every operation but the flush leaves the file and says so when it changed the map. *)
Lemma storage_step_dirty op s :
  match op with OpFlush _ _ => False | _ => True end →
  js_file (storage_step op s) = js_file s ∧
  (js_dirty (storage_step op s) = false → js_dirty s = false ∧ js_accounts (storage_step op s) = js_accounts s).
Proof.
  destruct op as [a|u h|u|u ip now|u info|write rename]; intros Hop; [..|done]; cbn [storage_step];
    unfold create_account, update_password_hash, delete_account, update_last_login, update_premium_info;
    by destruct (js_accounts s !! _).
Qed.

Lemma storage_step_saved `{!AccountJsonLaws} op s : flushes op → saved s → saved (storage_step op s).
Proof.
  intros Hop [Hk Hs]. split; [rewrite storage_step_spec; by apply spec_step_keyed|].
  destruct op as [a|u h|u|u ip now|u info|write rename]; last first.
  { destruct Hop as [-> ->]. cbn [storage_step]. unfold flush. destruct (js_dirty s) eqn:Hd; [|intros _; by apply Hs]. cbn [negb]. cbv zeta.
    cbn [js_accounts]. destruct (accounts_json ((map_to_list (js_accounts s)).*2)) as (json&->&Hj). cbn. intros _.
    rewrite Hj. eexists. split; [done|]. cbn. by apply load_accounts_list. }
  all: intros Hd; match type of Hd with js_dirty (storage_step ?op _) = _ => destruct (storage_step_dirty op s I) as [Hf Hx] end;
    apply Hx in Hd as [Hd ->]; rewrite Hf; by apply Hs.
Qed.

(** C30: The accounts survive a restart: after any operations whose flushes succeed, the file of
    a final flush is loaded as exactly the accounts the operations gave. *)
Theorem accounts_survive_restart `{AJL : !AccountJsonLaws} (file : option rstring) (s0 : JsonFileStorage) (ops : list storage_op) :
  load_or_create file (Ok ()) (Ok ()) = Ok s0 → Forall flushes ops →
  let s := foldl (flip storage_step) s0 (ops ++ [OpFlush (Ok ()) (Ok ())]) in
  ∃ s', load_or_create (js_file s) (Ok ()) (Ok ()) = Ok s' ∧
    js_accounts s' = foldl (flip spec_step) (js_accounts s0) ops.
Proof.
  intros Hl Hops. cbv zeta.
  assert (Hinv : ∀ ops, Forall flushes ops → saved (foldl (flip storage_step) s0 ops) ∧
    js_accounts (foldl (flip storage_step) s0 ops) = foldl (flip spec_step) (js_accounts s0) ops).
  { intros os. induction os as [|op os IH] using rev_ind; intros Hf; [by split; [eapply load_saved|]|].
    apply Forall_app in Hf as [Hf Ho]. apply Forall_cons in Ho as [Ho _]. destruct (IH Hf) as [Hsv Hacc].
    rewrite !foldl_app. cbn [foldl flip]. rewrite storage_step_spec, Hacc. split; [by apply storage_step_saved|done]. }
  assert (Hall : Forall flushes (ops ++ [OpFlush (Ok ()) (Ok ())])) by (apply Forall_app; split; [done|by repeat constructor]).
  destruct (Hinv _ Hall) as [[_ Hsv] Hacc].
  destruct Hsv as (s'&Hs'&Ha).
  - rewrite foldl_app. cbn [foldl flip storage_step]. unfold flush. generalize (foldl (flip storage_step) s0 ops) as s1.
    intros s1. destruct (js_dirty s1) eqn:Hd; [|done]. cbn [negb]. cbv zeta. cbn [js_accounts].
    by destruct (accounts_json ((map_to_list (js_accounts s1)).*2)) as (json&->&_).
  - exists s'. split; [done|]. by rewrite Ha, Hacc, foldl_app.
Qed.

(** A flush that fails is not tried again until something else changes. *)
Theorem failed_flush_forgotten (s : JsonFileStorage) (e : rstring) :
  let s' := (flush (Err e) (Ok ()) s).2 in
  js_accounts s' = js_accounts s ∧ js_file s' = js_file s ∧ flush (Ok ()) (Ok ()) s' = (Ok (), s').
Proof.
  cbv zeta. assert ((flush (Err e) (Ok ()) s).2 = mk_Storage (js_accounts s) false (js_file s)) as ->; [|done].
  destruct s as [m [|] f]; [|done]. unfold flush. cbn. by destruct (accounts_to_json _).
Qed.
End storage_proofs.

(** ** A store *)

Section sample.

Definition PremiumInfo_countable : Countable PremiumInfo.
Proof.
  apply (inj_countable' (λ i, (pi_mojang_uuid i, pi_force_cracked i, pi_first_premium_login i, pi_last_premium_login i))
    (λ '(u, f, a, b), Build_PremiumInfo u f a b)). by intros [].
Defined.
Definition SockIp_countable : Countable SockIp.
Proof.
  apply (inj_countable' (λ ip, match ip with V4 a => inl a | V6 a => inr a end)
    (λ s, match s with inl a => V4 a | inr a => V6 a end)). by intros [].
Defined.
#[local] Existing Instances PremiumInfo_countable SockIp_countable.
Definition AuthAccount_countable : Countable AuthAccount.
Proof.
  apply (inj_countable' (λ a, (ac_username a, ac_display_name a, ac_password_hash a, ac_registered_at a, ac_last_login a,
      ac_last_ip a, ac_login_count a, ac_premium_info a))
    (λ '(u, d, p, r, l, i, c, m), Build_AuthAccount u d p r l i c m)). by intros [].
Defined.
#[local] Existing Instance AuthAccount_countable.

(** A format that is a number. *)
Definition number_json : AccountJson := {|
  accounts_to_json l := Ok [Z.pos (encode l)];
  accounts_from_json text := match text with
                             | [Z.pos n] => match decode n with Some l => Ok l | None => Err [] end
                             | _ => Err []
                             end |}.
#[local] Existing Instance number_json.

Lemma number_json_laws : AccountJsonLaws.
Proof. intros l. eexists. split; [done|]. cbn. by rewrite decode_encode. Qed.

Definition sample_account (name : string) : AuthAccount :=
  Build_AuthAccount (str name) (str name) (Some (str "$argon2")) 5 None None 0 None.

Lemma accounts_survive_restart_witness :
  ∃ s', load_or_create
      (js_file (foldl (flip storage_step) (mk_Storage ∅ false None)
        ([OpCreate (sample_account "ann"); OpCreate (sample_account "bob"); OpFlush (Ok ()) (Ok ()); OpDelete (str "bob")] ++
         [OpFlush (Ok ()) (Ok ())]))) (Ok ()) (Ok ()) = Ok s' ∧
    js_accounts s' = foldl (flip spec_step) ∅
      [OpCreate (sample_account "ann"); OpCreate (sample_account "bob"); OpFlush (Ok ()) (Ok ()); OpDelete (str "bob")].
Proof.
  apply (accounts_survive_restart (AJL := number_json_laws) None (mk_Storage ∅ false None)
    [OpCreate (sample_account "ann"); OpCreate (sample_account "bob"); OpFlush (Ok ()) (Ok ()); OpDelete (str "bob")]);
    [done|by repeat constructor].
Defined.
End sample.
