(* ===== verification/Premium.v ===== *)
(** * Premium: which names the login plugin has checked with Mojang

    [premium/] of [infrarust-plugin-auth]: the cache of lookups and of failed
    authentications, the lookup, and the listener that decides how a login goes on.  Instants
    and durations are nanoseconds. *)
From stdpp Require Import gmap.
From S2P Require Import Prelude Wire Utf8 VarInt Codec Version Packet LoginPackets Json Component Config Router ServerManager.
From S2P Require Import Transport Address EventBus Switch Auth Accounts.

Inductive PremiumStatus := Premium (mojang_uuid : Z) | Cracked.
Record CacheEntry := { ce_status : PremiumStatus; ce_cached_at : Z }.
Record PremiumCache := mk_PremiumCache {
  pmc_entries : gmap rstring CacheEntry;
  pmc_ttl : Z;
  pmc_failed_auths : gmap rstring Z;
  pmc_failed_auth_ttl : Z }.

Inductive RateLimitAction := AllowOffline | DenyLogin.
#[export] Instance RateLimitAction_eq_dec : EqDecision RateLimitAction.
Proof. solve_decision. Defined.
Inductive NameConflictAction := ConflictKick | ConflictAllowCracked.

Record PremiumMessages := {
  pm_premium_login : rstring;
  pm_premium_name_conflict : rstring;
  pm_cracked_enabled : rstring;
  pm_cracked_disabled : rstring;
  pm_rate_limited : rstring }.
Definition PremiumMessages_default : PremiumMessages := {|
  pm_premium_login := str "&aWelcome back, {username}! (Premium auto-login)";
  pm_premium_name_conflict := str "&cThis username belongs to a premium account. Use the official Minecraft launcher.";
  pm_cracked_enabled := str "&aYou will now login as a cracked player. Reconnect to apply.";
  pm_cracked_disabled := str "&aYou will now login as a premium player. Reconnect to apply.";
  pm_rate_limited := str "&cThe server is busy. Please try again in a moment." |}.

Record PremiumConfig := {
  pcf_enabled : bool;
  pcf_cache_ttl_seconds : Z;
  pcf_rate_limit_per_second : Z;
  pcf_rate_limit_action : RateLimitAction;
  pcf_premium_name_conflict_action : NameConflictAction;
  pcf_allow_cracked_command : bool;
  pcf_failed_auth_remember_seconds : Z;
  pcf_messages : PremiumMessages }.
Definition PremiumConfig_default : PremiumConfig :=
  Build_PremiumConfig false 600 1 AllowOffline ConflictKick true 600 PremiumMessages_default.

Section premium.
Context `{LC : Lowercase}.

(** ** The cache *)

Definition PremiumCache_new (ttl failed_auth_ttl : Z) : PremiumCache := mk_PremiumCache ∅ ttl ∅ failed_auth_ttl.

Definition with_entries (m : gmap rstring CacheEntry) (c : PremiumCache) : PremiumCache :=
  mk_PremiumCache m (pmc_ttl c) (pmc_failed_auths c) (pmc_failed_auth_ttl c).
Definition with_failed (m : gmap rstring Z) (c : PremiumCache) : PremiumCache :=
  mk_PremiumCache (pmc_entries c) (pmc_ttl c) m (pmc_failed_auth_ttl c).

Definition premium_get (now : Z) (username : rstring) (c : PremiumCache) : option PremiumStatus * PremiumCache :=
  let key := to_lowercase username in
  match pmc_entries c !! key with
  | None => (None, c)
  | Some entry =>
    if decide (now - ce_cached_at entry < pmc_ttl c) then (Some (ce_status entry), c)
    else (None, with_entries (delete key (pmc_entries c)) c)
  end.

Definition premium_put (now : Z) (username : rstring) (status : PremiumStatus) (c : PremiumCache) : PremiumCache :=
  with_entries (<[to_lowercase username := Build_CacheEntry status now]> (pmc_entries c)) c.

Definition premium_invalidate (username : rstring) (c : PremiumCache) : PremiumCache :=
  let key := to_lowercase username in
  with_failed (delete key (pmc_failed_auths c)) (with_entries (delete key (pmc_entries c)) c).

Definition mark_auth_failed (now : Z) (username : rstring) (c : PremiumCache) : PremiumCache :=
  with_failed (<[to_lowercase username := now]> (pmc_failed_auths c)) c.

Definition is_auth_failed (now : Z) (username : rstring) (c : PremiumCache) : bool * PremiumCache :=
  let key := to_lowercase username in
  match pmc_failed_auths c !! key with
  | None => (false, c)
  | Some at_ =>
    if decide (now - at_ < pmc_failed_auth_ttl c) then (true, c)
    else (false, with_failed (delete key (pmc_failed_auths c)) c)
  end.

(** ** The lookup *)

Inductive LookupError :=
| RateLimited
| NetworkError (e : rstring)
| UnexpectedStatus (status : Z)
| MalformedResponse (msg : rstring).

(** What the HTTP client gives: the status and the [id] of the body, or why there is none. *)
Record http_response := { hr_status : Z; hr_id : result rstring rstring }.

(** [limited] is the answer of the limiter, [parse_uuid] is [Uuid::parse_str]. *)
Definition lookup_username (parse_uuid : rstring → result rstring Z) (limited : bool)
    (response : result rstring http_response) : result LookupError (option Z) :=
  if limited then Err RateLimited
  else
    match response with
    | Err e => Err (NetworkError e)
    | Ok r =>
      if decide (hr_status r = 200) then
        match hr_id r with
        | Err e => Err (NetworkError e)
        | Ok id =>
          match parse_uuid id with
          | Ok uuid => Ok (Some uuid)
          | Err e => Err (MalformedResponse (str "invalid UUID '" ++ id ++ str "': " ++ e))
          end
        end
      else if decide (hr_status r = 404) then Ok None
      else if decide (hr_status r = 429) then Err RateLimited
      else Err (UnexpectedStatus (hr_status r))
    end.

(** ** The listener *)

(** The result the event leaves the listener with; [before] is the one it came with. *)
Definition pre_login_handler (config : PremiumConfig) (storage : JsonFileStorage) (now : Z)
    (lookup : rstring → result LookupError (option Z)) (username : rstring) (before : PreLoginResult) (c : PremiumCache)
    : PreLoginResult * PremiumCache :=
  if is_force_cracked (Username_new username) storage then (before, c)
  else
    let '(failed, c) := is_auth_failed now username c in
    if failed then (PLForceOffline, c)
    else
      let '(status, c) := premium_get now username c in
      match status with
      | Some (Premium _) => (PLForceOnline, c)
      | Some Cracked => (before, c)
      | None =>
        match lookup username with
        | Ok (Some mojang_uuid) => (PLForceOnline, premium_put now username (Premium mojang_uuid) c)
        | Ok None => (before, premium_put now username Cracked c)
        | Err RateLimited =>
          match pcf_rate_limit_action config with
          | AllowOffline => (before, c)
          | DenyLogin => (PLDenied (component_error (pm_rate_limited (pcf_messages config))), c)
          end
        | Err _ => (before, c)
        end
      end.

(** ** What the listener decides *)

(** A name that is asked for is known to Mojang, or was within the time the cache keeps. *)
Definition known_premium (now : Z) (lookup : rstring → result LookupError (option Z)) (username : rstring) (c : PremiumCache) : Prop :=
  (∃ uuid at_, pmc_entries c !! to_lowercase username = Some (Build_CacheEntry (Premium uuid) at_) ∧ now - at_ < pmc_ttl c) ∨
  ((premium_get now username c).1 = None ∧ ∃ uuid, lookup username = Ok (Some uuid)).

(** An authentication under the name failed within the time it is remembered. *)
Definition recently_failed (now : Z) (username : rstring) (c : PremiumCache) : Prop :=
  ∃ at_, pmc_failed_auths c !! to_lowercase username = Some at_ ∧ now - at_ < pmc_failed_auth_ttl c.

Lemma is_auth_failed_spec now username c :
  ((is_auth_failed now username c).1 = true ↔ recently_failed now username c) ∧
  pmc_entries (is_auth_failed now username c).2 = pmc_entries c ∧ pmc_ttl (is_auth_failed now username c).2 = pmc_ttl c.
Proof.
  unfold is_auth_failed, recently_failed. destruct (pmc_failed_auths c !! to_lowercase username) as [t|]; [|naive_solver].
  case_decide; cbn; naive_solver.
Qed.

Lemma premium_get_entries now username c c' :
  pmc_entries c' = pmc_entries c → pmc_ttl c' = pmc_ttl c → (premium_get now username c').1 = (premium_get now username c).1.
Proof.
  intros He Ht. unfold premium_get. rewrite He, Ht. destruct (pmc_entries c !! to_lowercase username); [|done]. by case_decide.
Qed.

(** A login is made to prove who it is exactly when the name is known to be premium, its
    owner has not asked for passwords, and no authentication under it failed lately. *)
Theorem premium_names_forced_online (config : PremiumConfig) (storage : JsonFileStorage) (now : Z)
    (lookup : rstring → result LookupError (option Z)) (username : rstring) (c : PremiumCache) :
  (pre_login_handler config storage now lookup username PLAllowed c).1 = PLForceOnline ↔
  is_force_cracked (Username_new username) storage = false ∧ ¬ recently_failed now username c ∧
  known_premium now lookup username c.
Proof.
  unfold pre_login_handler. destruct (is_force_cracked _ _); [naive_solver|].
  destruct (is_auth_failed_spec now username c) as (Hf&He&Ht).
  destruct (is_auth_failed now username c) as [failed c1]. cbn [fst snd] in *.
  destruct failed; [split; [done|naive_solver]|]. pose proof (premium_get_entries now username c c1 He Ht) as Hg.
  assert (Hnf : ¬ recently_failed now username c) by (by rewrite <- Hf).
  assert (Hk : known_premium now lookup username c ↔
    (∃ uuid, (premium_get now username c).1 = Some (Premium uuid)) ∨
    ((premium_get now username c).1 = None ∧ ∃ uuid, lookup username = Ok (Some uuid))).
  { unfold known_premium, premium_get. destruct (pmc_entries c !! to_lowercase username) as [[st t]|]; [|naive_solver].
    cbn [ce_cached_at ce_status]. case_decide; cbn; naive_solver. }
  rewrite Hk, <- Hg. destruct (premium_get now username c1) as [status c2]. cbn [fst].
  destruct status as [[uuid|]|]; [naive_solver..|].
  destruct (lookup username) as [[uuid|]|[]]; try destruct (pcf_rate_limit_action config); naive_solver.
Qed.

(** Anyone who fails to authenticate under a name has its owner treated as not being one
    until that is forgotten. *)
Theorem failed_auth_locks_out_owner (config : PremiumConfig) (storage : JsonFileStorage) (now later : Z)
    (lookup : rstring → result LookupError (option Z)) (username : rstring) (c : PremiumCache) :
  is_force_cracked (Username_new username) storage = false → later - now < pmc_failed_auth_ttl c →
  (pre_login_handler config storage later lookup username PLAllowed (mark_auth_failed now username c)).1 = PLForceOffline.
Proof.
  intros Hc Ht. unfold pre_login_handler. rewrite Hc. unfold is_auth_failed, mark_auth_failed, with_failed.
  cbn [pmc_failed_auths pmc_failed_auth_ttl]. rewrite lookup_insert_eq, decide_True by done. done.
Qed.

(** An error of the network lets the login go on, whatever the rate limit's action is. *)
Theorem network_error_lets_in (storage : JsonFileStorage) (now : Z) (e username : rstring) :
  is_force_cracked (Username_new username) storage = false →
  let config := Build_PremiumConfig true 600 1 DenyLogin ConflictKick true 600 PremiumMessages_default in
  (pre_login_handler config storage now (λ _, Err (NetworkError e)) username PLAllowed (PremiumCache_new 0 0)).1 = PLAllowed.
Proof. intros Hc config. unfold pre_login_handler. rewrite Hc. done. Qed.
End premium.
