(* ===== verification/LoginPlugin.v ===== *)
(** * LoginPlugin: the limbo handler that asks for a password

    [handler.rs], [config.rs], [util.rs], [lib.rs] and [commands/] of
    [infrarust-plugin-auth].  The handler is a [LimboHandler] of [Limbo]: its callbacks are
    scripts over the plugin's state [AuthWorld].  No callback looks at the answer to what it
    asks of the session, so each is the list of its requests, in order, and the state after
    it; [script_of] makes the script.  What a callback spawns is put on the list of tasks,
    which run later.  The commands of players and of administrators give the messages they
    send, each with its player.

    The players known to the proxy, the time and the salt the next hash draws are part of the
    state; the environment changes them between the callbacks. *)
From stdpp Require Import gmap.
From S2P Require Import Prelude Wire Utf8 VarInt Codec Frame Version Packet LoginPackets PlayPackets Nbt Json Component.
From S2P Require Import Registry DefaultRegistry Bridge Config Router Middleware ServerManager Forwarding Transport Address.
From S2P Require Import Backend EventBus Filters ProxyCommands Session LimboWorld Switch Limbo Auth Accounts Premium.

(** ** Configuration *)

Record StorageConfig := { sg_backend : rstring; sg_path : rstring; sg_auto_save_interval_seconds : Z }.
Definition StorageConfig_default : StorageConfig := Build_StorageConfig (str "json") (str "accounts.json") 300.
Record PasswordPolicyConfig := {
  pp_min_length : Z;
  pp_max_length : Z;
  pp_blocked_passwords_file : rstring;
  pp_check_username : bool }.
Definition PasswordPolicyConfig_default : PasswordPolicyConfig :=
  Build_PasswordPolicyConfig 8 128 (str "blocked_passwords.txt") true.
Record SecurityConfig := {
  se_max_login_attempts : Z;
  se_login_timeout_seconds : Z;
  se_title_reminder_interval_seconds : Z }.
Definition SecurityConfig_default : SecurityConfig := Build_SecurityConfig 5 60 5.
Record PrivacyConfig := { pv_log_ip_masking : IpMaskingMode }.
Definition PrivacyConfig_default : PrivacyConfig := Build_PrivacyConfig LastTwoOctets.
Record AdminConfig := { adm_admin_usernames : list rstring }.

Record AuthMessages := {
  ms_login_title : rstring;
  ms_login_subtitle : rstring;
  ms_login_success : rstring;
  ms_login_fail : rstring;
  ms_login_max_attempts : rstring;
  ms_login_timeout : rstring;
  ms_login_usage : rstring;
  ms_register_title : rstring;
  ms_register_subtitle : rstring;
  ms_register_success : rstring;
  ms_register_password_mismatch : rstring;
  ms_register_password_too_short : rstring;
  ms_register_password_too_long : rstring;
  ms_register_password_is_username : rstring;
  ms_register_password_blocked : rstring;
  ms_register_account_exists : rstring;
  ms_register_usage : rstring;
  ms_changepassword_success : rstring;
  ms_changepassword_wrong_old : rstring;
  ms_changepassword_usage : rstring;
  ms_unregister_success : rstring;
  ms_unregister_wrong_password : rstring;
  ms_unregister_usage : rstring;
  ms_forcelogin_success : rstring;
  ms_forcelogin_not_in_limbo : rstring;
  ms_forcelogin_not_found : rstring;
  ms_forceunregister_success : rstring;
  ms_forceunregister_not_found : rstring;
  ms_forcechangepassword_success : rstring;
  ms_forcechangepassword_not_found : rstring;
  ms_forcechangepassword_usage : rstring;
  ms_admin_no_permission : rstring;
  ms_authreload_success : rstring;
  ms_reminder_title : rstring;
  ms_reminder_subtitle : rstring;
  ms_unknown_command : rstring }.

Definition AuthMessages_default : AuthMessages := {|
  ms_login_title := str "&6Authentication Required";
  ms_login_subtitle := str "&7/login <password>";
  ms_login_success := str "&aLogin successful!";
  ms_login_fail := str "&cWrong password! &7({attempts_left}/{max_attempts} attempts left)";
  ms_login_max_attempts := str "&cToo many failed login attempts.";
  ms_login_timeout := str "&cAuthentication timed out.";
  ms_login_usage := str "&cUsage: /login <password>";
  ms_register_title := str "&6Welcome, {username}!";
  ms_register_subtitle := str "&7/register <password> <confirm>";
  ms_register_success := str "&aAccount created successfully!";
  ms_register_password_mismatch := str "&cPasswords do not match.";
  ms_register_password_too_short := str "&cPassword must be at least {min_length} characters.";
  ms_register_password_too_long := str "&cPassword must be at most {max_length} characters.";
  ms_register_password_is_username := str "&cPassword cannot be the same as your username.";
  ms_register_password_blocked := str "&cThat password is too common. Please choose a different one.";
  ms_register_account_exists := str "&cAn account already exists for this username.";
  ms_register_usage := str "&cUsage: /register <password> <confirm>";
  ms_changepassword_success := str "&aPassword changed successfully.";
  ms_changepassword_wrong_old := str "&cCurrent password is incorrect.";
  ms_changepassword_usage := str "&cUsage: /changepassword <old> <new>";
  ms_unregister_success := str "&aYour account has been deleted.";
  ms_unregister_wrong_password := str "&cIncorrect password.";
  ms_unregister_usage := str "&cUsage: /unregister <password>";
  ms_forcelogin_success := str "&a{username} has been force-authenticated.";
  ms_forcelogin_not_in_limbo := str "&c{username} is not in auth limbo.";
  ms_forcelogin_not_found := str "&cPlayer not found: {username}";
  ms_forceunregister_success := str "&aAccount deleted for {username}.";
  ms_forceunregister_not_found := str "&cNo account found for {username}.";
  ms_forcechangepassword_success := str "&aPassword changed for {username}.";
  ms_forcechangepassword_not_found := str "&cNo account found for {username}.";
  ms_forcechangepassword_usage := str "&cUsage: /forcechangepassword <username> <password>";
  ms_admin_no_permission := str "&cYou do not have permission to use this command.";
  ms_authreload_success := str "&aAuth configuration reloaded.";
  ms_reminder_title := str "&6Please authenticate";
  ms_reminder_subtitle := str "&7Use /login or /register";
  ms_unknown_command := str "&7Available commands: &f/login&7, &f/register" |}.

Record AuthConfig := {
  cfg_storage : StorageConfig;
  cfg_hashing : HashingConfig;
  cfg_password_policy : PasswordPolicyConfig;
  cfg_security : SecurityConfig;
  cfg_privacy : PrivacyConfig;
  cfg_admin : AdminConfig;
  cfg_messages : AuthMessages;
  cfg_premium : PremiumConfig }.
Definition AuthConfig_default : AuthConfig :=
  Build_AuthConfig StorageConfig_default HashingConfig_default PasswordPolicyConfig_default SecurityConfig_default
    PrivacyConfig_default (Build_AdminConfig []) AuthMessages_default PremiumConfig_default.

Definition format_message (template : rstring) (replacements : list (rstring * rstring)) : rstring :=
  foldl (λ result kv, str_replace kv.1 kv.2 result) template replacements.

Definition parse_colored (text : rstring) : Component := from_legacy text.

Definition is_mojang_authenticated (p : GameProfile) : bool :=
  existsb (λ pr, bool_decide (prop_name pr = str "textures") && bool_decide (is_Some (prop_signature pr))) (gp_properties p).

(** ** State *)

Record AuthSessionState := {
  st_failed_attempts : Z;
  st_needs_register : bool;
  st_username : rstring;
  st_force_completed : bool }.

(** What a task that was spawned does to the storage. *)
Inductive auth_task :=
| TaskCreate (a : AuthAccount)
| TaskSetHash (username hash : rstring)
| TaskLogin (username : rstring) (ip : SockIp) (now : Z)
| TaskPremium (username : rstring) (info : PremiumInfo)
| TaskReminder (player_id : Z).

(** A player as the registry of the proxy shows it. *)
Record PlayerView := { pw_profile : GameProfile; pw_ip : SockIp; pw_admin : bool }.

Record AuthWorld := mk_World {
  aw_sessions : gmap Z AuthSessionState;
  aw_storage : JsonFileStorage;
  aw_premium_cache : option PremiumCache;
  aw_players : gmap Z PlayerView;
  aw_tasks : list auth_task;
  aw_now : Z;
  aw_salt : Z }.

Definition with_sessions (m : gmap Z AuthSessionState) (w : AuthWorld) : AuthWorld :=
  mk_World m (aw_storage w) (aw_premium_cache w) (aw_players w) (aw_tasks w) (aw_now w) (aw_salt w).
Definition with_storage (s : JsonFileStorage) (w : AuthWorld) : AuthWorld :=
  mk_World (aw_sessions w) s (aw_premium_cache w) (aw_players w) (aw_tasks w) (aw_now w) (aw_salt w).
Definition with_cache (c : option PremiumCache) (w : AuthWorld) : AuthWorld :=
  mk_World (aw_sessions w) (aw_storage w) c (aw_players w) (aw_tasks w) (aw_now w) (aw_salt w).
(** [tokio::spawn]. *)
Definition spawn (t : auth_task) (w : AuthWorld) : AuthWorld :=
  mk_World (aw_sessions w) (aw_storage w) (aw_premium_cache w) (aw_players w) (aw_tasks w ++ [t]) (aw_now w) (aw_salt w).

Definition cleanup_session (player_id : Z) (w : AuthWorld) : AuthWorld :=
  with_sessions (delete player_id (aw_sessions w)) w.

Definition force_complete_session (player_id : Z) (w : AuthWorld) : bool * AuthWorld :=
  match aw_sessions w !! player_id with
  | Some e => (true, with_sessions (<[player_id := Build_AuthSessionState (st_failed_attempts e) (st_needs_register e)
                                        (st_username e) true]> (aw_sessions w)) w)
  | None => (false, w)
  end.

(** The task at the head of the list, when it runs; the reminder only sends titles. *)
Definition run_task (t : auth_task) (w : AuthWorld) : AuthWorld :=
  match t with
  | TaskCreate a => with_storage (create_account a (aw_storage w)).2 w
  | TaskSetHash u h => with_storage (update_password_hash u h (aw_storage w)).2 w
  | TaskLogin u ip now => with_storage (update_last_login u ip now (aw_storage w)) w
  | TaskPremium u info => with_storage (update_premium_info u (Some info) (aw_storage w)).2 w
  | TaskReminder _ => w
  end.

(** ** The handler *)

Section handler.
Context `{LC : Lowercase, HS : Hashing}.
Context (config : AuthConfig) (dummy_hash : rstring) (blocked_passwords : gset rstring).

Abbreviation ms := (cfg_messages config) (only parsing).

Definition msg (template : rstring) (replacements : list (rstring * rstring)) : Component :=
  parse_colored (format_message template replacements).

(** The titles' times. *)
Definition title_for (t : TitleData) (fade_in stay fade_out : Z) : TitleData :=
  mk_TitleData (td_title t) (td_subtitle t) fade_in stay fade_out.

Definition clear_title : SessionOp :=
  OpSendTitle (title_for (TitleData_new (component_text []) (component_text [])) 0 0 0).

Definition validate_password (password username : rstring) : option rstring :=
  let policy := cfg_password_policy config in
  if decide (zlen (as_bytes password) < pp_min_length policy) then
    Some (format_message (ms_register_password_too_short ms) [(str "{min_length}", str (pretty (pp_min_length policy)))])
  else if decide (zlen (as_bytes password) > pp_max_length policy) then
    Some (format_message (ms_register_password_too_long ms) [(str "{max_length}", str (pretty (pp_max_length policy)))])
  else if pp_check_username policy && bool_decide (to_lowercase password = username) then
    Some (ms_register_password_is_username ms)
  else if decide (blocked_passwords ≠ ∅ ∧ to_lowercase password ∈ blocked_passwords) then
    Some (ms_register_password_blocked ms)
  else None.

(** A callback: what it asks of the session, in order, and the state after it. *)
Abbreviation callback := (AuthWorld → list SessionOp * AuthWorld) (only parsing).

Section session.
Context (player_id : Z) (profile : GameProfile).

Definition player_ip (w : AuthWorld) : option SockIp := pw_ip <$> aw_players w !! player_id.

(** The task for a premium player, whether its account exists or not. *)
Definition premium_task (w : AuthWorld) : auth_task :=
  let username := Username_new (gp_username profile) in
  let info first := Build_PremiumInfo (gp_uuid profile) false first (Some (aw_now w)) in
  match get_account username (aw_storage w) with
  | Some existing => TaskPremium username (info (from_option pi_first_premium_login (aw_now w) (ac_premium_info existing)))
  | None => TaskCreate (Build_AuthAccount username (gp_username profile) None (aw_now w) (Some (aw_now w)) (player_ip w) 1
                          (Some (info (aw_now w))))
  end.

(** [spawn_reminder_task]. *)
Definition spawn_reminder_task (w : AuthWorld) : AuthWorld :=
  if decide (se_title_reminder_interval_seconds (cfg_security config) = 0) then w else spawn (TaskReminder player_id) w.

(** The result when the player is asked for a password. *)
Definition hold_result : HandlerResult :=
  let timeout_secs := se_login_timeout_seconds (cfg_security config) in
  if decide (timeout_secs = 0) then HHold
  else HHoldWithTimeout (timeout_secs * 1000) (HDeny (parse_colored (ms_login_timeout ms))).

Definition auth_on_player_enter (w : AuthWorld) : list SessionOp * AuthWorld * HandlerResult :=
  if pcf_enabled (cfg_premium config) && is_mojang_authenticated profile then
    let text := str_replace (str "{username}") (gp_username profile) (pm_premium_login (pcf_messages (cfg_premium config))) in
    ([OpSendMessage (parse_colored text)], spawn (premium_task w) w, HAccept)
  else
    let username := Username_new (gp_username profile) in
    let needs_register := negb (has_account username (aw_storage w)) in
    let ops :=
      if needs_register then
        [OpSendTitle (title_for (TitleData_new (msg (ms_register_title ms) [(str "{username}", gp_username profile)])
           (msg (ms_register_subtitle ms) [])) 10 200 0);
         OpSendMessage (msg (ms_register_usage ms) [])]
      else
        [OpSendTitle (title_for (TitleData_new (msg (ms_login_title ms) []) (msg (ms_login_subtitle ms) [])) 10 200 0);
         OpSendMessage (msg (ms_login_usage ms) [])] in
    let w := with_sessions (<[player_id := Build_AuthSessionState 0 needs_register username false]> (aw_sessions w)) w in
    (ops, spawn_reminder_task w, hold_result).

(** What lets a player who was held go on. *)
Definition let_through (text : rstring) (w : AuthWorld) : list SessionOp * AuthWorld :=
  ([OpSendMessage (msg text []); clear_title; OpComplete HAccept], cleanup_session player_id w).

(** A player an administrator has authenticated. *)
Definition force_completed (w : AuthWorld) : bool :=
  from_option st_force_completed false (aw_sessions w !! player_id).

Definition INTERNAL_ERROR : Component := component_error (str "An internal error occurred. Please try again.").

(** The hash a password is checked against, or what the player is told instead. *)
Definition login_hash (username : rstring) (w : AuthWorld) : Component + rstring :=
  match get_account username (aw_storage w) with
  | Some account =>
    match ac_password_hash account with
    | Some h => inr h
    | None =>
      inl (component_error
        (match ac_premium_info account with
         | Some _ => str "This is a premium account. Use your official Minecraft launcher."
         | None => str "This account has no password set. Contact an administrator."
         end))
    end
  | None => inr dummy_hash
  end.

(** The counter is a [u32], the difference saturates. *)
Definition wrong_password : callback := λ w,
  let max := se_max_login_attempts (cfg_security config) in
  let '(should_kick, attempts_left, w) :=
    match aw_sessions w !! player_id with
    | Some e =>
      let attempts := wrap_u 32 (st_failed_attempts e + 1) in
      (bool_decide (max ≤ attempts), Z.max 0 (max - attempts),
       with_sessions (<[player_id := Build_AuthSessionState attempts (st_needs_register e) (st_username e)
                          (st_force_completed e)]> (aw_sessions w)) w)
    | None => (false, 0, w)
    end in
  if should_kick then ([OpComplete (HDeny (msg (ms_login_max_attempts ms) []))], cleanup_session player_id w)
  else ([OpSendMessage (msg (ms_login_fail ms) [(str "{attempts_left}", str (pretty attempts_left));
                                                (str "{max_attempts}", str (pretty max))])], w).

Definition right_password (username : rstring) (migrated_hash : option rstring) : callback := λ w,
  let w := match migrated_hash with Some h => spawn (TaskSetHash username h) w | None => w end in
  let w := match player_ip w with Some ip => spawn (TaskLogin username ip (aw_now w)) w | None => w end in
  let_through (ms_login_success ms) w.

Definition on_login_command (args : list rstring) : callback := λ w,
  match aw_sessions w !! player_id with
  | None => ([], w)
  | Some entry =>
    if st_needs_register entry then ([OpSendMessage (msg (ms_register_usage ms) [])], w)
    else
      let username := st_username entry in
      match args with
      | [] => ([OpSendMessage (msg (ms_login_usage ms) [])], w)
      | password :: _ =>
        match login_hash username w with
        | inl refusal => ([OpSendMessage refusal], w)
        | inr hash =>
          match verify_and_migrate password hash (cfg_hashing config) (aw_salt w) with
          | Ok (true, migrated_hash) => right_password username migrated_hash w
          | Ok (false, _) => wrong_password w
          | Err _ => ([OpSendMessage INTERNAL_ERROR], w)
          end
        end
      end
  end.

Definition new_account (username hash : rstring) (w : AuthWorld) : AuthAccount :=
  Build_AuthAccount username (gp_username profile) (Some hash) (aw_now w) None (player_ip w) 0 None.

Definition on_register (args : list rstring) : callback := λ w,
  match aw_sessions w !! player_id with
  | None => ([], w)
  | Some entry =>
    if negb (st_needs_register entry) then ([OpSendMessage (msg (ms_login_usage ms) [])], w)
    else
      let username := st_username entry in
      match args with
      | password :: confirm :: _ =>
        if negb (bool_decide (password = confirm)) then ([OpSendMessage (msg (ms_register_password_mismatch ms) [])], w)
        else
          match validate_password password username with
          | Some error_msg => ([OpSendMessage (parse_colored error_msg)], w)
          | None =>
            match hash_password password (cfg_hashing config) (aw_salt w) with
            | Err _ => ([OpSendMessage INTERNAL_ERROR], w)
            | Ok hash =>
              match create_account (new_account username hash w) (aw_storage w) with
              | (Ok _, storage) => let_through (ms_register_success ms) (with_storage storage w)
              | (Err (AccountAlreadyExists _), _) => ([OpSendMessage (msg (ms_register_account_exists ms) [])], w)
              | (Err _, _) => ([OpSendMessage INTERNAL_ERROR], w)
              end
            end
          end
      | _ => ([OpSendMessage (msg (ms_register_usage ms) [])], w)
      end
  end.

Definition auth_on_command (command : rstring) (args : list rstring) : callback := λ w,
  if force_completed w then let_through (ms_login_success ms) w
  else if decide (command = str "login" ∨ command = str "l") then on_login_command args w
  else if decide (command = str "register" ∨ command = str "reg") then on_register args w
  else ([OpSendMessage (msg (ms_unknown_command ms) [])], w).

Definition auth_on_chat (message : rstring) : callback := λ w,
  if force_completed w then let_through (ms_login_success ms) w
  else ([OpSendMessage (msg (ms_unknown_command ms) [])], w).

(** ** The handler as a limbo handler *)

Fixpoint script_of {A} (ops : list SessionOp) (w : AuthWorld) (a : A) : Script AuthWorld A :=
  match ops with [] => Return w a | op :: ops => Perform op (λ _, script_of ops w a) end.
Definition script_pair (r : list SessionOp * AuthWorld) : Script AuthWorld () := script_of r.1 r.2 ().

Definition auth_handler : LimboHandler AuthWorld := {|
  lh_name := str "auth";
  on_player_enter w := let '(ops, w, r) := auth_on_player_enter w in script_of ops w r;
  on_command command args w := script_pair (auth_on_command command args w);
  on_chat message w := script_pair (auth_on_chat message w);
  on_disconnect _ w := w;
  on_session_end id _ w := cleanup_session id w |}.
End session.
End handler.

(** ** The blocklist *)

(** [str::lines]: the text between line feeds, without a carriage return at its end; nothing
    after the last line feed is no line. *)
Definition strip_cr (line : rstring) : rstring :=
  match reverse line with c :: l => if decide (c = 13) then reverse l else line | [] => line end.
Fixpoint text_lines (line s : rstring) : list rstring :=
  match s with
  | [] => if decide (line = []) then [] else [strip_cr (reverse line)]
  | c :: s => if decide (c = 10) then strip_cr (reverse line) :: text_lines [] s else text_lines (c :: line) s
  end.

Section commands.
Context `{LC : Lowercase, HS : Hashing}.

(** [file]: the text of the file, when it can be read. *)
Definition load_blocked_passwords (filename : rstring) (file : option rstring) : gset rstring :=
  if decide (filename = []) then ∅
  else
    match file with
    | Some content =>
      list_to_set (filter (λ l, l ≠ [] ∧ starts_with l (str "#") = false)
                     ((λ l, to_lowercase (trim l)) <$> text_lines [] content))
    | None => ∅
    end.

Context (config : AuthConfig).
Abbreviation ms := (cfg_messages config) (only parsing).

(** ** Commands

    The messages a command sends, each with its player, and the state after it. *)
Abbreviation outcome := (list (Z * Component) * AuthWorld)%type (only parsing).

Definition get_player (name : rstring) (w : AuthWorld) : option Z :=
  (λ p, p.2.1) <$> list_find (λ x, gp_username (pw_profile x.2) = name) (map_to_list (aw_players w)).

Definition sender_is_admin (player_id : Z) (w : AuthWorld) : bool := from_option pw_admin false (aw_players w !! player_id).

(** A message to a player who is still there. *)
Definition tell (player_id : Z) (c : Component) (w : AuthWorld) : list (Z * Component) :=
  match aw_players w !! player_id with Some _ => [(player_id, c)] | None => [] end.

Definition NO_ACCOUNT : Component := component_error (str "No account found.").
Definition COMMAND_ERROR : Component := component_error (str "Internal error.").
Definition PREMIUM_ONLY : Component := component_error (str "This is a premium account with no password set.").

Definition change_password_execute (ctx : CommandContext) (w : AuthWorld) : outcome :=
  match cx_player_id ctx with
  | None => ([], w)
  | Some player_id =>
    match aw_players w !! player_id with
    | None => ([], w)
    | Some player =>
      match cx_args ctx with
      | old_password :: new_password :: _ =>
        let username := Username_new (gp_username (pw_profile player)) in
        match get_account username (aw_storage w) with
        | None => ([(player_id, NO_ACCOUNT)], w)
        | Some account =>
          match ac_password_hash account with
          | None => ([(player_id, PREMIUM_ONLY)], w)
          | Some password_hash =>
            match verify_password old_password password_hash with
            | Ok false => ([(player_id, parse_colored (ms_changepassword_wrong_old ms))], w)
            | Err _ => ([(player_id, COMMAND_ERROR)], w)
            | Ok true =>
              match hash_password new_password (cfg_hashing config) (aw_salt w) with
              | Err _ => ([(player_id, COMMAND_ERROR)], w)
              | Ok new_hash =>
                match update_password_hash username new_hash (aw_storage w) with
                | (Err _, storage) => ([(player_id, COMMAND_ERROR)], with_storage storage w)
                | (Ok _, storage) => ([(player_id, parse_colored (ms_changepassword_success ms))], with_storage storage w)
                end
              end
            end
          end
        end
      | _ => ([(player_id, parse_colored (ms_changepassword_usage ms))], w)
      end
    end
  end.

Definition unregister_execute (ctx : CommandContext) (w : AuthWorld) : outcome :=
  match cx_player_id ctx with
  | None => ([], w)
  | Some player_id =>
    match aw_players w !! player_id with
    | None => ([], w)
    | Some player =>
      match cx_args ctx with
      | [] => ([(player_id, parse_colored (ms_unregister_usage ms))], w)
      | password :: _ =>
        let username := Username_new (gp_username (pw_profile player)) in
        match get_account username (aw_storage w) with
        | None => ([(player_id, NO_ACCOUNT)], w)
        | Some account =>
          match ac_password_hash account with
          | None => ([(player_id, PREMIUM_ONLY)], w)
          | Some password_hash =>
            match verify_password password password_hash with
            | Ok true =>
              ([(player_id, parse_colored (ms_unregister_success ms))], with_storage (delete_account username (aw_storage w)).2 w)
            | Ok false => ([(player_id, parse_colored (ms_unregister_wrong_password ms))], w)
            | Err _ => ([(player_id, COMMAND_ERROR)], w)
            end
          end
        end
      end
    end
  end.

(** [cache.invalidate]. *)
Definition invalidate_cache (username : rstring) (w : AuthWorld) : AuthWorld :=
  with_cache (premium_invalidate username <$> aw_premium_cache w) w.

Definition set_force_cracked (b : bool) (info : PremiumInfo) : PremiumInfo :=
  Build_PremiumInfo (pi_mojang_uuid info) b (pi_first_premium_login info) (pi_last_premium_login info).

(** The rest of [/cracked] and [/premium], once the record is known. *)
Definition switch_mode (player_id : Z) (username : rstring) (info : PremiumInfo) (done_ : rstring) (w : AuthWorld) : outcome :=
  match update_premium_info username (Some info) (aw_storage w) with
  | (Err _, storage) => ([(player_id, COMMAND_ERROR)], with_storage storage w)
  | (Ok _, storage) => ([(player_id, parse_colored done_)], invalidate_cache username (with_storage storage w))
  end.

Definition cracked_execute (ctx : CommandContext) (w : AuthWorld) : outcome :=
  match cx_player_id ctx with
  | None => ([], w)
  | Some sender_id =>
    match aw_players w !! sender_id with
    | None => ([], w)
    | Some player =>
      let username := Username_new (gp_username (pw_profile player)) in
      match get_account username (aw_storage w) with
      | None => ([(sender_id, NO_ACCOUNT)], w)
      | Some account =>
        if from_option pi_force_cracked false (ac_premium_info account) then
          ([(sender_id, component_error (str "You are already in cracked mode."))], w)
        else
          match ac_premium_info account with
          | None => ([(sender_id, component_error
                         (str "No premium record found. This command is only for premium players."))], w)
          | Some info => switch_mode sender_id username (set_force_cracked true info)
                           (pm_cracked_enabled (pcf_messages (cfg_premium config))) w
          end
      end
    end
  end.

Definition premium_execute (ctx : CommandContext) (w : AuthWorld) : outcome :=
  match cx_player_id ctx with
  | None => ([], w)
  | Some sender_id =>
    match aw_players w !! sender_id with
    | None => ([], w)
    | Some player =>
      let username := Username_new (gp_username (pw_profile player)) in
      match get_account username (aw_storage w) with
      | None => ([(sender_id, NO_ACCOUNT)], w)
      | Some account =>
        if negb (from_option pi_force_cracked false (ac_premium_info account)) then
          ([(sender_id, component_error (str "You are already in premium mode."))], w)
        else
          match ac_premium_info account with
          | None => ([(sender_id, component_error
                         (str "No premium record found. Reconnect with your official launcher first."))], w)
          | Some info => switch_mode sender_id username (set_force_cracked false info)
                           (pm_cracked_disabled (pcf_messages (cfg_premium config))) w
          end
      end
    end
  end.

(** The message of a template that names a player. *)
Definition named (template target : rstring) : Component :=
  parse_colored (format_message template [(str "{username}", target)]).

(** What every command of an administrator begins with. *)
Definition as_admin (ctx : CommandContext) (w : AuthWorld) (k : Z → outcome) : outcome :=
  match cx_player_id ctx with
  | None => ([], w)
  | Some sender_id =>
    if negb (sender_is_admin sender_id w) then (tell sender_id (parse_colored (ms_admin_no_permission ms)) w, w)
    else k sender_id
  end.

Definition force_login_execute (ctx : CommandContext) (w : AuthWorld) : outcome :=
  as_admin ctx w (λ sender_id,
    match cx_args ctx with
    | [] => (tell sender_id (component_error (str "Usage: /forcelogin <username>")) w, w)
    | target_name :: _ =>
      match get_player target_name w with
      | None => (tell sender_id (named (ms_forcelogin_not_found ms) target_name) w, w)
      | Some target_id =>
        match force_complete_session target_id w with
        | (true, w') =>
          ((target_id, set_color (str "green") (component_text (str "An admin has authenticated you. Type anything to continue.")))
             :: tell sender_id (named (ms_forcelogin_success ms) target_name) w', w')
        | (false, w') => (tell sender_id (named (ms_forcelogin_not_in_limbo ms) target_name) w', w')
        end
      end
    end).

Definition force_unregister_execute (ctx : CommandContext) (w : AuthWorld) : outcome :=
  as_admin ctx w (λ sender_id,
    match cx_args ctx with
    | [] => (tell sender_id (component_error (str "Usage: /forceunregister <username>")) w, w)
    | target_name :: _ =>
      let '(existed, storage) := delete_account (Username_new target_name) (aw_storage w) in
      let w := with_storage storage w in
      (tell sender_id (named (if existed then ms_forceunregister_success ms else ms_forceunregister_not_found ms) target_name) w, w)
    end).

Definition force_change_password_execute (ctx : CommandContext) (w : AuthWorld) : outcome :=
  as_admin ctx w (λ sender_id,
    match cx_args ctx with
    | target_name :: new_password :: _ =>
      let username := Username_new target_name in
      if negb (has_account username (aw_storage w)) then
        (tell sender_id (named (ms_forcechangepassword_not_found ms) target_name) w, w)
      else
        match hash_password new_password (cfg_hashing config) (aw_salt w) with
        | Err _ => (tell sender_id COMMAND_ERROR w, w)
        | Ok new_hash =>
          match update_password_hash username new_hash (aw_storage w) with
          | (Err _, storage) => (tell sender_id COMMAND_ERROR w, with_storage storage w)
          | (Ok _, storage) =>
            (tell sender_id (named (ms_forcechangepassword_success ms) target_name) w, with_storage storage w)
          end
        end
    | _ => (tell sender_id (parse_colored (ms_forcechangepassword_usage ms)) w, w)
    end).

(** [register_commands]: the names, with their other names. *)
Definition registered_commands : list (rstring * list rstring * (CommandContext → AuthWorld → outcome)) :=
  [(str "changepassword", [str "changepw"; str "cp"], change_password_execute);
   (str "unregister", [], unregister_execute);
   (str "forcelogin", [], force_login_execute);
   (str "forceunregister", [], force_unregister_execute);
   (str "forcechangepassword", [], force_change_password_execute)] ++
  (if pcf_enabled (cfg_premium config) && pcf_allow_cracked_command (cfg_premium config) then
     [(str "cracked", [], cracked_execute); (str "premium", [], premium_execute)]
   else []).
End commands.

(** ** Who is let through *)

Section admitted.
Context `{LC : Lowercase, HS : Hashing}.
Context (config : AuthConfig) (dummy_hash : rstring) (blocked : gset rstring) (player_id : Z) (profile : GameProfile).

(** What lets a player through: anything it says after an administrator authenticated the
    session, the password of its account, twice a password the policy allows, which becomes
    that of a new account, or, when its account was deleted while it was asked for the
    password, the password of the dummy hash, which is a constant of the source. *)
Inductive entitled (w : AuthWorld) : ClientMessage → Prop :=
| EntForced m : force_completed player_id w = true → entitled w m
| EntPassword e command password args h :
    command = str "login" ∨ command = str "l" →
    aw_sessions w !! player_id = Some e → st_needs_register e = false →
    (∃ account, get_account (st_username e) (aw_storage w) = Some account ∧ ac_password_hash account = Some h) →
    verify_password password h = Ok true →
    entitled w (LimboCommand command (password :: args))
| EntDummy e command password args :
    command = str "login" ∨ command = str "l" →
    aw_sessions w !! player_id = Some e → st_needs_register e = false →
    get_account (st_username e) (aw_storage w) = None →
    verify_password password dummy_hash = Ok true →
    entitled w (LimboCommand command (password :: args))
| EntRegister e command password args :
    command = str "register" ∨ command = str "reg" →
    aw_sessions w !! player_id = Some e → st_needs_register e = true →
    get_account (st_username e) (aw_storage w) = None → validate_password config blocked password (st_username e) = None →
    entitled w (LimboCommand command (password :: password :: args)).

Definition answer (m : ClientMessage) (w : AuthWorld) : list SessionOp * AuthWorld :=
  match m with
  | LimboCommand command args => auth_on_command config dummy_hash blocked player_id profile command args w
  | LimboChat message => auth_on_chat config player_id message w
  end.

Lemma verify_and_migrate_true password h c salt h' :
  verify_and_migrate password h c salt = Ok (true, h') → verify_password password h = Ok true.
Proof.
  unfold verify_and_migrate. destruct (verify_password password h) as [[|]|]; [done| |done]. cbn. by intros [= ].
Qed.

Ltac not_accepted := intros Hin; exfalso; repeat (apply elem_of_cons in Hin as [Hin|Hin]; [done|]); by apply elem_of_nil in Hin.

Lemma login_entitled args w command :
  command = str "login" ∨ command = str "l" → OpComplete HAccept ∈ (on_login_command config dummy_hash player_id args w).1 →
  entitled w (LimboCommand command args).
Proof.
  intros Hc. unfold on_login_command. destruct (aw_sessions w !! player_id) as [e|] eqn:He; [|not_accepted].
  destruct (st_needs_register e) eqn:Hr; [not_accepted|]. destruct args as [|password args]; [not_accepted|].
  destruct (login_hash dummy_hash (st_username e) w) as [refusal|h] eqn:Hh; [not_accepted|].
  destruct (verify_and_migrate _ _ _ _) as [[[|] mh]|err] eqn:Hv; [| |not_accepted].
  - intros _. apply verify_and_migrate_true in Hv. unfold login_hash in Hh.
    destruct (get_account _ _) as [account|] eqn:Hg; [|injection Hh as <-; by eapply EntDummy].
    eapply EntPassword; [done..| |exact Hv]. exists account. split; [done|].
    destruct (ac_password_hash account); [by injection Hh as ->|done].
  - unfold wrong_password. rewrite He. destruct (bool_decide _); not_accepted.
Qed.

Lemma register_entitled args w command :
  command = str "register" ∨ command = str "reg" → OpComplete HAccept ∈ (on_register config blocked player_id profile args w).1 →
  entitled w (LimboCommand command args).
Proof.
  intros Hc. unfold on_register. destruct (aw_sessions w !! player_id) as [e|] eqn:He; [|not_accepted].
  destruct (st_needs_register e) eqn:Hr; cbn [negb]; [|not_accepted].
  destruct args as [|password [|confirm args]]; [not_accepted..|]. case_bool_decide as Heq; cbn [negb]; [subst confirm|not_accepted].
  destruct (validate_password _ _ _ _) eqn:Hv; [not_accepted|]. destruct (hash_password _ _ _) as [h|]; [|not_accepted].
  unfold create_account. cbn [ac_username new_account].
  destruct (js_accounts (aw_storage w) !! st_username e) eqn:Ha; [not_accepted|]. intros _. by eapply EntRegister.
Qed.

Lemma answer_entitled m w : OpComplete HAccept ∈ (answer m w).1 → entitled w m.
Proof.
  destruct m as [command args|message]; cbn [answer].
  - unfold auth_on_command. destruct (force_completed player_id w) eqn:Hf; [intros _; by apply EntForced|].
    case_decide; [by apply login_entitled|]. case_decide; [by apply register_entitled|not_accepted].
  - unfold auth_on_chat. destruct (force_completed player_id w) eqn:Hf; [intros _; by apply EntForced|not_accepted].
Qed.

(** The plugin only completes the hold it is in. *)
Lemma answer_unscoped m w id r : OpCompleteScoped id r ∉ (answer m w).1.
Proof.
  assert (∀ text w, OpCompleteScoped id r ∉ (let_through player_id text w).1) as Ha.
  { intros text w'. cbn. intros Hin. repeat (apply elem_of_cons in Hin as [Hin|Hin]; [done|]). by apply elem_of_nil in Hin. }
  assert (∀ c, OpCompleteScoped id r ∉ [OpSendMessage c]) as Hm by (intros c Hin%list_elem_of_singleton; done).
  destruct m as [command args|message]; cbn [answer]; [|unfold auth_on_chat; destruct (force_completed _ _); [apply Ha|apply Hm]].
  unfold auth_on_command. destruct (force_completed _ _); [apply Ha|]. case_decide; [|case_decide; [|apply Hm]].
  - unfold on_login_command. destruct (aw_sessions w !! player_id) as [e|] eqn:He; [|apply not_elem_of_nil].
    destruct (st_needs_register e); [apply Hm|]. destruct args; [apply Hm|]. destruct (login_hash _ _ _); [apply Hm|].
    destruct (verify_and_migrate _ _ _ _) as [[[|] ?]|]; [apply Ha| |apply Hm].
    unfold wrong_password. rewrite He. destruct (bool_decide _); [|apply Hm]. by intros Hin%list_elem_of_singleton.
  - unfold on_register. destruct (aw_sessions w !! player_id) as [e|]; [|apply not_elem_of_nil].
    destruct (negb _); [apply Hm|]. destruct args as [|? [|? ?]]; [apply Hm..|]. destruct (negb _); [apply Hm|].
    destruct (validate_password _ _ _ _); [apply Hm|]. destruct (hash_password _ _ _); [|apply Hm].
    destruct (create_account _ _) as [[|[]] ?]; [apply Ha|apply Hm..].
Qed.
End admitted.

(** ** The limbo with the login plugin *)

Section login_limbo.
Context `{CF : Cfb8, ZL : Zlib, UT : UuidText, LC : Lowercase, HS : Hashing} {H : Type}.
Context (registry : PacketRegistry) (version : ProtocolVersion) (player_id : Z) (commands : CommandManagerImpl H).
Context (config : AuthConfig) (dummy_hash : rstring) (blocked : gset rstring) (profile : GameProfile).

Abbreviation plugin := (auth_handler config dummy_hash blocked player_id profile).
Abbreviation LState := (LimboState (W := AuthWorld) (H := H)).
Abbreviation held := (wait_for_hold registry version player_id commands plugin).
Abbreviation hold_one := (hold_step registry version player_id commands plugin).

(** The hold is about to end with the player let through. *)
Definition accepted (s : LState) : Prop := li_changed s = true ∧ li_complete s = Some HAccept.

Lemma try_send_all_keeps frames (s : LState) :
  li_changed (try_send_all frames s).2 = li_changed s ∧ li_complete (try_send_all frames s).2 = li_complete s ∧
  li_world (try_send_all frames s).2 = li_world s.
Proof.
  revert s. induction frames as [|f frames IH]; intros s; [done|]. cbn [try_send_all]. unfold try_send.
  case_decide; [|done]. destruct (IH (with_outgoing (li_outgoing s ++ [f]) s)) as (->&->&->). done.
Qed.

Lemma session_op_accepts op (s : LState) :
  accepted (session_op registry version op s).2 →
  accepted s ∨ op = OpComplete HAccept ∨ ∃ id, op = OpCompleteScoped id HAccept.
Proof.
  unfold accepted.
  assert (Hsend : ∀ r : result CoreError (list PacketFrame),
    let s' := (match r with Err e => (ReplySent (Err e), s)
               | Ok frames => let '(r, s) := try_send_all frames s in (ReplySent r, s) end).2 in
    li_changed s' = li_changed s ∧ li_complete s' = li_complete s).
  { intros [frames|e]; [|done]. destruct (try_send_all_keeps frames s) as (H1&H2&_).
    by destruct (try_send_all frames s). }
  destruct op as [m|t|m|r|id r|]; cbn [session_op].
  1-3: match goal with |- context [(match ?r with Ok _ => _ | Err _ => _ end).2] => destruct (Hsend r) as [-> ->] end; by left.
  - unfold complete_scoped. rewrite decide_True by done. cbn. intros [_ [= ->]]. by right; left.
  - unfold complete_scoped. case_decide; [|by left]. cbn. intros [_ [= ->]]. right; right. eauto.
  - by left.
Qed.

Lemma run_script_accepts {A} ops w (a : A) (s : LState) :
  accepted (run_script registry version (script_of ops w a) s).2 →
  accepted s ∨ OpComplete HAccept ∈ ops ∨ ∃ id, OpCompleteScoped id HAccept ∈ ops.
Proof.
  revert s. induction ops as [|op ops IH]; intros s; cbn [script_of run_script]; [by left|].
  pose proof (session_op_accepts op s) as Hop. destruct (session_op registry version op s) as [r s1]. cbn [snd] in Hop.
  intros [Hacc|[Hin|[id Hin]]]%IH; [|right; left; by right|right; right; exists id; by right].
  destruct (Hop Hacc) as [?|[->|[id ->]]]; [by left|right; left; by left|right; right; exists id; by left].
Qed.

(** The message the next frame of the client carries, when the plugin gets it. *)
Definition next_message (s : LState) : option ClientMessage :=
  match cb_read_frame (li_client s) (li_client_in s) with
  | (Ok (Some frame), _, _) =>
    if is_keepalive_response registry frame version then None
    else
      m ← parse_client_message registry frame version;
      match m with
      | LimboCommand name args =>
        let input := if decide (args = []) then name else name ++ [32] ++ join_args args in
        match dispatch_command (Some player_id) input commands with Some _ => None | None => Some m end
      | LimboChat _ => Some m
      end
  | _ => None
  end.

(** An event that says nothing but what the client says: another task does not complete the
    hold in the plugin's place. *)
Definition quiet (e : hold_event (W := AuthWorld)) : Prop :=
  match e with
  | PluginTask (OpComplete _) _ | PluginTask (OpCompleteScoped _ _) _ => False
  | _ => True
  end.

Abbreviation may_pass := (entitled config dummy_hash blocked player_id).

Lemma step_accepts t e (s s' : LState) :
  quiet e → hold_one t e s = (None, s') → accepted s' →
  accepted s ∨ ∃ m, e = ClientFrame ∧ next_message s = Some m ∧ may_pass (li_world s) m.
Proof.
  intros Hq. destruct e as [| |clk| | | |op w]; cbn [hold_step].
  - unfold next_message. destruct (cb_read_frame (li_client s) (li_client_in s)) as [[[[frame|]|e] c] ci]; [|done..].
    intros [= <-]. unfold hold_frame. destruct (is_keepalive_response registry frame version).
    { destruct (extract_keepalive_id frame version); by left. }
    destruct (parse_client_message registry frame version) as [m|]; [|by left].
    cbv [mbind option_bind]. unfold client_message.
    assert (Hrun : ∀ m, accepted (run_script registry version
        (script_pair (answer config dummy_hash blocked player_id profile m (li_world s))) (with_client c ci s)).2 →
      accepted s ∨ may_pass (li_world s) m).
    { intros m'. unfold script_pair. intros [Ha|[Hin|[id Hin]]]%run_script_accepts; [by left|right|].
      - by apply (answer_entitled _ _ _ _ profile).
      - by apply answer_unscoped in Hin. }
    destruct m as [name args|message].
    + destruct (dispatch_command _ _ _); [by left|]. intros [?|?]%(Hrun (LimboCommand name args)); [by left|right; eauto].
    + intros [?|?]%(Hrun (LimboChat message)); [by left|right; eauto].
  - destruct (li_outgoing s) as [|f q]; [intros [= <-]; by left|]. destruct (cb_write_frame _ _) as [[|] c]; [|done].
    intros [= <-]. by left.
  - destruct (ka_tick _ _ _ _) as [[[f| |]|] k]; try done; [|intros [= <-]; by left].
    destruct (cb_write_frame _ _) as [[|] c]; [|done]. intros [= <-]. by left.
  - destruct (li_changed s) eqn:Hc; [|intros [= <-]; by left]. destruct (li_complete s); [done|]. intros [= <-]. by intros [? _].
  - done.
  - destruct t; [done|]. intros [= <-]. by left.
  - intros [= <-]. intros Hacc. destruct (session_op_accepts op s Hacc) as [?|[->|[id ->]]]; [by left|done..].
Qed.

Lemma held_snoc t pre e (s s1 s2 : LState) :
  held t pre s = (None, [], s1) → hold_one t e s1 = (None, s2) → held t (pre ++ [e]) s = (None, [], s2).
Proof.
  revert s. induction pre as [|e' pre IH]; intros s; cbn [wait_for_hold app]; [intros [= ->] ->; done|].
  destruct (hold_one t e' s) as [[a|] s']; [done|]. apply IH.
Qed.

(** Somewhere in the events, the client says what entitles it. *)
Definition passes t (events : list (hold_event (W := AuthWorld))) (s0 : LState) : Prop :=
  ∃ pre post s1 m, events = pre ++ ClientFrame :: post ∧ held t pre s0 = (None, [], s1) ∧
    next_message s1 = Some m ∧ may_pass (li_world s1) m.

Lemma hold_passes t events (s0 s : LState) done_ rest s' :
  Forall quiet events → process_handler_result <$> (ht_on_timeout <$> t) ≠ Some HContinue →
  held t done_ s0 = (None, [], s) → (accepted s → passes t done_ s0) →
  held t events s = (Some HContinue, rest, s') → passes t (done_ ++ events) s0.
Proof.
  intros Hq Ht. revert s done_. induction Hq as [|e events Hq _ IH]; intros s done_ Hd Hacc; cbn [wait_for_hold]; [done|].
  assert (Hmore : passes t done_ s0 → passes t (done_ ++ e :: events) s0).
  { intros (pre&post&s1&m&->&?&?&?). exists pre, (post ++ e :: events), s1, m. by rewrite <- app_assoc. }
  destruct (hold_one t e s) as [[a|] s1] eqn:He.
  - intros [= -> _ _]. apply Hmore, Hacc. revert He. destruct e as [| |clk| | | |op w]; cbn [hold_step].
    + destruct (cb_read_frame _ _) as [[[[f|]|] c] ci]; done.
    + destruct (li_outgoing s); [done|]. by destruct (cb_write_frame _ _) as [[|] c].
    + destruct (ka_tick _ _ _ _) as [[[f| |]|] k]; try done. by destruct (cb_write_frame _ _) as [[|] c].
    + destruct (li_changed s) eqn:Hc; [|done]. destruct (li_complete s) as [[]|] eqn:Hr; try done.
    + done.
    + intros [= He _]. done.
    + done.
  - intros Hh. replace (done_ ++ e :: events) with ((done_ ++ [e]) ++ events) by by rewrite <- app_assoc.
    apply (IH s1); [by eapply held_snoc| |done].
    intros Hs1. destruct (step_accepts t e s s1 Hq He Hs1) as [Hs|(m&->&Hm&Hp)].
    + destruct (Hacc Hs) as (pre&post&s2&m&->&?&?&?). exists pre, (post ++ [e]), s2, m. by rewrite <- app_assoc.
    + by exists done_, [], s, m.
Qed.

(** A hold is never what completes the chain by itself. *)
Lemma process_not_completed r : process_handler_result r ≠ HExit LCompleted.
Proof. by destruct r. Qed.

Lemma held_not_completed t events (s s' : LState) rest : held t events s ≠ (Some (HExit LCompleted), rest, s').
Proof.
  revert s. induction events as [|e events IH]; intros s; cbn [wait_for_hold]; [done|].
  destruct (hold_one t e s) as [[a|] s1] eqn:He; [|apply IH]. intros [= -> _ _]. revert He.
  destruct e as [| |clk| | | |op w]; cbn [hold_step].
  - by destruct (cb_read_frame _ _) as [[[[f|]|] c] ci].
  - destruct (li_outgoing s); [done|]. by destruct (cb_write_frame _ _) as [[|] c].
  - destruct (ka_tick _ _ _ _) as [[[f| |]|] k]; try done. by destruct (cb_write_frame _ _) as [[|] c].
  - destruct (li_changed s); [|done]. destruct (li_complete s) as [r|]; [|done]. intros [= Hr _]. by apply process_not_completed in Hr.
  - done.
  - destruct t as [t|]; [|done]. intros [= Hr _]. by apply process_not_completed in Hr.
  - done.
Qed.

Lemma run_script_world {A} ops w (a : A) (s : LState) :
  li_world (run_script registry version (script_of ops w a) s).2 = w ∧
  (run_script registry version (script_of ops w a) s).1 = a.
Proof.
  revert s. induction ops as [|op ops IH]; intros s; [done|]. cbn [script_of run_script].
  destruct (session_op registry version op s). apply IH.
Qed.

Lemma enter_ops w r : (OpComplete r ∉ (auth_on_player_enter config player_id profile w).1.1) ∧
  ∀ id, OpCompleteScoped id r ∉ (auth_on_player_enter config player_id profile w).1.1.
Proof.
  unfold auth_on_player_enter. destruct (_ && _); [|destruct (negb _)]; cbn [fst]; (split; [|intros id]); intros Hin;
    repeat (apply elem_of_cons in Hin as [Hin|Hin]; [done|]); by apply elem_of_nil in Hin.
Qed.

(** C20: Where the login plugin is the only limbo handler, nobody leaves its limbo for the server
    unless the player's profile was verified by Mojang and premium logins are on, or, at some
    point of the hold, in the state the plugin was then in, the client said something after
    an administrator had authenticated it, or gave the password of its account, or registered
    one, or gave the password of the dummy hash when its account had been deleted meanwhile.
    Other tasks may change the plugin's state at any time, but do not themselves complete the
    hold. *)
Theorem login_limbo_admits (needs_join_game spawn_sent : bool) (events : list (hold_event (W := AuthWorld))) (s s' : LState) :
  li_changed s = false → Forall quiet events →
  run_handler_chain registry version player_id commands [plugin] needs_join_game spawn_sent events s = (Some LCompleted, s') →
  (pcf_enabled (cfg_premium config) = true ∧ is_mojang_authenticated profile = true) ∨
  ∃ t s0, li_world s0 = (auth_on_player_enter config player_id profile (li_world s)).1.2 ∧ passes t events s0.
Proof.
  intros Hc Hq. cbn [run_handler_chain on_player_enter auth_handler].
  change (li_world (begin_handler s)) with (li_world s).
  destruct (enter_ops (li_world s) HAccept) as [Hno Hno'].
  destruct (auth_on_player_enter config player_id profile (li_world s)) as [[ops w] r] eqn:He. cbn [fst snd] in *.
  destruct (run_script_world ops w r (begin_handler s)) as [Hw Hr].
  assert (Hna : ¬ accepted (run_script registry version (script_of ops w r) (begin_handler s)).2).
  { intros [[Hch _]|[?|[id ?]]]%run_script_accepts; [cbn in Hch; congruence|done|by eapply Hno']. }
  destruct (run_script registry version (script_of ops w r) (begin_handler s)) as [r' s1]. cbn [fst snd] in *. subst r'.
  destruct (pcf_enabled (cfg_premium config) && is_mojang_authenticated profile) eqn:Hp.
  { intros _. left. by apply andb_true_iff. }
  intros Hrun. right. unfold auth_on_player_enter in He. rewrite Hp in He. injection He as _ _ <-.
  assert (∃ t, process_handler_result (hold_result config) = HHolding t ∧
    process_handler_result <$> (ht_on_timeout <$> t) ≠ Some HContinue) as (t&Ht&Hnt).
  { unfold hold_result. case_decide; cbn; eexists; split; done. }
  rewrite Ht in Hrun.
  assert (Hsp : ∃ s2, li_world s2 = w ∧ ¬ accepted s2 ∧ ∃ rest s3, held t events s2 = (Some HContinue, rest, s3)).
  { destruct spawn_sent; [|unfold spawn_for_hold in Hrun; destruct (send_spawn_sequence _ _ _ _) as [[[|]|] c]; [|done..]].
    - exists s1. split_and!; [done..|]. destruct (held t events s1) as [[[[|x|]|] rest] s3] eqn:Hh; [by eauto| |done..].
      injection Hrun as -> _. by apply held_not_completed in Hh.
    - exists (with_client c (li_client_in s1) s1). split_and!; [done..|].
      destruct (held t events _) as [[[[|x|]|] rest] s3] eqn:Hh; [by eauto| |done..].
      injection Hrun as -> _. by apply held_not_completed in Hh. }
  destruct Hsp as (s2&Hw2&Hna2&rest&s3&Hh). exists t, s2. split; [done|].
  by apply (hold_passes t events s2 s2 [] rest s3).
Qed.
End login_limbo.

(** ** How many passwords may be tried *)

Section attempts.
Context `{LC : Lowercase, HS : Hashing}.
Context (config : AuthConfig) (dummy_hash : rstring) (blocked : gset rstring) (player_id : Z) (profile : GameProfile).

Abbreviation try_login := (on_login_command config dummy_hash player_id).

(** The requests each password gives, one after the other. *)
Fixpoint tries (passwords : list rstring) (w : AuthWorld) : list (list SessionOp) * AuthWorld :=
  match passwords with
  | [] => ([], w)
  | p :: ps => let '(ops, w) := try_login [p] w in let '(rest, w) := tries ps w in (ops :: rest, w)
  end.

Definition kick : list SessionOp := [OpComplete (HDeny (msg (ms_login_max_attempts (cfg_messages config)) []))].
Definition told_to_retry (left_ : Z) : list SessionOp :=
  [OpSendMessage (msg (ms_login_fail (cfg_messages config))
     [(str "{attempts_left}", str (pretty left_));
      (str "{max_attempts}", str (pretty (se_max_login_attempts (cfg_security config))))])].

(** C29: Exactly the last of the allowed attempts ends the session: with [max] wrong passwords,
    each but the last is answered with the number that is left, and the last with a kick,
    after which the session is gone. *)
Theorem wrong_passwords_kick (passwords : list rstring) (w : AuthWorld) (e : AuthSessionState) (h : rstring) :
  let max := se_max_login_attempts (cfg_security config) in
  aw_sessions w !! player_id = Some e → st_needs_register e = false → login_hash dummy_hash (st_username e) w = inr h →
  Forall (λ p, verify_password p h = Ok false) passwords →
  0 ≤ st_failed_attempts e → 0 < zlen passwords → st_failed_attempts e + zlen passwords = max → max < 2 ^ 32 →
  (tries passwords w).1 = (told_to_retry <$> reverse (seqZ 1 (zlen passwords - 1))) ++ [kick] ∧
  aw_sessions (tries passwords w).2 !! player_id = None.
Proof.
  intros max He Hr Hh Hps. revert w e He Hr Hh. induction Hps as [|p ps Hp Hps IH]; intros w e He Hr Hh H0 Hl Hm Hb; [done|].
  cbn [tries]. unfold on_login_command. rewrite He, Hr, Hh. unfold verify_and_migrate. rewrite Hp. cbn [mbind result_bind andb].
  cbv [mbind result_bind]. cbn [andb]. unfold wrong_password. rewrite He. fold max.
  assert (wrap_u 32 (st_failed_attempts e + 1) = st_failed_attempts e + 1) as Hw.
  { unfold wrap_u. apply Z.mod_small. unfold zlen in *. cbn [length] in *. lia. }
  rewrite Hw. unfold zlen in *. cbn [length] in *. destruct ps as [|p' ps].
  - rewrite bool_decide_true by (cbn [length] in *; lia). cbn. split; [done|]. by rewrite lookup_delete_eq.
  - rewrite bool_decide_false by (cbn [length] in *; lia). cbn [length] in *.
    set (w' := with_sessions _ w).
    destruct (IH w' (Build_AuthSessionState (st_failed_attempts e + 1) (st_needs_register e) (st_username e)
      (st_force_completed e))) as [IH1 IH2]; cbn [st_failed_attempts st_needs_register st_username]; try done; try lia.
    { subst w'. cbn. by rewrite lookup_insert_eq. }
    destruct (tries (p' :: ps) w') as [opss w2]. cbn [fst snd] in *. split; [|done]. subst opss.
    replace (Z.of_nat (S (S (length ps))) - 1) with (Z.of_nat (S (length ps)) - 1 + 1) by lia.
    rewrite seqZ_app by lia. rewrite reverse_app, fmap_app. change (seqZ ?a 1) with [a]. rewrite reverse_singleton.
    cbn [fmap list_fmap app]. f_equal. unfold told_to_retry. fold max.
    by replace (1 + (Z.of_nat (S (length ps)) - 1)) with (0 `max` (max - (st_failed_attempts e + 1))) by lia.
Qed.
End attempts.

(** ** Registering and logging in *)

Section registered.
Context `{LC : Lowercase, HS : Hashing}.

(** What the hashing crates document: the hash of a password is a text they recognise, and
    the password is verified against it. *)
Class HashingLaws := hashed_verifies c password salt h :
  argon2_hash c password salt = Ok h →
  starts_with h (str "$argon2") = true ∧ argon2_parses h = Ok () ∧ argon2_verify password h = true.

Lemma hash_password_verifies `{!HashingLaws} password c salt h :
  hash_password password c salt = Ok h → verify_password password h = Ok true.
Proof.
  unfold hash_password, verify_password. destruct (argon2_params _ _ _); [|done].
  destruct (argon2_hash c password salt) as [h'|] eqn:Hh; [|done]. intros [= ->].
  destruct (hashed_verifies _ _ _ _ Hh) as (->&->&->). done.
Qed.

Lemma argon2_not_bcrypt h : starts_with h (str "$argon2") = true → is_bcrypt_hash h = false.
Proof.
  unfold is_bcrypt_hash. destruct h as [|c1 [|c2 h]]; cbn; intros Hs; [done|by rewrite andb_false_r in Hs|].
  apply andb_true_iff in Hs as [H1%bool_decide_eq_true Hs]. apply andb_true_iff in Hs as [H2%bool_decide_eq_true _]. by subst.
Qed.

Lemma hash_not_bcrypt `{!HashingLaws} password c salt h :
  hash_password password c salt = Ok h → is_bcrypt_hash h = false.
Proof.
  unfold hash_password. destruct (argon2_params _ _ _); [|done]. destruct (argon2_hash _ _ _) as [h'|] eqn:Hh'; [|done].
  intros [= ->]. by apply argon2_not_bcrypt, (hashed_verifies _ _ _ _ Hh').
Qed.

Context (config : AuthConfig) (dummy_hash : rstring) (blocked : gset rstring).

(** A player that registers is known from then on: the next time it enters it is asked for
    its password, and the one it registered lets it through. *)
Theorem registered_logs_in `{HSL : !HashingLaws} (player_id next_id : Z) (profile : GameProfile) (password : rstring)
    (args args' : list rstring) (w : AuthWorld) :
  let on_enter id w := (auth_on_player_enter config id profile w).1.2 in
  OpComplete HAccept ∈ (on_register config blocked player_id profile (password :: args) (on_enter player_id w)).1 →
  pcf_enabled (cfg_premium config) && is_mojang_authenticated profile = false →
  let w1 := (on_register config blocked player_id profile (password :: args) (on_enter player_id w)).2 in
  OpComplete HAccept ∈ (on_login_command config dummy_hash next_id (password :: args') (on_enter next_id w1)).1.
Proof.
  intros on_enter. cbv zeta. intros Hreg Hp. revert Hreg.
  assert (Hse : ∀ id w0, aw_sessions (on_enter id w0) !! id =
    Some (Build_AuthSessionState 0 (negb (has_account (Username_new (gp_username profile)) (aw_storage w0)))
      (Username_new (gp_username profile)) false) ∧ aw_storage (on_enter id w0) = aw_storage w0).
  { intros id w0. subst on_enter. cbv beta. unfold auth_on_player_enter. rewrite Hp. cbn [fst snd]. unfold spawn_reminder_task.
    case_decide; cbn; by rewrite lookup_insert_eq. }
  destruct (Hse player_id w) as [Hs1 Hst1]. unfold on_register. rewrite Hs1. cbn [st_needs_register st_username].
  set (u := Username_new (gp_username profile)) in *.
  destruct (has_account u (aw_storage w)) eqn:Ha; cbn [negb].
  { intros Hin. exfalso. by apply list_elem_of_singleton in Hin. }
  assert (Hno : ∀ c, OpComplete HAccept ∉ [OpSendMessage c]) by (intros c Hin%list_elem_of_singleton; done).
  destruct args as [|confirm args]; [by intros ?%Hno|]. case_bool_decide as Heq; cbn [negb]; [|by intros ?%Hno].
  destruct (validate_password config blocked password u); [by intros ?%Hno|].
  destruct (hash_password password (cfg_hashing config) _) as [h|] eqn:Hh; [|by intros ?%Hno].
  unfold create_account. cbn [ac_username new_account].
  destruct (js_accounts (aw_storage (on_enter player_id w)) !! u) eqn:Hacc; [by intros ?%Hno|]. intros _. cbn [snd let_through].
  match goal with |- context [on_enter next_id ?w1] => destruct (Hse next_id w1) as [Hs2 Hst2] end.
  unfold on_login_command. rewrite Hs2. cbn [aw_storage cleanup_session with_sessions with_storage] in *.
  unfold has_account. cbn [js_accounts set_accounts]. rewrite lookup_insert_eq, bool_decide_true by eauto.
  cbn [negb st_needs_register st_username]. unfold login_hash, get_account. rewrite Hst2.
  cbn [js_accounts set_accounts]. rewrite lookup_insert_eq. cbn [ac_password_hash new_account]. unfold verify_and_migrate.
  rewrite (hash_password_verifies _ _ _ _ Hh). cbv [mbind result_bind]. cbn [andb].
  rewrite (hash_not_bcrypt _ _ _ _ Hh), andb_false_r. unfold right_password, let_through. cbn [fst]. right. right. by left.
Qed.

(** An account that is deleted while its player is being asked for the password is opened by
    the password of the dummy hash. *)
Theorem dummy_password_opens_deleted_account `{HSL : !HashingLaws} (player_id salt : Z) (w : AuthWorld) (e : AuthSessionState) :
  generate_dummy_hash (cfg_hashing config) salt = Ok dummy_hash →
  aw_sessions w !! player_id = Some e → st_needs_register e = false →
  let w' := with_storage (delete_account (st_username e) (aw_storage w)).2 w in
  OpComplete HAccept ∈ (on_login_command config dummy_hash player_id [DUMMY_PASSWORD] w').1.
Proof.
  intros Hd He Hr w'. unfold on_login_command. subst w'. cbn [aw_sessions with_storage]. rewrite He, Hr.
  unfold login_hash, get_account. cbn [aw_storage with_storage].
  assert (js_accounts (delete_account (st_username e) (aw_storage w)).2 !! st_username e = None) as ->.
  { unfold delete_account. destruct (js_accounts (aw_storage w) !! st_username e) eqn:Ha; [|done]. cbn. by rewrite lookup_delete_eq. }
  unfold verify_and_migrate. rewrite (hash_password_verifies _ _ _ _ Hd). cbv [mbind result_bind].
  rewrite (hash_not_bcrypt _ _ _ _ Hd), andb_false_r.
  right. right. by left.
Qed.

(** [/changepassword] takes any new password: the policy of registration is not asked. *)
Theorem change_password_skips_policy (player_id : Z) (player : PlayerView) (old new : rstring) (account : AuthAccount)
    (h h' : rstring) (w : AuthWorld) :
  let u := Username_new (gp_username (pw_profile player)) in
  aw_players w !! player_id = Some player → get_account u (aw_storage w) = Some account →
  ac_password_hash account = Some h → verify_password old h = Ok true →
  hash_password new (cfg_hashing config) (aw_salt w) = Ok h' →
  get_account u (aw_storage (change_password_execute config
    (Build_CommandContext (Some player_id) [old; new] []) w).2) = Some (with_password_hash h' account).
Proof.
  intros u Hp Ha Hh Hv Hn. unfold change_password_execute. cbn [cx_player_id cx_args]. rewrite Hp. fold u. rewrite Ha, Hh, Hv, Hn.
  unfold update_password_hash. unfold get_account in *. rewrite Ha. cbn. by rewrite lookup_insert_eq.
Qed.
End registered.

(** ** A player in the login limbo *)

Section sample.
#[local] Existing Instances toy_cfb8 stored_zlib hex_uuid ascii_lowercase.

(** A hash that is the password after the prefix. *)
Definition plain_hashing : Hashing := {|
  argon2_params _ _ _ := Ok ();
  argon2_hash _ password _ := Ok (str "$argon2" ++ password);
  argon2_parses _ := Ok ();
  argon2_verify password h := bool_decide (h = str "$argon2" ++ password);
  bcrypt_verify _ _ := Ok false |}.
#[local] Existing Instance plain_hashing.

Lemma starts_with_app p s : starts_with (p ++ s) p = true.
Proof. induction p as [|c p IH]; [by destruct s|]. cbn. by rewrite bool_decide_true, IH by done. Qed.

Lemma plain_hashing_laws : HashingLaws (HS := plain_hashing).
Proof.
  intros c password salt h Hh. apply Ok_inj in Hh as <-. split_and!; [apply starts_with_app|done|].
  by apply bool_decide_eq_true.
Qed.

Definition steve : GameProfile := Build_GameProfile 11 (str "Steve") [].
Definition steve_account : AuthAccount :=
  Build_AuthAccount (str "steve") (str "Steve") (Some (str "$argon2secret12")) 0 None None 0 None.
Definition world_with (accounts : list AuthAccount) : AuthWorld :=
  mk_World ∅ (mk_Storage (load_accounts accounts) false None) None {[7 := Build_PlayerView steve (V4 1) false]} [] 0 0.

(** The frame of a chat command. *)
Definition says (command : string) : PacketFrame :=
  mk_frame (default 0 (get_packet_id build_default_registry KSChatCommand Play Serverbound V1_21))
    (bytes_of (SChatCommand_encode (mk_SChatCommand (str command) []) V1_21)).
Definition in_limbo (commands : list string) (w : AuthWorld) : LimboState (W := AuthWorld) (H := ()) :=
  limbo_state (cb_set_state Play (ClientBridge_new [] V1_21)) [of_frames (says <$> commands)] 0 w.
Definition sample_chain (commands : list string) (events : list (hold_event (W := AuthWorld)))
    : option LimboChainResult * LimboState (W := AuthWorld) (H := ()) :=
  run_handler_chain build_default_registry V1_21 7 command_manager_new
    [auth_handler AuthConfig_default (str "$argon2x") ∅ 7 steve] true false events
    (in_limbo commands (world_with [steve_account])).

Definition two_frames : list (hold_event (W := AuthWorld)) := [ClientFrame; ClientFrame; CompletionReady].

Lemma login_limbo_admits_witness :
  (sample_chain ["login wrong"; "l secret12"]%string two_frames).1 = Some LCompleted ∧
  ((pcf_enabled (cfg_premium AuthConfig_default) = true ∧ is_mojang_authenticated steve = true) ∨
   ∃ t s0, li_world s0 = (auth_on_player_enter AuthConfig_default 7 steve (world_with [steve_account])).1.2 ∧
     passes (H := ()) build_default_registry V1_21 7 command_manager_new AuthConfig_default (str "$argon2x") ∅ steve t two_frames s0).
Proof.
  split; [by vm_compute|].
  apply (login_limbo_admits (H := ()) build_default_registry V1_21 7 command_manager_new AuthConfig_default (str "$argon2x") ∅ steve
    true false two_frames (in_limbo ["login wrong"; "l secret12"]%string (world_with [steve_account]))
    (sample_chain ["login wrong"; "l secret12"]%string two_frames).2); [done|by repeat constructor|].
  assert (Hc : (sample_chain ["login wrong"; "l secret12"]%string two_frames).1 = Some LCompleted) by by vm_compute.
  revert Hc. unfold sample_chain. destruct (run_handler_chain _ _ _ _ _ _ _ _ _) as [r s]. by intros [= ->].
Defined.

Lemma wrong_passwords_kick_witness :
  let w := (auth_on_player_enter AuthConfig_default 7 steve (world_with [steve_account])).1.2 in
  let ps := [str "a"; str "b"; str "c"; str "d"; str "e"] in
  (tries AuthConfig_default [] 7 ps w).1 =
    (told_to_retry AuthConfig_default <$> reverse (seqZ 1 (zlen ps - 1))) ++ [kick AuthConfig_default] ∧
  aw_sessions (tries AuthConfig_default [] 7 ps w).2 !! 7 = None.
Proof.
  apply (wrong_passwords_kick AuthConfig_default [] 7 [str "a"; str "b"; str "c"; str "d"; str "e"] _
    (Build_AuthSessionState 0 false (str "steve") false) (str "$argon2secret12")); try done; try by vm_compute.
  by repeat constructor; vm_compute.
Defined.

Lemma registered_logs_in_witness :
  let w := world_with [] in
  OpComplete HAccept ∈ (on_login_command AuthConfig_default [] 8 [str "password1"]
    ((auth_on_player_enter AuthConfig_default 8 steve
       (on_register AuthConfig_default ∅ 7 steve [str "password1"; str "password1"]
          (auth_on_player_enter AuthConfig_default 7 steve w).1.2).2).1.2)).1.
Proof.
  apply (registered_logs_in AuthConfig_default [] ∅ (HSL := plain_hashing_laws) 7 8 steve (str "password1") [str "password1"] []
    (world_with [])); [|done].
  right. right. by left.
Defined.

Lemma dummy_password_opens_deleted_account_witness :
  let w := (auth_on_player_enter AuthConfig_default 7 steve (world_with [steve_account])).1.2 in
  OpComplete HAccept ∈ (on_login_command AuthConfig_default (str "$argon2" ++ DUMMY_PASSWORD) 7 [DUMMY_PASSWORD]
    (with_storage (delete_account (str "steve") (aw_storage w)).2 w)).1.
Proof.
  apply (dummy_password_opens_deleted_account AuthConfig_default (str "$argon2" ++ DUMMY_PASSWORD) (HSL := plain_hashing_laws)
    7 0 _ (Build_AuthSessionState 0 false (str "steve") false)); by vm_compute.
Defined.
End sample.
