(* ===== verification/Intercepted.v ===== *)
(** * Intercepted: the life of a session

    Models [handler/intercepted/initial_connect.rs] and
    [handler/intercepted/session_loop.rs]: where a player who has logged in goes first, and
    the loop that alternates between a backend and limbo.

    Each turn of the loop has its own schedules (a [round]): the branches the proxy loop
    takes, the events of a hold, and the reads of a switch.  A turn whose schedule ends
    first is still waiting. *)
From S2P Require Import Prelude Wire Utf8 VarInt Codec Frame Version Packet LoginPackets PlayPackets Nbt Json.
From S2P Require Import Component Registry DefaultRegistry Bridge Config Router Middleware ServerManager Forwarding.
From S2P Require Import Backend EventBus Filters ProxyCommands Session LimboWorld Transport Switch Limbo Auth.

(** ** Events *)

Inductive PlayerChooseInitialServerResult :=
| ChooseAllowed
| ChooseRedirect (server : rstring)
| ChooseSendToLimbo (limbo_handlers : list rstring).
Record PlayerChooseInitialServerEvent := {
  ci_player_id : Z;
  ci_profile : GameProfile;
  ci_initial_server : rstring;
  ci_result : PlayerChooseInitialServerResult }.

Inductive KickedFromServerResult :=
| DisconnectPlayer (reason : Component)
| RedirectTo (server : rstring)
| KickSendToLimbo (limbo_handlers : list rstring)
| Notify (message : Component).
Record KickedFromServerEvent := {
  ke_player_id : Z;
  ke_server : rstring;
  ke_reason : Component;
  ke_result : KickedFromServerResult }.
Definition KickedFromServerEvent_new (player_id : Z) (server : rstring) (reason : Component) : KickedFromServerEvent :=
  Build_KickedFromServerEvent player_id server reason (DisconnectPlayer (component_error (str "Kicked from server"))).

Section intercepted.
Context `{CF : Cfb8, ZL : Zlib, UT : UuidText, LC : Lowercase, IPN : IpNets, HS : HmacSha256, PP : Ppp}.
Context {H I W : Type} `{CI : !CodecInstances I}.
Context {TypeId HM PM : Type} `{TED : !EqDecision TypeId}.
Context `{HMD : !DashMap TypeId (list (HandlerEntry ChatMessageEvent)) HM}.
Context `{PMD : !DashMap PacketKey (list (HandlerEntry RawPacketEvent)) PM}.
Context {HR CM' EM HM' : Type} `{DM : !DashMap rstring (LimboHandler W) HR}.
Context `{DMC : !DashMap ProviderId RouterEntry CM', DME : !DashMap rstring ProviderId EM}.
Context `{HMD' : !DashMap TypeId (list (HandlerEntry ServerPreConnectEvent)) HM'}.
Context (md5 : bytes → Z) (properties_json : list Property → rstring).
Context (ip_to_string : SockIp → rstring) (transport_error_text : TransportError → string).
Context (io_error_text : IoErrorKind → rstring).
Context (net : rstring → Z → attempt) (default_timeout : Z).

(** The text of an error. *)
Definition core_error_display (e : CoreError) : rstring :=
  match e with
  | CTransport e => str ("transport error: " +:+ e)
  | CProtocol e => str ("protocol error: " +:+ protocol_error_display e)
  | CConfig e => str ("config error: " +:+ e)
  | Rejected msg => str "pipeline rejected: " ++ msg
  | UnknownDomain domain => str "no server found for domain: " ++ domain
  | ConnectionClosed => str "connection closed"
  | CTimeout msg => str ("connection timeout: " +:+ msg)
  | BackendUnreachable msg => str ("backend unreachable: " +:+ msg)
  | CIo kind => str "io error: " ++ io_error_text kind
  | Forwarding e => str ("forwarding error: " +:+ e)
  | Auth msg => str ("auth error: " +:+ msg)
  | MissingExtension name => str ("missing pipeline extension: " +:+ name) ++ [32; 8212; 32] ++ str "check middleware ordering"
  | InvalidProviderId id => str ("invalid provider id (expected `type@id`): " +:+ id)
  | DockerConnection msg => str ("docker connection error: " +:+ msg)
  | TelemetryInit msg => str ("telemetry initialization error: " +:+ msg)
  | COther msg => str msg
  end.

(** What a session uses of [ProxyServices]. *)
Record SessionServices := {
  se_loop : Services (H := H) (TypeId := TypeId) (HM := HM) (PM := PM);
  se_switch : SwitchServices (HR := HR) (CM' := CM') (EM := EM) (TypeId := TypeId) (HM := HM') (PM := PM);
  se_choose_listeners : list (HandlerEntry PlayerChooseInitialServerEvent);
  se_kicked_listeners : list (HandlerEntry KickedFromServerEvent);
  (** The frames of the registry cache or of its provider. *)
  se_known_packs : ProtocolVersion → result CoreError (option PacketFrame);
  se_registry_frames : ProtocolVersion → result CoreError (list PacketFrame) }.
Context (services : SessionServices).
Abbreviation registry := (sv_registry (se_loop services)).
Abbreviation limbo_registry := (sw_limbo_handler_registry (se_switch services)).

Inductive ConnectionMode :=
| ModeBackend (b : BackendBridge) (bi : list bytes)
| ModeLimbo (handlers : list (LimboHandler W)) (ctx : LimboEntryContext).

(** ** The first server *)

(** [None] is a panic. *)
Definition IM (A : Type) : Type := Conn → option (result CoreError A) * Conn.
#[global] Instance im_ret : MRet IM := λ A a s, (Some (Ok a), s).
#[global] Instance im_bind : MBind IM := λ A B f m s,
  match m s with
  | (Some (Ok a), s) => f a s
  | (Some (Err e), s) => (Some (Err e), s)
  | (None, s) => (None, s)
  end.
Definition im_lift {A} (m : KM A) : IM A := λ s, let '(r, s) := m s in (Some r, s).
Definition im_result {A} (r : result CoreError A) : IM A := λ s, (Some r, s).

Inductive InitialMode := Connected (mode : ConnectionMode) (server_id : rstring) | InitialDenied.

Definition resolve_limbo_strict (names : list rstring) : option (list (LimboHandler W)) :=
  match resolve_handlers limbo_registry names with Ok (h :: hs) => Some (h :: hs) | _ => None end.
Definition resolve_limbo_lenient (names : list rstring) : option (list (LimboHandler W)) :=
  match resolve_handlers_lenient limbo_registry names with [] => None | hs => Some hs end.

Definition im_disconnect (reason : rstring) : IM () := im_lift (disconnect registry reason).

Definition deny_no_limbo_handlers : IM InitialMode :=
  _ ← im_disconnect (str "No limbo handlers configured"); mret InitialDenied.

(** Gives the new value of [login_completed]. *)
Definition ensure_login_complete_for_limbo (auth : AuthResult) (login_completed : bool) (version : ProtocolVersion)
    : IM bool :=
  if login_completed then mret true
  else
    _ ← im_lift (send_login_success registry (ar_player_uuid auth) (ar_username auth) [] version);
    _ ← im_lift (finish_login registry version);
    mret true.

(** [time1] and [time2] are the limits of the configuration phase. *)
Definition config_for_limbo (version : ProtocolVersion) (time1 time2 : nat) : IM () := λ s,
  match on_open (complete_config_for_limbo registry (se_known_packs services version)
                   (se_registry_frames services version) version time1 time2) s with
  | (Ok _, s) => (Some (Ok ()), s)
  | (Err e, s) => (_ ← im_disconnect (core_error_display e); im_result (Err e)) s
  end.
Definition prepare_client_for_limbo (auth : AuthResult) (login_completed : bool) (version : ProtocolVersion)
    (time1 time2 : nat) : IM bool :=
  login_completed ← ensure_login_complete_for_limbo auth login_completed version;
  _ ← (if no_less_than version V1_20_2 then config_for_limbo version time1 time2 else mret ());
  mret login_completed.

Definition build_forwarding_data (auth : AuthResult) (info : ConnectionInfo) (version : ProtocolVersion) : ForwardingData :=
  Build_ForwardingData (ip_to_string (default (sa_ip (ci_peer_addr info)) (ci_real_ip info))) (ar_player_uuid auth)
    (ar_username auth) (gp_properties (ar_api_profile auth)) version None.

(** A step on the new backend, which is dropped when it fails. *)
Definition backend_step {A} (r : result CoreError A * BackendBridge) : result CoreError BackendBridge :=
  match r with (Ok _, b) => Ok b | (Err e, _) => Err e end.

Definition open_first_backend (routing : RoutingData) (version : ProtocolVersion) (info : ConnectionInfo)
    : result CoreError (BackendBridge * list bytes) :=
  let c := rd_server_config routing in
  match connect net default_timeout (rd_config_id routing) (sc_addresses c) (to_connect <$> sc_timeouts c)
          (sc_send_proxy_protocol c) info with
  | Err e => Err (CTransport (transport_error_text e))
  | Ok s => Ok (bridge_on version s, bs_in s)
  end.

(** The login to the backend of a client that has logged in; the client is told of a refusal. *)
Definition login_first_backend (fuel : nat) (velocity_ctx : option (ForwardingData * bytes)) (version : ProtocolVersion)
    (b : BackendBridge) (bi : list bytes) : IM (BackendBridge * list bytes) := λ s,
  match consume_backend_login fuel registry version velocity_ctx b bi with
  | (None, _, _) => (None, s)
  | (Some (Err e), _, _) => (_ ← im_disconnect (str "Backend refused connection"); im_result (Err e)) s
  | (Some (Ok _), b, bi) => (Some (Ok (b, bi)), s)
  end.

Definition connect_to_backend (fuel : nat) (auth : AuthResult) (login_completed : bool) (routing : RoutingData)
    (handshake : HandshakeData) (version : ProtocolVersion) (info : ConnectionInfo)
    : IM (BackendBridge * list bytes) :=
  let c := rd_server_config routing in
  opened ← im_result (open_first_backend routing version info);
  let '(b, bi) := opened : BackendBridge * list bytes in
  if login_completed then
    let handler := resolve_forwarding_handler (sw_forwarding_mode (se_switch services)) c in
    let fwd_data := build_forwarding_data auth info version in
    b ← im_result (backend_step
      (if modifies_handshake handler then
         send_handshake_and_login md5
           (apply_handshake properties_json handler (build_handshake_for_backend handshake c) fwd_data)
           (ar_username auth) registry b
       else send_initial_packets_offline md5 handshake c (ar_username auth) registry b));
    let velocity_ctx := (λ secret, (fwd_data, secret)) <$> sw_forwarding_secret (se_switch services) in
    logged ← login_first_backend fuel velocity_ctx version b bi;
    let '(b, bi) := logged : BackendBridge * list bytes in
    if no_less_than version V1_20_2 then
      b ← im_result (backend_step (bb_send_packet registry (existT KSLoginAcknowledged mk_SLoginAcknowledged) b));
      mret (bb_set_state Config b, bi)
    else mret (b, bi)
  else
    b ← im_result (backend_step (send_initial_packets handshake c b));
    mret (b, bi).

(** The environment of the first connection: the fuel of the backend's login and the limits
    of the configuration phase. *)
Record connect_env := { env_fuel : nat; env_time1 : nat; env_time2 : nat }.

(** The limbo an event or the configuration asks for, if any, with [login_completed]. *)
Definition limbo_by_event (env : connect_env) (auth : AuthResult) (login_completed : bool) (routing : RoutingData)
    (version : ProtocolVersion) (initial_server target_server_id : rstring)
    : IM (bool * option InitialMode) :=
  let enter handlers := Connected (ModeLimbo handlers (InitialConnection initial_server)) target_server_id in
  match fire_pre_connect (se_switch services) (ar_player_id auth) (ar_api_profile auth) target_server_id with
  | PreDenied reason => _ ← im_disconnect (to_json reason); mret (login_completed, Some InitialDenied)
  | PreSendToLimbo limbo_handlers =>
    login_completed ← prepare_client_for_limbo auth login_completed version (env_time1 env) (env_time2 env);
    let names := if decide (limbo_handlers = []) then sc_limbo_handlers (rd_server_config routing) else limbo_handlers in
    match resolve_limbo_lenient names with
    | None => denied ← deny_no_limbo_handlers; mret (login_completed, Some denied)
    | Some handlers => mret (login_completed, Some (enter handlers))
    end
  | PreAllowed | PreConnectTo _ | PreVirtualBackend => mret (login_completed, None)
  end.

Definition limbo_by_config (env : connect_env) (auth : AuthResult) (login_completed : bool) (routing : RoutingData)
    (version : ProtocolVersion) (initial_server target_server_id : rstring) : IM (bool * option InitialMode) :=
  if decide (sc_limbo_handlers (rd_server_config routing) = []) then mret (login_completed, None)
  else
    login_completed ← prepare_client_for_limbo auth login_completed version (env_time1 env) (env_time2 env);
    mret (login_completed,
      (λ handlers, Connected (ModeLimbo handlers (InitialConnection initial_server)) target_server_id) <$>
        resolve_limbo_lenient (sc_limbo_handlers (rd_server_config routing))).

(** The backend, or the limbo when it cannot be reached. *)
Definition backend_or_limbo (env : connect_env) (auth : AuthResult) (login_completed : bool) (routing : RoutingData)
    (handshake : HandshakeData) (version : ProtocolVersion) (info : ConnectionInfo) (target_server_id : rstring)
    : IM InitialMode := λ s,
  let c := rd_server_config routing in
  match connect_to_backend (env_fuel env) auth login_completed routing handshake version info s with
  | (None, s) => (None, s)
  | (Some (Ok (b, bi)), s) => (Some (Ok (Connected (ModeBackend b bi) target_server_id)), s)
  | (Some (Err e), s) =>
    (if decide (sc_limbo_handlers c = []) then
       _ ← im_disconnect (effective_disconnect_message c); mret InitialDenied
     else
       _ ← prepare_client_for_limbo auth login_completed version (env_time1 env) (env_time2 env);
       match resolve_limbo_lenient (sc_limbo_handlers c) with
       | Some handlers =>
         mret (Connected (ModeLimbo handlers (KickedFromServer target_server_id
           (component_text (str "Backend unreachable: " ++ core_error_display e)))) target_server_id)
       | None => _ ← im_disconnect (effective_disconnect_message c); mret InitialDenied
       end) s
  end.

(** The event about a backend that was connected. *)
Definition announce_initial (auth : AuthResult) (m : InitialMode) : IM InitialMode :=
  match m with
  | Connected (ModeBackend b bi) id =>
    _ ← im_lift (km_fire (InitialServerConnected (ar_player_id auth) id)); mret m
  | _ => mret m
  end.

Definition choose_server (auth : AuthResult) (initial_server : rstring) : PlayerChooseInitialServerResult :=
  ci_result (dispatch (se_choose_listeners services)
    (Build_PlayerChooseInitialServerEvent (ar_player_id auth) (ar_api_profile auth) initial_server ChooseAllowed)).

Definition resolve_initial_mode (env : connect_env) (auth : AuthResult) (routing : RoutingData)
    (handshake : HandshakeData) (version : ProtocolVersion) (info : ConnectionInfo) : IM InitialMode :=
  let initial_server := rd_config_id routing in
  let login_completed := ar_login_completed auth in
  match choose_server auth initial_server with
  | ChooseSendToLimbo limbo_handlers =>
    _ ← prepare_client_for_limbo auth login_completed version (env_time1 env) (env_time2 env);
    match resolve_limbo_strict limbo_handlers with
    | None => deny_no_limbo_handlers
    | Some handlers => mret (Connected (ModeLimbo handlers (InitialConnection initial_server)) initial_server)
    end
  | chosen =>
    let target_server_id := match chosen with ChooseRedirect id => id | _ => initial_server end in
    by_event ← limbo_by_event env auth login_completed routing version initial_server target_server_id;
    match by_event.2 with
    | Some mode => mret mode
    | None =>
      by_config ← limbo_by_config env auth by_event.1 routing version initial_server target_server_id;
      match by_config.2 with
      | Some mode => mret mode
      | None =>
        mode ← backend_or_limbo env auth by_config.1 routing handshake version info target_server_id;
        announce_initial auth mode
      end
    end
  end.

(** ** The session loop *)

(** The state of the loop; [lf_reported] is the current server of the player's session in
    the connection registry. *)
Record Life := mk_Life {
  lf_client : ClientBridge;
  lf_client_in : list bytes;
  lf_mode : ConnectionMode;
  lf_current : rstring;
  lf_reported : rstring;
  lf_client_chain : CodecFilterChain I;
  lf_server_chain : CodecFilterChain I;
  lf_cache : RegistryCodecCache;
  lf_ran : list (H * CommandContext);
  lf_world : W;
  lf_fired : list switch_event }.

Definition in_mode (m : ConnectionMode) (l : Life) : Life :=
  mk_Life (lf_client l) (lf_client_in l) m (lf_current l) (lf_reported l) (lf_client_chain l) (lf_server_chain l)
    (lf_cache l) (lf_ran l) (lf_world l) (lf_fired l).
Definition at_client (c : ClientBridge) (ci : list bytes) (l : Life) : Life :=
  mk_Life c ci (lf_mode l) (lf_current l) (lf_reported l) (lf_client_chain l) (lf_server_chain l)
    (lf_cache l) (lf_ran l) (lf_world l) (lf_fired l).
Definition log_fired (es : list switch_event) (l : Life) : Life :=
  mk_Life (lf_client l) (lf_client_in l) (lf_mode l) (lf_current l) (lf_reported l) (lf_client_chain l)
    (lf_server_chain l) (lf_cache l) (lf_ran l) (lf_world l) (lf_fired l ++ es).

(** What the sockets, the tasks and the clock do during one turn of the loop, and whether
    the connection registry has the session when a switch of the turn is done. *)
Record round := {
  ro_ready : list ready;
  ro_holds : list (hold_event (W := W));
  ro_fuel : nat;
  ro_ticks : list side;
  ro_now : Z;
  ro_registered : bool }.

(** [if let Some(session) = connection_registry.get(session_id) { session.set_current_server(..) }].
    When the registry has another session of the same uuid, that one is written, and this
    session's entry is not. *)
Definition report_server (r : round) (server : rstring) (l : Life) : Life :=
  if ro_registered r then
    mk_Life (lf_client l) (lf_client_in l) (lf_mode l) (lf_current l) server (lf_client_chain l) (lf_server_chain l)
      (lf_cache l) (lf_ran l) (lf_world l) (lf_fired l)
  else l.
(** [current_server_id = new_server]. *)
Definition set_current (server : rstring) (l : Life) : Life :=
  mk_Life (lf_client l) (lf_client_in l) (lf_mode l) server (lf_reported l) (lf_client_chain l) (lf_server_chain l)
    (lf_cache l) (lf_ran l) (lf_world l) (lf_fired l).
(** The new backend, what the registry shows, and where the loop is. *)
Definition on_server (r : round) (b : BackendBridge) (bi : list bytes) (server : rstring) (l : Life) : Life :=
  set_current server (report_server r server (in_mode (ModeBackend b bi) l)).

(** [if let Ok(frame) = ... { let _ = client.write_frame(&frame).await; }]. *)
Definition try_write (frame : result CoreError PacketFrame) (l : Life) : Life :=
  match frame with
  | Ok frame => at_client (cb_write_frame frame (lf_client l)).2 (lf_client_in l) l
  | Err _ => l
  end.

(** Of a turn: the loop goes on, it ends, or it is still waiting. *)
Inductive turn := Goes | Ends_with (outcome : ProxyLoopOutcome) | Waits.

Context (p : Player).
Abbreviation version := (pl_version p).

Inductive SwitchAction :=
| SABackend (b : BackendBridge) (bi : list bytes) (server : rstring)
| SALimbo (handlers : list (LimboHandler W)) (ctx : LimboEntryContext)
| SAError (e : CoreError)
| SAPanic.

Definition handle_switch (r : round) (target : rstring) (l : Life) : SwitchAction * Life :=
  let '(res, c, ci, nb, fired) :=
    perform_switch registry md5 properties_json ip_to_string (λ e, str (transport_error_text e)) net default_timeout
      (se_switch services) (ro_fuel r) (ro_ticks r) (lf_current l) target p (lf_client l) (lf_client_in l) in
  let l := log_fired fired (at_client c ci l) in
  match res, nb with
  | Some (Ok (SwitchBackend id)), Some (b, bi) => (SABackend b bi id, l)
  | Some (Ok (SwitchLimbo handlers ctx)), _ => (SALimbo handlers ctx, l)
  | Some (Err e), _ => (SAError e, l)
  | _, _ => (SAPanic, l)
  end.

Inductive DisconnectAction :=
| DSwitchBackend (b : BackendBridge) (bi : list bytes) (server : rstring)
| DSwitchLimbo (handlers : list (LimboHandler W)) (ctx : LimboEntryContext)
| DBreak (outcome : ProxyLoopOutcome).

Definition text_of (t : disconnect_text) : rstring :=
  match t with ReasonText s => s | ReasonError e => core_error_display e end.

Definition server_limbo_handlers (id : rstring) : list rstring :=
  match find_by_server_id (sw_domain_router (se_switch services)) id with
  | Some c => sc_limbo_handlers c
  | None => []
  end.

Definition kicked_result (server kick_reason : rstring) : KickedFromServerResult :=
  ke_result (dispatch (se_kicked_listeners services)
    (KickedFromServerEvent_new (pl_id p) server (component_text kick_reason))).

Definition handle_backend_disconnect (r : round) (reason : option disconnect_text) (l : Life)
    : DisconnectAction * Life :=
  let kick_reason := default (str "Disconnected") (text_of <$> reason) in
  match kicked_result (lf_current l) kick_reason with
  | DisconnectPlayer reason =>
    (DBreak ClientDisconnected, try_write (build_disconnect registry reason version) l)
  | RedirectTo server =>
    match handle_switch r server l with
    | (SABackend b bi id, l) => (DSwitchBackend b bi id, l)
    | (SALimbo [] ctx, l) => (DBreak ClientDisconnected, l)
    | (SALimbo handlers ctx, l) => (DSwitchLimbo handlers ctx, l)
    | (SAError e, l) => (DBreak (BackendDisconnected (Some (ReasonError e))), l)
    | (SAPanic, l) => (DBreak LoopPanicked, l)
    end
  | KickSendToLimbo limbo_handlers =>
    let handler_names := if decide (limbo_handlers = []) then server_limbo_handlers (lf_current l) else limbo_handlers in
    match resolve_handlers_lenient limbo_registry handler_names with
    | [] => (DBreak ClientDisconnected,
             try_write (build_disconnect registry (component_text kick_reason) version) l)
    | handlers => (DSwitchLimbo handlers (KickedFromServer (lf_current l) (component_text kick_reason)), l)
    end
  | Notify message =>
    (DBreak (BackendDisconnected None), try_write (build_system_chat_message registry message version) l)
  end.

(** The "$limbo" target. *)
Definition to_own_limbo (l : Life) : turn * Life :=
  match resolve_handlers limbo_registry (server_limbo_handlers (lf_current l)) with
  | Ok (h :: hs) => (Goes, in_mode (ModeLimbo (h :: hs) (PluginRedirect (Some (lf_current l)))) l)
  | _ => (Ends_with ClientDisconnected,
          try_write (build_disconnect registry
            (component_text (str "No limbo handlers configured for this server")) version) l)
  end.

Definition switch_failed (e : CoreError) (l : Life) : Life :=
  try_write (build_system_chat_message registry
    (component_text (str "Server switch failed: " ++ core_error_display e)) version) l.

(** What the loop does with the end of a proxy loop. *)
Definition after_proxy_loop (r : round) (outcome : ProxyLoopOutcome) (l : Life) : turn * Life :=
  match outcome with
  | SwitchRequested target =>
    if decide (target = str "$limbo") then to_own_limbo l
    else
      match handle_switch r target l with
      | (SABackend b bi server, l) => (Goes, on_server r b bi server l)
      | (SALimbo [] ctx, l) => (Goes, l)
      | (SALimbo handlers ctx, l) => (Goes, in_mode (ModeLimbo handlers ctx) l)
      | (SAError e, l) => (Goes, switch_failed e l)
      | (SAPanic, l) => (Ends_with LoopPanicked, l)
      end
  | BackendDisconnected reason =>
    match handle_backend_disconnect r reason l with
    | (DSwitchBackend b bi server, l) => (Goes, on_server r b bi server l)
    | (DSwitchLimbo handlers ctx, l) => (Goes, in_mode (ModeLimbo handlers ctx) l)
    | (DBreak outcome, l) => (Ends_with outcome, l)
    end
  | other => (Ends_with other, l)
  end.

Definition from_initial (ctx : LimboEntryContext) : bool :=
  match ctx with InitialConnection _ => true | _ => false end.

Definition after_limbo (r : round) (entry_ctx : LimboEntryContext) (exit : LimboExitResult) (l : Life) : turn * Life :=
  let leave target :=
    match handle_switch r target l with
    | (SABackend b bi server, l) => (Goes, on_server r b bi server l)
    | (SALimbo [] ctx, l) => (Ends_with ClientDisconnected, l)
    | (SALimbo handlers ctx, l) =>
      if from_initial entry_ctx then (Ends_with ClientDisconnected, l)
      else (Goes, in_mode (ModeLimbo handlers ctx) l)
    | (SAError _, l) => (Ends_with ClientDisconnected, l)
    | (SAPanic, l) => (Ends_with LoopPanicked, l)
    end in
  match exit with
  | ExitCompleted => leave (lf_current l)
  | ExitSwitchedTo server => leave server
  | ExitSendToLimbo names =>
    match resolve_handlers_lenient limbo_registry names with
    | [] => (Ends_with ClientDisconnected, l)
    | handlers => (Goes, in_mode (ModeLimbo handlers (PluginRedirect (Some (lf_current l)))) l)
    end
  | ExitKicked | ExitTimeout | ExitClientDisconnected => (Ends_with ClientDisconnected, l)
  | ExitShutdown => (Ends_with Shutdown, l)
  | ExitPanicked => (Ends_with LoopPanicked, l)
  end.

Definition session_of (b : BackendBridge) (bi : list bytes) (l : Life) : Session H I :=
  mk_Session (lf_client l) (lf_client_in l) b bi (lf_client_chain l) (lf_server_chain l) (lf_cache l) (lf_ran l).
Definition of_session (s : Session H I) (l : Life) : Life :=
  mk_Life (ss_client s) (ss_client_in s) (ModeBackend (ss_backend s) (ss_backend_in s)) (lf_current l) (lf_reported l)
    (ss_client_chain s) (ss_server_chain s) (ss_cache s) (ss_ran s) (lf_world l) (lf_fired l).
Definition of_limbo (s : LimboState (W := W) (H := H)) (l : Life) : Life :=
  mk_Life (li_client s) (li_client_in s) (lf_mode l) (lf_current l) (lf_reported l) (lf_client_chain l)
    (lf_server_chain l) (lf_cache l) (lf_ran l ++ li_ran s) (li_world s) (lf_fired l).

(** One turn of the loop. *)
Definition session_turn (r : round) (l : Life) : turn * Life :=
  match lf_mode l with
  | ModeBackend b bi =>
    match proxy_loop (se_loop services) (pl_id p) (ro_ready r) (session_of b bi l) with
    | (None, s) => (Waits, of_session s l)
    | (Some outcome, s) => after_proxy_loop r outcome (of_session s l)
    end
  | ModeLimbo handlers entry_ctx =>
    match enter_limbo registry version (pl_id p) (sv_command_manager (se_loop services)) handlers (ro_holds r)
            (limbo_state (lf_client l) (lf_client_in l) (ro_now r) (lf_world l)) with
    | (None, s) => (Waits, of_limbo s l)
    | (Some exit, s) => after_limbo r entry_ctx exit (of_limbo s l)
    end
  end.

(** The loop over the rounds; [None] when it is still running. *)
Fixpoint run_session_loop (rounds : list round) (l : Life) : option ProxyLoopOutcome * Life :=
  match rounds with
  | [] => (None, l)
  | r :: rounds =>
    match session_turn r l with
    | (Goes, l) => run_session_loop rounds l
    | (Ends_with outcome, l) => (Some outcome, l)
    | (Waits, l) => (None, l)
    end
  end.

(** ** Where the player is *)

(** The events that move a player from one server to another, each move an allowed one. *)
Inductive moved : rstring → list switch_event → rstring → Prop :=
| moved_none a : moved a [] a
| moved_connected a es b pid id : moved a es b → moved a (es ++ [ServerConnected pid id]) b
| moved_switched a es b id :
    moved a es b → allowed_move (se_switch services) p b id → moved a (es ++ [ServerSwitched (pl_id p) b id]) id.

Lemma moved_trans a es b es' c : moved a es b → moved b es' c → moved a (es ++ es') c.
Proof.
  intros H1 H2. revert H1. induction H2; intros H1; [by rewrite app_nil_r|rewrite app_assoc; constructor; auto..].
Qed.

(** A move among the events. *)
Definition switched (es : list switch_event) : Prop := ∃ pid a b, ServerSwitched pid a b ∈ es.

Lemma switched_app es es' : switched (es ++ es') ↔ switched es ∨ switched es'.
Proof. unfold switched. setoid_rewrite elem_of_app. naive_solver. Qed.

(** What a part of the loop may do to the state: it fires the events of the moves it makes;
    if the session is registered, what is reported is where the last move led, and is left
    alone if there was none. *)
Definition tracks (registered : bool) (l l' : Life) : Prop :=
  ∃ es, lf_fired l' = lf_fired l ++ es ∧ moved (lf_current l) es (lf_current l') ∧
    (registered = true →
     switched es ∧ lf_reported l' = lf_current l' ∨
     ¬ switched es ∧ lf_reported l' = lf_reported l ∧ lf_current l' = lf_current l).

Lemma not_switched_nil : ¬ switched [].
Proof. by intros (?&?&?&?%not_elem_of_nil). Qed.
Lemma tracks_same reg l l' :
  lf_fired l' = lf_fired l → lf_current l' = lf_current l → lf_reported l' = lf_reported l → tracks reg l l'.
Proof.
  intros Hf Hc Hr. exists []. rewrite app_nil_r, Hc, Hr. split_and!; [done|constructor|]. intros _. right.
  split; [apply not_switched_nil|done].
Qed.
Lemma tracks_trans reg l1 l2 l3 : tracks reg l1 l2 → tracks reg l2 l3 → tracks reg l1 l3.
Proof.
  intros (es&Hf&Hm&Hr) (es'&Hf'&Hm'&Hr'). exists (es ++ es'). rewrite Hf', Hf, app_assoc.
  split_and!; [done|by eapply moved_trans|]. intros Hreg. rewrite switched_app.
  destruct (Hr Hreg) as [[Hs He]|(Hs&He&Hc)], (Hr' Hreg) as [[Hs' He']|(Hs'&He'&Hc')].
  - left. auto.
  - left. split; [auto|]. congruence.
  - left. auto.
  - right. split; [tauto|]. split; congruence.
Qed.
Lemma tracks_weaken reg reg' l l' : (reg' = true → reg = true) → tracks reg l l' → tracks reg' l l'.
Proof. intros Hr (es&Hf&Hm&Hrep). exists es. auto. Qed.
Lemma tracks_write reg f l : tracks reg l (try_write f l).
Proof. destruct f; by apply tracks_same. Qed.

(** A switch tracks the player once the new server is the current one. *)
Lemma handle_switch_tracks r target l :
  match handle_switch r target l with
  | (SABackend b bi id, l') => tracks (ro_registered r) l (on_server r b bi id l')
  | (_, l') => tracks (ro_registered r) l l'
  end.
Proof.
  unfold handle_switch.
  pose proof (perform_switch_guarded registry (LH := LimboHandler W) md5 properties_json ip_to_string
    (λ e, str (transport_error_text e)) net default_timeout (se_switch services) (ro_fuel r) (ro_ticks r)
    (lf_current l) target p (lf_client l) (lf_client_in l)) as Hg.
  destruct (perform_switch _ _ _ _ _ _ _ _ _ _ _ _ _ _ _) as [[[[res c] ci] nb] fired].
  assert (Hfail : (fired = [] ∧ c = lf_client l ∧ ci = lf_client_in l ∨ ∃ id, fired = [ServerConnected (pl_id p) id]) →
    tracks (ro_registered r) l (log_fired fired (at_client c ci l))).
  { intros [[-> _]|[id ->]]; [apply tracks_same; [apply app_nil_r|done..]|].
    exists [ServerConnected (pl_id p) id]. split_and!; [done|apply (moved_connected _ []); constructor|]. intros _. right.
    split; [|done]. by intros (?&?&?&?%list_elem_of_singleton). }
  destruct res as [[[id|hs ctx]|e]|].
  - destruct Hg as (->&Hn&Ha). destruct nb as [[b bi]|]; [|done].
    unfold on_server, report_server.
    exists [ServerConnected (pl_id p) id; ServerSwitched (pl_id p) (lf_current l) id]. split_and!.
    + by destruct (ro_registered r).
    + apply (moved_switched _ [ServerConnected (pl_id p) id]); [|done]. apply (moved_connected _ []). constructor.
    + intros ->. left. split; [|done]. do 3 eexists. right. left.
  - apply Hfail. left. tauto.
  - by apply Hfail.
  - destruct nb; by apply Hfail.
Qed.

Lemma in_mode_tracks reg m l l' : tracks reg l l' → tracks reg l (in_mode m l').
Proof. done. Qed.
Lemma write_tracks reg f l l' : tracks reg l l' → tracks reg l (try_write f l').
Proof. intros Ht. eapply tracks_trans; [exact Ht|apply tracks_write]. Qed.
Lemma refl_tracks reg l : tracks reg l l.
Proof. by apply tracks_same. Qed.
#[local] Hint Resolve in_mode_tracks write_tracks refl_tracks : core.

Lemma own_limbo_tracks reg l : tracks reg l (to_own_limbo l).2.
Proof. unfold to_own_limbo. repeat case_match; cbn; auto. Qed.

Lemma disconnect_tracks r reason l :
  match handle_backend_disconnect r reason l with
  | (DSwitchBackend b bi id, l') => tracks (ro_registered r) l (on_server r b bi id l')
  | (_, l') => tracks (ro_registered r) l l'
  end.
Proof.
  unfold handle_backend_disconnect. destruct (kicked_result _ _) as [reason'|server|names|message]; [by auto| |..|by auto].
  - pose proof (handle_switch_tracks r server l) as Hs. destruct (handle_switch r server l) as [[b bi id|[|] ctx|e|] l']; cbn; auto.
  - destruct (resolve_handlers_lenient _ _); cbn; auto.
Qed.

Lemma proxy_outcome_tracks r outcome l : tracks (ro_registered r) l (after_proxy_loop r outcome l).2.
Proof.
  unfold after_proxy_loop. destruct outcome as [|reason| | |target|]; try (cbn; by auto).
  - pose proof (disconnect_tracks r reason l) as Hd. by destruct (handle_backend_disconnect r reason l) as [[] l'].
  - case_decide; [apply own_limbo_tracks|]. pose proof (handle_switch_tracks r target l) as Hs.
    destruct (handle_switch r target l) as [[b bi id|[|] ctx|e|] l']; unfold switch_failed; cbn; auto.
Qed.

Lemma limbo_exit_tracks r ctx exit l : tracks (ro_registered r) l (after_limbo r ctx exit l).2.
Proof.
  assert (Hleave : ∀ target, tracks (ro_registered r) l (match handle_switch r target l with
    | (SABackend b bi server, l) => (Goes, on_server r b bi server l)
    | (SALimbo [] ctx, l) => (Ends_with ClientDisconnected, l)
    | (SALimbo handlers ctx', l) =>
      if from_initial ctx then (Ends_with ClientDisconnected, l)
      else (Goes, in_mode (ModeLimbo handlers ctx') l)
    | (SAError _, l) => (Ends_with ClientDisconnected, l)
    | (SAPanic, l) => (Ends_with LoopPanicked, l)
    end).2).
  { intros target. pose proof (handle_switch_tracks r target l) as Hs.
    destruct (handle_switch r target l) as [[b bi id|[|] ctx'|e|] l'], (from_initial ctx); cbn; auto. }
  unfold after_limbo. destruct exit as [|server| | | | |names|]; try (cbn; by auto); [apply Hleave..|].
  destruct (resolve_handlers_lenient _ _); cbn; auto.
Qed.

Lemma turn_tracks r l : tracks (ro_registered r) l (session_turn r l).2.
Proof.
  unfold session_turn. destruct (lf_mode l) as [b bi|handlers ctx].
  - destruct (proxy_loop _ _ _ _) as [[outcome|] s]; [|by apply tracks_same].
    eapply tracks_trans; [|apply proxy_outcome_tracks]. by apply tracks_same.
  - destruct (enter_limbo _ _ _ _ _ _ _) as [[exit|] s]; [|by apply tracks_same].
    eapply tracks_trans; [|apply limbo_exit_tracks]. by apply tracks_same.
Qed.

(** C5: Along every session, whatever the switches, kicks, redirects and limbos, the switch
    events that were fired are exactly the moves that lead to the server the loop is on.
    Each move is between servers of the router, to the server that was asked for, whose
    network allows it, or to one that a listener redirects to instead, whose network is not
    checked. As long as the connection registry has the session, the server it reports is
    the one the loop is on once the player has moved, and what was reported before until
    then. *)
Theorem session_location_tracked (rounds : list round) (l : Life) :
  let l' := (run_session_loop rounds l).2 in
  ∃ es, lf_fired l' = lf_fired l ++ es ∧ moved (lf_current l) es (lf_current l') ∧
    (Forall (λ r, ro_registered r = true) rounds →
     switched es ∧ lf_reported l' = lf_current l' ∨
     ¬ switched es ∧ lf_reported l' = lf_reported l ∧ lf_current l' = lf_current l).
Proof.
  assert (Ht : tracks (forallb ro_registered rounds) l (run_session_loop rounds l).2).
  { revert l. induction rounds as [|r rounds IH]; intros l; [apply refl_tracks|].
    cbn [run_session_loop forallb]. pose proof (turn_tracks r l) as Ht.
    apply (tracks_weaken _ (ro_registered r && forallb ro_registered rounds)) in Ht; [|by intros []%andb_true_iff].
    destruct (session_turn r l) as [[] l1]; try done. eapply tracks_trans; [exact Ht|].
    eapply tracks_weaken; [|apply IH]. by intros []%andb_true_iff. }
  destruct Ht as (es&Hf&Hm&Hrep). exists es. split_and!; [done|done|]. intros Hall. apply Hrep, forallb_forall. intros r Hr.
  rewrite Forall_forall in Hall. by apply Hall, list_elem_of_In.
Qed.

(** ** A switch during play *)

Context `{ZLL : !ZlibLaws}.

(** C2: A player who asks for another server during play is moved to it: when the target is
    reachable and lets the player in, and both ends go through the phase in time, the client
    is taken through a new configuration phase in which every frame of the new backend
    reaches it in order, and what the client sends after its acknowledgement of the new
    phase and before the backend's end of it reaches the backend in order, while what it
    sends before that acknowledgement, and between the backend's end of the phase and its
    answer to that, is absorbed (before 1.20.2 it is sent the join packet and the respawns
    that carry its dimension); both ends are then in the play phase, the two events are
    fired, the loop goes on with the new backend, that server is the one reported if the
    registry has the session, and what was not yet read is left for the session. *)
Theorem session_switches (wc wb rc rb : bytes) (r : round) (l : Life) (b0 : BackendBridge) (bi0 : list bytes)
    (s : Session H I) (target id : rstring) (c : ServerConfig) (b : BackendBridge) (bi : list bytes) (e : Ends)
    (fs gs co bo later blater : list PacketFrame) :
  lf_mode l = ModeBackend b0 bi0 →
  proxy_loop (se_loop services) (pl_id p) (ro_ready r) (session_of b0 bi0 l) = (Some (SwitchRequested target), s) →
  target ≠ str "$limbo" →
  resolve_target (LH := LimboHandler W) (se_switch services) (lf_current l) target (pl_id p) (pl_profile p) =
    Ok (ToServer id c) →
  open_backend (λ e, str (transport_error_text e)) net default_timeout p id c = Ok (b, bi) →
  login_to_backend registry md5 properties_json ip_to_string (se_switch services) (ro_fuel r) p c
    (mk_Ends (ss_client s) (ss_client_in s) b bi []) = (Some (Ok ()), e) →
  cb_state (ss_client s) = Play → cb_version (ss_client s) = version →
  switch_exchange registry version later blater (ro_ticks r) fs gs co bo → live wc wb rc rb fs gs co bo e →
  ∃ e' l', session_turn r l = (Goes, l') ∧
    lf_mode l' = ModeBackend (en_backend e') (en_backend_in e') ∧
    lf_client l' = en_client e' ∧ lf_client_in l' = en_client_in e' ∧
    lf_current l' = id ∧ lf_reported l' = (if ro_registered r then id else lf_reported l) ∧
    lf_fired l' = lf_fired l ++ [ServerConnected (pl_id p) id; ServerSwitched (pl_id p) (lf_current l) id] ∧
    cb_written (en_client e') = wc ∧ bb_written (en_backend e') = wb ∧ live wc wb rc rb later blater [] [] e' ∧
    cb_state (en_client e') = Play ∧ bb_state (en_backend e') = Play.
Proof using ZLL.
  intros Hm Hp Hn Ht Ho Hl Hst Hv Hx He.
  destruct (perform_switch_completes registry (LH := LimboHandler W) md5 properties_json ip_to_string
    (λ e, str (transport_error_text e)) net default_timeout (se_switch services) wc wb rc rb (ro_fuel r) (ro_ticks r)
    (lf_current l) target id p c (ss_client s) (ss_client_in s) b bi e fs gs co bo later blater)
    as (e'&Hs&Hwc&Hwb&Hlive&Hc&Hb); [done..|].
  unfold session_turn. rewrite Hm, Hp. unfold after_proxy_loop. rewrite decide_False by done.
  unfold handle_switch. cbn [of_session lf_client lf_client_in lf_current]. rewrite Hs.
  exists e'. eexists. split; [reflexivity|]. unfold on_server, report_server. by destruct (ro_registered r); split_and!.
Qed.

(** C40: From 1.20.2 on, when the new backend of a switch during play lets the player in but
    never ends the configuration phase, the switch fails with a timeout and the loop goes on
    with the old backend, which is still in the play phase and has not been sent anything by
    the switch, while the client is left in the configuration phase; the server the loop is
    on and the one it reports are the old ones, although the event of the new connection was
    fired. *)
Theorem stalled_switch_leaves_config (wc wb rc rb : bytes) (r : round) (l : Life) (b0 : BackendBridge) (bi0 : list bytes)
    (s : Session H I) (target id : rstring) (c : ServerConfig) (b : BackendBridge) (bi : list bytes) (e : Ends)
    (pre cfs bfs fs gs co bo : list PacketFrame) (ack fin ackfin : PacketFrame) (t1 t2 : list side) :
  lf_mode l = ModeBackend b0 bi0 →
  proxy_loop (se_loop services) (pl_id p) (ro_ready r) (session_of b0 bi0 l) = (Some (SwitchRequested target), s) →
  target ≠ str "$limbo" →
  resolve_target (LH := LimboHandler W) (se_switch services) (lf_current l) target (pl_id p) (pl_profile p) =
    Ok (ToServer id c) →
  open_backend (λ e, str (transport_error_text e)) net default_timeout p id c = Ok (b, bi) →
  login_to_backend registry md5 properties_json ip_to_string (se_switch services) (ro_fuel r) p c
    (mk_Ends (ss_client s) (ss_client_in s) b bi []) = (Some (Ok ()), e) →
  cb_state (ss_client s) = Play → bb_state (ss_backend s) = Play → cb_version (ss_client s) = version →
  no_less_than version V1_20_2 = true → delimited registry version ack fin ackfin →
  Forall (λ f, frame_id f ≠ frame_id ack) pre → Forall (λ f, frame_id f ≠ frame_id fin) bfs →
  ro_ticks r = t1 ++ t2 → length t1 = S (length pre) → config_traffic t2 cfs bfs →
  live wc wb rc rb (pre ++ ack :: cfs ++ fs) (bfs ++ gs) (start_frame registry version :: bfs ++ co) (cfs ++ bo) e →
  ∃ l', session_turn r l = (Goes, l') ∧ cb_state (lf_client l') = Config ∧
    lf_mode l' = ModeBackend (ss_backend s) (ss_backend_in s) ∧ bb_state (ss_backend s) = Play ∧
    lf_current l' = lf_current l ∧ lf_reported l' = lf_reported l ∧
    lf_fired l' = lf_fired l ++ [ServerConnected (pl_id p) id].
Proof using ZLL.
  intros Hm Hp Hn Ht Ho Hl Hst Hbst Hv Hmod Hd Hpre Hbfs Hro Ht1 Ht2 He.
  destruct (perform_switch_stalls registry (LH := LimboHandler W) md5 properties_json ip_to_string
    (λ e, str (transport_error_text e)) net default_timeout (se_switch services) wc wb rc rb (ro_fuel r)
    (lf_current l) target id p c (ss_client s) (ss_client_in s) b bi pre cfs bfs fs gs co bo ack fin ackfin t1 t2 e)
    as (e'&Hs&Hc); [done..|].
  unfold session_turn. rewrite Hm, Hp. unfold after_proxy_loop. rewrite decide_False by done.
  unfold handle_switch. cbn [of_session lf_client lf_client_in lf_current]. rewrite Hro, Hs.
  eexists. split; [reflexivity|]. unfold switch_failed, try_write.
  destruct (build_system_chat_message _ _ _) as [frame|err]; [|by split_and!].
  cbn [at_client log_fired of_session lf_client lf_mode lf_current lf_reported lf_fired].
  split; [|by split_and!]. rewrite <- Hc. unfold cb_write_frame, cb_write.
  destruct (append_raw _ _ _) as [[] enc]; [|done]. destruct (enc_take enc) as [out enc'].
  by destruct (encrypt_opt _ out).
Qed.
End intercepted.

(** ** A sample life *)

Section sample.
#[local] Existing Instances toy_cfb8 stored_zlib hex_uuid range_nets ascii_lowercase glob_match sum_mac spec_ppp announcing.

Definition life_switch_services : SwitchServices (HR := assoc_map rstring (LimboHandler ()))
    (CM' := assoc_map ProviderId RouterEntry) (EM := assoc_map rstring ProviderId) (TypeId := Z)
    (HM := assoc_map Z (list (HandlerEntry ServerPreConnectEvent)))
    (PM := assoc_map PacketKey (list (HandlerEntry RawPacketEvent))) := {|
  sw_domain_router := sample_router;
  sw_event_bus := bus_new;
  sw_pre_connect_event := 0;
  sw_limbo_handler_registry := dm_new;
  sw_forwarding_mode := FwdNone;
  sw_forwarding_secret := None |}.

Definition sample_session_services (choose : list (HandlerEntry PlayerChooseInitialServerEvent))
    (kicked : list (HandlerEntry KickedFromServerEvent)) :=
  Build_SessionServices sample_services life_switch_services choose kicked (λ _, Ok None) (λ _, Ok []).

(** The player is on the survival server and asks for the lobby. *)
Definition sample_life : Life (H := string) (I := RawPacket) (W := ()) :=
  mk_Life sample_client [of_frames client_frames] (ModeBackend (bb_set_state Play (BackendBridge_new V1_21)) [])
    (str "survival") (str "survival") (chain_with []) (chain_with []) ∅ [] () [].
Definition sample_round : round (W := ()) :=
  {| ro_ready := [CommandReady (SwitchServer (str "lobby"))]; ro_holds := []; ro_fuel := 9;
     ro_ticks := sample_ticks; ro_now := 0; ro_registered := true |}.

Abbreviation sample_turn := (session_turn (λ _, 0) (λ _, []) (λ _, []) (λ _, ""%string) (λ _, []) sample_net 5000
  (sample_session_services [] []) sample_player).

Lemma session_switches_witness :
  ∃ e l, sample_turn sample_round sample_life = (Goes, l) ∧
    lf_mode l = ModeBackend (en_backend e) (en_backend_in e) ∧ lf_client l = en_client e ∧
    lf_current l = str "lobby" ∧ lf_reported l = str "lobby" ∧
    cb_written (en_client e) = of_frames to_client ∧
    cb_state (en_client e) = Play ∧ bb_state (en_backend e) = Play.
Proof.
  destruct (session_switches (ZLL := stored_zlib_laws) (λ _, 0) (λ _, []) (λ _, []) (λ _, ""%string) (λ _, []) sample_net 5000
    (sample_session_services [] []) sample_player
    (of_frames to_client) (bb_written (en_backend sample_login.2) ++ of_frames to_backend) [] [] sample_round sample_life
    (bb_set_state Play (BackendBridge_new V1_21)) []
    (session_of (bb_set_state Play (BackendBridge_new V1_21)) [] sample_life) (str "lobby") (str "lobby")
    (simple_config "lobby" ["lobby.example.com"; "*.example.com"])
    (bridge_on V1_21 (Build_BackendSocket [] [] None)) [of_frames (success_frame :: backend_frames)] sample_login.2
    client_frames backend_frames to_client to_backend [mk_frame 27 []] [mk_frame 44 []])
    as (e&l&Ht&Hm&Hc&_&Hcur&Hrep&_&Hwc&_&_&Hst&Hsb).
  - done.
  - by vm_compute.
  - by vm_compute.
  - by vm_compute.
  - by vm_compute.
  - by vm_compute.
  - done.
  - done.
  - apply (sx_modern build_default_registry V1_21 [mk_frame 27 []] [mk_frame 44 []] [mk_frame 26 [1]] (mk_frame 12 [])
      [mk_frame 7 [0]] [mk_frame 14 [0]] (mk_frame 3 []) [] (mk_frame 3 []) (mk_frame 43 [1; 2])
      [FromClient; FromClient] [FromBackend; FromClient] [FromClient] FromBackend []);
      [done| |by repeat constructor|by repeat constructor|constructor|done|by repeat constructor|done].
    split_and!; by vm_compute.
  - split; [by vm_compute; repeat constructor|by vm_compute; repeat constructor|..|done|done|done].
    + exists (of_frames client_frames). split; [|by vm_compute]. apply of_frames_framed; [|by vm_compute]. set_solver.
    + exists (of_frames backend_frames). split; [|by vm_compute]. apply of_frames_framed; [|by vm_compute]. set_solver.
    + exists (of_frames to_client). split; [|by vm_compute]. apply of_frames_framed; [|by vm_compute]. set_solver.
    + exists (of_frames to_backend). split; [|done]. apply of_frames_framed; [|by vm_compute]. set_solver.
  - exists e, l. by split_and!.
Defined.

(** The new backend sends one frame of its configuration and nothing more. *)
Definition stalled_round : round (W := ()) :=
  {| ro_ready := [CommandReady (SwitchServer (str "lobby"))]; ro_holds := []; ro_fuel := 9;
     ro_ticks := [FromClient; FromClient; FromBackend]; ro_now := 0; ro_registered := true |}.

Lemma stalled_switch_leaves_config_witness :
  ∃ l, sample_turn stalled_round sample_life = (Goes, l) ∧ cb_state (lf_client l) = Config ∧
    lf_mode l = ModeBackend (bb_set_state Play (BackendBridge_new V1_21)) [] ∧ lf_current l = str "survival".
Proof.
  destruct (stalled_switch_leaves_config (ZLL := stored_zlib_laws) (λ _, 0) (λ _, []) (λ _, []) (λ _, ""%string) (λ _, [])
    sample_net 5000 (sample_session_services [] []) sample_player
    (of_frames (take 2 to_client)) (bb_written (en_backend sample_login.2)) [] [] stalled_round sample_life
    (bb_set_state Play (BackendBridge_new V1_21)) []
    (session_of (bb_set_state Play (BackendBridge_new V1_21)) [] sample_life) (str "lobby") (str "lobby")
    (simple_config "lobby" ["lobby.example.com"; "*.example.com"])
    (bridge_on V1_21 (Build_BackendSocket [] [] None)) [of_frames (success_frame :: backend_frames)] sample_login.2
    [mk_frame 26 [1]] [] [mk_frame 14 [0]] (drop 2 client_frames) (drop 1 backend_frames) [] []
    (mk_frame 12 []) (mk_frame 3 []) (mk_frame 3 []) [FromClient; FromClient] [FromBackend])
    as (l&Ht&Hc&Hm&_&Hcur&_).
  - done.
  - by vm_compute.
  - by vm_compute.
  - by vm_compute.
  - by vm_compute.
  - by vm_compute.
  - done.
  - done.
  - done.
  - by vm_compute.
  - split_and!; by vm_compute.
  - by repeat constructor.
  - by repeat constructor.
  - done.
  - done.
  - by repeat constructor.
  - split; [by vm_compute; repeat constructor|by vm_compute; repeat constructor|..|done|done|done].
    + exists (of_frames client_frames). split; [|by vm_compute]. apply of_frames_framed; [|by vm_compute]. set_solver.
    + exists (of_frames backend_frames). split; [|by vm_compute]. apply of_frames_framed; [|by vm_compute]. set_solver.
    + exists (of_frames (take 2 to_client)). split; [|by vm_compute]. apply of_frames_framed; [|by vm_compute]. set_solver.
    + exists []. split; [constructor|by vm_compute].
  - exists l. by split_and!.
Defined.

Lemma session_location_tracked_witness :
  let l := (run_session_loop (λ _, 0) (λ _, []) (λ _, []) (λ _, ""%string) (λ _, []) sample_net 5000
    (sample_session_services [] []) sample_player [sample_round] sample_life).2 in
  lf_reported l = lf_current l ∧ lf_current l = str "lobby" ∧
  ∃ es, lf_fired l = es ∧ moved (sample_session_services [] []) sample_player (str "survival") es (str "lobby").
Proof.
  destruct (session_location_tracked (λ _, 0) (λ _, []) (λ _, []) (λ _, ""%string) (λ _, []) sample_net 5000
    (sample_session_services [] []) sample_player [sample_round] sample_life) as (es&Hf&Hm&Hr).
  assert (Hc : lf_current (run_session_loop (λ _, 0) (λ _, []) (λ _, []) (λ _, ""%string) (λ _, []) sample_net 5000
    (sample_session_services [] []) sample_player [sample_round] sample_life).2 = str "lobby") by by vm_compute.
  rewrite Hc in Hm. split.
  { destruct Hr as [[_ Hr]|(_&_&Hx)]; [by repeat constructor|exact Hr|]. rewrite Hc in Hx. discriminate Hx. }
  split; [exact Hc|]. exists es. split; [exact Hf|exact Hm].
Defined.

Abbreviation turn_when_kicked kicked := (session_turn (λ _, 0) (λ _, []) (λ _, []) (λ _, ""%string) (λ _, []) sample_net 5000
  (sample_session_services [] [mk_HandlerEntry 1 0 (HSync (λ e,
     Build_KickedFromServerEvent (ke_player_id e) (ke_server e) (ke_reason e) kicked))]) sample_player).

(** The player is on the survival server, which sends [bytes] and closes. *)
Definition life_from (bytes : list bytes) : Life (H := string) (I := RawPacket) (W := ()) :=
  in_mode (ModeBackend (bb_set_state Play (BackendBridge_new V1_21)) bytes) sample_life.
Definition backend_round : round (W := ()) :=
  {| ro_ready := [BackendReady]; ro_holds := []; ro_fuel := 9; ro_ticks := sample_ticks; ro_now := 0; ro_registered := true |}.

(** A listener that asks for the player to be notified ends the session, although the
    event promises to keep the player on the proxy. *)
Theorem notify_ends_session (message : Component) :
  (turn_when_kicked (Notify message) backend_round (life_from [])).1 = Ends_with (BackendDisconnected None).
Proof. unfold session_turn. by vm_compute. Qed.

(** A player whom a listener redirects after a kick has already been sent the disconnect of
    the first server. *)
Theorem kicked_before_redirect :
  ∃ l rest, turn_when_kicked (RedirectTo (str "lobby")) backend_round (life_from [of_frames [mk_frame 29 [8; 0; 1; 120]]]) =
      (Goes, l) ∧ lf_current l = str "lobby" ∧
    cb_written (lf_client l) = of_frames [mk_frame 29 [8; 0; 1; 120]] ++ rest.
Proof.
  eexists _, (of_frames to_client). split; [vm_compute; reflexivity|]. split; by vm_compute.
Qed.

(** A listener that redirects the first connection changes the server that is announced,
    not the one that is connected. *)
Theorem first_redirect_not_followed :
  let other := Build_ServerConfig (Some (str "survival")) None None [] [Build_ServerAddress (str "10.0.0.9") 25565]
    Passthrough None false RewriteNone MotdConfig_default None None 0 None None [] in
  let net host (_ : Z) := Transport.Connected (Build_BackendSocket [if decide (host = str "10.0.0.9:25565") then [1] else [2]] [] None) in
  let services := sample_session_services [mk_HandlerEntry 1 0 (HSync (λ e,
    Build_PlayerChooseInitialServerEvent (ci_player_id e) (ci_profile e) (ci_initial_server e)
      (ChooseRedirect (str "lobby"))))] [] in
  ∃ b s, resolve_initial_mode (λ _, 0) (λ _, []) (λ _, []) (λ _, ""%string) (λ _, []) net 5000 services
      (Build_connect_env 9 9 9)
      (Build_AuthResult 7 42 (str "Notch") (Build_GameProfile 42 (str "Notch") []) false false)
      (Build_RoutingData other (str "survival")) (pl_handshake sample_player) V1_21
      (switch_connection_info sample_player) (mk_Conn (ClientBridge_new [] V1_21) [] false [] 0) =
    (Some (Ok (Connected (ModeBackend b [[1]]) (str "lobby"))), s).
Proof. eexists _, _. vm_compute. reflexivity. Qed.
End sample.
