(* ===== verification/Forward.v ===== *)
(** * Forward: copying bytes between two sockets

    Models [forward.rs] of [infrarust-transport].  A direction has the bytes its source will
    still give, those its destination has got, and how it ended.  What the operating system
    does is a schedule of events, one per completed call; a direction whose schedule is
    over is still running.

    [copy_step] is a task of [tokio::io::copy]: bytes that are read reach the destination
    in order, until the end or an error, and then the destination is shut down.
    [splice_step] is the loop over [splice], which moves bytes into a kernel pipe and out of
    it, each call as many as the kernel likes; [splice_refines_copy] says that it is a
    copy. *)
From S2P Require Import Prelude Wire Config.

(** ** One direction *)

Record Flow := mk_Flow {
  fl_src : bytes;
  fl_dst : bytes;
  fl_shut : bool;
  fl_end : option (result IoErrorKind Z) }.
Definition Flow_new (src : bytes) : Flow := mk_Flow src [] false None.

Inductive copy_event := Moved (n : nat) | Eof | CopyError (e : IoErrorKind).

(** [copy] and the [shutdown] after it. *)
Definition copy_step (f : Flow) (ev : copy_event) : Flow :=
  match fl_end f with
  | Some _ => f
  | None =>
    match ev with
    | Moved n => mk_Flow (drop n (fl_src f)) (fl_dst f ++ take n (fl_src f)) (fl_shut f) None
    | Eof => if decide (fl_src f = []) then mk_Flow [] (fl_dst f) true (Some (Ok (zlen (fl_dst f)))) else f
    | CopyError e => mk_Flow (fl_src f) (fl_dst f) true (Some (Err e))
    end
  end.

(** *** Splicing *)

(** What a call of [splice] gives; [Ok(0)] is [Kernel 0]. *)
Inductive kernel_result := Kernel (n : nat) | WouldBlock | KernelError (e : IoErrorKind).
Inductive splice_event := Readable (r : kernel_result) | Writable (r : kernel_result) | Cancelled.

Inductive splice_phase := Draining | Pumping (drained pumped : nat).
Record Splice := mk_Splice {
  spl_src : bytes;
  spl_pipe : bytes;
  spl_dst : bytes;
  spl_phase : splice_phase;
  spl_total : Z;
  spl_shut : bool;
  spl_end : option (result IoErrorKind Z) }.
Definition Splice_new (src : bytes) : Splice := mk_Splice src [] [] Draining 0 false None.

Definition SPLICE_LEN : nat := Z.to_nat 65536.
Definition splice_finish (shut : bool) (r : result IoErrorKind Z) (s : Splice) : Splice :=
  mk_Splice (spl_src s) (spl_pipe s) (spl_dst s) (spl_phase s) (spl_total s) (spl_shut s || shut) (Some r).

(** Source to pipe.  A source that is not at its end gives at least one byte. *)
Definition splice_drain (r : kernel_result) (s : Splice) : Splice :=
  match r with
  | WouldBlock => s
  | KernelError e => splice_finish false (Err e) s
  | Kernel n =>
    let moved := take (n `min` SPLICE_LEN) (spl_src s) in
    if decide (spl_src s = []) then splice_finish true (Ok (spl_total s)) s
    else if decide (n = 0)%nat then s
    else
      mk_Splice (drop (n `min` SPLICE_LEN) (spl_src s)) (spl_pipe s ++ moved) (spl_dst s)
        (Pumping (length moved) 0) (spl_total s) (spl_shut s) None
  end.

(** Pipe to destination. *)
Definition splice_pump (drained pumped : nat) (r : kernel_result) (s : Splice) : Splice :=
  match r with
  | WouldBlock => s
  | KernelError e => splice_finish false (Err e) s
  | Kernel n =>
    if decide (n = 0)%nat then splice_finish false (Err (OtherIo "WriteZero")) s
    else
      let k := (n `min` (drained - pumped))%nat in
      let pumped := (pumped + length (take k (spl_pipe s)))%nat in
      let pipe := drop k (spl_pipe s) in
      let dst := spl_dst s ++ take k (spl_pipe s) in
      if decide (pumped < drained)%nat
      then mk_Splice (spl_src s) pipe dst (Pumping drained pumped) (spl_total s) (spl_shut s) None
      else mk_Splice (spl_src s) pipe dst Draining (spl_total s + Z.of_nat pumped) (spl_shut s) None
  end.

Definition splice_step (s : Splice) (ev : splice_event) : Splice :=
  match spl_end s with
  | Some _ => s
  | None =>
    match spl_phase s, ev with
    | _, Cancelled => splice_finish false (Ok (spl_total s)) s
    | Draining, Readable r => splice_drain r s
    | Pumping drained pumped, Writable r => splice_pump drained pumped r s
    | _, _ => s
    end
  end.

(** ** Both directions *)

Inductive ForwardEndReason := ClientClosed | BackendClosed | FwdShutdown | FwdError (e : IoErrorKind).
Record ForwardResult := mk_ForwardResult {
  fr_client_to_backend : Z;
  fr_backend_to_client : Z;
  fr_reason : ForwardEndReason }.

Inductive side := C2b | B2c.
Inductive forward_event := OnC2b (ev : copy_event) | OnB2c (ev : copy_event) | Shutdown.

(** The two tasks, and the one that has ended first with its count. *)
Record CopySession := mk_CopySession {
  fw_c2b : Flow;
  fw_b2c : Flow;
  fw_first : option (side * Z);
  fw_result : option ForwardResult }.
Definition CopySession_new (client backend : bytes) : CopySession :=
  mk_CopySession (Flow_new client) (Flow_new backend) None None.

Definition count_of (r : result IoErrorKind Z) : Z := match r with Ok n => n | Err _ => 0 end.

(** [select!], and after one task has ended the wait for the other. *)
Definition copy_forward_step (w : CopySession) (ev : forward_event) : CopySession :=
  match fw_result w with
  | Some _ => w
  | None =>
    match fw_first w, ev with
    | None, Shutdown => mk_CopySession (fw_c2b w) (fw_b2c w) None (Some (mk_ForwardResult 0 0 FwdShutdown))
    | Some _, Shutdown => w
    | None, OnC2b ev =>
      let c2b := copy_step (fw_c2b w) ev in
      match fl_end c2b with
      | None => mk_CopySession c2b (fw_b2c w) None None
      | Some (Ok n) => mk_CopySession c2b (fw_b2c w) (Some (C2b, n)) None
      | Some (Err e) => mk_CopySession c2b (fw_b2c w) None (Some (mk_ForwardResult 0 0 (FwdError e)))
      end
    | None, OnB2c ev =>
      let b2c := copy_step (fw_b2c w) ev in
      match fl_end b2c with
      | None => mk_CopySession (fw_c2b w) b2c None None
      | Some (Ok n) => mk_CopySession (fw_c2b w) b2c (Some (B2c, n)) None
      | Some (Err e) => mk_CopySession (fw_c2b w) b2c None (Some (mk_ForwardResult 0 0 (FwdError e)))
      end
    | Some (C2b, n), OnB2c ev =>
      let b2c := copy_step (fw_b2c w) ev in
      mk_CopySession (fw_c2b w) b2c (Some (C2b, n))
        ((λ r, mk_ForwardResult n (count_of r) ClientClosed) <$> fl_end b2c)
    | Some (B2c, n), OnC2b ev =>
      let c2b := copy_step (fw_c2b w) ev in
      mk_CopySession c2b (fw_b2c w) (Some (B2c, n))
        ((λ r, mk_ForwardResult (count_of r) n BackendClosed) <$> fl_end c2b)
    | Some _, _ => w
    end
  end.
Definition copy_forward (events : list forward_event) (client backend : bytes) : CopySession :=
  foldl copy_forward_step (CopySession_new client backend) events.

Inductive Forwarder := CopyForwarder | SpliceForwarder.
(** On Linux. *)
Definition select_forwarder (mode : ProxyMode) : Forwarder :=
  match mode with ZeroCopy => SpliceForwarder | _ => CopyForwarder end.

(** [SpliceForwarder::forward] on two pipes.  Both directions watch the token as well, so
    that when it is cancelled any of the three branches may be the one that is taken. *)
Inductive splicing_event := SplC2b (r : splice_event) | SplB2c (r : splice_event) | SplShutdown (polled : option side).
Record Splicing := mk_Splicing {
  sg_c2b : Splice;
  sg_b2c : Splice;
  sg_first : option (side * Z);
  sg_result : option ForwardResult }.
Definition Splicing_new (client backend : bytes) : Splicing :=
  mk_Splicing (Splice_new client) (Splice_new backend) None None.

Definition total_of (s : Splice) : Z := from_option count_of 0 (spl_end s).

Definition splice_forward_step (w : Splicing) (ev : splicing_event) : Splicing :=
  match sg_result w with
  | Some _ => w
  | None =>
    match sg_first w, ev with
    | None, SplShutdown polled =>
      let c2b := splice_step (sg_c2b w) Cancelled in
      let b2c := splice_step (sg_b2c w) Cancelled in
      mk_Splicing c2b b2c None (Some
        match polled with
        | None => mk_ForwardResult 0 0 FwdShutdown
        | Some C2b => mk_ForwardResult (total_of c2b) (total_of b2c) ClientClosed
        | Some B2c => mk_ForwardResult (total_of c2b) (total_of b2c) BackendClosed
        end)
    | None, SplC2b ev =>
      let c2b := splice_step (sg_c2b w) ev in
      match spl_end c2b with
      | None => mk_Splicing c2b (sg_b2c w) None None
      | Some (Ok n) => mk_Splicing c2b (sg_b2c w) (Some (C2b, n)) None
      | Some (Err e) =>
        mk_Splicing c2b (splice_step (sg_b2c w) Cancelled) None (Some (mk_ForwardResult 0 0 (FwdError e)))
      end
    | None, SplB2c ev =>
      let b2c := splice_step (sg_b2c w) ev in
      match spl_end b2c with
      | None => mk_Splicing (sg_c2b w) b2c None None
      | Some (Ok n) => mk_Splicing (sg_c2b w) b2c (Some (B2c, n)) None
      | Some (Err e) =>
        mk_Splicing (splice_step (sg_c2b w) Cancelled) b2c None (Some (mk_ForwardResult 0 0 (FwdError e)))
      end
    | Some (C2b, n), (SplB2c _ | SplShutdown _) =>
      let b2c := splice_step (sg_b2c w) match ev with SplB2c ev => ev | _ => Cancelled end in
      mk_Splicing (sg_c2b w) b2c (Some (C2b, n))
        ((λ r, mk_ForwardResult n (count_of r) ClientClosed) <$> spl_end b2c)
    | Some (B2c, n), (SplC2b _ | SplShutdown _) =>
      let c2b := splice_step (sg_c2b w) match ev with SplC2b ev => ev | _ => Cancelled end in
      mk_Splicing c2b (sg_b2c w) (Some (B2c, n))
        ((λ r, mk_ForwardResult (count_of r) n BackendClosed) <$> spl_end c2b)
    | Some _, _ => w
    end
  end.
Definition splice_forward (events : list splicing_event) (client backend : bytes) : Splicing :=
  foldl splice_forward_step (Splicing_new client backend) events.

(** ** Nothing is lost *)

(** What a direction has moved and has yet to move is what there was. *)
Record flows (src : bytes) (f : Flow) : Prop := {
  fl_all : fl_dst f ++ fl_src f = src;
  fl_ok n : fl_end f = Some (Ok n) → fl_src f = [] ∧ fl_shut f = true ∧ n = zlen (fl_dst f);
  fl_open : fl_end f = None → fl_shut f = false }.

Lemma flows_new src : flows src (Flow_new src).
Proof. by split. Qed.

Lemma copy_step_flows src f ev : flows src f → flows src (copy_step f ev).
Proof.
  intros [Ha Ho Hp]. unfold copy_step. destruct (fl_end f) as [r|] eqn:He; [by split; [|rewrite He|rewrite He]|].
  destruct ev as [n| |e].
  - split; cbn [fl_dst fl_src fl_end fl_shut]; [|done|done]. by rewrite <- app_assoc, take_drop.
  - case_decide as Hs; [|by split; [|rewrite He|rewrite He]]. split; cbn [fl_dst fl_src fl_end fl_shut]; [by rewrite <- Ha, Hs| |done].
    by intros n [= <-].
  - by split.
Qed.

Record forwards (client backend : bytes) (w : CopySession) : Prop := {
  fws_c2b : flows client (fw_c2b w);
  fws_b2c : flows backend (fw_b2c w);
  fws_first s n : fw_first w = Some (s, n) → fl_end (match s with C2b => fw_c2b w | B2c => fw_b2c w end) = Some (Ok n);
  fws_result r : fw_result w = Some r →
    match fr_reason r with
    | ClientClosed =>
      fl_end (fw_c2b w) = Some (Ok (fr_client_to_backend r)) ∧
      ∃ e, fl_end (fw_b2c w) = Some e ∧ fr_backend_to_client r = count_of e
    | BackendClosed =>
      fl_end (fw_b2c w) = Some (Ok (fr_backend_to_client r)) ∧
      ∃ e, fl_end (fw_c2b w) = Some e ∧ fr_client_to_backend r = count_of e
    | FwdShutdown => fw_first w = None
    | FwdError e => fl_end (fw_c2b w) = Some (Err e) ∨ fl_end (fw_b2c w) = Some (Err e)
    end }.

Lemma forward_step_forwards client backend w ev :
  forwards client backend w → forwards client backend (copy_forward_step w ev).
Proof.
  intros [Hc Hb Hf Hr]. unfold copy_forward_step. destruct (fw_result w) as [r|] eqn:Hres; [by split; [..|rewrite Hres]|].
  pose proof (λ ev, copy_step_flows client (fw_c2b w) ev Hc) as Hc'.
  pose proof (λ ev, copy_step_flows backend (fw_b2c w) ev Hb) as Hb'.
  destruct (fw_first w) as [[[] n]|] eqn:Hfirst, ev as [ev|ev|].
  all: try (by split; [..|rewrite Hres]; rewrite ?Hfirst).
  - split; cbn [fw_c2b fw_b2c fw_first fw_result]; [done|done|by intros s m [= <- <-]; apply (Hf C2b)|].
    intros r. destruct (fl_end (copy_step (fw_b2c w) ev)) as [e|] eqn:He; [|done]. intros [= <-]. split; [by apply (Hf C2b)|eauto].
  - split; cbn [fw_c2b fw_b2c fw_first fw_result]; [done|done|by intros s m [= <- <-]; apply (Hf B2c)|].
    intros r. destruct (fl_end (copy_step (fw_c2b w) ev)) as [e|] eqn:He; [|done]. intros [= <-]. split; [by apply (Hf B2c)|eauto].
  - destruct (fl_end (copy_step (fw_c2b w) ev)) as [[n|e]|] eqn:He; split; cbn; try done;
      [by intros s m [= <- <-]|by intros r [= <-]; left].
  - destruct (fl_end (copy_step (fw_b2c w) ev)) as [[n|e]|] eqn:He; split; cbn; try done;
      [by intros s m [= <- <-]|by intros r [= <-]; right].
  - split; cbn; try done. by intros r [= <-].
Qed.

Lemma foldl_invariant {A B} (P : A → Prop) (f : A → B → A) l a :
  P a → (∀ a b, P a → P (f a b)) → P (foldl f a l).
Proof. intros Ha Hf. revert a Ha. induction l as [|b l IH]; [done|]. intros a Ha. by apply IH, Hf. Qed.

Lemma copy_forwards events client backend : forwards client backend (copy_forward events client backend).
Proof.
  apply (foldl_invariant (forwards client backend)); [|by intros w ev; apply forward_step_forwards].
  split; cbn; try done; apply flows_new.
Qed.

Theorem forward_transparent (events : list forward_event) (client backend : bytes) :
  let w := copy_forward events client backend in
  (fl_dst (fw_c2b w) ++ fl_src (fw_c2b w) = client ∧ fl_dst (fw_b2c w) ++ fl_src (fw_b2c w) = backend) ∧
  ∀ r, fw_result w = Some r →
    (fr_reason r = ClientClosed →
       fl_dst (fw_c2b w) = client ∧ fr_client_to_backend r = zlen client ∧ fl_shut (fw_c2b w) = true ∧ is_Some (fl_end (fw_b2c w))) ∧
    (fr_reason r = BackendClosed →
       fl_dst (fw_b2c w) = backend ∧ fr_backend_to_client r = zlen backend ∧ fl_shut (fw_b2c w) = true ∧ is_Some (fl_end (fw_c2b w))).
Proof.
  intros w. destruct (copy_forwards events client backend) as [[Hc Hco _] [Hb Hbo _] _ Hr]. fold w in Hc, Hco, Hb, Hbo, Hr.
  split; [done|]. intros r Hres. specialize (Hr r Hres).
  split; intros Hreason; rewrite Hreason in Hr; destruct Hr as [He (e&He'&_)].
  - destruct (Hco _ He) as (Hs&Hsh&Hn). rewrite Hs, app_nil_r in Hc. rewrite Hn, Hc. eauto.
  - destruct (Hbo _ He) as (Hs&Hsh&Hn). rewrite Hs, app_nil_r in Hb. rewrite Hn, Hb. eauto.
Qed.

(** ** Splicing is copying *)

(** The pipe holds what was drained and not yet pumped. *)
Definition pipe_ok (s : Splice) : Prop :=
  match spl_phase s with
  | Draining => spl_pipe s = []
  | Pumping drained pumped => length (spl_pipe s) = (drained - pumped)%nat ∧ (pumped < drained)%nat
  end.
Definition pumped_of (s : Splice) : nat := match spl_phase s with Draining => 0 | Pumping _ pumped => pumped end.

Record splices_as (s : Splice) (f : Flow) : Prop := {
  sa_dst : fl_dst f = spl_dst s;
  sa_src : fl_src f = spl_pipe s ++ spl_src s;
  sa_pipe : pipe_ok s;
  sa_total : spl_total s + Z.of_nat (pumped_of s) = zlen (spl_dst s);
  sa_open : spl_end s = None → fl_end f = None ∧ spl_shut s = false;
  sa_eof : spl_shut s = true → fl_end f = spl_end s ∧ (∃ n, fl_end f = Some (Ok n)) ∧ fl_shut f = true }.

Lemma splices_new src : splices_as (Splice_new src) (Flow_new src).
Proof. by split. Qed.

(** The events of a copy that do what one of splicing does. *)
Definition copied (s : Splice) (ev : splice_event) : list copy_event :=
  match spl_end s, spl_phase s, ev with
  | None, Draining, Readable (Kernel _) => if decide (spl_src s = []) then [Eof] else []
  | None, Pumping drained pumped, Writable (Kernel n) => [Moved (n `min` (drained - pumped))]
  | _, _, _ => []
  end.

Lemma splice_step_copies s f ev : splices_as s f → splices_as (splice_step s ev) (foldl copy_step f (copied s ev)).
Proof.
  intros Hsame. pose proof Hsame as [Hd Hs Hp Ht Ho He]. unfold splice_step, copied. destruct (spl_end s) as [r|] eqn:Hend; [exact Hsame|].
  destruct (Ho eq_refl) as [Hfe Hsh]. 
  assert (Hfin : ∀ r, splices_as (splice_finish false r s) f).
  { intros r. split; cbn; try done. rewrite orb_false_r, Hsh. done. }
  unfold pipe_ok, pumped_of in *. destruct (spl_phase s) as [|drained pumped] eqn:Hphase, ev as [r|r|]; cbn [foldl];
    try apply Hfin; try exact Hsame.
  - destruct r as [n| |e]; [|exact Hsame|apply Hfin].
    unfold splice_drain. case_decide as Hsrc.
    + rewrite Hp, Hsrc in Hs. cbn [foldl]. unfold copy_step. rewrite Hfe, decide_True by done.
      split; cbn; rewrite ?Hp, ?Hsrc; try done; [by unfold pipe_ok; cbn; rewrite Hphase|by unfold pumped_of; cbn; rewrite Hphase|].
      intros _. split; [|by eauto]. do 2 f_equal. rewrite Hd. lia.
    + cbn [foldl]. case_decide; [exact Hsame|].
      split; cbn; [done|by rewrite Hs, <- app_assoc, take_drop| |lia|done|by rewrite Hsh].
      unfold pipe_ok. cbn. rewrite Hp. cbn. split; [lia|]. rewrite length_take.
      destruct (spl_src s); [done|]. cbn [length]. unfold SPLICE_LEN. lia.
  - destruct Hp as [Hlen Hlt]. destruct r as [n| |e]; [|exact Hsame|apply Hfin].
    cbn [foldl]. unfold copy_step. rewrite Hfe. unfold splice_pump. case_decide as Hn.
    + subst n. cbn [Nat.min drop take]. rewrite app_nil_r.
      split; cbn; try done; [by unfold pipe_ok; cbn; rewrite Hphase|by unfold pumped_of; cbn; rewrite Hphase|by rewrite orb_false_r, Hsh].
    + set (k := (n `min` (drained - pumped))%nat).
      assert (Hk : (0 < k ≤ length (spl_pipe s))%nat) by (unfold k; lia).
      assert (Htake : take k (fl_src f) = take k (spl_pipe s)) by (rewrite Hs; apply take_app_le; lia).
      assert (Hdrop : drop k (fl_src f) = drop k (spl_pipe s) ++ spl_src s) by (rewrite Hs; apply drop_app_le; lia).
      assert (Hlt' : length (take k (spl_pipe s)) = k) by (rewrite length_take; lia).
      rewrite Htake, Hdrop. case_decide; (split; cbn; [by rewrite Hd|done| | |done|by rewrite Hsh]).
      * unfold pipe_ok. cbn. rewrite length_drop. lia.
      * unfold zlen in *. rewrite length_app. lia.
      * unfold pipe_ok. cbn. apply nil_length_inv. rewrite length_drop. lia.
      * unfold zlen in *. rewrite length_app. lia.
Qed.

(** C22: Whatever the kernel does, the bytes that splicing has delivered are those that some
    run of a plain copy has delivered, the pipe and the source hold the rest in order,
    and when the destination is shut down all bytes have arrived and their number is the
    result. *)
Theorem splice_refines_copy (events : list splice_event) (src : bytes) :
  let s := foldl splice_step (Splice_new src) events in
  ∃ copy_events, let f := foldl copy_step (Flow_new src) copy_events in
    fl_dst f = spl_dst s ∧ fl_src f = spl_pipe s ++ spl_src s ∧
    (spl_shut s = true → fl_end f = spl_end s ∧ fl_shut f = true ∧ spl_dst s = src ∧ spl_end s = Some (Ok (zlen src))).
Proof.
  intros s. assert (∃ cs, splices_as s (foldl copy_step (Flow_new src) cs)) as (cs&Hs).
  { apply (foldl_invariant (λ s, ∃ cs, splices_as s (foldl copy_step (Flow_new src) cs))); [exists []; apply splices_new|].
    intros a ev (cs&Ha). exists (cs ++ copied a ev). rewrite foldl_app. by apply splice_step_copies. }
  assert (Hf : flows src (foldl copy_step (Flow_new src) cs)).
  { apply (foldl_invariant (flows src)); [apply flows_new|]. by intros f ev; apply copy_step_flows. }
  exists cs. destruct Hs as [Hd Hsrc _ _ _ He]. split_and!; [done..|]. intros Hsh. destruct (He Hsh) as (Hend&[n Hn]&Hfs).
  destruct Hf as [Hall Hok _]. destruct (Hok n Hn) as (Hnil&_&->). rewrite Hnil, app_nil_r in Hall.
  rewrite <- Hend, Hn, <- Hd, Hall. done.
Qed.

(** *** Both directions *)

Definition spliced (src : bytes) (s : Splice) : Prop := ∃ f, splices_as s f ∧ flows src f.

Lemma spliced_step src s ev : spliced src s → spliced src (splice_step s ev).
Proof.
  intros (f&Hs&Hf). exists (foldl copy_step f (copied s ev)). split; [by apply splice_step_copies|].
  apply (foldl_invariant (flows src)); [done|]. by intros f' ev'; apply copy_step_flows.
Qed.

Lemma spliced_all src s : spliced src s → spl_dst s ++ spl_pipe s ++ spl_src s = src.
Proof. intros (f&[Hd Hs _ _ _ _]&[Ha _ _]). by rewrite <- Hs, <- Hd. Qed.

Lemma splice_forwards events client backend :
  let w := splice_forward events client backend in spliced client (sg_c2b w) ∧ spliced backend (sg_b2c w).
Proof.
  apply (foldl_invariant (λ w, spliced client (sg_c2b w) ∧ spliced backend (sg_b2c w))).
  { split; eexists; (split; [apply splices_new|apply flows_new]). }
  intros w ev [Hc Hb]. unfold splice_forward_step. destruct (sg_result w); [done|].
  destruct (sg_first w) as [[[] n]|], ev as [ev|ev|[[]|]]; try done;
    try (cbn; split; by repeat apply spliced_step).
  - destruct (spl_end (splice_step (sg_c2b w) ev)) as [[]|]; cbn; split; by repeat apply spliced_step.
  - destruct (spl_end (splice_step (sg_b2c w) ev)) as [[]|]; cbn; split; by repeat apply spliced_step.
Qed.

(** ** Shutting down *)

(** When one side has closed, the copying forwarder waits for the other whatever happens
    to the token; the splicing one ends. *)
Theorem half_closed_ignores_shutdown (events : list forward_event) :
  Forall (λ ev, ev = Shutdown) events →
  fw_result (copy_forward (OnC2b Eof :: events) [] []) = None ∧
  is_Some (sg_result (splice_forward [SplC2b (Readable (Kernel 0)); SplShutdown None] [] [])).
Proof.
  intros Hev. split; [|by eexists]. unfold copy_forward. cbn [foldl].
  assert (∀ w, fw_first w = Some (C2b, 0) → fw_result w = None → fw_result (foldl copy_forward_step w events) = None) as H;
    [|by apply H]. induction Hev as [|ev events -> _ IH]; [done|]. intros w Hf Hr. cbn [foldl].
  apply IH; unfold copy_forward_step; by rewrite Hr, Hf.
Qed.

Lemma forward_transparent_witness :
  let w := copy_forward [OnC2b (Moved 2); OnB2c (Moved 1); OnC2b (Moved 9); OnC2b Eof; OnB2c (Moved 5); OnB2c Eof] [1; 2; 3] [7; 8] in
  fw_result w = Some (mk_ForwardResult 3 2 ClientClosed) ∧ fl_dst (fw_c2b w) = [1; 2; 3].
Proof.
  intros w. split; [done|]. by apply (proj2 (forward_transparent
    [OnC2b (Moved 2); OnB2c (Moved 1); OnC2b (Moved 9); OnC2b Eof; OnB2c (Moved 5); OnB2c Eof] [1; 2; 3] [7; 8])
    (mk_ForwardResult 3 2 ClientClosed)).
Defined.
