(* ===== verification/Players.v ===== *)
(** * Players: the sessions that are open

    Models [registry.rs], [player/mod.rs] and [player/registry.rs].  A [PlayerSession] is
    shared by its handler, the registry and the plugins and changes in place, so sessions
    live in a store and the registry holds pointers into it.  The bounded channel of
    commands is the list of those not yet taken by the proxy loop.

    A handler registers its session when it starts and removes the entry of its uuid when
    it ends: the [history] of a proxy is a sequence of these steps, of changes of server
    and of commands. *)
From S2P Require Import Prelude Utf8 Version Packet Config Router Component Filters ProxyCommands Session Transport Switch.

Definition COMMAND_CHANNEL_SIZE : nat := 32.

Inductive PlayerError :=
| NotActive
| Disconnected
| SendFailed (reason : string)
| ServerNotFound (id : rstring)
| SwitchFailed (reason : string).

Record PlayerSession := mk_PlayerSession {
  ps_player_id : Z;
  ps_profile : GameProfile;
  ps_protocol_version : ProtocolVersion;
  ps_remote_addr : SocketAddr;
  ps_current_server : option rstring;
  ps_connected : bool;
  ps_active : bool;
  ps_online_mode : bool;
  ps_commands : list PlayerCommand;
  ps_closed : bool;
  ps_cancelled : bool }.

Definition PlayerSession_new (player_id : Z) (profile : GameProfile) (version : ProtocolVersion) (addr : SocketAddr)
    (current_server : option rstring) (active online_mode : bool) : PlayerSession :=
  mk_PlayerSession player_id profile version addr current_server true active online_mode [] false false.

Definition set_disconnected (s : PlayerSession) : PlayerSession :=
  mk_PlayerSession (ps_player_id s) (ps_profile s) (ps_protocol_version s) (ps_remote_addr s) (ps_current_server s)
    false (ps_active s) (ps_online_mode s) (ps_commands s) (ps_closed s) (ps_cancelled s).
Definition set_current_server (server : rstring) (s : PlayerSession) : PlayerSession :=
  mk_PlayerSession (ps_player_id s) (ps_profile s) (ps_protocol_version s) (ps_remote_addr s) (Some server)
    (ps_connected s) (ps_active s) (ps_online_mode s) (ps_commands s) (ps_closed s) (ps_cancelled s).
Definition with_commands (cs : list PlayerCommand) (s : PlayerSession) : PlayerSession :=
  mk_PlayerSession (ps_player_id s) (ps_profile s) (ps_protocol_version s) (ps_remote_addr s) (ps_current_server s)
    (ps_connected s) (ps_active s) (ps_online_mode s) cs (ps_closed s) (ps_cancelled s).
Definition cancel (s : PlayerSession) : PlayerSession :=
  mk_PlayerSession (ps_player_id s) (ps_profile s) (ps_protocol_version s) (ps_remote_addr s) (ps_current_server s)
    (ps_connected s) (ps_active s) (ps_online_mode s) (ps_commands s) (ps_closed s) true.

(** [try_send]: the channel of a loop that has ended is closed. *)
Definition channel_try_send (cmd : PlayerCommand) (s : PlayerSession) : result PlayerError () * PlayerSession :=
  if ps_closed s then (Err (SendFailed "channel closed"), s)
  else if decide (length (ps_commands s) < COMMAND_CHANNEL_SIZE)%nat
  then (Ok (), with_commands (ps_commands s ++ [cmd]) s)
  else (Err (SendFailed "no available capacity"), s).

Definition try_send_command (cmd : PlayerCommand) (s : PlayerSession) : result PlayerError () * PlayerSession :=
  if negb (ps_active s) then (Err NotActive, s)
  else if negb (ps_connected s) then (Err Disconnected, s)
  else channel_try_send cmd s.

(** [send().await]: [None] waits for the loop to take a command. *)
Definition channel_send (cmd : PlayerCommand) (s : PlayerSession) : option (result PlayerError ()) * PlayerSession :=
  if ps_closed s then (Some (Err (SendFailed "channel closed")), s)
  else if decide (length (ps_commands s) < COMMAND_CHANNEL_SIZE)%nat
  then (Some (Ok ()), with_commands (ps_commands s ++ [cmd]) s)
  else (None, s).

(** Gives whether the call returns. *)
Definition player_disconnect (reason : Component) (s : PlayerSession) : bool * PlayerSession :=
  match channel_send (Kick reason) s with
  | (None, s) => (false, s)
  | (Some _, s) => (true, cancel s)
  end.

Definition switch_server (target : rstring) (s : PlayerSession) : option (result PlayerError ()) * PlayerSession :=
  if negb (ps_active s) then (Some (Err NotActive), s)
  else if negb (ps_connected s) then (Some (Err Disconnected), s)
  else channel_send (SwitchServer target) s.

(** ** The registry *)

Section players.
Context {SM IM : Type} `{DMS : !DashMap Z nat SM, DMI : !DashMap Z Z IM}.

Record Players := mk_Players {
  pr_store : list PlayerSession;
  pr_sessions : SM;
  pr_id_index : IM }.
Definition ConnectionRegistry_new : Players := mk_Players [] dm_new dm_new.

Definition on_session (p : nat) (f : PlayerSession → PlayerSession) (r : Players) : Players :=
  mk_Players (alter f p (pr_store r)) (pr_sessions r) (pr_id_index r).

(** [Arc::new]. *)
Definition allocate (s : PlayerSession) (r : Players) : nat * Players :=
  (length (pr_store r), mk_Players (pr_store r ++ [s]) (pr_sessions r) (pr_id_index r)).

(** Gives the uuid; a pointer has a session. *)
Definition register_session (p : nat) (r : Players) : option (Z * Players) :=
  session ← pr_store r !! p;
  let uuid := gp_uuid (ps_profile session) in
  let index := dm_insert (ps_player_id session) uuid (pr_id_index r) in
  let previous := dm_get (pr_sessions r) uuid in
  let r := mk_Players (pr_store r) (dm_insert uuid p (pr_sessions r)) index in
  match previous with
  | None => Some (uuid, r)
  | Some q =>
    old ← pr_store r !! q;
    let r := if decide (ps_player_id old = ps_player_id session) then r
             else mk_Players (pr_store r) (pr_sessions r) (dm_remove (ps_player_id old) (pr_id_index r)) in
    Some (uuid, on_session q set_disconnected (on_session q cancel r))
  end.

Definition unregister_session (uuid : Z) (r : Players) : option nat * Players :=
  match dm_get (pr_sessions r) uuid with
  | None => (None, r)
  | Some p =>
    let index := match pr_store r !! p with
                 | Some session => dm_remove (ps_player_id session) (pr_id_index r)
                 | None => pr_id_index r
                 end in
    (Some p, on_session p set_disconnected (mk_Players (pr_store r) (dm_remove uuid (pr_sessions r)) index))
  end.

Definition get_session (r : Players) (uuid : Z) : option nat := dm_get (pr_sessions r) uuid.
Definition find_by_id (r : Players) (id : Z) : option nat := uuid ← dm_get (pr_id_index r) id; get_session r uuid.

(** The sessions of the registry, in the order of an iteration. *)
Definition registered (r : Players) : list (nat * PlayerSession) :=
  omap (λ kv, (λ s, (kv.2, s)) <$> pr_store r !! kv.2) (dm_iter (pr_sessions r)).

Definition on_server_now (server : rstring) (s : PlayerSession) : bool := bool_decide (ps_current_server s = Some server).
Definition find_by_username (r : Players) (username : rstring) : option nat :=
  (λ p, p.2.1) <$> list_find (λ x, gp_username (ps_profile x.2) = username) (registered r).
Definition find_by_server (r : Players) (server : rstring) : list nat :=
  (filter (λ x, on_server_now server x.2) (registered r)).*1.
Definition registry_count (r : Players) : nat := length (dm_iter (pr_sessions r)).
Definition count_by_server (r : Players) (server : rstring) : nat :=
  length (filter (λ x, on_server_now server x.2) (registered r)).
Definition find_by_ip (r : Players) (ip : SockIp) : list nat :=
  (filter (λ x, sa_ip (ps_remote_addr x.2) = ip) (registered r)).*1.

(** ** Histories *)

(** A handler that starts, one that ends, and what happens to sessions in between. *)
Inductive player_step :=
| Opens (s : PlayerSession)
| Closes (uuid : Z)
| MovesTo (p : nat) (server : rstring)
| GetsCommand (p : nat) (cmd : PlayerCommand)
| TakesCommand (p : nat).

Definition open_session (s : PlayerSession) (r : Players) : Players :=
  let '(p, r) := allocate s r in
  match register_session p r with Some (_, r) => r | None => r end.

Definition player_step_run (r : Players) (st : player_step) : Players :=
  match st with
  | Opens s => open_session s r
  | Closes uuid => (unregister_session uuid r).2
  | MovesTo p server => on_session p (set_current_server server) r
  | GetsCommand p cmd => on_session p (λ s, (try_send_command cmd s).2) r
  | TakesCommand p => on_session p (λ s, with_commands (tail (ps_commands s)) s) r
  end.
Definition history (steps : list player_step) : Players := foldl player_step_run ConnectionRegistry_new steps.

Definition session_uuid (s : PlayerSession) : Z := gp_uuid (ps_profile s).

(** Sessions are new when they are opened, under ids that were not used before. *)
Definition opened (st : player_step) : option PlayerSession := match st with Opens s => Some s | _ => None end.
Definition is_new (s : PlayerSession) : Prop := ps_connected s = true ∧ ps_commands s = [].

Context `{DLS : !DashMapLaws Z nat SM, DLI : !DashMapLaws Z Z IM}.

Record consistent (r : Players) : Prop := {
  cs_session uuid p : dm_get (pr_sessions r) uuid = Some p →
    ∃ s, pr_store r !! p = Some s ∧ session_uuid s = uuid ∧ ps_connected s = true ∧
      dm_get (pr_id_index r) (ps_player_id s) = Some uuid;
  cs_index id uuid : dm_get (pr_id_index r) id = Some uuid →
    ∃ p s, dm_get (pr_sessions r) uuid = Some p ∧ pr_store r !! p = Some s ∧ ps_player_id s = id;
  cs_connected p s : pr_store r !! p = Some s → ps_connected s = true →
    dm_get (pr_sessions r) (session_uuid s) = Some p;
  cs_ids : NoDup (ps_player_id <$> pr_store r);
  cs_bounded p s : pr_store r !! p = Some s → (length (ps_commands s) ≤ COMMAND_CHANNEL_SIZE)%nat }.

Lemma id_inj r p q s t :
  NoDup (ps_player_id <$> pr_store r) → pr_store r !! p = Some s → pr_store r !! q = Some t →
  ps_player_id s = ps_player_id t → p = q.
Proof.
  intros Hn Hs Ht He. eapply NoDup_lookup; [exact Hn|by rewrite list_lookup_fmap, Hs|].
  rewrite list_lookup_fmap, Ht. cbn. by rewrite He.
Qed.

(** A change that keeps who a session is and whether it is connected keeps the registry consistent. *)
Lemma consistent_change p f r :
  (∀ s, ps_player_id (f s) = ps_player_id s ∧ session_uuid (f s) = session_uuid s ∧ ps_connected (f s) = ps_connected s ∧
     ((length (ps_commands s) ≤ COMMAND_CHANNEL_SIZE)%nat → (length (ps_commands (f s)) ≤ COMMAND_CHANNEL_SIZE)%nat)) →
  consistent r → consistent (on_session p f r).
Proof.
  intros Hf [Hs Hi Hc Hn Hb].
  assert (Ha : ∀ q s, alter f p (pr_store r) !! q = Some s → ∃ t, pr_store r !! q = Some t ∧ (s = t ∨ s = f t)).
  { intros q s. destruct (decide (q = p)) as [->|Hne].
    - rewrite list_lookup_alter_eq. destruct (pr_store r !! p) as [t|]; [|done]. intros [= <-]. eauto.
    - rewrite list_lookup_alter_ne by done. eauto. }
  assert (Hl : ∀ q t, pr_store r !! q = Some t → ∃ s, alter f p (pr_store r) !! q = Some s ∧ (s = t ∨ s = f t)).
  { intros q t Ht. destruct (decide (q = p)) as [->|Hne].
    - rewrite list_lookup_alter_eq, Ht. cbn. eauto.
    - rewrite list_lookup_alter_ne by done. eauto. }
  split; cbn [on_session pr_store pr_sessions pr_id_index].
  - intros uuid q Hq. destruct (Hs _ _ Hq) as (t&Ht&Hu&Hct&Hx). destruct (Hl _ _ Ht) as (s&Hq'&Hst).
    exists s. split; [done|]. destruct (Hf t) as (Hfi&Hfu&Hfc&_). destruct Hst as [->| ->]; [done|].
    by rewrite Hfu, Hfc, Hfi.
  - intros id uuid Hu. destruct (Hi _ _ Hu) as (q&t&Hq&Ht&Hid). destruct (Hl _ _ Ht) as (s&Hq'&Hst).
    exists q, s. split_and!; [done|done|]. destruct (Hf t) as (Hfi&_). by destruct Hst as [->| ->]; [|rewrite Hfi].
  - intros q s Hq Hcs. destruct (Ha _ _ Hq) as (t&Ht&Hst). destruct (Hf t) as (_&Hfu&Hfc&_).
    destruct Hst as [->| ->]; [by apply Hc|]. rewrite Hfu. apply Hc; [done|]. by rewrite <- Hfc.
  - assert (ps_player_id <$> alter f p (pr_store r) = ps_player_id <$> pr_store r) as ->; [|done].
    apply list_eq. intros i. rewrite !list_lookup_fmap. destruct (decide (i = p)) as [->|Hne].
    + rewrite list_lookup_alter_eq. destruct (pr_store r !! p) as [t|]; [|done]. cbn. by destruct (Hf t) as (->&_).
    + by rewrite list_lookup_alter_ne.
  - intros q s Hq. destruct (Ha _ _ Hq) as (t&Ht&Hst). destruct (Hf t) as (_&_&_&Hfl).
    destruct Hst as [->| ->]; [by eapply Hb|]. by eapply Hfl, Hb.
Qed.

Lemma alter_lookup (f : PlayerSession → PlayerSession) (p : nat) (l : list PlayerSession) (q : nat) t :
  alter f p l !! q = Some t ↔ q = p ∧ (∃ s, l !! p = Some s ∧ t = f s) ∨ q ≠ p ∧ l !! q = Some t.
Proof.
  rewrite list_lookup_alter. case_decide as Hp; [subst q|].
  - destruct (l !! p) as [s|] eqn:Hl; cbn; [|naive_solver]. split; [intros [= <-]; naive_solver|].
    intros [(_&s'&[= <-]&->)|[? _]]; done.
  - split; [naive_solver|]. intros [[-> _]|[_ ?]]; done.
Qed.

Lemma alter_ids (f : PlayerSession → PlayerSession) (p : nat) (l : list PlayerSession) :
  (∀ s, ps_player_id (f s) = ps_player_id s) → ps_player_id <$> alter f p l = ps_player_id <$> l.
Proof.
  intros Hf. apply list_eq. intros i. rewrite !list_lookup_fmap, list_lookup_alter.
  case_decide as Hi; [subst i|done]. destruct (l !! p); cbn; [|done]. by rewrite Hf.
Qed.

Lemma consistent_unregister uuid r : consistent r → consistent (unregister_session uuid r).2.
Proof.
  intros Hr. pose proof Hr as [Hs Hi Hc Hn Hb]. unfold unregister_session.
  destruct (dm_get (pr_sessions r) uuid) as [p|] eqn:Hp; [|done]. cbn [snd].
  destruct (Hs _ _ Hp) as (s&Hst&Hu&Hcon&Hx). rewrite Hst.
  split; cbn [on_session pr_store pr_sessions pr_id_index].
  - intros uuid' q. rewrite dm_get_remove. case_decide as Hne; [done|]. intros Hq.
    destruct (Hs _ _ Hq) as (t&Ht&Htu&Htc&Htx). exists t.
    assert (q ≠ p) as Hqp by (intros ->; congruence).
    split_and!; [apply alter_lookup; by right|done|done|]. rewrite dm_get_remove, decide_False; [done|].
    intros He. apply Hqp. symmetry. by eapply id_inj.
  - intros id u. rewrite dm_get_remove. case_decide as Hne; [done|]. intros Hid.
    destruct (Hi _ _ Hid) as (q&t&Hq&Ht&Htid). exists q, t.
    assert (q ≠ p) as Hqp by (intros ->; congruence).
    split_and!; [|apply alter_lookup; by right|done]. rewrite dm_get_remove, decide_False; [done|congruence].
  - intros q t [(->&s'&Hs'&->)|[Hqp Hq]]%alter_lookup Htc; [done|].
    pose proof (Hc _ _ Hq Htc) as Hg. rewrite dm_get_remove, decide_False; [done|congruence].
  - by rewrite alter_ids.
  - intros q t [(->&s'&Hs'&->)|[Hqp Hq]]%alter_lookup; [|by eapply Hb]. cbn. by eapply Hb.
Qed.

(** Only what the lookups give matters. *)
Lemma consistent_ext r r' :
  pr_store r' = pr_store r → (∀ k, dm_get (pr_sessions r') k = dm_get (pr_sessions r) k) →
  (∀ k, dm_get (pr_id_index r') k = dm_get (pr_id_index r) k) → consistent r → consistent r'.
Proof.
  intros Hst Hse Hix [Hs Hi Hc Hn Hb]. split; rewrite ?Hst.
  - intros u p Hx. rewrite Hse in Hx. destruct (Hs _ _ Hx) as (s&?&?&?&?). exists s. by rewrite Hix.
  - intros id u Hx. rewrite Hix in Hx. destruct (Hi _ _ Hx) as (q&s&?&?&?). exists q, s. by rewrite Hse.
  - intros p s Hp Hx. rewrite Hse. by apply Hc.
  - done.
  - done.
Qed.

(** A new session under a uuid that has none. *)
Lemma consistent_add s r :
  is_new s → ps_player_id s ∉ ps_player_id <$> pr_store r → dm_get (pr_sessions r) (session_uuid s) = None →
  consistent r →
  consistent (mk_Players (pr_store r ++ [s]) (dm_insert (session_uuid s) (length (pr_store r)) (pr_sessions r))
                (dm_insert (ps_player_id s) (session_uuid s) (pr_id_index r))).
Proof.
  intros [Hnew Hempty] Hfresh Hq [Hs Hi Hc Hn Hb].
  assert (Hin : ∀ q t, pr_store r !! q = Some t → ps_player_id s ≠ ps_player_id t).
  { intros q t Ht He. apply Hfresh, list_elem_of_fmap. exists t. split; [done|]. by eapply list_elem_of_lookup_2. }
  split; cbn [pr_store pr_sessions pr_id_index].
  - intros u x. rewrite dm_get_insert. case_decide as Hu.
    + intros [= <-]. exists s. split_and!; [by apply list_lookup_middle|done|done|].
      rewrite dm_get_insert, decide_True by done. by rewrite Hu.
    + intros Hx. destruct (Hs _ _ Hx) as (t&Ht&Htu&Htc&Htx). exists t.
      split_and!; [by apply lookup_app_l_Some|done|done|]. rewrite dm_get_insert, decide_False by by eapply Hin. done.
  - intros id u. rewrite dm_get_insert. case_decide as Hid.
    + intros [= <-]. exists (length (pr_store r)), s.
      split_and!; [by rewrite dm_get_insert, decide_True|by apply list_lookup_middle|done].
    + intros Hid'. destruct (Hi _ _ Hid') as (x&t&Hx&Ht&Htid). exists x, t.
      split_and!; [|by apply lookup_app_l_Some|done]. rewrite dm_get_insert, decide_False; [done|congruence].
  - intros x t [Hx|[Hle Hx]]%lookup_app_Some Htc; rewrite dm_get_insert.
    + pose proof (Hc _ _ Hx Htc). rewrite decide_False by congruence. done.
    + apply list_lookup_singleton_Some in Hx as [He ->]. rewrite decide_True by done. f_equal. lia.
  - rewrite fmap_app. apply NoDup_app. split_and!; [done| |apply NoDup_singleton].
    intros x Hx ->%list_elem_of_singleton. done.
  - intros x t [Ho|[_ [_ <-]%list_lookup_singleton_Some]]%lookup_app_Some; [by eapply Hb|rewrite Hempty; cbn; lia].
Qed.

(** Opening a session first removes the one with its uuid. *)
Lemma consistent_open s r :
  is_new s → ps_player_id s ∉ ps_player_id <$> pr_store r → consistent r → consistent (open_session s r).
Proof.
  intros Hnew Hfresh Hr. unfold open_session, allocate, register_session. cbn [pr_store pr_sessions pr_id_index].
  rewrite list_lookup_middle by done. cbv [mbind option_bind]. change (gp_uuid (ps_profile s)) with (session_uuid s).
  destruct (dm_get (pr_sessions r) (session_uuid s)) as [q|] eqn:Hq; [|by apply consistent_add].
  destruct (cs_session _ Hr _ _ Hq) as (old&Hold&_). rewrite (lookup_app_l_Some _ _ _ _ Hold).
  assert (Hne : ps_player_id old ≠ ps_player_id s).
  { intros He. apply Hfresh, list_elem_of_fmap. exists old. split; [done|]. by eapply list_elem_of_lookup_2. }
  rewrite decide_False by done. pose proof (consistent_unregister (session_uuid s) r Hr) as H1.
  unfold unregister_session in H1. rewrite Hq, Hold in H1. cbn [snd] in H1.
  apply (consistent_change q cancel) in H1; [|intros t; by split_and!].
  apply (consistent_add s) in H1; [|done| |].
  - eapply consistent_ext; [| | |exact H1]; cbn [on_session pr_store pr_sessions pr_id_index].
    + rewrite !alter_app_l by (rewrite ?length_alter; by eapply lookup_lt_Some). f_equal. apply list_eq. intros i.
      rewrite !list_lookup_alter. case_decide; [|done]. rewrite !decide_True by done. by destruct (pr_store r !! q).
    + intros k. rewrite !length_alter, !dm_get_insert, dm_get_remove. by repeat case_decide.
    + intros k. rewrite !dm_get_remove, !dm_get_insert, !dm_get_remove. repeat case_decide; congruence.
  - cbn. by rewrite !alter_ids.
  - cbn. by rewrite dm_get_remove, decide_True.
Qed.

Definition well_opened (steps : list player_step) : Prop :=
  Forall is_new (omap opened steps) ∧ NoDup (ps_player_id <$> omap opened steps).

(** The ids of the store are those of the sessions that were opened. *)
Lemma history_consistent steps :
  well_opened steps →
  consistent (history steps) ∧ ps_player_id <$> pr_store (history steps) = ps_player_id <$> omap opened steps.
Proof.
  induction steps as [|st steps IH] using rev_ind.
  { intros _. split; [|done].
    split; cbn; [intros ? ?; by rewrite dm_get_new|intros ? ?; by rewrite dm_get_new|done|constructor|done]. }
  intros [Hnew Hids]. rewrite omap_app in Hnew, Hids. apply Forall_app in Hnew as [Hnew Hlast].
  rewrite fmap_app in Hids. apply NoDup_app in Hids as (Hids&Hdis&_).
  destruct IH as [Hr Hst]; [by split|]. unfold history in *. rewrite foldl_app. cbn [foldl].
  set (r := foldl player_step_run ConnectionRegistry_new steps) in *. rewrite omap_app, fmap_app, <- Hst.
  assert (Hkeep : ∀ p f, (∀ s, ps_player_id (f s) = ps_player_id s) →
    ps_player_id <$> pr_store (on_session p f r) = (ps_player_id <$> pr_store r) ++ []).
  { intros p f Hf. rewrite app_nil_r. by apply alter_ids. }
  destruct st as [s|uuid|p server|p cmd|p]; cbn [player_step_run omap list_omap opened fmap list_fmap] in *.
  - rewrite Forall_singleton in Hlast. split.
    + apply consistent_open; [exact Hlast| |exact Hr]. rewrite Hst. intros Hin. apply (Hdis _ Hin). by apply list_elem_of_singleton.
    + unfold open_session, allocate, register_session. cbn [pr_store pr_sessions pr_id_index].
      rewrite list_lookup_middle by done. cbv [mbind option_bind]. repeat case_match; simplify_eq/=;
        rewrite ?alter_ids by done; by rewrite fmap_app.
  - split; [by apply consistent_unregister|]. unfold unregister_session. rewrite app_nil_r.
    case_match; cbn; [|done]. by rewrite alter_ids.
  - split; [|by apply Hkeep]. apply consistent_change; [|done]. intros s. by split_and!.
  - split.
    + apply consistent_change; [|done]. intros s. unfold try_send_command, channel_try_send.
      repeat case_match; cbn; split_and!; try done. intros _. rewrite length_app. cbn. lia.
    + apply Hkeep. intros s. unfold try_send_command, channel_try_send. by repeat case_match.
  - split; [|by apply Hkeep]. apply consistent_change; [|done]. intros s. split_and!; try done. cbn.
    destruct (ps_commands s); cbn; lia.
Qed.

(** The sessions of the store that are connected. *)
Definition connected_sessions (r : Players) : list (nat * PlayerSession) :=
  filter (λ x, ps_connected x.2) (imap pair (pr_store r)).

Lemma registered_connected r : consistent r → registered r ≡ₚ connected_sessions r.
Proof.
  intros [Hs Hi Hc Hn Hb]. apply NoDup_Permutation.
  - unfold registered. pose proof (dm_iter_NoDup (pr_sessions r)) as Hd.
    assert (Hu : ∀ k p, (k, p) ∈ dm_iter (pr_sessions r) → ∃ s, pr_store r !! p = Some s ∧ session_uuid s = k).
    { intros k p Hin. apply dm_iter_get in Hin. destruct (Hs _ _ Hin) as (s&?&?&_). eauto. }
    induction (dm_iter (pr_sessions r)) as [|[k p] l IH]; [constructor|].
    apply NoDup_cons in Hd as [Hk Hd]. cbn. destruct (Hu k p) as (s&Hsp&Hsk); [by left|]. rewrite Hsp. cbn.
    apply NoDup_cons. split; [|apply IH; [done|intros; apply Hu; by right]].
    intros ([k' p']&Hin&Heq)%list_elem_of_omap. cbn in Heq.
    destruct (Hu k' p') as (s'&Hsp'&Hsk'); [by right|]. rewrite Hsp' in Heq. injection Heq as -> ->.
    apply Hk, list_elem_of_fmap. exists (k', p). split; [cbn; congruence|done].
  - apply NoDup_filter. apply NoDup_alt. intros i j x.
    rewrite !list_lookup_imap. intros (?&?&?)%fmap_Some (?&?&?)%fmap_Some. congruence.
  - intros [p s]. unfold registered, connected_sessions. rewrite list_elem_of_omap, list_elem_of_filter. cbn. split.
    + intros ([k q]&Hin&Heq). cbn in Heq. apply dm_iter_get in Hin. destruct (Hs _ _ Hin) as (t&Ht&_&Htc&_).
      rewrite Ht in Heq. injection Heq as -> ->. split; [by rewrite Htc|]. apply list_elem_of_lookup. exists p.
      by rewrite list_lookup_imap, Ht.
    + intros [Hcon Hin]. apply list_elem_of_lookup in Hin as (i&Hl). rewrite list_lookup_imap in Hl.
      apply fmap_Some in Hl as (t&Ht&[= -> ->]). apply Is_true_true in Hcon.
      exists (session_uuid t, i). cbn. rewrite Ht. split; [|done]. apply dm_iter_get. by apply Hc.
Qed.

(** ** What a history leaves open *)

(** A session that was opened: its place in the store, its id, its uuid and its server. *)
Record LiveSession := mk_Live { lv_ptr : nat; lv_id : Z; lv_uuid : Z; lv_server : option rstring }.

(** The sessions that are open after a history, from its steps alone: of each uuid the one
    opened last, unless the uuid was closed since. With the number of sessions opened. *)
Definition live_step (acc : nat * list LiveSession) (st : player_step) : nat * list LiveSession :=
  match st with
  | Opens s =>
    (S acc.1, filter (λ l, lv_uuid l ≠ session_uuid s) acc.2 ++
              [mk_Live acc.1 (ps_player_id s) (session_uuid s) (ps_current_server s)])
  | Closes uuid => (acc.1, filter (λ l, lv_uuid l ≠ uuid) acc.2)
  | MovesTo p server =>
    (acc.1, (λ l, if decide (lv_ptr l = p) then mk_Live p (lv_id l) (lv_uuid l) (Some server) else l) <$> acc.2)
  | GetsCommand _ _ | TakesCommand _ => acc
  end.
Definition live (steps : list player_step) : list LiveSession := (foldl live_step (0%nat, []) steps).2.

Definition who (s : PlayerSession) : Z * Z * option rstring := (ps_player_id s, session_uuid s, ps_current_server s).
Definition live_who (l : LiveSession) : Z * Z * option rstring := (lv_id l, lv_uuid l, lv_server l).

Lemma alter_who (f : PlayerSession → PlayerSession) (p : nat) (l : list PlayerSession) :
  (∀ s, who (f s) = who s) → who <$> alter f p l = who <$> l.
Proof.
  intros Hf. apply list_eq. intros i. rewrite !list_lookup_fmap, list_lookup_alter.
  case_decide as Hi; [subst i|done]. destruct (l !! p); cbn; [|done]. by rewrite Hf.
Qed.

(** The registry against the sessions that are open. *)
Record holds (r : Players) (n : nat) (ls : list LiveSession) : Prop := {
  ho_count : length (pr_store r) = n;
  ho_sessions uuid p : get_session r uuid = Some p ↔ ∃ l, l ∈ ls ∧ lv_uuid l = uuid ∧ lv_ptr l = p;
  ho_who l : l ∈ ls → (who <$> pr_store r) !! lv_ptr l = Some (live_who l);
  ho_uuids : NoDup (lv_uuid <$> ls) }.

(** A change of sessions that keeps who they are and what is registered. *)
Lemma holds_keep r r' n ls :
  who <$> pr_store r' = who <$> pr_store r → (∀ u, get_session r' u = get_session r u) → holds r n ls → holds r' n ls.
Proof.
  intros Hw Hg [Hc Hs Ho Hu]. split; [|by intros; rewrite Hg|by intros; rewrite Hw; auto|done].
  by rewrite <- Hc, <- (length_fmap who (pr_store r')), Hw, length_fmap.
Qed.

Lemma live_uuids_filter (ls : list LiveSession) (u : Z) :
  NoDup (lv_uuid <$> ls) → NoDup (lv_uuid <$> filter (λ l, lv_uuid l ≠ u) ls).
Proof.
  induction ls as [|l ls IH]; [done|]. rewrite fmap_cons, filter_cons. intros [Hl Hn]%NoDup_cons.
  case_decide; [|by apply IH]. rewrite fmap_cons. apply NoDup_cons. split; [|by apply IH]. intros (x&Hx&[_ Hin]%list_elem_of_filter)%list_elem_of_fmap.
  apply Hl, list_elem_of_fmap. by exists x.
Qed.

Lemma holds_close uuid r n ls :
  holds r n ls → holds (unregister_session uuid r).2 n (filter (λ l, lv_uuid l ≠ uuid) ls).
Proof.
  intros Hh. assert (Hg : ∀ u, get_session (unregister_session uuid r).2 u =
    if decide (uuid = u) then None else get_session r u).
  { intros u. unfold unregister_session, get_session. destruct (dm_get (pr_sessions r) uuid) as [p|] eqn:Hp; cbn.
    - by rewrite dm_get_remove.
    - case_decide as Hu; [by subst|done]. }
  assert (Hw : who <$> pr_store (unregister_session uuid r).2 = who <$> pr_store r).
  { unfold unregister_session. destruct (dm_get (pr_sessions r) uuid); [|done]. cbn. by apply alter_who. }
  destruct Hh as [Hc Hs Ho Hu]. split.
  - by rewrite <- Hc, <- (length_fmap who (pr_store _.2)), Hw, length_fmap.
  - intros u p. rewrite Hg. setoid_rewrite list_elem_of_filter. case_decide; [naive_solver|]. rewrite Hs. naive_solver.
  - intros l [_ Hl]%list_elem_of_filter. rewrite Hw. by apply Ho.
  - by apply live_uuids_filter.
Qed.

Lemma open_session_spec s r :
  consistent r →
  who <$> pr_store (open_session s r) = (who <$> pr_store r) ++ [who s] ∧
  ∀ u, get_session (open_session s r) u = if decide (session_uuid s = u) then Some (length (pr_store r)) else get_session r u.
Proof.
  intros Hr. unfold open_session, allocate, register_session. cbn [pr_store pr_sessions pr_id_index].
  rewrite list_lookup_middle by done. cbv [mbind option_bind]. change (gp_uuid (ps_profile s)) with (session_uuid s).
  destruct (dm_get (pr_sessions r) (session_uuid s)) as [q|] eqn:Hq.
  - destruct (cs_session _ Hr _ _ Hq) as (old&Hold&_). rewrite (lookup_app_l_Some _ _ _ _ Hold).
    split; [|intros u; unfold get_session; case_decide; cbn; by rewrite dm_get_insert].
    case_decide; cbn; rewrite !alter_who by done; by rewrite fmap_app.
  - split; [cbn; by rewrite fmap_app|]. intros u. unfold get_session. cbn. by rewrite dm_get_insert.
Qed.

Lemma holds_open s r n ls :
  consistent r → holds r n ls →
  holds (open_session s r) (S n)
    (filter (λ l, lv_uuid l ≠ session_uuid s) ls ++ [mk_Live n (ps_player_id s) (session_uuid s) (ps_current_server s)]).
Proof.
  intros Hr [Hc Hs Ho Hu]. destruct (open_session_spec s r Hr) as [Hw Hg]. split.
  - rewrite <- (length_fmap who), Hw, length_app, length_fmap, Hc. cbn. lia.
  - intros u p. rewrite Hg, Hc. setoid_rewrite elem_of_app. setoid_rewrite list_elem_of_filter.
    setoid_rewrite list_elem_of_singleton. case_decide as Hsu.
    + split; [intros [= <-]; eexists; split; [by right|done]|]. intros (l&[[? _]| ->]&?&?); [congruence|by subst].
    + rewrite Hs. split.
      * intros (l&Hl&<-&<-). exists l. split; [left; split; [congruence|done]|done].
      * intros (l&[[_ Hl]| ->]&Hlu&Hlp); [by exists l|]. by destruct Hsu.
  - rewrite Hw. intros l [[_ Hl]%list_elem_of_filter| ->%list_elem_of_singleton]%elem_of_app.
    + apply lookup_app_l_Some. by apply Ho.
    + cbn. rewrite lookup_app_r by (rewrite length_fmap; lia). by rewrite length_fmap, Hc, Nat.sub_diag.
  - rewrite fmap_app. apply NoDup_app. split_and!; [by apply live_uuids_filter| |apply NoDup_singleton].
    intros u (l&->&[Hl _]%list_elem_of_filter)%list_elem_of_fmap Hx%list_elem_of_singleton. done.
Qed.

Lemma holds_move q server r n ls :
  holds r n ls →
  holds (on_session q (set_current_server server) r) n
    ((λ l, if decide (lv_ptr l = q) then mk_Live q (lv_id l) (lv_uuid l) (Some server) else l) <$> ls).
Proof.
  set (g := λ l, if decide (lv_ptr l = q) then mk_Live q (lv_id l) (lv_uuid l) (Some server) else l).
  assert (Hg : ∀ l, lv_uuid (g l) = lv_uuid l ∧ lv_ptr (g l) = lv_ptr l) by (intros l; unfold g; by case_decide).
  intros [Hc Hs Ho Hu]. split.
  - cbn. by rewrite length_alter.
  - intros u p. change (get_session (on_session q _ r) u) with (get_session r u). rewrite Hs.
    setoid_rewrite list_elem_of_fmap. split.
    + intros (l&Hl&<-&<-). exists (g l). destruct (Hg l) as [-> ->]. eauto.
    + intros (?&(l&->&Hl)&<-&<-). exists l. destruct (Hg l) as [-> ->]. eauto.
  - intros ? (l&->&Hl)%list_elem_of_fmap. rewrite (proj2 (Hg l)). pose proof (Ho l Hl) as Hw.
    cbn [on_session pr_store]. rewrite list_lookup_fmap in Hw |- *. rewrite list_lookup_alter. unfold g.
    destruct (pr_store r !! lv_ptr l) as [s|] eqn:Hls; [|done]. injection Hw as Hid Huu Hsv.
    destruct (decide (lv_ptr l = q)) as [Hq|Hq].
    + rewrite ?decide_True by done. rewrite <- Hq, Hls. cbn. unfold who, live_who. cbn. unfold session_uuid in *. cbn. congruence.
    + rewrite ?decide_False by done. rewrite ?Hls. cbn. unfold who, live_who. congruence.
  - rewrite <- list_fmap_compose. rewrite (list_fmap_ext (lv_uuid ∘ g) lv_uuid ls); [done|]. intros i l _. apply Hg.
Qed.

Lemma history_holds steps :
  well_opened steps → holds (history steps) (foldl live_step (0%nat, []) steps).1 (live steps).
Proof.
  unfold live. induction steps as [|st steps IH] using rev_ind; intros Hw.
  { split; cbn; [done| |by intros l ?%not_elem_of_nil|constructor]. intros u p. unfold get_session. cbn. rewrite dm_get_new.
    split; [done|]. by intros (l&?%not_elem_of_nil&_). }
  assert (Hw' : well_opened steps).
  { destruct Hw as [Hnew Hids]. rewrite omap_app in Hnew, Hids. apply Forall_app in Hnew as [Hnew _].
    rewrite fmap_app in Hids. by apply NoDup_app in Hids as (Hids&_). }
  specialize (IH Hw'). destruct (history_consistent steps Hw') as [Hr _]. unfold history in *. rewrite !foldl_app. cbn [foldl].
  set (r := foldl player_step_run ConnectionRegistry_new steps) in *. set (acc := foldl live_step _ steps) in *.
  destruct st as [s|uuid|p server|p cmd|p]; cbn [player_step_run live_step fst snd].
  - by apply holds_open.
  - by apply holds_close.
  - by apply holds_move.
  - apply (holds_keep r); [|done|done]. cbn. apply alter_who. intros s. unfold try_send_command, channel_try_send.
    by repeat case_match.
  - apply (holds_keep r); [|done|done]. cbn. by apply alter_who.
Qed.

(** The sessions on a server are counted as the history says. *)
Lemma count_live r n ls server :
  consistent r → holds r n ls →
  count_by_server r server = length (filter (λ l, lv_server l = Some server) ls).
Proof.
  intros Hr [Hc Hs Ho Hu].
  assert (Hperm : registered r ≡ₚ omap (λ l, (λ s, (lv_ptr l, s)) <$> pr_store r !! lv_ptr l) ls).
  { apply NoDup_Permutation.
    - rewrite (registered_connected r Hr). apply NoDup_filter. apply NoDup_alt. intros i j x.
      rewrite !list_lookup_imap. intros (?&?&?)%fmap_Some (?&?&?)%fmap_Some. congruence.
    - clear Hs. induction ls as [|l ls IH]; [constructor|]. cbn in Hu. apply NoDup_cons in Hu as [Hl Hu].
      pose proof (Ho l ltac:(by left)) as Hwl. rewrite list_lookup_fmap in Hwl. cbn.
      destruct (pr_store r !! lv_ptr l) as [s|] eqn:Hsl; [|done]. cbn. injection Hwl as Hi1 Hi2 Hi3.
      apply NoDup_cons. split; [|apply IH; [intros; apply Ho; by right|done]].
      intros (l'&Hin&Heq)%list_elem_of_omap. pose proof (Ho l' ltac:(by right)) as Hwl'. rewrite list_lookup_fmap in Hwl'.
      destruct (pr_store r !! lv_ptr l') as [s'|] eqn:Hsl'; [|done]. cbn in Heq. injection Heq as Hp ->.
      injection Hwl' as _ Hu' _. apply Hl, list_elem_of_fmap. exists l'. split; [congruence|done].
    - intros [p s]. unfold registered. rewrite !list_elem_of_omap. split.
      + intros ([u q]&Hin&Heq). cbn in Heq. apply dm_iter_get, Hs in Hin as (l&Hl&<-&<-). by exists l.
      + intros (l&Hl&Heq). exists (lv_uuid l, lv_ptr l). split; [|done]. apply dm_iter_get, Hs. by exists l. }
  unfold count_by_server. rewrite Hperm. clear Hperm Hs Hu.
  induction ls as [|l ls IH]; [done|]. pose proof (Ho l ltac:(by left)) as Hwl. rewrite list_lookup_fmap in Hwl. cbn [omap list_omap].
  destruct (pr_store r !! lv_ptr l) as [s|] eqn:Hsl; [|done]. injection Hwl as _ _ Hsv. cbn [fmap option_fmap option_map].
  specialize (IH ltac:(intros; apply Ho; by right)). rewrite !filter_cons. cbn [snd].
  destruct (decide (lv_server l = Some server)) as [He|He].
  - rewrite decide_True by (apply bool_decide_pack; congruence). cbn [length]. by rewrite IH.
  - rewrite decide_False by (intros ?%bool_decide_unpack; congruence). exact IH.
Qed.

(** C28: Along every history in which sessions are opened under new ids, closed by uuid,
    moved and sent commands, the registry is what the steps say: of each uuid it has the
    session opened last, unless the uuid was closed since, under its uuid and its id and
    no other id, with the server it moved to last; exactly these sessions are marked
    connected, the count of a server is the number of them on it, and no queue of commands
    exceeds its bound. A close removes whatever session is registered under the uuid. *)
Theorem registry_has_the_connected (steps : list player_step) :
  well_opened steps →
  let r := history steps in
  (∀ uuid p, get_session r uuid = Some p ↔ ∃ l, l ∈ live steps ∧ lv_uuid l = uuid ∧ lv_ptr l = p) ∧
  (∀ id uuid, dm_get (pr_id_index r) id = Some uuid ↔ ∃ l, l ∈ live steps ∧ lv_id l = id ∧ lv_uuid l = uuid) ∧
  (∀ id p, find_by_id r id = Some p ↔ ∃ l, l ∈ live steps ∧ lv_id l = id ∧ lv_ptr l = p) ∧
  (∀ l, l ∈ live steps → ∃ s, pr_store r !! lv_ptr l = Some s ∧
     ps_player_id s = lv_id l ∧ session_uuid s = lv_uuid l ∧ ps_current_server s = lv_server l) ∧
  (∀ p s, pr_store r !! p = Some s →
     (ps_connected s = true ↔ p ∈ lv_ptr <$> live steps) ∧ (length (ps_commands s) ≤ COMMAND_CHANNEL_SIZE)%nat) ∧
  (∀ server, count_by_server r server = length (filter (λ l, lv_server l = Some server) (live steps))).
Proof.
  intros Hw r. destruct (history_consistent steps Hw) as [Hr _]. pose proof (history_holds steps Hw) as Hh.
  fold r in Hr, Hh. pose proof Hr as [Cs Ci Cc Cn Cb]. pose proof Hh as [_ Hs Ho _].
  assert (Hst : ∀ l, l ∈ live steps → ∃ s, pr_store r !! lv_ptr l = Some s ∧
     ps_player_id s = lv_id l ∧ session_uuid s = lv_uuid l ∧ ps_current_server s = lv_server l).
  { intros l Hl. pose proof (Ho l Hl) as Hx. rewrite list_lookup_fmap in Hx.
    destruct (pr_store r !! lv_ptr l) as [s|]; [|done]. injection Hx as Ha Hb Hc. by exists s. }
  assert (Hix : ∀ id uuid, dm_get (pr_id_index r) id = Some uuid ↔ ∃ l, l ∈ live steps ∧ lv_id l = id ∧ lv_uuid l = uuid).
  { intros id uuid. split.
    - intros Hx. destruct (Ci _ _ Hx) as (p&s&Hp&Hps&Hid). apply Hs in Hp as (l&Hl&Hlu&Hlp). exists l.
      destruct (Hst l Hl) as (s'&Hs'&?&?&_). split_and!; [done| |done]. congruence.
    - intros (l&Hl&<-&<-). assert (Hp : get_session r (lv_uuid l) = Some (lv_ptr l)) by (apply Hs; eauto).
      destruct (Cs _ _ Hp) as (s&Hps&_&_&Hx). destruct (Hst l Hl) as (s'&Hs'&Hid&_). congruence. }
  split_and!; [exact Hs|exact Hix| |exact Hst| |by intros; eapply count_live].
  - intros id p. unfold find_by_id. destruct (dm_get (pr_id_index r) id) as [u|] eqn:Hu; cbv [mbind option_bind].
    + apply Hix in Hu as (l&Hl&<-&<-). rewrite Hs. split.
      * intros (l'&Hl'&Hu'&<-). exists l'. split_and!; [done| |done].
        destruct (Hst l Hl) as (s&Hps&Hid&_), (Hst l' Hl') as (s'&Hps'&Hid'&_).
        assert (lv_ptr l = lv_ptr l') as Heq; [|rewrite Heq in Hps; congruence].
        apply (inj Some). transitivity (get_session r (lv_uuid l)); [symmetry; apply Hs; eauto|]. apply Hs. eauto.
      * intros (l'&Hl'&Hi'&<-). exists l'. split_and!; [done| |done].
        assert (Some (lv_uuid l') = Some (lv_uuid l)) as [= ?]; [|done].
        transitivity (dm_get (pr_id_index r) (lv_id l)); [symmetry|]; apply Hix; eauto.
    + split; [done|]. intros (l&Hl&<-&_). assert (Hx : dm_get (pr_id_index r) (lv_id l) = Some (lv_uuid l)) by (apply Hix; eauto).
      congruence.
  - intros p s Hp. split; [|by eapply Cb]. rewrite list_elem_of_fmap. split.
    + intros Hcon. apply (Cc _ _ Hp), Hs in Hcon as (l&Hl&_&<-). by exists l.
    + intros (l&->&Hl). assert (Hg : get_session r (lv_uuid l) = Some (lv_ptr l)) by (apply Hs; eauto).
      destruct (Cs _ _ Hg) as (s'&Hs'&_&Hcon&_). congruence.
Qed.
End players.

(** ** Reconnecting *)

Section sample.
Definition notch (id : Z) (server : string) : PlayerSession :=
  PlayerSession_new id (Build_GameProfile 42 (str "Notch") []) V1_21 (Build_SocketAddr (V4 1) 40000) (Some (str server))
    true true.
Definition jeb : PlayerSession :=
  PlayerSession_new 3 (Build_GameProfile 43 (str "Jeb") []) V1_21 (Build_SocketAddr (V4 1) 40001) (Some (str "lobby"))
    true true.
Abbreviation sample_history := (history (SM := assoc_map Z nat) (IM := assoc_map Z Z)).

(** A player reconnects, another one joins and moves. *)
Definition sample_steps : list player_step :=
  [Opens (notch 1 "lobby"); Opens (notch 2 "lobby"); Opens jeb; MovesTo 2 (str "survival");
   GetsCommand 1 (SwitchServer (str "survival"))].

Lemma registry_has_the_connected_witness :
  get_session (sample_history sample_steps) 42 = Some 1%nat ∧ find_by_id (sample_history sample_steps) 1 = None ∧
  count_by_server (sample_history sample_steps) (str "lobby") = 1%nat.
Proof.
  destruct (registry_has_the_connected (SM := assoc_map Z nat) (IM := assoc_map Z Z) sample_steps) as (Hs&_&Hid&_&_&Hcount).
  { split; [by repeat constructor|]. apply (bool_decide_unpack _). by vm_compute. }
  assert (Hl : live sample_steps = [mk_Live 1 2 42 (Some (str "lobby")); mk_Live 2 3 43 (Some (str "survival"))]) by by vm_compute.
  rewrite Hl in *. split_and!.
  - apply Hs. eexists. split; [by left|done].
  - destruct (find_by_id (sample_history sample_steps) 1) as [p|] eqn:Hf; [|done].
    apply Hid in Hf as (l&Hin&Hx&_). repeat (apply elem_of_cons in Hin as [->|Hin]; [done|]). by apply not_elem_of_nil in Hin.
  - rewrite Hcount. by vm_compute.
Defined.

(** When a player reconnects, the end of the replaced handler removes the entry of the new
    session and marks it disconnected, while its handler is still running. *)
Theorem replaced_session_ends_successor :
  let r := sample_history [Opens (notch 1 "lobby"); Opens (notch 2 "lobby"); Closes 42] in
  get_session r 42 = None ∧ count_by_server r (str "lobby") = 0%nat ∧
  ∃ s, pr_store r !! 1%nat = Some s ∧ ps_cancelled s = false ∧
    (try_send_command (SwitchServer (str "survival")) s).1 = Err Disconnected.
Proof. cbn zeta. split; [by vm_compute|]. split; [by vm_compute|]. eexists. by vm_compute. Qed.
End sample.
