(* ===== verification/BanManager.v ===== *)
(** * BanManager: bans and the players who are online

    Models [ban/manager.rs] and [services/ban_bridge.rs], with the check of a player who has
    logged in ([handle] of [handler/intercepted/mod.rs]).  The storage is that of [Ban], the
    sessions those of [Players].

    A login is checked against the bans when the player has authenticated and is registered
    after its first backend has been connected; bans, ends of sessions and the purge run in
    between.  A [ban_event] is one such step at its time. *)
From S2P Require Import Prelude Wire Utf8 Version Packet Bridge Config Router Transport Address Ban Switch Players.

(** The text of a failed operation is that of its error. *)
Inductive ServiceError :=
| ServiceNotFound (what : rstring)
| OperationFailed (e : CoreError)
| ServiceUnavailable (what : rstring).

(** [IpAddr] is that of the standard library; the networks of [ipnet] play no part in bans. *)
Section addresses.
Context (Net : Type) (net_eq_dec : EqDecision Net) (contains : Net → SockIp → bool).
Definition socket_nets : IpNets :=
  {| IpAddr := SockIp; IpNet := Net; IpAddr_eq_dec := SockIp_eq_dec; IpNet_eq_dec := net_eq_dec;
     net_contains := contains; ip_display := ip_to_string |}.
End addresses.

Section manager.
Context `{LC : Lowercase} (Net : Type) (net_eq_dec : EqDecision Net) (contains : Net → SockIp → bool).
#[local] Instance manager_nets : IpNets := socket_nets Net net_eq_dec contains.
Context {AM UM VM : Type} `{DA : !DashMap SockIp BanEntry AM} `{DU : !DashMap rstring BanEntry UM}
  `{DV : !DashMap Z BanEntry VM}.
Context {SM IM : Type} `{DS : !DashMap Z nat SM} `{DI : !DashMap Z Z IM}.
Abbreviation Bans := (FileBanStorage (IM := AM) (UM := UM) (VM := VM)).
Abbreviation Registry := (Players (SM := SM) (IM := IM)).

(** ** The manager *)

Record BanManager := mk_BanManager { bm_storage : Bans; bm_connection_registry : Registry }.

Definition store_result {A} (m : BanManager) (r : A * Bans) : A * BanManager :=
  (r.1, mk_BanManager r.2 (bm_connection_registry m)).

Definition manager_load (bak : bool) (m : BanManager) : result CoreError () * BanManager :=
  store_result m (load bak (bm_storage m)).

Definition sessions_to_kick (target : BanTarget) (r : Registry) : list nat :=
  match target with
  | BanIp ip => find_by_ip r ip
  | BanUsername name => option_list (find_by_username r name)
  | BanUuid uuid => option_list (get_session r uuid)
  end.

Definition kick_all (ps : list nat) (r : Registry) : Registry := foldl (λ r p, on_session p cancel r) r ps.

Definition manager_ban (now : Z) (io : persist_io) (target : BanTarget) (reason : option rstring)
    (duration : option Duration) (source : rstring) (m : BanManager) : result CoreError () * BanManager :=
  let entry := BanEntry_new now target reason duration source in
  match add_ban now io entry (bm_storage m) with
  | (Err e, storage) => (Err e, mk_BanManager storage (bm_connection_registry m))
  | (Ok _, storage) =>
    let r := bm_connection_registry m in
    (Ok (), mk_BanManager storage (kick_all (sessions_to_kick target r) r))
  end.

Definition manager_unban (now : Z) (io : persist_io) (target : BanTarget) (m : BanManager)
    : result CoreError bool * BanManager := store_result m (remove_ban now io target (bm_storage m)).

Definition manager_is_banned (now : Z) (io : persist_io) (target : BanTarget) (m : BanManager)
    : result CoreError (option BanEntry) * BanManager := store_result m (is_banned now io target (bm_storage m)).

Definition is_ip_banned (now : Z) (io : persist_io) (ip : SockIp) (m : BanManager)
    : result CoreError (option BanEntry) * BanManager := manager_is_banned now io (BanIp ip) m.

Definition manager_check_player (now : Z) (ip : SockIp) (username : rstring) (uuid : option Z) (m : BanManager)
    : result CoreError (option BanEntry) * BanManager :=
  store_result m (check_player now ip username uuid (bm_storage m)).

Definition get_all_bans (now : Z) (m : BanManager) : result CoreError (list BanEntry) * BanManager :=
  (Ok (get_all_active now (bm_storage m)), m).

(** A tick of the purge task; what it gives is only logged. *)
Definition purge_tick (now : Z) (io : persist_io) (m : BanManager) : BanManager :=
  (store_result m (purge_expired now io (bm_storage m))).2.

(** What the task wakes up for. *)
Inductive purge_wake := PurgeShutdown | PurgeTick (now : Z) (io : persist_io).
(** Gives whether the task has ended. *)
Fixpoint purge_task (wakes : list purge_wake) (m : BanManager) : bool * BanManager :=
  match wakes with
  | [] => (false, m)
  | PurgeShutdown :: _ => (true, m)
  | PurgeTick now io :: wakes => purge_task wakes (purge_tick now io m)
  end.

(** ** The service of plugins *)

Definition operation_failed {A} (r : result CoreError A * BanManager) : result ServiceError A * BanManager :=
  (match r.1 with Ok a => Ok a | Err e => Err (OperationFailed e) end, r.2).

Definition bridge_ban (now : Z) (io : persist_io) (target : BanTarget) (reason : option rstring)
    (duration : option Duration) (m : BanManager) : result ServiceError () * BanManager :=
  operation_failed (manager_ban now io target reason duration (str "plugin") m).
Definition bridge_unban (now : Z) (io : persist_io) (target : BanTarget) (m : BanManager)
    : result ServiceError bool * BanManager := operation_failed (manager_unban now io target m).
Definition bridge_is_banned (now : Z) (io : persist_io) (target : BanTarget) (m : BanManager)
    : result ServiceError bool * BanManager :=
  operation_failed (prod_map (λ r, match r with Ok e => Ok (bool_decide (is_Some e)) | Err e => Err e end) id
                      (manager_is_banned now io target m)).
Definition get_ban (now : Z) (io : persist_io) (target : BanTarget) (m : BanManager)
    : result ServiceError (option BanEntry) * BanManager := operation_failed (manager_is_banned now io target m).
Definition bridge_get_all_bans (now : Z) (m : BanManager) : result ServiceError (list BanEntry) * BanManager :=
  operation_failed (get_all_bans now m).

(** ** Logins and bans *)

(** The check after authentication: the text of the kick, if the player is banned. *)
Definition post_auth_check (now : Z) (client_ip : SockIp) (username : rstring) (player_uuid : Z) (m : BanManager)
    : result CoreError (option rstring) * BanManager :=
  match manager_check_player now client_ip username (Some player_uuid) m with
  | (Ok (Some ban_entry), m) => (Ok (Some (kick_message now ban_entry)), m)
  | (Ok None, m) => (Ok None, m)
  | (Err e, m) => (Err e, m)
  end.

(** The manager, and the players who were let through and are not registered yet. *)
Record BanWorld := mk_BanWorld { bw_manager : BanManager; bw_logins : list PlayerSession }.

Inductive ban_event :=
| EvChecked (client_ip : SockIp) (s : PlayerSession)
| EvRegistered (player_id : Z)
| EvEnded (uuid : Z)
| EvBanned (io : persist_io) (target : BanTarget) (reason : option rstring) (duration : option Duration)
    (source : rstring)
| EvUnbanned (io : persist_io) (target : BanTarget)
| EvAsked (io : persist_io) (target : BanTarget)
| EvPurged (io : persist_io).

Definition on_manager (f : BanManager → BanManager) (w : BanWorld) : BanWorld :=
  mk_BanWorld (f (bw_manager w)) (bw_logins w).
Definition on_registry (f : Registry → Registry) (m : BanManager) : BanManager :=
  mk_BanManager (bm_storage m) (f (bm_connection_registry m)).

Definition ban_step (now : Z) (w : BanWorld) (ev : ban_event) : BanWorld :=
  match ev with
  | EvChecked client_ip s =>
    match post_auth_check now client_ip (gp_username (ps_profile s)) (session_uuid s) (bw_manager w) with
    | (Ok None, m) => mk_BanWorld m (bw_logins w ++ [s])
    | (_, m) => mk_BanWorld m (bw_logins w)
    end
  | EvRegistered id =>
    match list_find (λ s, ps_player_id s = id) (bw_logins w) with
    | Some (i, s) => mk_BanWorld (on_registry (open_session s) (bw_manager w)) (delete i (bw_logins w))
    | None => w
    end
  | EvEnded uuid => on_manager (on_registry (λ r, (unregister_session uuid r).2)) w
  | EvBanned io target reason duration source =>
    on_manager (λ m, (manager_ban now io target reason duration source m).2) w
  | EvUnbanned io target => on_manager (λ m, (manager_unban now io target m).2) w
  | EvAsked io target => on_manager (λ m, (manager_is_banned now io target m).2) w
  | EvPurged io => on_manager (purge_tick now io) w
  end.
Definition ban_run (w : BanWorld) (evs : list (Z * ban_event)) : BanWorld :=
  foldl (λ w ev, ban_step ev.1 w ev.2) w evs.

(** ** Who is online in spite of a ban *)

(** The ban of [t] is one of this player. *)
Definition covered (t : BanTarget) (s : PlayerSession) : Prop :=
  match t with
  | BanIp ip => sa_ip (ps_remote_addr s) = ip
  | BanUsername name => to_lowercase (gp_username (ps_profile s)) = to_lowercase name
  | BanUuid uuid => session_uuid s = uuid
  end.
#[export] Instance covered_dec t s : Decision (covered t s).
Proof. destruct t; cbn; apply _. Defined.

(** The session that a ban of a name kicks is the only one it is of: [ban] finds one
    session by name, the first that spells it as the ban does, and leaves any other
    session of that name, and one that spells it otherwise, where it is
    ([namesake_stays]). So the ban reaches all it is of only if at most one registered
    session has the name, and spells it so. *)
Definition named_exactly (target : BanTarget) (r : Registry) : Prop :=
  match target with
  | BanUsername name =>
    let named := filter (λ x, covered target x.2) (connected_sessions r) in
    Forall (λ x, gp_username (ps_profile x.2) = name) named ∧ (length named ≤ 1)%nat
  | _ => True
  end.

(** Nothing stands between client and proxy, player ids are new, the ban file can be written,
    and no ban is made of a player whose login is under way. *)
Definition orderly (w : BanWorld) (ev : ban_event) : Prop :=
  match ev with
  | EvChecked client_ip s => is_new s ∧ sa_ip (ps_remote_addr s) = client_ip
  | EvRegistered id => id ∉ ps_player_id <$> pr_store (bm_connection_registry (bw_manager w))
  | EvBanned io target _ _ _ =>
    match io with WriteFailed _ => False | _ => True end ∧
    Forall (λ s, ¬ covered target s) (bw_logins w) ∧ named_exactly target (bm_connection_registry (bw_manager w))
  | _ => True
  end.
Fixpoint orderly_run (start : Z) (w : BanWorld) (evs : list (Z * ban_event)) : Prop :=
  match evs with
  | [] => True
  | (now, ev) :: evs => start ≤ now ∧ orderly w ev ∧ orderly_run now (ban_step now w ev) evs
  end.
Definition last_time (start : Z) (evs : list (Z * ban_event)) : Z := foldl (λ _ ev, ev.1) start evs.

Context `{LA : !DashMapLaws SockIp BanEntry AM} `{LU : !DashMapLaws rstring BanEntry UM}
  `{LV : !DashMapLaws Z BanEntry VM}.
Context `{LS : !DashMapLaws Z nat SM} `{LI : !DashMapLaws Z Z IM}.
#[local] Instance manager_ip_laws : DashMapLaws (@IpAddr manager_nets) BanEntry AM := LA.

(** Only the key of a target matters. *)
Lemma active_ban_key now (b : Bans) t t' : target_key t = target_key t' → active_ban now b t = active_ban now b t'.
Proof. unfold active_ban. by intros ->. Qed.

Lemma active_ban_mono now now' (b : Bans) t : now ≤ now' → active_ban now b t = None → active_ban now' b t = None.
Proof.
  unfold active_ban. intros Hle. destruct (lookup_ban b (target_key t)) as [e|]; [|done]. cbv [mbind option_bind].
  unfold is_expired. destruct (be_expires_at e) as [x|]; [|done]. repeat case_bool_decide; try done; lia.
Qed.

(** Bans are only lifted. *)
Definition lifted (now : Z) (b b' : Bans) : Prop := ∀ t, active_ban now b t = None → active_ban now b' t = None.

Lemma unban_lifted now io t (b : Bans) : lifted now b (remove_ban now io t b).2.
Proof. intros t'. unfold active_ban. rewrite remove_ban_lookup. by case_decide. Qed.

Lemma asked_lifted now io t (b : Bans) : lifted now b (is_banned now io t b).2.
Proof. intros t'. by rewrite (proj2 (is_banned_exact now io t b)) by done. Qed.

Lemma purge_lifted now io (b : Bans) : lifted now b (purge_expired now io b).2.
Proof.
  intros t'. unfold active_ban. rewrite purge_expired_lookup. destruct (lookup_ban b (target_key t')) as [e|]; [|done].
  cbv [mbind option_bind]. by destruct (is_expired now e).
Qed.

(** The three targets of a player. *)
Lemma covered_key t s : covered t s →
  target_key t = target_key (BanIp (sa_ip (ps_remote_addr s))) ∨
  target_key t = target_key (BanUsername (gp_username (ps_profile s))) ∨ target_key t = target_key (BanUuid (session_uuid s)).
Proof. destruct t; cbn; [intros <-; by left|intros <-; right; by left|intros <-; right; by right]. Qed.

(** The check lets through exactly the players who are not banned. *)
Lemma post_auth_check_spec now s (m : BanManager) :
  let r := post_auth_check now (sa_ip (ps_remote_addr s)) (gp_username (ps_profile s)) (session_uuid s) m in
  ((r.1 = Ok None ∧ ∀ t, covered t s → active_ban now (bm_storage m) t = None) ∨
   (∃ msg, r.1 = Ok (Some msg)) ∧ ∃ t, covered t s ∧ is_Some (active_ban now (bm_storage m) t)) ∧
  bm_connection_registry r.2 = bm_connection_registry m ∧
  ∀ t, active_ban now (bm_storage r.2) t = active_ban now (bm_storage m) t.
Proof.
  unfold post_auth_check, manager_check_player, store_result.
  destruct (check_player_spec (IPN := manager_nets) now (sa_ip (ps_remote_addr s)) (gp_username (ps_profile s)) (Some (session_uuid s))
    (bm_storage m)) as [Hr Hs].
  destruct (check_player _ _ _ _ _) as [r b]. cbn [fst snd] in *. subst r. cbv [mbind option_bind].
  assert (Ht : ∀ t, active_ban now b t = active_ban now (bm_storage m) t) by (intros; by apply Hs).
  destruct (active_ban now (bm_storage m) (BanIp _)) eqn:H1;
    [split; [right; split; [eauto|]; eexists; split; [|by rewrite H1]; done|done]|].
  destruct (active_ban now (bm_storage m) (BanUsername _)) eqn:H2;
    [split; [right; split; [eauto|]; eexists; split; [|by rewrite H2]; done|done]|].
  destruct (active_ban now (bm_storage m) (BanUuid _)) eqn:H3;
    [split; [right; split; [eauto|]; eexists; split; [|by rewrite H3]; done|done]|].
  split; [left; split; [done|]|done]. intros t [Hk|[Hk|Hk]]%covered_key; by rewrite (active_ban_key _ _ _ _ Hk).
Qed.

(** *** Kicking *)

Lemma kick_all_lookup ps (r : Registry) p :
  pr_store (kick_all ps r) !! p = (λ s, if decide (p ∈ ps) then cancel s else s) <$> pr_store r !! p.
Proof using Type.
  unfold kick_all. revert r. induction ps as [|q ps IH]; intros r; cbn [foldl].
  { by destruct (pr_store r !! p). }
  rewrite IH. cbn [on_session pr_store]. rewrite list_lookup_alter.
  destruct (decide (q = p)) as [->|Hne], (pr_store r !! p) as [s|]; try done; cbn; f_equal.
  - rewrite (decide_True (P := p ∈ p :: ps)) by by left. by case_decide.
  - case_decide as H1; case_decide as H2; try done; exfalso; [apply H2; by right|].
    by apply elem_of_cons in H2 as [->|H2].
Qed.

Lemma kick_all_consistent ps (r : Registry) : consistent r → consistent (kick_all ps r).
Proof using Type.
  unfold kick_all. revert r. induction ps as [|q ps IH]; intros r Hr; [done|]. cbn [foldl]. apply IH.
  apply consistent_change; [|done]. intros s. by split_and!.
Qed.

Lemma connected_elem (r : Registry) p s :
  (p, s) ∈ connected_sessions r ↔ pr_store r !! p = Some s ∧ ps_connected s = true.
Proof.
  unfold connected_sessions. rewrite list_elem_of_filter. cbn [snd]. rewrite Is_true_true. split.
  - intros [Hc (i&Hi)%list_elem_of_lookup]. rewrite list_lookup_imap in Hi. by apply fmap_Some in Hi as (t&?&[= -> ->]).
  - intros [Hp Hc]. split; [done|]. apply list_elem_of_lookup. exists p. by rewrite list_lookup_imap, Hp.
Qed.

(** The sessions of the registry, as a set. *)
Lemma registered_elem (r : Registry) p s : consistent r →
  (p, s) ∈ registered r ↔ pr_store r !! p = Some s ∧ ps_connected s = true.
Proof. intros Hr. by rewrite (registered_connected r Hr), connected_elem. Qed.

(** The player who has the name is the one found under it. *)
Lemma named_found (r : Registry) name p s :
  consistent r → named_exactly (BanUsername name) r → (p, s) ∈ registered r → covered (BanUsername name) s →
  find_by_username r name = Some p.
Proof.
  intros Hr [Hnames Hone] Hin Hcov. rewrite Forall_forall in Hnames. unfold find_by_username.
  assert (Hf : ∀ x, x ∈ registered r → covered (BanUsername name) x.2 →
    x ∈ filter (λ x, covered (BanUsername name) x.2) (connected_sessions r)).
  { intros x Hx Hc. apply list_elem_of_filter. split; [done|]. by rewrite <- (registered_connected r Hr). }
  destruct (list_find _ (registered r)) as [[i [q t]]|] eqn:He; cbn.
  - apply list_find_Some in He as (Hi&Hn&_). cbn in Hn. apply list_elem_of_lookup_2 in Hi.
    assert (Hq : covered (BanUsername name) t) by (cbn; by rewrite Hn). f_equal.
    pose proof (Hf _ Hin Hcov) as H1. pose proof (Hf _ Hi Hq) as H2.
    destruct (filter _ (connected_sessions r)) as [|x [|y l]]; cbn in Hone; [by apply elem_of_nil in H1| |lia].
    apply list_elem_of_singleton in H1, H2. congruence.
  - apply list_find_None in He. rewrite Forall_forall in He. destruct (He _ Hin). by apply (Hnames (p, s)), Hf.
Qed.

(** Exactly the players the ban is of are kicked. *)
Lemma kicked_complete target (r : Registry) p s :
  consistent r → named_exactly target r → pr_store r !! p = Some s → ps_connected s = true → covered target s →
  p ∈ sessions_to_kick target r.
Proof.
  intros Hr Hex Hp Hc Hcov. assert (Hin : (p, s) ∈ registered r) by by apply registered_elem.
  destruct target as [ip|name|uuid]; cbn [sessions_to_kick].
  - apply list_elem_of_fmap. exists (p, s). split; [done|]. by apply list_elem_of_filter.
  - rewrite (named_found r name p s) by done. by apply list_elem_of_singleton.
  - cbn in Hcov. subst uuid. unfold get_session. rewrite (cs_connected _ Hr _ _ Hp Hc). by apply list_elem_of_singleton.
Qed.

Lemma kicked_sound target (r : Registry) p s :
  consistent r → p ∈ sessions_to_kick target r → pr_store r !! p = Some s → ps_connected s = true ∧ covered target s.
Proof.
  intros Hr. destruct target as [ip|name|uuid]; cbn [sessions_to_kick].
  - intros ([q t]&->&[Hip Hin]%list_elem_of_filter)%list_elem_of_fmap Hp. apply registered_elem in Hin as [Ht Hc]; [|done].
    cbn in *. assert (t = s) as -> by congruence. done.
  - unfold find_by_username. destruct (list_find _ (registered r)) as [[i [q t]]|] eqn:He; cbn;
      [|by intros ?%elem_of_nil]. intros ->%list_elem_of_singleton Hp.
    apply list_find_Some in He as (Hi&Hn&_). apply list_elem_of_lookup_2, registered_elem in Hi as [Ht Hc]; [|done].
    assert (t = s) as -> by congruence. cbn in *. by rewrite Hn.
  - unfold get_session. destruct (dm_get (pr_sessions r) uuid) as [q|] eqn:Hq; cbn; [|by intros ?%elem_of_nil].
    intros ->%list_elem_of_singleton Hp. destruct (cs_session _ Hr _ _ Hq) as (t&Ht&Hu&Hc&_).
    by assert (t = s) as -> by congruence.
Qed.

(** Who is connected and not cancelled after a session was opened or closed was so before. *)
Lemma open_session_old s (r : Registry) p t :
  consistent r → pr_store (open_session s r) !! p = Some t → ps_connected t = true →
  pr_store r !! p = Some t ∨ t = s.
Proof.
  intros Hr. unfold open_session, allocate, register_session. cbn [pr_store pr_sessions pr_id_index].
  rewrite list_lookup_middle by done. cbv [mbind option_bind].
  assert (Happ : (pr_store r ++ [s]) !! p = Some t → pr_store r !! p = Some t ∨ t = s).
  { intros [?|[_ [_ ->]%list_lookup_singleton_Some]]%lookup_app_Some; auto. }
  destruct (dm_get (pr_sessions r) _) as [q|] eqn:Hq; [|intros; by apply Happ].
  destruct (cs_session _ Hr _ _ Hq) as (old&Hold&_). rewrite (lookup_app_l_Some _ _ _ _ Hold).
  case_decide; cbn [on_session pr_store]; rewrite !list_lookup_alter; repeat case_decide; try done; try (intros; by apply Happ).
  all: intros (u&_&->)%fmap_Some; done.
Qed.

Lemma unregister_old uuid (r : Registry) p t :
  pr_store (unregister_session uuid r).2 !! p = Some t → ps_connected t = true → pr_store r !! p = Some t.
Proof.
  unfold unregister_session. destruct (dm_get (pr_sessions r) uuid) as [q|]; [|done]. cbn [snd on_session pr_store].
  rewrite list_lookup_alter. case_decide; [|done]. by intros (u&_&->)%fmap_Some.
Qed.

(** *** The invariant *)

Record ban_inv (now : Z) (w : BanWorld) : Prop := {
  bi_consistent : consistent (bm_connection_registry (bw_manager w));
  bi_new : Forall is_new (bw_logins w);
  bi_online p s t : pr_store (bm_connection_registry (bw_manager w)) !! p = Some s → ps_connected s = true →
    ps_cancelled s = false → covered t s → active_ban now (bm_storage (bw_manager w)) t = None;
  bi_login s t : s ∈ bw_logins w → covered t s → active_ban now (bm_storage (bw_manager w)) t = None }.

Lemma ban_inv_later now now' w : now ≤ now' → ban_inv now w → ban_inv now' w.
Proof.
  intros Hle [Hr Hn Ho Hl]. split; [done|done| |].
  - intros. eapply active_ban_mono; [done|]. by eapply Ho.
  - intros. eapply active_ban_mono; [done|]. by eapply Hl.
Qed.

(** A step that lifts bans and leaves the sessions alone. *)
Lemma ban_inv_lifted now w b :
  lifted now (bm_storage (bw_manager w)) b → ban_inv now w →
  ban_inv now (mk_BanWorld (mk_BanManager b (bm_connection_registry (bw_manager w))) (bw_logins w)).
Proof. intros Hb [Hr Hn Ho Hl]. split; [done|done| |]; cbn; intros; apply Hb; [by eapply Ho|by eapply Hl]. Qed.

Lemma ban_inv_banned now w io target reason duration source :
  orderly w (EvBanned io target reason duration source) → ban_inv now w →
  ban_inv now (ban_step now w (EvBanned io target reason duration source)).
Proof.
  intros (Hio&Hlog&Hex) [Hr Hn Ho Hl]. unfold ban_step, on_manager, manager_ban. cbv beta zeta.
  set (entry := BanEntry_new _ _ _ _ _). pose proof (add_ban_lookup (IPN := manager_nets) now io entry (bm_storage (bw_manager w))) as Hb.
  assert (Hok : (add_ban now io entry (bm_storage (bw_manager w))).1 = Ok ()) by by destruct io.
  destruct (add_ban now io entry (bm_storage (bw_manager w))) as [r b]. cbn [fst snd] in *. subst r.
  assert (Hother : ∀ t, target_key t ≠ target_key target →
    active_ban now b t = active_ban now (bm_storage (bw_manager w)) t).
  { intros t Ht. unfold active_ban. by rewrite Hb, decide_False. }
  assert (Hkey : ∀ t s, target_key t = target_key target → covered t s → covered target s).
  { intros t s. destruct t, target; cbn; intros [= ->]; congruence. }
  split; cbn [bw_manager bw_logins bm_storage bm_connection_registry snd].
  - by apply kick_all_consistent.
  - done.
  - intros p s t Hp Hc Hca Hcov. rewrite kick_all_lookup in Hp. apply fmap_Some in Hp as (s0&Hp&->).
    destruct (decide (p ∈ _)) as [|Hni]; [done|]. destruct (decide (target_key t = target_key target)) as [Hk|Hk].
    + destruct Hni. apply (kicked_complete _ _ _ s0); try done. by eapply Hkey.
    + rewrite Hother by done. by eapply Ho.
  - intros s t Hin Hcov. destruct (decide (target_key t = target_key target)) as [Hk|Hk].
    + rewrite Forall_forall in Hlog. destruct (Hlog _ Hin). by eapply Hkey.
    + rewrite Hother by done. by eapply Hl.
Qed.

Lemma ban_inv_step now w ev : orderly w ev → ban_inv now w → ban_inv now (ban_step now w ev).
Proof.
  intros Hev Hi. destruct ev as [ip s|id|uuid|io target reason duration source|io target|io target|io].
  - destruct Hev as [Hnew <-]. cbn [ban_step]. destruct (post_auth_check_spec now s (bw_manager w)) as (Hr&Hreg&Hb).
    destruct (post_auth_check _ _ _ _ _) as [r m]. cbn [fst snd] in *.
    assert (Hm : ban_inv now (mk_BanWorld m (bw_logins w))).
    { destruct m as [b r']. cbn in Hreg, Hb. subst r'. apply ban_inv_lifted; [intros t; by rewrite Hb|done]. }
    destruct Hr as [[-> Hs]|[[msg ->] _]]; [|done]. destruct Hm as [Hr' Hn Ho Hl]. split; cbn in *; try done.
    + by apply Forall_app_2; [|apply Forall_singleton].
    + intros s' t [Hin| ->%list_elem_of_singleton]%elem_of_app Hcov; [by eapply Hl|]. rewrite Hb. by apply Hs.
  - cbn [ban_step]. destruct (list_find _ _) as [[i s]|] eqn:He; [|done]. destruct Hi as [Hr Hn Ho Hl].
    apply list_find_Some in He as (Hi&<-&_). apply list_elem_of_lookup_2 in Hi as Hin.
    assert (Hsub : bw_logins w ≡ₚ s :: delete i (bw_logins w)) by by apply delete_Permutation.
    split; cbn [on_registry bw_manager bw_logins bm_storage bm_connection_registry].
    + apply consistent_open; [|done|done]. rewrite Forall_forall in Hn. by apply Hn.
    + rewrite Hsub in Hn. by apply Forall_cons in Hn as [_ ?].
    + intros p t tg Hp Hc Hca Hcov. apply open_session_old in Hp as [Hp| ->]; [by eapply Ho|by eapply Hl|done|done].
    + intros t tg Ht. apply Hl. rewrite Hsub. by right.
  - destruct Hi as [Hr Hn Ho Hl]. split; cbn; [by apply consistent_unregister|done| |done].
    intros p s t Hp Hc. apply unregister_old in Hp; [|done]. by eapply Ho.
  - by apply ban_inv_banned.
  - cbn. by apply ban_inv_lifted; [apply unban_lifted|].
  - cbn. by apply ban_inv_lifted; [apply asked_lifted|].
  - cbn. by apply ban_inv_lifted; [apply purge_lifted|].
Qed.

Lemma ban_inv_run start w evs :
  orderly_run start w evs → ban_inv start w → ban_inv (last_time start evs) (ban_run w evs).
Proof.
  unfold last_time, ban_run. revert start w. induction evs as [|[now ev] evs IH]; intros start w; [done|].
  intros (Hle&Hev&Hevs) Hi. cbn [foldl fst snd]. apply IH; [done|]. apply ban_inv_step; [done|]. by eapply ban_inv_later.
Qed.

Definition online_store (w : BanWorld) : list PlayerSession := pr_store (bm_connection_registry (bw_manager w)).

(** C37: However players log in, play and leave, and bans are made, asked for, lifted and purged: if
    nothing stands between client and proxy, the ban file can be written, a ban of a name is made
    while at most one registered session has that name and spells it as the ban does, and no ban is
    made during the login it is of, then at any later time every session that is registered as
    connected in spite of a ban in force has been kicked, whoever is banned is told so at the next
    login and whoever is not is let through, and a ban kicks nobody it is not of. A session that
    the end of a replaced one has taken out of the registry is not reached by bans. *)
Theorem banned_players_out (bans : Bans) (start : Z) (evs : list (Z * ban_event)) :
  let w0 := mk_BanWorld (mk_BanManager bans ConnectionRegistry_new) [] in
  orderly_run start w0 evs →
  let w := ban_run w0 evs in
  let m := bw_manager w in
  ∀ now, last_time start evs ≤ now →
  (∀ p s t, online_store w !! p = Some s → ps_connected s = true → covered t s →
     is_Some (active_ban now (bm_storage m) t) → ps_cancelled s = true) ∧
  (∀ s, let r := post_auth_check now (sa_ip (ps_remote_addr s)) (gp_username (ps_profile s)) (session_uuid s) m in
     r.1 = Ok None ∧ (∀ t, covered t s → active_ban now (bm_storage m) t = None) ∨
     (∃ msg, r.1 = Ok (Some msg)) ∧ ∃ t, covered t s ∧ is_Some (active_ban now (bm_storage m) t)) ∧
  (∀ io target reason duration source p s,
     let w' := ban_step now w (EvBanned io target reason duration source) in
     online_store w !! p = Some s →
     online_store w' !! p = Some s ∨ online_store w' !! p = Some (cancel s) ∧ ps_connected s = true ∧ covered target s).
Proof.
  intros w0 Hrun w m now Hle. assert (Hi : ban_inv now w).
  { eapply ban_inv_later; [exact Hle|]. apply ban_inv_run; [done|]. split; cbn; try done. 2: by intros ? ? ?%elem_of_nil.
    apply (history_consistent []). by split; constructor. }
  destruct Hi as [Hr _ Ho _]. split_and!.
  - intros p s t Hp Hc Hcov Hact. destruct (ps_cancelled s) eqn:Hca; [done|].
    pose proof (Ho p s t Hp Hc Hca Hcov) as Hn. fold m in Hn. rewrite Hn in Hact. by destruct Hact.
  - intros s. apply post_auth_check_spec.
  - intros io target reason duration source p s w' Hp. unfold w', ban_step, on_manager, online_store, manager_ban.
    destruct (add_ban _ _ _ _) as [[[]|e] b]; cbn [snd bw_manager bm_connection_registry]; [|by left].
    rewrite kick_all_lookup. unfold online_store in Hp. rewrite Hp. cbn. case_decide as Hin; [right|by left].
    split; [done|]. by eapply kicked_sound.
Qed.
End manager.

(** ** A concrete server *)

Section sample.
#[local] Existing Instance ascii_lowercase.
#[local] Instance no_nets : IpNets := socket_nets () unit_eq_dec (λ _ _, false).
Abbreviation SampleBans := (FileBanStorage (IM := assoc_map SockIp BanEntry) (UM := assoc_map rstring BanEntry)
  (VM := assoc_map Z BanEntry)).
Abbreviation SampleWorld := (BanWorld () unit_eq_dec (λ _ _, false) (AM := assoc_map SockIp BanEntry)
  (UM := assoc_map rstring BanEntry) (VM := assoc_map Z BanEntry) (SM := assoc_map Z nat) (IM := assoc_map Z Z)).
Abbreviation sample_event := (ban_event () unit_eq_dec (λ _ _, false)).

Definition no_bans : SampleBans := storage_new FileMissing.
Definition empty_server : SampleWorld := mk_BanWorld _ _ _ (mk_BanManager _ _ _ no_bans ConnectionRegistry_new) [].

Definition player_from (ip : SockIp) (id uuid : Z) (name : string) : PlayerSession :=
  PlayerSession_new id (Build_GameProfile uuid (str name) []) V1_21 (Build_SocketAddr ip 40000) (Some (str "lobby"))
    true true.
Definition joins (now : Z) (s : PlayerSession) : list (Z * sample_event) :=
  [(now, EvChecked _ _ _ (sa_ip (ps_remote_addr s)) s); (now, EvRegistered _ _ _ (ps_player_id s))].
Definition ban_of (now : Z) (t : BanTarget) : Z * sample_event :=
  (now, EvBanned _ _ _ Written t None (Some (from_secs 60)) (str "console")).
Definition sample_griefer : PlayerSession := player_from (V4 7) 1 11 "Griefer".
Definition sample_friend : PlayerSession := player_from (V4 8) 2 22 "Friend".
Definition online (w : SampleWorld) : list (rstring * bool) :=
  (λ x, (gp_username (ps_profile x.2), ps_cancelled x.2)) <$> connected_sessions (bm_connection_registry _ _ _ (bw_manager _ _ _ w)).

Abbreviation sample_run := (ban_run () unit_eq_dec (λ _ _, false) empty_server).
Abbreviation bans_now := (λ w : SampleWorld, bm_storage _ _ _ (bw_manager _ _ _ w)).

(** Two players join, one is banned by name. *)
Definition banned_by_name : list (Z * sample_event) :=
  joins 0 sample_griefer ++ joins 10 sample_friend ++ [ban_of 20 (BanUsername (str "Griefer"))].

Lemma banned_players_out_witness :
  online (sample_run banned_by_name) = [(str "Griefer", true); (str "Friend", false)] ∧
  (∃ s, online_store () unit_eq_dec (λ _ _, false) (sample_run banned_by_name) !! 0%nat = Some s ∧ ps_cancelled s = true) ∧
  ∃ msg, (post_auth_check () unit_eq_dec (λ _ _, false) 30 (V4 9) (str "GRIEFER") 33
            (bw_manager _ _ _ (sample_run banned_by_name))).1 = Ok (Some msg).
Proof.
  destruct (banned_players_out () unit_eq_dec (λ _ _, false) (SM := assoc_map Z nat) (IM := assoc_map Z Z) no_bans 0
    banned_by_name) with (now := 30) as (Hout&Hcheck&_).
  { cbn [banned_by_name joins app orderly_run]. split_and!; try (by vm_compute).
    all: apply (bool_decide_unpack _); by vm_compute. }
  { by vm_compute. }
  split; [by vm_compute|]. split.
  - assert (Hs : online_store () unit_eq_dec (λ _ _, false) (sample_run banned_by_name) !! 0%nat =
      Some (cancel sample_griefer)) by by vm_compute.
    exists (cancel sample_griefer). split; [exact Hs|].
    refine (Hout 0%nat (cancel sample_griefer) (BanUsername (str "griefer")) Hs eq_refl _ _); [by vm_compute|].
    apply (bool_decide_unpack _). by vm_compute.
  - destruct (Hcheck (player_from (V4 9) 5 33 "GRIEFER")) as [[_ Hnone]|[Hmsg _]]; [|exact Hmsg].
    by specialize (Hnone (BanUsername (str "Griefer")) eq_refl).
Defined.

(** ** Limits *)

(** A ban that spells the name in another case is in force for logins, but the player stays. *)
Theorem other_spelling_stays :
  let w := sample_run (joins 0 sample_griefer ++ [ban_of 20 (BanUsername (str "griefer"))]) in
  online w = [(str "Griefer", false)] ∧ is_Some (active_ban 30 (bans_now w) (BanUsername (str "Griefer"))).
Proof. split; [by vm_compute|]. apply (bool_decide_unpack _). by vm_compute. Qed.

(** A player who is banned between the check of the login and its registration stays. *)
Theorem banned_during_login_stays :
  let w := sample_run [(0, EvChecked _ _ _ (V4 7) sample_griefer); ban_of 10 (BanUuid 11); (20, EvRegistered _ _ _ 1)] in
  online w = [(str "Griefer", false)] ∧ is_Some (active_ban 30 (bans_now w) (BanUuid 11)).
Proof. split; [by vm_compute|]. apply (bool_decide_unpack _). by vm_compute. Qed.

(** Behind a proxy logins are checked with the address of the client, but a ban looks for
    sessions with the address of the proxy. *)
Theorem proxied_player_stays :
  let w := sample_run [(0, EvChecked _ _ _ (V4 99) sample_griefer); (0, EvRegistered _ _ _ 1); ban_of 20 (BanIp (V4 99))] in
  online w = [(str "Griefer", false)] ∧
  is_Some (active_ban 30 (bans_now w) (BanIp (V4 99))).
Proof. split; [by vm_compute|]. apply (bool_decide_unpack _). by vm_compute. Qed.

(** When the file cannot be written the ban fails and nobody is kicked, but it is in force. *)
Theorem failed_ban_in_force (e : IoErrorKind) :
  let w := sample_run (joins 0 sample_griefer ++
    [(20, EvBanned _ _ _ (WriteFailed e) (BanUuid 11) None None (str "console"))]) in
  online w = [(str "Griefer", false)] ∧ is_Some (active_ban 30 (bans_now w) (BanUuid 11)).
Proof. split; [by vm_compute|]. apply (bool_decide_unpack _). by vm_compute. Qed.

(** Of two players of the same name only one is kicked. *)
Theorem namesake_stays :
  online (sample_run (joins 0 sample_griefer ++ joins 10 (player_from (V4 8) 2 22 "Griefer") ++
    [ban_of 20 (BanUsername (str "Griefer"))])) = [(str "Griefer", false); (str "Griefer", true)].
Proof. by vm_compute. Qed.
End sample.
