(* ===== verification/InterceptedHandler.v ===== *)
(** * InterceptedHandler: the handler of the intercepted modes

    Models [handle] of [handler/intercepted/mod.rs], which puts together [Auth], [BanManager],
    [Intercepted] and [Players]: a client is authenticated, checked against the bans,
    connected to a backend or to limbo and registered; the session loop runs; then the codec
    chains are closed, the disconnect event is fired and the entry removed.

    Other connections are served while the handler awaits.  What they do to the bans and to
    the registry is [while_connecting] (between the check and the registration) and
    [while_playing] (during the loop, with the moves the session itself reports). *)
From S2P Require Import Prelude Wire Utf8 VarInt Codec Frame Version Packet LoginPackets PlayPackets Nbt Json.
From S2P Require Import Component Registry DefaultRegistry Bridge Config Router Middleware ServerManager Forwarding.
From S2P Require Import Backend EventBus Filters ProxyCommands Session LimboWorld Transport Address Ban Switch Limbo Auth.
From S2P Require Import Intercepted Players BanManager.

(** ** Permissions *)

(** [PermissionChecker]: the level and the permissions of a player. *)
Record PermissionChecker := {
  pk_level : PermissionLevel;
  pk_has_permission : rstring → bool }.

Inductive PermissionsSetupResult := UseDefault | Custom (checker : PermissionChecker).
Record PermissionsSetupEvent := {
  pse_player_id : Z;
  pse_profile : GameProfile;
  pse_online_mode : bool;
  pse_result : PermissionsSetupResult }.
Definition PermissionsSetupEvent_new (player_id : Z) (profile : GameProfile) (online_mode : bool) : PermissionsSetupEvent :=
  Build_PermissionsSetupEvent player_id profile online_mode UseDefault.

(** [default_checker()]. *)
Definition default_checker : PermissionChecker := {| pk_level := LPlayer; pk_has_permission _ := false |}.
Definition build_checker (s : PermissionService) (player_uuid : Z) : PermissionChecker :=
  {| pk_level := permission_level s player_uuid; pk_has_permission := has_permission s player_uuid |}.

Record DisconnectEvent := { de_player_id : Z; de_username : rstring; de_last_server : option rstring }.

Section handler.
Context `{CF : Cfb8, ZL : Zlib, UT : UuidText, LC : Lowercase, HS : HmacSha256, PP : Ppp}.
Context (Net : Type) (net_eq_dec : EqDecision Net) (contains : Net → SockIp → bool).
#[local] Instance handler_nets : IpNets := socket_nets Net net_eq_dec contains.
Context {H I W : Type} `{CI : !CodecInstances I}.
Context {TypeId HM PM : Type} `{TED : !EqDecision TypeId}.
Context `{HMD : !DashMap TypeId (list (HandlerEntry ChatMessageEvent)) HM}.
Context `{PMD : !DashMap PacketKey (list (HandlerEntry RawPacketEvent)) PM}.
Context {HR CM' EM HM' : Type} `{DM : !DashMap rstring (LimboHandler W) HR}.
Context `{DMC : !DashMap ProviderId RouterEntry CM', DME : !DashMap rstring ProviderId EM}.
Context `{HMD' : !DashMap TypeId (list (HandlerEntry ServerPreConnectEvent)) HM'}.
Context {AM UM VM : Type} `{DA : !DashMap SockIp BanEntry AM} `{DU : !DashMap rstring BanEntry UM}
  `{DV : !DashMap Z BanEntry VM}.
Context {SM IM : Type} `{DS : !DashMap Z nat SM} `{DI : !DashMap Z Z IM}.
Abbreviation Manager := (BanManager Net net_eq_dec contains (AM := AM) (UM := UM) (VM := VM) (SM := SM) (IM := IM)).
Abbreviation players := (bm_connection_registry Net net_eq_dec contains).

Context (md5 : bytes → Z) (properties_json : list Property → rstring).
Context (transport_error_text : TransportError → string) (io_error_text : IoErrorKind → rstring).
Context (net : rstring → Z → attempt) (default_timeout : Z).
Context (parse_uuid : rstring → option Z) (random_uuid : Z).

(** What the handler has: the services of a session, the listeners and registries of a login. *)
Record HandlerServices := {
  hs_session : SessionServices (H := H) (TypeId := TypeId) (HM := HM) (PM := PM) (HR := HR) (CM' := CM')
    (EM := EM) (HM' := HM');
  hs_strategy : AuthStrategy;
  hs_pre_login : list (HandlerEntry PreLoginEvent);
  hs_permissions_setup : list (HandlerEntry PermissionsSetupEvent);
  hs_permission_service : PermissionService;
  hs_codec_filters : FilterRegistryBase (F := CodecFilterFactory I);
  hs_cache : RegistryCodecCache;
  hs_world : W }.
Context (services : HandlerServices).
Abbreviation packet_registry := (sv_registry (se_loop (hs_session services))).

(** What the pipelines leave of a connection. *)
Record HandlerContext := {
  hc_routing : option RoutingData;
  hc_handshake : option HandshakeData;
  hc_login : option LoginData;
  hc_peer_addr : SocketAddr;
  hc_client_ip : SockIp;
  hc_local_addr : SocketAddr;
  hc_stream : list bytes;
  hc_buffered : bytes }.

Definition hc_connection_info (ctx : HandlerContext) : ConnectionInfo :=
  Build_ConnectionInfo (hc_peer_addr ctx) (Some (hc_client_ip ctx)) None (hc_local_addr ctx).

Definition require_extension {A} (name : string) (x : option A) : result CoreError A :=
  match x with Some a => Ok a | None => Err (MissingExtension name) end.

(** The listeners may replace the checker. *)
Definition setup_permissions (auth : AuthResult) : PermissionChecker :=
  let default_ := if ar_online_mode auth then build_checker (hs_permission_service services) (ar_player_uuid auth)
                  else default_checker in
  match pse_result (dispatch (hs_permissions_setup services)
          (PermissionsSetupEvent_new (ar_player_id auth) (ar_api_profile auth) (ar_online_mode auth))) with
  | Custom checker => checker
  | UseDefault => default_
  end.

(** *** Until the session *)

(** What is ready when the session starts. *)
Record Start := {
  st_auth : AuthResult;
  st_routing : RoutingData;
  st_handshake : HandshakeData;
  st_mode : ConnectionMode (W := W);
  st_server : rstring }.

Inductive login_end :=
| LoginFailed (e : CoreError)
| LoginBanned (message : rstring)
| LoginDenied
| LoginPanicked
| LoginStarts (s : Start).

(** The token of the encryption request and the limits of the first connection come with the
    run. *)
Record login_env := { le_now : Z; le_verify_token : bytes; le_connect : connect_env; le_next_id : Z }.

Abbreviation authenticate_client env ctx handshake :=
  (authenticate packet_registry (hs_pre_login services) parse_uuid random_uuid md5 (hs_strategy services)
     (le_verify_token env) (hc_login ctx) (hd_protocol_version handshake) (hc_peer_addr ctx) (hd_domain handshake)).
Abbreviation first_server env auth routing handshake info :=
  (resolve_initial_mode md5 properties_json ip_to_string transport_error_text io_error_text net default_timeout
     (hs_session services) (le_connect env) auth routing handshake (hd_protocol_version handshake) info).

Definition handle_until_session (env : login_env) (ctx : HandlerContext) (m : Manager) : login_end * option Conn * Manager :=
  match require_extension "RoutingData" (hc_routing ctx) with
  | Err e => (LoginFailed e, None, m)
  | Ok routing =>
    match require_extension "HandshakeData" (hc_handshake ctx) with
    | Err e => (LoginFailed e, None, m)
    | Ok handshake =>
      let client := ClientBridge_new (hc_buffered ctx) (hd_protocol_version handshake) in
      let conn := mk_Conn client (hc_stream ctx) false [] (le_next_id env) in
      match authenticate_client env ctx handshake conn with
      | (Err e, conn) => (LoginFailed e, Some conn, m)
      | (Ok auth, conn) =>
        match post_auth_check Net net_eq_dec contains (le_now env) (hc_client_ip ctx) (ar_username auth)
                (ar_player_uuid auth) m with
        | (Err e, m) => (LoginFailed e, Some conn, m)
        | (Ok (Some message), m) => (LoginBanned message, Some (disconnect packet_registry message conn).2, m)
        | (Ok None, m) =>
          match first_server env auth routing handshake (hc_connection_info ctx) conn with
          | (None, conn) => (LoginPanicked, Some conn, m)
          | (Some (Err e), conn) => (LoginFailed e, Some conn, m)
          | (Some (Ok InitialDenied), conn) => (LoginDenied, Some conn, m)
          | (Some (Ok (Connected mode server_id)), conn) =>
            (LoginStarts (Build_Start auth routing handshake mode server_id), Some conn, m)
          end
        end
      end
    end
  end.

(** *** The session *)

Definition new_session (ctx : HandlerContext) (s : Start) : PlayerSession :=
  PlayerSession_new (ar_player_id (st_auth s)) (ar_api_profile (st_auth s)) (hd_protocol_version (st_handshake s))
    (hc_peer_addr ctx) (Some (rd_config_id (st_routing s))) true (ar_online_mode (st_auth s)).

Definition player_of (ctx : HandlerContext) (s : Start) : Player :=
  Build_Player (ar_player_id (st_auth s)) (ar_username (st_auth s)) (ar_api_profile (st_auth s)) (st_handshake s)
    (hc_peer_addr ctx) (Some (hc_client_ip ctx)) (hd_protocol_version (st_handshake s)).

Definition socket_text (a : SocketAddr) : rstring := ip_to_string (sa_ip a) ++ str ":" ++ str (pretty (sa_port a)).

Definition session_life (ctx : HandlerContext) (s : Start) (conn : Conn) : Life (H := H) (I := I) (W := W) :=
  let chains := build_codec_chains (hs_codec_filters services) (hd_protocol_version (st_handshake s))
    (ar_player_id (st_auth s)) (socket_text (hc_peer_addr ctx)) (Some (ip_to_string (hc_client_ip ctx))) in
  mk_Life (cn_client conn) (cn_in conn) (st_mode s) (st_server s) (rd_config_id (st_routing s)) chains.1 chains.2
    (hs_cache services) [] (hs_world services) [].

Definition close_chains (l : Life (H := H) (I := I) (W := W)) : Life (H := H) (I := I) (W := W) :=
  mk_Life (lf_client l) (lf_client_in l) (lf_mode l) (lf_current l) (lf_reported l) (chain_close (lf_client_chain l))
    (chain_close (lf_server_chain l)) (lf_cache l) (lf_ran l) (lf_world l) (lf_fired l).

Abbreviation session_loop ctx s rounds l :=
  (run_session_loop md5 properties_json ip_to_string transport_error_text io_error_text net default_timeout
     (hs_session services) (player_of ctx s) rounds l).

(** How the handler ends: a panic of the loop takes the task with it; [Running] has not ended. *)
Inductive handler_end :=
| NotStarted (e : login_end)
| Running (l : Life (H := H) (I := I) (W := W))
| Panicked (l : Life (H := H) (I := I) (W := W))
| Ended (outcome : ProxyLoopOutcome) (l : Life (H := H) (I := I) (W := W)) (fired : DisconnectEvent).

(** The session is registered, runs, and is removed under its uuid. *)
Definition handle_session (ctx : HandlerContext) (s : Start) (conn : Conn) (rounds : list (round (W := W)))
    (while_playing : Manager → Manager) (m : Manager) : handler_end * Manager :=
  let '(p, r) := allocate (new_session ctx s) (players m) in
  match register_session p r with
  | None => (NotStarted LoginPanicked, m)
  | Some (session_id, r) =>
    let m := while_playing (mk_BanManager Net net_eq_dec contains (bm_storage Net net_eq_dec contains m) r) in
    match session_loop ctx s rounds (session_life ctx s conn) with
    | (None, l) => (Running l, m)
    | (Some LoopPanicked, l) => (Panicked l, m)
    | (Some outcome, l) =>
      let event := Build_DisconnectEvent (ar_player_id (st_auth s)) (ar_username (st_auth s))
        (Some (rd_config_id (st_routing s))) in
      (Ended outcome (close_chains l) event,
       on_registry Net net_eq_dec contains (λ r, (unregister_session session_id r).2) m)
    end
  end.

Definition intercepted_handle (env : login_env) (ctx : HandlerContext) (rounds : list (round (W := W)))
    (while_connecting while_playing : Manager → Manager) (m : Manager)
    : handler_end * option PermissionChecker * option Conn * Manager :=
  match handle_until_session env ctx m with
  | (LoginStarts s, Some conn, m) =>
    let '(e, m) := handle_session ctx s conn rounds while_playing (while_connecting m) in
    (e, Some (setup_permissions (st_auth s)), Some conn, m)
  | (e, conn, m) => (NotStarted e, None, conn, m)
  end.

(** ** Who gets a session *)

Context `{LA : !DashMapLaws SockIp BanEntry AM} `{LU : !DashMapLaws rstring BanEntry UM}
  `{LV : !DashMapLaws Z BanEntry VM}.
Context `{LS : !DashMapLaws Z nat SM} `{LI : !DashMapLaws Z Z IM}.
#[local] Instance handler_ip_laws : DashMapLaws (@IpAddr handler_nets) BanEntry AM := LA.

(** No ban of the address, the name or the uuid is in force. *)
Definition not_banned (now : Z) (ip : SockIp) (auth : AuthResult) (m : Manager) : Prop :=
  let bans := bm_storage Net net_eq_dec contains m in
  active_ban now bans (BanIp ip) = None ∧ active_ban now bans (BanUsername (ar_username auth)) = None ∧
  active_ban now bans (BanUuid (ar_player_uuid auth)) = None.

Lemma post_auth_not_banned now ip auth (m : Manager) :
  let r := post_auth_check Net net_eq_dec contains now ip (ar_username auth) (ar_player_uuid auth) m in
  players r.2 = players m ∧ (r.1 = Ok None → not_banned now ip auth m) ∧ (∀ e, r.1 ≠ Err e).
Proof.
  unfold post_auth_check, manager_check_player, store_result, not_banned.
  pose proof (check_player_res (IPN := handler_nets) now ip (ar_username auth) (Some (ar_player_uuid auth))
    (bm_storage Net net_eq_dec contains m)) as Hr.
  destruct (check_player _ _ _ _ _) as [r b]. cbn [fst snd] in *. subst r. cbv [mbind option_bind].
  by repeat case_match.
Qed.

(** The login as far as it got. *)
Lemma handle_until_session_spec env ctx m :
  let '(e, conn, m') := handle_until_session env ctx m in
  players m' = players m ∧
  match e with
  | LoginStarts s => ∃ conn0 conn1 conn2, authenticate_client env ctx (st_handshake s) conn0 = (Ok (st_auth s), conn1) ∧
      conn = Some conn2 ∧ not_banned (le_now env) (hc_client_ip ctx) (st_auth s) m
  | LoginBanned message => ∃ handshake auth conn0 conn1,
      authenticate_client env ctx handshake conn0 = (Ok auth, conn1) ∧ conn = Some (disconnect packet_registry message conn1).2
  | _ => True
  end.
Proof.
  unfold handle_until_session. destruct (hc_routing ctx) as [routing|]; [|done]. destruct (hc_handshake ctx) as [handshake|]; [|done].
  cbn [require_extension]. set (conn0 := mk_Conn _ _ _ _ _).
  destruct (authenticate_client env ctx handshake conn0) as [[auth|e] conn1] eqn:Ha; [|done].
  destruct (post_auth_not_banned (le_now env) (hc_client_ip ctx) auth m) as (Hreg&Hok&Herr).
  destruct (post_auth_check _ _ _ _ _ _ _ _) as [[[message|]|e] m1]; cbn [fst snd] in *; [..|by destruct (Herr e)].
  - split; [done|]. eauto 6.
  - destruct (first_server env auth routing handshake _ conn1) as [[[[mode server|]|e]|] conn2]; try done.
    split; [done|]. exists conn0, conn1, conn2. split_and!; [exact Ha|done|by apply Hok..].
Qed.

(** A session that is registered is found under its uuid. *)
Lemma register_session_found q (r r' : Players (SM := SM) (IM := IM)) s sid :
  pr_store r !! q = Some s → register_session q r = Some (sid, r') →
  sid = session_uuid s ∧ get_session r' sid = Some q.
Proof.
  intros Hq. unfold register_session, get_session. rewrite Hq. cbv [mbind option_bind].
  change (gp_uuid (ps_profile s)) with (session_uuid s).
  destruct (dm_get (pr_sessions r) (session_uuid s)) as [old|]; cbn [pr_store pr_sessions pr_id_index].
  - destruct (pr_store r !! old) as [t|]; [|done].
    case_decide; intros [= <- <-]; cbn [on_session pr_sessions]; by rewrite dm_get_insert, decide_True.
  - intros [= <- <-]. cbn [pr_sessions]. by rewrite dm_get_insert, decide_True.
Qed.

Lemma unregister_gone uuid (r : Players (SM := SM) (IM := IM)) : get_session (unregister_session uuid r).2 uuid = None.
Proof.
  unfold unregister_session, get_session. destruct (dm_get (pr_sessions r) uuid) eqn:Hg; [|done].
  cbn [snd on_session pr_sessions]. by rewrite dm_get_remove, decide_True.
Qed.

(** What has gone before a session. *)
Definition started (env : login_env) (ctx : HandlerContext) (m : Manager) (checker : option PermissionChecker) (s : Start) : Prop :=
  (∃ conn0 conn1, authenticate_client env ctx (st_handshake s) conn0 = (Ok (st_auth s), conn1)) ∧
  not_banned (le_now env) (hc_client_ip ctx) (st_auth s) m ∧ checker = Some (setup_permissions (st_auth s)).

(** C7: Only a client who authenticated, and of whom no ban was in force then, by address, name or
    uuid, gets a session; a login that ends before leaves the registry as it was, and a banned
    client is told why; a session that ends is removed, with whatever is registered under its
    uuid, its codec chains are closed and its end is announced under its name; one whose loop
    panics stays registered. *)
Theorem sessions_start_and_end env ctx rounds (while_connecting while_playing : Manager → Manager) m :
  let '(e, checker, conn, m') := intercepted_handle env ctx rounds while_connecting while_playing m in
  match e with
  | NotStarted (LoginFailed _) | NotStarted LoginDenied => players m' = players m
  | NotStarted (LoginBanned message) => players m' = players m ∧
      ∃ conn1, conn = Some (disconnect packet_registry message conn1).2
  | NotStarted _ => True
  | Running _ => ∃ s, started env ctx m checker s
  | Panicked _ => ∃ s m0 p, started env ctx m checker s ∧ m' = while_playing m0 ∧
      get_session (players m0) (gp_uuid (ar_api_profile (st_auth s))) = Some p
  | Ended outcome l event => ∃ s l0, started env ctx m checker s ∧ l = close_chains l0 ∧
      event = Build_DisconnectEvent (ar_player_id (st_auth s)) (ar_username (st_auth s)) (Some (rd_config_id (st_routing s))) ∧
      get_session (players m') (gp_uuid (ar_api_profile (st_auth s))) = None
  end.
Proof.
  unfold intercepted_handle. pose proof (handle_until_session_spec env ctx m) as Hl.
  destruct (handle_until_session env ctx m) as [[e conn] m1]. destruct Hl as [Hreg He].
  destruct e as [err|message| | |s]; try (by destruct conn).
  { destruct He as (handshake&auth&conn0&conn1&_&->). split; [done|]. by exists conn1. }
  destruct He as (conn0&conn1&conn2&Ha&->&Hnb). unfold handle_session, allocate.
  set (r := mk_Players _ _ _). set (q := length (pr_store (players (while_connecting m1)))).
  assert (Hq : pr_store r !! q = Some (new_session ctx s)) by (by apply list_lookup_middle).
  destruct (register_session q r) as [[sid r']|] eqn:Hrs; [|done].
  destruct (register_session_found _ _ _ _ _ Hq Hrs) as [-> Hget].
  change (session_uuid (new_session ctx s)) with (gp_uuid (ar_api_profile (st_auth s))) in *.
  set (m0 := mk_BanManager _ _ _ _ r').
  assert (Hst : started env ctx m (Some (setup_permissions (st_auth s))) s) by (split_and!; [by eauto|done|done]).
  destruct (session_loop ctx s rounds _) as [[outcome|] l]; [|by exists s].
  assert (Hgone : get_session (players (on_registry Net net_eq_dec contains
    (λ r0, (unregister_session (gp_uuid (ar_api_profile (st_auth s))) r0).2) (while_playing m0)))
    (gp_uuid (ar_api_profile (st_auth s))) = None).
  { apply unregister_gone. }
  destruct outcome; try (exists s, l; by split_and!).
  exists s, m0, q. by split_and!.
Qed.
End handler.

(** ** A concrete handler *)

Section sample.
#[local] Existing Instances toy_cfb8 stored_zlib hex_uuid ascii_lowercase glob_match sum_mac spec_ppp announcing.
#[local] Instance plain_nets : IpNets := socket_nets () unit_eq_dec (λ _ _, false).

(** An offline server without listeners, limbo handlers or filters. *)
Definition offline_services : HandlerServices (H := string) (I := RawPacket) (W := ())
    (TypeId := Z) (HM := assoc_map Z (list (HandlerEntry ChatMessageEvent)))
    (PM := assoc_map PacketKey (list (HandlerEntry RawPacketEvent))) (HR := assoc_map rstring (LimboHandler ()))
    (CM' := assoc_map ProviderId RouterEntry) (EM := assoc_map rstring ProviderId)
    (HM' := assoc_map Z (list (HandlerEntry ServerPreConnectEvent))) := {|
  hs_session := Build_SessionServices sample_services
    {| sw_domain_router := router_new; sw_event_bus := bus_new; sw_pre_connect_event := 0;
       sw_limbo_handler_registry := dm_new; sw_forwarding_mode := FwdNone; sw_forwarding_secret := None |}
    [] [] (λ _, Ok None) (λ _, Ok []);
  hs_strategy := Auth.Offline None;
  hs_pre_login := [];
  hs_permissions_setup := [];
  hs_permission_service := permission_new_sync (Build_PermissionsConfig [] []);
  hs_codec_filters := filter_registry_new;
  hs_cache := ∅;
  hs_world := () |}.

Definition lobby_config : ServerConfig :=
  Build_ServerConfig (Some (str "lobby")) None None [str "lobby.example.com"]
    [Build_ServerAddress (str "10.0.0.1") 25565] Passthrough None false RewriteNone MotdConfig_default None None 0 None None [].

Definition joining : HandlerContext () unit_eq_dec (λ _ _, false) := {|
  hc_routing := Some (Build_RoutingData lobby_config (str "lobby"));
  hc_handshake := Some (Build_HandshakeData (str "lobby.example.com") 25565 V1_21 IntentLogin []);
  hc_login := Some (Build_LoginData (str "Griefer") (Some 11));
  hc_peer_addr := Build_SocketAddr (V4 7) 40000;
  hc_client_ip := V4 7;
  hc_local_addr := Build_SocketAddr (V4 1) 25565;
  hc_stream := [];
  hc_buffered := [] |}.

Definition joining_env : login_env :=
  {| le_now := 0; le_verify_token := [1; 2; 3; 4];
     le_connect := {| env_fuel := 9; env_time1 := 9; env_time2 := 9 |}; le_next_id := 1 |}.

Abbreviation SampleManager := (BanManager () unit_eq_dec (λ _ _, false) (AM := assoc_map SockIp BanEntry)
  (UM := assoc_map rstring BanEntry) (VM := assoc_map Z BanEntry) (SM := assoc_map Z nat) (IM := assoc_map Z Z)).
Definition quiet : SampleManager := mk_BanManager () unit_eq_dec (λ _ _, false) (storage_new FileMissing) ConnectionRegistry_new.

Definition sample_handle (m : SampleManager) :=
  intercepted_handle () unit_eq_dec (λ _ _, false) (λ _, 0) (λ _, []) (λ _, ""%string) (λ _, []) sample_net 5000
    (λ _, None) 0 offline_services joining_env joining [] (λ m, m) (λ m, m) m.

(** The message to a banned player, whether there is a session, and who is registered. *)
Definition sample_end (m : SampleManager) : option rstring * bool * list nat :=
  let '(e, _, _, m) := sample_handle m in
  (match e with NotStarted _ _ _ (LoginBanned _ _ _ message) => Some message | _ => None end,
   match e with NotStarted _ _ _ _ => false | _ => true end,
   (registered (bm_connection_registry () unit_eq_dec (λ _ _, false) m)).*1).

(** A player gets a session; one whose uuid is banned is told so and gets none. *)
Example banned_uuid_refused :
  sample_end quiet = (None, true, [0%nat]) ∧
  sample_end (manager_ban () unit_eq_dec (λ _ _, false) 0 Written (BanUuid 11) (Some (str "No griefing")) None (str "console") quiet).2 =
    (Some (str "No griefing" ++ [10; 10] ++ str "This ban is permanent."), false, []).
Proof. by vm_compute. Qed.

Abbreviation sample_started := (started () unit_eq_dec (λ _ _, false) (AM := assoc_map SockIp BanEntry)
  (UM := assoc_map rstring BanEntry) (VM := assoc_map Z BanEntry) (SM := assoc_map Z nat) (IM := assoc_map Z Z) (λ _, 0)
  (λ _, None) 0 offline_services joining_env joining).

Lemma sessions_start_and_end_witness :
  sample_end quiet = (None, true, [0%nat]) ∧ ∃ checker s, sample_started quiet checker s.
Proof.
  split; [by vm_compute|].
  pose proof (sessions_start_and_end () unit_eq_dec (λ _ _, false) (λ _, 0) (λ _, []) (λ _, ""%string) (λ _, []) sample_net
    5000 (λ _, None) 0 offline_services joining_env joining [] (λ m, m) (λ m, m) quiet) as Ht.
  fold (sample_handle quiet) in Ht.
  assert (He : match (sample_handle quiet).1.1.1 with Running _ _ _ _ => true | _ => false end = true) by by vm_compute.
  destruct (sample_handle quiet) as [[[e checker] conn] m']. destruct e; try done.
  destruct Ht as [s Hs]. by exists checker, s.
Defined.
End sample.
