(* ===== verification/Console.v ===== *)
(** * Console: the commands of the administrator

    Models [console/parser.rs], [console/dispatcher.rs], the outputs of [console/output.rs]
    and the commands about players, bans, admins and the proxy itself
    ([console/commands/players.rs], [bans.rs], [permissions.rs], [system.rs]).  The commands
    that only show servers, configurations and plugins are left out, with the colours.

    A command gives its output and the new state, or no output when it waits: a kick and a
    transfer wait until the session takes a command from a full channel. *)
From S2P Require Import Prelude Wire Utf8 Version Packet LoginPackets Bridge Config Router Component ProxyCommands Session.
From S2P Require Import Transport Address Ban Switch Intercepted Players BanManager.

(** ** The parser *)

Record ParsedLine := { pl_command : rstring; pl_args : list rstring }.

Definition parse_line (line : rstring) : option ParsedLine :=
  let trimmed := trim line in
  if decide (trimmed = []) then None
  else match split_whitespace trimmed with
       | command :: args => Some (Build_ParsedLine command args)
       | [] => None
       end.

(** Words with a separator between them. *)
Definition join_words (ws : list rstring) : rstring := join_with (str " ") ws.

Definition number_unit (n : Z) (unit : string) : rstring := str (pretty n) ++ str unit.

Definition format_duration_short (d : Duration) : rstring :=
  let total_secs := d / 1000000000 in
  if decide (total_secs = 0) then str "0s"
  else
    let days := total_secs / 86400 in
    let hours := (total_secs mod 86400) / 3600 in
    let minutes := (total_secs mod 3600) / 60 in
    let seconds := total_secs mod 60 in
    let parts := (if decide (0 < days) then [number_unit days "d"] else []) ++
                 (if decide (0 < hours) then [number_unit hours "h"] else []) ++
                 (if decide (0 < minutes) then [number_unit minutes "m"] else []) in
    let parts := if decide (0 < seconds ∧ (length parts < 2)%nat) then parts ++ [number_unit seconds "s"] else parts in
    join_words (take 2 parts).

(** ** Outputs *)

Inductive OutputLine := OInfo (msg : rstring) | OSuccess (msg : rstring) | OWarning (msg : rstring) | OError (msg : rstring).
Inductive CommandOutput :=
| OutTable (header : list rstring) (rows : list (list rstring)) (footer : option rstring)
| OutLines (lines : list OutputLine)
| OutSuccess (msg : rstring)
| OutError (msg : rstring)
| OutNone.

(** What is not a terminal shows. *)
Definition format_line (line : OutputLine) : rstring :=
  match line with
  | OInfo msg => str "  " ++ msg
  | OSuccess msg => str "  OK: " ++ msg
  | OWarning msg => str "  WARN: " ++ msg
  | OError msg => str "  ERROR: " ++ msg
  end.

Inductive CommandCategory := CPlayers | CBans | CServers | CConfig | CPlugins | CSystem.
#[export] Instance CommandCategory_eq_dec : EqDecision CommandCategory.
Proof. solve_decision. Defined.
Definition categories : list CommandCategory := [CPlayers; CBans; CServers; CConfig; CPlugins; CSystem].
Definition category_name (c : CommandCategory) : rstring :=
  match c with
  | CPlayers => str "Players" | CBans => str "Bans" | CServers => str "Servers"
  | CConfig => str "Configuration" | CPlugins => str "Plugins" | CSystem => str "System"
  end.

(** *** Texts *)

(** [ProtocolVersion::to_string] of the API. *)
Definition version_text (v : ProtocolVersion) : rstring :=
  if decide (v = 765) then str "1.20.4 (765)" else if decide (v = 766) then str "1.20.6 (766)"
  else if decide (v = 767) then str "1.21 (767)" else if decide (v = 768) then str "1.21.2 (768)"
  else if decide (v = 769) then str "1.21.4 (769)" else str "Unknown(" ++ str (pretty v) ++ str ")".

Definition player_error_text (e : PlayerError) : rstring :=
  match e with
  | NotActive => str "player is not active " ++ [8212] ++ str " operation requires an active proxy connection"
  | Disconnected => str "player is disconnected"
  | SendFailed reason => str ("send failed: " +:+ reason)
  | ServerNotFound id => str "server not found: " ++ id
  | SwitchFailed reason => str ("switch failed: " +:+ reason)
  end.

(** ** The dispatcher *)

Section dispatcher.
Context {W : Type} `{LC : Lowercase}.

Record CommandInfo := {
  cmi_name : rstring;
  cmi_aliases : list rstring;
  cmi_description : rstring;
  cmi_usage : rstring;
  cmi_category : CommandCategory }.

(** [ConsoleCommand]. *)
Record ConsoleCommand := {
  cco_info : CommandInfo;
  cco_execute : list rstring → W → option CommandOutput * W }.

Definition answers_to (name : rstring) (i : CommandInfo) : Prop := cmi_name i = name ∨ name ∈ cmi_aliases i.
#[export] Instance answers_to_dec name i : Decision (answers_to name i).
Proof. unfold answers_to. apply _. Defined.

Definition unknown_command (name : rstring) : CommandOutput :=
  OutError (str "Unknown command: '" ++ name ++ str "'. Type 'help' for available commands.").

Definition console_dispatch (commands : list ConsoleCommand) (line : rstring) (w : W) : option CommandOutput * W :=
  match parse_line line with
  | None => (Some OutNone, w)
  | Some parsed =>
    let name := to_lowercase (pl_command parsed) in
    match list_find (λ c, answers_to name (cco_info c)) commands with
    | Some (_, c) => cco_execute c (pl_args parsed) w
    | None => (Some (unknown_command name), w)
    end
  end.

Definition command_info (commands : list ConsoleCommand) : list CommandInfo := cco_info <$> commands.
End dispatcher.
Arguments ConsoleCommand W : clear implicits.

Definition info (name : string) (aliases : list string) (description usage : string) (c : CommandCategory) : CommandInfo :=
  Build_CommandInfo (str name) (str <$> aliases) (str description) (str usage) c.

(** [{:<25}]. *)
Definition pad_25 (s : rstring) : rstring := s ++ replicate (25 - length s) 32.

Definition help_aliases (i : CommandInfo) : rstring :=
  if decide (cmi_aliases i = []) then [] else str ", " ++ join_with (str ", ") (cmi_aliases i).
Definition help_category (infos : list CommandInfo) (c : CommandCategory) : list OutputLine :=
  match filter (λ i, cmi_category i = c) infos with
  | [] => []
  | cmds => [OInfo []; OInfo (str "  " ++ category_name c)] ++
            ((λ i, OInfo (str "    " ++ pad_25 (cmi_name i ++ help_aliases i) ++ str " " ++ cmi_description i)) <$> cmds)
  end.

Section help.
Context {W : Type} `{LC : Lowercase}.

Definition help_execute (infos : list CommandInfo) (args : list rstring) (w : W) : option CommandOutput * W :=
  (Some match args with
        | cmd_name :: _ =>
          let lower := to_lowercase cmd_name in
          match list_find (λ i, answers_to lower i) infos with
          | Some (_, i) =>
            let aliases := if decide (cmi_aliases i = []) then []
                           else str " (aliases: " ++ join_with (str ", ") (cmi_aliases i) ++ str ")" in
            OutLines [OInfo (cmi_name i ++ aliases); OInfo (str "  " ++ cmi_description i);
                      OInfo (str "  Usage: " ++ cmi_usage i)]
          | None => OutError (str "Unknown command: '" ++ lower ++ str "'")
          end
        | [] => OutLines (categories ≫= help_category infos)
        end, w).
End help.

(** ** The commands *)

Section commands.
Context `{LC : Lowercase, UT : UuidText} (Net : Type) (net_eq_dec : EqDecision Net) (contains : Net → SockIp → bool).
#[local] Instance console_nets : IpNets := socket_nets Net net_eq_dec contains.
Context {AM UM VM : Type} `{DA : !DashMap SockIp BanEntry AM} `{DU : !DashMap rstring BanEntry UM}
  `{DV : !DashMap Z BanEntry VM}.
Context {SM IM : Type} `{DS : !DashMap Z nat SM} `{DI : !DashMap Z Z IM}.
Abbreviation Manager := (BanManager Net net_eq_dec contains (AM := AM) (UM := UM) (VM := VM) (SM := SM) (IM := IM)).
Abbreviation registry_of := (bm_connection_registry Net net_eq_dec contains).
Abbreviation bans_of := (bm_storage Net net_eq_dec contains).

(** [humantime::parse_duration], the texts of I/O errors and the lookup of a name with Mojang. *)
Context (parse_duration : rstring → option Duration) (io_error_text : IoErrorKind → rstring).
Abbreviation core_error_text := (core_error_display io_error_text).
Context (resolve_username_to_uuid : rstring → result rstring Z).
(** The time, what becomes of a write of the ban file, and the version of the proxy. *)
Context (now : Z) (io : persist_io) (pkg_version : rstring).

Record ConsoleWorld := mk_ConsoleWorld {
  cw_manager : Manager;
  cw_permissions : PermissionService;
  cw_shutdown : bool }.
Definition cw_with_manager (m : Manager) (w : ConsoleWorld) : ConsoleWorld :=
  mk_ConsoleWorld m (cw_permissions w) (cw_shutdown w).
Definition cw_with_permissions (s : PermissionService) (w : ConsoleWorld) : ConsoleWorld :=
  mk_ConsoleWorld (cw_manager w) s (cw_shutdown w).
Abbreviation players_in w := (registry_of (cw_manager w)).
Definition cw_on_session (p : nat) (f : PlayerSession → PlayerSession) (w : ConsoleWorld) : ConsoleWorld :=
  cw_with_manager (on_registry Net net_eq_dec contains (on_session p f) (cw_manager w)) w.

(** What a command comes to. *)
Abbreviation Run := (option CommandOutput * ConsoleWorld)%type.
Definition says (o : CommandOutput) (w : ConsoleWorld) : Run := (Some o, w).

(** [player_registry.get_player]. *)
Definition console_player (name : rstring) (w : ConsoleWorld) : option (nat * PlayerSession) :=
  p ← find_by_username (players_in w) name; s ← pr_store (players_in w) !! p; Some (p, s).

Definition not_found (name : rstring) : CommandOutput := OutError (str "Player '" ++ name ++ str "' not found").
Definition server_text (default_ : rstring) (s : PlayerSession) : rstring := default default_ (ps_current_server s).
Definition mode_text (s : PlayerSession) : rstring := if ps_active s then str "active" else str "passthrough".

(** *** Players *)

Definition player_row (s : PlayerSession) : list rstring :=
  [gp_username (ps_profile s); ip_to_string (sa_ip (ps_remote_addr s)); server_text (str "-") s; mode_text s;
   version_text (ps_protocol_version s)].
Definition list_execute (args : list rstring) (w : ConsoleWorld) : Run :=
  let sessions := snd <$> match args with
                          | server :: _ => filter (λ x, on_server_now server x.2) (registered (players_in w))
                          | [] => registered (players_in w)
                          end in
  says (match sessions with
        | [] => OutSuccess (str "No players online")
        | _ => OutTable (str <$> ["Player"; "IP"; "Server"; "Mode"; "Protocol"]%string) (player_row <$> sessions)
                 (Some (str " " ++ str (pretty (length sessions)) ++ str " player(s) online"))
        end) w.

Definition socket_addr_text (a : SocketAddr) : rstring :=
  match sa_ip a with
  | V4 _ => ip_to_string (sa_ip a) ++ str ":" ++ str (pretty (sa_port a))
  | V6 _ => str "[" ++ ip_to_string (sa_ip a) ++ str "]:" ++ str (pretty (sa_port a))
  end.
Definition find_execute (args : list rstring) (w : ConsoleWorld) : Run :=
  match args with
  | [] => says (OutError (str "Usage: find <player>")) w
  | name :: _ =>
    match console_player name w with
    | Some (_, s) =>
      says (OutLines [OInfo (str "  Player: " ++ gp_username (ps_profile s));
                      OInfo (str "  UUID: " ++ uuid_to_string (gp_uuid (ps_profile s)));
                      OInfo (str "  IP: " ++ socket_addr_text (ps_remote_addr s));
                      OInfo (str "  Server: " ++ server_text (str "-") s);
                      OInfo (str "  Mode: " ++ mode_text s);
                      OInfo (str "  Protocol: " ++ version_text (ps_protocol_version s));
                      OInfo (str "  Connected: " ++ if ps_connected s then str "true" else str "false")]) w
    | None => says (not_found name) w
    end
  end.

(** [player.disconnect().await], and what follows it. *)
Definition disconnect_then (p : nat) (s : PlayerSession) (reason : Component) (k : ConsoleWorld → Run)
    (w : ConsoleWorld) : Run :=
  let '(returns, s') := player_disconnect reason s in
  let w := cw_on_session p (λ _, s') w in
  if returns then k w else (None, w).

Definition kick_execute (args : list rstring) (w : ConsoleWorld) : Run :=
  match args with
  | [] => says (OutError (str "Usage: kick <player> [reason...]")) w
  | name :: rest =>
    let reason := if decide (rest = []) then str "Kicked by administrator" else join_words rest in
    match console_player name w with
    | Some (p, s) =>
      disconnect_then p s (component_text reason)
        (says (OutSuccess (str "Kicked " ++ name ++ str " (reason: " ++ reason ++ str ")"))) w
    | None => says (not_found name) w
    end
  end.

Definition invalid_ip (s : rstring) : CommandOutput := OutError (str "Invalid IP address: '" ++ s ++ str "'").
Definition cancel_all (ps : list nat) (w : ConsoleWorld) : ConsoleWorld :=
  cw_with_manager (on_registry Net net_eq_dec contains (kick_all ps) (cw_manager w)) w.

Definition kick_ip_execute (args : list rstring) (w : ConsoleWorld) : Run :=
  match args with
  | [] => says (OutError (str "Usage: kick-ip <ip>")) w
  | ip_str :: _ =>
    match ip_addr_from_str ip_str with
    | None => says (invalid_ip ip_str) w
    | Some ip =>
      match find_by_ip (players_in w) ip with
      | [] => says (OutError (str "No players connected from " ++ ip_to_string ip)) w
      | sessions => says (OutSuccess (str "Kicked " ++ str (pretty (length sessions)) ++ str " player(s) from IP " ++ ip_to_string ip))
                      (cancel_all sessions w)
      end
    end
  end.

Definition passive (name : rstring) (cannot : string) : CommandOutput :=
  OutError (str "Player '" ++ name ++ str "' is on a passive proxy path and cannot " ++ str cannot).

Definition send_execute (args : list rstring) (w : ConsoleWorld) : Run :=
  match args with
  | name :: server :: _ =>
    match console_player name w with
    | Some (p, s) =>
      if negb (ps_active s) then says (passive name "be transferred") w
      else
        let '(r, s') := switch_server server s in
        let w := cw_on_session p (λ _, s') w in
        match r with
        | None => (None, w)
        | Some (Ok _) => says (OutSuccess (str "Sent " ++ name ++ str " to " ++ server)) w
        | Some (Err e) => says (OutError (str "Failed to send " ++ name ++ str " to " ++ server ++ str ": " ++ player_error_text e)) w
        end
    | None => says (not_found name) w
    end
  | _ => says (OutError (str "Usage: send <player> <server>")) w
  end.

(** The loop of send-all: how many were sent and how many failed; [None] waits. *)
Fixpoint send_each (server : rstring) (ps : list nat) (sent errors : nat) (w : ConsoleWorld)
    : option (nat * nat) * ConsoleWorld :=
  match ps with
  | [] => (Some (sent, errors), w)
  | p :: ps =>
    match pr_store (players_in w) !! p with
    | None => send_each server ps sent errors w
    | Some s =>
      if negb (ps_active s) then send_each server ps sent errors w
      else
        let '(r, s') := switch_server server s in
        let w := cw_on_session p (λ _, s') w in
        match r with
        | None => (None, w)
        | Some (Ok _) => send_each server ps (S sent) errors w
        | Some (Err _) => send_each server ps sent (S errors) w
        end
    end
  end.
Definition send_all_execute (args : list rstring) (w : ConsoleWorld) : Run :=
  match args with
  | [] => says (OutError (str "Usage: send-all <server>")) w
  | server :: _ =>
    match send_each server (registered (players_in w)).*1 0 0 w with
    | (None, w) => (None, w)
    | (Some (sent, errors), w) =>
      let msg := str "Sent " ++ str (pretty sent) ++ str " player(s) to " ++ server in
      says (if decide (0 < errors)%nat
            then OutLines [OSuccess msg; OWarning (str (pretty errors) ++ str " transfer(s) failed")]
            else OutSuccess msg) w
    end
  end.

Definition msg_execute (args : list rstring) (w : ConsoleWorld) : Run :=
  match args with
  | name :: word :: words =>
    let message := join_words (word :: words) in
    match console_player name w with
    | Some (p, s) =>
      if negb (ps_active s) then says (passive name "receive messages") w
      else
        let '(r, s') := try_send_command (SendMessage (component_text message)) s in
        let w := cw_on_session p (λ _, s') w in
        match r with
        | Ok _ => says (OutSuccess (str "Message sent to " ++ name)) w
        | Err e => says (OutError (str "Failed to send message to " ++ name ++ str ": " ++ player_error_text e)) w
        end
    | None => says (not_found name) w
    end
  | _ => says (OutError (str "Usage: msg <player> <message...>")) w
  end.

Definition broadcast_to (c : Component) (acc : nat * ConsoleWorld) (p : nat) : nat * ConsoleWorld :=
  let '(sent, w) := acc in
  match pr_store (players_in w) !! p with
  | None => (sent, w)
  | Some s =>
    if negb (ps_active s) then (sent, w)
    else
      let '(r, s') := try_send_command (SendMessage c) s in
      ((if r is Ok _ then S sent else sent), cw_on_session p (λ _, s') w)
  end.
Definition broadcast_execute (args : list rstring) (w : ConsoleWorld) : Run :=
  if decide (args = []) then says (OutError (str "Usage: broadcast <message...>")) w
  else
    let '(sent, w) := foldl (broadcast_to (component_text (join_words args))) (0%nat, w) (registered (players_in w)).*1 in
    says (OutSuccess (str "Broadcast sent to " ++ str (pretty sent) ++ str " player(s)")) w.

(** *** Bans *)

Definition parse_duration_arg (arg : rstring) : option (option Duration) :=
  let lower := to_lowercase arg in
  if decide (lower = str "permanent" ∨ lower = str "perm") then Some None else Some <$> parse_duration arg.

Definition parse_ban_target (arg : rstring) : BanTarget :=
  match ip_addr_from_str arg with
  | Some ip => BanIp ip
  | None => match uuid_parse_str arg with Ok uuid => BanUuid uuid | Err _ => BanUsername arg end
  end.

(** The duration and the reason of the arguments after the target. *)
Definition duration_and_reason (rest : list rstring) : option Duration * option rstring :=
  let '(duration, words) := match rest with
                            | arg :: words => match parse_duration_arg arg with
                                              | Some d => (d, words)
                                              | None => (None, rest)
                                              end
                            | [] => (None, [])
                            end in
  (duration, if decide (words = []) then None else Some (join_words words)).

Definition duration_text (d : option Duration) : rstring := default (str "permanently") (format_duration_short <$> d).
Definition reason_text (r : option rstring) : rstring := default (str "No reason specified") r.
Definition banned_line (what : rstring) (duration : option Duration) (reason : option rstring) : OutputLine :=
  OSuccess (str "Banned " ++ what ++ str " " ++ duration_text duration ++ str " (reason: " ++ reason_text reason ++ str ")").

Definition ban_execute (args : list rstring) (w : ConsoleWorld) : Run :=
  match args with
  | [] => says (OutError (str "Usage: ban <player> [duration] [reason...]")) w
  | name :: rest =>
    let '(duration, reason) := duration_and_reason rest in
    match manager_ban Net net_eq_dec contains now io (BanUsername name) reason duration (str "console") (cw_manager w) with
    | (Err e, m) => says (OutError (str "Failed to ban " ++ name ++ str ": " ++ core_error_text e)) (cw_with_manager m w)
    | (Ok _, m) =>
      let w := cw_with_manager m w in
      let line := banned_line name duration reason in
      match console_player name w with
      | Some (p, s) =>
        disconnect_then p s (component_text (str "Banned: " ++ reason_text reason))
          (says (OutLines [line; OSuccess (str "Player kicked from " ++ server_text [] s)])) w
      | None => says (OutLines [line]) w
      end
    end
  end.

Definition ban_ip_execute (args : list rstring) (w : ConsoleWorld) : Run :=
  match args with
  | [] => says (OutError (str "Usage: ban-ip <ip> [duration] [reason...]")) w
  | ip_str :: rest =>
    match ip_addr_from_str ip_str with
    | None => says (invalid_ip ip_str) w
    | Some ip =>
      let '(duration, reason) := duration_and_reason rest in
      match manager_ban Net net_eq_dec contains now io (BanIp ip) reason duration (str "console") (cw_manager w) with
      | (Err e, m) => says (OutError (str "Failed to ban IP " ++ ip_to_string ip ++ str ": " ++ core_error_text e)) (cw_with_manager m w)
      | (Ok _, m) =>
        let w := cw_with_manager m w in
        let sessions := find_by_ip (players_in w) ip in
        let line := banned_line (str "IP " ++ ip_to_string ip) duration reason in
        says (OutLines (line :: match sessions with
                                | [] => []
                                | _ => [OSuccess (str "Kicked " ++ str (pretty (length sessions)) ++ str " player(s) from IP " ++ ip_to_string ip)]
                                end)) (cancel_all sessions w)
      end
    end
  end.

(** [unban] and its texts. *)
Definition unban_target (target : BanTarget) (name absent : rstring) (w : ConsoleWorld) : Run :=
  match manager_unban Net net_eq_dec contains now io target (cw_manager w) with
  | (Ok true, m) => says (OutSuccess (str "Unbanned " ++ name)) (cw_with_manager m w)
  | (Ok false, m) => says (OutError absent) (cw_with_manager m w)
  | (Err e, m) => says (OutError (str "Failed to unban " ++ name ++ str ": " ++ core_error_text e)) (cw_with_manager m w)
  end.
Definition unban_execute (args : list rstring) (w : ConsoleWorld) : Run :=
  match args with
  | [] => says (OutError (str "Usage: unban <player>")) w
  | name :: _ => unban_target (BanUsername name) name (str "Player '" ++ name ++ str "' is not banned") w
  end.
Definition unban_ip_execute (args : list rstring) (w : ConsoleWorld) : Run :=
  match args with
  | [] => says (OutError (str "Usage: unban-ip <ip>")) w
  | ip_str :: _ =>
    match ip_addr_from_str ip_str with
    | None => says (invalid_ip ip_str) w
    | Some ip => unban_target (BanIp ip) (str "IP " ++ ip_to_string ip) (str "IP " ++ ip_to_string ip ++ str " is not banned") w
    end
  end.

Definition format_ban_target (t : BanTarget) : rstring :=
  match t with BanIp ip => ip_to_string ip | BanUsername name => name | BanUuid uuid => uuid_to_string uuid end.
Definition display_type (t : BanTarget) : rstring :=
  match t with BanIp _ => str "IP" | BanUsername _ => str "username" | BanUuid _ => str "UUID" end.
Definition remaining_text (e : BanEntry) : rstring :=
  if is_permanent e then str "permanent" else default (str "expired") (format_duration_short <$> remaining now e).

Definition ban_row (e : BanEntry) : list rstring :=
  [format_ban_target (be_target e); display_type (be_target e); default (str "-") (be_reason e); be_source e; remaining_text e].
Definition ban_list_execute (args : list rstring) (w : ConsoleWorld) : Run :=
  match get_all_bans Net net_eq_dec contains now (cw_manager w) with
  | (Err e, m) => says (OutError (str "Failed to fetch bans: " ++ core_error_text e)) (cw_with_manager m w)
  | (Ok bans, m) =>
    let active := filter (λ e, is_expired now e = false) bans in
    says (match active with
          | [] => OutSuccess (str "No active bans")
          | _ => OutTable (str <$> ["Target"; "Type"; "Reason"; "Source"; "Remaining"]%string) (ban_row <$> active)
                   (Some (str " " ++ str (pretty (length active)) ++ str " active ban(s)"))
          end) (cw_with_manager m w)
  end.

Definition ban_info_execute (args : list rstring) (w : ConsoleWorld) : Run :=
  match args with
  | [] => says (OutError (str "Usage: baninfo <player|ip|uuid>")) w
  | arg :: _ =>
    match manager_is_banned Net net_eq_dec contains now io (parse_ban_target arg) (cw_manager w) with
    | (Ok (Some ban), m) =>
      says (OutLines [OInfo (str "  Target: " ++ format_ban_target (be_target ban));
                      OInfo (str "  Type: " ++ display_type (be_target ban));
                      OInfo (str "  Reason: " ++ reason_text (be_reason ban));
                      OInfo (str "  Source: " ++ be_source ban);
                      OInfo (str "  Remaining: " ++ remaining_text ban);
                      OInfo (str "  Permanent: " ++ if is_permanent ban then str "true" else str "false")]) (cw_with_manager m w)
    | (Ok None, m) => says (OutSuccess (arg ++ str " is not banned")) (cw_with_manager m w)
    | (Err e, m) => says (OutError (str "Failed to check ban: " ++ core_error_text e)) (cw_with_manager m w)
    end
  end.

(** *** Admins *)

Definition cannot_resolve (username e : rstring) : CommandOutput :=
  OutError (str "Failed to resolve '" ++ username ++ str "': " ++ e).

Definition op_execute (args : list rstring) (w : ConsoleWorld) : Run :=
  match args with
  | [] => says (OutError (str "Usage: op <username>")) w
  | username :: _ =>
    let grant uuid :=
      says (OutSuccess (str "Opped " ++ username ++ str " (UUID: " ++ uuid_to_string uuid ++ str "). Change is effective until restart " ++
              [8212] ++ str " add UUID to [permissions].admins in infrarust.toml to persist."))
        (cw_with_permissions (add_admin uuid (cw_permissions w)) w) in
    match console_player username w with
    | Some (_, s) =>
      if negb (ps_online_mode s) then
        says (OutError (str "Player '" ++ username ++ str "' is connected in offline mode " ++ [8212] ++
                str " only online-mode players can be admin.")) w
      else grant (session_uuid s)
    | None =>
      match resolve_username_to_uuid username with
      | Ok uuid => grant uuid
      | Err e => says (cannot_resolve username e) w
      end
    end
  end.

Definition deop_execute (args : list rstring) (w : ConsoleWorld) : Run :=
  match args with
  | [] => says (OutError (str "Usage: deop <username>")) w
  | username :: _ =>
    let revoke uuid :=
      let '(was, perms) := remove_admin uuid (cw_permissions w) in
      says (if was
            then OutSuccess (str "De-opped " ++ username ++ str " (UUID: " ++ uuid_to_string uuid ++
                   str "). Remove UUID from [permissions].admins in infrarust.toml to persist.")
            else OutError (str "'" ++ username ++ str "' (UUID: " ++ uuid_to_string uuid ++ str ") was not an admin."))
        (cw_with_permissions perms w) in
    match console_player username w with
    | Some (_, s) => revoke (session_uuid s)
    | None =>
      match resolve_username_to_uuid username with
      | Ok uuid => revoke uuid
      | Err e => says (cannot_resolve username e) w
      end
    end
  end.

Definition op_row (w : ConsoleWorld) (uuid : Z) : list rstring :=
  [uuid_to_string uuid;
   default (str "-") (p ← get_session (players_in w) uuid; s ← pr_store (players_in w) !! p; Some (gp_username (ps_profile s)))].
Definition op_list_execute (args : list rstring) (w : ConsoleWorld) : Run :=
  let admins := elements (ps_admin_uuids (cw_permissions w)) in
  says (match admins with
        | [] => OutSuccess (str "No admins configured.")
        | _ => OutTable (str <$> ["UUID"; "Username (if online)"]%string) (op_row w <$> admins)
                 (Some (str " " ++ str (pretty (length admins)) ++ str " admin(s)"))
        end) w.

(** *** The proxy *)

Definition version_execute (args : list rstring) (w : ConsoleWorld) : Run :=
  says (OutSuccess (str "Infrarust v" ++ pkg_version)) w.
Definition stop_execute (args : list rstring) (w : ConsoleWorld) : Run :=
  says (OutSuccess (str "Shutting down...")) (mk_ConsoleWorld (cw_manager w) (cw_permissions w) true).
(** The screen of a terminal is cleared. *)
Definition clear_execute (args : list rstring) (w : ConsoleWorld) : Run := says OutNone w.
Definition gc_execute (args : list rstring) (w : ConsoleWorld) : Run :=
  match get_all_bans Net net_eq_dec contains now (cw_manager w) with
  | (Ok bans, m) =>
    says (OutSuccess (str "GC cycle completed. " ++ str (pretty (length (filter (λ e, is_expired now e = false) bans))) ++
            str " active ban(s) remaining.")) (cw_with_manager m w)
  | (Err e, m) => says (OutError (str "GC failed: " ++ core_error_text e)) (cw_with_manager m w)
  end.

(** *** All commands *)

(** The commands about servers, configurations and plugins. *)
Context (elsewhere : string → list rstring → ConsoleWorld → option CommandOutput).
Definition other_command (name : string) (args : list rstring) (w : ConsoleWorld) : Run := (elsewhere name args w, w).

Abbreviation cmd := (Build_ConsoleCommand (W := ConsoleWorld)).
Definition console_commands : list (ConsoleCommand ConsoleWorld) :=
  [cmd (info "list" ["players"; "who"; "online"; "ls"] "List connected players" "list [server]" CPlayers) list_execute;
   cmd (info "find" [] "Find a player by name" "find <player>" CPlayers) find_execute;
   cmd (info "kick" [] "Kick a player" "kick <player> [reason...]" CPlayers) kick_execute;
   cmd (info "kick-ip" ["kickip"] "Kick all players from an IP" "kick-ip <ip>" CPlayers) kick_ip_execute;
   cmd (info "send" [] "Transfer a player to a server" "send <player> <server>" CPlayers) send_execute;
   cmd (info "send-all" ["sendall"] "Transfer all players to a server" "send-all <server>" CPlayers) send_all_execute;
   cmd (info "msg" ["tell"; "whisper"] "Send a message to a player" "msg <player> <message...>" CPlayers) msg_execute;
   cmd (info "broadcast" ["bc"; "say"] "Broadcast a message to all players" "broadcast <message...>" CPlayers) broadcast_execute;
   cmd (info "ban" [] "Ban a player by username" "ban <player> [duration] [reason...]" CBans) ban_execute;
   cmd (info "ban-ip" ["banip"] "Ban an IP address" "ban-ip <ip> [duration] [reason...]" CBans) ban_ip_execute;
   cmd (info "unban" ["pardon"] "Unban a player" "unban <player>" CBans) unban_execute;
   cmd (info "unban-ip" ["unbanip"; "pardonip"] "Unban an IP address" "unban-ip <ip>" CBans) unban_ip_execute;
   cmd (info "banlist" ["bans"] "List all active bans" "banlist" CBans) ban_list_execute;
   cmd (info "baninfo" [] "Show details of a ban" "baninfo <player|ip|uuid>" CBans) ban_info_execute;
   cmd (info "servers" ["backends"] "List all servers" "servers" CServers) (other_command "servers");
   cmd (info "server" [] "Show server details" "server <id>" CServers) (other_command "server");
   cmd (info "start" [] "Start a server" "start <server_id>" CServers) (other_command "start");
   cmd (info "stop-server" ["stopserver"] "Stop a server" "stop-server <server_id>" CServers) (other_command "stop-server");
   cmd (info "reload" [] "Reload configuration" "reload" CConfig) (other_command "reload");
   cmd (info "config" [] "Show configuration" "config [key]" CConfig) (other_command "config");
   cmd (info "plugins" ["pl"] "List loaded plugins" "plugins" CPlugins) (other_command "plugins");
   cmd (info "plugin" [] "Show plugin details" "plugin <id>" CPlugins) (other_command "plugin");
   cmd (info "version" ["ver"] "Show version info" "version" CSystem) version_execute;
   cmd (info "status" ["info"] "Proxy overview" "status" CSystem) (other_command "status");
   cmd (info "stop" ["shutdown"; "exit"; "quit"] "Shutdown the proxy" "stop" CSystem) stop_execute;
   cmd (info "clear" ["cls"] "Clear the screen" "clear" CSystem) clear_execute;
   cmd (info "gc" [] "Run garbage collection" "gc" CSystem) gc_execute;
   cmd (info "op" [] "Grant admin to a player" "op <username>" CPlayers) op_execute;
   cmd (info "deop" [] "Revoke admin from a player" "deop <username>" CPlayers) deop_execute;
   cmd (info "ops" ["oplist"] "List current admins" "ops" CPlayers) op_list_execute].
Definition all_commands : list (ConsoleCommand ConsoleWorld) :=
  console_commands ++
  [cmd (info "help" ["?"] "Show this help" "help [command]" CSystem) (help_execute (command_info console_commands))].

Definition console_line (line : rstring) (w : ConsoleWorld) : Run := console_dispatch all_commands line w.

(** What the task of the console wakes up for. *)
Inductive console_wake := CwShutdown | CwLine (line : rstring) | CwEof.
(** What it printed, and whether it has ended. *)
Fixpoint console_task (wakes : list console_wake) (w : ConsoleWorld) : list CommandOutput * bool * ConsoleWorld :=
  match wakes with
  | [] => ([], false, w)
  | (CwShutdown | CwEof) :: _ => ([], true, w)
  | CwLine line :: wakes =>
    let trimmed := trim line in
    if decide (trimmed = []) then console_task wakes w
    else match console_line trimmed w with
         | (None, w) => ([], false, w)
         | (Some out, w) => let '(outs, ended, w) := console_task wakes w in (out :: outs, ended, w)
         end
  end.

(** ** Typing a command *)

(** A word can be typed: it is not empty and has no white space. *)
Definition word (s : rstring) : Prop := s ≠ [] ∧ Forall (λ c, is_whitespace c = false) s.

#[local] Instance word_dec s : Decision (word s).
Proof. unfold word. apply _. Defined.

Lemma split_word acc s rest :
  Forall (λ c, is_whitespace c = false) s → split_whitespace_from acc (s ++ rest) = split_whitespace_from (acc ++ s) rest.
Proof.
  intros Hs. revert acc. induction Hs as [|c s Hc Hs IH]; intros acc; cbn [app split_whitespace_from]; [by rewrite app_nil_r|].
  rewrite Hc, IH. by rewrite <- app_assoc.
Qed.

Lemma split_join ws : Forall word ws → split_whitespace (join_words ws) = ws.
Proof.
  unfold split_whitespace, join_words. induction 1 as [|s ws [Hne Hs] Hws IH]; [done|].
  destruct ws as [|s' ws]; cbn [join_with].
  - rewrite <- (app_nil_r s) at 1. rewrite split_word by done. cbn. by rewrite decide_False.
  - rewrite split_word by done. cbn [app]. change (str " ") with [32]. cbn [app split_whitespace_from].
    change (is_whitespace 32) with true. cbv iota. rewrite decide_False by done. by f_equal.
Qed.

Lemma trim_id a z s t : s = a :: t → (∃ u, s = u ++ [z]) → is_whitespace a = false → is_whitespace z = false → trim s = s.
Proof.
  intros -> [u Hu] Ha Hz. unfold trim. cbn [trim_start]. rewrite Ha, Hu, reverse_snoc. cbn [trim_start]. rewrite Hz.
  by rewrite reverse_cons, reverse_involutive.
Qed.

Lemma join_ends w ws : word w → Forall word ws →
  ∃ a z t, join_words (w :: ws) = a :: t ∧ (∃ u, join_words (w :: ws) = u ++ [z]) ∧
    is_whitespace a = false ∧ is_whitespace z = false.
Proof.
  unfold join_words. intros Hw Hws. revert w Hw. induction Hws as [|s ws Hs Hws IH]; intros w [Hne Hw].
  - destruct w as [|a t]; [done|]. apply Forall_cons in Hw as Hw'. destruct Hw' as [Ha _].
    destruct (exists_last Hne) as (u&z&Hu). exists a, z, t. split_and!; [done|by exists u|done|].
    rewrite Hu in Hw. apply Forall_app in Hw as [_ Hz]. rewrite Forall_singleton in Hz. exact Hz.
  - destruct w as [|a t]; [done|]. apply Forall_cons in Hw as [Ha _].
    destruct (IH s Hs) as (a'&z&t'&_&[u Hu]&_&Hz).
    exists a, z, (t ++ str " " ++ join_with (str " ") (s :: ws)). split_and!; [done| |done|done].
    exists ((a :: t) ++ str " " ++ u). change (join_with (str " ") ((a :: t) :: s :: ws)) with
      ((a :: t) ++ str " " ++ join_with (str " ") (s :: ws)). rewrite Hu. by rewrite <- !app_assoc.
Qed.

Lemma parse_typed w ws : word w → Forall word ws → parse_line (join_words (w :: ws)) = Some (Build_ParsedLine w ws).
Proof.
  intros Hw Hws. destruct (join_ends w ws Hw Hws) as (a&z&t&Ht&Hu&Ha&Hz). unfold parse_line.
  rewrite (trim_id a z _ t Ht Hu Ha Hz). rewrite decide_False by by rewrite Ht. rewrite split_join; [done|by constructor].
Qed.

(** No name or alias is used twice. *)
Lemma names_distinct : NoDup (all_commands ≫= λ c, cmi_name (cco_info c) :: cmi_aliases (cco_info c)).
Proof. apply (bool_decide_unpack _). by vm_compute. Qed.

Lemma find_unique {A} (P : A → Prop) `{∀ x, Decision (P x)} (l : list A) x :
  x ∈ l → P x → (∀ y, y ∈ l → P y → y = x) → ∃ i, list_find P l = Some (i, x).
Proof.
  intros Hx Hp Hu. destruct (list_find_elem_of P l x Hx Hp) as [[i y] Hf]. exists i. rewrite Hf.
  apply list_find_Some in Hf as (Hi&Hy&_). by rewrite (Hu y (list_elem_of_lookup_2 _ _ _ Hi) Hy).
Qed.

Lemma answers_once c c' name :
  c ∈ all_commands → c' ∈ all_commands → answers_to name (cco_info c) → answers_to name (cco_info c') → c' = c.
Proof.
  pose proof names_distinct as Hn. induction all_commands as [|d l IH]; [by intros ?%elem_of_nil|]. rewrite bind_cons in Hn.
  apply NoDup_app in Hn as (Hd&Hdis&Hn).
  assert (Hin : ∀ c : ConsoleCommand ConsoleWorld, answers_to name (cco_info c) → name ∈ cmi_name (cco_info c) :: cmi_aliases (cco_info c)).
  { intros e [<-|?]; [by left|by right]. }
  assert (Hl : ∀ e, e ∈ l → answers_to name (cco_info e) →
    name ∈ l ≫= λ c, cmi_name (cco_info c) :: cmi_aliases (cco_info c)).
  { intros e He Ha. apply list_elem_of_bind. exists e. split; [by apply Hin|done]. }
  intros [->|Hc]%elem_of_cons [->|Hc']%elem_of_cons Ha Ha'; [done| | |by apply IH].
  - destruct (Hdis name); [by apply Hin|by eapply Hl].
  - destruct (Hdis name); [by apply Hin|by eapply Hl].
Qed.

(** A command that is typed by its name or an alias, in any case, runs with its arguments. *)
Lemma typed_command_runs c w args (cw : ConsoleWorld) :
  c ∈ all_commands → answers_to (to_lowercase w) (cco_info c) → word w → Forall word args →
  console_line (join_words (w :: args)) cw = cco_execute c args cw.
Proof.
  intros Hc Ha Hw Hargs. unfold console_line, console_dispatch. rewrite parse_typed by done. cbn [pl_command pl_args].
  destruct (find_unique (λ c, answers_to (to_lowercase w) (cco_info c)) all_commands c Hc Ha) as [i ->]; [|done].
  intros y Hy Hay. by eapply answers_once.
Qed.

(** ** Banning and pardoning *)

Context `{LA : !DashMapLaws SockIp BanEntry AM} `{LU : !DashMapLaws rstring BanEntry UM}
  `{LV : !DashMapLaws Z BanEntry VM}.
Context `{LCL : !LowercaseLaws}.
#[local] Instance console_ip_laws : DashMapLaws (@IpAddr console_nets) BanEntry AM := LA.

Lemma player_disconnect_cancelled reason s : ps_cancelled s = true → ps_cancelled (player_disconnect reason s).2 = true.
Proof.
  unfold player_disconnect, channel_send. intros Hc. destruct (ps_closed s); [done|]. by case_decide.
Qed.

Lemma on_session_store p f w : pr_store (players_in (cw_on_session p f w)) = alter f p (pr_store (players_in w)).
Proof. done. Qed.

(** The ban is made, and the player of that name kicked. *)
Lemma ban_execute_spec name rest w :
  (∀ e, io ≠ WriteFailed e) →
  let '(duration, reason) := duration_and_reason rest in
  let w' := (ban_execute (name :: rest) w).2 in
  (∀ k, lookup_ban (bans_of (cw_manager w')) k = if decide (k = KName (to_lowercase name))
     then Some (BanEntry_new now (BanUsername name) reason duration (str "console")) else lookup_ban (bans_of (cw_manager w)) k) ∧
  ∀ p s, console_player name w = Some (p, s) → ∃ s', pr_store (players_in w') !! p = Some s' ∧ ps_cancelled s' = true.
Proof.
  intros Hio. destruct (duration_and_reason rest) as [duration reason] eqn:Hdr. unfold ban_execute. rewrite Hdr.
  unfold manager_ban. change (manager_nets Net net_eq_dec contains) with console_nets.
  set (entry := BanEntry_new _ _ _ _ _).
  pose proof (add_ban_lookup (IPN := console_nets) now io entry (bans_of (cw_manager w))) as Hb.
  assert (Hok : (add_ban now io entry (bans_of (cw_manager w))).1 = Ok ()) by (destruct io as [|e|]; [done|by destruct (Hio e)|done]).
  destruct (add_ban now io entry (bans_of (cw_manager w))) as [r b]. cbn [fst snd] in *. subst r. cbv beta zeta.
  set (w1 := cw_with_manager _ w).
  assert (H1 : ∀ p s, console_player name w = Some (p, s) → pr_store (players_in w1) !! p = Some (cancel s)).
  { intros p s. unfold console_player. destruct (find_by_username (players_in w) name) as [q|] eqn:Hq; [|done].
    cbv [mbind option_bind]. destruct (pr_store (players_in w) !! q) as [t|] eqn:Ht; [|done]. intros [= -> ->].
    unfold w1. cbn [cw_with_manager cw_manager bm_connection_registry sessions_to_kick]. rewrite Hq. cbn [option_list].
    rewrite kick_all_lookup, Ht. cbn. by rewrite decide_True by by left. }
  assert (Hlook : ∀ k, lookup_ban (bans_of (cw_manager w1)) k = if decide (k = KName (to_lowercase name)) then Some entry
    else lookup_ban (bans_of (cw_manager w)) k) by exact Hb.
  destruct (console_player name w1) as [[q t]|] eqn:Hg.
  - unfold disconnect_then. destruct (player_disconnect _ t) as [returns t'] eqn:Hd.
    assert (Ht : pr_store (players_in w1) !! q = Some t).
    { revert Hg. unfold console_player. destruct (find_by_username _ _) as [q'|]; [|done]. cbv [mbind option_bind].
      destruct (pr_store (players_in w1) !! q') eqn:He; [|done]. by intros [= -> ->]. }
    set (w2 := cw_on_session q (λ _, t') w1).
    assert (Hw2 : ∀ p s, console_player name w = Some (p, s) → ∃ s', pr_store (players_in w2) !! p = Some s' ∧ ps_cancelled s' = true).
    { intros p s Hp. apply H1 in Hp. unfold w2. rewrite on_session_store, list_lookup_alter. case_decide as Hqp.
      - subst q. rewrite Ht. exists t'. split; [done|]. assert (t = cancel s) as -> by congruence.
        by rewrite <- (player_disconnect_cancelled (component_text (str "Banned: " ++ reason_text reason)) (cancel s)), Hd.
      - eauto. }
    by destruct returns.
  - split; [exact Hlook|]. intros p s Hp. eauto.
Qed.

Lemma ascii_kept s : Forall (λ c, 0 ≤ c < 128 ∧ ascii_lower c = c) s → to_lowercase s = s.
Proof using LCL.
  intros Hs. rewrite to_lowercase_ascii by (eapply Forall_impl; [exact Hs|]; by intros c [? _]).
  induction Hs as [|c s' [_ Hc] Hs IH]; [done|]. cbn. by rewrite Hc, IH.
Qed.

Lemma command_named (name : string) (c : ConsoleCommand ConsoleWorld) : answers_to (str name) (cco_info c) →
  bool_decide (Forall (λ c, 0 ≤ c < 128 ∧ ascii_lower c = c) (str name)) = true →
  answers_to (to_lowercase (str name)) (cco_info c).
Proof using LCL. intros Ha Hb%bool_decide_eq_true. by rewrite ascii_kept. Qed.

(** A ban that exists is lifted. *)
Lemma unban_execute_spec name rest w e :
  (∀ e, io ≠ WriteFailed e) → lookup_ban (bans_of (cw_manager w)) (KName (to_lowercase name)) = Some e →
  let r := unban_execute (name :: rest) w in
  r.1 = Some (OutSuccess (str "Unbanned " ++ name)) ∧
  ∀ k, lookup_ban (bans_of (cw_manager r.2)) k =
    if decide (k = KName (to_lowercase name)) then None else lookup_ban (bans_of (cw_manager w)) k.
Proof using LA LU LV.
  intros Hio He. unfold unban_execute, unban_target, manager_unban, store_result.
  change (manager_nets Net net_eq_dec contains) with console_nets.
  set (r := remove_ban _ _ _ _).
  assert (Hl : ∀ k, lookup_ban r.2 k =
    if decide (k = KName (to_lowercase name)) then None else lookup_ban (bans_of (cw_manager w)) k)
    by exact (remove_ban_lookup (IPN := console_nets) now io (BanUsername name) (bans_of (cw_manager w))).
  assert (Hok : r.1 = Ok true)
    by exact (remove_ban_found (IPN := console_nets) now io (BanUsername name) (bans_of (cw_manager w)) e Hio He).
  clearbody r. destruct r as [res b]. cbn [fst snd] in *. subst res. split; [done|exact Hl].
Qed.

(** Ban a player with a duration and a reason, or pardon one. *)
Definition ban_line (name duration : rstring) (reason : list rstring) : rstring :=
  join_words (str "ban" :: name :: duration :: reason).
Definition pardon_line (name : rstring) : rstring := join_words [str "pardon"; name].

(** What is typed is what happens: a ban with a duration and a reason is in force for as long and
    under any spelling, and whoever was online under that name is kicked; a pardon, under any
    spelling, lifts it, says so, and touches no other ban. *)
Theorem console_ban_and_pardon (name other duration : rstring) (reason : list rstring) (d : Duration) (w : ConsoleWorld) :
  (∀ e, io ≠ WriteFailed e) → word name → word other → word duration → Forall word reason →
  to_lowercase other = to_lowercase name → parse_duration_arg duration = Some (Some d) → 0 < d →
  let w1 := (console_line (ban_line name duration reason) w).2 in
  let r2 := console_line (pardon_line other) w1 in
  (∃ e, active_ban now (bans_of (cw_manager w1)) (BanUsername other) = Some e ∧ be_expires_at e = Some (now + d) ∧
     be_reason e = (if decide (reason = []) then None else Some (join_words reason))) ∧
  (∀ p s, console_player name w = Some (p, s) → ∃ s', pr_store (players_in w1) !! p = Some s' ∧ ps_cancelled s' = true) ∧
  r2.1 = Some (OutSuccess (str "Unbanned " ++ other)) ∧
  ∀ t, active_ban now (bans_of (cw_manager r2.2)) t =
    if decide (target_key t = KName (to_lowercase name)) then None else active_ban now (bans_of (cw_manager w)) t.
Proof using LA LU LV LCL.
  intros Hio Hname Hother Hdur Hreason Hlow Hd Hpos. cbv zeta.
  set (c1 := Build_ConsoleCommand (info "ban" [] "Ban a player by username" "ban <player> [duration] [reason...]" CBans) ban_execute).
  set (c2 := Build_ConsoleCommand (info "unban" ["pardon"%string] "Unban a player" "unban <player>" CBans) unban_execute).
  assert (Hc1 : c1 ∈ all_commands) by (unfold all_commands, console_commands; do 8 right; left).
  assert (Hc2 : c2 ∈ all_commands) by (unfold all_commands, console_commands; do 10 right; left).
  assert (H1 : console_line (ban_line name duration reason) w = ban_execute (name :: duration :: reason) w).
  { apply (typed_command_runs c1); [done|apply command_named; [by left|done]|by apply (bool_decide_unpack _)|by rewrite !Forall_cons]. }
  rewrite H1. set (w1 := (ban_execute (name :: duration :: reason) w).2).
  pose proof (ban_execute_spec name (duration :: reason) w Hio) as Hb.
  assert (Hdr : duration_and_reason (duration :: reason) =
    (Some d, if decide (reason = []) then None else Some (join_words reason))) by (unfold duration_and_reason; by rewrite Hd).
  rewrite Hdr in Hb.
  fold w1 in Hb. destruct Hb as [Hb Hk].
  assert (H2 : console_line (pardon_line other) w1 = unban_execute [other] w1).
  { apply (typed_command_runs c2); [done|apply command_named; [by right; left|done]|by apply (bool_decide_unpack _)|by rewrite !Forall_cons]. }
  rewrite H2. destruct (unban_execute_spec other [] w1 (BanEntry_new now (BanUsername name)
    (if decide (reason = []) then None else Some (join_words reason)) (Some d) (str "console")) Hio) as [Hout Hu].
  { rewrite Hb. by rewrite decide_True by by rewrite Hlow. }
  split_and!; [|exact Hk|exact Hout|].
  - eexists. unfold active_ban. rewrite Hb. cbn [target_key]. rewrite decide_True by by rewrite Hlow.
    cbv [mbind option_bind]. match goal with |- context [is_expired now ?x] => assert (Hx : is_expired now x = false) end.
    { unfold is_expired. cbn. apply bool_decide_false. lia. }
    rewrite Hx. by split_and!.
  - intros t. unfold active_ban. rewrite Hu, Hlow, Hb. by repeat case_decide.
Qed.
End commands.

(** ** A concrete console *)

Section sample.
#[local] Existing Instances ascii_lowercase hex_uuid.
#[local] Instance desk_nets : IpNets := socket_nets () unit_eq_dec (λ _ _, false).

(** Durations of one minute and one hour are all this console reads. *)
Definition two_durations (s : rstring) : option Duration :=
  if decide (s = str "1m") then Some (from_secs 60) else if decide (s = str "1h") then Some (from_secs 3600) else None.

Abbreviation DeskWorld := (ConsoleWorld () unit_eq_dec (λ _ _, false) (AM := assoc_map SockIp BanEntry)
  (UM := assoc_map rstring BanEntry) (VM := assoc_map Z BanEntry) (SM := assoc_map Z nat) (IM := assoc_map Z Z)).
Abbreviation type := (console_line () unit_eq_dec (λ _ _, false) (AM := assoc_map SockIp BanEntry)
  (UM := assoc_map rstring BanEntry) (VM := assoc_map Z BanEntry) (SM := assoc_map Z nat) (IM := assoc_map Z Z)
  two_durations (λ _, []) (λ _, Err (str "no answer")) 0 Written (str "2.0.0") (λ _ _ _, Some OutNone)).
Definition desk : DeskWorld :=
  mk_ConsoleWorld () unit_eq_dec (λ _ _, false)
    (mk_BanManager () unit_eq_dec (λ _ _, false) (storage_new FileMissing) (open_session sample_griefer ConnectionRegistry_new))
    (permission_new_sync (Build_PermissionsConfig [] [])) false.
Definition desk_bans (w : DeskWorld) : list (option rstring * option Z) :=
  (λ e, (be_reason e, be_expires_at e)) <$> get_all_active 0 (bm_storage () unit_eq_dec (λ _ _, false) (cw_manager () unit_eq_dec (λ _ _, false) w)).
Definition desk_cancelled (w : DeskWorld) : list bool :=
  ps_cancelled <$> pr_store (bm_connection_registry () unit_eq_dec (λ _ _, false) (cw_manager () unit_eq_dec (λ _ _, false) w)).

(** The player is banned for a minute and kicked, then pardoned under another spelling. *)
Example ban_then_pardon :
  let r1 := type (str "  BAN Griefer 1m  being rude ") desk in
  let r2 := type (str "pardon GRIEFER") r1.2 in
  r1.1 = Some (OutLines [OSuccess (str "Banned Griefer 1m (reason: being rude)"); OSuccess (str "Player kicked from lobby")]) ∧
  desk_bans r1.2 = [(Some (str "being rude"), Some (from_secs 60))] ∧ desk_cancelled r1.2 = [true] ∧
  r2.1 = Some (OutSuccess (str "Unbanned GRIEFER")) ∧ desk_bans r2.2 = [].
Proof. by vm_compute. Qed.

(** ** Limits *)

(** A duration that cannot be read is taken as the reason, and the ban is permanent. *)
Theorem mistyped_duration_bans_forever :
  let r := type (str "ban Griefer 30") desk in
  r.1 = Some (OutLines [OSuccess (str "Banned Griefer permanently (reason: 30)"); OSuccess (str "Player kicked from lobby")]) ∧
  desk_bans r.2 = [(Some (str "30"), None)].
Proof. by vm_compute. Qed.

(** Help is made before it is registered, and does not know itself. *)
Theorem help_does_not_know_help :
  (type (str "help help") desk).1 = Some (OutError (str "Unknown command: 'help'")) ∧
  (type (str "help kick") desk).1 = Some (OutLines [OInfo (str "kick"); OInfo (str "  Kick a player");
    OInfo (str "  Usage: kick <player> [reason...]")]).
Proof. by vm_compute. Qed.

(** A ban of a uuid is shown by baninfo, but unban takes its text for a name. *)
Theorem uuid_cannot_be_pardoned :
  let id := uuid_to_string 11 in
  let banned := cw_with_manager () unit_eq_dec (λ _ _, false)
    (manager_ban () unit_eq_dec (λ _ _, false) 0 Written (BanUuid 11) None None (str "plugin")
       (cw_manager () unit_eq_dec (λ _ _, false) desk)).2 desk in
  (type (str "unban " ++ id) banned).1 = Some (OutError (str "Player '" ++ id ++ str "' is not banned")) ∧
  length (desk_bans (type (str "unban " ++ id) banned).2) = 1%nat.
Proof. by vm_compute. Qed.
End sample.
