(* ===== verification/Legacy.v ===== *)
(** * Legacy: clients from before 1.7

    Models [legacy/ping.rs] and [legacy/handshake.rs] of the protocol and [handler/legacy.rs]
    of the core: the pings of Beta, 1.4 and 1.6, the login of 1.6 and earlier, and the
    answers, which are kick packets.  Strings are UTF-16 on this wire.

    The client's socket is the list of the chunks it will still send and how it then ends;
    a read with a time limit fails where a silent stream has no more bytes.  What the
    handler does is its [outcome]: the bytes it writes to the client, or the backend it
    hands the stream to. *)
From S2P Require Import Prelude Wire Utf8 VarInt Codec Frame Version Packet Json Bridge Config Router Middleware ServerManager.
From S2P Require Import Transport Address Switch Players.

(** ** UTF-16 *)

Definition utf16_units (c : Z) : list Z :=
  if decide (c < 0x10000) then [c]
  else [0xD800 + Z.shiftr (c - 0x10000) 10; 0xDC00 + Z.land (c - 0x10000) 0x3FF].
Definition encode_utf16 (s : rstring) : list Z := s ≫= utf16_units.
Definition encode_utf16be (s : rstring) : bytes := encode_utf16 s ≫= to_be_bytes 2.

(** [chunks_exact(2)] of data of even length. *)
Fixpoint code_units (data : bytes) : list Z :=
  match data with
  | a :: b :: data => from_be_bytes [a; b] :: code_units data
  | _ => []
  end.

(** [String::from_utf16]: a lone surrogate is an error. *)
Fixpoint from_utf16 (units : list Z) : option rstring :=
  match units with
  | [] => Some []
  | u :: units =>
    if decide (0xD800 ≤ u < 0xDC00) then
      match units with
      | w :: units =>
        if decide (0xDC00 ≤ w < 0xE000) then
          cons (0x10000 + Z.lor (Z.shiftl (u - 0xD800) 10) (w - 0xDC00)) <$> from_utf16 units
        else None
      | [] => None
      end
    else if decide (0xDC00 ≤ u < 0xE000) then None
    else cons u <$> from_utf16 units
  end.

Definition decode_utf16be (data : bytes) : ProtocolResult rstring :=
  if decide (zlen data mod 2 ≠ 0) then Err (Invalid "UTF-16BE data has odd length")
  else match from_utf16 (code_units data) with
       | Some s => Ok s
       | None => Err (Invalid "invalid UTF-16BE string")
       end.

(** ** Pings *)

Inductive LegacyPingVariant := PingBeta | PingV1_4 | PingV1_6.
Record LegacyPingRequest := {
  lp_variant : LegacyPingVariant;
  lp_hostname : option rstring;
  lp_port : option Z;
  lp_protocol_version : option Z }.
Record LegacyPingResponse := {
  lr_protocol_version : Z;
  lr_server_version : rstring;
  lr_motd : rstring;
  lr_online_players : Z;
  lr_max_players : Z }.

Definition build_kick_packet (text : rstring) : ProtocolResult bytes :=
  let encoded := encode_utf16be text in
  let code_unit_count := zlen encoded / 2 in
  if decide (code_unit_count > 65535) then Err (TooLarge 65535 code_unit_count)
  else Ok ([0xFF] ++ to_be_bytes 2 code_unit_count ++ encoded).

Definition beta_text (r : LegacyPingResponse) : rstring :=
  lr_motd r ++ [0xA7] ++ str (pretty (lr_online_players r)) ++ [0xA7] ++ str (pretty (lr_max_players r)).
Definition build_beta_response (r : LegacyPingResponse) : ProtocolResult bytes := build_kick_packet (beta_text r).

Definition v1_4_text (r : LegacyPingResponse) : rstring :=
  [0xA7; 49; 0] ++ str (pretty (lr_protocol_version r)) ++ [0] ++ lr_server_version r ++ [0] ++ lr_motd r ++ [0] ++
  str (pretty (lr_online_players r)) ++ [0] ++ str (pretty (lr_max_players r)).
Definition build_v1_4_response (r : LegacyPingResponse) : ProtocolResult bytes := build_kick_packet (v1_4_text r).

(** [data[pos..pos + n]] and [u16::from_be_bytes([data[pos], data[pos + 1]])]. *)
Definition slice (data : bytes) (pos n : nat) : bytes := take n (drop pos data).
Definition u16_at (data : bytes) (pos : nat) : nat := Z.to_nat (from_be_bytes (slice data pos 2)).
Definition i32_at (data : bytes) (pos : nat) : Z := wrap_s 32 (from_be_bytes (slice data pos 4)).

Definition parse_v1_6_ping (data : bytes) : ProtocolResult LegacyPingRequest :=
  let len := length data in
  if decide (len < 2)%nat then Err (Invalid "V1_6 ping: missing channel name length")
  else
    let offset := (2 + u16_at data 0 * 2)%nat in
    if decide (len < offset + 2)%nat then Err (Invalid "V1_6 ping: truncated channel name")
    else
      let pos := (offset + 2)%nat in
      if decide (len ≤ pos)%nat then Err (Invalid "V1_6 ping: missing protocol version")
      else
        let protocol_version := default 0 (data !! pos) in
        let pos := S pos in
        if decide (len < pos + 2)%nat then Err (Invalid "V1_6 ping: missing hostname length")
        else
          let hostname_bytes := (u16_at data pos * 2)%nat in
          let pos := (pos + 2)%nat in
          if decide (len < pos + hostname_bytes)%nat then Err (Invalid "V1_6 ping: truncated hostname")
          else
            hostname ← decode_utf16be (slice data pos hostname_bytes);
            let pos := (pos + hostname_bytes)%nat in
            if decide (len < pos + 4)%nat then Err (Invalid "V1_6 ping: missing port")
            else Ok (Build_LegacyPingRequest PingV1_6 (Some hostname) (Some (i32_at data pos)) (Some protocol_version)).

Definition parse_legacy_ping (data : bytes) : ProtocolResult LegacyPingRequest :=
  match data with
  | 0x01 :: 0xFA :: data => parse_v1_6_ping data
  | 0x01 :: _ => Ok (Build_LegacyPingRequest PingV1_4 None None None)
  | _ => Ok (Build_LegacyPingRequest PingBeta None None None)
  end.

(** ** Logins *)

Record LegacyHandshakeRequest := {
  lg_protocol_version : Z;
  lg_username : rstring;
  lg_hostname : rstring;
  lg_port : Z }.

Definition read_string16 (data : bytes) (pos : nat) (context : string) : ProtocolResult (rstring * nat) :=
  if decide (length data < pos + 2)%nat then Err (Invalid ("legacy handshake: missing " +:+ context +:+ " length"))
  else
    let byte_count := (u16_at data pos * 2)%nat in
    let start := (pos + 2)%nat in
    if decide (length data < start + byte_count)%nat then Err (Invalid ("legacy handshake: truncated " +:+ context))
    else s ← decode_utf16be (slice data start byte_count); Ok (s, (start + byte_count)%nat).

Definition parse_pre_1_3_connection_string (s : rstring) : LegacyHandshakeRequest :=
  match split_once 59 s with
  | Some (username, host_port) =>
    match rsplit_once 58 host_port with
    | Some (hostname, port_str) => Build_LegacyHandshakeRequest 0 username hostname (default 25565 (parse_i32 port_str))
    | None => Build_LegacyHandshakeRequest 0 username host_port 25565
    end
  | None => Build_LegacyHandshakeRequest 0 s [] 25565
  end.

Definition parse_legacy_handshake (data : bytes) : ProtocolResult LegacyHandshakeRequest :=
  match data with
  | [] => Err (Invalid "legacy handshake: missing format byte")
  | 0 :: rest =>
    match rest with
    | [] => Err (Invalid "legacy handshake: missing string length")
    | low :: _ =>
      let str_len := Z.to_nat (from_be_bytes [0; low]) in
      let byte_count := (str_len * 2)%nat in
      if decide (length data < 2 + byte_count)%nat then Err (Invalid "legacy handshake: truncated connection string")
      else s ← decode_utf16be (slice data 2 byte_count); Ok (parse_pre_1_3_connection_string s)
    end
  | protocol_version :: _ =>
    username ← read_string16 data 1 "username";
    hostname ← read_string16 data username.2 "hostname";
    if decide (length data < hostname.2 + 4)%nat then Err (Invalid "legacy handshake: missing port")
    else Ok (Build_LegacyHandshakeRequest protocol_version username.1 hostname.1 (i32_at data hostname.2))
  end.

(** ** Reading from a socket *)

(** [read_exact]: a read may take part of a chunk. *)
Fixpoint read_exact_from (fin : stream_end) (n : nat) (stream : list bytes) : result read_failure bytes * list bytes :=
  if decide (n = 0)%nat then (Ok [], stream)
  else
    match stream with
    | [] => (Err (end_failure fin), [])
    | [] :: stream => (Err ReadEof, stream)
    | chunk :: stream =>
      if decide (n ≤ length chunk)%nat then (Ok (take n chunk), unread (drop n chunk) stream)
      else
        match read_exact_from fin (n - length chunk)%nat stream with
        | (Ok more, stream) => (Ok (chunk ++ more), stream)
        | (Err e, stream) => (Err e, stream)
        end
    end.

Section reading.
Context (fin : stream_end).
Definition RM (A : Type) : Type := list bytes → result read_failure A * list bytes.
#[global] Instance rm_ret : MRet RM := λ A a s, (Ok a, s).
#[global] Instance rm_bind : MBind RM := λ A B f m s,
  match m s with (Ok a, s) => f a s | (Err e, s) => (Err e, s) end.
Definition rm_read (n : nat) : RM bytes := read_exact_from fin n.

(** The bytes of a count, and what it counts. *)
Definition read_remaining_v1_6_data : RM bytes :=
  byte ← rm_read 1;
  if decide (byte ≠ [0xFA]) then mret byte
  else
    len_bytes ← rm_read 2;
    str_data ← rm_read (Z.to_nat (from_be_bytes len_bytes) * 2);
    data_len_bytes ← rm_read 2;
    remaining ← rm_read (Z.to_nat (from_be_bytes data_len_bytes));
    mret (byte ++ len_bytes ++ str_data ++ data_len_bytes ++ remaining).

(** The bytes after the first one; a read that fails or takes too long ends the ping. *)
Definition read_legacy_ping_data (buffered : bytes) (stream : list bytes) : bytes * list bytes :=
  let data := drop 1 buffered in
  match rm_read 1 stream with
  | (Err _, stream) => (data, stream)
  | (Ok next, stream) =>
    let data := data ++ next in
    if decide (next = [0x01]) then
      match read_remaining_v1_6_data stream with
      | (Ok more, stream) => (data ++ more, stream)
      | (Err _, stream) => (data, stream)
      end
    else (data, stream)
  end.

Definition read_legacy_string_into (data : bytes) : RM bytes :=
  len_bytes ← rm_read 2;
  str_data ← rm_read (Z.to_nat (from_be_bytes len_bytes) * 2);
  mret (data ++ len_bytes ++ str_data).

Definition read_legacy_handshake_data : RM bytes :=
  format_byte ← rm_read 1;
  let data := [0x02] ++ format_byte in
  if decide (format_byte = [0]) then
    low_byte ← rm_read 1;
    str_data ← rm_read (Z.to_nat (from_be_bytes ([0] ++ low_byte)) * 2);
    mret (data ++ low_byte ++ str_data)
  else
    data ← read_legacy_string_into data;
    data ← read_legacy_string_into data;
    port ← rm_read 4;
    mret (data ++ port).

Definition read_legacy_kick_response : RM (ProtocolResult bytes) :=
  packet_id ← rm_read 1;
  if decide (packet_id ≠ [0xFF]) then
    mret (Err (Invalid ("expected legacy kick 0xFF, got 0x" +:+ hex02 (default 0 (head packet_id)))))
  else
    len_bytes ← rm_read 2;
    let str_len := from_be_bytes len_bytes in
    if decide (str_len > 32767) then
      mret (Err (Invalid ("legacy kick string length too large: " +:+ pretty str_len)))
    else
      text ← rm_read (Z.to_nat str_len * 2);
      mret (Ok ([0xFF] ++ len_bytes ++ text)).
End reading.

(** ** The handler *)

Definition CURRENT_MC_PROTOCOL : Z := 774.
Definition CURRENT_MC_VERSION : rstring := str "1.21.11".

Section handler.
Context `{IPN : IpNets, LC : Lowercase, WM : WildMatch, PP : Ppp}.
Context {CM EM : Type} `{DMC : !DashMap ProviderId RouterEntry CM, DME : !DashMap rstring ProviderId EM}.
Context {SM IM MM : Type} `{DMS : !DashMap Z nat SM, DMI : !DashMap Z Z IM, DMM : !DashMap rstring ServerEntry MM}.
Context (net : rstring → Z → attempt) (default_timeout : Z).

Record LegacyHandler := {
  lh_domain_router : DomainRouter (CM := CM) (EM := EM);
  lh_default_motd : option MotdConfig;
  lh_server_manager : option (ServerManagerService (SM := MM));
  lh_connections : Players (SM := SM) (IM := IM) }.
Context (h : LegacyHandler).

Definition default_online : option MotdEntry := m ← lh_default_motd h; motd_online m.
Definition default_motd_text : rstring := from_option me_text (str "An Infrarust Proxy") default_online.

Definition build_response (variant : LegacyPingVariant) (motd : rstring) (online max : Z) : ProtocolResult bytes :=
  let response := Build_LegacyPingResponse CURRENT_MC_PROTOCOL CURRENT_MC_VERSION motd online max in
  match variant with
  | PingBeta => build_beta_response response
  | PingV1_4 | PingV1_6 => build_v1_4_response response
  end.

(** The entry of a state and the text without one. *)
Definition state_motd (c : ServerConfig) (state : ServerState) : option MotdEntry * rstring :=
  let m := sc_motd c in
  match state with
  | Sleeping => (motd_sleeping m, [0xA7] ++ str "7Server sleeping " ++ [0x2014; 32; 0xA7] ++ str "aConnect to wake up!")
  | Starting => (motd_starting m, [0xA7] ++ str "eServer is starting...")
  | Crashed => (motd_crashed m, [0xA7] ++ str "cServer unavailable")
  | Stopping => (motd_stopping m, [0xA7] ++ str "6Server is stopping...")
  | Online | Unknown => (None, str "A Minecraft Server")
  end.

Definition online_on (id : rstring) : Z := wrap_s 32 (Z.of_nat (count_by_server (lh_connections h) id)).

Definition build_state_response (variant : LegacyPingVariant) (c : ServerConfig) (state : ServerState) (config_id : rstring)
    : ProtocolResult bytes :=
  let '(motd_entry, default_text) := state_motd c state in
  build_response variant (from_option me_text default_text motd_entry) (online_on config_id)
    (wrap_s 32 (default (sc_max_players c) (motd_entry ≫= me_max_players))).

(** The state of a managed server that is not online. *)
Definition managed_state (c : ServerConfig) (config_id : rstring) : option ServerState :=
  _ ← sc_server_manager c;
  sm ← lh_server_manager h;
  state ← get_state sm config_id;
  if decide (state = Online) then None else Some state.

Definition or_empty (r : ProtocolResult bytes) : bytes := match r with Ok bs => bs | Err _ => [] end.

Definition build_config_response (variant : LegacyPingVariant) (config : option ServerConfig) : bytes :=
  match config with
  | Some c =>
    let config_id := effective_id c in
    match managed_state c config_id with
    | Some state => or_empty (build_state_response variant c state config_id)
    | None =>
      let online := motd_online (sc_motd c) in
      or_empty (build_response variant (from_option me_text default_motd_text online) (online_on config_id)
        (wrap_s 32 (default (sc_max_players c) (online ≫= me_max_players))))
    end
  | None =>
    or_empty (build_response variant default_motd_text
      (wrap_s 32 (Z.of_nat (registry_count (lh_connections h))))
      (wrap_s 32 (default 0 (default_online ≫= me_max_players))))
  end.

Definition reconstruct_ping_packet (raw_data : bytes) : bytes := 0xFE :: raw_data.

Definition write_raw (data : bytes) (s : BackendSocket) : result CoreError BackendSocket :=
  match bs_broken s with
  | Some kind => Err (CIo kind)
  | None => Ok (Build_BackendSocket (bs_in s) (bs_written s ++ data) None)
  end.

(** The answer, with the socket it came from.  The backend's stream is silent at its end:
    the limit of five seconds is then reached. *)
Definition forward_ping_to_backend (raw_ping : bytes) (c : ServerConfig) (info : ConnectionInfo)
    : option (bytes * BackendSocket) :=
  match connect net default_timeout (effective_id c) (sc_addresses c) (to_connect <$> sc_timeouts c) false info with
  | Err _ => None
  | Ok s =>
    match write_raw raw_ping s with
    | Err _ => None
    | Ok s =>
      match read_legacy_kick_response StreamSilent (bs_in s) with (Ok (Ok bs), _) => Some (bs, s) | _ => None end
    end
  end.

(** What becomes of a connection: the answer to the client with the backend that was
    asked, if any, or the backend the stream is handed to. *)
Inductive outcome :=
| Answered (answer : bytes) (asked : option BackendSocket)
| Ignored
| HandedOver (server : rstring) (backend : BackendSocket) (client : list bytes).

Definition handle_ping (fin : stream_end) (buffered : bytes) (stream : list bytes) (info : ConnectionInfo)
    : result CoreError outcome :=
  let raw_data := (read_legacy_ping_data fin buffered stream).1 in
  match parse_legacy_ping raw_data with
  | Err e => Err (CProtocol e)
  | Ok request =>
    match lp_hostname request with
    | None => Ok (Answered (build_config_response (lp_variant request) None) None)
    | Some hostname =>
      match resolve (lh_domain_router h) (to_lowercase hostname) with
      | None => Ok (Answered (build_config_response (lp_variant request) None) None)
      | Some (_, config) =>
        match forward_ping_to_backend (reconstruct_ping_packet raw_data) config info with
        | Some (answer, backend) => Ok (Answered answer (Some backend))
        | None => Ok (Answered (build_config_response (lp_variant request) (Some config)) None)
        end
      end
    end
  end.

(** A reason that does not fit is not sent. *)
Definition send_legacy_kick (reason : rstring) : outcome :=
  match build_kick_packet reason with Ok bs => Answered bs None | Err _ => Ignored end.

Definition handle_login (fin : stream_end) (stream : list bytes) (info : ConnectionInfo) : result CoreError outcome :=
  match read_legacy_handshake_data fin stream with
  | (Err (ReadProtocol e), _) => Err (CProtocol e)
  | (Err ReadEof, _) => Err (CIo UnexpectedEof)
  | (Err ReadTimeout, _) => Err (CTimeout "legacy handshake read timed out")
  | (Ok raw_data, stream) =>
    match parse_legacy_handshake (drop 1 raw_data) with
    | Err e => Err (CProtocol e)
    | Ok handshake =>
      match resolve (lh_domain_router h) (to_lowercase (lg_hostname handshake)) with
      | None => Ok (send_legacy_kick (str "Unknown server"))
      | Some (_, c) =>
        match connect net default_timeout (effective_id c) (sc_addresses c) (to_connect <$> sc_timeouts c)
                (sc_send_proxy_protocol c) info with
        | Err _ => Ok (send_legacy_kick (effective_disconnect_message c))
        | Ok backend =>
          match write_raw raw_data backend with
          | Err e => Err e
          | Ok backend => Ok (HandedOver (effective_id c) backend stream)
          end
        end
      end
    end
  end.

Definition legacy_handle (ctx : ConnectionContext) (info : ConnectionInfo) : result CoreError outcome :=
  let first_byte := default 0 (head (ctx_buffered ctx)) in
  if decide (first_byte = 0xFE) then handle_ping (ctx_end ctx) (ctx_buffered ctx) (ctx_stream ctx) info
  else if decide (first_byte = 0x02) then handle_login (ctx_end ctx) (ctx_stream ctx) info
  else Ok Ignored.
End handler.

(** ** Strings *)

Lemma utf16_units_range c : is_char c → Forall (in_u 16) (utf16_units c).
Proof.
  unfold is_char, utf16_units, in_u. intros Hc. case_decide; repeat constructor; try lia.
  - rewrite Z.shiftr_div_pow2 by lia. change (2 ^ 10) with 1024. pose proof (Z.div_pos (c - 65536) 1024). lia.
  - rewrite Z.shiftr_div_pow2 by lia. change (2 ^ 10) with 1024.
    assert ((c - 65536) / 1024 < 1024) by (apply Z.div_lt_upper_bound; lia). lia.
  - change 1023 with (Z.ones 10). rewrite Z.land_ones by lia. pose proof (Z.mod_pos_bound (c - 65536) (2 ^ 10)). lia.
  - change 1023 with (Z.ones 10). rewrite Z.land_ones by lia. pose proof (Z.mod_pos_bound (c - 65536) (2 ^ 10)).
    change (2 ^ 10) with 1024 in *. lia.
Qed.

Lemma from_utf16_units c units :
  is_char c → from_utf16 (utf16_units c ++ units) = cons c <$> from_utf16 units.
Proof.
  unfold is_char, utf16_units. intros Hc. case_decide as Hlt.
  { cbn [app from_utf16]. by rewrite !decide_False by lia. }
  set (d := c - 65536). assert (Hd : 0 ≤ d < 1048576) by lia.
  assert (Hhi : Z.shiftr d 10 = d / 1024) by by rewrite Z.shiftr_div_pow2 by lia.
  assert (Hlo : Z.land d 1023 = d mod 1024) by (change 1023 with (Z.ones 10); by rewrite Z.land_ones by lia).
  rewrite Hhi, Hlo. pose proof (Z.mod_pos_bound d 1024 ltac:(lia)). pose proof (Z.div_pos d 1024 ltac:(lia) ltac:(lia)).
  assert (d / 1024 < 1024) by (apply Z.div_lt_upper_bound; lia).
  cbn [app from_utf16]. rewrite decide_True by lia. rewrite decide_True by lia.
  assert (65536 + Z.lor (Z.shiftl (55296 + d / 1024 - 55296) 10) (56320 + d mod 1024 - 56320) = c) as ->; [|done].
  replace (55296 + d / 1024 - 55296) with (d / 1024) by lia. replace (56320 + d mod 1024 - 56320) with (d mod 1024) by lia.
  rewrite Z.shiftl_mul_pow2, lor_add_low by (change (2 ^ 10) with 1024; lia). change (2 ^ 10) with 1024. unfold d. pose proof (Z.div_mod (c - 65536) 1024). lia.
Qed.

Lemma from_utf16_encode s : is_string s → from_utf16 (encode_utf16 s) = Some s.
Proof.
  induction 1 as [|c s Hc Hs IH]; [done|]. change (encode_utf16 (c :: s)) with (utf16_units c ++ encode_utf16 s).
  rewrite from_utf16_units by done. by rewrite IH.
Qed.

Lemma encode_utf16_range s : is_string s → Forall (in_u 16) (encode_utf16 s).
Proof. induction 1 as [|c s Hc Hs IH]; [constructor|]. apply Forall_app. split; [by apply utf16_units_range|done]. Qed.

Lemma code_units_encode units : Forall (in_u 16) units → code_units (units ≫= to_be_bytes 2) = units.
Proof.
  induction 1 as [|u units Hu Hus IH]; [done|].
  change ((u :: units) ≫= to_be_bytes 2) with (to_be_bytes 2 u ++ (units ≫= to_be_bytes 2)).
  destruct (to_be_bytes 2 u) as [|a [|b [|? ?]]] eqn:Hb;
    try (by pose proof (length_to_be_bytes 2 u) as Hl; rewrite Hb in Hl).
  cbn [app code_units]. rewrite IH, <- Hb, from_to_be_bytes. f_equal. unfold in_u in Hu. by apply Z.mod_small.
Qed.

Lemma length_encode_utf16be s : length (encode_utf16be s) = (2 * length (encode_utf16 s))%nat.
Proof.
  unfold encode_utf16be. induction (encode_utf16 s) as [|u units IH]; [done|].
  change ((u :: units) ≫= to_be_bytes 2) with (to_be_bytes 2 u ++ (units ≫= to_be_bytes 2)). cbn [length].
  rewrite length_app, length_to_be_bytes, IH. lia.
Qed.

Lemma utf16_roundtrip s : is_string s → decode_utf16be (encode_utf16be s) = Ok s.
Proof.
  intros Hs. unfold decode_utf16be. rewrite decide_False.
  - unfold encode_utf16be. rewrite code_units_encode by by apply encode_utf16_range. by rewrite from_utf16_encode.
  - unfold zlen. rewrite length_encode_utf16be, Nat2Z.inj_mul, Z.mul_comm. intros Hn. apply Hn. apply Z.mod_mul. lia.
Qed.

(** ** Reading in chunks *)

Definition nonempty (stream : list bytes) : Prop := Forall (λ c, c ≠ []) stream.

Lemma unread_nonempty more stream : nonempty stream → nonempty (unread more stream).
Proof. unfold unread. intros. case_decide; [done|by constructor]. Qed.

Lemma read_exact_finds fin a rest stream :
  nonempty stream → concat stream = a ++ rest →
  ∃ stream', read_exact_from fin (length a) stream = (Ok a, stream') ∧ nonempty stream' ∧ concat stream' = rest.
Proof.
  intros Hne. revert a. induction Hne as [|chunk stream Hc Hne IH]; intros a Hcat.
  { symmetry in Hcat. apply app_nil in Hcat as [-> ->]. exists []. split; [done|]. by split; [constructor|]. }
  destruct (decide (length a = 0)%nat) as [Ha|Ha].
  { apply nil_length_inv in Ha as ->. exists (chunk :: stream). split; [done|]. split; [by constructor|done]. }
  cbn [read_exact_from]. rewrite decide_False by done. destruct chunk as [|b chunk]; [done|].
  change (concat ((b :: chunk) :: stream)) with ((b :: chunk) ++ concat stream) in Hcat.
  set (ch := b :: chunk) in *. case_decide as Hle.
  - exists (unread (drop (length a) ch) stream). rewrite unread_concat.
    apply (f_equal (take (length a))) in Hcat as Ht. rewrite take_app_le, take_app_length in Ht by done.
    apply (f_equal (drop (length a))) in Hcat as Hd. rewrite drop_app_le, drop_app_length in Hd by done.
    rewrite Ht, Hd. split; [done|]. by split; [apply unread_nonempty|].
  - apply (f_equal (drop (length ch))) in Hcat as Hd. rewrite drop_app_length, drop_app_le in Hd by lia.
    apply (f_equal (take (length ch))) in Hcat as Ht. rewrite take_app_length, take_app_le in Ht by lia.
    destruct (IH _ Hd) as (stream'&Hr&Hne'&Hrest). rewrite length_drop in Hr. rewrite Hr.
    exists stream'. split; [|done]. by rewrite Ht at 1; rewrite take_drop.
Qed.

(** A step of a reader, given the bytes it takes. *)
Lemma rm_read_step {A} fin n a rest stream (k : bytes → RM A) :
  nonempty stream → concat stream = a ++ rest → n = length a →
  ∃ stream', (rm_read fin n ≫= k) stream = k a stream' ∧ nonempty stream' ∧ concat stream' = rest.
Proof.
  intros Hne Hcat ->. destruct (read_exact_finds fin a rest stream Hne Hcat) as (stream'&Hr&?&?).
  exists stream'. split; [|done]. unfold rm_read. cbv [mbind rm_bind]. by rewrite Hr.
Qed.

(** ** What a client sends *)

(** A string with its length in code units. *)
Definition fits (s : rstring) : Prop := is_string s ∧ zlen (encode_utf16 s) ≤ 65535.
Definition string16 (s : rstring) : bytes := to_be_bytes 2 (zlen (encode_utf16 s)) ++ encode_utf16be s.

(** The handshake of 1.3 to 1.6, and that of earlier clients, with the host it names. *)
Inductive login_bytes : bytes → rstring → Prop :=
| login_1_3 v user host port :
    0 < v < 256 → fits user → fits host → in_s 32 port →
    login_bytes ([0x02; v] ++ string16 user ++ string16 host ++ to_be_bytes 4 port) host
| login_pre_1_3 user host port :
    59 ∉ user → 58 ∉ port → is_string (user ++ [59] ++ host ++ [58] ++ port) →
    zlen (encode_utf16 (user ++ [59] ++ host ++ [58] ++ port)) ≤ 255 →
    login_bytes ([0x02; 0; zlen (encode_utf16 (user ++ [59] ++ host ++ [58] ++ port))] ++
                 encode_utf16be (user ++ [59] ++ host ++ [58] ++ port)) host.

(** The ping of 1.6. *)
Definition v1_6_ping (channel : rstring) (v : Z) (host : rstring) (port : Z) : bytes :=
  let data := [v] ++ string16 host ++ to_be_bytes 4 port in
  [0xFE; 0x01; 0xFA] ++ string16 channel ++ to_be_bytes 2 (zlen data) ++ data.

(** ** Parsing *)

Lemma slice_middle a b c : slice (a ++ b ++ c) (length a) (length b) = b.
Proof. unfold slice. by rewrite drop_app_length, take_app_length. Qed.

Lemma slice_at data pos n a b c : data = a ++ b ++ c → pos = length a → n = length b → slice data pos n = b.
Proof. intros -> -> ->. apply slice_middle. Qed.

Lemma from_be_u16 z : in_u 16 z → from_be_bytes (to_be_bytes 2 z) = z.
Proof. intros Hz. rewrite from_to_be_bytes. unfold in_u in Hz. by apply Z.mod_small. Qed.

Lemma u16_at_middle data pos a z c :
  data = a ++ to_be_bytes 2 z ++ c → pos = length a → in_u 16 z → u16_at data pos = Z.to_nat z.
Proof.
  intros Hd Hp Hz. unfold u16_at. rewrite (slice_at data pos 2 a (to_be_bytes 2 z) c) by (done || by rewrite length_to_be_bytes).
  by rewrite from_be_u16.
Qed.

Lemma i32_at_middle data pos a z c :
  data = a ++ to_be_bytes 4 z ++ c → pos = length a → in_s 32 z → i32_at data pos = z.
Proof.
  intros Hd Hp Hz. unfold i32_at. rewrite (slice_at data pos 4 a (to_be_bytes 4 z) c) by (done || by rewrite length_to_be_bytes).
  rewrite from_to_be_bytes. by apply (wrap_s_of_u 32).
Qed.

Lemma length_string16 s : length (string16 s) = (2 + 2 * length (encode_utf16 s))%nat.
Proof. unfold string16. by rewrite length_app, length_to_be_bytes, length_encode_utf16be. Qed.

Lemma fits_units s : fits s → in_u 16 (zlen (encode_utf16 s)).
Proof. intros [_ Hf]. unfold in_u. pose proof (zlen_nonneg (encode_utf16 s)). lia. Qed.

Lemma read_string16_middle data pos a s c context :
  data = a ++ string16 s ++ c → pos = length a → fits s →
  read_string16 data pos context = Ok (s, (pos + length (string16 s))%nat).
Proof.
  intros Hd Hp Hs. unfold read_string16. pose proof (fits_units s Hs) as Hu. pose proof (length_string16 s) as Hl.
  rewrite (u16_at_middle data pos a (zlen (encode_utf16 s)) (encode_utf16be s ++ c)) by
    (done || by rewrite Hd; unfold string16; rewrite <- !app_assoc).
  assert (Hlen : length data = (length a + length (string16 s) + length c)%nat) by (rewrite Hd, !length_app; lia).
  unfold zlen. rewrite Nat2Z.id. rewrite !decide_False by lia.
  rewrite (slice_at data (pos + 2) (length (encode_utf16 s) * 2) (a ++ to_be_bytes 2 (zlen (encode_utf16 s)))
    (encode_utf16be s) c); [| | |].
  - destruct Hs as [Hs _]. rewrite utf16_roundtrip by done. cbv [mbind result_bind].
    by replace (pos + 2 + length (encode_utf16 s) * 2)%nat with (pos + length (string16 s))%nat by lia.
  - rewrite Hd. unfold string16. by rewrite <- !app_assoc.
  - rewrite length_app, length_to_be_bytes. lia.
  - rewrite length_encode_utf16be. lia.
Qed.

Lemma parse_handshake_1_3 v user host port :
  0 < v < 256 → fits user → fits host → in_s 32 port →
  parse_legacy_handshake ([v] ++ string16 user ++ string16 host ++ to_be_bytes 4 port) =
    Ok (Build_LegacyHandshakeRequest v user host port).
Proof.
  intros Hv Hu Hh Hp. set (data := [v] ++ string16 user ++ string16 host ++ to_be_bytes 4 port).
  unfold parse_legacy_handshake. change data with (v :: string16 user ++ string16 host ++ to_be_bytes 4 port) at 1.
  destruct v as [|v|v]; [lia| |lia].
  rewrite (read_string16_middle data 1 [Z.pos v] user (string16 host ++ to_be_bytes 4 port)) by done.
  cbv [mbind result_bind]. cbn [fst snd].
  rewrite (read_string16_middle data (1 + length (string16 user)) ([Z.pos v] ++ string16 user) host (to_be_bytes 4 port))
    by (done || by rewrite length_app). cbn [fst snd].
  assert (Hl : length data = (1 + length (string16 user) + length (string16 host) + 4)%nat)
    by (unfold data; rewrite !length_app, length_to_be_bytes; cbn [length]; lia).
  rewrite decide_False by lia.
  rewrite (i32_at_middle data _ ([Z.pos v] ++ string16 user ++ string16 host) port []) by
    (done || (unfold data; by rewrite app_nil_r, <- !app_assoc) || (rewrite !length_app; cbn [length]; lia)).
  done.
Qed.

Lemma split_once_middle c a b : c ∉ a → split_once c (a ++ [c] ++ b) = Some (a, b).
Proof.
  induction a as [|x a IH]; intros Ha; cbn [app split_once]; [by rewrite decide_True|].
  apply not_elem_of_cons in Ha as [Hx Ha]. rewrite decide_False by done. change (c :: b) with ([c] ++ b). by rewrite IH.
Qed.

Lemma parse_handshake_pre_1_3 user host port :
  59 ∉ user → 58 ∉ port → is_string (user ++ [59] ++ host ++ [58] ++ port) →
  zlen (encode_utf16 (user ++ [59] ++ host ++ [58] ++ port)) ≤ 255 →
  parse_legacy_handshake ([0; zlen (encode_utf16 (user ++ [59] ++ host ++ [58] ++ port))] ++
      encode_utf16be (user ++ [59] ++ host ++ [58] ++ port)) =
    Ok (Build_LegacyHandshakeRequest 0 user host (default 25565 (parse_i32 port))).
Proof.
  set (s := user ++ [59] ++ host ++ [58] ++ port). intros Hu Hp Hs Hlen.
  set (n := zlen (encode_utf16 s)). set (data := [0; n] ++ encode_utf16be s).
  assert (Hn : 0 ≤ n ≤ 255) by (unfold n; pose proof (zlen_nonneg (encode_utf16 s)); lia).
  unfold parse_legacy_handshake. change data with (0 :: n :: encode_utf16be s) at 1. cbv match beta.
  assert (Hbe : from_be_bytes [0; n] = n) by (unfold from_be_bytes; cbn; lia). rewrite Hbe.
  assert (Hl : length data = (2 + length (encode_utf16be s))%nat) by done. rewrite length_encode_utf16be in Hl.
  unfold n, zlen. rewrite Nat2Z.id, decide_False by lia.
  rewrite (slice_at data 2 _ [0; n] (encode_utf16be s) []) by
    (done || (rewrite length_encode_utf16be; lia) || by rewrite app_nil_r).
  rewrite utf16_roundtrip by done. cbv [mbind result_bind]. unfold parse_pre_1_3_connection_string, s.
  rewrite split_once_middle by done. by rewrite rsplit_once_middle.
Qed.

Lemma to_nat_zlen {A} (l : list A) : Z.to_nat (zlen l) = length l.
Proof. unfold zlen. apply Nat2Z.id. Qed.

Lemma parse_v1_6 channel v host port :
  fits channel → 0 ≤ v < 256 → fits host → in_s 32 port →
  parse_legacy_ping (drop 1 (v1_6_ping channel v host port)) =
    Ok (Build_LegacyPingRequest PingV1_6 (Some host) (Some port) (Some v)).
Proof.
  intros Hc Hv Hh Hp. unfold v1_6_ping. set (tail := [v] ++ string16 host ++ to_be_bytes 4 port).
  set (data := string16 channel ++ to_be_bytes 2 (zlen tail) ++ tail).
  change (parse_legacy_ping (drop 1 ([0xFE; 0x01; 0xFA] ++ data))) with (parse_v1_6_ping data). unfold parse_v1_6_ping.
  pose proof (length_string16 channel) as Hlc. pose proof (length_string16 host) as Hlh.
  assert (Hl : length data = (length (string16 channel) + 2 + 1 + length (string16 host) + 4)%nat).
  { unfold data, tail. rewrite !length_app, !length_to_be_bytes. cbn [length]. lia. }
  rewrite decide_False by lia.
  rewrite (u16_at_middle data 0 [] (zlen (encode_utf16 channel)) (encode_utf16be channel ++ to_be_bytes 2 (zlen tail) ++ tail))
    by (done || by apply fits_units || by unfold data, string16; rewrite <- !app_assoc).
  rewrite to_nat_zlen.
  set (pos := (2 + length (encode_utf16 channel) * 2 + 2)%nat). set (pre := string16 channel ++ to_be_bytes 2 (zlen tail)).
  assert (Hpos : pos = length pre) by (unfold pos, pre; rewrite length_app, length_to_be_bytes; lia).
  assert (Hdata : data = pre ++ tail) by (unfold data, pre; by rewrite <- app_assoc).
  assert (Hlp : pos = (length (string16 channel) + 2)%nat) by (unfold pos; lia).
  do 3 (rewrite decide_False by lia).
  assert (data !! pos = Some v) as -> by (rewrite Hdata, Hpos; by apply list_lookup_middle). cbn [default from_option id].
  rewrite (u16_at_middle data (S pos) (pre ++ [v]) (zlen (encode_utf16 host)) (encode_utf16be host ++ to_be_bytes 4 port)); [| | |].
  - rewrite to_nat_zlen. rewrite decide_False by lia.
    rewrite (slice_at data _ _ (pre ++ [v] ++ to_be_bytes 2 (zlen (encode_utf16 host))) (encode_utf16be host) (to_be_bytes 4 port)); [| | |].
    + destruct Hh as [Hs _]. rewrite utf16_roundtrip by done. cbv [mbind result_bind]. rewrite decide_False by lia.
      rewrite (i32_at_middle data _ (pre ++ [v] ++ string16 host) port []); [done| | |done].
      * rewrite Hdata. unfold tail. by rewrite app_nil_r, <- !app_assoc.
      * rewrite !length_app. cbn [length]. lia.
    + rewrite Hdata. unfold tail, string16. by rewrite <- !app_assoc.
    + rewrite !length_app, length_to_be_bytes. cbn [length]. lia.
    + rewrite length_encode_utf16be. lia.
  - rewrite Hdata. unfold tail, string16. by rewrite <- !app_assoc.
  - rewrite length_app. cbn [length]. lia.
  - by apply fits_units.
Qed.

(** ** Reading *)

(** Reads the next bytes off the stream. *)
Ltac rm_step :=
  match goal with
  | Hne : nonempty ?st, Hcat : concat ?st = ?a ++ ?rest |- context [(rm_read ?fin ?n ≫= ?k) ?st] =>
    let st' := fresh "st" in let Hr := fresh "Hr" in let Hne' := fresh "Hne" in let Hcat' := fresh "Hcat" in
    destruct (rm_read_step fin n a rest st k Hne Hcat) as (st'&Hr&Hne'&Hcat');
      [|rewrite Hr; clear Hne Hcat Hr]
  end.

Lemma read_string_into fin data s rest stream :
  fits s → nonempty stream → concat stream = string16 s ++ rest →
  ∃ stream', read_legacy_string_into fin data stream = (Ok (data ++ string16 s), stream') ∧ nonempty stream' ∧
    concat stream' = rest.
Proof.
  intros Hs Hne Hcat. unfold read_legacy_string_into. unfold string16 in Hcat. rewrite <- app_assoc in Hcat.
  rm_step; [by rewrite length_to_be_bytes|]. rewrite from_be_u16 by by apply fits_units.
  rm_step; [rewrite length_encode_utf16be, to_nat_zlen; lia|]. eexists. by split.
Qed.

Lemma read_login fin raw host rest stream :
  login_bytes raw host → nonempty stream → concat stream = drop 1 raw ++ rest →
  ∃ stream', read_legacy_handshake_data fin stream = (Ok raw, stream') ∧ concat stream' = rest.
Proof.
  intros [v user host' port Hv Hu Hh Hp|user host' port Hu Hp Hs Hlen] Hne Hcat; unfold read_legacy_handshake_data.
  - change (drop 1 ([2; v] ++ string16 user ++ string16 host' ++ to_be_bytes 4 port) ++ rest) with
      ([v] ++ (string16 user ++ string16 host' ++ to_be_bytes 4 port) ++ rest) in Hcat.
    rm_step; [done|]. rewrite decide_False by (intros [= ->]; lia). rewrite <- !app_assoc in Hcat0.
    destruct (read_string_into fin ([2] ++ [v]) user _ _ Hu Hne0 Hcat0) as (s1&Hr1&Hne1&Hcat1).
    destruct (read_string_into fin (([2] ++ [v]) ++ string16 user) host' _ _ Hh Hne1 Hcat1) as (s2&Hr2&Hne2&Hcat2).
    cbv [mbind rm_bind]. rewrite Hr1, Hr2.
    destruct (read_exact_finds fin _ _ _ Hne2 Hcat2) as (s3&Hr3&_&Hcat3). rewrite length_to_be_bytes in Hr3.
    unfold rm_read. rewrite Hr3. exists s3. split; [|done]. by rewrite <- !app_assoc.
  - set (s := user ++ [59] ++ host' ++ [58] ++ port) in *.
    change (drop 1 ([2; 0; zlen (encode_utf16 s)] ++ encode_utf16be s) ++ rest) with
      ([0] ++ [zlen (encode_utf16 s)] ++ encode_utf16be s ++ rest) in Hcat.
    rm_step; [done|]. rewrite decide_True by done. rm_step; [done|].
    assert (Hbe : from_be_bytes ([0] ++ [zlen (encode_utf16 s)]) = zlen (encode_utf16 s)) by (unfold from_be_bytes; cbn; lia).
    rewrite Hbe. rm_step; [rewrite length_encode_utf16be, to_nat_zlen; lia|]. eexists. split; [|done].
    by rewrite <- !app_assoc.
Qed.

Definition ping_fits (channel host : rstring) (v port : Z) : Prop :=
  fits channel ∧ fits host ∧ 2 * zlen (encode_utf16 host) + 7 ≤ 65535 ∧ 0 ≤ v < 256 ∧ in_s 32 port.

Lemma read_ping fin channel v host port rest stream :
  ping_fits channel host v port → nonempty stream → concat stream = drop 1 (v1_6_ping channel v host port) ++ rest →
  (read_legacy_ping_data fin [0xFE] stream).1 = drop 1 (v1_6_ping channel v host port).
Proof.
  intros (Hc&Hh&Hfit&Hv&Hp) Hne Hcat. unfold v1_6_ping in *. set (tail := [v] ++ string16 host ++ to_be_bytes 4 port) in *.
  set (data := string16 channel ++ to_be_bytes 2 (zlen tail) ++ tail) in *.
  change (drop 1 ([254; 1; 250] ++ data)) with ([1] ++ [250] ++ data) in *. rewrite <- !app_assoc in Hcat.
  unfold read_legacy_ping_data.
  destruct (read_exact_finds fin [1] _ _ Hne Hcat) as (s1&Hr1&Hne1&Hcat1). unfold rm_read at 1.
  change (length [1]) with 1%nat in Hr1. rewrite Hr1, decide_True by done.
  assert (Ht : in_u 16 (zlen tail)).
  { unfold tail, in_u. rewrite !zlen_app. unfold zlen. rewrite length_string16, length_to_be_bytes. cbn [length].
    unfold zlen in Hfit. lia. }
  assert (∃ s', read_remaining_v1_6_data fin s1 = (Ok ([250] ++ data), s')) as [s' ->]; [|done].
  unfold read_remaining_v1_6_data. unfold data, string16 in Hcat1. rewrite <- !app_assoc in Hcat1.
  clear Hne Hcat Hr1. rm_step; [done|]. rewrite decide_False by (intros Hn; by apply Hn).
  rm_step; [by rewrite length_to_be_bytes|]. rewrite from_be_u16 by by apply fits_units.
  rm_step; [rewrite length_encode_utf16be, to_nat_zlen; lia|].
  rm_step; [by rewrite length_to_be_bytes|]. rewrite from_be_u16 by done.
  rm_step; [by rewrite to_nat_zlen|]. eexists. cbv [mret rm_ret]. unfold data, string16. by rewrite <- !app_assoc.
Qed.

Lemma read_kick fin text kick rest stream :
  build_kick_packet text = Ok kick → zlen (encode_utf16 text) ≤ 32767 → nonempty stream → concat stream = kick ++ rest →
  ∃ stream', read_legacy_kick_response fin stream = (Ok (Ok kick), stream').
Proof.
  unfold build_kick_packet. assert (Hn : zlen (encode_utf16be text) / 2 = zlen (encode_utf16 text)).
  { unfold zlen. rewrite length_encode_utf16be, Nat2Z.inj_mul, Z.mul_comm. by rewrite Z.div_mul. }
  rewrite Hn. pose proof (zlen_nonneg (encode_utf16 text)).
  case_decide; [done|]. intros <-%Ok_inj Hle Hne Hcat. rewrite <- !app_assoc in Hcat. unfold read_legacy_kick_response.
  rm_step; [done|]. rewrite decide_False by (intros Hc; by apply Hc).
  rm_step; [by rewrite length_to_be_bytes|]. rewrite from_be_u16 by (unfold in_u; lia).
  rewrite decide_False by lia. rm_step; [rewrite length_encode_utf16be, to_nat_zlen; lia|]. by eexists.
Qed.

(** ** What the handler does *)

Section handled.
Context `{IPN : IpNets, LC : Lowercase, WM : WildMatch, PP : Ppp}.
Context {CM EM : Type} `{DMC : !DashMap ProviderId RouterEntry CM, DME : !DashMap rstring ProviderId EM}.
Context {SM IM MM : Type} `{DMS : !DashMap Z nat SM, DMI : !DashMap Z Z IM, DMM : !DashMap rstring ServerEntry MM}.
Context (net : rstring → Z → attempt) (default_timeout : Z).
Context (h : LegacyHandler (CM := CM) (EM := EM) (SM := SM) (IM := IM) (MM := MM)).

(** The connection to the server of a host. *)
Definition reaches (host : rstring) (proxied : ServerConfig → bool) (info : ConnectionInfo) (c : ServerConfig)
    (backend : BackendSocket) : Prop :=
  (∃ id, resolve (lh_domain_router h) (to_lowercase host) = Some (id, c)) ∧
  connect net default_timeout (effective_id c) (sc_addresses c) (to_connect <$> sc_timeouts c) (proxied c) info = Ok backend ∧
  bs_broken backend = None.

(** A client from before 1.7 that logs in, in the format of 1.3 to 1.6 or an earlier
    one and cut into any chunks, is handed to the backend of the host it names: the
    backend receives the handshake byte for byte and everything after it stays in the
    stream. *)
Theorem legacy_login_handed_over (ctx : ConnectionContext) (info : ConnectionInfo) (raw rest : bytes) (host : rstring)
    (c : ServerConfig) (backend : BackendSocket) :
  login_bytes raw host → ctx_buffered ctx = [0x02] → nonempty (ctx_stream ctx) →
  concat (ctx_stream ctx) = drop 1 raw ++ rest → reaches host sc_send_proxy_protocol info c backend →
  ∃ stream, legacy_handle net default_timeout h ctx info =
      Ok (HandedOver (effective_id c)
            (Build_BackendSocket (bs_in backend) (bs_written backend ++ raw) None) stream) ∧
    concat stream = rest.
Proof.
  intros Hraw Hbuf Hne Hcat ((id&Hres)&Hcon&Hbr). unfold legacy_handle. rewrite Hbuf. cbn [head default from_option Datatypes.id].
  rewrite decide_False, decide_True by done. unfold handle_login.
  destruct (read_login (ctx_end ctx) raw host rest (ctx_stream ctx) Hraw Hne Hcat) as (stream&Hr&Hrest). rewrite Hr.
  assert (∃ v user port, parse_legacy_handshake (drop 1 raw) = Ok (Build_LegacyHandshakeRequest v user host port)) as
    (v&user&port&Hp).
  { destruct Hraw as [v user host' port Hv Hu Hh Hp|user host' port Hu Hp Hs Hlen]; eexists _, _, _;
      [by apply parse_handshake_1_3|by apply parse_handshake_pre_1_3]. }
  rewrite Hp. cbn [lg_hostname]. rewrite Hres, Hcon. unfold write_raw. rewrite Hbr. by exists stream.
Qed.

Theorem legacy_ping_relayed (ctx : ConnectionContext) (info : ConnectionInfo) (channel host text : rstring) (v port : Z)
    (kick rest brest : bytes) (c : ServerConfig) (backend : BackendSocket) :
  ping_fits channel host v port → ctx_buffered ctx = [0xFE] → nonempty (ctx_stream ctx) →
  concat (ctx_stream ctx) = drop 1 (v1_6_ping channel v host port) ++ rest →
  reaches host (λ _, false) info c backend →
  build_kick_packet text = Ok kick → zlen (encode_utf16 text) ≤ 32767 →
  nonempty (bs_in backend) → concat (bs_in backend) = kick ++ brest →
  legacy_handle net default_timeout h ctx info =
    Ok (Answered kick (Some (Build_BackendSocket (bs_in backend)
          (bs_written backend ++ v1_6_ping channel v host port) None))).
Proof.
  intros Hfit Hbuf Hne Hcat ((id&Hres)&Hcon&Hbr) Hk Hle Hbne Hbcat. unfold legacy_handle. rewrite Hbuf.
  cbn [head default from_option Datatypes.id]. rewrite decide_True by done. unfold handle_ping.
  rewrite (read_ping _ channel v host port rest) by done. destruct Hfit as (Hc&Hh&_&Hv&Hp).
  rewrite parse_v1_6 by done. cbn [lp_hostname]. rewrite Hres. unfold forward_ping_to_backend. rewrite Hcon.
  unfold write_raw. rewrite Hbr. cbn [bs_in].
  destruct (read_kick StreamSilent text kick brest (bs_in backend) Hk Hle Hbne Hbcat) as (s'&->). done.
Qed.
End handled.

(** ** Samples *)

Section sample.
#[local] Existing Instances range_nets ascii_lowercase glob_match spec_ppp.

Definition sample_handler : LegacyHandler (CM := assoc_map ProviderId RouterEntry) (EM := assoc_map rstring ProviderId)
    (SM := assoc_map Z nat) (IM := assoc_map Z Z) (MM := assoc_map rstring ServerEntry) :=
  {| lh_domain_router := sample_router; lh_default_motd := None; lh_server_manager := None;
     lh_connections := ConnectionRegistry_new |}.

Definition legacy_ctx (buffered : bytes) (stream : list bytes) : ConnectionContext :=
  Build_ConnectionContext stream StreamSilent 1 buffered None None None true.
Definition legacy_info : ConnectionInfo :=
  Build_ConnectionInfo (Build_SocketAddr (V4 1) 40000) None None (Build_SocketAddr (V4 1) 25565).

(** A login for the survival server, and what follows it. *)
Definition sample_login_13 : bytes :=
  [0x02; 73] ++ string16 (str "Notch") ++ string16 (str "Play.Example.com") ++ to_be_bytes 4 25565.
Definition sample_backend (chunks : list bytes) : BackendSocket := Build_BackendSocket chunks [] None.
Definition sample_connection (chunks : list bytes) : rstring → Z → attempt := λ _ _, Connected (sample_backend chunks).
Definition survival_config : ServerConfig := simple_config "survival" ["Play.Example.com"; "*.survival.example.com"].

Lemma sample_login_bytes : login_bytes sample_login_13 (str "Play.Example.com").
Proof.
  apply (login_1_3 73 (str "Notch") (str "Play.Example.com") 25565); [lia| | |unfold in_s; lia];
    (split; [apply (bool_decide_unpack _); by vm_compute|by vm_compute]).
Qed.

Lemma legacy_login_handed_over_witness :
  ∃ stream, legacy_handle (sample_connection []) 5000 sample_handler
      (legacy_ctx [0x02] [take 3 (drop 1 sample_login_13); drop 4 sample_login_13 ++ [1; 2]]) legacy_info =
      Ok (HandedOver (str "survival") (Build_BackendSocket [] sample_login_13 None) stream) ∧
    concat stream = [1; 2].
Proof.
  apply (legacy_login_handed_over (sample_connection []) 5000 sample_handler
    (legacy_ctx [0x02] [take 3 (drop 1 sample_login_13); drop 4 sample_login_13 ++ [1; 2]]) legacy_info
    sample_login_13 [1; 2] (str "Play.Example.com") survival_config (sample_backend [])).
  - exact sample_login_bytes.
  - done.
  - by repeat constructor.
  - by vm_compute.
  - split; [eexists; by vm_compute|]. by split; vm_compute.
Defined.

Definition sample_ping : bytes := v1_6_ping (str "MC|PingHost") 78 (str "play.example.com") 25565.
Definition sample_kick : bytes := or_empty (build_kick_packet (str "Hello")).

Lemma legacy_ping_relayed_witness :
  legacy_handle (sample_connection [take 4 sample_kick; drop 4 sample_kick]) 5000 sample_handler
    (legacy_ctx [0xFE] [take 2 (drop 1 sample_ping); drop 3 sample_ping]) legacy_info =
  Ok (Answered sample_kick
        (Some (Build_BackendSocket [take 4 sample_kick; drop 4 sample_kick] ([] ++ sample_ping) None))).
Proof.
  apply (legacy_ping_relayed (sample_connection [take 4 sample_kick; drop 4 sample_kick]) 5000 sample_handler
    (legacy_ctx [0xFE] [take 2 (drop 1 sample_ping); drop 3 sample_ping]) legacy_info
    (str "MC|PingHost") (str "play.example.com") (str "Hello") 78 25565 sample_kick [] []
    survival_config (sample_backend [take 4 sample_kick; drop 4 sample_kick])).
  - unfold ping_fits, fits, is_string, in_s. split_and!; apply (bool_decide_unpack _); by vm_compute.
  - done.
  - by repeat constructor.
  - by vm_compute.
  - split; [eexists; by vm_compute|]. by split; vm_compute.
  - by vm_compute.
  - by vm_compute.
  - by repeat constructor.
  - by vm_compute.
Defined.

(** Behind a proxy that sends the proxy protocol the whole handshake may already be in the
    buffer; the reader takes only its first byte from there and waits for the rest. *)
Theorem buffered_login_lost :
  legacy_handle (sample_connection []) 5000 sample_handler (legacy_ctx sample_login_13 []) legacy_info =
  Err (CTimeout "legacy handshake read timed out").
Proof. by vm_compute. Qed.
End sample.
