(* ===== verification/Passthrough.v ===== *)
(** * Passthrough: connections the proxy does not read

    Models [handler/passthrough.rs] and the disconnect packet of [handler/helpers.rs].  The
    handler sends the packets that were read from the client to the backend, as they were
    or with a new address in the handshake, and then copies bytes both ways with [Forward].

    The listeners of the event are those the bus holds for it; [random_uuid] is what
    [Uuid::new_v4] gives, and the schedules say what the sockets do while bytes are
    copied. *)
From S2P Require Import Prelude Wire Utf8 VarInt Codec Frame Version Packet LoginPackets PlayPackets Nbt Json Component.
From S2P Require Import Registry DefaultRegistry Bridge Config Router Middleware ServerManager Forwarding EventBus Transport.
From S2P Require Import Backend Filters ProxyCommands Session LimboWorld Switch Limbo Auth Players Legacy Forward.

Section handler.
Context `{IPN : IpNets, ZL : Zlib, UT : UuidText, PP : Ppp}.
Context {SM IM : Type} `{DMS : !DashMap Z nat SM, DMI : !DashMap Z Z IM}.
Context (registry : PacketRegistry) (net : rstring → Z → attempt) (default_timeout : Z).
Context (properties_json : list Property → rstring) (ip_to_string : SockIp → rstring).

(** ** Kicking *)

(** The bytes of [send_login_disconnect]. *)
Definition login_disconnect (reason : rstring) (version : ProtocolVersion) : result CoreError bytes :=
  let packet := existT KCLoginDisconnect (mk_CLoginDisconnect (text_json reason)) in
  let packet_id := default 0 (get_packet_id registry KCLoginDisconnect Login Clientbound version) in
  match encode_payload packet version with
  | Err e => Err (CProtocol e)
  | Ok payload => match frame_packet None packet_id payload with Err e => Err (CProtocol e) | Ok bs => Ok bs end
  end.
(** What the client gets: an error is ignored. *)
Definition kicked (reason : rstring) (version : ProtocolVersion) : bytes :=
  match login_disconnect reason version with Ok bs => bs | Err _ => [] end.

(** ** The first packets *)

Fixpoint write_raws (raws : list bytes) (s : BackendSocket) : result CoreError BackendSocket :=
  match raws with
  | [] => Ok s
  | raw :: raws => s ← write_raw raw s; write_raws raws s
  end.

Definition forward_with_rewritten_handshake (h : HandshakeData) (new_domain : rstring) (s : BackendSocket)
    : result CoreError BackendSocket :=
  encoded ← encode_handshake_with_domain h new_domain;
  s ← write_raw encoded s;
  write_raws (drop 1 (hd_raw_packets h)) s.

Definition forward_with_forwarding (h : HandshakeData) (c : ServerConfig) (fwd_data : ForwardingData)
    (handler : ForwardingHandler) (s : BackendSocket) : result CoreError BackendSocket :=
  let modified := apply_handshake properties_json handler (build_handshake_for_backend h c) fwd_data in
  match SHandshake_encode modified (hd_protocol_version h) with
  | Err e => Err (CProtocol e)
  | Ok payload =>
    match frame_packet None 0 payload with
    | Err e => Err (CProtocol e)
    | Ok bs => s ← write_raw bs s; write_raws (drop 1 (hd_raw_packets h)) s
    end
  end.

Definition forward_initial_packets (forwarding_mode : Forwarding.ForwardingMode) (h : HandshakeData) (c : ServerConfig)
    (fwd_data : ForwardingData) (s : BackendSocket) : result CoreError BackendSocket :=
  let handler := resolve_forwarding_handler forwarding_mode c in
  match handler with
  | FHVelocity => forward_with_forwarding h c fwd_data FHLegacy s
  | _ =>
    if modifies_handshake handler then forward_with_forwarding h c fwd_data handler s
    else
      match sc_domain_rewrite c with
      | RewriteNone => write_raws (hd_raw_packets h) s
      | RewriteExplicit new_domain => forward_with_rewritten_handshake h new_domain s
      | RewriteFromBackend =>
        match sc_addresses c with
        | addr :: _ => forward_with_rewritten_handshake h (addr_host addr) s
        | [] => write_raws (hd_raw_packets h) s
        end
      end
  end.

(** ** The handler *)

(** What the copying gives: the bytes each end has got, and the result when it is over. *)
Record Relayed := mk_Relayed { rl_backend_got : bytes; rl_client_got : bytes; rl_result : option ForwardResult }.
Definition run_forwarder (f : Forwarder) (copies : list forward_event) (splices : list splicing_event) (client backend : bytes)
    : Relayed :=
  match f with
  | CopyForwarder =>
    let w := copy_forward copies client backend in
    mk_Relayed (fl_dst (fw_c2b w)) (fl_dst (fw_b2c w)) (fw_result w)
  | SpliceForwarder =>
    let w := splice_forward splices client backend in
    mk_Relayed (spl_dst (sg_c2b w)) (spl_dst (sg_b2c w)) (sg_result w)
  end.

(** How the handler ends: a packet for the client, or a session, with the backend after the
    first packets, what was copied, and the registry while the session runs and when the
    copying is over. *)
Inductive passthrough_outcome :=
| PassKicked (sent : bytes)
| PassSession (backend : BackendSocket) (relayed : Relayed) (during after : Players (SM := SM) (IM := IM)).

Context (listeners : list (HandlerEntry ServerPreConnectEvent)) (forwarding_mode : Forwarding.ForwardingMode).
Context (random_uuid player_id : Z) (copies : list forward_event) (splices : list splicing_event).

Definition passthrough_profile (login_data : option LoginData) : GameProfile :=
  {| gp_uuid := default random_uuid (login_data ≫= ld_player_uuid);
     gp_username := from_option ld_username [] login_data;
     gp_properties := [] |}.

Definition passthrough_handle (ctx : ConnectionContext) (info : ConnectionInfo) (players : Players (SM := SM) (IM := IM))
    : result CoreError passthrough_outcome :=
  match ext_routing ctx, ext_handshake ctx with
  | None, _ => Err (MissingExtension "RoutingData")
  | _, None => Err (MissingExtension "HandshakeData")
  | Some routing, Some handshake =>
    let c := rd_server_config routing in
    let id := rd_config_id routing in
    let version := hd_protocol_version handshake in
    let profile := passthrough_profile (ext_login ctx) in
    match pc_result (dispatch listeners (ServerPreConnectEvent_new player_id profile id)) with
    | PreDenied reason => Ok (PassKicked (kicked (to_json reason) version))
    | _ =>
      match connect net default_timeout id (sc_addresses c) (to_connect <$> sc_timeouts c) (sc_send_proxy_protocol c) info with
      | Err _ => Ok (PassKicked (kicked (effective_disconnect_message c) version))
      | Ok backend =>
        let fwd_data := Build_ForwardingData (ip_to_string (sa_ip (source_of info))) (gp_uuid profile)
          (gp_username profile) [] version None in
        backend ← forward_initial_packets forwarding_mode handshake c fwd_data backend;
        let session := PlayerSession_new player_id profile version (ci_peer_addr info) (Some id) false false in
        let during := open_session session players in
        let relayed := run_forwarder (select_forwarder (sc_proxy_mode c)) copies splices
          (concat (ctx_stream ctx)) (concat (bs_in backend)) in
        Ok (PassSession backend relayed during (unregister_session (gp_uuid profile) during).2)
      end
    end
  end.
End handler.

(** ** What the backend gets *)

Lemma write_raws_all raws s s' :
  write_raws raws s = Ok s' →
  bs_in s' = bs_in s ∧ bs_written s' = bs_written s ++ concat raws ∧ bs_broken s' = bs_broken s.
Proof.
  revert s. induction raws as [|raw raws IH]; intros s; cbn [write_raws concat].
  { intros <-%Ok_inj. by rewrite app_nil_r. }
  unfold write_raw. destruct (bs_broken s) as [e|] eqn:Hb; [done|]. intros Hw. apply IH in Hw as (Hi&Hwr&Hbr).
  cbn in *. rewrite Hi, Hwr, Hbr, <- app_assoc. done.
Qed.

(** The copying gives each end a part of what the other sent, from the start of it. *)
Lemma run_forwarder_prefix f copies splices client backend :
  let r := run_forwarder f copies splices client backend in
  (∃ rest, rl_backend_got r ++ rest = client ∧
     (f = CopyForwarder → (fr_reason <$> rl_result r) = Some ClientClosed → rest = [])) ∧
  (∃ rest, rl_client_got r ++ rest = backend).
Proof.
  destruct f; cbn.
  - destruct (copy_forwards copies client backend) as [Hc Hb _ Hr]. split.
    + exists (fl_src (fw_c2b (copy_forward copies client backend))). split; [apply Hc|]. intros _ Hres.
      destruct (fw_result _) as [r|] eqn:He; [|done]. injection Hres as Hreason. specialize (Hr r eq_refl).
      rewrite Hreason in Hr. destruct Hr as [Hend _]. by apply (fl_ok _ _ Hc) in Hend as [? _].
    + eexists. apply Hb.
  - destruct (splice_forwards splices client backend) as [Hc%spliced_all Hb%spliced_all]. split.
    + eexists. split; [exact Hc|done].
    + eexists. exact Hb.
Qed.

Section initial.
Context `{IPN : IpNets, ZL : Zlib, UT : UuidText}.

Lemma write_raw_in data s s' : write_raw data s = Ok s' → bs_in s' = bs_in s.
Proof. unfold write_raw. destruct (bs_broken s); [done|]. by intros <-%Ok_inj. Qed.

Lemma forward_initial_in properties_json mode h c data s s' :
  forward_initial_packets properties_json mode h c data s = Ok s' → bs_in s' = bs_in s.
Proof.
  assert (Hraws : ∀ raws s s', write_raws raws s = Ok s' → bs_in s' = bs_in s) by (intros; by eapply write_raws_all).
  assert (Hrw : ∀ d, forward_with_rewritten_handshake h d s = Ok s' → bs_in s' = bs_in s).
  { intros d. unfold forward_with_rewritten_handshake. intros (enc&_&(s1&Hw&Hr)%result_bind_Ok)%result_bind_Ok.
    by rewrite (Hraws _ _ _ Hr), (write_raw_in _ _ _ Hw). }
  assert (Hfw : ∀ f, forward_with_forwarding properties_json h c data f s = Ok s' → bs_in s' = bs_in s).
  { intros f. unfold forward_with_forwarding. destruct (SHandshake_encode _ _); [|done]. destruct (frame_packet _ _ _); [|done].
    intros (s1&Hw&Hr)%result_bind_Ok. by rewrite (Hraws _ _ _ Hr), (write_raw_in _ _ _ Hw). }
  unfold forward_initial_packets. destruct (resolve_forwarding_handler mode c); cbn [modifies_handshake]; try apply Hfw.
  destruct (sc_domain_rewrite c); [apply Hraws|apply Hrw|]. destruct (sc_addresses c); [apply Hraws|apply Hrw].
Qed.
End initial.
