(* ===== verification/Server.v ===== *)
(** * Server: from a connection to the handler that serves it

    Models [handle_connection] and [send_kick] of [server.rs]: the common pipeline, the
    choice by intent, the login pipeline and the choice by proxy mode.  The result is the
    [action] the server takes, with the context the handler gets; the handlers are the
    definitions of [Legacy], [StatusHandler], [Intercepted] and [Passthrough].

    The server manager's middleware is the one of [ServerManager]; [ensure] is what waiting
    for a server gives. *)
From S2P Require Import Prelude Wire Utf8 VarInt Codec Frame Version Packet LoginPackets PlayPackets Nbt Json Component.
From S2P Require Import Registry DefaultRegistry Bridge Config Router Ban Middleware ServerManager Forwarding EventBus.
From S2P Require Import Transport Address Backend Filters ProxyCommands Proxy Session LimboWorld Switch Limbo Auth Players Legacy Forward Passthrough.

Section server.
Context `{IPN : IpNets, LC : Lowercase, WM : WildMatch, UT : UuidText, ZL : Zlib, GV : !Governor}.
Context {CM EM IM UM VM MM : Type}.
Context `{DMC : !DashMap ProviderId RouterEntry CM, DME : !DashMap rstring ProviderId EM}.
Context `{DMI : !DashMap IpAddr BanEntry IM, DMU : !DashMap rstring BanEntry UM, DMV : !DashMap Z BanEntry VM}.
Context `{DMM : !DashMap rstring ServerEntry MM}.

Inductive action :=
| ToLegacy (ctx : ConnectionContext)
| ToStatus (ctx : ConnectionContext)
| ToOffline (ctx : ConnectionContext)
| ToClientOnly (ctx : ConnectionContext)
| ToPassthrough (ctx : ConnectionContext)
| Kicks (sent : bytes)
| ClosesSilently.

(** What the server was built with. *)
Record ProxyServer := {
  srv_registry : PacketRegistry;
  srv_ip_filter : option IpFilterConfig;
  srv_unknown_domain : UnknownDomainBehavior;
  srv_manager : option (ServerManagerService (SM := MM)) }.
Context (srv : ProxyServer) (ensure : rstring → result ServerManagerError ()).
Context (now now' : Z) (io : persist_io).

(** Telemetry leaves the connection as it is. *)
Definition full_login_pipeline : list (middleware (CM := CM) (EM := EM) (IM := IM) (UM := UM) (VM := VM)) :=
  login_pipeline now' ++
  match srv_manager srv with
  | Some sm => [λ sh ctx, (Ok (server_manager sm ensure ctx), sh, ctx)]
  | None => []
  end.

Definition send_kick (ctx : ConnectionContext) (reason : rstring) : bytes :=
  kicked (srv_registry srv) reason (from_option hd_protocol_version CURRENT_MC_PROTOCOL (ext_handshake ctx)).

Definition is_status (ctx : ConnectionContext) : bool :=
  match ext_handshake ctx with
  | Some h => match hd_intent h with IntentStatus => true | _ => false end
  | None => false
  end.

Definition handle_login_intent (sh : shared (CM := CM) (EM := EM) (IM := IM) (UM := UM) (VM := VM)) (ctx : ConnectionContext)
    : result CoreError action * shared (CM := CM) (EM := EM) (IM := IM) (UM := UM) (VM := VM) :=
  match execute full_login_pipeline sh ctx with
  | (Err e, sh, _) => (Err e, sh)
  | (Ok ShortCircuit, sh, _) => (Ok ClosesSilently, sh)
  | (Ok (Reject msg), sh, ctx) => (Ok (Kicks (send_kick ctx msg)), sh)
  | (Ok Continue, sh, ctx) =>
    match ext_routing ctx with
    | None => (Err (MissingExtension "RoutingData"), sh)
    | Some routing =>
      (Ok match sc_proxy_mode (rd_server_config routing) with
          | Config.Offline => ToOffline ctx
          | Config.ClientOnly => ToClientOnly ctx
          | _ => ToPassthrough ctx
          end, sh)
    end
  end.

Definition handle_connection (sh : shared (CM := CM) (EM := EM) (IM := IM) (UM := UM) (VM := VM)) (ctx : ConnectionContext)
    : result CoreError action * shared (CM := CM) (EM := EM) (IM := IM) (UM := UM) (VM := VM) :=
  match execute (common_pipeline now io (srv_ip_filter srv)) sh ctx with
  | (Err e, sh, _) => (Err e, sh)
  | (Ok ShortCircuit, sh, ctx) => (Ok (if ext_legacy ctx then ToLegacy ctx else ClosesSilently), sh)
  | (Ok (Reject msg), sh, ctx) =>
    if decide (srv_unknown_domain srv = DropUnknown) then (Ok ClosesSilently, sh)
    else if is_status ctx then (Ok ClosesSilently, sh)
    else (Ok (Kicks (send_kick ctx msg)), sh)
  | (Ok Continue, sh, ctx) =>
    match ext_handshake ctx with
    | None => (Err (MissingExtension "HandshakeData"), sh)
    | Some h =>
      match hd_intent h with
      | IntentStatus => (Ok (ToStatus ctx), sh)
      | IntentLogin => handle_login_intent sh ctx
      | IntentTransfer => (Ok ClosesSilently, sh)
      end
    end
  end.

(** ** Which handler serves a connection *)

Lemma login_mode sh ctx a sh' :
  handle_login_intent sh ctx = (Ok a, sh') →
  ∀ ctx', a = ToPassthrough ctx' ∨ a = ToOffline ctx' ∨ a = ToClientOnly ctx' →
  execute full_login_pipeline sh ctx = (Ok Continue, sh', ctx') ∧
  ∃ r, ext_routing ctx' = Some r ∧
    a = match sc_proxy_mode (rd_server_config r) with
        | Config.Offline => ToOffline ctx' | Config.ClientOnly => ToClientOnly ctx' | _ => ToPassthrough ctx'
        end.
Proof.
  unfold handle_login_intent. destruct (execute full_login_pipeline sh ctx) as [[[[| |msg]|e] sh1] ctx1]; try done.
  - destruct (ext_routing ctx1) as [r|] eqn:Hr; [|done]. intros [= <- <-] ctx' Hctx.
    assert (ctx1 = ctx') as -> by (destruct (sc_proxy_mode (rd_server_config r)); naive_solver). eauto.
  - intros [= <- <-]. naive_solver.
  - intros [= <- <-]. naive_solver.
Qed.

Lemma handled_login sh ctx a sh' ctx' :
  handle_connection sh ctx = (Ok a, sh') → a = ToPassthrough ctx' ∨ a = ToOffline ctx' ∨ a = ToClientOnly ctx' →
  execute (common_pipeline now io (srv_ip_filter srv) ++ full_login_pipeline) sh ctx = (Ok Continue, sh', ctx') ∧
  ∃ r, ext_routing ctx' = Some r ∧
    a = match sc_proxy_mode (rd_server_config r) with
        | Config.Offline => ToOffline ctx' | Config.ClientOnly => ToClientOnly ctx' | _ => ToPassthrough ctx'
        end.
Proof.
  unfold handle_connection. intros Hh Ha.
  destruct (execute (common_pipeline now io (srv_ip_filter srv)) sh ctx) as [[[[| |msg]|e] sh1] ctx1] eqn:Hc; [..|done].
  - destruct (ext_handshake ctx1) as [h|]; [|done]. destruct (hd_intent h).
    + injection Hh as <- <-. naive_solver.
    + destruct (login_mode _ _ _ _ Hh ctx' Ha) as [He Hr]. split; [|exact Hr]. by rewrite (execute_app _ _ _ _ _ _ Hc).
    + injection Hh as <- <-. naive_solver.
  - injection Hh as <- <-. destruct (ext_legacy ctx1); naive_solver.
  - destruct (decide _); [|destruct (is_status ctx1)]; injection Hh as <- <-; naive_solver.
Qed.

(** The manager's middleware does not change the connection. *)
Lemma full_login_Continue sh ctx sh' ctx' :
  execute (common_pipeline now io (srv_ip_filter srv) ++ full_login_pipeline) sh ctx = (Ok Continue, sh', ctx') →
  execute (common_pipeline now io (srv_ip_filter srv) ++ login_pipeline now') sh ctx = (Ok Continue, sh', ctx').
Proof.
  unfold full_login_pipeline. rewrite app_assoc. intros (sh1&ctx1&H1&H2)%execute_app_Continue. rewrite H1.
  destruct (srv_manager srv) as [sm|]; cbn [execute] in H2; [|by injection H2 as -> ->].
  destruct (server_manager sm ensure ctx1); by simplify_eq.
Qed.

(** ** From the client's bytes to the backend's *)

Context `{PP : Ppp} {PM QM : Type} `{DMP : !DashMap Z nat PM, DMQ : !DashMap Z Z QM}.
Context `{DMIL : !DashMapLaws IpAddr BanEntry IM, DMUL : !DashMapLaws rstring BanEntry UM, DMVL : !DashMapLaws Z BanEntry VM}.
Context (net : rstring → Z → attempt) (default_timeout : Z) (properties_json : list Property → rstring).
Context (ip_to_string : SockIp → rstring) (listeners : list (HandlerEntry ServerPreConnectEvent)).
Context (mode : Forwarding.ForwardingMode) (random_uuid player_id : Z) (copies : list forward_event) (splices : list splicing_event).

(** C3: A connection that the server gives to the passthrough handler is routed by the router to
    a server that is not intercepted; without rewriting or forwarding, and if nothing is
    left in the buffer after the login start when the handler takes over, the backend gets
    the very bytes the client sent, in order and from the first of the handshake on, and, if
    the mode of the server copies (any but zero-copy), all of them when the relay ends
    because the client closed; and the client gets a part of what the backend sends, from
    its start. *)
Theorem passthrough_end_to_end (sh sh' : shared (CM := CM) (EM := EM) (IM := IM) (UM := UM) (VM := VM)) (ctx ctx' : ConnectionContext)
    (info : ConnectionInfo) (players during after : Players (SM := PM) (IM := QM)) (backend : BackendSocket) (relayed : Relayed) :
  now ≤ now' → ext_handshake ctx = None →
  handle_connection sh ctx = (Ok (ToPassthrough ctx'), sh') → ctx_buffered ctx' = [] →
  passthrough_handle (srv_registry srv) net default_timeout properties_json ip_to_string listeners mode random_uuid player_id
    copies splices ctx' info players = Ok (PassSession backend relayed during after) →
  ∃ h id c b0, ext_handshake ctx' = Some h ∧ resolve (sh_router sh) (hd_domain h) = Some (id, c) ∧
    (sc_proxy_mode c ≠ Config.Offline ∧ sc_proxy_mode c ≠ Config.ClientOnly) ∧
    connect net default_timeout (effective_id c) (sc_addresses c) (to_connect <$> sc_timeouts c) (sc_send_proxy_protocol c) info = Ok b0 ∧
    (sc_domain_rewrite c = RewriteNone → resolve_forwarding_handler mode c = FHNone →
     ∃ rest, bs_written backend ++ rl_backend_got relayed ++ rest = bs_written b0 ++ ctx_buffered ctx ++ concat (ctx_stream ctx) ∧
       (select_forwarder (sc_proxy_mode c) = CopyForwarder → fr_reason <$> rl_result relayed = Some ClientClosed → rest = [])) ∧
    ∃ rest, rl_client_got relayed ++ rest = concat (bs_in b0).
Proof.
  intros Hnow Hnone Hh Hbuf Hp. destruct (handled_login _ _ _ _ ctx' Hh (or_introl eq_refl)) as [He (r&Hr&Hmode)].
  apply full_login_Continue in He.
  destruct (pipeline_Continue _ _ _ _ _ _ _ _ Hnow Hnone He) as (_&_&_&h&l&id&c&Hh'&_&_&Hres&Hrt&_&Hall&_).
  rewrite Hr in Hrt. injection Hrt as ->. cbn [rd_server_config] in Hmode.
  unfold passthrough_handle in Hp. rewrite Hr, Hh' in Hp. cbn [rd_server_config rd_config_id] in Hp.
  exists h, id, c.
  destruct (connect net default_timeout (effective_id c) _ _ _ _) as [b0|e] eqn:Hcon; [|by destruct (pc_result _)].
  exists b0. destruct (forward_initial_packets _ _ _ _ _ _) as [b1|e] eqn:Hin; [|by destruct (pc_result _)].
  assert (Hrel : backend = b1 ∧ relayed = run_forwarder (select_forwarder (sc_proxy_mode c)) copies splices
    (concat (ctx_stream ctx')) (concat (bs_in b1))) by (destruct (pc_result _); apply Ok_inj in Hp; first [discriminate Hp|by injection Hp as <- <- _ _]).
  destruct Hrel as [-> ->]. rewrite (forward_initial_in _ _ _ _ _ _ _ Hin).
  destruct (run_forwarder_prefix (select_forwarder (sc_proxy_mode c)) copies splices (concat (ctx_stream ctx')) (concat (bs_in b0)))
    as ((rest&Hrest&Hdone)&Hback).
  split_and!; [done|done|by destruct (sc_proxy_mode c)|by destruct (sc_proxy_mode c)|done| |done].
  intros Hrw Hfh. exists rest. split; [|done].
  unfold forward_initial_packets in Hin. rewrite Hfh, Hrw in Hin. cbn in Hin. apply write_raws_all in Hin as (_&Hw&_).
  unfold all_bytes in Hall. rewrite Hh', Hnone, Hbuf in Hall. cbn [app] in Hall.
  rewrite Hw, Hrest, <- app_assoc, Hall. done.
Qed.
End server.

(** ** Status requests for unknown servers *)

(** The status handler never sees a request that is not routed: its answer for unknown
    domains, the default MOTD, is not used. *)
Theorem status_always_routed `{IPN : IpNets, LC : Lowercase, WM : WildMatch, UT : UuidText, ZL : Zlib, GV : !Governor}
    {CM EM IM UM VM MM : Type} `{DMC : !DashMap ProviderId RouterEntry CM, DME : !DashMap rstring ProviderId EM}
    `{DMI : !DashMap IpAddr BanEntry IM, DMU : !DashMap rstring BanEntry UM, DMV : !DashMap Z BanEntry VM}
    `{DMM : !DashMap rstring ServerEntry MM} (srv : ProxyServer (MM := MM)) ensure (now now' : Z) (io : persist_io)
    (sh sh' : shared (CM := CM) (EM := EM) (IM := IM) (UM := UM) (VM := VM)) (ctx ctx' : ConnectionContext) :
  handle_connection srv ensure now now' io sh ctx = (Ok (ToStatus ctx'), sh') → is_Some (ext_routing ctx').
Proof.
  unfold handle_connection. intros Hh.
  destruct (execute (common_pipeline now io (srv_ip_filter srv)) sh ctx) as [[[[| |msg]|e] sh1] ctx1] eqn:Hc; [..|done].
  - destruct (ext_handshake ctx1) as [h|]; [|done]. destruct (hd_intent h); [|exfalso|done].
    + injection Hh as <- <-. unfold common_pipeline in Hc. do 4 apply execute_Continue in Hc as (?&?&_&Hc).
      apply execute_Continue in Hc as (?&?&(->&h5&id&c&_&_&_&->)%domain_router_Continue&Hc).
      cbn [execute] in Hc. injection Hc as _ <-. by eexists.
    + unfold handle_login_intent in Hh. destruct (execute (full_login_pipeline _ _ _) _ _) as [[[[| |]|] ?] ctx2]; try discriminate Hh.
      destruct (ext_routing ctx2) as [r|]; [|done]. by destruct (sc_proxy_mode _).
  - by destruct (ext_legacy ctx1).
  - repeat case_match; done.
Qed.

(** ** Samples *)

Section samples.
#[local] Existing Instances range_nets ascii_lowercase glob_match hex_uuid stored_zlib countdown spec_ppp.

Definition sample_server : ProxyServer (MM := assoc_map rstring ServerEntry) :=
  {| srv_registry := build_default_registry; srv_ip_filter := None; srv_unknown_domain := DefaultMotd; srv_manager := None |}.
Definition handle_sample (ctx : ConnectionContext) :=
  handle_connection sample_server (λ _, Ok ()) 0 1 LockTimedOut sample_shared ctx.

(** The handshake and the login start in two reads, and the rest in a third. *)
Definition quiet_ctx : ConnectionContext :=
  Build_ConnectionContext [sample_frame sample_handshake; Middleware.sample_login; [1; 2; 3]] StreamSilent 42 [] None None None false.
Definition routed_ctx (ctx : ConnectionContext) : ConnectionContext :=
  match (handle_sample ctx).1 with Ok (ToPassthrough ctx') => ctx' | _ => ctx end.
Definition sample_copies : list forward_event := [OnC2b (Moved 3); OnB2c (Moved 1); OnC2b Eof; OnB2c (Moved 1); OnB2c Eof].
Definition pass_through (ctx : ConnectionContext) : result CoreError (passthrough_outcome (SM := assoc_map Z nat) (IM := assoc_map Z Z)) :=
  passthrough_handle build_default_registry (sample_connection [[8; 9]]) 5000 (λ _, []) (λ _, []) [] FwdNone 5 1
    sample_copies [] ctx legacy_info ConnectionRegistry_new.
Definition backend_bytes (r : result CoreError (passthrough_outcome (SM := assoc_map Z nat) (IM := assoc_map Z Z))) : option bytes :=
  match r with Ok (PassSession backend relayed _ _) => Some (bs_written backend ++ rl_backend_got relayed) | _ => None end.

Definition sample_session : passthrough_outcome (SM := assoc_map Z nat) (IM := assoc_map Z Z) :=
  match pass_through (routed_ctx quiet_ctx) with Ok o => o | Err _ => PassKicked [] end.
Definition session_backend : BackendSocket :=
  match sample_session with PassSession b _ _ _ => b | _ => Build_BackendSocket [] [] None end.
Definition session_relayed : Relayed := match sample_session with PassSession _ r _ _ => r | _ => mk_Relayed [] [] None end.

Lemma passthrough_end_to_end_witness :
  bs_written session_backend ++ rl_backend_got session_relayed =
    sample_frame sample_handshake ++ Middleware.sample_login ++ [1; 2; 3] ∧
  ∃ rest, rl_client_got session_relayed ++ rest = [8; 9].
Proof.
  destruct (passthrough_end_to_end (DMIL := _) (DMUL := _) (DMVL := _) sample_server (λ _, Ok ()) 0 1 LockTimedOut
    (sample_connection [[8; 9]]) 5000 (λ _, []) (λ _, []) [] FwdNone 5 1 sample_copies [] sample_shared (handle_sample quiet_ctx).2
    quiet_ctx (routed_ctx quiet_ctx) legacy_info ConnectionRegistry_new
    match sample_session with PassSession _ _ d _ => d | _ => ConnectionRegistry_new end
    match sample_session with PassSession _ _ _ a => a | _ => ConnectionRegistry_new end session_backend session_relayed)
    as (h&id&c&b0&Hh&Hres&_&Hcon&Hall&Hback).
  - lia.
  - done.
  - vm_compute. reflexivity.
  - by vm_compute.
  - by vm_compute.
  - assert (h = default (handshake_data sample_handshake []) (ext_handshake (routed_ctx quiet_ctx))) as -> by (rewrite Hh; done).
    vm_compute in Hres. injection Hres as <- <-. vm_compute in Hcon. injection Hcon as <-.
    split; [|exact Hback]. destruct (Hall eq_refl eq_refl) as (rest&Hrest&Hdone).
    rewrite Hdone in Hrest by (by vm_compute). rewrite app_nil_r in Hrest. rewrite Hrest. by vm_compute.
Defined.

(** A byte that came with the login start is in the buffer, and is not sent on. *)
Theorem buffered_byte_lost :
  ctx_buffered (routed_ctx sample_ctx) = [7] ∧
  backend_bytes (pass_through (routed_ctx sample_ctx)) = Some (sample_frame sample_handshake ++ Middleware.sample_login).
Proof. by split; vm_compute. Qed.

(** A ping for a server nobody knows is closed without an answer. *)
Theorem unknown_domain_not_answered :
  let hs := mk_SHandshake V1_7_2 (str "nowhere.example.org") 25565 Status in
  let ctx := Build_ConnectionContext [sample_frame hs; [1; 0]] StreamSilent 42 [] None None None false in
  (handle_sample ctx).1 = Ok ClosesSilently.
Proof. by vm_compute. Qed.
End samples.
