(* ===== verification/Status.v ===== *)
(** * Status: what the server list shows

    Models [status/response.rs] and the part of [event_bus/conversion.rs] that shows a
    response to plugins.  A response is written as JSON by [ping_json] and read by
    [ping_of_value] from the value that [serde_json] gives for a text, for texts in which
    no key is repeated; [ping_json_read] says that the two agree. *)
From S2P Require Import Prelude Wire Utf8 VarInt Codec Frame Version Packet Nbt Json Component EventBus Config Auth Legacy.

(** ** JSON texts *)

Definition serde_escape (s : rstring) : rstring := s ≫= serde_escape_char.

(** [serde_json::Value::to_string], for members in any order. *)
Fixpoint value_text (v : Value) : rstring :=
  match v with
  | VNull => str "null"
  | VBool true => str "true"
  | VBool false => str "false"
  | VNumber t => t
  | VStr s => quoted (serde_escape s)
  | VArray vs => [91] ++ comma_separated (map value_text vs) ++ [93]
  | VObject kvs =>
    [123] ++ comma_separated (map (λ kv, quoted (serde_escape kv.1) ++ [58] ++ value_text kv.2) kvs) ++ [125]
  end.

(** The value a parser gives: the members of objects in order. *)
Fixpoint norm_value (v : Value) : Value :=
  match v with
  | VArray vs => VArray (map norm_value vs)
  | VObject kvs => object_of (map (λ kv, (kv.1, norm_value kv.2)) kvs)
  | v => v
  end.

(** ** Responses *)

Record PingVersion := { pv_name : rstring; pv_protocol : Z }.
Record PingPlayerSample := { pps_name : rstring; pps_id : rstring }.
Record PingPlayers := { pp_max : Z; pp_online : Z; pp_sample : list PingPlayerSample }.
Record ServerPingResponse := mk_Ping {
  sp_version : PingVersion;
  sp_players : PingPlayers;
  sp_description : Value;
  sp_favicon : option rstring;
  sp_extra : list (rstring * Value) }.

Definition number (z : Z) : Value := VNumber (str (pretty z)).
Definition text_object (text : rstring) : Value := VObject [(str "text", VStr text)].

Definition synthetic (description : rstring) (favicon version_name : option rstring) (max_players : option Z)
    : ServerPingResponse :=
  {| sp_version := {| pv_name := default (str "Infrarust") version_name; pv_protocol := CURRENT_MC_PROTOCOL |};
     sp_players := {| pp_max := default 0 max_players; pp_online := 0; pp_sample := [] |};
     sp_description := text_object description;
     sp_favicon := favicon;
     sp_extra := [] |}.
Definition synthetic_entry (e : MotdEntry) : ServerPingResponse :=
  synthetic (me_text e) (me_favicon e) (me_version_name e) (wrap_s 32 <$> me_max_players e).

Definition apply_overrides (motd : MotdEntry) (r : ServerPingResponse) : ServerPingResponse :=
  mk_Ping
    {| pv_name := default (pv_name (sp_version r)) (me_version_name motd); pv_protocol := pv_protocol (sp_version r) |}
    {| pp_max := from_option (wrap_s 32) (pp_max (sp_players r)) (me_max_players motd);
       pp_online := pp_online (sp_players r); pp_sample := pp_sample (sp_players r) |}
    (text_object (me_text motd))
    (match me_favicon motd with Some f => Some f | None => sp_favicon r end)
    (sp_extra r).

(** The members in the order of the fields. *)
Definition sample_value (s : PingPlayerSample) : Value :=
  VObject [(str "name", VStr (pps_name s)); (str "id", VStr (pps_id s))].
Definition version_value (v : PingVersion) : Value :=
  VObject [(str "name", VStr (pv_name v)); (str "protocol", number (pv_protocol v))].
Definition players_value (p : PingPlayers) : Value :=
  VObject ([(str "max", number (pp_max p)); (str "online", number (pp_online p))] ++
    (if decide (pp_sample p = []) then [] else [(str "sample", VArray (sample_value <$> pp_sample p))])).
Definition ping_members (r : ServerPingResponse) : list (rstring * Value) :=
  [(str "version", version_value (sp_version r));
   (str "players", players_value (sp_players r));
   (str "description", sp_description r)] ++
  match sp_favicon r with Some f => [(str "favicon", VStr f)] | None => [] end ++
  sp_extra r.
Definition ping_json (r : ServerPingResponse) : rstring := value_text (VObject (ping_members r)).

(** Reading: the fields a structure has, others ignored, and for the response kept. *)
Definition as_i32 (v : Value) : option Z := match v with VNumber t => parse_i32 t | _ => None end.

(** A structure is read from an object or from an array of its fields in order. *)
Definition sample_of_value (v : Value) : option PingPlayerSample :=
  match v with
  | VObject m =>
    name ← json_get (str "name") as_str m; id ← json_get (str "id") as_str m;
    Some {| pps_name := name; pps_id := id |}
  | VArray [name; id] => name ← as_str name; id ← as_str id; Some {| pps_name := name; pps_id := id |}
  | _ => None
  end.

(** A member that is read if it is there: the outer option is an error. *)
Definition json_field {A} (key : rstring) (f : Value → option A) (m : list (rstring * Value)) : option (option A) :=
  match json_get key Some m with
  | None => Some None
  | Some v => Some <$> f v
  end.

Definition samples_of_value (v : Value) : option (list PingPlayerSample) :=
  match v with VArray l => mapM sample_of_value l | _ => None end.
Definition players_of_value (v : Value) : option PingPlayers :=
  match v with
  | VObject m =>
    max ← json_get (str "max") as_i32 m; online ← json_get (str "online") as_i32 m;
    sample ← json_field (str "sample") samples_of_value m;
    Some {| pp_max := max; pp_online := online; pp_sample := default [] sample |}
  | VArray (max :: online :: rest) =>
    max ← as_i32 max; online ← as_i32 online;
    sample ← match rest with [] => Some [] | [sample] => samples_of_value sample | _ => None end;
    Some {| pp_max := max; pp_online := online; pp_sample := sample |}
  | _ => None
  end.
Definition version_of_value (v : Value) : option PingVersion :=
  match v with
  | VObject m =>
    name ← json_get (str "name") as_str m; protocol ← json_get (str "protocol") as_i32 m;
    Some {| pv_name := name; pv_protocol := protocol |}
  | VArray [name; protocol] =>
    name ← as_str name; protocol ← as_i32 protocol; Some {| pv_name := name; pv_protocol := protocol |}
  | _ => None
  end.

Definition ping_fields : list rstring := str <$> ["version"; "players"; "description"; "favicon"]%string.
Definition ping_of_members (m : list (rstring * Value)) : option ServerPingResponse :=
  version ← json_get (str "version") version_of_value m;
  players ← json_get (str "players") players_of_value m;
  description ← json_get (str "description") Some m;
  favicon ← json_field (str "favicon") (λ v, match v with VNull => Some None | VStr s => Some (Some s) | _ => None end) m;
  Some (mk_Ping version players description (default None favicon) (filter (λ kv, kv.1 ∉ ping_fields) m)).
Definition ping_of_value (v : Value) : option ServerPingResponse :=
  match v with VObject m => ping_of_members m | _ => None end.

Definition ping_from_str `{SerdeJson} (text : rstring) : option ServerPingResponse := json_from_str text ≫= ping_of_value.

(** ** Responses shown to plugins *)

Record PingResponse := mk_PingResponse {
  pr_description : Component;
  pr_max_players : Z;
  pr_online_players : Z;
  pr_protocol_version : ProtocolVersion;
  pr_version_name : rstring;
  pr_favicon : option rstring }.

Definition ping_flag (key : string) (set : Component → Component) (map : list (rstring * Value)) (c : Component) : Component :=
  if decide (json_get (str key) as_bool map = Some true) then set c else c.

Fixpoint json_value_to_component (value : Value) : Component :=
  match value with
  | VStr s => component_text s
  | VObject map =>
    let component := component_text (default [] (json_get (str "text") as_str map)) in
    let component :=
      match json_get (str "color") as_str map with Some color => set_color color component | None => component end in
    let component := ping_flag "bold" set_bold map component in
    let component := ping_flag "italic" set_italic map component in
    let component := ping_flag "underlined" set_underlined map component in
    let component := ping_flag "strikethrough" set_strikethrough map component in
    let component := ping_flag "obfuscated" set_obfuscated map component in
    let extras := json_get (str "extra")
      (λ v, match v with VArray l => Some (List.map json_value_to_component l) | _ => None end) map in
    foldl (λ c extra, component_append extra c) component (default [] extras)
  | VArray arr =>
    match List.map json_value_to_component arr with
    | [] => component_text []
    | root :: extras => foldl (λ c extra, component_append extra c) root extras
    end
  | other => component_text (value_text other)
  end.

Definition flag_member (key : string) (flag : option bool) (m : list (rstring * Value)) : list (rstring * Value) :=
  if decide (flag = Some true) then map_insert (str key) (VBool true) m else m.
Fixpoint component_to_json_value (c : Component) : Value :=
  let m := map_insert (str "text") (VStr (c_text c)) [] in
  let m := match c_color c with Some color => map_insert (str "color") (VStr color) m | None => m end in
  let m := flag_member "bold" (c_bold c) m in
  let m := flag_member "italic" (c_italic c) m in
  let m := flag_member "underlined" (c_underlined c) m in
  let m := flag_member "strikethrough" (c_strikethrough c) m in
  let m := flag_member "obfuscated" (c_obfuscated c) m in
  let m := if decide (length (c_extra c) = 0)%nat then m
           else map_insert (str "extra") (VArray (List.map component_to_json_value (c_extra c))) m in
  VObject m.

Definition core_to_api_ping_response (core : ServerPingResponse) : PingResponse :=
  mk_PingResponse (json_value_to_component (sp_description core)) (pp_max (sp_players core)) (pp_online (sp_players core))
    (pv_protocol (sp_version core)) (pv_name (sp_version core)) (sp_favicon core).

Definition set_description (d : Value) (r : ServerPingResponse) : ServerPingResponse :=
  mk_Ping (sp_version r) (sp_players r) d (sp_favicon r) (sp_extra r).
Definition apply_api_scalars_to_core (api : PingResponse) (core : ServerPingResponse) : ServerPingResponse :=
  mk_Ping {| pv_name := pr_version_name api; pv_protocol := pr_protocol_version api |}
    {| pp_max := pr_max_players api; pp_online := pr_online_players api; pp_sample := pp_sample (sp_players core) |}
    (sp_description core) (pr_favicon api) (sp_extra core).
Definition apply_api_to_core (api : PingResponse) (core : ServerPingResponse) : ServerPingResponse :=
  apply_api_scalars_to_core api (set_description (component_to_json_value (pr_description api)) core).
Definition merge_ping_event (sent_description : Value) (api : PingResponse) (core : ServerPingResponse) : ServerPingResponse :=
  if value_eqb (component_to_json_value (pr_description api)) sent_description
  then apply_api_scalars_to_core api core else apply_api_to_core api core.

(** ** The order of keys *)

Lemma rs_ltb_trans a b c : rs_ltb a b = true → rs_ltb b c = true → rs_ltb a c = true.
Proof.
  revert b c. induction a as [|x a IH]; intros [|y b] [|z c]; cbn [rs_ltb]; try done.
  rewrite !orb_true_iff, !andb_true_iff, !bool_decide_eq_true. intros [Hxy|[-> Hab]] [Hyz|[-> Hbc]];
    [left; lia..|]. right. split; [done|]. by eapply IH.
Qed.

Lemma rs_ltb_total a b : a ≠ b → rs_ltb a b = false → rs_ltb b a = true.
Proof.
  revert b. induction a as [|x a IH]; intros [|y b]; cbn [rs_ltb]; try done.
  rewrite orb_false_iff, orb_true_iff, andb_false_iff, andb_true_iff, !bool_decide_eq_false, !bool_decide_eq_true.
  intros Hne [Hxy [Hn|Hab]]; [left; lia|]. destruct (decide (x = y)) as [->|]; [|left; lia].
  right. split; [done|]. apply IH; congruence.
Qed.

Definition key_lt (a b : rstring * Value) : Prop := rs_ltb a.1 b.1 = true.
Abbreviation ordered := (StronglySorted key_lt).

Lemma map_insert_Forall (P : rstring * Value → Prop) key v m : P (key, v) → Forall P m → Forall P (map_insert key v m).
Proof.
  intros Hk. induction 1 as [|[k w] m Hm Hall IH]; cbn [map_insert]; [by constructor|].
  destruct (decide (k = key)); [by constructor|]. destruct (rs_ltb key k); by repeat constructor.
Qed.

Lemma map_insert_ordered key v m : ordered m → ordered (map_insert key v m).
Proof.
  induction 1 as [|[k w] m Hm IH Hall]; cbn [map_insert]; [by repeat constructor|].
  destruct (decide (k = key)) as [->|Hne]; [by constructor|].
  destruct (rs_ltb key k) eqn:Hlt; constructor; [by constructor| |done|].
  - constructor; [done|]. eapply Forall_impl; [exact Hall|]. intros [k' w'] Hk'. by eapply rs_ltb_trans.
  - apply map_insert_Forall; [|done]. by apply rs_ltb_total.
Qed.

Section keep.
Context (P : rstring → Prop) `{!∀ k, Decision (P k)}.
Abbreviation kept m := (filter (λ kv : rstring * Value, P kv.1) m).

Lemma map_insert_dropped key v m : ¬ P key → kept (map_insert key v m) = kept m.
Proof.
  intros Hk. induction m as [|[k w] m IH]; cbn [map_insert]; [by rewrite filter_cons_False|].
  destruct (decide (k = key)) as [->|]; [by rewrite !filter_cons_False|].
  destruct (rs_ltb key k); [by rewrite filter_cons_False|]. rewrite !filter_cons. by case_decide; rewrite IH.
Qed.

Lemma map_insert_front key v m : Forall (key_lt (key, v)) m → map_insert key v m = (key, v) :: m.
Proof.
  intros [|[k w] m' Hk _]; [done|]. cbn [map_insert]. destruct (decide (k = key)) as [->|].
  - exfalso. unfold key_lt in Hk. cbn in Hk. induction key as [|x key IH]; cbn in Hk; [done|].
    rewrite bool_decide_eq_false_2, bool_decide_eq_true_2 in Hk by lia. auto.
  - unfold key_lt in Hk. cbn in Hk. by rewrite Hk.
Qed.

Lemma map_insert_kept key v m : P key → ordered m → kept (map_insert key v m) = map_insert key v (kept m).
Proof.
  intros Hk. induction 1 as [|[k w] m Hm IH Hall]; cbn [map_insert]; [by rewrite filter_cons_True|].
  destruct (decide (k = key)) as [->|Hne].
  { rewrite !filter_cons_True by done. cbn [map_insert]. by rewrite decide_True. }
  rewrite (filter_cons _ (k, w) m). destruct (rs_ltb key k) eqn:Hlt.
  - rewrite filter_cons_True, filter_cons by done. case_decide; [cbn [map_insert]; by rewrite decide_False, Hlt|].
    rewrite map_insert_front; [done|]. apply Forall_forall. intros [k' w'] [_ Hin]%list_elem_of_filter.
    rewrite Forall_forall in Hall. eapply rs_ltb_trans; [exact Hlt|exact (Hall _ Hin)].
  - rewrite filter_cons. cbn [fst]. case_decide; [|done]. cbn [map_insert]. rewrite decide_False, Hlt by done. by rewrite IH.
Qed.

Lemma insert_all_kept kvs m : ordered m →
  kept (foldl (λ m kv, map_insert kv.1 kv.2 m) m kvs) = foldl (λ m kv, map_insert kv.1 kv.2 m) (kept m) (kept kvs).
Proof.
  revert m. induction kvs as [|[k v] kvs IH]; intros m Hm; [done|]. cbn [foldl]. rewrite IH by by apply map_insert_ordered.
  rewrite filter_cons. cbn [fst snd]. case_decide; [by rewrite map_insert_kept|by rewrite map_insert_dropped].
Qed.
End keep.

(** ** The text of a value *)

Section value_ind.
Context (P : Value → Prop).
Hypothesis Pnull : P VNull.
Hypothesis Pbool : ∀ b, P (VBool b).
Hypothesis Pnumber : ∀ t, P (VNumber t).
Hypothesis Pstr : ∀ s, P (VStr s).
Hypothesis Parray : ∀ vs, Forall P vs → P (VArray vs).
Hypothesis Pobject : ∀ kvs, Forall (λ kv, P kv.2) kvs → P (VObject kvs).
Lemma value_nested_ind (v : Value) : P v.
Proof using All.
  revert v. fix IH 1. intros [|b|t|s|vs|kvs]; [apply Pnull|apply Pbool|apply Pnumber|apply Pstr|apply Parray|apply Pobject].
  - induction vs as [|v vs IHvs]; constructor; [apply IH|exact IHvs].
  - induction kvs as [|[k v] kvs IHkvs]; constructor; [apply IH|exact IHkvs].
Qed.
End value_ind.

Lemma value_eqb_refl v : value_eqb v v = true.
Proof.
  induction v as [|b|t|s|vs Hvs|kvs Hkvs] using value_nested_ind; cbn [value_eqb]; try by apply bool_decide_eq_true.
  - done.
  - induction Hvs as [|v vs -> _ IH]; [done|]. exact IH.
  - induction Hkvs as [|[k v] kvs Hv _ IH]; [done|]. cbn [fst snd] in *. by rewrite bool_decide_eq_true_2, Hv.
Qed.

(** Values a JSON text can have: integers of 64 bits, strings of characters and keys that
    differ. *)
Fixpoint value_wf (v : Value) : Prop :=
  match v with
  | VNumber t => ∃ z, in_s 64 z ∧ t = str (pretty z)
  | VStr s => is_string s
  | VArray vs => foldr (λ v rest, value_wf v ∧ rest) True vs
  | VObject kvs => NoDup kvs.*1 ∧ foldr (λ kv rest, (is_string kv.1 ∧ value_wf kv.2) ∧ rest) True kvs
  | _ => True
  end.

Lemma foldr_and_Forall {A} (P : A → Prop) l : foldr (λ x rest, P x ∧ rest) True l ↔ Forall P l.
Proof.
  induction l as [|x l IH]; cbn; [by split|]. rewrite Forall_cons. by rewrite IH.
Qed.

Lemma serde_escape_text s : is_string s → json_chars s (serde_escape s).
Proof.
  induction 1 as [|c s Hc _ IH]; [constructor|]. change (serde_escape (c :: s)) with (serde_escape_char c ++ serde_escape s).
  unfold serde_escape_char. destruct (decide (c = 8)) as [->|]; [by apply (jc_escape 98)|].
  destruct (decide (c = 12)) as [->|]; [by apply (jc_escape 102)|]. by apply escape_char_text.
Qed.

Lemma map_elements_text (f : Value → Value) vs :
  vs ≠ [] → Forall (λ v, json_text (f v) (value_text v)) vs → json_elements (map f vs) (comma_separated (map value_text vs)).
Proof.
  intros Hne Hl. induction Hl as [|v vs Hv Hl IH]; [done|]. destruct vs as [|v' vs]; [by constructor|].
  change (comma_separated (map value_text (v :: v' :: vs)))
    with (value_text v ++ [44] ++ comma_separated (map value_text (v' :: vs))).
  constructor; [done|]. by apply IH.
Qed.

Definition entry_text (kv : rstring * Value) : rstring := quoted (serde_escape kv.1) ++ [58] ++ value_text kv.2.
Lemma map_members_text (f : Value → Value) kvs :
  kvs ≠ [] → Forall (λ kv, is_string kv.1 ∧ json_text (f kv.2) (value_text kv.2)) kvs →
  json_members (map (λ kv, (kv.1, f kv.2)) kvs) (comma_separated (map entry_text kvs)).
Proof.
  intros Hne Hl. induction Hl as [|[k v] kvs [Hk Hv] Hl IH]; [done|]. cbn [fst snd] in *.
  destruct kvs as [|kv kvs]; [by constructor; [apply serde_escape_text|]|].
  change (comma_separated (map entry_text ((k, v) :: kv :: kvs)))
    with (entry_text (k, v) ++ [44] ++ comma_separated (map entry_text (kv :: kvs))).
  unfold entry_text at 1. cbn [fst snd]. rewrite <- !app_assoc. cbn [map].
  apply jm_cons; [by apply serde_escape_text|done|]. by apply IH.
Qed.

Lemma map_keys (f : Value → Value) (kvs : list (rstring * Value)) : (map (λ kv, (kv.1, f kv.2)) kvs).*1 = kvs.*1.
Proof. induction kvs as [|[k v] kvs IH]; [done|]. cbn. by f_equal. Qed.

Lemma value_text_json v : value_wf v → json_text (norm_value v) (value_text v).
Proof.
  induction v as [|[]|t|s|vs Hvs|kvs Hkvs] using value_nested_ind; cbn [value_wf norm_value].
  1-3: intros _; constructor.
  - intros (z&Hz&->). by constructor.
  - intros Hs. constructor. by apply serde_escape_text.
  - intros Hw%foldr_and_Forall. cbn [value_text]. destruct (decide (vs = [])) as [->|Hne]; [constructor|].
    apply jt_array. apply map_elements_text; [done|]. apply Forall_forall. intros v Hv.
    rewrite Forall_forall in Hvs, Hw. by apply Hvs, Hw.
  - intros [Hn Hw%foldr_and_Forall]. destruct (decide (kvs = [])) as [->|Hne]; [constructor|].
    apply (jt_object _ (comma_separated (map entry_text kvs))); [by rewrite map_keys|].
    apply map_members_text; [done|]. apply Forall_forall. intros kv Hkv. rewrite Forall_forall in Hkvs, Hw.
    destruct (Hw _ Hkv) as [Hk Hv]. split; [done|]. by apply Hkvs.
Qed.

(** ** Responses survive their text *)

(** The responses that can be read: what [ping_from_str] can give, except for floating
    point numbers and large ones in the members it does not know. *)
Definition ping_ok (r : ServerPingResponse) : Prop :=
  (is_string (pv_name (sp_version r)) ∧ in_s 32 (pv_protocol (sp_version r))) ∧
  (in_s 32 (pp_max (sp_players r)) ∧ in_s 32 (pp_online (sp_players r)) ∧
   Forall (λ s, is_string (pps_name s) ∧ is_string (pps_id s)) (pp_sample (sp_players r))) ∧
  (value_wf (sp_description r) ∧ norm_value (sp_description r) = sp_description r) ∧
  from_option is_string True (sp_favicon r) ∧
  (value_wf (VObject (sp_extra r)) ∧ norm_value (VObject (sp_extra r)) = VObject (sp_extra r) ∧
   Forall (λ k, k ∉ ping_fields) (sp_extra r).*1) ∧
  json_depth (norm_value (VObject (ping_members r))) ≤ 127.

Lemma number_wf z : in_s 32 z → value_wf (number z).
Proof. intros Hz. exists z. split; [unfold in_s in *; lia|done]. Qed.

Ltac concrete := apply (bool_decide_unpack _); by vm_compute.

Lemma sample_wf s : is_string (pps_name s) → is_string (pps_id s) → value_wf (sample_value s).
Proof. intros Hn Hi. cbn [sample_value value_wf foldr fst snd]. split; [concrete|]. split_and!; [concrete|done|concrete|done..]. Qed.

Lemma samples_wf l : Forall (λ s, is_string (pps_name s) ∧ is_string (pps_id s)) l → value_wf (VArray (sample_value <$> l)).
Proof.
  intros Hl. cbn [value_wf]. apply foldr_and_Forall, Forall_fmap. eapply Forall_impl; [exact Hl|].
  intros s [Hn Hi]. by apply sample_wf.
Qed.

Lemma players_wf p :
  in_s 32 (pp_max p) → in_s 32 (pp_online p) → Forall (λ s, is_string (pps_name s) ∧ is_string (pps_id s)) (pp_sample p) →
  value_wf (players_value p).
Proof.
  intros Hm Ho Hs. unfold players_value. cbn [value_wf]. pose proof (samples_wf _ Hs) as Hw.
  case_decide; cbn [app]; (split; [concrete|]); cbn [foldr fst snd]; split_and!;
    first [done|by apply number_wf|concrete].
Qed.

Lemma version_wf v : is_string (pv_name v) → in_s 32 (pv_protocol v) → value_wf (version_value v).
Proof.
  intros Hn Hp. split; [concrete|]. cbn [foldr fst snd value_wf].
  split; [split; [concrete|exact Hn]|]. split; [split; [concrete|by apply number_wf]|exact I].
Qed.

Lemma ping_keys r : (ping_members r).*1 =
  (str <$> ["version"; "players"; "description"]%string) ++
  (match sp_favicon r with Some _ => [str "favicon"] | None => [] end) ++ (sp_extra r).*1.
Proof. unfold ping_members. rewrite !fmap_app. by destruct (sp_favicon r). Qed.

Lemma ping_keys_NoDup r :
  NoDup (sp_extra r).*1 → Forall (λ k, k ∉ ping_fields) (sp_extra r).*1 → NoDup (ping_members r).*1.
Proof.
  intros Hn Hf. rewrite ping_keys, app_assoc. apply NoDup_app. split; [destruct (sp_favicon r); concrete|]. split; [|done].
  intros k Hk Hin. rewrite Forall_forall in Hf. apply (Hf k Hin). clear Hin Hn. revert k Hk. apply Forall_forall. clear Hf.
  destruct (sp_favicon r); concrete.
Qed.

Lemma ping_members_wf r : ping_ok r → value_wf (VObject (ping_members r)).
Proof.
  intros ((Hvn&Hvp)&(Hm&Ho&Hs)&(Hd&_)&Hf&((Hn&He)&_&Hk)&_). cbn [value_wf]. split; [by apply ping_keys_NoDup|].
  rewrite foldr_and_Forall in He |- *. unfold ping_members.
  rewrite !Forall_app, !Forall_cons, Forall_nil. cbn [fst snd].
  split; [|split; [|exact He]].
  - split; [split; [concrete|by apply version_wf]|]. split; [split; [concrete|by apply players_wf]|].
    split; [split; [concrete|exact Hd]|exact I].
  - destruct (sp_favicon r); [|constructor]. apply Forall_singleton. split; [concrete|exact Hf].
Qed.

(** *** Reading the members back *)

Lemma json_get_absent {A} k (f : Value → option A) kvs : k ∉ kvs.*1 → json_get k f kvs = None.
Proof.
  induction kvs as [|[k' v] kvs IH]; [done|]. cbn [fmap list_fmap fst json_get]. rewrite not_elem_of_cons. intros [Hne Hk].
  rewrite decide_False by done. by apply IH.
Qed.

Lemma sample_read s : sample_of_value (norm_value (sample_value s)) = Some s.
Proof. by destruct s. Qed.

Lemma samples_read l : samples_of_value (norm_value (VArray (sample_value <$> l))) = Some l.
Proof.
  cbn [norm_value samples_of_value]. apply mapM_Some_2. induction l as [|s l IH]; constructor; [apply sample_read|exact IH].
Qed.

Lemma number_read z : in_s 32 z → as_i32 (number z) = Some z.
Proof. apply parse_i32_pretty. Qed.

Lemma players_read p : in_s 32 (pp_max p) → in_s 32 (pp_online p) → players_of_value (norm_value (players_value p)) = Some p.
Proof.
  intros Hm Ho. pose proof (samples_read (pp_sample p)) as Hs. unfold players_value. destruct p as [mx on sample]. cbn [pp_max pp_online pp_sample] in *.
  case_decide as He; cbn [norm_value].
  - subst sample. change (_ = ?r) with ((max ← as_i32 (number mx); online ← as_i32 (number on);
      Some {| pp_max := max; pp_online := online; pp_sample := [] |}) = r). by rewrite !number_read.
  - change (_ = ?r) with ((max ← as_i32 (number mx); online ← as_i32 (number on);
      sample ← Some <$> samples_of_value (norm_value (VArray (sample_value <$> sample)));
      Some {| pp_max := max; pp_online := online; pp_sample := default [] sample |}) = r).
    by rewrite !number_read, Hs.
Qed.

Lemma version_read v : in_s 32 (pv_protocol v) → version_of_value (norm_value (version_value v)) = Some v.
Proof.
  intros Hp. destruct v as [name protocol].
  change (_ = ?r) with ((protocol ← as_i32 (number protocol); Some {| pv_name := name; pv_protocol := protocol |}) = r).
  by rewrite number_read.
Qed.

Lemma norm_members_get {A} k (f : Value → option A) kvs :
  json_get k f (map (λ kv, (kv.1, norm_value kv.2)) kvs) = json_get k (λ v, f (norm_value v)) kvs.
Proof. induction kvs as [|[k' v] kvs IH]; [done|]. cbn [map json_get fst snd]. by case_decide. Qed.

(** What the response keeps of the members that have no field. *)
Lemma extra_read r :
  norm_value (VObject (sp_extra r)) = VObject (sp_extra r) → Forall (λ k, k ∉ ping_fields) (sp_extra r).*1 →
  filter (λ kv : rstring * Value, kv.1 ∉ ping_fields)
    (foldl (λ m kv, map_insert kv.1 kv.2 m) [] (map (λ kv, (kv.1, norm_value kv.2)) (ping_members r))) = sp_extra r.
Proof.
  intros He Hk. etrans; [refine (@insert_all_kept (λ k, k ∉ ping_fields) (λ k, not_dec _) _ [] _); constructor|].
  unfold ping_members. rewrite !map_app, !filter_app.
  assert (Hf : filter (λ kv : rstring * Value, kv.1 ∉ ping_fields)
      (map (λ kv, (kv.1, norm_value kv.2)) (match sp_favicon r with Some f => [(str "favicon", VStr f)] | None => [] end)) = []).
  { by destruct (sp_favicon r). }
  etrans; [apply f_equal2; [reflexivity|exact (f_equal2 app eq_refl (f_equal2 app Hf eq_refl))]|].
  cbn [app]. change (filter _ (map _ [_; _; _])) with (@nil (rstring * Value)). cbn [app].
  rewrite (filter_all _ (map _ _)); [cbn [norm_value] in He; unfold object_of in He; injection He as He; exact He|]. rewrite Forall_fmap, Forall_forall in Hk. intros kv Hkv.
  apply list_elem_of_fmap in Hkv as (kv'&->&Hkv). exact (Hk _ Hkv).
Qed.

Lemma ping_json_read `{SJL : SerdeJsonLaws} r : ping_ok r → ping_from_str (ping_json r) = Some r.
Proof.
  intros Hr. pose proof (value_text_json _ (ping_members_wf r Hr)) as Ht.
  destruct Hr as ((Hvn&Hvp)&(Hm&Ho&Hs)&(Hd&Hdn)&Hf&((Hn&He)&Hen&Hk)&Hdepth).
  assert (Hget : ∀ A k (f : Value → option A),
    json_get k f (foldl (λ m kv, map_insert kv.1 kv.2 m) [] (map (λ kv, (kv.1, norm_value kv.2)) (ping_members r))) =
    json_get k (λ v, f (norm_value v)) (ping_members r)).
  { intros A k f. rewrite json_get_object by (rewrite map_keys; by apply ping_keys_NoDup). apply norm_members_get. }
  unfold ping_from_str, ping_json. rewrite (json_from_str_text _ _ Ht Hdepth).
  change (ping_of_value (norm_value (VObject (ping_members r))) = Some r). clear Ht Hdepth.
  cbn [norm_value]. unfold ping_of_value, object_of, ping_of_members, json_field. rewrite extra_read, !Hget by done. clear Hget.
  change (json_get (str "version") ?f (ping_members r)) with (f (version_value (sp_version r))).
  change (json_get (str "players") ?f (ping_members r)) with (f (players_value (sp_players r))).
  change (json_get (str "description") ?f (ping_members r)) with (f (sp_description r)). cbv beta.
  rewrite version_read, players_read, Hdn by done. cbv [mbind option_bind].
  replace (json_get (str "favicon") (λ v, Some (norm_value v)) (ping_members r)) with (VStr <$> sp_favicon r).
  - by destruct r as [? ? ? [] ?].
  - destruct r as [? ? ? [f|] extra]; [done|]. symmetry. apply json_get_absent.
    rewrite ping_keys, !elem_of_app. cbn [sp_favicon sp_extra] in *. intros [Hin|[Hin|Hin]].
    + revert Hin. concrete.
    + by apply not_elem_of_nil in Hin.
    + rewrite Forall_forall in Hk. apply (Hk _ Hin). concrete.
Qed.

(** A response no listener has changed is sent as it was. *)
Lemma merge_unchanged r :
  let api := core_to_api_ping_response r in
  merge_ping_event (component_to_json_value (pr_description api)) api r = r.
Proof. intros api. unfold merge_ping_event. rewrite value_eqb_refl. by destruct r as [[] [] ? ? ?]. Qed.
