(* ===== verification/StatusHandler.v ===== *)
(** * StatusHandler: answering the server list

    Models [status/cache.rs], [status/favicon.rs], [status/relay.rs] and
    [status/handler.rs].  A socket is the chunks its reads will yield and the bytes written
    to it ([BackendSocket] of [Transport]), the client's as well.  Base64, files and the
    clock are parameters.

    [relay_or_cache] is cut where it waits: [on_arrival], [on_locked] and [on_relayed] are
    what it does before it asks for the lock of the server, when it has it, and when the
    relay has ended.  [relay_or_cache] runs them in a row, and [relay_step] lets the
    requests of many clients take turns. *)
From S2P Require Import Prelude Wire Utf8 VarInt Codec Frame Version Packet LoginPackets PlayPackets Nbt Json Component.
From S2P Require Import Registry DefaultRegistry Bridge Config Router Middleware ServerManager Forwarding EventBus Transport Address.
From S2P Require Import Backend Filters ProxyCommands Session LimboWorld Switch Limbo Auth Intercepted Players Legacy Status.

(** ** The cache *)

Record CachedStatus := {
  cst_response : ServerPingResponse;
  cst_latency : Z;
  cst_fetched_at : Z;
  cst_ttl : Z }.

Section cache.
Context {SC : Type} `{DMSC : !DashMap rstring CachedStatus SC}.

Record StatusCache := mk_StatusCache { stc_entries : SC; stc_default_ttl : Z }.

Definition StatusCache_new (default_ttl : Z) : StatusCache := mk_StatusCache dm_new default_ttl.

Definition get_fresh (now : Z) (server_id : rstring) (c : StatusCache) : option (ServerPingResponse * Z) :=
  entry ← dm_get (stc_entries c) server_id;
  if decide (now - cst_fetched_at entry < cst_ttl entry) then Some (cst_response entry, cst_latency entry) else None.

Definition get_stale (server_id : rstring) (c : StatusCache) : option (ServerPingResponse * Z) :=
  entry ← dm_get (stc_entries c) server_id; Some (cst_response entry, cst_latency entry).

Definition put (now : Z) (server_id : rstring) (response : ServerPingResponse) (latency : Z) (ttl : option Z)
    (c : StatusCache) : StatusCache :=
  mk_StatusCache
    (dm_insert server_id
       {| cst_response := response; cst_latency := latency; cst_fetched_at := now;
          cst_ttl := default (stc_default_ttl c) ttl |} (stc_entries c))
    (stc_default_ttl c).

Definition invalidate (server_id : rstring) (c : StatusCache) : StatusCache :=
  mk_StatusCache (dm_remove server_id (stc_entries c)) (stc_default_ttl c).
Definition invalidate_all (c : StatusCache) : StatusCache := mk_StatusCache dm_new (stc_default_ttl c).
End cache.

(** ** Favicons *)

Definition DATA_URI_PREFIX : rstring := str "data:image/png;base64,".

(** [Path::extension] of a path without separators. *)
Definition path_extension (value : rstring) : option rstring :=
  '(before, after) ← rsplit_once 46 value; if decide (before = []) then None else Some after.
Definition is_file_path (value : rstring) : bool :=
  if decide (47 ∈ value ∨ 92 ∈ value) then true
  else
    match path_extension value with
    | Some ext => bool_decide (ascii_lower <$> ext ∈ str <$> ["png"; "jpg"; "jpeg"; "gif"; "ico"]%string)
    | None => false
    end.

Section favicons.
Context `{IPN : IpNets} {FM : Type} `{DMFM : !DashMap rstring rstring FM}.
Context (read_file : rstring → option bytes) (base64 : bytes → rstring).

Definition load_favicon (value : rstring) : option rstring :=
  if starts_with value DATA_URI_PREFIX then Some value
  else if is_file_path value then
    content ← read_file value; Some (DATA_URI_PREFIX ++ base64 content)
  else Some (DATA_URI_PREFIX ++ value).

Record FaviconCache := mk_FaviconCache { fav_by_server : FM; fav_default : option rstring }.

Definition load_servers (server_configs : list (rstring * ServerConfig)) : FM :=
  foldl (λ m '(id, cfg),
    match motd_online (sc_motd cfg) ≫= me_favicon with
    | Some value => match load_favicon value with Some uri => dm_insert id uri m | None => m end
    | None => m
    end) dm_new server_configs.

Definition load_from_configs (server_configs : list (rstring * ServerConfig)) (default_motd : option MotdConfig) : FaviconCache :=
  mk_FaviconCache (load_servers server_configs)
    (m ← default_motd; e ← motd_online m; value ← me_favicon e; load_favicon value).

Definition favicon_reload (server_configs : list (rstring * ServerConfig)) (c : FaviconCache) : FaviconCache :=
  mk_FaviconCache (load_servers server_configs) (fav_default c).

Definition favicon_get (c : FaviconCache) (server_id : rstring) : option rstring :=
  match dm_get (fav_by_server c) server_id with Some uri => Some uri | None => fav_default c end.
End favicons.

(** ** Sockets *)

Definition STATUS_PROTOCOL_VERSION : ProtocolVersion := V1_7_2.

Section sockets.
Context `{ZL : Zlib, UT : UuidText}.

(** A socket with the decoder of its reader. *)
Record Sock := mk_Sock { sk_socket : BackendSocket; sk_decoder : PacketDecoder }.
Definition SK (A : Type) : Type := Sock → result CoreError A * Sock.
#[global] Instance sk_ret : MRet SK := λ A a s, (Ok a, s).
#[global] Instance sk_bind : MBind SK := λ A B f m s,
  match m s with (Ok a, s) => f a s | (Err e, s) => (Err e, s) end.
Definition sk_result {A} (r : result CoreError A) : SK A := λ s, (r, s).
Definition sk_protocol {A} (r : ProtocolResult A) : SK A :=
  sk_result (match r with Ok a => Ok a | Err e => Err (CProtocol e) end).
Definition sk_write (data : bytes) : SK () := λ s,
  match write_raw data (sk_socket s) with
  | Ok sock => (Ok (), mk_Sock sock (sk_decoder s))
  | Err e => (Err e, s)
  end.

(** The loop that reads a frame; [silent] is the error when the time is up. *)
Definition read_next_frame (fin : stream_end) (silent : CoreError) : SK PacketFrame := λ s,
  match read_first_frame fin (sk_decoder s) (dec_buf (sk_decoder s)) (bs_in (sk_socket s)) with
  | (r, stream) =>
    let sock := Build_BackendSocket stream (bs_written (sk_socket s)) (bs_broken (sk_socket s)) in
    match r with
    | Ok (frame, d, _) => (Ok frame, mk_Sock sock d)
    | Err (ReadProtocol e) => (Err (CProtocol e), mk_Sock sock (sk_decoder s))
    | Err ReadEof => (Err ConnectionClosed, mk_Sock sock (sk_decoder s))
    | Err ReadTimeout => (Err silent, mk_Sock sock (sk_decoder s))
    end
  end.

Context (registry : PacketRegistry).

Definition status_send_packet (packet : ErasedPacket) (version : ProtocolVersion) : SK () :=
  let k := projT1 packet in
  let packet_id := default 0 (get_packet_id registry k (pkt_state (kind_type k)) (pkt_direction (kind_type k)) version) in
  payload ← sk_protocol (encode_payload packet version);
  bytes ← sk_protocol (frame_packet None packet_id payload);
  sk_write bytes.
End sockets.

(** ** The relay *)

Section relay.
Context `{IPN : IpNets, ZL : Zlib, UT : UuidText, PP : Ppp, SJ : SerdeJson}.
Context (registry : PacketRegistry) (net : rstring → Z → attempt) (default_timeout : Z).
Context (transport_error_text : TransportError → string).

Record RelayResult := { rr_response : ServerPingResponse; rr_latency : Z }.

Definition resolve_relay_domain (handshake_domain : rstring) (c : ServerConfig) : rstring :=
  match sc_domain_rewrite c with
  | RewriteExplicit domain => domain
  | RewriteFromBackend => match sc_addresses c with a :: _ => addr_host a | [] => handshake_domain end
  | RewriteNone => handshake_domain
  end.

Definition relay_timeout : CoreError := COther "status relay timeout".
Definition read_backend_frame : SK PacketFrame := read_next_frame StreamSilent relay_timeout.

Definition status_json (d : DecodedPacket) : result CoreError rstring :=
  match d with
  | Typed _ packet =>
    match downcast KCStatusResponse packet with
    | Some p => Ok (json_response p)
    | None => Err (COther "unexpected packet type for status response")
    end
  | Opaque _ _ => Err (COther "received opaque status response")
  end.

(** What is said on the open connection.  [millis] is the time the ping carries, and
    [latency] how long its answer took. *)
Definition exchange (server_id : rstring) (c : ServerConfig) (handshake_domain : rstring)
    (protocol_version : ProtocolVersion) (millis latency : Z) : SK RelayResult :=
  let handshake := {| hs_protocol_version := protocol_version;
    hs_server_address := resolve_relay_domain handshake_domain c;
    hs_server_port := match sc_addresses c with a :: _ => addr_port a | [] => 25565 end;
    hs_next_state := Status |} in
  _ ← status_send_packet registry (existT KSHandshake handshake) protocol_version;
  _ ← status_send_packet registry (existT KSStatusRequest mk_SStatusRequest) STATUS_PROTOCOL_VERSION;
  status_frame ← read_backend_frame;
  status_decoded ← sk_protocol (decode_frame registry status_frame Status Clientbound STATUS_PROTOCOL_VERSION);
  json ← sk_result (status_json status_decoded);
  response ← sk_result (match ping_from_str json with
                        | Some r => Ok r
                        | None => Err (COther "invalid status JSON") end);
  _ ← status_send_packet registry (existT KSPingRequest (mk_SPingRequest (wrap_s 64 millis))) STATUS_PROTOCOL_VERSION;
  pong_frame ← read_backend_frame;
  _ ← sk_protocol (decode_frame registry pong_frame Status Clientbound STATUS_PROTOCOL_VERSION);
  mret {| rr_response := response; rr_latency := latency |}.

(** The result with the socket as the relay leaves it. *)
Definition relay (server_id : rstring) (c : ServerConfig) (handshake_domain : rstring)
    (protocol_version : ProtocolVersion) (client_info : ConnectionInfo) (millis latency : Z)
    : result CoreError RelayResult * option BackendSocket :=
  match connect net default_timeout server_id (sc_addresses c) None (sc_send_proxy_protocol c) client_info with
  | Err e => (Err (CTransport (transport_error_text e)), None)
  | Ok stream =>
    let '(r, s) := exchange server_id c handshake_domain protocol_version millis latency (mk_Sock stream PacketDecoder_new) in
    (r, Some (sk_socket s))
  end.
End relay.

(** ** The handler *)

Record ProxyPingEvent := mk_ProxyPingEvent { ppe_remote_addr : SocketAddr; ppe_response : PingResponse }.

Section handler.
Context `{IPN : IpNets, ZL : Zlib, UT : UuidText, PP : Ppp, SJ : SerdeJson}.
Context {SC FM MM SM IM : Type} `{DMSC : !DashMap rstring CachedStatus SC, DMFM : !DashMap rstring rstring FM}.
Context `{DMM : !DashMap rstring ServerEntry MM, DMS : !DashMap Z nat SM, DMI : !DashMap Z Z IM}.
Context (registry : PacketRegistry) (net : rstring → Z → attempt) (default_timeout : Z).
Context (transport_error_text : TransportError → string).

Record StatusHandler := mk_StatusHandler {
  sth_favicon_cache : FaviconCache (FM := FM);
  sth_server_manager : option (ServerManagerService (SM := MM));
  sth_default_motd : option MotdConfig;
  sth_listeners : list (HandlerEntry ProxyPingEvent) }.
Context (h : StatusHandler) (connections : Players (SM := SM) (IM := IM)).

Definition build_state_motd (c : ServerConfig) (state : ServerState) : ServerPingResponse :=
  let '(entry, default_text) := state_motd c state in
  match entry with
  | Some entry => synthetic_entry entry
  | None => synthetic default_text None None None
  end.

Definition build_default_motd_response : ServerPingResponse :=
  match (m ← sth_default_motd h; motd_online m) with
  | Some entry => synthetic_entry entry
  | None => synthetic (str "An Infrarust Proxy") None None None
  end.

Definition set_online (online : Z) (r : ServerPingResponse) : ServerPingResponse :=
  mk_Ping (sp_version r)
    {| pp_max := pp_max (sp_players r); pp_online := online; pp_sample := pp_sample (sp_players r) |}
    (sp_description r) (sp_favicon r) (sp_extra r).
Definition build_unreachable_motd (c : ServerConfig) (config_id : rstring) : ServerPingResponse :=
  match motd_unreachable (sc_motd c) with
  | Some entry => synthetic_entry entry
  | None =>
    match (m ← sth_default_motd h; motd_unreachable m) with
    | Some entry => synthetic_entry entry
    | None =>
      set_online (wrap_s 32 (Z.of_nat (count_by_server connections config_id)))
        (synthetic ([0xA7] ++ str "cServer unreachable") None None (Some (wrap_s 32 (sc_max_players c))))
    end
  end.

(** The parts of [relay_or_cache]: the answer, or nothing and the next part runs. *)
Definition on_arrival (now : Z) (config_id : rstring) (cache : StatusCache (SC := SC)) : option ServerPingResponse :=
  fst <$> get_fresh now config_id cache.
Definition on_locked (now : Z) (config_id : rstring) (cache : StatusCache (SC := SC)) : option ServerPingResponse :=
  fst <$> get_fresh now config_id cache.
Definition on_relayed (now : Z) (c : ServerConfig) (config_id : rstring) (result : result CoreError RelayResult)
    (cache : StatusCache (SC := SC)) : ServerPingResponse * StatusCache (SC := SC) :=
  match result with
  | Ok result => (rr_response result, put now config_id (rr_response result) (rr_latency result) None cache)
  | Err _ =>
    match get_stale config_id cache with
    | Some (response, _) => (response, cache)
    | None => (build_unreachable_motd c config_id, cache)
    end
  end.

(** When a request arrives, has the lock and has the backend's answer; the rest of what
    the clock says. *)
Record timing := { tm_arrived : Z; tm_locked : Z; tm_relayed : Z; tm_millis : Z; tm_latency : Z }.
Context (tm : timing).

Definition relay_or_cache (c : ServerConfig) (config_id : rstring) (handshake : option HandshakeData)
    (client_info : ConnectionInfo) (cache : StatusCache (SC := SC))
    : ServerPingResponse * StatusCache (SC := SC) * option BackendSocket :=
  match on_arrival (tm_arrived tm) config_id cache with
  | Some response => (response, cache, None)
  | None =>
    match on_locked (tm_locked tm) config_id cache with
    | Some response => (response, cache, None)
    | None =>
      let domain := from_option hd_domain (str "localhost") handshake in
      let version := from_option hd_protocol_version CURRENT_MC_PROTOCOL handshake in
      let '(result, backend) :=
        relay registry net default_timeout transport_error_text config_id c domain version client_info (tm_millis tm) (tm_latency tm) in
      (on_relayed (tm_relayed tm) c config_id result cache, backend)
    end
  end.

Definition server_state (c : ServerConfig) (config_id : rstring) : option ServerState :=
  _ ← sc_server_manager c; sm ← sth_server_manager h; get_state sm config_id.

Definition set_favicon (f : option rstring) (r : ServerPingResponse) : ServerPingResponse :=
  mk_Ping (sp_version r) (sp_players r) (sp_description r) f (sp_extra r).

Definition resolve_response (routing : option RoutingData) (handshake : option HandshakeData)
    (client_info : ConnectionInfo) (cache : StatusCache (SC := SC))
    : ServerPingResponse * StatusCache (SC := SC) * option BackendSocket :=
  match routing with
  | None => (build_default_motd_response, cache, None)
  | Some routing =>
    let c := rd_server_config routing in
    let config_id := rd_config_id routing in
    let relayed :=
      let '(response, cache, backend) := relay_or_cache c config_id handshake client_info cache in
      let response := match motd_online (sc_motd c) with Some online => apply_overrides online response | None => response end in
      let response :=
        match sp_favicon response with
        | Some _ => response
        | None => set_favicon (favicon_get (sth_favicon_cache h) config_id) response
        end in
      (response, cache, backend) in
    match server_state c config_id with
    | Some Online | None => relayed
    | Some state => (build_state_motd c state, cache, None)
    end
  end.

(** The client's socket: the buffered bytes go through the decoder of the first read. *)
Definition read_status_request (buffered : bytes) (fin : stream_end) : SK () := λ s,
  let '(r, s) := read_next_frame fin (CTimeout "status request read timed out")
                   (mk_Sock (sk_socket s) (queue_bytes PacketDecoder_new buffered)) in
  (_ ← r; Ok (), mk_Sock (sk_socket s) PacketDecoder_new).

Definition ping_payload (d : DecodedPacket) : Z :=
  match d with
  | Typed _ packet => from_option preq_payload 0 (downcast KSPingRequest packet)
  | Opaque _ _ => 0
  end.
Definition handle_ping_pong (fin : stream_end) : SK () :=
  frame ← read_next_frame fin (CTimeout "ping request read timed out");
  decoded ← sk_protocol (decode_frame registry frame Status Serverbound STATUS_PROTOCOL_VERSION);
  status_send_packet registry (existT KCPingResponse (mk_CPingResponse (ping_payload decoded))) STATUS_PROTOCOL_VERSION.

(** The response after the listeners. *)
Definition fire_ping (remote_addr : SocketAddr) (response : ServerPingResponse) : ServerPingResponse :=
  let api := core_to_api_ping_response response in
  let event := dispatch (sth_listeners h) (mk_ProxyPingEvent remote_addr api) in
  merge_ping_event (component_to_json_value (pr_description api)) (ppe_response event) response.

Record served := mk_served {
  sv_client : BackendSocket;
  sv_cache : StatusCache (SC := SC);
  sv_backend : option BackendSocket }.

(** [client_info] is the context's [connection_info]. *)
Definition status_handle (ctx : ConnectionContext) (broken : option IoErrorKind) (client_info : ConnectionInfo)
    (cache : StatusCache (SC := SC)) : result CoreError () * served :=
  let client := mk_Sock (Build_BackendSocket (ctx_stream ctx) [] broken) PacketDecoder_new in
  match read_status_request (ctx_buffered ctx) (ctx_end ctx) client with
  | (Err e, client) => (Err e, mk_served (sk_socket client) cache None)
  | (Ok _, client) =>
    let '(response, cache, backend) := resolve_response (ext_routing ctx) (ext_handshake ctx) client_info cache in
    let response := fire_ping (source_of client_info) response in
    let '(r, client) :=
      (_ ← status_send_packet registry (existT KCStatusResponse (mk_CStatusResponse (ping_json response)))
             STATUS_PROTOCOL_VERSION;
       handle_ping_pong (ctx_end ctx)) client in
    (r, mk_served (sk_socket client) cache backend)
  end.
End handler.

(** ** Packets on the sockets *)

Section sockets_proofs.
Context `{ZL : Zlib, ZLL : !ZlibLaws, UT : UuidText, UTL : !UuidTextLaws}.

(** The bytes sent for a packet. *)
Definition packet_bytes (registry : PacketRegistry) (p : ErasedPacket) (v : ProtocolVersion) (bs : bytes) : Prop :=
  ∃ payload, encode_payload p v = Ok payload ∧
    frame_packet None (default 0 (get_packet_id registry (projT1 p) (pkt_state (kind_type (projT1 p)))
      (pkt_direction (kind_type (projT1 p))) v)) payload = Ok bs.

Definition wrote (bs : bytes) (s : BackendSocket) : BackendSocket :=
  Build_BackendSocket (bs_in s) (bs_written s ++ bs) (bs_broken s).

Lemma sk_step {A B} (m : SK A) (k : A → SK B) s a s' : m s = (Ok a, s') → (m ≫= k) s = k a s'.
Proof. intros Hm. unfold mbind, sk_bind. by rewrite Hm. Qed.

Lemma sk_result_step {A B} (a : A) (k : A → SK B) s : (sk_result (Ok a) ≫= k) s = k a s.
Proof. done. Qed.

Lemma sk_protocol_step {A B} (a : A) (k : A → SK B) s : (sk_protocol (Ok a) ≫= k) s = k a s.
Proof. done. Qed.

Lemma status_send_writes registry p v bs s :
  packet_bytes registry p v bs → bs_broken (sk_socket s) = None →
  status_send_packet registry p v s = (Ok (), mk_Sock (wrote bs (sk_socket s)) (sk_decoder s)).
Proof.
  intros (payload&He&Hf) Hb. unfold status_send_packet, mbind, sk_bind, sk_protocol, sk_result. rewrite He, Hf.
  unfold sk_write, write_raw, wrote. by rewrite Hb.
Qed.

Lemma read_first_frame_rest fin d raw stream f d' raw' stream' :
  read_first_frame fin d raw stream = (Ok (f, d', raw'), stream') →
  dec_threshold d' = dec_threshold d ∧ (nonempty stream → nonempty stream').
Proof.
  revert d raw. induction stream as [|chunk stream IH]; intros d raw; cbn [read_first_frame];
    pose proof (try_next_frame_split d) as Hs; pose proof (try_next_frame_app d []) as Ha;
    destruct (try_next_frame d) as [[[f0|]|e] d0]; try done.
  - intros [= -> <- <- <-]. destruct (Hs _ _ eq_refl) as (used&_&Ht&_). done.
  - intros [= -> <- <- <-]. destruct (Hs _ _ eq_refl) as (used&_&Ht&_). done.
  - subst d0. destruct (decide (chunk = [])); [done|]. intros [Ht Hn]%IH. split; [done|].
    intros [_ Hne]%Forall_cons. by apply Hn.
Qed.

Lemma read_first_frame_more fin d raw s1 s2 x s' :
  read_first_frame fin d raw s1 = (Ok x, s') → read_first_frame fin d raw (s1 ++ s2) = (Ok x, s' ++ s2).
Proof.
  revert d raw. induction s1 as [|chunk s1 IH]; intros d raw; cbn [read_first_frame app];
    destruct (try_next_frame d) as [[[f0|]|e] d0] eqn:E; try done.
  - intros [= <- <-]. cbn [app]. destruct s2; cbn [read_first_frame]; by rewrite E.
  - by intros [= <- <-].
  - destruct (decide (chunk = [])); [done|]. apply IH.
Qed.

(** What a reader still has before it. *)
Definition ahead (s : Sock) : bytes := dec_buf (sk_decoder s) ++ concat (bs_in (sk_socket s)).
Definition reads_to (s s' : Sock) (rest : bytes) : Prop :=
  ahead s' = rest ∧ nonempty (bs_in (sk_socket s')) ∧ dec_threshold (sk_decoder s') = None ∧
  bs_written (sk_socket s') = bs_written (sk_socket s) ∧ bs_broken (sk_socket s') = bs_broken (sk_socket s).

(** The frame of a packet the registry knows decodes to it. *)
Lemma packet_frame k (p : kind_type k) v bs :
  v ∈ SUPPORTED → intercepted k v = true → pkt_ok p v → packet_bytes build_default_registry (existT k p) v bs →
  ∃ f, (∀ rest, try_next_frame (mk_decoder (bs ++ rest) None) = (Ok (Some f), mk_decoder rest None)) ∧
    decode_frame build_default_registry f (pkt_state (kind_type k)) (pkt_direction (kind_type k)) v =
    Ok (Typed (frame_id f) (existT k (pkt_norm p v))).
Proof.
  intros Hv Hi Hp (payload&He&Hf). destruct (default_packet k p v Hv Hi Hp) as (id&bs'&Hid&Hget&Henc&Hdec).
  cbn [projT1] in Hf. rewrite Hget in Hf. unfold encode_payload in He. cbn [projT1 projT2] in He. rewrite Henc in He.
  apply Ok_inj in He as ->. exists (mk_frame id payload). split; [|exact Hdec].
  intros rest. apply plain_frame_decodes; [exact Hid|exact Hf].
Qed.

Lemma packet_bytes_small k (p : kind_type k) v payload :
  v ∈ SUPPORTED → intercepted k v = true → pkt_ok p v → pkt_encode p v = Ok payload → zlen payload ≤ 2000000 →
  ∃ bs, packet_bytes build_default_registry (existT k p) v bs.
Proof.
  intros Hv Hi Hp He Hlen. destruct (default_packet k p v Hv Hi Hp) as (id&bs'&Hid&Hget&_&_).
  pose proof (VarInt_written_size_range id Hid). unfold packet_bytes. cbn [projT1 projT2]. rewrite Hget.
  unfold encode_payload. cbn [projT1 projT2]. eexists _, payload. split; [exact He|]. unfold frame_packet.
  change (default 0 (Some id)) with id. rewrite decide_False by (unfold MAX_PACKET_SIZE; lia). reflexivity.
Qed.

Lemma read_packet k (p : kind_type k) v bs fin silent s rest :
  v ∈ SUPPORTED → intercepted k v = true → pkt_ok p v → packet_bytes build_default_registry (existT k p) v bs →
  dec_threshold (sk_decoder s) = None → nonempty (bs_in (sk_socket s)) → ahead s = bs ++ rest →
  ∃ f s', read_next_frame fin silent s = (Ok f, s') ∧ reads_to s s' rest ∧
    decode_frame build_default_registry f (pkt_state (kind_type k)) (pkt_direction (kind_type k)) v =
    Ok (Typed (frame_id f) (existT k (pkt_norm p v))).
Proof.
  intros Hv Hi Hp Hbs Hth Hne Ha. destruct (packet_frame k p v bs Hv Hi Hp Hbs) as (f&Hf&Hdec).
  specialize (Hf []). rewrite app_nil_r in Hf.
  destruct (read_first_frame_finds fin (sk_decoder s) _ (bs_in (sk_socket s)) bs rest f eq_refl Hne Ha) as (d'&raw'&stream'&Hr&Hrest&_).
  { by rewrite Hth. }
  destruct (read_first_frame_rest _ _ _ _ _ _ _ _ Hr) as [Ht Hn].
  unfold read_next_frame. rewrite Hr. eexists _, _. split; [reflexivity|]. split; [|exact Hdec].
  split_and!; [exact Hrest|by apply Hn|exact (eq_trans Ht Hth)|done..].
Qed.
End sockets_proofs.

(** ** The relay *)

Section relay_proofs.
Context `{IPN : IpNets, ZL : Zlib, UT : UuidText, UTL : !UuidTextLaws, PP : Ppp, SJ : SerdeJson}.
Context (net : rstring → Z → attempt) (default_timeout : Z) (transport_error_text : TransportError → string).
Abbreviation R := build_default_registry.
Abbreviation SV := STATUS_PROTOCOL_VERSION.

Definition relay_hello (c : ServerConfig) (domain : rstring) (version : ProtocolVersion) : ErasedPacket :=
  existT KSHandshake (mk_SHandshake version (resolve_relay_domain domain c)
    match sc_addresses c with a :: _ => addr_port a | [] => 25565 end Status).

(** A backend that answers: what it is told, and what it says. *)
Record answers (c : ServerConfig) (domain : rstring) (version : ProtocolVersion) (millis : Z) (backend : BackendSocket)
    (r : ServerPingResponse) (told : bytes) : Prop := {
  an_open : bs_broken backend = None;
  an_nonempty : nonempty (bs_in backend);
  an_said : ∃ json pong status_bytes pong_bytes rest,
    ping_from_str json = Some r ∧ pkt_ok (mk_CStatusResponse json) SV ∧ in_s 64 pong ∧
    packet_bytes R (existT KCStatusResponse (mk_CStatusResponse json)) SV status_bytes ∧
    packet_bytes R (existT KCPingResponse (mk_CPingResponse pong)) SV pong_bytes ∧
    concat (bs_in backend) = status_bytes ++ pong_bytes ++ rest;
  an_told : ∃ hello request ping,
    packet_bytes R (relay_hello c domain version) version hello ∧
    packet_bytes R (existT KSStatusRequest mk_SStatusRequest) SV request ∧
    packet_bytes R (existT KSPingRequest (mk_SPingRequest (wrap_s 64 millis))) SV ping ∧
    told = hello ++ request ++ ping }.

Lemma exchange_answered id c domain version millis latency backend r told :
  answers c domain version millis backend r told →
  ∃ s, exchange R id c domain version millis latency (mk_Sock backend PacketDecoder_new) =
      (Ok (Build_RelayResult r latency), s) ∧
    bs_written (sk_socket s) = bs_written backend ++ told.
Proof.
  intros [Hb Hne (json&pong&sbs&pbs&rest&Hj&Hok&Hpong&Hs&Hp&Hin) (hello&request&ping&Hh&Hq&Hpi&->)].
  unfold exchange. fold (relay_hello c domain version).
  rewrite (sk_step _ _ _ _ _ (status_send_writes R _ version hello (mk_Sock backend _) Hh Hb)).
  rewrite (sk_step _ _ _ _ _ (status_send_writes R _ SV request (mk_Sock (wrote hello backend) _) Hq Hb)). cbn [sk_socket sk_decoder].
  destruct (read_packet KCStatusResponse (mk_CStatusResponse json) SV sbs StreamSilent relay_timeout
    (mk_Sock (wrote request (wrote hello backend)) PacketDecoder_new) (pbs ++ rest)) as (f&s1&Hr&(Ha1&Hn1&Ht1&Hw1&Hb1)&Hd1);
    [by apply (bool_decide_unpack _); vm_compute|by vm_compute|exact Hok|exact Hs|done|exact Hne|exact Hin|].
  rewrite (sk_step _ _ _ _ _ Hr). change (pkt_state _) with Status in Hd1. change (pkt_direction _) with Clientbound in Hd1. rewrite Hd1, sk_protocol_step.
  change (status_json _) with (@Ok CoreError _ json). rewrite sk_result_step, Hj, sk_result_step.
  cbn [sk_socket] in Hw1, Hb1.
  rewrite (sk_step _ _ _ _ _ (status_send_writes R _ SV ping s1 Hpi (eq_trans Hb1 Hb))).
  destruct (read_packet KCPingResponse (mk_CPingResponse pong) SV pbs StreamSilent relay_timeout
    (mk_Sock (wrote ping (sk_socket s1)) (sk_decoder s1)) rest) as (g&s2&Hr2&(_&_&_&Hw2&_)&Hd2);
    [by apply (bool_decide_unpack _); vm_compute|by vm_compute|exact Hpong|exact Hp|exact Ht1|exact Hn1|exact Ha1|].
  rewrite (sk_step _ _ _ _ _ Hr2). change (pkt_state _) with Status in Hd2. change (pkt_direction _) with Clientbound in Hd2. rewrite Hd2, sk_protocol_step.
  exists s2. split; [reflexivity|].
  rewrite Hw2. cbn [sk_socket wrote bs_written]. rewrite Hw1. cbn [wrote bs_written]. by rewrite <- !app_assoc.
Qed.
End relay_proofs.

(** ** The handler *)

Section handler_proofs.
Context `{IPN : IpNets, ZL : Zlib, UT : UuidText, UTL : !UuidTextLaws, PP : Ppp, SJ : SerdeJson, SJL : !SerdeJsonLaws}.
Context {SC FM MM SM IM : Type} `{DMSC : !DashMap rstring CachedStatus SC, DMFM : !DashMap rstring rstring FM}.
Context `{DMM : !DashMap rstring ServerEntry MM, DMS : !DashMap Z nat SM, DMI : !DashMap Z Z IM}.
Abbreviation R := build_default_registry.
Abbreviation SV := STATUS_PROTOCOL_VERSION.

Lemma status_version : SV ∈ SUPPORTED.
Proof. by apply (bool_decide_unpack _); vm_compute. Qed.

(** A client that asks for the status, and when it has it sends a ping. *)
Definition asks (ctx : ConnectionContext) (x : Z) : Prop :=
  ∃ request ping s1 s2 rest,
    packet_bytes R (existT KSStatusRequest mk_SStatusRequest) SV request ∧
    in_s 64 x ∧ packet_bytes R (existT KSPingRequest (mk_SPingRequest x)) SV ping ∧
    ctx_stream ctx = s1 ++ s2 ∧ nonempty s1 ∧ nonempty s2 ∧
    ctx_buffered ctx ++ concat s1 = request ∧ concat s2 = ping ++ rest.

(** What a client makes of the bytes it gets. *)
Definition shows (bs : bytes) (r : ServerPingResponse) : Prop :=
  ∃ f json, try_next_frame (mk_decoder bs None) = (Ok (Some f), mk_decoder [] None) ∧
    decode_frame R f Status Clientbound SV = Ok (Typed (frame_id f) (existT KCStatusResponse (mk_CStatusResponse json))) ∧
    ping_from_str json = Some r.
Definition pongs (bs : bytes) (x : Z) : Prop :=
  ∃ f, try_next_frame (mk_decoder bs None) = (Ok (Some f), mk_decoder [] None) ∧
    decode_frame R f Status Clientbound SV = Ok (Typed (frame_id f) (existT KCPingResponse (mk_CPingResponse x))).

Lemma request_read buffered fin s1 s2 w b request d :
  packet_bytes R (existT KSStatusRequest mk_SStatusRequest) SV request →
  nonempty s1 → buffered ++ concat s1 = request →
  read_status_request buffered fin (mk_Sock (Build_BackendSocket (s1 ++ s2) w b) d) =
  (Ok (), mk_Sock (Build_BackendSocket s2 w b) PacketDecoder_new).
Proof.
  intros Hreq Hne Hcat. destruct (packet_frame KSStatusRequest mk_SStatusRequest SV request status_version eq_refl I Hreq) as (f&Hf&_).
  specialize (Hf []). rewrite app_nil_r in Hf.
  destruct (read_first_frame_finds fin (queue_bytes PacketDecoder_new buffered) buffered s1 request [] f) as (d'&raw'&stream'&Hr&Hrest&_);
    [done|exact Hne|by rewrite app_nil_r|exact Hf|].
  destruct (read_first_frame_rest _ _ _ _ _ _ _ _ Hr) as [_ Hn]. specialize (Hn Hne).
  apply app_eq_nil in Hrest as [_ Hs]. destruct stream' as [|chunk stream']; [|by apply Forall_cons in Hn as [Hc _]; destruct chunk].
  unfold read_status_request, read_next_frame. cbn [sk_socket sk_decoder bs_in bs_written bs_broken].
  change (dec_buf (queue_bytes PacketDecoder_new buffered)) with buffered.
  by rewrite (read_first_frame_more _ _ _ _ s2 _ _ Hr).
Qed.

Lemma ping_answered fin s x ping rest :
  in_s 64 x → packet_bytes R (existT KSPingRequest (mk_SPingRequest x)) SV ping →
  dec_threshold (sk_decoder s) = None → nonempty (bs_in (sk_socket s)) → ahead s = ping ++ rest → bs_broken (sk_socket s) = None →
  ∃ pong s', handle_ping_pong R fin s = (Ok (), s') ∧ pongs pong x ∧
    bs_written (sk_socket s') = bs_written (sk_socket s) ++ pong.
Proof.
  intros Hx Hping Hth Hne Ha Hb.
  destruct (read_packet KSPingRequest (mk_SPingRequest x) SV ping fin (CTimeout "ping request read timed out") s rest
    status_version eq_refl Hx Hping Hth Hne Ha) as (f&s1&Hr&(_&_&_&Hw1&Hb1)&Hd).
  destruct (packet_bytes_small KCPingResponse (mk_CPingResponse x) SV (to_be_bytes 8 x)) as (pong&Hpong);
    [exact status_version|by vm_compute|exact Hx|reflexivity|unfold zlen; by rewrite length_to_be_bytes|].
  destruct (packet_frame KCPingResponse (mk_CPingResponse x) SV pong status_version eq_refl Hx Hpong) as (g&Hg&Hdg).
  unfold handle_ping_pong. rewrite (sk_step _ _ _ _ _ Hr). change (pkt_state _) with Status in Hd.
  change (pkt_direction _) with Serverbound in Hd. rewrite Hd, sk_protocol_step.
  change (ping_payload _) with x. eexists pong, _. split; [apply status_send_writes; [exact Hpong|exact (eq_trans Hb1 Hb)]|].
  split; [|cbn; by rewrite Hw1]. exists g. specialize (Hg []). rewrite app_nil_r in Hg. split; [exact Hg|exact Hdg].
Qed.

Lemma status_shown r sb :
  ping_ok r → is_text 32767 (ping_json r) →
  packet_bytes R (existT KCStatusResponse (mk_CStatusResponse (ping_json r))) SV sb → shows sb r.
Proof.
  intros Hr Ht Hsb. destruct (packet_frame KCStatusResponse (mk_CStatusResponse (ping_json r)) SV sb status_version eq_refl Ht Hsb)
    as (g&Hg&Hdg). specialize (Hg []). rewrite app_nil_r in Hg. exists g, (ping_json r).
  split; [exact Hg|]. split; [exact Hdg|]. by apply ping_json_read.
Qed.

Lemma status_bytes json : is_text 32767 json →
  ∃ sb, packet_bytes R (existT KCStatusResponse (mk_CStatusResponse json)) SV sb.
Proof.
  intros Ht. destruct (default_packet KCStatusResponse (mk_CStatusResponse json) SV status_version eq_refl Ht) as (_&payload&_&_&He&_).
  apply (packet_bytes_small KCStatusResponse (mk_CStatusResponse json) SV payload status_version eq_refl Ht He).
  change ((write_string json +> Ok []) = Ok payload) in He. unfold write_string in He.
  destruct (encode_string json) as [bs|e] eqn:Es; [|done].
  destruct (encode_string_Ok _ _ Es) as (Hl&Hin&->). cbn in He. apply Ok_inj in He as <-. rewrite app_nil_r.
  pose proof (VarInt_encode_size _ Hin) as Hsz. pose proof (VarInt_written_size_range _ Hin). pose proof (zlen_as_bytes json).
  unfold zlen in *. rewrite length_app. lia.
Qed.

Context (net : rstring → Z → attempt) (default_timeout : Z) (transport_error_text : TransportError → string).
Context (h : StatusHandler (FM := FM) (MM := MM)) (connections : Players (SM := SM) (IM := IM)) (tm : timing).

(** The response with the favicon the proxy has for the server, if the backend has none. *)
Definition with_favicon (id : rstring) (r : ServerPingResponse) : ServerPingResponse :=
  match sp_favicon r with Some _ => r | None => set_favicon (favicon_get (sth_favicon_cache h) id) r end.

(** C26: A client that asks for the status of a routed server, in any chunks, and then pings,
    where the server is unmanaged or online, has no MOTD of its own for being online, no
    plugin listens to pings, the cache has no fresh response and the backend can be
    connected to and answers with what fits in a packet: the client gets the response of the backend, whatever members
    it has, with the proxy's favicon if it has none, and the payload of its ping; the
    backend is told exactly the handshake, the request and a ping; and the response is
    cached. *)
Theorem status_relayed (ctx : ConnectionContext) (info : ConnectionInfo) (cache : StatusCache (SC := SC)) (c : ServerConfig)
    (id : rstring) (hd : HandshakeData) (backend : BackendSocket) (r : ServerPingResponse) (told : bytes) (x : Z) :
  ext_routing ctx = Some (Build_RoutingData c id) → ext_handshake ctx = Some hd →
  server_state h c id = None ∨ server_state h c id = Some Online →
  motd_online (sc_motd c) = None → sth_listeners h = [] →
  on_arrival (tm_arrived tm) id cache = None → on_locked (tm_locked tm) id cache = None →
  connect net default_timeout id (sc_addresses c) None (sc_send_proxy_protocol c) info = Ok backend →
  answers c (hd_domain hd) (hd_protocol_version hd) (tm_millis tm) backend r told →
  ping_ok (with_favicon id r) → is_text 32767 (ping_json (with_favicon id r)) → asks ctx x →
  ∃ client backend' sb pb,
    status_handle R net default_timeout transport_error_text h connections tm ctx None info cache =
      (Ok (), mk_served client (put (tm_relayed tm) id r (tm_latency tm) None cache) (Some backend')) ∧
    bs_written client = sb ++ pb ∧ shows sb (with_favicon id r) ∧ pongs pb x ∧
    bs_written backend' = bs_written backend ++ told.
Proof.
  intros Hrt Hhs Hst Hmo Hls Harr Hlock Hcon Hans Hok Htext (request&ping&s1&s2&rest&Hreq&Hx&Hping&Hstream&Hn1&Hn2&Hbuf&Hcat).
  destruct (exchange_answered id c _ _ _ (tm_latency tm) backend r told Hans) as (se&Hex&Hse).
  destruct (status_bytes _ Htext) as (sb&Hsb).
  set (client := mk_Sock (Build_BackendSocket s2 [] None) PacketDecoder_new).
  destruct (ping_answered (ctx_end ctx) (mk_Sock (wrote sb (sk_socket client)) (sk_decoder client)) x ping rest Hx Hping
    eq_refl Hn2 Hcat eq_refl) as (pong&s'&Hpp&Hpong&Hw).
  exists (sk_socket s'), (sk_socket se), sb, pong. split; [|split; [exact Hw|split; [by apply status_shown|by split]]].
  assert (Hrel : relay_or_cache R net default_timeout transport_error_text h connections tm c id (Some hd) info cache =
    (r, put (tm_relayed tm) id r (tm_latency tm) None cache, Some (sk_socket se))).
  { unfold relay_or_cache. rewrite Harr, Hlock. unfold relay. cbn [from_option]. by rewrite Hcon, Hex. }
  assert (Hres : resolve_response R net default_timeout transport_error_text h connections tm
      (Some (Build_RoutingData c id)) (Some hd) info cache =
    (with_favicon id r, put (tm_relayed tm) id r (tm_latency tm) None cache, Some (sk_socket se))).
  { unfold resolve_response. cbn [rd_server_config rd_config_id]. rewrite Hrel, Hmo. by destruct Hst as [-> | ->]. }
  assert (Hfire : fire_ping h (source_of info) (with_favicon id r) = with_favicon id r).
  { unfold fire_ping. rewrite Hls. apply merge_unchanged. }
  unfold status_handle. rewrite Hstream, (request_read _ _ s1 s2 _ _ request), Hrt, Hhs, Hres, Hfire by done.
  rewrite (sk_step _ _ _ _ _ (status_send_writes R _ SV sb client Hsb eq_refl)). by rewrite Hpp.
Qed.
End handler_proofs.

(** ** Many clients *)

Section clients.
Context `{IPN : IpNets} {SC FM MM SM IM : Type} `{DMSC : !DashMap rstring CachedStatus SC, DMSCL : !DashMapLaws rstring CachedStatus SC}.
Context `{DMM : !DashMap rstring ServerEntry MM, DMS : !DashMap Z nat SM, DMI : !DashMap Z Z IM}.
Context (h : StatusHandler (FM := FM) (MM := MM)) (connections : Players (SM := SM) (IM := IM)) (configs : rstring → ServerConfig).

(** A request between its parts; [locks] has the holder of the lock of each server. *)
Inductive request := Waiting (id : rstring) | Relaying (id : rstring).
Record relay_world := mk_relay_world {
  wo_cache : StatusCache (SC := SC);
  wo_requests : gmap nat request;
  wo_locks : gmap rstring nat;
  wo_now : Z }.

Inductive happening :=
| Hit (id : rstring) (r : ServerPingResponse)
| Queued (id : rstring)
| Started (id : rstring)
| Ended (id : rstring) (result : result CoreError RelayResult) (answer : ServerPingResponse)
| LeftQueue (id : rstring)
| Dropped (id : rstring)
| ConfigChanged.

(** A client that goes away drops its request, and the lock with it. *)
Inductive relay_step : relay_world → Z → happening → relay_world → Prop :=
| arrive_hit w t id r :
    on_arrival t id (wo_cache w) = Some r →
    relay_step w t (Hit id r) (mk_relay_world (wo_cache w) (wo_requests w) (wo_locks w) t)
| arrive_queue w t id p :
    on_arrival t id (wo_cache w) = None → wo_requests w !! p = None →
    relay_step w t (Queued id) (mk_relay_world (wo_cache w) (<[p := Waiting id]> (wo_requests w)) (wo_locks w) t)
| lock_hit w t id p r :
    wo_requests w !! p = Some (Waiting id) → wo_locks w !! id = None → on_locked t id (wo_cache w) = Some r →
    relay_step w t (Hit id r) (mk_relay_world (wo_cache w) (delete p (wo_requests w)) (wo_locks w) t)
| lock_start w t id p :
    wo_requests w !! p = Some (Waiting id) → wo_locks w !! id = None → on_locked t id (wo_cache w) = None →
    relay_step w t (Started id)
      (mk_relay_world (wo_cache w) (<[p := Relaying id]> (wo_requests w)) (<[id := p]> (wo_locks w)) t)
| relay_end w t id p result answer cache' :
    wo_requests w !! p = Some (Relaying id) →
    on_relayed h connections t (configs id) id result (wo_cache w) = (answer, cache') →
    relay_step w t (Ended id result answer)
      (mk_relay_world cache' (delete p (wo_requests w)) (delete id (wo_locks w)) t)
| drop_waiting w t id p :
    wo_requests w !! p = Some (Waiting id) →
    relay_step w t (LeftQueue id) (mk_relay_world (wo_cache w) (delete p (wo_requests w)) (wo_locks w) t)
| drop_relaying w t id p :
    wo_requests w !! p = Some (Relaying id) →
    relay_step w t (Dropped id)
      (mk_relay_world (wo_cache w) (delete p (wo_requests w)) (delete id (wo_locks w)) t)
| config_changed w t :
    relay_step w t ConfigChanged (mk_relay_world (invalidate_all (wo_cache w)) (wo_requests w) (wo_locks w) t).

Context (ttl : Z).
Definition idle : relay_world := mk_relay_world (StatusCache_new ttl) ∅ ∅ 0.

(** The histories of the handler, the latest event first. *)
Inductive history : list (Z * happening) → relay_world → Prop :=
| history_start : history [] idle
| history_step l w t e w' : history l w → wo_now w ≤ t → relay_step w t e w' → history ((t, e) :: l) w'.

(** *** The specification *)

(** Whether a relay runs for the server, and the last response since the configuration
    changed with its time. *)
Fixpoint running (id : rstring) (l : list (Z * happening)) : bool :=
  match l with
  | [] => false
  | (_, Started id') :: l => if decide (id' = id) then true else running id l
  | (_, Ended id' _ _) :: l | (_, Dropped id') :: l => if decide (id' = id) then false else running id l
  | _ :: l => running id l
  end.
Fixpoint last_known (id : rstring) (l : list (Z * happening)) : option (Z * ServerPingResponse) :=
  match l with
  | [] => None
  | (t, Ended id' (Ok result) _) :: l => if decide (id' = id) then Some (t, rr_response result) else last_known id l
  | (_, ConfigChanged) :: l => None
  | _ :: l => last_known id l
  end.
Definition fresh (t : Z) (known : option (Z * ServerPingResponse)) (r : ServerPingResponse) : Prop :=
  ∃ t0, known = Some (t0, r) ∧ t - t0 < ttl.

Definition expected (l : list (Z * happening)) (t : Z) (e : happening) : Prop :=
  match e with
  | Hit id r => fresh t (last_known id l) r
  | Started id => running id l = false ∧ ∀ r, ¬ fresh t (last_known id l) r
  | Ended id result answer =>
    running id l = true ∧
    answer = match result with
             | Ok result => rr_response result
             | Err _ => from_option snd (build_unreachable_motd h connections (configs id) id) (last_known id l)
             end
  | _ => True
  end.
Fixpoint as_expected (l : list (Z * happening)) : Prop :=
  match l with [] => True | (t, e) :: l => expected l t e ∧ as_expected l end.

(** *** The refinement *)

Record tracks (l : list (Z * happening)) (w : relay_world) : Prop := {
  tr_running id : running id l = true ↔ is_Some (wo_locks w !! id);
  tr_holder id p : wo_locks w !! id = Some p ↔ wo_requests w !! p = Some (Relaying id);
  tr_known id : last_known id l =
    (λ e, (cst_fetched_at e, cst_response e)) <$> dm_get (stc_entries (wo_cache w)) id;
  tr_ttl id e : dm_get (stc_entries (wo_cache w)) id = Some e → cst_ttl e = ttl;
  tr_default : stc_default_ttl (wo_cache w) = ttl }.

Lemma fresh_tracked l w t id r : tracks l w → on_arrival t id (wo_cache w) = Some r ↔ fresh t (last_known id l) r.
Proof.
  intros [_ _ Hk Ht _]. unfold on_arrival, get_fresh, fresh. rewrite Hk. specialize (Ht id).
  destruct (dm_get (stc_entries (wo_cache w)) id) as [e|]; cbv [mbind option_bind fmap option_fmap option_map].
  - rewrite (Ht e eq_refl). case_decide; cbn; split.
    + intros [= <-]. eauto.
    + by intros (t0&[= <- <-]&_).
    + done.
    + intros (t0&[= <- <-]&?). lia.
  - split; [done|]. by intros (t0&?&_).
Qed.

Lemma idle_tracked : tracks [] idle.
Proof.
  split; cbn; [|intros id p; by rewrite !lookup_empty| |by intros id e; rewrite dm_get_new|done].
  - intros id. rewrite lookup_empty. by split; [|intros []].
  - intros id. by rewrite dm_get_new.
Qed.

(** A step that changes neither the locks nor who relays. *)
Lemma tracks_requests l w e t requests :
  tracks l w →
  (∀ p id, requests !! p = Some (Relaying id) ↔ wo_requests w !! p = Some (Relaying id)) →
  (∀ id, running id ((t, e) :: l) = running id l) → (∀ id, last_known id ((t, e) :: l) = last_known id l) →
  tracks ((t, e) :: l) (mk_relay_world (wo_cache w) requests (wo_locks w) t).
Proof.
  intros [Hr Hh Hk Ht Hd] Hreq Hrun Hlast. split; cbn [wo_cache wo_requests wo_locks].
  - intros id. rewrite Hrun. apply Hr.
  - intros id p. rewrite Hreq. apply Hh.
  - intros id. rewrite Hlast. apply Hk.
  - exact Ht.
  - exact Hd.
Qed.

Lemma delete_waiting (requests : gmap nat request) p id0 p' id :
  requests !! p = Some (Waiting id0) →
  delete p requests !! p' = Some (Relaying id) ↔ requests !! p' = Some (Relaying id).
Proof.
  intros Hp. destruct (decide (p = p')) as [<-|Hne]; [rewrite lookup_delete_eq, Hp; by split|].
  by rewrite lookup_delete_ne.
Qed.

(** The lock is released: the relay of [id] is over. *)
Lemma tracks_release l w t e id p cache' :
  tracks l w → wo_requests w !! p = Some (Relaying id) →
  (∀ id', running id' ((t, e) :: l) = if decide (id = id') then false else running id' l) →
  (∀ id', last_known id' ((t, e) :: l) =
    (λ e, (cst_fetched_at e, cst_response e)) <$> dm_get (stc_entries cache') id') →
  (∀ id' e, dm_get (stc_entries cache') id' = Some e → cst_ttl e = ttl) → stc_default_ttl cache' = ttl →
  tracks ((t, e) :: l) (mk_relay_world cache' (delete p (wo_requests w)) (delete id (wo_locks w)) t).
Proof.
  intros [Hr Hh Hk Ht Hd] Hp Hrun Hlast Httl Hdef. pose proof (proj2 (Hh id p) Hp) as Hl.
  split; cbn [wo_cache wo_requests wo_locks]; [| |exact Hlast|exact Httl|exact Hdef].
  - intros id'. rewrite Hrun. destruct (decide (id = id')) as [<-|Hne].
    + rewrite lookup_delete_eq. by split; [|intros []].
    + rewrite lookup_delete_ne by done. apply Hr.
  - intros id' p'. destruct (decide (id = id')) as [<-|Hne], (decide (p = p')) as [<-|Hnp].
    + by rewrite !lookup_delete_eq.
    + rewrite lookup_delete_eq, lookup_delete_ne by done. split; [done|].
      intros Hp'%Hh. congruence.
    + rewrite lookup_delete_ne, lookup_delete_eq by done. split; [|done]. intros Hl'%Hh. congruence.
    + rewrite !lookup_delete_ne by done. apply Hh.
Qed.

Lemma relayed_tracked l w t id result answer cache' :
  tracks l w → on_relayed h connections t (configs id) id result (wo_cache w) = (answer, cache') →
  answer = match result with
           | Ok result => rr_response result
           | Err _ => from_option snd (build_unreachable_motd h connections (configs id) id) (last_known id l)
           end ∧
  (∀ id', last_known id' ((t, Ended id result answer) :: l) =
    (λ e, (cst_fetched_at e, cst_response e)) <$> dm_get (stc_entries cache') id') ∧
  (∀ id' e, dm_get (stc_entries cache') id' = Some e → cst_ttl e = ttl) ∧ stc_default_ttl cache' = ttl.
Proof.
  intros [_ _ Hk Ht Hd]. unfold on_relayed. destruct result as [res|err].
  - intros [= <- <-]. cbn. split; [done|]. split_and!; [|intros id' e|done].
    + intros id'. rewrite dm_get_insert. case_decide; [done|]. apply Hk.
    + rewrite dm_get_insert. case_decide; [intros [= <-]; exact Hd|]. apply Ht.
  - unfold get_stale. rewrite (Hk id). cbn [last_known]. destruct (dm_get (stc_entries (wo_cache w)) id) as [e|]; cbn;
      intros [= <- <-]; done.
Qed.

Lemma step_tracked l w t e w' : tracks l w → relay_step w t e w' → expected l t e ∧ tracks ((t, e) :: l) w'.
Proof.
  intros Htr Hstep. pose proof (λ t id r, fresh_tracked l w t id r Htr) as Hf.
  destruct Hstep as [w t id r Ha|w t id p Ha Hp|w t id p r Hp Hl Ho|w t id p Hp Hl Ho|w t id p result answer cache' Hp Ho|
    w t id p Hp|w t id p Hp|w t].
  - split; [by apply Hf|]. by apply tracks_requests.
  - split; [done|]. apply tracks_requests; [done| |done|done]. intros p' id'.
    destruct (decide (p = p')) as [<-|Hne]; [rewrite lookup_insert_eq, Hp; by split|by rewrite lookup_insert_ne].
  - split; [by apply Hf|]. apply tracks_requests; [done| |done|done]. intros p' id'. by apply (delete_waiting _ _ id).
  - destruct Htr as [Hr Hh Hk Ht Hd]. split; [split|].
    + apply not_true_is_false. rewrite Hr, Hl. by intros [].
    + intros r Hr'%Hf. change (on_locked t id (wo_cache w)) with (on_arrival t id (wo_cache w)) in Ho. congruence.
    + split; cbn [wo_cache wo_requests wo_locks]; [| |done..].
      * intros id'. cbn [running]. case_decide as Hid; [subst; rewrite lookup_insert_eq; by split; eauto|].
        rewrite lookup_insert_ne by done. apply Hr.
      * intros id' p'. destruct (decide (id = id')) as [<-|Hne], (decide (p = p')) as [<-|Hnp].
        -- by rewrite !lookup_insert_eq.
        -- rewrite lookup_insert_eq, lookup_insert_ne by done. split; [congruence|]. intros Hp'%Hh. congruence.
        -- rewrite lookup_insert_ne, lookup_insert_eq by done. split; [|congruence]. intros Hl'%Hh. congruence.
        -- rewrite !lookup_insert_ne by done. apply Hh.
  - destruct (relayed_tracked l w t id result answer cache' Htr Ho) as (Hans&Hlast&Httl&Hdef). split.
    + split; [|exact Hans]. apply (tr_running _ _ Htr). exists p. by apply (tr_holder _ _ Htr).
    + by apply tracks_release.
  - split; [done|]. apply tracks_requests; [done| |done|done]. intros p' id'. by apply (delete_waiting _ _ id).
  - split; [done|]. destruct Htr as [Hr Hh Hk Ht Hd]. by apply tracks_release.
  - split; [done|]. destruct Htr as [Hr Hh Hk Ht Hd]. split; cbn; [done|done| | |done].
    + intros id. by rewrite dm_get_new.
    + intros id e. by rewrite dm_get_new.
Qed.

(** C27: Whatever the turns in which the requests of many clients run, relays of a server
    never overlap, none starts while the last response is younger than its lifetime, a
    cached answer is the last response and younger than its lifetime, and a failed relay
    is answered with the last response since the configuration changed, if there is one. *)
Theorem one_relay_at_a_time (l : list (Z * happening)) (w : relay_world) : history l w → as_expected l.
Proof.
  intros Hh. assert (tracks l w ∧ as_expected l) as [_ H]; [|exact H].
  induction Hh as [|l w t e w' _ [Htr IH] _ Hstep]; [split; [apply idle_tracked|done]|].
  destruct (step_tracked l w t e w' Htr Hstep) as [He Htr']. split; [exact Htr'|by split].
Qed.
End clients.

(** ** The favicon of the configuration *)

(** The favicon of the online entry of a server, which may be the path of a file, is what
    the client gets: the cache that has its contents is not asked. *)
Theorem configured_favicon_sent_raw `{IPN : IpNets, ZL : Zlib, UT : UuidText, PP : Ppp, SJ : SerdeJson} {SC FM MM SM IM : Type}
    `{DMSC : !DashMap rstring CachedStatus SC, DMFM : !DashMap rstring rstring FM, DMM : !DashMap rstring ServerEntry MM,
      DMS : !DashMap Z nat SM, DMI : !DashMap Z Z IM}
    (registry : PacketRegistry) net timeout text (h : StatusHandler (FM := FM) (MM := MM)) (connections : Players (SM := SM) (IM := IM))
    (tm : timing) (c : ServerConfig) (id : rstring) hs info (cache : StatusCache (SC := SC)) (e : MotdEntry) (f : rstring) :
  server_state h c id = None → motd_online (sc_motd c) = Some e → me_favicon e = Some f →
  sp_favicon (resolve_response registry net timeout text h connections tm (Some (Build_RoutingData c id)) hs info cache).1.1 = Some f.
Proof.
  intros Hst Hm Hf. unfold resolve_response. cbn [rd_server_config rd_config_id]. rewrite Hst, Hm.
  destruct (relay_or_cache _ _ _ _ _ _ _ _ _ _ _ _) as [[r cache'] b]. unfold apply_overrides. rewrite Hf. done.
Qed.

(** ** Samples *)

Section samples.
#[local] Existing Instances range_nets stored_zlib hex_uuid hex_uuid_laws spec_ppp reference_parser reference_parser_laws.

Abbreviation SCM := (assoc_map rstring CachedStatus).
Abbreviation FMM := (assoc_map rstring rstring).
Abbreviation MMM := (assoc_map rstring ServerEntry).
Definition sample_status_handler : StatusHandler (FM := FMM) (MM := MMM) :=
  mk_StatusHandler (mk_FaviconCache dm_new (Some (str "data:image/png;base64,AAAA"))) None None [].
Definition no_players : Players (SM := assoc_map Z nat) (IM := assoc_map Z Z) := ConnectionRegistry_new.
Definition sample_timing : timing :=
  {| tm_arrived := 1000; tm_locked := 1000; tm_relayed := 1040; tm_millis := 1700000000000; tm_latency := 20 |}.
Definition sample_ping_response : ServerPingResponse :=
  mk_Ping {| pv_name := str "1.21.4"; pv_protocol := 769 |}
    {| pp_max := 100; pp_online := 2; pp_sample := [{| pps_name := str "Notch"; pps_id := str "069a79f4" |}] |}
    (VObject [(str "color", VStr (str "gold")); (str "text", VStr (str "Hello"))]) None
    [(str "enforcesSecureChat", VBool true); (str "forgeData", VObject [(str "channels", VArray []); (str "fmlNetworkVersion", number 3)])].
Definition status_chat : HandshakeData :=
  {| hd_domain := str "play.example.com"; hd_port := 25565; hd_protocol_version := 769; hd_intent := IntentStatus; hd_raw_packets := [] |}.
Definition status_ctx (stream : list bytes) : ConnectionContext :=
  Build_ConnectionContext stream StreamSilent 1 [] (Some status_chat) (Some (Build_RoutingData survival_config (str "survival"))) None false.
Definition frame_bytes (p : ErasedPacket) (v : ProtocolVersion) : bytes :=
  match encode_payload p v with Ok payload => or_empty (frame_packet None (default 0 (get_packet_id build_default_registry (projT1 p)
      (pkt_state (kind_type (projT1 p))) (pkt_direction (kind_type (projT1 p))) v)) payload) | Err _ => [] end.
Definition request_frame : bytes := frame_bytes (existT KSStatusRequest mk_SStatusRequest) V1_7_2.
Definition ping_frame : bytes := frame_bytes (existT KSPingRequest (mk_SPingRequest 77)) V1_7_2.
Definition backend_says : list bytes :=
  [frame_bytes (existT KCStatusResponse (mk_CStatusResponse (ping_json sample_ping_response))) V1_7_2 ++
   frame_bytes (existT KCPingResponse (mk_CPingResponse 1700000000000)) V1_7_2].

Lemma frame_bytes_packet p v payload bs :
  encode_payload p v = Ok payload →
  frame_packet None (default 0 (get_packet_id build_default_registry (projT1 p)
    (pkt_state (kind_type (projT1 p))) (pkt_direction (kind_type (projT1 p))) v)) payload = Ok bs →
  packet_bytes build_default_registry p v (frame_bytes p v).
Proof. intros He Hf. exists payload. unfold frame_bytes. rewrite He, Hf. by split. Qed.
Ltac frame := eapply frame_bytes_packet; [vm_compute; reflexivity|vm_compute; reflexivity].

Definition sample_told : bytes :=
  frame_bytes (relay_hello survival_config (str "play.example.com") 769) 769 ++ request_frame ++
  frame_bytes (existT KSPingRequest (mk_SPingRequest (wrap_s 64 1700000000000))) V1_7_2.

Lemma sample_answers :
  answers survival_config (str "play.example.com") 769 1700000000000 (sample_backend backend_says) sample_ping_response sample_told.
Proof.
  split; [reflexivity|unfold nonempty; concrete| |].
  - eexists (ping_json sample_ping_response), 1700000000000, _, _, [].
    split; [by vm_compute|]. split; [concrete|]. split; [concrete|]. split; [frame|]. split; [frame|]. by vm_compute.
  - eexists _, _, _. split; [frame|]. split; [frame|]. split; [frame|]. reflexivity.
Qed.

Definition sample_shown : ServerPingResponse := with_favicon sample_status_handler (str "survival") sample_ping_response.

Lemma sample_shown_ok : ping_ok sample_shown.
Proof.
  split; [split; concrete|]. split; [split; [concrete|split; concrete]|]. split; [split; [|by vm_compute]|].
  { split; [concrete|]. cbn [foldr fst snd value_wf]. split; [split; concrete|]. split; [split; concrete|exact I]. }
  split; [concrete|]. split; [|by vm_compute]. split; [|split; [by vm_compute|concrete]].
  split; [concrete|]. cbn [foldr fst snd value_wf]. split; [split; [concrete|exact I]|].
  split; [split; [concrete|]|exact I]. split; [concrete|]. split; [split; [concrete|exact I]|].
  split; [split; [concrete|apply number_wf; concrete]|exact I].
Qed.

Lemma status_relayed_witness :
  ∃ client backend' sb pb,
    status_handle build_default_registry (sample_connection backend_says) 5000 (λ _, EmptyString) sample_status_handler no_players
      sample_timing (status_ctx [take 1 request_frame; drop 1 request_frame; ping_frame]) None legacy_info (StatusCache_new (SC := SCM) 5000) =
      (Ok (), mk_served client (put 1040 (str "survival") sample_ping_response 20 None (StatusCache_new (SC := SCM) 5000)) (Some backend')) ∧
    bs_written client = sb ++ pb ∧ shows sb sample_shown ∧ pongs pb 77 ∧ bs_written backend' = [] ++ sample_told.
Proof.
  apply (status_relayed (sample_connection backend_says) 5000 (λ _, EmptyString) sample_status_handler no_players sample_timing
    (status_ctx [take 1 request_frame; drop 1 request_frame; ping_frame]) legacy_info (StatusCache_new (SC := SCM) 5000) survival_config
    (str "survival") status_chat (sample_backend backend_says) sample_ping_response sample_told 77).
  - done.
  - done.
  - by left.
  - done.
  - done.
  - done.
  - done.
  - by vm_compute.
  - exact sample_answers.
  - exact sample_shown_ok.
  - concrete.
  - exists request_frame, ping_frame, [take 1 request_frame; drop 1 request_frame], [ping_frame], [].
    split; [frame|]. split; [concrete|]. split; [frame|]. split; [done|].
    split; [unfold nonempty; concrete|]. split; [unfold nonempty; concrete|]. split; [by vm_compute|by vm_compute].
Defined.

(** Two clients ask at once; one relay serves both, and a third finds the response. *)
Definition survival_id : rstring := str "survival".
Definition answered_ok : result CoreError RelayResult := Ok (Build_RelayResult sample_ping_response 20).
Definition sample_history : list (Z * happening) :=
  [(50, Hit survival_id sample_ping_response); (41, Hit survival_id sample_ping_response);
   (40, Ended survival_id answered_ok sample_ping_response); (12, Started survival_id);
   (11, Queued survival_id); (10, Queued survival_id)].

Lemma one_relay_at_a_time_witness :
  as_expected sample_status_handler no_players (λ _, survival_config) 5000 sample_history.
Proof.
  eapply (one_relay_at_a_time (SC := SCM) sample_status_handler no_players (λ _, survival_config) 5000 sample_history).
  eapply history_step; [eapply history_step; [eapply history_step; [eapply history_step; [eapply history_step; [eapply history_step;
    [apply history_start|..]|..]|..]|..]|..]|..].
  - by vm_compute.
  - by eapply arrive_queue with (p := 1%nat).
  - by vm_compute.
  - by eapply arrive_queue with (p := 2%nat).
  - by vm_compute.
  - by eapply lock_start with (p := 1%nat).
  - by vm_compute.
  - by eapply relay_end with (p := 1%nat).
  - by vm_compute.
  - by eapply lock_hit with (p := 2%nat).
  - by vm_compute.
  - by eapply arrive_hit.
Defined.

(** A ping in the same read as the request is thrown away with the decoder of the request,
    and the client waits for an answer until the limit is reached. *)
Theorem pipelined_ping_lost :
  (status_handle build_default_registry (sample_connection backend_says) 5000 (λ _, EmptyString) sample_status_handler no_players
    sample_timing (status_ctx [request_frame ++ ping_frame]) None legacy_info (StatusCache_new (SC := SCM) 5000)).1 =
  Err (CTimeout "ping request read timed out").
Proof. by vm_compute. Qed.
End samples.
