(* ===== verification/Migrate.v ===== *)
(** * Migrate: configurations of the first version

    [migrate/] of [infrarust_config]: the YAML configurations of the first version
    ([v1_types.rs]), their conversion ([convert.rs]) and the migration of a directory
    ([io.rs]).  Warnings are collected in the order they are pushed.

    The YAML parser, the TOML printer and parser, [ipnet] and [humantime] are parameters; a
    directory is a list of names with the text of each file that can be read. *)
From S2P Require Import Prelude Wire Utf8 VarInt Codec Version Packet Json Config Router Transport Address Provider Middleware.
From S2P Require Import ProxyCommands Proxy.

(** ** The configurations of the first version *)

Record V1LocalProvider := {
  lp_executable : option rstring;
  lp_working_dir : option rstring;
  lp_args : list rstring;
  lp_startup_string : option rstring }.
Record V1ServerManager := {
  vm_provider_name : option rstring;
  vm_server_id : option rstring;
  vm_empty_shutdown_time : option Z;
  vm_local_provider : option V1LocalProvider }.
Record V1MotdSample := { sm_name : option rstring; sm_id : option rstring }.
Record V1MotdEntry := {
  v1e_enabled : bool;
  v1e_text : option rstring;
  v1e_version_name : option rstring;
  v1e_max_players : option Z;
  v1e_online_players : option Z;
  v1e_protocol_version : option Z;
  v1e_favicon : option rstring;
  v1e_samples : list V1MotdSample }.
Record V1Motds := {
  v1m_online : option V1MotdEntry;
  v1m_offline : option V1MotdEntry;
  v1m_unreachable : option V1MotdEntry;
  v1m_starting : option V1MotdEntry;
  v1m_stopping : option V1MotdEntry;
  v1m_shutting_down : option V1MotdEntry;
  v1m_crashed : option V1MotdEntry;
  v1m_unknown : option V1MotdEntry;
  v1m_unable_status : option V1MotdEntry }.
Record V1GenericFilter := { gf_enabled : bool }.
Record V1IpFilter := { if_enabled : bool; if_whitelist : list rstring; if_blacklist : list rstring }.
Record V1Filters := {
  vf_rate_limiter : option V1GenericFilter;
  vf_ip_filter : option V1IpFilter;
  vf_id_filter : option V1GenericFilter;
  vf_name_filter : option V1GenericFilter;
  vf_ban : option V1GenericFilter }.
Record V1Caches := { cc_status_ttl_seconds : option Z; cc_max_status_entries : option Z }.
Record V1ServerConfig := {
  v1_domains : list rstring;
  v1_addresses : list rstring;
  v1_proxy_mode : option rstring;
  v1_send_proxy_protocol : option bool;
  v1_proxy_protocol_version : option Z;
  v1_backend_domain : option rstring;
  v1_rewrite_domain : option bool;
  v1_config_id : option rstring;
  v1_server_manager : option V1ServerManager;
  v1_motds : option V1Motds;
  v1_filters : option V1Filters;
  v1_caches : option V1Caches }.

Record V1FileProvider := { fp_proxies_path : list rstring; fp_watch : option bool }.
Record V1RateLimiter := { vr_request_limit : option Z; vr_window_length : option rstring }.
Record V1Ban := {
  vb_enabled : bool;
  vb_file_path : option rstring;
  vb_enable_audit_log : option bool;
  vb_auto_cleanup_interval : option Z }.
Record V1GlobalFilters := {
  gg_rate_limiter : option V1RateLimiter;
  gg_ip_filter : option V1IpFilter;
  gg_id_filter : option V1GenericFilter;
  gg_name_filter : option V1GenericFilter;
  gg_ban : option V1Ban }.
Record V1Cache := { vc_status_ttl_seconds : option Z; vc_max_status_entries : option Z }.
Record V1Telemetry := {
  vt_enabled : bool;
  vt_export_url : option rstring;
  vt_export_interval_seconds : option Z;
  vt_enable_metrics : option bool;
  vt_enable_tracing : option bool }.
Record V1ProxyProtocol := {
  vp_enabled : bool;
  vp_receive_enabled : option bool;
  vp_receive_timeout_secs : option Z;
  vp_receive_allowed_versions : option (list Z) }.
Record V1ManagerCredentials := { cr_enabled : bool; cr_key : option rstring; cr_base_url : option rstring }.
Record V1ManagersConfig := {
  mc_pterodactyl : option V1ManagerCredentials;
  mc_crafty : option V1ManagerCredentials }.
Record V1DockerProvider := {
  vd_docker_host : option rstring;
  vd_polling_interval : option Z;
  vd_label_prefix : option rstring;
  vd_watch : option bool }.
(** [logging] is any YAML value: whether there is one. *)
Record V1InfrarustConfig := {
  vi_bind : option rstring;
  vi_keep_alive_timeout : option rstring;
  vi_handshake_timeout_secs : option Z;
  vi_status_request_timeout_secs : option Z;
  vi_file_provider : option V1FileProvider;
  vi_filters : option V1GlobalFilters;
  vi_cache : option V1Cache;
  vi_logging : option ();
  vi_telemetry : option V1Telemetry;
  vi_managers_config : option V1ManagersConfig;
  vi_proxy_protocol : option V1ProxyProtocol;
  vi_motds : option V1Motds;
  vi_docker_provider : option V1DockerProvider }.

(** ** Warnings *)

Inductive MigrationSeverity := SevInfo | SevWarning | SevError.
#[export] Instance MigrationSeverity_eq_dec : EqDecision MigrationSeverity.
Proof. solve_decision. Defined.
Record MigrationWarning := { mw_severity : MigrationSeverity; mw_file : rstring; mw_message : rstring }.
#[export] Instance MigrationWarning_eq_dec : EqDecision MigrationWarning.
Proof. solve_decision. Defined.

(** A warning that is pushed when the condition holds. *)
Definition warn_if (b : bool) (w : MigrationWarning) : list MigrationWarning := if b then [w] else [].
Definition opt_has {A} (p : A → bool) (o : option A) : bool := match o with Some a => p a | None => false end.
Definition is_given {A} (o : option A) : bool := match o with Some _ => true | None => false end.

Section convert.
Context `{IPN : IpNets} `{LC : Lowercase}.

(** [ipnet] and [std::net]: the text of a block, of an address, and the block of one address. *)
Class IpNetText := {
  parse_ipnet : rstring → option IpNet;
  parse_ip : rstring → option IpAddr;
  net_of_ip : IpAddr → IpNet }.
Context `{INT : IpNetText}.
(** [humantime::parse_duration]. *)
Class Humantime := parse_duration : rstring → option Duration.
Context `{HT : Humantime}.

Record MigrationResult := { mr_config : ServerConfig; mr_warnings : list MigrationWarning }.

(** ** A server *)

(** The text before the first ['@']. *)
Definition before_at (id : rstring) : rstring := match split_once 64 id with Some (a, _) => a | None => id end.

Definition name_char (c : Z) : Z :=
  if decide (48 ≤ c ≤ 57 ∨ 65 ≤ c ≤ 90 ∨ 97 ≤ c ≤ 122 ∨ c = 45 ∨ c = 95) then c else 45.
Definition sanitize (s : rstring) : rstring := name_char <$> to_lowercase s.

(** [str::strip_suffix]. *)
Definition strip_suffix (suffix s : rstring) : option rstring :=
  let n := (length s - length suffix)%nat in
  if decide (drop n s = suffix) then Some (take n s) else None.

Definition yaml_stem (filename : rstring) : rstring :=
  match strip_suffix (str ".yaml") filename with
  | Some stem => stem
  | None => default filename (strip_suffix (str ".yml") filename)
  end.

Definition v2_name (v1 : V1ServerConfig) (filename : rstring) : option rstring :=
  match v1_config_id v1 with
  | Some id => Some (sanitize (before_at id))
  | None => Some (sanitize (yaml_stem filename))
  end.

Definition convert_proxy_mode (mode : option rstring) (filename : rstring) : ProxyMode * list MigrationWarning :=
  match mode with
  | None => (Passthrough, [])
  | Some m =>
    if decide (m = str "passthrough") then (Passthrough, [])
    else if decide (m = str "zerocopy_passthrough") then (ZeroCopy, [])
    else if decide (m = str "offline") then (Offline, [])
    else if decide (m = str "client_only") then (ClientOnly, [])
    else if decide (m = str "server_only") then (ServerOnly, [])
    else (Passthrough, [Build_MigrationWarning SevWarning filename
            (str "Unknown proxy mode '" ++ m ++ str "', defaulting to passthrough")])
  end.

Definition convert_domain_rewrite (v1 : V1ServerConfig) : DomainRewrite :=
  match v1_backend_domain v1 with
  | Some domain => RewriteExplicit domain
  | None => if decide (v1_rewrite_domain v1 = Some true) then RewriteFromBackend else RewriteNone
  end.

(** The only error an address gives. *)
Definition address_error (e : ConfigError) : rstring :=
  match e with InvalidAddress s => str "invalid server address: " ++ s | _ => [] end.

Fixpoint convert_addresses (addrs : list rstring) (filename : rstring) : list ServerAddress * list MigrationWarning :=
  match addrs with
  | [] => ([], [])
  | addr :: addrs =>
    let '(parsed, ws) := convert_addresses addrs filename in
    match ServerAddress_from_str addr with
    | Ok a => (a :: parsed, ws)
    | Err e => (parsed, Build_MigrationWarning SevError filename
                 (str "Cannot parse address '" ++ addr ++ str "': " ++ address_error e) :: ws)
    end
  end.

Definition convert_v1_motd_entry (entry : V1MotdEntry) : option MotdEntry :=
  if negb (v1e_enabled entry) then None
  else text ← v1e_text entry;
    Some (Build_MotdEntry text (v1e_favicon entry) (v1e_version_name entry) (v1e_max_players entry)).

Definition has_dropped_fields (entry : option V1MotdEntry) : bool :=
  opt_has (λ e, v1e_enabled e &&
    (is_given (v1e_protocol_version e) || is_given (v1e_online_players e) || negb (bool_decide (length (v1e_samples e) = 0%nat))))
    entry.

(** [Option::or]. *)
Definition opt_or {A} (a b : option A) : option A := match a with Some _ => a | None => b end.

Definition convert_motds (v1 : V1ServerConfig) (filename : rstring) : MotdConfig * list MigrationWarning :=
  match v1_motds v1 with
  | None => (MotdConfig_default, [])
  | Some motds =>
    let conv o := o ≫= convert_v1_motd_entry in
    let v1_stopping := conv (v1m_stopping motds) in
    let v1_shutting_down := conv (v1m_shutting_down motds) in
    let '(stopping, w1) :=
      match v1_stopping, v1_shutting_down with
      | Some _, Some _ =>
        (v1_shutting_down, [Build_MigrationWarning SevInfo filename
           (str "Both 'stopping' and 'shutting_down' MOTDs exist; using 'shutting_down'")])
      | _, Some _ => (v1_shutting_down, [])
      | Some _, None => (v1_stopping, [])
      | None, None => (None, [])
      end in
    let has_unknown := opt_has v1e_enabled (v1m_unknown motds) in
    let has_unable := opt_has v1e_enabled (v1m_unable_status motds) in
    let unreachable := opt_or (opt_or (conv (v1m_unreachable motds)) (conv (v1m_unknown motds)))
                         (conv (v1m_unable_status motds)) in
    let w2 := warn_if (has_unknown || has_unable) (Build_MigrationWarning SevInfo filename
      (if opt_has v1e_enabled (v1m_unreachable motds)
       then str "'unknown'/'unable_status' MOTDs merged into 'unreachable' (using 'unreachable')"
       else str "'unknown'/'unable_status' MOTDs renamed to 'unreachable' in V2")) in
    let all_entries := [v1m_online motds; v1m_offline motds; v1m_unreachable motds; v1m_starting motds; v1m_stopping motds;
                        v1m_shutting_down motds; v1m_crashed motds; v1m_unknown motds; v1m_unable_status motds] in
    let w3 := warn_if (existsb has_dropped_fields all_entries) (Build_MigrationWarning SevInfo filename
      (str "MOTD fields 'protocol_version', 'online_players', 'samples' are not supported in V2 and were dropped")) in
    (Build_MotdConfig (conv (v1m_online motds)) None (conv (v1m_offline motds)) (conv (v1m_starting motds))
       (conv (v1m_crashed motds)) stopping unreachable, w1 ++ w2 ++ w3)
  end.

(** The identifier of a panel's server, with the error when there is none. *)
Definition panel_server_id (server_id : option rstring) (panel filename : rstring) : rstring * list MigrationWarning :=
  match server_id with
  | Some id => (id, [])
  | None => (str "TODO: fill in your server ID",
             [Build_MigrationWarning SevError filename (panel ++ str " server_id is missing, must be filled in manually")])
  end.

Definition convert_local (sm : V1ServerManager) (filename : rstring) : option ServerManagerConfig * list MigrationWarning :=
  match vm_local_provider sm with
  | None => (None, [Build_MigrationWarning SevError filename
                      (str "Local server manager has no local_provider config, skipping")])
  | Some lp =>
    (Some (SMLocal (Build_LocalManagerConfig (default (str "java") (lp_executable lp)) (default (str ".") (lp_working_dir lp))
       (lp_args lp) (default ready_pattern (lp_startup_string lp)) shutdown_timeout
       (from_secs <$> vm_empty_shutdown_time sm) start_timeout)), [])
  end.

Definition convert_server_manager (v1 : V1ServerConfig) (filename : rstring)
    : option ServerManagerConfig * list MigrationWarning :=
  match v1_server_manager v1 with
  | None => (None, [])
  | Some sm =>
    match vm_provider_name sm with
    | None => (None, [Build_MigrationWarning SevWarning filename (str "server_manager has no provider_name, skipping")])
    | Some provider =>
      let shutdown_after := from_secs <$> vm_empty_shutdown_time sm in
      let other := to_lowercase provider in
      if decide (other = str "local") then convert_local sm filename
      else if decide (other = str "pterodactyl") then
        let '(server_id, ws) := panel_server_id (vm_server_id sm) (str "Pterodactyl") filename in
        (Some (SMPterodactyl (Build_PterodactylManagerConfig (str "TODO: fill in your Pterodactyl panel URL")
           (str "TODO: fill in your API key") server_id shutdown_after start_timeout poll_interval)),
         Build_MigrationWarning SevWarning filename
           (str "Pterodactyl api_url and api_key must be filled in manually (stored globally in V1)") :: ws)
      else if decide (other = str "crafty") then
        let '(server_id, ws) := panel_server_id (vm_server_id sm) (str "Crafty") filename in
        (Some (SMCrafty (Build_CraftyManagerConfig (str "TODO: fill in your Crafty Controller URL")
           (str "TODO: fill in your API key") server_id shutdown_after start_timeout poll_interval)),
         Build_MigrationWarning SevWarning filename
           (str "Crafty api_url and api_key must be filled in manually (stored globally in V1)") :: ws)
      else (None, [Build_MigrationWarning SevWarning filename
                     (str "Server manager provider '" ++ other ++ str "' is not supported in V2, skipping")])
    end
  end.

Definition parse_ip_entry (s : rstring) : option IpNet :=
  match parse_ipnet s with Some net => Some net | None => net_of_ip <$> parse_ip s end.

Definition parse_ip_list (l : list rstring) (filename : rstring) : list IpNet * list MigrationWarning :=
  (omap parse_ip_entry l,
   (λ s, Build_MigrationWarning SevWarning filename (str "Cannot parse IP filter entry '" ++ s ++ str "', skipping"))
     <$> filter (λ s, parse_ip_entry s = None) l).

Definition convert_ip_filter (v1 : V1ServerConfig) (filename : rstring) : option IpFilterConfig * list MigrationWarning :=
  match v1_filters v1 ≫= vf_ip_filter with
  | None => (None, [])
  | Some ip =>
    if negb (if_enabled ip) then (None, [])
    else
      let '(wl, w1) := parse_ip_list (if_whitelist ip) filename in
      let '(bl, w2) := parse_ip_list (if_blacklist ip) filename in
      if decide (wl = [] ∧ bl = []) then
        (None, w1 ++ w2 ++ warn_if (negb (bool_decide (if_whitelist ip = [])) || negb (bool_decide (if_blacklist ip = [])))
                 (Build_MigrationWarning SevWarning filename
                    (str "All IP filter entries failed to parse; IP filter removed entirely")))
      else (Some (Build_IpFilterConfig wl bl), w1 ++ w2)
  end.

Definition filter_warnings (v1 : V1ServerConfig) (filename : rstring) : list MigrationWarning :=
  match v1_filters v1 with
  | None => []
  | Some f =>
    warn_if (opt_has gf_enabled (vf_rate_limiter f)) (Build_MigrationWarning SevInfo filename
      (str "Per-server rate limiter is now global in V2 (see infrarust.toml [rate_limit])")) ++
    warn_if (opt_has gf_enabled (vf_id_filter f)) (Build_MigrationWarning SevWarning filename
      (str "ID filter is not available in V2 server config")) ++
    warn_if (opt_has gf_enabled (vf_name_filter f)) (Build_MigrationWarning SevWarning filename
      (str "Name filter is not available in V2 server config")) ++
    warn_if (opt_has gf_enabled (vf_ban f)) (Build_MigrationWarning SevInfo filename
      (str "Per-server ban config is now global in V2 (see infrarust.toml [ban])"))
  end.

Definition convert_v1_to_v2 (v1 : V1ServerConfig) (filename : rstring) : MigrationResult :=
  let name := v2_name v1 filename in
  let '(proxy_mode, w1) := convert_proxy_mode (v1_proxy_mode v1) filename in
  let domain_rewrite := convert_domain_rewrite v1 in
  let w2 := warn_if (is_given (v1_proxy_protocol_version v1)) (Build_MigrationWarning SevInfo filename
    (str "proxy_protocol_version is no longer supported in V2 (auto-detected)")) in
  let '(addresses, w3) := convert_addresses (v1_addresses v1) filename in
  let w4 := warn_if (bool_decide (addresses = []) && negb (bool_decide (v1_addresses v1 = [])))
    (Build_MigrationWarning SevError filename
       (str "ALL addresses failed to parse " ++ [0x2014] ++ str " this server will have no backends!")) in
  let '(motd, w5) := convert_motds v1 filename in
  let '(server_manager, w6) := convert_server_manager v1 filename in
  let '(ip_filter, w7) := convert_ip_filter v1 filename in
  let w8 := filter_warnings v1 filename in
  let w9 := warn_if (is_given (v1_caches v1)) (Build_MigrationWarning SevInfo filename
    (str "Per-server cache config is now global in V2 (see infrarust.toml [status_cache])")) in
  let max_players := default 0 (m ← v1_motds v1; e ← v1m_online m; v1e_max_players e) in
  Build_MigrationResult
    (Build_ServerConfig None name None (v1_domains v1) addresses proxy_mode None
       (default false (v1_send_proxy_protocol v1)) domain_rewrite motd server_manager None max_players ip_filter None [])
    (w1 ++ w2 ++ w3 ++ w4 ++ w5 ++ w6 ++ w7 ++ w8 ++ w9).

(** ** The proxy *)

Record ProxyMigrationResult := { pr_config : ProxyConfig; pr_warnings : list MigrationWarning }.

(** The default message of the day: whether the entry was enabled is not looked at. *)
Definition convert_default_motd (motds : option V1Motds) : option MotdConfig :=
  motds ← motds;
  e ← opt_or (opt_or (v1m_unreachable motds) (v1m_unknown motds)) (v1m_unable_status motds);
  text ← v1e_text e;
  Some (Build_MotdConfig (Some (Build_MotdEntry text (v1e_favicon e) (v1e_version_name e) (v1e_max_players e)))
          None None None None None None).

Definition convert_rate_limit (rl : V1RateLimiter) : RateLimitConfig :=
  Build_RateLimitConfig (rl_enabled RateLimitConfig_default) (default rate_limit_max (vr_request_limit rl))
    (default rate_limit_window (vr_window_length rl ≫= parse_duration))
    (rl_status_max RateLimitConfig_default) (rl_status_window RateLimitConfig_default).

Definition convert_ban (b : V1Ban) : BanConfig :=
  Build_BanConfig (default ban_file (vb_file_path b)) (default ban_purge_interval (from_secs <$> vb_auto_cleanup_interval b))
    (default ban_audit_log (vb_enable_audit_log b)).

Definition convert_status_cache (c : V1Cache) : StatusCacheConfig :=
  Build_StatusCacheConfig (default status_cache_ttl (from_secs <$> vc_status_ttl_seconds c))
    (default status_cache_max_entries (vc_max_status_entries c)).

Definition convert_telemetry (t : V1Telemetry) : TelemetryConfig :=
  Build_TelemetryConfig (vt_enabled t) (vt_export_url t) telemetry_protocol
    (Build_MetricsConfig (default true (vt_enable_metrics t))
       (default metrics_export_interval (from_secs <$> vt_export_interval_seconds t)))
    (Build_TracesConfig (default true (vt_enable_tracing t)) (tr_sampling_ratio TracesConfig_default))
    ResourceConfig_default.

Definition convert_docker (dp : V1DockerProvider) : DockerProviderConfig :=
  Build_DockerProviderConfig (default docker_endpoint (vd_docker_host dp)) None
    (default docker_poll_interval (from_secs <$> vd_polling_interval dp)) docker_reconnect_delay.

(** What the conversion of the proxy's configuration says it drops. *)
Definition proxy_warnings (v1 : V1InfrarustConfig) (servers_dir : rstring) : list MigrationWarning :=
  let file := str "config.yaml" in
  let warn sev msg := Build_MigrationWarning sev file msg in
  let paths := from_option fp_proxies_path [] (vi_file_provider v1) in
  let filters := vi_filters v1 in
  warn_if (bool_decide (1 < length paths)%nat) (warn SevWarning
    (str "V2 supports only one servers_dir; using '" ++ servers_dir ++ str "', ignoring " ++
     str (pretty (length paths - 1)%nat) ++ str " other path(s)")) ++
  warn_if (is_given (vi_handshake_timeout_secs v1) || is_given (vi_status_request_timeout_secs v1))
    (warn SevInfo (str "handshake_timeout_secs and status_request_timeout_secs are not in V2")) ++
  warn_if (opt_has (λ f, opt_has if_enabled (gg_ip_filter f)) filters)
    (warn SevWarning (str "Global IP filter is per-server in V2, must be configured in each server .toml")) ++
  warn_if (opt_has (λ f, opt_has gf_enabled (gg_id_filter f)) filters)
    (warn SevWarning (str "ID filter is not available in V2")) ++
  warn_if (opt_has (λ f, opt_has gf_enabled (gg_name_filter f)) filters)
    (warn SevWarning (str "Name filter is not available in V2")) ++
  warn_if (opt_has (λ pp, is_given (vp_receive_timeout_secs pp) || is_given (vp_receive_allowed_versions pp))
             (vi_proxy_protocol v1))
    (warn SevInfo (str "proxy_protocol.receive_timeout_secs and receive_allowed_versions are not in V2")) ++
  warn_if (is_given (vi_logging v1))
    (warn SevInfo (str "Logging config is not in V2; use RUST_LOG env var or --log-level CLI flag")) ++
  warn_if (is_given (vi_managers_config v1))
    (warn SevWarning (str "managers_config (Pterodactyl/Crafty credentials) is now per-server in V2 [server_manager] sections")).

Definition convert_v1_proxy_config (v1 : V1InfrarustConfig) : ProxyMigrationResult :=
  let bind := default default_bind (vi_bind v1 ≫= socket_addr_from_str) in
  let keepalive :=
    match vi_keep_alive_timeout v1 ≫= parse_duration with
    | Some time => Build_KeepaliveConfig time keepalive_interval keepalive_retries
    | None => KeepaliveConfig_default
    end in
  let dir := default servers_dir (fp ← vi_file_provider v1; head (fp_proxies_path fp)) in
  Build_ProxyMigrationResult
    {| px_bind := bind;
       px_max_connections := 0;
       px_connect_timeout := connect_timeout;
       px_receive_proxy_protocol := default false (vi_proxy_protocol v1 ≫= vp_receive_enabled);
       px_servers_dir := dir;
       px_plugins_dir := plugins_dir;
       px_worker_threads := 0;
       px_rate_limit := from_option convert_rate_limit RateLimitConfig_default (vi_filters v1 ≫= gg_rate_limiter);
       px_status_cache := from_option convert_status_cache StatusCacheConfig_default (vi_cache v1);
       px_default_motd := convert_default_motd (vi_motds v1);
       px_telemetry := convert_telemetry <$> vi_telemetry v1;
       px_keepalive := keepalive;
       px_so_reuseport := false;
       px_ban := from_option convert_ban BanConfig_default (vi_filters v1 ≫= gg_ban);
       px_docker := convert_docker <$> vi_docker_provider v1;
       px_ip_filter := None;
       px_unknown_domain_behavior := DefaultMotd;
       px_announce_proxy_commands := announce_proxy_commands;
       px_forwarding := None;
       px_web := None;
       px_permissions := PermissionsConfig_default;
       px_plugins := [] |}
    (proxy_warnings v1 dir).

(** ** A directory *)

(** The YAML parser and the TOML printer, with the text of their errors. *)
Class Formats := {
  from_yaml : rstring → result rstring V1ServerConfig;
  proxy_from_yaml : rstring → result rstring V1InfrarustConfig;
  to_toml : ServerConfig → result rstring rstring;
  proxy_to_toml : ProxyConfig → result rstring rstring }.
Context `{FM : Formats}.

(** What the file system holds and answers; [fs_write] is the outcome of a write. *)
Abbreviation dir_entry := (result rstring (rstring * result rstring rstring)) (only parsing).
Record files := {
  fs_input : option (result rstring (list dir_entry));
  fs_create : result rstring ();
  fs_write : rstring → result rstring () }.

(** The files written so far, the warnings and the two counters, which count files. *)
Record migration := {
  mg_out : gmap rstring rstring;
  mg_warnings : list MigrationWarning;
  mg_converted : Z;
  mg_skipped : Z }.

Definition mg_skip (ws : list MigrationWarning) (st : migration) : migration :=
  Build_migration (mg_out st) (mg_warnings st ++ ws) (mg_converted st) (mg_skipped st + 1).

Definition is_yaml (name : rstring) : bool :=
  bool_decide (extension name = Some (str "yaml") ∨ extension name = Some (str "yml")).

Definition out_name (filename : rstring) : rstring := file_stem filename ++ str ".toml".

Definition migrate_entry (fs : files) (filename : rstring) (content : result rstring rstring) (st : migration) : migration :=
  let error msg e := Build_MigrationWarning SevError filename (str msg ++ e) in
  if negb (is_yaml filename) then st
  else
    match content with
    | Err e => mg_skip [error "Cannot read file: "%string e] st
    | Ok content =>
      match from_yaml content with
      | Err e => mg_skip [error "YAML parse error: "%string e] st
      | Ok v1 =>
        if decide (v1_domains v1 = [] ∧ v1_addresses v1 = []) then
          mg_skip [Build_MigrationWarning SevWarning filename (str "Skipped: empty config (no domains or addresses)")] st
        else
          let r := convert_v1_to_v2 v1 filename in
          match to_toml (mr_config r) with
          | Err e => mg_skip (mr_warnings r ++ [error "TOML serialization error: "%string e]) st
          | Ok toml_content =>
            match fs_write fs (out_name filename) with
            | Err e => mg_skip (mr_warnings r ++ [error "Cannot write output file: "%string e]) st
            | Ok _ => Build_migration (<[out_name filename := toml_content]> (mg_out st))
                        (mg_warnings st ++ mr_warnings r) (mg_converted st + 1) (mg_skipped st)
            end
          end
      end
    end.

(** The entries that could be read, and a warning for each that could not. *)
Definition readable_entries (entries : list dir_entry) : list (rstring * result rstring rstring) :=
  omap (λ e, match e with Ok e => Some e | Err _ => None end) entries.
Definition entry_warnings (entries : list dir_entry) : list MigrationWarning :=
  omap (λ e, match e with
             | Ok _ => None
             | Err e => Some (Build_MigrationWarning SevError (str "unknown") (str "Cannot read directory entry: " ++ e))
             end) entries.

Definition summary (st : migration) : MigrationWarning :=
  Build_MigrationWarning SevInfo (str "summary")
    (str (pretty (mg_converted st)) ++ str " file(s) converted, " ++ str (pretty (mg_skipped st)) ++ str " skipped").

Definition migrate_directory (fs : files) (input_dir output_dir : rstring) (out : gmap rstring rstring)
    : result ConfigError (list MigrationWarning) * gmap rstring rstring :=
  match fs_input fs with
  | None => (Err (Validation (str "Input directory does not exist: " ++ input_dir)), out)
  | Some listing =>
    match fs_create fs with
    | Err e => (Err (Validation (str "Cannot create output directory " ++ output_dir ++ str ": " ++ e)), out)
    | Ok _ =>
      match listing with
      | Err e => (Err (Validation (str "Cannot read input directory " ++ input_dir ++ str ": " ++ e)), out)
      | Ok entries =>
        let st := foldl (λ st e, migrate_entry fs e.1 e.2 st) (Build_migration out (entry_warnings entries) 0 0)
                    (readable_entries entries) in
        (Ok (mg_warnings st ++ [summary st]), mg_out st)
      end
    end
  end.

(** [parent] is the outcome of creating the directory of the output, when it has one. *)
Definition migrate_proxy_config (content : result rstring rstring) (parent write : result rstring ()) (input output dir : rstring)
    : result ConfigError (list MigrationWarning * rstring) :=
  let failed {A} (r : result rstring A) (what : rstring) : result ConfigError A :=
    match r with Ok a => Ok a | Err e => Err (Validation (what ++ e)) end in
  content ← failed content (str "Cannot read config file " ++ input ++ str ": ");
  v1 ← failed (proxy_from_yaml content) (str "YAML parse error in " ++ input ++ str ": ");
  let r := convert_v1_proxy_config v1 in
  toml_content ← failed (proxy_to_toml (pr_config r)) (str "TOML serialization error: ");
  _ ← failed parent (str "Cannot create output directory " ++ dir ++ str ": ");
  _ ← failed write (str "Cannot write output file " ++ output ++ str ": ");
  Ok (pr_warnings r, toml_content).

(** ** What a migrated server is *)

(** Nothing that [to_lowercase] gives is an ASCII capital. *)
Class LowercaseCaps := to_lowercase_caps s : Forall (λ c, ¬ (65 ≤ c ≤ 90)) (to_lowercase s).

Lemma convert_addresses_omap addrs f :
  (convert_addresses addrs f).1 = omap (λ s, match ServerAddress_from_str s with Ok a => Some a | Err _ => None end) addrs.
Proof.
  induction addrs as [|s addrs IH]; [done|]. cbn. destruct (convert_addresses addrs f) as [ps ws]. cbn in IH. subst.
  by destruct (ServerAddress_from_str s).
Qed.

(** Only the empty text is not an address. *)
Lemma from_str_fails s e : ServerAddress_from_str s = Err e ↔ s = [] ∧ e = InvalidAddress [].
Proof.
  split.
  - unfold ServerAddress_from_str. destruct (socket_addr_from_str s); [done|].
    destruct (_ ≫= _) as [[h p]|]; [done|]. case_decide; [|done]. subst. by intros [= <-].
  - intros [-> ->]. by vm_compute.
Qed.

Lemma convert_v1_fields v1 f :
  let c := mr_config (convert_v1_to_v2 v1 f) in
  sc_name c = v2_name v1 f ∧ sc_network c = None ∧ sc_domains c = v1_domains v1 ∧
  sc_addresses c = (convert_addresses (v1_addresses v1) f).1 ∧
  sc_proxy_mode c = (convert_proxy_mode (v1_proxy_mode v1) f).1 ∧
  sc_server_manager c = (convert_server_manager v1 f).1 ∧ sc_ip_filter c = (convert_ip_filter v1 f).1.
Proof.
  unfold convert_v1_to_v2. destruct (convert_proxy_mode _ _), (convert_addresses _ _), (convert_motds _ _).
  by destruct (convert_server_manager _ _), (convert_ip_filter _ _).
Qed.

Lemma sanitize_identifier `{!LowercaseCaps} s : Forall (λ c, identifier_byte c = true) (sanitize s).
Proof.
  unfold sanitize. pose proof (to_lowercase_caps s) as Hc. apply Forall_fmap. eapply Forall_impl; [exact Hc|].
  intros c Hn. cbn in *. unfold name_char, identifier_byte. apply bool_decide_eq_true. case_decide; lia.
Qed.

(** A migrated server is accepted exactly when it has an address, its domains are not blank,
    it has one if its mode forwards, and the name made of its identifier or of its file is
    not empty and has at most 64 characters. *)
Lemma migrated_valid `{!LowercaseCaps} v1 f :
  validate_server_config (mr_config (convert_v1_to_v2 v1 f)) = Ok tt ↔
  (∃ a, a ∈ v1_addresses v1 ∧ a ≠ []) ∧
  (is_forwarding (convert_proxy_mode (v1_proxy_mode v1) f).1 = true → v1_domains v1 ≠ []) ∧
  Forall (λ d, ¬ Forall (λ ch, is_whitespace ch = true) d) (v1_domains v1) ∧
  0 < zlen (from_option id [] (v2_name v1 f)) ≤ 64.
Proof.
  rewrite validate_server_config_Ok. destruct (convert_v1_fields v1 f) as (Hn&Hw&Hd&Ha&Hm&_&_). cbv zeta in *.
  set (c := mr_config _) in *.
  assert (Haddr : sc_addresses c ≠ [] ↔ ∃ a, a ∈ v1_addresses v1 ∧ a ≠ []).
  { rewrite Ha, convert_addresses_omap. clear. induction (v1_addresses v1) as [|s l IH]; cbn.
    - split; [done|]. by intros (a&Hin%not_elem_of_nil&_).
    - destruct (ServerAddress_from_str s) as [a|e] eqn:Hs.
      + split; [intros _|done]. exists s. split; [left|]. intros ->. by vm_compute in Hs.
      + apply from_str_fails in Hs as [-> _]. rewrite IH. setoid_rewrite elem_of_cons. naive_solver. }
  assert (Hid : ∃ s, v2_name v1 f = Some (sanitize s)) by (unfold v2_name; destruct (v1_config_id v1); eauto).
  destruct Hid as [s Hs]. rewrite Hs in *. cbn [from_option id]. rewrite <- Haddr, <- Hd, <- Hm.
  assert (Hident : is_identifier (sanitize s) ↔ 0 < zlen (sanitize s) ≤ 64).
  { unfold is_identifier, zlen. pose proof (sanitize_identifier s). destruct (sanitize s); cbn [length]; [|naive_solver lia].
    split; [by intros [? _]|lia]. }
  rewrite <- Hident. split.
  - intros [Hv1 Hv2 Hv3 Hv4 _]. split_and!; [done|by intros [? _]%Hv2|done|by apply Hv4].
  - intros (Hv1&Hv2&Hv3&Hv4). constructor; [done|by eauto|done| |].
    + intros n. rewrite Hn. by intros [= <-].
    + intros n. by rewrite Hw.
Qed.

(** ** What no warning means *)

Lemma warn_if_nil b w : warn_if b w = [] ↔ b = false.
Proof. by destruct b. Qed.

Lemma addresses_kept addrs f :
  (convert_addresses addrs f).2 = [] →
  Forall2 (λ s a, ServerAddress_from_str s = Ok a) addrs (convert_addresses addrs f).1.
Proof.
  induction addrs as [|s addrs IH]; [by constructor|]. cbn. destruct (convert_addresses addrs f) as [ps ws]. cbn in *.
  destruct (ServerAddress_from_str s) eqn:Hs; cbn; [|done]. intros Hw. constructor; [done|by apply IH].
Qed.

Lemma ip_list_kept l f :
  (parse_ip_list l f).2 = [] → Forall2 (λ s net, parse_ip_entry s = Some net) l (parse_ip_list l f).1.
Proof.
  cbn. intros Hw%fmap_nil_inv. induction l as [|s l IH]; [constructor|]. rewrite filter_cons in Hw. cbn.
  case_decide as Hs; [done|]. destruct (parse_ip_entry s) as [net|] eqn:Hp; [|done]. constructor; [done|by apply IH].
Qed.

(** A conversion without warnings keeps every address, in order, every entry of an enabled
    IP filter, the server manager, and leaves out no filter that was enabled. *)
Lemma quiet_migration v1 f :
  let c := mr_config (convert_v1_to_v2 v1 f) in
  mr_warnings (convert_v1_to_v2 v1 f) = [] →
  Forall2 (λ s a, ServerAddress_from_str s = Ok a) (v1_addresses v1) (sc_addresses c) ∧
  (∀ filters ip, v1_filters v1 = Some filters → vf_ip_filter filters = Some ip → if_enabled ip = true →
    ∃ wl bl, Forall2 (λ s net, parse_ip_entry s = Some net) (if_whitelist ip) wl ∧
      Forall2 (λ s net, parse_ip_entry s = Some net) (if_blacklist ip) bl ∧
      sc_ip_filter c = if decide (wl = [] ∧ bl = []) then None else Some (Build_IpFilterConfig wl bl)) ∧
  (is_given (sc_server_manager c) = is_given (v1_server_manager v1)) ∧
  (∀ filters, v1_filters v1 = Some filters →
    opt_has gf_enabled (vf_rate_limiter filters) = false ∧ opt_has gf_enabled (vf_id_filter filters) = false ∧
    opt_has gf_enabled (vf_name_filter filters) = false ∧ opt_has gf_enabled (vf_ban filters) = false).
Proof.
  destruct (convert_v1_fields v1 f) as (_&_&_&Ha&_&Hs&Hi). cbv zeta in *. rewrite Ha, Hs, Hi. intros Hw.
  assert ((convert_addresses (v1_addresses v1) f).2 = [] ∧ (convert_server_manager v1 f).2 = [] ∧
    (convert_ip_filter v1 f).2 = [] ∧ filter_warnings v1 f = []) as (W1&W2&W3&W4).
  { revert Hw. unfold convert_v1_to_v2. destruct (convert_proxy_mode _ _), (convert_addresses _ _), (convert_motds _ _),
      (convert_server_manager _ _), (convert_ip_filter _ _). cbn [mr_warnings snd].
    intros Hw. repeat (apply app_nil in Hw as [? Hw]). done. }
  split_and!.
  - by apply addresses_kept.
  - intros filters ip Hf Hip He. revert W3. unfold convert_ip_filter. rewrite Hf. cbv [mbind option_bind]. rewrite Hip, He.
    cbn [negb]. pose proof (ip_list_kept (if_whitelist ip) f) as K1. pose proof (ip_list_kept (if_blacklist ip) f) as K2.
    destruct (parse_ip_list (if_whitelist ip) f) as [wl w1], (parse_ip_list (if_blacklist ip) f) as [bl w2].
    cbn [fst snd] in *. intros W. exists wl, bl.
    assert (w1 = [] ∧ w2 = []) as [-> ->].
    { case_decide; cbn [snd] in W; repeat (apply app_nil in W as [? W]); done. }
    split_and!; [by apply K1|by apply K2|]. by case_decide.
  - revert W2. unfold convert_server_manager. destruct (v1_server_manager v1) as [sm|]; [|done].
    destruct (vm_provider_name sm); [|done]. case_decide; [|repeat case_decide; try done; by destruct (panel_server_id _ _ _)].
    unfold convert_local. by destruct (vm_local_provider sm).
  - intros filters Hf. revert W4. unfold filter_warnings. rewrite Hf. intros W.
    repeat (apply app_nil in W as [?%warn_if_nil W]). by apply warn_if_nil in W.
Qed.

(** ** From a directory of the first version to the servers of the proxy *)

Lemma rsplit_dot_middle a b : 46 ∉ b → rsplit_dot (a ++ [46] ++ b) = Some (a, b).
Proof.
  intros Hb. assert (Hn : rsplit_dot b = None).
  { induction b as [|c b IH]; [done|]. apply not_elem_of_cons in Hb as [Hc Hb]. cbn. rewrite IH by done.
    by rewrite decide_False. }
  induction a as [|c a IH]; cbn [app rsplit_dot]; [by rewrite Hn, decide_True|].
  change (46 :: b) with ([46] ++ b). by rewrite IH.
Qed.

(** The file a YAML file becomes: a TOML file of the same stem. *)
Lemma out_name_toml name :
  is_yaml name = true → is_toml (out_name name) = true ∧ file_stem (out_name name) = file_stem name.
Proof.
  intros Hy. assert (Hst : file_stem name ≠ []).
  { unfold is_yaml in Hy. apply bool_decide_eq_true in Hy. unfold extension, file_stem in *.
    destruct (decide (name = str "..")); [naive_solver|]. destruct (rsplit_dot name) as [[b a]|]; [|naive_solver].
    destruct (decide (b = [])); [naive_solver|done]. }
  unfold out_name. generalize dependent (file_stem name). intros st Hst.
  change (str ".toml") with ([46] ++ str "toml").
  assert (Hr : rsplit_dot (st ++ [46] ++ str "toml") = Some (st, str "toml")) by (apply rsplit_dot_middle; by apply (bool_decide_unpack _)).
  assert (Hdd : st ++ [46] ++ str "toml" ≠ str "..").
  { intros E. apply (f_equal length) in E. rewrite length_app in E. cbn in E. lia. }
  unfold is_toml, extension, file_stem. rewrite Hr. rewrite !decide_False by done. split; [by apply bool_decide_eq_true|done].
Qed.

Definition migrate_all (fs : files) : list (rstring * result rstring rstring) → migration → migration :=
  flip (foldl (λ st e, migrate_entry fs e.1 e.2 st)).

(** An entry only writes its own file. *)
Lemma migrate_entry_other fs name content st key :
  is_yaml name = false ∨ out_name name ≠ key → mg_out (migrate_entry fs name content st) !! key = mg_out st !! key.
Proof.
  unfold migrate_entry. destruct (is_yaml name) eqn:Hy; [|done]. cbn [negb]. intros [?|Hk]; [done|].
  destruct content as [content|]; [|done]. destruct (from_yaml content) as [v1|]; [|done]. case_decide; [done|]. cbv zeta.
  destruct (to_toml _); [|done]. destruct (fs_write _ _); [|done]. cbn [mg_out]. by rewrite lookup_insert_ne.
Qed.

Lemma migrate_all_other fs es st key :
  Forall (λ e, is_yaml e.1 = false ∨ out_name e.1 ≠ key) es → mg_out (migrate_all fs es st) !! key = mg_out st !! key.
Proof.
  intros Hes. revert st. induction Hes as [|e es He _ IH]; intros st; [done|]. unfold migrate_all, flip in *. cbn [foldl].
  rewrite IH. by apply migrate_entry_other.
Qed.

(** A file that can be converted and written. *)
Record convertible (fs : files) (name content : rstring) (v1 : V1ServerConfig) (text : rstring) : Prop := {
  cv_yaml : is_yaml name = true;
  cv_parsed : from_yaml content = Ok v1;
  cv_used : ¬ (v1_domains v1 = [] ∧ v1_addresses v1 = []);
  cv_printed : to_toml (mr_config (convert_v1_to_v2 v1 name)) = Ok text;
  cv_written : fs_write fs (out_name name) = Ok tt }.

Lemma migrate_entry_written fs name content v1 text st :
  convertible fs name content v1 text → mg_out (migrate_entry fs name (Ok content) st) !! out_name name = Some text.
Proof.
  intros [Hy Hp Hu Ht Hw]. unfold migrate_entry. rewrite Hy, Hp. cbn [negb]. rewrite decide_False by done. cbv zeta.
  rewrite Ht, Hw. cbn [mg_out]. by rewrite lookup_insert_eq.
Qed.

Lemma directory_written fs inp outp out entries name content v1 text :
  fs_input fs = Some (Ok entries) → fs_create fs = Ok tt → (name, Ok content) ∈ readable_entries entries →
  NoDup (out_name ∘ fst <$> filter (λ e, is_yaml e.1 = true) (readable_entries entries)) →
  convertible fs name content v1 text →
  (migrate_directory fs inp outp out).2 !! out_name name = Some text.
Proof.
  intros Hi Hc Hin Hnd Hcv. unfold migrate_directory. rewrite Hi, Hc. cbn [snd].
  generalize (Build_migration out (entry_warnings entries) 0 0). revert Hin Hnd. generalize (readable_entries entries).
  intros es Hin Hnd st. change (mg_out (migrate_all fs es st) !! out_name name = Some text).
  apply list_elem_of_split in Hin as (pre&post&->). unfold migrate_all, flip. rewrite foldl_app. cbn [foldl fst snd].
  change (mg_out (migrate_all fs post (migrate_entry fs name (Ok content) (migrate_all fs pre st))) !! out_name name = Some text).
  rewrite migrate_all_other; [by apply migrate_entry_written with v1|].
  rewrite filter_app, filter_cons_True in Hnd by apply Hcv. rewrite fmap_app in Hnd. cbn [fmap list_fmap] in Hnd.
  apply NoDup_app in Hnd as (_&_&Hnd). apply NoDup_cons in Hnd as [Hnd _].
  apply Forall_forall. intros e He. destruct (is_yaml e.1) eqn:Hy; [right|by left]. intros Heq. apply Hnd.
  apply list_elem_of_fmap. exists e. split; [symmetry; exact Heq|]. by apply list_elem_of_filter.
Qed.

(** [toml]: what the printer writes of a configuration that holds no identifier and no
    bracketed host is parsed back as that configuration. *)
Context `{TP : !TomlParser}.
Class TomlRoundTrip :=
  toml_roundtrip c text : to_toml c = Ok text → sc_id c = None →
    Forall (λ a, ServerAddress_from_str (ServerAddress_fmt a) = Ok a) (sc_addresses c) → parse_toml text = Some c.

Lemma migrated_loads `{!LowercaseCaps, !TomlRoundTrip} fs name content v1 text :
  convertible fs name content v1 text →
  validate_server_config (mr_config (convert_v1_to_v2 v1 name)) = Ok tt →
  Forall (λ a, head (addr_host a) ≠ Some 91) (sc_addresses (mr_config (convert_v1_to_v2 v1 name))) →
  load_server_config (out_name name) (Some text) =
    Ok (with_id (Some (file_stem name)) (mr_config (convert_v1_to_v2 v1 name))).
Proof.
  intros Hcv Hv Hb. destruct (convert_v1_fields v1 name) as (_&_&_&Ha&_). cbv zeta in Ha.
  assert (Hid : sc_id (mr_config (convert_v1_to_v2 v1 name)) = None).
  { unfold convert_v1_to_v2. destruct (convert_proxy_mode _ _), (convert_addresses _ _), (convert_motds _ _).
    by destruct (convert_server_manager _ _), (convert_ip_filter _ _). }
  unfold load_server_config. cbn [mbind]. cbv [mbind result_bind].
  rewrite (toml_roundtrip _ _ (cv_printed _ _ _ _ _ Hcv) Hid).
  - rewrite Hv, Hid. destruct (out_name_toml name (cv_yaml _ _ _ _ _ Hcv)) as [_ ->]. done.
  - apply Forall_forall. intros a Hin. apply server_address_back; [by eapply Forall_forall in Hb|].
    rewrite Ha, convert_addresses_omap in Hin. apply list_elem_of_omap in Hin as (s&_&Hs).
    destruct (ServerAddress_from_str s) as [a'|] eqn:Hs'; [|done]. injection Hs as ->. by eapply from_str_port.
Qed.

(** C38: A server of the first version that is parsed, printed and written without error, has a non-empty address, a domain where its
    mode needs one, no blank domain, no address whose host begins with a bracket and a name of 1
    to 64 characters, and whose file no other file shares its stem with, is one of the servers of
    the migrated directory: its TOML file is written and the file provider loads it, under the
    stem, as the converted configuration. That a configuration which is written as TOML with
    serde's derived implementations is read back by them is assumed. *)
Theorem migrated_servers_load `{LCC : !LowercaseCaps, TRT : !TomlRoundTrip} (fs : files) (inp outp : rstring) (out : gmap rstring rstring)
    (entries : list dir_entry) (name content : rstring) (v1 : V1ServerConfig) (text : rstring) :
  fs_input fs = Some (Ok entries) → fs_create fs = Ok tt → (name, Ok content) ∈ readable_entries entries →
  NoDup (out_name ∘ fst <$> filter (λ e, is_yaml e.1 = true) (readable_entries entries)) →
  convertible fs name content v1 text →
  (∃ a, a ∈ v1_addresses v1 ∧ a ≠ []) →
  (is_forwarding (convert_proxy_mode (v1_proxy_mode v1) name).1 = true → v1_domains v1 ≠ []) →
  Forall (λ d, ¬ Forall (λ ch, is_whitespace ch = true) d) (v1_domains v1) →
  0 < zlen (from_option id [] (v2_name v1 name)) ≤ 64 →
  Forall (λ a, head (addr_host a) ≠ Some 91) (sc_addresses (mr_config (convert_v1_to_v2 v1 name))) →
  is_toml (out_name name) = true ∧
  load_server_config (out_name name) ((migrate_directory fs inp outp out).2 !! out_name name) =
    Ok (with_id (Some (file_stem name)) (mr_config (convert_v1_to_v2 v1 name))).
Proof.
  intros Hi Hc Hin Hnd Hcv Ha Hf Hd Hn Hb. split; [by apply out_name_toml, Hcv|].
  rewrite (directory_written fs inp outp out entries name content v1 text) by done.
  eapply migrated_loads; [done|by apply migrated_valid|done].
Qed.

(** ** What the migration loses silently *)

(** The limiter of a migrated proxy is off, whatever the first version had, and no warning
    is about it. *)
Theorem migrated_rate_limiter_off (v1 : V1InfrarustConfig) :
  rl_enabled (px_rate_limit (pr_config (convert_v1_proxy_config v1))) = false.
Proof. unfold convert_v1_proxy_config. cbn. by destruct (vi_filters v1 ≫= gg_rate_limiter). Qed.

(** An entry that is not enabled becomes the message shown for unknown domains. *)
Lemma disabled_motd_shown text :
  let entry := Build_V1MotdEntry false (Some text) None None None None None [] in
  convert_v1_motd_entry entry = None ∧
  motd_online <$> convert_default_motd (Some (Build_V1Motds None None None None None None None (Some entry) None)) =
    Some (Some (Build_MotdEntry text None None None)).
Proof. done. Qed.
End convert.

(** ** A directory *)

Section sample.
#[local] Existing Instances range_nets ascii_lowercase.

Definition no_text : IpNetText := {| parse_ipnet _ := None; parse_ip _ := None; net_of_ip ip := (ip, ip) |}.
Definition no_humantime : Humantime := λ _, None.
#[local] Existing Instances no_text no_humantime.

Lemma ascii_caps : LowercaseCaps (LC := ascii_lowercase).
Proof.
  intros s. apply Forall_fmap, Forall_forall. intros c _. cbn. unfold ascii_lower. case_decide; lia.
Qed.

(** A format in which a file is a domain. *)
Definition v1_of (domain : rstring) : V1ServerConfig :=
  Build_V1ServerConfig [domain] [str "10.0.0.1:25566"] None None None None None (Some (str "Hub@file")) None None None None.
Definition v2_of (domain : rstring) : ServerConfig := mr_config (convert_v1_to_v2 (v1_of domain) []).
Definition domain_formats : Formats := {|
  from_yaml text := Ok (v1_of text);
  proxy_from_yaml _ := Err [];
  to_toml c := match sc_domains c with
               | [d] => if decide (c = v2_of d) then Ok d else Err []
               | _ => Err []
               end;
  proxy_to_toml _ := Err [] |}.
Definition toml_of_domain : TomlParser := λ text, Some (v2_of text).
#[local] Existing Instances domain_formats toml_of_domain.

Lemma domain_roundtrip : TomlRoundTrip.
Proof.
  intros c text Ht _ _. cbn in Ht. destruct (sc_domains c) as [|d []]; [done| |done]. case_decide as Hc; [|done].
  injection Ht as ->. by rewrite Hc.
Qed.

Definition writable (names : list string) : files := {|
  fs_input := Some (Ok ((λ n, Ok (str n, Ok (str n))) <$> names));
  fs_create := Ok tt;
  fs_write _ := Ok tt |}.

Lemma migrated_servers_load_witness :
  (is_toml (out_name (str "hub.yml")) = true ∧
  load_server_config (out_name (str "hub.yml"))
      ((migrate_directory (writable ["a.yaml"; "hub.yml"; "notes.txt"]%string) [] [] ∅).2 !! out_name (str "hub.yml")) =
    Ok (with_id (Some (str "hub")) (v2_of (str "hub.yml")))) ∧
  sc_name (v2_of (str "hub.yml")) = Some (str "hub").
Proof.
  split; [|by vm_compute].
  apply (migrated_servers_load (LCC := ascii_caps) (TRT := domain_roundtrip)
    (writable ["a.yaml"; "hub.yml"; "notes.txt"]%string) [] [] ∅
    ((λ n, Ok (str n, Ok (str n))) <$> ["a.yaml"; "hub.yml"; "notes.txt"]%string)
    (str "hub.yml") (str "hub.yml") (v1_of (str "hub.yml")) (str "hub.yml")).
  1-2: done.
  - apply (bool_decide_unpack _). by vm_compute.
  - apply (bool_decide_unpack _). by vm_compute.
  - constructor; [by vm_compute|by vm_compute|by intros [? _]|by vm_compute|done].
  - exists (str "10.0.0.1:25566"). split; [left|done].
  - done.
  - constructor; [|constructor]. intros Hf. apply Forall_cons in Hf as [Hf _]. by vm_compute in Hf.
  - by vm_compute.
  - apply (bool_decide_unpack _). by vm_compute.
Defined.

(** Two files of one stem: both are counted, and the second replaces the first. *)
Theorem same_stem_overwritten :
  let r := migrate_directory (writable ["hub.yaml"; "hub.yml"]%string) [] [] ∅ in
  map_to_list r.2 = [(str "hub.toml", str "hub.yml")] ∧
  r.1 = Ok [Build_MigrationWarning SevInfo (str "summary") (str "2 file(s) converted, 0 skipped")].
Proof. by vm_compute. Qed.
End sample.
